(* ===== verification/_CoqProject ===== *)
-Q . S2P
Prelude.v
PyUtils.v
Numbering.v
Slabs.v
NpUtils.v
Values.v
Conventions.v
Fnmatch.v
Tree.v
Parsers.v
Walkers.v
Search.v
Distribution.v
Protocols.v
MergeIds.v
Dataspace.v
PointRange.v
Graph.v
GraphBuild.v
NestedTree.v
AlgoUtils.v
Compare.v
PyFloat.v
CutTree.v
Sids.v
Refs.v
Presets.v
PartZone.v
PartNumbering.v
StoU.v
StoUJoins.v
NGonTools.v
MaiaNodes.v
Joins.v
JoinsSpec.v
Filters.v
FixTree.v
FullToDist.v
FullToDistSpec.v
Compatibility.v
CompatibilitySpec.v
PostSplit.v
RecoverJn.v
PostSplitSpec.v
BlockToBlock.v
Redistribute.v
RedistributeSpec.v
Transfer.v
IndexExchange.v
TransferSpec.v
FacesSpec.v
DistToPart.v
Discover.v
PartToDist.v
FieldsSpec.v
DistFromPart.v
DistFromPartSpec.v
Convert.v
ConvertSpec.v
PartTree.v
Balancing.v
