(* ===== verification/Prelude.v ===== *)
(** * Maia: a verification library

    Maia manipulates CGNS meshes in parallel: trees of named, labelled nodes whose values are numpy
    arrays, distributed over MPI ranks by intervals of global numbers or split into partitions.  This
    library models its core in Python: the trees and their searches, the structured numberings and
    array utilities on which the distributed algorithms rely, the partitioning (how blocks are cut, how
    zones are dealt to the ranks, how partitions are joined), the conversion of structured zones,
    the distribution of trees and of their arrays in files, and the transfers of data and of whole trees
    between distributed and partitioned trees.

    ** Parts, files and sources (under src/maia)

    Foundations.
    - Prelude: Python exceptions and results (the monad [py]), sequences with Python indices and
      slices, sorting, splitting of strings, machine integers, and the lemmas the other files share.
    - PyUtils: [utils/py_utils.py], list utilities and uniform distributions.
    - Numbering: [utils/numbering/s_numbering_funcs.py] and the kernels of [numbering.pybind.cpp] it
      calls: indices of vertices, faces and cells of structured blocks, face connectivities.
    - Slabs: [utils/numbering/range_to_slab.py], the decomposition of an interval of global numbers
      into hyperslabs.
    - NpUtils: [utils/ndarray/np_utils.py] and the kernels of [layouts.pybind.cpp], on arrays of
      integers.
    - PyFloat: double precision, with the specification floats of the standard library.
    - Fnmatch: the wildcards of the Python standard library, which name predicates use.

    Trees of nodes.
    - Values, Tree: [pytree/node/access.py], [check.py], [create.py], [name_utils.py]: the conversion
      of values and the nodes themselves.  A function that mutates a node is a state transformer that
      returns the node after the call also when it raises.
    - Parsers: [pytree/walk/_node_parsers.py], the traversals of a tree by six classes.
    - Walkers: [pytree/walk/predicate.py], [node_walker.py], [nodes_walker.py], [node_walkers.py],
      [nodes_walkers.py], [walkers_api.py]: the walkers are records of their attributes, with the
      cache; their setters and calls are functions on these records.
    - Search: [pytree/walk/generate.py], [generate_utils.py], [remove_nodes.py], [pytree/path_utils.py],
      [update_child] and [belongs_to_family]: access by name, label and path, removals.
    - Refs: places in a tree, by which the loops that edit the nodes they iterate on are modelled.
    - Presets: [pytree/node/presets.py], the constructors of standard nodes.
    - Conventions: [pytree/maia/conventions.py], the names of partitions and joins.
    - AlgoUtils: [pytree/algo_utils.py].
    - Compare: [pytree/compare.py], [compare_arrays.py] and the traversal of two trees of
      [pytree/graph/cgns.py].
    - Sids: [pytree/sids/node_inspect.py], [elements_utils.py], [utils.py] and [pytree/utils.py]: what
      is read from zones, elements, connectivities and subsets, connected zones.
    - MaiaNodes: [pytree/maia/maia_nodes.py] and [io/distribution_tree.py], the nodes that hold
      distributions and global numbers.

    Graphs.
    - Graph: [pytree/graph/algo.py], the depth-first traversal with an explicit stack.
    - GraphBuild: [pytree/graph/build.py], [f_graph.py], [fb_graph.py], [fe_graph.py]: trees built by a
      traversal, graphs by adjacency lists.
    - NestedTree: [pytree/graph/nested_tree.py], trees that know their parent, as objects of a heap.

    Distributed and partitioned trees.
    - Distribution: [utils/parallel/utils.py]; a communicator is the list of the values of the ranks.
    - PointRange: [utils/numbering/pr_utils.py], point lists of ranges of structured blocks.
    - CutTree: [factory/partitioning/split_S/balancing_cut_tree.py] and [split_cut_tree.py], the
      splitting of structured blocks by a cut tree.
    - PartZone, PartNumbering: [factory/partitioning/split_S/part_zone.py], the zones, global numbers and
      joins of the partitions of a structured zone.
    - Balancing: [factory/partitioning/load_balancing]: homogeneous parts, Karmarkar-Karp differencing,
      uniform balancing, requests of parts.
    - StoU, StoUJoins: [algo/dist/s_to_u.py], the conversion of structured zones: faces, boundary
      conditions and joins.
    - Joins, JoinsSpec: [algo/dist/matching_jns_tools.py], the pairs of joins of a tree.
    - Protocols: the exchanges of [transfer/protocols.py] between ranks; those of ParaDiGM are the
      operations of a class with laws, [block_exchange].
    - MergeIds: [algo/dist/merge_ids.py], the renumbering of distributed elements.
    - NGonTools: [algo/part/ngon_tools/_ngon_tools.py], [algo/indexing.py] and the kernels of
      [ngon_tools.pybind.hpp]: parent elements and cell faces.
    - Dataspace, Filters: [io/hdf/hdf_dataspace.py], [cgns_elements.py], [cgns_subsets.py], [tree.py],
      [utils.py]: the part of each array of a file that a rank reads or writes.
    - FixTree: [io/fix_tree.py], the repairs of trees that have just been read.
    - FullToDist, FullToDistSpec: [factory/full_to_dist.py], the distribution of a tree that all the
      ranks know.
    - Compatibility, CompatibilitySpec: [algo/seq/compatibility.py], the conversion of polyhedral trees
      between the conventions of CGNS 3 and 4, with the functions of [algo/indexing.py] and
      [algo/part/ngon_tools/_ngon_tools.py] on the nodes of elements.
    - PostSplit: [factory/partitioning/post_split.py], the post-treatment of partitioned trees: hybrid
      joins, zone pointers, additional nodes, related sub-regions, split and naming of the joins.
    - RecoverJn, PostSplitSpec: [transfer/dist_to_part/recover_jn.py], the opposite faces of the joins of
      a partitioned tree, and the correspondence of the two sides once the joins are split.  The
      exchange by global number is the class [gnum_exchange] with its law.
    - BlockToBlock: the exchange between two distributions of [transfer/protocols.py]; Redistribute,
      RedistributeSpec: [algo/dist/redistribute.py], a distributed tree moved to another distribution.
    - PartTree: the functions of [factory/partitioning/split_S/part_zone.py] on nodes and trees, on top of
      PartZone and PartNumbering.
    - Convert, ConvertSpec: the functions of [algo/dist/s_to_u.py] on nodes and trees, on top of StoU.

    Transfers between distributed and partitioned trees.
    - Transfer: [transfer/utils.py] and the exchanges by global number of [transfer/protocols.py]; those
      of ParaDiGM are the classes [parts_exchange] and [multi_exchange] with their laws, of which
      TransferSpec gives sequential instances.
    - DistToPart: [transfer/dist_to_part/data_exchange.py] and [tree_api.py], the fields sent to the
      partitions; PartToDist: [transfer/part_to_dist/data_exchange.py] and [tree_api.py], the fields
      gathered from them; FieldsSpec: the composition of the two.
    - IndexExchange: [transfer/part_to_dist/index_exchange.py], the point lists, ranges and faces of a
      distributed zone computed from those of its partitions; TransferSpec, FacesSpec: their theorems.
    - Discover: [factory/dist_from_part.py], the nodes that only some of the partitions have;
      DistFromPart, DistFromPartSpec: the rest of that file, the distributed tree recovered from a
      partitioned one, on top of Discover, IndexExchange and PartToDist.

    A file that models a component requires those it calls: Walkers is built on Parsers and Tree,
    Search on Walkers, Sids on Search and Numbering, Balancing on Sids, PointRange on Numbering,
    Distribution on Search; PartZone and StoU use Numbering and PointRange, Filters uses Dataspace and
    MaiaNodes, FixTree uses Joins and StoU, FullToDist uses Presets and MaiaNodes.

    ** What the theorems show

    - Trees: any sequence of edits keeps a tree well-formed ([edits_keep_wf]); setting children is
      atomic; copies are equal to their original; values are read back as they were written
      ([text_value_roundtrip], [int_value_spec]); preset constructors return well-formed nodes of the
      announced label ([presets_well_typed]); the comparison of trees decides their equality up to the
      order of children ([is_same_tree_spec]).
    - Searches: every parser ends and returns the nodes it is meant to, in preorder or in level order
      ([range_search_spec], [shallow_search_spec]); the chains of predicates, the paths and the
      removals are characterised ([chain_search_spec], [predicates_to_paths_spec], [removals_spec],
      [update_child_spec]); the cache of a walker cannot be observed ([cache_transparent]); the explicit
      stack traversal refines a recursive one for any visitor ([depth_first_search_refines]), and so does
      the construction of trees ([depth_first_build_spec], [fb_tree_spec]); trees that know their parent
      keep consistent links ([children_have_parent]).
    - Numberings and arrays: bijections between indices and triplets, face connectivities and their
      optimised generation, slabs that cover an interval exactly, jagged arrays, run lengths, layouts,
      distributions and point lists.
    - Partitioning: the refinement of a cut tree terminates and adds one leaf ([refine_cut_tree_spec]),
      the parts of a block cover it ([split_S_block_partition], [split_S_line_partition]) and follow
      the weights ([split_S_block_weighted]); the partitions of a zone number its cells once
      ([part_s_zone_partition]) and are joined exactly where they touch ([zone_joins_complete],
      [internal_gcs_match]); zones are dealt completely to ranks ([karmarkar_karp_spec],
      [balance_with_uniform_weights_spec], [nosplit_repart_spec], [npart_parts_spec]); connected zones
      are connected components ([find_connected_zones_spec]).
    - Conversion and joins: the faces computed by the ranks are those of the zone
      ([zonedims_to_ngon_spec]), the points of boundaries and joins correspond
      ([bc_s_to_bc_u_spec], [gc_join_points], [gc_pair_exchanged]); the joins are named by one pairing
      ([donor_names_opposite], [matching_pairs_spec]); repaired joins correspond ([fix_pair_spec]).
    - Distributed arrays: the selections of the ranks in a file are the array
      ([data_array_filter_spec], [eso_dataspace_spec]) and each array has its selection
      ([tree_filter_complete]); the parts of a distributed tree are the arrays
      ([distribute_element_lossless], [distribute_data_lossless]); distributions are added and removed
      without another change ([distribution_info_silent]); merged elements are renumbered
      ([merge_distributed_ids_spec]); parents and cell faces determine each other
      ([pe_nface_roundtrip]).
    - Conversions of conventions: [poly_roundtrip], [poly_onera_roundtrip]; the interlaced and indexed
      connectivities are inverse of each other on the nodes of zones.
    - Split joins: [split_joins_exchanged] composes the recovery of the opposite faces of all the ranks
      with the split of the joins: both sides succeed and their point lists are exchanged.
    - Redistributions: [block_to_block_spec], [redistribute_elements_spec]; each rank receives its block
      for the new distribution, and polyhedral elements can be moved back.
    - Converted trees: [convert_s_to_u_zones], whatever the joins, hybrid ones included, the zones stay at their
      place and become unstructured.
    - Transfers and recovery: [coords_roundtrip] composes the two directions of the transfer of
      coordinates; [group_numbers_spec], [dist_faces_spec] and [dist_range_spec] characterise the
      recovered numbers, faces and ranges; [block_cells_spec] shows that the walks along the joins of a
      structured block end and measure it.
    - Deviations of the code from what it means to do are theorems as well:
      [safe_int_cast_int64_min], [shallow_root_mismatch], [rm_node_from_path_recursive],
      [single_zone_index_error], [depth_of_spec], [getNodeFromPredicates_raises],
      [paths_to_tree_prefix], [is_same_value_broadcasts], [pe_to_nface_unshifted],
      [discrete_data_not_cleaned], [stale_links], [hybrid_joins_raise],
      [related_subregion_truncated], [two_cells_lose_signs],
      [stale_connectivity_distribution], [planar_lists_rejected], [shared_faces_doubled],
      [shared_dataset_rejected], [dataset_path_left].

    ** Conventions, fuel and bounds

    - An exception is a value of the type [py]; messages, warnings, logs and prints are left out.  A
      generator is the list of what it yields.
    - Recursions that are not structural take a fuel: the number of nodes of the tree for the
      parsers and for the distribution of nested subsets, the depth for the selection in a cut tree,
      [nesting] for the insertions, which a measure (depth, leaves in excess) justifies, the number of
      entries for the differencing, the numbers of zones and ranks for the balancing loops, the number of
      partitions for the walks along joins ([walk_fuel]).  Theorems
      state that the result is returned with that fuel, or for any fuel beyond a bound for the stack
      traversal.
    - Integers are exact, except where the width matters: casts and distributions wrap at the width
      of their type ([wrap]).  Floats are rounded to double precision at each operation; the sums of
      Python are from left to right.  The covering of a block assumes that the rounded cut positions
      are in order, a condition that [cuts_ok] computes.
    - A collective call is a function of the values of all the ranks; a theorem on a distributed result
      is on the results of all the ranks put together.
    - Parameters: the equality of arrays of numpy (class [ArrayEqual]), the conversions of numbers of
      numpy, the sort function of the searches, the graph and the visitor of a traversal, the exchanges
      of ParaDiGM (classes [block_exchange], [gnum_exchange], [parts_exchange], [multi_exchange]).

    ** Not modelled

    The exchanges with MPI and ParaDiGM themselves, the graph partitioners, the geometry in floating
    point, the reading and writing of files, the C++ modules other than the kernels named above, the
    printing and yaml formats, the non uniform balancing, the sizes of
    distributed trees, the selection of the subsets sent to partitions, the other algorithms on distributed and
    partitioned trees (merge, adaptation, interpolation, extraction), which rest on ParaDiGM. *)
From Stdlib Require Export ZArith Lia.
From Stdlib Require Import Ascii.
From stdpp Require Export base strings gmap numbers sorting list.

(** ** Python exceptions and results *)

(** The exception classes the modelled code raises, explicitly or through
    the Python operations it uses; [UndefinedBehavior] stands for an access
    outside an array in the C++ kernels, [OutOfFuel] for a loop cut short. *)
Inductive exn : Set :=
| AssertionError
| ValueError
| TypeError
| RuntimeError
| NotImplementedError
| IndexError
| KeyError
| OverflowError
| ZeroDivisionError
| AttributeError
| NameError
| NotFoundError
| CGNSLabelNotEqualError
| PlainException
| StopIteration
| UndefinedBehavior
| OutOfFuel.

#[export] Instance exn_eq_dec : EqDecision exn.
Proof. solve_decision. Defined.

(** A Python call either returns a value or raises. *)
Inductive py (A : Type) : Type :=
| Ret (a : A)
| Raise (e : exn).
Arguments Ret {_} _.
Arguments Raise {_} _.

#[export] Instance py_ret : MRet py := fun A a => Ret a.
#[export] Instance py_bind : MBind py := fun A B f m =>
  match m with Ret a => f a | Raise e => Raise e end.
#[export] Instance py_fmap : FMap py := fun A B f m =>
  match m with Ret a => Ret (f a) | Raise e => Raise e end.

(** A loop that updates a state and may raise. *)
Fixpoint foldM {S A} (f : S -> A -> py S) (s : S) (l : list A) : py S :=
  match l with [] => Ret s | x :: l' => s ← f s x; foldM f s l' end.

Definition py_assert (b : bool) : py () := if b then Ret () else Raise AssertionError.

(** Python boolean value of an [option] answer. *)
Definition of_option {A} (e : exn) (o : option A) : py A :=
  match o with Some a => Ret a | None => Raise e end.

(** ** Python sequences *)

(** Position designated by the Python index [i] in a sequence of length [n]:
    negative indices count from the end, [None] is IndexError. *)
Definition norm_index (n : nat) (i : Z) : option nat :=
  if bool_decide (0 <= i < Z.of_nat n)%Z then Some (Z.to_nat i)
  else if bool_decide (- Z.of_nat n <= i < 0)%Z then Some (Z.to_nat (i + Z.of_nat n))
  else None.

(** [l[i]] *)
Definition py_get {A} (l : list A) (i : Z) : py A :=
  match norm_index (length l) i with
  | Some k => of_option IndexError (l !! k)
  | None => Raise IndexError
  end.

(** [l[i] = x] *)
Definition py_set {A} (l : list A) (i : Z) (x : A) : py (list A) :=
  match norm_index (length l) i with
  | Some k => Ret (<[k:=x]> l)
  | None => Raise IndexError
  end.

(** A slice bound, clamped to the sequence as CPython does. *)
Definition clamp (n : nat) (i : Z) : nat :=
  Z.to_nat (if bool_decide (i < 0)%Z then Z.max 0 (i + Z.of_nat n) else Z.min i (Z.of_nat n)).

(** [l[a:b]], [l[:b]] and [l[a:]] *)
Definition py_slice {A} (l : list A) (a b : Z) : list A :=
  take (clamp (length l) b - clamp (length l) a) (drop (clamp (length l) a) l).
Definition slice_to {A} (l : list A) (b : Z) : list A := take (clamp (length l) b) l.
Definition slice_from {A} (l : list A) (a : Z) : list A := drop (clamp (length l) a) l.

(** [n * [x]]: a negative factor gives the empty list. *)
Definition py_repeat {A} (n : Z) (x : A) : list A := replicate (Z.to_nat n) x.

(** [range(a, b)] and [np.arange(a, b)] *)
Definition arange (a b : Z) : list Z := seqZ a (b - a).

(** [sum(l)] *)
Definition zsum (l : list Z) : Z := foldr Z.add 0%Z l.
Definition zprod (l : list Z) : Z := foldl Z.mul 1%Z l.

(** Length of a sequence as a Python integer. *)
Definition zlen {A} (l : list A) : Z := Z.of_nat (length l).

(** [max(l)], which raises ValueError on an empty sequence. *)
Definition py_max (l : list Z) : py Z :=
  match l with [] => Raise ValueError | x :: l' => Ret (foldl Z.max x l') end.
Definition py_min (l : list Z) : py Z :=
  match l with [] => Raise ValueError | x :: l' => Ret (foldl Z.min x l') end.

(** Running sums starting from [acc]: [acc, acc + l0, acc + l0 + l1, ...]. *)
Fixpoint scan (acc : Z) (l : list Z) : list Z :=
  match l with
  | [] => [acc]
  | x :: l' => acc :: scan (acc + x) l'
  end.

(** [np.diff] *)
Fixpoint diff (l : list Z) : list Z :=
  match l with
  | x :: ((y :: _) as l') => (y - x)%Z :: diff l'
  | _ => []
  end.

(** [np.repeat(vals, counts)] *)
Definition np_repeat {A} (vals : list A) (counts : list Z) : list A :=
  concat (zip_with (fun v n => replicate (Z.to_nat n) v) vals counts).

(** ** Stable sorting, Python's [sorted] *)
Fixpoint insert_by {A} (le : A -> A -> bool) (x : A) (l : list A) : list A :=
  match l with
  | [] => [x]
  | y :: l' => if le x y then x :: y :: l' else y :: insert_by le x l'
  end.

Definition sort_by {A} (le : A -> A -> bool) (l : list A) : list A :=
  foldr (insert_by le) [] l.

(** ** Strings *)

(** [s.split(sep)] and [sep.join(l)] for a separator of one character. *)
Fixpoint split_chars (sep : ascii) (acc : list ascii) (l : list ascii) : list (list ascii) :=
  match l with
  | [] => [reverse acc]
  | c :: l' => if bool_decide (c = sep) then reverse acc :: split_chars sep [] l'
               else split_chars sep (c :: acc) l'
  end.
Definition py_split (sep : ascii) (s : string) : list string :=
  String.string_of_list_ascii <$> split_chars sep [] (String.list_ascii_of_string s).

Fixpoint join_chars (sep : ascii) (l : list (list ascii)) : list ascii :=
  match l with
  | [] => []
  | [x] => x
  | x :: l' => x ++ sep :: join_chars sep l'
  end.
Definition py_join (sep : ascii) (l : list string) : string :=
  String.string_of_list_ascii (join_chars sep (String.list_ascii_of_string <$> l)).

(** ** Fixed-width integers *)

(** The two integer widths of CGNS arrays, numpy's int32 and int64. *)
Inductive dtype : Set := I4 | I8.
#[export] Instance dtype_eq_dec : EqDecision dtype.
Proof. solve_decision. Defined.

Definition width (d : dtype) : Z := match d with I4 => 32 | I8 => 64 end.
Definition iinfo_max (d : dtype) : Z := 2 ^ (width d - 1) - 1.
Definition iinfo_min (d : dtype) : Z := - 2 ^ (width d - 1).

(** Two's complement wrap-around of an integer stored with type [d]. *)
Definition wrap (d : dtype) (z : Z) : Z :=
  (z + 2 ^ (width d - 1)) mod 2 ^ width d - 2 ^ (width d - 1).

Definition in_dtype (d : dtype) (z : Z) : Prop := (iinfo_min d <= z <= iinfo_max d)%Z.
#[export] Instance in_dtype_dec d z : Decision (in_dtype d z).
Proof. unfold in_dtype. apply _. Defined.

(** ** Automation *)

Create HintDb maia.
Create Rewrite HintDb maia.

(** Reduce binds of the [py] monad whose head is known. *)
Ltac py_simpl := cbn [mbind py_bind mret py_ret fmap py_fmap] in *.

(** Invert a hypothesis saying that a sequence of Python calls returned. *)
Ltac inv_py :=
  repeat match goal with
  | H : Raise _ = Ret _ |- _ => discriminate H
  | H : Ret _ = Raise _ |- _ => discriminate H
  | H : Ret _ = Ret _ |- _ => injection H as H; subst
  | H : Raise _ = Raise _ |- _ => injection H as H; subst
  | H : mret _ = Ret _ |- _ => injection H as H; subst
  | H : mbind _ ?m = Ret _ |- _ =>
      let E := fresh "E" in
      destruct m eqn:E; cbn [mbind py_bind mret py_ret] in H; [|discriminate H]
  | H : py_assert ?b = Ret _ |- _ =>
      let E := fresh "E" in
      destruct b eqn:E; cbn [py_assert] in H; [|discriminate H]; clear H
  end.

(** Case analysis on the boolean tests of the code. *)
Ltac case_bool :=
  repeat match goal with
  | |- context [if ?b then _ else _] =>
      lazymatch type of b with bool => destruct b eqn:? end
  | H : context [if ?b then _ else _] |- _ =>
      lazymatch type of b with bool => destruct b eqn:? end
  end.

(** ** Lemmas on Python sequences *)
Section sequences.
Local Open Scope Z_scope.

Lemma norm_index_nonneg n i :
  0 <= i < Z.of_nat n -> norm_index n i = Some (Z.to_nat i).
Proof. intros. unfold norm_index. by rewrite bool_decide_eq_true_2. Qed.

Lemma norm_index_lt n i k : norm_index n i = Some k -> (k < n)%nat.
Proof.
  unfold norm_index. repeat case_bool_decide; intros; simplify_eq; lia.
Qed.

Lemma norm_index_None n i :
  norm_index n i = None <-> i < - Z.of_nat n \/ Z.of_nat n <= i.
Proof.
  unfold norm_index. repeat case_bool_decide; split; intros; simplify_eq; first [done | lia | exfalso; lia].
Qed.

Lemma py_get_lookup {A} (l : list A) (k : nat) x :
  l !! k = Some x -> py_get l (Z.of_nat k) = Ret x.
Proof.
  intros Hk. pose proof (lookup_lt_Some _ _ _ Hk).
  unfold py_get. rewrite norm_index_nonneg, Nat2Z.id, Hk by lia. done.
Qed.

Lemma py_get_Ret {A} (l : list A) i x :
  py_get l i = Ret x -> exists k, norm_index (length l) i = Some k /\ l !! k = Some x.
Proof.
  unfold py_get. destruct (norm_index _ _) as [k|]; [|done].
  destruct (l !! k) eqn:E; cbn; [|done]. intros. inv_py. eauto.
Qed.

Lemma py_get_nat {A} (l : list A) (k : nat) x : py_get l (Z.of_nat k) = Ret x -> l !! k = Some x.
Proof.
  intros (j & Hj & Hx)%py_get_Ret. unfold norm_index in Hj. repeat case_bool_decide; simplify_eq; [|lia].
  by rewrite Nat2Z.id in Hx.
Qed.

Lemma py_get_first {A} (l : list A) : l <> [] -> exists x, py_get l 0 = Ret x.
Proof. destruct l as [|x l]; [done|]. intros _. exists x. by apply (py_get_lookup _ 0). Qed.

Lemma py_get_final {A} (l : list A) : l <> [] -> exists x, py_get l (-1) = Ret x.
Proof.
  intros Hl. destruct (lookup_lt_is_Some_2 l (length l - 1)) as [x Hx]; [destruct l; [done|cbn; lia]|].
  exists x. unfold py_get, norm_index. assert (length l <> 0%nat) by by destruct l.
  rewrite bool_decide_eq_false_2, bool_decide_eq_true_2 by lia.
  replace (Z.to_nat (-1 + Z.of_nat (length l))) with (length l - 1)%nat by lia. by rewrite Hx.
Qed.

Lemma clamp_nonneg n i : 0 <= i -> clamp n i = Nat.min (Z.to_nat i) n.
Proof. intros. unfold clamp. rewrite bool_decide_eq_false_2 by lia. lia. Qed.

Lemma py_slice_nonneg {A} (l : list A) a b :
  0 <= a -> 0 <= b -> py_slice l a b = take (Z.to_nat b - Z.to_nat a) (drop (Z.to_nat a) l).
Proof.
  intros Ha Hb. unfold py_slice. rewrite !clamp_nonneg by done.
  destruct (decide (Z.to_nat a <= length l)%nat).
  - rewrite (Nat.min_l (Z.to_nat a)) by done.
    destruct (decide (Z.to_nat b <= length l)%nat).
    + by rewrite Nat.min_l.
    + rewrite Nat.min_r, !take_ge; rewrite ?length_drop; auto; lia.
  - rewrite (Nat.min_r (Z.to_nat a)) by lia.
    rewrite !drop_ge by lia. by rewrite !take_nil.
Qed.

Lemma length_arange a b : length (arange a b) = Z.to_nat (b - a).
Proof. unfold arange. by rewrite length_seqZ. Qed.

Lemma lookup_arange a b (k : nat) :
  Z.of_nat k < b - a -> arange a b !! k = Some (a + Z.of_nat k).
Proof. intros. unfold arange. by rewrite lookup_seqZ_lt. Qed.

Lemma elem_of_arange a b x : x ∈ arange a b <-> a <= x < b.
Proof. unfold arange. rewrite elem_of_seqZ. lia. Qed.

Lemma arange_nil a b : b <= a -> arange a b = [].
Proof. intros. unfold arange. apply seqZ_nil. lia. Qed.

Lemma arange_cons a b : a < b -> arange a b = a :: arange (a + 1) b.
Proof.
  intros. unfold arange. rewrite seqZ_cons by lia. f_equal. f_equal; lia.
Qed.

Lemma arange_app a b c : a <= b -> b <= c -> arange a c = arange a b ++ arange b c.
Proof.
  intros. unfold arange. replace (c - a) with ((b - a) + (c - b)) by lia.
  rewrite seqZ_app by lia. do 2 f_equal; lia.
Qed.

(** An array given by its values at the indices of an interval. *)
Lemma lookup_tab {A} (f : Z -> A) lo hi i : lo <= i < hi -> map f (arange lo hi) !! Z.to_nat (i - lo) = Some (f i).
Proof.
  intros Hi. change (map f (arange lo hi)) with (f <$> arange lo hi). rewrite list_lookup_fmap, lookup_arange by lia. cbn. do 2 f_equal. lia.
Qed.
Lemma insert_tab {A} (f : Z -> A) lo hi i x :
  lo <= i < hi -> <[Z.to_nat (i - lo) := x]> (map f (arange lo hi)) = map (fun j => if bool_decide (j = i) then x else f j) (arange lo hi).
Proof.
  intros Hi. apply list_eq. intros k. change (@map) with (fun A B => @fmap list _ A B). cbn beta. destruct (decide (k = Z.to_nat (i - lo))) as [->|Hk].
  - rewrite list_lookup_insert_eq by (rewrite length_fmap, length_arange; lia). rewrite list_lookup_fmap, lookup_arange by lia.
    cbn. by rewrite bool_decide_eq_true_2 by lia.
  - rewrite list_lookup_insert_ne by lia. rewrite !list_lookup_fmap. destruct (decide (Z.of_nat k < hi - lo)).
    + rewrite lookup_arange by lia. cbn. by rewrite bool_decide_eq_false_2 by lia.
    + rewrite lookup_ge_None_2; [done|]. rewrite length_arange. lia.
Qed.
Lemma replicate_tab {A} (x : A) lo hi : replicate (Z.to_nat (hi - lo)) x = map (fun _ => x) (arange lo hi).
Proof.
  apply list_eq. intros k. change (map (fun _ => x) (arange lo hi)) with ((fun _ => x) <$> arange lo hi). rewrite list_lookup_fmap.
  destruct (decide (Z.of_nat k < hi - lo)).
  - rewrite lookup_arange by lia. rewrite lookup_replicate_2 by lia. done.
  - rewrite !lookup_ge_None_2; [done|rewrite length_arange; lia|rewrite length_replicate; lia].
Qed.
Lemma map_tab_ext {A} (f g : Z -> A) lo hi : (forall i, lo <= i < hi -> f i = g i) -> map f (arange lo hi) = map g (arange lo hi).
Proof. intros H. apply list_fmap_ext. intros k i Hi. apply list_elem_of_lookup_2, elem_of_arange in Hi. by apply H. Qed.

Lemma zsum_nil : zsum [] = 0.
Proof. done. Qed.

Lemma zsum_cons x l : zsum (x :: l) = x + zsum l.
Proof. done. Qed.

Lemma zsum_app l k : zsum (l ++ k) = zsum l + zsum k.
Proof. unfold zsum. induction l; cbn in *; lia. Qed.

Lemma zsum_nonneg l : Forall (fun x => 0 <= x) l -> 0 <= zsum l.
Proof. unfold zsum. induction 1; cbn in *; lia. Qed.

Lemma zsum_perm l k : l ≡ₚ k -> zsum l = zsum k.
Proof. unfold zsum. induction 1; cbn in *; lia. Qed.

Lemma zsum_insert l i x y : l !! i = Some x -> zsum (<[i := y]> l) = zsum l + y - x.
Proof.
  revert i. induction l as [|z l IH]; intros [|i] Hi; simplify_eq/=; [lia|]. rewrite (IH i Hi). lia.
Qed.

Lemma zsum_replicate n x : zsum (replicate n x) = Z.of_nat n * x.
Proof. unfold zsum. induction n; cbn [replicate foldr]; lia. Qed.

Lemma zlen_app {A} (l k : list A) : zlen (l ++ k) = zlen l + zlen k.
Proof. unfold zlen. rewrite length_app. lia. Qed.

Lemma zlen_nonneg {A} (l : list A) : 0 <= zlen l.
Proof. unfold zlen. lia. Qed.

Lemma length_scan acc l : length (scan acc l) = S (length l).
Proof. revert acc. induction l; intros; cbn; auto. Qed.

Lemma scan_lookup acc l k :
  (k <= length l)%nat -> scan acc l !! k = Some (acc + zsum (take k l)).
Proof.
  revert acc k. induction l as [|x l IH]; intros acc [|k] Hk;
    cbn [scan lookup list_lookup take length] in *; try (f_equal; rewrite zsum_nil; lia).
  rewrite IH, zsum_cons by lia. f_equal. lia.
Qed.

Lemma diff_scan acc l : diff (scan acc l) = l.
Proof.
  revert acc. induction l as [|x l IH]; intros; [done|].
  specialize (IH (acc + x)). destruct l; cbn in *; f_equal; try lia; done.
Qed.

Lemma scan_app acc l k : scan acc (l ++ k) = take (length l) (scan acc l) ++ scan (acc + zsum l) k.
Proof.
  revert acc. induction l as [|x l IH]; intros;
    cbn [app scan length take]; [by rewrite zsum_nil, Z.add_0_r|].
  rewrite IH, zsum_cons. cbn [app]. do 3 f_equal. lia.
Qed.

Lemma last_scan acc l : last (scan acc l) = Some (acc + zsum l).
Proof.
  rewrite last_lookup, length_scan. cbn [Nat.pred]. rewrite scan_lookup by lia.
  by rewrite firstn_all.
Qed.

Lemma scan_mono acc l i j x y :
  Forall (fun c => 0 <= c) l -> (i <= j)%nat ->
  scan acc l !! i = Some x -> scan acc l !! j = Some y -> x <= y.
Proof.
  intros Hl Hij Hi Hj.
  pose proof (lookup_lt_Some _ _ _ Hj) as Hlen. rewrite length_scan in Hlen.
  rewrite scan_lookup in Hi, Hj by lia. simplify_eq.
  replace (take j l) with (take i l ++ take (j - i) (drop i l)).
  - rewrite zsum_app. enough (0 <= zsum (take (j - i) (drop i l))) by lia.
    apply zsum_nonneg, Forall_take, Forall_drop, Hl.
  - rewrite <- (take_drop i (take j l)), take_take, skipn_firstn_comm.
    by rewrite Nat.min_l by lia.
Qed.

Lemma foldl_max_le x l : x <= foldl Z.max x l.
Proof. revert x. induction l; intros; cbn; [lia|]. etrans; [|apply IHl]. lia. Qed.

Lemma foldl_max_ge x l y : y ∈ l -> y <= foldl Z.max x l.
Proof.
  revert x. induction l as [|z l IH]; intros x Hy; [by apply not_elem_of_nil in Hy|].
  apply elem_of_cons in Hy as [->|Hy]; cbn; [|auto].
  etrans; [|apply foldl_max_le]. lia.
Qed.

Lemma foldl_max_lt_iff x l m : foldl Z.max x l < m <-> x < m /\ Forall (fun y => y < m) l.
Proof.
  revert x. induction l as [|y l IH]; intros x; cbn; [rewrite Forall_nil; tauto|].
  rewrite IH, Forall_cons, Z.max_lub_lt_iff. tauto.
Qed.

Lemma py_max_spec l m : py_max l = Ret m -> forall x, x ∈ l -> x <= m.
Proof.
  destruct l as [|y l]; cbn; intros; inv_py.
  apply elem_of_cons in H0 as [->|H0]; [apply foldl_max_le | by apply foldl_max_ge].
Qed.

End sequences.

#[export] Hint Rewrite @length_arange @length_scan @zlen_app @zsum_app : maia.
#[export] Hint Resolve zlen_nonneg zsum_nonneg : maia.

Lemma elem_of_concat {A} (ls : list (list A)) x : x ∈ concat ls <-> exists l, l ∈ ls /\ x ∈ l.
Proof.
  rewrite list_elem_of_In, in_concat. split; intros (l & H1 & H2); exists l;
    rewrite ?list_elem_of_In in *; auto.
Qed.

Lemma lookup_map {A B} (f : A -> B) (l : list A) i : map f l !! i = f <$> l !! i.
Proof. apply list_lookup_fmap. Qed.

Lemma list_choice {A B} (P : nat -> A -> B -> Prop) l :
  (forall i x, l !! i = Some x -> exists y, P i x y) ->
  exists k, length k = length l /\ forall i x y, l !! i = Some x -> k !! i = Some y -> P i x y.
Proof.
  revert P. induction l as [|x l IH]; intros P H; [by exists []|].
  destruct (H 0%nat x eq_refl) as [y Hy].
  destruct (IH (fun i => P (S i))) as (k & Hl & Hk); [intros i z Hz; by apply (H (S i))|].
  exists (y :: k). split; [cbn; lia|]. intros [|i] a b Ha Hb; simplify_eq/=; eauto.
Qed.

Lemma concat_zip_app {A} (l k : list (list A)) :
  length l = length k -> concat (zip_with app l k) ≡ₚ concat l ++ concat k.
Proof.
  revert k. induction l as [|x l IH]; intros [|y k] Hl; try done. cbn. rewrite IH by (cbn in Hl; lia).
  rewrite <- !app_assoc. f_equiv. rewrite !app_assoc. f_equiv. apply Permutation_app_comm.
Qed.

Lemma alter_insert {A} (f : A -> A) (l : list A) i x : l !! i = Some x -> alter f i l = <[i := f x]> l.
Proof.
  intros Hx. apply list_eq. intros j. destruct (decide (j = i)) as [->|Hj].
  - rewrite list_lookup_insert_eq by (by eapply lookup_lt_Some). by rewrite list_lookup_alter_eq, Hx.
  - by rewrite list_lookup_insert_ne, list_lookup_alter_ne by done.
Qed.

Lemma elem_of_inserted {A} (l : list A) i x y : y ∈ <[i := x]> l -> y = x \/ y ∈ l.
Proof.
  intros (j & Hj)%list_elem_of_lookup. apply list_lookup_insert_Some in Hj as [(_ & -> & _)|[_ Hj]]; [by left|].
  right. by eapply list_elem_of_lookup_2.
Qed.

(** ** Lemmas on [mapM] for Python calls *)
Section mapM_py.
Context {A B : Type} (f : A -> py B).

Lemma py_mapM_Ret l k : mapM f l = Ret k <-> Forall2 (fun x y => f x = Ret y) l k.
Proof.
  revert k. induction l as [|x l IH]; intros k; cbn.
  - split; [intros; inv_py; constructor|]. by inversion 1.
  - split.
    + intros H. inv_py. constructor; [done|]. by apply IH.
    + inversion 1 as [|? y ? k' Hx Hl]; subst. rewrite Hx. cbn. apply IH in Hl. by rewrite Hl.
Qed.

Lemma py_mapM_lookup l k :
  length k = length l ->
  (forall i x y, l !! i = Some x -> k !! i = Some y -> f x = Ret y) -> mapM f l = Ret k.
Proof.
  intros Hl H. apply py_mapM_Ret, Forall2_same_length_lookup. split; [done|]. eauto.
Qed.

Lemma py_mapM_app l1 l2 k1 k2 :
  mapM f l1 = Ret k1 -> mapM f l2 = Ret k2 -> mapM f (l1 ++ l2) = Ret (k1 ++ k2).
Proof. rewrite !py_mapM_Ret. apply Forall2_app. Qed.
End mapM_py.

(** ** Lemmas on sorting *)
Section sorting.
Context {A : Type} (le : A -> A -> bool).

Lemma insert_by_perm x l : insert_by le x l ≡ₚ x :: l.
Proof.
  induction l as [|y l IH]; cbn; [done|]. destruct (le x y); [done|].
  rewrite IH. apply Permutation_swap.
Qed.

Lemma sort_by_perm l : sort_by le l ≡ₚ l.
Proof.
  induction l as [|x l IH]; [done|]. change (insert_by le x (sort_by le l) ≡ₚ x :: l).
  by rewrite insert_by_perm, IH.
Qed.

Hypothesis le_total : forall x y, le x y = true \/ le y x = true.
Hypothesis le_trans : forall x y z, le x y = true -> le y z = true -> le x z = true.

Lemma insert_by_sorted x l :
  StronglySorted (fun a b => le a b = true) l ->
  StronglySorted (fun a b => le a b = true) (insert_by le x l).
Proof using le_total le_trans.
  induction 1 as [|y l Hs IH Hy]; cbn; [by repeat constructor|].
  destruct (le x y) eqn:E.
  - constructor; [by constructor|]. constructor; [done|].
    eapply Forall_impl; [exact Hy|]. cbn. eauto.
  - constructor; [done|]. rewrite insert_by_perm. constructor; [|done].
    destruct (le_total x y); congruence.
Qed.

Lemma sort_by_sorted l : StronglySorted (fun a b => le a b = true) (sort_by le l).
Proof using le_total le_trans.
  induction l; cbn; [constructor|]. by apply insert_by_sorted.
Qed.
End sorting.

Lemma sorted_lookup {A} (R : A -> A -> Prop) l i j x y :
  StronglySorted R l -> (i < j)%nat -> l !! i = Some x -> l !! j = Some y -> R x y.
Proof.
  intros H. revert i j. induction H as [|z l Hl IH Hz]; intros i j Hij Hi Hj; [done|].
  destruct j as [|j]; [lia|]. destruct i as [|i]; simplify_eq/=.
  - by apply (Forall_lookup_1 _ _ _ _ Hz Hj).
  - apply (IH i j); [lia|done|done].
Qed.

Lemma StronglySorted_filter {A} (R : A -> A -> Prop) (P : A -> Prop) `{!forall x, Decision (P x)} l :
  StronglySorted R l -> StronglySorted R (filter P l).
Proof.
  induction 1 as [|x l Hs IH Hx]; [constructor|]. rewrite filter_cons. case_decide; [|done].
  constructor; [done|]. rewrite Forall_forall in *. intros y [_ Hy]%list_elem_of_filter. by apply Hx.
Qed.

(** Python orders strings by code points. *)
Lemma string_leb_trans (x y z : string) :
  String.leb x y = true -> String.leb y z = true -> String.leb x z = true.
Proof.
  intros H1%Is_true_true_2 H2%Is_true_true_2. apply Is_true_true_1.
  change (String.le x z). by transitivity y.
Qed.

Lemma sort_strings_sorted l : StronglySorted (fun a b => String.leb a b = true) (sort_by String.leb l).
Proof. apply sort_by_sorted; [apply String.leb_total | apply string_leb_trans]. Qed.

(** ** Lemmas on strings *)

Lemma split_chars_ne sep acc l : split_chars sep acc l <> [].
Proof. revert acc. induction l as [|c l IH]; intros acc; cbn; [done|]. by case_bool_decide. Qed.

Lemma join_cons sep x l : l <> [] -> join_chars sep (x :: l) = x ++ sep :: join_chars sep l.
Proof. by destruct l. Qed.

Lemma join_split_chars sep acc l : join_chars sep (split_chars sep acc l) = reverse acc ++ l.
Proof.
  revert acc. induction l as [|c l IH]; intros acc; cbn [split_chars]; [cbn; by rewrite app_nil_r|].
  case_bool_decide; [subst|]; [|rewrite IH, reverse_cons, <- (assoc (++)); done].
  rewrite join_cons by apply split_chars_ne. by rewrite IH.
Qed.

Lemma split_chars_app sep acc x l :
  sep ∉ x -> split_chars sep acc (x ++ l) = split_chars sep (reverse x ++ acc) l.
Proof.
  revert acc. induction x as [|c x IH]; intros acc Hx; [done|]. apply not_elem_of_cons in Hx as [Hc Hx].
  cbn [app split_chars]. rewrite bool_decide_eq_false_2 by congruence.
  rewrite IH, reverse_cons, <- (assoc (++)) by done. done.
Qed.

Lemma split_join_chars sep ls :
  ls <> [] -> Forall (fun x => sep ∉ x) ls -> split_chars sep [] (join_chars sep ls) = ls.
Proof.
  induction ls as [|x ls IH]; intros Hne Hall; [done|]. apply Forall_cons in Hall as [Hx Hall].
  destruct ls as [|y ls].
  - cbn [join_chars]. rewrite <- (app_nil_r x) at 1. rewrite split_chars_app by done. cbn.
    by rewrite app_nil_r, reverse_involutive.
  - rewrite join_cons, split_chars_app by done. cbn [split_chars]. rewrite bool_decide_eq_true_2 by done.
    rewrite app_nil_r, reverse_involutive. f_equal. by apply IH.
Qed.

Lemma chars_of_string s : String.string_of_list_ascii (String.list_ascii_of_string s) = s.
Proof. apply String.string_of_list_ascii_of_string. Qed.

Lemma string_of_chars (ls : list (list ascii)) :
  String.list_ascii_of_string <$> (String.string_of_list_ascii <$> ls) = ls.
Proof.
  induction ls as [|l ls IH]; [done|]. cbn. by rewrite String.list_ascii_of_string_of_list_ascii, IH.
Qed.

Lemma py_join_split sep s : py_join sep (py_split sep s) = s.
Proof. unfold py_join, py_split. rewrite string_of_chars, join_split_chars. apply chars_of_string. Qed.

Lemma py_split_join sep ls :
  ls <> [] -> Forall (fun s => sep ∉ String.list_ascii_of_string s) ls -> py_split sep (py_join sep ls) = ls.
Proof.
  intros Hne Hall. unfold py_join, py_split. rewrite String.list_ascii_of_string_of_list_ascii, split_join_chars.
  - induction ls as [|s ls IH]; [done|]. cbn. rewrite chars_of_string. f_equal.
    destruct ls; [done|]. apply IH; [done|]. by apply Forall_cons in Hall as [_ ?].
  - by destruct ls.
  - by rewrite Forall_fmap.
Qed.

(** ** Lemmas on widths *)
Section widths.
Local Open Scope Z_scope.

Lemma wrap_id d z : in_dtype d z -> wrap d z = z.
Proof.
  unfold in_dtype, iinfo_min, iinfo_max, wrap. intros.
  rewrite Z.mod_small; [lia|]. destruct d; cbn in *; lia.
Qed.

Lemma wrap_range d z : in_dtype d (wrap d z).
Proof.
  unfold in_dtype, iinfo_min, iinfo_max, wrap.
  pose proof (Z.mod_pos_bound (z + 2 ^ (width d - 1)) (2 ^ width d)) as H.
  destruct d; cbn in *; lia.
Qed.

Lemma wrap_add_l d a b : wrap d (wrap d a + b) = wrap d (a + b).
Proof.
  unfold wrap. f_equal.
  replace ((a + 2 ^ (width d - 1)) mod 2 ^ width d - 2 ^ (width d - 1) + b + 2 ^ (width d - 1))
    with ((a + 2 ^ (width d - 1)) mod 2 ^ width d + b) by lia.
  rewrite Zplus_mod_idemp_l. f_equal. lia.
Qed.
End widths.
#[export] Hint Resolve wrap_range : maia.

(** ** Filters, concatenations *)

Lemma filter_none_nil {A} (P : A -> Prop) `{!forall x, Decision (P x)} (l : list A) : (forall x, x ∈ l -> ~ P x) -> filter P l = [].
Proof.
  intros Hn. induction l as [|x l IH]; [done|]. rewrite filter_cons, decide_False by (apply Hn; left). apply IH. intros y Hy. apply Hn. by right.
Qed.
Lemma filter_ext_in {A} (P Q : A -> Prop) `{!forall x, Decision (P x), !forall x, Decision (Q x)} (l : list A) :
  (forall x, x ∈ l -> P x <-> Q x) -> filter P l = filter Q l.
Proof.
  intros HPQ. induction l as [|x l IH]; [done|]. rewrite !filter_cons. rewrite IH by (intros y Hy; apply HPQ; by right).
  destruct (HPQ x) as [K1 K2]; [left|]. do 2 case_decide; tauto.
Qed.
Lemma py_mapM_ext {A B} (f g : A -> py B) l : (forall x, f x = g x) -> mapM f l = mapM g l.
Proof. intros Hfg. induction l as [|x l IH]; [done|]. cbn. by rewrite Hfg, IH. Qed.
Lemma elem_concat_keyed {K A} (P : K -> list A -> Prop) ks ls x :
  Forall2 P ks ls -> x ∈ concat ls -> exists k l, k ∈ ks /\ P k l /\ x ∈ l.
Proof.
  induction 1 as [|k l ks ls Hp _ IH]; cbn [concat]; [by intros ?%not_elem_of_nil|]. intros [Hx|Hx]%elem_of_app.
  - exists k, l. by split; [left|].
  - destruct (IH Hx) as (k' & l' & H1 & H2 & H3). exists k', l'. by split; [right|].
Qed.
Lemma NoDup_concat_keyed {A K} (key : A -> option K) ks (ls : list (list A)) :
  Forall2 (fun k l => NoDup l /\ forall x, x ∈ l -> key x = Some k) ks ls -> NoDup ks -> NoDup (concat ls).
Proof.
  induction 1 as [|k l ks ls [Hl Hk] Hf IH]; intros Hn; [constructor|]. apply NoDup_cons in Hn as [Hnk Hn]. cbn [concat]. apply NoDup_app. split; [done|]. split; [|by apply IH].
  intros x Hx Hx'. apply (elem_concat_keyed _ _ _ _ Hf) in Hx' as (k' & l' & H1 & [_ H2] & H3). specialize (Hk x Hx). specialize (H2 x H3). congruence.
Qed.
Lemma Forall2_impl_in_l {A B} (P Q : A -> B -> Prop) l k : Forall2 P l k -> (forall x y, x ∈ l -> P x y -> Q x y) -> Forall2 Q l k.
Proof. induction 1 as [|x y l k Hp _ IH]; intros HPQ; constructor; [apply HPQ; [left|done]|]. apply IH. intros a b Ha. apply HPQ. by right. Qed.

Lemma foldM_app {S A} (f : S -> A -> py S) s l k : foldM f s (l ++ k) = (s ← foldM f s l; foldM f s k).
Proof. revert s. induction l as [|x l IH]; intros s; [done|]. cbn. destruct (f s x); [apply IH|done]. Qed.
