(* ===== verification/PyUtils.v ===== *)
(** * Sequence utilities of [maia/utils/py_utils.py]

    Flat/nested list conversion, bucket dispatch, circular sub-sequences,
    uniform block distributions, indirect unique and the detection of
    cartesian vectors.  Python lists are Rocq lists, Python integers are [Z],
    sets of strings are [gset string]; a call that can raise returns [py]. *)
From Stdlib Require Import Ascii.
From S2P Require Import Prelude.

Local Open Scope Z_scope.

Module PyUtils.

(** ** Nested lists *)

Fixpoint to_nested_loop {A} (l : list A) (r_idx : Z) (counts : list Z) : list (list A) :=
  match counts with
  | [] => []
  | n_elts :: counts' => py_slice l r_idx (r_idx + n_elts) :: to_nested_loop l (r_idx + n_elts) counts'
  end.

Definition to_nested_list {A} (l : list A) (counts : list Z) : py (list (list A)) :=
  _ ← py_assert (bool_decide (zlen l = zsum counts));
  Ret (to_nested_loop l 0 counts).

Definition to_flat_list {A} (nested_list : list (list A)) : list A := concat nested_list.

(** ** Buckets *)

(** [result[f(e)].append(e)] *)
Definition bucket_push {A} (f : A -> Z) (result : list (list A)) (e : A) : py (list (list A)) :=
  match norm_index (length result) (f e) with
  | Some k => Ret (alter (fun b => b ++ [e]) k result)
  | None => Raise IndexError
  end.

Fixpoint bucket_loop {A} (f : A -> Z) (l : list A) (result : list (list A)) : py (list (list A)) :=
  match l with
  | [] => Ret result
  | e :: l' => r ← bucket_push f result e; bucket_loop f l' r
  end.

Definition bucket_split {A} (l : list A) (f : A -> Z) (compress : bool) (size : option Z)
  : py (list (list A)) :=
  size ← match size with
         | Some s => Ret s
         | None => m ← py_max (f <$> l); Ret (m + 1)
         end;
  result ← bucket_loop f l (py_repeat size []);
  Ret (if compress then filter (fun sub_l => sub_l <> []) result else result).

(** ** Circular sub-sequences *)
Section circular.
Context {A : Type} `{EqDecision A}.

(** [list(L) + list(L)[:n-1]] *)
Definition extend_circular (L : list A) (n : nat) : list A := L ++ slice_to L (Z.of_nat n - 1).

(** [[subset == extended_l[i:i+len(subset)] for i in range(len(L))]] *)
Definition window_matches (subset L : list A) : list bool :=
  let extended_l := extend_circular L (length subset) in
  (fun i => bool_decide (subset = py_slice extended_l i (i + zlen subset))) <$> arange 0 (zlen L).

(** [max] of a list of booleans *)
Definition max_bools (bs : list bool) : py bool :=
  match bs with [] => Raise ValueError | b :: bs' => Ret (foldl orb b bs') end.

Definition is_subset_l (subset L : list A) : py bool := max_bools (window_matches subset L).

(** [itertools.permutations(l, len(l))], in its lexicographic order of positions;
    [n] is the number of elements still to be placed. *)
Fixpoint permutations_n (n : nat) (l : list A) : list (list A) :=
  match n with
  | O => [[]]
  | S n' =>
      i ← seq 0 (length l);
      match l !! i with
      | Some x => (x ::.) <$> permutations_n n' (delete i l)
      | None => []
      end
  end.
Definition permutations (l : list A) : list (list A) := permutations_n (length l) l.

Fixpoint find_perm (perms : list (list A)) (L : list A) : py (option (list A)) :=
  match perms with
  | [] => Ret None
  | perm :: perms' =>
      b ← max_bools (window_matches perm L);
      if (b : bool) then Ret (Some perm) else find_perm perms' L
  end.

Definition get_ordered_subset (subset L : list A) : py (option (list A)) :=
  find_perm (permutations subset) L.

(** ** Small list helpers *)
Definition append_unique (L : list A) (item : A) : list A :=
  if bool_decide (item ∈ L) then L else L ++ [item].

Definition loop_from (L : list A) (i : Z) : py (list A) :=
  _ ← py_assert (bool_decide (0 <= i) && bool_decide (i < zlen L));
  Ret (slice_from L i ++ slice_to L i).

Fixpoint is_before (l : list A) (a b : A) : bool :=
  match l with
  | [] => false
  | e :: l' => if bool_decide (e = a) then true
               else if bool_decide (e = b) then false
               else is_before l' a b
  end.

Definition any_true (iterable : list A) (predicate : A -> bool) : bool := existsb predicate iterable.
Definition all_true (iterable : list A) (predicate : A -> bool) : bool := forallb predicate iterable.
End circular.

(** ** Uniform distribution *)
Definition uniform_distribution_at (n_elt i n_interval : Z) : py (Z * Z) :=
  if bool_decide (n_interval = 0) then Raise ZeroDivisionError else
  let step := n_elt / n_interval in
  let remainder := n_elt mod n_interval in
  if bool_decide (i < remainder) then
    let inf := i * (step + 1) in Ret (inf, inf + step + 1)
  else
    let inf := i * step + remainder in Ret (inf, inf + step).

(** ** Indirect unique *)
Section unique.
(** The elements of the sequence are compared with [<=] through [sorted] and with [!=]. *)
Context {A : Type} `{EqDecision A} (le : A -> A -> bool).

(** [sorted(range(size), key=seq.__getitem__)], each index with its element. *)
Definition argsort (sq : list A) : list (nat * A) :=
  sort_by (fun p q => le p.2 q.2) (imap pair sq).

(** The loop over the sorted indices; the state is [(last, id, out)]. *)
Fixpoint unique_loop (idx : list (nat * A)) (last : A) (id : Z) (out : list Z) : list Z :=
  match idx with
  | [] => out
  | (i, x) :: idx' =>
      if bool_decide (x <> last)
      then unique_loop idx' x (id + 1) (<[i:=id + 1]> out)
      else unique_loop idx' last id (<[i:=id]> out)
  end.

Definition unique_idx (sq : list A) : list Z :=
  match argsort sq with
  | [] => []
  | (i0, x0) :: _ => unique_loop (argsort sq) x0 0 (replicate (length sq) (-1))
  end.
End unique.

(** ** Keyword to booleans *)
Definition str_to_bools (size : Z) (key : string) : py (list bool) :=
  if bool_decide (key = "none") then Ret (py_repeat size false)
  else if bool_decide (key = "all") then Ret (py_repeat size true)
  else if bool_decide (key = "ancestors") then Ret (py_repeat (size - 1) true ++ [false])
  else if bool_decide (key = "leaf") then Ret (py_repeat (size - 1) false ++ [true])
  else Raise ValueError.

(** ** Cartesian vectors *)

(** [name[0:-1]] and [name[-1]]; [None] is the IndexError of an empty name. *)
Fixpoint split_last (s : string) : option (string * ascii) :=
  match s with
  | EmptyString => None
  | String c EmptyString => Some (EmptyString, c)
  | String c s' => match split_last s' with
                   | Some (b, l) => Some (String c b, l)
                   | None => None
                   end
  end.

(** [to_index]: the component carried by a suffix letter. *)
Definition to_index (phy_dim : Z) (c : ascii) : option nat :=
  if bool_decide (c = "X"%char) then Some 0%nat
  else if bool_decide (c = "Y"%char) then Some 1%nat
  else if bool_decide (c = "Z"%char /\ phy_dim = 3) then Some 2%nat
  else None.

(** [suffix_names[to_index[last]].add(name[0:-1])], a letter without index being skipped. *)
Definition suffix_add (phy_dim : Z) (suffix_names : list (gset string)) (name : string)
  : py (list (gset string)) :=
  match split_last name with
  | None => Raise IndexError
  | Some (base, c) =>
      Ret match to_index phy_dim c with
          | Some k => alter (fun s => {[base]} ∪ s) k suffix_names
          | None => suffix_names
          end
  end.

Fixpoint suffix_loop (phy_dim : Z) (names : list string) (suffix_names : list (gset string))
  : py (list (gset string)) :=
  match names with
  | [] => Ret suffix_names
  | name :: names' => s ← suffix_add phy_dim suffix_names name; suffix_loop phy_dim names' s
  end.

Definition find_cartesian_vector_names (names : list string) (phy_dim : Z) : py (list string) :=
  let n := if bool_decide (phy_dim = 3) then 3%nat else 2%nat in
  suffix_names ← suffix_loop phy_dim names (replicate n ∅);
  match suffix_names with
  | [] => Raise IndexError
  | s0 :: others => Ret (sort_by String.leb (elements (foldl (∩) s0 others)))
  end.

(** ** Nested lists: lemmas *)

Lemma to_nested_loop_app {A} (pre : list A) ls :
  to_nested_loop (pre ++ concat ls) (zlen pre) (zlen <$> ls) = ls.
Proof.
  revert pre. induction ls as [|l ls IH]; intros pre; [done|]. cbn.
  rewrite py_slice_nonneg by (unfold zlen; lia).
  replace (Z.to_nat (zlen pre + zlen l) - Z.to_nat (zlen pre))%nat with (length l)
    by (unfold zlen; lia).
  replace (Z.to_nat (zlen pre)) with (length pre) by (unfold zlen; lia).
  rewrite drop_app_length, take_app_length. f_equal.
  rewrite (assoc (++)), <- zlen_app. apply IH.
Qed.

Lemma to_nested_loop_spec {A} (l : list A) r counts :
  Forall (fun c => 0 <= c) counts -> 0 <= r -> zlen l = r + zsum counts ->
  concat (to_nested_loop l r counts) = drop (Z.to_nat r) l /\
  zlen <$> to_nested_loop l r counts = counts.
Proof.
  intros Hc. revert r. induction Hc as [|c counts Hc0 Hc IH]; intros r Hr Hl; cbn.
  - rewrite drop_ge; [done|]. rewrite zsum_nil in Hl. unfold zlen in Hl. lia.
  - rewrite zsum_cons in Hl. pose proof (zsum_nonneg _ Hc).
    destruct (IH (r + c)) as [IH1 IH2]; [lia..|].
    rewrite IH1, IH2, py_slice_nonneg by lia.
    replace (Z.to_nat (r + c) - Z.to_nat r)%nat with (Z.to_nat c) by lia.
    replace (Z.to_nat (r + c)) with (Z.to_nat r + Z.to_nat c)%nat by lia.
    rewrite <- drop_drop, take_drop. split; [done|]. f_equal.
    unfold zlen in *. rewrite length_take, length_drop. lia.
Qed.

(** ** Buckets: lemmas *)

(** The bucket that the Python index [f e] designates among [s] of them. *)
Definition in_buckets {A} (f : A -> Z) (s : Z) (e : A) : bool :=
  bool_decide (- s <= f e) && bool_decide (f e < s).

Definition bucket_of {A} (f : A -> Z) (s : Z) (l : list A) (k : Z) : list A :=
  filter (fun e => f e mod s = k) l.

Lemma norm_index_mod n i :
  norm_index n i =
  (if bool_decide (- Z.of_nat n <= i) && bool_decide (i < Z.of_nat n)
   then Some (Z.to_nat (i mod Z.of_nat n)) else None).
Proof.
  unfold norm_index. repeat case_bool_decide; cbn; try lia; try done; repeat f_equal.
  - by rewrite Z.mod_small.
  - rewrite <- (Z.mod_small (i + Z.of_nat n) (Z.of_nat n)) by lia.
    rewrite <- (Z_mod_plus_full i 1). f_equal. lia.
Qed.

Lemma bucket_loop_spec {A} (f : A -> Z) (s : nat) (done l : list A) :
  bucket_loop f l (bucket_of f (Z.of_nat s) done <$> arange 0 (Z.of_nat s)) =
  (if forallb (in_buckets f (Z.of_nat s)) l
   then Ret (bucket_of f (Z.of_nat s) (done ++ l) <$> arange 0 (Z.of_nat s))
   else Raise IndexError).
Proof.
  revert done. induction l as [|e l IH]; intros done; cbn [bucket_loop forallb].
  { by rewrite app_nil_r. }
  unfold bucket_push. rewrite length_fmap, length_arange, norm_index_mod.
  replace (Z.of_nat (Z.to_nat (Z.of_nat s - 0))) with (Z.of_nat s) by lia.
  unfold in_buckets at 1. destruct (bool_decide _ && _) eqn:E; [|done]. cbn [andb mbind py_bind].
  replace (done ++ e :: l) with ((done ++ [e]) ++ l) by by rewrite <- (assoc (++)).
  rewrite <- IH. f_equal.
  apply list_eq. intros k. rewrite list_lookup_alter, !list_lookup_fmap.
  assert (Hs : 0 < Z.of_nat s).
  { apply andb_true_iff in E as [?%bool_decide_eq_true ?%bool_decide_eq_true]. lia. }
  pose proof (Z.mod_pos_bound (f e) _ Hs).
  destruct (decide (k < s)%nat); cycle 1.
  { rewrite decide_False by lia. by rewrite !lookup_ge_None_2 by (rewrite length_arange; lia). }
  clear E. rewrite (lookup_arange _ _ k) by lia. unfold bucket_of. cbn [fmap option_fmap option_map].
  rewrite filter_app, filter_cons, filter_nil.
  destruct (decide (Z.to_nat (f e `mod` Z.of_nat s) = k)) as [<-|]; rewrite ?lookup_arange by lia;
    cbn; f_equal.
  - by rewrite decide_True by lia.
  - rewrite decide_False by lia. by rewrite app_nil_r.
Qed.

(** ** Circular windows: lemmas *)
Section circular_lemmas.
Context {A : Type} `{EqDecision A}.
Implicit Types p L : list A.

(** [p] is read in [L] from position [i], wrapping around at the end. *)
Definition circular_at (p L : list A) (i : nat) : Prop :=
  forall k, (k < length p)%nat -> p !! k = L !! ((i + k) mod length L)%nat.
Definition circular (p L : list A) : Prop := exists i, (i < length L)%nat /\ circular_at p L i.

Lemma extend_circular_lookup L n j :
  (n <= length L)%nat -> (j < length L + (n - 1))%nat ->
  extend_circular L n !! j = L !! (j mod length L)%nat.
Proof.
  intros Hn Hj. unfold extend_circular, slice_to.
  destruct (decide (j < length L)%nat).
  - rewrite lookup_app_l by done. by rewrite Nat.mod_small.
  - rewrite lookup_app_r, clamp_nonneg by lia. rewrite lookup_take_lt by lia.
    f_equal. symmetry. rewrite <- (Nat.mod_small (j - length L) (length L)) by lia.
    rewrite <- (Nat.Div0.mod_add (j - length L) 1). f_equal. lia.
Qed.

Lemma length_extend_circular L n :
  (0 < n <= length L)%nat -> length (extend_circular L n) = (length L + (n - 1))%nat.
Proof.
  intros. unfold extend_circular, slice_to. rewrite length_app, length_take, clamp_nonneg by lia. lia.
Qed.

Lemma window_circular p L i :
  (length p <= length L)%nat -> (i < length L)%nat ->
  p = py_slice (extend_circular L (length p)) (Z.of_nat i) (Z.of_nat i + zlen p)
  <-> circular_at p L i.
Proof.
  intros Hp Hi. rewrite py_slice_nonneg by (unfold zlen; lia).
  replace (Z.to_nat (Z.of_nat i + zlen p) - Z.to_nat (Z.of_nat i))%nat with (length p)
    by (unfold zlen; lia).
  rewrite Nat2Z.id. destruct (decide (length p = 0)%nat) as [H0|H0].
  { rewrite H0, take_0. apply nil_length_inv in H0 as ->. split; [intros _ k Hk; cbn in *; lia|done]. }
  split.
  - intros Heq k Hk. rewrite Heq at 1. rewrite lookup_take_lt, lookup_drop by done.
    apply extend_circular_lookup; lia.
  - intros Hc. apply list_eq. intros k. destruct (decide (k < length p)%nat).
    + rewrite Hc, lookup_take_lt, lookup_drop by done. symmetry. apply extend_circular_lookup; lia.
    + rewrite !lookup_ge_None_2; [done| |lia]. rewrite length_take. lia.
Qed.

Lemma foldl_orb b bs : foldl orb b bs = true <-> b = true \/ true ∈ bs.
Proof.
  revert b. induction bs as [|c bs IH]; intros b; cbn.
  - set_solver.
  - rewrite IH, orb_true_iff. set_solver.
Qed.

Lemma max_bools_windows p L :
  L <> [] -> (length p <= length L)%nat ->
  exists b, max_bools (window_matches p L) = Ret b /\ (b = true <-> circular p L).
Proof.
  intros HL Hp.
  assert (Hin : true ∈ window_matches p L <-> circular p L).
  { unfold window_matches, circular. rewrite list_elem_of_fmap. split.
    - intros (i & Hb & Hi). rewrite elem_of_arange in Hi. unfold zlen in Hi.
      symmetry in Hb. rewrite bool_decide_eq_true in Hb.
      exists (Z.to_nat i). split; [lia|]. apply window_circular; [lia..|]. by rewrite Z2Nat.id by lia.
    - intros (i & Hi & Hc). exists (Z.of_nat i). split.
      + symmetry. apply bool_decide_eq_true. by apply window_circular.
      + apply elem_of_arange. unfold zlen. lia. }
  destruct (window_matches p L) as [|b bs] eqn:E.
  - apply (f_equal length) in E. unfold window_matches in E.
    rewrite length_fmap, length_arange in E. destruct L; [done|]. cbn in E. unfold zlen in E. cbn in E. lia.
  - cbn. eexists. split; [done|]. rewrite foldl_orb, <- Hin. set_solver.
Qed.

Lemma permutations_n_spec n (l q : list A) :
  length l = n -> q ∈ permutations_n n l <-> q ≡ₚ l.
Proof.
  revert l q. induction n as [|n IH]; intros l q Hn.
  { apply nil_length_inv in Hn as ->. cbn. rewrite list_elem_of_singleton. split.
    - by intros ->.
    - intros Hq. by apply Permutation_nil_r in Hq. }
  cbn [permutations_n]. rewrite list_elem_of_bind. split.
  - intros (i & Hq & _). destruct (l !! i) as [x|] eqn:Hi; [|set_solver].
    apply list_elem_of_fmap in Hq as (q' & -> & Hq').
    rewrite IH in Hq' by (rewrite length_delete by (by eexists); lia).
    rewrite Hq'. symmetry. by apply delete_Permutation.
  - destruct q as [|x q]; intros Hq; [apply Permutation_length in Hq; cbn in Hq; lia|].
    assert (x ∈ l) as [i Hi]%list_elem_of_lookup by (rewrite <- Hq; set_solver).
    exists i. rewrite Hi. pose proof (lookup_lt_Some _ _ _ Hi). split.
    + apply list_elem_of_fmap_2. apply IH; [rewrite length_delete by (by eexists); lia|].
      apply (Permutation_cons_inv (a := x)). rewrite Hq. by apply delete_Permutation.
    + apply elem_of_seq. lia.
Qed.

Lemma find_perm_spec perms L :
  L <> [] -> Forall (fun q => (length q <= length L)%nat) perms ->
  match find_perm perms L with
  | Ret (Some p) => p ∈ perms /\ circular p L
  | Ret None => Forall (fun q => ~ circular q L) perms
  | Raise _ => False
  end.
Proof.
  intros HL. induction 1 as [|q perms Hq Hall IH]; cbn; [constructor|].
  destruct (max_bools_windows q L HL Hq) as (b & -> & Hb). cbn. destruct b.
  - split; [set_solver|]. by apply Hb.
  - destruct (find_perm perms L) as [[p|]|]; [| |done].
    + destruct IH. split; [set_solver|done].
    + constructor; [|done]. intros Hc. by apply Hb in Hc.
Qed.
End circular_lemmas.

(** ** Indirect unique: lemmas *)
Section unique_lemmas.
Context {A : Type} `{EqDecision A} (le : A -> A -> bool).

(** The ids the loop gives, in the order of the sorted elements. *)
Fixpoint ranks (last : A) (id : Z) (xs : list A) : list Z :=
  match xs with
  | [] => []
  | x :: xs' => if bool_decide (x <> last) then (id + 1) :: ranks x (id + 1) xs'
                else id :: ranks last id xs'
  end.

Definition set_all (out : list Z) (ps : list (nat * Z)) : list Z :=
  foldl (fun o p => <[p.1:=p.2]> o) out ps.

Lemma length_ranks last id xs : length (ranks last id xs) = length xs.
Proof.
  revert last id. induction xs; intros; cbn; [done|]. case_bool_decide; cbn; auto.
Qed.

Lemma unique_loop_set_all idx last id out :
  unique_loop idx last id out = set_all out (zip idx.*1 (ranks last id idx.*2)).
Proof.
  revert last id out. induction idx as [|[i x] idx IH]; intros; cbn; [done|].
  case_bool_decide; cbn; apply IH.
Qed.

Lemma length_set_all out ps : length (set_all out ps) = length out.
Proof.
  revert out. induction ps; intros; cbn; [done|]. by rewrite IHps, length_insert.
Qed.

Lemma set_all_notin out ps i : i ∉ ps.*1 -> set_all out ps !! i = out !! i.
Proof.
  revert out. induction ps as [|[j k] ps IH]; intros out Hi; cbn in *; [done|].
  apply not_elem_of_cons in Hi as [Hij Hi]. rewrite IH by done.
  by apply list_lookup_insert_ne.
Qed.

Lemma set_all_lookup out ps i k :
  NoDup ps.*1 -> Forall (fun p => (p.1 < length out)%nat) ps ->
  (i, k) ∈ ps -> set_all out ps !! i = Some k.
Proof.
  revert out. induction ps as [|[j m] ps IH]; intros out Hnd Hlt Hin.
  { by apply not_elem_of_nil in Hin. }
  cbn in *. inversion_clear Hnd as [|? ? Hj Hnd']. inversion_clear Hlt.
  apply elem_of_cons in Hin as [Heq|Hin]; simplify_eq.
  - rewrite set_all_notin by done. apply list_lookup_insert_eq. done.
  - apply IH; [done| |done]. by rewrite length_insert.
Qed.

Lemma ranks_ge last id xs a r : ranks last id xs !! a = Some r -> id <= r.
Proof.
  revert last id a. induction xs as [|x xs IH]; intros last id a; cbn; [done|].
  case_bool_decide; destruct a; cbn; intros; simplify_eq; try lia.
  - apply IH in H0. lia.
  - by apply IH in H0.
Qed.

Lemma ranks_dense last id xs a r k :
  ranks last id xs !! a = Some r -> id < k <= r -> exists b, ranks last id xs !! b = Some k.
Proof.
  revert last id a. induction xs as [|x xs IH]; intros last id a; cbn; [done|].
  case_bool_decide as E; destruct a; cbn; intros Ha Hk; simplify_eq; try lia.
  - exists 0%nat. cbn. f_equal. lia.
  - destruct (decide (k = id + 1)) as [->|]; [by exists 0%nat|].
    destruct (IH x (id + 1) a Ha) as [b Hb]; [lia|]. by exists (S b).
  - destruct (IH last id a Ha Hk) as [b Hb]. by exists (S b).
Qed.

Hypothesis le_total : forall x y, le x y = true \/ le y x = true.
Hypothesis le_trans : forall x y z, le x y = true -> le y z = true -> le x z = true.
Hypothesis le_antisym : forall x y, le x y = true -> le y x = true -> x = y.

Lemma ranks_last last id xs a r x :
  StronglySorted (fun u v => le u v = true) (last :: xs) ->
  ranks last id xs !! a = Some r -> xs !! a = Some x -> (r = id <-> x = last).
Proof using le_antisym.
  revert last id a. induction xs as [|y xs IH]; intros last id a Hs; cbn; [done|].
  apply StronglySorted_inv in Hs as [Hs Hl].
  apply Forall_cons in Hl as [Hly Hlxs].
  apply StronglySorted_inv in Hs as [Hs Hy].
  case_bool_decide as E; destruct a; cbn; intros Hr Hx; simplify_eq.
  - split; [lia|done].
  - pose proof (ranks_ge _ _ _ _ _ Hr). split; [lia|]. intros ->.
    destruct E. apply le_antisym; [|done].
    rewrite Forall_forall in Hy. apply Hy. by eapply list_elem_of_lookup_2.
  - done.
  - eapply IH; [|done..]. by constructor.
Qed.

Lemma ranks_mono last id xs a b r q x y :
  StronglySorted (fun u v => le u v = true) (last :: xs) ->
  ranks last id xs !! a = Some r -> ranks last id xs !! b = Some q ->
  xs !! a = Some x -> xs !! b = Some y -> (r <= q <-> le x y = true).
Proof using le_total le_trans le_antisym.
  revert last id a b. induction xs as [|z xs IH]; intros last id a b Hs; cbn; [done|].
  assert (Hz : StronglySorted (fun u v => le u v = true) (z :: xs))
    by by apply StronglySorted_inv in Hs as [? _].
  assert (Hrefl : forall u, le u u = true) by (intros u; destruct (le_total u u); done).
  assert (Hall : Forall (fun v => le z v = true) xs) by by apply StronglySorted_inv in Hz as [_ ?].
  set (id' := if bool_decide (z <> last) then id + 1 else id).
  assert (Hstep : (if bool_decide (z <> last) then (id + 1) :: ranks z (id + 1) xs
                   else id :: ranks last id xs) = id' :: ranks z id' xs).
  { unfold id'. case_bool_decide as E; [done|]. by subst. }
  rewrite Hstep. clearbody id'. clear Hstep Hs.
  destruct a as [|a], b as [|b]; cbn; intros Ha Hb Hx Hy; simplify_eq.
  - by rewrite Hrefl.
  - pose proof (ranks_ge _ _ _ _ _ Hb). rewrite Forall_forall in Hall.
    rewrite Hall by by eapply list_elem_of_lookup_2. done.
  - pose proof (ranks_ge _ _ _ _ _ Ha). pose proof (ranks_last _ _ _ _ _ _ Hz Ha Hx) as Hl.
    rewrite Forall_forall in Hall. assert (le y x = true) by (apply Hall; by eapply list_elem_of_lookup_2).
    split; intros Hle.
    + assert (x = y) as -> by (apply Hl; lia). apply Hrefl.
    + assert (x = y) by by apply le_antisym. apply Hl in H1. lia.
  - by eapply (IH z id' a b).
Qed.

Lemma argsort_index sq i x :
  sq !! i = Some x -> exists a, (argsort le sq).*1 !! a = Some i /\ (argsort le sq).*2 !! a = Some x.
Proof.
  intros Hi.
  assert ((i, x) ∈ argsort le sq) as [a Ha]%list_elem_of_lookup.
  { unfold argsort. rewrite sort_by_perm. apply list_elem_of_lookup_2 with i.
    rewrite list_lookup_imap, Hi. done. }
  exists a. rewrite !list_lookup_fmap, Ha. done.
Qed.

Lemma argsort_fst_perm sq : (argsort le sq).*1 ≡ₚ seq 0 (length sq).
Proof.
  unfold argsort. rewrite sort_by_perm. rewrite fmap_imap.
  apply reflexive_eq. apply list_eq. intros k. rewrite list_lookup_imap.
  destruct (sq !! k) eqn:E; cbn.
  - apply lookup_lt_Some in E. by rewrite lookup_seq_lt by done.
  - apply lookup_ge_None in E. by rewrite lookup_seq_ge.
Qed.

Lemma argsort_sorted sq : StronglySorted (fun u v => le u v = true) (argsort le sq).*2.
Proof using le_total le_trans.
  pose proof (sort_by_sorted (fun p q : nat * A => le p.2 q.2)
    (fun p q => le_total p.2 q.2) (fun p q r => le_trans p.2 q.2 r.2) (imap pair sq)) as Hs.
  unfold argsort. induction Hs as [|p l Hs IH Hp]; cbn; constructor; [done|].
  by rewrite Forall_fmap.
Qed.

(** The id stored at the index found at position [a] of the sorted order. *)
Lemma unique_idx_at sq x0 a i r :
  (argsort le sq).*2 !! 0%nat = Some x0 -> (argsort le sq).*1 !! a = Some i ->
  ranks x0 0 (argsort le sq).*2 !! a = Some r -> unique_idx le sq !! i = Some r.
Proof.
  intros H0 Ha Hr. pose proof (argsort_fst_perm sq) as Hp. unfold unique_idx.
  destruct (argsort le sq) as [|[i0 z] rest] eqn:E; [done|]. cbn in H0. simplify_eq.
  rewrite unique_loop_set_all. apply set_all_lookup.
  - rewrite fst_zip by (rewrite length_ranks, !length_fmap; lia). rewrite Hp. apply NoDup_seq.
  - rewrite length_replicate. apply Forall_forall. intros [j k] Hjk%elem_of_zip_l. cbn.
    rewrite Hp, elem_of_seq in Hjk. lia.
  - apply list_elem_of_lookup. exists a. by rewrite lookup_zip_with, Ha, Hr.
Qed.

(** The id stored for element [i] is the rank of its position in the sorted order. *)
Lemma unique_idx_ranks sq i x :
  sq !! i = Some x ->
  exists x0 a r, StronglySorted (fun u v => le u v = true) (x0 :: (argsort le sq).*2) /\
    (argsort le sq).*2 !! 0%nat = Some x0 /\
    (argsort le sq).*2 !! a = Some x /\
    ranks x0 0 (argsort le sq).*2 !! a = Some r /\ unique_idx le sq !! i = Some r.
Proof using le_total le_trans.
  intros Hi. destruct (argsort_index sq i x Hi) as (a & Ha1 & Ha2).
  pose proof (argsort_sorted sq) as Hs.
  assert (Hx0 : is_Some ((argsort le sq).*2 !! 0%nat)).
  { apply lookup_lt_is_Some. apply lookup_lt_Some in Ha2. lia. }
  destruct Hx0 as [x0 Hx0].
  assert (Hr : is_Some (ranks x0 0 (argsort le sq).*2 !! a)) by
    (apply lookup_lt_is_Some; rewrite length_ranks; by eapply lookup_lt_Some).
  destruct Hr as [r Hr]. exists x0, a, r. split_and!; try done.
  - constructor; [done|]. destruct (argsort le sq).*2 as [|z rest]; [done|]. cbn in Hx0. simplify_eq.
    constructor; [destruct (le_total x0 x0); done|]. by apply StronglySorted_inv in Hs as [_ ?].
  - by eapply unique_idx_at.
Qed.
End unique_lemmas.

(** ** Cartesian vectors: lemmas *)

Lemma string_app_cons a s t : (String a s +:+ t) = String a (s +:+ t).
Proof. done. Qed.

Lemma string_app_nil_inv s c : ("" : string) <> (s +:+ String c "").
Proof. by destruct s. Qed.

Lemma split_last_cons a s :
  s <> "" ->
  split_last (String a s) =
  match split_last s with Some (b, l) => Some (String a b, l) | None => None end.
Proof. by destruct s. Qed.

Lemma split_last_spec s b c : split_last s = Some (b, c) <-> s = (b +:+ String c "").
Proof.
  revert b c. induction s as [|a s IH]; intros b c.
  { split; [done|]. intros H. by apply string_app_nil_inv in H. }
  transitivity (match s with
                | "" => ("", a) = (b, c)
                | _ => exists b', b = String a b' /\ split_last s = Some (b', c) end).
  { destruct s as [|a' s]; [cbn; naive_solver|].
    rewrite split_last_cons by done. destruct (split_last (String a' s)) as [[??]|]; naive_solver. }
  destruct b as [|a1 b].
  - change ("" +:+ String c "") with (String c ""). destruct s; naive_solver.
  - rewrite string_app_cons. destruct s as [|a' s].
    + split; [done|]. intros [= _ Hnil]. by apply string_app_nil_inv in Hnil.
    + setoid_rewrite IH. split.
      * intros (b' & [= -> ->] & ->). done.
      * intros [= -> Heq]. by exists b.
Qed.

Lemma split_last_None s : split_last s = None <-> s = "".
Proof.
  split; [|by intros ->]. induction s as [|a s IH]; [done|].
  destruct s as [|a' s]; [done|]. rewrite split_last_cons by done.
  destruct (split_last (String a' s)) as [[??]|]; [done|]. intros _. by specialize (IH eq_refl).
Qed.

(** Suffix letter of component [k]. *)
Definition comp_letter (k : nat) : ascii :=
  match k with 0%nat => "X"%char | 1%nat => "Y"%char | _ => "Z"%char end.
Definition n_comp (phy_dim : Z) : nat := if bool_decide (phy_dim = 3) then 3 else 2.

Lemma to_index_spec phy_dim c k :
  to_index phy_dim c = Some k <-> (k < n_comp phy_dim)%nat /\ c = comp_letter k.
Proof.
  unfold to_index, n_comp. split.
  - intros Hk. repeat case_bool_decide; destruct_and?; simplify_eq; split; try done; lia.
  - intros [Hk ->]. destruct k as [|[|[|k]]]; cbn [comp_letter]; repeat case_bool_decide;
      try done; try lia; tauto.
Qed.

Lemma letter_name_inj (b base : string) l c :
  (b +:+ String l "") = (base +:+ String c "") -> b = base /\ l = c.
Proof.
  intros Heq%(f_equal split_last).
  rewrite !(proj2 (split_last_spec _ _ _) eq_refl) in Heq. by simplify_eq.
Qed.

Lemma elem_of_foldl_inter (s0 : gset string) others b :
  b ∈ foldl (∩) s0 others <-> b ∈ s0 /\ forall s, s ∈ others -> b ∈ s.
Proof.
  revert s0. induction others as [|s others IH]; intros s0; cbn; [set_solver|].
  rewrite IH. set_solver.
Qed.

Lemma suffix_add_spec phy_dim sets name :
  length sets = n_comp phy_dim -> name <> "" ->
  exists sets', suffix_add phy_dim sets name = Ret sets' /\ length sets' = length sets /\
    forall k s s', sets !! k = Some s -> sets' !! k = Some s' ->
      forall b, b ∈ s' <-> b ∈ s \/ (b +:+ String (comp_letter k) "") = name.
Proof.
  intros Hlen Hn. unfold suffix_add.
  destruct (split_last name) as [[base c]|] eqn:E; [|by apply split_last_None in E].
  apply split_last_spec in E. subst name. eexists. split; [done|].
  assert (Hidx : forall k s b, sets !! k = Some s ->
    (b +:+ String (comp_letter k) "") = (base +:+ String c "") -> b = base /\ to_index phy_dim c = Some k).
  { intros k s b Hk [-> <-]%letter_name_inj. split; [done|]. apply to_index_spec. split; [|done].
    rewrite <- Hlen. by eapply lookup_lt_Some. }
  destruct (to_index phy_dim c) as [k|] eqn:Ek.
  - apply to_index_spec in Ek as [Hk ->]. split; [apply length_alter|].
    intros k' s s' Hs Hs' b. destruct (decide (k = k')) as [->|Hne].
    + rewrite list_lookup_alter_eq, Hs in Hs'. cbn in Hs'. simplify_eq. naive_solver set_solver.
    + rewrite list_lookup_alter_ne, Hs in Hs' by done. simplify_eq. naive_solver.
  - split; [done|]. intros k' s s' Hs Hs' b. simplify_eq. naive_solver.
Qed.

Lemma suffix_loop_spec phy_dim names sets :
  length sets = n_comp phy_dim -> "" ∉ names ->
  exists sets', suffix_loop phy_dim names sets = Ret sets' /\ length sets' = length sets /\
     forall k s s', sets !! k = Some s -> sets' !! k = Some s' ->
       forall b, b ∈ s' <-> b ∈ s \/ (b +:+ String (comp_letter k) "") ∈ names.
Proof.
  revert sets. induction names as [|name names IH]; intros sets Hlen Hn; cbn [suffix_loop].
  { exists sets. repeat split; try done; set_solver. }
  apply not_elem_of_cons in Hn as [Hname Hn].
  destruct (suffix_add_spec phy_dim sets name) as (s1 & -> & Hl1 & H1); [done..|]. cbn [mbind py_bind].
  destruct (IH s1) as (s2 & -> & Hl2 & H2); [congruence|done|].
  exists s2. split; [done|]. split; [congruence|]. intros k s s' Hs Hs' b.
  assert (is_Some (s1 !! k)) as [t Ht].
  { apply lookup_lt_is_Some. rewrite Hl1. by eapply lookup_lt_Some. }
  rewrite (H2 k t s' Ht Hs'), (H1 k s t Hs Ht), elem_of_cons. tauto.
Qed.

Lemma suffix_loop_empty phy_dim names sets :
  "" ∈ names -> suffix_loop phy_dim names sets = Raise IndexError.
Proof.
  revert sets. induction names as [|name names IH]; intros sets Hin; [by apply not_elem_of_nil in Hin|].
  cbn. unfold suffix_add. destruct (split_last name) as [[base c]|] eqn:E; [|done].
  apply IH. apply elem_of_cons in Hin as [<-|]; done.
Qed.

(** ** Properties *)

(** For non-negative counts, [to_nested_list] returns exactly the nested list that has these
    lengths and flattens back to the input; in particular the two conversions are inverse. *)
Theorem to_nested_list_iff {A} (l : list A) counts ls :
  Forall (fun c => 0 <= c) counts ->
  to_nested_list l counts = Ret ls <-> to_flat_list ls = l /\ zlen <$> ls = counts.
Proof.
  intros Hc. unfold to_nested_list, to_flat_list. case_bool_decide as Hl; cbn.
  - destruct (to_nested_loop_spec l 0 counts) as [H1 H2]; [done|lia..|]. split.
    + intros. inv_py. done.
    + intros [<- <-]. f_equal. apply (to_nested_loop_app [] ls).
  - split; [done|]. intros [<- <-]. destruct Hl. clear Hc.
    induction ls as [|l ls IH]; [done|].
    rewrite fmap_cons, zsum_cons, <- IH. apply zlen_app.
Qed.

Lemma to_nested_list_iff_witness :
  to_nested_list [7; 8; 9] [1; 0; 2] = Ret [[7]; []; [8; 9]].
Proof. apply to_nested_list_iff; [repeat constructor; lia | split; reflexivity]. Defined.

(** [bucket_split] with a given number of buckets raises IndexError exactly when some element
    is dispatched out of range; otherwise bucket [k] holds, in their original order, the elements
    whose (possibly negative) index designates [k], empty buckets being dropped by [compress]. *)
Theorem bucket_split_spec {A} (l : list A) (f : A -> Z) compress s :
  bucket_split l f compress (Some s) =
  (if forallb (in_buckets f s) l
   then let result := bucket_of f s l <$> arange 0 s in
        Ret (if compress then filter (fun b => b <> []) result else result)
   else Raise IndexError).
Proof.
  unfold bucket_split. cbn [mbind py_bind]. destruct (decide (0 <= s)) as [Hs|Hs].
  - pose proof (bucket_loop_spec f (Z.to_nat s) [] l) as H. rewrite Z2Nat.id in H by done.
    replace (py_repeat s []) with (bucket_of f s ([] : list A) <$> arange 0 s).
    + rewrite H. by destruct (forallb _ _).
    + unfold py_repeat. apply list_eq. intros k. rewrite list_lookup_fmap.
      destruct (decide (k < Z.to_nat s)%nat).
      * rewrite lookup_arange, lookup_replicate_2 by lia. done.
      * rewrite !lookup_ge_None_2; rewrite ?length_arange, ?length_replicate; try lia. done.
  - unfold py_repeat. rewrite Z2Nat.nonpos, arange_nil by lia. cbn.
    destruct l as [|e l]; [done|]. cbn. unfold in_buckets at 1.
    unfold bucket_push. rewrite (proj2 (norm_index_None _ _)) by (cbn; lia).
    by repeat case_bool_decide; try lia.
Qed.

(** The first element of each interval. *)
Definition uniform_start (n P i : Z) : Z := i * (n / P) + Z.min i (n mod P).

Lemma uniform_at_start n P i :
  P <> 0 -> uniform_distribution_at n i P = Ret (uniform_start n P i, uniform_start n P (i + 1)).
Proof.
  intros HP. unfold uniform_distribution_at, uniform_start. rewrite bool_decide_eq_false_2 by done.
  case_bool_decide; do 2 f_equal; lia.
Qed.

Lemma uniform_start_spec n P :
  0 <= n -> 0 < P -> uniform_start n P 0 = 0 /\ uniform_start n P P = n /\
  forall i j, 0 <= i <= j -> uniform_start n P i <= uniform_start n P j.
Proof.
  intros Hn HP. unfold uniform_start. pose proof (Z.div_mod n P ltac:(lia)). pose proof (Z.mod_pos_bound n P HP).
  pose proof (Z.div_pos n P Hn HP). split_and!; [lia|nia|]. intros i j Hij. nia.
Qed.

(** Consecutive intervals glue together. *)
Lemma concat_runs f k :
  (forall i j, 0 <= i <= j -> f i <= f j) -> 0 <= k -> concat (map (fun i => arange (f i) (f (i + 1))) (arange 0 k)) = arange (f 0) (f k).
Proof.
  intros Hf Hk. pattern k. apply natlike_ind; [by rewrite !arange_nil by lia| |done]. clear k Hk. intros k Hk IH.
  rewrite <- Z.add_1_r, (arange_app 0 k (k + 1)) by lia. rewrite map_app, concat_app, IH.
  rewrite (arange_cons k) by lia. rewrite (arange_nil (k + 1)) by lia. cbn [map concat]. rewrite app_nil_r.
  symmetry. apply arange_app; apply Hf; lia.
Qed.

Lemma uniform_concat n P :
  0 <= n -> 0 < P -> concat (map (fun i => arange (uniform_start n P i) (uniform_start n P (i + 1))) (arange 0 P)) = arange 0 n.
Proof.
  intros Hn HP. destruct (uniform_start_spec n P Hn HP) as (H0 & H1 & Hm). rewrite concat_runs by (done || lia). by rewrite H0, H1.
Qed.

(** The intervals [uniform_distribution_at n i P], for [0 <= i < P], tile [0, n) in order and
    their sizes differ by at most one. *)
Theorem uniform_distribution_tiles n P i :
  0 <= n -> 0 <= i < P ->
  exists inf sup, uniform_distribution_at n i P = Ret (inf, sup) /\
    0 <= inf <= sup /\ sup <= n /\ n / P <= sup - inf <= n / P + 1 /\
    (i = 0 -> inf = 0) /\ (i = P - 1 -> sup = n) /\
    (forall inf' sup', uniform_distribution_at n (i + 1) P = Ret (inf', sup') -> inf' = sup).
Proof.
  intros Hn Hi. unfold uniform_distribution_at.
  rewrite !(bool_decide_eq_false_2 (P = 0)) by lia.
  pose proof (Z.div_mod n P ltac:(lia)) as Hdm. pose proof (Z.mod_pos_bound n P ltac:(lia)).
  pose proof (Z.div_pos n P ltac:(lia) ltac:(lia)).
  set (q := n / P) in *. set (r := n mod P) in *. clearbody q r.
  assert (i * q <= (P - 1) * q) by nia.
  case_bool_decide; eexists _, _; (split; [done|]); repeat split; try nia;
    intros inf' sup'; case_bool_decide; intros; simplify_eq; nia.
Qed.

Lemma uniform_distribution_tiles_witness :
  exists inf sup, uniform_distribution_at 10 1 3 = Ret (inf, sup) /\
    0 <= inf <= sup /\ sup <= 10 /\ 10 / 3 <= sup - inf <= 10 / 3 + 1 /\
    (1 = 0 -> inf = 0) /\ (1 = 3 - 1 -> sup = 10) /\
    (forall inf' sup', uniform_distribution_at 10 (1 + 1) 3 = Ret (inf', sup') -> inf' = sup).
Proof. apply (uniform_distribution_tiles 10 3 1); lia. Defined.

(** [unique_idx] numbers the elements of a sequence by their dense rank: ids are compared as
    the elements are (so equal elements, and only they, share an id) and every value between 0
    and an id is the id of some element. *)
Theorem unique_idx_dense_rank {A} `{EqDecision A} (le : A -> A -> bool) (sq : list A) i j x y :
  (forall x y, le x y = true \/ le y x = true) ->
  (forall x y z, le x y = true -> le y z = true -> le x z = true) ->
  (forall x y, le x y = true -> le y x = true -> x = y) ->
  sq !! i = Some x -> sq !! j = Some y ->
  exists r q, unique_idx le sq !! i = Some r /\ unique_idx le sq !! j = Some q /\
    (r <= q <-> le x y = true) /\ (r = q <-> x = y) /\
    0 <= r /\ (forall k, 0 <= k <= r -> k ∈ unique_idx le sq).
Proof.
  intros Htot Htr Has Hi Hj.
  destruct (unique_idx_ranks le Htot Htr sq i x Hi) as (x0 & a & r & Hs & H0 & Ha & Hra & Hr).
  destruct (unique_idx_ranks le Htot Htr sq j y Hj) as (x0' & b & q & _ & H0' & Hb & Hqb & Hq).
  assert (x0' = x0) as -> by congruence. exists r, q. split_and!; try done.
  - by eapply ranks_mono.
  - pose proof (ranks_mono le Htot Htr Has _ _ _ _ _ _ _ _ _ Hs Hra Hqb Ha Hb).
    pose proof (ranks_mono le Htot Htr Has _ _ _ _ _ _ _ _ _ Hs Hqb Hra Hb Ha).
    split; [intros ->; apply Has; naive_solver lia|]. intros ->.
    destruct (Htot y y); naive_solver lia.
  - by eapply ranks_ge.
  - intros k Hk.
    assert (exists c, ranks x0 0 (argsort le sq).*2 !! c = Some k) as [c Hc].
    { destruct (decide (k = 0)) as [->|]; [|eapply ranks_dense; [exact Hra|lia]].
      exists 0%nat. destruct (argsort le sq) as [|[i0 z] rest]; cbn in *; [done|]. simplify_eq.
      by rewrite bool_decide_eq_false_2 by (by intros []). }
    assert (is_Some ((argsort le sq).*1 !! c)) as [i' Hi'].
    { apply lookup_lt_is_Some. apply lookup_lt_Some in Hc.
      rewrite length_ranks, length_fmap in Hc. by rewrite length_fmap. }
    assert (is_Some (sq !! i')) as [z Hz].
    { apply lookup_lt_is_Some. apply list_elem_of_lookup_2 in Hi'.
      rewrite argsort_fst_perm, elem_of_seq in Hi'. lia. }
    apply list_elem_of_lookup. exists i'. by eapply unique_idx_at.
Qed.

Lemma unique_idx_dense_rank_witness :
  exists r q, unique_idx Z.leb [5; 3; 3; 9] !! 0%nat = Some r /\
    unique_idx Z.leb [5; 3; 3; 9] !! 3%nat = Some q /\
    (r <= q <-> Z.leb 5 9 = true) /\ (r = q <-> 5 = 9) /\
    0 <= r /\ (forall k, 0 <= k <= r -> k ∈ unique_idx Z.leb [5; 3; 3; 9]).
Proof.
  apply (unique_idx_dense_rank Z.leb [5; 3; 3; 9] 0 3 5 9);
    [intros; lia | intros; lia | intros; lia | reflexivity | reflexivity].
Defined.

(** [get_ordered_subset] never raises on a non-empty [L]; when it answers, the answer is a
    permutation of [subset] that can be read circularly in [L], and when it answers None no
    permutation of [subset] can. *)
Theorem get_ordered_subset_spec {A} `{EqDecision A} (subset L : list A) :
  L <> [] -> (length subset <= length L)%nat ->
  match get_ordered_subset subset L with
  | Ret (Some p) => p ≡ₚ subset /\ circular p L
  | Ret None => forall p, p ≡ₚ subset -> ~ circular p L
  | Raise _ => False
  end.
Proof.
  intros HL Hlen. unfold get_ordered_subset.
  assert (Hp : forall q, q ∈ permutations subset <-> q ≡ₚ subset)
    by (intros q; by apply permutations_n_spec).
  assert (Hall : Forall (fun q => (length q <= length L)%nat) (permutations subset))
    by (apply Forall_forall; intros q Hq%Hp; by rewrite Hq).
  pose proof (find_perm_spec (permutations subset) L HL Hall) as H.
  destruct (find_perm _ L) as [[p|]|]; [by rewrite Hp in H| |done].
  intros p Hpe. rewrite Forall_forall in H. by apply H, Hp.
Qed.

Lemma get_ordered_subset_spec_witness :
  match get_ordered_subset [4; 2; 3] [3; 4; 5; 2] with
  | Ret (Some p) => p ≡ₚ [4; 2; 3] /\ circular p [3; 4; 5; 2]
  | Ret None => forall p, p ≡ₚ [4; 2; 3] -> ~ circular p [3; 4; 5; 2]
  | Raise _ => False
  end.
Proof. apply (get_ordered_subset_spec [4; 2; 3] [3; 4; 5; 2]); [discriminate | cbn; lia]. Defined.

(** [find_cartesian_vector_names] raises IndexError exactly when a name is empty; otherwise
    it returns, sorted and without repetition, the basenames whose X, Y (and Z in dimension 3)
    components are all among [names]. *)
Theorem find_cartesian_vector_names_spec names phy_dim :
  match find_cartesian_vector_names names phy_dim with
  | Ret r => ("" ∉ names) /\ NoDup r /\ StronglySorted (fun a b => String.leb a b = true) r /\
      forall b, b ∈ r <->
        forall k, (k < n_comp phy_dim)%nat -> (b +:+ String (comp_letter k) "") ∈ names
  | Raise e => "" ∈ names /\ e = IndexError
  end.
Proof.
  unfold find_cartesian_vector_names. fold (n_comp phy_dim).
  destruct (decide ("" ∈ names)) as [He|He]; [by rewrite suffix_loop_empty|].
  destruct (suffix_loop_spec phy_dim names (replicate (n_comp phy_dim) ∅))
    as (sets & -> & Hlen & Hspec); [apply length_replicate|done|].
  cbn [mbind py_bind]. rewrite length_replicate in Hlen.
  assert (Hk : forall k s b, sets !! k = Some s ->
    b ∈ s <-> (b +:+ String (comp_letter k) "") ∈ names).
  { intros k s b Hs. rewrite (Hspec k ∅ s); [set_solver| |done].
    apply lookup_replicate_2. rewrite <- Hlen. by eapply lookup_lt_Some. }
  destruct sets as [|s0 others]; [exfalso; unfold n_comp in Hlen; case_bool_decide; done|].
  split; [done|]. split; [rewrite sort_by_perm; apply NoDup_elements|].
  split; [apply sort_strings_sorted|]. intros b.
  rewrite sort_by_perm, elem_of_elements, elem_of_foldl_inter. split.
  - intros [Hb0 Hb] [|k] Hlt; [by apply (Hk 0%nat s0)|].
    rewrite <- Hlen in Hlt. cbn in Hlt. apply Nat.succ_lt_mono in Hlt.
    apply lookup_lt_is_Some in Hlt as [s Hs]. apply (Hk (S k) s); [done|].
    apply Hb. by eapply list_elem_of_lookup_2.
  - intros Hall. split.
    + apply (Hk 0%nat s0 b eq_refl), Hall. rewrite <- Hlen. cbn. lia.
    + intros s [k Hs]%list_elem_of_lookup. apply (Hk (S k) s b Hs), Hall.
      rewrite <- Hlen. cbn. apply lookup_lt_Some in Hs. lia.
Qed.

End PyUtils.
