(* ===== verification/Numbering.v ===== *)
(** * Structured numbering: [maia/utils/numbering]

    The conversions between (i,j,k) triplets and global indices of
    [s_numbering_funcs.py], the face connectivities it obtains from
    [numbering.pybind.cpp], the hyperslab decomposition of
    [range_to_slab.py] and the point list enumeration of [pr_utils.py].

    Numpy calls are elementwise, so the scalar functions are modelled on [Z]
    and their array versions are [map]s.  Sizes are triplets; indices are
    exact integers (the code computes them in the dtype of the mesh). *)
From S2P Require Import Prelude.

Local Open Scope Z_scope.

Module Numbering.

(** A size or an index along the three axes. *)
Abbreviation triplet := (Z * Z * Z)%type.

(** ** Index conversions *)

Definition ijk_to_index (i j k : Z) (n_elmt : triplet) : Z :=
  let '(n0, n1, _) := n_elmt in i + (j - 1) * n0 + (k - 1) * n0 * n1.

Definition index_to_ijk (idx : Z) (n_elmt : triplet) : triplet :=
  let '(n0, n1, _) := n_elmt in
  let k := (idx - 1) / (n0 * n1) + 1 in
  let j := (idx - (k - 1) * (n0 * n1) - 1) / n0 + 1 in
  let i := idx - (j - 1) * n0 - (k - 1) * (n0 * n1) in
  (i, j, k).

Definition ijk_to_faceiIndex (i j k : Z) (n_cell n_vtx : triplet) : Z :=
  let '(c0, c1, c2) := n_cell in let '(v0, v1, v2) := n_vtx in
  i + (j - 1) * v0 + (k - 1) * v0 * c1.

Definition faceiIndex_to_ijk (idx : Z) (n_cell n_vtx : triplet) : triplet :=
  let '(c0, c1, c2) := n_cell in let '(v0, v1, v2) := n_vtx in
  let k := (idx - 1) / (v0 * c1) + 1 in
  let j := (idx - (k - 1) * (v0 * c1) - 1) / v0 + 1 in
  let i := idx - (j - 1) * v0 - (k - 1) * (v0 * c1) in
  (i, j, k).

Definition ijk_to_facejIndex (i j k : Z) (n_cell n_vtx : triplet) : Z :=
  let '(c0, c1, c2) := n_cell in let '(v0, v1, v2) := n_vtx in
  let nbFacesi := v0 * c1 * c2 in
  i + (j - 1) * c0 + (k - 1) * v1 * c0 + nbFacesi.

Definition facejIndex_to_ijk (idx : Z) (n_cell n_vtx : triplet) : triplet :=
  let '(c0, c1, c2) := n_cell in let '(v0, v1, v2) := n_vtx in
  let nbFacesi := v0 * c1 * c2 in
  let k := (idx - 1 - nbFacesi) / (v1 * c0) + 1 in
  let j := (idx - (k - 1) * (v1 * c0) - 1 - nbFacesi) / c0 + 1 in
  let i := idx - (j - 1) * c0 - (k - 1) * (v1 * c0) - nbFacesi in
  (i, j, k).

Definition ijk_to_facekIndex (i j k : Z) (n_cell n_vtx : triplet) : Z :=
  let '(c0, c1, c2) := n_cell in let '(v0, v1, v2) := n_vtx in
  let nbFacesi := v0 * c1 * c2 in
  let nbFacesj := v1 * c0 * c2 in
  i + (j - 1) * c0 + (k - 1) * c0 * c1 + nbFacesi + nbFacesj.

Definition facekIndex_to_ijk (idx : Z) (n_cell n_vtx : triplet) : triplet :=
  let '(c0, c1, c2) := n_cell in let '(v0, v1, v2) := n_vtx in
  let nbFacesi := v0 * c1 * c2 in
  let nbFacesj := v1 * c0 * c2 in
  let k := (idx - 1 - nbFacesi - nbFacesj) / (c0 * c1) + 1 in
  let j := (idx - (k - 1) * (c0 * c1) - 1 - nbFacesi - nbFacesj) / c0 + 1 in
  let i := idx - (j - 1) * c0 - (k - 1) * (c0 * c1) - nbFacesi - nbFacesj in
  (i, j, k).

(** [n_cell = n_vtx - 1] *)
Definition cells_of (n_vtx : triplet) : triplet :=
  let '(v0, v1, v2) := n_vtx in (v0 - 1, v1 - 1, v2 - 1).

Definition ijk_to_index_from_loc (i j k : Z) (loc : string) (n_vtx : triplet) : py Z :=
  let n_cell := cells_of n_vtx in
  if bool_decide (loc = "Vertex") then Ret (ijk_to_index i j k n_vtx)
  else if bool_decide (loc = "CellCenter") then Ret (ijk_to_index i j k n_cell)
  else if bool_decide (loc = "IFaceCenter") then Ret (ijk_to_faceiIndex i j k n_cell n_vtx)
  else if bool_decide (loc = "JFaceCenter") then Ret (ijk_to_facejIndex i j k n_cell n_vtx)
  else if bool_decide (loc = "KFaceCenter") then Ret (ijk_to_facekIndex i j k n_cell n_vtx)
  else Raise ValueError.

Definition index_to_ijk_from_loc (idx : Z) (loc : string) (n_vtx : triplet) : py triplet :=
  let n_cell := cells_of n_vtx in
  if bool_decide (loc = "Vertex") then Ret (index_to_ijk idx n_vtx)
  else if bool_decide (loc = "CellCenter") then Ret (index_to_ijk idx n_cell)
  else if bool_decide (loc = "IFaceCenter") then Ret (faceiIndex_to_ijk idx n_cell n_vtx)
  else if bool_decide (loc = "JFaceCenter") then Ret (facejIndex_to_ijk idx n_cell n_vtx)
  else if bool_decide (loc = "KFaceCenter") then Ret (facekIndex_to_ijk idx n_cell n_vtx)
  else Raise ValueError.

(** ** Face connectivities ([numbering.pybind.cpp]) *)

Definition n_face_glob (n_cell : triplet) : Z :=
  let '(c0, c1, c2) := n_cell in
  (c0 + 1) * c1 * c2 + (c1 + 1) * c0 * c2 + (c2 + 1) * c0 * c1.

(** [n_vtx[] = {n_cell[0]+1, n_cell[1]+1, n_cell[2]+1}] *)
Definition vtx_of (n_cell : triplet) : triplet :=
  let '(c0, c1, c2) := n_cell in (c0 + 1, c1 + 1, c2 + 1).

(** A boolean used as an integer. *)
Definition b2z (b : bool) : Z := if b then 1 else 0.

(** Body of the loop of [facepe_from_i_face] and of the I loop of the generator. *)
Definition facepe_i (n_cell : triplet) (gface : Z) : Z * Z :=
  let '(v0, _, _) := vtx_of n_cell in
  let n_face_tot := n_face_glob n_cell in
  let line_nb := (gface - 1) / v0 in
  let is_min_bnd := bool_decide (gface mod v0 = 1) in
  let is_max_bnd := bool_decide (gface mod v0 = 0) in
  let is_internal := negb is_min_bnd && negb is_max_bnd in
  ((gface - line_nb + n_face_tot) - 1 + b2z is_min_bnd,
   (gface - line_nb + n_face_tot) * b2z is_internal).

Definition facevtx_i (n_cell : triplet) (gface : Z) : list Z :=
  let '(c0, c1, c2) := n_cell in
  let '(v0, v1, _) := vtx_of n_cell in
  let plane_nb := (gface - 1) / (v0 * c1) in
  let n1 := gface + plane_nb * v0 in
  if bool_decide (gface mod v0 = 1)
  then [n1; n1 + v0 * v1; n1 + v0 + v0 * v1; n1 + v0]
  else [n1; n1 + v0; n1 + v0 + v0 * v1; n1 + v0 * v1].

Definition facepe_j (n_cell : triplet) (gface : Z) : Z * Z :=
  let '(c0, c1, c2) := n_cell in
  let '(v0, v1, _) := vtx_of n_cell in
  let nb_face_ij := v1 * c0 in
  let n_face_tot := n_face_glob n_cell in
  let plane_nb := (gface - 1) / nb_face_ij in
  let is_min_bnd := bool_decide (gface - plane_nb * nb_face_ij < v0) in
  let is_max_bnd := bool_decide (gface - plane_nb * nb_face_ij > nb_face_ij - v0 + 1) in
  let is_internal := negb is_min_bnd && negb is_max_bnd in
  ((gface - c0 * plane_nb + n_face_tot) - c0 * (1 - b2z is_min_bnd),
   (gface - c0 * plane_nb + n_face_tot) * b2z is_internal).

Definition facevtx_j (n_cell : triplet) (gface : Z) : list Z :=
  let '(c0, c1, c2) := n_cell in
  let '(v0, v1, _) := vtx_of n_cell in
  let nb_face_ij := v1 * c0 in
  let line_nb := (gface - 1) / c0 in
  let plane_nb := (gface - 1) / nb_face_ij in
  let n1 := gface + line_nb in
  if bool_decide (gface - plane_nb * nb_face_ij < v0)
  then [n1; n1 + 1; n1 + v0 * v1 + 1; n1 + v0 * v1]
  else [n1; n1 + v0 * v1; n1 + v0 * v1 + 1; n1 + 1].

Definition facepe_k (n_cell : triplet) (gface : Z) : Z * Z :=
  let '(c0, c1, c2) := n_cell in
  let nb_face_ij := c0 * c1 in
  let n_face_tot := n_face_glob n_cell in
  let is_min_bnd := bool_decide (gface <= nb_face_ij) in
  let is_max_bnd := bool_decide (gface > nb_face_ij * c2) in
  let is_internal := negb is_min_bnd && negb is_max_bnd in
  (gface - nb_face_ij * (1 - b2z is_min_bnd) + n_face_tot,
   (gface + n_face_tot) * b2z is_internal).

Definition facevtx_k (n_cell : triplet) (gface : Z) : list Z :=
  let '(c0, c1, c2) := n_cell in
  let '(v0, v1, _) := vtx_of n_cell in
  let nb_face_ij := c0 * c1 in
  let line_nb := (gface - 1) / c0 in
  let plan_nb := (gface - 1) / nb_face_ij in
  let n1 := gface + line_nb + v0 * plan_nb in
  if bool_decide (gface <= nb_face_ij)
  then [n1; n1 + v0; n1 + v0 + 1; n1 + 1]
  else [n1; n1 + 1; n1 + v0 + 1; n1 + v0].

(** The array entry points of [s_numbering_funcs.py] ([n_vtx] is not used by the code). *)
Definition PE_idx_from_i_face_idx (idx : list Z) (n_cell n_vtx : triplet) : list (Z * Z) :=
  facepe_i n_cell <$> idx.
Definition facevtx_from_i_face_idx (idx : list Z) (n_cell n_vtx : triplet) : list Z :=
  concat (facevtx_i n_cell <$> idx).
Definition PE_idx_from_j_face_idx (idx : list Z) (n_cell n_vtx : triplet) : list (Z * Z) :=
  facepe_j n_cell <$> idx.
Definition facevtx_from_j_face_idx (idx : list Z) (n_cell n_vtx : triplet) : list Z :=
  concat (facevtx_j n_cell <$> idx).
Definition PE_idx_from_k_face_idx (idx : list Z) (n_cell n_vtx : triplet) : list (Z * Z) :=
  facepe_k n_cell <$> idx.
Definition facevtx_from_k_face_idx (idx : list Z) (n_cell n_vtx : triplet) : list Z :=
  concat (facevtx_k n_cell <$> idx).

(** ** NGon generator ([numbering.pybind.cpp], lines 23-131) *)

(** One turn of each of the three loops: parents and vertices of a face. *)
Definition gen_face_i (n_cell : triplet) (gface : Z) : (Z * Z) * list Z :=
  let '(c0, c1, c2) := n_cell in
  let '(v0, v1, v2) := vtx_of n_cell in
  let n_face_tot := n_face_glob n_cell in
  let line_nb := (gface - 1) / v0 in
  let plane_nb := (gface - 1) / (v0 * c1) in
  let is_min_bnd := bool_decide (gface mod v0 = 1) in
  let is_max_bnd := bool_decide (gface mod v0 = 0) in
  let is_internal := negb is_min_bnd && negb is_max_bnd in
  let n1 := gface + plane_nb * v0 in
  (((gface - line_nb + n_face_tot) - 1 + b2z is_min_bnd,
    (gface - line_nb + n_face_tot) * b2z is_internal),
   if is_min_bnd then [n1; n1 + v0 * v1; n1 + v0 + v0 * v1; n1 + v0]
   else [n1; n1 + v0; n1 + v0 + v0 * v1; n1 + v0 * v1]).

Definition gen_face_j (n_cell : triplet) (gface : Z) : (Z * Z) * list Z :=
  let '(c0, c1, c2) := n_cell in
  let '(v0, v1, v2) := vtx_of n_cell in
  let n_face_tot := n_face_glob n_cell in
  let nb_face_ij := v1 * c0 in
  let line_nb := (gface - 1) / c0 in
  let plane_nb := (gface - 1) / nb_face_ij in
  let is_min_bnd := bool_decide (gface - plane_nb * nb_face_ij < v0) in
  let is_max_bnd := bool_decide (gface - plane_nb * nb_face_ij > nb_face_ij - v0 + 1) in
  let is_internal := negb is_min_bnd && negb is_max_bnd in
  let n1 := gface + line_nb in
  (((gface - c0 * plane_nb + n_face_tot) - c0 * (1 - b2z is_min_bnd),
    (gface - c0 * plane_nb + n_face_tot) * b2z is_internal),
   if is_min_bnd then [n1; n1 + 1; n1 + v0 * v1 + 1; n1 + v0 * v1]
   else [n1; n1 + v0 * v1; n1 + v0 * v1 + 1; n1 + 1]).

Definition gen_face_k (n_cell : triplet) (gface : Z) : (Z * Z) * list Z :=
  let '(c0, c1, c2) := n_cell in
  let '(v0, v1, v2) := vtx_of n_cell in
  let n_face_tot := n_face_glob n_cell in
  let nb_face_ij := c0 * c1 in
  let line_nb := (gface - 1) / c0 in
  let plan_nb := (gface - 1) / nb_face_ij in
  let is_min_bnd := bool_decide (gface <= nb_face_ij) in
  let is_max_bnd := bool_decide (gface > nb_face_ij * c2) in
  let is_internal := negb is_min_bnd && negb is_max_bnd in
  let n1 := gface + line_nb + v0 * plan_nb in
  ((gface - nb_face_ij * (1 - b2z is_min_bnd) + n_face_tot,
    (gface + n_face_tot) * b2z is_internal),
   if is_min_bnd then [n1; n1 + v0; n1 + v0 + 1; n1 + 1]
   else [n1; n1 + 1; n1 + v0 + 1; n1 + v0]).

(** [for (...; ++i) { ...; gface++; }], [n] turns from [gface]. *)
Fixpoint gen_loop (body : Z -> (Z * Z) * list Z) (n : nat) (gface : Z)
  : list ((Z * Z) * list Z) :=
  match n with O => [] | S n' => body gface :: gen_loop body n' (gface + 1) end.

(** The arrays [face_vtx] and [face_pe] of [ngon_dconnectivity_from_gnum(bounds, n_cell, dtype)].
    A negative face count is numpy's ValueError; the loops fill the arrays completely when the
    bounds are increasing, which the code asserts. *)
Definition ngon_dconnectivity_from_gnum (begin endI endJ endK : Z) (n_cell : triplet)
  : py (list Z * list (Z * Z)) :=
  if bool_decide (endK - begin < 0) then Raise ValueError else
  _ ← py_assert (bool_decide (begin <= endI) && bool_decide (endI <= endJ) && bool_decide (endJ <= endK));
  let '(c0, c1, c2) := n_cell in
  let '(v0, v1, v2) := vtx_of n_cell in
  let nf_i := v0 * c1 * c2 in
  let nf_j := v1 * c0 * c2 in
  let faces :=
    gen_loop (gen_face_i n_cell) (Z.to_nat (endI - begin)) begin ++
    gen_loop (gen_face_j n_cell) (Z.to_nat (endJ - endI)) (endI - nf_i) ++
    gen_loop (gen_face_k n_cell) (Z.to_nat (endK - endJ)) (endJ - nf_i - nf_j) in
  Ret (concat faces.*2, faces.*1).

(** ** Lemmas *)

(** Equality of explicit lists of integers, up to ring equations. *)
Ltac list_ring := repeat (apply (f_equal2 (@cons Z)); [ring|]); reflexivity.

Lemma div_decomp a b n : 0 <= a < n -> (a + n * b) / n = b.
Proof. intros. symmetry. apply (Z.div_unique_pos _ _ _ a); lia. Qed.

Lemma mod_decomp a b n : 0 <= a < n -> (a + n * b) mod n = a.
Proof. intros. symmetry. apply (Z.mod_unique_pos _ _ b); lia. Qed.

Lemma mod_unique a b m n : m = a + n * b -> 0 <= a < n -> m mod n = a.
Proof. intros -> ?. by apply mod_decomp. Qed.

(** Mixed-radix reading of an index [1 + a + n0 * (b + n1 * c)]. *)
Lemma radix_spec n0 n1 a b c :
  0 < n0 -> 0 < n1 -> 0 <= a < n0 -> 0 <= b < n1 ->
  (a + b * n0 + c * n0 * n1) / (n0 * n1) = c /\
  (a + b * n0 + c * n0 * n1 - c * (n0 * n1)) / n0 = b /\
  (a + b * n0 + c * n0 * n1) / n0 = b + n1 * c.
Proof.
  intros. repeat split.
  - replace (a + b * n0 + c * n0 * n1) with ((a + b * n0) + (n0 * n1) * c) by ring.
    apply div_decomp. nia.
  - replace (a + b * n0 + c * n0 * n1 - c * (n0 * n1)) with (a + n0 * b) by ring.
    by apply div_decomp.
  - replace (a + b * n0 + c * n0 * n1) with (a + n0 * (b + n1 * c)) by ring.
    by apply div_decomp.
Qed.

(** Inverse reading: quotients recompose the index and are in range. *)
Lemma radix_inv n0 n1 n2 m :
  0 < n0 -> 0 < n1 -> 0 <= m < n0 * n1 * n2 ->
  let c := m / (n0 * n1) in let b := (m - c * (n0 * n1)) / n0 in let a := m - b * n0 - c * (n0 * n1) in
  0 <= a < n0 /\ 0 <= b < n1 /\ 0 <= c < n2 /\ a + b * n0 + c * n0 * n1 = m.
Proof.
  intros H0 H1 Hm. cbv zeta.
  pose proof (Z.mul_div_le m (n0 * n1) ltac:(nia)). pose proof (Z.mul_succ_div_gt m (n0 * n1) ltac:(nia)).
  set (c := m / (n0 * n1)) in *. clearbody c.
  pose proof (Z.mul_div_le (m - c * (n0 * n1)) n0 ltac:(lia)).
  pose proof (Z.mul_succ_div_gt (m - c * (n0 * n1)) n0 ltac:(lia)).
  set (b := (m - c * (n0 * n1)) / n0) in *. clearbody b.
  assert (0 <= c < n2) by nia. repeat split; nia.
Qed.

(** Grid of entities at a location: its size and the index preceding its first entity. *)
Definition loc_grid (loc : string) (n_vtx : triplet) : option (triplet * Z) :=
  let '(v0, v1, v2) := n_vtx in
  let '(c0, c1, c2) := cells_of n_vtx in
  if bool_decide (loc = "Vertex") then Some ((v0, v1, v2), 0)
  else if bool_decide (loc = "CellCenter") then Some ((c0, c1, c2), 0)
  else if bool_decide (loc = "IFaceCenter") then Some ((v0, c1, c2), 0)
  else if bool_decide (loc = "JFaceCenter") then Some ((c0, v1, c2), v0 * c1 * c2)
  else if bool_decide (loc = "KFaceCenter") then Some ((c0, c1, v2), v0 * c1 * c2 + c0 * v1 * c2)
  else None.

Definition in_grid (i j k : Z) (g : triplet) : Prop :=
  let '(n0, n1, n2) := g in 1 <= i <= n0 /\ 1 <= j <= n1 /\ 1 <= k <= n2.

(** Every location is a mixed-radix numbering of its grid, shifted by its offset. *)
Lemma index_from_loc_radix i j k loc n_vtx :
  ijk_to_index_from_loc i j k loc n_vtx =
  match loc_grid loc n_vtx with
  | Some ((n0, n1, _), off) => Ret (i + (j - 1) * n0 + (k - 1) * n0 * n1 + off)
  | None => Raise ValueError
  end.
Proof.
  destruct n_vtx as [[v0 v1] v2]. unfold ijk_to_index_from_loc, loc_grid. cbn [cells_of].
  repeat case_bool_decide; try done; unfold ijk_to_index, ijk_to_faceiIndex, ijk_to_facejIndex,
    ijk_to_facekIndex; f_equal; ring.
Qed.

Lemma ijk_from_loc_radix idx loc n_vtx :
  index_to_ijk_from_loc idx loc n_vtx =
  match loc_grid loc n_vtx with
  | Some ((n0, n1, _), off) =>
      let m := idx - off - 1 in
      let c := m / (n0 * n1) in let b := (m - c * (n0 * n1)) / n0 in
      Ret (m - b * n0 - c * (n0 * n1) + 1, b + 1, c + 1)
  | None => Raise ValueError
  end.
Proof.
  destruct n_vtx as [[v0 v1] v2]. unfold index_to_ijk_from_loc, loc_grid. cbn [cells_of].
  repeat case_bool_decide; try done; unfold index_to_ijk, faceiIndex_to_ijk, facejIndex_to_ijk,
    facekIndex_to_ijk; cbv zeta; f_equal.
  all: rewrite ?Z.add_simpl_r.
  all: match goal with |- (_, _, ?C + 1) = (_, _, ?c + 1) => replace C with c by (f_equal; ring) end.
  all: match goal with |- (_, ?B + 1, _) = (_, ?b + 1, _) => replace B with b by (f_equal; ring) end.
  all: repeat f_equal; ring.
Qed.

Definition grid_size (g : triplet) : Z := let '(n0, n1, n2) := g in n0 * n1 * n2.
Definition grid_pos (g : triplet) : Prop := let '(n0, n1, n2) := g in 0 < n0 /\ 0 < n1 /\ 0 < n2.

Lemma loc_grid_pos loc n_vtx g off :
  grid_pos (cells_of n_vtx) -> loc_grid loc n_vtx = Some (g, off) -> grid_pos g.
Proof.
  destruct n_vtx as [[v0 v1] v2]. unfold loc_grid. cbn. intros.
  repeat case_bool_decide; simplify_eq; cbn; lia.
Qed.

(** Parents of a face: [p] its index along its normal, [n] the number of vertices in this
    direction, [left] and [right] the cells before and after it, all cell ids being shifted by
    the total number of faces [tot].  A boundary face has its only parent on the left. *)
Definition parents (p n left right tot : Z) : Z * Z :=
  if bool_decide (p = 1) then (right + tot, 0)
  else if bool_decide (p = n) then (left + tot, 0)
  else (left + tot, right + tot).

(** Vertices of a face, oriented from its left to its right parent: a face of the minimal
    boundary is walked through the other way around. *)
Definition oriented (p a b c d : Z) : list Z :=
  if bool_decide (p = 1) then [a; d; c; b] else [a; b; c; d].

Lemma facepe_i_spec i j k n_cell :
  in_grid i j k (let '(c0, c1, c2) := n_cell in (c0 + 1, c1, c2)) -> grid_pos n_cell ->
  facepe_i n_cell (ijk_to_faceiIndex i j k n_cell (vtx_of n_cell)) =
  parents i (n_cell.1.1 + 1) (ijk_to_index (i - 1) j k n_cell) (ijk_to_index i j k n_cell)
    (n_face_glob n_cell).
Proof.
  destruct n_cell as [[c0 c1] c2]. intros (Hi & Hj & Hk) (? & ? & ?).
  unfold facepe_i, ijk_to_faceiIndex, ijk_to_index, parents. cbn [vtx_of fst snd].
  set (v0 := c0 + 1) in *. generalize (n_face_glob (c0, c1, c2)). intros tot.
  destruct (radix_spec v0 c1 (i - 1) (j - 1) (k - 1)) as (_ & _ & Hl); [lia..|].
  replace (i + (j - 1) * v0 + (k - 1) * v0 * c1 - 1) with (i - 1 + (j - 1) * v0 + (k - 1) * v0 * c1) by ring.
  rewrite Hl.
  assert (Hmod : (i + (j - 1) * v0 + (k - 1) * v0 * c1) mod v0 = if bool_decide (i = v0) then 0 else i).
  { case_bool_decide.
    - subst i. apply (mod_unique 0 (j + (k - 1) * c1)); [ring|lia].
    - apply (mod_unique i (j - 1 + (k - 1) * c1)); [ring|lia]. }
  rewrite Hmod. repeat case_bool_decide; try lia; subst; cbn [b2z negb andb]; unfold v0; f_equal; ring.
Qed.

Lemma facepe_j_spec i j k n_cell :
  in_grid i j k (let '(c0, c1, c2) := n_cell in (c0, c1 + 1, c2)) -> grid_pos n_cell ->
  facepe_j n_cell (i + (j - 1) * n_cell.1.1 + (k - 1) * n_cell.1.1 * (n_cell.1.2 + 1)) =
  parents j (n_cell.1.2 + 1) (ijk_to_index i (j - 1) k n_cell) (ijk_to_index i j k n_cell)
    (n_face_glob n_cell).
Proof.
  destruct n_cell as [[c0 c1] c2]. intros (Hi & Hj & Hk) (? & ? & ?).
  unfold facepe_j, ijk_to_index, parents. cbn [vtx_of fst snd].
  set (v1 := c1 + 1) in *. generalize (n_face_glob (c0, c1, c2)). intros tot.
  destruct (radix_spec c0 v1 (i - 1) (j - 1) (k - 1)) as (Hp & _ & _); [lia..|].
  replace (i + (j - 1) * c0 + (k - 1) * c0 * v1 - 1) with (i - 1 + (j - 1) * c0 + (k - 1) * c0 * v1) by ring.
  rewrite (Z.mul_comm v1 c0), Hp.
  rewrite (bool_decide_ext (i + (j - 1) * c0 + (k - 1) * c0 * v1 - (k - 1) * (c0 * v1) < c0 + 1) (j = 1)),
    (bool_decide_ext (i + (j - 1) * c0 + (k - 1) * c0 * v1 - (k - 1) * (c0 * v1) > c0 * v1 - (c0 + 1) + 1) (j = v1)).
  2, 3: split; intros; nia.
  repeat case_bool_decide; try lia; subst; cbn [b2z negb andb]; unfold v1; f_equal; ring.
Qed.

Lemma facepe_k_spec i j k n_cell :
  in_grid i j k (let '(c0, c1, c2) := n_cell in (c0, c1, c2 + 1)) -> grid_pos n_cell ->
  facepe_k n_cell (i + (j - 1) * n_cell.1.1 + (k - 1) * n_cell.1.1 * n_cell.1.2) =
  parents k (n_cell.2 + 1) (ijk_to_index i j (k - 1) n_cell) (ijk_to_index i j k n_cell)
    (n_face_glob n_cell).
Proof.
  destruct n_cell as [[c0 c1] c2]. intros (Hi & Hj & Hk) (? & ? & ?).
  unfold facepe_k, ijk_to_index, parents. cbn [vtx_of fst snd].
  generalize (n_face_glob (c0, c1, c2)). intros tot.
  assert (i + (j - 1) * c0 <= c0 * c1) by nia.
  rewrite (bool_decide_ext (i + (j - 1) * c0 + (k - 1) * c0 * c1 <= c0 * c1) (k = 1)),
    (bool_decide_ext (i + (j - 1) * c0 + (k - 1) * c0 * c1 > c0 * c1 * c2) (k = c2 + 1)).
  2, 3: split; intros; nia.
  repeat case_bool_decide; try lia; subst; cbn [b2z negb andb]; f_equal; ring.
Qed.

Lemma facevtx_i_spec i j k n_cell :
  in_grid i j k (let '(c0, c1, c2) := n_cell in (c0 + 1, c1, c2)) -> grid_pos n_cell ->
  let vtx i j k := ijk_to_index i j k (vtx_of n_cell) in
  facevtx_i n_cell (ijk_to_faceiIndex i j k n_cell (vtx_of n_cell)) =
  oriented i (vtx i j k) (vtx i (j + 1) k) (vtx i (j + 1) (k + 1)) (vtx i j (k + 1)).
Proof.
  destruct n_cell as [[c0 c1] c2]. intros (Hi & Hj & Hk) (? & ? & ?).
  unfold facevtx_i, ijk_to_faceiIndex, ijk_to_index, oriented. cbn [vtx_of fst snd]. cbv zeta.
  set (v0 := c0 + 1) in *.
  destruct (radix_spec v0 c1 (i - 1) (j - 1) (k - 1)) as (Hp & _ & _); [lia..|].
  replace (i + (j - 1) * v0 + (k - 1) * v0 * c1 - 1) with (i - 1 + (j - 1) * v0 + (k - 1) * v0 * c1) by ring.
  rewrite Hp.
  rewrite (bool_decide_ext ((i + (j - 1) * v0 + (k - 1) * v0 * c1) mod v0 = 1) (i = 1)).
  - case_bool_decide; list_ring.
  - destruct (decide (i = v0)).
    + subst i. rewrite (mod_unique 0 (j + (k - 1) * c1)) by (try ring; lia). lia.
    + rewrite (mod_unique i (j - 1 + (k - 1) * c1)) by (try ring; lia). done.
Qed.

Lemma facevtx_j_spec i j k n_cell :
  in_grid i j k (let '(c0, c1, c2) := n_cell in (c0, c1 + 1, c2)) -> grid_pos n_cell ->
  let vtx i j k := ijk_to_index i j k (vtx_of n_cell) in
  facevtx_j n_cell (i + (j - 1) * n_cell.1.1 + (k - 1) * n_cell.1.1 * (n_cell.1.2 + 1)) =
  oriented j (vtx i j k) (vtx i j (k + 1)) (vtx (i + 1) j (k + 1)) (vtx (i + 1) j k).
Proof.
  destruct n_cell as [[c0 c1] c2]. intros (Hi & Hj & Hk) (? & ? & ?).
  unfold facevtx_j, ijk_to_index, oriented. cbn [vtx_of fst snd]. cbv zeta.
  set (v1 := c1 + 1) in *.
  destruct (radix_spec c0 v1 (i - 1) (j - 1) (k - 1)) as (Hp & _ & Hl); [lia..|].
  replace (i + (j - 1) * c0 + (k - 1) * c0 * v1 - 1) with (i - 1 + (j - 1) * c0 + (k - 1) * c0 * v1) by ring.
  rewrite (Z.mul_comm v1 c0), Hp, Hl.
  rewrite (bool_decide_ext (i + (j - 1) * c0 + (k - 1) * c0 * v1 - (k - 1) * (c0 * v1) < c0 + 1) (j = 1)).
  - case_bool_decide; list_ring.
  - split; intros; nia.
Qed.

Lemma facevtx_k_spec i j k n_cell :
  in_grid i j k (let '(c0, c1, c2) := n_cell in (c0, c1, c2 + 1)) -> grid_pos n_cell ->
  let vtx i j k := ijk_to_index i j k (vtx_of n_cell) in
  facevtx_k n_cell (i + (j - 1) * n_cell.1.1 + (k - 1) * n_cell.1.1 * n_cell.1.2) =
  oriented k (vtx i j k) (vtx (i + 1) j k) (vtx (i + 1) (j + 1) k) (vtx i (j + 1) k).
Proof.
  destruct n_cell as [[c0 c1] c2]. intros (Hi & Hj & Hk) (? & ? & ?).
  unfold facevtx_k, ijk_to_index, oriented. cbn [vtx_of fst snd]. cbv zeta.
  destruct (radix_spec c0 c1 (i - 1) (j - 1) (k - 1)) as (Hp & _ & Hl); [lia..|].
  replace (i + (j - 1) * c0 + (k - 1) * c0 * c1 - 1) with (i - 1 + (j - 1) * c0 + (k - 1) * c0 * c1) by ring.
  rewrite Hp, Hl.
  assert (i + (j - 1) * c0 <= c0 * c1) by nia.
  rewrite (bool_decide_ext (i + (j - 1) * c0 + (k - 1) * c0 * c1 <= c0 * c1) (k = 1)).
  - case_bool_decide; list_ring.
  - split; intros; nia.
Qed.

Lemma gen_loop_fmap body n g : gen_loop body n g = body <$> arange g (g + Z.of_nat n).
Proof.
  revert g. induction n as [|n IH]; intros g; cbn [gen_loop].
  - by rewrite arange_nil by lia.
  - rewrite (arange_cons g) by lia. rewrite fmap_cons, IH. do 2 f_equal. f_equal. lia.
Qed.

(** ** Properties *)

(** At every location (vertices, cells, faces normal to each axis) the (i,j,k) numbering is a
    bijection between the entities of the grid and the interval of indices reserved for the
    location: the two conversion functions are inverse of each other, both ways. *)
Theorem loc_numbering_bijection i j k idx loc n_vtx g off :
  loc_grid loc n_vtx = Some (g, off) -> grid_pos (cells_of n_vtx) ->
  (ijk_to_index_from_loc i j k loc n_vtx = Ret idx /\ in_grid i j k g)
  <-> (index_to_ijk_from_loc idx loc n_vtx = Ret (i, j, k) /\ off < idx <= off + grid_size g).
Proof.
  intros Hg Hpos. pose proof (loc_grid_pos _ _ _ _ Hpos Hg) as Hgp.
  rewrite index_from_loc_radix, ijk_from_loc_radix, Hg.
  destruct g as [[n0 n1] n2]. destruct Hgp as (? & ? & ?). cbn [in_grid grid_size]. split.
  - intros [H2 (Hi & Hj & Hk)]. inv_py.
    replace (i + (j - 1) * n0 + (k - 1) * n0 * n1 + off - off - 1)
      with (i - 1 + (j - 1) * n0 + (k - 1) * n0 * n1) by ring.
    destruct (radix_spec n0 n1 (i - 1) (j - 1) (k - 1)) as (-> & -> & _); [lia..|].
    split; [f_equal; f_equal; [f_equal|]; ring|].
    assert (i + (j - 1) * n0 <= n0 * n1) by nia. nia.
  - intros [H2 Hidx]. injection H2 as <- <- <-.
    pose proof (radix_inv n0 n1 n2 (idx - off - 1) ltac:(lia) ltac:(lia) ltac:(lia)) as (? & ? & ? & Hm).
    split; [f_equal; lia|]. repeat split; lia.
Qed.

Lemma loc_numbering_bijection_witness :
  ijk_to_index_from_loc 2 3 1 "JFaceCenter" (4, 3, 3) = Ret 24 /\ in_grid 2 3 1 (3, 3, 2).
Proof.
  apply (loc_numbering_bijection 2 3 1 24 "JFaceCenter" (4, 3, 3) (3, 3, 2) 16);
    [reflexivity | repeat split; lia | split; [reflexivity | cbn; lia]].
Defined.

(** The parent elements computed for a list of faces are, for the face (i,j,k) normal to each
    axis, the cells before and after it (shifted by the number of faces); a face of either
    boundary has its single neighbour as left parent and 0 as right parent. *)
Theorem parent_elements_spec i j k n_cell idx p :
  grid_pos n_cell ->
  let '(c0, c1, c2) := n_cell in
  let cell i j k := ijk_to_index i j k n_cell in
  let tot := n_face_glob n_cell in
  (in_grid i j k (c0 + 1, c1, c2) ->
   idx !! p = Some (ijk_to_faceiIndex i j k n_cell (vtx_of n_cell)) ->
   PE_idx_from_i_face_idx idx n_cell (vtx_of n_cell) !! p
   = Some (parents i (c0 + 1) (cell (i - 1) j k) (cell i j k) tot)) /\
  (in_grid i j k (c0, c1 + 1, c2) ->
   idx !! p = Some (ijk_to_facejIndex i j k n_cell (vtx_of n_cell) - (c0 + 1) * c1 * c2) ->
   PE_idx_from_j_face_idx idx n_cell (vtx_of n_cell) !! p
   = Some (parents j (c1 + 1) (cell i (j - 1) k) (cell i j k) tot)) /\
  (in_grid i j k (c0, c1, c2 + 1) ->
   idx !! p = Some (ijk_to_facekIndex i j k n_cell (vtx_of n_cell)
                    - (c0 + 1) * c1 * c2 - (c1 + 1) * c0 * c2) ->
   PE_idx_from_k_face_idx idx n_cell (vtx_of n_cell) !! p
   = Some (parents k (c2 + 1) (cell i j (k - 1)) (cell i j k) tot)).
Proof.
  destruct n_cell as [[c0 c1] c2]. intros Hpos. cbv zeta. split_and!; intros Hg Hp.
  - unfold PE_idx_from_i_face_idx. rewrite list_lookup_fmap, Hp. cbn [fmap option_fmap option_map].
    by rewrite facepe_i_spec.
  - unfold PE_idx_from_j_face_idx. rewrite list_lookup_fmap, Hp. cbn [fmap option_fmap option_map].
    pose proof (facepe_j_spec i j k (c0, c1, c2) Hg Hpos) as H. cbn [fst snd] in H. rewrite <- H.
    do 2 f_equal. cbn. ring.
  - unfold PE_idx_from_k_face_idx. rewrite list_lookup_fmap, Hp. cbn [fmap option_fmap option_map].
    pose proof (facepe_k_spec i j k (c0, c1, c2) Hg Hpos) as H. cbn [fst snd] in H. rewrite <- H.
    do 2 f_equal. cbn. ring.
Qed.

Lemma parent_elements_spec_witness :
  PE_idx_from_j_face_idx [9; 7] (3, 2, 2) (4, 3, 3) !! 1%nat = Some (56, 0).
Proof.
  destruct (parent_elements_spec 1 3 1 (3, 2, 2) [9; 7] 1) as (_ & Hj & _);
    [repeat split; lia|].
  specialize (Hj ltac:(repeat split; lia) eq_refl). exact Hj.
Defined.

(** The four vertices generated for a face normal to an axis are the corners documented for
    that face, in an order whose normal goes from the left to the right parent. *)
Theorem face_vertices_spec i j k n_cell :
  grid_pos n_cell ->
  let '(c0, c1, c2) := n_cell in
  let vtx i j k := ijk_to_index i j k (vtx_of n_cell) in
  (in_grid i j k (c0 + 1, c1, c2) ->
   facevtx_from_i_face_idx [ijk_to_faceiIndex i j k n_cell (vtx_of n_cell)] n_cell (vtx_of n_cell)
   = oriented i (vtx i j k) (vtx i (j + 1) k) (vtx i (j + 1) (k + 1)) (vtx i j (k + 1))) /\
  (in_grid i j k (c0, c1 + 1, c2) ->
   facevtx_from_j_face_idx [ijk_to_facejIndex i j k n_cell (vtx_of n_cell) - (c0 + 1) * c1 * c2]
     n_cell (vtx_of n_cell)
   = oriented j (vtx i j k) (vtx i j (k + 1)) (vtx (i + 1) j (k + 1)) (vtx (i + 1) j k)) /\
  (in_grid i j k (c0, c1, c2 + 1) ->
   facevtx_from_k_face_idx [ijk_to_facekIndex i j k n_cell (vtx_of n_cell)
                            - (c0 + 1) * c1 * c2 - (c1 + 1) * c0 * c2] n_cell (vtx_of n_cell)
   = oriented k (vtx i j k) (vtx (i + 1) j k) (vtx (i + 1) (j + 1) k) (vtx i (j + 1) k)).
Proof.
  destruct n_cell as [[c0 c1] c2]. intros Hpos. cbv zeta.
  split_and!; intros Hg; unfold facevtx_from_i_face_idx, facevtx_from_j_face_idx,
    facevtx_from_k_face_idx; cbn [fmap list_fmap concat]; rewrite app_nil_r.
  - by apply facevtx_i_spec.
  - rewrite <- (facevtx_j_spec i j k (c0, c1, c2)) by done. f_equal. cbn. ring.
  - rewrite <- (facevtx_k_spec i j k (c0, c1, c2)) by done. f_equal. cbn. ring.
Qed.

Lemma face_vertices_spec_witness :
  facevtx_from_k_face_idx [7] (3, 2, 2) (4, 3, 3) = [13; 14; 18; 17].
Proof.
  destruct (face_vertices_spec 1 1 2 (3, 2, 2)) as (_ & _ & Hk); [repeat split; lia|].
  exact (Hk ltac:(repeat split; lia)).
Defined.

(** The NGon generator, which walks faces with its own running counters, produces the same
    vertices and parents as the three per-face conversions applied to the consecutive ids of the
    requested intervals (made relative to the first face of each direction). *)
Theorem ngon_dconnectivity_equiv b eI eJ eK n_cell :
  b <= eI <= eJ -> eJ <= eK ->
  let '(c0, c1, c2) := n_cell in
  let nf_i := (c0 + 1) * c1 * c2 in
  let nf_j := (c1 + 1) * c0 * c2 in
  let fi := arange b eI in
  let fj := arange (eI - nf_i) (eJ - nf_i) in
  let fk := arange (eJ - nf_i - nf_j) (eK - nf_i - nf_j) in
  ngon_dconnectivity_from_gnum b eI eJ eK n_cell =
  Ret (facevtx_from_i_face_idx fi n_cell (vtx_of n_cell) ++
       facevtx_from_j_face_idx fj n_cell (vtx_of n_cell) ++
       facevtx_from_k_face_idx fk n_cell (vtx_of n_cell),
       PE_idx_from_i_face_idx fi n_cell (vtx_of n_cell) ++
       PE_idx_from_j_face_idx fj n_cell (vtx_of n_cell) ++
       PE_idx_from_k_face_idx fk n_cell (vtx_of n_cell)).
Proof.
  intros [H1 H2] H3. destruct n_cell as [[c0 c1] c2]. cbv zeta.
  unfold ngon_dconnectivity_from_gnum. rewrite bool_decide_eq_false_2 by lia.
  rewrite !bool_decide_eq_true_2 by lia. cbn [andb py_assert mbind py_bind vtx_of].
  rewrite !gen_loop_fmap, !Z2Nat.id by lia.
  assert (Hi : forall g, gen_face_i (c0, c1, c2) g = (facepe_i (c0, c1, c2) g, facevtx_i (c0, c1, c2) g))
    by done.
  assert (Hj : forall g, gen_face_j (c0, c1, c2) g = (facepe_j (c0, c1, c2) g, facevtx_j (c0, c1, c2) g))
    by done.
  assert (Hk : forall g, gen_face_k (c0, c1, c2) g = (facepe_k (c0, c1, c2) g, facevtx_k (c0, c1, c2) g))
    by done.
  rewrite !fmap_app, <- !list_fmap_compose, !concat_app.
  replace (b + (eI - b)) with eI by lia.
  replace (eI - (c0 + 1) * c1 * c2 + (eJ - eI)) with (eJ - (c0 + 1) * c1 * c2) by lia.
  replace (eJ - (c0 + 1) * c1 * c2 - (c1 + 1) * c0 * c2 + (eK - eJ))
    with (eK - (c0 + 1) * c1 * c2 - (c1 + 1) * c0 * c2) by lia.
  done.
Qed.

Lemma ngon_dconnectivity_equiv_witness :
  ngon_dconnectivity_from_gnum 4 5 6 6 (1, 1, 1) =
  Ret (facevtx_from_i_face_idx [4] (1, 1, 1) (2, 2, 2) ++
       facevtx_from_j_face_idx [3] (1, 1, 1) (2, 2, 2) ++ [],
       PE_idx_from_i_face_idx [4] (1, 1, 1) (2, 2, 2) ++
       PE_idx_from_j_face_idx [3] (1, 1, 1) (2, 2, 2) ++ []).
Proof. apply (ngon_dconnectivity_equiv 4 5 6 6 (1, 1, 1)); lia. Defined.

End Numbering.
