(* ===== verification/Slabs.v ===== *)
(** * Hyperslab decomposition: [maia/utils/numbering/range_to_slab.py]

    [compute_slabs] cuts an interval of the i-fastest numbering of a 2D or 3D
    array into at most five boxes.  Its body is modelled stage by stage
    (start line, start plane, central block, end plane and line); a stage
    returns the counter it advances, the number of cells that remain to be
    loaded and the slabs it appends. *)
From S2P Require Import Prelude Numbering.

Local Open Scope Z_scope.

Module Slabs.

(** A semi-open interval and a slab [[istart, iend], [jstart, jend], [kstart, kend]]. *)
Abbreviation interval := (Z * Z)%type.
Abbreviation slab := (interval * interval * interval)%type.

(** Python's [//] on integers. *)
Definition py_floordiv (a b : Z) : py Z :=
  if bool_decide (b = 0) then Raise ZeroDivisionError else Ret (a / b).

Definition cell_to_indexes (i_cell plan_size line_size : Z) : py (Z * Z * Z) :=
  k ← py_floordiv i_cell plan_size;
  j ← py_floordiv (i_cell - k * plan_size) line_size;
  Ret (i_cell - k * plan_size - j * line_size, j, k).

(** "If the line is full, merged it with next plan" *)
Definition start_line_stage (nx imin jmin kmin ncell_to_load : Z) : Z * Z * list slab :=
  let this_line_size := Z.min nx (imin + ncell_to_load) - imin in
  if bool_decide (this_line_size <> nx) then
    if bool_decide (this_line_size > 0)
    then (jmin + 1, ncell_to_load - this_line_size,
          [((imin, Z.min nx (imin + ncell_to_load)), (jmin, jmin + 1), (kmin, kmin + 1))])
    else (jmin + 1, ncell_to_load, [])
  else (jmin, ncell_to_load, []).

(** "If the plan is full, merged it with the block" *)
Definition start_plane_stage (nx ny jstart kmin ncell_to_load : Z) : Z * Z * list slab :=
  let this_plan_size := Z.min ny (jstart + ncell_to_load / nx) - jstart in
  if bool_decide (this_plan_size <> ny) then
    if bool_decide (this_plan_size > 0)
    then (kmin + 1, ncell_to_load - nx * this_plan_size,
          [((0, nx), (jstart, Z.min ny (jstart + ncell_to_load / nx)), (kmin, kmin + 1))])
    else (kmin + 1, ncell_to_load, [])
  else (kmin, ncell_to_load, []).

(** The central block, in dimension 3 only ([nz = None] otherwise). *)
Definition central_block_stage (nx ny : Z) (nz : option Z) (kstart ncell_to_load : Z)
  : Z * list slab :=
  match nz with
  | Some nz =>
      let plan_size := nx * ny in
      let this_block_size := Z.min nz (kstart + ncell_to_load / plan_size) - kstart in
      if bool_decide (this_block_size > 0)
      then (ncell_to_load - plan_size * this_block_size,
            [((0, nx), (0, ny), (kstart, Z.min nz (kstart + ncell_to_load / plan_size)))])
      else (ncell_to_load, [])
  | None => (ncell_to_load, [])
  end.

Definition end_plane_stage (nx kmax ncell_to_load : Z) : Z * list slab :=
  if bool_decide (ncell_to_load >= nx)
  then (ncell_to_load - nx * (ncell_to_load / nx - 0),
        [((0, nx), (0, ncell_to_load / nx), (kmax, kmax + 1))])
  else (ncell_to_load, []).

Definition end_line_stage (jmax kmax ncell_to_load : Z) : Z * list slab :=
  if bool_decide (ncell_to_load > 0)
  then (ncell_to_load - (ncell_to_load - 0),
        [((0, ncell_to_load), (jmax, jmax + 1), (kmax, kmax + 1))])
  else (ncell_to_load, []).

(** [nz] is bound when [len(array_shape) == 3] only; fewer than two entries cannot be unpacked. *)
Definition compute_slabs (array_shape : list Z) (gnum_interval : interval) : py (list slab) :=
  match array_shape with
  | nx :: ny :: others =>
      let nz := match others with [nz] => Some nz | _ => None end in
      let line_size := nx in
      let plan_size := nx * ny in
      let ncell_to_load := gnum_interval.2 - gnum_interval.1 in
      mins ← cell_to_indexes gnum_interval.1 plan_size line_size;
      maxs ← cell_to_indexes (gnum_interval.2 - 1) plan_size line_size;
      let '(imin, jmin, kmin) := mins in
      let '(imax, jmax, kmax) := maxs in
      let '(jstart, n1, start_line) := start_line_stage nx imin jmin kmin ncell_to_load in
      let '(kstart, n2, start_plane) := start_plane_stage nx ny jstart kmin n1 in
      let '(n3, central_block) := central_block_stage nx ny nz kstart n2 in
      let '(n4, end_plane) := end_plane_stage nx kmax n3 in
      let '(n5, end_line) := end_line_stage jmax kmax n4 in
      _ ← py_assert (bool_decide (n5 = 0));
      Ret (start_line ++ start_plane ++ central_block ++ end_plane ++ end_line)
  | _ => Raise ValueError
  end.

(** ** Cells of a slab *)

(** The cells of a slab in the flattening order of the array: i fastest, then j, then k. *)
Definition slab_cells (nx ny : Z) (s : slab) : list Z :=
  let '((i0, i1), (j0, j1), (k0, k1)) := s in
  k ← arange k0 k1; j ← arange j0 j1; (fun i => i + j * nx + k * (nx * ny)) <$> arange i0 i1.

Definition slabs_cells (nx ny : Z) (l : list slab) : list Z := concat (slab_cells nx ny <$> l).

(** ** Lemmas *)

Lemma fmap_add_arange d a b : (fun i => i + d) <$> arange a b = arange (a + d) (b + d).
Proof.
  apply list_eq. intros k. rewrite list_lookup_fmap.
  destruct (decide (Z.of_nat k < b - a)).
  - rewrite !lookup_arange by lia. cbn. f_equal. lia.
  - rewrite !lookup_ge_None_2; rewrite ?length_arange; try lia. done.
Qed.

(** Consecutive runs of equal length glue together. *)
Lemma bind_arange_runs len d a b :
  0 <= len -> a <= b ->
  (j ← arange a b; arange (j * len + d) ((j + 1) * len + d)) = arange (a * len + d) (b * len + d).
Proof.
  intros Hlen Hab. remember (Z.to_nat (b - a)) as n eqn:Hn. revert a Hab Hn.
  induction n as [|n IH]; intros a Hab Hn.
  - assert (a = b) as -> by lia. by rewrite !arange_nil by lia.
  - rewrite (arange_cons a b) by lia. rewrite bind_cons, IH by lia.
    symmetry. apply arange_app; nia.
Qed.

Lemma bind_arange_one {A} (f : Z -> list A) a : (x ← arange a (a + 1); f x) = f a.
Proof.
  rewrite arange_cons by lia. rewrite bind_cons, arange_nil by lia. cbn. by rewrite app_nil_r.
Qed.

Lemma line_cells nx ny i0 i1 j k :
  slab_cells nx ny ((i0, i1), (j, j + 1), (k, k + 1)) =
  arange (i0 + nx * (j + ny * k)) (i1 + nx * (j + ny * k)).
Proof.
  cbn. rewrite !bind_arange_one, <- fmap_add_arange. apply list_fmap_ext. intros. lia.
Qed.

Lemma row_cells nx ny j0 j1 k d :
  0 <= nx -> j0 <= j1 -> d = k * (nx * ny) ->
  (j ← arange j0 j1; (fun i => i + j * nx + k * (nx * ny)) <$> arange 0 nx) =
  arange (j0 * nx + d) (j1 * nx + d).
Proof.
  intros Hx Hj Hd. rewrite <- bind_arange_runs by done. apply list_bind_ext; [|done]. intros j. subst d.
  transitivity ((fun i => i + (j * nx + k * (nx * ny))) <$> arange 0 nx).
  - apply list_fmap_ext. intros. lia.
  - rewrite fmap_add_arange. f_equal; lia.
Qed.

Lemma plane_cells nx ny j0 j1 k :
  0 <= nx -> j0 <= j1 ->
  slab_cells nx ny ((0, nx), (j0, j1), (k, k + 1)) =
  arange (nx * (j0 + ny * k)) (nx * (j1 + ny * k)).
Proof.
  intros Hx Hj. cbn. rewrite bind_arange_one, (row_cells _ _ _ _ _ (k * (nx * ny))) by done. f_equal; ring.
Qed.

Lemma block_cells nx ny k0 k1 :
  0 <= nx -> 0 <= ny -> k0 <= k1 ->
  slab_cells nx ny ((0, nx), (0, ny), (k0, k1)) = arange (nx * ny * k0) (nx * ny * k1).
Proof.
  intros Hx Hy Hk. cbn.
  transitivity (k ← arange k0 k1; arange (k * (nx * ny) + 0) ((k + 1) * (nx * ny) + 0)).
  - apply list_bind_ext; [|done]. intros k. rewrite (row_cells _ _ _ _ _ (k * (nx * ny))) by done. f_equal; ring.
  - rewrite bind_arange_runs by nia. f_equal; ring.
Qed.

(** A slab is not empty, and its lines are lines of the array. *)
Definition in_array (nx ny : Z) (s : slab) : Prop :=
  let '((i0, i1), (j0, j1), (k0, k1)) := s in 0 <= i0 < i1 /\ i1 <= nx /\ 0 <= j0 < j1 /\ j1 <= ny /\ k0 < k1.

(** What a stage has to establish: from position [p] with [n] cells to load, it appends the
    cells [p, p + (n - n')) and leaves [n'] cells. *)
Definition loads (nx ny p n n' : Z) (l : list slab) : Prop :=
  0 <= n' <= n /\ slabs_cells nx ny l = arange p (p + (n - n')) /\ Forall (in_array nx ny) l.

Lemma loads_nil nx ny p n : 0 <= n -> loads nx ny p n n [].
Proof. intros. split; [lia|]. cbn. by rewrite arange_nil by lia. Qed.

Lemma loads_one nx ny p n n' s :
  0 <= n' <= n -> in_array nx ny s -> slab_cells nx ny s = arange p (p + (n - n')) -> loads nx ny p n n' [s].
Proof. intros ? Ha Hs. split; [lia|]. cbn. rewrite app_nil_r. split; [done|]. by constructor. Qed.

Lemma loads_app nx ny p p' n n' n'' l l' :
  loads nx ny p n n' l -> (n' = n'' \/ p' = p + (n - n')) -> loads nx ny p' n' n'' l' ->
  loads nx ny p n n'' (l ++ l').
Proof.
  intros (H1 & H2 & A1) Hp (H3 & H4 & A2). split; [lia|]. split; [|by apply Forall_app].
  unfold slabs_cells in *. rewrite fmap_app, concat_app, H2, H4. destruct Hp as [-> | ->].
  - rewrite (arange_nil p') by lia. by rewrite app_nil_r.
  - replace (p + (n - n') + (n' - n'')) with (p + (n - n'')) by lia.
    symmetry. apply arange_app; lia.
Qed.

Section stages.
Variables nx ny : Z.
Hypothesis Hnx : 0 < nx.
Hypothesis Hny : 0 < ny.

Lemma start_line_spec imin jmin kmin n :
  0 <= imin < nx -> 0 <= jmin < ny -> 0 <= n ->
  let '(jstart, n1, l) := start_line_stage nx imin jmin kmin n in
  let p := imin + nx * (jmin + ny * kmin) in
  loads nx ny p n n1 l /\ jmin <= jstart <= jmin + 1 /\
  (n1 = 0 \/ p + (n - n1) = nx * (jstart + ny * kmin)).
Proof using Hnx.
  intros Hi Hj Hn. unfold start_line_stage. cbv zeta. repeat case_bool_decide.
  - split; [|lia]. apply loads_one; [lia|cbn; lia|]. rewrite line_cells. f_equal; lia.
  - split; [by apply loads_nil|]. lia.
  - split; [by apply loads_nil|]. split; [lia|]. right. lia.
Qed.

Lemma start_plane_spec jstart kmin n :
  0 <= jstart <= ny -> 0 <= n ->
  let '(kstart, n2, l) := start_plane_stage nx ny jstart kmin n in
  let p := nx * (jstart + ny * kmin) in
  loads nx ny p n n2 l /\ kmin <= kstart <= kmin + 1 /\
  (n2 < nx /\ (exists r, p + (n - n2) = nx * r) \/ p + (n - n2) = nx * ny * kstart).
Proof using Hnx Hny.
  intros Hj Hn. unfold start_plane_stage. cbv zeta.
  pose proof (Z.mul_div_le n nx Hnx). pose proof (Z.mul_succ_div_gt n nx Hnx).
  pose proof (Z.div_pos n nx Hn Hnx). set (q := n / nx) in *. clearbody q.
  repeat case_bool_decide.
  - split; [|split; [lia|]].
    + apply loads_one; [nia|cbn; lia|]. rewrite plane_cells by lia. f_equal; nia.
    + destruct (Z.le_gt_cases ny (jstart + q)).
      * right. rewrite Z.min_l by lia. ring.
      * left. rewrite Z.min_r by lia. split; [nia|].
        exists (jstart + ny * kmin + q). ring.
  - split; [by apply loads_nil|]. split; [lia|].
    destruct (decide (jstart = ny)) as [->|]; [right; lia|].
    left. split; [nia|]. exists (jstart + ny * kmin). lia.
  - split; [by apply loads_nil|]. split; [lia|]. right. assert (jstart = 0) as -> by lia. lia.
Qed.

Lemma central_block_spec nz kstart n :
  0 <= n -> (n < nx \/ nx * ny * kstart + n <= nx * ny * nz) ->
  let '(n3, l) := central_block_stage nx ny (Some nz) kstart n in
  loads nx ny (nx * ny * kstart) n n3 l /\ (n < nx -> n3 = n) /\
  (n < nx \/ n3 < nx * ny /\ exists k, nx * ny * kstart + (n - n3) = nx * ny * k).
Proof using Hnx Hny.
  intros Hn Hle. unfold central_block_stage. cbv zeta.
  assert (Hpl : 0 < nx * ny) by nia. assert (nx <= nx * ny) by nia.
  pose proof (Z.mul_div_le n _ Hpl). pose proof (Z.mul_succ_div_gt n _ Hpl).
  pose proof (Z.div_pos n _ Hn Hpl). set (pl := nx * ny) in *. set (q := n / pl) in *. clearbody q.
  assert (n < nx -> q = 0) by nia.
  assert (n < nx \/ kstart + q <= nz) by (destruct Hle; [by left|right; nia]).
  case_bool_decide.
  - assert (Hm : Z.min nz (kstart + q) = kstart + q) by lia. rewrite Hm.
    split; [|split; [nia|right; split; [nia|exists (kstart + q); lia]]].
    apply loads_one; [nia|cbn; lia|]. rewrite block_cells by lia. f_equal; lia.
  - split; [by apply loads_nil|]. split; [done|]. destruct (decide (n < nx)); [by left|right].
    assert (q = 0) by lia. split; [nia|]. exists kstart. lia.
Qed.

(** The end plane and line, from a position [p] that starts a plane, or a row when less than
    one row remains; [jmax] and [kmax] are the indices of the last cell. *)
Lemma end_stages_spec p n :
  0 <= n ->
  (n = 0 \/ n < nx /\ (exists r, p = nx * r) \/ n <= nx * ny /\ exists k, p = nx * ny * k) ->
  let kmax := (p + n - 1) / (nx * ny) in
  let jmax := (p + n - 1 - kmax * (nx * ny)) / nx in
  let '(n4, l) := end_plane_stage nx kmax n in
  let '(n5, l') := end_line_stage jmax kmax n4 in
  n5 = 0 /\ loads nx ny p n 0 (l ++ l').
Proof using Hnx Hny.
  intros Hn Hp kmax jmax.
  assert (Hpl : 0 < nx * ny) by nia.
  pose proof (Z.mul_div_le n nx Hnx). pose proof (Z.mul_succ_div_gt n nx Hnx).
  pose proof (Z.div_pos n nx Hn Hnx).
  (* index of the row that the end line completes *)
  assert (Hrow : forall m, 0 < m <= nx -> (exists r, p + n - m = nx * r) ->
            nx * (jmax + ny * kmax) = p + n - m).
  { intros m Hm [r Hr]. unfold jmax.
    pose proof (Z.mul_div_le (p + n - 1 - kmax * (nx * ny)) nx Hnx).
    pose proof (Z.mul_succ_div_gt (p + n - 1 - kmax * (nx * ny)) nx Hnx).
    set (j := (p + n - 1 - kmax * (nx * ny)) / nx) in *. clearbody j.
    assert (r = j + ny * kmax) by nia. subst r. lia. }
  assert (Hjm : 0 <= jmax < ny).
  { unfold jmax, kmax. pose proof (Z.mul_div_le (p + n - 1) _ Hpl). pose proof (Z.mul_succ_div_gt (p + n - 1) _ Hpl).
    set (k := (p + n - 1) / (nx * ny)) in *. clearbody k. split; [apply Z.div_pos; lia|apply Z.div_lt_upper_bound; lia]. }
  unfold end_plane_stage. case_bool_decide as Hge.
  - destruct Hp as [?|[?|[Hle [k Hk]]]]; [lia..|].
    assert (kmax = k) as Hkm.
    { unfold kmax. symmetry. apply (Z.div_unique_pos _ _ _ (n - 1)); lia. }
    assert (Hpl' : loads nx ny p n (n - nx * (n / nx - 0)) [((0, nx), (0, n / nx), (kmax, kmax + 1))]).
    { apply loads_one; [lia|cbn; nia|]. rewrite plane_cells by lia. rewrite Hkm, Hk. f_equal; ring. }
    unfold end_line_stage. case_bool_decide.
    + split; [lia|]. eapply loads_app; [exact Hpl'|by right|]. apply loads_one; [lia|cbn; lia|].
      rewrite line_cells, (Hrow (n - nx * (n / nx - 0))).
      * f_equal; lia.
      * lia.
      * exists (ny * k + n / nx). lia.
    + replace (n - nx * (n / nx - 0)) with 0 in * by lia. split; [done|]. by rewrite app_nil_r.
  - unfold end_line_stage. case_bool_decide.
    + split; [lia|]. cbn [app]. apply loads_one; [lia|cbn; lia|]. rewrite line_cells, (Hrow n).
      * f_equal; lia.
      * lia.
      * destruct Hp as [?|[[_ [r ->]]|[_ [k ->]]]]; [lia|exists r; lia|exists (ny * k); lia].
    + assert (n = 0) as -> by lia. split; [done|]. by apply loads_nil.
Qed.

(** The two first stages together, from the first cell [g0] of the interval: they stop with the
    cells loaded, at a row when less than one row remains, or at the plane [kstart]. *)
Lemma start_stages_spec imin jmin kmin g0 g1 :
  0 <= imin < nx -> 0 <= jmin < ny -> g0 = imin + nx * (jmin + ny * kmin) -> g0 <= g1 ->
  let '(jstart, n1, l1) := start_line_stage nx imin jmin kmin (g1 - g0) in
  let '(kstart, n2, l2) := start_plane_stage nx ny jstart kmin n1 in
  loads nx ny g0 (g1 - g0) n2 (l1 ++ l2) /\ kmin <= kstart /\
  (n2 = 0 \/ n2 < nx /\ (exists r, g1 - n2 = nx * r) \/ g1 - n2 = nx * ny * kstart).
Proof using Hnx Hny.
  intros Hi Hj Hg0 Hg. pose proof (start_line_spec imin jmin kmin (g1 - g0) Hi Hj ltac:(lia)) as H1.
  destruct (start_line_stage _ _ _ _ _) as [[jstart n1] l1]. destruct H1 as (HL1 & Hjs & Hp1).
  rewrite <- Hg0 in HL1, Hp1. assert (Hn1 : 0 <= n1 <= g1 - g0) by apply HL1.
  pose proof (start_plane_spec jstart kmin n1 ltac:(lia) ltac:(lia)) as H2.
  destruct (start_plane_stage _ _ _ _ _) as [[kstart n2] l2]. destruct H2 as (HL2 & Hks & Hp2).
  assert (Hn2 : 0 <= n2 <= n1) by apply HL2. split; [|split; [lia|]].
  - eapply loads_app; [exact HL1| |exact HL2]. lia.
  - destruct (decide (n2 = 0)); [by left|right].
    destruct Hp2 as [[? [r Hr]]|?]; [left; split; [done|]; exists r; lia|right; lia].
Qed.

(** The central block, if the array has one, brings the end stages to a plane or to a last row. *)
Lemma to_end_stages_spec nz kstart g0 g1 n2 l :
  0 <= kstart -> 0 <= g0 -> g1 <= nx * ny * match nz with Some nz => nz | None => 1 end ->
  loads nx ny g0 (g1 - g0) n2 l ->
  (n2 = 0 \/ n2 < nx /\ (exists r, g1 - n2 = nx * r) \/ g1 - n2 = nx * ny * kstart) ->
  let '(n3, l3) := central_block_stage nx ny nz kstart n2 in
  loads nx ny g0 (g1 - g0) n3 (l ++ l3) /\
  (n3 = 0 \/ n3 < nx /\ (exists r, g1 - n3 = nx * r) \/ n3 <= nx * ny /\ exists k, g1 - n3 = nx * ny * k).
Proof using Hnx Hny.
  intros Hk Hg0 Hg1 HL Hp. assert (Hn2 : 0 <= n2 <= g1 - g0) by apply HL.
  destruct nz as [nz|]; cbn iota in Hg1; cycle 1.
  { cbn [central_block_stage]. rewrite app_nil_r. split; [done|].
    destruct Hp as [?|[?|?]]; [by left|by right; left|right; right]. split; [nia|by exists kstart]. }
  pose proof (central_block_spec nz kstart n2 ltac:(lia) ltac:(lia)) as H3.
  destruct (central_block_stage _ _ _ _ _) as [n3 l3]. destruct H3 as (HL3 & Hsm & Hp3).
  destruct (decide (n2 < nx)) as [Hlt|Hge].
  - rewrite Hsm in * by done. split.
    + eapply loads_app; [exact HL|by left|exact HL3].
    + destruct Hp as [?|[?|?]]; [by left|by right; left|right; left]. split; [done|]. exists (ny * kstart). lia.
  - assert (g1 - n2 = nx * ny * kstart) by (destruct Hp as [?|[[? _]|?]]; lia).
    destruct Hp3 as [?|[? [k Hk3]]]; [lia|]. split.
    + eapply loads_app; [exact HL| |exact HL3]. lia.
    + right. right. split; [lia|]. exists k. lia.
Qed.
End stages.

Lemma cell_to_indexes_spec g nx ny :
  0 < nx -> 0 < ny ->
  let k := g / (nx * ny) in let j := (g - k * (nx * ny)) / nx in
  cell_to_indexes g (nx * ny) nx = Ret (g - k * (nx * ny) - j * nx, j, k).
Proof.
  intros. unfold cell_to_indexes, py_floordiv. rewrite !bool_decide_eq_false_2 by nia. done.
Qed.

(** ** Property *)

(** For a non-empty 2D or 3D array and an interval of its cells, [compute_slabs] returns
    (its final assertion holds) slabs whose cells, enumerated slab after slab in the flattening
    order, are exactly the cells of the interval in increasing order, each once; the slabs are not
    empty and their lines are lines of the array. *)
Theorem compute_slabs_spec nx ny nz g0 g1 :
  0 < nx -> 0 < ny -> 0 <= g0 <= g1 ->
  g1 <= nx * ny * match nz with Some nz => nz | None => 1 end ->
  exists l, compute_slabs (nx :: ny :: match nz with Some nz => [nz] | None => [] end) (g0, g1) = Ret l /\
    slabs_cells nx ny l = arange g0 g1 /\ Forall (in_array nx ny) l.
Proof.
  intros Hx Hy Hg Hle. unfold compute_slabs.
  replace (match match nz with Some nz => [nz] | None => [] end with [nz] => Some nz | _ => None end)
    with nz by by destruct nz.
  cbn [fst snd]. rewrite !cell_to_indexes_spec by done. cbn [mbind py_bind].
  pose proof (Numbering.radix_inv nx ny (g0 + 1) g0 Hx Hy ltac:(nia)) as Hr. cbv zeta in Hr.
  set (kmin := g0 / (nx * ny)) in *. set (jmin := (g0 - kmin * (nx * ny)) / nx) in *.
  set (imin := g0 - kmin * (nx * ny) - jmin * nx) in *.
  replace (g0 - jmin * nx - kmin * (nx * ny)) with imin in Hr by (unfold imin; ring).
  destruct Hr as (Hi & Hj & Hk & Hg0). clearbody kmin jmin imin.
  replace (imin + jmin * nx + kmin * nx * ny) with (imin + nx * (jmin + ny * kmin)) in Hg0 by ring.
  pose proof (start_stages_spec nx ny Hx Hy imin jmin kmin g0 g1 Hi Hj ltac:(lia) ltac:(lia)) as H12.
  destruct (start_line_stage _ _ _ _ _) as [[jstart n1] l1].
  destruct (start_plane_stage _ _ _ _ _) as [[kstart n2] l2]. destruct H12 as (HL12 & Hks & Hp12).
  pose proof (to_end_stages_spec nx ny Hx Hy nz kstart g0 g1 n2 (l1 ++ l2) ltac:(lia) ltac:(lia) Hle HL12 Hp12) as H3.
  destruct (central_block_stage _ _ _ _ _) as [n3 l3]. destruct H3 as [HL123 Hp3].
  assert (Hn3 : 0 <= n3 <= g1 - g0) by apply HL123.
  pose proof (end_stages_spec nx ny Hx Hy (g1 - n3) n3 ltac:(lia) Hp3) as Hend.
  replace (g1 - n3 + n3) with g1 in Hend by lia.
  cbv zeta in Hend. destruct (end_plane_stage _ _ _) as [n4 l4].
  destruct (end_line_stage _ _ _) as [n5 l5]. destruct Hend as [-> HL45]. eexists. split; [done|].
  destruct (loads_app _ _ g0 (g1 - n3) _ _ _ _ _ HL123 ltac:(right; lia) HL45) as (_ & HL & HA).
  rewrite <- !(assoc (++)) in HL, HA. rewrite HL. split; [f_equal; lia|done].
Qed.

Lemma compute_slabs_spec_witness :
  exists l, compute_slabs [4; 3; 3] (5, 30) = Ret l /\ slabs_cells 4 3 l = arange 5 30 /\ Forall (in_array 4 3) l.
Proof. apply (compute_slabs_spec 4 3 (Some 3) 5 30); lia. Defined.

(** The slabs of an interval are in the array. *)
Lemma slab_in_array nx ny nz slabs lo hi i s :
  0 < nx -> 0 < ny -> 0 <= lo -> hi <= nx * ny * nz -> slabs_cells nx ny slabs = arange lo hi -> Forall (in_array nx ny) slabs ->
  slabs !! i = Some s -> in_array nx ny s /\ let '(_, (k0, k1)) := s in 0 <= k0 /\ k1 <= nz.
Proof.
  intros Hx Hy Hlo Hhi Hc Ha Hs. pose proof (proj1 (Forall_lookup _ _) Ha i s Hs) as Hin. split; [done|].
  destruct s as [[[i0 i1] [j0 j1]] [k0 k1]]. destruct Hin as (Hi & Hi' & Hj & Hj' & Hk).
  assert (Hcell : forall k, k0 <= k < k1 -> lo <= i0 + j0 * nx + k * (nx * ny) < hi).
  { intros k Hk'. apply elem_of_arange. rewrite <- Hc. unfold slabs_cells. apply list_elem_of_In, in_concat.
    exists (slab_cells nx ny ((i0, i1), (j0, j1), (k0, k1))). split; [apply in_map; by apply list_elem_of_In, (list_elem_of_lookup_2 _ i)|].
    unfold slab_cells. apply list_elem_of_In. rewrite list_elem_of_bind. exists k. split; [|apply elem_of_arange; lia].
    rewrite list_elem_of_bind. exists j0. split; [|apply elem_of_arange; lia]. apply list_elem_of_fmap. exists i0. split; [lia|apply elem_of_arange; lia]. }
  pose proof (Hcell k0 ltac:(lia)). pose proof (Hcell (k1 - 1) ltac:(lia)). nia.
Qed.

End Slabs.
