(* ===== verification/NpUtils.v ===== *)
(** * Array utilities: [maia/utils/ndarray/np_utils.py]

    Integer arrays are lists of [Z].  The element type is explicit where the
    code chooses one ([sizes_to_indices], [compress], [safe_int_cast]);
    elsewhere values are exact.  The three layout kernels that the module
    delegates to C++ are modelled from [layouts.pybind.cpp]. *)
From S2P Require Import Prelude.

Local Open Scope Z_scope.

Module NpUtils.

(** [a[i]] for an array of indices: numpy raises IndexError out of range. *)
Definition take_at {A} (a : list A) (ids : list Z) : py (list A) := mapM (py_get a) ids.

(** ** Interweaving *)

(** [output[i::number] = array]: numpy broadcasts an array of size one, and raises ValueError when
    the sizes differ; [n_slot] is the number of positions of the strided view. *)
Definition strided_set {A} (output : list A) (i number : nat) (arr : list A) : list A :=
  foldl (fun o q => match arr !! q with Some x => <[(i + q * number)%nat := x]> o | None => o end)
        output (seq 0 (length arr)).

Definition broadcast {A} (n : nat) (arr : list A) : py (list A) :=
  match arr with
  | [x] => Ret (replicate n x)
  | _ => if bool_decide (length arr = n) then Ret arr else Raise ValueError
  end.

Fixpoint interweave_loop {A} (n_slot number i : nat) (arrays : list (list A)) (output : list A)
  : py (list A) :=
  match arrays with
  | [] => Ret output
  | arr :: arrays' =>
      arr ← broadcast n_slot arr;
      interweave_loop n_slot number (S i) arrays' (strided_set output i number arr)
  end.

(** [np.empty] is filled with an arbitrary [default]. *)
Definition interweave_arrays {A} (default : A) (array_list : list (list A)) : py (list A) :=
  match array_list with
  | [] => Raise IndexError
  | first :: _ =>
      let number := length array_list in
      interweave_loop (length first) number 0 array_list
        (replicate (number * length first) default)
  end.

(** ** Point ranges of dimension one *)

(** [pr] is given by its rows; the result is the single row of the point list. *)
Definition single_dim_pr_to_pl (pr : list (Z * Z)) (distrib : option (Z * Z)) : py (list Z) :=
  _ ← py_assert (bool_decide (length pr = 1%nat));
  match pr with
  | (start, stop) :: _ =>
      Ret match distrib with
          | Some (d0, d1) => arange (start + d0) (start + d1)
          | None => arange start (stop + 1)
          end
  | [] => Raise IndexError
  end.

(** ** Run-length compression *)

(** [np.where(t[:-1] != t[1:])[0] + 1], positions counted from [i]. *)
Fixpoint jumps_from (i : Z) (t : list Z) : list Z :=
  match t with
  | x :: ((y :: _) as t') => if bool_decide (x <> y) then (i + 1) :: jumps_from (i + 1) t'
                             else jumps_from (i + 1) t'
  | _ => []
  end.

(** [idx] is an int32 array. *)
Definition compress (t : list Z) : py (list Z * list Z) :=
  _ ← py_assert (bool_decide (zlen t > 0));
  let idx := wrap I4 <$> (0 :: jumps_from 0 t ++ [zlen t]) in
  val ← take_at t (slice_to idx (-1));
  Ret (idx, val).

(** ** Offsets *)

(** [nptype] is the dtype argument when given, the dtype of [nb_array] otherwise; the running sum
    is stored with that type at each step. *)
Fixpoint cumsum_d (d : dtype) (acc : Z) (l : list Z) : list Z :=
  match l with [] => [] | x :: l' => wrap d (acc + x) :: cumsum_d d (wrap d (acc + x)) l' end.

Definition sizes_to_indices (d : dtype) (nb_array : list Z) : list Z := 0 :: cumsum_d d 0 nb_array.

(** ** Casts *)

(** Numpy element types: the two integer types of CGNS meshes, and any other one. *)
Inductive np_dtype : Set := Int32 | Int64 | OtherType (name : string).
#[export] Instance np_dtype_eq_dec : EqDecision np_dtype.
Proof. solve_decision. Defined.

Record ndarray := NdArray { nd_dtype : np_dtype; nd_data : list Z }.

(** [np.abs(array).max(initial=0)] on int64 data. *)
Definition abs_max (l : list Z) : Z := foldl Z.max 0 ((fun x => wrap I8 (Z.abs x)) <$> l).

Definition safe_int_cast (array : ndarray) (dt : np_dtype) : py ndarray :=
  if bool_decide (nd_dtype array = dt) then Ret array
  else if bool_decide (nd_dtype array = Int32 /\ dt = Int64)
  then Ret (NdArray Int64 (wrap I8 <$> nd_data array))
  else if bool_decide (nd_dtype array = Int64 /\ dt = Int32) then
    if bool_decide (abs_max (nd_data array) <= iinfo_max I4)
    then Ret (NdArray Int32 (wrap I4 <$> nd_data array))
    else Raise OverflowError
  else Raise ValueError.

(** [np.hstack] of integer arrays: the result has the wider type. *)
Definition hstack (arrays : list ndarray) : ndarray :=
  NdArray (if bool_decide (Exists (fun a => nd_dtype a = Int64) arrays) then Int64 else Int32)
          (concat (nd_data <$> arrays)).

Definition concatenate_np_arrays (arrays : list ndarray) (dt : option np_dtype)
  : py (list Z * ndarray) :=
  match arrays with
  | [] => match dt with
          | None => Raise ValueError
          | Some dt => Ret ([0], NdArray dt [])
          end
  | _ =>
      let merged_idx := sizes_to_indices I4 ((fun a => zlen (nd_data a)) <$> arrays) in
      let stacked := hstack arrays in
      stacked ← match dt with Some dt => safe_int_cast stacked dt | None => Ret stacked end;
      Ret (merged_idx, stacked)
  end.

(** [pl[0,:]] of point lists given by their rows. *)
Definition concatenate_point_list (point_lists : list (np_dtype * list (list Z))) (dt : option np_dtype)
  : py (list Z * ndarray) :=
  arrays ← mapM (fun pl => NdArray pl.1 <$> of_option IndexError (head pl.2)) point_lists;
  concatenate_np_arrays arrays dt.

(** ** Shifts *)
Definition shift_nonzeros (array : list Z) (shift : Z) : list Z :=
  (fun x => x + shift * (if bool_decide (x <> 0) then 1 else 0)) <$> array.

Definition shift_absvalue (array : list Z) (shift : Z) : list Z :=
  if bool_decide (shift = 0) then array else
  let neg := (fun x => bool_decide (x < 0)) <$> array in
  let array := (fun x => Z.abs x + shift) <$> array in
  zip_with (fun (n : bool) x => if n then x * -1 else x) neg array.

(** [np.searchsorted(offset, v)]: the number of leading entries lower than [v] (on a sorted array,
    the first position whose entry is not lower than [v]). *)
Fixpoint searchsorted (offset : list Z) (v : Z) : Z :=
  match offset with
  | [] => 0
  | o :: offset' => if bool_decide (o < v) then 1 + searchsorted offset' v else 0
  end.

Definition shifted_to_local (array offset : list Z) : py (list Z * list Z) :=
  let interval_num := searchsorted offset <$> array in
  base ← take_at offset ((fun n => n - 1) <$> interval_num);
  Ret (zip_with Z.sub array base, interval_num).

(** ** Multiple ranges *)

(** [l.cumsum()] *)
Definition cumsum (l : list Z) : list Z := drop 1 (scan 0 l).

Definition multi_arange (starts stops : list Z) : py (list Z) :=
  _ ← py_assert (bool_decide (length starts = length stops));
  let l := zip_with Z.sub stops starts in
  (* np.repeat refuses negative counts *)
  if bool_decide (Exists (fun x => x < 0) l) then Raise ValueError else
  Ret (zip_with Z.add (np_repeat (zip_with Z.sub stops (cumsum l)) l) (arange 0 (zsum l))).

(** [a[~jumps]] *)
Definition keep_not {A} (a : list A) (jumps : list bool) : list A :=
  (filter (fun p : A * bool => p.2 = false) (zip a jumps)).*1.

Definition arange_with_jumps (multi_interval : list Z) (jumps : list bool) : py (list Z) :=
  (* a boolean mask must have the size of the array *)
  if bool_decide (length (slice_to multi_interval (-1)) <> length jumps) then Raise IndexError else
  multi_arange (keep_not (slice_to multi_interval (-1)) jumps)
               (keep_not (slice_from multi_interval 1) jumps).

(** [d] is the element type of [idx_array]. *)
Definition jagged_extract (d : dtype) (idx_array array ids : list Z) : py (list Z * list Z) :=
  starts ← take_at idx_array ids;
  stops ← take_at idx_array ((fun i => i + 1) <$> ids);
  where_ ← multi_arange starts stops;
  extracted_array ← take_at array where_;
  let sizes := diff idx_array in
  extracted_sizes ← take_at sizes ids;
  Ret (sizes_to_indices d extracted_sizes, extracted_array).

(** ** Layout kernels ([layouts.pybind.cpp]) *)

(** [data[j]] for [j] from [a] to [b-1]. *)
Definition c_read (data : list Z) (a b : Z) : py (list Z) :=
  mapM (fun j => if bool_decide (0 <= j) then of_option UndefinedBehavior (data !! Z.to_nat j)
                 else Raise UndefinedBehavior) (arange a b).

Fixpoint interleave_loop (idx data : list Z) : py (list Z) :=
  match idx with
  | a :: ((b :: _) as idx') =>
      seg ← c_read data a b;
      rest ← interleave_loop idx' data;
      Ret ((b - a) :: seg ++ rest)
  | _ => Ret []
  end.

(** The output array has [len(idx) - 1 + len(array)] entries; writing fewer or more is undefined. *)
Definition indexed_to_interlaced (idx array : list Z) : py (list Z) :=
  out ← interleave_loop idx array;
  if bool_decide (zlen out = zlen idx - 1 + zlen array) then Ret out else Raise UndefinedBehavior.

(** The [while] loop: [i] is the read position, [offset] the last offset written; the fuel is the
    size of the array, at least one entry being read at each turn. *)
Fixpoint deinterleave_loop (fuel : nat) (interleaved : list Z) (i offset : Z) : py (list Z * list Z) :=
  if bool_decide (i < zlen interleaved) then
    match fuel with
    | O => Raise OutOfFuel
    | S fuel' =>
        n ← c_read interleaved i (i + 1);
        let n := zsum n in
        values ← c_read interleaved (i + 1) (i + 1 + n);
        r ← deinterleave_loop fuel' interleaved (i + n + 1) (offset + n);
        Ret ((offset + n) :: r.1, values ++ r.2)
    end
  else Ret ([], []).

Definition interlaced_to_indexed (n_elem : Z) (array : list Z) : py (list Z * list Z) :=
  r ← deinterleave_loop (length array) array 0 0;
  if bool_decide (zlen r.1 = n_elem /\ zlen r.2 = zlen array - n_elem)
  then Ret (0 :: r.1, r.2) else Raise UndefinedBehavior.

Fixpoint jagged_merge_loop (idx1 array1 idx2 array2 : list Z) (last : Z) : py (list Z * list Z) :=
  match idx1, idx2 with
  | a1 :: ((b1 :: _) as idx1'), a2 :: ((b2 :: _) as idx2') =>
      seg1 ← c_read array1 a1 b1;
      seg2 ← c_read array2 a2 b2;
      let next := last + (b1 - a1) + (b2 - a2) in
      r ← jagged_merge_loop idx1' array1 idx2' array2 next;
      Ret (next :: r.1, (seg1 ++ seg2) ++ r.2)
  | _, _ => Ret ([], [])
  end.

(** The sizes are compared by C++ assertions: a mismatch is undefined behaviour in a release build. *)
Definition jagged_merge_kernel (idx1 array1 idx2 array2 : list Z) : py (list Z * list Z) :=
  if bool_decide (length idx1 <> length idx2) then Raise UndefinedBehavior else
  r ← jagged_merge_loop idx1 array1 idx2 array2 0;
  if bool_decide (zlen r.2 <> zlen array1 + zlen array2) then Raise UndefinedBehavior else
  Ret (0 :: r.1, r.2).

(** The kernel is registered for int32, int64 and float64 arrays only. *)
Definition jagged_merge (idx1 : list Z) (array1 : ndarray) (idx2 : list Z) (array2 : ndarray)
  : py (list Z * ndarray) :=
  _ ← py_assert (bool_decide (nd_dtype array1 = nd_dtype array2));
  if bool_decide (nd_dtype array1 ∉ [Int32; Int64; OtherType "float64"]) then Raise TypeError else
  r ← jagged_merge_kernel idx1 (nd_data array1) idx2 (nd_data array2);
  Ret (r.1, NdArray (nd_dtype array1) r.2).

(** ** Rolling and masks *)

(** [np.roll(a, s)] *)
Definition np_roll {A} (a : list A) (s : Z) : list A :=
  match length a with
  | O => a
  | n => let k := Z.to_nat ((- s) mod Z.of_nat n) in drop k a ++ take k a
  end.

(** [np.where(array == start_value)[0][0]] *)
Fixpoint find_index (array : list Z) (v : Z) : option Z :=
  match array with
  | [] => None
  | x :: array' => if bool_decide (x = v) then Some 0 else Z.succ <$> find_index array' v
  end.

Definition roll_from (array : list Z) (start_idx start_value : option Z) (is_reverse : bool)
  : py (list Z) :=
  _ ← py_assert (bool_decide (start_idx = None <-> start_value <> None));
  start_idx ← match start_idx, start_value with
              | Some i, _ => Ret i
              | None, Some v => of_option IndexError (find_index array v)
              | None, None => Raise AssertionError
              end;
  Ret (if is_reverse then np_roll (reverse array) (start_idx + 1) else np_roll array (- start_idx)).

(** [mask[ids] = False] *)
Fixpoint set_false (mask : list bool) (ids : list Z) : py (list bool) :=
  match ids with
  | [] => Ret mask
  | i :: ids' => mask ← py_set mask i false; set_false mask ids'
  end.

Definition others_mask {A} (array : list A) (ids : list Z) : py (list bool) :=
  set_false (replicate (length array) true) ids.

Definition any_in_range (array : list Z) (start stop : Z) (strict : bool) : bool :=
  existsb (fun x => if strict then bool_decide (start < x) && bool_decide (x < stop)
                    else bool_decide (start <= x) && bool_decide (x <= stop)) array.

Definition all_in_range (array : list Z) (start stop : Z) (strict : bool) : bool :=
  forallb (fun x => if strict then bool_decide (start < x) && bool_decide (x < stop)
                    else bool_decide (start <= x) && bool_decide (x <= stop)) array.

(** ** Reverse connectivity *)
Section reverse.
(** [np.argsort] is a parameter: its default algorithm is not stable, so only what numpy documents
    of it is available, see [argsort_ok]. *)
Variable argsort : list Z -> list nat.

(** [np.unique(array, return_counts=True)] *)
Definition np_unique (array : list Z) : list Z := sort_by Z.leb (remove_dups array).
Definition count_in (array : list Z) (v : Z) : Z := zlen (filter (fun x => x = v) array).

Definition reverse_connectivity (ids idx array : list Z) : py (list Z * list Z * list Z) :=
  let r_ids := np_unique array in
  let counts := count_in array <$> r_ids in
  let sort_idx := argsort array in
  let sizes := diff idx in
  (* np.repeat: one count per element *)
  if bool_decide (length ids <> length sizes \/ Exists (fun x => x < 0) sizes) then Raise ValueError else
  let extended_ids := np_repeat ids sizes in
  r_array ← take_at extended_ids (Z.of_nat <$> sort_idx);
  let r_idx := sizes_to_indices I8 counts in
  Ret (r_ids, r_idx, r_array).
End reverse.

(** Documented behaviour of [np.argsort]: a permutation of the positions along which the array is
    in increasing order. *)
Definition argsort_ok (argsort : list Z -> list nat) : Prop :=
  forall a, argsort a ≡ₚ seq 0 (length a) /\
    StronglySorted Z.le (omap (fun i => a !! i) (argsort a)).

(** ** Lemmas: reads *)

Lemma take_at_app {A} (pre l post : list A) :
  take_at (pre ++ l ++ post) (arange (zlen pre) (zlen pre + zlen l)) = Ret l.
Proof.
  apply py_mapM_lookup; [rewrite length_arange; unfold zlen; lia|].
  intros i x y Hi Hy. pose proof (lookup_lt_Some _ _ _ Hy).
  rewrite lookup_arange in Hi by (unfold zlen; lia). simplify_eq.
  replace (zlen pre + Z.of_nat i) with (Z.of_nat (length pre + i)) by (unfold zlen; lia).
  apply py_get_lookup. rewrite lookup_app_r by lia.
  replace (length pre + i - length pre)%nat with i by lia. by rewrite lookup_app_l.
Qed.

Lemma c_read_app pre l post :
  c_read (pre ++ l ++ post) (zlen pre) (zlen pre + zlen l) = Ret l.
Proof.
  apply py_mapM_lookup; [rewrite length_arange; unfold zlen; lia|].
  intros i x y Hi Hy. pose proof (lookup_lt_Some _ _ _ Hy).
  rewrite lookup_arange in Hi by (unfold zlen; lia). simplify_eq.
  rewrite bool_decide_eq_true_2 by (unfold zlen; lia).
  replace (Z.to_nat (zlen pre + Z.of_nat i)) with (length pre + i)%nat by (unfold zlen; lia).
  rewrite lookup_app_r by lia.
  replace (length pre + i - length pre)%nat with i by lia. rewrite lookup_app_l by done. by rewrite Hy.
Qed.

(** ** Jagged arrays *)

(** A jagged array is a list of lists: offsets and concatenated values. *)
Definition offsets (ls : list (list Z)) : list Z := scan 0 (zlen <$> ls).

Lemma zlen_concat {A} (ls : list (list A)) : zlen (concat ls) = zsum (zlen <$> ls).
Proof.
  induction ls as [|l ls IH]; [done|]. cbn [concat]. rewrite fmap_cons, zsum_cons, zlen_app. lia.
Qed.

Lemma sizes_nonneg {A} (ls : list (list A)) : Forall (fun n => 0 <= n) (zlen <$> ls).
Proof. rewrite Forall_fmap. apply Forall_forall. intros. apply zlen_nonneg. Qed.

Lemma cumsum_d_exact d acc l :
  Forall (fun n => 0 <= n) l -> 0 <= acc -> acc + zsum l <= iinfo_max d ->
  cumsum_d d acc l = drop 1 (scan acc l).
Proof.
  intros Hl. revert acc. induction Hl as [|x l Hx Hl IH]; intros acc Hacc Hle; [done|].
  rewrite zsum_cons in Hle. pose proof (zsum_nonneg _ Hl).
  cbn [cumsum_d scan drop]. rewrite wrap_id.
  - rewrite IH by lia. destruct l; done.
  - unfold in_dtype, iinfo_min, iinfo_max in *. destruct d; cbn in *; lia.
Qed.

Lemma sizes_to_indices_exact d l :
  Forall (fun n => 0 <= n) l -> zsum l <= iinfo_max d -> sizes_to_indices d l = scan 0 l.
Proof.
  intros. unfold sizes_to_indices. rewrite cumsum_d_exact by (done || lia). by destruct l.
Qed.

(** Interlaced form of a jagged array: each list preceded by its length. *)
Definition interlaced (ls : list (list Z)) : list Z := concat ((fun l => zlen l :: l) <$> ls).

Lemma interleave_loop_spec pre ls :
  interleave_loop (scan (zlen pre) (zlen <$> ls)) (pre ++ concat ls) = Ret (interlaced ls).
Proof.
  revert pre. induction ls as [|l ls IH]; intros pre; [done|].
  specialize (IH (pre ++ l)). rewrite zlen_app, <- (assoc (++)) in IH.
  cbn [fmap list_fmap scan concat]. set (rest := scan (zlen pre + zlen l) (zlen <$> ls)) in *.
  assert (exists t, rest = (zlen pre + zlen l) :: t) as [t Ht] by (unfold rest; destruct ls; cbn; eauto).
  rewrite Ht in *. cbn [interleave_loop]. rewrite c_read_app. cbn [mbind py_bind].
  cbn [interleave_loop] in IH. rewrite IH. cbn. do 2 f_equal. lia.
Qed.

Lemma zlen_interlaced ls : zlen (interlaced ls) = zlen ls + zlen (concat ls).
Proof.
  unfold interlaced. induction ls as [|l ls IH]; [done|].
  rewrite fmap_cons. cbn [concat]. rewrite !zlen_app, IH. unfold zlen. cbn [length]. lia.
Qed.

Lemma deinterleave_loop_spec pre ls offset fuel :
  (length ls <= fuel)%nat ->
  deinterleave_loop fuel (pre ++ interlaced ls) (zlen pre) offset =
  Ret (drop 1 (scan offset (zlen <$> ls)), concat ls).
Proof.
  revert pre offset fuel. induction ls as [|l ls IH]; intros pre offset fuel Hf.
  { unfold interlaced. cbn. rewrite app_nil_r. destruct fuel; cbn;
      rewrite bool_decide_eq_false_2; (done || lia). }
  destruct fuel as [|fuel]; [cbn in Hf; lia|]. cbn [deinterleave_loop].
  rewrite bool_decide_eq_true_2
    by (rewrite zlen_app, zlen_interlaced; unfold zlen; cbn [length]; lia).
  change (interlaced (l :: ls)) with ([zlen l] ++ l ++ interlaced ls).
  rewrite (c_read_app pre [zlen l]). cbn [mbind py_bind]. rewrite zsum_cons, zsum_nil, Z.add_0_r.
  pose proof (c_read_app (pre ++ [zlen l]) l (interlaced ls)) as Hr.
  specialize (IH (pre ++ zlen l :: l) (offset + zlen l) fuel ltac:(cbn in Hf; lia)).
  replace (zlen (pre ++ zlen l :: l)) with (zlen pre + zlen l + 1) in IH
    by (rewrite zlen_app; unfold zlen; cbn [length]; lia).
  rewrite zlen_app, <- (assoc (++)) in Hr. rewrite <- (assoc (++)) in IH. cbn [app] in Hr, IH |- *.
  replace (zlen [zlen l]) with 1 in Hr by done. rewrite Hr. cbn [mbind py_bind]. rewrite IH.
  cbn [mbind py_bind fst snd concat]. do 2 f_equal. rewrite fmap_cons. cbn [scan drop].
  by destruct ls.
Qed.

Lemma jagged_merge_loop_spec pre1 pre2 ls1 ls2 last :
  length ls1 = length ls2 ->
  jagged_merge_loop (scan (zlen pre1) (zlen <$> ls1)) (pre1 ++ concat ls1)
                    (scan (zlen pre2) (zlen <$> ls2)) (pre2 ++ concat ls2) last =
  Ret (drop 1 (scan last (zlen <$> zip_with app ls1 ls2)), concat (zip_with app ls1 ls2)).
Proof.
  revert pre1 pre2 ls2 last. induction ls1 as [|l1 ls1 IH]; intros pre1 pre2 [|l2 ls2] last Hl;
    try done.
  specialize (IH (pre1 ++ l1) (pre2 ++ l2) ls2 (last + zlen l1 + zlen l2) ltac:(cbn in Hl; lia)).
  rewrite !zlen_app, <- !(assoc (++)) in IH. cbn [fmap list_fmap scan concat zip_with].
  set (r1 := scan (zlen pre1 + zlen l1) (zlen <$> ls1)) in *.
  set (r2 := scan (zlen pre2 + zlen l2) (zlen <$> ls2)) in *.
  assert (exists t, r1 = (zlen pre1 + zlen l1) :: t) as [t1 H1] by (unfold r1; destruct ls1; cbn; eauto).
  assert (exists t, r2 = (zlen pre2 + zlen l2) :: t) as [t2 H2] by (unfold r2; destruct ls2; cbn; eauto).
  rewrite H1, H2 in *. cbn [jagged_merge_loop]. rewrite !c_read_app. cbn [mbind py_bind].
  replace (last + (zlen pre1 + zlen l1 - zlen pre1) + (zlen pre2 + zlen l2 - zlen pre2))
    with (last + zlen l1 + zlen l2) by lia.
  cbn [jagged_merge_loop] in IH. rewrite IH. cbn [mbind py_bind fst snd]. do 2 f_equal.
  rewrite zlen_app. replace (last + (zlen l1 + zlen l2)) with (last + zlen l1 + zlen l2) by lia.
  cbn [scan drop]. by destruct (zip_with app ls1 ls2).
Qed.

(** ** Lemmas: multiple ranges *)

Lemma zip_with_replicate_arange n d a :
  zip_with Z.add (replicate (Z.to_nat n) d) (arange a (a + n)) = arange (d + a) (d + a + n).
Proof.
  apply list_eq. intros k. destruct (decide (Z.of_nat k < n)).
  - rewrite lookup_zip_with, lookup_replicate_2, !lookup_arange by lia. cbn. f_equal. lia.
  - rewrite !lookup_ge_None_2;
      rewrite ?length_zip_with, ?length_replicate, ?length_arange; try done; lia.
Qed.

Lemma multi_arange_loop c starts stops :
  length starts = length stops ->
  Forall (fun n => 0 <= n) (zip_with Z.sub stops starts) ->
  let l := zip_with Z.sub stops starts in
  zip_with Z.add (np_repeat (zip_with Z.sub stops (drop 1 (scan c l))) l) (arange c (c + zsum l))
  = concat (zip_with arange starts stops).
Proof.
  revert c stops. induction starts as [|a starts IH]; intros c [|b stops] Hlen Hall; try done.
  cbn [zip_with] in *. inversion_clear Hall as [|? ? Hn Hall']. cbv zeta.
  set (l := zip_with Z.sub stops starts) in *. cbn [scan drop].
  assert (Hscan : scan (c + (b - a)) l = (c + (b - a)) :: drop 1 (scan (c + (b - a)) l)) by by destruct l.
  rewrite drop_0, Hscan. cbn [zip_with]. unfold np_repeat. cbn [zip_with concat].
  fold (np_repeat (zip_with Z.sub stops (drop 1 (scan (c + (b - a)) l))) l).
  pose proof (zsum_nonneg l Hall'). rewrite zsum_cons.
  rewrite (arange_app c (c + (b - a))) by lia.
  rewrite zip_with_app by (rewrite length_replicate, length_arange; lia).
  rewrite zip_with_replicate_arange. f_equal; [f_equal; lia|].
  rewrite <- (IH (c + (b - a)) stops); [|cbn in Hlen; lia|done]. fold l. do 2 f_equal. lia.
Qed.

Lemma multi_arange_ok starts stops :
  Forall2 Z.le starts stops -> multi_arange starts stops = Ret (concat (zip_with arange starts stops)).
Proof.
  intros H. pose proof (Forall2_length _ _ _ H) as Hlen. unfold multi_arange.
  rewrite (bool_decide_eq_true_2 (length starts = length stops)) by done.
  cbn [py_assert mbind py_bind].
  assert (Hall : Forall (fun n => 0 <= n) (zip_with Z.sub stops starts)).
  { clear Hlen. induction H; cbn; constructor; [lia|done]. }
  rewrite bool_decide_eq_false_2.
  - f_equal. by apply (multi_arange_loop 0).
  - intros Hex. rewrite Forall_forall in Hall. apply Exists_exists in Hex as (x & Hx & ?).
    apply Hall in Hx. lia.
Qed.

(** ** Lemmas: compression *)

(** First element of each run of equal values. *)
Fixpoint run_vals (t : list Z) : list Z :=
  match t with
  | x :: ((y :: _) as t') => if bool_decide (x <> y) then x :: run_vals t' else run_vals t'
  | _ => t
  end.

Lemma jumps_from_cons i x y t :
  jumps_from i (x :: y :: t) =
  if bool_decide (x <> y) then (i + 1) :: jumps_from (i + 1) (y :: t) else jumps_from (i + 1) (y :: t).
Proof. done. Qed.

Lemma run_vals_cons x y t :
  run_vals (x :: y :: t) = if bool_decide (x <> y) then x :: run_vals (y :: t) else run_vals (y :: t).
Proof. done. Qed.

Lemma jumps_range i t j : j ∈ jumps_from i t -> i < j < i + zlen t.
Proof.
  revert i. induction t as [|x t IH]; intros i; [set_solver|].
  destruct t as [|y t]; [set_solver|]. unfold zlen in *. cbn [length] in *.
  rewrite jumps_from_cons. case_bool_decide; [rewrite elem_of_cons; intros [->|Hj]|intros Hj];
    try apply IH in Hj; lia.
Qed.

Lemma jumps_values i t :
  t <> [] ->
  (fun j => t !! Z.to_nat (j - i)) <$> (i :: jumps_from i t) = Some <$> run_vals t.
Proof.
  revert i. induction t as [|x t IH]; intros i Ht; [done|].
  destruct t as [|y t]; [cbn; by rewrite Z.sub_diag|].
  specialize (IH (i + 1) ltac:(done)). rewrite fmap_cons, Z.sub_diag.
  assert (Hshift : (fun j => (x :: y :: t) !! Z.to_nat (j - i)) <$> jumps_from (i + 1) (y :: t) =
                   (fun j => (y :: t) !! Z.to_nat (j - (i + 1))) <$> jumps_from (i + 1) (y :: t)).
  { apply list_fmap_ext. intros k j Hj%list_elem_of_lookup_2%jumps_range.
    replace (Z.to_nat (j - i)) with (S (Z.to_nat (j - (i + 1)))) by lia. done. }
  rewrite jumps_from_cons, run_vals_cons. rewrite fmap_cons, Z.sub_diag in IH. case_bool_decide.
  - rewrite !fmap_cons, Hshift, <- IH. cbn.
    replace (Z.to_nat (i + 1 - i)) with 1%nat by lia. done.
  - subst. rewrite Hshift, <- IH. done.
Qed.

Lemma run_vals_hd x t : exists r, run_vals (x :: t) = x :: r.
Proof.
  revert x. induction t as [|y t IH]; intros x; [by eexists|].
  rewrite run_vals_cons. case_bool_decide; [by eexists|]. subst. apply IH.
Qed.

Lemma compress_runs i t :
  t <> [] -> np_repeat (run_vals t) (diff (i :: jumps_from i t ++ [i + zlen t])) = t.
Proof.
  revert i. induction t as [|x t IH]; intros i Ht; [done|].
  destruct t as [|y t].
  { cbn. unfold zlen. cbn. rewrite Z.add_simpl_l. done. }
  specialize (IH (i + 1) ltac:(done)).
  replace (i + 1 + zlen (y :: t)) with (i + zlen (x :: y :: t)) in IH by (unfold zlen; cbn [length]; lia).
  set (e := i + zlen (x :: y :: t)) in *.
  rewrite jumps_from_cons, run_vals_cons. case_bool_decide.
  - transitivity (x :: np_repeat (run_vals (y :: t)) (diff ((i + 1) :: jumps_from (i + 1) (y :: t) ++ [e])));
      [|by rewrite IH].
    cbn [app diff]. rewrite Z.add_simpl_l. done.
  - subst y. destruct (run_vals_hd x t) as [r Hr]. rewrite Hr in *.
    destruct (jumps_from (i + 1) (x :: t)) as [|j js] eqn:Ej; cbn [app diff] in *.
    + unfold np_repeat in *. cbn [zip_with concat] in *.
      replace (Z.to_nat (e - i)) with (S (Z.to_nat (e - (i + 1))))
        by (unfold e, zlen; cbn [length]; lia).
      cbn [replicate app]. by rewrite IH.
    + assert (i + 1 < j) by (apply (jumps_range _ (x :: t)); rewrite Ej; set_solver).
      unfold np_repeat in *. cbn [zip_with concat] in *.
      replace (Z.to_nat (j - i)) with (S (Z.to_nat (j - (i + 1)))) by lia.
      cbn [replicate app]. by rewrite IH.
Qed.

Lemma run_vals_distinct t k x y :
  run_vals t !! k = Some x -> run_vals t !! S k = Some y -> x <> y.
Proof.
  revert k. induction t as [|a t IH]; intros k; [done|].
  destruct t as [|b t]; [by destruct k|]. rewrite run_vals_cons. case_bool_decide; [|apply IH].
  destruct k as [|k]; [|apply (IH k)]. destruct (run_vals_hd b t) as [r ->]. cbn. congruence.
Qed.

(** ** Lemmas: location in intervals *)

Lemma searchsorted_spec o0 offset v lastv :
  o0 < v -> last (o0 :: offset) = Some lastv -> v <= lastv ->
  exists k a b, searchsorted (o0 :: offset) v = Z.of_nat (S k) /\
    (o0 :: offset) !! k = Some a /\ (o0 :: offset) !! S k = Some b /\ a < v <= b.
Proof.
  revert o0. induction offset as [|o offset IH]; intros o0 H0 Hlast Hv.
  { cbn in Hlast. simplify_eq. lia. }
  cbn [searchsorted]. rewrite (bool_decide_eq_true_2 (o0 < v)) by done.
  destruct (decide (o < v)) as [Ho|Ho].
  - destruct (IH o Ho Hlast Hv) as (k & a & b & Hs & Ha & Hb & Hab).
    exists (S k), a, b. cbn [searchsorted] in Hs. rewrite Hs. split; [lia|done].
  - exists 0%nat, o0, o. rewrite bool_decide_eq_false_2 by done. repeat split; try done; lia.
Qed.

(** ** Lemmas: rolling *)

Lemma np_roll_lookup {A} (a : list A) s k :
  (k < length a)%nat ->
  np_roll a s !! k = a !! Z.to_nat ((Z.of_nat k - s) mod zlen a).
Proof.
  intros Hk. unfold np_roll, zlen. destruct (length a) as [|n] eqn:Hn; [lia|]. rewrite <- Hn.
  set (m := (- s) mod Z.of_nat (length a)).
  assert (Hm : 0 <= m < Z.of_nat (length a)) by (apply Z.mod_pos_bound; lia).
  assert (Hmk : (Z.of_nat k - s) mod Z.of_nat (length a) = (Z.of_nat k + m) mod Z.of_nat (length a)).
  { unfold m. rewrite Zplus_mod_idemp_r. f_equal. }
  rewrite Hmk. destruct (decide (Z.of_nat k + m < Z.of_nat (length a))).
  - rewrite lookup_app_l by (rewrite length_drop; lia). rewrite lookup_drop, Z.mod_small by lia.
    f_equal. lia.
  - rewrite lookup_app_r by (rewrite length_drop; lia).
    rewrite lookup_take_lt by (rewrite length_drop; lia). rewrite length_drop. f_equal.
    replace ((Z.of_nat k + m) mod Z.of_nat (length a)) with (Z.of_nat k + m - Z.of_nat (length a)); [lia|].
    apply (Z.mod_unique_pos _ _ 1); lia.
Qed.

Lemma find_index_spec array v i :
  find_index array v = Some i <->
  0 <= i /\ array !! Z.to_nat i = Some v /\ forall j, 0 <= j < i -> array !! Z.to_nat j <> Some v.
Proof.
  revert i. induction array as [|x array IH]; intros i; cbn [find_index].
  { split; [done|]. by intros (_ & ? & _). }
  case_bool_decide as Hx.
  - subst. split.
    + intros [= <-]. repeat split; [lia|]. intros; lia.
    + intros (Hi & Hl & Hf). destruct (decide (i = 0)) as [->|]; [done|].
      exfalso. by apply (Hf 0 ltac:(lia)).
  - destruct (find_index array v) as [k|]; cbn.
    + destruct (IH k) as [IHk _]. destruct (IHk eq_refl) as (Hk & Hl & Hf). split.
      * intros [= <-]. replace (Z.to_nat (Z.succ k)) with (S (Z.to_nat k)) by lia. repeat split; [lia|done|].
        intros j Hj. destruct (decide (j = 0)) as [->|]; [by intros [= ->]|].
        replace (Z.to_nat j) with (S (Z.to_nat (j - 1))) by lia. apply Hf. lia.
      * intros (Hi & Hli & Hfi). f_equal.
        destruct (Z.lt_trichotomy i (Z.succ k)) as [?|[?|?]]; [|done|].
        -- destruct (decide (i = 0)) as [->|]; [by injection Hli as ->|].
           replace (Z.to_nat i) with (S (Z.to_nat (i - 1))) in Hli by lia.
           exfalso. by apply (Hf (i - 1) ltac:(lia)).
        -- exfalso. apply (Hfi (Z.succ k) ltac:(lia)).
           by replace (Z.to_nat (Z.succ k)) with (S (Z.to_nat k)) by lia.
    + split; [done|]. intros (Hi & Hli & Hfi). exfalso.
      destruct (decide (i = 0)) as [->|]; [by injection Hli as ->|].
      enough (None = Some (i - 1)) by done. apply IH.
      replace (Z.to_nat i) with (S (Z.to_nat (i - 1))) in Hli by lia. repeat split; [lia|done|].
      intros j Hj. specialize (Hfi (j + 1) ltac:(lia)).
      by replace (Z.to_nat (j + 1)) with (S (Z.to_nat j)) in Hfi by lia.
Qed.

Lemma length_np_roll {A} (a : list A) s : length (np_roll a s) = length a.
Proof.
  unfold np_roll. destruct (length a) eqn:E; [done|]. rewrite length_app, length_drop, length_take. lia.
Qed.

Lemma roll_reverse_index k s n :
  0 < n -> (Z.to_nat n - S (Z.to_nat ((k - (s + 1)) mod n)))%nat = Z.to_nat ((s + -1 * k) mod n).
Proof.
  intros Hn. replace (s + -1 * k) with (-1 - (k - (s + 1))) by lia. generalize (k - (s + 1)). intros m.
  pose proof (Z.mod_pos_bound m n Hn). pose proof (Z.div_mod m n).
  rewrite <- (Z.mod_unique_pos (-1 - m) n (- (m / n) - 1) (n - 1 - m mod n)) by lia. lia.
Qed.

Lemma find_index_None array v : find_index array v = None <-> v ∉ array.
Proof.
  induction array as [|x array IH]; cbn; [set_solver|]. case_bool_decide; [set_solver|].
  rewrite fmap_None, IH. set_solver.
Qed.

(** ** Lemmas: sorted keys *)

Lemma StronglySorted_Z_leb l : StronglySorted Z.le (sort_by Z.leb l).
Proof.
  pose proof (sort_by_sorted Z.leb ltac:(intros; lia) ltac:(intros; lia) l) as H.
  induction H as [|x l' Hs IH Hx]; constructor; [done|].
  eapply Forall_impl; [exact Hx|]. intros y Hy. cbn in Hy. lia.
Qed.

(** Two sorted lists with the same elements, each once, are equal. *)
Lemma sorted_nodup_unique (l k : list Z) :
  StronglySorted Z.le l -> StronglySorted Z.le k -> NoDup l -> NoDup k ->
  (forall x, x ∈ l <-> x ∈ k) -> l = k.
Proof.
  intros Hl Hk Nl Nk H. apply (StronglySorted_unique Z.le); [done..|].
  by apply NoDup_Permutation.
Qed.

Lemma np_unique_sorted array : StronglySorted Z.le (np_unique array).
Proof. apply StronglySorted_Z_leb. Qed.
Lemma np_unique_nodup array : NoDup (np_unique array).
Proof. unfold np_unique. rewrite sort_by_perm. apply NoDup_remove_dups. Qed.
Lemma elem_of_np_unique array x : x ∈ np_unique array <-> x ∈ array.
Proof. unfold np_unique. rewrite sort_by_perm. apply elem_of_remove_dups. Qed.

Lemma np_unique_cons x array :
  Forall (Z.le x) array ->
  np_unique (x :: array) = x :: filter (fun y => y <> x) (np_unique array).
Proof.
  intros Hx. apply sorted_nodup_unique.
  - apply np_unique_sorted.
  - constructor.
    + apply StronglySorted_filter, np_unique_sorted.
    + apply Forall_forall. intros y [_ Hy]%list_elem_of_filter. rewrite elem_of_np_unique in Hy.
      rewrite Forall_forall in Hx. by apply Hx.
  - apply np_unique_nodup.
  - constructor; [|apply NoDup_filter, np_unique_nodup].
    intros [? _]%list_elem_of_filter. done.
  - intros y. rewrite elem_of_np_unique, !elem_of_cons, list_elem_of_filter, elem_of_np_unique.
    destruct (decide (y = x)); naive_solver.
Qed.

Lemma filter_all {A} (P : A -> Prop) `{!forall x, Decision (P x)} (l : list A) :
  Forall P l -> filter P l = l.
Proof.
  induction 1 as [|x l Hx Hl IH]; [done|]. by rewrite filter_cons, decide_True, IH.
Qed.

Lemma np_unique_min x array :
  Forall (Z.le x) array ->
  np_unique array = (if bool_decide (x ∈ array) then [x] else []) ++ filter (fun y => y <> x) (np_unique array).
Proof.
  intros Hx. case_bool_decide as Hin.
  - cbn [app]. rewrite <- (np_unique_cons x array Hx). apply sorted_nodup_unique;
      try apply np_unique_sorted; try apply np_unique_nodup.
    intros y. rewrite !elem_of_np_unique. set_solver.
  - cbn. symmetry. apply filter_all. apply Forall_forall. intros y Hy ->.
    by rewrite elem_of_np_unique in Hy.
Qed.

(** A list sorted by key is the concatenation of its groups of equal key. *)
Lemma sorted_groups {A} (key : A -> Z) (l : list A) :
  StronglySorted Z.le (key <$> l) ->
  concat ((fun r => filter (fun x => key x = r) l) <$> np_unique (key <$> l)) = l.
Proof.
  induction l as [|x l IH]; intros Hs; [done|]. rewrite fmap_cons in *.
  apply StronglySorted_inv in Hs as [Hs Hx]. specialize (IH Hs).
  rewrite np_unique_cons by done. rewrite (np_unique_min (key x)) in IH by done.
  set (others := filter (fun y => y <> key x) (np_unique (key <$> l))) in *.
  assert (Hoth : (fun r => filter (fun y => key y = r) (x :: l)) <$> others =
                 (fun r => filter (fun y => key y = r) l) <$> others).
  { apply list_fmap_ext. intros k r Hr%list_elem_of_lookup_2.
    unfold others in Hr. apply list_elem_of_filter in Hr as [Hr _].
    rewrite filter_cons. rewrite decide_False by congruence. done. }
  rewrite fmap_cons. cbn [concat]. rewrite Hoth, filter_cons, decide_True by done.
  cbn [app]. f_equal. etrans; [|exact IH]. case_bool_decide as Hin; [done|].
  replace (filter (fun y => key y = key x) l) with (@nil A); [done|]. symmetry.
  destruct (filter (fun y => key y = key x) l) as [|y r] eqn:E; [done|]. destruct Hin.
  assert (y ∈ filter (fun y => key y = key x) l) as [Hk Hy]%list_elem_of_filter by (rewrite E; set_solver).
  rewrite <- Hk. by apply list_elem_of_fmap_2.
Qed.

(** The incidences of a jagged array: one pair (parent, child) for each entry. *)
Definition incidences (ids : list Z) (ls : list (list Z)) : list (Z * Z) :=
  concat (zip_with (fun id l => pair id <$> l) ids ls).

Lemma zip_repeat_incidences ids ls :
  zip (np_repeat ids (zlen <$> ls)) (concat ls) = incidences ids ls.
Proof.
  revert ids. induction ls as [|l ls IH]; intros [|id ids]; try done. unfold np_repeat, incidences in *.
  cbn [fmap list_fmap zip_with concat]. rewrite zip_with_app.
  - f_equal; [|apply IH]. unfold zlen. rewrite Nat2Z.id.
    clear. induction l; cbn; [done|]. by f_equal.
  - rewrite length_replicate. unfold zlen. lia.
Qed.

Lemma length_np_repeat (ids : list Z) (ls : list (list Z)) :
  length ids = length ls -> length (np_repeat ids (zlen <$> ls)) = length (concat ls).
Proof.
  revert ids. induction ls as [|l ls IH]; intros [|id ids] Hl; try done.
  unfold np_repeat in *. cbn [fmap list_fmap zip_with concat]. rewrite !length_app, length_replicate.
  rewrite IH by (cbn in Hl; lia). unfold zlen. lia.
Qed.

(** Reading a list along a permutation of its positions permutes it. *)
Lemma omap_lookup_perm {A} (l : list A) p :
  p ≡ₚ seq 0 (length l) -> omap (fun i => l !! i) p ≡ₚ l.
Proof.
  intros ->. apply reflexive_eq. transitivity (omap Some l).
  - apply list_omap_ext, Forall2_same_length_lookup. split; [apply length_seq|].
    intros i j x Hi Hx. by apply lookup_seq in Hi as [-> _].
  - induction l as [|x l IH]; [done|]. cbn. by f_equal.
Qed.

Lemma take_at_perm {A} (l : list A) p :
  p ≡ₚ seq 0 (length l) -> take_at l (Z.of_nat <$> p) = Ret (omap (fun i => l !! i) p).
Proof.
  intros Hp. apply py_mapM_Ret. assert (Hlt : Forall (fun i => (i < length l)%nat) p).
  { rewrite Hp. apply Forall_forall. intros i Hi%elem_of_seq. lia. }
  clear Hp. induction Hlt as [|i p Hi Hp IH]; [constructor|]. cbn.
  apply lookup_lt_is_Some in Hi as [x Hx]. rewrite Hx. constructor; [|done].
  by apply py_get_lookup.
Qed.

Lemma length_filter_snd (P : list (Z * Z)) r :
  length (filter (fun x => x = r) P.*2) = length (filter (fun q => q.2 = r) P).
Proof.
  induction P as [|[a b] P IH]; [done|]. rewrite fmap_cons, !filter_cons. cbn.
  case_decide; cbn; auto.
Qed.

(** The result of [reverse_connectivity], group by group. *)
Lemma reverse_connectivity_groups argsort ids ls :
  argsort_ok argsort -> length ids = length ls ->
  exists groups,
    reverse_connectivity argsort ids (offsets ls) (concat ls) =
    Ret (np_unique (concat ls), sizes_to_indices I8 (zlen <$> groups), concat groups) /\
    length groups = length (np_unique (concat ls)) /\
    (forall p r g, np_unique (concat ls) !! p = Some r -> groups !! p = Some g ->
      g ≡ₚ (filter (fun q => q.2 = r) (incidences ids ls)).*1) /\
    zlen (concat groups) = zlen (concat ls).
Proof.
  intros Hsort Hlen. destruct (Hsort (concat ls)) as [Hp Hsorted].
  set (P := incidences ids ls). set (p := argsort (concat ls)) in *.
  assert (HP : zip (np_repeat ids (zlen <$> ls)) (concat ls) = P) by apply zip_repeat_incidences.
  pose proof (length_np_repeat ids ls Hlen) as Hrep.
  assert (HP1 : P.*1 = np_repeat ids (zlen <$> ls)) by (rewrite <- HP; apply fst_zip; lia).
  assert (HP2 : P.*2 = concat ls) by (rewrite <- HP; apply snd_zip; lia).
  assert (HlP : length P = length (concat ls)) by (rewrite <- HP2; by rewrite length_fmap).
  set (Q := omap (fun i => P !! i) p).
  assert (HQ : Q ≡ₚ P) by (apply omap_lookup_perm; by rewrite HlP).
  assert (HQ1 : Q.*1 = omap (fun i => np_repeat ids (zlen <$> ls) !! i) p).
  { unfold Q. rewrite list_fmap_omap, <- HP1. apply list_omap_ext, Forall_Forall2_diag, Forall_true.
    intros i. by rewrite list_lookup_fmap. }
  assert (HQ2 : Q.*2 = omap (fun i => concat ls !! i) p).
  { unfold Q. rewrite list_fmap_omap, <- HP2. apply list_omap_ext, Forall_Forall2_diag, Forall_true.
    intros i. by rewrite list_lookup_fmap. }
  assert (Hu : np_unique Q.*2 = np_unique (concat ls)).
  { apply sorted_nodup_unique; try apply np_unique_sorted; try apply np_unique_nodup.
    intros x. rewrite !elem_of_np_unique, HQ, HP2. done. }
  assert (Hcat : Q.*1 = concat ((fun r => (filter (fun q => q.2 = r) Q).*1) <$> np_unique (concat ls))).
  { rewrite <- (sorted_groups snd Q) at 1 by by rewrite HQ2. rewrite Hu.
    etrans; [apply (concat_map fst)|]. f_equal. exact (map_map _ _ _). }
  exists ((fun r => (filter (fun q => q.2 = r) Q).*1) <$> np_unique (concat ls)). split_and!.
  - unfold reverse_connectivity, offsets. rewrite diff_scan.
    rewrite bool_decide_eq_false_2.
    2: { rewrite length_fmap. intros [?|Hex]; [done|].
         apply Exists_exists in Hex as (x & Hx & ?). pose proof (sizes_nonneg ls) as Hs.
         rewrite Forall_forall in Hs. apply Hs in Hx. lia. }
    rewrite take_at_perm by (by rewrite Hrep). cbn [mbind py_bind]. fold p. rewrite <- HQ1.
    f_equal. f_equal.
    + f_equal. f_equal. rewrite <- list_fmap_compose. apply list_fmap_ext. intros k r _. cbn.
      unfold count_in, zlen. f_equal. rewrite length_fmap, HQ, <- HP2.
      apply length_filter_snd.
    + exact Hcat.
  - by rewrite length_fmap.
  - intros k r g Hr Hg. rewrite list_lookup_fmap, Hr in Hg. injection Hg as <-. by rewrite HQ.
  - rewrite <- Hcat. unfold zlen. by rewrite length_fmap, HQ, HlP.
Qed.

(** ** Properties *)

Lemma zip_diff_scan (acc : Z) (l : list Z) (i : Z) :
  0 <= i < zlen l -> exists a n, scan acc l !! Z.to_nat i = Some a /\
    scan acc l !! Z.to_nat (i + 1) = Some (a + n) /\ l !! Z.to_nat i = Some n.
Proof.
  unfold zlen. intros Hi. destruct (lookup_lt_is_Some_2 l (Z.to_nat i) ltac:(lia)) as [n Hn].
  exists (acc + zsum (take (Z.to_nat i) l)), n. rewrite !scan_lookup by lia. split_and!; [done| |done].
  replace (Z.to_nat (i + 1)) with (S (Z.to_nat i)) by lia.
  rewrite (take_S_r _ _ _ Hn), zsum_app. cbn. f_equal. lia.
Qed.

Lemma py_get_nonneg {A} (l : list A) i x : 0 <= i -> l !! Z.to_nat i = Some x -> py_get l i = Ret x.
Proof. intros Hi Hx. rewrite <- (Z2Nat.id i) by done. by apply py_get_lookup. Qed.

Lemma concat_split (ls : list (list Z)) k l :
  ls !! k = Some l -> exists pre post, concat ls = pre ++ l ++ post /\
    zlen pre = zsum (take k (zlen <$> ls)).
Proof.
  intros Hk. exists (concat (take k ls)), (concat (drop (S k) ls)). split.
  - rewrite <- (take_drop_middle _ _ _ Hk) at 1. by rewrite concat_app.
  - by rewrite zlen_concat, fmap_take.
Qed.

Lemma map_id_on {A} (f : A -> A) (l : list A) : (forall x, x ∈ l -> f x = x) -> f <$> l = l.
Proof.
  intros H. rewrite <- (list_fmap_id l) at 2. apply list_fmap_ext.
  intros i x Hx%list_elem_of_lookup_2. by apply H.
Qed.

Lemma slice_to_init {A} (x : A) l y : slice_to (x :: l ++ [y]) (-1) = x :: l.
Proof.
  unfold slice_to, clamp. rewrite bool_decide_eq_true_2 by lia.
  replace (Z.to_nat _) with (length (x :: l)) by (cbn; rewrite length_app; cbn; lia).
  by rewrite app_comm_cons, take_app_length.
Qed.

Lemma jumps_reads (t : list Z) js vals :
  (fun j => t !! Z.to_nat (j - 0)) <$> (0 :: js) = Some <$> vals -> (forall j, j ∈ js -> 0 <= j) ->
  Forall2 (fun j v => py_get t j = Ret v) (0 :: js) vals.
Proof.
  intros H Hj. apply Forall2_same_length_lookup. split.
  { apply (f_equal length) in H. by rewrite !length_fmap in H. }
  intros i j v Hi Hv. apply (f_equal (lookup i)) in H.
  rewrite !list_lookup_fmap, Hi, Hv in H. injection H as H. rewrite Z.sub_0_r in H.
  apply py_get_nonneg; [|done]. apply list_elem_of_lookup_2, elem_of_cons in Hi as [->|Hi]; auto; lia.
Qed.

Lemma jumps_sorted i t :
  0 < zlen t -> StronglySorted Z.lt (i :: jumps_from i t ++ [i + zlen t]).
Proof.
  revert i. induction t as [|x t IH]; intros i; [done|]. intros _.
  destruct t as [|y t]; [repeat constructor; unfold zlen; cbn; lia|].
  specialize (IH (i + 1)). replace (i + 1 + zlen (y :: t)) with (i + zlen (x :: y :: t)) in IH
    by (unfold zlen; cbn [length]; lia).
  assert (Hs := IH ltac:(unfold zlen; cbn; lia)). clear IH. rewrite jumps_from_cons.
  assert (Hi : Forall (Z.lt i) (jumps_from (i + 1) (y :: t) ++ [i + zlen (x :: y :: t)])).
  { apply Forall_app. split; [|repeat constructor; unfold zlen; cbn [length]; lia].
    apply Forall_forall. intros j Hj%jumps_range. lia. }
  case_bool_decide.
  - constructor; [done|]. constructor; [lia|done].
  - constructor; [|done]. by apply StronglySorted_inv in Hs as [? _].
Qed.

Lemma foldl_max_le_iff x l m : foldl Z.max x l <= m <-> x <= m /\ Forall (fun y => y <= m) l.
Proof.
  revert x. induction l as [|y l IH]; intros x; cbn; [rewrite Forall_nil; tauto|].
  rewrite IH, Forall_cons, Z.max_lub_iff. tauto.
Qed.

Lemma abs_max_le data m :
  Forall (in_dtype I8) data -> iinfo_min I8 ∉ data -> 0 <= m ->
  abs_max data <= m <-> Forall (fun x => Z.abs x <= m) data.
Proof.
  intros Hd Hmin Hm. unfold abs_max. rewrite foldl_max_le_iff, Forall_fmap.
  assert (Hx : forall x, x ∈ data -> wrap I8 (Z.abs x) = Z.abs x).
  { intros x Hx. rewrite Forall_forall in Hd. pose proof (Hd x Hx).
    assert (x <> iinfo_min I8) by congruence. apply wrap_id.
    unfold in_dtype, iinfo_min, iinfo_max in *. cbn in *. lia. }
  rewrite !Forall_forall. unfold compose. split; [intros [_ H]|intros H; split; [done|]];
    intros x Hxd; specialize (H x Hxd); cbn in *; rewrite Hx in * by done; done.
Qed.

(** The four reads [jagged_extract] makes for one selected list. *)
Definition list_start (ls : list (list Z)) (i : Z) : Z := zsum (take (Z.to_nat i) (zlen <$> ls)).

Lemma jagged_reads ls i l :
  0 <= i -> ls !! Z.to_nat i = Some l ->
  py_get (offsets ls) i = Ret (list_start ls i) /\
  py_get (offsets ls) (i + 1) = Ret (list_start ls i + zlen l) /\
  py_get (diff (offsets ls)) i = Ret (zlen l) /\
  take_at (concat ls) (arange (list_start ls i) (list_start ls i + zlen l)) = Ret l.
Proof.
  intros Hi Hl. pose proof (lookup_lt_Some _ _ _ Hl) as Hlt.
  assert (Hz : (zlen <$> ls) !! Z.to_nat i = Some (zlen l)) by by rewrite list_lookup_fmap, Hl.
  destruct (zip_diff_scan 0 (zlen <$> ls) i) as (a & n & Ha & Hb & Hn);
    [unfold zlen at 1; rewrite length_fmap; lia|].
  assert (a = list_start ls i) as ->.
  { rewrite scan_lookup in Ha by (rewrite length_fmap; lia). by injection Ha as <-. }
  rewrite Hz in Hn. injection Hn as <-. unfold offsets. rewrite diff_scan.
  split_and!; [by apply py_get_nonneg|apply py_get_nonneg; [lia|done]|by apply py_get_nonneg|].
  destruct (concat_split ls _ l Hl) as (pre & post & -> & Hpre).
  unfold list_start. rewrite <- Hpre. apply take_at_app.
Qed.

Lemma mapM_zip {A B C D} (f : C -> py D) (g : A -> C) (h : A -> B -> D) l k :
  Forall2 (fun x y => f (g x) = Ret (h x y)) l k -> mapM f (g <$> l) = Ret (zip_with h l k).
Proof. intros H. apply py_mapM_Ret. rewrite Forall2_fmap_l. induction H; constructor; auto. Qed.

(** [jagged_extract] on the offsets and values of a list of lists returns the offsets and the
    values of the lists selected by [ids], in the order of [ids] (repetitions included). *)
Theorem jagged_extract_spec d ls ids sel :
  Forall2 (fun i l => 0 <= i /\ ls !! Z.to_nat i = Some l) ids sel ->
  zlen (concat sel) <= iinfo_max d ->
  jagged_extract d (offsets ls) (concat ls) ids = Ret (offsets sel, concat sel).
Proof.
  intros Hsel Hmax. unfold jagged_extract, take_at.
  assert (Hlen : length ids = length sel) by by eapply Forall2_length.
  pose proof (mapM_zip (py_get (offsets ls)) id (fun i _ => list_start ls i) ids sel) as H1.
  pose proof (mapM_zip (py_get (offsets ls)) (fun i => i + 1) (fun i l => list_start ls i + zlen l) ids sel) as H2.
  pose proof (mapM_zip (py_get (diff (offsets ls))) id (fun _ l => zlen l) ids sel) as H3.
  rewrite list_fmap_id in H1, H3.
  rewrite H1; [|eapply Forall2_impl; [exact Hsel|]; intros i l [Hi Hl]; by destruct (jagged_reads ls i l Hi Hl) as (?&?&?&?)].
  rewrite H2; [|eapply Forall2_impl; [exact Hsel|]; intros i l [Hi Hl]; by destruct (jagged_reads ls i l Hi Hl) as (?&?&?&?)].
  rewrite H3; [|eapply Forall2_impl; [exact Hsel|]; intros i l [Hi Hl]; by destruct (jagged_reads ls i l Hi Hl) as (?&?&?&?)].
  clear H1 H2 H3. cbn [mbind py_bind]. rewrite multi_arange_ok.
  2: { clear. revert sel. induction ids as [|i ids IH]; intros [|l sel]; constructor; [|apply IH].
       pose proof (zlen_nonneg l). lia. }
  cbn [mbind py_bind].
  match goal with |- context [mapM ?f ?l] => assert (mapM f l = Ret (concat sel)) as -> end.
  { clear Hmax Hlen. induction Hsel as [|i l ids sel [? ?] ? IH]; [done|]. cbn.
       apply py_mapM_app; [|exact IH]. by destruct (jagged_reads ls i l) as (?&?&?&?). }
  cbn [mbind py_bind]. do 2 f_equal.
  replace (zip_with _ ids sel) with (zlen <$> sel).
  - rewrite sizes_to_indices_exact; [done|apply sizes_nonneg|]. by rewrite <- zlen_concat.
  - clear -Hlen. revert sel Hlen. induction ids as [|i ids IH]; intros [|l sel] ?; simplify_eq/=; auto.
    by f_equal; auto.
Qed.

Lemma jagged_extract_witness :
  jagged_extract I4 [0; 2; 2; 5] [10; 11; 20; 21; 22] [2; 0; 2] = Ret ([0; 3; 5; 8], [20; 21; 22; 10; 11; 20; 21; 22]).
Proof.
  apply (jagged_extract_spec I4 [[10; 11]; []; [20; 21; 22]] [2; 0; 2] [[20; 21; 22]; [10; 11]; [20; 21; 22]]).
  - repeat (constructor; [split; [lia|done]|]). constructor.
  - vm_compute. discriminate.
Defined.

(** [compress] finds the runs of an array: its second result lists the value of each run,
    consecutive ones being distinct, and its first result the offsets of the runs, so that
    repeating each value gives the array back. *)
Theorem compress_spec t :
  t <> [] -> zlen t <= iinfo_max I4 ->
  exists idx val, compress t = Ret (idx, val) /\
    length idx = S (length val) /\ head idx = Some 0 /\ last idx = Some (zlen t) /\
    StronglySorted Z.lt idx /\ np_repeat val (diff idx) = t /\
    forall k x y, val !! k = Some x -> val !! S k = Some y -> x <> y.
Proof.
  intros Ht Hmax. assert (Hpos : 0 < zlen t) by (destruct t; [done|unfold zlen; cbn; lia]).
  set (idx := 0 :: jumps_from 0 t ++ [zlen t]).
  assert (Hw : wrap I4 <$> idx = idx).
  { apply map_id_on. intros j Hj. apply wrap_id. unfold in_dtype, iinfo_min, iinfo_max in *. cbn in *.
    enough (0 <= j <= zlen t) by lia. unfold idx in Hj.
    rewrite elem_of_cons, elem_of_app, list_elem_of_singleton in Hj.
    destruct Hj as [->|[Hj%jumps_range| ->]]; lia. }
  pose proof (jumps_values 0 t Ht) as Hv. pose proof (compress_runs 0 t Ht) as Hr.
  exists idx, (run_vals t). split_and!.
  - unfold compress. rewrite bool_decide_eq_true_2 by lia. cbn [py_assert mbind py_bind].
    fold idx. rewrite Hw. unfold idx. rewrite slice_to_init. unfold take_at.
    rewrite (proj2 (py_mapM_Ret _ _ (run_vals t))); [done|].
    apply jumps_reads; [exact Hv|]. intros j Hj%jumps_range. lia.
  - apply (f_equal length) in Hv. rewrite !length_fmap in Hv. unfold idx. cbn in *. rewrite length_app.
    cbn. lia.
  - done.
  - unfold idx. by rewrite app_comm_cons, last_snoc.
  - apply jumps_sorted. lia.
  - exact Hr.
  - apply run_vals_distinct.
Qed.

Lemma compress_witness : compress [7; 7; 4; 7] = Ret ([0; 2; 3; 4], [7; 4; 7]).
Proof.
  destruct (compress_spec [7; 7; 4; 7]) as (idx & val & H & _); [done|vm_compute; discriminate|].
  rewrite H. vm_compute in H. by injection H as <- <-.
Defined.

(** The two jagged layouts are inverse of each other: interlacing the offsets and values of a
    list of lists writes each list preceded by its length, and reading this back returns the same
    offsets and values, the loop of the second conversion ending within the size of the array. *)
Theorem interlaced_roundtrip ls :
  indexed_to_interlaced (offsets ls) (concat ls) = Ret (interlaced ls) /\
  interlaced_to_indexed (zlen ls) (interlaced ls) = Ret (offsets ls, concat ls).
Proof.
  pose proof (zlen_interlaced ls) as Hlen. split.
  - unfold indexed_to_interlaced, offsets. rewrite (interleave_loop_spec [] ls : interleave_loop (scan 0 (zlen <$> ls)) (concat ls) = _). cbn [mbind py_bind].
    rewrite bool_decide_eq_true_2; [done|]. rewrite Hlen. unfold zlen at 3. rewrite length_scan, length_fmap.
    unfold zlen. lia.
  - unfold interlaced_to_indexed. pose proof (zlen_nonneg (concat ls)).
    rewrite (deinterleave_loop_spec [] ls 0 _ : _ -> deinterleave_loop _ (interlaced ls) 0 0 = _)
      by (unfold zlen in *; lia).
    cbn [mbind py_bind fst snd]. rewrite bool_decide_eq_true_2.
    + unfold offsets. by destruct ls.
    + unfold zlen at 1. rewrite length_drop, length_scan, length_fmap. unfold zlen in *. lia.
Qed.

(** [jagged_merge] concatenates two jagged arrays of the same type list by list; arrays of
    different types are refused. *)
Theorem jagged_merge_spec dt1 dt2 ls1 ls2 :
  length ls1 = length ls2 -> dt1 ∈ [Int32; Int64; OtherType "float64"] ->
  jagged_merge (offsets ls1) (NdArray dt1 (concat ls1)) (offsets ls2) (NdArray dt2 (concat ls2)) =
  (if bool_decide (dt1 = dt2)
   then Ret (offsets (zip_with app ls1 ls2), NdArray dt1 (concat (zip_with app ls1 ls2)))
   else Raise AssertionError).
Proof.
  intros Hlen Hdt. unfold jagged_merge. cbn [nd_dtype nd_data]. destruct (decide (dt1 = dt2)) as [<-|Hne].
  2: { by rewrite !(bool_decide_eq_false_2 (dt1 = dt2)). }
  rewrite !(bool_decide_eq_true_2 (dt1 = dt1)) by done. cbn [py_assert mbind py_bind]. rewrite bool_decide_eq_false_2 by auto.
  unfold jagged_merge_kernel, offsets.
  rewrite bool_decide_eq_false_2 by (rewrite !length_scan, !length_fmap; lia).
  rewrite (jagged_merge_loop_spec [] [] ls1 ls2 0 :
    _ -> jagged_merge_loop (scan 0 (zlen <$> ls1)) (concat ls1) (scan 0 (zlen <$> ls2)) (concat ls2) 0 = _)
    by done.
  cbn [mbind py_bind fst snd]. rewrite bool_decide_eq_false_2.
  - cbn. by destruct (zip_with app ls1 ls2).
  - rewrite !zlen_concat. intros []. revert ls2 Hlen.
    induction ls1 as [|l1 ls1 IH]; intros [|l2 ls2] Hlen; try done.
    cbn [zip_with fmap list_fmap]. rewrite !zsum_cons, IH, zlen_app by (cbn in Hlen; lia). lia.
Qed.

Lemma jagged_merge_witness :
  jagged_merge [0; 1; 3] (NdArray Int32 [5; 6; 7]) [0; 2; 2] (NdArray Int32 [8; 9]) =
  Ret ([0; 3; 5], NdArray Int32 [5; 8; 9; 6; 7]).
Proof. apply (jagged_merge_spec Int32 Int32 [[5]; [6; 7]] [[8; 9]; []]); [done|set_solver]. Defined.

(** [reverse_connectivity] transposes a jagged connectivity: its first result lists the children
    in increasing order, each once, and the group of a child, delimited by the offsets of the second
    result, holds the parents of that child, once for each of its occurrences. *)
Theorem reverse_connectivity_spec argsort ids ls :
  argsort_ok argsort -> length ids = length ls -> zlen (concat ls) <= iinfo_max I8 ->
  exists groups,
    reverse_connectivity argsort ids (offsets ls) (concat ls) =
    Ret (np_unique (concat ls), offsets groups, concat groups) /\
    length groups = length (np_unique (concat ls)) /\
    forall p r g, np_unique (concat ls) !! p = Some r -> groups !! p = Some g ->
      g ≡ₚ (filter (fun q => q.2 = r) (incidences ids ls)).*1.
Proof.
  intros Hs Hl Hmax. destruct (reverse_connectivity_groups argsort ids ls Hs Hl) as (gs & Hr & Hlen & Hg & Hsum).
  exists gs. split_and!; [|done..]. rewrite Hr. rewrite sizes_to_indices_exact; [done|apply sizes_nonneg|].
  by rewrite <- zlen_concat, Hsum.
Qed.

(** A sort satisfying [argsort_ok], on the array of the witness. *)
Definition argsort_stable (a : list Z) : list nat :=
  (sort_by (fun x y => x.1 <=? y.1) (zip a (seq 0 (length a)))).*2.

Lemma argsort_stable_ok : argsort_ok argsort_stable.
Proof.
  intros a. unfold argsort_stable. set (z := zip a (seq 0 (length a))).
  set (s := sort_by _ z). pose proof (sort_by_perm (fun x y : Z * nat => x.1 <=? y.1) z) as Hp. fold s in Hp.
  assert (Hz : forall p, p ∈ s -> a !! p.2 = Some p.1).
  { intros [x i]. rewrite Hp. intros Hi%list_elem_of_lookup_1. destruct Hi as [k Hk].
    apply lookup_zip_Some in Hk as [Hx Hi]. apply lookup_seq in Hi as [-> _]. done. }
  split.
  - rewrite Hp. unfold z. by rewrite snd_zip by (by rewrite length_seq).
  - assert (Ho : omap (fun i => a !! i) s.*2 = s.*1).
    { clear -Hz. induction s as [|[x i] s IH]; [done|]. cbn. rewrite (Hz (x, i) ltac:(set_solver) : a !! i = Some x).
      f_equal. apply IH. intros. apply Hz. set_solver. }
    rewrite Ho. assert (Hs : StronglySorted (fun x y : Z * nat => (x.1 <=? y.1) = true) s)
      by (apply sort_by_sorted; intros; lia).
    clear -Hs. induction Hs as [|x s Hs IH Hx]; [constructor|]. rewrite fmap_cons. constructor; [done|].
    rewrite Forall_fmap. eapply Forall_impl; [exact Hx|]. cbn. intros; lia.
Qed.

Lemma reverse_connectivity_witness :
  exists groups, reverse_connectivity argsort_stable [10; 20] [0; 2; 4] [5; 3; 3; 7] =
    Ret ([3; 5; 7], offsets groups, concat groups).
Proof.
  destruct (reverse_connectivity_spec argsort_stable [10; 20] [[5; 3]; [3; 7]]) as (gs & H & _);
    [apply argsort_stable_ok|done|vm_compute; discriminate|].
  exists gs. exact H.
Defined.

(** [roll_from] is a rotation of the array, of its reverse order when asked: entry [k] of the
    result is the entry found [k] steps after (before, when reversed) the starting position, which is
    the given one or the first one holding [start_value]; a value that is not in the array is an
    IndexError, and giving both or none of the two starts an AssertionError. *)
Theorem roll_from_spec array start_idx start_value is_reverse :
  match start_idx, start_value with
  | Some _, Some _ | None, None => roll_from array start_idx start_value is_reverse = Raise AssertionError
  | None, Some v =>
      (v ∉ array -> roll_from array None (Some v) is_reverse = Raise IndexError) /\
      (v ∈ array -> exists s, array !! Z.to_nat s = Some v /\
         (forall j, 0 <= j < s -> array !! Z.to_nat j <> Some v) /\
         roll_from array None (Some v) is_reverse = roll_from array (Some s) None is_reverse)
  | Some s, None => exists out, roll_from array (Some s) None is_reverse = Ret out /\
      length out = length array /\
      forall k, (k < length array)%nat ->
        out !! k = array !! Z.to_nat ((s + (if is_reverse then -1 else 1) * Z.of_nat k) mod zlen array)
  end.
Proof.
  destruct start_idx as [s|], start_value as [v|]; try done.
  - eexists. split; [by unfold roll_from; rewrite bool_decide_eq_true_2 by (split; done)|].
    split; [by destruct is_reverse; rewrite length_np_roll, ?length_reverse|].
    intros k Hk. assert (0 < zlen array) by (unfold zlen; lia). destruct is_reverse.
    + rewrite np_roll_lookup by (by rewrite length_reverse). unfold zlen at 1. rewrite length_reverse.
      fold (zlen array). rewrite reverse_lookup.
      * f_equal. rewrite <- (roll_reverse_index (Z.of_nat k) s (zlen array)) by done. unfold zlen. lia.
      * pose proof (Z.mod_pos_bound (Z.of_nat k - (s + 1)) (zlen array)). unfold zlen in *. lia.
    + rewrite np_roll_lookup by done. do 2 f_equal. f_equal. lia.
  - unfold roll_from. rewrite (bool_decide_eq_true_2 (None = None <-> Some v <> None)) by done. split.
    + intros Hv. cbn [py_assert mbind py_bind]. destruct (find_index array v) as [i|] eqn:E; [|done].
      apply find_index_spec in E as (_ & Hi & _). destruct Hv. by eapply list_elem_of_lookup_2.
    + intros Hv. destruct (find_index array v) as [i|] eqn:E; [|by apply find_index_None in E].
      exists i. pose proof E as (_ & Hi & Hf)%find_index_spec. split_and!; [done..|].
      rewrite bool_decide_eq_true_2 by (split; done). done.
Qed.

Lemma roll_from_witness :
  exists s, roll_from [4; 8; 15; 16] None (Some 15) true = roll_from [4; 8; 15; 16] (Some s) None true.
Proof.
  destruct (roll_from_spec [4; 8; 15; 16] None (Some 15) true) as [_ H].
  destruct H as (s & _ & _ & ->); [set_solver|]. by exists s.
Defined.

(** [shifted_to_local] locates each value [v] in the half-open interval
    [offset[k] < v <= offset[k+1]] that contains it, and returns the interval number [k+1] together
    with the position [v - offset[k]] inside it, which is at least one. *)
Theorem shifted_to_local_spec o0 offset lastv array :
  last (o0 :: offset) = Some lastv -> Forall (fun v => o0 < v <= lastv) array ->
  exists local num, shifted_to_local array (o0 :: offset) = Ret (local, num) /\
    length local = length array /\ length num = length array /\
    forall i v, array !! i = Some v -> exists k a b,
      num !! i = Some (Z.of_nat (S k)) /\ local !! i = Some (v - a) /\
      (o0 :: offset) !! k = Some a /\ (o0 :: offset) !! S k = Some b /\ a < v <= b.
Proof.
  intros Hlast. unfold shifted_to_local, take_at. induction 1 as [|v array [Hlo Hhi] Hall IH].
  { exists [], []. repeat split; done. }
  destruct IH as (local & num & Hrun & Hl & Hn & Hspec).
  destruct (searchsorted_spec o0 offset v lastv) as (k & a & b & Hs & Ha & Hb & Hab); [done..|].
  cbn [fmap list_fmap mapM]. rewrite Hs.
  replace (Z.of_nat (S k) - 1) with (Z.of_nat k) by lia. rewrite (py_get_lookup _ _ _ Ha).
  cbn [fmap list_fmap mbind py_bind] in Hrun |- *. destruct (mapM _ _) as [base|]; [|done].
  cbn [mbind py_bind mret py_ret zip_with] in Hrun |- *. inv_py.
  exists (v - a :: zip_with Z.sub array base), (Z.of_nat (S k) :: (searchsorted (o0 :: offset) <$> array)).
  split; [done|]. split; [cbn; congruence|]. split; [cbn; congruence|].
  intros [|i] w Hw; [|by apply Hspec]. injection Hw as <-. exists k, a, b. done.
Qed.

Lemma shifted_to_local_witness :
  exists local num, shifted_to_local [1; 10; 11; 25] [0; 10; 20; 30] = Ret (local, num) /\ length local = 4%nat.
Proof.
  destruct (shifted_to_local_spec 0 [10; 20; 30] 30 [1; 10; 11; 25]) as (l & n & H & Hl & _);
    [done|repeat constructor; lia|]. by exists l, n.
Defined.

(** [safe_int_cast] between the two integer types keeps every value: it returns the array with
    its values unchanged, or raises OverflowError when one of them has an absolute value above the
    largest int32.  The lowest int64 is excluded, see [safe_int_cast_int64_min]. *)
Theorem safe_int_cast_spec data dt_in dt_out d_in :
  (dt_in, d_in) ∈ [(Int32, I4); (Int64, I8)] -> dt_out ∈ [Int32; Int64] ->
  Forall (in_dtype d_in) data -> iinfo_min I8 ∉ data ->
  safe_int_cast (NdArray dt_in data) dt_out =
  (if bool_decide (dt_in = Int32 \/ dt_out = Int64 \/ Forall (fun x => Z.abs x <= iinfo_max I4) data)
   then Ret (NdArray dt_out data) else Raise OverflowError).
Proof.
  intros Hin Hout Hdata Hmin. unfold safe_int_cast. cbn [nd_dtype nd_data].
  rewrite !elem_of_cons in Hin. rewrite !elem_of_cons in Hout.
  destruct Hin as [[= -> ->]|[[= -> ->]|[]%not_elem_of_nil]]; destruct Hout as [->|[->|[]%not_elem_of_nil]];
    cbn [bool_decide]; try (rewrite !bool_decide_eq_true_2 by auto; done).
  - rewrite (bool_decide_eq_true_2 (Int32 = Int32 \/ _)) by auto.
    cbn. rewrite map_id_on; [done|]. intros x Hx. apply wrap_id. rewrite Forall_forall in Hdata.
    apply Hdata in Hx. unfold in_dtype, iinfo_min, iinfo_max in *. cbn in *. lia.
  - rewrite (bool_decide_eq_false_2 (Int64 = Int32)) by done.
    rewrite (bool_decide_eq_false_2 (Int64 = Int32 /\ _)) by (intros [? _]; done).
    rewrite (bool_decide_eq_true_2 (Int64 = Int64 /\ _)) by done.
    pose proof (abs_max_le data (iinfo_max I4) Hdata Hmin ltac:(done)) as Habs.
    case_bool_decide as H; case_bool_decide as H'; try done; [|naive_solver|naive_solver].
    rewrite map_id_on; [done|]. intros x Hx. apply wrap_id. destruct Habs as [Habs _].
    specialize (Habs H). rewrite Forall_forall in Habs. specialize (Habs x Hx).
    unfold in_dtype, iinfo_min, iinfo_max in *. cbn in *. lia.
Qed.

Lemma safe_int_cast_witness :
  safe_int_cast (NdArray Int64 [1; -5; 2147483648]) Int32 = Raise OverflowError.
Proof.
  rewrite (safe_int_cast_spec [1; -5; 2147483648] Int64 Int32 I8); [vm_compute; reflexivity|set_solver|set_solver| |].
  - repeat constructor; vm_compute; discriminate.
  - rewrite !not_elem_of_cons. split_and!; try (vm_compute; discriminate). apply not_elem_of_nil.
Defined.

(** The check of [safe_int_cast] misses the lowest int64, whose absolute value wraps to itself: the
    cast then silently returns zero. *)
Theorem safe_int_cast_int64_min :
  safe_int_cast (NdArray Int64 [iinfo_min I8]) Int32 = Ret (NdArray Int32 [0]).
Proof. vm_compute. reflexivity. Qed.

End NpUtils.
