(* ===== verification/Values.v ===== *)
(** * Node values: the conversions of [maia/pytree/node/access.py]

    A CGNS value is [None] or a numpy array.  Arrays keep their CGNS type, their shape, the
    Fortran-contiguity flag and their elements listed in Fortran order (first index fastest), each
    coded by an integer: the value of an integer, the code of a character, an opaque code for the
    real and complex types. *)
From Stdlib Require Import Ascii.
From S2P Require Import Prelude.

Local Open Scope Z_scope.

Module Values.

(** ** Arrays *)

(** [cgns_types] of [cgns_keywords] *)
Inductive cgns_type : Set :=
| T_B1 | T_C1 | T_I4 | T_U4 | T_I8 | T_U8 | T_R4 | T_R8 | T_X4 | T_X8.
#[export] Instance cgns_type_eq_dec : EqDecision cgns_type.
Proof. solve_decision. Defined.

Definition dtype_to_cgns (t : cgns_type) : string :=
  match t with
  | T_B1 => "B1" | T_C1 => "C1" | T_I4 => "I4" | T_U4 => "U4" | T_I8 => "I8"
  | T_U8 => "U8" | T_R4 => "R4" | T_R8 => "R8" | T_X4 => "X4" | T_X8 => "X8"
  end.

Record nparray := NpArray {
  a_type : cgns_type;
  a_shape : list Z;
  a_fcontiguous : bool;
  a_data : list Z
}.
#[export] Instance nparray_eq_dec : EqDecision nparray.
Proof. solve_decision. Defined.

Definition value := option nparray.

(** ** Characters *)
Definition char_code (c : ascii) : Z := Z.of_N (N_of_ascii c).
Definition code_char (z : Z) : ascii := ascii_of_N (Z.to_N z).
Definition codes (s : string) : list Z := char_code <$> String.list_ascii_of_string s.
Definition of_codes (l : list Z) : string := String.string_of_list_ascii (code_char <$> l).

(** The characters [str.strip] removes, among the ASCII ones. *)
Definition is_space (c : ascii) : bool :=
  let n := char_code c in
  bool_decide (9 <= n <= 13) || bool_decide (28 <= n <= 32).

Fixpoint lstrip (l : list ascii) : list ascii :=
  match l with
  | [] => []
  | c :: l' => if is_space c then lstrip l' else l
  end.

Definition strip (s : string) : string :=
  String.string_of_list_ascii
    (lstrip (reverse (lstrip (reverse (String.list_ascii_of_string s))))).

(** Encoding to bytes fails on a character that is not ASCII. *)
Definition is_ascii (s : string) : bool := forallb (fun z => z <? 128) (codes s).

(** ** Python inputs *)

(** A nested sequence of elements of one kind. *)
Inductive nested (A : Type) : Type :=
| Leaf (a : A)
| Nest (l : list (nested A)).
Arguments Leaf {_} _.
Arguments Nest {_} _.

(** What a caller may pass as the value of a node: sequences hold scalars of a single kind, at any
    nesting; [PNumpy] is a numpy scalar. *)
Inductive pyval : Type :=
| PNone
| PArray (a : nparray)
| PFloat (x : Z)
| PInt (z : Z)
| PStr (s : string)
| PNumpy (t : cgns_type) (x : Z)
| PFloats (l : list (nested Z))
| PInts (l : list (nested Z))
| PStrs (l : list string)
| PStrss (l : list (list string))
| PNumpys (t : cgns_type) (l : list (nested Z)).

Definition CGNS_STR_SIZE : nat := 32.

Fixpoint flatten_nested {A} (n : nested A) : list A :=
  match n with
  | Leaf a => [a]
  | Nest l => flat_map flatten_nested l
  end.
Definition _flatten {A} (items : list (nested A)) : list A := flat_map flatten_nested items.

(** [np.array] of a nested sequence: the shape, and the elements in Fortran order; sub-sequences of
    different shapes raise ValueError. *)
Fixpoint transpose_data (k : nat) (subs : list (list Z)) : list Z :=
  match k with
  | O => []
  | S k' => omap head subs ++ transpose_data k' (tail <$> subs)
  end.

Definition stack (subs : list (list Z * list Z)) : py (list Z * list Z) :=
  match subs with
  | [] => Ret ([0], [])
  | (shape, data) :: _ =>
      if forallb (fun s => bool_decide (s.1 = shape)) subs
      then Ret (zlen subs :: shape, transpose_data (length data) (snd <$> subs))
      else Raise ValueError
  end.

Fixpoint np_nested (n : nested Z) : py (list Z * list Z) :=
  match n with
  | Leaf a => Ret ([], [a])
  | Nest l =>
      subs ← (fix go l := match l with
                          | [] => Ret []
                          | x :: l' => y ← np_nested x; ys ← go l'; Ret (y :: ys)
                          end) l;
      stack subs
  end.

Section convert.
(** Numpy's rounding of a Python float to single precision. *)
Variable to_float32 : Z -> Z.

Definition np_array (t : cgns_type) (cast : Z -> py Z) (l : list (nested Z)) : py value :=
  r ← np_nested (Nest l);
  data ← mapM cast r.2;
  Ret (Some (NpArray t r.1 true data)).

(** Storing a Python integer in an array of integers checks its range. *)
Definition cast_int (d : dtype) (z : Z) : py Z :=
  if bool_decide (in_dtype d z) then Ret z else Raise OverflowError.

Definition int_type (m : Z) : cgns_type * dtype :=
  if bool_decide (m < iinfo_max Prelude.I4) then (T_I4, Prelude.I4) else (T_I8, Prelude.I8).

(** An empty sequence gives an int32 array. *)
Definition empty_iterable (l : list (nested Z)) : py value := np_array T_I4 Ret l.

(** A string padded with spaces to [CGNS_STR_SIZE] characters. *)
Definition pad (s : string) : list Z := codes s ++ replicate (CGNS_STR_SIZE - String.length s) 32.

Definition _convert_value (v : pyval) : py value :=
  match v with
  | PNone => Ret None
  | PArray a => Ret (Some (NpArray (a_type a) (a_shape a) true (a_data a)))
  | PFloat x => Ret (Some (NpArray T_R4 [1] true [to_float32 x]))
  | PInt z =>
      let '(t, d) := int_type (Z.abs z) in
      z ← cast_int d z; Ret (Some (NpArray t [1] true [z]))
  | PStr s =>
      if is_ascii s then Ret (Some (NpArray T_C1 [Z.of_nat (String.length s)] true (codes s)))
      else Raise ValueError
  | PNumpy t x =>
      (* np.float64 is a subclass of float *)
      if bool_decide (t = T_R8) then Ret (Some (NpArray T_R4 [1] true [to_float32 x]))
      else Ret (Some (NpArray t [1] true [x]))
  | PFloats l =>
      match _flatten l with
      | [] => empty_iterable l
      | _ => np_array T_R4 (fun x => Ret (to_float32 x)) l
      end
  | PInts l =>
      match _flatten l with
      | [] => empty_iterable l
      | _ => max_val ← py_max (Z.abs <$> _flatten l);
             let '(t, d) := int_type max_val in np_array t (cast_int d) l
      end
  | PStrs l =>
      match l with
      | [] => empty_iterable []
      | _ =>
          _ ← py_assert (forallb (fun s => Nat.leb (String.length s) CGNS_STR_SIZE) l);
          if forallb is_ascii l
          then Ret (Some (NpArray T_C1 [Z.of_nat CGNS_STR_SIZE; zlen l] true (concat (pad <$> l))))
          else Raise ValueError
      end
  | PStrss l =>
      match concat l with
      | [] => empty_iterable ((fun _ => Nest []) <$> l)
      | _ =>
          _ ← py_assert (forallb (fun s => Nat.leb (String.length s) CGNS_STR_SIZE) (concat l));
          n ← py_max (zlen <$> l);
          if forallb is_ascii (concat l)
          then Ret (Some (NpArray T_C1 [Z.of_nat CGNS_STR_SIZE; n; zlen l] true
                 (concat ((fun ss => concat (pad <$> ss) ++
                             replicate (CGNS_STR_SIZE * (Z.to_nat n - length ss)) 32) <$> l))))
          else Raise ValueError
      end
  | PNumpys t l =>
      match _flatten l with
      | [] => empty_iterable l
      | _ => if bool_decide (t = T_R8) then np_array T_R4 (fun x => Ret (to_float32 x)) l
             else np_array t Ret l
      end
  end.
End convert.

(** ** Reading strings *)
Inductive pystr : Type :=
| Str (s : string)
| StrList (l : list pystr).

(** The [i]-th slice along the last axis: the [i]-th block of [size] elements. *)
Definition blocks (size n : nat) (data : list Z) : list (list Z) :=
  (fun i => take size (drop (i * size) data)) <$> seq 0 n.

(** [array.tobytes().decode().strip()] *)
Definition string1 (data : list Z) : pystr := Str (strip (of_codes data)).
Definition string2 (s0 s1 : nat) (data : list Z) : pystr := StrList (string1 <$> blocks s0 s1 data).

Definition _np_to_string (array : nparray) : py pystr :=
  match a_shape array with
  | [_] => Ret (string1 (a_data array))
  | [s0; s1] => Ret (string2 (Z.to_nat s0) (Z.to_nat s1) (a_data array))
  | [s0; s1; s2] =>
      Ret (StrList (string2 (Z.to_nat s0) (Z.to_nat s1) <$>
                    blocks (Z.to_nat s0 * Z.to_nat s1) (Z.to_nat s2) (a_data array)))
  | _ => Raise ValueError
  end.

(** What [get_value] returns: the raw value, or strings for an array of characters. *)
Inductive read_value : Type :=
| Raw (v : value)
| Text (s : pystr).

Definition get_value_of (raw_val : value) (raw : bool) : py read_value :=
  match raw_val with
  | Some a =>
      if negb raw && bool_decide (a_type a = T_C1) then Text <$> _np_to_string a else Ret (Raw raw_val)
  | None => Ret (Raw raw_val)
  end.

Definition get_value_type_of (val : value) : string :=
  match val with None => "MT" | Some a => dtype_to_cgns (a_type a) end.

Definition get_value_kind_of (val : value) : string :=
  let val_type := get_value_type_of val in
  if bool_decide (val_type <> "MT") then String.substring 0 1 val_type else val_type.

(** [is_valid_value] of [node/check.py] *)
Definition is_valid_value (val : value) : bool :=
  match val with
  | None => true
  | Some a => if bool_decide (1 < zlen (a_shape a)) then a_fcontiguous a else true
  end.

(** ** Lemmas: characters *)

Lemma code_char_code c : code_char (char_code c) = c.
Proof. unfold code_char, char_code. by rewrite N2Z.id, ascii_N_embedding. Qed.

Lemma decode_codes s : code_char <$> codes s = String.list_ascii_of_string s.
Proof.
  unfold codes. induction (String.list_ascii_of_string s) as [|c l IH]; [done|].
  rewrite !fmap_cons, code_char_code. by f_equal.
Qed.

Lemma of_codes_codes s : of_codes (codes s) = s.
Proof. unfold of_codes. rewrite decode_codes. apply String.string_of_list_ascii_of_string. Qed.

Lemma length_codes s : length (codes s) = String.length s.
Proof. unfold codes. rewrite length_fmap. induction s; cbn; auto. Qed.

Lemma lstrip_spaces n l : lstrip (replicate n " "%char ++ l) = lstrip l.
Proof. induction n; cbn; auto. Qed.

(** Padding with spaces does not change the stripped string. *)
Lemma strip_pad_codes s n : strip (of_codes (codes s ++ replicate n 32)) = strip s.
Proof.
  unfold strip, of_codes. rewrite String.list_ascii_of_string_of_list_ascii, fmap_app, fmap_replicate.
  change (code_char 32) with " "%char. by rewrite reverse_app, reverse_replicate, lstrip_spaces, decode_codes.
Qed.

Lemma strip_spaces n : strip (of_codes (replicate n 32)) = "".
Proof. exact (strip_pad_codes "" n). Qed.

Lemma length_pad s : (String.length s <= CGNS_STR_SIZE)%nat -> length (pad s) = CGNS_STR_SIZE.
Proof. intros. unfold pad. rewrite length_app, length_codes, length_replicate. lia. Qed.

Lemma length_pads ss :
  Forall (fun x => String.length x <= CGNS_STR_SIZE)%nat ss ->
  length (concat (pad <$> ss)) = (CGNS_STR_SIZE * length ss)%nat.
Proof.
  induction 1 as [|x ss Hx Hss IH]; [cbn; lia|]. rewrite fmap_cons. cbn [concat].
  rewrite length_app, length_pad, IH by done. cbn [length]. lia.
Qed.

(** ** Lemmas: blocks of equal size *)

Lemma blocks_concat size (ls : list (list Z)) rest :
  Forall (fun l => length l = size) ls -> blocks size (length ls) (concat ls ++ rest) = ls.
Proof.
  intros H. unfold blocks. revert rest. induction H as [|l ls Hl Hls IH]; intros rest; [done|].
  cbn [length seq]. rewrite fmap_cons. cbn [concat]. f_equal.
  - cbn. rewrite <- (assoc (++)), <- Hl, drop_0. by rewrite take_app_length.
  - rewrite <- fmap_S_seq, <- list_fmap_compose. rewrite <- (IH rest) at 2. apply list_fmap_ext.
    intros ? i _. cbn. f_equal. rewrite <- (assoc (++)), drop_app_ge by lia. f_equal. lia.
Qed.

Lemma concat_replicate_nil (n k : nat) (x : Z) : concat (replicate n (replicate k x)) = replicate (k * n) x.
Proof.
  induction n as [|n IH]; [by rewrite Nat.mul_0_r|]. cbn. rewrite IH, <- replicate_add. f_equal. lia.
Qed.

(** ** Properties *)

(** The strings read back from a list padded to [n] entries. *)
Definition stripped (n : nat) (ss : list string) : pystr :=
  StrList ((fun s => Str (strip s)) <$> (ss ++ replicate (n - length ss) "")).

Lemma string2_pads (n : nat) ss :
  Forall (fun s => String.length s <= CGNS_STR_SIZE)%nat ss -> (length ss <= n)%nat ->
  string2 CGNS_STR_SIZE n (concat (pad <$> ss) ++ replicate (CGNS_STR_SIZE * (n - length ss)) 32) =
  stripped n ss.
Proof.
  intros Hss Hn. unfold string2, stripped.
  set (all := ss ++ replicate (n - length ss) "").
  assert (Hall : Forall (fun s => String.length s <= CGNS_STR_SIZE)%nat all).
  { apply Forall_app. split; [done|]. apply Forall_replicate. cbn. lia. }
  assert (Hc : concat (pad <$> ss) ++ replicate (CGNS_STR_SIZE * (n - length ss)) 32 = concat (pad <$> all) ++ []).
  { rewrite app_nil_r. unfold all. rewrite fmap_app, concat_app, fmap_replicate. f_equal.
    symmetry. apply (concat_replicate_nil _ CGNS_STR_SIZE). }
  assert (Hlen : n = length (pad <$> all)).
  { unfold all. rewrite length_fmap, length_app, length_replicate. lia. }
  rewrite Hc, Hlen at 1. rewrite blocks_concat.
  - f_equal. rewrite <- list_fmap_compose. apply list_fmap_ext. intros i s _.
    unfold string1, compose, pad. by rewrite strip_pad_codes.
  - rewrite Forall_fmap. eapply Forall_impl; [exact Hall|]. intros s Hs. by apply length_pad.
Qed.

Lemma lens_ok ss :
  Forall (fun x => String.length x <= CGNS_STR_SIZE)%nat ss ->
  forallb (fun s => Nat.leb (String.length s) CGNS_STR_SIZE) ss = true.
Proof. induction 1; cbn; [done|]. rewrite IHForall, andb_true_r. by apply Nat.leb_le. Qed.

Lemma blocks_strings n (lss : list (list string)) :
  (forall ss, ss ∈ lss -> (length ss <= n)%nat) ->
  Forall (fun x => String.length x <= CGNS_STR_SIZE)%nat (concat lss) ->
  string2 CGNS_STR_SIZE n <$> blocks (CGNS_STR_SIZE * n) (length lss)
    (concat ((fun ss => concat (pad <$> ss) ++ replicate (CGNS_STR_SIZE * (n - length ss)) 32) <$> lss)) =
  stripped n <$> lss.
Proof.
  intros Hn Hlen. assert (Hss : forall ss, ss ∈ lss -> Forall (fun x => String.length x <= CGNS_STR_SIZE)%nat ss).
  { intros ss Hin. rewrite Forall_forall in Hlen |- *. intros x Hx. apply Hlen, elem_of_concat. eauto. }
  set (f := fun ss => _). rewrite <- (app_nil_r (concat (f <$> lss))), <- (length_fmap f lss).
  rewrite blocks_concat.
  - rewrite <- list_fmap_compose. apply list_fmap_ext. intros i ss Hin%list_elem_of_lookup_2.
    apply string2_pads; auto.
  - rewrite Forall_fmap. apply Forall_forall. intros ss Hin. unfold compose, f.
    specialize (Hn ss Hin). rewrite length_app, length_replicate, (length_pads ss) by auto.
    rewrite <- Nat.mul_add_distr_l. f_equal. lia.
Qed.

(** Text values round trip.  Storing ASCII strings of at most 32 characters (a string, a list of
    strings, or a list of lists of strings) and reading the value back returns the strings without
    their surrounding spaces, the inner lists being completed by empty strings to a common length. *)
Theorem text_value_roundtrip to_float32 (s : string) ls lss :
  is_ascii s = true ->
  ls <> [] -> Forall (fun x => String.length x <= CGNS_STR_SIZE)%nat ls -> forallb is_ascii ls = true ->
  concat lss <> [] -> Forall (fun x => String.length x <= CGNS_STR_SIZE)%nat (concat lss) ->
  forallb is_ascii (concat lss) = true ->
  (v ← _convert_value to_float32 (PStr s); get_value_of v false) = Ret (Text (Str (strip s))) /\
  (v ← _convert_value to_float32 (PStrs ls); get_value_of v false) =
    Ret (Text (StrList ((fun x => Str (strip x)) <$> ls))) /\
  exists n, py_max (zlen <$> lss) = Ret n /\
  (v ← _convert_value to_float32 (PStrss lss); get_value_of v false) =
    Ret (Text (StrList (stripped (Z.to_nat n) <$> lss))).
Proof.
  intros Hs Hne Hls Hasc Hne2 Hlss Hasc2. split_and!.
  - cbn [_convert_value]. rewrite Hs. cbn. unfold string1. by rewrite of_codes_codes.
  - cbn [_convert_value]. destruct ls as [|l0 ls0] eqn:E; [done|]. rewrite <- E in *. clear Hne.
    rewrite lens_ok, Hasc by done. cbn [py_assert mbind py_bind get_value_of negb andb].
    rewrite bool_decide_eq_true_2 by done. unfold _np_to_string. cbn [a_shape a_data fmap py_fmap].
    unfold zlen. rewrite !Nat2Z.id. do 2 f_equal.
    pose proof (string2_pads (length ls) ls Hls ltac:(done)) as H2.
    rewrite Nat.sub_diag, Nat.mul_0_r, app_nil_r in H2. rewrite H2. unfold stripped.
    by rewrite Nat.sub_diag, app_nil_r.
  - destruct lss as [|ss0 lss0] eqn:E; [done|]. rewrite <- E in *.
    assert (exists n, py_max (zlen <$> lss) = Ret n) as [n Hn] by (rewrite E; cbn; eauto).
    exists n. split; [done|]. cbn [_convert_value]. destruct (concat lss) as [|x0 xs0] eqn:Ec; [done|].
    rewrite <- Ec in *. rewrite lens_ok, Hasc2, Hn by done.
    cbn [py_assert mbind py_bind get_value_of negb andb].
    rewrite bool_decide_eq_true_2 by done. unfold _np_to_string. cbn [a_shape a_data fmap py_fmap].
    unfold zlen. rewrite !Nat2Z.id. do 3 f_equal. apply blocks_strings; [|done].
    intros ss Hss. pose proof (py_max_spec _ _ Hn (zlen ss)) as Hle. unfold zlen in Hle.
    specialize (Hle ltac:(apply list_elem_of_fmap; eauto)). lia.
Qed.

Lemma text_value_roundtrip_witness :
  (v ← _convert_value (fun x => x) (PStrs ["Base "; "Zone"]); get_value_of v false) =
  Ret (Text (StrList [Str "Base"; Str "Zone"])).
Proof.
  destruct (text_value_roundtrip (fun x => x) "abc" ["Base "; "Zone"] [["a"; "b"]; ["c"]]) as (_ & H & _);
    try exact H; try done; repeat constructor; cbn; lia.
Defined.

Lemma np_nested_leaves l :
  (fix go l := match l with
               | [] => Ret []
               | x :: l' => y ← np_nested x; ys ← go l'; Ret (y :: ys)
               end) (Leaf <$> l) = Ret ((fun z => ([], [z])) <$> l).
Proof. induction l as [|z l IH]; [done|]. cbn in *. by rewrite IH. Qed.

Lemma np_nested_flat (l : list Z) : np_nested (Nest (Leaf <$> l)) = Ret ([zlen l], l).
Proof.
  cbn [np_nested]. rewrite np_nested_leaves. cbn [mbind py_bind]. unfold stack.
  destruct l as [|z l]; [done|]. rewrite fmap_cons.
  replace (forallb _ _) with true.
  - cbn [length transpose_data]. rewrite app_nil_r. unfold zlen. cbn [length]. rewrite length_fmap. do 2 f_equal.
    cbn. f_equal. clear. induction l as [|x l IH]; [done|]. cbn. by f_equal.
  - symmetry. apply forallb_forall. intros x Hx. apply list_elem_of_In in Hx.
    apply elem_of_cons in Hx as [->|(y & -> & _)%list_elem_of_fmap]; done.
Qed.

Lemma flatten_leaves (l : list Z) : _flatten (Leaf <$> l) = l.
Proof. unfold _flatten. induction l as [|z l IH]; [done|]. cbn. by f_equal. Qed.

Lemma mapM_cast_int d l :
  mapM (cast_int d) l = if bool_decide (Forall (in_dtype d) l) then Ret l else Raise OverflowError.
Proof.
  induction l as [|z l IH]; [done|]. cbn [mapM]. rewrite IH. clear IH. unfold cast_int.
  destruct (decide (in_dtype d z)) as [Hz|Hz].
  - rewrite (bool_decide_eq_true_2 (in_dtype d z)) by done. cbn [mbind py_bind].
    destruct (decide (Forall (in_dtype d) l)).
    + rewrite !bool_decide_eq_true_2 by auto. done.
    + rewrite (bool_decide_eq_false_2 (Forall _ l)) by done.
      rewrite bool_decide_eq_false_2; [done|]. by intros [_ ?]%Forall_cons.
  - rewrite (bool_decide_eq_false_2 (in_dtype d z)) by done.
    rewrite (bool_decide_eq_false_2 (Forall _ (z :: l))); [done|]. by intros [? _]%Forall_cons.
Qed.

(** C39: A non-empty sequence of Python integers becomes a one-dimensional array holding the same
    integers, of type I4 exactly when all the absolute values are lower than the largest int32
    (which is itself stored as I8), of type I8 otherwise, and OverflowError is raised when one of
    them does not fit in 64 bits; a single integer is converted as the sequence of that integer. *)
Theorem int_value_spec to_float32 z l :
  _convert_value to_float32 (PInts (Leaf <$> (z :: l))) =
    (if bool_decide (Forall (fun x => Z.abs x < iinfo_max Prelude.I4) (z :: l))
     then Ret (Some (NpArray T_I4 [zlen (z :: l)] true (z :: l)))
     else if bool_decide (Forall (in_dtype Prelude.I8) (z :: l))
     then Ret (Some (NpArray T_I8 [zlen (z :: l)] true (z :: l)))
     else Raise OverflowError) /\
  _convert_value to_float32 (PInt z) = _convert_value to_float32 (PInts [Leaf z]).
Proof.
  assert (Hl : forall z l, _convert_value to_float32 (PInts (Leaf <$> (z :: l))) =
    (if bool_decide (Forall (fun x => Z.abs x < iinfo_max Prelude.I4) (z :: l))
     then Ret (Some (NpArray T_I4 [zlen (z :: l)] true (z :: l)))
     else if bool_decide (Forall (in_dtype Prelude.I8) (z :: l))
     then Ret (Some (NpArray T_I8 [zlen (z :: l)] true (z :: l)))
     else Raise OverflowError)).
  { clear. intros z l. cbn [_convert_value]. rewrite flatten_leaves. cbn [fmap list_fmap py_max mbind py_bind].
    assert (Hm : foldl Z.max (Z.abs z) (Z.abs <$> l) < iinfo_max Prelude.I4 <->
                 Forall (fun x => Z.abs x < iinfo_max Prelude.I4) (z :: l)).
    { rewrite foldl_max_lt_iff, Forall_cons, Forall_fmap. done. }
    unfold int_type, np_array. rewrite (bool_decide_ext _ _ Hm). change (list_fmap _ _ Leaf l) with (Leaf <$> l).
    rewrite <- (fmap_cons Leaf z l). case_bool_decide as H; rewrite np_nested_flat;
      cbn [mbind py_bind fst snd]; rewrite mapM_cast_int.
    - rewrite bool_decide_eq_true_2; [done|]. eapply Forall_impl; [exact H|]. intros x Hx.
      unfold in_dtype, iinfo_min, iinfo_max in *. cbn in *. lia.
    - by case_bool_decide. }
  split; [apply Hl|]. rewrite (Hl z [] : _convert_value to_float32 (PInts [Leaf z]) = _).
  cbn [_convert_value]. unfold int_type, cast_int. rewrite !(bool_decide_ext _ _ (Forall_singleton _ _)).
  repeat case_bool_decide; try done. unfold in_dtype, iinfo_min, iinfo_max in *. cbn in *. lia.
Qed.

End Values.
