(* ===== verification/Conventions.v ===== *)
(** * Naming conventions: [maia/pytree/maia/conventions.py]

    The names of partitioned zones and joins carry ranks and partition numbers.  The decimal printing
    and reading of integers by [str], f-strings and [int] are modelled first, on ASCII strings. *)
From Stdlib Require Import Ascii.
From S2P Require Import Prelude Values.

Local Open Scope Z_scope.

Module Conventions.
Import Values.

(** ** Integers as strings *)

Definition digit_char (d : Z) : ascii := code_char (48 + d).
Definition is_digit (c : ascii) : bool := bool_decide (48 <= char_code c <= 57).
Definition digit_value (c : ascii) : Z := char_code c - 48.

(** The decimal digits of [n], before those of [acc]. *)
Fixpoint digits_loop (fuel : nat) (n : Z) (acc : list ascii) : list ascii :=
  match fuel with
  | O => acc
  | S fuel' =>
      let acc := digit_char (n mod 10) :: acc in
      if n <? 10 then acc else digits_loop fuel' (n / 10) acc
  end.
Definition digits (n : Z) : list ascii := digits_loop (S (Z.to_nat (Z.log2 n))) n [].

(** [str(z)] *)
Definition str_chars (z : Z) : list ascii := if z <? 0 then "-"%char :: digits (- z) else digits z.
Definition str_int (z : Z) : string := String.string_of_list_ascii (str_chars z).

(** Digits, possibly grouped by single underscores. *)
Fixpoint read_digits (acc : Z) (l : list ascii) : py Z :=
  match l with
  | [] => Ret acc
  | c :: l' =>
      if is_digit c then read_digits (10 * acc + digit_value c) l'
      else match l' with
           | c' :: l'' =>
               if bool_decide (c = "_"%char) && is_digit c'
               then read_digits (10 * acc + digit_value c') l'' else Raise ValueError
           | [] => Raise ValueError
           end
  end.
Definition read_unsigned (l : list ascii) : py Z :=
  match l with
  | c :: l' => if is_digit c then read_digits (digit_value c) l' else Raise ValueError
  | [] => Raise ValueError
  end.
(** [int(s)] *)
Definition int_str (s : string) : py Z :=
  match String.list_ascii_of_string (strip s) with
  | "-"%char :: l => Z.opp <$> read_unsigned l
  | "+"%char :: l => read_unsigned l
  | l => read_unsigned l
  end.

(** [s.startswith(prefix)] and [s[1:]] *)
Definition startswith (s prefix : string) : bool := String.prefix prefix s.
Definition drop1 (s : string) : string := match s with EmptyString => EmptyString | String _ s' => s' end.

(** ** Partitioned zones *)
Definition dot : ascii := "."%char.

Definition add_part_suffix (name : string) (i_proc i_part : Z) : string :=
  name +:+ ".P" +:+ str_int i_proc +:+ ".N" +:+ str_int i_part.

Definition get_part_prefix (name : string) : py string :=
  let split := py_split dot name in
  _ ← py_assert (3 <=? zlen split);
  Ret (py_join dot (slice_to split (-2))).

Definition get_part_suffix (name : string) : py (Z * Z) :=
  let split := py_split dot name in
  _ ← py_assert (3 <=? zlen split);
  p ← py_get split (-2);
  n ← py_get split (-1);
  _ ← py_assert (startswith p "P" && startswith n "N");
  i ← int_str (drop1 p);
  j ← int_str (drop1 n);
  Ret (i, j).

(** ** Split nodes *)
Definition add_split_suffix (name : string) (count : Z) : string := name +:+ "." +:+ str_int count.

Definition get_split_prefix (name : string) : py string :=
  let split := py_split dot name in
  _ ← py_assert (2 <=? zlen split);
  Ret (py_join dot (slice_to split (-1))).

Definition get_split_suffix (name : string) : py string :=
  let split := py_split dot name in
  _ ← py_assert (2 <=? zlen split);
  py_get split (-1).

(** ** Joins created by the partitioning *)
Definition name_intra_gc (cur_proc cur_part opp_proc opp_part : Z) : string :=
  "JN.P" +:+ str_int cur_proc +:+ ".N" +:+ str_int cur_part +:+
  ".LT.P" +:+ str_int opp_proc +:+ ".N" +:+ str_int opp_part.

(** The pieces of the pattern of [is_intra_gc]: a literal, or [\d+], which takes every digit. *)
Inductive piece : Set := Lit (l : string) | Digits.
Fixpoint skip_digits (l : list ascii) : list ascii :=
  match l with c :: l' => if is_digit c then skip_digits l' else l | [] => [] end.
Fixpoint skip_literal (lit l : list ascii) : option (list ascii) :=
  match lit, l with
  | [], _ => Some l
  | c :: lit', d :: l' => if bool_decide (c = d) then skip_literal lit' l' else None
  | _ :: _, [] => None
  end.
(** [re.match]: the pattern is matched at the start of the string, not to its end. *)
Fixpoint matches (p : list piece) (l : list ascii) : bool :=
  match p with
  | [] => true
  | Lit lit :: p' =>
      match skip_literal (String.list_ascii_of_string lit) l with
      | Some l' => matches p' l'
      | None => false
      end
  | Digits :: p' =>
      match l with
      | c :: l' => is_digit c && matches p' (skip_digits l')
      | [] => false
      end
  end.
Definition intra_gc_pattern : list piece :=
  [Lit "JN.P"; Digits; Lit ".N"; Digits; Lit ".LT.P"; Digits; Lit ".N"; Digits].
Definition is_intra_gc (gc_name : string) : bool := matches intra_gc_pattern (String.list_ascii_of_string gc_name).

(** ** Lemmas: printing and reading integers *)

Lemma char_code_char z : 0 <= z < 256 -> char_code (code_char z) = z.
Proof.
  intros Hz. unfold char_code, code_char. rewrite N_ascii_embedding by lia. by rewrite Z2N.id by lia.
Qed.

Lemma digit_char_spec d : 0 <= d < 10 -> is_digit (digit_char d) = true /\ digit_value (digit_char d) = d.
Proof.
  intros Hd. unfold is_digit, digit_value, digit_char. rewrite char_code_char by lia.
  split; [by apply bool_decide_eq_true_2; lia|lia].
Qed.

Lemma digits_loop_spec fuel n acc :
  0 <= n -> Z.log2 n < Z.of_nat fuel ->
  exists l, digits_loop fuel n acc = l ++ acc /\ l <> [] /\ Forall (fun c => is_digit c = true) l /\
    forall k, read_digits 0 (l ++ k) = read_digits n k.
Proof.
  revert n acc. induction fuel as [|fuel IH]; intros n acc Hn Hf; [pose proof (Z.log2_nonneg n); lia|].
  cbn [digits_loop]. pose proof (Z.mod_pos_bound n 10 ltac:(lia)) as Hm. pose proof (Z.div_mod n 10 ltac:(lia)) as Hd.
  destruct (digit_char_spec (n mod 10) Hm) as [Hdig Hval]. destruct (Z.ltb_spec n 10) as [Hlt|Hge].
  - exists [digit_char (n mod 10)]. split_and!; [done|done|by repeat constructor|].
    intros k. cbn [app read_digits]. rewrite Hdig, Hval. f_equal. rewrite Z.mod_small by lia. lia.
  - destruct (IH (n / 10) (digit_char (n mod 10) :: acc)) as (l & E & Hne & Hl & Hr).
    + apply Z.div_pos; lia.
    + assert (Hlog : Z.log2 (n / 10) < Z.log2 n); [|lia].
      apply Z.log2_lt_pow2; [lia|]. pose proof (Z.log2_spec n ltac:(lia)) as [_ H2].
      rewrite Z.pow_succ_r in H2 by apply Z.log2_nonneg. lia.
    + exists (l ++ [digit_char (n mod 10)]). split_and!.
      * rewrite E. by rewrite <- (assoc (++)).
      * by destruct l.
      * apply Forall_app. split; [done|by repeat constructor].
      * intros k. rewrite <- (assoc (++)), Hr. cbn [app read_digits]. rewrite Hdig, Hval. f_equal. lia.
Qed.

Lemma digits_spec n :
  0 <= n -> digits n <> [] /\ Forall (fun c => is_digit c = true) (digits n) /\
  forall k, read_digits 0 (digits n ++ k) = read_digits n k.
Proof.
  intros Hn. unfold digits. destruct (digits_loop_spec (S (Z.to_nat (Z.log2 n))) n [] Hn) as (l & E & H).
  - pose proof (Z.log2_nonneg n). lia.
  - rewrite E, app_nil_r. exact H.
Qed.

Lemma read_unsigned_digits n : 0 <= n -> read_unsigned (digits n) = Ret n.
Proof.
  intros Hn. destruct (digits_spec n Hn) as (Hne & Hd & Hr). specialize (Hr []). rewrite app_nil_r in Hr.
  destruct (digits n) as [|c l]; [done|]. apply Forall_cons in Hd as [Hc _]. cbn [read_unsigned read_digits] in *.
  rewrite Hc in *. exact Hr.
Qed.

Definition plain (c : ascii) : bool := is_digit c || bool_decide (c = "-"%char).

Lemma str_plain z : str_chars z <> [] /\ Forall (fun c => plain c = true) (str_chars z).
Proof.
  unfold str_chars, plain. destruct (Z.ltb_spec z 0) as [Hz|Hz].
  - split; [done|]. constructor; [done|]. destruct (digits_spec (- z)) as (_ & H & _); [lia|].
    eapply Forall_impl; [exact H|]. by intros c ->.
  - destruct (digits_spec z) as (? & H & _); [lia|]. split; [done|]. eapply Forall_impl; [exact H|]. by intros c ->.
Qed.

Lemma plain_not_space c : plain c = true -> is_space c = false.
Proof.
  unfold plain, is_digit. intros [H%bool_decide_eq_true| ->%bool_decide_eq_true]%orb_true_iff; [|done].
  unfold is_space. by rewrite !bool_decide_eq_false_2 by lia.
Qed.

Lemma lstrip_plain l : Forall (fun c => plain c = true) l -> lstrip l = l.
Proof. destruct 1 as [|c l Hc _]; [done|]. cbn. by rewrite (plain_not_space c Hc). Qed.

Lemma str_int_roundtrip z : int_str (str_int z) = Ret z.
Proof.
  unfold int_str, str_int, strip. destruct (str_plain z) as [_ Hp].
  rewrite !String.list_ascii_of_string_of_list_ascii, (lstrip_plain (reverse (str_chars z))), reverse_involutive, lstrip_plain;
    [|done|by apply Forall_reverse].
  unfold str_chars. destruct (Z.ltb_spec z 0) as [Hz|Hz].
  - rewrite read_unsigned_digits by lia. cbn. f_equal. lia.
  - pose proof (read_unsigned_digits z Hz) as H. destruct (digits_spec z Hz) as (Hne & Hd & _).
    destruct (digits z) as [|c l]; [done|]. apply Forall_cons in Hd as [Hc _].
    destruct c as [[] [] [] [] [] [] [] []]; try exact H; discriminate Hc.
Qed.

(** ** Lemmas: splitting at dots *)

Lemma split_chars_sep sep acc l k :
  split_chars sep acc (l ++ sep :: k) = split_chars sep acc l ++ split_chars sep [] k.
Proof.
  revert acc. induction l as [|c l IH]; intros acc; cbn [app split_chars].
  - by rewrite bool_decide_eq_true_2.
  - case_bool_decide; rewrite IH; done.
Qed.

Lemma chars_app s t :
  String.list_ascii_of_string (s +:+ t) = String.list_ascii_of_string s ++ String.list_ascii_of_string t.
Proof. induction s as [|c s IH]; [done|]. exact (f_equal (cons c) IH). Qed.

Lemma py_split_sep sep s t :
  py_split sep (s +:+ String sep t) = py_split sep s ++ py_split sep t.
Proof. unfold py_split. rewrite chars_app. cbn. by rewrite split_chars_sep, fmap_app. Qed.

Lemma py_split_single sep s : sep ∉ String.list_ascii_of_string s -> py_split sep s = [s].
Proof.
  intros Hs. unfold py_split. rewrite <- (app_nil_r (String.list_ascii_of_string s)), split_chars_app by done.
  cbn. by rewrite app_nil_r, reverse_involutive, chars_of_string.
Qed.

Lemma dot_not_plain l : Forall (fun c => plain c = true) l -> dot ∉ l.
Proof. intros H Hd. rewrite Forall_forall in H. by apply H in Hd. Qed.

Lemma dot_not_str z : dot ∉ String.list_ascii_of_string (str_int z).
Proof.
  unfold str_int. rewrite String.list_ascii_of_string_of_list_ascii. apply dot_not_plain, str_plain.
Qed.

Lemma string_app_assoc (a b c : string) : (a +:+ b) +:+ c = a +:+ b +:+ c.
Proof. induction a as [|x a IH]; [done|]. exact (f_equal (String x) IH). Qed.

Lemma part_suffix_split name i j :
  py_split dot (add_part_suffix name i j) =
  (py_split dot name ++ ["P" +:+ str_int i]) ++ ["N" +:+ str_int j].
Proof.
  unfold add_part_suffix. change (".P" +:+ str_int i +:+ ".N" +:+ str_int j)
    with (String dot (("P" +:+ str_int i) +:+ String dot ("N" +:+ str_int j))).
  rewrite py_split_sep, py_split_sep, <- (assoc (++)). do 2 f_equal; apply py_split_single; cbn; apply not_elem_of_cons;
    (split; [done|apply dot_not_str]).
Qed.

Lemma slice_to_snoc {A} (l : list A) x : slice_to (l ++ [x]) (-1) = l.
Proof.
  unfold slice_to, clamp. rewrite bool_decide_eq_true_2 by lia. rewrite length_app. cbn.
  replace (Z.to_nat _) with (length l) by lia. apply take_app_length.
Qed.
Lemma slice_to_snoc2 {A} (l : list A) x y : slice_to ((l ++ [x]) ++ [y]) (-2) = l.
Proof.
  unfold slice_to, clamp. rewrite bool_decide_eq_true_2 by lia. rewrite !length_app. cbn.
  replace (Z.to_nat _) with (length l) by lia. by rewrite <- (assoc (++)), take_app_length.
Qed.
Lemma py_get_snoc {A} (l : list A) x : py_get (l ++ [x]) (-1) = Ret x.
Proof.
  unfold py_get, norm_index. rewrite length_app. cbn. rewrite bool_decide_eq_false_2, bool_decide_eq_true_2 by lia.
  replace (Z.to_nat _) with (length l) by lia. by rewrite list_lookup_middle.
Qed.
Lemma py_get_snoc2 {A} (l : list A) x y : py_get ((l ++ [x]) ++ [y]) (-2) = Ret x.
Proof.
  unfold py_get, norm_index. rewrite !length_app. cbn. rewrite bool_decide_eq_false_2, bool_decide_eq_true_2 by lia.
  replace (Z.to_nat _) with (length l) by lia. rewrite <- (assoc (++)). cbn [app]. by rewrite list_lookup_middle.
Qed.

Lemma py_split_ne sep s : py_split sep s <> [].
Proof. unfold py_split. intros H%fmap_nil_inv. by apply split_chars_ne in H. Qed.

Lemma startswith_first c s : startswith (String c "" +:+ s) (String c "") = true.
Proof. change (String.prefix (String c "") (String c s) = true). cbn. destruct (ascii_dec c c); [by destruct s|done]. Qed.

Lemma skip_literal_app lit l : skip_literal lit (lit ++ l) = Some l.
Proof. induction lit as [|c lit IH]; [done|]. cbn. by rewrite bool_decide_eq_true_2. Qed.

Lemma skip_digits_app d l :
  Forall (fun c => is_digit c = true) d -> skip_digits (d ++ l) = skip_digits l.
Proof. induction 1 as [|c d Hc _ IH]; [done|]. cbn. by rewrite Hc. Qed.

Lemma matches_lit lit p l :
  matches (Lit lit :: p) (String.list_ascii_of_string lit ++ l) = matches p l.
Proof. cbn. by rewrite skip_literal_app. Qed.

Lemma matches_digits p n l :
  0 <= n -> matches (Digits :: p) (str_chars n ++ l) = matches p (skip_digits l).
Proof.
  intros Hn. unfold str_chars. destruct (Z.ltb_spec n 0); [lia|]. destruct (digits_spec n Hn) as (Hne & Hd & _).
  destruct (digits n) as [|c d]; [done|]. apply Forall_cons in Hd as [Hc Hd]. cbn. by rewrite Hc, skip_digits_app.
Qed.

Lemma matches_digits_lit c lit p n l :
  0 <= n -> is_digit c = false ->
  matches (Digits :: Lit (String c lit) :: p) (str_chars n ++ String.list_ascii_of_string (String c lit) ++ l) =
  matches p l.
Proof.
  intros Hn Hc. rewrite matches_digits by done. rewrite <- (matches_lit (String c lit) p l). f_equal. cbn. by rewrite Hc.
Qed.

Lemma zlen_py_split sep s : 1 <= zlen (py_split sep s).
Proof. pose proof (py_split_ne sep s). unfold zlen. destruct (py_split sep s); [done|cbn; lia]. Qed.

Lemma get_part_suffix_add name i j : get_part_suffix (add_part_suffix name i j) = Ret (i, j).
Proof.
  unfold get_part_suffix. rewrite part_suffix_split, !zlen_app. cbn [zlen length]. pose proof (zlen_py_split dot name). unfold zlen in *. cbn [length].
  rewrite (proj2 (Z.leb_le _ _)) by lia. cbn [py_assert mbind py_bind]. rewrite py_get_snoc2, py_get_snoc. cbn [mbind py_bind].
  change (drop1 ("P" +:+ str_int i)) with (str_int i). change (drop1 ("N" +:+ str_int j)) with (str_int j).
  by rewrite (startswith_first "P"), (startswith_first "N"), !str_int_roundtrip.
Qed.

(** The names of the partitions of a zone are distinct. *)
Lemma add_part_suffix_inj name i j i' j' : add_part_suffix name i j = add_part_suffix name i' j' -> i = i' /\ j = j'.
Proof. intros H. pose proof (get_part_suffix_add name i j) as E. rewrite H, get_part_suffix_add in E. by injection E as -> ->. Qed.

(** ** Properties *)

(** The suffix of a partitioned zone is read back as it was written, and the name of the original zone
    is recovered, whatever characters it has (dots included); the same holds of split nodes. *)
Theorem part_suffix_roundtrip name i j :
  get_part_suffix (add_part_suffix name i j) = Ret (i, j) /\
  get_part_prefix (add_part_suffix name i j) = Ret name /\
  get_split_prefix (add_split_suffix name i) = Ret name /\
  get_split_suffix (add_split_suffix name i) = Ret (str_int i) /\ int_str (str_int i) = Ret i.
Proof.
  rewrite get_part_suffix_add. pose proof (zlen_py_split dot name) as Hne.
  unfold get_part_prefix, get_split_prefix, get_split_suffix. rewrite part_suffix_split.
  change (add_split_suffix name i) with (name +:+ String dot (str_int i)).
  rewrite py_split_sep, (py_split_single dot (str_int i)) by apply dot_not_str.
  rewrite !zlen_app. cbn [zlen length]. unfold zlen in *. cbn [length].
  rewrite !(proj2 (Z.leb_le _ _)) by lia. cbn [py_assert mbind py_bind].
  rewrite slice_to_snoc2, slice_to_snoc, !py_get_snoc, py_join_split. cbn [mbind py_bind].
  rewrite !str_int_roundtrip. by split_and!.
Qed.

(** The joins between partitions are recognised by their name. *)
Theorem intra_gc_recognised i ip j jp :
  0 <= i -> 0 <= ip -> 0 <= j -> 0 <= jp -> is_intra_gc (name_intra_gc i ip j jp) = true.
Proof.
  intros. unfold is_intra_gc, intra_gc_pattern, name_intra_gc. rewrite !chars_app. unfold str_int.
  rewrite !String.list_ascii_of_string_of_list_ascii.
  rewrite <- (app_nil_r (str_chars jp)).
  rewrite matches_lit, !matches_digits_lit, matches_digits by done. done.
Qed.

Lemma intra_gc_recognised_witness : is_intra_gc (name_intra_gc 0 2 13 0) = true /\ is_intra_gc "JN.P0.N" = false.
Proof. split; [apply (intra_gc_recognised 0 2 13 0); lia|reflexivity]. Defined.

End Conventions.
