(* ===== verification/Fnmatch.v ===== *)
(** * Shell patterns: Python's [fnmatch.fnmatch]

    Node names and labels are matched with [fnmatch.fnmatch] by [maia/pytree/walk/predicate.py]
    ([match_name], [match_str_label]).  The standard library function is modelled here on a POSIX
    system: [*], [?] and bracketed sets, a bracket without its end being an ordinary character. *)
From Stdlib Require Import Ascii.
From S2P Require Import Prelude.

Module Fnmatch.

Abbreviation chars := (list ascii).

(** An element of a bracketed set: a range of characters ([c-c] for a single one). *)
Inductive token : Set :=
| Star
| Any
| Lit (c : ascii)
| OneOf (negated : bool) (ranges : list (ascii * ascii)).

#[export] Instance token_eq_dec : EqDecision token.
Proof. solve_decision. Defined.

(** The content of a bracket, split into ranges: a hyphen between two characters makes a range, at
    either end it stands for itself. *)
Fixpoint ranges_of (stuff : chars) : list (ascii * ascii) :=
  match stuff with
  | c :: (("-"%char :: d :: stuff') as rest) => (c, d) :: ranges_of stuff'
  | c :: rest => (c, c) :: ranges_of rest
  | [] => []
  end.

Fixpoint split_bracket (l : chars) : option (chars * chars) :=
  match l with
  | [] => None
  | "]"%char :: l' => Some ([], l')
  | c :: l' => match split_bracket l' with
               | Some (stuff, rest) => Some (c :: stuff, rest)
               | None => None
               end
  end.

(** What follows an opening bracket: the set and the rest of the pattern.  A closing bracket in
    first position, after the negation mark if any, belongs to the set. *)
Definition bracket (l : chars) : option (token * chars) :=
  let '(neg, l) := match l with "!"%char :: l' => (true, l') | _ => (false, l) end in
  let '(first, l) := match l with "]"%char :: l' => (["]"%char], l') | _ => ([], l) end in
  match split_bracket l with
  | Some (stuff, rest) => Some (OneOf neg (ranges_of (first ++ stuff)), rest)
  | None => None
  end.

(** The pattern as tokens; the fuel is its length, one character at least being read per token. *)
Fixpoint translate (fuel : nat) (pat : chars) : list token :=
  match fuel, pat with
  | S fuel', c :: pat' =>
      match c with
      | "*"%char => Star :: translate fuel' pat'
      | "?"%char => Any :: translate fuel' pat'
      | "["%char =>
          match bracket pat' with
          | Some (t, rest) => t :: translate fuel' rest
          | None => Lit c :: translate fuel' pat'
          end
      | _ => Lit c :: translate fuel' pat'
      end
  | _, _ => []
  end.

Definition in_range (c : ascii) (r : ascii * ascii) : bool :=
  N.leb (N_of_ascii r.1) (N_of_ascii c) && N.leb (N_of_ascii c) (N_of_ascii r.2).

(** Whether a token other than [Star] accepts a character. *)
Definition accepts (t : token) (c : ascii) : bool :=
  match t with
  | Star | Any => true
  | Lit d => bool_decide (c = d)
  | OneOf neg rs => xorb neg (existsb (in_range c) rs)
  end.

Fixpoint matches (pat : list token) (s : chars) : bool :=
  match pat with
  | [] => match s with [] => true | _ => false end
  | Star :: pat' =>
      (fix star (s : chars) : bool :=
         matches pat' s || match s with [] => false | _ :: s' => star s' end) s
  | t :: pat' => match s with [] => false | c :: s' => accepts t c && matches pat' s' end
  end.

Definition fnmatch (name pat : string) : bool :=
  let p := String.list_ascii_of_string pat in
  matches (translate (length p) p) (String.list_ascii_of_string name).

(** ** Patterns without special characters *)

Definition special (c : ascii) : bool := bool_decide (c = "*"%char \/ c = "?"%char \/ c = "["%char).
Definition plain (pat : string) : bool := forallb (fun c => negb (special c)) (String.list_ascii_of_string pat).

Lemma translate_plain l :
  forallb (fun c => negb (special c)) l = true -> translate (length l) l = Lit <$> l.
Proof.
  induction l as [|c l IH]; [done|]. cbn [forallb length]. intros [Hc Hl]%andb_prop.
  rewrite fmap_cons, <- (IH Hl). unfold special in Hc. rewrite negb_true_iff, bool_decide_eq_false in Hc.
  clear IH. cbn [translate]. destruct c as [[] [] [] [] [] [] [] []]; try done; naive_solver.
Qed.

Lemma matches_lits l s : matches (Lit <$> l) s = bool_decide (s = l).
Proof.
  revert s. induction l as [|c l IH]; intros [|d s]; try done. cbn [fmap list_fmap matches accepts].
  rewrite IH. repeat case_bool_decide; simplify_eq; try done; naive_solver.
Qed.

(** A pattern without special characters matches itself only. *)
Lemma fnmatch_plain name pat : plain pat = true -> fnmatch name pat = bool_decide (name = pat).
Proof.
  intros H. unfold fnmatch. rewrite translate_plain, matches_lits by exact H.
  apply bool_decide_ext. split; [|by intros ->]. intros E.
  rewrite <- (String.string_of_list_ascii_of_string name), E. apply String.string_of_list_ascii_of_string.
Qed.

(** [*] matches everything. *)
Lemma fnmatch_star name : fnmatch name "*" = true.
Proof.
  unfold fnmatch. cbn [String.list_ascii_of_string length translate matches].
  induction (String.list_ascii_of_string name) as [|c l IH]; [done|]. cbn. exact IH.
Qed.

(** ** Declarative semantics *)

(** The language of a pattern. *)
Inductive Matches : list token -> chars -> Prop :=
| M_nil : Matches [] []
| M_star pat u s : Matches pat s -> Matches (Star :: pat) (u ++ s)
| M_one t pat c s : t <> Star -> accepts t c = true -> Matches pat s -> Matches (t :: pat) (c :: s).

Lemma matches_star pat s :
  matches (Star :: pat) s = true <-> exists u s', s = u ++ s' /\ matches pat s' = true.
Proof.
  cbn. induction s as [|c s IH].
  - rewrite orb_false_r. split; [by exists [], []|]. by intros ([|] & [|] & ? & ?).
  - rewrite orb_true_iff, IH. split.
    + intros [H|(u & s' & -> & H)]; [by exists [], (c :: s)|]. by exists (c :: u), s'.
    + intros ([|d u] & s' & E & H); [left; by cbn in E; subst|]. right. injection E as <- ->. eauto.
Qed.

(** The matcher decides the language of the pattern. *)
Lemma matches_iff pat s : matches pat s = true <-> Matches pat s.
Proof.
  revert s. induction pat as [|t pat IH]; intros s.
  - split; [by destruct s; [constructor|]|]. by inversion 1.
  - destruct (decide (t = Star)) as [->|Ht].
    + rewrite matches_star. split.
      * intros (u & s' & -> & H). constructor. by apply IH.
      * inversion 1; subst; [|done]. do 2 eexists. split; [done|]. by apply IH.
    + assert (matches (t :: pat) s = match s with [] => false | c :: s' => accepts t c && matches pat s' end)
        as -> by by destruct t. destruct s as [|c s].
      * split; [done|]. inversion 1; subst; done.
      * rewrite andb_true_iff, IH. split; [intros [??]; by constructor|]. inversion 1; subst; done.
Qed.

End Fnmatch.
