(* ===== verification/Tree.v ===== *)
(** * CGNS nodes: [maia/pytree/node/{access,check,create,name_utils}.py]

    A node is the Python list [[name, value, children, label]].  The functions that mutate a node
    are state transformers: they return the node after the call together with the result of the
    call, so that what remains of the node after an exception is visible.  Warnings and prints are
    not represented. *)
From Stdlib Require Import Ascii.
From S2P Require Import Prelude Values.

Local Open Scope Z_scope.

Module Tree.
Import Values.

Inductive node : Type :=
| Node (name : string) (val : value) (children : list node) (label : string).

Definition get_name (n : node) : string := let '(Node name _ _ _) := n in name.
Definition get_raw (n : node) : value := let '(Node _ val _ _) := n in val.
Definition get_children (n : node) : list node := let '(Node _ _ children _) := n in children.
Definition get_label (n : node) : string := let '(Node _ _ _ label) := n in label.
Definition get_names (nodes : list node) : list string := get_name <$> nodes.

Definition get_value (n : node) (raw : bool) : py read_value := get_value_of (get_raw n) raw.
Definition get_value_type (n : node) : string := get_value_type_of (get_raw n).
Definition get_value_kind (n : node) : string := get_value_kind_of (get_raw n).

(** ** Checks *)

(** The members of [CGK.Label] *)
Definition cgk_labels : list string :=
  ["CGNSTree_t"; "CGNSBase_t"; "Zone_t"; "ZoneType_t"; "GridCoordinates_t"; "GridLocation_t"; "ZoneBC_t";
   "BC_t"; "BCData_t"; "BCDataSet_t"; "ZoneGridConnectivity_t"; "GridConnectivity1to1_t";
   "GridConnectivity_t"; "Family_t"; "FamilyName_t"; "AdditionalFamilyName_t"; "AdditionalExponents_t";
   "AdditionalUnits_t"; "ArbitraryGridMotion_t"; "Area_t"; "AverageInterface_t"; "Axisymmetry_t";
   "BCProperty_t"; "BCTypeSimple_t"; "BCTypeCompound_ts"; "BaseIterativeData_t"; "CGNSLibraryVersion_t";
   "ChemicalKineticsModel_t"; "ConvergenceHistory_t"; "DataArray_t"; "DataClass_t"; "DataConversion_t";
   "Descriptor_t"; "DimensionalExponents_t"; "DimensionalUnits_t"; "DiscreteData_t"; "Elements_t";
   "FamilyBC_t"; "FamilyBCDataSet_t"; "FlowEquationSet_t"; "FlowSolution_t"; "GasModel_t";
   "GasModelType_t"; "GeometryEntity_t"; "GeometryFile_t"; "GeometryFormat_t"; "GeometryReference_t";
   "GoverningEquations_t"; "Gravity_t"; "GridConnectivityProperty_t"; "GridConnectivityType_t";
   "IndexArray_t"; "IndexRange_t"; "IntegralData_t"; "InwardNormalList_t"; "Ordinal_t"; "OversetHoles_t";
   "Periodic_t"; "ReferenceState_t"; "RigidGridMotion_t"; "Rind_t"; "RotatingCoordinates_t";
   "SimulationType_t"; "ThermalConductivityModel_t"; "ThermalRelaxationModel_t"; "TurbulenceClosure_t";
   "TurbulenceModel_t"; "UserDefinedData_t"; "ViscosityModel_t"; "ViscosityModelType_t"; "WallFunction_t";
   "ZoneIterativeData_t"; "ZoneSubRegion_t"; "UserDefined_t"; "BulkRegionFamily_t";
   "BndConditionFamily_t"; "BndConnectionFamily_t"; "Invalid_t"].

(** Double quote, to write the legacy labels. *)
Definition dq : string := String (ascii_of_nat 34) EmptyString.
Definition legacy_labels : list string :=
  [(dq +:+ "int[1+...+IndexDimension]" +:+ dq); (dq +:+ "int[IndexDimension]" +:+ dq); (dq +:+ "int" +:+ dq)].
Definition additional_labels : list string :=
  ["DiffusionModel_t"; "Transform_t"; "InwardNormalIndex_t"; "EquationDimension_t"].

(** [s.endswith(suffix)] *)
Definition endswith (s suffix : string) : bool :=
  Nat.leb (String.length suffix) (String.length s) &&
  bool_decide (String.substring (String.length s - String.length suffix) (String.length suffix) s = suffix).

Definition has_slash (s : string) : bool := bool_decide ("/"%char ∈ String.list_ascii_of_string s).

Definition is_valid_name (name : string) (check_len : bool) : bool :=
  if bool_decide (name ∉ [""; "."; ".."]) && negb (has_slash name)
  then (if check_len then Nat.leb (String.length name) 32 else true)
  else false.

Definition is_valid_label (label : string) (only_sids : bool) : bool :=
  if endswith label "_t" || bool_decide (label ∈ legacy_labels)
  then (if only_sids
        then bool_decide (label ∈ cgk_labels) || bool_decide (label ∈ legacy_labels)
             || bool_decide (label ∈ additional_labels)
        else true)
  else false.

Definition is_valid_node (n : node) : bool :=
  is_valid_name (get_name n) true && is_valid_value (get_raw n) && is_valid_label (get_label n) true.

(** ** State transformers on a node *)

Definition st (A : Type) : Type := node -> node * py A.
#[export] Instance st_ret : MRet st := fun A a n => (n, Ret a).
#[export] Instance st_bind : MBind st := fun A B f m n =>
  match m n with
  | (n', Ret a) => f a n'
  | (n', Raise e) => (n', Raise e)
  end.
Definition st_raise {A} (e : exn) : st A := fun n => (n, Raise e).
Definition st_lift {A} (m : py A) : st A := fun n => (n, m).

(** [node[0] = name], [node[1] = val], [node[2] = children] and [node[3] = label] *)
Definition put_name (name : string) : st () := fun '(Node _ v c l) => (Node name v c l, Ret ()).
Definition put_raw (val : value) : st () := fun '(Node n _ c l) => (Node n val c l, Ret ()).
Definition put_children (children : list node) : st () := fun '(Node n v _ l) => (Node n v children l, Ret ()).
Definition put_label (label : string) : st () := fun '(Node n v c _) => (Node n v c label, Ret ()).

Definition set_name (name : string) : st () :=
  if is_valid_name name false then put_name name else st_raise ValueError.

Definition set_label (label : string) : st () :=
  if is_valid_label label false then put_label label else st_raise ValueError.

(** [child] is [None] or a node. *)
Definition add_child (child : option node) : st () := fun node =>
  match child with
  | None => (node, Ret ())
  | Some child =>
      if bool_decide (get_name child ∈ get_names (get_children node)) then (node, Raise RuntimeError)
      else put_children (get_children node ++ [child]) node
  end.

(** The child is given by the identity test [sub_node is child]. *)
Fixpoint find_child (is_child : node -> bool) (sub_nodes : list node) : option nat :=
  match sub_nodes with
  | [] => None
  | sub_node :: rest => if is_child sub_node then Some O else S <$> find_child is_child rest
  end.

Definition rm_child (child : option (node -> bool)) : st () := fun node =>
  match child with
  | None => (node, Ret ())
  | Some is_child =>
      match find_child is_child (get_children node) with
      | None => (node, Raise RuntimeError)
      | Some i => put_children (delete i (get_children node)) node
      end
  end.

Fixpoint add_children (children : list (option node)) : st () :=
  match children with
  | [] => mret ()
  | child :: rest => _ ← add_child child; add_children rest
  end.

(** The former children are put back when one of the additions raises. *)
Definition set_children (children : list (option node)) : st () := fun node =>
  let children_bck := get_children node in
  match (_ ← put_children []; add_children children) node with
  | (node', Ret ()) => (node', Ret ())
  | (node', Raise e) => (_ ← put_children children_bck; st_raise e) node'
  end.

Section create.
Variable to_float32 : Z -> Z.

Definition set_value (v : pyval) : st () :=
  val ← st_lift (_convert_value to_float32 v); put_raw val.

(** [None] stands for a parameter left to UNSET. *)
Definition when {A} (o : option A) (f : A -> st ()) : st () :=
  match o with Some a => f a | None => mret () end.

Definition update_node (name label : option string) (v : option pyval)
    (children : option (list (option node))) : st () :=
  _ ← when name set_name;
  _ ← when label set_label;
  _ ← when v set_value;
  when children set_children.

(** The parent, when given, is returned with the new node appended. *)
Definition new_node (name label : string) (v : pyval) (children : list (option node))
    (parent : option node) : option node * py node :=
  match update_node (Some name) (Some label) (Some v) (Some children) (Node "Node" None [] "UserDefined_t") with
  | (_, Raise e) => (parent, Raise e)
  | (n, Ret ()) =>
      match parent with
      | None => (None, Ret n)
      | Some p => match add_child (Some n) p with
                  | (p', Ret ()) => (Some p', Ret n)
                  | (p', Raise e) => (Some p', Raise e)
                  end
      end
  end.

Definition new_child (parent : node) (name label : string) (v : pyval) (children : list (option node))
  : option node * py node := new_node name label v children (Some parent).

Fixpoint shallow_copy (t : node) : node :=
  Node (get_name t) (get_raw t)
       (match t with Node _ _ children _ => map shallow_copy children end) (get_label t).

(** The copies are appended without the checks of [add_child]. *)
Fixpoint deep_copy (t : node) : py node :=
  match t with
  | Node name val children label =>
      out ← (new_node name label PNone [] None).2;
      let out := match val with Some a => (put_raw (Some a) out).1 | None => out end in
      children ← mapM deep_copy children;
      Ret (put_children (get_children out ++ children) out).1
  end.
End create.

(** ** Names that are too long *)

Definition isupper (c : ascii) : bool :=
  bool_decide (65 <= Z.of_N (N_of_ascii c) <= 90).

(** The loop on the characters: [cnt] counts those read since the last upper case one. *)
Fixpoint shorten_loop (cnt : nat) (l : list ascii) : list ascii :=
  match l with
  | [] => []
  | c :: l' =>
      if isupper c then c :: shorten_loop 0 l'
      else if Nat.ltb (S cnt) 4 then c :: shorten_loop (S cnt) l' else shorten_loop (S cnt) l'
  end.

Definition shortened (old_name : string) : string :=
  String.string_of_list_ascii (shorten_loop 0 (String.list_ascii_of_string old_name)).

Fixpoint shorten_names (labels_to_shorten : option (list string)) (t : node) : py node :=
  match t with
  | Node old_name val children label =>
      let can_shorten_label :=
        match labels_to_shorten with None => true | Some ls => bool_decide (label ∈ ls) end in
      t ← (if can_shorten_label && Nat.ltb 32 (String.length old_name)
           then match set_name (shortened old_name) t with
                | (t', Ret ()) => Ret t'
                | (_, Raise e) => Raise e
                end
           else Ret t);
      children ← mapM (shorten_names labels_to_shorten) children;
      Ret (put_children children t).1
  end.

Definition shorten_field_names (t : node) : py node := shorten_names (Some ["DataArray_t"]) t.

(** ** Induction on nodes *)

Lemma node_ind' (P : node -> Prop) :
  (forall name val children label, Forall P children -> P (Node name val children label)) ->
  forall n, P n.
Proof.
  intros H. fix IH 1. intros [name val children label]. apply H.
  induction children as [|c children IHc]; constructor; [apply IH|exact IHc].
Qed.

(** ** Well-formed nodes *)

(** Names and labels pass the checks of the setters, siblings have different names. *)
Inductive wf : node -> Prop :=
| wf_Node name val children label :
    is_valid_name name false = true -> is_valid_label label false = true ->
    NoDup (get_names children) -> Forall wf children ->
    wf (Node name val children label).

(** ** Lemmas: one setter at a time *)

Lemma set_name_ok name n v c l :
  set_name name (Node n v c l) =
  if is_valid_name name false then (Node name v c l, Ret ()) else (Node n v c l, Raise ValueError).
Proof. unfold set_name. by destruct (is_valid_name name false). Qed.

Lemma set_label_ok label n v c l :
  set_label label (Node n v c l) =
  if is_valid_label label false then (Node n v c label, Ret ()) else (Node n v c l, Raise ValueError).
Proof. unfold set_label. by destruct (is_valid_label label false). Qed.

Lemma get_names_app l k : get_names (l ++ k) = get_names l ++ get_names k.
Proof. apply fmap_app. Qed.

(** The nodes of a list of optional nodes. *)
Definition some_nodes (cs : list (option node)) : list node := omap id cs.

Lemma add_children_spec cs n v acc l :
  NoDup (get_names acc) ->
  (NoDup (get_names (acc ++ some_nodes cs)) ->
   add_children cs (Node n v acc l) = (Node n v (acc ++ some_nodes cs) l, Ret ())) /\
  (~ NoDup (get_names (acc ++ some_nodes cs)) ->
   exists acc', add_children cs (Node n v acc l) = (Node n v acc' l, Raise RuntimeError)).
Proof.
  revert acc. induction cs as [|[c|] cs IH]; intros acc Hacc.
  - unfold some_nodes. cbn. rewrite app_nil_r. split; [done|naive_solver].
  - change (some_nodes (Some c :: cs)) with (c :: some_nodes cs).
    replace (acc ++ c :: some_nodes cs) with ((acc ++ [c]) ++ some_nodes cs) by by rewrite <- (assoc (++)).
    change (add_children (Some c :: cs) (Node n v acc l))
      with (match add_child (Some c) (Node n v acc l) with
            | (n', Ret _) => add_children cs n' | (n', Raise e) => (n', Raise e) end).
    unfold add_child. cbn [get_children get_name].
    case_bool_decide as Hin.
    + split; [|by eexists]. intros Hnd. exfalso. rewrite !get_names_app in Hnd.
      apply NoDup_app in Hnd as [Hnd _]. apply NoDup_app in Hnd as (_ & Hd & _).
      by apply (Hd (get_name c)); [|left].
    + cbn [put_children]. apply IH. rewrite get_names_app. apply NoDup_app.
      split_and!; [done| |repeat constructor; by apply not_elem_of_nil].
      intros x Hx ->%list_elem_of_singleton. done.
  - change (some_nodes (None :: cs)) with (some_nodes cs). exact (IH acc Hacc).
Qed.

Lemma set_children_cases cs n v c l :
  set_children cs (Node n v c l) =
  if bool_decide (NoDup (get_names (some_nodes cs))) then (Node n v (some_nodes cs) l, Ret ())
  else (Node n v c l, Raise RuntimeError).
Proof.
  unfold set_children. cbn [get_children].
  change ((_ ← put_children []; add_children cs) (Node n v c l)) with (add_children cs (Node n v [] l)).
  destruct (add_children_spec cs n v [] l) as [Hok Hko]; [constructor|]. cbn [app] in Hok, Hko.
  case_bool_decide as Hnd.
  - by rewrite Hok.
  - destruct (Hko Hnd) as [acc' ->]. done.
Qed.

Lemma elem_of_some_nodes n cs : n ∈ some_nodes cs <-> Some n ∈ cs.
Proof. unfold some_nodes. rewrite list_elem_of_omap. naive_solver. Qed.

(** ** Edition sequences *)

(** The calls that mutate a node. *)
Inductive edit : Type :=
| SetName (name : string)
| SetLabel (label : string)
| SetValue (v : pyval)
| AddChild (child : option node)
| RmChild (child : option (node -> bool))
| SetChildren (children : list (option node))
| UpdateNode (name label : option string) (v : option pyval) (children : option (list (option node))).

Definition run_edit (to_float32 : Z -> Z) (e : edit) : st () :=
  match e with
  | SetName name => set_name name
  | SetLabel label => set_label label
  | SetValue v => set_value to_float32 v
  | AddChild child => add_child child
  | RmChild child => rm_child child
  | SetChildren children => set_children children
  | UpdateNode name label v children => update_node to_float32 name label v children
  end.

(** The nodes an edition attaches. *)
Definition attached (e : edit) : list node :=
  match e with
  | AddChild child => some_nodes [child]
  | SetChildren children | UpdateNode _ _ _ (Some children) => some_nodes children
  | _ => []
  end.

(** A transformer that keeps nodes well-formed, whether it raises or not. *)
Definition keeps_wf {A} (m : st A) : Prop := forall n, wf n -> wf (m n).1.

Lemma keeps_wf_bind {A B} (m : st A) (f : A -> st B) :
  keeps_wf m -> (forall a, keeps_wf (f a)) -> keeps_wf (mbind f m).
Proof.
  intros Hm Hf n Hn. specialize (Hm n Hn). unfold mbind, st_bind.
  destruct (m n) as [n' [a|e]]; [by apply Hf|done].
Qed.

Lemma keeps_wf_ret {A} (a : A) : keeps_wf (mret a).
Proof. by intros n Hn. Qed.

Lemma keeps_wf_when {A} (o : option A) f : (forall a, o = Some a -> keeps_wf (f a)) -> keeps_wf (when o f).
Proof. destruct o; [by eauto|]. intros _. apply keeps_wf_ret. Qed.

Lemma set_name_wf name : keeps_wf (set_name name).
Proof.
  intros n Hn. destruct Hn as [nm v c l]. rewrite set_name_ok.
  destruct (is_valid_name name false) eqn:E; by constructor.
Qed.

Lemma set_label_wf label : keeps_wf (set_label label).
Proof.
  intros n Hn. destruct Hn as [nm v c l]. rewrite set_label_ok.
  destruct (is_valid_label label false) eqn:E; by constructor.
Qed.

Lemma set_value_wf to_float32 v : keeps_wf (set_value to_float32 v).
Proof.
  intros n Hn. destruct Hn as [nm val c l]. unfold set_value, mbind, st_bind, st_lift.
  destruct (_convert_value to_float32 v); by constructor.
Qed.

Lemma add_child_wf child : Forall wf (some_nodes [child]) -> keeps_wf (add_child child).
Proof.
  intros Hc n Hn. destruct child as [c|]; [|done]. apply Forall_inv in Hc.
  destruct Hn as [nm v cs l ? ? Hnd Hcs]. unfold add_child. cbn [get_children].
  case_bool_decide as Hin; [by constructor|]. constructor; [done|done| |].
  - rewrite get_names_app. apply NoDup_app. split_and!; [done| |apply NoDup_singleton].
    intros x Hx ->%list_elem_of_singleton. done.
  - apply Forall_app. split; [done|]. by constructor.
Qed.

Lemma rm_child_wf child : keeps_wf (rm_child child).
Proof.
  intros n Hn. destruct child as [is_child|]; [|done]. unfold rm_child.
  destruct Hn as [nm v cs l ? ? Hnd Hcs]. cbn [get_children].
  destruct (find_child is_child cs) as [i|]; [|by constructor]. constructor; [done|done| |].
  - eapply sublist_NoDup; [exact Hnd|]. apply fmap_sublist, sublist_delete.
  - by apply Forall_delete.
Qed.

Lemma set_children_wf cs : Forall wf (some_nodes cs) -> keeps_wf (set_children cs).
Proof.
  intros Hc n Hn. destruct Hn as [nm v c l]. rewrite set_children_cases. case_bool_decide; by constructor.
Qed.



Lemma update_node_all to_float32 name label pv cs n v c l :
  update_node to_float32 (Some name) (Some label) (Some pv) (Some cs) (Node n v c l) =
  if negb (is_valid_name name false) then (Node n v c l, Raise ValueError)
  else if negb (is_valid_label label false) then (Node name v c l, Raise ValueError)
  else match _convert_value to_float32 pv with
       | Raise e => (Node name v c label, Raise e)
       | Ret val => set_children cs (Node name val c label)
       end.
Proof.
  unfold update_node, when, set_value, mbind, st_bind, st_lift. rewrite set_name_ok.
  destruct (is_valid_name name false); [|done]. rewrite set_label_ok.
  destruct (is_valid_label label false); [|done]. cbn [negb]. by destruct (_convert_value to_float32 pv).
Qed.

(** [new_node] on every branch: the exception of the first argument that is refused (name, then
    label, then value, then two children of the same name), the parent being left unchanged; else
    the node with the given attributes, appended at the end of the children of the parent, unless
    the parent already has a child of that name, which raises RuntimeError and changes nothing. *)
Theorem new_node_spec to_float32 name label pv cs parent :
  new_node to_float32 name label pv cs parent =
  (if negb (is_valid_name name false) then (parent, Raise ValueError)
   else if negb (is_valid_label label false) then (parent, Raise ValueError)
   else match _convert_value to_float32 pv with
   | Raise e => (parent, Raise e)
   | Ret val =>
     if bool_decide (NoDup (get_names (some_nodes cs))) then
       let n := Node name val (some_nodes cs) label in
       match parent with
       | None => (None, Ret n)
       | Some (Node pn pv pc pl) =>
           if bool_decide (name ∈ get_names pc) then (parent, Raise RuntimeError)
           else (Some (Node pn pv (pc ++ [n]) pl), Ret n)
       end
     else (parent, Raise RuntimeError)
   end).
Proof.
  unfold new_node. rewrite update_node_all. destruct (is_valid_name name false); [|done].
  destruct (is_valid_label label false); [|done]. cbn [negb].
  destruct (_convert_value to_float32 pv) as [val|e]; [|done]. rewrite set_children_cases.
  case_bool_decide; [|done]. destruct parent as [[pn pv' pc pl]|]; [|done].
  unfold add_child. cbn [get_children get_name put_children]. by case_bool_decide.
Qed.

(** [set_children] is atomic: it replaces the children by the given nodes (ignoring [None]) when
    their names are all different, and otherwise raises RuntimeError with the node as it was. *)
Theorem set_children_atomic cs n :
  set_children cs n =
  if bool_decide (NoDup (get_names (some_nodes cs)))
  then (Node (get_name n) (get_raw n) (some_nodes cs) (get_label n), Ret ())
  else (n, Raise RuntimeError).
Proof. destruct n as [nm v c l]. apply set_children_cases. Qed.

(** Names and labels accepted by the setters, at every node of the tree. *)
Inductive named : node -> Prop :=
| named_Node name val children label :
    is_valid_name name false = true -> is_valid_label label false = true ->
    Forall named children -> named (Node name val children label).

Lemma decide_named t : named t \/ ~ named t.
Proof.
  induction t as [name val children label IH] using node_ind'.
  assert (Forall named children \/ ~ Forall named children) as [Hc|Hc].
  { induction IH as [|c cs [Hc|Hc] _ [IH|IH]]; rewrite ?Forall_cons, ?Forall_nil; tauto. }
  2: { right. by inversion 1. }
  destruct (is_valid_name name false) eqn:E1, (is_valid_label label false) eqn:E2;
    [left; by constructor|right; inversion 1; congruence..].
Qed.

(** A copy has the attributes of the original. *)
Lemma shallow_copy_id t : shallow_copy t = t.
Proof.
  induction t as [name val children label IH] using node_ind'. cbn. f_equal.
  induction IH as [|c cs Hc _ IHcs]; [done|]. cbn. by rewrite Hc, IHcs.
Qed.

Lemma deep_copy_new to_float32 name label :
  (new_node to_float32 name label PNone [] None).2 =
  if is_valid_name name false && is_valid_label label false then Ret (Node name None [] label)
  else Raise ValueError.
Proof.
  unfold new_node. rewrite update_node_all. destruct (is_valid_name name false); [|done].
  by destruct (is_valid_label label false).
Qed.

(** [deep_copy] returns a tree equal to the original, names, labels, values, children and order
    included, exactly when all its names and labels are valid ones; otherwise it raises ValueError. *)
Theorem deep_copy_spec to_float32 t :
  (named t -> deep_copy to_float32 t = Ret t) /\ (~ named t -> deep_copy to_float32 t = Raise ValueError).
Proof.
  induction t as [name val children label IH] using node_ind'.
  assert (Hd : deep_copy to_float32 (Node name val children label) =
    (if is_valid_name name false && is_valid_label label false
     then children ← mapM (deep_copy to_float32) children; Ret (Node name val children label)
     else Raise ValueError)).
  { cbn [deep_copy]. rewrite deep_copy_new.
    destruct (is_valid_name name false && is_valid_label label false); [|done]. by destruct val. }
  assert (Hc : (Forall named children -> mapM (deep_copy to_float32) children = Ret children) /\
               (~ Forall named children -> mapM (deep_copy to_float32) children = Raise ValueError)).
  { clear Hd. induction IH as [|c cs [Hc Hc'] _ [IH1 IH2]]; [split; [done|]; intros []; constructor|].
    rewrite Forall_cons. cbn [mapM]. split.
    - intros [H1 H2]. by rewrite Hc, IH1.
    - intros H. destruct (decide_named c) as [Hn|Hn]; [rewrite Hc by done|by rewrite Hc'].
      rewrite IH2 by tauto. done. }
  rewrite Hd. split.
  - inversion 1 as [???? E1 E2 Hch]; subst. rewrite E1, E2. cbn. by rewrite (proj1 Hc).
  - intros Hn. destruct (is_valid_name name false) eqn:E1; [|done].
    destruct (is_valid_label label false) eqn:E2; [|done]. cbn [andb].
    rewrite (proj2 Hc); [done|]. intros Hch. apply Hn. by constructor.
Qed.

Lemma deep_copy_spec_witness :
  deep_copy (fun x => x) (Node "Base" None [Node "Zone" None [] "Zone_t"] "CGNSBase_t") =
    Ret (Node "Base" None [Node "Zone" None [] "Zone_t"] "CGNSBase_t") /\
  deep_copy (fun x => x) (Node "Base" None [] "CGNSBase") = Raise ValueError.
Proof.
  split; apply deep_copy_spec.
  - repeat constructor.
  - inversion 1. discriminate.
Defined.

(** ** Lemmas: shortened names *)

Lemma string_length s : String.length s = length (String.list_ascii_of_string s).
Proof. induction s; cbn; auto. Qed.

Lemma shorten_loop_sublist cnt l : shorten_loop cnt l `sublist_of` l.
Proof.
  revert cnt. induction l as [|c l IH]; intros cnt; [constructor|]. cbn [shorten_loop].
  destruct (isupper c); [by constructor|]. destruct (Nat.ltb (S cnt) 4); [by constructor|].
  constructor. apply IH.
Qed.

Lemma shorten_loop_length cnt l : (Nat.min (3 - cnt) (length l) <= length (shorten_loop cnt l))%nat.
Proof.
  revert cnt. induction l as [|c l IH]; intros cnt; cbn [shorten_loop length]; [lia|].
  destruct (isupper c); [specialize (IH 0%nat); cbn [length]; lia|].
  specialize (IH (S cnt)). destruct (Nat.ltb_spec (S cnt) 4); cbn [length]; lia.
Qed.

(** Four consecutive characters of a shortened name hold an upper case one. *)
Lemma shorten_loop_runs cnt l k c0 c1 c2 c3 :
  let s := shorten_loop cnt l in
  s !! k = Some c0 -> s !! S k = Some c1 -> s !! S (S k) = Some c2 -> s !! S (S (S k)) = Some c3 ->
  isupper c0 || isupper c1 || isupper c2 || isupper c3 = true.
Proof.
  cbv zeta.
  assert (Hrun : forall l cnt, Forall (fun c => isupper c = false) (take (S (3 - cnt)) (shorten_loop cnt l)) ->
            (length (shorten_loop cnt l) <= 3 - cnt)%nat).
  { clear. induction l as [|c l IH]; intros cnt Hf; [cbn; lia|]. cbn [shorten_loop] in *.
    destruct (isupper c) eqn:E; [cbn [take] in Hf; apply Forall_cons in Hf as [? _]; congruence|].
    destruct (Nat.ltb_spec (S cnt) 4) as [Hlt|Hlt].
    - cbn [take length] in *. apply Forall_cons in Hf as [_ Hf]. specialize (IH (S cnt)).
      replace (S (3 - S cnt)) with (3 - cnt)%nat in IH by lia. specialize (IH Hf). lia.
    - specialize (IH (S cnt)). replace (3 - S cnt)%nat with (3 - cnt)%nat in IH by lia. apply IH, Hf. }
  revert cnt k. induction l as [|c l IH]; intros cnt k; cbn [shorten_loop]; [done|].
  destruct (isupper c) eqn:E; [|destruct (Nat.ltb_spec (S cnt) 4) as [Hlt|Hlt]].
  - destruct k as [|k]; [|apply IH]. cbn. intros [= <-]. by rewrite E.
  - destruct k as [|k]; [|apply IH]. cbn. intros [= <-] H1 H2 H3. rewrite E. cbn.
    destruct (isupper c1) eqn:E1, (isupper c2) eqn:E2, (isupper c3) eqn:E3; try done. exfalso.
    specialize (Hrun l (S cnt)). pose proof (lookup_lt_Some _ _ _ H3).
    enough (length (shorten_loop (S cnt) l) <= 3 - S cnt)%nat by lia. apply Hrun.
    destruct (shorten_loop (S cnt) l) as [|x [|y [|z r]]]; simplify_eq/=.
    destruct cnt as [|[|[|]]]; cbn; repeat constructor; try done; lia.
  - apply IH.
Qed.

Lemma shortened_valid name :
  is_valid_name name false = true -> (32 < String.length name)%nat -> is_valid_name (shortened name) false = true.
Proof.
  unfold is_valid_name. intros Hv Hlen.
  destruct (bool_decide (name ∉ _) && negb (has_slash name)) eqn:E; [|done]. apply andb_prop in E as [_ Hs].
  pose proof (shorten_loop_length 0 (String.list_ascii_of_string name)) as Hl.
  rewrite <- string_length in Hl.
  assert (Hl' : String.length (shortened name) = length (shorten_loop 0 (String.list_ascii_of_string name))).
  { rewrite string_length. unfold shortened. by rewrite String.list_ascii_of_string_of_list_ascii. }
  rewrite bool_decide_eq_true_2; [cbn [andb]|].
  - enough (has_slash (shortened name) = false) as -> by done. unfold has_slash, shortened in *.
    rewrite String.list_ascii_of_string_of_list_ascii. rewrite negb_true_iff, bool_decide_eq_false in *.
    intros Hin. apply Hs. eapply elem_of_sublist; [exact Hin|apply shorten_loop_sublist].
  - rewrite !not_elem_of_cons. split_and!; try apply not_elem_of_nil; intros E; rewrite E in Hl'; cbn in Hl'; lia.
Qed.

(** The name [shorten_names] gives to a node. *)
Definition new_name (labels : option (list string)) (name label : string) : string :=
  if match labels with None => true | Some ls => bool_decide (label ∈ ls) end && Nat.ltb 32 (String.length name)
  then shortened name else name.

Inductive renamed (labels : option (list string)) : node -> node -> Prop :=
| renamed_Node name val cs cs' label :
    Forall2 (renamed labels) cs cs' ->
    renamed labels (Node name val cs label) (Node (new_name labels name label) val cs' label).

(** [shorten_names] never raises on a tree of valid names: it returns the same tree where the
    names of more than 32 characters, for the selected labels, are replaced by their shortened form,
    which is again a valid name. *)
Theorem shorten_names_spec labels t :
  named t -> exists t', shorten_names labels t = Ret t' /\ renamed labels t t' /\ named t'.
Proof.
  induction t as [name val children label IH] using node_ind'. intros Ht.
  inversion Ht as [???? Hname Hlabel Hch]; subst.
  assert (exists cs', mapM (shorten_names labels) children = Ret cs' /\
            Forall2 (renamed labels) children cs' /\ Forall named cs') as (cs' & Hm & Hr & Hn).
  { clear -IH Hch. induction IH as [|c cs Hc _ IHcs]; [by exists []|].
    apply Forall_cons in Hch as [H1 H2]. destruct (Hc H1) as (c' & Ec & ? & ?).
    destruct (IHcs H2) as (cs' & Ecs & ? & ?). exists (c' :: cs'). cbn [mapM]. rewrite Ec, Ecs. by repeat constructor. }
  exists (Node (new_name labels name label) val cs' label).
  assert (Hvalid : is_valid_name (new_name labels name label) false = true).
  { unfold new_name. destruct (_ && _) eqn:E; [|done]. apply andb_prop in E as [_ E].
    apply Nat.ltb_lt in E. by apply shortened_valid. }
  split_and!; [|by constructor|by constructor]. cbn [shorten_names]. unfold new_name in *.
  destruct (_ && _); rewrite ?set_name_ok, ?Hvalid; cbn [mbind py_bind]; by rewrite Hm.
Qed.

Lemma shorten_names_spec_witness :
  exists t', shorten_names None (Node "ThisIsAVeryLongDataArrayNameThatDoesNotFit" None [] "DataArray_t") = Ret t' /\
    get_name t' = "ThisIsAVeryLongDataArraNameThatDoesNotFit".
Proof.
  destruct (shorten_names_spec None (Node "ThisIsAVeryLongDataArrayNameThatDoesNotFit" None [] "DataArray_t"))
    as (t' & H & Hr & _); [repeat constructor|].
  exists t'. split; [exact H|]. vm_compute in H. by injection H as <-.
Defined.

End Tree.
