(* ===== verification/Parsers.v ===== *)
(** * Tree traversals: [maia/pytree/walk/_node_parsers.py]

    The two node parsers (first node found) and the four node iterators (all nodes found), each with
    its breadth-first and its depth-first search.  A generator is the list of what it yields.  The
    [depth] range is a lowest level and an optional highest one; [sort] is the function that orders
    the children.  Recursion and queue loops take a fuel, the number of nodes of the tree; the
    lemmas below show that it is enough as soon as [sort] permutes the children. *)
From S2P Require Import Prelude Values Tree.

Local Open Scope Z_scope.

Module Parsers.
Import Tree.

Fixpoint size (n : node) : nat :=
  match n with Node _ _ children _ => S (sum_list_with size children) end.

Section parsers.
Context (sort : list node -> list node) (predicate : node -> bool).

(** ** The base classes: depth conditions *)
Section range.
Context (depth0 : Z) (depth1 : option Z).
Definition cond1 : bool := match depth1 with None => true | Some d => 0 <? d end.
Definition cond2 (l : Z) : bool := match depth1 with None => true | Some d => l <? d end.
End range.

(** ** [NodeParser] *)
Fixpoint NodeParser_bfs_loop (fuel : nat) (temp : list node) : py (option node) :=
  match temp with
  | [] => Ret None
  | node :: temp' =>
      match fuel with
      | O => Raise OutOfFuel
      | S fuel' => if predicate node then Ret (Some node)
                   else NodeParser_bfs_loop fuel' (temp' ++ sort (get_children node))
      end
  end.
Definition NodeParser_bfs (root : node) : py (option node) := NodeParser_bfs_loop (size root) [root].

Fixpoint NodeParser__dfs (fuel : nat) (parent : node) : py (option node) :=
  match fuel with
  | O => Raise OutOfFuel
  | S fuel' =>
      (fix loop (children : list node) : py (option node) :=
         match children with
         | [] => Ret None
         | child :: rest =>
             if predicate child then Ret (Some child) else
             result ← NodeParser__dfs fuel' child;
             match result with Some r => Ret (Some r) | None => loop rest end
         end) (sort (get_children parent))
  end.
Definition NodeParser_dfs (root : node) : py (option node) :=
  if predicate root then Ret (Some root) else NodeParser__dfs (size root) root.

(** ** [RangeLevelNodeParser] *)
Fixpoint RangeLevelNodeParser_bfs_loop (depth0 : Z) (depth1 : option Z) (fuel : nat) (temp : list (Z * node))
  : py (option node) :=
  match temp with
  | [] => Ret None
  | (level, node) :: temp' =>
      match fuel with
      | O => Raise OutOfFuel
      | S fuel' =>
          if (depth0 <=? level) && predicate node then Ret (Some node)
          else RangeLevelNodeParser_bfs_loop depth0 depth1 fuel'
                 (temp' ++ if cond2 depth1 level then pair (level + 1) <$> sort (get_children node) else [])
      end
  end.
Definition RangeLevelNodeParser_bfs (depth0 : Z) (depth1 : option Z) (root : node) : py (option node) :=
  RangeLevelNodeParser_bfs_loop depth0 depth1 (size root) [(0, root)].

Fixpoint RangeLevelNodeParser__dfs (depth0 : Z) (depth1 : option Z) (fuel : nat) (parent : node) (level : Z)
  : py (option node) :=
  match fuel with
  | O => Raise OutOfFuel
  | S fuel' =>
      (fix loop (children : list node) : py (option node) :=
         match children with
         | [] => Ret None
         | child :: rest =>
             if (depth0 <=? level) && predicate child then Ret (Some child) else
             if cond2 depth1 level then
               result ← RangeLevelNodeParser__dfs depth0 depth1 fuel' child (level + 1);
               match result with Some r => Ret (Some r) | None => loop rest end
             else loop rest
         end) (sort (get_children parent))
  end.
Definition RangeLevelNodeParser_dfs (depth0 : Z) (depth1 : option Z) (root : node) : py (option node) :=
  if (depth0 =? 0) && predicate root then Ret (Some root) else
  if cond1 depth1 then RangeLevelNodeParser__dfs depth0 depth1 (size root) root 1 else Ret None.

(** ** [NodesIterator] *)
Fixpoint NodesIterator_bfs_loop (fuel : nat) (temp : list node) : py (list node) :=
  match temp with
  | [] => Ret []
  | node :: temp' =>
      match fuel with
      | O => Raise OutOfFuel
      | S fuel' =>
          rest ← NodesIterator_bfs_loop fuel' (temp' ++ sort (get_children node));
          Ret ((if predicate node then [node] else []) ++ rest)
      end
  end.
Definition NodesIterator_bfs (root : node) : py (list node) := NodesIterator_bfs_loop (size root) [root].

Fixpoint NodesIterator__dfs (fuel : nat) (parent : node) : py (list node) :=
  match fuel with
  | O => Raise OutOfFuel
  | S fuel' =>
      (fix loop (children : list node) : py (list node) :=
         match children with
         | [] => Ret []
         | child :: rest =>
             sub ← NodesIterator__dfs fuel' child;
             others ← loop rest;
             Ret ((if predicate child then [child] else []) ++ sub ++ others)
         end) (sort (get_children parent))
  end.
Definition NodesIterator_dfs (root : node) : py (list node) :=
  sub ← NodesIterator__dfs (size root) root; Ret ((if predicate root then [root] else []) ++ sub).

(** ** [ShallowNodesIterator] *)
Fixpoint ShallowNodesIterator_bfs_loop (fuel : nat) (temp : list node) : py (list node) :=
  match temp with
  | [] => Ret []
  | node :: temp' =>
      match fuel with
      | O => Raise OutOfFuel
      | S fuel' =>
          if predicate node
          then rest ← ShallowNodesIterator_bfs_loop fuel' temp'; Ret (node :: rest)
          else ShallowNodesIterator_bfs_loop fuel' (temp' ++ sort (get_children node))
      end
  end.
Definition ShallowNodesIterator_bfs (root : node) : py (list node) :=
  ShallowNodesIterator_bfs_loop (size root) [root].

Fixpoint ShallowNodesIterator__dfs (fuel : nat) (parent : node) : py (list node) :=
  match fuel with
  | O => Raise OutOfFuel
  | S fuel' =>
      (fix loop (children : list node) : py (list node) :=
         match children with
         | [] => Ret []
         | child :: rest =>
             sub ← (if predicate child then Ret [child] else ShallowNodesIterator__dfs fuel' child);
             others ← loop rest;
             Ret (sub ++ others)
         end) (sort (get_children parent))
  end.
(** Inherited from [NodesIteratorBase]: the exploration goes on under a root that matches. *)
Definition ShallowNodesIterator_dfs (root : node) : py (list node) :=
  sub ← ShallowNodesIterator__dfs (size root) root; Ret ((if predicate root then [root] else []) ++ sub).

(** ** [RangeLevelNodesIterator] *)
Fixpoint RangeLevelNodesIterator_bfs_loop (depth0 : Z) (depth1 : option Z) (fuel : nat) (temp : list (Z * node))
  : py (list node) :=
  match temp with
  | [] => Ret []
  | (level, node) :: temp' =>
      match fuel with
      | O => Raise OutOfFuel
      | S fuel' =>
          rest ← RangeLevelNodesIterator_bfs_loop depth0 depth1 fuel'
                   (temp' ++ if cond2 depth1 level then pair (level + 1) <$> sort (get_children node) else []);
          Ret ((if (depth0 <=? level) && predicate node then [node] else []) ++ rest)
      end
  end.
Definition RangeLevelNodesIterator_bfs (depth0 : Z) (depth1 : option Z) (root : node) : py (list node) :=
  RangeLevelNodesIterator_bfs_loop depth0 depth1 (size root) [(0, root)].

Fixpoint RangeLevelNodesIterator__dfs (depth0 : Z) (depth1 : option Z) (fuel : nat) (parent : node) (level : Z)
  : py (list node) :=
  match fuel with
  | O => Raise OutOfFuel
  | S fuel' =>
      (fix loop (children : list node) : py (list node) :=
         match children with
         | [] => Ret []
         | child :: rest =>
             sub ← (if cond2 depth1 level then RangeLevelNodesIterator__dfs depth0 depth1 fuel' child (level + 1)
                    else Ret []);
             others ← loop rest;
             Ret ((if (depth0 <=? level) && predicate child then [child] else []) ++ sub ++ others)
         end) (sort (get_children parent))
  end.
Definition RangeLevelNodesIterator_dfs (depth0 : Z) (depth1 : option Z) (root : node) : py (list node) :=
  sub ← (if cond1 depth1 then RangeLevelNodesIterator__dfs depth0 depth1 (size root) root 1 else Ret []);
  Ret ((if (depth0 =? 0) && predicate root then [root] else []) ++ sub).

(** ** [ShallowRangeLevelNodesIterator] *)
Fixpoint ShallowRangeLevelNodesIterator_bfs_loop (depth0 : Z) (depth1 : option Z) (fuel : nat)
    (temp : list (Z * node)) : py (list node) :=
  match temp with
  | [] => Ret []
  | (level, node) :: temp' =>
      match fuel with
      | O => Raise OutOfFuel
      | S fuel' =>
          if (depth0 <=? level) && predicate node
          then rest ← ShallowRangeLevelNodesIterator_bfs_loop depth0 depth1 fuel' temp'; Ret (node :: rest)
          else ShallowRangeLevelNodesIterator_bfs_loop depth0 depth1 fuel'
                 (temp' ++ if cond2 depth1 level then pair (level + 1) <$> sort (get_children node) else [])
      end
  end.
Definition ShallowRangeLevelNodesIterator_bfs (depth0 : Z) (depth1 : option Z) (root : node) : py (list node) :=
  ShallowRangeLevelNodesIterator_bfs_loop depth0 depth1 (size root) [(0, root)].

Fixpoint ShallowRangeLevelNodesIterator__dfs (depth0 : Z) (depth1 : option Z) (fuel : nat) (parent : node)
    (level : Z) : py (list node) :=
  match fuel with
  | O => Raise OutOfFuel
  | S fuel' =>
      (fix loop (children : list node) : py (list node) :=
         match children with
         | [] => Ret []
         | child :: rest =>
             sub ← (if (depth0 <=? level) && predicate child then Ret [child]
                    else if cond2 depth1 level
                    then ShallowRangeLevelNodesIterator__dfs depth0 depth1 fuel' child (level + 1)
                    else Ret []);
             others ← loop rest;
             Ret (sub ++ others)
         end) (sort (get_children parent))
  end.
Definition ShallowRangeLevelNodesIterator_dfs (depth0 : Z) (depth1 : option Z) (root : node) : py (list node) :=
  sub ← (if cond1 depth1 then ShallowRangeLevelNodesIterator__dfs depth0 depth1 (size root) root 1 else Ret []);
  Ret ((if (depth0 =? 0) && predicate root then [root] else []) ++ sub).

End parsers.

(** ** Reference traversals *)

(** Preorder of the part of the tree reached from a node through [next], with the levels; [next l n]
    lists, in visiting order, the children explored under [n] met at level [l]. *)
Inductive Pre (next : Z -> node -> list node) : Z -> node -> list (Z * node) -> Prop :=
| Pre_node l n ls : Forall2 (Pre next (l + 1)) (next l n) ls -> Pre next l n ((l, n) :: concat ls).

(** The same nodes level by level, on [m] levels starting from the list [q] at level [l]. *)
Fixpoint level_order (next : Z -> node -> list node) (m : nat) (l : Z) (q : list node) : list (Z * node) :=
  match m with
  | O => []
  | S m' => (pair l <$> q) ++ level_order next m' (l + 1) (flat_map (next l) q)
  end.

Lemma level_order_nil next m l : level_order next m l [] = [].
Proof. revert l. induction m; intros; cbn; auto. Qed.

(** The nodes of a traversal that satisfy a test on their level and themselves. *)
Definition select (emit : Z -> node -> bool) (o : list (Z * node)) : list node :=
  (filter (fun p => emit p.1 p.2 = true) o).*2.

Lemma select_app emit o o' : select emit (o ++ o') = select emit o ++ select emit o'.
Proof. unfold select. by rewrite filter_app, fmap_app. Qed.

Lemma select_cons emit l n o : select emit ((l, n) :: o) = (if emit l n then [n] else []) ++ select emit o.
Proof. unfold select. rewrite filter_cons. cbn. by destruct (emit l n). Qed.

(** The two instances: every node of the range, or the nodes of the range below no other one. *)
Definition emit (predicate : node -> bool) (lo : Z) (l : Z) (n : node) : bool := (lo <=? l) && predicate n.
Definition next_deep (sort : list node -> list node) (hi : option Z) (l : Z) (n : node) : list node :=
  if cond2 hi l then sort (get_children n) else [].
Definition next_shallow (sort : list node -> list node) (predicate : node -> bool) (lo : Z) (hi : option Z)
    (l : Z) (n : node) : list node :=
  if emit predicate lo l n then [] else next_deep sort hi l n.

(** ** A generic depth-first and breadth-first search *)
Section generic.
Context (next : Z -> node -> list node) (emit : Z -> node -> bool).

Fixpoint gdfs (fuel : nat) (level : Z) (children : list node) : py (list node) :=
  match fuel with
  | O => match children with [] => Ret [] | _ => Raise OutOfFuel end
  | S fuel' =>
      (fix loop (children : list node) : py (list node) :=
         match children with
         | [] => Ret []
         | child :: rest =>
             sub ← gdfs fuel' (level + 1) (next level child);
             others ← loop rest;
             Ret ((if emit level child then [child] else []) ++ sub ++ others)
         end) children
  end.

Fixpoint gbfs (fuel : nat) (temp : list (Z * node)) : py (list node) :=
  match temp with
  | [] => Ret []
  | (level, node) :: temp' =>
      match fuel with
      | O => Raise OutOfFuel
      | S fuel' => rest ← gbfs fuel' (temp' ++ (pair (level + 1) <$> next level node));
                   Ret ((if emit level node then [node] else []) ++ rest)
      end
  end.

(** Nodes reached from a list are fewer than the sizes of its nodes. *)
Hypothesis next_size : forall l n, (S (sum_list_with size (next l n)) <= size n)%nat.

Lemma size_pos n : (0 < size n)%nat.
Proof. destruct n. cbn. lia. Qed.

Lemma gdfs_spec fuel l cs :
  Forall (fun c => size c <= fuel)%nat cs ->
  exists ls, Forall2 (Pre next l) cs ls /\ gdfs fuel l cs = Ret (select emit (concat ls)).
Proof using next_size.
  revert l cs. induction fuel as [|fuel IH]; intros l cs Hcs.
  - destruct cs as [|c cs]; [by exists []|]. apply Forall_cons in Hcs as [Hc _].
    pose proof (size_pos c). lia.
  - cbn [gdfs]. induction Hcs as [|c cs Hc Hcs (ls & Hls & IHcs)]; [by exists []|].
    destruct (IH (l + 1) (next l c)) as (sub & Hsub & Es).
    { pose proof (next_size l c) as Hn. apply Forall_forall. intros d Hd.
      enough (size d <= sum_list_with size (next l c))%nat by lia.
      by apply sum_list_with_in. }
    exists (((l, c) :: concat sub) :: ls). split; [constructor; [by constructor|done]|].
    rewrite Es. cbn [mbind py_bind]. rewrite IHcs. cbn [concat mbind py_bind app].
    by rewrite select_cons, select_app.
Qed.

Lemma gbfs_level fuel l q r :
  gbfs (length q + fuel) ((pair l <$> q) ++ (pair (l + 1) <$> r)) =
  (rest ← gbfs fuel (pair (l + 1) <$> (r ++ flat_map (next l) q)); Ret (select emit (pair l <$> q) ++ rest)).
Proof using Type.
  revert r. induction q as [|n q IH]; intros r.
  - cbn. rewrite app_nil_r. by destruct (gbfs _ _).
  - cbn [length Nat.add fmap list_fmap app gbfs flat_map].
    rewrite <- (assoc (++)), <- fmap_app. change (list_fmap _ _ (pair l) q) with (pair l <$> q).
    rewrite IH. rewrite select_cons, <- (assoc (++) r). destruct (gbfs fuel _); cbn; [|done].
    by rewrite (assoc (++)).
Qed.

Lemma flat_map_next_size l q :
  (length q + sum_list_with size (flat_map (next l) q) <= sum_list_with size q)%nat.
Proof using next_size.
  induction q as [|n q IH]; cbn; [lia|]. rewrite sum_list_with_app. pose proof (next_size l n). lia.
Qed.

Lemma gbfs_spec m fuel l q :
  (sum_list_with size q <= m)%nat -> (sum_list_with size q <= fuel)%nat ->
  gbfs fuel (pair l <$> q) = Ret (select emit (level_order next m l q)).
Proof using next_size.
  revert fuel l q. induction m as [|m IH]; intros fuel l q Hm Hf.
  - destruct q as [|n q]; [by destruct fuel|]. cbn in Hm. pose proof (size_pos n). lia.
  - pose proof (flat_map_next_size l q) as Hs. cbn [level_order].
    destruct q as [|n q]; [destruct fuel; cbn; by rewrite level_order_nil|].
    pose proof (gbfs_level (fuel - length (n :: q)) l (n :: q) []) as Hl.
    replace (length (n :: q) + (fuel - length (n :: q)))%nat with fuel in Hl by (cbn [length] in *; lia).
    rewrite fmap_nil, app_nil_r in Hl. rewrite Hl. cbn [app].
    rewrite IH by (cbn [length] in *; lia). cbn [mbind py_bind]. by rewrite select_app.
Qed.

(** Both orders visit the same nodes. *)
Lemma level_order_perm m l q ls :
  (sum_list_with size q <= m)%nat -> Forall2 (Pre next l) q ls -> level_order next m l q ≡ₚ concat ls.
Proof using next_size.
  revert l q ls. induction m as [|m IH]; intros l q ls Hm Hls.
  - destruct Hls as [|n ? q]; [done|]. cbn in Hm. pose proof (size_pos n). lia.
  - pose proof (flat_map_next_size l q) as Hs. cbn [level_order].
    assert (exists lss, Forall2 (Pre next (l + 1)) (flat_map (next l) q) (concat lss) /\
              concat ls ≡ₚ (pair l <$> q) ++ concat (concat lss)) as (lss & Hlss & ->).
    { clear -Hls. induction Hls as [|n o q ls Hn Hls (lss & H1 & H2)]; [by exists []|].
      destruct Hn as [l n sub Hsub]. exists (sub :: lss). split; [by apply Forall2_app|].
      cbn [concat fmap list_fmap app]. rewrite H2, concat_app. constructor.
      rewrite !(assoc (++)). f_equiv. apply Permutation_app_comm. }
    f_equiv. destruct q as [|n q].
    + cbn in Hlss. apply Forall2_nil_inv_l in Hlss. rewrite Hlss. cbn. by rewrite level_order_nil.
    + apply IH; [cbn [length] in *; lia|done].
Qed.
End generic.

(** ** The parsers are instances of the generic searches *)
Section instances.
Context (sort : list node -> list node) (predicate : node -> bool).
Hypothesis sort_perm : forall l, sort l ≡ₚ l.

Lemma size_children n : size n = S (sum_list_with size (sort (get_children n))).
Proof using sort_perm. destruct n as [? ? cs ?]. cbn. by rewrite sort_perm. Qed.

Lemma next_deep_size hi l n : (S (sum_list_with size (next_deep sort hi l n)) <= size n)%nat.
Proof using sort_perm. rewrite size_children. unfold next_deep. destruct (cond2 hi l); cbn; lia. Qed.

Lemma next_shallow_size lo hi l n :
  (S (sum_list_with size (next_shallow sort predicate lo hi l n)) <= size n)%nat.
Proof using sort_perm.
  unfold next_shallow. destruct (emit predicate lo l n); [cbn; destruct n; cbn; lia|apply next_deep_size].
Qed.

Lemma children_fuel fuel n :
  (size n <= S fuel)%nat -> Forall (fun c => size c <= fuel)%nat (sort (get_children n)).
Proof using sort_perm.
  rewrite size_children. intros H. apply Forall_forall. intros c Hc.
  pose proof (sum_list_with_in c size _ Hc). lia.
Qed.

Lemma gdfs_nil next em fuel l : gdfs next em fuel l [] = Ret [].
Proof using Type. by destruct fuel. Qed.

(** Common start of the proofs on [_dfs]: induction on the fuel, then on the children. *)
Ltac dfs_induction fuel parent IH :=
  induction fuel as [|fuel IH]; intros parent level;
    [intros; pose proof (size_pos parent); lia|intros ?%children_fuel];
  cbn -[select Z.leb];
  match goal with H : Forall _ _ |- _ => induction H as [|c cs Hc Hcs IHcs] end; [done|].

Lemma RangeLevelNodesIterator__dfs_eq lo hi fuel parent level :
  (size parent <= fuel)%nat ->
  RangeLevelNodesIterator__dfs sort predicate lo hi fuel parent level =
  gdfs (next_deep sort hi) (emit predicate lo) fuel level (sort (get_children parent)).
Proof using sort_perm.
  revert parent level. dfs_induction fuel parent IH. rewrite IHcs.
  change (next_deep sort hi level c) with (if cond2 hi level then sort (get_children c) else []).
  destruct (cond2 hi level); [by rewrite IH|by rewrite gdfs_nil].
Qed.

Lemma ShallowRangeLevelNodesIterator__dfs_eq lo hi fuel parent level :
  (size parent <= fuel)%nat ->
  ShallowRangeLevelNodesIterator__dfs sort predicate lo hi fuel parent level =
  gdfs (next_shallow sort predicate lo hi) (emit predicate lo) fuel level (sort (get_children parent)).
Proof using sort_perm.
  revert parent level. dfs_induction fuel parent IH. rewrite IHcs.
  change (next_shallow sort predicate lo hi level c) with
    (if emit predicate lo level c then [] else if cond2 hi level then sort (get_children c) else []).
  fold (emit predicate lo level c). destruct (emit predicate lo level c); [by rewrite gdfs_nil|].
  destruct (cond2 hi level); [by rewrite IH|by rewrite gdfs_nil].
Qed.

Lemma RangeLevelNodeParser__dfs_eq lo hi fuel parent level :
  (size parent <= fuel)%nat ->
  RangeLevelNodeParser__dfs sort predicate lo hi fuel parent level =
  head <$> gdfs (next_deep sort hi) (emit predicate lo) fuel level (sort (get_children parent)).
Proof using sort_perm.
  revert parent level. dfs_induction fuel parent IH. fold (emit predicate lo level c).
  assert (exists sub, gdfs (next_deep sort hi) (emit predicate lo) fuel (level + 1) (next_deep sort hi level c) = Ret sub)
    as [sub Hsub].
  { destruct (gdfs_spec (next_deep sort hi) (emit predicate lo) (next_deep_size hi) fuel (level + 1)
      (next_deep sort hi level c)) as (ls & _ & E); [|by eauto].
    unfold next_deep. destruct (cond2 hi level); [|constructor]. apply children_fuel. lia. }
  destruct (gdfs_spec (next_deep sort hi) (emit predicate lo) (next_deep_size hi) (S fuel) level cs)
    as (ls & _ & E); [eapply Forall_impl; [exact Hcs|]; intros; cbn in *; lia|].
  cbn -[select] in E. rewrite E in IHcs. rewrite Hsub, E. cbn [mbind py_bind fmap py_fmap].
  destruct (emit predicate lo level c); [done|]. cbn [app].
  change (next_deep sort hi level c) with (if cond2 hi level then sort (get_children c) else []) in Hsub.
  destruct (cond2 hi level).
  - rewrite IH, Hsub by lia. destruct sub as [|x sub]; [exact IHcs|done].
  - rewrite gdfs_nil in Hsub. injection Hsub as <-. exact IHcs.
Qed.

(** Without range, the level is not tracked: any non-negative one gives the same search. *)
Lemma emit_any level c : 0 <= level -> emit predicate 0 level c = predicate c.
Proof using Type. intros. unfold emit. destruct (Z.leb_spec 0 level); [done|lia]. Qed.

Lemma NodesIterator__dfs_eq fuel parent :
  NodesIterator__dfs sort predicate fuel parent = RangeLevelNodesIterator__dfs sort predicate 0 None fuel parent 1.
Proof using Type.
  assert (H : forall fuel parent level, 0 <= level ->
    NodesIterator__dfs sort predicate fuel parent = RangeLevelNodesIterator__dfs sort predicate 0 None fuel parent level);
    [|by apply H].
  clear. induction fuel as [|fuel IH]; intros parent level Hl; [done|]. cbn -[Z.leb].
  induction (sort (get_children parent)) as [|c cs IHcs]; [done|].
  rewrite IHcs, (IH c (level + 1)) by lia. fold (emit predicate 0 level c). by rewrite emit_any.
Qed.

Lemma ShallowNodesIterator__dfs_eq fuel parent :
  ShallowNodesIterator__dfs sort predicate fuel parent =
  ShallowRangeLevelNodesIterator__dfs sort predicate 0 None fuel parent 1.
Proof using Type.
  assert (H : forall fuel parent level, 0 <= level ->
    ShallowNodesIterator__dfs sort predicate fuel parent =
    ShallowRangeLevelNodesIterator__dfs sort predicate 0 None fuel parent level); [|by apply H].
  clear. induction fuel as [|fuel IH]; intros parent level Hl; [done|]. cbn -[Z.leb].
  induction (sort (get_children parent)) as [|c cs IHcs]; [done|].
  rewrite IHcs, (IH c (level + 1)) by lia. fold (emit predicate 0 level c). by rewrite emit_any.
Qed.

Lemma NodeParser__dfs_eq fuel parent :
  NodeParser__dfs sort predicate fuel parent = RangeLevelNodeParser__dfs sort predicate 0 None fuel parent 1.
Proof using Type.
  assert (H : forall fuel parent level, 0 <= level ->
    NodeParser__dfs sort predicate fuel parent =
    RangeLevelNodeParser__dfs sort predicate 0 None fuel parent level); [|by apply H].
  clear. induction fuel as [|fuel IH]; intros parent level Hl; [done|]. cbn -[Z.leb].
  induction (sort (get_children parent)) as [|c cs IHcs]; [done|].
  rewrite IHcs, (IH c (level + 1)) by lia. fold (emit predicate 0 level c). by rewrite emit_any.
Qed.

Lemma fmap_next_deep hi level c :
  pair (level + 1) <$> next_deep sort hi level c =
  if cond2 hi level then pair (level + 1) <$> sort (get_children c) else [].
Proof using Type. unfold next_deep. by destruct (cond2 hi level). Qed.

Lemma RangeLevelNodesIterator_bfs_eq lo hi fuel temp :
  RangeLevelNodesIterator_bfs_loop sort predicate lo hi fuel temp =
  gbfs (next_deep sort hi) (emit predicate lo) fuel temp.
Proof using Type.
  revert temp. induction fuel as [|fuel IH]; intros [|[level n] temp]; try done.
  cbn -[Z.leb]. by rewrite fmap_next_deep, IH.
Qed.

Lemma ShallowRangeLevelNodesIterator_bfs_eq lo hi fuel temp :
  ShallowRangeLevelNodesIterator_bfs_loop sort predicate lo hi fuel temp =
  gbfs (next_shallow sort predicate lo hi) (emit predicate lo) fuel temp.
Proof using Type.
  revert temp. induction fuel as [|fuel IH]; intros [|[level n] temp]; try done.
  cbn -[Z.leb]. fold (emit predicate lo level n).
  change (next_shallow sort predicate lo hi level n) with
    (if emit predicate lo level n then [] else next_deep sort hi level n).
  destruct (emit predicate lo level n).
  - by rewrite app_nil_r, IH.
  - rewrite IH, fmap_next_deep. by destruct (gbfs _ _ _ _).
Qed.

Lemma RangeLevelNodeParser_bfs_eq lo hi fuel temp l :
  gbfs (next_deep sort hi) (emit predicate lo) fuel temp = Ret l ->
  RangeLevelNodeParser_bfs_loop sort predicate lo hi fuel temp = Ret (head l).
Proof using Type.
  revert temp l. induction fuel as [|fuel IH]; intros [|[level n] temp] l; cbn -[Z.leb]; intros H; inv_py; try done.
  fold (emit predicate lo level n). rewrite <- fmap_next_deep.
  destruct (emit predicate lo level n); [done|]. cbn [app]. by apply IH.
Qed.

Lemma snd_pairs (l : Z) (q : list node) : (pair l <$> q).*2 = q.
Proof using Type. induction q as [|n q IH]; [done|]. cbn. by f_equal. Qed.

Lemma NodesIterator_bfs_eq fuel temp :
  Forall (fun p => 0 <= p.1) temp ->
  NodesIterator_bfs_loop sort predicate fuel temp.*2 = RangeLevelNodesIterator_bfs_loop sort predicate 0 None fuel temp.
Proof using Type.
  revert temp. induction fuel as [|fuel IH]; intros [|[level n] temp] Ht; try done.
  apply Forall_cons in Ht as [Hl Ht]. cbn -[Z.leb] in *. rewrite <- IH.
  - fold (emit predicate 0 level n). by rewrite fmap_app, snd_pairs, emit_any.
  - apply Forall_app. split; [done|]. apply Forall_fmap, Forall_true. intros; cbn; lia.
Qed.

Lemma ShallowNodesIterator_bfs_eq fuel temp :
  Forall (fun p => 0 <= p.1) temp ->
  ShallowNodesIterator_bfs_loop sort predicate fuel temp.*2 =
  ShallowRangeLevelNodesIterator_bfs_loop sort predicate 0 None fuel temp.
Proof using Type.
  revert temp. induction fuel as [|fuel IH]; intros [|[level n] temp] Ht; try done.
  apply Forall_cons in Ht as [Hl Ht]. cbn -[Z.leb] in *.
  fold (emit predicate 0 level n). rewrite emit_any, <- !IH; try done.
  - by rewrite fmap_app, snd_pairs.
  - apply Forall_app. split; [done|]. apply Forall_fmap, Forall_true. intros; cbn; lia.
Qed.

Lemma NodeParser_bfs_eq fuel temp :
  Forall (fun p => 0 <= p.1) temp ->
  NodeParser_bfs_loop sort predicate fuel temp.*2 = RangeLevelNodeParser_bfs_loop sort predicate 0 None fuel temp.
Proof using Type.
  revert temp. induction fuel as [|fuel IH]; intros [|[level n] temp] Ht; try done.
  apply Forall_cons in Ht as [Hl Ht]. cbn -[Z.leb] in *.
  fold (emit predicate 0 level n). rewrite emit_any, <- IH; try done.
  - by rewrite fmap_app, snd_pairs.
  - apply Forall_app. split; [done|]. apply Forall_fmap, Forall_true. intros; cbn; lia.
Qed.

Lemma dfs_start lo hi root :
  (0 <=? lo) = true ->
  (lo =? 0) && predicate root = emit predicate lo 0 root /\ cond1 hi = cond2 hi 0.
Proof using Type. intros. unfold emit. split; [f_equal; lia|by destruct hi]. Qed.

End instances.

(** ** Properties *)

(** C2: With a depth range, the deep searches enumerate the nodes of the range that satisfy the
    predicate: in preorder for the depth-first one, level by level for the breadth-first one, the
    two being permutations of each other; the node parsers return the first node of the iterators.
    All of them end within the number of nodes of the tree. *)
Theorem range_search_spec sort predicate lo hi root :
  0 <= lo -> (forall l, sort l ≡ₚ l) ->
  exists o found_dfs found_bfs,
    Pre (next_deep sort hi) 0 root o /\
    found_dfs = select (emit predicate lo) o /\
    found_bfs = select (emit predicate lo) (level_order (next_deep sort hi) (size root) 0 [root]) /\
    found_bfs ≡ₚ found_dfs /\
    RangeLevelNodesIterator_dfs sort predicate lo hi root = Ret found_dfs /\
    RangeLevelNodesIterator_bfs sort predicate lo hi root = Ret found_bfs /\
    RangeLevelNodeParser_dfs sort predicate lo hi root = Ret (head found_dfs) /\
    RangeLevelNodeParser_bfs sort predicate lo hi root = Ret (head found_bfs).
Proof.
  intros Hlo Hsort. destruct (dfs_start predicate lo hi root ltac:(lia)) as [He Hc].
  set (next := next_deep sort hi). set (em := emit predicate lo) in *.
  pose proof (next_deep_size sort Hsort hi) as Hnext. fold next in Hnext.
  destruct (gdfs_spec next em Hnext (size root) 1 (next 0 root)) as (ls & Hls & Hg).
  { pose proof (Hnext 0 root). apply Forall_forall. intros c Hcin.
    pose proof (sum_list_with_in c size _ Hcin). lia. }
  assert (Hb : gbfs next em (size root) [(0, root)] = Ret (select em (level_order next (size root) 0 [root]))).
  { apply (gbfs_spec next em Hnext (size root) (size root) 0 [root]); cbn; lia. }
  exists ((0, root) :: concat ls), (select em ((0, root) :: concat ls)),
    (select em (level_order next (size root) 0 [root])).
  assert (Hpre : Pre next 0 root ((0, root) :: concat ls)) by by constructor.
  split_and!; [done|done|done| | | | |].
  - unfold select. apply fmap_Permutation, filter_Permutation.
    rewrite (level_order_perm next Hnext _ _ _ [(0, root) :: concat ls]);
      [cbn; by rewrite app_nil_r|cbn; lia|by repeat constructor].
  - unfold RangeLevelNodesIterator_dfs. rewrite He, Hc, select_cons.
    rewrite (RangeLevelNodesIterator__dfs_eq sort predicate Hsort) by done. fold next em.
    change (next 0 root) with (if cond2 hi 0 then sort (get_children root) else []) in Hg.
    destruct (cond2 hi 0); [by rewrite Hg|]. rewrite gdfs_nil in Hg. by injection Hg as <-.
  - unfold RangeLevelNodesIterator_bfs. by rewrite RangeLevelNodesIterator_bfs_eq.
  - unfold RangeLevelNodeParser_dfs. rewrite He, Hc, select_cons.
    destruct (em 0 root); [done|]. rewrite (RangeLevelNodeParser__dfs_eq sort predicate Hsort) by done. fold next em.
    change (next 0 root) with (if cond2 hi 0 then sort (get_children root) else []) in Hg.
    destruct (cond2 hi 0); [by rewrite Hg|]. rewrite gdfs_nil in Hg. by injection Hg as <-.
  - by apply RangeLevelNodeParser_bfs_eq.
Qed.

Lemma range_search_spec_witness :
  exists found, RangeLevelNodesIterator_dfs (fun l => l) (fun _ => true) 1 (Some 2)
    (Node "Base" None [Node "Z1" None [] "Zone_t"; Node "Z2" None [] "Zone_t"] "CGNSBase_t") = Ret found /\
    get_name <$> found = ["Z1"; "Z2"].
Proof.
  destruct (range_search_spec (fun l => l) (fun _ => true) 1 (Some 2)
    (Node "Base" None [Node "Z1" None [] "Zone_t"; Node "Z2" None [] "Zone_t"] "CGNSBase_t"))
    as (o & fd & fb & _ & _ & _ & _ & H & _); [lia|done|].
  exists fd. split; [exact H|]. vm_compute in H. by injection H as <-.
Defined.

(** The shallow searches.  Breadth-first, they enumerate level by level the nodes of the range
    that satisfy the predicate and are under no other one; depth-first, they enumerate the same
    nodes in preorder when the root is not selected. *)
Theorem shallow_search_spec sort predicate lo hi root :
  0 <= lo -> (forall l, sort l ≡ₚ l) ->
  let next := next_shallow sort predicate lo hi in
  ShallowRangeLevelNodesIterator_bfs sort predicate lo hi root =
    Ret (select (emit predicate lo) (level_order next (size root) 0 [root])) /\
  (emit predicate lo 0 root = false ->
   exists o, Pre next 0 root o /\
     ShallowRangeLevelNodesIterator_dfs sort predicate lo hi root = Ret (select (emit predicate lo) o) /\
     select (emit predicate lo) o ≡ₚ
     select (emit predicate lo) (level_order next (size root) 0 [root])).
Proof.
  intros Hlo Hsort next. destruct (dfs_start predicate lo hi root ltac:(lia)) as [He Hc].
  pose proof (next_shallow_size sort predicate Hsort lo hi) as Hnext. fold next in Hnext.
  set (em := emit predicate lo) in *. split.
  - unfold ShallowRangeLevelNodesIterator_bfs. rewrite ShallowRangeLevelNodesIterator_bfs_eq.
    apply (gbfs_spec next em Hnext (size root) (size root) 0 [root]); cbn; lia.
  - intros Hroot. destruct (gdfs_spec next em Hnext (size root) 1 (next 0 root)) as (ls & Hls & Hg).
    { pose proof (Hnext 0 root). apply Forall_forall. intros c Hcin.
      pose proof (sum_list_with_in c size _ Hcin). lia. }
    exists ((0, root) :: concat ls). assert (Hpre : Pre next 0 root ((0, root) :: concat ls)) by by constructor.
    split_and!; [done| |].
    + unfold ShallowRangeLevelNodesIterator_dfs. rewrite He, Hc, select_cons.
      rewrite (ShallowRangeLevelNodesIterator__dfs_eq sort predicate Hsort) by done. fold next em.
      change (next 0 root) with
        (if em 0 root then [] else if cond2 hi 0 then sort (get_children root) else []) in Hg.
      rewrite Hroot in *. destruct (cond2 hi 0); [by rewrite Hg|]. rewrite gdfs_nil in Hg. by injection Hg as <-.
    + unfold select. apply fmap_Permutation, filter_Permutation.
      rewrite (level_order_perm next Hnext _ _ _ [(0, root) :: concat ls]);
        [cbn; by rewrite app_nil_r|cbn; lia|by repeat constructor].
Qed.

Lemma shallow_search_spec_witness :
  ShallowRangeLevelNodesIterator_bfs (fun l => l) (fun n => bool_decide (get_label n = "Zone_t")) 0 None
    (Node "Base" None [Node "Z1" None [Node "Z2" None [] "Zone_t"] "Zone_t"] "CGNSBase_t") =
  Ret [Node "Z1" None [Node "Z2" None [] "Zone_t"] "Zone_t"].
Proof.
  destruct (shallow_search_spec (fun l => l) (fun n => bool_decide (get_label n = "Zone_t")) 0 None
    (Node "Base" None [Node "Z1" None [Node "Z2" None [] "Zone_t"] "Zone_t"] "CGNSBase_t")) as [H _];
    [lia|done|]. rewrite H. vm_compute. reflexivity.
Defined.

(** The searches without range are the searches of range [[0, None]]. *)
Lemma unlimited_search_equiv sort predicate root :
  NodeParser_dfs sort predicate root = RangeLevelNodeParser_dfs sort predicate 0 None root /\
  NodeParser_bfs sort predicate root = RangeLevelNodeParser_bfs sort predicate 0 None root /\
  NodesIterator_dfs sort predicate root = RangeLevelNodesIterator_dfs sort predicate 0 None root /\
  NodesIterator_bfs sort predicate root = RangeLevelNodesIterator_bfs sort predicate 0 None root /\
  ShallowNodesIterator_dfs sort predicate root = ShallowRangeLevelNodesIterator_dfs sort predicate 0 None root /\
  ShallowNodesIterator_bfs sort predicate root = ShallowRangeLevelNodesIterator_bfs sort predicate 0 None root.
Proof.
  assert (Hlev : Forall (fun p : Z * node => 0 <= p.1) [(0, root)]) by (repeat constructor; cbn; lia).
  split_and!.
  - unfold NodeParser_dfs, RangeLevelNodeParser_dfs. cbn [Z.eqb andb cond1]. by rewrite NodeParser__dfs_eq.
  - apply (NodeParser_bfs_eq sort predicate (size root) [(0, root)] Hlev).
  - unfold NodesIterator_dfs, RangeLevelNodesIterator_dfs. cbn [Z.eqb andb cond1]. by rewrite NodesIterator__dfs_eq.
  - apply (NodesIterator_bfs_eq sort predicate (size root) [(0, root)] Hlev).
  - unfold ShallowNodesIterator_dfs, ShallowRangeLevelNodesIterator_dfs. cbn [Z.eqb andb cond1].
    by rewrite ShallowNodesIterator__dfs_eq.
  - apply (ShallowNodesIterator_bfs_eq sort predicate (size root) [(0, root)] Hlev).
Qed.

(** When the root itself is selected, the shallow depth-first search goes on under it, whereas
    the breadth-first one stops at once: the two searches then return different nodes. *)
Theorem shallow_root_mismatch sort predicate root sub :
  predicate root = true ->
  ShallowNodesIterator__dfs sort predicate (size root) root = Ret sub ->
  ShallowNodesIterator_bfs sort predicate root = Ret [root] /\
  ShallowNodesIterator_dfs sort predicate root = Ret (root :: sub).
Proof.
  intros Hp Hs. unfold ShallowNodesIterator_bfs, ShallowNodesIterator_dfs. rewrite Hs, Hp.
  split; [|done].
  pose proof (size_pos root). destruct (size root) as [|[|k]]; [lia|..]; cbn; by rewrite Hp.
Qed.

Lemma shallow_root_mismatch_witness :
  ShallowNodesIterator_bfs (fun l => l) (fun _ => true) (Node "A" None [Node "B" None [] "Zone_t"] "Zone_t") =
    Ret [Node "A" None [Node "B" None [] "Zone_t"] "Zone_t"] /\
  ShallowNodesIterator_dfs (fun l => l) (fun _ => true) (Node "A" None [Node "B" None [] "Zone_t"] "Zone_t") =
    Ret [Node "A" None [Node "B" None [] "Zone_t"] "Zone_t"; Node "B" None [] "Zone_t"].
Proof. apply shallow_root_mismatch; vm_compute; reflexivity. Defined.

End Parsers.
