(* ===== verification/Walkers.v ===== *)
(** * Searching nodes: [maia/pytree/walk]

    The predicates of [predicate.py], the walkers of [node_walker.py], [nodes_walker.py],
    [node_walkers.py] and [nodes_walkers.py] with their setters and their cache, and the functions
    of [walkers_api.py].  A generator is the list of what it yields; the warnings printed by the
    code are not represented. *)
From Stdlib Require Import Ascii.
From S2P Require Import Prelude Values Fnmatch Tree Parsers.

Local Open Scope Z_scope.

Module Walkers.
Import Values Tree Parsers.

(** ** Predicates *)

(** [np.array_equal] is a parameter of the predicates on values. *)
Class ArrayEqual := array_equal : value -> value -> bool.

Definition match_name (n : node) (name : string) : bool := Fnmatch.fnmatch (get_name n) name.
(** [val] is the converted value. *)
Definition match_value `{ArrayEqual} (n : node) (val : value) : bool := array_equal (get_raw n) val.
Definition match_str_label (n : node) (label : string) : bool := Fnmatch.fnmatch (get_label n) label.
(** A member of [CGK.Label] is given by its name. *)
Definition match_cgk_label (n : node) (label : string) : bool := bool_decide (get_label n = label).

(** A label given as a string or as a member of [CGK.Label]. *)
Inductive label_arg : Set := StrLabel (label : string) | CgkLabel (label : string).
Definition match_label (n : node) (label : label_arg) : bool :=
  match label with CgkLabel l => match_cgk_label n l | StrLabel l => match_str_label n l end.
Definition match_name_value `{ArrayEqual} (n : node) (name : string) (val : value) : bool :=
  match_name n name && match_value n val.
Definition match_name_label (n : node) (name : string) (label : label_arg) : bool :=
  match_name n name && match_label n label.
Definition match_value_label `{ArrayEqual} (n : node) (val : value) (label : label_arg) : bool :=
  match_value n val && match_label n label.
Definition match_name_value_label `{ArrayEqual} (n : node) (name : string) (val : value) (label : label_arg) : bool :=
  match_name n name && match_value n val && match_label n label.

(** What a caller may pass as a predicate. *)
Inductive query : Type :=
| QStr (s : string)
| QLabel (label : string)
| QPred (p : node -> bool)
| QArray (a : nparray)
| QOther.

Definition auto_predicate `{ArrayEqual} (q : query) : py (node -> bool) :=
  match q with
  | QStr s => Ret (if is_valid_label s true then (fun n => match_str_label n s) else (fun n => match_name n s))
  | QLabel l => Ret (fun n => match_cgk_label n l)
  | QPred p => Ret p
  | QArray a => Ret (fun n => match_value n (Some a))
  | QOther => Raise TypeError
  end.

(** ** Keyword arguments *)

(** A depth argument: None, an integer, a sequence of integers or None, or anything else. *)
Inductive pydepth : Type :=
| DNone
| DInt (z : Z)
| DSeq (l : list (option Z))
| DOther.

Record kwargs := Kw {
  kw_search : option string;
  kw_explore : option string;
  kw_depth : option pydepth;
  kw_sort : option (list node -> list node);
  kw_caching : option bool;
  kw_ancestors : option bool
}.
Definition no_kw : kwargs := Kw None None None None None None.
Definition with_depth (d : pydepth) (kw : kwargs) : kwargs :=
  Kw (kw_search kw) (kw_explore kw) (Some d) (kw_sort kw) (kw_caching kw) (kw_ancestors kw).
Definition with_explore (e : string) (kw : kwargs) : kwargs :=
  Kw (kw_search kw) (Some e) (kw_depth kw) (kw_sort kw) (kw_caching kw) (kw_ancestors kw).
Definition with_caching (c : bool) (kw : kwargs) : kwargs :=
  Kw (kw_search kw) (kw_explore kw) (kw_depth kw) (kw_sort kw) (Some c) (kw_ancestors kw).
Definition without_ancestors (kw : kwargs) : kwargs :=
  Kw (kw_search kw) (kw_explore kw) (kw_depth kw) (kw_sort kw) (kw_caching kw) None.

Inductive search_mode : Set := Bfs | Dfs.
Inductive explore_mode : Set := Deep | Shallow.

Definition search_of (value : string) : py search_mode :=
  if bool_decide (value = "bfs") then Ret Bfs
  else if bool_decide (value = "dfs") then Ret Dfs else Raise ValueError.

Definition explore_of (value : string) : py explore_mode :=
  if bool_decide (value = "deep") then Ret Deep
  else if bool_decide (value = "shallow") then Ret Shallow else Raise ValueError.

(** [x >= 0] raises TypeError on None. *)
Definition ge0 (x : option Z) : py bool := match x with Some z => Ret (0 <=? z) | None => Raise TypeError end.

(** The depth setter: only the two first entries of the stored sequence are read afterwards. *)
Definition depth_of (v : pydepth) : py (Z * option Z) :=
  match v with
  | DNone => Ret (0, None)
  | DInt z => if 0 <=? z then Ret (0, Some z) else Raise ValueError
  | DSeq l =>
      v1 ← py_get l 1;
      v0 ← py_get l 0;
      check1 ← match v1 with
               | Some z1 => match v0 with
                            | None => Raise TypeError
                            | Some z0 => if z0 <=? z1
                                         then (bs ← mapM ge0 l; Ret (forallb id bs)) else Ret false
                            end
               | None => Ret false
               end;
      check2 ← match v1 with None => ge0 v0 | Some _ => Ret false end;
      if bool_decide (length l <> 2%nat) && (check1 || check2) then Raise PlainException else
      match v0 with Some z0 => Ret (z0, v1) | None => Raise TypeError end
  | DOther => Raise ValueError
  end.

Definition is_unlimited (depth : Z * option Z) : bool := (depth.1 =? 0) && bool_decide (depth.2 = None).

(** ** [NodeWalker] *)
Record NodeWalker := MkNodeWalker {
  nw_root : node;
  nw_predicate : node -> bool;
  nw_search : search_mode;
  nw_depth : Z * option Z;
  nw_sort : list node -> list node
}.

(** The constructor knows the keywords [search], [depth] and [sort] only. *)
Definition NodeWalker_init (root : node) (predicate : node -> bool) (kw : kwargs) : py NodeWalker :=
  match kw_explore kw, kw_caching kw, kw_ancestors kw with
  | None, None, None =>
      search ← search_of (default "dfs" (kw_search kw));
      depth ← depth_of (default DNone (kw_depth kw));
      Ret (MkNodeWalker root predicate search depth (default (fun children => children) (kw_sort kw)))
  | _, _, _ => Raise TypeError
  end.

Definition NodeWalker_call (w : NodeWalker) : py (option node) :=
  let '(d0, d1) := nw_depth w in
  if is_unlimited (nw_depth w) then
    match nw_search w with
    | Bfs => NodeParser_bfs (nw_sort w) (nw_predicate w) (nw_root w)
    | Dfs => NodeParser_dfs (nw_sort w) (nw_predicate w) (nw_root w)
    end
  else
    match nw_search w with
    | Bfs => RangeLevelNodeParser_bfs (nw_sort w) (nw_predicate w) d0 d1 (nw_root w)
    | Dfs => RangeLevelNodeParser_dfs (nw_sort w) (nw_predicate w) d0 d1 (nw_root w)
    end.

Definition node_walk (root : node) (predicate : node -> bool) (kw : kwargs) : py (option node) :=
  w ← NodeWalker_init root predicate kw; NodeWalker_call w.

(** ** [NodesWalker] *)
Record NodesWalker := MkNodesWalker {
  ws_root : node;
  ws_predicate : node -> bool;
  ws_search : search_mode;
  ws_explore : explore_mode;
  ws_depth : Z * option Z;
  ws_sort : list node -> list node;
  ws_caching : bool;
  ws_cache : list node
}.

Definition NodesWalker_init (root : node) (predicate : node -> bool) (kw : kwargs) : py NodesWalker :=
  match kw_ancestors kw with
  | None =>
      search ← search_of (default "dfs" (kw_search kw));
      explore ← explore_of (default "shallow" (kw_explore kw));
      depth ← depth_of (default DNone (kw_depth kw));
      Ret (MkNodesWalker root predicate search explore depth
             (default (fun children => children) (kw_sort kw)) (default false (kw_caching kw)) [])
  | Some _ => Raise TypeError
  end.

(** The parser chosen by [_get_parser], run with the search of the walker. *)
Definition NodesWalker_parse (w : NodesWalker) : py (list node) :=
  let '(d0, d1) := ws_depth w in
  match ws_explore w, is_unlimited (ws_depth w), ws_search w with
  | Shallow, true, Bfs => ShallowNodesIterator_bfs (ws_sort w) (ws_predicate w) (ws_root w)
  | Shallow, true, Dfs => ShallowNodesIterator_dfs (ws_sort w) (ws_predicate w) (ws_root w)
  | Shallow, false, Bfs => ShallowRangeLevelNodesIterator_bfs (ws_sort w) (ws_predicate w) d0 d1 (ws_root w)
  | Shallow, false, Dfs => ShallowRangeLevelNodesIterator_dfs (ws_sort w) (ws_predicate w) d0 d1 (ws_root w)
  | Deep, true, Bfs => NodesIterator_bfs (ws_sort w) (ws_predicate w) (ws_root w)
  | Deep, true, Dfs => NodesIterator_dfs (ws_sort w) (ws_predicate w) (ws_root w)
  | Deep, false, Bfs => RangeLevelNodesIterator_bfs (ws_sort w) (ws_predicate w) d0 d1 (ws_root w)
  | Deep, false, Dfs => RangeLevelNodesIterator_dfs (ws_sort w) (ws_predicate w) d0 d1 (ws_root w)
  end.

(** Updates of a field; all but the caching flag reset the cache. *)
Definition ws_clean (w : NodesWalker) : NodesWalker :=
  MkNodesWalker (ws_root w) (ws_predicate w) (ws_search w) (ws_explore w) (ws_depth w) (ws_sort w) (ws_caching w) [].
Definition ws_set_root (n : node) (w : NodesWalker) : NodesWalker :=
  MkNodesWalker n (ws_predicate w) (ws_search w) (ws_explore w) (ws_depth w) (ws_sort w) (ws_caching w) [].
Definition ws_set_predicate (p : node -> bool) (w : NodesWalker) : NodesWalker :=
  MkNodesWalker (ws_root w) p (ws_search w) (ws_explore w) (ws_depth w) (ws_sort w) (ws_caching w) [].
Definition ws_set_search (s : string) (w : NodesWalker) : py NodesWalker :=
  s ← search_of s;
  Ret (MkNodesWalker (ws_root w) (ws_predicate w) s (ws_explore w) (ws_depth w) (ws_sort w) (ws_caching w) []).
Definition ws_set_explore (e : string) (w : NodesWalker) : py NodesWalker :=
  e ← explore_of e;
  Ret (MkNodesWalker (ws_root w) (ws_predicate w) (ws_search w) e (ws_depth w) (ws_sort w) (ws_caching w) []).
Definition ws_set_depth (d : pydepth) (w : NodesWalker) : py NodesWalker :=
  d ← depth_of d;
  Ret (MkNodesWalker (ws_root w) (ws_predicate w) (ws_search w) (ws_explore w) d (ws_sort w) (ws_caching w) []).
Definition ws_set_sort (f : list node -> list node) (w : NodesWalker) : NodesWalker :=
  MkNodesWalker (ws_root w) (ws_predicate w) (ws_search w) (ws_explore w) (ws_depth w) f (ws_caching w) [].
Definition ws_set_caching (b : bool) (w : NodesWalker) : NodesWalker :=
  MkNodesWalker (ws_root w) (ws_predicate w) (ws_search w) (ws_explore w) (ws_depth w) (ws_sort w) b (ws_cache w).
Definition ws_fill (l : list node) (w : NodesWalker) : NodesWalker :=
  MkNodesWalker (ws_root w) (ws_predicate w) (ws_search w) (ws_explore w) (ws_depth w) (ws_sort w) (ws_caching w) l.

Definition NodesWalker_call (w : NodesWalker) : NodesWalker * py (list node) :=
  if ws_caching w then
    match ws_cache w with
    | [] => match NodesWalker_parse w with
            | Ret l => (ws_fill l w, Ret l)
            | Raise e => (w, Raise e)
            end
    | cache => (w, Ret cache)
    end
  else (w, NodesWalker_parse w).

Definition nodes_walk (root : node) (predicate : node -> bool) (kw : kwargs) : py (list node) :=
  w ← NodesWalker_init root predicate kw; (NodesWalker_call w).2.

(** ** [NodeWalkers] *)

(** An entry of the list of predicates: a callable, or a dict with its own keyword arguments. *)
Inductive pred_arg : Type :=
| APred (p : node -> bool)
| ADict (p : option (node -> bool)) (kw : kwargs).

Definition is_dict (a : pred_arg) : bool := match a with ADict _ _ => true | APred _ => false end.

Fixpoint get_node_from_predicates_for_each__ (parent : node) (preds : list (node -> bool)) (for_each : list kwargs)
  : py (option node) :=
  match preds, for_each with
  | [p], kw :: _ => node_walk parent p kw
  | p :: preds', kw :: for_each' =>
      node ← node_walk parent p kw;
      match node with
      | Some node => get_node_from_predicates_for_each__ node preds' for_each'
      | None => Ret None
      end
  | [], _ => Ret None
  | _ :: _, [] => Raise IndexError
  end.

Fixpoint get_node_from_predicates__ (parent : node) (preds : list (node -> bool)) (kw : kwargs) : py (option node) :=
  match preds with
  | [] => Ret None
  | [p] => node_walk parent p kw
  | p :: preds' =>
      node ← node_walk parent p kw;
      match node with
      | Some node => get_node_from_predicates__ node preds' kw
      | None => Ret None
      end
  end.

(** A callable among dicts has no [items]; the missing predicates are reported at the end. *)
Definition deconv_entry (a : pred_arg) : py (option (node -> bool) * kwargs) :=
  match a with APred _ => Raise AttributeError | ADict p kw => Ret (p, kw) end.

Definition _deconv_kwargs (predicates : list pred_arg) : py (list (node -> bool) * list kwargs) :=
  entries ← mapM deconv_entry predicates;
  let preds := omap fst entries in
  if bool_decide (length preds <> length predicates) then Raise ValueError
  else Ret (preds, entries.*2).

Definition callable_entry (a : pred_arg) : option (node -> bool) :=
  match a with APred p => Some p | ADict _ _ => None end.

Definition NodeWalkers_call (root : node) (predicates : list pred_arg) (kw : kwargs) : py (option node) :=
  if existsb is_dict predicates then
    r ← _deconv_kwargs predicates; get_node_from_predicates_for_each__ root r.1 r.2
  else get_node_from_predicates__ root (omap callable_entry predicates) kw.

(** ** [NodesWalkers] *)
Fixpoint iter_nodes_from_predicates_for_each__ (parent : node) (preds : list (node -> bool)) (for_each : list kwargs)
  : py (list node) :=
  match preds, for_each with
  | [p], kw :: _ => nodes_walk parent p kw
  | p :: preds', kw :: for_each' =>
      nodes ← nodes_walk parent p kw;
      subs ← mapM (fun node => iter_nodes_from_predicates_for_each__ node preds' for_each') nodes;
      Ret (concat subs)
  | [], _ => Ret []
  | _ :: _, [] => Raise IndexError
  end.

Fixpoint iter_nodes_from_predicates__ (parent : node) (preds : list (node -> bool)) (kw : kwargs) : py (list node) :=
  match preds with
  | [] => Ret []
  | [p] => nodes_walk parent p kw
  | p :: preds' =>
      nodes ← nodes_walk parent p kw;
      subs ← mapM (fun node => iter_nodes_from_predicates__ node preds' kw) nodes;
      Ret (concat subs)
  end.

Fixpoint iter_nodes_from_predicates_with_parents_for_each__ (parent : node) (preds : list (node -> bool))
    (for_each : list kwargs) : py (list (list node)) :=
  match preds, for_each with
  | [p], kw :: _ => nodes ← nodes_walk parent p kw; Ret (map (fun node => [node]) nodes)
  | p :: preds', kw :: for_each' =>
      nodes ← nodes_walk parent p kw;
      subs ← mapM (fun node =>
               l ← iter_nodes_from_predicates_with_parents_for_each__ node preds' for_each';
               Ret (map (cons node) l)) nodes;
      Ret (concat subs)
  | [], _ => Ret []
  | _ :: _, [] => Raise IndexError
  end.

Fixpoint iter_nodes_from_predicates_with_parents__ (parent : node) (preds : list (node -> bool)) (kw : kwargs)
  : py (list (list node)) :=
  match preds with
  | [] => Ret []
  | [p] => nodes ← nodes_walk parent p kw; Ret (map (fun node => [node]) nodes)
  | p :: preds' =>
      nodes ← nodes_walk parent p kw;
      subs ← mapM (fun node =>
               l ← iter_nodes_from_predicates_with_parents__ node preds' kw;
               Ret (map (cons node) l)) nodes;
      Ret (concat subs)
  end.

(** Nodes, or tuples of nodes when the ancestors are kept. *)
Inductive walk_result : Type :=
| Nodes (l : list node)
| Tuples (l : list (list node)).

Definition is_empty (r : walk_result) : bool :=
  match r with Nodes [] | Tuples [] => true | _ => false end.

Record NodesWalkers := MkNodesWalkers {
  wm_root : node;
  wm_predicates : list pred_arg;
  wm_kwargs : kwargs;
  wm_ancestors : bool;
  wm_cache : walk_result
}.

Definition NodesWalkers_init (root : node) (predicates : list pred_arg) (kw : kwargs) : NodesWalkers :=
  MkNodesWalkers root predicates (without_ancestors kw) (default false (kw_ancestors kw)) (Nodes []).

Definition wm_caching (w : NodesWalkers) : bool := default false (kw_caching (wm_kwargs w)).

(** The dicts lose their caching flag. *)
Definition no_caching (kw : kwargs) : kwargs :=
  match kw_caching kw with Some true => with_caching false kw | _ => kw end.

(** The search made by [_parse] and [_parse_with_parents]: [kw] are the keywords used in the absence
    of dicts. *)
Definition NodesWalkers_search (w : NodesWalkers) (kw : kwargs) : py walk_result :=
  if existsb is_dict (wm_predicates w) then
    r ← _deconv_kwargs (wm_predicates w);
    let for_each := no_caching <$> r.2 in
    if wm_ancestors w
    then Tuples <$> iter_nodes_from_predicates_with_parents_for_each__ (wm_root w) r.1 for_each
    else Nodes <$> iter_nodes_from_predicates_for_each__ (wm_root w) r.1 for_each
  else
    let preds := omap callable_entry (wm_predicates w) in
    if wm_ancestors w
    then Tuples <$> iter_nodes_from_predicates_with_parents__ (wm_root w) preds kw
    else Nodes <$> iter_nodes_from_predicates__ (wm_root w) preds kw.

Definition NodesWalkers_call (w : NodesWalkers) : NodesWalkers * py walk_result :=
  if wm_caching w then
    if is_empty (wm_cache w) then
      match NodesWalkers_search w (with_caching false (wm_kwargs w)) with
      | Ret r => (MkNodesWalkers (wm_root w) (wm_predicates w) (wm_kwargs w) (wm_ancestors w) r, Ret r)
      | Raise e => (w, Raise e)
      end
    else (w, Ret (wm_cache w))
  else (w, NodesWalkers_search w (wm_kwargs w)).

(** ** [walkers_api.py] *)
Section api.
Context `{ArrayEqual}.

Definition get_node_from_predicate (root : node) (predicate : query) (kw : kwargs) : py (option node) :=
  p ← auto_predicate predicate; node_walk root p kw.

Definition request_node_from_predicate (root : node) (predicate : query) (dflt : option node) (kw : kwargs) : py node :=
  n ← get_node_from_predicate root predicate kw;
  match n with
  | Some n => Ret n
  | None => match dflt with Some d => Ret d | None => Raise NotFoundError end
  end.

Definition get_nodes_from_predicate (root : node) (predicate : query) (kw : kwargs) : py (list node) :=
  p ← auto_predicate predicate; nodes_walk root p (with_caching true kw).

Definition iter_nodes_from_predicate (root : node) (predicate : query) (kw : kwargs) : py (list node) :=
  p ← auto_predicate predicate; nodes_walk root p (with_caching false kw).

(** The argument of the functions that take a chain of predicates. *)
Inductive query_entry : Type :=
| EQuery (q : query)
| EDict (q : option query) (kw : kwargs).
Inductive queries : Type :=
| QsPath (s : string)
| QsList (l : list query_entry)
| QsOther.

Definition auto_entry (e : query_entry) : py pred_arg :=
  match e with
  | EQuery q => APred <$> auto_predicate q
  | EDict (Some q) kw => p ← auto_predicate q; Ret (ADict (Some p) kw)
  | EDict None kw => Raise KeyError
  end.

Definition auto_predicates (predicates : queries) : py (list pred_arg) :=
  match predicates with
  | QsPath s => mapM (fun p => APred <$> auto_predicate (QStr p)) (py_split "/"%char s)
  | QsList l => mapM auto_entry l
  | QsOther => Raise TypeError
  end.

Definition get_node_from_predicates (root : node) (predicates : queries) (kw : kwargs) : py (option node) :=
  ps ← auto_predicates predicates; NodeWalkers_call root ps kw.

Definition iter_nodes_from_predicates (root : node) (predicates : queries) (kw : kwargs) : py walk_result :=
  ps ← auto_predicates predicates; (NodesWalkers_call (NodesWalkers_init root ps (with_caching false kw))).2.

Definition get_nodes_from_predicates (root : node) (predicates : queries) (kw : kwargs) : py walk_result :=
  ps ← auto_predicates predicates; (NodesWalkers_call (NodesWalkers_init root ps (with_caching true kw))).2.

(** Legacy aliases: the exploration is deep by default. *)
Definition explore_deep (kw : kwargs) : kwargs :=
  match kw_explore kw with None => with_explore "deep" kw | Some _ => kw end.

Definition getNodeFromPredicate root predicate kw := get_node_from_predicate root predicate kw.
Definition requestNodeFromPredicate root predicate dflt kw := request_node_from_predicate root predicate dflt kw.
Definition getNodesFromPredicate root predicate kw := get_nodes_from_predicate root predicate (explore_deep kw).
Definition iterNodesFromPredicate root predicate kw := iter_nodes_from_predicate root predicate (explore_deep kw).
Definition getNodeFromPredicates root predicates kw := get_node_from_predicates root predicates (explore_deep kw).
Definition getNodesFromPredicates root predicates kw := get_nodes_from_predicates root predicates (explore_deep kw).
Definition iterNodesFromPredicates root predicates kw := iter_nodes_from_predicates root predicates (explore_deep kw).

End api.

(** ** The cache of a walker *)

(** The calls a client makes on a [NodesWalker]. *)
Inductive op : Type :=
| OpRoot (n : node)
| OpPredicate (p : node -> bool)
| OpSearch (s : string)
| OpExplore (e : string)
| OpDepth (d : pydepth)
| OpSort (f : list node -> list node)
| OpCaching (b : bool)
| OpClean
| OpCall.

(** A setter that raises leaves the walker unchanged. *)
Definition keep_on_error (w : NodesWalker) (r : py NodesWalker) : NodesWalker :=
  match r with Ret w' => w' | Raise _ => w end.

Definition run_op (w : NodesWalker) (o : op) : NodesWalker :=
  match o with
  | OpRoot n => ws_set_root n w
  | OpPredicate p => ws_set_predicate p w
  | OpSearch s => keep_on_error w (ws_set_search s w)
  | OpExplore e => keep_on_error w (ws_set_explore e w)
  | OpDepth d => keep_on_error w (ws_set_depth d w)
  | OpSort f => ws_set_sort f w
  | OpCaching b => ws_set_caching b w
  | OpClean => ws_clean w
  | OpCall => (NodesWalker_call w).1
  end.

(** The cache is empty or holds the result of the current search. *)
Definition cache_ok (w : NodesWalker) : Prop := ws_cache w = [] \/ NodesWalker_parse w = Ret (ws_cache w).

Lemma run_op_cache_ok w o : cache_ok w -> cache_ok (run_op w o).
Proof.
  intros Hw. destruct o as [n|p|s|e|d|f|b| |]; cbn [run_op]; try (by left).
  - unfold ws_set_search. destruct (search_of s); [by left|done].
  - unfold ws_set_explore. destruct (explore_of e); [by left|done].
  - unfold ws_set_depth. destruct (depth_of d); [by left|done].
  - destruct Hw as [Hw|Hw]; [by left|right; exact Hw].
  - unfold NodesWalker_call. destruct (ws_caching w); [|done].
    destruct (ws_cache w) as [|n l] eqn:E; [|done].
    destruct (NodesWalker_parse w) as [l|e] eqn:Ep; [|done]. right. exact Ep.
Qed.

(** C4: Caching is transparent: whatever the sequence of attribute changes, of failed changes, of
    resets and of calls made on a walker, calling it returns what a fresh search with its current
    attributes returns. *)
Theorem cache_transparent root predicate kw w ops :
  NodesWalker_init root predicate kw = Ret w ->
  let w' := foldl run_op w ops in (NodesWalker_call w').2 = NodesWalker_parse w'.
Proof.
  intros Hinit w'. assert (Hw' : cache_ok w').
  { assert (Hw : cache_ok w).
    { unfold NodesWalker_init in Hinit. destruct (kw_ancestors kw); [done|]. inv_py. by left. }
    unfold w'. clear Hinit w'. revert w Hw. induction ops as [|o ops IH]; intros w Hw; [done|].
    cbn [foldl]. by apply IH, run_op_cache_ok. }
  unfold NodesWalker_call. destruct (ws_caching w'); [|done].
  destruct Hw' as [E|E]; destruct (ws_cache w') as [|n l]; try done; by destruct (NodesWalker_parse w').
Qed.

Lemma cache_transparent_witness :
  exists w, NodesWalker_init (Node "A" None [Node "B" None [] "Zone_t"] "Zone_t") (fun _ => true)
              (with_caching true no_kw) = Ret w /\
    let w' := foldl run_op w [OpCall; OpSearch "bfs"; OpCall] in (NodesWalker_call w').2 = NodesWalker_parse w'.
Proof.
  eexists. split; [reflexivity|].
  apply (cache_transparent (Node "A" None [Node "B" None [] "Zone_t"] "Zone_t") (fun _ => true)
           (with_caching true no_kw)). reflexivity.
Defined.

(** ** Depth arguments *)

Lemma py_get_0 {A} (x : A) l : py_get (x :: l) 0 = Ret x.
Proof. exact (py_get_lookup (x :: l) 0 x eq_refl). Qed.
Lemma py_get_1 {A} (x y : A) l : py_get (x :: y :: l) 1 = Ret y.
Proof. exact (py_get_lookup (x :: y :: l) 1 y eq_refl). Qed.

Lemma mapM_ge0 l :
  mapM ge0 l = if existsb (fun x => bool_decide (x = None)) l then Raise TypeError
               else Ret ((fun x => match x with Some z => 0 <=? z | None => false end) <$> l).
Proof.
  induction l as [|[z|] l IH]; [done| |done]. cbn -[Z.leb]. rewrite IH. by destruct (existsb _ l).
Qed.

Lemma forallb_ge0 (l : list (option Z)) :
  forallb id ((fun x => match x with Some z => 0 <=? z | None => false end) <$> l) =
  forallb (fun x => match x with Some z => 0 <=? z | None => false end) l.
Proof. induction l as [|x l IH]; [done|]. cbn -[Z.leb]. by rewrite IH. Qed.

(** The depth setter, on every argument: a pair is always accepted when it can be compared,
    including the empty or negative ranges that its error message excludes; longer sequences are
    refused when the range is a sensible one and accepted otherwise. *)
Theorem depth_of_spec v :
  match v with
  | DNone => depth_of v = Ret (0, None)
  | DInt z => depth_of v = if 0 <=? z then Ret (0, Some z) else Raise ValueError
  | DSeq [] | DSeq [_] => depth_of v = Raise IndexError
  | DSeq [Some z0; z1] => depth_of v = Ret (z0, z1)
  | DSeq (None :: _ :: _) => depth_of v = Raise TypeError
  | DSeq (Some z0 :: None :: _ :: _) => depth_of v = if 0 <=? z0 then Raise PlainException else Ret (z0, None)
  | DSeq (Some z0 :: Some z1 :: rest) =>
      depth_of v = if z0 <=? z1 then
                     if existsb (fun x => bool_decide (x = None)) rest then Raise TypeError
                     else if (0 <=? z0) && forallb (fun x => match x with Some z => 0 <=? z | None => false end) rest
                     then Raise PlainException else Ret (z0, Some z1)
                   else Ret (z0, Some z1)
  | DOther => depth_of v = Raise ValueError
  end.
Proof.
  destruct v as [|z|[|v0 [|v1 rest]]|]; [done|done|done|by destruct v0| |done].
  unfold depth_of. rewrite py_get_0, py_get_1. cbn [mbind py_bind].
  assert (Hlen : bool_decide (length (v0 :: v1 :: rest) <> 2%nat) = match rest with [] => false | _ => true end).
  { destruct rest; [apply bool_decide_eq_false_2; cbn; lia|apply bool_decide_eq_true_2; cbn; lia]. }
  rewrite Hlen. destruct v0 as [z0|], v1 as [z1|]; try done; cbn [mbind py_bind ge0].
  - cbn [mapM ge0 mbind py_bind]. rewrite mapM_ge0. destruct (Z.leb_spec z0 z1); [|by destruct rest].
    destruct rest as [|x rest]; [done|]. destruct (existsb _ (x :: rest)); [done|].
    cbn [mbind py_bind forallb id mret py_ret]. rewrite forallb_ge0.
    destruct (Z.leb_spec 0 z0); [|done]. destruct (Z.leb_spec 0 z1); [|lia]. cbn [andb].
    by rewrite orb_false_r.
  - destruct rest; [done|]. by destruct (0 <=? z0).
Qed.

(** ** Searches end *)

Lemma iterators_total sort predicate d0 d1 root :
  (forall l, sort l ≡ₚ l) ->
  (exists l, RangeLevelNodesIterator_dfs sort predicate d0 d1 root = Ret l) /\
  (exists l, RangeLevelNodesIterator_bfs sort predicate d0 d1 root = Ret l) /\
  (exists l, ShallowRangeLevelNodesIterator_dfs sort predicate d0 d1 root = Ret l) /\
  (exists l, ShallowRangeLevelNodesIterator_bfs sort predicate d0 d1 root = Ret l).
Proof.
  intros Hsort. pose proof (next_deep_size sort Hsort d1) as Hd.
  pose proof (next_shallow_size sort predicate Hsort d0 d1) as Hs.
  assert (Hch : Forall (fun c => size c <= size root)%nat (sort (get_children root))).
  { apply (children_fuel sort Hsort). lia. }
  assert (Hroot : (sum_list_with size [root] <= size root)%nat) by (cbn; lia). split_and!.
  - unfold RangeLevelNodesIterator_dfs. rewrite (RangeLevelNodesIterator__dfs_eq sort predicate Hsort) by done.
    destruct (gdfs_spec _ (emit predicate d0) Hd (size root) 1 _ Hch) as (ls & _ & ->).
    destruct (cond1 d1); by eexists.
  - unfold RangeLevelNodesIterator_bfs. rewrite RangeLevelNodesIterator_bfs_eq.
    eexists. by apply (gbfs_spec _ (emit predicate d0) Hd (size root) (size root) 0 [root]).
  - unfold ShallowRangeLevelNodesIterator_dfs.
    rewrite (ShallowRangeLevelNodesIterator__dfs_eq sort predicate Hsort) by done.
    destruct (gdfs_spec _ (emit predicate d0) Hs (size root) 1 _ Hch) as (ls & _ & ->).
    destruct (cond1 d1); by eexists.
  - unfold ShallowRangeLevelNodesIterator_bfs. rewrite ShallowRangeLevelNodesIterator_bfs_eq.
    eexists. by apply (gbfs_spec _ (emit predicate d0) Hs (size root) (size root) 0 [root]).
Qed.

Lemma parse_total w : (forall l, ws_sort w l ≡ₚ l) -> exists l, NodesWalker_parse w = Ret l.
Proof.
  intros Hsort. unfold NodesWalker_parse.
  destruct (unlimited_search_equiv (ws_sort w) (ws_predicate w) (ws_root w)) as (_ & _ & -> & -> & -> & ->).
  destruct (ws_depth w) as [d0 d1].
  destruct (iterators_total (ws_sort w) (ws_predicate w) d0 d1 (ws_root w) Hsort) as (? & ? & ? & ?).
  destruct (iterators_total (ws_sort w) (ws_predicate w) 0 None (ws_root w) Hsort) as (? & ? & ? & ?).
  by destruct (ws_explore w), (is_unlimited _), (ws_search w).
Qed.

(** Keyword arguments a walker accepts, with a [sort] that permutes the children. *)
Definition ok_kwargs (kw : kwargs) : Prop :=
  (forall root predicate, exists w, NodesWalker_init root predicate kw = Ret w) /\
  match kw_sort kw with Some f => forall l, f l ≡ₚ l | None => True end.

Lemma nodes_walk_total kw root predicate : ok_kwargs kw -> exists l, nodes_walk root predicate kw = Ret l.
Proof.
  intros [Hinit Hsort]. destruct (Hinit root predicate) as [w Hw]. unfold nodes_walk. rewrite Hw. cbn [mbind py_bind].
  assert (Hw' : (forall l, ws_sort w l ≡ₚ l) /\ ws_cache w = []).
  { unfold NodesWalker_init in Hw. destruct (kw_ancestors kw); [done|]. inv_py. cbn. by destruct (kw_sort kw). }
  destruct Hw' as [Hs Hc]. destruct (parse_total w Hs) as [l Hl]. unfold NodesWalker_call. rewrite Hc, Hl.
  exists l. by destruct (ws_caching w).
Qed.

(** ** Chains of predicates *)

(** The chains of nodes selected by a list of predicates: each node is found under the previous one. *)
Inductive Chain (kw : kwargs) : node -> list (node -> bool) -> list node -> Prop :=
| Chain_last parent p l n :
    nodes_walk parent p kw = Ret l -> n ∈ l -> Chain kw parent [p] [n]
| Chain_cons parent p preds l n chain :
    nodes_walk parent p kw = Ret l -> n ∈ l -> Chain kw n preds chain -> Chain kw parent (p :: preds) (n :: chain).

Lemma mapM_total {A B} (f : A -> py B) (l : list A) :
  (forall x, exists y, f x = Ret y) -> exists k, mapM f l = Ret k.
Proof.
  intros Hf. induction l as [|x l [k IH]]; [by exists []|]. destruct (Hf x) as [y Hy].
  exists (y :: k). cbn. by rewrite Hy, IH.
Qed.

Lemma parents_cons parent p q preds kw :
  iter_nodes_from_predicates_with_parents__ parent (p :: q :: preds) kw =
  nodes ← nodes_walk parent p kw;
  subs ← mapM (fun node => l ← iter_nodes_from_predicates_with_parents__ node (q :: preds) kw;
                           Ret (map (cons node) l)) nodes;
  Ret (concat subs).
Proof. done. Qed.

Lemma nodes_cons parent p q preds kw :
  iter_nodes_from_predicates__ parent (p :: q :: preds) kw =
  nodes ← nodes_walk parent p kw;
  subs ← mapM (fun node => iter_nodes_from_predicates__ node (q :: preds) kw) nodes;
  Ret (concat subs).
Proof. done. Qed.

Lemma elem_of_map_cons (n : node) chains c : c ∈ map (cons n) chains <-> exists c', c = n :: c' /\ c' ∈ chains.
Proof. exact (list_elem_of_fmap (cons n) chains c). Qed.

Lemma omap_last_cons (n : node) chains :
  Forall (fun c => c <> []) chains -> omap last (map (cons n) chains) = omap last chains.
Proof.
  induction 1 as [|c chains Hc _ IH]; [done|]. cbn. destruct c as [|x c]; [done|]. by rewrite IH.
Qed.

Lemma omap_concat {A B} (f : A -> option B) (ls : list (list A)) :
  omap f (concat ls) = concat (map (fun l => omap f l) ls).
Proof. induction ls as [|l ls IH]; [done|]. cbn [concat map]. by rewrite omap_app, IH. Qed.

(** C3: A search along a list of predicates, with valid keyword arguments, ends and returns, when the
    ancestors are kept, exactly the chains of nodes in which each node is found by the search of the
    next predicate under the previous node; without the ancestors, the last nodes of these chains in
    the same order. *)
Theorem chain_search_spec kw parent preds :
  ok_kwargs kw ->
  exists chains,
    iter_nodes_from_predicates_with_parents__ parent preds kw = Ret chains /\
    (forall c, c ∈ chains <-> Chain kw parent preds c) /\
    Forall (fun c => c <> []) chains /\
    iter_nodes_from_predicates__ parent preds kw = Ret (omap last chains).
Proof.
  intros Hkw. revert parent. induction preds as [|p preds IH]; intros parent.
  { exists []. split_and!; [done| |done|done]. intros c. split; [by intros ?%not_elem_of_nil|by inversion 1]. }
  destruct (nodes_walk_total kw parent p Hkw) as [l Hl]. destruct preds as [|q preds].
  { exists (map (fun n => [n]) l). cbn [iter_nodes_from_predicates_with_parents__ iter_nodes_from_predicates__].
    rewrite Hl. split_and!; [done| | |].
    - intros c. rewrite (list_elem_of_fmap (fun n => [n]) l c : c ∈ map _ l <-> _). split.
      + intros (n & -> & Hn). by econstructor.
      + inversion 1 as [? ? l' n Hl' Hn|? ? ? ? ? ? _ _ Hc]; subst; [|inversion Hc].
        exists n. split; [done|]. congruence.
    - apply Forall_fmap, Forall_true. done.
    - cbn. f_equal. clear. induction l as [|n l IH]; [done|]. cbn. by f_equal. }
  rewrite parents_cons, nodes_cons, Hl. cbn [mbind py_bind].
  assert (Hparts : exists parts,
    mapM (fun node => l ← iter_nodes_from_predicates_with_parents__ node (q :: preds) kw;
                      Ret (map (cons node) l)) l = Ret parts /\
    (forall c, c ∈ concat parts <-> exists n c', c = n :: c' /\ n ∈ l /\ Chain kw n (q :: preds) c') /\
    mapM (fun node => iter_nodes_from_predicates__ node (q :: preds) kw) l = Ret (map (fun cs => omap last cs) parts)).
  { clear Hl. induction l as [|n l (parts & H1 & H2 & H3)].
    { exists []. split_and!; [done| |done]. intros c. split; [by intros ?%not_elem_of_nil|].
      by intros (? & ? & _ & ?%not_elem_of_nil & _). }
    destruct (IH n) as (chains & E1 & E2 & E3 & E4). exists (map (cons n) chains :: parts). split_and!.
    - cbn [mapM]. rewrite E1. cbn [mbind py_bind]. by rewrite H1.
    - intros c. cbn [concat]. rewrite elem_of_app, H2, elem_of_map_cons. setoid_rewrite E2.
      setoid_rewrite elem_of_cons. naive_solver.
    - cbn [mapM]. rewrite E4. cbn [mbind py_bind]. rewrite H3. cbn. by rewrite omap_last_cons. }
  destruct Hparts as (parts & H1 & H2 & H3). rewrite H1, H3. exists (concat parts).
  cbn [mbind py_bind]. split_and!; [done| | |by rewrite omap_concat].
  - intros c. rewrite H2. split; [intros (n & c' & -> & Hn & Hc); by econstructor|].
    inversion 1 as [? ? ? ? ? ?|? ? ? l' n c' Hl' Hn Hc]; subst. exists n, c'. split_and!; [done| |done]. congruence.
  - apply Forall_forall. intros c (n & c' & -> & _)%H2. done.
Qed.

Lemma ok_no_kw : ok_kwargs no_kw.
Proof. split; [|done]. intros. by eexists. Qed.

Lemma chain_search_spec_witness :
  exists chains,
    iter_nodes_from_predicates_with_parents__
      (Node "Tree" None [Node "Base" None [Node "Zone" None [] "Zone_t"] "CGNSBase_t"] "CGNSTree_t")
      [(fun n => match_cgk_label n "CGNSBase_t"); (fun n => match_cgk_label n "Zone_t")] no_kw = Ret chains /\
    map get_names chains = [["Base"; "Zone"]].
Proof.
  destruct (chain_search_spec no_kw
    (Node "Tree" None [Node "Base" None [Node "Zone" None [] "Zone_t"] "CGNSBase_t"] "CGNSTree_t")
    [(fun n => match_cgk_label n "CGNSBase_t"); (fun n => match_cgk_label n "Zone_t")] ok_no_kw)
    as (chains & H & _).
  exists chains. split; [exact H|]. vm_compute in H. by injection H as <-.
Defined.

(** The list and the iterator versions of the searches return the same nodes or raise the same
    exception, for one predicate and for chains of predicates: the caching they force has no effect
    on the result. *)
Theorem get_iter_agree `{ArrayEqual} root q qs kw :
  get_nodes_from_predicate root q kw = iter_nodes_from_predicate root q kw /\
  get_nodes_from_predicates root qs kw = iter_nodes_from_predicates root qs kw.
Proof.
  split.
  - unfold get_nodes_from_predicate, iter_nodes_from_predicate, nodes_walk.
    destruct (auto_predicate q) as [p|e]; [|done]. cbn [mbind py_bind].
    unfold NodesWalker_init. cbn. destruct (kw_ancestors kw); [done|].
    destruct (search_of _) as [s|]; [|done]. destruct (explore_of _) as [ex|]; [|done].
    destruct (depth_of _) as [d|]; [|done]. cbn [mbind py_bind].
    unfold NodesWalker_call. cbn. by destruct (NodesWalker_parse _).
  - unfold get_nodes_from_predicates, iter_nodes_from_predicates.
    destruct (auto_predicates qs) as [ps|e]; [|done]. cbn [mbind py_bind].
    set (wt := NodesWalkers_init root ps (with_caching true kw)).
    set (wf := NodesWalkers_init root ps (with_caching false kw)).
    assert (Hs : NodesWalkers_search wt (with_caching false (wm_kwargs wt)) = NodesWalkers_search wf (wm_kwargs wf))
      by done.
    unfold NodesWalkers_call. change (wm_caching wt) with true. change (wm_caching wf) with false.
    cbn [is_empty wm_cache wt NodesWalkers_init]. rewrite Hs. by destruct (NodesWalkers_search wf _).
Qed.

(** The legacy alias [getNodeFromPredicates] raises TypeError on any non-empty chain of
    predicates: the [explore] keyword it adds is not accepted by the walker it reaches. *)
Theorem getNodeFromPredicates_raises `{ArrayEqual} root e (l : list query_entry) kw ps :
  mapM auto_entry (e :: l) = Ret ps -> existsb is_dict ps = false ->
  getNodeFromPredicates root (QsList (e :: l)) kw = Raise TypeError.
Proof.
  intros Hps Hdict. unfold getNodeFromPredicates, get_node_from_predicates. cbn [auto_predicates].
  rewrite Hps. cbn [mbind py_bind]. unfold NodeWalkers_call. rewrite Hdict.
  apply py_mapM_Ret in Hps. destruct ps as [|a ps]; [by inversion Hps|].
  destruct a as [p|p k]; [|done]. cbn [omap list_omap callable_entry].
  assert (Hw : forall n q, node_walk n q (explore_deep kw) = Raise TypeError).
  { intros n q. unfold node_walk, NodeWalker_init, explore_deep. by destruct kw as [? [] ? ? ? ?]. }
  destruct (omap callable_entry ps); cbn; by rewrite Hw.
Qed.

Lemma getNodeFromPredicates_raises_witness :
  exists ae : ArrayEqual,
  getNodeFromPredicates (Node "Base" None [Node "Zone" None [] "Zone_t"] "CGNSBase_t")
    (QsList [EQuery (QStr "Zone_t")]) no_kw = Raise TypeError.
Proof.
  exists (fun _ _ => true). eapply getNodeFromPredicates_raises; [reflexivity|reflexivity].
Defined.

End Walkers.
