(* ===== verification/Search.v ===== *)
(** * Access by name, label and path, removals

    The specialised searches generated by [maia/pytree/walk/generate.py] and [generate_utils.py],
    the removals of [remove_nodes.py], the path functions of [maia/pytree/path_utils.py],
    [update_child] of [maia/pytree/node/create.py] and [belongs_to_family] of [predicate.py].  A
    function that mutates a tree returns the tree after the call. *)
From Stdlib Require Import Ascii.
From S2P Require Import Prelude Values Fnmatch Tree Parsers Walkers.

Local Open Scope Z_scope.

Module Search.
Import Values Tree Parsers Walkers.

(** ** Generated functions *)

(** [partial(function, depth=[1,1])]: the caller may still give another depth. *)
Definition _overload_depth1 {A} (function : kwargs -> A) (kw : kwargs) : A :=
  function (match kw_depth kw with
            | None => with_depth (DSeq [Some 1; Some 1]) kw
            | Some _ => kw
            end).
Definition _overload_depth {A} (depth : Z) (function : kwargs -> A) (kw : kwargs) : A :=
  function (match kw_depth kw with
            | None => with_depth (DInt depth) kw
            | Some _ => kw
            end).

(** The specialised function passes its predicate applied to the arguments of the caller. *)
Definition _overload_predicate {A B} (function : query -> A) (predicate : node -> B -> bool) (arg : B) : A :=
  function (QPred (fun n => predicate n arg)).

Section generated.
Context `{ArrayEqual}.

Definition get_node_from_name (root : node) (name : string) : kwargs -> py (option node) :=
  _overload_predicate (get_node_from_predicate root) match_name name.
Definition get_node_from_label (root : node) (label : label_arg) : kwargs -> py (option node) :=
  _overload_predicate (get_node_from_predicate root) match_label label.
Definition get_child_from_predicate (root : node) (q : query) : kwargs -> py (option node) :=
  _overload_depth1 (get_node_from_predicate root q).
Definition get_child_from_name (root : node) (name : string) : kwargs -> py (option node) :=
  _overload_depth1 (get_node_from_name root name).
Definition get_child_from_label (root : node) (label : label_arg) : kwargs -> py (option node) :=
  _overload_depth1 (get_node_from_label root label).
Definition iter_nodes_from_label (root : node) (label : label_arg) : kwargs -> py (list node) :=
  _overload_predicate (iter_nodes_from_predicate root) match_label label.
Definition iter_children_from_label (root : node) (label : label_arg) : kwargs -> py (list node) :=
  _overload_depth1 (iter_nodes_from_label root label).
Definition get_children_from_predicate (root : node) (q : query) : kwargs -> py (list node) :=
  _overload_depth1 (get_nodes_from_predicate root q).
Definition iter_children_from_predicates (root : node) (qs : queries) : kwargs -> py walk_result :=
  _overload_depth1 (iter_nodes_from_predicates root qs).
Definition get_children_from_predicates (root : node) (qs : queries) : kwargs -> py walk_result :=
  _overload_depth1 (get_nodes_from_predicates root qs).

(** ** Zones and bases *)
Definition iter_all_Zone_t (root : node) : py (list node) :=
  if bool_decide (get_label root = "CGNSBase_t") then iter_children_from_label root (StrLabel "Zone_t") no_kw
  else if bool_decide (get_label root = "CGNSTree_t") then
    bases ← iter_children_from_label root (StrLabel "CGNSBase_t") no_kw;
    zones ← mapM (fun base => iter_children_from_label base (StrLabel "Zone_t") no_kw) bases;
    Ret (concat zones)
  else Ret [].
Definition get_all_Zone_t (root : node) : py (list node) := iter_all_Zone_t root.

Definition iter_all_CGNSBase_t (root : node) : py (list node) :=
  if bool_decide (get_label root = "CGNSTree_t")
  then iter_children_from_label root (StrLabel "CGNSBase_t") no_kw else Ret [].
Definition get_all_CGNSBase_t (root : node) : py (list node) := iter_all_CGNSBase_t root.

(** ** Families *)

(** [N.get_value(n) == target_family] *)
Definition value_is (n : node) (s : string) : py bool :=
  v ← get_value n false;
  Ret (match v with Text (Str t) => bool_decide (t = s) | _ => false end).

Fixpoint any_value_is (ns : list node) (s : string) : py bool :=
  match ns with
  | [] => Ret false
  | n :: ns' => b ← value_is n s; if (b : bool) then Ret true else any_value_is ns' s
  end.

Definition belongs_to_family (n : node) (target_family : string) (allow_additional : bool) : py bool :=
  family_name_n ← get_node_from_predicate n (QStr "FamilyName_t") (with_depth (DInt 1) no_kw);
  first ← match family_name_n with Some f => value_is f target_family | None => Ret false end;
  if (first : bool) then Ret true else
  if allow_additional then
    additional ← iter_nodes_from_predicate n (QStr "AdditionalFamilyName_t") (with_depth (DInt 1) no_kw);
    any_value_is additional target_family
  else Ret false.
End generated.

(** ** Paths *)
Abbreviation slash := "/"%char.

(** [next((c for c in node[2] if c[0] == name))] *)
Definition child_named (n : node) (name : string) : option node :=
  head (filter (fun c => get_name c = name) (get_children n)).

Fixpoint descend (n : node) (names : list string) : option node :=
  match names with
  | [] => Some n
  | name :: names' => match child_named n name with Some c => descend c names' | None => None end
  end.

Definition get_node_from_path (root : node) (path : string) : option node :=
  if bool_decide (path = "") then Some root else descend root (py_split slash path).

Definition request_node_from_path (root : node) (path : string) (dflt : option node) : py node :=
  match get_node_from_path root path with
  | Some n => Ret n
  | None => match dflt with Some d => Ret d | None => Raise NotFoundError end
  end.

Definition path_head (path : string) (i : Z) : string := py_join slash (slice_to (py_split slash path) i).
Definition path_tail (path : string) (i : Z) : string := py_join slash (slice_from (py_split slash path) i).
Definition update_path_elt (path : string) (i : Z) (func : string -> string) : py string :=
  let splited := py_split slash path in
  e ← py_get splited i;
  splited ← py_set splited i (func e);
  Ret (py_join slash splited).

Section paths.
Context `{ArrayEqual}.

(** The names of the nodes of each tuple. *)
Definition predicates_to_paths (root : node) (predicates : queries) : py (list string) :=
  r ← iter_nodes_from_predicates root predicates
        (Kw None None (Some (DSeq [Some 1; Some 1])) None None (Some true));
  match r with
  | Tuples l => Ret (map (fun nodes => py_join slash (get_names nodes)) l)
  | Nodes _ => Raise TypeError
  end.

Fixpoint concretize_loop (root : node) (wanted : list string) (labels : list string) : py (list string) :=
  match wanted with
  | [] => Ret []
  | path :: wanted' =>
      let names := py_split slash path in
      _ ← py_assert (bool_decide (length names = length labels));
      let predicates := zip_with (fun name label =>
        EQuery (QPred (fun n => match_name_label n name (StrLabel label)))) names labels in
      paths ← predicates_to_paths root (QsList predicates);
      rest ← concretize_loop root wanted' labels;
      Ret (paths ++ rest)
  end.
Definition concretize_paths (root : node) (wanted_path_list labels : list string) : py (list string) :=
  all_paths ← concretize_loop root wanted_path_list labels;
  Ret (sort_by String.leb (remove_dups all_paths)).
End paths.

(** ** Trees of paths *)

(** The nodes of [paths_to_tree] hold in their value the paths still to be unrolled. *)
Inductive ptree : Type :=
| PTree (name : string) (todo : option (list string)) (children : list ptree).
Definition pt_name (t : ptree) : string := let '(PTree name _ _) := t in name.

(** Appends [others] to the paths of the first child whose name matches. *)
Fixpoint append_others (first others : string) (children : list ptree) : option (py (list ptree)) :=
  match children with
  | [] => None
  | PTree name todo cs :: rest =>
      if Fnmatch.fnmatch name first then
        Some (match todo with
              | Some l => Ret (PTree name (Some (l ++ [others])) cs :: rest)
              | None => Raise AttributeError
              end)
      else match append_others first others rest with
           | Some r => Some (rest' ← r; Ret (PTree name todo cs :: rest'))
           | None => None
           end
  end.

Fixpoint unroll_paths (paths : list string) (children : list ptree) : py (list ptree) :=
  match paths with
  | [] => Ret children
  | path :: paths' =>
      let first := default "" (head (py_split slash path)) in
      let others := py_join slash (drop 1 (py_split slash path)) in
      children ← match append_others first others children with
                 | Some r => r
                 | None => Ret (children ++
                     [PTree first (if bool_decide (others = "") then None else Some [others]) []])
                 end;
      unroll_paths paths' children
  end.

(** The fuel bounds the depth of the tree: the paths of a node are shorter than its parent's. *)
Fixpoint unroll (fuel : nat) (root : ptree) : py ptree :=
  match root with
  | PTree name None children => Ret root
  | PTree name (Some paths) children =>
      match fuel with
      | O => Raise OutOfFuel
      | S fuel' =>
          children ← unroll_paths paths children;
          children ← mapM (unroll fuel') children;
          Ret (PTree name None children)
      end
  end.

Definition paths_to_tree (paths : list string) (root_name : string) : py ptree :=
  unroll (S (S (list_max (String.length <$> paths)))) (PTree root_name (Some paths) []).

(** ** Removals *)
Section removals.
Context (predicate : node -> bool).

(** The positions of the children to remove. *)
Fixpoint positions (i : nat) (children : list node) : list nat :=
  match children with
  | [] => []
  | c :: rest => (if predicate c then [i] else []) ++ positions (S i) rest
  end.

(** [for ichild in reversed(results): del children[ichild]] *)
Definition del_positions (results : list nat) (children : list node) : list node :=
  foldl (fun cs i => delete i cs) children (reverse results).

Definition rm_children_from_predicate (root : node) : node :=
  let '(Node n v cs l) := root in Node n v (del_positions (positions 0 cs) cs) l.

Fixpoint rm_nodes_from_predicate__ (parent : node) : node :=
  match parent with
  | Node n v cs l =>
      Node n v (del_positions (positions 0 cs)
                  (map (fun c => if predicate c then c else rm_nodes_from_predicate__ c) cs)) l
  end.

Fixpoint rm_nodes_from_predicate_with_level__ (depth level : Z) (parent : node) : node :=
  match parent with
  | Node n v cs l =>
      Node n v (del_positions (positions 0 cs)
                  (map (fun c => if predicate c then c else
                                 if level <? depth then rm_nodes_from_predicate_with_level__ depth (level + 1) c
                                 else c) cs)) l
  end.

(** [depth] is None, an integer, or anything else. *)
Definition rm_nodes_from_predicate (root : node) (depth : pydepth) : py node :=
  match depth with
  | DNone => Ret (rm_nodes_from_predicate__ root)
  | DInt d => Ret (if negb (d =? 0) && (1 <=? d) then rm_nodes_from_predicate_with_level__ d 1 root
                   else rm_nodes_from_predicate__ root)
  | DSeq [] => Ret (rm_nodes_from_predicate__ root)
  | DSeq _ | DOther => Raise TypeError
  end.
End removals.

Definition keep_children_from_predicate (predicate : node -> bool) (root : node) : node :=
  rm_children_from_predicate (fun n => negb (predicate n)) root.

(** [parent] is shared with the tree of [root]: the removal is made at its place. *)
Fixpoint replace_at (names : list string) (f : node -> node) (n : node) : node :=
  match names with
  | [] => f n
  | name :: names' =>
      let '(Node nm v cs l) := n in
      match find_child (fun c => bool_decide (get_name c = name)) cs with
      | Some i => Node nm v (alter (replace_at names' f) i cs) l
      | None => n
      end
  end.

Definition rm_node_from_path (root : node) (path : string) : py node :=
  if negb (has_slash path)
  then Ret (rm_children_from_predicate (fun n => match_name n path) root)
  else
    let h := path_head path (-1) in
    match get_node_from_path root h with
    | None => Raise TypeError
    | Some _ =>
        let rm := rm_nodes_from_predicate__ (fun n => match_name n (path_tail path (-1))) in
        Ret (if bool_decide (h = "") then rm root else replace_at (py_split slash h) rm root)
    end.

(** ** Update of a child *)
Section update_child.
Context (to_float32 : Z -> Z).

(** The child at position [i], updated in place; the parent after the call and the result. *)
Definition update_at (i : nat) (label : option string) (v : option pyval) (children : option (list (option node)))
    (parent : node) : node * py node :=
  let '(Node pn pv cs pl) := parent in
  match cs !! i with
  | None => (parent, Raise IndexError)
  | Some c =>
      match update_node to_float32 None label v children c with
      | (c', Ret ()) => (Node pn pv (<[i:=c']> cs) pl, Ret c')
      | (c', Raise e) => (Node pn pv (<[i:=c']> cs) pl, Raise e)
      end
  end.

(** [get_child_from_name] gives the first child whose name matches. *)
Definition update_child (parent : node) (name : string) (label : option string) (v : option pyval)
    (children : option (list (option node))) : node * py node :=
  match find_child (fun c => match_name c name) (get_children parent) with
  | Some i => update_at i label v children parent
  | None =>
      match new_node to_float32 name "UserDefined_t" PNone [] (Some parent) with
      | (Some parent', Ret _) => update_at (length (get_children parent)) label v children parent'
      | (_, Ret _) => (parent, Raise RuntimeError)
      | (parent', Raise e) => (default parent parent', Raise e)
      end
  end.
End update_child.

(** ** Lemmas: searches among the children *)

(** The keyword arguments of a [child] function. *)
Definition kw1 : kwargs := with_depth (DSeq [Some 1; Some 1]) no_kw.

Lemma children_first predicate root :
  node_walk root predicate kw1 = Ret (head (filter (fun c => predicate c = true) (get_children root))).
Proof.
  unfold node_walk.
  change (NodeWalker_init root predicate kw1) with (Ret (MkNodeWalker root predicate Dfs (1, Some 1) (fun l => l))).
  cbn [mbind py_bind]. unfold NodeWalker_call.
  cbn [nw_depth nw_search nw_sort nw_predicate nw_root is_unlimited fst Z.eqb andb].
  unfold RangeLevelNodeParser_dfs. cbn [Z.eqb andb cond1 Z.ltb]. pose proof (size_pos root) as Hs.
  destruct (size root) as [|k]; [lia|]. cbn [RangeLevelNodeParser__dfs].
  induction (get_children root) as [|c cs IH]; [done|]. rewrite filter_cons.
  change (1 <=? 1) with true. cbn [andb]. destruct (predicate c); [done|]. exact IH.
Qed.

Lemma children_all predicate root caching :
  nodes_walk root predicate (with_caching caching kw1) =
  Ret (filter (fun c => predicate c = true) (get_children root)).
Proof.
  assert (Hp : forall w, ws_root w = root -> ws_predicate w = predicate -> ws_search w = Dfs ->
            ws_explore w = Shallow -> ws_depth w = (1, Some 1) -> ws_sort w = (fun l => l) ->
            NodesWalker_parse w = Ret (filter (fun c => predicate c = true) (get_children root))).
  { intros w Hr Hp Hs He Hd Hf. unfold NodesWalker_parse. rewrite Hr, Hp, Hs, He, Hd, Hf.
    cbn [is_unlimited fst Z.eqb andb]. unfold ShallowRangeLevelNodesIterator_dfs. cbn [Z.eqb andb cond1 Z.ltb].
    pose proof (size_pos root) as Hz. destruct (size root) as [|k]; [lia|].
    cbn [ShallowRangeLevelNodesIterator__dfs]. change (1 <=? 1) with true. change (0 <? 1) with true. cbn [andb].
    match goal with |- (sub ← ?m; _) = _ => enough (m = Ret (filter (fun c => predicate c = true) (get_children root))) as -> end;
      [done|].
    clear. induction (get_children root) as [|c cs IH]; [done|]. rewrite filter_cons.
    destruct (predicate c); cbn in IH |- *; by rewrite IH. }
  unfold nodes_walk.
  change (NodesWalker_init root predicate (with_caching caching kw1)) with
    (Ret (MkNodesWalker root predicate Dfs Shallow (1, Some 1) (fun l => l) caching [])).
  cbn [mbind py_bind]. unfold NodesWalker_call. cbn [ws_caching ws_cache].
  rewrite Hp by done. by destruct caching.
Qed.

Lemma filter_fnmatch name (cs : list node) :
  Fnmatch.plain name = true ->
  filter (fun c => match_name c name = true) cs = filter (fun c => get_name c = name) cs.
Proof.
  intros Hp. apply list_filter_iff. intros c. unfold match_name. rewrite Fnmatch.fnmatch_plain by done.
  apply bool_decide_eq_true.
Qed.

(** With a name that has no wildcard, [get_child_from_name] returns the first child of that name,
    or None; the predicate searches among the children return the children that satisfy the
    predicate, in order. *)
Theorem child_search_spec `{ArrayEqual} root name predicate :
  Fnmatch.plain name = true ->
  get_child_from_name root name no_kw = Ret (child_named root name) /\
  get_children_from_predicate root (QPred predicate) no_kw =
    Ret (filter (fun c => predicate c = true) (get_children root)).
Proof.
  intros Hp. split.
  - unfold get_child_from_name, get_node_from_name, _overload_depth1, _overload_predicate.
    unfold get_node_from_predicate. cbn [auto_predicate mbind py_bind kw_depth no_kw].
    rewrite (children_first (fun n => match_name n name)). unfold child_named. by rewrite filter_fnmatch.
  - apply (children_all predicate root true).
Qed.

Lemma child_search_spec_witness :
  exists ae : ArrayEqual,
  get_child_from_name (Node "Base" None [Node "A" None [] "Zone_t"; Node "B" None [] "Zone_t"] "CGNSBase_t") "B" no_kw
  = Ret (Some (Node "B" None [] "Zone_t")).
Proof.
  exists (fun _ _ => true).
  exact (proj1 (@child_search_spec (fun _ _ => true)
    (Node "Base" None [Node "A" None [] "Zone_t"; Node "B" None [] "Zone_t"] "CGNSBase_t") "B"
    (fun _ => true) eq_refl)).
Defined.

(** ** Removals *)

Lemma positions_shift predicate i cs : positions predicate (S i) cs = S <$> positions predicate i cs.
Proof.
  revert i. induction cs as [|c cs IH]; intros i; [done|]. cbn. rewrite fmap_app, IH. by destruct (predicate c).
Qed.

Lemma del_positions_S results (x : node) cs : del_positions (S <$> results) (x :: cs) = x :: del_positions results cs.
Proof.
  unfold del_positions. rewrite <- fmap_reverse. generalize (reverse results). clear results. intros results.
  revert cs. induction results as [|i results IH]; intros cs; [done|]. cbn. by rewrite IH.
Qed.

Lemma foldl_delete_app results (i : nat) (cs : list node) :
  del_positions (i :: results) cs = delete i (del_positions results cs).
Proof. unfold del_positions. rewrite reverse_cons, foldl_app. done. Qed.

(** Deleting backwards the collected positions filters the list. *)
Lemma del_positions_filter predicate f cs :
  del_positions (positions predicate 0 cs) (map f cs) =
  map f (filter (fun c => predicate c = false) cs).
Proof.
  induction cs as [|c cs IH]; [done|]. cbn [positions map]. rewrite positions_shift, filter_cons.
  destruct (predicate c) eqn:E; cbn [app].
  - rewrite foldl_delete_app, del_positions_S. cbn. by rewrite IH.
  - rewrite del_positions_S, IH. done.
Qed.

(** Reference: the tree without the subtrees whose root satisfies the predicate. *)
Fixpoint prune (predicate : node -> bool) (n : node) : node :=
  match n with
  | Node nm v cs l => Node nm v (flat_map (fun c => if predicate c then [] else [prune predicate c]) cs) l
  end.
(** The same down to [k] levels under the node. *)
Fixpoint prune_level (predicate : node -> bool) (k : nat) (n : node) : node :=
  match k, n with
  | O, _ => n
  | S k', Node nm v cs l => Node nm v (map (prune_level predicate k') (filter (fun c => predicate c = false) cs)) l
  end.

Lemma map_filter_ext (f g : node -> node) predicate cs :
  (forall c, c ∈ cs -> predicate c = false -> f c = g c) ->
  map f (filter (fun c => predicate c = false) cs) = map g (filter (fun c => predicate c = false) cs).
Proof.
  intros H. apply (list_fmap_ext f g). intros i c Hc%list_elem_of_lookup_2.
  apply list_elem_of_filter in Hc as [Hp Hc]. by apply H.
Qed.

Lemma flat_map_filter (f : node -> node) (predicate : node -> bool) cs :
  flat_map (fun c => if predicate c then [] else [f c]) cs = map f (filter (fun c => predicate c = false) cs).
Proof.
  induction cs as [|c cs IH]; [done|]. rewrite filter_cons. cbn [flat_map]. rewrite IH.
  by destruct (predicate c).
Qed.

Lemma rm_nodes_prune predicate root : rm_nodes_from_predicate__ predicate root = prune predicate root.
Proof.
  induction root as [nm v cs l IH] using node_ind'. cbn [rm_nodes_from_predicate__ prune]. f_equal.
  rewrite del_positions_filter, flat_map_filter. apply map_filter_ext. intros c Hc Hp. rewrite Hp.
  rewrite Forall_forall in IH. by apply IH.
Qed.

Lemma rm_level_prune predicate depth level root :
  1 <= level <= depth ->
  rm_nodes_from_predicate_with_level__ predicate depth level root =
  prune_level predicate (Z.to_nat (depth - level + 1)) root.
Proof.
  revert level. induction root as [nm v cs l IH] using node_ind'. intros level Hl.
  destruct (Z.to_nat (depth - level + 1)) as [|k] eqn:Ek; [lia|].
  cbn [rm_nodes_from_predicate_with_level__ prune_level]. f_equal.
  rewrite del_positions_filter. apply map_filter_ext. intros c Hc Hp. rewrite Hp.
  rewrite Forall_forall in IH. destruct (Z.ltb_spec level depth).
  - rewrite IH by (done || lia). f_equal. lia.
  - replace k with O by lia. done.
Qed.

(** The nodes strictly below a node, in preorder. *)
Fixpoint descendants (n : node) : list node :=
  match n with Node _ _ cs _ => flat_map (fun c => c :: descendants c) cs end.

(** A predicate that does not look at the children. *)
Definition local (predicate : node -> bool) : Prop :=
  forall nm v cs cs' l, predicate (Node nm v cs l) = predicate (Node nm v cs' l).

Lemma prune_clean predicate root :
  local predicate -> Forall (fun d => predicate d = false) (descendants (prune predicate root)).
Proof.
  intros Hlocal. induction root as [nm v cs l IH] using node_ind'. cbn.
  induction IH as [|c cs Hc _ IHcs]; [constructor|]. cbn. destruct (predicate c) eqn:Hp; [done|].
  cbn. constructor; [|apply Forall_app; by split].
  destruct c as [nm' v' cs' l']. cbn. erewrite Hlocal. exact Hp.
Qed.

(** The removals.  The loops that collect positions and delete them backwards amount to removing
    exactly the nodes that satisfy the predicate: among the children, in the whole tree (with their
    subtrees), or down to a given depth; after an unlimited removal by a predicate on the name, value
    and label, no node below the root satisfies it. *)
Theorem removals_spec predicate root depth :
  rm_children_from_predicate predicate root =
    Node (get_name root) (get_raw root) (filter (fun c => predicate c = false) (get_children root)) (get_label root) /\
  keep_children_from_predicate predicate root =
    Node (get_name root) (get_raw root) (filter (fun c => predicate c = true) (get_children root)) (get_label root) /\
  rm_nodes_from_predicate predicate root (DInt depth) =
    Ret (if 1 <=? depth then prune_level predicate (Z.to_nat depth) root else prune predicate root) /\
  rm_nodes_from_predicate predicate root DNone = Ret (prune predicate root) /\
  (local predicate -> Forall (fun d => predicate d = false) (descendants (prune predicate root))).
Proof.
  assert (Hrm : forall p, rm_children_from_predicate p root =
    Node (get_name root) (get_raw root) (filter (fun c => p c = false) (get_children root)) (get_label root)).
  { intros p. destruct root as [nm v cs l]. cbn. f_equal. pose proof (del_positions_filter p id cs) as H.
    by rewrite !map_id in H. }
  split_and!.
  - apply Hrm.
  - unfold keep_children_from_predicate. rewrite Hrm. f_equal. apply list_filter_iff. intros c.
    destruct (predicate c); naive_solver.
  - cbn [rm_nodes_from_predicate]. rewrite rm_nodes_prune. destruct (Z.leb_spec 1 depth).
    + replace (depth =? 0) with false by lia. cbn [negb andb].
      rewrite rm_level_prune by lia. do 3 f_equal. lia.
    + by rewrite andb_false_r.
  - cbn. by rewrite rm_nodes_prune.
  - apply prune_clean.
Qed.

Lemma removals_spec_witness :
  Forall (fun d => bool_decide (get_label d = "BC_t") = false)
    (descendants (prune (fun n => bool_decide (get_label n = "BC_t"))
       (Node "ZoneBC" None [Node "A" None [] "BC_t"; Node "B" None [] "Descriptor_t"] "ZoneBC_t"))).
Proof.
  apply (removals_spec (fun n => bool_decide (get_label n = "BC_t"))
    (Node "ZoneBC" None [Node "A" None [] "BC_t"; Node "B" None [] "Descriptor_t"] "ZoneBC_t") 1).
  intros nm v cs cs' l. reflexivity.
Defined.

(** Removing the node of a path of two components also removes the nodes of the same name found
    deeper under the parent: the removal is recursive there, whereas it is limited to the children
    for a path of one component. *)
Theorem rm_node_from_path_recursive :
  rm_node_from_path
    (Node "T" None [Node "A" None [Node "X" None [] "Zone_t";
                       Node "C" None [Node "X" None [] "Zone_t"] "Zone_t"] "CGNSBase_t"] "CGNSTree_t") "A/X" =
    Ret (Node "T" None [Node "A" None [Node "C" None [] "Zone_t"] "CGNSBase_t"] "CGNSTree_t") /\
  rm_node_from_path
    (Node "A" None [Node "X" None [] "Zone_t"; Node "C" None [Node "X" None [] "Zone_t"] "Zone_t"] "CGNSBase_t") "X" =
    Ret (Node "A" None [Node "C" None [Node "X" None [] "Zone_t"] "Zone_t"] "CGNSBase_t").
Proof. split; vm_compute; reflexivity. Qed.

(** ** Paths *)

(** Each node of the list is a child of the previous one, the first one of [n]. *)
Inductive Lineage : node -> list node -> Prop :=
| Lineage_nil n : Lineage n []
| Lineage_cons n c chain : c ∈ get_children n -> Lineage c chain -> Lineage n (c :: chain).

Lemma wf_child n c : wf n -> c ∈ get_children n -> wf c.
Proof. destruct 1 as [nm v cs l _ _ _ Hcs]. cbn. rewrite Forall_forall in Hcs. auto. Qed.

Lemma wf_name n : wf n -> get_name n <> "" /\ has_slash (get_name n) = false.
Proof.
  destruct 1 as [nm v cs l Hn _ _ _]. cbn. unfold is_valid_name in Hn.
  destruct (bool_decide (nm ∉ _) && negb (has_slash nm)) eqn:E; [|done].
  apply andb_prop in E as [E1%bool_decide_eq_true E2%negb_true_iff]. split; [|done]. intros ->.
  apply E1. left.
Qed.

Lemma child_named_wf n c : wf n -> c ∈ get_children n -> child_named n (get_name c) = Some c.
Proof.
  destruct 1 as [nm v cs l _ _ Hnd _]. unfold child_named. cbn. intros Hc.
  induction cs as [|d cs IH]; [by apply not_elem_of_nil in Hc|]. cbn in Hnd. apply NoDup_cons in Hnd as [Hd Hnd].
  rewrite filter_cons. apply elem_of_cons in Hc as [->|Hc]; [by rewrite decide_True|].
  rewrite decide_False; [by apply IH|]. intros E. apply Hd. rewrite E. by apply list_elem_of_fmap_2.
Qed.

Lemma descend_lineage n chain :
  wf n -> Lineage n chain -> descend n (get_names chain) = last (n :: chain).
Proof.
  intros Hn Hc. induction Hc as [n|n c chain Hc Hl IH]; [done|].
  change (descend n (get_names (c :: chain))) with
    (match child_named n (get_name c) with Some c => descend c (get_names chain) | None => None end).
  rewrite child_named_wf by done. rewrite (IH (wf_child n c Hn Hc)). done.
Qed.

Lemma lineage_names n chain :
  wf n -> Lineage n chain ->
  Forall (fun s => slash ∉ String.list_ascii_of_string s) (get_names chain) /\
  Forall (fun s => s <> "") (get_names chain).
Proof.
  intros Hn Hc. induction Hc as [n|n c chain Hc Hl IH]; [done|].
  pose proof (wf_child n c Hn Hc) as Hwf. destruct (IH Hwf) as [H1 H2]. destruct (wf_name c Hwf) as [Hne Hs].
  cbn. split; constructor; auto. unfold has_slash in Hs. by apply bool_decide_eq_false in Hs.
Qed.

Lemma py_join_nonempty s l : s <> "" -> py_join slash (s :: l) <> "".
Proof.
  unfold py_join. destruct s as [|c s]; [done|]. intros _. cbn [fmap list_fmap String.list_ascii_of_string].
  destruct (String.list_ascii_of_string <$> l); cbn; done.
Qed.

Lemma path_resolves n chain :
  wf n -> Lineage n chain -> get_node_from_path n (py_join slash (get_names chain)) = last (n :: chain).
Proof.
  intros Hn Hc. destruct (lineage_names n chain Hn Hc) as [H1 H2]. unfold get_node_from_path.
  destruct chain as [|c chain]; [done|]. rewrite bool_decide_eq_false_2.
  - rewrite py_split_join by done. by apply descend_lineage.
  - apply Forall_cons in H2 as [H2 _]. by apply py_join_nonempty.
Qed.

(** The lineages under [n] whose nodes satisfy the predicates one by one. *)
Fixpoint chains_of (preds : list (node -> bool)) (n : node) : list (list node) :=
  match preds with
  | [] => []
  | [p] => map (fun c => [c]) (filter (fun c => p c = true) (get_children n))
  | p :: preds' => flat_map (fun c => map (cons c) (chains_of preds' c)) (filter (fun c => p c = true) (get_children n))
  end.

Lemma mapM_flat_map {A B} (f : A -> py (list B)) (g : A -> list B) l :
  (forall x, f x = Ret (g x)) -> (r ← mapM f l; Ret (concat r)) = Ret (flat_map g l).
Proof.
  intros H. assert (mapM f l = Ret (map g l)) as ->.
  { induction l as [|x l IH]; [done|]. cbn. by rewrite H, IH. }
  cbn. by rewrite flat_map_concat_map.
Qed.

Lemma chains_search preds n :
  iter_nodes_from_predicates_with_parents__ n preds (with_caching false kw1) = Ret (chains_of preds n).
Proof.
  revert n. induction preds as [|p preds IH]; intros n; [done|]. destruct preds as [|q preds].
  - cbn [iter_nodes_from_predicates_with_parents__ chains_of]. by rewrite children_all.
  - rewrite parents_cons, children_all. cbn [mbind py_bind]. apply mapM_flat_map. intros c. by rewrite IH.
Qed.

Lemma chains_of_iff preds n c :
  preds <> [] -> c ∈ chains_of preds n <-> Lineage n c /\ Forall2 (fun p x => p x = true) preds c.
Proof.
  revert n c. induction preds as [|p preds IH]; intros n c; [done|]. intros _. destruct preds as [|q preds].
  - cbn [chains_of]. rewrite (list_elem_of_fmap (fun x => [x]) _ c : c ∈ map _ _ <-> _). split.
    + intros (x & -> & [Hp Hx]%list_elem_of_filter). split; repeat constructor; auto.
    + intros [Hl Hf]. inversion Hf as [|? x ? ? Hp Hnil]; subst. inversion Hnil; subst.
      inversion Hl; subst. exists x. by rewrite list_elem_of_filter.
  - set (ps := q :: preds) in *. change (chains_of (p :: ps) n) with
      (flat_map (fun c => map (cons c) (chains_of ps c)) (filter (fun c => p c = true) (get_children n))).
    rewrite list_elem_of_In, in_flat_map. setoid_rewrite <- list_elem_of_In. split.
    + intros (x & [Hp Hx]%list_elem_of_filter & (c' & -> & Hc')%elem_of_map_cons).
      apply IH in Hc' as [Hl Hf]; [|done]. split; constructor; auto.
    + intros [Hl Hf]. inversion Hf as [|? x ? c' Hp Hf']; subst. inversion Hl; subst.
      exists x. rewrite list_elem_of_filter, elem_of_map_cons. split; [done|]. exists c'. split; [done|].
      by apply IH.
Qed.

(** On a well-formed tree, [predicates_to_paths] returns the paths of exactly the lineages of
    nodes that satisfy the predicates one by one, and each of these paths, read back by
    [get_node_from_path], leads to the last node of its lineage. *)
Theorem predicates_to_paths_spec `{ArrayEqual} root preds :
  wf root -> preds <> [] ->
  exists chains,
    predicates_to_paths root (QsList ((fun p => EQuery (QPred p)) <$> preds)) =
      Ret (map (fun c => py_join slash (get_names c)) chains) /\
    (forall c, c ∈ chains <-> Lineage root c /\ Forall2 (fun p x => p x = true) preds c) /\
    Forall (fun c => get_node_from_path root (py_join slash (get_names c)) = last c) chains.
Proof.
  intros Hwf Hne. exists (chains_of preds root). split_and!.
  - unfold predicates_to_paths, iter_nodes_from_predicates. cbn [auto_predicates].
    assert (mapM auto_entry ((fun p => EQuery (QPred p)) <$> preds) = Ret (APred <$> preds)) as ->.
    { clear. induction preds as [|p preds IH]; [done|]. cbn in *. by rewrite IH. }
    cbn [mbind py_bind]. unfold NodesWalkers_call, NodesWalkers_init, wm_caching. cbn.
    unfold NodesWalkers_search. cbn [wm_predicates wm_ancestors wm_root].
    assert (existsb is_dict (APred <$> preds) = false) as ->.
    { clear. induction preds as [|p preds IH]; [done|]. exact IH. }
    assert (omap callable_entry (APred <$> preds) = preds) as ->.
    { clear. induction preds as [|p preds IH]; [done|]. cbn. by f_equal. }
    change (Kw None None _ None _ None) with (with_caching false kw1). by rewrite chains_search.
  - intros c. by apply chains_of_iff.
  - apply Forall_forall. intros c Hc. apply chains_of_iff in Hc as [Hl Hf]; [|done].
    rewrite path_resolves by done. destruct c; [|done]. inversion Hf; congruence.
Qed.

Lemma predicates_to_paths_spec_witness :
  exists (ae : ArrayEqual) chains,
    predicates_to_paths (Node "Base" None [Node "Zone" None [Node "ZBC" None [] "ZoneBC_t"] "Zone_t"] "CGNSBase_t")
      (QsList ((fun p => EQuery (QPred p)) <$> [(fun n => match_cgk_label n "Zone_t"); (fun _ => true)])) =
      Ret (map (fun c => py_join slash (get_names c)) chains) /\ length chains = 1%nat.
Proof.
  exists (fun _ _ => true).
  destruct (@predicates_to_paths_spec (fun _ _ => true)
    (Node "Base" None [Node "Zone" None [Node "ZBC" None [] "ZoneBC_t"] "Zone_t"] "CGNSBase_t")
    [(fun n => match_cgk_label n "Zone_t"); (fun _ => true)]) as (chains & H & _).
  - repeat constructor; set_solver.
  - done.
  - exists chains. split; [exact H|]. vm_compute in H. destruct chains as [|c [|c' chains]]; [discriminate|done|discriminate].
Defined.

(** ** Update of a child *)

Lemma find_child_Some is_child cs i :
  find_child is_child cs = Some i -> exists c, cs !! i = Some c /\ is_child c = true.
Proof.
  revert i. induction cs as [|c cs IH]; intros i; [done|]. cbn. destruct (is_child c) eqn:E.
  - intros [= <-]. eauto.
  - destruct (find_child is_child cs) as [k|]; [|done]. intros [= <-]. apply IH. done.
Qed.

Lemma find_child_head is_child cs :
  head (filter (fun c => is_child c = true) cs) = i ← find_child is_child cs; cs !! i.
Proof.
  induction cs as [|c cs IH]; [done|]. rewrite filter_cons. cbn [find_child].
  destruct (is_child c); [done|]. rewrite decide_False by done. rewrite IH. by destruct (find_child is_child cs).
Qed.

Lemma head_filter_insert is_child cs i c' :
  find_child is_child cs = Some i -> is_child c' = true ->
  head (filter (fun c => is_child c = true) (<[i:=c']> cs)) = Some c'.
Proof.
  revert i. induction cs as [|c cs IH]; intros i Hi Hc'; [done|]. cbn in Hi. destruct (is_child c) eqn:E.
  - injection Hi as <-. cbn [insert list_insert]. rewrite filter_cons. by rewrite decide_True.
  - destruct (find_child is_child cs) as [k|]; [|done]. injection Hi as <-.
    change (<[S k:=c']> (c :: cs)) with (c :: <[k:=c']> cs).
    rewrite filter_cons, decide_False by congruence. by apply IH.
Qed.

Lemma filter_insert_other is_child (cs : list node) i c c' :
  cs !! i = Some c -> is_child c = false -> is_child c' = false ->
  filter (fun c => is_child c = true) (<[i:=c']> cs) = filter (fun c => is_child c = true) cs.
Proof.
  revert i. induction cs as [|d cs IH]; intros [|i] Hi Hc Hc'; [done|done|..].
  - injection Hi as ->. change (<[0%nat:=c']> (c :: cs)) with (c' :: cs). rewrite !filter_cons, !decide_False by congruence. done.
  - change (<[S i:=c']> (d :: cs)) with (d :: <[i:=c']> cs). rewrite !filter_cons, (IH i) by done. done.
Qed.

(** A transformer that does not change the name, whether it raises or not. *)
Definition keeps_name {A} (m : st A) : Prop := forall n, get_name (m n).1 = get_name n.

Lemma keeps_name_bind {A B} (m : st A) (f : A -> st B) :
  keeps_name m -> (forall a, keeps_name (f a)) -> keeps_name (mbind f m).
Proof.
  intros Hm Hf n. specialize (Hm n). unfold mbind, st_bind.
  destruct (m n) as [n' [a|e]]; cbn in *; [by rewrite Hf|done].
Qed.

Lemma keeps_name_when {A} (o : option A) f : (forall a, keeps_name (f a)) -> keeps_name (when o f).
Proof. destruct o; [by eauto|by intros _ n]. Qed.

Lemma update_node_name to_float32 label v children : keeps_name (update_node to_float32 None label v children).
Proof.
  unfold update_node. apply keeps_name_bind; [by intros n|intros _].
  repeat (apply keeps_name_bind; [|intros _]); apply keeps_name_when; intros x [nm val cs l].
  - rewrite set_label_ok. by destruct (is_valid_label x false).
  - unfold set_value, mbind, st_bind, st_lift. by destruct (_convert_value to_float32 x).
  - rewrite set_children_cases. by case_bool_decide.
Qed.

(** Whether a child has a given name, as a test. *)
Definition has_name (name : string) (c : node) : bool := bool_decide (get_name c = name).

Lemma child_named_head n name :
  child_named n name = head (filter (fun c => has_name name c = true) (get_children n)).
Proof.
  unfold child_named. f_equal. apply list_filter_iff. intros c. unfold has_name. by rewrite bool_decide_eq_true.
Qed.

Lemma find_child_ext f g cs : (forall c, f c = g c) -> find_child f cs = find_child g cs.
Proof. intros H. induction cs as [|c cs IH]; [done|]. cbn. by rewrite H, IH. Qed.

(** [update_child] is an insertion: when it returns (with a name without wildcard), the node it
    returns is what the parent then gives for that name, the label of the parent and its other
    children are unchanged, and the name of the child is the given one, whether the child existed or
    was created. *)
Theorem update_child_spec to_float32 parent name label v children parent' n :
  Fnmatch.plain name = true ->
  update_child to_float32 parent name label v children = (parent', Ret n) ->
  child_named parent' name = Some n /\ get_name n = name /\ get_label parent' = get_label parent /\
  forall other, other <> name -> child_named parent' other = child_named parent other.
Proof.
  intros Hplain. unfold update_child. destruct parent as [pn pv cs pl].
  rewrite (find_child_ext _ (has_name name))
    by (intros c; unfold match_name; by rewrite Fnmatch.fnmatch_plain).
  cbn [get_children]. destruct (find_child (has_name name) cs) as [i|] eqn:Hfind.
  - destruct (find_child_Some _ _ _ Hfind) as (c & Hc & Hname). unfold update_at. rewrite Hc.
    pose proof (update_node_name to_float32 label v children c) as Hn.
    destruct (update_node to_float32 None label v children c) as [c' [[]|e]]; [|done].
    intros [= <- <-]. cbn in Hn. unfold has_name in Hname. apply bool_decide_eq_true in Hname.
    split_and!; [|congruence|done|].
    + rewrite child_named_head. apply head_filter_insert; [done|]. apply bool_decide_eq_true. congruence.
    + intros other Ho. rewrite !child_named_head. cbn. f_equal.
      apply (filter_insert_other _ _ _ c); [done|apply bool_decide_eq_false; congruence..].
  - destruct (new_node to_float32 name "UserDefined_t" PNone [] (Some (Node pn pv cs pl))) as [[p|] [n0|e]] eqn:Hnew;
      try done.
    assert (p = Node pn pv (cs ++ [n0]) pl /\ get_name n0 = name) as [-> Hn0].
    { revert Hnew. unfold new_node. rewrite update_node_all. destruct (negb _); [done|]. destruct (negb _); [done|].
      cbn [_convert_value]. rewrite set_children_cases. rewrite bool_decide_eq_true_2 by constructor.
      unfold add_child. cbn [get_children get_name put_children]. case_bool_decide; [done|]. by intros [= <- <-]. }
    unfold update_at. rewrite lookup_app_r, Nat.sub_diag by done. cbn [lookup list_lookup].
    pose proof (update_node_name to_float32 label v children n0) as Hn.
    destruct (update_node to_float32 None label v children n0) as [c' [[]|e]]; [|done].
    intros [= <- <-]. cbn in Hn. rewrite insert_app_r_alt, Nat.sub_diag by done. cbn [insert list_insert].
    assert (Hnone : filter (fun c => has_name name c = true) cs = []).
    { pose proof (find_child_head (has_name name) cs) as Hh. rewrite Hfind in Hh. by apply head_None in Hh. }
    split_and!; [|congruence|done|].
    + rewrite child_named_head. cbn [get_children]. rewrite filter_app, Hnone. cbn [app].
      rewrite filter_cons, decide_True; [done|]. apply bool_decide_eq_true. congruence.
    + intros other Ho. rewrite !child_named_head. cbn [get_children]. rewrite filter_app, filter_cons, decide_False.
      * rewrite filter_nil. by rewrite app_nil_r.
      * rewrite not_true_iff_false. apply bool_decide_eq_false. congruence.
Qed.

Lemma update_child_spec_witness :
  exists parent' n,
    update_child (fun x => x) (Node "Zone" None [Node "BC" None [] "BC_t"] "Zone_t") "ZoneType"
      (Some "ZoneType_t") (Some (PStr "Structured")) None = (parent', Ret n) /\
    child_named parent' "ZoneType" = Some n.
Proof.
  eexists _, _. split; [vm_compute; reflexivity|].
  apply (update_child_spec (fun x => x) (Node "Zone" None [Node "BC" None [] "BC_t"] "Zone_t") "ZoneType"
      (Some "ZoneType_t") (Some (PStr "Structured")) None); vm_compute; reflexivity.
Defined.

(** [paths_to_tree] fails when a path is the beginning of another one: it raises AttributeError
    when the shorter one comes first, and otherwise creates a node of empty name. *)
Theorem paths_to_tree_prefix :
  paths_to_tree ["A"; "A/B"] "Root" = Raise AttributeError /\
  paths_to_tree ["A/B"; "A"] "Root" =
    Ret (PTree "Root" None [PTree "A" None [PTree "B" None []; PTree "" None []]]).
Proof. split; vm_compute; reflexivity. Qed.

End Search.
