(* ===== verification/Distribution.v ===== *)
(** * Distributions over the ranks: [maia/utils/parallel/utils.py]

    A communicator is seen from above: a collective call is a function of the list of the values
    given by the ranks 0, 1, ..., in this order, and returns what each rank receives.  [d] is the
    width of [npy_pdm_gnum_dtype], a build parameter of ParaDiGM; running sums are stored with it. *)
From S2P Require Import Prelude PyUtils NpUtils Values Tree Search.

Local Open Scope Z_scope.

Module Distribution.
Import NpUtils.

(** The three values [start, end, total] of the distribution of a rank. *)
Record partial := Partial { p_start : Z; p_end : Z; p_total : Z }.

Section distribution.
Context (d : dtype).

Definition gathering_distribution (i_rank n_elt rank : Z) : partial :=
  if bool_decide (rank < i_rank) then Partial 0 0 (wrap d n_elt)
  else if bool_decide (rank = i_rank) then Partial 0 (wrap d n_elt) (wrap d n_elt)
  else Partial (wrap d n_elt) (wrap d n_elt) (wrap d n_elt).

Definition uniform_distribution (n_elt rank size : Z) : py partial :=
  u_dist ← PyUtils.uniform_distribution_at n_elt rank size;
  Ret (Partial (wrap d u_dist.1) (wrap d u_dist.2) (wrap d n_elt)).

(** [np.cumsum(distrib, out=distrib)] on the gathered values preceded by zero: the same array on all
    the ranks. *)
Definition gather_and_shift (values : list Z) : list Z := sizes_to_indices d (wrap d <$> values).

(** [full_distrib[[rank, rank+1, size]]] *)
Definition full_to_partial_distribution (full_distrib : list Z) (rank size : Z) : py partial :=
  a ← py_get full_distrib rank;
  b ← py_get full_distrib (rank + 1);
  t ← py_get full_distrib size;
  Ret (Partial a b t).

(** The difference is computed in the type of the array. *)
Definition partial_to_full_distribution (partials : list partial) : list Z :=
  sizes_to_indices d ((fun p => wrap d (p_end p - p_start p)) <$> partials).

(** [dn_elts]: the number of elements of each rank. *)
Definition dn_to_distribution (dn_elts : list Z) (rank : Z) : py partial :=
  full_to_partial_distribution (gather_and_shift dn_elts) rank (zlen dn_elts).
End distribution.

(** ** Reductions *)

(** [array_lists]: the arrays of each rank. *)
Definition local_max (array_list : list (list Z)) : Z :=
  match array_list with
  | [] => 0
  | _ => foldl Z.max 0 ((fun a => foldl Z.max 0 a) <$> array_list)
  end.
Definition arrays_max (array_lists : list (list (list Z))) : py Z := py_max (local_max <$> array_lists).

Definition par_any_true {A} (lists : list (list A)) (f : A -> bool) : bool :=
  existsb (fun L => PyUtils.any_true L f) lists.
Definition par_all_true {A} (lists : list (list A)) (f : A -> bool) : bool :=
  forallb (fun L => PyUtils.all_true L f) lists.

(** [trees]: the trees of each rank. *)
Definition is_Some_b {A} (o : option A) : bool := match o with Some _ => true | None => false end.
Definition exists_anywhere (trees : list (list Tree.node)) (node_path : string) : bool :=
  par_any_true trees (fun t => is_Some_b (Search.get_node_from_path t node_path)).

Fixpoint exists_loop (exists_loc : bool) (trees : list Tree.node) (node_path : string) : bool :=
  match trees with
  | [] => exists_loc
  | tree :: trees' =>
      exists_loop (exists_loc && is_Some_b (Search.get_node_from_path tree node_path)) trees' node_path
  end.
Definition exists_everywhere (trees : list (list Tree.node)) (node_path : string) : bool :=
  forallb (fun L => exists_loop true L node_path) trees.

(** ** Lemmas *)

(** The partial distributions of all the ranks for the sizes [dns]. *)
Definition partials_of (dns : list Z) : list partial :=
  zip_with (fun a n => Partial a (a + n) (zsum dns)) (scan 0 dns) dns.

Lemma scan_head acc l : scan acc l = acc :: drop 1 (scan acc l).
Proof. by destruct l. Qed.

Lemma partials_sizes acc T dns :
  (fun p => p_end p - p_start p) <$> zip_with (fun a n => Partial a (a + n) T) (scan acc dns) dns = dns.
Proof.
  revert acc. induction dns as [|n dns IH]; intros acc; [done|]. cbn [scan zip_with]. rewrite fmap_cons, IH.
  cbn. f_equal. lia.
Qed.

Lemma wrap_list_id d l :
  Forall (fun n => 0 <= n) l -> zsum l <= iinfo_max d -> wrap d <$> l = l.
Proof.
  intros Hl Hs. apply map_id_on. intros x Hx. apply wrap_id.
  assert (0 <= x <= zsum l).
  { rewrite Forall_forall in Hl. split; [by apply Hl|]. apply list_elem_of_split in Hx as (l1 & l2 & ->).
    rewrite zsum_app, zsum_cons. assert (0 <= zsum l1 /\ 0 <= zsum l2) by
      (split; apply zsum_nonneg, Forall_forall; intros y Hy; apply Hl; set_solver). lia. }
  unfold in_dtype, iinfo_min, iinfo_max in *. destruct d; cbn in *; lia.
Qed.

Lemma partials_lookup dns r n :
  dns !! r = Some n ->
  partials_of dns !! r = Some (Partial (zsum (take r dns)) (zsum (take r dns) + n) (zsum dns)).
Proof.
  intros Hr. unfold partials_of. pose proof (lookup_lt_Some _ _ _ Hr).
  rewrite lookup_zip_with, scan_lookup, Hr by lia. done.
Qed.

Lemma full_to_partial_spec dns r n :
  dns !! r = Some n ->
  full_to_partial_distribution (scan 0 dns) (Z.of_nat r) (zlen dns) =
  Ret (Partial (zsum (take r dns)) (zsum (take r dns) + n) (zsum dns)).
Proof.
  intros Hr. pose proof (lookup_lt_Some _ _ _ Hr) as Hlt. unfold full_to_partial_distribution.
  rewrite (py_get_lookup _ r (0 + zsum (take r dns))) by (apply scan_lookup; lia).
  replace (Z.of_nat r + 1) with (Z.of_nat (S r)) by lia.
  rewrite (py_get_lookup _ (S r) (0 + zsum (take (S r) dns))) by (apply scan_lookup; lia).
  unfold zlen. rewrite (py_get_lookup _ (length dns) (0 + zsum (take (length dns) dns))) by (apply scan_lookup; lia).
  cbn [mbind py_bind]. rewrite (take_S_r _ _ _ Hr), zsum_app, firstn_all. cbn. do 2 f_equal. lia.
Qed.

Lemma length_partials dns : length (partials_of dns) = length dns.
Proof. unfold partials_of. rewrite length_zip_with, length_scan. lia. Qed.

Lemma zsum_take_le l i j : Forall (fun n => 0 <= n) l -> (i <= j)%nat -> zsum (take i l) <= zsum (take j l).
Proof.
  intros Hl Hij. rewrite <- (take_drop i (take j l)), take_take, Nat.min_l, zsum_app by lia.
  pose proof (zsum_nonneg (drop i (take j l)) (Forall_drop _ _ _ (Forall_take _ _ _ Hl))). lia.
Qed.

(** The interval of a rank. *)
Lemma partial_bounds dns r p :
  Forall (fun n => 0 <= n) dns -> partials_of dns !! r = Some p ->
  p_start p = zsum (take r dns) /\ p_end p = zsum (take (S r) dns) /\ 0 <= p_start p <= p_end p.
Proof.
  intros Hdns Hp. assert (exists n, dns !! r = Some n) as [n Hn].
  { apply lookup_lt_is_Some. apply lookup_lt_Some in Hp. by rewrite length_partials in Hp. }
  rewrite (partials_lookup _ _ _ Hn) in Hp. injection Hp as <-. cbn. rewrite (take_S_r _ _ _ Hn), zsum_app, zsum_cons, zsum_nil.
  pose proof (proj1 (Forall_lookup _ _) Hdns r n Hn). cbn in *. pose proof (zsum_nonneg (take r dns) (Forall_take _ _ _ Hdns)). lia.
Qed.

(** What the ranks hold of an array, put together. *)
Lemma concat_partials {A} (F : Z -> A) T dns : forall acc, Forall (fun n => 0 <= n) dns ->
  concat (map (fun p => map F (arange (p_start p + 1) (p_end p + 1))) (zip_with (fun a n => Partial a (a + n) T) (scan acc dns) dns)) = map F (arange (acc + 1) (acc + zsum dns + 1)).
Proof.
  induction dns as [|n dns IH]; intros acc Hn; [rewrite arange_nil; [done|rewrite zsum_nil; lia]|]. apply Forall_cons in Hn as [Hn Hdns].
  cbn [scan zip_with map concat p_start p_end]. rewrite IH by done. rewrite <- map_app, <- arange_app; [do 2 f_equal; rewrite zsum_cons; lia|lia|].
  pose proof (zsum_nonneg dns Hdns). lia.
Qed.

Lemma partial_to_full_exact d dns :
  Forall (fun n => 0 <= n) dns -> zsum dns <= iinfo_max d -> partial_to_full_distribution d (partials_of dns) = scan 0 dns.
Proof.
  intros Hn Hs. unfold partial_to_full_distribution.
  replace ((fun p => wrap d (p_end p - p_start p)) <$> partials_of dns) with dns.
  - by apply sizes_to_indices_exact.
  - transitivity (wrap d <$> dns); [symmetry; by apply wrap_list_id|]. rewrite <- (partials_sizes 0 (zsum dns) dns) at 1.
    by rewrite <- list_fmap_compose.
Qed.
Lemma gather_exact d dns : Forall (fun n => 0 <= n) dns -> zsum dns <= iinfo_max d -> gather_and_shift d dns = scan 0 dns.
Proof. intros Hn Hs. unfold gather_and_shift. rewrite wrap_list_id by done. by apply sizes_to_indices_exact. Qed.

(** ** Properties *)

(** The two forms of a distribution carry the same information.  For sizes whose sum fits in the
    index type, the rank [r] obtains from its size the interval that follows those of the previous
    ranks; gathering the partial distributions gives back the full one, from which each rank
    extracts its partial distribution again. *)
Theorem distribution_roundtrip d dns :
  Forall (fun n => 0 <= n) dns -> zsum dns <= iinfo_max d ->
  partial_to_full_distribution d (partials_of dns) = scan 0 dns /\
  gather_and_shift d dns = scan 0 dns /\
  forall r p, partials_of dns !! r = Some p ->
    dn_to_distribution d dns (Z.of_nat r) = Ret p /\
    full_to_partial_distribution (partial_to_full_distribution d (partials_of dns)) (Z.of_nat r) (zlen dns) = Ret p.
Proof.
  intros Hn Hs. pose proof (partial_to_full_exact d dns Hn Hs) as Hfull. pose proof (gather_exact d dns Hn Hs) as Hg.
  split_and!; [done|done|]. intros r p Hp.
  assert (exists n, dns !! r = Some n) as [n Hr].
  { apply lookup_lt_is_Some. pose proof (lookup_lt_Some _ _ _ Hp) as Hl. unfold partials_of in Hl.
    rewrite length_zip_with in Hl. lia. }
  rewrite (partials_lookup _ _ _ Hr) in Hp. injection Hp as <-. unfold dn_to_distribution.
  rewrite Hfull, Hg. split; by apply full_to_partial_spec.
Qed.

Lemma distribution_roundtrip_witness :
  dn_to_distribution I4 [3; 0; 4] 2 = Ret (Partial 3 7 7).
Proof.
  destruct (distribution_roundtrip I4 [3; 0; 4]) as (_ & _ & H);
    [repeat constructor; lia|vm_compute; discriminate|].
  exact (proj1 (H 2%nat (Partial 3 7 7) eq_refl)).
Defined.

Lemma exists_loop_forallb b trees path :
  exists_loop b trees path = b && forallb (fun t => is_Some_b (Search.get_node_from_path t path)) trees.
Proof.
  revert b. induction trees as [|t trees IH]; intros b; cbn; [by rewrite andb_true_r|].
  by rewrite IH, andb_assoc.
Qed.

(** [exists_everywhere] holds when every tree of every rank has the node, a rank without tree being
    neutral; [exists_anywhere] when one tree of one rank has it. *)
Lemma exists_spec trees path :
  exists_everywhere trees path = forallb (fun t => is_Some_b (Search.get_node_from_path t path)) (concat trees) /\
  exists_anywhere trees path = existsb (fun t => is_Some_b (Search.get_node_from_path t path)) (concat trees).
Proof.
  split.
  - unfold exists_everywhere. induction trees as [|L trees IH]; [done|]. cbn. rewrite IH, exists_loop_forallb, forallb_app.
    done.
  - unfold exists_anywhere, par_any_true, PyUtils.any_true. induction trees as [|L trees IH]; [done|]. cbn.
    rewrite IH, existsb_app. done.
Qed.

End Distribution.
