(* ===== verification/Protocols.v ===== *)
(** * Exchanges between distributed and partitioned arrays: [maia/transfer/protocols.py]

    The exchanges themselves are those of ParaDiGM: they are the operations of the class [block_exchange], with
    what the code relies on as laws.  As in Distribution, a communicator is seen from above: a collective call
    takes the arrays of the ranks 0, 1, ..., in this order.  Conversions to the integer type of ParaDiGM are
    left out: they are the identity on numbers that fit. *)
From S2P Require Import Prelude NpUtils Distribution.

Local Open Scope Z_scope.

Module Protocols.
Import Distribution.

(** ** Distributions *)

(** [[start, end, total]] *)
Definition array_of_partial (p : partial) : list Z := [p_start p; p_end p; p_total p].
Definition partial_of_array (a : list Z) : partial := match a with [x; y; t] => Partial x y t | _ => Partial 0 0 0 end.

(** [distris]: the arrays of the ranks; the result is that of each rank. *)
Definition auto_expand_distri (d : dtype) (distris : list (list Z)) : py (list (list Z)) :=
  let size := zlen distris in
  mapM (fun distri =>
    if bool_decide (zlen distri = 3 /\ size <> 2) then Ret (partial_to_full_distribution d (map partial_of_array distris))
    else if bool_decide (zlen distri = 3 /\ size = 2) then of_option IndexError (distris !! 0%nat)
    else Ret distri) distris.

(** ** Exchanges *)

(** [ptb_gnum]: PartToBlock.getBlockGnumCopy; [ptb_field]: PartToBlock.exchange_field, without strides;
    [btp_field]: BlockToPart.exchange_field.  The first argument is the full distribution. *)
Class block_exchange : Type := {
  ptb_gnum : list Z -> list (list Z) -> list (list Z);
  ptb_field : forall {A : Type}, list Z -> list (list Z) -> list (list A) -> list (list A);
  btp_field : forall {A : Type}, list Z -> list (list A) -> list (list Z) -> list (list A)
}.

(** The numbers of a rank are those of its interval that some rank gives, each once and in order; the value
    of a number is one of those given with it; a rank obtains the values of the numbers it asks for. *)
Class block_exchange_laws (E : block_exchange) : Prop := {
  law_gnum dns ids :
    Forall (fun n => 0 <= n) dns -> length ids = length dns -> Forall (Forall (fun g => 1 <= g <= zsum dns)) ids ->
    length (ptb_gnum (scan 0 dns) ids) = length dns /\
    forall r p l, partials_of dns !! r = Some p -> ptb_gnum (scan 0 dns) ids !! r = Some l ->
      StronglySorted Z.lt l /\ forall g, g ∈ l <-> g ∈ concat ids /\ p_start p < g <= p_end p;
  law_field A dns ids (fields : list (list A)) :
    Forall (fun n => 0 <= n) dns -> length ids = length dns -> Forall (Forall (fun g => 1 <= g <= zsum dns)) ids ->
    Forall2 (fun l f => length l = length f) ids fields ->
    Forall2 (Forall2 (fun g x => (g, x) ∈ zip (concat ids) (concat fields))) (ptb_gnum (scan 0 dns) ids) (ptb_field (scan 0 dns) ids fields);
  law_btp A dns (data : list (list A)) lngn :
    Forall2 (fun n l => zlen l = n) dns data -> length lngn = length dns -> Forall (Forall (fun g => 1 <= g <= zsum dns)) lngn ->
    Forall2 (Forall2 (fun g x => concat data !! Z.to_nat (g - 1) = Some x)) lngn (btp_field (scan 0 dns) data lngn)
}.

(** ** Reductions *)

(** [np.ufunc.reduceat]: from an index to the next one, and the element itself when the next one is not greater;
    an index outside the array is an error. *)
Section reduce.
Context {A : Type} (op : A -> A -> A).
Definition reduce_slice (data : list A) (lo hi : Z) : py A :=
  match drop (Z.to_nat lo) data with
  | [] => Raise IndexError
  | x :: rest => Ret (if bool_decide (lo < hi) then foldl op x (take (Z.to_nat (hi - lo - 1)) rest) else x)
  end.
Fixpoint reduceat (data : list A) (indices : list Z) : py (list A) :=
  match indices with
  | [] => Ret []
  | lo :: rest =>
      x ← (if bool_decide (0 <= lo) then reduce_slice data lo (match rest with hi :: _ => hi | [] => zlen data end) else Raise IndexError);
      xs ← reduceat data rest;
      Ret (x :: xs)
  end.
(** [reduce_sum], [reduce_max] and [reduce_min] *)
Definition reduce (d : dtype) (dist_data : list A) (dist_stride : list Z) : py (list A) :=
  let idx := NpUtils.sizes_to_indices d dist_stride in reduceat dist_data (take (length idx - 1) idx).
End reduce.

(** ** Properties *)

Lemma partial_of_array_of p : partial_of_array (array_of_partial p) = p.
Proof. by destruct p. Qed.
Lemma mapM_const {A B} (f : A -> py B) l y : (forall x, x ∈ l -> f x = Ret y) -> mapM f l = Ret (replicate (length l) y).
Proof.
  intros H. apply py_mapM_lookup; [by rewrite length_replicate|]. intros i x z Hx Hz.
  apply lookup_replicate in Hz as [<- _]. apply H. by eapply list_elem_of_lookup_2.
Qed.

(** Every rank obtains the full distribution, whether the ranks give their own part of the distribution or
    the full one; an array of three elements on two ranks is either of them, and the one of rank 0 is the full one. *)
Lemma auto_expand_spec d dns :
  Forall (fun n => 0 <= n) dns -> zsum dns <= iinfo_max d ->
  auto_expand_distri d (map array_of_partial (partials_of dns)) = Ret (replicate (length dns) (scan 0 dns)) /\
  auto_expand_distri d (replicate (length dns) (scan 0 dns)) = Ret (replicate (length dns) (scan 0 dns)).
Proof.
  intros Hn Hs. pose proof (length_partials dns) as Hl. unfold auto_expand_distri. split.
  - rewrite (mapM_const _ _ (scan 0 dns)); [by rewrite length_map, Hl|]. intros a Ha. apply list_elem_of_fmap in Ha as (p & -> & Hp).
    change (zlen (array_of_partial p)) with 3. unfold zlen. rewrite length_map, Hl. destruct (decide (length dns = 2%nat)) as [H2|H2].
    + rewrite bool_decide_eq_false_2 by lia. rewrite bool_decide_eq_true_2 by lia. destruct dns as [|a [|b [|]]]; try done. cbn. unfold array_of_partial. cbn [p_start p_end p_total]. do 4 f_equal. unfold zsum. cbn [foldr]. lia.
    + rewrite bool_decide_eq_true_2 by lia. f_equal. rewrite map_map. rewrite (map_ext _ id) by apply partial_of_array_of. rewrite map_id. by apply partial_to_full_exact.
  - rewrite (mapM_const _ _ (scan 0 dns)); [by rewrite length_replicate|]. intros a Ha. apply elem_of_replicate in Ha as [-> Ha].
    unfold zlen. rewrite length_replicate, length_scan. destruct (decide (length dns = 2%nat)) as [H2|H2].
    + rewrite bool_decide_eq_false_2 by lia. rewrite bool_decide_eq_true_2 by lia. rewrite H2. done.
    + rewrite !bool_decide_eq_false_2 by lia. done.
Qed.

(** The values of a group, from the first one. *)
Definition fold1 {A} (op : A -> A -> A) (g : list A) : option A := match g with [] => None | x :: l => Some (foldl op x l) end.

Lemma reduceat_groups {A} (op : A -> A -> A) gs : forall pre,
  Forall (fun g : list A => g <> []) gs ->
  reduceat op (pre ++ concat gs) (take (length gs) (scan (zlen pre) (zlen <$> gs))) = of_option IndexError (mapM (fold1 op) gs).
Proof.
  induction gs as [|g gs IH]; intros pre Hg; [done|]. apply Forall_cons in Hg as [Hg Hgs]. cbn [length fmap list_fmap scan take reduceat].
  rewrite bool_decide_eq_true_2 by apply zlen_nonneg. destruct g as [|x g]; [done|].
  assert (Hslice : reduce_slice op (pre ++ concat ((x :: g) :: gs)) (zlen pre)
      (match take (length gs) (scan (zlen pre + zlen (x :: g)) (zlen <$> gs)) with hi :: _ => hi | [] => zlen (pre ++ concat ((x :: g) :: gs)) end) = Ret (foldl op x g)).
  { unfold reduce_slice. unfold zlen at 1. rewrite Nat2Z.id, drop_app_length. cbn [concat app].
    assert (Hhi : (match take (length gs) (scan (zlen pre + zlen (x :: g)) (zlen <$> gs)) with hi :: _ => hi | [] => zlen (pre ++ x :: g ++ concat gs) end) = zlen pre + 1 + zlen g).
    { destruct gs as [|g' gs]; cbn; [rewrite app_nil_r, zlen_app|]; unfold zlen; cbn [length]; lia. }
    rewrite Hhi. pose proof (zlen_nonneg g). rewrite bool_decide_eq_true_2 by lia. replace (zlen pre + 1 + zlen g - zlen pre - 1) with (zlen g) by lia.
    unfold zlen. by rewrite Nat2Z.id, take_app_length. }
  rewrite Hslice. cbn [mbind py_bind]. specialize (IH (pre ++ x :: g) Hgs). rewrite zlen_app in IH. rewrite <- app_assoc in IH. cbn [concat]. rewrite IH.
  cbn [mapM fold1]. destruct (mapM (fold1 op) gs); done.
Qed.

(** The reductions combine the values of each global number, when each has at least one value. *)
Lemma reduce_spec {A} (op : A -> A -> A) d (gs : list (list A)) :
  Forall (fun g => g <> []) gs -> zsum (zlen <$> gs) <= iinfo_max d ->
  reduce op d (concat gs) (zlen <$> gs) = of_option IndexError (mapM (fold1 op) gs).
Proof.
  intros Hg Hs. unfold reduce. rewrite NpUtils.sizes_to_indices_exact; [|apply Forall_fmap, Forall_forall; intros g _; apply zlen_nonneg|done].
  rewrite length_scan, length_fmap. replace (S (length gs) - 1)%nat with (length gs) by lia. by apply (reduceat_groups op gs []).
Qed.

(** ** Exchanges in sequence *)

(** The exchanges, computed on the arrays of all the ranks. *)
Definition sorted_unique (l : list Z) : list Z := sort_by Z.leb (remove_dups l).
Fixpoint intervals (l : list Z) : list (Z * Z) := match l with x :: ((y :: _) as l') => (x, y) :: intervals l' | _ => [] end.
Definition seq_gnum (full : list Z) (ids : list (list Z)) : list (list Z) :=
  map (fun b => sorted_unique (filter (fun g => b.1 < g <= b.2) (concat ids))) (intervals full).
#[export] Instance seq_exchange : block_exchange := {|
  ptb_gnum := seq_gnum;
  ptb_field A full ids fields :=
    map (omap (fun g => snd <$> List.find (fun p => bool_decide (p.1 = g)) (zip (concat ids) (concat fields)))) (seq_gnum full ids);
  btp_field A full data lngn := map (omap (fun g => concat data !! Z.to_nat (g - 1))) lngn
|}.

Lemma intervals_scan acc dns : intervals (scan acc dns) = zip_with (fun a n => (a, a + n)) (scan acc dns) dns.
Proof. revert acc. induction dns as [|n dns IH]; intros acc; [done|].
  cbn [scan zip_with]. rewrite <- IH. destruct dns; done. Qed.

Lemma sorted_unique_spec l : StronglySorted Z.lt (sorted_unique l) /\ forall g, g ∈ sorted_unique l <-> g ∈ l.
Proof.
  unfold sorted_unique. pose proof (sort_by_perm Z.leb (remove_dups l)) as Hp. split.
  - assert (Hs : StronglySorted (fun a b => (a <=? b) = true) (sort_by Z.leb (remove_dups l))) by (apply sort_by_sorted; [intros x y; destruct (Z.leb_spec x y), (Z.leb_spec y x); auto; lia|intros x y z; rewrite !Z.leb_le; lia]).
    assert (Hd : NoDup (sort_by Z.leb (remove_dups l))) by (rewrite Hp; apply NoDup_remove_dups).
    clear Hp. induction Hs as [|x k Hs IH Hx]; [constructor|]. apply NoDup_cons in Hd as [Hn Hd]. constructor; [by apply IH|].
    rewrite Forall_forall in Hx |- *. intros y Hy. specialize (Hx y Hy). destruct (decide (x = y)) as [->|]; [by destruct Hn|]. apply Z.leb_le in Hx. lia.
  - intros g. rewrite Hp. apply elem_of_remove_dups.
Qed.

Lemma omap_Forall2 {A B} (f : A -> option B) (P : A -> B -> Prop) l :
  (forall x, x ∈ l -> exists y, f x = Some y /\ P x y) -> Forall2 P l (omap f l).
Proof.
  induction l as [|x l IH]; intros H; [constructor|]. destruct (H x) as (y & Hy & HP); [left|]. cbn. rewrite Hy.
  constructor; [done|]. apply IH. intros z Hz. apply H. by right.
Qed.

Lemma seq_gnum_spec dns ids : length (seq_gnum (scan 0 dns) ids) = length dns /\
  forall r p l, partials_of dns !! r = Some p -> seq_gnum (scan 0 dns) ids !! r = Some l -> StronglySorted Z.lt l /\ forall g, g ∈ l <-> g ∈ concat ids /\ p_start p < g <= p_end p.
Proof.
  unfold seq_gnum. split; [rewrite length_map, intervals_scan, length_zip_with, length_scan; lia|].
  intros r p l Hp Hr. apply list_lookup_fmap_Some in Hr as (b & -> & Hb). rewrite intervals_scan in Hb.
  apply lookup_zip_with_Some in Hb as (a & n & -> & Ha & Hn'). rewrite (partials_lookup _ _ _ Hn') in Hp. injection Hp as <-.
  rewrite scan_lookup in Ha by (apply lookup_lt_Some in Hn'; lia). injection Ha as <-. cbn [p_start p_end fst snd].
  destruct (sorted_unique_spec (filter (fun g => 0 + zsum (take r dns) < g <= 0 + zsum (take r dns) + n) (concat ids))) as [H1 H2].
  split; [done|]. intros g. rewrite H2, list_elem_of_filter. rewrite !Z.add_0_l. tauto.
Qed.
Lemma seq_gnum_elem full ids l g : l ∈ seq_gnum full ids -> g ∈ l -> g ∈ concat ids.
Proof. intros Hin Hg. unfold seq_gnum in Hin. apply list_elem_of_fmap in Hin as (b & -> & _). by apply sorted_unique_spec, list_elem_of_filter in Hg as [_ Hg]. Qed.
(** A value given with a number. *)
Lemma find_given {A} g (ids : list Z) (fields : list A) : length ids = length fields -> g ∈ ids ->
  exists x, snd <$> List.find (fun p => bool_decide (p.1 = g)) (zip ids fields) = Some x /\ (g, x) ∈ zip ids fields.
Proof.
  intros Hlen Hg. apply list_elem_of_lookup_1 in Hg as [i Hi]. destruct (lookup_lt_is_Some_2 fields i) as [x Hx]; [rewrite <- Hlen; by eapply lookup_lt_Some|].
  assert (Hin : (g, x) ∈ zip ids fields) by (apply (list_elem_of_lookup_2 _ i); rewrite lookup_zip_with, Hi; cbn; by rewrite Hx).
  destruct (List.find _ _) as [[g' y]|] eqn:E.
  - apply find_some in E as [E1 E2%bool_decide_eq_true]. cbn in E2. subst g'. exists y. split; [done|]. by apply list_elem_of_In.
  - apply find_none with (x := (g, x)) in E; [|by apply list_elem_of_In]. cbn in E. by rewrite bool_decide_eq_true_2 in E.
Qed.

#[export] Instance seq_exchange_laws : block_exchange_laws seq_exchange.
Proof.
  split.
  - intros dns ids Hn Hl Hids. apply seq_gnum_spec.
  - intros A dns ids fields Hn Hl Hids Hf. cbn. apply Forall2_fmap_r, Forall_Forall2_diag, Forall_forall. intros l Hin.
    apply omap_Forall2. intros g Hg. apply find_given; [|by apply (seq_gnum_elem (scan 0 dns) ids l)].
    clear -Hf. induction Hf as [|?? ?? E ? IH]; [done|]. cbn. rewrite !length_app. lia.
  - intros A dns data lngn Hd Hl Hg. cbn. apply Forall2_fmap_r, Forall_Forall2_diag. eapply Forall_impl; [exact Hg|]. intros l Hin.
    apply omap_Forall2. intros g Hgl. rewrite Forall_forall in Hin. specialize (Hin g Hgl).
    destruct (lookup_lt_is_Some_2 (concat data) (Z.to_nat (g - 1))) as [x Hx]; [|eauto].
    assert (Hlen : zlen (concat data) = zsum dns) by (clear -Hd; induction Hd as [|?? ?? E ? IH]; [done|]; cbn [concat]; rewrite zlen_app, zsum_cons; lia).
    unfold zlen in Hlen. lia.
Qed.
End Protocols.
