(* ===== verification/MergeIds.v ===== *)
(** * Renumbering of distributed elements: [maia/algo/dist/merge_ids.py]

    The two functions are modelled for all the ranks together, on the exchanges of Protocols: [distris], [ids]
    and [targets] are the arrays of the ranks.  The values of an array that is not initialised are [None]. *)
From S2P Require Import Prelude PyUtils NpUtils Distribution Protocols.

Local Open Scope Z_scope.

Module MergeIds.
Import Distribution Protocols.

(** ** Masked and indexed assignments *)

Fixpoint fill_mask {A} (a : list A) (mask : list bool) (vals : list A) : list A :=
  match a, mask, vals with
  | x :: a', true :: mask', v :: vals' => v :: fill_mask a' mask' vals'
  | x :: a', _ :: mask', _ => x :: fill_mask a' mask' vals
  | a, _, _ => a
  end.
(** [a[mask] = vals], with as many values as true positions, or one value for all of them. *)
Definition assign_mask {A} (a : list A) (mask : list bool) (vals : list A) : py (list A) :=
  let n := length (filter (fun b => b = true) mask) in
  if bool_decide (length vals = n) then Ret (fill_mask a mask vals)
  else match vals with [v] => Ret (fill_mask a mask (replicate n v)) | _ => Raise ValueError end.
(** [a[idx] = vals] *)
Fixpoint assign_at {A} (a : list A) (idx : list Z) (vals : list A) : py (list A) :=
  match idx, vals with
  | [], [] => Ret a
  | i :: idx', v :: vals' => a ← py_set a i v; assign_at a idx' vals'
  | _, _ => Raise ValueError
  end.

Section merge.
Context `{E : block_exchange} (d : dtype).

(** The full distribution, which all the ranks compute. *)
Definition full_distri (distris : list partial) : py (list Z) :=
  r ← auto_expand_distri d (map array_of_partial distris); of_option IndexError (head r).

(** ** Removal *)

Definition remove_local (distri : partial) (dist_ids : list Z) (n_rmvd_offset : Z) : py (list Z) :=
  let dn_elts := p_end distri - p_start distri in
  let n_rmvd_local := zlen dist_ids in
  let old_to_new := replicate (Z.to_nat dn_elts) (-1) in
  not_ids_local ← NpUtils.others_mask old_to_new (map (fun g => g - p_start distri - 1) dist_ids);
  assign_mask old_to_new not_ids_local
    (map (fun i => i + p_start distri - n_rmvd_offset + 1) (arange 0 (dn_elts - n_rmvd_local))).

(** [zip] of what the ranks hold. *)
Definition on_ranks {A B} (f : partial -> list Z -> Z -> A -> py B) (distris : list partial) (dist_ids : list (list Z)) (offsets : list Z) (l : list A) : py (list B) :=
  mapM (fun '(p, i, o, x) => f p i o x) (zip (zip (zip distris dist_ids) offsets) l).

Definition remove_distributed_ids (distris : list partial) (ids : list (list Z)) : py (list (list Z)) :=
  full ← full_distri distris;
  let dist_ids := ptb_gnum full ids in
  let n_rmvd_offset := gather_and_shift I8 (zlen <$> dist_ids) in
  on_ranks (fun p i o _ => remove_local p i o) distris dist_ids n_rmvd_offset distris.

(** ** Merge *)

Definition merge_local (distri : partial) (dist_ids : list Z) (n_rmvd_offset : Z) : py (list (option Z)) :=
  let total_ids_size := p_end distri - p_start distri in
  let old_to_new := replicate (Z.to_nat total_ids_size) None in
  let ids_local := map (fun g => g - p_start distri - 1) dist_ids in
  not_ids_local ← NpUtils.others_mask old_to_new ids_local;
  let unchanged_ids_size := total_ids_size - zlen ids_local in
  old_to_new ← assign_mask old_to_new not_ids_local (map (fun i => Some (i + p_start distri + 1)) (arange 0 unchanged_ids_size));
  Ret (map (option_map (fun x => x - n_rmvd_offset)) old_to_new).

Definition merge_finish (marker : Z) (distri : partial) (dist_ids : list Z) (old_to_new part_data : list (option Z)) : py (list (option Z)) :=
  assign_at old_to_new (map (fun g => g - p_start distri - 1) dist_ids) (map (option_map (Z.mul marker)) part_data).

Definition merge_distributed_ids (distris : list partial) (ids targets : list (list Z)) (sign_rmvd : bool) : py (list (list (option Z))) :=
  full ← full_distri distris;
  let dist_ids := ptb_gnum full ids in
  let dist_targets := ptb_field full ids targets in
  let n_rmvd_offset := gather_and_shift I8 (zlen <$> dist_ids) in
  old_to_new ← on_ranks (fun p i o _ => merge_local p i o) distris dist_ids n_rmvd_offset distris;
  let part_data := btp_field full old_to_new dist_targets in
  let marker := if sign_rmvd then -1 else 1 in
  on_ranks (fun p i _ x => merge_finish marker p i x.1 x.2) distris dist_ids n_rmvd_offset (zip old_to_new part_data).
End merge.

(** ** The new numbers *)

(** The number of an element once those of [rmvd] are removed. *)
Definition n_before (rmvd : list Z) (g : Z) : Z := zlen (filter (fun x => x < g) rmvd).
Definition new_number (rmvd : list Z) (g : Z) : Z := g - n_before rmvd g.

Lemma filter_partition {A} (P : A -> Prop) `{!forall x, Decision (P x)} (l : list A) :
  zlen (filter P l) + zlen (filter (fun x => ~ P x) l) = zlen l.
Proof.
  unfold zlen. induction l as [|x l IH]; [done|]. rewrite !filter_cons. repeat case_decide; cbn [length]; try tauto; lia.
Qed.

Lemma zlen_perm {A} (l k : list A) : l ≡ₚ k -> zlen l = zlen k.
Proof. intros H. unfold zlen. by rewrite H. Qed.

Lemma n_kept rmvd lo hi g :
  NoDup rmvd -> (forall x, x ∈ rmvd -> lo <= x < hi) -> lo <= g <= hi ->
  zlen (filter (fun x => x ∉ rmvd) (arange lo g)) = g - lo - n_before rmvd g.
Proof.
  intros Hd Hin Hg. pose proof (filter_partition (fun x => x ∈ rmvd) (arange lo g)) as H.
  assert (Hp : filter (fun x => x ∈ rmvd) (arange lo g) ≡ₚ filter (fun x => x < g) rmvd).
  { apply NoDup_Permutation; [apply NoDup_filter, NoDup_seqZ|by apply NoDup_filter|]. intros x.
    rewrite !list_elem_of_filter, elem_of_arange. split; [intros [? ?]; split; [lia|done]|intros [? ?]; split; [done|]; specialize (Hin x); lia || naive_solver lia]. }
  rewrite (zlen_perm _ _ Hp) in H. unfold zlen at 3 in H. rewrite length_arange in H. unfold n_before. lia.
Qed.

(** The elements that are kept have the numbers from 1, in order. *)
Lemma new_numbers rmvd g :
  NoDup rmvd -> (forall x, x ∈ rmvd -> 1 <= x) -> 1 <= g ->
  map (new_number rmvd) (filter (fun x => x ∉ rmvd) (arange 1 g)) = arange 1 (new_number rmvd g) /\ 1 <= new_number rmvd g.
Proof.
  intros Hd Hin Hg. assert (Hb : forall h, n_before rmvd (h + 1) = n_before rmvd h + (if bool_decide (h ∈ rmvd) then 1 else 0)).
  { intros h. unfold n_before. clear Hin Hg. induction rmvd as [|x l IH]; [done|]. apply NoDup_cons in Hd as [Hx Hd]. specialize (IH Hd). rewrite !filter_cons.
    destruct (decide (x = h)) as [->|Hne].
    - rewrite decide_True, decide_False by lia. rewrite bool_decide_eq_false_2 in IH by done. rewrite bool_decide_eq_true_2 by left. unfold zlen in *. cbn [length]. lia.
    - assert (Eq : bool_decide (h ∈ x :: l) = bool_decide (h ∈ l)) by (apply bool_decide_ext; rewrite elem_of_cons; naive_solver). rewrite Eq.
      repeat case_decide; try lia; unfold zlen in *; cbn [length]; lia. }
  revert g Hg. apply Zlt_lower_bound_ind with (z := 1). intros g IH Hg. destruct (decide (g = 1)) as [->|Hne].
  - assert (n_before rmvd 1 = 0) as E.
    { unfold n_before. rewrite filter_none_nil; [done|]. intros x Hx%Hin. lia. }
    unfold new_number. rewrite E. split; [done|lia].
  - destruct (IH (g - 1) ltac:(lia)) as [IH1 IH2]. rewrite (arange_app 1 (g - 1) g) by lia. rewrite filter_app, map_app, IH1.
    rewrite (arange_cons (g - 1) g), (arange_nil (g - 1 + 1) g) by lia. rewrite filter_cons, filter_nil.
    specialize (Hb (g - 1)). replace (g - 1 + 1) with g in Hb by lia. unfold new_number in *.
    destruct (decide (g - 1 ∈ rmvd)) as [Hk|Hk].
    + rewrite bool_decide_eq_true_2 in Hb by done. rewrite decide_False by tauto. rewrite app_nil_r. split; [f_equal; lia|lia].
    + rewrite bool_decide_eq_false_2 in Hb by done. rewrite decide_True by done. split; [|lia].
      rewrite (arange_app 1 (g - 1 - n_before rmvd (g - 1)) (g - n_before rmvd g)) by lia. f_equal.
      replace (g - n_before rmvd g) with (g - 1 - n_before rmvd (g - 1) + 1) by lia. rewrite arange_cons, (arange_nil (_ + 1)) by lia. done.
Qed.

(** ** Assignments on the interval of a rank *)

Lemma py_set_tab {A} (f : Z -> A) lo hi i x :
  lo <= i < hi -> py_set (map f (arange lo hi)) (i - lo) x = Ret (map (fun j => if bool_decide (j = i) then x else f j) (arange lo hi)).
Proof.
  intros Hi. unfold py_set. rewrite length_map, length_arange, norm_index_nonneg by lia. by rewrite insert_tab.
Qed.

Lemma set_false_tab (f : Z -> bool) lo hi l :
  (forall x, x ∈ l -> lo <= x < hi) ->
  NpUtils.set_false (map f (arange lo hi)) (map (fun g => g - lo) l) = Ret (map (fun g => f g && bool_decide (g ∉ l)) (arange lo hi)).
Proof.
  revert f. induction l as [|x l IH]; intros f Hl; cbn [map NpUtils.set_false].
  - f_equal. apply map_tab_ext. intros i _. by rewrite bool_decide_eq_true_2, andb_true_r by apply not_elem_of_nil.
  - rewrite py_set_tab by (apply Hl; left). cbn [mbind py_bind]. rewrite IH by (intros y Hy; apply Hl; by right). f_equal. apply map_tab_ext.
    intros i _. case_bool_decide as E; [subst; rewrite (bool_decide_eq_false_2 (x ∉ x :: l)) by (intros H; apply H; left); by rewrite andb_false_r|].
    f_equal. apply bool_decide_ext. rewrite not_elem_of_cons. tauto.
Qed.

Lemma others_mask_tab {A} (a : A) lo hi l :
  (forall x, x ∈ l -> lo < x <= hi) ->
  NpUtils.others_mask (replicate (Z.to_nat (hi - lo)) a) (map (fun g => g - lo - 1) l) = Ret (map (fun g => bool_decide (g ∉ l)) (arange (lo + 1) (hi + 1))).
Proof.
  intros Hl. unfold NpUtils.others_mask. rewrite length_replicate. replace (hi - lo) with (hi + 1 - (lo + 1)) by lia. rewrite replicate_tab.
  replace (map (fun g => g - lo - 1) l) with (map (fun g => g - (lo + 1)) l) by (apply map_ext; intros; lia).
  rewrite set_false_tab by (intros x Hx; apply Hl in Hx; lia). done.
Qed.

Lemma fill_mask_tab {A} (f v : Z -> A) (kept : Z -> bool) hi n : forall lo k,
  n = Z.to_nat (hi - lo) ->
  fill_mask (map f (arange lo hi)) (map kept (arange lo hi)) (map v (arange k (k + zlen (filter (fun g => kept g = true) (arange lo hi))))) =
  map (fun g => if kept g then v (k + zlen (filter (fun g => kept g = true) (arange lo g))) else f g) (arange lo hi).
Proof.
  induction n as [|n IH]; intros lo k Hn; [by rewrite !arange_nil by lia|].
  rewrite (arange_cons lo hi) by lia. cbn [map]. rewrite (arange_nil lo lo), filter_nil by lia.
  assert (Htl : map (fun g => if kept g then v (k + zlen (filter (fun g => kept g = true) (arange lo g))) else f g) (arange (lo + 1) hi) =
    map (fun g => if kept g then v ((if kept lo then k + 1 else k) + zlen (filter (fun g => kept g = true) (arange (lo + 1) g))) else f g) (arange (lo + 1) hi)).
  { apply map_tab_ext. intros g Hg. destruct (kept g); [|done]. f_equal. rewrite (arange_cons lo g) by lia. rewrite filter_cons.
    destruct (kept lo) eqn:E; case_decide; try congruence; unfold zlen; cbn [length]; lia. }
  rewrite Htl, <- (IH (lo + 1) (if kept lo then k + 1 else k)) by lia. rewrite filter_cons. destruct (kept lo) eqn:E.
  - rewrite decide_True by done. pose proof (zlen_nonneg (filter (fun g => kept g = true) (arange (lo + 1) hi))).
    assert (Hc : zlen (lo :: filter (fun g => kept g = true) (arange (lo + 1) hi)) = 1 + zlen (filter (fun g => kept g = true) (arange (lo + 1) hi))) by (unfold zlen; cbn [length]; lia).
    rewrite Hc, (arange_cons k) by lia. cbn [map fill_mask]. f_equal; [f_equal; unfold zlen; cbn; lia|]. do 3 f_equal. lia.
  - rewrite decide_False by congruence. cbn [fill_mask]. destruct (map v _); done.
Qed.

Lemma filter_map_length {A} (f : A -> bool) l : length (filter (fun b => b = true) (map f l)) = length (filter (fun x => f x = true) l).
Proof. induction l as [|x l IH]; [done|]. cbn [map]. rewrite !filter_cons. repeat case_decide; cbn [length]; congruence. Qed.

(** The values given to the elements that are kept, by their numbers. *)
Lemma assign_kept {A} (a : A) (v : Z -> A) lo hi l :
  NoDup l -> (forall x, x ∈ l -> lo < x <= hi) -> lo <= hi ->
  (m ← NpUtils.others_mask (replicate (Z.to_nat (hi - lo)) a) (map (fun g => g - lo - 1) l);
   assign_mask (replicate (Z.to_nat (hi - lo)) a) m (map v (arange 0 (hi - lo - zlen l)))) =
  Ret (map (fun g => if bool_decide (g ∈ l) then a else v (new_number l g - lo - 1)) (arange (lo + 1) (hi + 1))).
Proof.
  intros Hd Hl Hle. rewrite others_mask_tab by done. cbn [mbind py_bind].
  assert (Hkept : forall g, lo + 1 <= g <= hi + 1 -> zlen (filter (fun g => bool_decide (g ∉ l) = true) (arange (lo + 1) g)) = g - lo - 1 - n_before l g).
  { intros g Hg. replace (g - lo - 1 - n_before l g) with (g - (lo + 1) - n_before l g) by lia.
    rewrite <- (n_kept l (lo + 1) (hi + 1) g); [|done|intros x Hx; apply Hl in Hx; lia|lia].
    f_equal. apply list_filter_iff. intros x. by rewrite bool_decide_eq_true. }
  assert (Hall : n_before l (hi + 1) = zlen l).
  { unfold n_before. f_equal. apply NpUtils.filter_all, Forall_forall. intros x Hx%Hl. lia. }
  unfold assign_mask. rewrite filter_map_length. pose proof (Hkept (hi + 1) ltac:(lia)) as Hn. rewrite Hall in Hn.
  rewrite length_map, length_arange. rewrite bool_decide_eq_true_2 by (unfold zlen in *; lia). f_equal.
  replace (hi - lo) with (hi + 1 - (lo + 1)) at 1 by lia. rewrite replicate_tab.
  replace (hi - lo - zlen l) with (0 + zlen (filter (fun g => bool_decide (g ∉ l) = true) (arange (lo + 1) (hi + 1)))) by lia.
  rewrite (fill_mask_tab _ _ _ _ _ _ _ eq_refl). apply map_tab_ext. intros g Hg. rewrite Hkept by lia.
  case_bool_decide as H1; case_bool_decide as H2; try tauto. f_equal. unfold new_number. lia.
Qed.

Lemma assign_at_tab {A} (f v : Z -> A) lo hi l :
  (forall x, x ∈ l -> lo < x <= hi) ->
  assign_at (map f (arange (lo + 1) (hi + 1))) (map (fun g => g - lo - 1) l) (map v l) =
  Ret (map (fun g => if bool_decide (g ∈ l) then v g else f g) (arange (lo + 1) (hi + 1))).
Proof.
  revert f. induction l as [|x l IH]; intros f Hl; cbn [map assign_at].
  - done.
  - replace (x - lo - 1) with (x - (lo + 1)) by lia. rewrite py_set_tab by (specialize (Hl x ltac:(left)); lia). cbn [mbind py_bind].
    rewrite IH by (intros y Hy; apply Hl; by right). f_equal. apply map_tab_ext. intros i _.
    destruct (decide (i = x)) as [->|Hne].
    + rewrite !(bool_decide_eq_true_2 (x = x)), (bool_decide_eq_true_2 (x ∈ x :: l)) by (done || left). by case_bool_decide.
    + rewrite (bool_decide_eq_false_2 (i = x)) by done. assert (Eq : bool_decide (i ∈ x :: l) = bool_decide (i ∈ l)) by (apply bool_decide_ext; rewrite elem_of_cons; tauto). by rewrite Eq.
Qed.

(** ** All the ranks *)

Lemma on_ranks_spec {A B} (f : partial -> list Z -> Z -> A -> py B) distris dist_ids offs l ys :
  length dist_ids = length distris -> (length distris <= length offs)%nat -> length l = length distris -> length ys = length distris ->
  (forall r p i o x y, distris !! r = Some p -> dist_ids !! r = Some i -> offs !! r = Some o -> l !! r = Some x -> ys !! r = Some y -> f p i o x = Ret y) ->
  on_ranks f distris dist_ids offs l = Ret ys.
Proof.
  intros H1 H2 H3 H4 H. unfold on_ranks. apply py_mapM_lookup; [rewrite !length_zip_with; lia|].
  intros r [[[p i] o] x] y Hr Hy. apply lookup_zip_with_Some in Hr as ([[p' i'] o'] & x' & [= <- <- <- <-] & Hr & Hx).
  apply lookup_zip_with_Some in Hr as ([p' i'] & o' & [= <- <- <-] & Hr & Ho). apply lookup_zip_with_Some in Hr as (p' & i' & [= <- <-] & Hp & Hi). by eapply H.
Qed.

Lemma sorted_concat (ls : list (list Z)) :
  (forall i l, ls !! i = Some l -> StronglySorted Z.lt l) ->
  (forall i j li lj x y, (i < j)%nat -> ls !! i = Some li -> ls !! j = Some lj -> x ∈ li -> y ∈ lj -> x < y) -> StronglySorted Z.lt (concat ls).
Proof.
  induction ls as [|l ls IH]; intros Hs Hc; [constructor|]. cbn [concat].
  assert (Hls : StronglySorted Z.lt (concat ls)).
  { apply IH; [intros i k Hk; by apply (Hs (S i))|]. intros i j li lj x y Hij Hi Hj. apply (Hc (S i) (S j)); [lia|done..]. }
  assert (Hl : StronglySorted Z.lt l) by by apply (Hs 0%nat).
  assert (Hlt : forall x y, x ∈ l -> y ∈ concat ls -> x < y).
  { intros x y Hx (k & Hk & Hy)%elem_of_concat. apply list_elem_of_lookup_1 in Hk as [j Hj]. by apply (Hc 0%nat (S j) l k x y); [lia|..]. }
  by apply StronglySorted_app.
Qed.
Lemma sorted_NoDup (l : list Z) : StronglySorted Z.lt l -> NoDup l.
Proof.
  induction 1 as [|x l Hs IH Hx]; constructor; [|done]. intros Hin. rewrite Forall_forall in Hx. specialize (Hx x Hin). lia.
Qed.

(** The rank that holds a number. *)
Lemma owner_rank dns g :
  Forall (fun n => 0 <= n) dns -> 1 <= g <= zsum dns -> exists r n, dns !! r = Some n /\ zsum (take r dns) < g <= zsum (take r dns) + n.
Proof.
  revert g. induction dns as [|n dns IH]; intros g Hn Hg; [rewrite zsum_nil in Hg; lia|]. apply Forall_cons in Hn as [Hn Hdns]. rewrite zsum_cons in Hg.
  destruct (decide (g <= n)).
  - exists 0%nat, n. split; [done|]. cbn. change (zsum []) with 0. lia.
  - destruct (IH (g - n) Hdns ltac:(lia)) as (r & m & Hr & H). exists (S r), m. split; [done|]. cbn [take]. rewrite zsum_cons. lia.
Qed.

(** A function from distinct keys to the values that come with them. *)
Lemma values_function (P : Z -> Z -> Prop) l t : NoDup l -> Forall2 P l t -> exists T, t = map T l /\ forall g, g ∈ l -> P g (T g).
Proof.
  intros Hd HP. induction HP as [|g x l t Hg HP IH]; [exists id; split; [done|intros g []%not_elem_of_nil]|]. apply NoDup_cons in Hd as [Hn Hd].
  destruct (IH Hd) as (T & -> & HT). exists (fun y => if bool_decide (y = g) then x else T y). split.
  - cbn. rewrite bool_decide_eq_true_2 by done. f_equal. apply list_fmap_ext. intros i y Hy. rewrite bool_decide_eq_false_2; [done|].
    intros ->. apply Hn. by eapply list_elem_of_lookup_2.
  - intros y Hy. case_bool_decide as E; [by subst|]. apply HT. by apply elem_of_cons in Hy as [?|?].
Qed.
Lemma values_functions (P : Z -> Z -> Prop) ls ts :
  NoDup (concat ls) -> Forall2 (Forall2 P) ls ts -> exists T, ts = map (map T) ls /\ forall g, g ∈ concat ls -> P g (T g).
Proof.
  intros Hd HP. induction HP as [|l t ls ts Hl HP IH]; [exists id; split; [done|intros g []%not_elem_of_nil]|]. cbn [concat] in Hd. apply NoDup_app in Hd as (Hd1 & Hdis & Hd2).
  destruct (IH Hd2) as (T2 & -> & H2), (values_function P l t Hd1 Hl) as (T1 & -> & H1).
  exists (fun y => if bool_decide (y ∈ l) then T1 y else T2 y). split.
  - cbn. f_equal; [|apply list_fmap_ext; intros j k Hk]; apply list_fmap_ext; intros i y Hy.
    + rewrite bool_decide_eq_true_2; [done|by eapply list_elem_of_lookup_2].
    + rewrite bool_decide_eq_false_2; [done|]. intros Hy'. apply (Hdis y Hy'). apply elem_of_concat. exists k. split; by eapply list_elem_of_lookup_2.
  - intros g Hg. case_bool_decide; [by apply H1|]. apply H2. cbn in Hg. by apply elem_of_app in Hg as [?|?].
Qed.

Lemma elem_of_zip_r {A B} (l : list A) (k : list B) a b : (a, b) ∈ zip l k -> b ∈ k.
Proof. intros H. apply list_elem_of_lookup_1 in H as [i Hi]. apply lookup_zip_with_Some in Hi as (x & y & [= -> ->] & _ & Hy). by eapply list_elem_of_lookup_2. Qed.

(** The values received for the targets. *)
Lemma part_data_spec (T v : Z -> Z) (F : Z -> option Z) N (ls : list (list Z)) part :
  (forall g, g ∈ concat ls -> 1 <= T g <= N /\ F (T g) = Some (v (T g))) ->
  Forall2 (Forall2 (fun t x => map F (arange 1 (N + 1)) !! Z.to_nat (t - 1) = Some x)) (map (map T) ls) part ->
  map (map (fun g => Some (v (T g)))) ls = part.
Proof.
  revert part. induction ls as [|l ls IH]; intros part HT HP.
  { by apply Forall2_nil_inv_l in HP as ->. }
  apply Forall2_cons_inv_l in HP as (x & part' & Hx & HP & ->). cbn. f_equal.
  - assert (Hl : forall g, g ∈ l -> 1 <= T g <= N /\ F (T g) = Some (v (T g))) by (intros g Hg; apply HT; cbn; apply elem_of_app; by left).
    clear -Hl Hx. revert x Hx. induction l as [|g l IH]; intros x Hx; [by apply Forall2_nil_inv_l in Hx as ->|].
    apply Forall2_cons_inv_l in Hx as (y & x' & Hy & Hx & ->). destruct (Hl g) as [Hb HF]; [left|]. rewrite lookup_tab, HF in Hy by lia. injection Hy as <-.
    cbn. f_equal. apply IH; [|done]. intros h Hh. apply Hl. by right.
  - apply IH; [|done]. intros g Hg. apply HT. cbn. apply elem_of_app. by right.
Qed.

Section renumbering.
Context `{E : block_exchange} (d : dtype) {L : block_exchange_laws E}.
Context (dns : list Z) (ids : list (list Z)).
Context (Hdns : Forall (fun n => 0 <= n) dns) (Hsize : zsum dns <= iinfo_max d) (Hne : dns <> []).
Context (Hlen : length ids = length dns) (Hids : Forall (Forall (fun g => 1 <= g <= zsum dns)) ids).

Let distris := partials_of dns.
Let dist_ids := ptb_gnum (scan 0 dns) ids.
Let rmvd := concat dist_ids.

Lemma full_distri_spec : full_distri d distris = Ret (scan 0 dns).
Proof.
  unfold full_distri. destruct (auto_expand_spec d dns Hdns Hsize) as [H _]. fold distris in H. rewrite H. cbn [mbind py_bind].
  by destruct dns.
Qed.

Lemma length_dist_ids : length dist_ids = length dns.
Proof. by destruct (law_gnum dns ids Hdns Hlen Hids). Qed.

Lemma rank_ids r p l : distris !! r = Some p -> dist_ids !! r = Some l ->
  StronglySorted Z.lt l /\ forall g, g ∈ l <-> g ∈ concat ids /\ p_start p < g <= p_end p.
Proof. destruct (law_gnum dns ids Hdns Hlen Hids) as [_ H]. apply H. Qed.

Lemma rank_bounds r p : distris !! r = Some p -> p_start p = zsum (take r dns) /\ p_end p = zsum (take (S r) dns) /\ 0 <= p_start p <= p_end p.
Proof. by apply partial_bounds. Qed.

Lemma rank_of r l : dist_ids !! r = Some l -> exists p, distris !! r = Some p.
Proof.
  intros Hl. apply lookup_lt_is_Some. apply lookup_lt_Some in Hl. unfold distris. rewrite length_partials. by rewrite length_dist_ids in Hl.
Qed.

Lemma ranks_ordered i j li lj x y : (i < j)%nat -> dist_ids !! i = Some li -> dist_ids !! j = Some lj -> x ∈ li -> y ∈ lj -> x < y.
Proof.
  intros Hij Hi Hj Hx Hy. destruct (rank_of i li Hi) as [pi Hpi], (rank_of j lj Hj) as [pj Hpj].
  destruct (rank_ids i pi li Hpi Hi) as [_ Hli], (rank_ids j pj lj Hpj Hj) as [_ Hlj]. apply Hli in Hx. apply Hlj in Hy.
  destruct (rank_bounds i pi Hpi) as (_ & E1 & _), (rank_bounds j pj Hpj) as (E2 & _ & _). pose proof (zsum_take_le dns (S i) j Hdns ltac:(lia)). lia.
Qed.

Lemma rmvd_spec : NoDup rmvd /\ forall g, g ∈ rmvd <-> g ∈ concat ids.
Proof.
  split.
  - apply sorted_NoDup, sorted_concat; [|exact ranks_ordered]. intros i l Hl. destruct (rank_of i l Hl) as [p Hp]. by destruct (rank_ids i p l Hp Hl).
  - intros g. unfold rmvd. rewrite elem_of_concat. split.
    + intros (l & Hl & Hg). apply list_elem_of_lookup_1 in Hl as [r Hr]. destruct (rank_of r l Hr) as [p Hp].
      destruct (rank_ids r p l Hp Hr) as [_ H]. by destruct (proj1 (H g) Hg).
    + intros Hg. assert (Hr : 1 <= g <= zsum dns).
      { apply elem_of_concat in Hg as (l & Hl & Hg). by apply (proj1 (Forall_forall _ _) (proj1 (Forall_forall _ _) Hids l Hl)). }
      destruct (owner_rank dns g Hdns Hr) as (r & n & Hn & Hlo). destruct (lookup_lt_is_Some_2 dist_ids r) as [l Hl]; [rewrite length_dist_ids; by eapply lookup_lt_Some|].
      exists l. split; [by eapply list_elem_of_lookup_2|]. pose proof (partials_lookup _ _ _ Hn) as Hp. apply (rank_ids r _ l Hp Hl). cbn. split; [done|lia].
Qed.

(** The elements removed before an element of a rank: those of the previous ranks, and some of the rank. *)
Lemma before_split r p l g :
  distris !! r = Some p -> dist_ids !! r = Some l -> p_start p < g <= p_end p ->
  n_before rmvd g = zsum (take r (zlen <$> dist_ids)) + n_before l g.
Proof.
  intros Hp Hl Hg. unfold rmvd, n_before. rewrite <- (take_drop_middle dist_ids r l Hl) at 1. rewrite concat_app, filter_app, zlen_app.
  change (concat (l :: drop (S r) dist_ids)) with (l ++ concat (drop (S r) dist_ids)). rewrite filter_app, zlen_app.
  rewrite <- fmap_take, <- NpUtils.zlen_concat. destruct (rank_bounds r p Hp) as (E1 & E2 & _).
  assert (Ha : filter (fun x => x < g) (concat (take r dist_ids)) = concat (take r dist_ids)).
  { apply NpUtils.filter_all, Forall_forall. intros x (k & Hk & Hx)%elem_of_concat. apply list_elem_of_lookup_1 in Hk as [i Hi].
    assert (Hir : (i < r)%nat) by (apply lookup_lt_Some in Hi; rewrite length_take in Hi; lia). rewrite lookup_take_lt in Hi by done.
    destruct (rank_of i k Hi) as [q Hq]. destruct (rank_ids i q k Hq Hi) as [_ H]. destruct (proj1 (H x) Hx) as [_ Hx']. destruct (rank_bounds i q Hq) as (_ & E3 & _).
    pose proof (zsum_take_le dns (S i) r Hdns ltac:(lia)). lia. }
  assert (Hb : filter (fun x => x < g) (concat (drop (S r) dist_ids)) = []).
  { apply filter_none_nil. intros x (k & Hk & Hx)%elem_of_concat. apply list_elem_of_lookup_1 in Hk as [i Hi]. rewrite lookup_drop in Hi.
    destruct (rank_of _ k Hi) as [q Hq]. destruct (rank_ids _ q k Hq Hi) as [_ H]. destruct (proj1 (H x) Hx) as [_ Hx']. destruct (rank_bounds _ q Hq) as (E3 & _ & _).
    pose proof (zsum_take_le dns (S r) (S r + i) Hdns ltac:(lia)). lia. }
  rewrite Ha, Hb. change (zlen (@nil Z)) with 0. lia.
Qed.

Lemma sizes_fit : zsum (zlen <$> dist_ids) <= zsum dns.
Proof.
  rewrite <- NpUtils.zlen_concat. fold rmvd. destruct rmvd_spec as [Hd Hin].
  assert (Hsub : rmvd ⊆+ arange 1 (zsum dns + 1)).
  { apply NoDup_submseteq; [done|]. intros g Hg. apply Hin, elem_of_concat in Hg as (l & Hl & Hg). apply elem_of_arange.
    pose proof (proj1 (Forall_forall _ _) (proj1 (Forall_forall _ _) Hids l Hl) g Hg). cbn in *. lia. }
  apply submseteq_length in Hsub. rewrite length_arange in Hsub. pose proof (zsum_nonneg dns Hdns). unfold zlen. lia.
Qed.

Definition offsets_of : list Z := scan 0 (zlen <$> dist_ids).
Lemma offset_at r o l : offsets_of !! r = Some o -> dist_ids !! r = Some l -> o = zsum (take r (zlen <$> dist_ids)).
Proof.
  intros Ho Hl. unfold offsets_of in Ho. rewrite scan_lookup in Ho by (rewrite length_fmap; apply lookup_lt_Some in Hl; lia). injection Ho as <-. lia.
Qed.

(** The element is removed on the rank that holds it. *)
Lemma rank_removed r p l g : distris !! r = Some p -> dist_ids !! r = Some l -> p_start p < g <= p_end p -> g ∈ l <-> g ∈ rmvd.
Proof. intros Hp Hl Hg. destruct (rank_ids r p l Hp Hl) as [_ H], rmvd_spec as [_ H']. rewrite H, H'. tauto. Qed.

(** The numbers given by a rank, from which the offset is taken away. *)
Lemma rank_assign {A} (a : A) (v : Z -> A) r p l :
  distris !! r = Some p -> dist_ids !! r = Some l ->
  (m ← NpUtils.others_mask (replicate (Z.to_nat (p_end p - p_start p)) a) (map (fun g => g - p_start p - 1) l);
   assign_mask (replicate (Z.to_nat (p_end p - p_start p)) a) m (map v (arange 0 (p_end p - p_start p - zlen l)))) =
  Ret (map (fun g => if bool_decide (g ∈ rmvd) then a else v (new_number rmvd g + zsum (take r (zlen <$> dist_ids)) - p_start p - 1)) (arange (p_start p + 1) (p_end p + 1))).
Proof.
  intros Hp Hl. destruct (rank_ids r p l Hp Hl) as [Hs Hin], (rank_bounds r p Hp) as (_ & _ & Hb).
  rewrite assign_kept; [|by apply sorted_NoDup|by intros x [_ Hx]%Hin|lia]. f_equal. apply map_tab_ext. intros g Hg.
  assert (Eq : bool_decide (g ∈ l) = bool_decide (g ∈ rmvd)) by (apply bool_decide_ext, (rank_removed r p l); (done || lia)). rewrite Eq.
  destruct (bool_decide (g ∈ rmvd)); [done|]. f_equal. unfold new_number. rewrite (before_split r p l g Hp Hl) by lia. lia.
Qed.

Lemma gathered_offsets : gather_and_shift I8 (zlen <$> dist_ids) = offsets_of.
Proof.
  apply gather_exact; [apply Forall_fmap, Forall_forall; intros l _; apply zlen_nonneg|]. pose proof sizes_fit. etrans; [exact H|]. etrans; [exact Hsize|].
  by destruct d.
Qed.

(** What the ranks return, from what each of them computes on its interval. *)
Definition on_intervals {A} (F : Z -> A) : list (list A) := map (fun p => map F (arange (p_start p + 1) (p_end p + 1))) distris.
Lemma on_intervals_concat {A} (F : Z -> A) : concat (on_intervals F) = map F (arange 1 (zsum dns + 1)).
Proof. unfold on_intervals, distris, partials_of. by rewrite concat_partials. Qed.
Lemma on_intervals_sizes {A} (F : Z -> A) : Forall2 (fun n l => zlen l = n) dns (on_intervals F).
Proof.
  apply Forall2_same_length_lookup_2; [unfold on_intervals, distris; by rewrite length_map, length_partials|].
  intros r n l Hn Hl. unfold on_intervals, distris in Hl. rewrite lookup_map, (partials_lookup _ _ _ Hn) in Hl. injection Hl as <-.
  unfold zlen. rewrite length_map, length_arange. cbn. pose proof (proj1 (Forall_lookup _ _) Hdns r n Hn). cbn in *. lia.
Qed.
Lemma on_ranks_intervals {A B} (f : partial -> list Z -> Z -> A -> py (list B)) (F : Z -> B) (x : list A) :
  length x = length dns ->
  (forall r p l a, distris !! r = Some p -> dist_ids !! r = Some l -> x !! r = Some a ->
    f p l (zsum (take r (zlen <$> dist_ids))) a = Ret (map F (arange (p_start p + 1) (p_end p + 1)))) ->
  on_ranks f distris dist_ids offsets_of x = Ret (on_intervals F).
Proof.
  intros Hx H. assert (Hd : length distris = length dns) by apply length_partials. pose proof length_dist_ids as Hi.
  apply on_ranks_spec; [lia|unfold offsets_of; rewrite length_scan, length_fmap; lia|lia|unfold on_intervals; by rewrite length_map|].
  intros r p l o a y Hp Hl Ho Ha Hy. unfold on_intervals in Hy. rewrite lookup_map, Hp in Hy. injection Hy as <-.
  rewrite (offset_at r o l Ho Hl). by apply H.
Qed.

Lemma remove_ranks :
  remove_distributed_ids d distris ids = Ret (on_intervals (fun g => if bool_decide (g ∈ rmvd) then -1 else new_number rmvd g)).
Proof.
  unfold remove_distributed_ids. rewrite full_distri_spec. cbn [mbind py_bind]. fold dist_ids. rewrite gathered_offsets.
  apply on_ranks_intervals; [apply length_partials|]. intros r p l _ Hp Hl _. unfold remove_local.
  rewrite (rank_assign _ (fun i => i + p_start p - zsum (take r (zlen <$> dist_ids)) + 1) r p l Hp Hl). f_equal. apply map_tab_ext. intros g Hg.
  destruct (bool_decide (g ∈ rmvd)); [done|lia].
Qed.

Lemma merge_ranks_local :
  on_ranks (fun p i o _ => merge_local p i o) distris dist_ids offsets_of distris =
  Ret (on_intervals (fun g => if bool_decide (g ∈ rmvd) then None else Some (new_number rmvd g))).
Proof.
  apply on_ranks_intervals; [apply length_partials|]. intros r p l _ Hp Hl _. unfold merge_local.
  replace (zlen (map (fun g => g - p_start p - 1) l)) with (zlen l) by (unfold zlen; by rewrite length_map).
  pose proof (rank_assign None (fun i => Some (i + p_start p + 1)) r p l Hp Hl) as Ha.
  destruct (NpUtils.others_mask _ _) as [m|]; [|done]. cbn [mbind py_bind] in Ha |- *. rewrite Ha. cbn [mbind py_bind]. f_equal. rewrite map_map.
  apply map_tab_ext. intros g Hg. destruct (bool_decide (g ∈ rmvd)); [done|]. cbn. f_equal. lia.
Qed.

Context (targets : list (list Z)) (Hshape : Forall2 (fun l t => length l = length t) ids targets).
Context (Htargets : Forall (Forall (fun t => 1 <= t <= zsum dns)) targets) (Hdisjoint : forall t, t ∈ concat targets -> t ∉ concat ids).

Lemma merge_ranks (sign_rmvd : bool) :
  exists T, (forall g, g ∈ rmvd -> (g, T g) ∈ zip (concat ids) (concat targets)) /\
    merge_distributed_ids d distris ids targets sign_rmvd =
    Ret (on_intervals (fun g => Some (if bool_decide (g ∈ rmvd) then (if sign_rmvd then -1 else 1) * new_number rmvd (T g) else new_number rmvd g))).
Proof.
  pose proof (law_field Z dns ids targets Hdns Hlen Hids Hshape) as Hf. fold dist_ids in Hf.
  destruct (values_functions _ _ _ (proj1 rmvd_spec) Hf) as (T & HT & HP). exists T. split; [done|].
  assert (HTt : forall g, g ∈ rmvd -> T g ∈ concat targets) by (intros g Hg; apply HP in Hg; by apply elem_of_zip_r in Hg).
  assert (HT1 : forall t, t ∈ concat targets -> 1 <= t <= zsum dns).
  { intros t (l & Hl & Ht)%elem_of_concat. by apply (proj1 (Forall_forall _ _) (proj1 (Forall_forall _ _) Htargets l Hl)). }
  unfold merge_distributed_ids. rewrite full_distri_spec. cbn [mbind py_bind]. fold dist_ids. rewrite gathered_offsets, merge_ranks_local. cbn [mbind py_bind]. rewrite HT.
  set (F0 := fun g => if bool_decide (g ∈ rmvd) then None else Some (new_number rmvd g)).
  pose proof (law_btp (option Z) dns (on_intervals F0) (map (map T) dist_ids) (on_intervals_sizes F0)) as Hb.
  rewrite length_map, length_dist_ids in Hb. specialize (Hb eq_refl). rewrite on_intervals_concat in Hb.
  assert (Hpart : btp_field (scan 0 dns) (on_intervals F0) (map (map T) dist_ids) = map (map (fun g => Some (new_number rmvd (T g)))) dist_ids).
  { symmetry. apply (part_data_spec T (new_number rmvd) F0 (zsum dns)).
    - intros g Hg. split; [by apply HT1, HTt|]. unfold F0. rewrite bool_decide_eq_false_2; [done|]. intros Hr. apply rmvd_spec in Hr. by apply (Hdisjoint (T g)); [apply HTt|].
    - apply Hb. apply Forall_fmap, Forall_forall. intros l Hl. apply Forall_fmap, Forall_forall. intros g Hg. apply HT1, HTt, elem_of_concat. eauto. }
  rewrite Hpart. apply on_ranks_intervals; [rewrite length_zip_with, length_map, length_dist_ids; unfold on_intervals; rewrite length_map; unfold distris; rewrite length_partials; lia|].
  intros r p l [o x] Hp Hl Hx. apply lookup_zip_with_Some in Hx as (o' & x' & [= <- <-] & Ho & Hx). unfold on_intervals in Ho. rewrite lookup_map, Hp in Ho. injection Ho as <-.
  rewrite lookup_map, Hl in Hx. injection Hx as <-. unfold merge_finish. cbn [fst snd]. rewrite map_map.
  destruct (rank_ids r p l Hp Hl) as [_ Hin]. rewrite assign_at_tab by (by intros y [_ Hy]%Hin). f_equal. apply map_tab_ext. intros g Hg.
  assert (Eq : bool_decide (g ∈ l) = bool_decide (g ∈ rmvd)) by (apply bool_decide_ext, (rank_removed r p l); (done || lia)). rewrite Eq. unfold F0.
  by destruct (bool_decide (g ∈ rmvd)).
Qed.
End renumbering.

(** ** Properties *)

Lemma kept_numbers dns (ids : list (list Z)) rmvd :
  Forall (fun n => 0 <= n) dns -> Forall (Forall (fun g => 1 <= g <= zsum dns)) ids -> NoDup rmvd -> (forall g, g ∈ rmvd <-> g ∈ concat ids) ->
  map (new_number rmvd) (filter (fun g => g ∉ rmvd) (arange 1 (zsum dns + 1))) = arange 1 (zsum dns - zlen rmvd + 1).
Proof.
  intros Hdns Hids Hd Hin. assert (Hr : forall g, g ∈ rmvd -> 1 <= g <= zsum dns).
  { intros g (l & Hl & Hg)%Hin%elem_of_concat. by apply (proj1 (Forall_forall _ _) (proj1 (Forall_forall _ _) Hids l Hl)). }
  pose proof (zsum_nonneg dns Hdns). destruct (new_numbers rmvd (zsum dns + 1) Hd) as [-> _]; [intros g Hg%Hr; lia|lia|]. f_equal.
  unfold new_number, n_before. rewrite NpUtils.filter_all; [lia|]. apply Forall_forall. intros g Hg%Hr. lia.
Qed.

(** [remove_distributed_ids], whatever the ranks that hold the numbers to remove and the number of times they
    are given: the arrays of the ranks, in order, give -1 for the elements that are removed, and number the others
    from 1 in the same order. *)
Theorem remove_distributed_ids_spec `{E : block_exchange} `{!block_exchange_laws E} d dns ids :
  Forall (fun n => 0 <= n) dns -> zsum dns <= iinfo_max d -> dns <> [] ->
  length ids = length dns -> Forall (Forall (fun g => 1 <= g <= zsum dns)) ids ->
  exists rmvd new, NoDup rmvd /\ (forall g, g ∈ rmvd <-> g ∈ concat ids) /\
    remove_distributed_ids d (partials_of dns) ids = Ret new /\ Forall2 (fun n l => zlen l = n) dns new /\
    concat new = map (fun g => if bool_decide (g ∈ rmvd) then -1 else new_number rmvd g) (arange 1 (zsum dns + 1)) /\
    map (new_number rmvd) (filter (fun g => g ∉ rmvd) (arange 1 (zsum dns + 1))) = arange 1 (zsum dns - zlen rmvd + 1).
Proof.
  intros Hdns Hsize Hne Hlen Hids. destruct (rmvd_spec dns ids Hdns Hlen Hids) as [Hd Hin].
  exists (concat (ptb_gnum (scan 0 dns) ids)). eexists. split_and!; [done|done|by apply remove_ranks|by eapply on_intervals_sizes|by eapply on_intervals_concat|].
  exact (kept_numbers dns ids _ Hdns Hids Hd Hin).
Qed.

(** C16: [merge_distributed_ids], for targets that are not merged themselves: the elements that are not merged are
    numbered from 1 in the same order, and those that are merged have the new number of one of the targets given with
    them, or its opposite when they are marked. *)
Theorem merge_distributed_ids_spec `{E : block_exchange} `{!block_exchange_laws E} d dns ids targets (sign_rmvd : bool) :
  Forall (fun n => 0 <= n) dns -> zsum dns <= iinfo_max d -> dns <> [] ->
  length ids = length dns -> Forall (Forall (fun g => 1 <= g <= zsum dns)) ids ->
  Forall2 (fun l t => length l = length t) ids targets -> Forall (Forall (fun t => 1 <= t <= zsum dns)) targets ->
  (forall t, t ∈ concat targets -> t ∉ concat ids) ->
  exists rmvd T new, NoDup rmvd /\ (forall g, g ∈ rmvd <-> g ∈ concat ids) /\ (forall g, g ∈ rmvd -> (g, T g) ∈ zip (concat ids) (concat targets)) /\
    merge_distributed_ids d (partials_of dns) ids targets sign_rmvd = Ret new /\
    concat new = map (fun g => Some (if bool_decide (g ∈ rmvd) then (if sign_rmvd then -1 else 1) * new_number rmvd (T g) else new_number rmvd g))
      (arange 1 (zsum dns + 1)) /\
    map (new_number rmvd) (filter (fun g => g ∉ rmvd) (arange 1 (zsum dns + 1))) = arange 1 (zsum dns - zlen rmvd + 1).
Proof.
  intros Hdns Hsize Hne Hlen Hids Hs Ht Hdis. destruct (rmvd_spec dns ids Hdns Hlen Hids) as [Hd Hin].
  destruct (merge_ranks d dns ids Hdns Hsize Hne Hlen Hids targets Hs Ht Hdis sign_rmvd) as (T & HT & Hm).
  exists (concat (ptb_gnum (scan 0 dns) ids)), T. eexists. split_and!; [exact Hd|exact Hin|exact HT|exact Hm|by eapply on_intervals_concat|]. exact (kept_numbers dns ids _ Hdns Hids Hd Hin).
Qed.

Lemma remove_distributed_ids_spec_witness :
  exists rmvd new, NoDup rmvd /\ remove_distributed_ids I8 (partials_of [4; 3]) [[6]; [2; 6]] = Ret new /\
    concat new = map (fun g => if bool_decide (g ∈ rmvd) then -1 else new_number rmvd g) (arange 1 8).
Proof.
  destruct (remove_distributed_ids_spec I8 [4; 3] [[6]; [2; 6]]) as (rmvd & new & Hd & _ & E & _ & H & _).
  all: try (apply (bool_decide_unpack _); by vm_compute). all: try done.
  exists rmvd, new. split; [exact Hd|]. split; [exact E|exact H].
Defined.

Lemma merge_distributed_ids_spec_witness :
  exists rmvd T new, (forall g, g ∈ rmvd -> (g, T g) ∈ zip [6; 2; 6] [5; 7; 5]) /\
    merge_distributed_ids I8 (partials_of [4; 3]) [[6]; [2; 6]] [[5]; [7; 5]] true = Ret new /\
    concat new = map (fun g => Some (if bool_decide (g ∈ rmvd) then -1 * new_number rmvd (T g) else new_number rmvd g)) (arange 1 8).
Proof.
  destruct (merge_distributed_ids_spec I8 [4; 3] [[6]; [2; 6]] [[5]; [7; 5]] true) as (rmvd & T & new & _ & _ & HT & E & H & _).
  all: try (apply (bool_decide_unpack _); by vm_compute). all: try done.
  - intros t Ht. apply (bool_decide_unpack _). revert t Ht. apply Forall_forall. apply (bool_decide_unpack _). by vm_compute.
  - exists rmvd, T, new. split; [exact HT|]. split; [exact E|exact H].
Defined.
End MergeIds.
