(* ===== verification/Dataspace.v ===== *)
(** * Selections in HDF5 files: [maia/io/hdf/hdf_dataspace.py] and [maia/io/hdf/cgns_elements.py]

    A rank reads or writes the part of an array that its distribution gives it; the dataspace says which
    elements of the array of the file these are.  The list of lists that the code builds is a record: memory
    selection, selections in the file, shape of the array of the file, format. *)
From S2P Require Import Prelude PyUtils Numbering Slabs NpUtils Distribution.

Local Open Scope Z_scope.

Module Dataspace.
Import Distribution.

(** Start, stride, count and block of a selection, for each dimension. *)
Record hyperslab := Hyperslab { h_start : list Z; h_stride : list Z; h_count : list Z; h_block : list Z }.
Record dataspace := MkDataspace { ds_mmry : hyperslab; ds_file : list hyperslab; ds_glob : list Z; ds_form : list Z }.

(** ** Arrays *)

Definition slab_dataspace (dim : nat) (s : Slabs.slab) : hyperslab :=
  let '((iS, iE), (jS, jE), (kS, kE)) := s in
  if bool_decide (dim = 3%nat) then Hyperslab [iS; jS; kS] [1; 1; 1] [iE - iS; jE - jS; kE - kS] [1; 1; 1]
  else Hyperslab [iS; jS] [1; 1] [iE - iS; jE - jS] [1; 1].

Definition create_combined_dataspace (data_shape : list Z) (distrib : partial) : py dataspace :=
  let dim := length data_shape in
  slab_list ← Slabs.compute_slabs data_shape (p_start distrib, p_end distrib);
  let dn_da := p_end distrib - p_start distrib in
  let empty :=
    if bool_decide (length slab_list = 0%nat) then
      if bool_decide (dim = 3%nat) then [Hyperslab [0; 0; 0] [1; 1; 1] [0; 0; 0] [1; 1; 1]]
      else [Hyperslab [0; 0] [1; 1] [0; 0] [1; 1]]
    else [] in
  Ret (MkDataspace (Hyperslab [0] [1] [dn_da] [1]) (empty ++ map (slab_dataspace dim) slab_list) data_shape [0]).

Definition create_flat_dataspace (distrib : partial) : dataspace :=
  let dn_da := p_end distrib - p_start distrib in
  MkDataspace (Hyperslab [0] [1] [dn_da] [1]) [Hyperslab [p_start distrib] [1] [dn_da] [1]] [p_total distrib] [0].

Definition create_pe_dataspace (distrib : partial) : dataspace :=
  let dn_pe := p_end distrib - p_start distrib in
  MkDataspace (Hyperslab [0; 0] [1; 1] [dn_pe; 2] [1; 1]) [Hyperslab [p_start distrib; 0] [1; 1] [dn_pe; 2] [1; 1]] [p_total distrib; 2] [1].

Definition create_pointlist_dataspace (distrib : partial) (idx_dim : Z) : dataspace :=
  let dn_pl := p_end distrib - p_start distrib in
  MkDataspace (Hyperslab [0; 0] [1; 1] [idx_dim; dn_pl] [1; 1]) [Hyperslab [0; p_start distrib] [1; 1] [idx_dim; dn_pl] [1; 1]]
    [idx_dim; p_total distrib] [0].

Definition create_data_array_filter (distrib : partial) (data_shape : option (list Z)) : py dataspace :=
  match data_shape with
  | None => Ret (create_flat_dataspace distrib)
  | Some shape => if bool_decide (length shape = 1%nat) then Ret (create_flat_dataspace distrib) else create_combined_dataspace shape distrib
  end.

(** ** Elements *)

(** [ElementStartOffset] *)
Inductive mode : Set := Read | Write.
Definition eso_dataspace (m : mode) (distrib_elmt : partial) : dataspace :=
  let dn_elmt := p_end distrib_elmt - p_start distrib_elmt in
  let n_elmt := p_total distrib_elmt in
  let dn_elmt_idx :=
    match m with
    | Read => dn_elmt + 1
    | Write => dn_elmt + (if bool_decide (p_end distrib_elmt = n_elmt) && bool_decide (p_start distrib_elmt <> p_end distrib_elmt) then 1 else 0)
    end in
  MkDataspace (Hyperslab [0] [1] [dn_elmt_idx] [1]) [Hyperslab [p_start distrib_elmt] [1] [dn_elmt_idx] [1]] [n_elmt + 1] [0].

(** [ElementConnectivity], once its distribution is known, and that of elements with a fixed number of vertices. *)
Definition ec_dataspace (distrib_ec : partial) : dataspace := create_flat_dataspace distrib_ec.
Definition std_elements_dataspace (distrib_elmt : partial) (elmt_npe : Z) : dataspace :=
  let dn_elmt := p_end distrib_elmt - p_start distrib_elmt in
  MkDataspace (Hyperslab [0] [1] [dn_elmt * elmt_npe] [1]) [Hyperslab [p_start distrib_elmt * elmt_npe] [1] [dn_elmt * elmt_npe] [1]]
    [p_total distrib_elmt * elmt_npe] [0].

(** ** What is selected *)

(** The indices of one dimension, and the positions in the array, the first dimension being the fastest. *)
Definition axis_indices (start stride count block : Z) : list Z :=
  a ← arange 0 count; (fun b => start + a * stride + b) <$> arange 0 block.
Fixpoint axes (start stride count block : list Z) : list (list Z) :=
  match start, stride, count, block with
  | s :: start', st :: stride', c :: count', b :: block' => axis_indices s st c b :: axes start' stride' count' block'
  | _, _, _, _ => []
  end.
Fixpoint positions (indices : list (list Z)) (shape : list Z) (step : Z) : list Z :=
  match indices, shape with
  | l :: indices', n :: shape' => r ← positions indices' shape' (step * n); (fun i => i * step + r) <$> l
  | _, _ => [0]
  end.
Definition selected (shape : list Z) (h : hyperslab) : list Z :=
  positions (axes (h_start h) (h_stride h) (h_count h) (h_block h)) shape 1.
Definition file_selection (ds : dataspace) : list Z := concat (map (selected (ds_glob ds)) (ds_file ds)).
Definition memory_size (ds : dataspace) : Z := zprod (h_count (ds_mmry ds)).

Lemma axis_unit s c : axis_indices s 1 c 1 = arange s (s + c).
Proof.
  unfold axis_indices. transitivity ((fun a => a + s) <$> arange 0 c).
  - induction (arange 0 c) as [|a l IH]; [done|]. rewrite bind_cons, IH. change (arange 0 1) with [0]. cbn [fmap list_fmap app]. f_equal. lia.
  - rewrite Slabs.fmap_add_arange. f_equal; lia.
Qed.

Lemma selected_1 n s c : selected [n] (Hyperslab [s] [1] [c] [1]) = arange s (s + c).
Proof.
  unfold selected. cbn [h_start h_stride h_count h_block axes positions]. rewrite axis_unit. rewrite bind_cons. cbn [mbind list_bind app]. rewrite app_nil_r.
  rewrite <- (list_fmap_id (arange s (s + c))) at 2. apply list_fmap_ext. intros k i _. cbn [id]. lia.
Qed.

Lemma list_bind_fmap_l {A B C} (g : A -> B) (f : B -> list C) l : (x ← g <$> l; f x) = (x ← l; f (g x)).
Proof. induction l as [|x l IH]; [done|]. rewrite fmap_cons, !bind_cons, IH. done. Qed.
Lemma list_bind_assoc {A B C} (f : A -> list B) (g : B -> list C) l : (y ← (x ← l; f x); g y) = (x ← l; y ← f x; g y).
Proof. induction l as [|x l IH]; [done|]. rewrite !bind_cons, bind_app, IH. done. Qed.
Lemma bind_zero {A} (f : Z -> list A) : (r ← [0]; f r) = f 0.
Proof. rewrite bind_cons. cbn [mbind list_bind]. apply app_nil_r. Qed.

(** The cells of a slab. *)
Lemma selected_3 nx ny nz s :
  selected [nx; ny; nz] (slab_dataspace 3 s) = Slabs.slab_cells nx ny s.
Proof.
  destruct s as [[[i0 i1] [j0 j1]] [k0 k1]]. unfold slab_dataspace. rewrite bool_decide_eq_true_2 by done.
  unfold selected. cbn [h_start h_stride h_count h_block axes positions]. rewrite !axis_unit, bind_zero. unfold Slabs.slab_cells.
  replace (i0 + (i1 - i0)) with i1 by lia. replace (j0 + (j1 - j0)) with j1 by lia. replace (k0 + (k1 - k0)) with k1 by lia.
  rewrite list_bind_assoc, list_bind_fmap_l. apply list_bind_ext; [|done]. intros k. rewrite list_bind_fmap_l. apply list_bind_ext; [|done].
  intros j. apply list_fmap_ext. intros x i _. cbn. lia.
Qed.
Lemma selected_2 nx ny i0 i1 j0 j1 :
  selected [nx; ny] (slab_dataspace 2 ((i0, i1), (j0, j1), (0, 1))) = Slabs.slab_cells nx ny ((i0, i1), (j0, j1), (0, 1)).
Proof.
  unfold slab_dataspace. rewrite bool_decide_eq_false_2 by done. unfold selected. cbn [h_start h_stride h_count h_block axes positions].
  rewrite !axis_unit, bind_zero. unfold Slabs.slab_cells. change (arange 0 1) with [0]. rewrite bind_cons. cbn [mbind list_bind]. rewrite app_nil_r.
  replace (i0 + (i1 - i0)) with i1 by lia. replace (j0 + (j1 - j0)) with j1 by lia. rewrite list_bind_fmap_l. apply list_bind_ext; [|done].
  intros j. apply list_fmap_ext. intros x i _. cbn. lia.
Qed.

Lemma shift_arange a b : arange a b = map (fun g => g - 1) (arange (a + 1) (b + 1)).
Proof.
  transitivity ((fun g => g + -1) <$> arange (a + 1) (b + 1)); [rewrite Slabs.fmap_add_arange; f_equal; lia|]. apply list_fmap_ext. intros k g _. lia.
Qed.

(** ** Properties *)

(** The shape of an array with at least [n] elements, or none for a flat array. *)
Definition holds (shape : option (list Z)) (n : Z) : Prop :=
  match shape with
  | None | Some [_] => True
  | Some [nx; ny] => 0 < nx /\ 0 < ny /\ n <= nx * ny
  | Some [nx; ny; nz] => 0 < nx /\ 0 < ny /\ n <= nx * ny * nz
  | _ => False
  end.

Lemma combined_selection nx ny nz p :
  let shape := nx :: ny :: match nz with Some nz => [nz] | None => [] end in
  0 < nx -> 0 < ny -> 0 <= p_start p <= p_end p -> p_end p <= nx * ny * match nz with Some nz => nz | None => 1 end ->
  exists ds, create_combined_dataspace shape p = Ret ds /\ file_selection ds = arange (p_start p) (p_end p) /\ memory_size ds = p_end p - p_start p.
Proof.
  intros shape Hx Hy Hp Hn. unfold create_combined_dataspace.
  destruct (Slabs.compute_slabs_spec nx ny nz (p_start p) (p_end p) Hx Hy Hp Hn) as (slabs & Es & Hc & Ha). fold shape in Es. rewrite Es. cbn [mbind py_bind].
  eexists. split; [done|]. split; [|unfold memory_size, zprod; cbn [ds_mmry h_count foldl]; lia].
  unfold file_selection. cbn [ds_glob ds_file]. rewrite map_app, concat_app. rewrite <- Hc. transitivity ([] ++ Slabs.slabs_cells nx ny slabs); [|done]. f_equal.
  - case_bool_decide; [|done]. destruct nz as [nz|]; done.
  - unfold Slabs.slabs_cells. rewrite map_map. f_equal. apply list_fmap_ext. intros i s Hs.
    assert (Hin : Slabs.in_array nx ny s /\ let '(_, (k0, k1)) := s in 0 <= k0 /\ k1 <= match nz with Some nz => nz | None => 1 end)
      by (eapply Slabs.slab_in_array; eauto; lia).
    unfold shape. destruct nz as [nz|]; [apply selected_3|]. destruct s as [[[i0 i1] [j0 j1]] [k0 k1]]. destruct Hin as [(_ & _ & _ & _ & Hk) Hk'].
    assert (k0 = 0) as -> by lia. assert (k1 = 1) as -> by lia. apply selected_2.
Qed.

Lemma filter_selection shape p :
  holds shape (p_end p) -> 0 <= p_start p <= p_end p ->
  exists ds, create_data_array_filter p shape = Ret ds /\ file_selection ds = arange (p_start p) (p_end p) /\ memory_size ds = p_end p - p_start p.
Proof.
  intros Hs Hp. assert (Hflat : file_selection (create_flat_dataspace p) = arange (p_start p) (p_end p) /\ memory_size (create_flat_dataspace p) = p_end p - p_start p).
  { split; [|unfold memory_size, zprod; cbn; lia]. unfold file_selection. cbn [create_flat_dataspace ds_glob ds_file map concat]. rewrite app_nil_r, selected_1. f_equal. lia. }
  destruct shape as [[|nx [|ny [|nz [|]]]]|]; try done; try by eexists.
  - apply (combined_selection nx ny None p); unfold holds in Hs; lia.
  - apply (combined_selection nx ny (Some nz) p); unfold holds in Hs; lia.
Qed.

(** C17: The ranks read or write each element of an array of the file once, in the order of the ranks, whatever its
    shape: together, their selections are all its elements in order, and each rank has the room of its own
    elements in memory. *)
Theorem data_array_filter_spec shape dns :
  Forall (fun n => 0 <= n) dns -> holds shape (zsum dns) ->
  exists dss, mapM (fun p => create_data_array_filter p shape) (partials_of dns) = Ret dss /\
    concat (file_selection <$> dss) = arange 0 (zsum dns) /\ memory_size <$> dss = dns.
Proof.
  intros Hn Hs. assert (Hall : forall r p, partials_of dns !! r = Some p -> exists ds, create_data_array_filter p shape = Ret ds /\
    file_selection ds = arange (p_start p) (p_end p) /\ memory_size ds = p_end p - p_start p).
  { intros r p Hp. destruct (partial_bounds dns r p Hn Hp) as (E1 & E2 & Hb). apply filter_selection; [|done].
    pose proof (zsum_take_le dns (S r) (length dns) Hn) as Hle. rewrite firstn_all in Hle.
    pose proof (lookup_lt_Some _ _ _ Hp) as Hr. rewrite length_partials in Hr. specialize (Hle ltac:(lia)).
    destruct shape as [[|nx [|ny [|nz [|]]]]|]; try done; unfold holds in *; lia. }
  assert (Hex : exists dss, mapM (fun p => create_data_array_filter p shape) (partials_of dns) = Ret dss /\
    Forall2 (fun p ds => file_selection ds = arange (p_start p) (p_end p) /\ memory_size ds = p_end p - p_start p) (partials_of dns) dss).
  { revert Hall. generalize (partials_of dns) as ps. induction ps as [|p ps IH]; intros Hall; [by exists []|].
    destruct (Hall 0%nat p eq_refl) as (ds & E & H). destruct IH as (dss & Es & H'); [intros r q Hq; by apply (Hall (S r))|].
    exists (ds :: dss). cbn. rewrite E. cbn. rewrite Es. split; [done|by constructor]. }
  destruct Hex as (dss & E & H). exists dss. split; [done|]. split.
  - transitivity (concat (map (fun p => map (fun g => g - 1) (arange (p_start p + 1) (p_end p + 1))) (partials_of dns))).
    + f_equal. clear E Hall. induction H as [|p ds ps dss [H _] _ IH]; [done|]. cbn. by rewrite H, IH, <- shift_arange.
    + unfold partials_of. rewrite concat_partials by done. rewrite Z.add_0_l. symmetry. apply (shift_arange 0).
  - transitivity ((fun p => p_end p - p_start p) <$> partials_of dns); [|apply partials_sizes]. clear E Hall.
    induction H as [|p ds ps dss [_ H] _ IH]; [done|]. cbn. by rewrite H, IH.
Qed.

Lemma data_array_filter_spec_witness :
  exists dss, mapM (fun p => create_data_array_filter p (Some [4; 3; 3])) (partials_of [5; 25; 6]) = Ret dss /\
    concat (file_selection <$> dss) = arange 0 36 /\ memory_size <$> dss = [5; 25; 6].
Proof. apply (data_array_filter_spec (Some [4; 3; 3]) [5; 25; 6]); [repeat constructor; lia|cbn; lia]. Defined.

(** The parents of the faces of a rank are two runs of the two columns; the points of a rank are whole columns. *)
Lemma pe_selection p :
  0 <= p_start p <= p_end p ->
  file_selection (create_pe_dataspace p) = arange (p_start p) (p_end p) ++ arange (p_total p + p_start p) (p_total p + p_end p).
Proof.
  intros Hp. unfold file_selection. cbn [create_pe_dataspace ds_glob ds_file map concat]. rewrite app_nil_r. unfold selected.
  cbn [h_start h_stride h_count h_block axes positions]. rewrite !axis_unit, bind_zero. replace (p_start p + (p_end p - p_start p)) with (p_end p) by lia.
  change (arange 0 (0 + 2)) with [0; 1]. cbn [fmap list_fmap]. rewrite !bind_cons. cbn [mbind list_bind]. rewrite app_nil_r. f_equal.
  - rewrite <- (list_fmap_id (arange (p_start p) (p_end p))) at 2. apply list_fmap_ext. intros k i _. cbn [id]. lia.
  - replace (p_total p + p_start p) with (p_start p + p_total p) by lia. replace (p_total p + p_end p) with (p_end p + p_total p) by lia.
    rewrite <- Slabs.fmap_add_arange. apply list_fmap_ext. intros k i _. lia.
Qed.
Lemma pointlist_selection p idx_dim :
  0 <= p_start p <= p_end p -> 0 <= idx_dim ->
  file_selection (create_pointlist_dataspace p idx_dim) = arange (p_start p * idx_dim) (p_end p * idx_dim).
Proof.
  intros Hp Hi. unfold file_selection. cbn [create_pointlist_dataspace ds_glob ds_file map concat]. rewrite app_nil_r. unfold selected.
  cbn [h_start h_stride h_count h_block axes positions]. rewrite !axis_unit, bind_zero, list_bind_fmap_l. replace (p_start p + (p_end p - p_start p)) with (p_end p) by lia.
  rewrite <- (Z.add_0_r (p_start p * idx_dim)), <- (Z.add_0_r (p_end p * idx_dim)). rewrite <- Slabs.bind_arange_runs by lia.
  apply list_bind_ext; [|done]. intros j. transitivity ((fun i => i + j * idx_dim) <$> arange 0 idx_dim).
  - replace (0 + idx_dim) with idx_dim by lia. apply list_fmap_ext. intros k i _. lia.
  - rewrite Slabs.fmap_add_arange. f_equal; lia.
Qed.

Lemma eso_selection m p :
  file_selection (eso_dataspace m p) = arange (p_start p)
    (match m with
     | Read => p_end p + 1
     | Write => p_end p + (if bool_decide (p_end p = p_total p) && bool_decide (p_start p <> p_end p) then 1 else 0)
     end).
Proof. unfold file_selection. destruct m; cbn [eso_dataspace ds_glob ds_file map concat]; rewrite app_nil_r, selected_1; f_equal; lia. Qed.

Lemma eso_written T dns : forall acc,
  Forall (fun n => 0 <= n) dns -> T = acc + zsum dns -> 0 < zsum dns ->
  concat (map (fun p => file_selection (eso_dataspace Write p)) (zip_with (fun a n => Partial a (a + n) T) (scan acc dns) dns)) = arange acc (T + 1).
Proof.
  induction dns as [|n dns IH]; intros acc Hn HT Hpos; [rewrite zsum_nil in Hpos; lia|]. apply Forall_cons in Hn as [Hn Hdns]. rewrite zsum_cons in *.
  pose proof (zsum_nonneg dns Hdns). cbn [scan zip_with map concat]. rewrite eso_selection. cbn [p_start p_end p_total].
  destruct (decide (zsum dns = 0)) as [Hz|Hz].
  - rewrite !bool_decide_eq_true_2 by lia. cbn [andb].
    assert (Hrest : concat (map (fun p => file_selection (eso_dataspace Write p)) (zip_with (fun a n => Partial a (a + n) T) (scan (acc + n) dns) dns)) = []).
    { assert (Hall : forall a, a = T -> concat (map (fun p => file_selection (eso_dataspace Write p)) (zip_with (fun a n => Partial a (a + n) T) (scan a dns) dns)) = []); [|apply Hall; lia].
      clear -Hdns Hz. induction dns as [|k dns IH]; intros a Ha; [done|]. apply Forall_cons in Hdns as [Hk Hdns]. rewrite zsum_cons in Hz.
      pose proof (zsum_nonneg dns Hdns). cbn [scan zip_with map concat]. rewrite eso_selection. cbn [p_start p_end p_total].
      assert (k = 0) as -> by lia. rewrite (bool_decide_eq_false_2 (a <> a + 0)) by lia. rewrite andb_false_r, arange_nil by lia. apply IH; [done|lia|lia]. }
    rewrite Hrest, app_nil_r. f_equal. lia.
  - rewrite bool_decide_eq_false_2 by lia. cbn [andb]. rewrite IH by (done || lia). rewrite Z.add_0_r, <- arange_app by lia. done.
Qed.

(** The offsets of the elements of a rank: it reads those of its elements and the next one; together, the ranks
    write each of them once, in order, the last one being written by the last rank that has elements. *)
Theorem eso_dataspace_spec dns :
  Forall (fun n => 0 <= n) dns -> 0 < zsum dns ->
  concat (map (fun p => file_selection (eso_dataspace Write p)) (partials_of dns)) = arange 0 (zsum dns + 1) /\
  forall p, p ∈ partials_of dns -> file_selection (eso_dataspace Read p) = arange (p_start p) (p_end p + 1).
Proof. intros Hn Hp. split; [by apply eso_written|]. intros p _. apply eso_selection. Qed.

Lemma eso_dataspace_spec_witness :
  concat (map (fun p => file_selection (eso_dataspace Write p)) (partials_of [2; 0; 3; 0])) = arange 0 6.
Proof. apply (eso_dataspace_spec [2; 0; 3; 0]); [repeat constructor; lia|vm_compute; reflexivity]. Defined.

(** No rank writes the offset of an element section without elements. *)
Lemma eso_empty n : concat (map (fun p => file_selection (eso_dataspace Write p)) (partials_of (replicate n 0))) = [].
Proof.
  assert (Hz : zsum (replicate n 0) = 0) by (induction n as [|n IH]; [done|]; cbn [replicate]; rewrite zsum_cons; lia).
  unfold partials_of. rewrite Hz. clear Hz. induction n as [|n IH]; [done|]. cbn [replicate scan zip_with map concat]. rewrite eso_selection. done.
Qed.
End Dataspace.
