(* ===== verification/PointRange.v ===== *)
(** * Point ranges: [maia/utils/numbering/pr_utils.py]

    A point range of a structured zone is given by its three intervals, which may be decreasing.
    [transform_bnd_pr_size] is in StoU. *)
From S2P Require Import Prelude Numbering.

Local Open Scope Z_scope.

Module PointRange.
Import Numbering.

Record prange := PRange { pr_i : Z * Z; pr_j : Z * Z; pr_k : Z * Z }.

(** [point_range[bnd_axis, 0]] and [n_vtx[bnd_axis]] *)
Definition normal_index_shift (point_range : list (Z * Z)) (n_vtx : list Z) (bnd_axis : Z)
    (input_loc output_loc : string) : py Z :=
  let in_loc_is_cell := bool_decide (input_loc = "CellCenter") in
  let out_loc_is_cell := bool_decide (output_loc = "CellCenter") in
  row ← py_get point_range bnd_axis;
  n ← py_get n_vtx bnd_axis;
  let normal_index_is_last := bool_decide (row.1 = n - b2z in_loc_is_cell) in
  let correction_sign := - b2z (out_loc_is_cell && negb in_loc_is_cell)
                         + b2z (negb out_loc_is_cell && in_loc_is_cell) in
  Ret (b2z normal_index_is_last * correction_sign).

(** [np.arange(start, end + inc, inc)] with [inc] the sign of the interval *)
Definition loop_range (r : Z * Z) : list Z :=
  if bool_decide (r.1 <= r.2) then arange r.1 (r.2 + 1)
  else (fun t => r.1 - t) <$> arange 0 (r.1 - r.2 + 1).

(** The broadcast of the three index arrays, flattened: the first index runs first in order F, the
    last one in order C. *)
Definition loop_F (ii jj kk : list Z) : list (Z * Z * Z) :=
  flat_map (fun k => flat_map (fun j => map (fun i => (i, j, k)) ii) jj) kk.
Definition loop_C (ii jj kk : list Z) : list (Z * Z * Z) :=
  flat_map (fun i => flat_map (fun j => map (fun k => (i, j, k)) kk) jj) ii.

Definition points (order : string) (pr : prange) : py (list (Z * Z * Z)) :=
  let ii := loop_range (pr_i pr) in let jj := loop_range (pr_j pr) in let kk := loop_range (pr_k pr) in
  if bool_decide (order = "F") then Ret (loop_F ii jj kk)
  else if bool_decide (order = "C") then Ret (loop_C ii jj kk)
  else Raise NameError.

Definition point_list_of (n_vtx_S : triplet) (loc order : string) (pr : prange) : py (list Z) :=
  pts ← points order pr;
  mapM (fun '(i, j, k) => ijk_to_index_from_loc i j k loc n_vtx_S) pts.

(** The single row of the point list. *)
Definition compute_pointList_from_pointRanges (sub_pr_list : list prange) (n_vtx_S : triplet) (loc order : string)
  : py (list Z) :=
  l ← mapM (point_list_of n_vtx_S loc order) sub_pr_list; Ret (concat l).

(** ** Lemmas *)

(** [x] is between the bounds of an interval, whatever their order. *)
Definition between (x : Z) (r : Z * Z) : Prop := Z.min r.1 r.2 <= x <= Z.max r.1 r.2.
Definition in_box (i j k : Z) (pr : prange) : Prop := between i (pr_i pr) /\ between j (pr_j pr) /\ between k (pr_k pr).
Definition width_of (r : Z * Z) : Z := Z.abs (r.2 - r.1) + 1.
Definition box_size (pr : prange) : Z := width_of (pr_i pr) * width_of (pr_j pr) * width_of (pr_k pr).

Lemma elem_of_loop_range r x : x ∈ loop_range r <-> between x r.
Proof.
  destruct r as [a b]. unfold loop_range, between. cbn. case_bool_decide.
  - rewrite elem_of_arange. lia.
  - rewrite list_elem_of_fmap. setoid_rewrite elem_of_arange. split; [intros (t & -> & ?); lia|].
    intros. exists (a - x). lia.
Qed.

Lemma NoDup_arange a b : NoDup (arange a b).
Proof. apply NoDup_seqZ. Qed.

Lemma NoDup_loop_range r : NoDup (loop_range r).
Proof.
  destruct r as [a b]. unfold loop_range. case_bool_decide; [apply NoDup_arange|].
  apply (NoDup_fmap_2_strong); [intros; lia|apply NoDup_arange].
Qed.

Lemma length_loop_range r : zlen (loop_range r) = width_of r.
Proof.
  destruct r as [a b]. unfold loop_range, width_of, zlen. cbn. case_bool_decide;
    rewrite ?length_fmap, length_arange; lia.
Qed.

Lemma elem_of_flat_map {A B} (f : A -> list B) l y : y ∈ flat_map f l <-> exists x, x ∈ l /\ y ∈ f x.
Proof. rewrite list_elem_of_In, in_flat_map. by setoid_rewrite <- list_elem_of_In. Qed.

Lemma NoDup_flat_map {A B} (f : A -> list B) (g : B -> A) l :
  NoDup l -> (forall x y, y ∈ f x -> g y = x) -> (forall x, NoDup (f x)) -> NoDup (flat_map f l).
Proof.
  intros Hl Hg Hf. induction Hl as [|x l Hx Hl IH]; cbn; [constructor|]. apply NoDup_app. split_and!; [done| |done].
  intros y Hy (x' & Hx' & Hy')%elem_of_flat_map. apply Hg in Hy, Hy'. congruence.
Qed.

Lemma zlen_flat_map {A B} (f : A -> list B) l n :
  (forall x, zlen (f x) = n) -> zlen (flat_map f l) = zlen l * n.
Proof.
  intros Hf. induction l as [|x l IH]; cbn [flat_map]; [done|]. rewrite zlen_app, Hf, IH. unfold zlen. cbn [length]. lia.
Qed.

Lemma zlen_map {A B} (f : A -> B) l : zlen (map f l) = zlen l.
Proof. unfold zlen. by rewrite length_map. Qed.

(** A nested loop enumerates the points of the product, each once. *)
Lemma loop_F_spec ii jj kk :
  zlen (loop_F ii jj kk) = zlen kk * (zlen jj * zlen ii) /\
  (forall i j k, (i, j, k) ∈ loop_F ii jj kk <-> i ∈ ii /\ j ∈ jj /\ k ∈ kk) /\
  (NoDup ii -> NoDup jj -> NoDup kk -> NoDup (loop_F ii jj kk)).
Proof.
  split_and!.
  - apply zlen_flat_map. intros k. apply zlen_flat_map. intros j. apply zlen_map.
  - intros i j k. unfold loop_F. rewrite elem_of_flat_map. setoid_rewrite elem_of_flat_map. split.
    + intros (k' & Hk & j' & Hj & (i' & E & Hi)%list_elem_of_fmap). by simplify_eq.
    + intros (Hi & Hj & Hk). exists k. split; [done|]. exists j. split; [done|]. by apply (list_elem_of_fmap_2 (fun i => (i, j, k))).
  - intros Hi Hj Hk. apply (NoDup_flat_map _ (fun p => p.2)); [done| |].
    + intros k p (j & _ & (i & -> & _)%list_elem_of_fmap)%elem_of_flat_map. done.
    + intros k. apply (NoDup_flat_map _ (fun p => p.1.2)); [done| |].
      * intros j p (i & -> & _)%list_elem_of_fmap. done.
      * intros j. apply NoDup_fmap_2_strong; [by intros; simplify_eq|done].
Qed.

(** The other order is the same loop on the reversed points. *)
Lemma loop_C_F ii jj kk : loop_C ii jj kk = map (fun '(k, j, i) => (i, j, k)) (loop_F kk jj ii).
Proof.
  unfold loop_C, loop_F. induction ii as [|i ii IH]; [done|]. cbn [flat_map]. rewrite map_app, <- IH. f_equal. clear IH.
  induction jj as [|j jj IH]; [done|]. cbn [flat_map]. rewrite map_app, <- IH. f_equal. rewrite map_map. done.
Qed.

Lemma loop_C_spec ii jj kk :
  zlen (loop_C ii jj kk) = zlen ii * (zlen jj * zlen kk) /\
  (forall i j k, (i, j, k) ∈ loop_C ii jj kk <-> i ∈ ii /\ j ∈ jj /\ k ∈ kk) /\
  (NoDup ii -> NoDup jj -> NoDup kk -> NoDup (loop_C ii jj kk)).
Proof.
  destruct (loop_F_spec kk jj ii) as (Hl & He & Hn). rewrite loop_C_F. split_and!.
  - by rewrite zlen_map.
  - intros i j k. rewrite list_elem_of_fmap. split.
    + intros ([[k' j'] i'] & E & H%He). simplify_eq. tauto.
    + intros H. exists (k, j, i). split; [done|]. apply He. tauto.
  - intros Hi Hj Hk. apply NoDup_fmap_2_strong; [|by apply Hn]. intros [[? ?] ?] [[? ?] ?] _ _ E. by simplify_eq.
Qed.

(** Both loops enumerate the box, each point once. *)
Lemma points_spec order pr :
  order ∈ ["F"; "C"] ->
  exists pts, points order pr = Ret pts /\ NoDup pts /\ zlen pts = box_size pr /\
    forall i j k, (i, j, k) ∈ pts <-> in_box i j k pr.
Proof.
  intros Ho. unfold points, in_box, box_size. destruct pr as [ri rj rk]. cbn [pr_i pr_j pr_k].
  destruct (loop_F_spec (loop_range ri) (loop_range rj) (loop_range rk)) as (Fl & Fe & Fn).
  destruct (loop_C_spec (loop_range ri) (loop_range rj) (loop_range rk)) as (Cl & Ce & Cn).
  rewrite !elem_of_cons in Ho. destruct Ho as [->|[->|[]%not_elem_of_nil]]; eexists; (split; [done|]); split_and!.
  - apply Fn; apply NoDup_loop_range.
  - rewrite Fl, !length_loop_range. ring.
  - intros i j k. by rewrite Fe, !elem_of_loop_range.
  - apply Cn; apply NoDup_loop_range.
  - rewrite Cl, !length_loop_range. ring.
  - intros i j k. by rewrite Ce, !elem_of_loop_range.
Qed.

(** Two points of the grid of a location have different indices. *)
Lemma index_inj loc n_vtx n0 n1 n2 off i j k i' j' k' :
  loc_grid loc n_vtx = Some ((n0, n1, n2), off) ->
  in_grid i j k (n0, n1, n2) -> in_grid i' j' k' (n0, n1, n2) ->
  ijk_to_index_from_loc i j k loc n_vtx = ijk_to_index_from_loc i' j' k' loc n_vtx -> (i, j, k) = (i', j', k').
Proof.
  intros Hg (Hi & Hj & Hk) (Hi' & Hj' & Hk'). rewrite !index_from_loc_radix, Hg. intros E. inv_py.
  destruct (radix_spec n0 n1 (i - 1) (j - 1) (k - 1)) as (E1 & E2 & E3); [lia..|].
  destruct (radix_spec n0 n1 (i' - 1) (j' - 1) (k' - 1)) as (E1' & E2' & E3'); [lia..|].
  replace (i - 1 + (j - 1) * n0 + (k - 1) * n0 * n1)
    with (i' - 1 + (j' - 1) * n0 + (k' - 1) * n0 * n1) in E1, E2, E3 by lia.
  assert (k = k') as <- by lia. assert (j = j') as <- by lia. f_equal. f_equal. lia.
Qed.

(** The point list of a list of ranges of a structured zone is the concatenation, in order, of
    the point lists of the ranges, increasing or not, and in both loop orders the point list of a
    range holds exactly the indices of the entities of its box, each once. *)
Theorem point_list_spec prs n_vtx loc order g off :
  loc_grid loc n_vtx = Some (g, off) -> order ∈ ["F"; "C"] ->
  Forall (fun pr => forall i j k, in_box i j k pr -> in_grid i j k g) prs ->
  exists segs, compute_pointList_from_pointRanges prs n_vtx loc order = Ret (concat segs) /\
    Forall2 (fun pr seg => NoDup seg /\ zlen seg = box_size pr /\
      forall idx, idx ∈ seg <->
        exists i j k, in_box i j k pr /\ ijk_to_index_from_loc i j k loc n_vtx = Ret idx) prs segs.
Proof.
  intros Hg Ho Hprs. unfold compute_pointList_from_pointRanges.
  enough (exists segs, mapM (point_list_of n_vtx loc order) prs = Ret segs /\
    Forall2 (fun pr seg => NoDup seg /\ zlen seg = box_size pr /\
      forall idx, idx ∈ seg <->
        exists i j k, in_box i j k pr /\ ijk_to_index_from_loc i j k loc n_vtx = Ret idx) prs segs)
    as (segs & -> & H) by by exists segs.
  induction Hprs as [|pr prs Hpr _ (segs & IH1 & IH2)]; [by exists []|].
  destruct (points_spec order pr Ho) as (pts & Hp & Hnd & Hlen & Hin).
  destruct g as [[n0 n1] n2].
  set (idx_of := fun p : Z * Z * Z => p.1.1 + (p.1.2 - 1) * n0 + (p.2 - 1) * n0 * n1 + off).
  assert (Hidx : forall i j k, ijk_to_index_from_loc i j k loc n_vtx = Ret (idx_of (i, j, k))).
  { intros. by rewrite index_from_loc_radix, Hg. }
  exists (map idx_of pts :: segs). split.
  - cbn [mapM]. rewrite IH1. unfold point_list_of. rewrite Hp. cbn [mbind py_bind].
    rewrite (proj2 (py_mapM_Ret _ pts (idx_of <$> pts))); [done|].
    apply Forall2_fmap_r, Forall_Forall2_diag, Forall_true. intros [[i j] k]. apply Hidx.
  - constructor; [|done]. split_and!.
    + apply NoDup_fmap_2_strong; [|done]. intros [[i j] k] [[i' j'] k'] Hx Hy E.
      apply (index_inj loc n_vtx n0 n1 n2 off); [done|apply Hpr; by apply Hin..|].
      rewrite !Hidx. by f_equal.
    + by rewrite zlen_map.
    + intros idx. rewrite (list_elem_of_fmap idx_of pts idx : idx ∈ map idx_of pts <-> _). split.
      * intros ([[i j] k] & -> & Hx). exists i, j, k. by rewrite <- Hin.
      * intros (i & j & k & Hb & E). rewrite Hidx in E. injection E as <-. exists (i, j, k). by rewrite Hin.
Qed.

Lemma point_list_spec_witness :
  exists segs, compute_pointList_from_pointRanges [PRange (1, 2) (3, 3) (2, 1)] (3, 3, 3) "Vertex" "F" = Ret (concat segs).
Proof.
  destruct (point_list_spec [PRange (1, 2) (3, 3) (2, 1)] (3, 3, 3) "Vertex" "F" (3, 3, 3) 0) as (segs & H & _);
    [reflexivity|set_solver| |by exists segs].
  constructor; [|constructor]. unfold in_box, between, in_grid. cbn. lia.
Defined.

End PointRange.
