(* ===== verification/Graph.v ===== *)
(** * Depth-first traversal: [maia/pytree/graph/algo.py]

    The traversal keeps an explicit stack with one level for each ancestor of the current node.  A
    level is the current node, None past the last sibling, and the siblings not yet taken from the
    iterator; the top of the stack is the head of the list.  The visitor is a state with the four
    callbacks, which receive the nodes of the stack from the root to the current one. *)
From S2P Require Import Prelude.

Module Graph.

(** [step]; a [pre] that returns None means [into]. *)
Inductive step : Set := into | over | out.
#[export] Instance step_eq_dec : EqDecision step.
Proof. solve_decision. Defined.

Section traversal.
(** The graph interface: [root_iterator] and [child_iterator]. *)
Context {N : Type} (child_iterator : N -> list N).
(** The visitor. *)
Context {V : Type} (pre : list (option N) -> V -> step * V) (post down up : list (option N) -> V -> V).

(** ** The stack *)
Definition level : Type := option N * list N.
Definition stack : Type := list level.

(** [_push_level]: a new level on the first sibling. *)
Definition new_level (siblings : list N) : level :=
  match siblings with [] => (None, []) | n :: rest => (Some n, rest) end.
Definition init_stack (roots : list N) : stack := [new_level roots].
Definition push_level (Sk : stack) : stack :=
  match Sk with
  | (Some n, _) :: _ => new_level (child_iterator n) :: Sk
  | _ => Sk
  end.
Definition push_done_level (Sk : stack) : stack := (None, []) :: Sk.
Definition pop_level (Sk : stack) : stack := tail Sk.
Definition advance_node_range (Sk : stack) : stack :=
  match Sk with [] => [] | (_, rest) :: Sk' => new_level rest :: Sk' end.
Definition level_is_done (Sk : stack) : bool := match Sk with (Some _, _) :: _ => false | _ => true end.
Definition is_at_root_level (Sk : stack) : bool := match Sk with [_] => true | _ => false end.
Definition is_done (Sk : stack) : bool := is_at_root_level Sk && level_is_done Sk.
Definition nodes (Sk : stack) : list (option N) := reverse (fst <$> Sk).
Definition current_node (Sk : stack) : option N := match Sk with (n, _) :: _ => n | [] => None end.

(** ** The loop *)

(** One turn of the [while] loop of [_depth_first_search_stack]: [None] is the return of False. *)
Definition turn (Sk : stack) (v : V) : option stack * V :=
  if negb (level_is_done Sk) then
    match pre (nodes Sk) v with
    | (out, v) => (None, v)
    | (over, v) => (Some (push_done_level Sk), v)
    | (into, v) =>
        let Sk := push_level Sk in
        (Some Sk, if level_is_done Sk then v else down (nodes Sk) v)
    end
  else
    let Sk := pop_level Sk in
    let v := post (nodes Sk) v in
    if negb (is_at_root_level Sk) then
      let v := up (nodes Sk) v in
      let Sk := advance_node_range Sk in
      (Some Sk, if level_is_done Sk then v else down (nodes Sk) v)
    else (Some (advance_node_range Sk), v).

(** The result: whether the traversal was complete, with the final stack and visitor. *)
Fixpoint _depth_first_search_stack (fuel : nat) (Sk : stack) (v : V) : py (bool * stack * V) :=
  if is_done Sk then Ret (true, Sk, v) else
  match fuel with
  | O => Raise OutOfFuel
  | S fuel' =>
      match turn Sk v with
      | (None, v) => Ret (false, Sk, v)
      | (Some Sk, v) => _depth_first_search_stack fuel' Sk v
      end
  end.

(** [unwind]: the levels above the root are left one by one. *)
Fixpoint unwind (Sk : stack) (v : V) : V :=
  match Sk with
  | _ :: ((_ :: _) as Sk') => unwind Sk' (up (nodes Sk) (post (nodes Sk) v))
  | _ => post (nodes Sk) v
  end.

(** The body of [depth_first_search] for an adapted visitor. *)
Definition adapted_search (fuel : nat) (roots : list N) (v : V) : py (option N * V) :=
  r ← _depth_first_search_stack fuel (init_stack roots) v;
  let '(done, Sk, v) := r in
  Ret (if (done : bool) then (None, v) else (current_node Sk, unwind Sk v)).

(** ** Reference: recursive traversal *)

(** The outcome of a visit: it is complete, or it stopped on the last node of a path. *)
Inductive outcome : Type :=
| Complete (v : V)
| Stopped (path : list N) (v : V).

(** What is done when a node that is not a root has been visited: up to the parent, then down to the
    next sibling if any.  [path] ends with the node. *)
Definition leave (ancestors : list N) (n : N) (siblings : list N) (v : V) : V :=
  match ancestors with
  | [] => v
  | _ => let v := up (Some <$> (ancestors ++ [n])) v in
         match siblings with [] => v | m :: _ => down (Some <$> (ancestors ++ [m])) v end
  end.

(** [fuel] bounds the height of what is visited. *)
Fixpoint visit_all (fuel : nat) (ancestors : list N) (siblings : list N) (v : V) : outcome :=
  match fuel with
  | O => Complete v
  | S fuel' =>
      (fix loop (siblings : list N) (v : V) : outcome :=
         match siblings with
         | [] => Complete v
         | n :: rest =>
             let path := ancestors ++ [n] in
             let '(st, v) := pre (Some <$> path) v in
             let inside := match st with
                           | out => Stopped path v
                           | over => Complete v
                           | into => match child_iterator n with
                                     | [] => Complete v
                                     | c :: _ => visit_all fuel' path (child_iterator n) (down (Some <$> (path ++ [c])) v)
                                     end
                           end in
             match inside with
             | Stopped p v => Stopped p v
             | Complete v => loop rest (leave ancestors n rest (post (Some <$> path) v))
             end
         end) siblings v
  end.

(** After a stop, the nodes of the path are left from the last one to the root. *)
Fixpoint unwind_path (rpath : list N) (v : V) : V :=
  match rpath with
  | _ :: ((_ :: _) as r') =>
      let nodes := Some <$> reverse rpath in unwind_path r' (up nodes (post nodes v))
  | _ => post (Some <$> reverse rpath) v
  end.

Definition reference_search (fuel : nat) (roots : list N) (v : V) : option N * V :=
  match visit_all fuel [] roots v with
  | Complete v => (None, v)
  | Stopped path v => (last path, unwind_path (reverse path) v)
  end.

(** For a visitor that does something in [pre] only. *)
Lemma visit_all_nil fuel ancestors v : visit_all fuel ancestors [] v = Complete v.
Proof using Type. by destruct fuel. Qed.

Lemma visit_all_pre fuel ancestors n rest v :
  (forall p v, post p v = v) -> (forall p v, down p v = v) -> (forall p v, up p v = v) ->
  visit_all (S fuel) ancestors (n :: rest) v =
  let '(st, v) := pre (Some <$> (ancestors ++ [n])) v in
  match match st with
        | out => Stopped (ancestors ++ [n]) v
        | over => Complete v
        | into => visit_all fuel (ancestors ++ [n]) (child_iterator n) v
        end with
  | Stopped p v => Stopped p v
  | Complete v => visit_all (S fuel) ancestors rest v
  end.
Proof using Type.
  intros Hpost Hdown Hup.
  assert (Hleave : forall m l w, leave ancestors m l w = w).
  { intros m l w. unfold leave. destruct ancestors; [done|]. rewrite Hup. by destruct l. }
  cbn [visit_all]. destruct (pre _ v) as [st v1].
  set (inside := match st with into => _ | over => _ | out => _ end).
  set (inside' := match st with into => visit_all _ _ _ _ | over => _ | out => _ end).
  replace inside' with inside.
  - destruct inside as [v2|]; [|done]. by rewrite Hpost, Hleave.
  - subst inside inside'. destruct st; [|done..].
    destruct (child_iterator n) as [|c cs]; [by rewrite visit_all_nil|by rewrite Hdown].
Qed.

(** ** The stack machine follows the recursive traversal *)

(** The loop goes from one configuration to another in finitely many turns. *)
Definition Reach (Sk : stack) (v : V) (Sk' : stack) (v' : V) : Prop :=
  exists k, forall fuel, _depth_first_search_stack (k + fuel) Sk v = _depth_first_search_stack fuel Sk' v'.
(** The loop stops on the node at the top of [Sk']. *)
Definition Stops (Sk : stack) (v : V) (Sk' : stack) (v' : V) : Prop :=
  exists k, forall fuel, _depth_first_search_stack (k + fuel) Sk v = Ret (false, Sk', v').

Lemma Reach_refl Sk v : Reach Sk v Sk v.
Proof using Type. by exists 0. Qed.

Lemma Reach_trans Sk1 v1 Sk2 v2 Sk3 v3 : Reach Sk1 v1 Sk2 v2 -> Reach Sk2 v2 Sk3 v3 -> Reach Sk1 v1 Sk3 v3.
Proof using Type.
  intros [k1 H1] [k2 H2]. exists (k1 + k2). intros fuel. by rewrite <- Nat.add_assoc, H1, H2.
Qed.

Lemma Reach_Stops Sk1 v1 Sk2 v2 Sk3 v3 : Reach Sk1 v1 Sk2 v2 -> Stops Sk2 v2 Sk3 v3 -> Stops Sk1 v1 Sk3 v3.
Proof using Type.
  intros [k1 H1] [k2 H2]. exists (k1 + k2). intros fuel. by rewrite <- Nat.add_assoc, H1, H2.
Qed.

Lemma Reach_turn Sk v Sk' v' : is_done Sk = false -> turn Sk v = (Some Sk', v') -> Reach Sk v Sk' v'.
Proof using Type. intros Hd Ht. exists 1. intros fuel. cbn. by rewrite Hd, Ht. Qed.

Lemma stack_nodes_cons l Sk : nodes (l :: Sk) = nodes Sk ++ [l.1].
Proof using Type. unfold nodes. by rewrite fmap_cons, reverse_cons. Qed.

Lemma nodes_path low ancestors n rest :
  nodes low = Some <$> ancestors -> nodes ((Some n, rest) :: low) = Some <$> (ancestors ++ [n]).
Proof using Type. intros H. rewrite stack_nodes_cons, H, fmap_app. done. Qed.

Lemma not_done_above l1 l2 low : is_done (l1 :: l2 :: low) = false.
Proof using Type. done. Qed.

(** The turn that leaves a node whose children are done. *)
Lemma leave_turn r n rest low ancestors v :
  nodes low = Some <$> ancestors ->
  Reach ((None, r) :: (Some n, rest) :: low) v (new_level rest :: low)
    (leave ancestors n rest (post (Some <$> (ancestors ++ [n])) v)).
Proof using Type.
  intros Hlow. apply Reach_turn; [apply not_done_above|]. unfold turn. cbn [level_is_done negb pop_level tail].
  rewrite (nodes_path low ancestors n rest Hlow). unfold leave. destruct low as [|l low].
  - destruct ancestors; [|by apply (f_equal length) in Hlow; cbn in Hlow]. done.
  - destruct ancestors as [|a ancestors].
    { apply (f_equal length) in Hlow. rewrite stack_nodes_cons, length_app in Hlow. cbn in Hlow. lia. }
    cbn [is_at_root_level negb advance_node_range]. destruct rest as [|m rest]; [done|].
    cbn [new_level level_is_done]. do 2 f_equal. exact (nodes_path (l :: low) (a :: ancestors) m rest Hlow).
Qed.

(** A node has a rank greater than those of its children: the graph has no cycle. *)
Context (rank : N -> nat).
Hypothesis rank_child : forall n c, c ∈ child_iterator n -> (rank c < rank n)%nat.

(** The outcome of the machine, started on the level of [siblings]. *)
Definition follows (o : outcome) (siblings : list N) (low : stack) (v : V) : Prop :=
  match o with
  | Complete v' => Reach (new_level siblings :: low) v ((None, []) :: low) v'
  | Stopped path v' => exists Sk', nodes Sk' = Some <$> path /\ Stops (new_level siblings :: low) v Sk' v'
  end.

Lemma follows_trans o siblings siblings' low v v' :
  Reach (new_level siblings :: low) v (new_level siblings' :: low) v' ->
  follows o siblings' low v' -> follows o siblings low v.
Proof using Type.
  intros Hr. destruct o as [|path v1]; cbn; [by apply Reach_trans|]. intros (Sk' & Hn & Hs). exists Sk'.
  split; [done|]. by eapply Reach_Stops.
Qed.

Lemma machine_follows fuel ancestors siblings low v :
  nodes low = Some <$> ancestors -> Forall (fun n => rank n < fuel)%nat siblings ->
  follows (visit_all fuel ancestors siblings v) siblings low v.
Proof using rank_child.
  revert ancestors siblings low v. induction fuel as [|fuel IH]; intros ancestors siblings low v Hlow Hr.
  { destruct siblings as [|n rest]; [apply Reach_refl|]. apply Forall_cons in Hr as [? _]. lia. }
  cbn [visit_all]. revert v. induction Hr as [|n rest Hn Hrest IHrest]; intros v; [apply Reach_refl|].
  pose proof (nodes_path low ancestors n rest Hlow) as Hp. rewrite <- Hp.
  destruct (pre (nodes ((Some n, rest) :: low)) v) as [st v1] eqn:Epre.
  assert (Hd : is_done ((Some n, rest) :: low) = false) by by destruct low.
  set (inside := match st with out => _ | over => _ | into => _ end).
  assert (Hin : match inside with
                | Complete v2 => exists r, Reach ((Some n, rest) :: low) v ((None, r) :: (Some n, rest) :: low) v2
                | Stopped path v2 => exists Sk', nodes Sk' = Some <$> path /\ Stops ((Some n, rest) :: low) v Sk' v2
                end).
  { subst inside. destruct st.
    - assert (Hturn : turn ((Some n, rest) :: low) v =
        (Some (new_level (child_iterator n) :: (Some n, rest) :: low),
         match child_iterator n with
         | [] => v1
         | c :: _ => down (Some <$> ((ancestors ++ [n]) ++ [c])) v1
         end)).
      { unfold turn. cbn [level_is_done negb]. rewrite Epre. cbn [push_level].
        destruct (child_iterator n) as [|c cs]; [done|]. cbn [new_level level_is_done].
        do 2 f_equal. exact (nodes_path _ (ancestors ++ [n]) c cs Hp). }
      pose proof (Reach_turn _ _ _ _ Hd Hturn) as Hreach.
      destruct (child_iterator n) as [|c cs] eqn:Ec; [by exists []|]. rewrite <- Ec in *.
      assert (Hcs : Forall (fun m => rank m < fuel)%nat (child_iterator n)).
      { apply Forall_forall. intros m Hm%rank_child. lia. }
      specialize (IH (ancestors ++ [n]) (child_iterator n) ((Some n, rest) :: low)
        (down (Some <$> ((ancestors ++ [n]) ++ [c])) v1) Hp Hcs).
      destruct (visit_all _ _ _ _) as [v2|path v2].
      + exists []. by eapply Reach_trans.
      + destruct IH as (Sk' & Hn' & Hs). exists Sk'. split; [done|]. by eapply Reach_Stops.
    - exists []. apply Reach_turn; [done|]. unfold turn. cbn [level_is_done negb]. by rewrite Epre.
    - exists ((Some n, rest) :: low). split; [done|]. exists 1. intros f.
      cbn [_depth_first_search_stack Nat.add]. rewrite Hd. unfold turn. cbn [level_is_done negb]. by rewrite Epre. }
  destruct inside as [v2|path v2]; [|exact Hin]. destruct Hin as [r Hin].
  pose proof (Reach_trans _ _ _ _ _ _ Hin (leave_turn r n rest low ancestors v2 Hlow)) as Hl. rewrite <- Hp in Hl.
  exact (follows_trans _ (n :: rest) rest low v _ Hl (IHrest _)).
Qed.

Lemma unwind_spec Sk rpath v :
  fst <$> Sk = Some <$> rpath -> unwind Sk v = unwind_path rpath v.
Proof using Type.
  revert rpath v. induction Sk as [|l Sk IH]; intros [|n rpath] v H; try done.
  pose proof H as Hn. rewrite !fmap_cons in H. injection H as Hl H.
  assert (Hnodes : nodes (l :: Sk) = Some <$> reverse (n :: rpath)).
  { unfold nodes. by rewrite Hn, fmap_reverse. }
  destruct Sk as [|l' Sk], rpath as [|n' rpath]; try done.
  - change (post (nodes [l]) v = post (Some <$> reverse [n]) v). by rewrite Hnodes.
  - change (unwind (l' :: Sk) (up (nodes (l :: l' :: Sk)) (post (nodes (l :: l' :: Sk)) v)) =
      unwind_path (n' :: rpath) (up (Some <$> reverse (n :: n' :: rpath)) (post (Some <$> reverse (n :: n' :: rpath)) v))).
    rewrite Hnodes. by apply IH.
Qed.

Lemma current_last Sk path : nodes Sk = Some <$> path -> current_node Sk = last path.
Proof using Type.
  intros H. destruct Sk as [|[n r] Sk]; [by destruct path|]. rewrite stack_nodes_cons in H. cbn in *.
  apply (f_equal last) in H. rewrite last_snoc, fmap_last in H. destruct (last path); cbn in *; by simplify_eq.
Qed.

Lemma adapted_search_refines h roots v :
  Forall (fun n => rank n < h)%nat roots ->
  exists k, forall fuel, (k <= fuel)%nat -> adapted_search fuel roots v = Ret (reference_search h roots v).
Proof using rank_child.
  intros Hroots. unfold reference_search. pose proof (machine_follows h [] roots [] v eq_refl Hroots) as Hf.
  destruct (visit_all h [] roots v) as [v'|path v'].
  - destruct Hf as [k Hk]. exists k. intros fuel Hfuel. unfold adapted_search, init_stack.
    replace fuel with (k + (fuel - k)) by lia. rewrite Hk. by destruct (fuel - k).
  - destruct Hf as (Sk' & Hn & k & Hk). exists k. intros fuel Hfuel. unfold adapted_search, init_stack.
    replace fuel with (k + (fuel - k)) by lia. rewrite Hk. cbn [mbind py_bind].
    rewrite (current_last Sk' path Hn). do 2 f_equal. apply unwind_spec.
    unfold nodes in Hn. apply (f_equal reverse) in Hn. by rewrite reverse_involutive, <- fmap_reverse in Hn.
Qed.

End traversal.

(** ** The visitor adaptors *)

(** The [depth] argument; the names 'node' and 'parent' are the depths 1 and 2. *)
Inductive visit_depth : Set := node_depth | parent_depth | all_depth | int_depth (d : nat).

(** [close_ancestor_visitor._ancestors_list]: the last [depth] ancestors, padded with None. *)
Definition _ancestors_list {N} (depth : nat) (ancestors : list (option N)) : list (option N) :=
  let res := drop (length ancestors - depth) ancestors in
  replicate (depth - length res) None ++ res.
(** The arguments of [close_ancestor_visitor.down] and [up], called on at least two nodes. *)
Definition down_args {N} (ancestors : list (option N)) : list (option N) :=
  match reverse ancestors with child :: parent :: _ => [parent; child] | _ => [] end.
Definition up_args {N} (ancestors : list (option N)) : list (option N) :=
  match reverse ancestors with child :: parent :: _ => [child; parent] | _ => [] end.

(** [adapt_visitor]: the arguments passed to [pre] and [post], to [down] and to [up], as lists. *)
Definition pre_adapter {N} (depth : visit_depth) : list (option N) -> list (option N) :=
  match depth with
  | all_depth => id | node_depth => _ancestors_list 1 | parent_depth => _ancestors_list 2
  | int_depth d => _ancestors_list d
  end.
Definition down_adapter {N} (depth : visit_depth) : list (option N) -> list (option N) :=
  match depth with all_depth => id | _ => down_args end.
Definition up_adapter {N} (depth : visit_depth) : list (option N) -> list (option N) :=
  match depth with all_depth => id | _ => up_args end.

(** [depth_first_search]; the assertion of [close_ancestor_visitor.__init__] comes first. *)
Definition depth_first_search {N V} (child_iterator : N -> list N)
    (pre : list (option N) -> V -> step * V) (post down up : list (option N) -> V -> V)
    (depth : visit_depth) (fuel : nat) (roots : list N) (v : V) : py (option N * V) :=
  match depth with
  | int_depth 0 => Raise AssertionError
  | _ => adapted_search child_iterator (pre ∘ pre_adapter depth) (post ∘ pre_adapter depth)
           (down ∘ down_adapter depth) (up ∘ up_adapter depth) fuel roots v
  end.

Lemma ancestors_list_spec {N} depth (ancestors : list (option N)) :
  length (_ancestors_list depth ancestors) = depth /\
  forall i, (i < depth)%nat ->
    reverse (_ancestors_list depth ancestors) !! i = Some (default None (reverse ancestors !! i)).
Proof.
  unfold _ancestors_list. split; [rewrite length_app, length_replicate, length_drop; lia|].
  intros i Hi. rewrite reverse_app, reverse_replicate. set (res := drop _ _).
  assert (Hres : res = drop (length ancestors - depth) ancestors) by done.
  assert (Hl : length res = (length ancestors - (length ancestors - depth))%nat) by (subst res; apply length_drop).
  assert (Ha : reverse ancestors = reverse res ++ reverse (take (length ancestors - depth) ancestors)).
  { by rewrite <- reverse_app, Hres, take_drop. }
  destruct (decide (i < length res)%nat) as [Hlt|Hge].
  - rewrite Ha. rewrite !lookup_app_l by (rewrite length_reverse; lia).
    destruct (lookup_lt_is_Some_2 (reverse res) i) as [x Hx]; [rewrite length_reverse; lia|]. by rewrite Hx.
  - rewrite lookup_app_r by (rewrite length_reverse; lia). rewrite length_reverse.
    rewrite (lookup_ge_None_2 (reverse ancestors)) by (rewrite length_reverse; lia).
    apply lookup_replicate. split; [done|lia].
Qed.

(** C5: On a graph without cycle, the traversal by an explicit stack ends and behaves as the
    recursive one, for any visitor
    and any depth of the arguments: the same calls of [pre], [post], [down] and [up] with the same
    ancestors in the same order, the same early stop, followed by the same way back to the root, and
    the same returned node. *)
Theorem depth_first_search_refines {N V} (child_iterator : N -> list N)
    (pre : list (option N) -> V -> step * V) (post down up : list (option N) -> V -> V) (rank : N -> nat) depth roots v h :
  depth <> int_depth 0 ->
  (forall n c, c ∈ child_iterator n -> (rank c < rank n)%nat) ->
  Forall (fun n => rank n < h)%nat roots ->
  exists k, forall fuel, (k <= fuel)%nat ->
    depth_first_search child_iterator pre post down up depth fuel roots v =
    Ret (reference_search child_iterator (pre ∘ pre_adapter depth) (post ∘ pre_adapter depth)
           (down ∘ down_adapter depth) (up ∘ up_adapter depth) h roots v).
Proof.
  intros Hdepth Hrank Hroots. pose proof (adapted_search_refines child_iterator (pre ∘ pre_adapter depth)
    (post ∘ pre_adapter depth) (down ∘ down_adapter depth) (up ∘ up_adapter depth) rank Hrank h roots v Hroots) as H.
  by destruct depth as [| | |[]].
Qed.

(** A visitor that records the nodes on which [pre] and [post] are called, and stops on one of them. *)
Definition log_pre (target : nat) (p : list (option nat)) (v : list (nat * nat)) : step * list (nat * nat) :=
  match last p with
  | Some (Some n) => (if bool_decide (n = target) then out else into, v ++ [(0, n)])
  | _ => (into, v)
  end.
Definition log_post (p : list (option nat)) (v : list (nat * nat)) : list (nat * nat) :=
  match last p with Some (Some n) => v ++ [(1, n)] | _ => v end.

Lemma depth_first_search_refines_witness :
  exists k, forall fuel, (k <= fuel)%nat ->
    depth_first_search (fun n => match n with 3 => [1; 2] | 4 => [3; 0] | _ => [] end)
      (log_pre 2) log_post (fun _ v => v) (fun _ v => v) parent_depth fuel [4] [] =
    Ret (Some 2, [(0, 4); (0, 3); (0, 1); (1, 1); (0, 2); (1, 2); (1, 3); (1, 4)]).
Proof.
  destruct (depth_first_search_refines (fun n => match n with 3 => [1; 2] | 4 => [3; 0] | _ => [] end)
    (log_pre 2) log_post (fun _ v => v) (fun _ v => v) (fun n => n) parent_depth [4] [] 5) as [k Hk].
  - done.
  - intros n c. destruct n as [|[|[|[|[|n]]]]]; set_unfold; lia.
  - repeat constructor.
  - exists k. intros fuel Hf. rewrite (Hk fuel Hf). reflexivity.
Defined.

End Graph.
