(* ===== verification/GraphBuild.v ===== *)
(** * Graphs stored by adjacency lists and trees built by a traversal

    [maia/pytree/graph/build.py], [f_graph.py], [fb_graph.py], [fe_graph.py]: the construction of a tree from a
    depth-first traversal, and the graphs stored by adjacency lists as instances of the interface of Graph.  The
    stack of sub-trees under construction has its top at the head of the list. *)
From S2P Require Import Prelude Graph.

Local Open Scope Z_scope.

Module GraphBuild.
Import Graph.

(** ** Construction by a traversal: [build.py] *)

Section build.
Context {N T St : Type} (child_iterator : N -> list N).
(** The constructor of nodes and the [pre] function, which may keep a state. *)
Context (node_constructor : N -> list T -> St -> T * St) (user_pre : option (N -> St -> step * St)).

(** [_build_tree_visitor]: the state of the user's functions and [_sub_tree_stack]. *)
Definition build_state : Type := St * list (list T).
Definition build_pre (p : list (option N)) (v : build_state) : step * build_state :=
  let '(s, stack) := v in
  let stack := [] :: stack in
  match user_pre, p with
  | Some f, [Some n] => let '(st, s) := f n s in (st, (s, stack))
  | _, _ => (into, (s, stack))
  end.
Definition build_post (p : list (option N)) (v : build_state) : build_state :=
  match p, v with
  | [Some from_node], (s, to_children :: up :: stack) =>
      let '(to_node, s) := node_constructor from_node to_children s in (s, (up ++ [to_node]) :: stack)
  | _, _ => v
  end.
Definition retrieve_composition_term (v : build_state) : py (list T) :=
  match v.2 with [trees] => Ret trees | _ => Raise AssertionError end.

Definition depth_first_build_trees (fuel : nat) (roots : list N) (s : St) : py (list T) :=
  r ← depth_first_search child_iterator build_pre build_post (fun _ v => v) (fun _ v => v) node_depth fuel roots (s, [[]]);
  retrieve_composition_term r.2.
Definition depth_first_build (fuel : nat) (roots : list N) (s : St) : py T :=
  ts ← depth_first_build_trees fuel roots s;
  match ts with [t] => Ret t | _ => Raise AssertionError end.

(** ** Reference: the construction by recursion *)

(** The trees of some siblings, with whether the traversal was stopped: the nodes where it was stopped and their
    ancestors are still constructed, with the children that are already there. *)
Definition step_of (n : N) (s : St) : step * St := match user_pre with Some f => f n s | None => (into, s) end.
Fixpoint build_all (h : nat) (siblings : list N) (s : St) : bool * list T * St :=
  match h with
  | O => (false, [], s)
  | S h' =>
      (fix loop (siblings : list N) (s : St) : bool * list T * St :=
         match siblings with
         | [] => (false, [], s)
         | n :: rest =>
             let '(st, s) := step_of n s in
             let '(stopped, kids, s) :=
               match st with out => (true, [], s) | over => (false, [], s) | into => build_all h' (child_iterator n) s end in
             let '(t, s) := node_constructor n kids s in
             if (stopped : bool) then (true, [t], s) else
             let '(stopped, ts, s) := loop rest s in (stopped, t :: ts, s)
         end) siblings s
  end.

Lemma build_all_cons h n rest s :
  build_all (S h) (n :: rest) s =
  let '(st, s) := step_of n s in
  let '(stopped, kids, s) :=
    match st with out => (true, [], s) | over => (false, [], s) | into => build_all h (child_iterator n) s end in
  let '(t, s) := node_constructor n kids s in
  if (stopped : bool) then (true, [t], s) else
  let '(stopped, ts, s) := build_all (S h) rest s in (stopped, t :: ts, s).
Proof using Type. reflexivity. Qed.
Lemma build_all_nil h s : build_all h [] s = (false, [], s).
Proof using Type. by destruct h. Qed.

(** ** The visitor follows the recursion *)

Let pre := build_pre ∘ pre_adapter node_depth.
Let post := build_post ∘ pre_adapter node_depth.
Let nothing : list (option N) -> build_state -> build_state := fun _ v => v.

Lemma last_ancestor ancestors (n : N) : pre_adapter node_depth (Some <$> (ancestors ++ [n])) = [Some n].
Proof using Type.
  unfold pre_adapter, _ancestors_list. rewrite length_fmap, length_app, fmap_app. cbn [length].
  rewrite drop_app_ge by (rewrite length_fmap; lia). rewrite length_fmap.
  replace (length ancestors + 1 - 1 - length ancestors)%nat with 0%nat by lia. done.
Qed.
Lemma pre_at ancestors n s stack :
  pre (Some <$> (ancestors ++ [n])) (s, stack) = let '(st, s) := step_of n s in (st, (s, [] :: stack)).
Proof using Type.
  unfold pre, compose. rewrite last_ancestor. unfold build_pre, step_of. by destruct user_pre.
Qed.
Lemma post_at ancestors n s kids up stack :
  post (Some <$> (ancestors ++ [n])) (s, kids :: up :: stack) =
  let '(t, s) := node_constructor n kids s in (s, (up ++ [t]) :: stack).
Proof using Type. unfold post, compose. by rewrite last_ancestor. Qed.

Lemma leave_nothing ancestors n siblings v : leave nothing nothing ancestors n siblings v = v.
Proof using Type. unfold leave. destruct ancestors; [done|]. by destruct siblings. Qed.

Lemma visit_all_cons fuel ancestors n rest v :
  visit_all child_iterator pre post nothing nothing (S fuel) ancestors (n :: rest) v =
  let path := ancestors ++ [n] in
  let '(st, v) := pre (Some <$> path) v in
  match match st with
        | out => Stopped path v
        | over => Complete v
        | into => visit_all child_iterator pre post nothing nothing fuel path (child_iterator n) v
        end with
  | Stopped p v => Stopped p v
  | Complete v => visit_all child_iterator pre post nothing nothing (S fuel) ancestors rest (post (Some <$> path) v)
  end.
Proof using Type.
  cbn zeta. cbn [visit_all]. destruct (pre _ v) as [st v1].
  set (inside := match st with into => _ | over => _ | out => _ end).
  set (inside' := match st with into => visit_all _ _ _ _ _ _ _ _ _ | over => _ | out => _ end).
  replace inside' with inside.
  - destruct inside as [v2|]; [|done]. by rewrite leave_nothing.
  - subst inside inside'. destruct st; [|done..]. destruct (child_iterator n) as [|c cs]; [by rewrite visit_all_nil|done].
Qed.

(** The way back of a stopped traversal along [rpath], above [ancestors]. *)
Fixpoint posts (ancestors rpath : list N) (v : build_state) : build_state :=
  match rpath with [] => v | n :: rpath' => posts ancestors rpath' (post (Some <$> (ancestors ++ reverse rpath)) v) end.
Lemma posts_unwind rpath v : rpath <> [] -> unwind_path post nothing rpath v = posts [] rpath v.
Proof using Type.
  revert v. induction rpath as [|n rpath IH]; intros v Hn; [done|]. destruct rpath as [|m rpath]; [done|].
  change (posts [] (n :: m :: rpath) v) with (posts [] (m :: rpath) (post (Some <$> reverse (n :: m :: rpath)) v)).
  rewrite <- IH by done. reflexivity.
Qed.
Lemma posts_app ancestors n p v :
  posts ancestors (p ++ [n]) v = post (Some <$> (ancestors ++ [n])) (posts (ancestors ++ [n]) p v).
Proof using Type.
  revert v. induction p as [|m p IH]; intros v; [done|]. cbn [posts app]. rewrite IH. do 3 f_equal.
  rewrite !reverse_cons, reverse_app. cbn. rewrite <- !app_assoc. done.
Qed.

Lemma visit_builds h ancestors siblings s up stack :
  let '(stopped, ts, s') := build_all h siblings s in
  if (stopped : bool) then
    exists rpath v, visit_all child_iterator pre post nothing nothing h ancestors siblings (s, up :: stack) = Stopped (ancestors ++ reverse rpath) v /\
      rpath <> [] /\ posts ancestors rpath v = (s', (up ++ ts) :: stack)
  else visit_all child_iterator pre post nothing nothing h ancestors siblings (s, up :: stack) = Complete (s', (up ++ ts) :: stack).
Proof using Type.
  revert ancestors siblings s up stack. induction h as [|h IH]; intros ancestors siblings s up stack.
  { cbn. by rewrite app_nil_r. }
  revert s up. induction siblings as [|n rest IHrest]; intros s up; [cbn; by rewrite app_nil_r|].
  rewrite build_all_cons, visit_all_cons. cbn zeta. rewrite pre_at. destruct (step_of n s) as [st s1].
  destruct st.
  - specialize (IH (ancestors ++ [n]) (child_iterator n) s1 [] (up :: stack)).
    destruct (build_all h (child_iterator n) s1) as [[[|] kids] s2].
    + destruct IH as (rpath & v & -> & Hr & Hp). destruct (node_constructor n kids s2) as [t s3] eqn:Ec.
      exists (rpath ++ [n]), v. split; [by rewrite reverse_app, <- app_assoc|]. split; [by destruct rpath|].
      rewrite posts_app, Hp, app_nil_l, post_at, Ec. done.
    + rewrite IH, app_nil_l, post_at. destruct (node_constructor n kids s2) as [t s3]. specialize (IHrest s3 (up ++ [t])).
      destruct (build_all (S h) rest s3) as [[[|] ts] s4]; by rewrite <- app_assoc in IHrest.
  - rewrite post_at. destruct (node_constructor n [] s1) as [t s3]. specialize (IHrest s3 (up ++ [t])).
    destruct (build_all (S h) rest s3) as [[[|] ts] s4]; by rewrite <- app_assoc in IHrest.
  - destruct (node_constructor n [] s1) as [t s3] eqn:Ec. exists [n], (s1, [] :: up :: stack). split; [done|]. split; [done|].
    cbn [posts]. change (reverse [n]) with [n]. by rewrite post_at, Ec.
Qed.

Lemma build_trees_refine (rank : N -> nat) roots s h :
  (forall n c, c ∈ child_iterator n -> (rank c < rank n)%nat) ->
  Forall (fun n => rank n < h)%nat roots ->
  exists k, forall fuel, (k <= fuel)%nat -> depth_first_build_trees fuel roots s = Ret (build_all h roots s).1.2.
Proof using Type.
  intros Hrank Hroots. destruct (adapted_search_refines child_iterator pre post nothing nothing rank Hrank h roots (s, [[]]) Hroots) as [k Hk].
  exists k. intros fuel Hf. unfold depth_first_build_trees. cbn [depth_first_search]. 
  change (adapted_search child_iterator _ _ _ _ fuel roots _) with (adapted_search child_iterator pre post nothing nothing fuel roots (s, [[]])).
  rewrite (Hk fuel Hf). cbn [mbind py_bind]. unfold reference_search.
  pose proof (visit_builds h [] roots s [] []) as Hv. destruct (build_all h roots s) as [[[|] ts] s'].
  - destruct Hv as (rpath & v & -> & Hr & Hp). rewrite app_nil_l, reverse_involutive. rewrite posts_unwind by done. rewrite Hp. done.
  - rewrite Hv. done.
Qed.
End build.

(** ** Adjacency lists: [f_graph.py], [fe_graph.py], [fb_graph.py] *)

(** An adjacency of a forward graph. *)
Record f_adj (A : Type) := FAdj { f_value : A; f_forward : list Z }.
Arguments FAdj {_} _ _.
Arguments f_value {_} _.
Arguments f_forward {_} _.

(** What an [_adjacency_iterator] gives: the adjacencies of the graph at some indices, or the error of one of them. *)
Definition adjacent {X} (g : list X) (adj_idcs : list Z) : py (list X) := mapM (py_get g) adj_idcs.
(** The same on a graph whose indices are all in range, for the traversal. *)
Definition adjacent_nodes {X} (g : list X) (adj_idcs : list Z) : list X :=
  match adjacent g adj_idcs with Ret l => l | Raise _ => [] end.

(** [tree_adaptor] of a forward graph *)
Definition f_child_iterator {A} (g : list (f_adj A)) (n : f_adj A) : list (f_adj A) := adjacent_nodes g (f_forward n).
Definition f_root_iterator {A} (g : list (f_adj A)) (root_indices : list Z) : list (f_adj A) := adjacent_nodes g root_indices.
Definition f_nodes {A} (g : list (f_adj A)) : list A := f_value <$> g.

(** Forward and backward graphs, and [backward_tree_adaptor]. *)
Record fb_adj (A : Type) := FbAdj { fb_value : A; fb_forward : list Z; fb_backward : list Z }.
Arguments FbAdj {_} _ _ _.
Arguments fb_value {_} _.
Arguments fb_forward {_} _.
Arguments fb_backward {_} _.
Definition fb_child_iterator {A} (g : list (fb_adj A)) (n : fb_adj A) : list (fb_adj A) := adjacent_nodes g (fb_forward n).
Definition backward_child_iterator {A} (g : list (fb_adj A)) (n : fb_adj A) : list (fb_adj A) := adjacent_nodes g (fb_backward n).

(** Forward graphs with values on the edges. *)
Record fe_adj (A B : Type) := FeAdj { fe_value : A; fe_forward : list Z; fe_edge_values : list B }.
Arguments FeAdj {_ _} _ _ _.
Arguments fe_value {_ _} _.
Arguments fe_forward {_ _} _.
Arguments fe_edge_values {_ _} _.
Record node_with_edge (A B : Type) := NodeWithEdge { nwe_adj : fe_adj A B; nwe_edge : option B }.
Arguments NodeWithEdge {_ _} _ _.
Arguments nwe_adj {_ _} _.
Arguments nwe_edge {_ _} _.
Definition nwe_node {A B} (n : node_with_edge A B) : A := fe_value (nwe_adj n).
(** The adjacencies with the values of the edges that lead to them. *)
Definition fe_adjacent {A B} (g : list (fe_adj A B)) (adj_idcs : list Z) (edge_values : list (option B)) : py (list (node_with_edge A B)) :=
  mapM (fun '(i, node_idx) =>
          edge ← py_get edge_values (Z.of_nat i);
          adj ← py_get g node_idx;
          Ret (NodeWithEdge adj edge)) (zip (seq 0 (length adj_idcs)) adj_idcs).
Definition fe_child_iterator {A B} (g : list (fe_adj A B)) (n : node_with_edge A B) : list (node_with_edge A B) :=
  match fe_adjacent g (fe_forward (nwe_adj n)) (Some <$> fe_edge_values (nwe_adj n)) with Ret l => l | Raise _ => [] end.
Definition fe_root_iterator {A B} (g : list (fe_adj A B)) (root_idx : Z) : list (node_with_edge A B) :=
  match fe_adjacent g [root_idx] [None] with Ret l => l | Raise _ => [] end.

(** ** Construction of a forward and backward tree: [fb_tree_ctor] *)

(** [direct_child[BACKWARD] = [i]], then the shift of the forward indices of the sub-graph; a sub-graph is a list
    that the constructor returned, hence not empty. *)
Definition set_parent {A} (i : Z) (sub : list (fb_adj A)) : list (fb_adj A) :=
  alter (fun adj => FbAdj (fb_value adj) (fb_forward adj) [i]) (length sub - 1)%nat sub.
Definition shift_forward {A} (offset : Z) (adj : fb_adj A) : fb_adj A :=
  FbAdj (fb_value adj) (map (fun x => x + offset) (fb_forward adj)) (fb_backward adj).
Fixpoint cat_sub_graphs {A} (i : Z) (subs : list (list (fb_adj A))) (node_forwards : list Z) (cat : list (fb_adj A)) : list Z * list (fb_adj A) :=
  match subs with
  | [] => (node_forwards, cat)
  | sub :: subs' =>
      let sub := set_parent i sub in
      let offset := zlen cat in
      let cat := cat ++ map (shift_forward offset) sub in
      cat_sub_graphs i subs' (node_forwards ++ [zlen cat - 1]) cat
  end.
Definition fb_tree_ctor {N A} (value_of : N -> A) (from_node : N) (subs : list (list (fb_adj A))) (i : Z) : list (fb_adj A) * Z :=
  let '(node_forwards, cat) := cat_sub_graphs i subs [] [] in
  (cat ++ [FbAdj (value_of from_node) node_forwards []], i + 1).
Definition depth_first_build_fb_tree {N A} (child_iterator : N -> list N) (value_of : N -> A) (fuel : nat) (roots : list N) : py (list (fb_adj A)) :=
  depth_first_build child_iterator (fb_tree_ctor value_of) None fuel roots 0.

(** ** Trees *)

(** What is seen from a node of a graph. *)
Inductive rose (A : Type) : Type := Rose (a : A) (ts : list (rose A)).
Arguments Rose {_} _ _.
Fixpoint rose_ind' {A} (P : rose A -> Prop) (H : forall a ts, Forall P ts -> P (Rose a ts)) (t : rose A) : P t :=
  let '(Rose a ts) := t in
  H a ts ((fix go (ts : list (rose A)) : Forall P ts :=
             match ts with [] => Forall_nil_2 P | t :: ts' => Forall_cons_2 P t ts' (rose_ind' P H t) (go ts') end) ts).
Fixpoint unfold_tree {N A} (child_iterator : N -> list N) (value_of : N -> A) (h : nat) (n : N) : rose A :=
  match h with O => Rose (value_of n) [] | S h' => Rose (value_of n) (unfold_tree child_iterator value_of h' <$> child_iterator n) end.
Fixpoint rose_size {A} (t : rose A) : Z := let '(Rose _ ts) := t in 1 + zsum (rose_size <$> ts).
Definition rose_sizes {A} (ts : list (rose A)) : Z := zsum (rose_size <$> ts).

(** The adjacency list of a tree, its nodes in postorder: [o] is added to the forward indices, [i0] is the number
    of the first node, [back] the link of the root to its parent. *)
Definition layouts_with {A} (layout : rose A -> Z -> Z -> list Z -> list (fb_adj A)) : list (rose A) -> Z -> Z -> Z -> list (fb_adj A) :=
  fix go ts o i0 p :=
    match ts with [] => [] | t :: ts' => layout t o i0 [p] ++ go ts' (o + rose_size t) (i0 + rose_size t) p end.
Fixpoint root_indices {A} (ts : list (rose A)) (o : Z) : list Z :=
  match ts with [] => [] | t :: ts' => o + rose_size t - 1 :: root_indices ts' (o + rose_size t) end.
Fixpoint layout {A} (t : rose A) (o i0 : Z) (back : list Z) : list (fb_adj A) :=
  let '(Rose a ts) := t in
  layouts_with layout ts o i0 (i0 + rose_sizes ts) ++ [FbAdj a (root_indices ts o) back].
#[local] Abbreviation layouts := (layouts_with layout).

Lemma rose_size_pos {A} (t : rose A) : 1 <= rose_size t.
Proof.
  induction t as [a ts IH] using rose_ind'. cbn [rose_size]. assert (0 <= zsum (rose_size <$> ts)); [|lia].
  induction IH as [|t ts Ht _ IHts]; [done|]. rewrite fmap_cons. cbn. unfold zsum in *. lia.
Qed.
Lemma rose_sizes_cons {A} (t : rose A) ts : rose_sizes (t :: ts) = rose_size t + rose_sizes ts.
Proof. done. Qed.
Lemma rose_sizes_nonneg {A} (ts : list (rose A)) : 0 <= rose_sizes ts.
Proof. induction ts as [|t ts IH]; [done|]. rewrite rose_sizes_cons. pose proof (rose_size_pos t). lia. Qed.

Lemma layout_length {A} (t : rose A) : forall o i0 back, zlen (layout t o i0 back) = rose_size t.
Proof.
  induction t as [a ts IH] using rose_ind'. intros o i0 back. cbn [layout rose_size]. rewrite zlen_app. change (zlen [_]) with 1.
  enough (forall p o i0, zlen (layouts ts o i0 p) = rose_sizes ts) as -> by (unfold rose_sizes; lia).
  induction IH as [|t ts Ht _ IHts]; intros p o' i0'; [done|]. cbn [layouts_with]. rewrite zlen_app, Ht, IHts. done.
Qed.
Lemma layouts_length {A} (ts : list (rose A)) o i0 p : zlen (layouts ts o i0 p) = rose_sizes ts.
Proof.
  revert o i0. induction ts as [|t ts IH]; intros o i0; [done|]. cbn [layouts_with]. by rewrite zlen_app, layout_length, IH.
Qed.

(** The sub-graphs that the constructor receives have no offset and no link to the parent. *)
Lemma shift_layout {A} (d : Z) (t : rose A) : forall o i0 back,
  map (shift_forward d) (layout t o i0 back) = layout t (o + d) i0 back.
Proof.
  induction t as [a ts IH] using rose_ind'. intros o i0 back. cbn [layout]. rewrite map_app. f_equal.
  - generalize (i0 + rose_sizes ts). intros p. revert o i0. induction IH as [|t ts Ht _ IHts]; intros o i0; [done|].
    cbn [layouts_with]. rewrite map_app, Ht, IHts. do 2 f_equal. lia.
  - cbn. unfold shift_forward. cbn [fb_value fb_forward fb_backward]. do 2 f_equal. clear IH. revert o. induction ts as [|t ts IH]; intros o; [done|]. cbn [root_indices map].
    f_equal; [lia|]. rewrite IH. f_equal; lia.
Qed.
Lemma parent_layout {A} (i : Z) (t : rose A) o i0 : set_parent i (layout t o i0 []) = layout t o i0 [i].
Proof.
  destruct t as [a ts]. cbn [layout]. unfold set_parent. rewrite length_app. cbn [length].
  rewrite alter_app_r_alt by lia. replace (_ + 1 - 1 - _)%nat with 0%nat by lia. done.
Qed.

Fixpoint sub_layouts {A} (ts : list (rose A)) (i0 : Z) : list (list (fb_adj A)) :=
  match ts with [] => [] | t :: ts' => layout t 0 i0 [] :: sub_layouts ts' (i0 + rose_size t) end.
Lemma cat_layouts {A} (p : Z) (ts : list (rose A)) : forall i0 forwards cat,
  cat_sub_graphs p (sub_layouts ts i0) forwards cat = (forwards ++ root_indices ts (zlen cat), cat ++ layouts ts (zlen cat) i0 p).
Proof.
  induction ts as [|t ts IH]; intros i0 forwards cat; cbn [sub_layouts cat_sub_graphs root_indices layouts_with]; [by rewrite !app_nil_r|].
  rewrite parent_layout, shift_layout, IH, Z.add_0_l, !zlen_app, layout_length, <- !app_assoc. done.
Qed.
Lemma build_layouts {N A} (child_iterator : N -> list N) (value_of : N -> A) h : forall ns i0,
  build_all child_iterator (fb_tree_ctor value_of) None (S h) ns i0 =
  let ts := unfold_tree child_iterator value_of h <$> ns in (false, sub_layouts ts i0, i0 + rose_sizes ts).
Proof.
  induction h as [|h IH]; intros ns; induction ns as [|n ns IHns]; intros i0; cbn zeta in *.
  1,3: cbn; f_equal; unfold rose_sizes; cbn; lia.
  - rewrite build_all_cons. unfold step_of. rewrite fmap_cons. cbn [build_all unfold_tree]. unfold fb_tree_ctor at 1. cbn [cat_sub_graphs app].
    rewrite IHns. cbn [sub_layouts]. unfold rose_sizes. rewrite fmap_cons. cbn [rose_size fmap list_fmap]. change (zsum (?x :: ?l)) with (x + zsum l). rewrite zsum_nil.
    f_equal. change (fun n0 : N => Rose (value_of n0) []) with (unfold_tree child_iterator value_of 0). lia.
  - rewrite build_all_cons. unfold step_of. rewrite IH, fmap_cons. cbn [unfold_tree]. set (ts := unfold_tree child_iterator value_of h <$> child_iterator n).
    unfold fb_tree_ctor at 1. rewrite cat_layouts. change (zlen []) with 0. cbn [app]. rewrite IHns. cbn [sub_layouts]. rewrite rose_sizes_cons.
    cbn [rose_size layout]. change (zsum (rose_size <$> ts)) with (rose_sizes ts).
    replace (i0 + rose_sizes ts + 1) with (i0 + (1 + rose_sizes ts)) by lia. f_equal. rewrite <- Z.add_assoc. reflexivity.
Qed.

Lemma fb_tree_layout {N A} (child_iterator : N -> list N) (value_of : N -> A) (rank : N -> nat) root h :
  (forall n c, c ∈ child_iterator n -> (rank c < rank n)%nat) -> (rank root <= h)%nat ->
  exists k, forall fuel, (k <= fuel)%nat ->
    depth_first_build_fb_tree child_iterator value_of fuel [root] = Ret (layout (unfold_tree child_iterator value_of h root) 0 0 []).
Proof.
  intros Hrank Hroot. destruct (build_trees_refine child_iterator (fb_tree_ctor value_of) None rank [root] 0 (S h) Hrank) as [k Hk].
  { apply Forall_singleton. lia. }
  exists k. intros fuel Hf. unfold depth_first_build_fb_tree, depth_first_build. rewrite (Hk fuel Hf), build_layouts. done.
Qed.

(** ** Links *)

(** The node of number [k] when the numbers of the list start at [b]. *)
Definition numbered {A} (b : Z) (l : list (fb_adj A)) (k : Z) (adj : fb_adj A) : Prop := b <= k /\ l !! Z.to_nat (k - b) = Some adj.
Lemma numbered_app {A} b (l l' : list (fb_adj A)) k adj :
  numbered b (l ++ l') k adj <-> numbered b l k adj \/ numbered (b + zlen l) l' k adj.
Proof.
  unfold numbered, zlen. rewrite lookup_app_Some. split.
  - intros (Hb & [H|[Hl H]]); [by left|]. right. split; [lia|]. rewrite <- H. f_equal. lia.
  - intros [[Hb H]|[Hb H]]; (split; [lia|]); [by left|]. right. split; [lia|]. rewrite <- H. f_equal. lia.
Qed.
Lemma numbered_range {A} b (l : list (fb_adj A)) k adj : numbered b l k adj -> b <= k < b + zlen l.
Proof. intros [Hb H]. apply lookup_lt_Some in H. unfold zlen. lia. Qed.
Lemma numbered_det {A} b (l : list (fb_adj A)) k x y : numbered b l k x -> numbered b l k y -> x = y.
Proof. intros [_ H] [_ H']. congruence. Qed.

Lemma root_indices_spec {A} (ts : list (rose A)) o j :
  j ∈ root_indices ts o -> o <= j < o + rose_sizes ts.
Proof.
  revert o. induction ts as [|t ts IH]; intros o; cbn [root_indices]; [set_solver|]. rewrite rose_sizes_cons, elem_of_cons.
  pose proof (rose_size_pos t). pose proof (rose_sizes_nonneg ts). intros [->|H1]; [lia|]. apply IH in H1. lia.
Qed.

(** A layout from [b]: the children of a node are before it and have it as only parent; a node other than the
    root has one parent, of which it is a child. *)
Definition linked {A} (b : Z) (l : list (fb_adj A)) : Prop :=
  (forall k adj j, numbered b l k adj -> j ∈ fb_forward adj -> b <= j < k /\ exists c, numbered b l j c /\ fb_backward c = [k]) /\
  (forall j c, numbered b l j c -> j <> b + zlen l - 1 -> exists k adj, fb_backward c = [k] /\ numbered b l k adj /\ j ∈ fb_forward adj).

Lemma layout_root {A} (t : rose A) b i0 back : exists c, numbered b (layout t b i0 back) (b + rose_size t - 1) c /\ fb_backward c = back.
Proof.
  destruct t as [a ts]. cbn [layout]. exists (FbAdj a (root_indices ts b) back). split; [apply numbered_app; right|done]. unfold numbered. rewrite layouts_length.
  cbn [rose_size]. fold (rose_sizes ts). split; [lia|]. replace (Z.to_nat _) with 0%nat by lia. done.
Qed.

Record linked_under {A} (p b : Z) (ts : list (rose A)) (l : list (fb_adj A)) : Prop := {
  under_forward k adj j : numbered b l k adj -> j ∈ fb_forward adj -> b <= j < k /\ exists c, numbered b l j c /\ fb_backward c = [k];
  under_backward j c : numbered b l j c ->
    (j ∈ root_indices ts b /\ fb_backward c = [p]) \/ exists k adj, fb_backward c = [k] /\ numbered b l k adj /\ j ∈ fb_forward adj;
  under_root j : j ∈ root_indices ts b -> exists c, numbered b l j c /\ fb_backward c = [p] }.

Lemma layouts_linked {A} (p : Z) (ts : list (rose A)) :
  Forall (fun t => forall b back, linked b (layout t b b back)) ts -> forall b, linked_under p b ts (layouts ts b b p).
Proof.
  induction 1 as [|t ts Ht _ IH]; intros b.
  { split; [by intros k adj j [_ H]|by intros j c [_ H]|cbn; set_solver]. }
  cbn [layouts_with root_indices]. specialize (IH (b + rose_size t)) as [IHf IHb IHr]. destruct (Ht b [p]) as [Hf Hb].
  destruct (layout_root t b b [p]) as (r & Hr & Hrp). split.
  - intros k adj j Hk Hj. rewrite numbered_app, layout_length in Hk. setoid_rewrite numbered_app. rewrite layout_length. destruct Hk as [Hk|Hk].
    + destruct (Hf k adj j Hk Hj) as (Hjk & c & Hc & Hbk). split; [done|]. exists c. eauto.
    + destruct (IHf k adj j Hk Hj) as (Hjk & c & Hc & Hbk). pose proof (rose_size_pos t). split; [lia|]. exists c. eauto.
  - intros j c Hj. rewrite numbered_app, layout_length in Hj. setoid_rewrite numbered_app. rewrite layout_length. destruct Hj as [Hj|Hj].
    + destruct (decide (j = b + rose_size t - 1)) as [->|Hn].
      * left. split; [left|]. by rewrite (numbered_det _ _ _ _ _ Hj Hr).
      * destruct (Hb j c Hj) as (k & adj & H1 & H2 & H3); [by rewrite layout_length|]. right. exists k, adj. eauto.
    + destruct (IHb j c Hj) as [[H1 H2]|(k & adj & H1 & H2 & H3)]; [left; split; [by right|done]|right; exists k, adj; eauto].
  - intros j Hj. setoid_rewrite numbered_app. rewrite layout_length. cbn [root_indices] in Hj. rewrite elem_of_cons in Hj. destruct Hj as [->|Hj].
    + exists r. eauto.
    + destruct (IHr j Hj) as (c & H1 & H2). exists c. eauto.
Qed.

Lemma layout_linked {A} (t : rose A) : forall b back, linked b (layout t b b back).
Proof.
  induction t as [a ts IH] using rose_ind'. intros b back. cbn [layout]. set (p := b + rose_sizes ts).
  destruct (layouts_linked p ts IH b) as [Hf Hb Hr].
  set (root := FbAdj a (root_indices ts b) back).
  assert (Hroot : forall k adj, numbered (b + zlen (layouts ts b b p)) [root] k adj <-> k = p /\ adj = root).
  { intros k adj. rewrite layouts_length. fold p. split.
    - intros H. pose proof (numbered_range _ _ _ _ H) as Hk. change (zlen [root]) with 1 in Hk. assert (k = p) as -> by lia. split; [done|].
      destruct H as [_ H]. rewrite Z.sub_diag in H. change (Some root = Some adj) in H. congruence.
    - intros [-> ->]. split; [lia|]. by rewrite Z.sub_diag. }
  split.
  - intros k adj j Hk Hj. rewrite numbered_app, Hroot in Hk. setoid_rewrite numbered_app. destruct Hk as [Hk|[-> ->]].
    + destruct (Hf k adj j Hk Hj) as (Hjk & c & Hc & Hbk). split; [done|]. exists c. eauto.
    + cbn [fb_forward root] in Hj. pose proof (root_indices_spec _ _ _ Hj). split; [unfold p; lia|]. destruct (Hr j Hj) as (c & Hc & Hbk). exists c. eauto.
  - intros j c Hj Hn. rewrite zlen_app, layouts_length in Hn. change (zlen [root]) with 1 in Hn. rewrite numbered_app, Hroot in Hj.
    setoid_rewrite numbered_app. destruct Hj as [Hj|[-> _]]; [|unfold p in Hn; lia].
    destruct (Hb j c Hj) as [[H1 H2]|(k & adj & H1 & H2 & H3)].
    + exists p, root. split; [done|]. split; [right; by apply Hroot|done].
    + exists k, adj. eauto.
Qed.

(** ** The tree of a layout *)

(** The node at position [b] of a graph. *)
Lemma py_get_middle {X} (pre : list X) x post : py_get (pre ++ x :: post) (zlen pre) = Ret x.
Proof.
  unfold py_get, norm_index. rewrite bool_decide_eq_true_2 by (unfold zlen; rewrite length_app; cbn; lia).
  unfold zlen. rewrite Nat2Z.id, list_lookup_middle; done.
Qed.

(** What is seen from a node of a layout that is part of a graph [g]. *)
Lemma layouts_unfold {A} (g : list (fb_adj A)) (p : Z) h (ts : list (rose A)) :
  Forall (fun t => forall b pre post back, g = pre ++ layout t b b back ++ post -> zlen pre = b ->
    exists r, py_get g (b + rose_size t - 1) = Ret r /\ unfold_tree (fb_child_iterator g) fb_value h r = t) ts ->
  forall b pre post, g = pre ++ layouts ts b b p ++ post -> zlen pre = b ->
  exists rs, adjacent g (root_indices ts b) = Ret rs /\ unfold_tree (fb_child_iterator g) fb_value h <$> rs = ts.
Proof.
  induction 1 as [|t ts Ht _ IH]; intros b pre post Hg Hb; [by exists []|]. cbn [layouts_with] in Hg. rewrite <- app_assoc in Hg.
  destruct (Ht b pre _ [p] Hg Hb) as (r & Hr & Hur).
  destruct (IH (b + rose_size t) (pre ++ layout t b b [p]) post) as (rs & Hrs & Hurs).
  { by rewrite <- app_assoc. }
  { by rewrite zlen_app, layout_length, Hb. }
  exists (r :: rs). split; [|by rewrite fmap_cons, Hur, Hurs]. unfold adjacent in *. cbn [root_indices mapM]. by rewrite Hr, Hrs.
Qed.
Lemma layout_unfold {A} (g : list (fb_adj A)) (h : nat) : forall (t : rose A) b pre post back,
  rose_size t <= Z.of_nat h -> g = pre ++ layout t b b back ++ post -> zlen pre = b ->
  exists r, py_get g (b + rose_size t - 1) = Ret r /\ unfold_tree (fb_child_iterator g) fb_value h r = t.
Proof.
  induction h as [|h IH]; intros [a ts] b pre post back Hs Hg Hb.
  { pose proof (rose_size_pos (Rose a ts)). lia. }
  cbn [rose_size] in *. fold (rose_sizes ts) in *. cbn [layout] in Hg. exists (FbAdj a (root_indices ts b) back). split.
  - rewrite Hg. rewrite <- app_assoc. rewrite app_assoc. cbn [app]. replace (b + (1 + rose_sizes ts) - 1) with (zlen (pre ++ layouts ts b b (b + rose_sizes ts))).
    + apply py_get_middle.
    + rewrite zlen_app, layouts_length. lia.
  - rewrite <- app_assoc in Hg. destruct (layouts_unfold g (b + rose_sizes ts) h ts) with (b := b) (pre := pre) (post := [FbAdj a (root_indices ts b) back] ++ post) as (rs & Hrs & Hu); [|done..|].
    + apply Forall_forall. intros t Hin b' pre' post' back' Hg' Hb'. eapply IH; [|done..].
      assert (rose_size t <= rose_sizes ts); [|lia]. clear -Hin. induction Hin as [t ts|t u ts Hin IH]; rewrite rose_sizes_cons.
      * pose proof (rose_sizes_nonneg ts). lia.
      * pose proof (rose_size_pos u). lia.
    + cbn [unfold_tree fb_value]. f_equal. unfold fb_child_iterator, adjacent_nodes. cbn [fb_forward]. by rewrite Hrs.
Qed.

(** A rank for the nodes of a graph whose adjacencies lead to indices of lower level. *)
Definition index_rank {X} (level : nat -> nat) (forward : X -> list Z) (g : list X) (n : X) : nat :=
  foldr Nat.max 0%nat ((fun j => match norm_index (length g) j with Some i => S (level i) | None => 0%nat end) <$> forward n).
Definition levelled {X} (level : nat -> nat) (forward : X -> list Z) (g : list X) : Prop :=
  forall i c, g !! i = Some c -> Forall (fun j => 0 <= j < zlen g /\ (level (Z.to_nat j) < level i)%nat) (forward c).
Lemma foldr_max_le (l : list nat) x : x ∈ l -> (x <= foldr Nat.max 0 l)%nat.
Proof. induction 1; cbn; lia. Qed.
Lemma foldr_max_lub (l : list nat) m : Forall (fun x => x <= m)%nat l -> (foldr Nat.max 0 l <= m)%nat.
Proof. induction 1; cbn; lia. Qed.
Lemma adjacent_elem {X} (g : list X) idcs c : c ∈ adjacent_nodes g idcs -> exists j, j ∈ idcs /\ py_get g j = Ret c.
Proof.
  unfold adjacent_nodes, adjacent. destruct (mapM (py_get g) idcs) as [l|e] eqn:E; [|set_solver]. revert l E.
  induction idcs as [|j idcs IH]; intros l E Hc; cbn in E.
  - injection E as <-. set_solver.
  - destruct (py_get g j) as [x|] eqn:Ex; [|done]. cbn in E. destruct (mapM (py_get g) idcs) as [l'|]; [|done]. cbn in E. injection E as <-.
    apply elem_of_cons in Hc as [->|Hc]; [exists j; by split; [left|]|]. destruct (IH l' eq_refl Hc) as (j' & H1 & H2). exists j'. split; [by right|done].
Qed.
Lemma index_rank_child {X} level (forward : X -> list Z) (g : list X) n c :
  levelled level forward g -> c ∈ adjacent_nodes g (forward n) -> (index_rank level forward g c < index_rank level forward g n)%nat.
Proof.
  intros Hf Hc. apply adjacent_elem in Hc as (j & Hj & Hget). unfold py_get in Hget. destruct (norm_index (length g) j) as [i|] eqn:Ei; [|done].
  destruct (g !! i) as [c'|] eqn:Hi; [|done]. injection Hget as ->.
  assert (Hn : (S (level i) <= index_rank level forward g n)%nat).
  { unfold index_rank. apply foldr_max_le. apply list_elem_of_fmap. exists j. by rewrite Ei. }
  enough (index_rank level forward g c <= level i)%nat by lia. unfold index_rank. apply foldr_max_lub. apply Forall_fmap.
  eapply Forall_impl; [exact (Hf i c Hi)|]. intros j' [Hr Hlt]. cbn. unfold norm_index, zlen in *. rewrite bool_decide_eq_true_2 by lia. lia.
Qed.
Lemma linked_levelled {A} (g : list (fb_adj A)) : linked 0 g -> levelled id fb_forward g.
Proof.
  intros [Hf _] i c Hi. apply Forall_forall. intros j Hj. destruct (Hf (Z.of_nat i) c j) as [Hlt _]; [|done|].
  - split; [lia|]. by rewrite Z.sub_0_r, Nat2Z.id.
  - apply lookup_lt_Some in Hi. unfold zlen, id. lia.
Qed.

(** ** Properties *)

(** C20: The construction of trees by the traversal of a graph without cycle ends and gives what the recursion gives,
    for any constructor and any [pre]: sub-trees that are stepped over have no children, a traversal that is
    stopped gives the part of the trees already built with the ancestors of the last node. *)
Theorem depth_first_build_spec {N T St} (child_iterator : N -> list N) (node_constructor : N -> list T -> St -> T * St)
    (user_pre : option (N -> St -> step * St)) (rank : N -> nat) roots s h :
  (forall n c, c ∈ child_iterator n -> (rank c < rank n)%nat) ->
  Forall (fun n => rank n < h)%nat roots ->
  let trees := (build_all child_iterator node_constructor user_pre h roots s).1.2 in
  exists k, forall fuel, (k <= fuel)%nat ->
    depth_first_build_trees child_iterator node_constructor user_pre fuel roots s = Ret trees /\
    depth_first_build child_iterator node_constructor user_pre fuel roots s = match trees with [t] => Ret t | _ => Raise AssertionError end.
Proof.
  intros Hrank Hroots. cbn zeta. destruct (build_trees_refine child_iterator node_constructor user_pre rank roots s h Hrank Hroots) as [k Hk].
  exists k. intros fuel Hf. specialize (Hk fuel Hf). split; [done|]. unfold depth_first_build. by rewrite Hk.
Qed.

(** The tree that [depth_first_build_fb_tree] builds from a graph without cycle has its nodes in postorder, with the
    root last; its forward and backward links agree; what is seen from its root is what is seen from the root of
    the graph; and building it again from itself gives it back. *)
Theorem fb_tree_spec {N A} (child_iterator : N -> list N) (value_of : N -> A) (rank : N -> nat) root :
  (forall n c, c ∈ child_iterator n -> (rank c < rank n)%nat) ->
  exists k g r, (forall fuel, (k <= fuel)%nat ->
      depth_first_build_fb_tree child_iterator value_of fuel [root] = Ret g /\
      depth_first_build_fb_tree (fb_child_iterator g) fb_value fuel [r] = Ret g) /\
    linked 0 g /\ last g = Some r /\ fb_backward r = [] /\
    unfold_tree (fb_child_iterator g) fb_value (length g) r = unfold_tree child_iterator value_of (rank root) root.
Proof.
  intros Hrank. set (t := unfold_tree child_iterator value_of (rank root) root). set (g := layout t 0 0 []).
  destruct (fb_tree_layout child_iterator value_of rank root (rank root) Hrank (le_n _)) as [k1 Hk1]. fold t g in Hk1.
  assert (Hlen : Z.of_nat (length g) = rose_size t) by apply (layout_length t 0 0 []). pose proof (rose_size_pos t) as Hpos.
  pose proof (layout_linked t 0 []) as Hlink. fold g in Hlink.
  destruct (layout_root t 0 0 []) as (r & [_ Hr] & Hback). fold g in Hr.
  assert (Hu : forall h, (length g <= h)%nat -> unfold_tree (fb_child_iterator g) fb_value h r = t).
  { intros h Hh. destruct (layout_unfold g h t 0 [] [] []) as (r' & Hr' & Hu); [lia|by rewrite app_nil_r|done|].
    unfold py_get, norm_index in Hr'. rewrite bool_decide_eq_true_2 in Hr' by lia. replace (Z.to_nat (0 + rose_size t - 1)) with (Z.to_nat (0 + rose_size t - 1 - 0)) in Hr' by lia.
    rewrite Hr in Hr'. cbn in Hr'. injection Hr' as <-. done. }
  destruct (fb_tree_layout (fb_child_iterator g) fb_value (index_rank id fb_forward g) r (index_rank id fb_forward g r + length g)%nat) as [k2 Hk2];
    [intros n c; apply index_rank_child; by apply linked_levelled|lia|].
  rewrite Hu in Hk2 by lia. fold g in Hk2.
  exists (k1 + k2)%nat, g, r. split; [intros fuel Hf; split; [apply Hk1|apply Hk2]; lia|]. split; [done|]. split; [|split; [done|by apply Hu]].
  rewrite last_lookup. rewrite <- Hr. f_equal. lia.
Qed.

(** ** The example of the sources *)

Definition f_graph_example : list (f_adj Z) :=
  [FAdj 4 []; FAdj 7 []; FAdj 2 [0; 1; 3]; FAdj 9 []; FAdj 8 [3]; FAdj 10 []; FAdj 11 []; FAdj 3 [4; 5; 6]; FAdj 1 [2; 3; 7]].
Definition example_level (i : nat) : nat := nth i [0; 0; 1; 0; 1; 0; 0; 2; 3]%nat 0%nat.
Lemma example_levelled : levelled example_level f_forward f_graph_example.
Proof.
  intros i c Hi. do 9 (destruct i as [|i]; [injection Hi as <-; vm_compute; repeat constructor; discriminate|]). done.
Qed.
Definition sub_trees (n : f_adj Z) (kids : list (rose Z)) (count : Z) : rose Z * Z := (Rose (f_value n) kids, count + 1).
Definition over_2_out_10 (n : f_adj Z) (count : Z) : step * Z :=
  (if bool_decide (f_value n = 2) then over else if bool_decide (f_value n = 10) then out else into, count).

Lemma depth_first_build_spec_witness :
  exists k, forall fuel, (k <= fuel)%nat ->
    depth_first_build (f_child_iterator f_graph_example) sub_trees (Some over_2_out_10) fuel (f_root_iterator f_graph_example [8]) 0 =
    Ret (Rose 1 [Rose 2 []; Rose 9 []; Rose 3 [Rose 8 [Rose 9 []]; Rose 10 []]]).
Proof.
  destruct (depth_first_build_spec (f_child_iterator f_graph_example) sub_trees (Some over_2_out_10)
    (index_rank example_level f_forward f_graph_example) (f_root_iterator f_graph_example [8]) 0 20) as [k Hk].
  - intros n c. apply index_rank_child, example_levelled.
  - vm_compute. repeat constructor.
  - exists k. intros fuel Hf. destruct (Hk fuel Hf) as [_ ->]. reflexivity.
Defined.

Lemma fb_tree_spec_witness :
  exists k g r, (forall fuel, (k <= fuel)%nat ->
      depth_first_build_fb_tree (f_child_iterator f_graph_example) f_value fuel [FAdj 1 [2; 3; 7]] = Ret g /\
      depth_first_build_fb_tree (fb_child_iterator g) fb_value fuel [r] = Ret g) /\
    linked 0 g /\ last g = Some r /\ fb_backward r = [] /\
    unfold_tree (fb_child_iterator g) fb_value (length g) r =
    Rose 1 [Rose 2 [Rose 4 []; Rose 7 []; Rose 9 []]; Rose 9 []; Rose 3 [Rose 8 [Rose 9 []]; Rose 10 []; Rose 11 []]].
Proof.
  destruct (fb_tree_spec (f_child_iterator f_graph_example) f_value (index_rank example_level f_forward f_graph_example) (FAdj 1 [2; 3; 7])) as (k & g & r & H1 & H2 & H3 & H4 & H5).
  - intros n c. apply index_rank_child, example_levelled.
  - exists k, g, r. do 4 (split; [done|]). rewrite H5. reflexivity.
Defined.
End GraphBuild.
