(* ===== verification/NestedTree.v ===== *)
(** * Trees with links to parents: [maia/pytree/graph/nested_tree.py]

    [ForwardBackwardTree] and the list of its children are mutable objects that can be shared, so they live in a
    heap: a tree is designated by its position, and so is a Python list of trees.  The link to the parent is a weak
    reference: the heap keeps the trees alive, as a program that still refers to them does. *)
From S2P Require Import Prelude.

Module NestedTree.

(** ** Objects *)

(** [_sub_nodes] is a list object, [_parent_weakref] a tree. *)
Record tree_obj (A : Type) := TreeObj { o_node : A; o_sub_nodes : nat; o_parent : option nat }.
Arguments TreeObj {_} _ _ _.
Arguments o_node {_} _.
Arguments o_sub_nodes {_} _.
Arguments o_parent {_} _.
Record heap (A : Type) := Heap { trees : list (tree_obj A); lists : list (list nat) }.
Arguments Heap {_} _ _.
Arguments trees {_} _.
Arguments lists {_} _.

Section operations.
Context {A : Type}.
Implicit Types (h : heap A) (t x l : nat).

Definition list_of h l : list nat := default [] (lists h !! l).
(** [t._sub_nodes], the list object and its content. *)
Definition sub_list h t : nat := default 0%nat (o_sub_nodes <$> trees h !! t).
Definition children h t : list nat := list_of h (sub_list h t).
Definition parent h t : option nat := trees h !! t ≫= o_parent.

(** [x.parent = p] *)
Definition set_parent (p : option nat) h x : heap A :=
  Heap (alter (fun o => TreeObj (o_node o) (o_sub_nodes o) p) x (trees h)) (lists h).
(** [for x in xs: x.parent = p] *)
Definition adopt (p : nat) (xs : list nat) h : heap A := foldl (set_parent (Some p)) h xs.
(** A list object whose content becomes [xs]; a new list object. *)
Definition set_list l (xs : list nat) h : heap A := Heap (trees h) (<[l := xs]> (lists h)).
Definition new_list (xs : list nat) h : heap A * nat := (Heap (trees h) (lists h ++ [xs]), length (lists h)).

(** [ForwardBackwardTree.__init__]; [children]: a list object, None for a new empty list. *)
Definition init (node : A) (children : option nat) (p : option nat) h : heap A * nat :=
  let '(h, l) := match children with Some l => (h, l) | None => new_list [] h end in
  let self := length (trees h) in
  let h := Heap (trees h ++ [TreeObj node l None]) (lists h) in
  let h := adopt self (list_of h l) h in
  (set_parent p h self, self).

(** The setter of [children], given a list object or the list of a [_ForwardBackwardTreeList]. *)
Definition set_children t l h : heap A :=
  let h := Heap (alter (fun o => TreeObj (o_node o) l (o_parent o)) t (trees h)) (lists h) in
  adopt t (list_of h l) h.

(** ** [_ForwardBackwardTreeList]: the operations on [t.children] *)

(** [list.insert]: an index out of range is put back in it. *)
Definition insert_index (n : nat) (i : Z) : nat :=
  if (i <? 0)%Z then Z.to_nat (Z.max 0 (i + Z.of_nat n)) else Nat.min (Z.to_nat i) n.

Definition append t x h : heap A :=
  let h := set_parent (Some t) h x in set_list (sub_list h t) (children h t ++ [x]) h.
Definition setitem t (i : Z) x h : heap A * py () :=
  let h := set_parent (Some t) h x in
  match norm_index (length (children h t)) i with
  | None => (h, Raise IndexError)
  | Some k =>
      let h := match children h t !! k with Some old => set_parent None h old | None => h end in
      (set_list (sub_list h t) (<[k := x]> (children h t)) h, Ret ())
  end.
Definition insert t (i : Z) x h : heap A :=
  let h := set_parent (Some t) h x in
  let k := insert_index (length (children h t)) i in
  set_list (sub_list h t) (take k (children h t) ++ [x] ++ drop k (children h t)) h.
Definition pop t (i : Z) h : heap A * py nat :=
  match norm_index (length (children h t)) i with
  | None => (h, Raise IndexError)
  | Some k =>
      match children h t !! k with
      | None => (h, Raise IndexError)
      | Some x => (set_list (sub_list h t) (delete k (children h t)) h, Ret x)
      end
  end.
Definition clear t h : heap A := set_list (sub_list h t) [] h.
(** [t.children += other]: [__iadd__], then the setter with the same list. *)
Definition iadd t l h : heap A :=
  let h := set_list (sub_list h t) (children h t ++ list_of h l) h in
  set_children t (sub_list h t) (adopt t (list_of h l) h).

(** ** Operations of a program *)

(** Lists given by the program are new ones, as in [A.children = [x, y]]. *)
Inductive op :=
| OpNew (node : A) (xs : list nat) (p : option nat)
| OpSetChildren t (xs : list nat)
| OpAppend t x
| OpSetItem t (i : Z) x
| OpInsert t (i : Z) x
| OpPop t (i : Z)
| OpClear t
| OpIadd t (xs : list nat).
Definition run (o : op) h : heap A :=
  match o with
  | OpNew node xs p => let '(h, l) := new_list xs h in (init node (Some l) p h).1
  | OpSetChildren t xs => let '(h, l) := new_list xs h in set_children t l h
  | OpAppend t x => append t x h
  | OpSetItem t i x => (setitem t i x h).1
  | OpInsert t i x => insert t i x h
  | OpPop t i => (pop t i h).1
  | OpClear t => clear t h
  | OpIadd t xs => let '(h, l) := new_list xs h in iadd t l h
  end.

(** ** Invariant *)

Definition is_tree h t : Prop := (t < length (trees h))%nat.
(** A tree that is not among the children of another one. *)
Definition free h x : Prop := is_tree h x /\ forall t, is_tree h t -> x ∉ children h t.

#[export] Instance is_tree_dec h t : Decision (is_tree h t).
Proof. unfold is_tree. apply _. Defined.
#[export] Instance free_dec h x : Decision (free h x).
Proof.
  refine (cast_if (decide (is_tree h x /\ Forall (fun t => x ∉ children h t) (seq 0 (length (trees h)))))); unfold free;
    [destruct a as [H1 H2]; split; [done|]; intros t Ht; rewrite Forall_seq in H2; apply H2; unfold is_tree in Ht; lia
    |intros [H1 H2]; apply n; split; [done|]; apply Forall_seq; intros t Ht; apply H2; unfold is_tree; lia].
Defined.

(** The trees that are put somewhere are free. *)
Definition allowed h (o : op) : Prop :=
  match o with
  | OpNew _ xs _ => NoDup xs /\ Forall (free h) xs
  | OpSetChildren t xs => is_tree h t /\ NoDup xs /\ Forall (fun x => free h x \/ x ∈ children h t) xs
  | OpAppend t x | OpSetItem t _ x | OpInsert t _ x => is_tree h t /\ free h x
  | OpPop t _ | OpClear t => is_tree h t
  | OpIadd t xs => is_tree h t /\ NoDup xs /\ Forall (free h) xs
  end.

#[export] Instance allowed_dec h o : Decision (allowed h o).
Proof. destruct o; cbn [allowed]; apply _. Defined.

(** A child has its tree as parent and occurs once; two trees do not share their list. *)
Record wf h : Prop := {
  wf_parent t x : is_tree h t -> x ∈ children h t -> parent h x = Some t;
  wf_once t : is_tree h t -> NoDup (children h t);
  wf_lists t : is_tree h t -> (sub_list h t < length (lists h))%nat;
  wf_own t u : is_tree h t -> is_tree h u -> sub_list h t = sub_list h u -> t = u }.

(** ** Access after an edit *)

Lemma parent_Some_tree h x t : parent h x = Some t -> is_tree h x.
Proof. unfold parent, is_tree. destruct (trees h !! x) eqn:E; [|done]. intros _. by eapply lookup_lt_Some. Qed.
Lemma set_parent_tree p h x t : is_tree (set_parent p h x) t <-> is_tree h t.
Proof. unfold is_tree, set_parent. cbn. by rewrite length_alter. Qed.
Lemma set_parent_sub p h x t : sub_list (set_parent p h x) t = sub_list h t.
Proof.
  unfold sub_list, set_parent. cbn. destruct (decide (x = t)) as [->|Hn]; [|by rewrite list_lookup_alter_ne].
  rewrite list_lookup_alter_eq. by destruct (trees h !! t).
Qed.
Lemma set_parent_children p h x t : children (set_parent p h x) t = children h t.
Proof. unfold children. rewrite set_parent_sub. done. Qed.
Lemma set_parent_parent p h x t : is_tree h x -> parent (set_parent p h x) t = if decide (t = x) then p else parent h t.
Proof.
  intros Hx. unfold parent, set_parent. cbn. case_decide as E; [subst|by rewrite list_lookup_alter_ne].
  rewrite list_lookup_alter_eq. destruct (trees h !! x) eqn:E; [done|]. apply lookup_ge_None in E. unfold is_tree in Hx. lia.
Qed.

Lemma adopt_frame p xs h t :
  (is_tree (adopt p xs h) t <-> is_tree h t) /\ sub_list (adopt p xs h) t = sub_list h t /\ children (adopt p xs h) t = children h t /\ lists (adopt p xs h) = lists h.
Proof.
  revert h. induction xs as [|x xs IH]; intros h; [done|]. cbn [adopt foldl]. destruct (IH (set_parent (Some p) h x)) as (H1 & H2 & H3 & H4).
  unfold adopt in *. rewrite H1, H2, H3, H4, set_parent_tree, set_parent_sub, set_parent_children. done.
Qed.
Lemma adopt_parent p xs h t : Forall (is_tree h) xs -> parent (adopt p xs h) t = if decide (t ∈ xs) then Some p else parent h t.
Proof.
  revert h. induction xs as [|x xs IH]; intros h Hx; [done|]. apply Forall_cons in Hx as [Hx Hxs]. cbn [adopt foldl]. unfold adopt in IH.
  rewrite IH by (eapply Forall_impl; [exact Hxs|]; intros y; apply set_parent_tree). rewrite set_parent_parent by done.
  destruct (decide (t ∈ xs)), (decide (t = x)), (decide (t ∈ x :: xs)); set_solver.
Qed.
Lemma set_list_children h l cs t : children (set_list l cs h) t =
  if decide (sub_list h t = l /\ (l < length (lists h))%nat) then cs else children h t.
Proof.
  unfold children, list_of, set_list. cbn. change (sub_list (Heap (trees h) _) t) with (sub_list h t). case_decide as E.
  - destruct E as [-> E]. by rewrite list_lookup_insert_eq.
  - destruct (decide (l = sub_list h t)) as [Hl|Hl]; [|by rewrite list_lookup_insert_ne]. rewrite list_insert_ge; [done|].
    apply Nat.nlt_ge. intros Hlt. by apply E.
Qed.
Lemma new_list_children h xs t : (sub_list h t < length (lists h))%nat -> children (new_list xs h).1 t = children h t.
Proof.
  intros Hl. unfold children, list_of, new_list. cbn. change (sub_list (Heap (trees h) _) t) with (sub_list h t). by rewrite lookup_app_l.
Qed.

(** A child belongs to one tree. *)
Lemma child_once h t u x : wf h -> is_tree h t -> is_tree h u -> x ∈ children h t -> x ∈ children h u -> t = u.
Proof. intros Hw Ht Hu Hxt Hxu. pose proof (wf_parent h Hw t x Ht Hxt). pose proof (wf_parent h Hw u x Hu Hxu). congruence. Qed.
Lemma child_tree h t x : wf h -> is_tree h t -> x ∈ children h t -> is_tree h x.
Proof. intros Hw Ht Hx. eapply parent_Some_tree. by eapply wf_parent. Qed.

(** ** Edits that preserve the invariant *)

Lemma wf_set_parent p h x : wf h -> free h x -> wf (set_parent p h x).
Proof.
  intros [H1 H2 H3 H4] [Hx Hf]. split; intros t; rewrite ?set_parent_tree, ?set_parent_children.
  - intros y Ht Hy. apply set_parent_tree in Ht. rewrite set_parent_parent by done. destruct (decide (y = x)) as [->|]; [by destruct (Hf t Ht)|by apply H1].
  - apply H2.
  - rewrite set_parent_sub. apply H3.
  - intros u. rewrite !set_parent_tree, !set_parent_sub. apply H4.
Qed.
Lemma wf_set_list h t cs :
  wf h -> is_tree h t -> NoDup cs -> (forall x, x ∈ cs -> parent h x = Some t) -> wf (set_list (sub_list h t) cs h).
Proof.
  intros [H1 H2 H3 H4] Ht Hn Hp. split.
  - intros u x Hu. rewrite set_list_children. change (parent _ x) with (parent h x). case_decide as E; [|by apply H1].
    destruct E as [E _]. apply H4 in E; [subst u|done..]. apply Hp.
  - intros u Hu. rewrite set_list_children. case_decide; [done|by apply H2].
  - intros u Hu. cbn. rewrite length_insert. by apply H3.
  - intros u v. apply H4.
Qed.
Lemma wf_new_list h xs : wf h -> wf (new_list xs h).1.
Proof.
  intros [H1 H2 H3 H4]. split.
  - intros t x Ht. rewrite new_list_children by by apply H3. by apply H1.
  - intros t Ht. rewrite new_list_children by by apply H3. by apply H2.
  - intros t Ht. cbn. rewrite length_app. pose proof (H3 t Ht). change (sub_list _ t) with (sub_list h t). lia.
  - intros t u. apply H4.
Qed.
Lemma free_set_parent p h x y : free h y -> free (set_parent p h x) y.
Proof. intros [H1 H2]. split; [by apply set_parent_tree|]. intros t Ht. rewrite set_parent_children. apply H2. by apply set_parent_tree in Ht. Qed.

(** The children of a tree become those of a list that no other tree has. *)
Lemma wf_set_children h t l :
  wf h -> is_tree h t -> (l < length (lists h))%nat -> (forall u, is_tree h u -> sub_list h u = l -> u = t) ->
  NoDup (list_of h l) -> Forall (fun x => free h x \/ x ∈ children h t) (list_of h l) -> wf (set_children t l h).
Proof.
  intros Hw Ht Hl Hown Hn Hx. unfold set_children.
  set (h1 := Heap (alter (fun o => TreeObj (o_node o) l (o_parent o)) t (trees h)) (lists h)).
  assert (Htree : forall u, is_tree h1 u <-> is_tree h u) by (intros u; unfold is_tree; cbn; by rewrite length_alter).
  assert (Hsub : forall u, sub_list h1 u = if decide (u = t) then l else sub_list h u).
  { intros u. unfold sub_list. cbn. case_decide as E; [subst|by rewrite list_lookup_alter_ne]. rewrite list_lookup_alter_eq.
    destruct (trees h !! t) eqn:E; [done|]. apply lookup_ge_None in E. unfold is_tree in Ht. lia. }
  assert (Hch : forall u, children h1 u = if decide (u = t) then list_of h l else children h u).
  { intros u. unfold children. rewrite Hsub. by case_decide. }
  assert (Hpar : forall u, parent h1 u = parent h u).
  { intros u. unfold parent. cbn. destruct (decide (u = t)) as [->|]; [|by rewrite list_lookup_alter_ne]. rewrite list_lookup_alter_eq. by destruct (trees h !! t). }
  assert (Htrees : Forall (is_tree h1) (list_of h l)).
  { eapply Forall_impl; [exact Hx|]. intros x [[H _]|H]; apply Htree; [done|by eapply child_tree]. }
  change (list_of h1 l) with (list_of h l). set (h2 := adopt t (list_of h l) h1).
  assert (Ft : forall u, is_tree h2 u <-> is_tree h u) by (intros u; rewrite <- Htree; apply adopt_frame).
  assert (Fs : forall u, sub_list h2 u = if decide (u = t) then l else sub_list h u) by (intros u; rewrite <- Hsub; apply adopt_frame).
  assert (Fc : forall u, children h2 u = if decide (u = t) then list_of h l else children h u) by (intros u; rewrite <- Hch; apply adopt_frame).
  assert (Fl : lists h2 = lists h) by (apply (adopt_frame t (list_of h l) h1 0)).
  split.
  - intros u x Hu Hxu. apply Ft in Hu. rewrite Fc in Hxu. unfold h2. rewrite adopt_parent by done. rewrite Hpar. destruct (decide (u = t)) as [->|Hut]; [by rewrite decide_True|].
    rewrite decide_False; [by apply wf_parent|]. intros Hxl. rewrite Forall_forall in Hx. destruct (Hx x Hxl) as [[_ Hf]|Hc]; [by apply (Hf u)|].
    by apply Hut, (child_once h u t x).
  - intros u Hu. apply Ft in Hu. rewrite Fc. case_decide; [done|by apply wf_once].
  - intros u Hu. apply Ft in Hu. rewrite Fs, Fl. case_decide; [done|by apply wf_lists].
  - intros u v Hu Hv. apply Ft in Hu, Hv. rewrite !Fs.
    destruct (decide (u = t)) as [->|], (decide (v = t)) as [->|]; [done| | |by apply wf_own]; intros E; [symmetry; by apply Hown|by apply Hown].
Qed.

(** A free tree is linked to [t] and put among its children. *)
Lemma wf_link h t x cs : wf h -> is_tree h t -> free h x -> NoDup cs -> (forall y, y ∈ cs -> y = x \/ y ∈ children h t) ->
  wf (set_list (sub_list h t) cs (set_parent (Some t) h x)).
Proof.
  intros Hw Ht Hx Hn Hc. rewrite <- (set_parent_sub (Some t) h x t). apply wf_set_list; [by apply wf_set_parent|by apply set_parent_tree|done|].
  intros y Hy. rewrite set_parent_parent by apply Hx. case_decide; [done|]. destruct (Hc y Hy); [done|]. by apply wf_parent.
Qed.
Lemma wf_append h t x : wf h -> is_tree h t -> free h x -> wf (append t x h).
Proof.
  intros Hw Ht Hx. unfold append. rewrite set_parent_sub, set_parent_children. apply wf_link; [done..| |].
  - apply NoDup_app. split; [by apply wf_once|]. split; [|apply NoDup_singleton]. intros y Hy. rewrite list_elem_of_singleton. intros ->. by apply (proj2 Hx t).
  - intros y. set_solver.
Qed.
Lemma wf_insert h t i x : wf h -> is_tree h t -> free h x -> wf (insert t i x h).
Proof.
  intros Hw Ht Hx. unfold insert. rewrite set_parent_sub, set_parent_children. set (k := insert_index _ i).
  assert (Hp : take k (children h t) ++ [x] ++ drop k (children h t) ≡ₚ x :: children h t).
  { cbn [app]. rewrite <- Permutation_middle. by rewrite take_drop. }
  apply wf_link; [done..| |].
  - rewrite Hp. apply NoDup_cons. split; [by apply (proj2 Hx)|by apply wf_once].
  - intros y Hy. rewrite Hp in Hy. by apply elem_of_cons in Hy.
Qed.
Lemma replaced_elem (cs : list nat) k x y : y ∈ <[k := x]> cs -> y = x \/ exists i, i <> k /\ cs !! i = Some y.
Proof.
  intros (i & Hi)%list_elem_of_lookup. destruct (decide (i = k)) as [->|Hn].
  - left. apply list_lookup_insert_Some in Hi as [(_ & -> & _)|(? & _)]; done.
  - right. exists i. split; [done|]. by rewrite list_lookup_insert_ne in Hi.
Qed.
Lemma NoDup_replace (cs : list nat) k x : NoDup cs -> x ∉ cs -> NoDup (<[k := x]> cs).
Proof.
  intros Hn Hx. apply NoDup_alt. intros i j y Hi Hj. rewrite list_lookup_insert_Some in Hi, Hj.
  destruct Hi as [(<- & -> & _)|(Hi1 & Hi2)], Hj as [(<- & Hy & _)|(Hj1 & Hj2)]; [done| | |by eapply NoDup_lookup].
  - by apply list_elem_of_lookup_2 in Hj2.
  - subst. by apply list_elem_of_lookup_2 in Hi2.
Qed.
Lemma wf_setitem h t i x : wf h -> is_tree h t -> free h x ->
  wf (setitem t i x h).1 /\ (forall k old, norm_index (length (children h t)) i = Some k -> children h t !! k = Some old -> parent (setitem t i x h).1 old = None).
Proof.
  intros Hw Ht Hx. unfold setitem. rewrite set_parent_children. destruct (norm_index _ i) as [k|]; [|split; [by apply wf_set_parent|done]].
  destruct (children h t !! k) as [old|] eqn:Ek.
  - assert (Hold : old ∈ children h t) by by eapply list_elem_of_lookup_2.
    assert (Hox : old <> x) by (intros ->; by apply (proj2 Hx t)).
    rewrite !set_parent_sub, !set_parent_children. cbn [fst].
    set (h1 := set_list (sub_list h t) (<[k:=x]> (children h t)) (set_parent (Some t) h x)).
    change (set_list _ _ (set_parent None _ old)) with (set_parent None h1 old).
    assert (Hw1 : wf h1).
    { apply wf_link; [done..| |].
      - apply NoDup_replace; [by apply wf_once|by apply (proj2 Hx)].
      - intros y [->|(j & _ & Hj)]%replaced_elem; [by left|right; by eapply list_elem_of_lookup_2]. }
    assert (Ht1 : forall u, is_tree h1 u <-> is_tree h u) by (intros u; apply set_parent_tree).
    assert (Hfree : free h1 old).
    { split; [apply Ht1; by eapply child_tree|]. intros u Hu. apply Ht1 in Hu. unfold h1. rewrite set_list_children, set_parent_sub, set_parent_children. case_decide as E.
      - intros [->|(j & Hj & Hj')]%replaced_elem; [done|]. apply Hj. eapply NoDup_lookup; [|done..]. by apply wf_once.
      - intros Hu'. assert (t = u) as <- by by eapply (child_once h t u old). apply E. split; [done|]. by apply (wf_lists h). }
    split; [by apply wf_set_parent|]. intros k' old' [= <-] E. rewrite Ek in E. injection E as <-. rewrite set_parent_parent by apply Hfree. by rewrite decide_True.
  - split; [|intros k' old' [= <-]; by rewrite Ek].
    rewrite set_parent_sub, set_parent_children. cbn [fst]. apply lookup_ge_None in Ek. rewrite list_insert_ge by done. apply wf_link; [done..| |by right].
    by apply wf_once.
Qed.
Lemma wf_sublist h t cs : wf h -> is_tree h t -> NoDup cs -> (forall x, x ∈ cs -> x ∈ children h t) -> wf (set_list (sub_list h t) cs h).
Proof. intros Hw Ht Hn Hc. apply wf_set_list; [done..|]. intros x Hx. apply wf_parent; [done..|]. by apply Hc. Qed.
Lemma wf_pop h t i : wf h -> is_tree h t -> wf (pop t i h).1.
Proof.
  intros Hw Ht. unfold pop. destruct (norm_index _ i) as [k|]; [|done]. destruct (children h t !! k) as [x|]; [|done]. cbn [fst]. apply wf_sublist; [done..| |].
  - eapply sublist_NoDup; [|apply sublist_delete]. by apply wf_once.
  - intros y Hy. eapply elem_of_sublist; [done|]. apply sublist_delete.
Qed.

(** The free trees remain free when they are linked one after the other. *)
Lemma wf_adopt t xs h : wf h -> Forall (free h) xs -> wf (adopt t xs h).
Proof.
  revert h. induction xs as [|x xs IH]; intros h Hw Hx; [done|]. apply Forall_cons in Hx as [Hx Hxs]. cbn [adopt foldl].
  apply IH; [by apply wf_set_parent|]. eapply Forall_impl; [exact Hxs|]. intros y. apply free_set_parent.
Qed.
Lemma new_list_free h xs x : wf h -> free h x -> free (new_list xs h).1 x.
Proof.
  intros Hw [H1 H2]. split; [done|]. intros t Ht. rewrite new_list_children by by apply wf_lists. by apply H2.
Qed.
Lemma new_list_content h xs : list_of (new_list xs h).1 (new_list xs h).2 = xs.
Proof. unfold list_of, new_list. cbn. by rewrite lookup_app_r, Nat.sub_diag. Qed.
Lemma set_list_commute l cs t xs h : set_list l cs (adopt t xs h) = adopt t xs (set_list l cs h).
Proof. revert h. induction xs as [|x xs IH]; intros h; [done|]. cbn [adopt foldl]. apply IH. Qed.

Lemma wf_iadd h t xs : wf h -> is_tree h t -> NoDup xs -> Forall (free h) xs -> wf (iadd t (new_list xs h).2 (new_list xs h).1).
Proof.
  intros Hw Ht Hn Hx. pose proof (new_list_content h xs) as Hl. pose proof (wf_new_list h xs Hw) as Hw0.
  assert (Hx0 : Forall (free (new_list xs h).1) xs) by (eapply Forall_impl; [exact Hx|]; intros x; by apply new_list_free).
  set (h0 := (new_list xs h).1) in *. set (l := (new_list xs h).2) in *. assert (Ht0 : is_tree h0 t) by done.
  unfold iadd. set (cs := children h0 t ++ list_of h0 l).
  assert (Hlc : list_of (set_list (sub_list h0 t) cs h0) l = xs).
  { unfold list_of, set_list. cbn [lists]. rewrite list_lookup_insert_ne; [exact Hl|]. apply Nat.lt_neq. exact (wf_lists h Hw t Ht). }
  rewrite Hlc. change (sub_list (set_list _ _ _) t) with (sub_list h0 t). rewrite <- set_list_commute.
  set (h1 := adopt t xs h0). assert (Hw1 : wf h1) by by apply wf_adopt.
  destruct (adopt_frame t xs h0 t) as (Ht1 & Hs1 & Hc1 & Hl1). fold h1 in Ht1, Hs1, Hc1, Hl1. rewrite <- Hs1 in *.
  assert (Htrees : Forall (is_tree h0) xs) by (eapply Forall_impl; [exact Hx0|]; by intros x []).
  assert (Hw2 : wf (set_list (sub_list h1 t) cs h1)).
  { apply wf_set_list; [done|by apply Ht1| |].
    - unfold cs. rewrite Hl. apply NoDup_app. split; [by apply wf_once|]. split; [|done]. intros x Hxc Hxx. rewrite Forall_forall in Hx0. by apply (Hx0 x Hxx) in Hxc.
    - intros x Hxc. unfold h1. rewrite adopt_parent by done. case_decide; [done|]. apply wf_parent; [done..|]. unfold cs in Hxc. rewrite Hl in Hxc. set_solver. }
  set (h2 := set_list (sub_list h1 t) cs h1) in *. change (sub_list h1 t) with (sub_list h2 t).
  assert (Ht2 : is_tree h2 t) by by apply Ht1.
  apply wf_set_children; [done..|by apply wf_lists| | |].
  - intros u Hu E. by apply (wf_own h2 Hw2).
  - by apply (wf_once h2 Hw2 t).
  - apply Forall_forall. intros x Hxc. by right.
Qed.

Lemma wf_set_new h t xs : wf h -> is_tree h t -> NoDup xs -> Forall (fun x => free h x \/ x ∈ children h t) xs ->
  wf (set_children t (new_list xs h).2 (new_list xs h).1).
Proof.
  intros Hw Ht Hn Hx. apply wf_set_children; [by apply wf_new_list|done| | | |].
  - cbn. rewrite length_app. cbn. lia.
  - intros u Hu E. pose proof (wf_lists h Hw u Hu). cbn in E. change (sub_list _ u) with (sub_list h u) in E. lia.
  - by rewrite new_list_content.
  - rewrite new_list_content. eapply Forall_impl; [exact Hx|]. intros x [H|H]; [left; by apply new_list_free|right]. by rewrite new_list_children by by apply wf_lists.
Qed.

(** A new tree on a list that no tree has. *)
Lemma wf_init h node xs p : wf h -> NoDup xs -> Forall (free h) xs -> wf (init node (Some (new_list xs h).2) p (new_list xs h).1).1.
Proof.
  intros Hw Hn Hx. unfold init. cbn [fst]. set (self := length (trees (new_list xs h).1)). set (l := (new_list xs h).2).
  set (h1 := Heap (trees (new_list xs h).1 ++ [TreeObj node l None]) (lists (new_list xs h).1)).
  change (list_of h1 l) with (list_of (new_list xs h).1 (new_list xs h).2). rewrite new_list_content.
  assert (Htree : forall u, is_tree h1 u <-> is_tree h u \/ u = self).
  { intros u. unfold is_tree, h1, self. cbn. rewrite length_app. cbn. lia. }
  assert (Hself : ~ is_tree h self) by (unfold is_tree, self; cbn; lia).
  assert (Hold : forall u, is_tree h u -> trees h1 !! u = trees h !! u) by (intros u Hu; by apply lookup_app_l).
  assert (Hnew : trees h1 !! self = Some (TreeObj node l None)) by (unfold h1, self; cbn; by rewrite lookup_app_r, Nat.sub_diag).
  assert (Hsub : forall u, is_tree h u -> sub_list h1 u = sub_list h u) by (intros u Hu; unfold sub_list; by rewrite Hold).
  assert (Hsubs : sub_list h1 self = l) by (unfold sub_list; by rewrite Hnew).
  assert (Hch : forall u, is_tree h u -> children h1 u = children h u).
  { intros u Hu. unfold children. rewrite Hsub by done. exact (new_list_children h xs u (wf_lists h Hw u Hu)). }
  assert (Hchs : children h1 self = xs) by (unfold children; rewrite Hsubs; apply new_list_content).
  assert (Htrees : Forall (is_tree h1) xs) by (eapply Forall_impl; [exact Hx|]; intros x [H _]; apply Htree; by left).
  set (h2 := adopt self xs h1).
  assert (Ft : forall u, is_tree h2 u <-> is_tree h u \/ u = self) by (intros u; rewrite <- Htree; apply adopt_frame).
  assert (Fs : forall u, sub_list h2 u = sub_list h1 u) by (intros u; apply adopt_frame).
  assert (Fc : forall u, children h2 u = children h1 u) by (intros u; apply adopt_frame).
  assert (Fl : lists h2 = lists (new_list xs h).1) by apply (adopt_frame self xs h1 0).
  assert (Hw2 : wf h2).
  { split.
    - intros u x Hu Hxu. rewrite Fc in Hxu. unfold h2. rewrite adopt_parent by done. apply Ft in Hu as [Hu| ->].
      + rewrite Hch in Hxu by done. rewrite decide_False.
        * pose proof (wf_parent h Hw u x Hu Hxu) as Hp. unfold parent in *. rewrite Hold; [done|]. by eapply child_tree.
        * intros Hxx. rewrite Forall_forall in Hx. by apply (Hx x Hxx) in Hxu.
      + rewrite Hchs in Hxu. by rewrite decide_True.
    - intros u Hu. rewrite Fc. apply Ft in Hu as [Hu| ->]; [rewrite Hch by done; by apply wf_once|by rewrite Hchs].
    - intros u Hu. rewrite Fs, Fl. cbn. rewrite length_app. cbn. apply Ft in Hu as [Hu| ->]; [rewrite Hsub by done; pose proof (wf_lists h Hw u Hu); lia|rewrite Hsubs; cbn; lia].
    - intros u v Hu Hv. rewrite !Fs. apply Ft in Hu as [Hu| ->], Hv as [Hv| ->]; [| | |done]; rewrite ?Hsubs, ?Hsub by done.
      + by apply wf_own.
      + intros E. pose proof (wf_lists h Hw u Hu). cbn in E. lia.
      + intros E. pose proof (wf_lists h Hw v Hv). cbn in E. lia. }
  apply wf_set_parent; [done|]. split; [apply Ft; by right|]. intros u Hu Hc. rewrite Fc in Hc. apply Hself. apply Ft in Hu as [Hu| ->].
  - rewrite Hch in Hc by done. by eapply child_tree.
  - rewrite Hchs in Hc. rewrite Forall_forall in Hx. by apply (Hx self Hc).
Qed.

Lemma run_wf o h : wf h -> allowed h o -> wf (run o h).
Proof.
  intros Hw. destruct o as [node xs p|t xs|t x|t i x|t i x|t i|t|t xs]; cbn [allowed run].
  - intros [H1 H2]. by apply wf_init.
  - intros (H1 & H2 & H3). by apply wf_set_new.
  - intros [H1 H2]. by apply wf_append.
  - intros [H1 H2]. by apply wf_setitem.
  - intros [H1 H2]. by apply wf_insert.
  - intros H1. by apply wf_pop.
  - intros H1. apply wf_sublist; [done..|constructor|]. intros x. set_solver.
  - intros (H1 & H2 & H3). by apply wf_iadd.
Qed.

(** A program: operations one after the other, each allowed when it comes. *)
Fixpoint all_allowed h (os : list op) : Prop := match os with [] => True | o :: os' => allowed h o /\ all_allowed (run o h) os' end.
#[export] Instance all_allowed_dec h os : Decision (all_allowed h os).
Proof. revert h. induction os; intros h; cbn [all_allowed]; apply _. Defined.
End operations.
Arguments op : clear implicits.

(** ** Properties *)

Definition empty_heap {A} : heap A := Heap [] [].

(** C21: In a program that only puts among the children of a tree trees that are nowhere else, a child always has the
    tree it is in as parent, and it is in one tree, at one place; errors included. *)
Theorem children_have_parent {A} (os : list (op A)) :
  all_allowed empty_heap os ->
  let h := foldl (fun h o => run o h) empty_heap os in
  forall t x, is_tree h t -> x ∈ children h t ->
    parent h x = Some t /\ NoDup (children h t) /\ forall u, is_tree h u -> x ∈ children h u -> u = t.
Proof.
  intros Ha h. assert (Hw : wf h).
  { assert (H0 : wf (@empty_heap A)) by (split; unfold is_tree; cbn; intros; lia). revert Ha H0. unfold h. generalize (@empty_heap A).
    induction os as [|o os IH]; intros h0 Ha H0; [done|]. destruct Ha as [Ho Hos]. cbn [foldl]. apply IH; [done|by apply run_wf]. }
  intros t x Ht Hx. split; [by apply wf_parent|]. split; [by apply wf_once|]. intros u Hu Hxu. by apply (child_once h u t x).
Qed.

(** The program of the documentation: a tree A with children B and E, B with children C and D; F is appended, B is
    replaced by G, H and I are added. *)
Definition example_program : list (op string) :=
  [OpNew "C" [] None; OpNew "D" [] None; OpNew "B" [0; 1] None; OpNew "E" [] None; OpNew "A" [2; 3] None;
   OpNew "F" [] None; OpAppend 4 5; OpNew "G" [] None; OpSetItem 4 0 6; OpNew "H" [] None; OpNew "I" [] None; OpIadd 4 [7; 8]].

Lemma children_have_parent_witness :
  let h := foldl (fun h o => run o h) empty_heap example_program in
  children h 4 = [6; 3; 5; 7; 8] /\ parent h 7 = Some 4 /\ parent h 2 = None.
Proof.
  assert (Ha : all_allowed empty_heap example_program) by (apply (bool_decide_unpack _); vm_compute; exact I).
  pose proof (children_have_parent example_program Ha 4 7) as H. split; [reflexivity|]. split; [|reflexivity]. apply H.
  - vm_compute. lia.
  - apply (bool_decide_unpack _). vm_compute. exact I.
Defined.

(** Links that disagree with the children: a tree that is removed keeps its parent; a child assigned to its own
    place loses it while it stays among the children; two trees given the same list share what is added later. *)
Theorem stale_links :
  let h := foldl (fun h o => run o h) empty_heap [OpNew "C" [] None; OpNew "A" [0] None; OpNew "B" [] None; OpNew "D" [] None] in
  (let h' := (pop 1 0 h).1 in children h' 1 = [] /\ parent h' 0 = Some 1) /\
  (let h' := (setitem 1 0 0 h).1 in children h' 1 = [0] /\ parent h' 0 = None) /\
  (let h' := append 2 3 (set_children 2 (sub_list h 1) h) in children h' 1 = [0; 3] /\ parent h' 0 = Some 2 /\ parent h' 3 = Some 2).
Proof. vm_compute. repeat split. Qed.
End NestedTree.
