(* ===== verification/AlgoUtils.v ===== *)
(** * Algorithms on sequences: [maia/pytree/algo_utils.py]

    Searches in a sequence, stable partitions, and the simultaneous scan of two sorted sequences that
    the comparison of trees uses. *)
From S2P Require Import Prelude.

Module AlgoUtils.

(** The loop on [i]; a value given in place of a predicate is the test of equality with it. *)
Fixpoint find_loop {A} (pred : A -> bool) (i : nat) (seq : list A) : nat :=
  match seq with
  | [] => i
  | x :: rest => if pred x then i else find_loop pred (S i) rest
  end.
Definition find {A} (seq : list A) (pred : A -> bool) : nat := find_loop pred 0 seq.
Definition find_not {A} (seq : list A) (pred : A -> bool) : nat := find seq (fun x => negb (pred x)).

Section equality.
Context {A : Type} `{EqDecision A}.

Fixpoint mismatch_loop (i : nat) (xs ys : list A) : nat :=
  match xs, ys with
  | x :: xs', y :: ys' => if bool_decide (x <> y) then i else mismatch_loop (S i) xs' ys'
  | _, _ => i
  end.
Definition mismatch (xs ys : list A) : nat := mismatch_loop 0 xs ys.

Definition begins_with (seq seq_begin : list A) : bool :=
  if Nat.ltb (length seq) (length seq_begin) then false
  else Nat.eqb (mismatch seq seq_begin) (length seq_begin).
End equality.

(** The loop appends to one list or to the other. *)
Fixpoint partition_loop {A} (pred : A -> bool) (xs xs_true xs_false : list A) : list A * list A :=
  match xs with
  | [] => (xs_true, xs_false)
  | x :: rest => if pred x then partition_loop pred rest (xs_true ++ [x]) xs_false
                 else partition_loop pred rest xs_true (xs_false ++ [x])
  end.
Definition partition_copy {A} (xs : list A) (pred : A -> bool) : list A * list A := partition_loop pred xs [] [].

(** The four lists of [set_intersection_difference]. *)
Record scan4 (A : Type) := Scan4 { inter_x : list A; diff_x : list A; inter_y : list A; diff_y : list A }.
Arguments Scan4 {_} _ _ _ _.
Arguments inter_x {_} _.
Arguments diff_x {_} _.
Arguments inter_y {_} _.
Arguments diff_y {_} _.

(** One turn of the loop on [i] and [j], where [x] and [y] are what remains from these positions. *)
Definition scan_turn {A} (comp : A -> A -> bool) (a b : A) (r : scan4 A) : scan4 A :=
  if comp a b then Scan4 (inter_x r) (diff_x r ++ [a]) (inter_y r) (diff_y r)
  else if comp b a then Scan4 (inter_x r) (diff_x r) (inter_y r) (diff_y r ++ [b])
  else Scan4 (inter_x r ++ [a]) (diff_x r) (inter_y r ++ [b]) (diff_y r).

Fixpoint scan_loop {A} (comp : A -> A -> bool) (fuel : nat) (x y : list A) (r : scan4 A) : scan4 A :=
  match fuel, x, y with
  | S fuel', a :: x', b :: y' =>
      let r := scan_turn comp a b r in
      if comp a b then scan_loop comp fuel' x' y r
      else if comp b a then scan_loop comp fuel' x y' r
      else scan_loop comp fuel' x' y' r
  | _, _, _ => Scan4 (inter_x r) (diff_x r ++ x) (inter_y r) (diff_y r ++ y)
  end.

(** Each turn advances in one of the lists at least. *)
Definition set_intersection_difference {A} (x y : list A) (comp : A -> A -> bool) : scan4 A :=
  scan_loop comp (length x + length y) x y (Scan4 [] [] [] []).

(** ** Lemmas *)

Lemma find_loop_spec {A} (pred : A -> bool) i seq :
  (exists l x r, seq = l ++ x :: r /\ Forall (fun y => pred y = false) l /\ pred x = true /\
     find_loop pred i seq = (i + length l)%nat) \/
  (Forall (fun y => pred y = false) seq /\ find_loop pred i seq = (i + length seq)%nat).
Proof.
  revert i. induction seq as [|x seq IH]; intros i; cbn [find_loop].
  - right. cbn. split; [constructor|lia].
  - destruct (pred x) eqn:E; [left; exists [], x, seq; cbn; split_and!; [done|constructor|done|lia]|].
    destruct (IH (S i)) as [(l & y & r & -> & Hl & Hy & ->)|[Hl ->]].
    + left. exists (x :: l), y, r. split_and!; [done|by constructor|done|cbn; lia].
    + right. split; [by constructor|cbn; lia].
Qed.

Lemma mismatch_loop_spec `{EqDecision A} i (xs ys : list A) :
  exists l, mismatch_loop i xs ys = (i + length l)%nat /\ l `prefix_of` xs /\ l `prefix_of` ys /\
    forall k, k `prefix_of` xs -> k `prefix_of` ys -> k `prefix_of` l.
Proof.
  revert i ys. induction xs as [|x xs IH]; intros i [|y ys]; cbn [mismatch_loop].
  - exists []. cbn. split_and!; [lia|done|done|done].
  - exists []. cbn. split_and!; [lia|done|by eexists|done].
  - exists []. cbn. split_and!; [lia|by eexists|done|done].
  - case_bool_decide as E.
    + exists []. cbn. split_and!; [lia|by eexists|by eexists|].
      intros [|a k] H1 H2; [done|]. apply prefix_cons_inv_1 in H1, H2. congruence.
    + subst x. destruct (IH (S i) ys) as (l & -> & H1 & H2 & H3). exists (y :: l).
      split_and!; [cbn; lia|by apply prefix_cons|by apply prefix_cons|].
      intros [|a k] K1 K2; [by eexists|]. pose proof (prefix_cons_inv_1 _ _ _ _ K1) as ->.
      apply prefix_cons_inv_2 in K1, K2. apply prefix_cons. by apply H3.
Qed.

Lemma partition_loop_spec {A} (pred : A -> bool) xs t f :
  partition_loop pred xs t f = (t ++ List.filter pred xs, f ++ List.filter (fun x => negb (pred x)) xs).
Proof.
  revert t f. induction xs as [|x xs IH]; intros t f; cbn; [by rewrite !app_nil_r|].
  destruct (pred x); cbn; rewrite IH, <- (assoc (++)); done.
Qed.

(** [find] returns the position of the first element that satisfies the predicate, or the length. *)
Lemma find_spec {A} (seq : list A) pred :
  (find seq pred <= length seq)%nat /\ Forall (fun y => pred y = false) (take (find seq pred) seq) /\
  forall x, seq !! find seq pred = Some x -> pred x = true.
Proof.
  unfold find. destruct (find_loop_spec pred 0 seq) as [(l & x & r & -> & Hl & Hx & ->)|[Hl ->]]; cbn.
  - rewrite length_app, take_app_length. split_and!; [lia|done|]. intros y. rewrite list_lookup_middle by done. by intros [= <-].
  - rewrite take_ge by lia. split_and!; [lia|done|]. intros x. by rewrite lookup_ge_None_2.
Qed.

Lemma begins_with_spec `{EqDecision A} (seq seq_begin : list A) :
  begins_with seq seq_begin = true <-> seq_begin `prefix_of` seq.
Proof.
  unfold begins_with, mismatch. destruct (mismatch_loop_spec 0 seq seq_begin) as (l & -> & H1 & H2 & H3). cbn [Nat.add].
  pose proof (prefix_length _ _ H2) as L2. split.
  - destruct (Nat.ltb_spec (length seq) (length seq_begin)); [done|]. intros E%Nat.eqb_eq.
    destruct H2 as [k ->]. rewrite length_app in E. destruct k; [by rewrite app_nil_r|cbn in E; lia].
  - intros Hp. pose proof (prefix_length _ _ Hp). destruct (Nat.ltb_spec (length seq) (length seq_begin)); [lia|].
    apply Nat.eqb_eq. pose proof (prefix_length _ _ (H3 seq_begin Hp ltac:(done))). lia.
Qed.

Lemma partition_copy_spec {A} (xs : list A) pred :
  partition_copy xs pred = (List.filter pred xs, List.filter (fun x => negb (pred x)) xs).
Proof. exact (partition_loop_spec pred xs [] []). Qed.

(** ** The scan of two lists *)

(** Whatever the order, each list is dealt between its two results. *)
Lemma scan_loop_perm {A} (comp : A -> A -> bool) fuel x y r :
  let s := scan_loop comp fuel x y r in
  inter_x s ++ diff_x s ≡ₚ inter_x r ++ diff_x r ++ x /\ inter_y s ++ diff_y s ≡ₚ inter_y r ++ diff_y r ++ y.
Proof.
  revert x y r. induction fuel as [|fuel IH]; intros x y r; cbv zeta; [done|].
  destruct x as [|a x]; [done|]. destruct y as [|b y]; [done|]. cbn [scan_loop]. unfold scan_turn.
  destruct (comp a b); [|destruct (comp b a)].
  - destruct (IH x (b :: y) (Scan4 (inter_x r) (diff_x r ++ [a]) (inter_y r) (diff_y r))) as [-> ->]. cbn.
    by rewrite <- !(assoc (++)).
  - destruct (IH (a :: x) y (Scan4 (inter_x r) (diff_x r) (inter_y r) (diff_y r ++ [b]))) as [-> ->]. cbn.
    by rewrite <- !(assoc (++)).
  - destruct (IH x y (Scan4 (inter_x r ++ [a]) (diff_x r) (inter_y r ++ [b]) (diff_y r))) as [-> ->]. cbn.
    rewrite <- !(assoc (++)). cbn. split; f_equiv; apply Permutation_middle.
Qed.

Lemma scan_loop_length {A} (comp : A -> A -> bool) fuel x y r :
  length (inter_x r) = length (inter_y r) ->
  let s := scan_loop comp fuel x y r in length (inter_x s) = length (inter_y s).
Proof.
  revert x y r. induction fuel as [|fuel IH]; intros x y r Hr; cbv zeta; [done|].
  destruct x as [|a x]; [done|]. destruct y as [|b y]; [done|]. cbn [scan_loop]. unfold scan_turn.
  destruct (comp a b); [|destruct (comp b a)]; apply IH; cbn; rewrite ?length_app, ?Hr; done.
Qed.

Lemma set_intersection_difference_perm {A} (x y : list A) comp :
  let s := set_intersection_difference x y comp in inter_x s ++ diff_x s ≡ₚ x /\ inter_y s ++ diff_y s ≡ₚ y.
Proof. exact (scan_loop_perm comp (length x + length y) x y (Scan4 [] [] [] [])). Qed.


Section scan.
Context {A : Type} (comp : A -> A -> bool).
(** Transitive, and so is the absence of order. *)
Hypothesis comp_trans : forall a b c, comp a b = true -> comp b c = true -> comp a c = true.
Hypothesis comp_weak : forall a b c, comp a b = true -> comp a c = true \/ comp c b = true.

Definition eqv (a b : A) : bool := negb (comp a b) && negb (comp b a).
(** The elements of a list that have an equivalent in another one, and the others. *)
Definition common (x y : list A) : list A := List.filter (fun a => existsb (eqv a) y) x.
Definition proper (x y : list A) : list A := List.filter (fun a => negb (existsb (eqv a) y)) x.

Definition ascending (l : list A) : Prop := StronglySorted (fun a b => comp a b = true) l.

Lemma eqv_sym a b : eqv a b = eqv b a.
Proof using Type. unfold eqv. apply andb_comm. Qed.

Lemma lt_not_eqv a b : comp a b = true -> eqv a b = false.
Proof using Type. intros H. unfold eqv. by rewrite H. Qed.

(** What precedes the first element of an ascending list has no equivalent in it. *)
Lemma below_not_in a b y :
  comp a b = true -> ascending (b :: y) -> existsb (eqv a) (b :: y) = false.
Proof using comp_trans.
  intros Hab Hy. apply StronglySorted_inv in Hy as [_ Hb]. apply not_true_iff_false.
  intros (c & Hc & He)%existsb_exists. destruct Hc as [->|Hc]; [by rewrite lt_not_eqv in He|].
  rewrite Forall_forall in Hb. rewrite lt_not_eqv in He; [done|]. eapply comp_trans; [exact Hab|].
  apply Hb. by apply list_elem_of_In.
Qed.

(** An element that is not equivalent to [a] does not see [a] removed from the other list. *)
Lemma common_skip a x y : Forall (fun b => eqv b a = false) x -> common x (a :: y) = common x y /\ proper x (a :: y) = proper x y.
Proof using Type.
  intros H. rewrite Forall_forall in H.
  split; apply List.filter_ext_in; intros c Hc%list_elem_of_In; cbn [existsb]; by rewrite H.
Qed.

Lemma common_cons a x y : common (a :: x) y = if existsb (eqv a) y then a :: common x y else common x y.
Proof using Type. done. Qed.
Lemma proper_cons a x y : proper (a :: x) y = if existsb (eqv a) y then proper x y else a :: proper x y.
Proof using Type. unfold proper. cbn. by destruct (existsb _ _). Qed.
Lemma common_nil x : common x [] = [].
Proof using Type. by induction x. Qed.
Lemma proper_nil x : proper x [] = x.
Proof using Type. unfold proper. induction x as [|a x IH]; [done|]. cbn. by f_equal. Qed.

Lemma ascending_eqv a b x : ascending (a :: x) -> eqv b a = true -> Forall (fun c => eqv c b = false) x.
Proof using comp_weak.
  intros Hx Hab. apply StronglySorted_inv in Hx as [_ Ha]. eapply Forall_impl; [exact Ha|]. intros c Hc. cbn.
  unfold eqv in *. apply andb_true_iff in Hab as [H1%negb_true_iff H2%negb_true_iff].
  destruct (comp_weak a c b Hc) as [H|H]; [congruence|]. rewrite H. cbn. by rewrite andb_false_r.
Qed.

Lemma scan_loop_spec fuel x y r :
  (length x + length y <= fuel)%nat -> ascending x -> ascending y ->
  let s := scan_loop comp fuel x y r in
  inter_x s = inter_x r ++ common x y /\ diff_x s = diff_x r ++ proper x y /\
  inter_y s = inter_y r ++ common y x /\ diff_y s = diff_y r ++ proper y x.
Proof using comp_trans comp_weak.
  revert x y r. induction fuel as [|fuel IH]; intros x y r Hf Hx Hy; cbv zeta.
  { destruct x, y; cbn in Hf; try lia. cbn. rewrite !app_nil_r. by split_and!. }
  destruct x as [|a x]; 
    [cbn [scan_loop inter_x diff_x inter_y diff_y]; rewrite common_nil, proper_nil; cbn; rewrite !app_nil_r; by split_and!|].
  destruct y as [|b y]; 
    [cbn [scan_loop inter_x diff_x inter_y diff_y]; rewrite common_nil, proper_nil; cbn; rewrite !app_nil_r; by split_and!|].
  cbn [scan_loop]. unfold scan_turn. pose proof (StronglySorted_inv Hx) as [Hx' Ha].
  pose proof (StronglySorted_inv Hy) as [Hy' Hb]. cbn [length] in Hf.
  destruct (comp a b) eqn:Eab; [|destruct (comp b a) eqn:Eba].
  - specialize (IH x (b :: y) (Scan4 (inter_x r) (diff_x r ++ [a]) (inter_y r) (diff_y r)) ltac:(cbn; lia) Hx' Hy).
    cbn in IH. destruct IH as (-> & -> & -> & ->).
    pose proof (below_not_in a b y Eab Hy) as Hna.
    assert (Hs : Forall (fun c => eqv c a = false) (b :: y)).
    { apply Forall_forall. intros c Hc. rewrite eqv_sym. apply not_true_iff_false. intros He.
      apply not_true_iff_false in Hna. apply Hna, existsb_exists. exists c. by rewrite <- list_elem_of_In. }
    destruct (common_skip a (b :: y) x Hs) as [-> ->].
    rewrite (common_cons a), (proper_cons a), Hna, <- (assoc (++)). by split_and!.
  - specialize (IH (a :: x) y (Scan4 (inter_x r) (diff_x r) (inter_y r) (diff_y r ++ [b])) ltac:(cbn; lia) Hx Hy').
    cbn in IH. destruct IH as (-> & -> & -> & ->).
    pose proof (below_not_in b a x Eba Hx) as Hnb.
    assert (Hs : Forall (fun c => eqv c b = false) (a :: x)).
    { apply Forall_forall. intros c Hc. rewrite eqv_sym. apply not_true_iff_false. intros He.
      apply not_true_iff_false in Hnb. apply Hnb, existsb_exists. exists c. by rewrite <- list_elem_of_In. }
    destruct (common_skip b (a :: x) y Hs) as [-> ->].
    rewrite (common_cons b), (proper_cons b), Hnb, <- (assoc (++)). by split_and!.
  - specialize (IH x y (Scan4 (inter_x r ++ [a]) (diff_x r) (inter_y r ++ [b]) (diff_y r)) ltac:(lia) Hx' Hy').
    cbn in IH. destruct IH as (-> & -> & -> & ->).
    assert (Hab : eqv a b = true) by (unfold eqv; by rewrite Eab, Eba).
    assert (Hba : eqv b a = true) by by rewrite eqv_sym.
    destruct (common_skip b x y (ascending_eqv a b x Hx Hba)) as [Ec Ep].
    destruct (common_skip a y x (ascending_eqv b a y Hy Hab)) as [Fc Fp].
    rewrite (common_cons a), (proper_cons a), (common_cons b), (proper_cons b). cbn [existsb].
    rewrite Hab, Hba, Ec, Ep, Fc, Fp, <- !(assoc (++)). by split_and!.
Qed.

(** The scan of two lists in strictly ascending order separates the elements of each list that have
    an equivalent in the other one from those that have none, and keeps the order. *)
Theorem set_intersection_difference_spec x y :
  ascending x -> ascending y ->
  set_intersection_difference x y comp = Scan4 (common x y) (proper x y) (common y x) (proper y x).
Proof using comp_trans comp_weak.
  intros Hx Hy. unfold set_intersection_difference.
  destruct (scan_loop_spec (length x + length y) x y (Scan4 [] [] [] []) ltac:(lia) Hx Hy) as (E1 & E2 & E3 & E4).
  destruct (scan_loop _ _ _ _ _) as [ix dx iy dy]. cbn in *. by subst.
Qed.
End scan.

End AlgoUtils.
