(* ===== verification/Compare.v ===== *)
(** * Comparison of trees: [maia/pytree/compare.py], [graph/cgns.py] and [compare_arrays.py]

    Two trees are traversed together by the depth-first search of Graph, on the graph whose nodes are
    pairs of nodes, one of which may be missing.  A visitor whose comparison raises stops the
    traversal: its state is then the exception. *)
From Stdlib Require Import Ascii.
From S2P Require Import Prelude Values Conventions Tree Parsers Walkers Graph AlgoUtils.

Module Compare.
Import Values Tree Walkers Graph AlgoUtils.

(** ** The graph of pairs: [graph/cgns.py] *)

Definition pair_node : Type := option node * option node.

Section zip.
(** What Python compares in two nodes whose names are equal: the lists after the names. *)
Context (tie : node -> node -> bool).

Definition node_lt (x y : node) : bool :=
  if bool_decide (get_name x = get_name y) then tie x y else String.ltb (get_name x) (get_name y).
Definition _get_sorted_children (n : option node) : list node :=
  match n with None => [] | Some n => sort_by (fun x y => negb (node_lt y x)) (get_children n) end.

Definition less_by_name (x y : node) : bool := String.ltb (get_name x) (get_name y).

(** [_value_or_none(l, i)] is [l !! i]. *)
Definition _zip_lists (l0 l1 : list node) : list pair_node :=
  let r := set_intersection_difference l0 l1 less_by_name in
  zip_with (fun x y => (Some x, Some y)) (inter_x r) (inter_y r) ++
  map (fun i => (diff_x r !! i, diff_y r !! i)) (seq 0 (Nat.max (length (diff_x r)) (length (diff_y r)))).

Definition zip_child_iterator (ns : pair_node) : list pair_node :=
  _zip_lists (_get_sorted_children ns.1) (_get_sorted_children ns.2).

(** The visitors define [pre] only. *)
Definition zip_depth_first_search {V} (fuel : nat) (ts : pair_node)
    (pre : list (option pair_node) -> V -> step * V) (v : V) (depth : visit_depth) : py (option pair_node * V) :=
  depth_first_search zip_child_iterator pre (fun _ v => v) (fun _ v => v) (fun _ v => v) depth fuel [ts] v.
End zip.

(** ** Comparison of values *)

Local Open Scope Z_scope.

(** Broadcasting of numpy: shapes are aligned on their last axes, and an axis of size 1 is repeated. *)
Fixpoint broadcast_rev (s t : list Z) : py (list Z) :=
  match s, t with
  | [], _ => Ret t
  | _, [] => Ret s
  | a :: s', b :: t' =>
      r ← broadcast_rev s' t';
      if bool_decide (a = b) then Ret (a :: r)
      else if bool_decide (a = 1) then Ret (b :: r)
      else if bool_decide (b = 1) then Ret (a :: r) else Raise ValueError
  end.
Definition broadcast_shape (s t : list Z) : py (list Z) := reverse <$> broadcast_rev (reverse s) (reverse t).

(** The multi-indices of a shape, first axis fastest. *)
Fixpoint indices_of (shape : list Z) : list (list Z) :=
  match shape with
  | [] => [[]]
  | d :: rest => idx ← indices_of rest; (fun i => i :: idx) <$> arange 0 d
  end.
Fixpoint offset_of (shape idx : list Z) : Z :=
  match shape, idx with
  | d :: shape', i :: idx' => (if bool_decide (d = 1) then 0 else i) + d * offset_of shape' idx'
  | _, _ => 0
  end.
Definition broadcast_get (a : nparray) (idx : list Z) : option Z :=
  a_data a !! Z.to_nat (offset_of (a_shape a) (drop (length idx - length (a_shape a)) idx)).

Section values.
Context `{ArrayEqual}.
(** The test of [np.isclose] on two numbers, for [rtol=0] and the absolute tolerance. *)
Context (isclose : Z -> Z -> bool).

Definition allclose (a b : nparray) : py bool :=
  shape ← broadcast_shape (a_shape a) (a_shape b);
  Ret (forallb (fun idx => match broadcast_get a idx, broadcast_get b idx with
                           | Some x, Some y => isclose x y | _, _ => false end) (indices_of shape)).

Definition is_same_name (n0 n1 : node) : bool := bool_decide (get_name n0 = get_name n1).
Definition is_same_label (n0 n1 : node) : bool := bool_decide (get_label n0 = get_label n1).
Definition is_same_value_type (n0 n1 : node) (strict : bool) : bool :=
  if strict then bool_decide (get_value_type n0 = get_value_type n1)
  else bool_decide (get_value_kind n0 = get_value_kind n1).

(** [dtype.kind == 'f'] *)
Definition is_float (a : nparray) : bool := bool_decide (a_type a ∈ [T_R4; T_R8]).

Definition is_same_value (n0 n1 : node) (type_tol : bool) : py bool :=
  if negb (is_same_value_type n0 n1 (negb type_tol)) then Ret false
  else match get_raw n0, get_raw n1 with
       | None, _ => Ret true
       | Some a, Some b => if is_float a then allclose a b else Ret (array_equal (Some a) (Some b))
       | Some a, None => Ret (array_equal (Some a) None)
       end.

Definition is_same_node (node1 node2 : node) (type_tol : bool) : py bool :=
  if is_same_name node1 node2 && is_same_label node1 node2 then is_same_value node1 node2 type_tol else Ret false.

(** ** [is_same_tree] *)

(** [same_tree_visitor.pre]; the state is [is_same], or the exception that went through the search. *)
Definition same_tree_pre (type_tol : bool) (args : list (option pair_node)) (v : py bool) : step * py bool :=
  match last args with
  | Some (Some (Some n0, Some n1)) =>
      match is_same_node n0 n1 type_tol with
      | Ret true => (into, v)
      | Ret false => (out, Ret false)
      | Raise e => (out, Raise e)
      end
  | _ => (out, Ret false)
  end.

Definition is_same_tree (tie : node -> node -> bool) (fuel : nat) (t1 t2 : node) (type_tol : bool) : py bool :=
  r ← zip_depth_first_search tie fuel (Some t1, Some t2) (same_tree_pre type_tol) (Ret true) node_depth;
  r.2.
End values.

(** ** [diff_tree] *)

(** A comparison function: whether the values agree, an error report and a warning; [modify_name] is an
    optional attribute of it. *)
Definition report : Type := bool * string * string.
Record comparison := Comparison {
  comp_run : list (node * node) -> py report;
  comp_modify_name : option (string -> string)
}.

Definition newline : string := String (ascii_of_nat 10) EmptyString.

(** The pairs of a stack of nodes that are both present. *)
Definition pair_of (p : option pair_node) : option (node * node) :=
  match p with Some (Some n0, Some n1) => Some (n0, n1) | _ => None end.
Definition stack_pairs (l : list (option pair_node)) : py (list (node * node)) :=
  mapM (fun p => of_option TypeError (pair_of p)) l.

(** The raw values are both None, or both present. *)
Definition value_comparison_report (nodes_stack : list (node * node)) (comp : comparison) : py report :=
  match last nodes_stack with
  | None => Raise IndexError
  | Some (n0, n1) =>
      match get_raw n0, get_raw n1 with
      | None, None => Ret (true, "", "")
      | Some _, Some _ => comp_run comp nodes_stack
      | _, _ => Raise AssertionError
      end
  end.

Fixpoint zip_path_loop (path : string) (ns : list (node * node)) : py string :=
  match ns with
  | [] => Ret path
  | (n0, n1) :: rest =>
      _ ← py_assert (bool_decide (get_name n0 = get_name n1));
      zip_path_loop (path +:+ get_name n0 +:+ "/") rest
  end.
Definition _zip_path (ns : list (node * node)) : py string := zip_path_loop "/" ns.

(** The report of two nodes that are both present; [ancestors] are the pairs above them. *)
Definition diff_present (ancestors : list (node * node)) (n0 n1 : node) (path : string) (strict_value_type : bool)
    (comp : comparison) : py (step * report) :=
  if negb (is_same_name n0 n1) then
    Ret (over, (false, "< " +:+ path +:+ get_name n0 +:+ newline +:+ "> " +:+ path +:+ get_name n1 +:+ newline, ""))
  else if negb (is_same_label n0 n1) then
    Ret (into, (false, path +:+ get_name n0 +:+ " -- Labels differ: " +:+ get_label n0 +:+ " <> " +:+ get_label n1 +:+ newline, ""))
  else if negb (is_same_value_type n0 n1 strict_value_type) then
    Ret (into, (false, path +:+ get_name n0 +:+ " -- Value types differ: " +:+ get_value_type n0 +:+ " <> " +:+
                       get_value_type n1 +:+ newline, ""))
  else
    r ← value_comparison_report (ancestors ++ [(n0, n1)]) comp;
    let '(is_ok, err_report, warn_report) := r in
    let name := match comp_modify_name comp with Some f => f (get_name n0) | None => get_name n0 end in
    let full msg := if bool_decide (msg <> "") then path +:+ name +:+ " -- Values differ: " +:+ msg +:+ newline else msg in
    Ret (into, (is_ok, full err_report, full warn_report)).

(** [nodes_stack] is the stack given to the visitor, with the current pair at its end. *)
Definition diff_nodes (nodes_stack : list (option pair_node)) (strict_value_type : bool) (comp : comparison)
    : py (step * report) :=
  ancestors ← stack_pairs (take (length nodes_stack - 1) nodes_stack);
  path ← _zip_path ancestors;
  match last nodes_stack with
  | Some (Some (None, Some n1)) => Ret (over, (false, "> " +:+ path +:+ get_name n1 +:+ newline, ""))
  | Some (Some (Some n0, None)) => Ret (over, (false, "< " +:+ path +:+ get_name n0 +:+ newline, ""))
  | Some (Some (Some n0, Some n1)) => diff_present ancestors n0 n1 path strict_value_type comp
  | _ => Raise TypeError
  end.

(** [diff_tree_visitor.pre] *)
Definition diff_tree_pre (strict_value_type : bool) (comp : comparison) (nodes_stack : list (option pair_node))
    (v : py report) : step * py report :=
  match v, diff_nodes nodes_stack strict_value_type comp with
  | Ret (ok, err, warn), Ret (next_step, (is_ok, err_report, warn_report)) =>
      (next_step, Ret (ok && is_ok, err +:+ err_report, warn +:+ warn_report))
  | Ret _, Raise e => (out, Raise e)
  | Raise e, _ => (out, Raise e)
  end.

Definition diff_tree (tie : node -> node -> bool) (fuel : nat) (t1 t2 : node) (strict_value_type : bool)
    (comp : comparison) : py report :=
  r ← zip_depth_first_search tie fuel (Some t1, Some t2) (diff_tree_pre strict_value_type comp)
        (Ret (true, "", "")) all_depth;
  r.2.

(** ** [compare_arrays.py]: reports on arrays of integers *)
Section equal_arrays.
(** [str] of an array. *)
Context (np_str : list Z -> string).

(** [np.count_nonzero(np.equal(x, ref))]; an array of one value is broadcast. *)
Definition count_equal (x ref : list Z) : Z := zsum (zip_with (fun a b => if bool_decide (a = b) then 1 else 0) x ref).
Definition n_equal (x ref : list Z) : py Z :=
  if bool_decide (length x = length ref) then Ret (count_equal x ref)
  else match x, ref with
       | [a], _ => Ret (count_equal (replicate (length ref) a) ref)
       | _, [b] => Ret (count_equal x (replicate (length x) b))
       | _, _ => Raise ValueError
       end.

(** The reports of the ranks; a rank that raises ends the program. *)
Definition equal_array_report (comm : list (list Z * list Z)) : py (list report) :=
  let on_root (msg : string) := imap (fun i _ => (false, if bool_decide (i = O) then msg else "", "")) comm in
  if forallb (fun '(x, ref) => bool_decide (x = ref)) comm then Ret (map (fun _ => (true, "", "")) comm)
  else
    let sz_tot := zsum (map (fun xr => zlen xr.1) comm) in
    if sz_tot <? 10 then
      Ret (on_root (np_str (concat (map fst comm)) +:+ " <> " +:+ np_str (concat (map snd comm))))
    else
      n_eq ← mapM (fun xr => n_equal xr.1 xr.2) comm;
      Ret (on_root (Conventions.str_int (sz_tot - zsum n_eq) +:+ " values are different")).
End equal_arrays.

(** ** Lemmas: order of the names *)

Lemma ltb_leb (x y : string) : String.ltb x y = negb (String.leb y x).
Proof. unfold String.ltb, String.leb. rewrite (String.compare_antisym x y). by destruct (String.compare y x). Qed.

Lemma less_by_name_trans a b c : less_by_name a b = true -> less_by_name b c = true -> less_by_name a c = true.
Proof.
  unfold less_by_name. rewrite !ltb_leb, !negb_true_iff. intros H1 H2. apply not_true_iff_false. intros H3.
  apply not_true_iff_false in H1. apply H1. destruct (String.leb_total (get_name b) (get_name c)) as [H|H]; [|congruence].
  by eapply string_leb_trans.
Qed.
Lemma less_by_name_weak a b c : less_by_name a b = true -> less_by_name a c = true \/ less_by_name c b = true.
Proof.
  unfold less_by_name. rewrite !ltb_leb, !negb_true_iff. intros H1.
  destruct (String.leb (get_name c) (get_name a)) eqn:E1; [|by left].
  destruct (String.leb (get_name b) (get_name c)) eqn:E2; [|by right].
  exfalso. by rewrite (string_leb_trans _ _ _ E2 E1) in H1.
Qed.
Lemma eqv_name a b : eqv less_by_name a b = true <-> get_name a = get_name b.
Proof.
  unfold eqv, less_by_name. rewrite !ltb_leb, !negb_involutive, andb_true_iff. split.
  - intros [H1 H2]. by apply String.leb_antisym.
  - intros ->. pose proof (String.leb_total (get_name b) (get_name b)). tauto.
Qed.

Lemma insert_by_ext {A} (le le' : A -> A -> bool) x l :
  (forall y, y ∈ l -> le x y = le' x y) -> insert_by le x l = insert_by le' x l.
Proof.
  induction l as [|y l IH]; intros H; [done|]. cbn. rewrite (H y) by left. destruct (le' x y); [done|].
  f_equal. apply IH. intros z Hz. apply H. by right.
Qed.
Lemma sort_by_ext {A} (le le' : A -> A -> bool) l :
  (forall i j x y, l !! i = Some x -> l !! j = Some y -> i <> j -> le x y = le' x y) -> sort_by le l = sort_by le' l.
Proof.
  induction l as [|x l IH]; intros H; [done|].
  change (insert_by le x (sort_by le l) = insert_by le' x (sort_by le' l)). rewrite IH.
  - apply insert_by_ext. intros y Hy. rewrite sort_by_perm in Hy. apply list_elem_of_lookup in Hy as [i Hi].
    by apply (H 0%nat (S i)).
  - intros i j a b Ha Hb Hij. apply (H (S i) (S j)); [done|done|lia].
Qed.

Section zip_lemmas.
Context (tie : node -> node -> bool).

Definition name_leb (x y : node) : bool := String.leb (get_name x) (get_name y).

(** Siblings that have different names are sorted by their names. *)
Lemma sorted_children_names n :
  NoDup (get_names (get_children n)) ->
  _get_sorted_children tie (Some n) = sort_by name_leb (get_children n).
Proof using Type.
  intros Hnd. apply sort_by_ext. intros i j x y Hi Hj Hij. unfold node_lt, name_leb.
  rewrite bool_decide_eq_false_2; [rewrite ltb_leb; apply negb_involutive|].
  intros E. apply Hij. eapply NoDup_lookup; [exact Hnd| |]; unfold get_names; rewrite list_lookup_fmap.
  - by rewrite Hi.
  - rewrite Hj. cbn. by rewrite E.
Qed.

Lemma sorted_children_perm n :
  NoDup (get_names (get_children n)) -> _get_sorted_children tie (Some n) ≡ₚ get_children n.
Proof using Type. intros H. rewrite sorted_children_names by done. apply sort_by_perm. Qed.

Lemma sorted_children_ascending n :
  NoDup (get_names (get_children n)) -> ascending less_by_name (_get_sorted_children tie (Some n)).
Proof using Type.
  intros Hnd. pose proof (sorted_children_perm n Hnd) as Hp. rewrite sorted_children_names in * by done.
  assert (Hnd' : NoDup (get_names (sort_by name_leb (get_children n)))).
  { unfold get_names in *. by rewrite Hp. }
  assert (Hs : StronglySorted (fun a b => name_leb a b = true) (sort_by name_leb (get_children n))).
  { apply sort_by_sorted; unfold name_leb; intros; [apply String.leb_total|by eapply string_leb_trans]. }
  clear Hp. unfold ascending. induction Hs as [|x l Hs IH Hx]; constructor.
  - apply IH. by apply NoDup_cons in Hnd' as [_ ?].
  - apply NoDup_cons in Hnd' as [Hni _]. rewrite Forall_forall in *. intros y Hy. specialize (Hx y Hy).
    unfold less_by_name, name_leb in *. rewrite ltb_leb, negb_true_iff. apply not_true_iff_false. intros Hle.
    apply Hni. rewrite (String.leb_antisym _ _ Hx Hle). by apply list_elem_of_fmap_2.
Qed.

(** The nodes of a pair have well-formed trees. *)
Definition wf_opt (n : option node) : Prop := match n with Some n => wf n | None => True end.
Definition wf_pair (p : pair_node) : Prop := wf_opt p.1 /\ wf_opt p.2.

Lemma wf_children n : wf n -> NoDup (get_names (get_children n)) /\ Forall wf (get_children n).
Proof using Type. by destruct 1. Qed.

Lemma sorted_children_ok n :
  wf_opt n -> ascending less_by_name (_get_sorted_children tie n) /\ Forall wf (_get_sorted_children tie n).
Proof using Type.
  destruct n as [n|]; [|split; constructor]. intros Hn. apply wf_children in Hn as [Hnd Hw].
  split; [by apply sorted_children_ascending|]. by rewrite sorted_children_perm.
Qed.

(** ** Lemmas: the pairs of children *)

Lemma zip_children_eq p :
  wf_pair p ->
  let x := _get_sorted_children tie p.1 in let y := _get_sorted_children tie p.2 in
  zip_child_iterator tie p =
  zip_with (fun a b => (Some a, Some b)) (common less_by_name x y) (common less_by_name y x) ++
  map (fun i => (proper less_by_name x y !! i, proper less_by_name y x !! i))
    (seq 0 (Nat.max (length (proper less_by_name x y)) (length (proper less_by_name y x)))).
Proof using Type.
  intros [H1 H2]. cbv zeta. unfold zip_child_iterator, _zip_lists.
  rewrite (set_intersection_difference_spec less_by_name less_by_name_trans less_by_name_weak);
    [done|by apply sorted_children_ok..].
Qed.

(** A child in a pair comes from the children of the corresponding node. *)
Lemma zip_children_from p c :
  c ∈ zip_child_iterator tie p ->
  (forall a, c.1 = Some a -> a ∈ _get_sorted_children tie p.1) /\
  (forall b, c.2 = Some b -> b ∈ _get_sorted_children tie p.2) /\ (is_Some c.1 \/ is_Some c.2).
Proof using Type.
  unfold zip_child_iterator, _zip_lists.
  destruct (set_intersection_difference_perm (_get_sorted_children tie p.1) (_get_sorted_children tie p.2) less_by_name) as [P1 P2].
  set (s := set_intersection_difference _ _ _) in *. rewrite elem_of_app. setoid_rewrite <- P1. setoid_rewrite <- P2.
  setoid_rewrite elem_of_app. intros [Hc|Hc].
  - apply list_elem_of_lookup in Hc as [i Hc]. apply lookup_zip_with_Some in Hc as (a & b & -> & Ha & Hb). cbn.
    split_and!; [| |by left]; intros ? [= <-]; left; by eapply list_elem_of_lookup_2.
  - apply list_elem_of_In, in_map_iff in Hc as (i & <- & Hi%in_seq). cbn. split_and!.
    + intros a Ha. right. by eapply list_elem_of_lookup_2.
    + intros a Ha. right. by eapply list_elem_of_lookup_2.
    + destruct (decide (i < length (diff_x s))%nat); [left|right]; apply lookup_lt_is_Some_2; lia.
Qed.

Lemma zip_children_wf p c : wf_pair p -> c ∈ zip_child_iterator tie p -> wf_pair c.
Proof using Type.
  intros Hp Hc. destruct (zip_children_from p c Hc) as (H1 & H2 & _). destruct Hp as [W1 W2].
  apply sorted_children_ok in W1 as [_ W1], W2 as [_ W2]. rewrite Forall_forall in W1, W2.
  split; [destruct c.1 as [a|] eqn:E|destruct c.2 as [a|] eqn:E]; [by apply W1, H1|done|by apply W2, H2|done].
Qed.

(** The number of nodes of a pair, which decreases along the traversal. *)
Definition size_opt (n : option node) : nat := match n with Some n => Parsers.size n | None => 0 end.
Definition pair_size (p : pair_node) : nat := size_opt p.1 + size_opt p.2.

Lemma sort_children_size n a : a ∈ _get_sorted_children tie n -> (size_opt (Some a) < size_opt n)%nat.
Proof using Type.
  destruct n as [[name val children label]|]; [|by intros ?%not_elem_of_nil].
  unfold _get_sorted_children. rewrite sort_by_perm. cbn. intros Ha. apply Nat.lt_succ_r.
  induction Ha as [|? ? ? _ IH]; cbn; lia.
Qed.

Lemma pair_size_child p c : c ∈ zip_child_iterator tie p -> (pair_size c < pair_size p)%nat.
Proof using Type.
  intros (H1 & H2 & Hs)%zip_children_from. unfold pair_size.
  assert (S1 : (size_opt c.1 <= size_opt p.1)%nat /\ (is_Some c.1 -> (size_opt c.1 < size_opt p.1)%nat)).
  { destruct c.1 as [a|]; [|cbn; split; [lia|by intros [? ?]]].
    pose proof (sort_children_size _ _ (H1 a eq_refl)). split; [lia|done]. }
  assert (S2 : (size_opt c.2 <= size_opt p.2)%nat /\ (is_Some c.2 -> (size_opt c.2 < size_opt p.2)%nat)).
  { destruct c.2 as [a|]; [|cbn; split; [lia|by intros [? ?]]].
    pose proof (sort_children_size _ _ (H2 a eq_refl)). split; [lia|done]. }
  destruct Hs as [Hs|Hs]; [apply S1 in Hs|apply S2 in Hs]; lia.
Qed.

(** The search on a pair, for a visitor that does something in [pre] only. *)
Definition visit_pairs {V} (pre : list (option pair_node) -> V -> step * V) (depth : visit_depth) :=
  visit_all (zip_child_iterator tie) (pre ∘ pre_adapter depth) (fun _ v => v) (fun _ v => v) (fun _ v => v).

Lemma unwind_nothing {V} (r : list pair_node) (v : V) : unwind_path (fun _ v => v) (fun _ v => v) r v = v.
Proof using Type. induction r as [|a [|b r] IH]; [done..|]. exact IH. Qed.

Lemma zip_search_visits {V} p (pre : list (option pair_node) -> V -> step * V) v depth :
  depth <> int_depth 0 ->
  exists k, forall fuel, (k <= fuel)%nat ->
    zip_depth_first_search tie fuel p pre v depth =
    Ret (match visit_pairs pre depth (S (pair_size p)) [] [p] v with
         | Complete v => (None, v) | Stopped path v => (last path, v) end).
Proof using Type.
  intros Hd. destruct (adapted_search_refines (zip_child_iterator tie) (pre ∘ pre_adapter depth) (fun _ v => v) (fun _ v => v)
    (fun _ v => v) pair_size pair_size_child (S (pair_size p)) [p] v) as [k Hk]; [repeat constructor; lia|].
  exists k. intros fuel Hf. specialize (Hk fuel Hf). unfold reference_search in Hk. unfold visit_pairs.
  transitivity (adapted_search (zip_child_iterator tie) (pre ∘ pre_adapter depth) (fun _ v => v) (fun _ v => v)
    (fun _ v => v) fuel [p] v); [by destruct depth as [| | |[]]|]. rewrite Hk.
  destruct (visit_all _ _ _ _ _ _ _ _ _) as [|path w]; [done|]. by rewrite unwind_nothing.
Qed.

Lemma visit_pairs_nil {V} (pre : list (option pair_node) -> V -> step * V) depth fuel ancestors v :
  visit_pairs pre depth fuel ancestors [] v = Complete v.
Proof using Type. apply visit_all_nil. Qed.

Lemma visit_pairs_cons {V} (pre : list (option pair_node) -> V -> step * V) depth fuel ancestors p ps v :
  visit_pairs pre depth (S fuel) ancestors (p :: ps) v =
  let '(st, v) := pre (pre_adapter depth (Some <$> (ancestors ++ [p]))) v in
  match match st with
        | out => Stopped (ancestors ++ [p]) v
        | over => Complete v
        | into => visit_pairs pre depth fuel (ancestors ++ [p]) (zip_child_iterator tie p) v
        end with
  | Stopped p v => Stopped p v
  | Complete v => visit_pairs pre depth (S fuel) ancestors ps v
  end.
Proof using Type. unfold visit_pairs. by rewrite visit_all_pre. Qed.

(** ** Lemmas: children in correspondence *)

(** The pairs of children are all complete and related exactly when the children of the two nodes can
    be matched one to one, when the relation holds between nodes of the same name only. *)
Definition both (R : node -> node -> Prop) (p : pair_node) : Prop :=
  match p with (Some a, Some b) => R a b | _ => False end.

Lemma zip_with_both (R : node -> node -> Prop) x y :
  length x = length y -> Forall (both R) (zip_with (fun a b => (Some a, Some b)) x y) <-> Forall2 R x y.
Proof using Type.
  revert y. induction x as [|a x IH]; intros [|b y] Hl; try done.
  cbn. rewrite Forall_cons, Forall2_cons, IH by (cbn in Hl; lia). done.
Qed.

Lemma common_all x y : (forall a, a ∈ x -> exists b, b ∈ y /\ get_name a = get_name b) ->
  common less_by_name x y = x /\ proper less_by_name x y = [].
Proof using Type.
  intros H. induction x as [|a x IH]; [done|]. rewrite common_cons, proper_cons.
  destruct IH as [-> ->]; [intros c Hc; apply H; by right|]. destruct (H a ltac:(left)) as (b & Hb & E).
  replace (existsb (eqv less_by_name a) y) with true; [done|]. symmetry. apply existsb_exists. exists b.
  by rewrite <- list_elem_of_In, eqv_name.
Qed.

Lemma proper_not_in x y a b : a ∈ proper less_by_name x y -> b ∈ y -> get_name a <> get_name b.
Proof using Type.
  intros Ha Hb E. apply list_elem_of_In, List.filter_In in Ha as [_ Ha%negb_true_iff].
  apply not_true_iff_false in Ha. apply Ha, existsb_exists. exists b. by rewrite <- list_elem_of_In, eqv_name.
Qed.

Lemma proper_sub x y a : a ∈ proper less_by_name x y -> a ∈ x.
Proof using Type. rewrite !list_elem_of_In. intros Ha. by apply List.filter_In in Ha as [? _]. Qed.

Lemma common_of_proper x y : proper less_by_name x y = [] -> common less_by_name x y = x.
Proof using Type.
  induction x as [|a x IH]; [done|]. rewrite common_cons, proper_cons. destruct (existsb _ _); [|done]. intros H.
  by rewrite IH.
Qed.

Lemma proper_pairs_nil (R : node -> node -> Prop) x y :
  (forall a b, R a b -> get_name a = get_name b) ->
  Forall (both R) (map (fun i => (proper less_by_name x y !! i, proper less_by_name y x !! i))
    (seq 0 (Nat.max (length (proper less_by_name x y)) (length (proper less_by_name y x))))) ->
  proper less_by_name x y = [] /\ proper less_by_name y x = [].
Proof using Type.
  intros HR Hd. set (m := Nat.max _ _) in Hd. destruct (decide (m = 0%nat)) as [Hm|Hm].
  { split; apply nil_length_inv; lia. }
  exfalso. rewrite Forall_lookup in Hd. specialize (Hd 0%nat). rewrite lookup_map, lookup_seq_lt in Hd by lia.
  specialize (Hd _ eq_refl). unfold both in Hd. cbn [Nat.add] in Hd.
  destruct (proper less_by_name x y !! 0%nat) as [a|] eqn:Ea, (proper less_by_name y x !! 0%nat) as [b|] eqn:Eb; try done.
  apply list_elem_of_lookup_2 in Ea, Eb. apply HR in Hd. apply (proper_not_in x y a b Ea); [by eapply proper_sub|done].
Qed.

Lemma common_length x y :
  ascending less_by_name x -> ascending less_by_name y ->
  length (common less_by_name x y) = length (common less_by_name y x).
Proof using Type.
  intros Hx Hy. pose proof (scan_loop_length less_by_name (length x + length y) x y (Scan4 [] [] [] []) eq_refl) as Hl.
  cbv zeta in Hl. fold (set_intersection_difference x y less_by_name) in Hl.
  by rewrite (set_intersection_difference_spec less_by_name less_by_name_trans less_by_name_weak) in Hl.
Qed.

Lemma ascending_same_names x y :
  Forall2 (fun a b => get_name a = get_name b) x y -> ascending less_by_name x -> ascending less_by_name y.
Proof using Type.
  unfold ascending. induction 1 as [|a b x y Hab Hxy IH]; intros Hx; [constructor|].
  apply StronglySorted_inv in Hx as [Hx Ha]. constructor; [by apply IH|]. clear IH Hx.
  induction Hxy as [|c d x y Hcd _ IH]; constructor; apply Forall_cons in Ha as [Hc Ha]; [|by apply IH].
  unfold less_by_name in *. congruence.
Qed.

Lemma less_by_name_asym a b : less_by_name a b = true -> less_by_name b a = true -> False.
Proof using Type.
  intros H1 H2. pose proof (less_by_name_trans _ _ _ H1 H2) as H3. unfold less_by_name in H3.
  rewrite ltb_leb in H3. pose proof (String.leb_total (get_name a) (get_name a)) as [E|E]; by rewrite E in H3.
Qed.

Lemma zip_children_perm (R : node -> node -> Prop) n1 n2 :
  wf n1 -> wf n2 -> (forall a b, R a b -> get_name a = get_name b) ->
  Forall (both R) (zip_child_iterator tie (Some n1, Some n2)) <->
  exists c2, c2 ≡ₚ get_children n2 /\ Forall2 R (get_children n1) c2.
Proof using Type.
  intros W1 W2 HR. rewrite zip_children_eq by done. cbv zeta. cbn [fst snd].
  pose proof (wf_children _ W1) as [N1 _]. pose proof (wf_children _ W2) as [N2 _].
  pose proof (sorted_children_perm n1 N1) as P1. pose proof (sorted_children_perm n2 N2) as P2.
  pose proof (sorted_children_ascending n1 N1) as A1. pose proof (sorted_children_ascending n2 N2) as A2.
  pose proof (common_length _ _ A1 A2) as Hlen.
  set (x := _get_sorted_children tie (Some n1)) in *. set (y := _get_sorted_children tie (Some n2)) in *. clearbody x y.
  rewrite Forall_app. split.
  - intros [Hc Hd]. destruct (proper_pairs_nil R x y HR Hd) as [E1 E2].
    apply common_of_proper in E1, E2. rewrite E1, E2 in *. apply (zip_with_both R) in Hc; [|done].
    destruct (Permutation_Forall2 P1 Hc) as (c2 & Hp & Hf). exists c2. split; [by rewrite <- Hp|done].
  - intros (c2 & Hp & Hf). symmetry in P1. destruct (Permutation_Forall2 P1 Hf) as (c3 & Hp3 & Hf3).
    assert (Hy : c3 = y).
    { apply (StronglySorted_unique_strong (fun a b => less_by_name a b = true)).
      - intros a b _ _ H1 H2. exfalso. by eapply less_by_name_asym.
      - eapply ascending_same_names; [|exact A1]. eapply Forall2_impl; [exact Hf3|]. apply HR.
      - done.
      - by rewrite <- Hp3, Hp, P2. }
    subst c3. assert (C1 : common less_by_name x y = x /\ proper less_by_name x y = []).
    { apply common_all. intros a Ha. apply list_elem_of_lookup in Ha as [i Ha].
      destruct (Forall2_lookup_l _ _ _ _ _ Hf3 Ha) as (b & Hb & Hr). exists b.
      split; [by eapply list_elem_of_lookup_2|by apply HR]. }
    assert (C2 : common less_by_name y x = y /\ proper less_by_name y x = []).
    { apply common_all. intros b Hb. apply list_elem_of_lookup in Hb as [i Hb].
      destruct (Forall2_lookup_r _ _ _ _ _ Hf3 Hb) as (a & Ha & Hr). exists a.
      split; [by eapply list_elem_of_lookup_2|symmetry; by apply HR]. }
    destruct C1 as [-> ->], C2 as [-> ->]. split; [|constructor]. apply zip_with_both; [by eapply Forall2_length|done].
Qed.

End zip_lemmas.

(** ** The same trees *)

Section same_tree.
Context `{ArrayEqual} (isclose : Z -> Z -> bool) (type_tol : bool) (tie : node -> node -> bool).

(** Two trees are the same when their roots are and when their children are the same up to their order. *)
Inductive same_tree : node -> node -> Prop :=
| same_tree_intro n1 n2 c2 :
    is_same_node isclose n1 n2 type_tol = Ret true ->
    c2 ≡ₚ get_children n2 -> Forall2 same_tree (get_children n1) c2 -> same_tree n1 n2.

Lemma same_tree_name a b : same_tree a b -> get_name a = get_name b.
Proof using Type.
  destruct 1 as [n1 n2 c2 Hs _ _]. unfold is_same_node, is_same_name in Hs.
  destruct (bool_decide_reflect (get_name n1 = get_name n2)); [done|]. cbn in Hs. congruence.
Qed.

Lemma same_tree_children n1 n2 :
  wf n1 -> wf n2 ->
  same_tree n1 n2 <-> is_same_node isclose n1 n2 type_tol = Ret true /\
    Forall (both same_tree) (zip_child_iterator tie (Some n1, Some n2)).
Proof using Type.
  intros W1 W2. rewrite (zip_children_perm tie same_tree) by (try done; apply same_tree_name). split.
  - destruct 1 as [n1 n2 c2 Hs Hp Hf]. split; [done|]. by exists c2.
  - intros [Hs (c2 & Hp & Hf)]. by apply (same_tree_intro n1 n2 c2).
Qed.

Local Abbreviation visit := (visit_pairs tie (same_tree_pre isclose type_tol) node_depth).

Lemma node_adapter (ancestors : list pair_node) p :
  last (pre_adapter node_depth (Some <$> (ancestors ++ [p]))) = Some (Some p).
Proof using Type.
  cbn. unfold _ancestors_list. rewrite fmap_app. cbn. rewrite length_app. cbn.
  rewrite Nat.add_sub, drop_app_length'; [done|]. by rewrite length_fmap.
Qed.

Lemma same_pre_eq ancestors p v :
  same_tree_pre isclose type_tol (pre_adapter node_depth (Some <$> (ancestors ++ [p]))) v =
  match p with
  | (Some n0, Some n1) =>
      match is_same_node isclose n0 n1 type_tol with
      | Ret true => (into, v) | Ret false => (out, Ret false) | Raise e => (out, Raise e)
      end
  | _ => (out, Ret false)
  end.
Proof using Type. unfold same_tree_pre. rewrite node_adapter. by destruct p as [[] []]. Qed.

(** The visit of pairs is complete exactly when the pairs are the same. *)
Lemma same_visit fuel ancestors ps :
  Forall (fun p => pair_size p < fuel)%nat ps -> Forall wf_pair ps ->
  (Forall (both same_tree) ps /\ visit fuel ancestors ps (Ret true) = Complete (Ret true)) \/
  (~ Forall (both same_tree) ps /\ exists path v, visit fuel ancestors ps (Ret true) = Stopped path v /\ v <> Ret true).
Proof using Type.
  revert ancestors ps. induction fuel as [|fuel IH]; intros ancestors ps Hf Hw.
  { destruct ps as [|p ps]; [left; by rewrite visit_pairs_nil|]. apply Forall_cons in Hf as [? _]. lia. }
  induction ps as [|p ps IHps]; [left; by rewrite visit_pairs_nil|]. apply Forall_cons in Hf as [Hp Hf], Hw as [Wp Hw].
  specialize (IHps Hf Hw). rewrite visit_pairs_cons, same_pre_eq.
  assert (Hstop : forall v, v <> Ret true -> ~ both same_tree p ->
    (~ Forall (both same_tree) (p :: ps) /\
     exists path v', @Stopped pair_node _ (ancestors ++ [p]) v = Stopped path v' /\ v' <> Ret true)).
  { intros v Hv Hn. split; [by rewrite Forall_cons; tauto|]. by eexists _, _. }
  pose proof (IH (ancestors ++ [p]) (zip_child_iterator tie p)) as IHp.
  destruct p as [[n1|] [n2|]]; [|right; apply Hstop; [done|by intros []]..].
  destruct Wp as [W1 W2]. cbn in W1, W2. pose proof (same_tree_children n1 n2 W1 W2) as Hsame.
  destruct (is_same_node isclose n1 n2 type_tol) as [[]|e] eqn:Es;
    [|right; apply Hstop; [done|]; cbn; intros Ht; apply Hsame in Ht; naive_solver..].
  destruct IHp as [[Hall Hv]|[Hn Hv]].
  { apply Forall_forall. intros c Hc%pair_size_child. lia. }
  { apply Forall_forall. intros c Hc. by apply (zip_children_wf tie (Some n1, Some n2)). }
  - assert (Hboth : both same_tree (Some n1, Some n2)) by (cbn; by apply Hsame).
    cbv beta iota. rewrite Hv, Forall_cons. destruct IHps as [[Hps Hv']|[Hps Hv']]; [left; tauto|right; tauto].
  - right. rewrite Forall_cons. split; [intros [Hb _]; cbn in Hb; apply Hsame in Hb; tauto|].
    destruct Hv as (path & v & Hv & Hne). exists path, v. cbv beta iota. by rewrite Hv.
Qed.

Lemma same_tree_search t1 t2 :
  wf t1 -> wf t2 ->
  exists k, forall fuel, (k <= fuel)%nat ->
    (same_tree t1 t2 /\ is_same_tree isclose tie fuel t1 t2 type_tol = Ret true) \/
    (~ same_tree t1 t2 /\ is_same_tree isclose tie fuel t1 t2 type_tol <> Ret true).
Proof using Type.
  intros W1 W2. destruct (zip_search_visits tie (Some t1, Some t2) (same_tree_pre isclose type_tol) (Ret true) node_depth)
    as [k Hk]; [done|]. exists k. intros fuel Hf. unfold is_same_tree. rewrite (Hk fuel Hf). cbn [mbind py_bind].
  destruct ((fun p => same_visit (S (pair_size p)) [] [p]) (Some t1, Some t2))
    as [[Hs ->]|[Hs (path & v & -> & Hv)]]; [repeat constructor; lia|by repeat constructor|left|right].
  - split; [|done]. by apply Forall_cons in Hs as [? _].
  - split; [intros Ht; apply Hs; by repeat constructor|done].
Qed.
End same_tree.


(** Arrays of floats are compared after broadcasting, not by their length: an array with one value is
    the same as any array that repeats it, and two arrays whose shapes cannot be broadcast make the
    comparison raise instead of returning False. *)
Theorem is_same_value_broadcasts `{ArrayEqual} isclose type_tol name label x n :
  0 <= n -> isclose x x = true ->
  is_same_node isclose (Node name (Some (NpArray T_R8 [1] true [x])) [] label)
    (Node name (Some (NpArray T_R8 [n] true (replicate (Z.to_nat n) x))) [] label) type_tol = Ret true /\
  is_same_node isclose (Node name (Some (NpArray T_R8 [2] true [x; x])) [] label)
    (Node name (Some (NpArray T_R8 [3] true [x; x; x])) [] label) type_tol = Raise ValueError.
Proof.
  intros Hn Hx. unfold is_same_node, is_same_name, is_same_label, is_same_value, is_same_value_type.
  cbn [get_name get_label get_raw]. rewrite !(bool_decide_eq_true_2 (name = name)), !(bool_decide_eq_true_2 (label = label)) by done.
  split; [|by destruct type_tol].
  change (get_value_type _) with "R8". change (get_value_kind _) with "R".
  replace (negb (if negb type_tol then _ else _)) with false by by destruct type_tol.
  cbn [andb is_float a_type]. change (bool_decide (T_R8 ∈ [T_R4; T_R8])) with true. unfold allclose. cbn [a_shape].
  assert (Hs : broadcast_shape [1] [n] = Ret [n]).
  { unfold broadcast_shape. cbn. case_bool_decide; [by subst|]. done. }
  rewrite Hs. cbn [mbind py_bind]. f_equal. apply forallb_forall. intros idx Hidx. cbn in Hidx. rewrite app_nil_r in Hidx.
  apply list_elem_of_In, list_elem_of_fmap in Hidx as (i & -> & Hi%elem_of_arange).
  unfold broadcast_get. cbn [a_shape a_data length Nat.sub drop offset_of]. cbn.
  rewrite lookup_replicate_2; [done|]. case_bool_decide; lia.
Qed.

Lemma is_same_value_broadcasts_witness :
  @is_same_node (fun v w => bool_decide (v = w)) Z.eqb (Node "A" (Some (NpArray T_R8 [1] true [7])) [] "DataArray_t")
    (Node "A" (Some (NpArray T_R8 [4] true [7; 7; 7; 7])) [] "DataArray_t") false = Ret true.
Proof.
  apply (@is_same_value_broadcasts (fun v w => bool_decide (v = w)) Z.eqb false "A" "DataArray_t" 7 4); [lia|reflexivity].
Defined.


(** ** The reports of differences *)

Lemma append_empty (a b : string) : a +:+ b = "" <-> a = "" /\ b = "".
Proof. destruct a; [by split; [|intros [_ ?]]|]. split; [discriminate|by intros [? _]]. Qed.

Lemma append_assoc (a b c : string) : (a +:+ b) +:+ c = a +:+ b +:+ c.
Proof. induction a as [|x a IH]; [done|]. exact (f_equal (String x) IH). Qed.

Lemma string_app_nil (a : string) : a +:+ "" = a.
Proof. induction a as [|x a IH]; [done|]. exact (f_equal (String x) IH). Qed.

Lemma same_type_values n0 n1 strict :
  is_same_value_type n0 n1 strict = true ->
  (get_raw n0 = None /\ get_raw n1 = None) \/ (is_Some (get_raw n0) /\ is_Some (get_raw n1)).
Proof.
  unfold is_same_value_type, get_value_type, get_value_kind. intros H.
  destruct (get_raw n0) as [[t0 ? ? ?]|], (get_raw n1) as [[t1 ? ? ?]|]; [by right; eauto|exfalso..|by left];
    destruct strict; apply bool_decide_eq_true in H; [destruct t0|destruct t0|destruct t1|destruct t1]; discriminate H.
Qed.

(** What a comparison function owes to its callers: it returns, and its error report is empty when the
    values agree and only then. *)
Class LawfulComparison (comp : comparison) : Prop :=
  comp_law stack : exists ok err warn, comp_run comp stack = Ret (ok, err, warn) /\ (ok = true <-> err = "").

Section diff_tree.
Context (strict : bool) (comp : comparison) `{!LawfulComparison comp}.

(** The two nodes have nothing to report under the given ancestors. *)
Definition no_difference (ancestors : list (node * node)) (n1 n2 : node) : Prop :=
  get_name n1 = get_name n2 /\ get_label n1 = get_label n2 /\ is_same_value_type n1 n2 strict = true /\
  exists err warn, value_comparison_report (ancestors ++ [(n1, n2)]) comp = Ret (true, err, warn).

Inductive agree (ancestors : list (node * node)) : node -> node -> Prop :=
| agree_intro n1 n2 c2 :
    no_difference ancestors n1 n2 -> c2 ≡ₚ get_children n2 ->
    Forall2 (agree (ancestors ++ [(n1, n2)])) (get_children n1) c2 -> agree ancestors n1 n2.

Lemma value_report_law ancestors n1 n2 :
  is_same_value_type n1 n2 strict = true ->
  exists ok err warn, value_comparison_report (ancestors ++ [(n1, n2)]) comp = Ret (ok, err, warn) /\ (ok = true <-> err = "").
Proof using LawfulComparison0.
  intros Ht. unfold value_comparison_report. rewrite last_snoc.
  destruct (same_type_values _ _ _ Ht) as [[-> ->]|[[a ->] [b ->]]]; [by exists true, "", ""|]. apply comp_law.
Qed.

Lemma diff_present_spec ancestors n0 n1 path :
  exists st b e w, diff_present ancestors n0 n1 path strict comp = Ret (st, (b, e, w)) /\
    (b = true <-> e = "") /\ (b = true <-> no_difference ancestors n0 n1) /\
    ((st = over /\ b = false) \/ (st = into /\ get_name n0 = get_name n1)).
Proof using LawfulComparison0.
  unfold diff_present, is_same_name, is_same_label, no_difference.
  destruct (bool_decide_reflect (get_name n0 = get_name n1)) as [En|En]; cbn [negb].
  2: { do 4 eexists. split; [done|]. split; [by split|]. split; [split; [done|tauto]|by left]. }
  destruct (bool_decide_reflect (get_label n0 = get_label n1)) as [El|El]; cbn [negb].
  2: { do 4 eexists. split; [done|]. split; [split; [done|]; intros [_ [_ [H _]%append_empty]%append_empty]%append_empty; done|].
       split; [split; [done|tauto]|by right]. }
  destruct (is_same_value_type n0 n1 strict) eqn:Et; cbn [negb].
  2: { do 4 eexists. split; [done|]. split; [split; [done|]; intros [_ [_ [H _]%append_empty]%append_empty]%append_empty; done|].
       split; [split; [done|intros (_ & _ & ? & _); done]|by right]. }
  destruct (value_report_law ancestors n0 n1 Et) as (ok & err & warn & E & Hlaw). rewrite E. cbn [mbind py_bind].
  do 4 eexists. split; [done|]. split.
  { rewrite Hlaw. case_bool_decide as Hm; [|tauto]. split; [done|].
    intros [_ [_ [H _]%append_empty]%append_empty]%append_empty. discriminate H. }
  split; [|by right]. split; [intros ->; split_and!; eauto|]. intros (_ & _ & _ & e' & w' & E'). congruence.
Qed.

Definition pair_some (p : node * node) : pair_node := (Some p.1, Some p.2).
Definition pairs_of (ancestors : list (node * node)) : list pair_node := map pair_some ancestors.
Definition same_names (ancestors : list (node * node)) : Prop := Forall (fun '(a, b) => get_name a = get_name b) ancestors.

Lemma stack_pairs_of ancestors : stack_pairs (Some <$> pairs_of ancestors) = Ret ancestors.
Proof using Type. apply py_mapM_Ret. induction ancestors as [|[a b] l IH]; constructor; [done|exact IH]. Qed.

Lemma zip_path_returns path ancestors : same_names ancestors -> exists s, zip_path_loop path ancestors = Ret s.
Proof using Type.
  intros H. revert path. induction H as [|[a b] l Hab _ IH]; intros path; cbn; [by eexists|].
  rewrite bool_decide_eq_true_2 by done. apply IH.
Qed.

Lemma diff_nodes_eq ancestors p :
  same_names ancestors ->
  exists path, diff_nodes (Some <$> (pairs_of ancestors ++ [p])) strict comp =
    match p with
    | (None, Some n1) => Ret (over, (false, "> " +:+ path +:+ get_name n1 +:+ newline, ""))
    | (Some n0, None) => Ret (over, (false, "< " +:+ path +:+ get_name n0 +:+ newline, ""))
    | (Some n0, Some n1) => diff_present ancestors n0 n1 path strict comp
    | (None, None) => Raise TypeError
    end.
Proof using Type.
  intros Hn. destruct (zip_path_returns "/" ancestors Hn) as [path E]. exists path. unfold diff_nodes, _zip_path.
  rewrite fmap_app. cbn [fmap list_fmap]. rewrite length_app. cbn [length]. rewrite Nat.add_sub.
  rewrite take_app_length, stack_pairs_of, last_snoc. cbn [mbind py_bind]. rewrite E. by destruct p as [[] []].
Qed.

Context (tie : node -> node -> bool).

Lemma agree_children ancestors n1 n2 :
  wf n1 -> wf n2 ->
  agree ancestors n1 n2 <-> no_difference ancestors n1 n2 /\
    Forall (both (agree (ancestors ++ [(n1, n2)]))) (zip_child_iterator tie (Some n1, Some n2)).
Proof using Type.
  intros W1 W2. rewrite (zip_children_perm tie (agree (ancestors ++ [(n1, n2)]))); [|done..|]; cycle 1.
  { by destruct 1 as [? ? ? [? _] _ _]. }
  split; [by destruct 1 as [n1 n2 c2 Hs Hp Hf]; eauto|]. intros [Hs (c2 & Hp & Hf)]. by apply (agree_intro ancestors n1 n2 c2).
Qed.

(** The search is complete; its report is that of the pairs. *)
Lemma diff_visit fuel ancestors ps ok err warn :
  Forall (fun p => pair_size p < fuel)%nat ps -> Forall wf_pair ps -> Forall (fun p => is_Some p.1 \/ is_Some p.2) ps ->
  same_names ancestors ->
  exists b e w, visit_pairs tie (diff_tree_pre strict comp) all_depth fuel (pairs_of ancestors) ps (Ret (ok, err, warn)) =
    Complete (Ret (ok && b, err +:+ e, warn +:+ w)) /\
    (b = true <-> e = "") /\ (b = true <-> Forall (both (agree ancestors)) ps).
Proof using LawfulComparison0.
  revert ancestors ps ok err warn. induction fuel as [|fuel IH]; intros ancestors ps ok err warn Hf Hw Hs Hn.
  { destruct ps as [|p ps]; [|apply Forall_cons in Hf as [? _]; lia]. exists true, "", "".
    rewrite visit_pairs_nil, andb_true_r, !string_app_nil. by repeat split. }
  revert ok err warn. induction ps as [|p ps IHps]; intros ok err warn.
  { exists true, "", "". rewrite visit_pairs_nil, andb_true_r, !string_app_nil. by repeat split. }
  apply Forall_cons in Hf as [Hp Hf], Hw as [Wp Hw], Hs as [Sp Hs]. specialize (IHps Hf Hw Hs).
  rewrite visit_pairs_cons. cbn [pre_adapter]. unfold diff_tree_pre at 1. cbn [id].
  destruct (diff_nodes_eq ancestors p Hn) as [path ->].
  assert (Hrest : forall bi ei wi, (bi = true <-> ei = "") -> (bi = true <-> both (agree ancestors) p) ->
    exists b e w, visit_pairs tie (diff_tree_pre strict comp) all_depth (S fuel) (pairs_of ancestors) ps
      (Ret (ok && bi, err +:+ ei, warn +:+ wi)) = Complete (Ret (ok && b, err +:+ e, warn +:+ w)) /\
      (b = true <-> e = "") /\ (b = true <-> Forall (both (agree ancestors)) (p :: ps))).
  { intros bi ei wi He Hb. destruct (IHps (ok && bi) (err +:+ ei) (warn +:+ wi)) as (b & e & w & -> & H1 & H2).
    exists (bi && b), (ei +:+ e), (wi +:+ w). rewrite !append_assoc, andb_assoc. split; [done|].
    rewrite append_empty, Forall_cons, <- He, <- Hb, <- H1, <- H2, andb_true_iff. tauto. }
  pose proof (IH (ancestors ++ (match p with (Some a, Some b) => [(a, b)] | _ => [] end)) (zip_child_iterator tie p)) as IHp.
  destruct p as [[n0|] [n1|]]; [|apply Hrest; by split..|by destruct Sp as [[? ?]|[? ?]]].
  destruct Wp as [W0 W1]. cbn in W0, W1. pose proof (agree_children ancestors n0 n1 W0 W1) as Hag.
  destruct (diff_present_spec ancestors n0 n1 path) as (st & b & e & w & -> & He & Hb & Hst). cbv beta iota.
  destruct Hst as [[-> ->]|[-> Hname]].
  { apply Hrest; [done|]. cbn. rewrite Hag, <- Hb. by split; [|intros [? _]]. }
  destruct (IHp (ok && b) (err +:+ e) (warn +:+ w)) as (bi & ei & wi & Hv & H1 & H2).
  { apply Forall_forall. intros c Hc%pair_size_child. lia. }
  { apply Forall_forall. intros c Hc. by apply (zip_children_wf tie (Some n0, Some n1)). }
  { apply Forall_forall. intros c Hc. by apply (zip_children_from tie (Some n0, Some n1)). }
  { apply Forall_app. split; [done|by repeat constructor]. }
  unfold pairs_of in Hv. rewrite map_app in Hv. fold (pairs_of ancestors) in Hv. cbn [map] in Hv.
  change (pair_some (n0, n1)) with (Some n0, Some n1) in Hv. rewrite Hv.
  rewrite <- andb_assoc, !append_assoc. apply Hrest.
  - rewrite andb_true_iff, append_empty, He, H1. done.
  - cbn. rewrite Hag, andb_true_iff, Hb, H2. done.
Qed.
End diff_tree.

(** For trees whose siblings have different names and a comparison function that keeps its promise, the
    report of differences is always returned; the trees are reported as identical exactly when nothing
    differs: names, labels, types and values, up to the order of the children; and the error report is
    empty in this case only. *)
Theorem diff_tree_spec tie t1 t2 strict comp `{!LawfulComparison comp} :
  wf t1 -> wf t2 ->
  exists k, forall fuel, (k <= fuel)%nat -> exists ok err warn,
    diff_tree tie fuel t1 t2 strict comp = Ret (ok, err, warn) /\
    (ok = true <-> err = "") /\ (ok = true <-> agree strict comp [] t1 t2).
Proof.
  intros W1 W2. destruct (zip_search_visits tie (Some t1, Some t2) (diff_tree_pre strict comp) (Ret (true, "", "")) all_depth)
    as [k Hk]; [done|]. exists k. intros fuel Hf. unfold diff_tree. rewrite (Hk fuel Hf). cbn [mbind py_bind].
  destruct ((fun p => diff_visit strict comp tie (S (pair_size p)) [] [p] true "" "") (Some t1, Some t2))
    as (b & e & w & Hv & H1 & H2); [repeat constructor; lia|by repeat constructor|repeat constructor; by eexists|constructor|].
  change (pairs_of []) with (@nil pair_node) in Hv. rewrite Hv. exists b, e, w. split; [done|]. split; [done|].
  rewrite H2, Forall_cons. cbn. split; [tauto|]. intros. split; [done|constructor].
Qed.

(** A comparison of the raw values, with a fixed message. *)
Definition raw_comparison : comparison :=
  Comparison (fun stack => match last stack with
                           | Some (n0, n1) => if bool_decide (get_raw n0 = get_raw n1) then Ret (true, "", "") else Ret (false, "values", "")
                           | None => Ret (true, "", "")
                           end) None.
#[export] Instance raw_comparison_lawful : LawfulComparison raw_comparison.
Proof.
  intros stack. cbn. destruct (last stack) as [[n0 n1]|]; [|by exists true, "", ""].
  case_bool_decide; [by exists true, "", ""|]. exists false, "values", "". by split.
Qed.

Lemma diff_tree_spec_witness :
  let t v := Node "T" None [Node "A" (Some (NpArray T_I4 [1] true [v])) [] "DataArray_t"] "UserDefinedData_t" in
  exists fuel ok err warn, diff_tree (fun _ _ => false) fuel (t 1) (t 2) true raw_comparison = Ret (ok, err, warn) /\
    (ok = true <-> err = "") /\ ok = false.
Proof.
  cbn zeta. destruct (diff_tree_spec (fun _ _ => false)
    (Node "T" None [Node "A" (Some (NpArray T_I4 [1] true [1])) [] "DataArray_t"] "UserDefinedData_t")
    (Node "T" None [Node "A" (Some (NpArray T_I4 [1] true [2])) [] "DataArray_t"] "UserDefinedData_t") true raw_comparison) as [k Hk].
  - repeat constructor; set_solver.
  - repeat constructor; set_solver.
  - destruct (Hk k (le_n k)) as (ok & err & warn & E & H1 & H2). exists k, ok, err, warn. split; [exact E|]. split; [exact H1|].
    apply not_true_iff_false. intros Hok. apply H2 in Hok. inversion Hok as [? ? c2 _ Hp Hf]; subst.
    cbn in Hf, Hp. inversion Hf as [|? ? ? ? Ha Hnil]; subst. inversion Hnil; subst. apply Permutation_singleton_inj in Hp. subst.
    inversion Ha as [? ? ? [_ (_ & _ & e & w & Hv)] _ _]; subst. vm_compute in Hv. discriminate Hv.
Defined.

(** All ranks get the same answer, which tells whether the arrays are equal on every rank; only the first
    rank has a message, when they are not, and it counts the different values of large arrays. *)
Theorem equal_array_report_spec np_str comm :
  Forall (fun xr => length xr.1 = length xr.2) comm ->
  exists reports, equal_array_report np_str comm = Ret reports /\ length reports = length comm /\
    forall i ok err warn, reports !! i = Some (ok, err, warn) ->
      (ok = true <-> Forall (fun xr => xr.1 = xr.2) comm) /\ warn = "" /\
      (err <> "" <-> ok = false /\ i = 0%nat) /\
      (err <> "" -> 10 <= zsum (map (fun xr => zlen xr.1) comm) ->
       err = Conventions.str_int (zsum (map (fun xr => zlen xr.1 - count_equal xr.1 xr.2) comm)) +:+ " values are different").
Proof.
  intros Hl. unfold equal_array_report. destruct (forallb _ comm) eqn:E.
  { eexists. split; [done|]. split; [by rewrite length_map|]. intros i ok err warn.
    rewrite lookup_map. intros (xr & _ & [= -> -> ->])%fmap_Some. split; [|by naive_solver]. split; [intros _|done].
    rewrite forallb_forall in E. apply Forall_forall. intros [x r] Hx. apply list_elem_of_In, E in Hx.
    by apply bool_decide_eq_true in Hx. }
  assert (Hne : ~ Forall (fun xr => xr.1 = xr.2) comm).
  { intros H. apply not_true_iff_false in E. apply E, forallb_forall. intros [x r] Hx%list_elem_of_In.
    rewrite Forall_forall in H. apply bool_decide_eq_true_2. exact (H _ Hx). }
  assert (Hroot : forall msg : string, msg <> "" ->
    (10 <= zsum (map (fun xr => zlen xr.1) comm) -> msg = Conventions.str_int (zsum (map (fun xr => zlen xr.1 - count_equal xr.1 xr.2) comm))
       +:+ " values are different") ->
    exists reports, Ret (imap (fun i _ => (false, if bool_decide (i = O) then msg else "", "")) comm) = Ret reports /\
      length reports = length comm /\ forall i ok err warn, reports !! i = Some (ok, err, warn) ->
      (ok = true <-> Forall (fun xr => xr.1 = xr.2) comm) /\ warn = "" /\ (err <> "" <-> ok = false /\ i = 0%nat) /\
      (err <> "" -> 10 <= zsum (map (fun xr => zlen xr.1) comm) ->
       err = Conventions.str_int (zsum (map (fun xr => zlen xr.1 - count_equal xr.1 xr.2) comm)) +:+ " values are different")).
  { intros msg Hm Hc. eexists. split; [done|]. split; [apply length_imap|]. intros i ok err warn.
    rewrite list_lookup_imap. intros (xr & _ & [= -> -> ->])%fmap_Some. case_bool_decide; subst; naive_solver. }
  destruct (Z.ltb_spec (zsum (map (fun xr => zlen xr.1) comm)) 10) as [Hlt|Hge].
  { apply Hroot; [|lia]. intros [_ [H _]%append_empty]%append_empty. discriminate H. }
  rewrite (py_mapM_lookup _ comm (map (fun xr => count_equal xr.1 xr.2) comm)).
  - cbn [mbind py_bind]. apply Hroot; [by intros [_ H]%append_empty|]. intros _. do 2 f_equal.
    clear. induction comm as [|xr comm IH]; [done|]. cbn [map]. rewrite !zsum_cons, <- IH. lia.
  - apply length_map.
  - intros i [x r] y Hx. rewrite lookup_map, Hx. intros [= <-]. unfold n_equal. rewrite bool_decide_eq_true_2; [done|].
    rewrite Forall_lookup in Hl. exact (Hl _ _ Hx).
Qed.

Lemma equal_array_report_spec_witness :
  exists reports, equal_array_report (fun _ => "[]") [([0; 1; 2; 4; 5; 6; 7], [9; 1; 2; 4; 5; 6; 7]); ([8; 9; 10; 11], [8; 9; 10; 99])] = Ret reports /\
    length reports = 2%nat /\ reports = [(false, "2 values are different", ""); (false, "", "")].
Proof.
  destruct (equal_array_report_spec (fun _ => "[]") [([0; 1; 2; 4; 5; 6; 7], [9; 1; 2; 4; 5; 6; 7]); ([8; 9; 10; 11], [8; 9; 10; 99])])
    as (reports & E & Hl & _); [repeat constructor|].
  exists reports. split; [exact E|]. split; [exact Hl|]. vm_compute in E. by injection E as <-.
Defined.

End Compare.
