(* ===== verification/PyFloat.v ===== *)
(** * Floats of Python and numpy

    Double precision as the specification floats of the standard library: one rounding to the nearest
    for each operation.  [truediv] is the division of Python integers, [np_div] the one of numpy, which
    gives an infinity or a NaN instead of raising. *)
From Stdlib Require Import SpecFloat.
From S2P Require Import Prelude.
Open Scope Z_scope.

Module PyFloat.

Definition float : Set := spec_float.
Definition prec : Z := 53.
Definition emax : Z := 1024.
Definition of_int (z : Z) : float := binary_normalize prec emax z 0 false.
Definition fadd : float -> float -> float := SFadd prec emax.
Definition fmul : float -> float -> float := SFmul prec emax.
Definition fdiv : float -> float -> float := SFdiv prec emax.
Definition half : float := fdiv (of_int 1) (of_int 2).

(** Division of integers: exact up to one rounding below 2^53. *)
Definition truediv (a b : Z) : py float :=
  if b =? 0 then Raise ZeroDivisionError else Ret (fdiv (of_int a) (of_int b)).
(** [int(x)], towards zero. *)
Definition to_int (x : float) : py Z :=
  match x with
  | S754_zero _ => Ret 0
  | S754_finite s m e =>
      let a := if 0 <=? e then Zpos m * 2 ^ e else Zpos m / 2 ^ (- e) in
      Ret (if s then - a else a)
  | S754_infinity _ => Raise OverflowError
  | S754_nan => Raise ValueError
  end.
(** Division of Python floats. *)
Definition float_div (a b : float) : py float :=
  match b with S754_zero _ => Raise ZeroDivisionError | _ => Ret (fdiv a b) end.
Definition np_div (a b : Z) : float := fdiv (of_int a) (of_int b).

(** [sum] of floats, from left to right. *)
Definition fsum (l : list float) : float := foldl fadd (of_int 0) l.

End PyFloat.
