(* ===== verification/CutTree.v ===== *)
(** * Splitting of structured blocks: [balancing_cut_tree.py] and [split_cut_tree.py]

    A cut tree is a nested list; its operations update it in place.  A reference to a node of the tree
    is a path, the list of the positions to follow from the root, and an operation on the node is
    applied at the end of the path: the lists of a tree are not shared. Quotients are rounded in double
    precision, as the comparisons of the code see them. *)
From Stdlib Require Import SpecFloat.
From S2P Require Import Prelude PyFloat.
Open Scope Z_scope.

Module CutTree.
Import PyFloat.

(** ** Cut trees *)

(** A nested list with no empty list: an integer, or a first element and the others. *)
Inductive cut_tree : Set :=
| Count (n : Z)
| Level (first : cut_tree) (others : list cut_tree).

Definition children (t : cut_tree) : list cut_tree :=
  match t with Count _ => [] | Level c l => c :: l end.

Section cut_tree_ind.
Variable P : cut_tree -> Prop.
Hypothesis Hcount : forall n, P (Count n).
Hypothesis Hlevel : forall c l, P c -> Forall P l -> P (Level c l).
Fixpoint cut_tree_nested_ind (t : cut_tree) : P t :=
  match t with
  | Count n => Hcount n
  | Level c l => Hlevel c l (cut_tree_nested_ind c)
      ((fix all l : Forall P l := match l with
                                  | [] => List.Forall_nil P
                                  | x :: l' => @List.Forall_cons _ P x l' (cut_tree_nested_ind x) (all l')
                                  end) l)
  end.
End cut_tree_ind.

Fixpoint init_cut_tree (n_dims : nat) : cut_tree :=
  match n_dims with O => Count 1 | S n => Level (init_cut_tree n) [] end.

Fixpoint depth (t : cut_tree) : nat :=
  match t with
  | Count _ => 0
  | Level c l => S (foldl Nat.max (depth c) (map depth l))
  end.

Fixpoint sum_leaves (t : cut_tree) : Z :=
  match t with
  | Count n => n
  | Level c l => sum_leaves c + zsum (map sum_leaves l)
  end.

(** [reset_sub_tree]: [node[0] = 1] is a TypeError on an integer. *)
Fixpoint reset_sub_tree (t : cut_tree) : py cut_tree :=
  match t with
  | Count _ => Raise TypeError
  | Level c l =>
      if (1 <? depth t)%nat then
        c ← reset_sub_tree c;
        l ← mapM reset_sub_tree l;
        Ret (Level c l)
      else Ret (Level (Count 1) l)
  end.

Definition weight (t : cut_tree) (dims : list Z) : py float :=
  let n_dims := zlen dims in
  let dep := Z.of_nat (depth t) in
  match t with
  | Count _ => Raise ValueError
  | Level c l =>
      d ← py_get dims (n_dims - dep);
      if dep >? 1 then truediv (zlen (children t)) d
      else truediv (match c with Count n => n | _ => 0 end) d
  end.

(** [child_with_least_leaves]: the position and the node. *)
Fixpoint least_loop (i : nat) (l : list cut_tree) (candidate : nat * cut_tree) : nat * cut_tree :=
  match l with
  | [] => candidate
  | c :: l' =>
      least_loop (S i) l' (if sum_leaves c <? sum_leaves candidate.2 then (i, c) else candidate)
  end.
Definition child_with_least_leaves (c : cut_tree) (l : list cut_tree) : nat * cut_tree :=
  least_loop 0 (c :: l) (0%nat, c).

(** [select_insertion]: a node is given with its path.  [fuel] is the depth of the starting node. *)
Fixpoint select_insertion (fuel : nat) (starting insersion : list nat * cut_tree) (dims : list Z)
    : py (list nat * cut_tree) :=
  ws ← weight starting.2 dims;
  wi ← weight insersion.2 dims;
  let insersion := if SFltb ws wi then starting else insersion in
  if (1 <? depth starting.2)%nat then
    match fuel, starting.2 with
    | S fuel', Level c l =>
        let '(i, next) := child_with_least_leaves c l in
        select_insertion fuel' (starting.1 ++ [i], next) insersion dims
    | _, _ => Raise OutOfFuel
    end
  else Ret insersion.

(** An update in place of the node at the end of a path. *)
Fixpoint update_at (p : list nat) (f : cut_tree -> py cut_tree) (t : cut_tree) : py cut_tree :=
  match p, t with
  | [], _ => f t
  | O :: p', Level c l => c ← update_at p' f c; Ret (Level c l)
  | S i :: p', Level c l =>
      match l !! i with
      | Some x => x ← update_at p' f x; Ret (Level c (<[i := x]> l))
      | None => Raise IndexError
      end
  | _ :: _, Count _ => Raise TypeError
  end.

(** The loop of [insert_child_at]: [turns] bounds the number of turns. *)
Fixpoint insertion_loop (turns : nat) (insert : cut_tree -> py cut_tree) (target : Z) (dims : list Z)
    (t : cut_tree) : py cut_tree :=
  if sum_leaves t =? target then Ret t else
  match turns with
  | O => Raise OutOfFuel
  | S turns' =>
      nextins ← select_insertion (depth t) ([], t) ([], t) dims;
      t ← update_at nextins.1 insert t;
      insertion_loop turns' insert target dims t
  end.

(** [insert_child_at]: the node after the insertion. [fuel] bounds the nesting of the calls; a turn of
    the loop adds a leaf, so that the number of leaves bounds the number of turns. *)
Fixpoint insert_child_at (fuel : nat) (dims : list Z) (t : cut_tree) : py cut_tree :=
  match fuel with
  | O => Raise OutOfFuel
  | S fuel' =>
      let n_leaves_ini := sum_leaves t in
      match t with
      | Count _ => Raise ValueError
      | Level c l =>
          if (depth t =? 1)%nat then
            match c with Count n => Ret (Level (Count (n + 1)) l) | _ => Raise TypeError end
          else
            c ← reset_sub_tree c;
            l ← mapM reset_sub_tree l;
            insertion_loop (Z.to_nat n_leaves_ini) (insert_child_at fuel' dims) (n_leaves_ini + 1) dims
              (Level c (l ++ [init_cut_tree (depth t - 1)]))
      end
  end.

(** Enough nested calls for a tree of that depth and number of leaves, see [insert_child_at_spec]. *)
Definition nesting (d : nat) (leaves : Z) : nat := (S d * Z.to_nat (leaves + 2))%nat.

Definition refine_cut_tree (t : cut_tree) (dims : list Z) : py cut_tree :=
  ins ← select_insertion (depth t) ([], t) ([], t) dims;
  update_at ins.1 (insert_child_at (nesting (depth t) (sum_leaves t)) dims) t.

(** ** Bounds of the partitions *)

(** The weighted tree: nested lists of floats. *)
Inductive w_tree : Set :=
| Weight (x : float)
| WLevel (l : list w_tree).

Fixpoint w_sum_leaves (w : w_tree) : float :=
  match w with Weight x => x | WLevel l => fsum (map w_sum_leaves l) end.

(** [range] of cells along each dimension, semi open. *)
Abbreviation part_bounds := (list (Z * Z)).

(** [get_part_volume] *)
Definition get_part_volume (p : part_bounds) : Z :=
  Z.abs (foldl Z.mul 1 (map (fun '(lo, hi) => hi - lo) p)).

(** [int(weight*dim+0.5)] for each sum of the first weights. *)
Definition split_points (weights : list float) (n : nat) (dim : Z) : py (list Z) :=
  mapM (fun i => to_int (fadd (fmul (fsum (take i weights)) (of_int dim)) half)) (seq 0 (S n)).

Definition x_weights (tree : cut_tree) (w : option w_tree) : py (list float) :=
  match w with
  | Some (WLevel l) => mapM (fun child => float_div (w_sum_leaves child) (w_sum_leaves (WLevel l))) l
  | Some (Weight _) => Raise TypeError
  | None =>
      match tree with
      | Count _ => Raise TypeError
      | Level c l => mapM (fun child => truediv (sum_leaves child) (sum_leaves tree)) (c :: l)
      end
  end.
Definition x_splits (tree : cut_tree) (w : option w_tree) (dim : Z) : py (list Z) :=
  ws ← x_weights tree w;
  match tree with
  | Count _ => Raise TypeError
  | _ => split_points ws (length (children tree)) dim
  end.

(** [child[0]] used as an integer. *)
Definition n_y_splits (child : cut_tree) : py Z :=
  match child with Level (Count n) _ => Ret n | _ => Raise TypeError end.
Definition y_weights (n : Z) (w : option w_tree) : py (list float) :=
  match w with
  | Some (WLevel l) =>
      mapM (fun leave => match leave with
                         | Weight x => float_div x (w_sum_leaves (WLevel l))
                         | WLevel _ => Raise TypeError
                         end) l
  | Some (Weight _) => Raise TypeError
  | None => x ← truediv 1 n; Ret (py_repeat n x)
  end.
Definition y_splits (n : Z) (w : option w_tree) (dim : Z) : py (list Z) :=
  ws ← y_weights n w;
  split_points ws (Z.to_nat n) dim.

(** [w_tree[i]] when there is a weighted tree. *)
Definition w_child (w : option w_tree) (i : nat) : py (option w_tree) :=
  match w with
  | None => Ret None
  | Some (WLevel l) => Some <$> py_get l (Z.of_nat i)
  | Some (Weight _) => Raise TypeError
  end.

(** [[splits[i], splits[i+1]]] *)
Definition interval (splits : list Z) (i : nat) : py (Z * Z) :=
  lo ← py_get splits (Z.of_nat i);
  hi ← py_get splits (Z.of_nat (S i));
  Ret (lo, hi).

(** The bounds along the last dimension in a column of a two-dimensional block. *)
Definition column_bounds (dim : Z) (child : cut_tree) (w : option w_tree) : py (list part_bounds) :=
  n ← n_y_splits child;
  ys ← y_splits n w dim;
  mapM (fun j => y ← interval ys j; Ret [y]) (seq 0 (Z.to_nat n)).

(** The parts of each child are those of [sub] with the interval of the child in front. *)
Definition slices (xs : list Z) (w : option w_tree) (sub : cut_tree -> option w_tree -> py (list part_bounds))
    (l : list cut_tree) : py (list part_bounds) :=
  all ← mapM (fun '(i, child) =>
    w' ← w_child w i;
    parts ← sub child w';
    x ← interval xs i;
    Ret (map (cons x) parts)) (imap pair l);
  Ret (concat all).

Fixpoint bct_to_partitions_bounds (dims : list Z) (tree : cut_tree) (w : option w_tree) {struct dims}
    : py (list part_bounds) :=
  match dims with
  | [] => _ ← x_weights tree w; Raise IndexError
  | dim :: dims' =>
      xs ← x_splits tree w dim;
      slices xs w (match dims' with
                   | [dim'] => column_bounds dim'
                   | _ => bct_to_partitions_bounds dims'
                   end) (children tree)
  end.

(** ** The split of a block *)

Fixpoint refine_times (n : nat) (t : cut_tree) (dims : list Z) : py cut_tree :=
  match n with O => Ret t | S n' => t ← refine_cut_tree t dims; refine_times n' t dims end.

(** The weights of the leaves of the terminal nodes, from left to right. *)
Definition terminal_weights (weights : list float) (shift : Z) (node : cut_tree) : py (w_tree * Z) :=
  len_node ← n_y_splits node;
  Ret (WLevel (map Weight (py_slice weights shift (shift + len_node))), shift + len_node).

Fixpoint weight_nodes {A} (f : Z -> A -> py (w_tree * Z)) (shift : Z) (l : list A) : py (list w_tree * Z) :=
  match l with
  | [] => Ret ([], shift)
  | x :: l' =>
      r ← f shift x;
      r' ← weight_nodes f r.2 l';
      Ret (r.1 :: r'.1, r'.2)
  end.

Fixpoint plain_copy (t : cut_tree) : w_tree :=
  match t with Count n => Weight (of_int n) | Level c l => WLevel (plain_copy c :: map plain_copy l) end.

Definition apply_weights_to_cut_tree (t : cut_tree) (weights : list float) : py w_tree :=
  match depth t with
  | 2 => r ← weight_nodes (terminal_weights weights) 0 (children t); Ret (WLevel r.1)
  | 3 =>
      r ← weight_nodes (fun shift i1 =>
            r ← weight_nodes (terminal_weights weights) shift (children i1); Ret (WLevel r.1, r.2)) 0 (children t);
      Ret (WLevel r.1)
  | _ => Ret (plain_copy t)
  end%nat.

(** [itertools.permutations], in its order. *)
Fixpoint selections {A} (l : list A) : list (A * list A) :=
  match l with
  | [] => []
  | x :: l' => (x, l') :: map (fun '(y, r) => (y, x :: r)) (selections l')
  end.
Fixpoint permutations_of {A} (n : nat) (l : list A) : list (list A) :=
  match n with
  | O => [[]]
  | S n' => concat (map (fun '(x, r) => map (cons x) (permutations_of n' r)) (selections l))
  end.
Definition permutations {A} (l : list A) : list (list A) := permutations_of (length l) l.

(** [max] of a list of floats: the first of the greatest. *)
Definition fmax (l : list float) : py float :=
  match l with
  | [] => Raise ValueError
  | x :: l' => Ret (foldl (fun m y => if SFltb m y then y else m) x l')
  end.

(** [max_diff] for a permutation of the weights. *)
Definition max_diff (parts : list part_bounds) (n_cells : Z) (n_parts : nat) (weights : list float) : py float :=
  l ← mapM (fun k =>
    part ← py_get parts (Z.of_nat k);
    v ← truediv (get_part_volume part) n_cells;
    w ← py_get weights (Z.of_nat k);
    Ret (SFsub prec emax v w)) (seq 0 n_parts);
  fmax l.

(** The search of the best permutation among the first ones: the least difference so far and the
    permutation that reaches it. *)
Fixpoint best_permutation (t : cut_tree) (dims : list Z) (n_parts : nat) (l : list (list (nat * float)))
    (best_diff : float) (best : option (list (nat * float))) : py (option (list (nat * float))) :=
  match l with
  | [] => Ret best
  | permutation :: l' =>
      let permuted_weights := map snd permutation in
      w ← apply_weights_to_cut_tree t permuted_weights;
      parts ← bct_to_partitions_bounds dims t (Some w);
      d ← max_diff parts (foldl Z.mul 1 dims) n_parts permuted_weights;
      if SFltb d best_diff then best_permutation t dims n_parts l' d (Some permutation)
      else best_permutation t dims n_parts l' best_diff best
  end.

(** [np.argsort] of a permutation: the position of each rank. *)
Definition position (l : list nat) (k : nat) : nat :=
  match list_find (eq k) l with Some (i, _) => i | None => 0%nat end.

Definition split_S_block (dims : list Z) (n_parts : nat) (weights : option (list float)) (max_it : nat)
    : py (list part_bounds) :=
  t ← refine_times (n_parts - 1) (init_cut_tree (length dims)) dims;
  match weights with
  | None => bct_to_partitions_bounds dims t None
  | Some ws =>
      _ ← py_assert (bool_decide (length ws = n_parts));
      _ ← py_assert (SFltb (SFabs (SFsub prec emax (fsum ws) (of_int 1))) (fdiv (of_int 1) (of_int (10 ^ 9))));
      best ← best_permutation t dims n_parts (take (Nat.max 1 max_it) (permutations (imap pair ws)))
               (of_int (10 ^ 50)) None;
      best ← of_option NameError best;
      w ← apply_weights_to_cut_tree t (map snd best);
      parts ← bct_to_partitions_bounds dims t (Some w);
      mapM (fun k => py_get parts (Z.of_nat (position (map fst best) k))) (seq 0 n_parts)
  end.

(** ** The split of a line *)

(** [np.floor] then [astype(int)]. *)
Definition floor_int (x : float) : py Z :=
  match x with
  | S754_finite true m e => Ret (if 0 <=? e then - (Zpos m * 2 ^ e) else - (Zpos m) / 2 ^ (- e))
  | _ => to_int x
  end.

(** One cell more for the positions visited in turn. *)
Fixpoint add_remainder (r i : nat) (n_cell : list Z) : list Z :=
  match r with
  | O => n_cell
  | S r' => add_remainder r' (S i) (alter (Z.add 1) (Nat.modulo i (length n_cell)) n_cell)
  end.

Fixpoint line_parts (start : Z) (n_cell : list Z) : list part_bounds :=
  match n_cell with [] => [] | nc :: l => [(start, start + nc)] :: line_parts (start + nc) l end.

Definition split_S_line (dim : Z) (weights : list float) : py (list part_bounds) :=
  n_cell ← mapM (fun w => floor_int (fmul w (of_int dim))) weights;
  let remainder := dim - zsum n_cell in
  _ ← py_assert (0 <=? remainder);
  match n_cell with
  | [] => if remainder >? 0 then Raise StopIteration else Ret []
  | _ => Ret (line_parts 0 (add_remainder (Z.to_nat remainder) 0 n_cell))
  end.

(** ** Well-formed trees *)

(** A tree with [d] levels: the integers are at level [d], alone in their list and at least 1. *)
Inductive shape : nat -> cut_tree -> Prop :=
| shape_bottom n : 1 <= n -> shape 1 (Level (Count n) [])
| shape_level d c l : shape (S d) c -> Forall (shape (S d)) l -> shape (S (S d)) (Level c l).

(** The number of terminal lists. *)
Fixpoint bottoms (t : cut_tree) : Z :=
  match t with
  | Count _ => 0
  | Level (Count _) _ => 1
  | Level c l => bottoms c + zsum (map bottoms l)
  end.

Section shapes.

Lemma shape_depth d t : shape d t -> depth t = d.
Proof.
  revert d. induction t as [n|c l IHc IHl] using cut_tree_nested_ind; intros d H; inversion H as [|d' ? ? Hc Hl]; subst; [done|].
  cbn. rewrite (IHc _ Hc). f_equal. clear IHc Hc H. revert IHl.
  induction Hl as [|x l Hx Hl IH]; intros IHl; [done|]. apply Forall_cons in IHl as [IHx IHl]. cbn.
  rewrite (IHx _ Hx), Nat.max_id. by apply IH.
Qed.

Lemma shape_pos d t : shape d t -> (0 < d)%nat.
Proof. inversion 1; lia. Qed.

Lemma shape_init d : shape (S d) (init_cut_tree (S d)) /\ sum_leaves (init_cut_tree (S d)) = 1 /\ bottoms (init_cut_tree (S d)) = 1.
Proof.
  induction d as [|d (IH1 & IH2 & IH3)]; [by repeat constructor|].
  split; [by repeat constructor|]. cbn in *. split; lia.
Qed.

(** [bottoms] of a level above the last. *)
Lemma bottoms_level d c l : shape (S d) c -> bottoms (Level c l) = bottoms c + zsum (map bottoms l).
Proof. intros H. by inversion H. Qed.

Lemma bottoms_leaves d t : shape d t -> 1 <= bottoms t <= sum_leaves t.
Proof.
  revert d. induction t as [n|c l IHc IHl] using cut_tree_nested_ind; intros d H; inversion H as [|d' ? ? Hc Hl]; subst; [cbn; lia|].
  rewrite (bottoms_level _ _ _ Hc). specialize (IHc _ Hc). cbn [sum_leaves].
  assert (0 <= zsum (map bottoms l) <= zsum (map sum_leaves l)); [|lia].
  clear IHc Hc H. revert IHl. induction Hl as [|x l Hx Hl IH]; intros IHl; [done|].
  apply Forall_cons in IHl as [IHx IHl]. specialize (IHx _ Hx). specialize (IH IHl).
  cbn [map]. rewrite !zsum_cons. lia.
Qed.

(** A reset keeps the branches and leaves one leaf in each of them. *)
Lemma reset_spec d t :
  shape d t ->
  exists t', reset_sub_tree t = Ret t' /\ shape d t' /\ sum_leaves t' = bottoms t /\ bottoms t' = bottoms t.
Proof.
  revert d. induction t as [n|c l IHc IHl] using cut_tree_nested_ind; intros d H; inversion H as [|d' ? ? Hc Hl]; subst.
  { by exists (Level (Count 1) []); repeat constructor. }
  pose proof (shape_depth _ _ H) as Hd. destruct (IHc _ Hc) as (c' & Ec & Hc' & Sc & Bc).
  assert (Hls : exists l', mapM reset_sub_tree l = Ret l' /\ Forall (shape (S d')) l' /\
    zsum (map sum_leaves l') = zsum (map bottoms l) /\ zsum (map bottoms l') = zsum (map bottoms l)).
  { clear -IHl Hl. induction Hl as [|x l Hx Hl IH]; [by exists []|]. apply Forall_cons in IHl as [IHx IHl].
    destruct (IHx _ Hx) as (x' & Ex & Hx' & Sx & Bx). destruct (IH IHl) as (l' & El & Hl' & Sl & Bl).
    exists (x' :: l'). cbn [mapM map]. rewrite Ex, El. cbn [map]. rewrite !zsum_cons, Sx, Bx, Sl, Bl. by repeat constructor. }
  destruct Hls as (l' & El & Hl' & Sl & Bl). exists (Level c' l').
  assert (E : reset_sub_tree (Level c l) = Ret (Level c' l')).
  { cbn [reset_sub_tree]. rewrite Hd. cbn [Nat.ltb Nat.leb]. by rewrite Ec, El. }
  split; [done|]. split; [by constructor|]. rewrite (bottoms_level _ _ _ Hc), (bottoms_level _ _ _ Hc'), Bc, Bl.
  cbn [sum_leaves]. by rewrite Sc, Sl.
Qed.

(** ** Selection *)

(** [p] leads from [t] to [s], a node with [d'] levels. *)
Inductive at_path : cut_tree -> list nat -> cut_tree -> Prop :=
| at_here t : at_path t [] t
| at_child t i c p s : children t !! i = Some c -> at_path c p s -> at_path t (i :: p) s.

Lemma at_path_snoc t p s i c : at_path t p s -> children s !! i = Some c -> at_path t (p ++ [i]) c.
Proof. induction 1; intros Hc; econstructor; eauto using at_here. Qed.

Lemma shape_child d t i c : shape (S (S d)) t -> children t !! i = Some c -> shape (S d) c.
Proof.
  inversion 1 as [|d' c0 l Hc0 Hl]; subst. intros Hi. destruct i as [|i]; cbn in Hi; [by simplify_eq|].
  by eapply Forall_lookup_1.
Qed.

Lemma least_loop_spec l i cand :
  least_loop i l cand = cand \/
  exists j c, l !! j = Some c /\ least_loop i l cand = ((i + j)%nat, c).
Proof.
  revert i cand. induction l as [|c l IH]; intros i cand; [by left|]. cbn.
  destruct (IH (S i) (if sum_leaves c <? sum_leaves cand.2 then (i, c) else cand)) as [E|(j & x & Hx & E)].
  - rewrite E. destruct (_ <? _); [right; exists 0%nat, c|by left]. by rewrite Nat.add_0_r.
  - right. exists (S j), x. rewrite E. split; [done|]. f_equal. lia.
Qed.

Lemma child_with_least_leaves_child c l i x : child_with_least_leaves c l = (i, x) -> (c :: l) !! i = Some x.
Proof.
  unfold child_with_least_leaves. intros E. destruct (least_loop_spec (c :: l) 0 (0%nat, c)) as [H|(j & y & Hy & H)];
    rewrite E in H; by simplify_eq.
Qed.

Context (dims : list Z).
Hypothesis dims_pos : Forall (fun x => 0 < x) dims.

Lemma weight_Ret d t : shape d t -> (d <= length dims)%nat -> exists w, weight t dims = Ret w.
Proof using dims_pos.
  intros H Hd. pose proof (shape_depth _ _ H) as Hdep. pose proof (shape_pos _ _ H) as Hpos.
  unfold weight. rewrite Hdep. destruct t as [n|c l]; [inversion H|].
  destruct (lookup_lt_is_Some_2 dims (length dims - d)) as [x Hx]; [lia|].
  assert (Hp : 0 < x) by (by apply (Forall_lookup_1 _ _ _ _ dims_pos Hx)).
  replace (zlen dims - Z.of_nat d) with (Z.of_nat (length dims - d)) by (unfold zlen; lia).
  rewrite (py_get_lookup _ _ _ Hx). cbn [mbind py_bind]. unfold truediv.
  destruct (Z.eqb_spec x 0); [lia|]. destruct (_ >? 1); eauto.
Qed.

Lemma at_path_leaves t p s d :
  at_path t p s -> shape d t ->
  p = [] /\ s = t \/ forall d', shape d' s -> (d' < d)%nat /\ sum_leaves s <= sum_leaves t.
Proof using Type.
  intros H. revert d. induction H as [t|t i c p s Hi Hp IH]; intros d Ht; [by left|right]. intros d' Hs.
  inversion Ht as [|d1 c0 l Hc0 Hl]; subst.
  { destruct i; [|done]. cbn in Hi. simplify_eq. inversion Hp; subst; [inversion Hs|done]. }
  pose proof (shape_child _ _ _ _ Ht Hi) as Hc.
  assert (Hsum : sum_leaves c <= sum_leaves (Level c0 l)).
  { change (sum_leaves c <= zsum (map sum_leaves (c0 :: l))).
    apply list_elem_of_lookup_2 in Hi. apply list_elem_of_split in Hi as (l1 & l2 & E). cbn [children] in E. rewrite E.
    rewrite map_app, zsum_app. cbn [map]. rewrite zsum_cons.
    assert (Hall : Forall (shape (S d1)) (l1 ++ c :: l2)) by (rewrite <- E; by constructor).
    assert (Hnn : forall k, Forall (shape (S d1)) k -> 0 <= zsum (map sum_leaves k)).
    { induction 1 as [|x k Hx Hk IHk]; [done|]. cbn [map]. rewrite zsum_cons. apply bottoms_leaves in Hx. lia. }
    apply Forall_app in Hall as [H1 H2%Forall_cons_1]. pose proof (Hnn _ H1). destruct H2 as [_ H2].
    pose proof (Hnn _ H2). lia. }
  destruct (IH _ Hc) as [[-> ->]|IH'].
  - rewrite <- (shape_depth _ _ Hs), (shape_depth _ _ Hc). split; [lia|done].
  - destruct (IH' _ Hs). split; lia.
Qed.

(** The selected node is one of the tree. *)
Lemma select_insertion_spec t fuel p s q i ds di :
  at_path t p s -> at_path t q i -> shape ds s -> shape di i -> (ds <= length dims)%nat -> (di <= length dims)%nat ->
  (ds <= fuel)%nat ->
  exists p' s' d', select_insertion fuel (p, s) (q, i) dims = Ret (p', s') /\ at_path t p' s' /\ shape d' s'.
Proof using dims_pos.
  revert p s q i ds di. induction fuel as [|fuel IH]; intros p s q i ds di Hp Hq Hs Hi Hds Hdi Hf.
  { apply shape_pos in Hs. lia. }
  destruct (weight_Ret _ _ Hs Hds) as [ws Ews], (weight_Ret _ _ Hi Hdi) as [wi Ewi].
  cbn [select_insertion snd fst]. rewrite Ews, Ewi. cbn [mbind py_bind]. rewrite (shape_depth _ _ Hs).
  set (ins := if SFltb ws wi then (p, s) else (q, i)).
  assert (Hins : exists d', at_path t ins.1 ins.2 /\ shape d' ins.2 /\ (d' <= length dims)%nat).
  { subst ins. destruct (SFltb ws wi); eauto. }
  destruct Hins as (d' & Hins1 & Hins2 & Hins3). destruct ins as [pi si]. cbn [fst snd] in *.
  inversion Hs as [|d1 c l Hc Hl]; subst; cbn [Nat.ltb Nat.leb]; [by exists pi, si, d'|].
  destruct (child_with_least_leaves c l) as [j x] eqn:Ej. apply child_with_least_leaves_child in Ej.
  eapply IH; eauto using at_path_snoc, shape_child; lia.
Qed.

(** An update that adds a leaf to a node adds a leaf to the tree. *)
Definition one_more (d : nat) (t t' : cut_tree) : Prop :=
  shape d t' /\ sum_leaves t' = sum_leaves t + 1 /\ bottoms t <= bottoms t'.

Lemma update_at_spec f t p s d :
  at_path t p s -> shape d t ->
  (forall d', shape d' s -> exists s', f s = Ret s' /\ one_more d' s s') ->
  (exists d', shape d' s) ->
  exists t', update_at p f t = Ret t' /\ one_more d t t'.
Proof using Type.
  intros H. revert d. induction H as [t|t i c p s Hi Hp IH]; intros d Ht Hf Hs; [by apply Hf|].
  inversion Ht as [|d1 c0 l Hc0 Hl]; subst.
  { destruct Hs as [? Hs]. destruct i; [|done]. cbn in Hi. simplify_eq. inversion Hp; subst; [inversion Hs|done]. }
  pose proof (shape_child _ _ _ _ Ht Hi) as Hc. destruct (IH _ Hc Hf Hs) as (c' & Ec & Hc' & Sc & Bc).
  destruct i as [|i]; [change (Some c0 = Some c) in Hi|change (l !! i = Some c) in Hi].
  - simplify_eq. exists (Level c' l). cbn [update_at]. rewrite Ec. split; [done|].
    split; [by constructor|]. rewrite (bottoms_level _ _ _ Hc), (bottoms_level _ _ _ Hc'). cbn [sum_leaves]. lia.
  - exists (Level c0 (<[i := c']> l)). cbn [update_at]. rewrite Hi, Ec. split; [done|].
    split; [constructor; [done|]; by apply Forall_insert|]. rewrite !(bottoms_level _ _ _ Hc0). cbn [sum_leaves].
    assert (Hz : forall g : cut_tree -> Z, zsum (map g (<[i := c']> l)) = zsum (map g l) + g c' - g c).
    { intros g. change (zsum (g <$> <[i := c']> l) = zsum (g <$> l) + g c' - g c).
      rewrite list_fmap_insert. apply zsum_insert. by rewrite list_lookup_fmap, Hi. }
    rewrite !Hz. lia.
Qed.

Lemma insertion_loop_spec turns insert target t d n_bottoms :
  shape d t -> (d <= length dims)%nat -> sum_leaves t <= target -> target - sum_leaves t <= Z.of_nat turns ->
  n_bottoms <= bottoms t ->
  (forall s d', shape d' s -> sum_leaves s < target ->
     (d' < d)%nat \/ d' = d /\ n_bottoms <= bottoms s -> exists s', insert s = Ret s' /\ one_more d' s s') ->
  exists t', insertion_loop turns insert target dims t = Ret t' /\ shape d t' /\ sum_leaves t' = target /\
    n_bottoms <= bottoms t'.
Proof using dims_pos.
  intros Ht Hd. revert t Ht. induction turns as [|turns IH]; intros t Ht Hle Hturns Hb Hins; cbn [insertion_loop].
  { destruct (Z.eqb_spec (sum_leaves t) target); [eauto|lia]. }
  destruct (Z.eqb_spec (sum_leaves t) target); [eauto|].
  destruct (select_insertion_spec t (depth t) [] t [] t d d (at_here t) (at_here t) Ht Ht Hd Hd) as (p & s & d' & Es & Hp & Hs).
  { by rewrite (shape_depth _ _ Ht). }
  rewrite Es. cbn [mbind py_bind fst].
  destruct (update_at_spec insert t p s d Hp Ht) as (t' & Eu & Hs' & Hsum & Hbot); [|by eauto|].
  { intros d1 Hd1. apply Hins; [done| |].
    - destruct (at_path_leaves _ _ _ _ Hp Ht) as [[-> ->]|Hl]; [lia|]. specialize (Hl _ Hd1). lia.
    - destruct (at_path_leaves _ _ _ _ Hp Ht) as [[-> ->]|Hl]; [|left; by apply Hl].
      right. by rewrite <- (shape_depth _ _ Hd1), (shape_depth _ _ Ht). }
  rewrite Eu. apply IH; auto; lia.
Qed.

(** An insertion adds one leaf and terminates: a nested call is on a lower node, or on a node with
    fewer leaves to distribute above one by terminal list. *)
Lemma insert_child_at_spec fuel d t L :
  shape d t -> (d <= length dims)%nat -> sum_leaves t <= L ->
  Z.of_nat d * (L + 2) + (sum_leaves t - bottoms t) < Z.of_nat fuel ->
  exists t', insert_child_at fuel dims t = Ret t' /\ one_more d t t'.
Proof using dims_pos.
  revert d t L. induction fuel as [|fuel IH]; intros d t L Ht Hd HL Hfuel.
  { pose proof (bottoms_leaves _ _ Ht). nia. }
  pose proof (bottoms_leaves _ _ Ht) as Hbt. cbn [insert_child_at].
  inversion Ht as [n Hn|d1 c l Hc Hl]; subst.
  { exists (Level (Count (n + 1)) []). split; [done|]. split; [constructor; lia|]. cbn. lia. }
  pose proof (shape_depth _ _ Ht) as Hdep. rewrite Hdep. cbn [Nat.eqb Nat.sub]. destruct (reset_spec _ _ Ht) as (t' & Er & Ht' & Sr & Br).
  cbn [reset_sub_tree] in Er. rewrite Hdep in Er. cbn [Nat.ltb Nat.leb] in Er.
  destruct (reset_sub_tree c) as [c'|] eqn:Ec; [|done]. cbn [mbind py_bind] in *.
  destruct (mapM reset_sub_tree l) as [l'|] eqn:El; [|done]. cbn [mbind py_bind] in *. simplify_eq.
  destruct (shape_init d1) as (Hi & Si & Bi). inversion Ht' as [|? ? ? Hc' Hl']; subst.
  rewrite (bottoms_level _ _ _ Hc') in Br. cbn [sum_leaves] in Sr.
  set (t0 := Level c' (l' ++ [init_cut_tree (S d1)])).
  assert (Ht0 : shape (S (S d1)) t0) by (constructor; [done|]; apply Forall_app; auto).
  assert (S0 : sum_leaves t0 = bottoms (Level c l) + 1).
  { subst t0. cbn [sum_leaves]. rewrite map_app, zsum_app. cbn [map]. rewrite zsum_cons, zsum_nil, Si. lia. }
  assert (B0 : bottoms t0 = bottoms (Level c l) + 1).
  { subst t0. rewrite (bottoms_level _ _ _ Hc'), map_app, zsum_app. cbn [map]. rewrite zsum_cons, zsum_nil, Bi. lia. }
  destruct (insertion_loop_spec (Z.to_nat (sum_leaves (Level c l))) (insert_child_at fuel dims)
    (sum_leaves (Level c l) + 1) t0 (S (S d1)) (bottoms (Level c l) + 1)) as (t1 & E1 & Ht1 & S1 & B1); try lia; try done.
  { intros s d' Hs Hlt Hcase. pose proof (bottoms_leaves _ _ Hs). apply (IH d' s L Hs); [lia..|].
    destruct Hcase as [Hlt'|[-> Hb]]; [|lia].
    assert (Z.of_nat d' * (L + 2) <= (Z.of_nat (S (S d1)) - 1) * (L + 2)) by (apply Z.mul_le_mono_nonneg_r; lia). lia. }
  exists t1. split; [exact E1|]. split; [done|]. split; [done|lia].
Qed.

Lemma refine_one_more d t :
  shape d t -> d = length dims -> exists t', refine_cut_tree t dims = Ret t' /\ one_more d t t'.
Proof using dims_pos.
  intros Ht Hd. unfold refine_cut_tree.
  destruct (select_insertion_spec t (depth t) [] t [] t d d (at_here t) (at_here t) Ht Ht) as (p & s & d' & Es & Hp & Hs);
    try lia. { by rewrite (shape_depth _ _ Ht). }
  rewrite Es. cbn [mbind py_bind fst]. apply (update_at_spec _ t p s d Hp Ht); [|eauto].
  intros d1 Hd1. pose proof (bottoms_leaves _ _ Hd1). pose proof (bottoms_leaves _ _ Ht).
  assert (Hle : (d1 <= d)%nat /\ sum_leaves s <= sum_leaves t).
  { destruct (at_path_leaves _ _ _ _ Hp Ht) as [[-> ->]|Hl].
    - rewrite <- (shape_depth _ _ Hd1), (shape_depth _ _ Ht). lia.
    - specialize (Hl _ Hd1). lia. }
  apply (insert_child_at_spec _ d1 s (sum_leaves t) Hd1); try lia.
  unfold nesting. rewrite (shape_depth _ _ Ht). rewrite Nat2Z.inj_mul, Z2Nat.id by lia. nia.
Qed.

End shapes.

(** ** The parts cover the block *)

(** Cut positions that go from 0 to the dimension without stepping back. *)
Fixpoint chain_ok (a dim : Z) (l : list Z) : bool :=
  match l with [] => a =? dim | b :: l' => (a <=? b) && chain_ok b dim l' end.
Definition positions_ok (dim : Z) (l : list Z) : bool :=
  match l with [] => false | x :: l' => (x =? 0) && chain_ok 0 dim l' end.
Definition computed_ok (dim : Z) (r : py (list Z)) : bool :=
  match r with Ret l => positions_ok dim l | Raise _ => false end.

(** The same for all the cuts of a tree: the rounded positions have to be good ones. *)
Definition column_ok (dim : Z) (child : cut_tree) (w : option w_tree) : bool :=
  match n_y_splits child with Ret n => computed_ok dim (y_splits n w dim) | Raise _ => false end.
Fixpoint cuts_ok (dims : list Z) (tree : cut_tree) (w : option w_tree) {struct dims} : bool :=
  match dims with
  | [] => false
  | dim :: dims' =>
      computed_ok dim (x_splits tree w dim) &&
      forallb (fun '(i, child) =>
        match w_child w i with
        | Ret w' => match dims' with [dim'] => column_ok dim' child w' | _ => cuts_ok dims' child w' end
        | Raise _ => false
        end) (imap pair (children tree))
  end.

(** The number of parts that hold a cell. *)
Definition within (x : Z) (b : Z * Z) : bool := (b.1 <=? x) && (x <? b.2).
Fixpoint inside (cell : list Z) (p : part_bounds) : bool :=
  match cell, p with
  | [], [] => true
  | x :: cell', b :: p' => within x b && inside cell' p'
  | _, _ => false
  end.
Definition holders (cell : list Z) (parts : list part_bounds) : Z := zsum (map (fun p => Z.b2z (inside cell p)) parts).

Definition pairs (l : list Z) : list (Z * Z) := zip l (tail l).

Lemma interval_pairs l i : (S i < length l)%nat -> exists b, interval l i = Ret b /\ pairs l !! i = Some b.
Proof.
  intros Hi. destruct (lookup_lt_is_Some_2 l i) as [x Hx]; [lia|]. destruct (lookup_lt_is_Some_2 l (S i)) as [y Hy]; [lia|].
  exists (x, y). unfold interval, pairs. rewrite (py_get_lookup _ _ _ Hx), (py_get_lookup _ _ _ Hy). split; [done|].
  apply lookup_zip_with_Some. exists x, y. by rewrite lookup_tail.
Qed.

Lemma length_pairs l : length (pairs l) = (length l - 1)%nat.
Proof. unfold pairs. rewrite length_zip_with. destruct l; cbn [length tail]; lia. Qed.

(** A position is in one of the consecutive intervals. *)
Lemma chain_within x dim a l :
  chain_ok a dim l = true -> zsum (map (fun b => Z.b2z (within x b)) (zip (a :: l) l)) = Z.b2z (within x (a, dim)).
Proof.
  revert a. induction l as [|b l IH]; intros a H; cbn [chain_ok] in H.
  { apply Z.eqb_eq in H as ->. unfold within. cbn. destruct (Z.leb_spec dim x), (Z.ltb_spec x dim); cbn; lia. }
  apply andb_true_iff in H as [Hab Hl]. change (zip (a :: b :: l) (b :: l)) with ((a, b) :: zip (b :: l) l).
  cbn [map]. rewrite zsum_cons, (IH _ Hl).
  assert (b <= dim) as Hb.
  { clear -Hl. revert b Hl. induction l as [|c l IH]; intros b Hl; cbn in Hl; [lia|].
    apply andb_true_iff in Hl as [? Hl]. apply IH in Hl. lia. }
  unfold within. cbn [fst snd]. destruct (Z.leb_spec a x), (Z.ltb_spec x b), (Z.leb_spec b x), (Z.ltb_spec x dim); cbn; lia.
Qed.

Lemma positions_within x dim l :
  positions_ok dim l = true -> 0 <= x < dim -> zsum (map (fun b => Z.b2z (within x b)) (pairs l)) = 1.
Proof.
  intros H Hx. destruct l as [|a l]; [done|]. apply andb_true_iff in H as [->%Z.eqb_eq Hl].
  unfold pairs. cbn [tail]. rewrite (chain_within _ _ _ _ Hl). unfold within. cbn.
  destruct (Z.leb_spec 0 x), (Z.ltb_spec x dim); cbn; lia.
Qed.

Lemma holders_app cell p q : holders cell (p ++ q) = holders cell p + holders cell q.
Proof. unfold holders. by rewrite map_app, zsum_app. Qed.

Lemma holders_cons x cell b parts : holders (x :: cell) (map (cons b) parts) = Z.b2z (within x b) * holders cell parts.
Proof.
  unfold holders. induction parts as [|p parts IH]; [by rewrite Z.mul_0_r|]. cbn [map]. rewrite !zsum_cons, IH. cbn [inside].
  destruct (within x b), (inside cell p); cbn; lia.
Qed.

Lemma holders_slices x cell bs subs :
  length bs = length subs -> Forall (fun parts => holders cell parts = 1) subs ->
  holders (x :: cell) (concat (zip_with (fun b => map (cons b)) bs subs)) = zsum (map (fun b => Z.b2z (within x b)) bs).
Proof.
  revert subs. induction bs as [|b bs IH]; intros [|parts subs] Hl Hs; try done. apply Forall_cons in Hs as [Hp Hs].
  cbn [zip_with concat map]. rewrite holders_app, holders_cons, zsum_cons, (IH subs), Hp; [lia|cbn in Hl; lia|done].
Qed.

Lemma length_slices (bs : list (Z * Z)) (subs : list (list part_bounds)) :
  length bs = length subs -> zlen (concat (zip_with (fun b => map (cons b)) bs subs)) = zsum (map zlen subs).
Proof.
  revert subs. induction bs as [|b bs IH]; intros [|parts subs] Hl; try done. cbn [zip_with concat map].
  rewrite zlen_app, zsum_cons, IH by (cbn in Hl; lia). unfold zlen. by rewrite length_map.
Qed.

(** Bounds inside a block. *)
Definition in_block (dims : list Z) (p : part_bounds) : Prop := Forall2 (fun b dim => 0 <= b.1 <= b.2 /\ b.2 <= dim) p dims.

Lemma chain_bounds dim a l : chain_ok a dim l = true -> a <= dim /\ Forall (fun b => a <= b.1 <= b.2 /\ b.2 <= dim) (zip (a :: l) l).
Proof.
  revert a. induction l as [|b l IH]; intros a H; cbn [chain_ok] in H; [split; [lia|constructor]|].
  apply andb_true_iff in H as [Hab [Hb Hl]%IH]. split; [lia|]. change (zip (a :: b :: l) (b :: l)) with ((a, b) :: zip (b :: l) l).
  constructor; [cbn; lia|]. eapply Forall_impl; [exact Hl|]. cbn. lia.
Qed.

Lemma positions_bounds dim l : positions_ok dim l = true -> Forall (fun b => 0 <= b.1 <= b.2 /\ b.2 <= dim) (pairs l).
Proof. destruct l as [|a l]; [done|]. intros [->%Z.eqb_eq Hl]%andb_true_iff. by apply chain_bounds in Hl as [_ Hl]. Qed.

Lemma in_block_slices dim dims (bs : list (Z * Z)) (subs : list (list part_bounds)) :
  Forall (fun b => 0 <= b.1 <= b.2 /\ b.2 <= dim) bs -> Forall (Forall (in_block dims)) subs ->
  Forall (in_block (dim :: dims)) (concat (zip_with (fun b => map (cons b)) bs subs)).
Proof.
  intros Hb. revert subs. induction Hb as [|b bs Hb Hbs IH]; intros [|ps subs] Hs; try constructor.
  apply Forall_cons in Hs as [Hp Hs]. cbn [zip_with concat]. apply Forall_app. split; [|by apply IH].
  apply Forall_fmap. eapply Forall_impl; [exact Hp|]. intros p H. by constructor.
Qed.

(** What is promised of a list of parts: their number, one part for each cell of a block, and nothing outside. *)
Definition covers (dims : list Z) (n : Z) (parts : list part_bounds) : Prop :=
  zlen parts = n /\
  (forall cell, Forall2 (fun x dim => 0 <= x < dim) cell dims -> holders cell parts = 1) /\
  Forall (in_block dims) parts.

Lemma slices_covers xs w sub l dim dims :
  positions_ok dim xs = true -> length xs = S (length l) ->
  (forall i child, l !! i = Some child ->
     exists parts w', w_child w i = Ret w' /\ sub child w' = Ret parts /\ covers dims (sum_leaves child) parts) ->
  exists parts, slices xs w sub l = Ret parts /\ covers (dim :: dims) (zsum (map sum_leaves l)) parts.
Proof.
  intros Hxs Hlen Hsub. apply list_choice in Hsub as (subs & Hsl & Hsubs).
  assert (Hpl : length (pairs xs) = length subs) by (rewrite length_pairs; lia).
  exists (concat (zip_with (fun b => map (cons b)) (pairs xs) subs)). split; [|split; [|split]].
  - unfold slices. erewrite (py_mapM_lookup _ _ (zip_with (fun b => map (cons b)) (pairs xs) subs)); [done| |].
    { rewrite length_zip_with, length_imap. lia. }
    intros i [j child] parts Hi Hk. rewrite list_lookup_imap in Hi. destruct (l !! i) as [c|] eqn:Hc; [|done].
    cbn in Hi. simplify_eq. apply lookup_zip_with_Some in Hk as (b & ps & -> & Hb & Hps).
    destruct (Hsubs _ _ _ Hc Hps) as (w' & Hw & Hs & _). rewrite Hw. cbn [mbind py_bind]. rewrite Hs. cbn [mbind py_bind].
    destruct (interval_pairs xs j) as (b' & Hi' & Hb'); [apply lookup_lt_Some in Hc; lia|]. rewrite Hi'. cbn.
    by simplify_eq.
  - rewrite length_slices by done. f_equal. apply list_eq_same_length with (length l); rewrite ?length_map; [done..|].
    intros i x y Hi Hx Hy. apply list_lookup_fmap_Some in Hx as (ps & -> & Hps), Hy as (c & -> & Hc).
    by destruct (Hsubs _ _ _ Hc Hps) as (w' & _ & _ & Hn & _).
  - intros cell Hcell. inversion Hcell as [|x d0 cell' ? Hx Hcell']; subst.
    rewrite holders_slices; [by eapply positions_within|done|].
    apply Forall_lookup_2. intros i ps Hps. destruct (lookup_lt_is_Some_2 l i) as [c Hc].
    { apply lookup_lt_Some in Hps. lia. }
    destruct (Hsubs _ _ _ Hc Hps) as (w' & _ & _ & _ & Hh & _). by apply Hh.
  - apply in_block_slices; [by apply positions_bounds|]. apply Forall_lookup_2. intros i ps Hps.
    destruct (lookup_lt_is_Some_2 l i) as [c Hc]; [apply lookup_lt_Some in Hps; lia|].
    by destruct (Hsubs _ _ _ Hc Hps) as (w' & _ & _ & _ & _ & Hb).
Qed.

Lemma length_split_points ws n dim l : split_points ws n dim = Ret l -> length l = S n.
Proof. unfold split_points. intros H%py_mapM_Ret%Forall2_length. by rewrite length_seq in H. Qed.

Lemma column_covers n w dim :
  1 <= n -> column_ok dim (Level (Count n) []) w = true ->
  exists parts, column_bounds dim (Level (Count n) []) w = Ret parts /\ covers [dim] n parts.
Proof.
  intros Hn Hok. unfold column_ok, column_bounds in *. cbn [n_y_splits mbind py_bind] in *.
  destruct (y_splits n w dim) as [ys|] eqn:Ey; [|done]. cbn [mbind py_bind computed_ok] in *.
  assert (Hl : length ys = S (Z.to_nat n)).
  { unfold y_splits in Ey. destruct (y_weights n w); [|done]. by apply length_split_points in Ey. }
  exists (map (fun b => [b]) (pairs ys)). split; [|split; [|split]].
  - apply py_mapM_lookup; [rewrite length_map, length_pairs, length_seq; lia|].
    intros i j p Hj Hp. apply lookup_seq in Hj as [-> Hi]. cbn [Nat.add].
    destruct (interval_pairs ys i) as (b & Hb & Hb'); [lia|]. rewrite Hb. cbn.
    change (map (fun b => [b]) (pairs ys)) with ((fun b => [b]) <$> pairs ys) in Hp.
    rewrite list_lookup_fmap, Hb' in Hp. by simplify_eq/=.
  - unfold zlen. rewrite length_map, length_pairs. lia.
  - intros cell Hcell. inversion Hcell as [|x d0 cell' ? Hx Hcell']; subst. inversion Hcell'; subst.
    rewrite <- (positions_within x dim ys Hok Hx). unfold holders. rewrite map_map. f_equal. apply map_ext.
    intros b. cbn. by rewrite andb_true_r.
  - apply Forall_fmap. eapply Forall_impl; [by apply positions_bounds|]. intros b Hb. constructor; [done|constructor].
Qed.

(** The parts of a tree whose cut positions are good. *)
Lemma bounds_cover dims tree w :
  shape (length dims) tree -> (2 <= length dims)%nat -> cuts_ok dims tree w = true ->
  exists parts, bct_to_partitions_bounds dims tree w = Ret parts /\ covers dims (sum_leaves tree) parts.
Proof.
  revert tree w. induction dims as [|dim dims IH]; intros tree w Hs Hd Hok; [done|].
  cbn [bct_to_partitions_bounds cuts_ok length] in *. inversion Hs as [|d c l Hc Hl Heq]; subst; [lia|].
  apply andb_true_iff in Hok as [Hx Hsub]. destruct (x_splits (Level c l) w dim) as [xs|] eqn:Ex; [|done].
  assert (Hlen : length xs = S (length (c :: l))).
  { unfold x_splits in Ex. destruct (x_weights (Level c l) w); [|done]. by apply length_split_points in Ex. }
  apply (slices_covers xs w _ (c :: l) dim dims); [done|done|]. intros i child Hi.
  rewrite forallb_forall in Hsub. specialize (Hsub (i, child)).
  assert (Hin : In (i, child) (imap pair (c :: l))).
  { apply list_elem_of_In, list_elem_of_lookup. exists i. by rewrite list_lookup_imap, Hi. }
  specialize (Hsub Hin).
  cbn beta iota in Hsub. destruct (w_child w i) as [w'|]; [|done].
  assert (Hchild : shape (S d) child) by (apply (shape_child d (Level c l) i); [by constructor|done]). rewrite Heq in Hchild.
  destruct dims as [|dim' [|dim'' dims]]; [cbn in *; lia| |].
  - inversion Hchild as [n Hn|]; subst. destruct (column_covers n w' dim' Hn Hsub) as (parts & E & Hp).
    exists parts, w'. split; [done|]. split; [done|]. cbn. by replace (n + 0) with n by lia.
  - destruct (IH child w' Hchild) as (parts & E & Hp); [cbn; lia|done|]. by exists parts, w'.
Qed.

(** ** Refinement and splits *)

(** C6: The refinement of a well-formed cut tree terminates, whatever the rebalancing it triggers: the
    result is a well-formed tree of the same depth, with exactly one more leaf, and the number of
    terminal lists does not decrease. *)
Theorem refine_cut_tree_spec t dims :
  shape (length dims) t -> Forall (fun x => 0 < x) dims ->
  exists t', refine_cut_tree t dims = Ret t' /\ shape (length dims) t' /\
    sum_leaves t' = sum_leaves t + 1 /\ bottoms t <= bottoms t'.
Proof. intros Ht Hdims. by apply refine_one_more. Qed.

(** A refinement that resets the tree twice: two columns become four. *)
Lemma refine_cut_tree_spec_witness :
  let t := Level (Level (Count 3) []) [Level (Count 2) []] in
  exists t', refine_cut_tree t [12; 4] = Ret t' /\ shape 2 t' /\ sum_leaves t' = 6 /\ bottoms t <= bottoms t' /\
    t' = Level (Level (Count 2) []) [Level (Count 2) []; Level (Count 1) []; Level (Count 1) []].
Proof.
  cbn zeta. destruct (refine_cut_tree_spec (Level (Level (Count 3) []) [Level (Count 2) []]) [12; 4]) as (t' & E & H1 & H2 & H3).
  - repeat constructor; lia.
  - repeat constructor; lia.
  - exists t'. repeat split; [done|done|done|done|]. vm_compute in E. by injection E as <-.
Defined.

Lemma refine_times_spec n t dims :
  shape (length dims) t -> Forall (fun x => 0 < x) dims ->
  exists t', refine_times n t dims = Ret t' /\ shape (length dims) t' /\ sum_leaves t' = sum_leaves t + Z.of_nat n.
Proof.
  intros Ht Hdims. revert t Ht. induction n as [|n IH]; intros t Ht; [exists t; cbn; split_and!; [done|done|lia]|].
  destruct (refine_one_more dims Hdims _ t Ht eq_refl) as (t1 & E1 & Ht1 & S1 & _). cbn [refine_times]. rewrite E1.
  destruct (IH t1 Ht1) as (t2 & E2 & Ht2 & S2). exists t2. split_and!; [done|done|lia].
Qed.



Lemma add_remainder_spec r i l :
  l <> [] -> length (add_remainder r i l) = length l /\ zsum (add_remainder r i l) = zsum l + Z.of_nat r /\
  Forall2 Z.le l (add_remainder r i l).
Proof.
  revert i l. induction r as [|r IH]; intros i l Hl; cbn [add_remainder].
  { split_and!; [done|lia|]. apply Forall_Forall2_diag, Forall_true. lia. }
  set (k := Nat.modulo i (length l)).
  assert (Hk : (k < length l)%nat) by (apply Nat.mod_upper_bound; by destruct l).
  destruct (lookup_lt_is_Some_2 l k Hk) as [x Hx].
  rewrite (alter_insert _ _ _ _ Hx). destruct (IH (S i) (<[k := 1 + x]> l)) as (H1 & H2 & H3).
  { intros H%(f_equal length). rewrite length_insert in H. cbn in H. lia. }
  rewrite H1, H2, length_insert, (zsum_insert _ _ _ _ Hx). split_and!; [done|lia|].
  transitivity (<[k := 1 + x]> l); [|done].
  apply Forall2_same_length_lookup. rewrite length_insert. split; [done|]. intros j a b Ha Hb.
  destruct (decide (j = k)) as [->|Hne].
  - rewrite list_lookup_insert_eq in Hb by done. simplify_eq. lia.
  - rewrite list_lookup_insert_ne in Hb by done. simplify_eq. lia.
Qed.

Lemma line_parts_spec start l :
  Forall (fun n => 0 <= n) l ->
  length (line_parts start l) = length l /\
  forall x, holders [x] (line_parts start l) = Z.b2z (within x (start, start + zsum l)).
Proof.
  revert start. induction l as [|n l IH]; intros start Hl; cbn [line_parts].
  { split; [done|]. intros x. unfold within. cbn. destruct (Z.leb_spec start x), (Z.ltb_spec x (start + 0)); cbn; lia. }
  apply Forall_cons in Hl as [Hn Hl]. destruct (IH (start + n) Hl) as [H1 H2]. split; [cbn; lia|]. intros x.
  change (Z.b2z (inside [x] [(start, start + n)]) + holders [x] (line_parts (start + n) l) = Z.b2z (within x (start, start + zsum (n :: l)))).
  rewrite H2, zsum_cons. pose proof (zsum_nonneg _ Hl). cbn [inside]. rewrite andb_true_r. unfold within. cbn [fst snd].
  destruct (Z.leb_spec start x), (Z.ltb_spec x (start + n)), (Z.leb_spec (start + n) x),
    (Z.ltb_spec x (start + n + zsum l)), (Z.ltb_spec x (start + (n + zsum l))); cbn; lia.
Qed.

(** The split of a line returns one part for each weight, and each cell of the line is in exactly
    one part, as soon as the sizes rounded down are not negative and leave a remainder; a part has at
    least its rounded size.  When the sizes exceed the line, the assertion fails. *)
Theorem split_S_line_partition dim weights n_cell :
  mapM (fun w => floor_int (fmul w (of_int dim))) weights = Ret n_cell -> n_cell <> [] ->
  Forall (fun n => 0 <= n) n_cell ->
  if zsum n_cell <=? dim then
    exists parts, split_S_line dim weights = Ret parts /\ length parts = length weights /\
      (forall x, 0 <= x < dim -> holders [x] parts = 1) /\
      exists sizes, parts = line_parts 0 sizes /\ zsum sizes = dim /\ Forall2 Z.le n_cell sizes
  else split_S_line dim weights = Raise AssertionError.
Proof.
  intros E Hne Hn. unfold split_S_line. rewrite E. cbn [mbind py_bind].
  destruct (Z.leb_spec (zsum n_cell) dim) as [Hle|Hgt]; [|by destruct (Z.leb_spec 0 (dim - zsum n_cell)); [lia|]].
  destruct (Z.leb_spec 0 (dim - zsum n_cell)); [|lia]. cbn [mbind py_bind py_assert].
  destruct (add_remainder_spec (Z.to_nat (dim - zsum n_cell)) 0 n_cell Hne) as (Hl & Hs & Hf).
  set (sizes := add_remainder (Z.to_nat (dim - zsum n_cell)) 0 n_cell) in *.
  assert (Hnn : Forall (fun n => 0 <= n) sizes).
  { apply Forall_lookup_2. intros i y Hy. destruct (lookup_lt_is_Some_2 n_cell i) as [x Hx].
    { apply lookup_lt_Some in Hy. lia. }
    pose proof (Forall2_lookup_lr _ _ _ _ _ _ Hf Hx Hy). apply (Forall_lookup_1 _ _ _ _ Hn) in Hx. cbn in Hx. lia. }
  destruct (line_parts_spec 0 sizes Hnn) as [Hpl Hph].
  exists (line_parts 0 sizes). split; [by destruct n_cell|]. split_and!.
  - rewrite Hpl, Hl. apply py_mapM_Ret, Forall2_length in E. lia.
  - intros x Hx. rewrite Hph. unfold within. cbn [fst snd].
    destruct (Z.leb_spec 0 x), (Z.ltb_spec x (0 + zsum sizes)); cbn; lia.
  - exists sizes. split_and!; [done|lia|done].
Qed.

Lemma split_S_line_partition_witness :
  let third := fdiv (of_int 1) (of_int 3) in
  exists parts, split_S_line 10 [third; third; third] = Ret parts /\ length parts = 3%nat /\ holders [7] parts = 1.
Proof.
  cbn zeta. set (third := fdiv (of_int 1) (of_int 3)).
  destruct (split_S_line_partition 10 [third; third; third] [3; 3; 3]) as (parts & E & Hl & Hx & _).
  - vm_compute. reflexivity.
  - done.
  - repeat constructor; lia.
  - exists parts. split_and!; [done|done|]. apply Hx. lia.
Defined.

(** ** The weighted split *)

Lemma selections_perm {A} (l : list A) x r : (x, r) ∈ selections l -> x :: r ≡ₚ l.
Proof.
  revert x r. induction l as [|y l IH]; intros x r H; cbn [selections] in H; [by apply not_elem_of_nil in H|].
  apply elem_of_cons in H as [H|H]; [by simplify_eq|].
  apply list_elem_of_fmap in H as ([z r'] & E & H). simplify_eq. rewrite Permutation_swap. by rewrite (IH _ _ H).
Qed.

Lemma permutations_perm {A} (l p : list A) : p ∈ permutations l -> p ≡ₚ l.
Proof.
  unfold permutations. remember (length l) as n eqn:Hn. revert l p Hn. induction n as [|n IH]; intros l p Hn H; cbn [permutations_of] in H.
  { apply list_elem_of_singleton in H as ->. by destruct l. }
  apply elem_of_concat in H as (k & Hk & Hp). apply list_elem_of_fmap in Hk as ([x r] & -> & Hx).
  apply list_elem_of_fmap in Hp as (q & -> & Hq). apply selections_perm in Hx. rewrite <- Hx. f_equiv.
  apply IH; [|done]. apply Permutation_length in Hx. cbn in Hx. lia.
Qed.

Lemma best_permutation_in t dims n l d best r :
  best_permutation t dims n l d best = Ret (Some r) -> r ∈ l \/ best = Some r.
Proof.
  revert d best. induction l as [|p l IH]; intros d best H; cbn [best_permutation] in H; [right; by simplify_eq|].
  inv_py. destruct (SFltb _ d).
  - apply IH in H as [H|H]; left; [by right|]. simplify_eq. by left.
  - apply IH in H as [H|H]; [left; by right|by right].
Qed.

Lemma position_spec l i k : NoDup l -> l !! i = Some k -> position l k = i.
Proof.
  intros Hn Hi. unfold position. destruct (list_find (eq k) l) as [[j x]|] eqn:E.
  - apply list_find_Some in E as (Hj & <- & _). by eapply NoDup_lookup.
  - apply list_find_None, Forall_lookup_1 with (i := i) (x := k) in E; done.
Qed.

Lemma imap_pair_fst {A} (l : list A) : map fst (imap pair l) = seq 0 (length l).
Proof.
  change (fst <$> imap pair l = seq 0 (length l)). rewrite fmap_imap. apply list_eq. intros i.
  rewrite list_lookup_imap. destruct (l !! i) as [x|] eqn:E; cbn; symmetry.
  - apply lookup_seq. apply lookup_lt_Some in E. done.
  - apply lookup_seq_ge. by apply lookup_ge_None in E.
Qed.

Lemma elem_of_imap_pair {A} (l : list A) k x : (k, x) ∈ imap pair l -> l !! k = Some x.
Proof.
  intros (i & Hi)%list_elem_of_lookup. rewrite list_lookup_imap in Hi. destruct (l !! i) eqn:E; cbn in Hi; by simplify_eq.
Qed.

(** A weighted split returns as many parts as there are weights, and the part number [k] is the one
    that was cut with the weight number [k], whichever order of the weights was found to be best. *)
Theorem split_S_block_weighted dims n_parts ws max_it parts :
  split_S_block dims n_parts (Some ws) max_it = Ret parts ->
  length parts = n_parts /\ length ws = n_parts /\
  exists t perm w cut,
    perm ≡ₚ imap pair ws /\ refine_times (n_parts - 1) (init_cut_tree (length dims)) dims = Ret t /\
    apply_weights_to_cut_tree t (map snd perm) = Ret w /\ bct_to_partitions_bounds dims t (Some w) = Ret cut /\
    forall i k x, perm !! i = Some (k, x) -> ws !! k = Some x /\ exists part, parts !! k = Some part /\ cut !! i = Some part.
Proof.
  unfold split_S_block. intros H. inv_py.
  rename a into t, a3 into perm, a4 into w, a5 into cut. clear E6. apply bool_decide_eq_true in E1.
  destruct a2 as [best|]; cbn [of_option] in E3; [|discriminate E3]. injection E3 as ->.
  assert (Hn : n_parts = length parts) by (apply py_mapM_Ret, Forall2_length in H; by rewrite length_seq in H).
  assert (Hperm : perm ≡ₚ imap pair ws).
  { apply best_permutation_in in E2 as [Hin|Hn']; [|discriminate Hn']. apply permutations_perm.
    by apply (subseteq_take (Nat.max 1 max_it)). }
  split; [done|]. split; [done|]. exists t, perm, w, cut. do 4 (split; [done|]). intros i k x Hi.
  assert (Hfst : map fst perm ≡ₚ seq 0 (length ws)) by (rewrite Hperm; by rewrite imap_pair_fst).
  assert (Hkx : ws !! k = Some x).
  { apply list_elem_of_lookup_2 in Hi. rewrite Hperm in Hi. apply elem_of_imap_pair in Hi. done. }
  split; [done|]. destruct (lookup_lt_is_Some_2 parts k) as [part Hpart]; [apply lookup_lt_Some in Hkx; lia|].
  exists part. split; [done|]. apply py_mapM_Ret in H.
  assert (Hk : seq 0 n_parts !! k = Some k) by (apply lookup_seq; apply lookup_lt_Some in Hpart; split; [done|lia]).
  pose proof (Forall2_lookup_lr _ _ _ _ _ _ H Hk Hpart) as Hg. cbn beta in Hg.
  rewrite (position_spec (map fst perm) i k) in Hg.
  - by apply py_get_nat.
  - rewrite Hfst. apply NoDup_seq.
  - by apply (list_lookup_fmap_Some_2 fst _ _ (k, x)).
Qed.

Lemma split_S_block_weighted_witness :
  let quarter := fdiv (of_int 1) (of_int 4) in
  let ws := [half; quarter; quarter] in
  let parts := [[(5, 10); (0, 20)]; [(0, 5); (0, 10)]; [(0, 5); (10, 20)]] in
  split_S_block [10; 20] 3 (Some ws) 720 = Ret parts /\ length parts = 3%nat /\
  exists t perm w cut, perm ≡ₚ imap pair ws /\ bct_to_partitions_bounds [10; 20] t (Some w) = Ret cut /\
    forall i k x, perm !! i = Some (k, x) -> ws !! k = Some x /\ exists part, parts !! k = Some part /\ cut !! i = Some part.
Proof.
  cbn zeta. assert (E : split_S_block [10; 20] 3 (Some [half; fdiv (of_int 1) (of_int 4); fdiv (of_int 1) (of_int 4)]) 720 =
    Ret [[(5, 10); (0, 20)]; [(0, 5); (0, 10)]; [(0, 5); (10, 20)]]) by (vm_compute; reflexivity).
  destruct (split_S_block_weighted _ _ _ _ _ E) as (Hl & _ & t & perm & w & cut & Hp & _ & _ & Hb & Hall).
  split; [exact E|]. split; [exact Hl|]. exists t, perm, w, cut. split; [exact Hp|]. split; [exact Hb|]. exact Hall.
Defined.

(** ** The parts of a weighted split cover the block *)

Lemma omap_lookups {A} (l : list A) ks xs : Forall2 (fun k x => l !! k = Some x) ks xs -> omap (fun k => l !! k) ks = xs.
Proof. induction 1 as [|k x ks xs H _ IH]; [done|]. cbn. by rewrite H, IH. Qed.

Lemma omap_lookup_seq {A} (l : list A) : omap (fun k => l !! k) (seq 0 (length l)) = l.
Proof.
  apply omap_lookups, Forall2_same_length_lookup. rewrite length_seq. split; [done|]. intros i k x Hk Hx.
  apply lookup_seq in Hk as [-> _]. done.
Qed.

Lemma covers_perm dims n parts parts' : parts ≡ₚ parts' -> covers dims n parts -> covers dims n parts'.
Proof.
  intros Hp (Hl & Hh & Hb). unfold covers, zlen in *. rewrite <- Hp. split_and!; [done| |done]. intros cell Hc. rewrite <- (Hh cell Hc).
  unfold holders. symmetry. by rewrite (zsum_perm _ _ (Permutation_map _ Hp)).
Qed.

(** A weighted split whose cut positions are good, whatever the order of the weights. *)
Lemma split_S_block_covers dims n_parts ws max_it parts :
  (2 <= length dims)%nat -> (1 <= n_parts)%nat -> Forall (fun x => 0 < x) dims ->
  split_S_block dims n_parts (Some ws) max_it = Ret parts ->
  (forall t perm w, refine_times (n_parts - 1) (init_cut_tree (length dims)) dims = Ret t -> perm ≡ₚ imap pair ws ->
     apply_weights_to_cut_tree t (map snd perm) = Ret w -> cuts_ok dims t (Some w) = true) ->
  covers dims (Z.of_nat n_parts) parts.
Proof.
  intros Hd Hn Hdims E Hok. pose proof (split_S_block_weighted _ _ _ _ _ E) as (Hl & Hw & t & perm & w & cut & Hp & Et & Ew & Ec & Hall).
  specialize (Hok t perm w Et Hp Ew). destruct (length dims) as [|[|d]] eqn:El; [lia|lia|].
  destruct (shape_init (S d)) as (Hs & Ss & _). rewrite <- El in Hs at 1.
  destruct (refine_times_spec (n_parts - 1) _ dims Hs Hdims) as (t' & Et' & Ht & St). rewrite Et in Et'. injection Et' as <-.
  destruct (bounds_cover dims t (Some w) Ht) as (cut' & Ec' & Hcov); [lia|done|]. rewrite Ec in Ec'. injection Ec' as <-.
  rewrite Ss in St. replace (Z.of_nat n_parts) with (sum_leaves t) by lia. eapply covers_perm; [|exact Hcov].
  assert (Lp : length perm = n_parts) by (apply Permutation_length in Hp; rewrite length_imap in Hp; lia).
  assert (Lc : length cut = n_parts) by (destruct Hcov as [Hc _]; unfold zlen in Hc; lia).
  rewrite <- (omap_lookup_seq parts), Hl, <- Hw, <- imap_pair_fst, <- Hp. symmetry. rewrite (omap_lookups parts (map fst perm) cut); [done|].
  apply Forall2_same_length_lookup. rewrite length_map. split; [lia|]. intros i k x Hk Hx.
  apply list_lookup_fmap_Some in Hk as ([k' y] & -> & Hi). destruct (Hall i k' y Hi) as (_ & part & Hpart & Hcut). cbn. congruence.
Qed.

End CutTree.
