(* ===== verification/Sids.v ===== *)
(** * Reading of CGNS nodes: [maia/pytree/sids/node_inspect.py]

    The static methods of the classes Zone, Element, GridConnectivity, Subset, PointRange and
    PointList, named [Zone_n_cell] for [Zone.n_cell], the table of elements of [elements_utils.py], the
    helpers of [sids/utils.py], the index transformations of [maia/pytree/utils.py] and
    [Tree.find_connected_zones].  Each method begins with the check of the label that the class
    decorator adds. *)
From Stdlib Require Import Ascii.
From S2P Require Import Prelude PyUtils Numbering Values Fnmatch Tree Parsers Walkers Search.

Local Open Scope Z_scope.

Module Sids.
Import Values Tree Parsers Walkers Search.

(** ** Decorators and helpers *)
Definition check_is_label {A} (label : string) (n : node) (m : py A) : py A :=
  if bool_decide (get_label n = label) then m else Raise CGNSLabelNotEqualError.
Definition check_in_labels {A} (labels : list string) (n : node) (m : py A) : py A :=
  if bool_decide (get_label n ∈ labels) then m else Raise CGNSLabelNotEqualError.

Definition are_overlapping (range1 range2 : Z * Z) (strict : bool) : py bool :=
  _ ← py_assert ((range1.1 <=? range1.2) && (range2.1 <=? range2.2));
  Ret (if strict then (range1.1 <? range2.2) && (range2.1 <? range1.2)
       else (range1.1 <=? range2.2) && (range2.1 <=? range1.2)).

Definition expects_one {A} (L : list A) : py A :=
  match L with [x] => Ret x | _ => Raise RuntimeError end.

(** Among children, the nodes that satisfy a predicate which may raise, and the first of them: the
    searches of depth [1,1], which visit the children in order. *)
Fixpoint children_where (p : node -> py bool) (l : list node) : py (list node) :=
  match l with
  | [] => Ret []
  | c :: l' => b ← p c; r ← children_where p l'; Ret (if (b : bool) then c :: r else r)
  end.
Fixpoint child_where (p : node -> py bool) (l : list node) : py (option node) :=
  match l with
  | [] => Ret None
  | c :: l' => b ← p c; if (b : bool) then Ret (Some c) else child_where p l'
  end.

(** [node[1]] of a node that may be None, then an array. *)
Definition raw_of (n : option node) : py value := match n with Some n => Ret (get_raw n) | None => Raise TypeError end.
Definition array_of (v : value) : py nparray := of_option TypeError v.
(** [a[i]] of a one-dimensional array. *)
Definition elem (v : value) (i : Z) : py Z := a ← array_of v; py_get (a_data a) i.
(** [a[:,j]] *)
Definition column_of (v : value) (j : nat) : py (list Z) :=
  a ← array_of v;
  match a_shape a with
  | [d; k] =>
      if Z.of_nat j <? k then Ret (take (Z.to_nat d) (drop (j * Z.to_nat d) (a_data a))) else Raise IndexError
  | _ => Raise IndexError
  end.

(** [N.get_value(n)] of a node that may be None. *)
Definition value_of (n : option node) : py read_value :=
  match n with Some n => get_value n false | None => Raise TypeError end.
Definition is_text (v : read_value) (s : string) : bool :=
  match v with Text (Str t) => bool_decide (t = s) | _ => false end.
(** [N.get_value(n)[:,j]] *)
Definition value_column (n : node) (j : nat) : py (list Z) :=
  v ← get_value n false;
  match v with Raw v => column_of v j | Text _ => Raise TypeError end.

(** ** Elements *)

(** [elements_properties]: name, dimension, number of vertices, edges and faces, reference element. *)
Definition elements_properties : list (string * option Z * option Z * option Z * option Z * option string) :=
  let e name dim nvtx nedge nface ref := (name, Some dim, Some nvtx, Some nedge, Some nface, Some ref) in
  [("Null", None, None, None, None, None); ("UserDefined", None, None, None, None, None);
   e "NODE" 0 1 1 0 "NODE"; e "BAR_2" 1 2 1 0 "BAR"; e "BAR_3" 1 3 1 0 "BAR";
   e "TRI_3" 2 3 3 1 "TRI"; e "TRI_6" 2 6 3 1 "TRI";
   e "QUAD_4" 2 4 4 1 "QUAD"; e "QUAD_8" 2 8 4 1 "QUAD"; e "QUAD_9" 2 9 4 1 "QUAD";
   e "TETRA_4" 3 4 6 4 "TETRA"; e "TETRA_10" 3 10 6 4 "TETRA";
   e "PYRA_5" 3 5 8 5 "PYRA"; e "PYRA_14" 3 14 8 5 "PYRA";
   e "PENTA_6" 3 6 9 5 "PENTA"; e "PENTA_15" 3 15 9 5 "PENTA"; e "PENTA_18" 3 18 9 5 "PENTA";
   e "HEXA_8" 3 8 12 6 "HEXA"; e "HEXA_20" 3 20 12 6 "HEXA"; e "HEXA_27" 3 27 12 6 "HEXA";
   ("MIXED", None, None, None, None, None); e "PYRA_13" 3 13 8 5 "PYRA";
   ("NGON_n", Some 2, None, None, None, None); ("NFACE_n", Some 3, None, None, None, None);
   e "BAR_4" 1 4 1 0 "BAR"; e "TRI_9" 2 9 3 1 "TRI"; e "TRI_10" 2 10 3 1 "TRI";
   e "QUAD_12" 2 12 4 1 "QUAD"; e "QUAD_16" 2 16 4 1 "QUAD";
   e "TETRA_16" 3 16 6 4 "TETRA"; e "TETRA_20" 3 20 6 4 "TETRA";
   e "PYRA_21" 3 21 8 5 "PYRA"; e "PYRA_29" 3 29 8 5 "PYRA"; e "PYRA_30" 3 30 8 5 "PYRA";
   e "PENTA_24" 3 24 9 5 "PENTA"; e "PENTA_38" 3 38 9 5 "PENTA"; e "PENTA_40" 3 40 9 5 "PENTA";
   e "HEXA_32" 3 32 12 6 "HEXA"; e "HEXA_56" 3 56 12 6 "HEXA"; e "HEXA_64" 3 64 12 6 "HEXA";
   e "BAR_5" 1 5 1 0 "BAR"; e "TRI_12" 2 12 3 1 "TRI"; e "TRI_15" 2 15 3 1 "TRI";
   e "QUAD_P4_16" 2 16 4 1 "QUAD"; e "QUAD_25" 2 25 4 1 "QUAD";
   e "TETRA_22" 3 22 6 4 "TETRA"; e "TETRA_34" 3 34 6 4 "TETRA"; e "TETRA_35" 3 35 6 4 "TETRA";
   e "PYRA_P4_29" 3 29 8 5 "PYRA"; e "PYRA_50" 3 50 8 5 "PYRA"; e "PYRA_55" 3 55 8 5 "PYRA";
   e "PENTA_33" 3 33 9 5 "PENTA"; e "PENTA_66" 3 66 9 5 "PENTA"; e "PENTA_75" 3 75 9 5 "PENTA";
   e "HEXA_44" 3 44 12 6 "HEXA"; e "HEXA_98" 3 98 12 6 "HEXA"; e "HEXA_125" 3 125 12 6 "HEXA"].

Definition ep_name (ep : string * option Z * option Z * option Z * option Z * option string) : string :=
  let '(name, _, _, _, _, _) := ep in name.
Definition ep_dim (ep : string * option Z * option Z * option Z * option Z * option string) : option Z :=
  let '(_, dim, _, _, _, _) := ep in dim.
Definition ep_nvtx (ep : string * option Z * option Z * option Z * option Z * option string) : option Z :=
  let '(_, _, nvtx, _, _, _) := ep in nvtx.

Definition element_name (n : Z) : py string :=
  _ ← py_assert (n <? zlen elements_properties);
  ep ← py_get elements_properties n; Ret (ep_name ep).
Definition cgns_name_to_id (name : string) : py Z :=
  match list_find (eq name) (map ep_name elements_properties) with
  | Some (i, _) => Ret (Z.of_nat i)
  | None => Raise ValueError
  end.
Definition element_dim (n : Z) : py (option Z) :=
  _ ← py_assert (n <? zlen elements_properties);
  ep ← py_get elements_properties n; Ret (ep_dim ep).
Definition element_number_of_nodes (n : Z) : py (option Z) :=
  _ ← py_assert (n <? zlen elements_properties);
  ep ← py_get elements_properties n; Ret (ep_nvtx ep).

Section inspect.
Context `{ArrayEqual}.

Definition Element_Type (elt : node) : py Z := check_is_label "Elements_t" elt (elem (get_raw elt) 0).
Definition Element_CGNSName (elt : node) : py string :=
  check_is_label "Elements_t" elt (t ← Element_Type elt; element_name t).
Definition Element_Dimension (elt : node) : py (option Z) :=
  check_is_label "Elements_t" elt (t ← Element_Type elt; element_dim t).
Definition Element_NVtx (elt : node) : py (option Z) :=
  check_is_label "Elements_t" elt (t ← Element_Type elt; element_number_of_nodes t).
Definition Element_Range (elt : node) : py value :=
  check_is_label "Elements_t" elt (c ← get_child_from_name elt "ElementRange" no_kw; raw_of c).
Definition Element_Size (elt : node) : py Z :=
  check_is_label "Elements_t" elt
    (er ← Element_Range elt; last ← elem er 1; first ← elem er 0; Ret (last - first + 1)).

(** ** Zones *)

(** A size: an integer for an unstructured zone, one for each index for a structured zone. *)
Inductive zsize : Set := Total (n : Z) | PerIndex (l : list Z).
Definition np_prod (s : zsize) : Z := match s with Total n => n | PerIndex l => foldl Z.mul 1 l end.
Definition np_sum (s : zsize) : Z := match s with Total n => n | PerIndex l => zsum l end.

Definition Zone_IndexDimension (zone : node) : py Z :=
  check_is_label "Zone_t" zone (l ← value_column zone 0; Ret (zlen l)).
Definition Zone_Type (zone : node) : py read_value :=
  check_is_label "Zone_t" zone (n ← get_child_from_label zone (StrLabel "ZoneType_t") no_kw; value_of n).
Definition zone_size (zone : node) (j : nat) : py zsize :=
  check_is_label "Zone_t" zone
    (sizes ← value_column zone j;
     t ← Zone_Type zone;
     if is_text t "Unstructured" then n ← py_get sizes 0; Ret (Total n) else Ret (PerIndex sizes)).
Definition Zone_VertexSize (zone : node) : py zsize := zone_size zone 0.
Definition Zone_CellSize (zone : node) : py zsize := zone_size zone 1.
Definition Zone_VertexBoundarySize (zone : node) : py zsize := zone_size zone 2.
Definition Zone_n_vtx (zone : node) : py Z := check_is_label "Zone_t" zone (np_prod <$> Zone_VertexSize zone).
Definition Zone_n_cell (zone : node) : py Z := check_is_label "Zone_t" zone (np_prod <$> Zone_CellSize zone).
Definition Zone_n_vtx_bnd (zone : node) : py Z := check_is_label "Zone_t" zone (np_prod <$> Zone_VertexBoundarySize zone).

(** [N.get_label(n) == "Elements_t" and Element.CGNSName(n) == name] *)
Definition is_element (name : string) (n : node) : py bool :=
  if bool_decide (get_label n = "Elements_t") then s ← Element_CGNSName n; Ret (bool_decide (s = name))
  else Ret false.
Definition Zone_NGonNode (zone : node) : py node :=
  check_is_label "Zone_t" zone (ngons ← children_where (is_element "NGON_n") (get_children zone); expects_one ngons).
Definition Zone_NFaceNode (zone : node) : py node :=
  check_is_label "Zone_t" zone (nfaces ← children_where (is_element "NFACE_n") (get_children zone); expects_one nfaces).
Definition Zone_has_ngon_elements (zone : node) : py bool :=
  check_is_label "Zone_t" zone (o ← child_where (is_element "NGON_n") (get_children zone); Ret (bool_decide (is_Some o))).
Definition Zone_has_nface_elements (zone : node) : py bool :=
  check_is_label "Zone_t" zone (o ← child_where (is_element "NFACE_n") (get_children zone); Ret (bool_decide (is_Some o))).

(** [compute_nface_per_direction] *)
Definition compute_nface_per_direction (d dim : Z) (vtx_size cell_size : list Z) : py Z :=
  v ← py_get vtx_size (d mod dim);
  c1 ← (if 2 <=? dim then py_get cell_size ((d + 1) mod dim) else Ret 1);
  c2 ← (if dim =? 3 then py_get cell_size ((d + 2) mod dim) else Ret 1);
  Ret (v * c1 * c2).
Definition Zone_FaceSize (zone : node) : py zsize :=
  check_is_label "Zone_t" zone
    (vtx_size ← Zone_VertexSize zone;
     cell_size ← Zone_CellSize zone;
     t ← Zone_Type zone;
     if is_text t "Structured" then
       match vtx_size, cell_size with
       | PerIndex vs, PerIndex cs =>
           PerIndex <$> mapM (fun d => compute_nface_per_direction d (zlen vs) vs cs) (arange 0 (zlen vs))
       | _, _ => Raise TypeError
       end
     else if is_text t "Unstructured" then
       ngon_node ← Zone_NGonNode zone;
       c ← get_child_from_name ngon_node "ElementRange" no_kw;
       er ← raw_of c; last ← elem er 1; first ← elem er 0;
       Ret (Total (last - first + 1))
     else Raise TypeError).
Definition Zone_n_face (zone : node) : py Z := check_is_label "Zone_t" zone (np_sum <$> Zone_FaceSize zone).

(** The coordinates arrays. *)
Definition opt_value (n : option node) : py (option read_value) :=
  match n with Some n => Some <$> get_value n false | None => Ret None end.
Definition Zone_coordinates (zone : node) (name : option string)
    : py (option read_value * option read_value * option read_value) :=
  check_is_label "Zone_t" zone
    (gc ← match name with
          | None => get_child_from_label zone (StrLabel "GridCoordinates_t") no_kw
          | Some nm => get_child_from_predicate zone
                         (QPred (fun n => match_name_label n nm (StrLabel "GridCoordinates_t"))) no_kw
          end;
     match gc with
     | None => Raise RuntimeError
     | Some gc =>
         x_node ← get_child_from_name gc "CoordinateX" no_kw;
         y_node ← get_child_from_name gc "CoordinateY" no_kw;
         z_node ← get_child_from_name gc "CoordinateZ" no_kw;
         x ← opt_value x_node; y ← opt_value y_node; z ← opt_value z_node;
         Ret (x, y, z)
     end).
Definition Zone_ngon_connectivity (zone : node) : py (read_value * read_value * read_value) :=
  check_is_label "Zone_t" zone
    (ngon_node ← Zone_NGonNode zone;
     c1 ← get_child_from_name ngon_node "ElementStartOffset" no_kw; face_vtx_idx ← value_of c1;
     c2 ← get_child_from_name ngon_node "ElementConnectivity" no_kw; face_vtx ← value_of c2;
     c3 ← get_child_from_name ngon_node "ParentElements" no_kw; ngon_pe ← value_of c3;
     Ret (face_vtx_idx, face_vtx, ngon_pe)).

(** The elements by increasing first number; [sorted] computes the keys first and is stable. *)
Definition with_start (e : node) : py (Z * node) := r ← Element_Range e; s ← elem r 0; Ret (s, e).
Definition Zone_get_ordered_elements (zone : node) : py (list node) :=
  check_is_label "Zone_t" zone
    (elts ← get_children_from_predicate zone (QPred (fun n => match_label n (StrLabel "Elements_t"))) no_kw;
     keyed ← mapM with_start elts;
     Ret (map snd (sort_by (fun a b => a.1 <=? b.1) keyed))).

(** [bucket_split] on the dimension, which has to be an integer. *)
Definition with_dim (e : node) : py (Z * node) :=
  d ← Element_Dimension e; d ← of_option TypeError d; Ret (d, e).
Definition Zone_get_ordered_elements_per_dim (zone : node) : py (list (list node)) :=
  check_is_label "Zone_t" zone
    (elts ← Zone_get_ordered_elements zone;
     keyed ← mapM with_dim elts;
     buckets ← PyUtils.bucket_split keyed fst false (Some 4);
     Ret (map (map snd) buckets)).

Definition dim_range (elts : list node) : py (Z * Z) :=
  match elts with
  | [] => Ret (0, 0)
  | e :: _ =>
      r ← Element_Range e; first ← elem r 0;
      e' ← py_get elts (-1); r' ← Element_Range e'; last ← elem r' 1;
      Ret (first, last)
  end.
(** No two ranges overlap: [itertools.combinations(ranges, 2)]. *)
Fixpoint check_ranges (l : list (Z * Z)) : py () :=
  match l with
  | [] => Ret ()
  | r :: l' =>
      _ ← mapM (fun r' => b ← are_overlapping r r' true; if (b : bool) then Raise RuntimeError else Ret ()) l';
      check_ranges l'
  end.
Definition Zone_get_elt_range_per_dim (zone : node) : py (list (Z * Z)) :=
  check_is_label "Zone_t" zone
    (by_dim ← Zone_get_ordered_elements_per_dim zone;
     ranges ← mapM dim_range by_dim;
     _ ← check_ranges ranges;
     Ret ranges).
Definition Zone_elt_ordering_by_dim (zone : node) : py Z :=
  check_is_label "Zone_t" zone
    (ranges ← Zone_get_elt_range_per_dim zone;
     let sect_start := filter (fun s => 0 < s) (map fst ranges) in
     if 2 <=? zlen sect_start then
       first ← py_get sect_start 0; last ← py_get sect_start (-1);
       Ret (if first <? last then 1 else if last <? first then -1 else 0)
     else Ret 0).

(** The dimension of an element that is not MIXED. *)
Definition elt_dims (elts : list node) : py (list (option Z)) :=
  elts ← children_where (fun n => s ← Element_CGNSName n; Ret (negb (bool_decide (s = "MIXED")))) elts;
  mapM Element_Dimension elts.
Definition Zone_CellDimension (zone : node) : py (option Z) :=
  check_is_label "Zone_t" zone
    (t ← Zone_Type zone;
     if is_text t "Structured" then Some <$> Zone_IndexDimension zone else
     nface ← Zone_has_nface_elements zone;
     if (nface : bool) then Ret (Some 3) else
     ngon ← Zone_has_ngon_elements zone;
     if (ngon : bool) then
       ngon_node ← Zone_NGonNode zone;
       pe ← get_child_from_name ngon_node "ParentElements" no_kw;
       Ret (Some (if bool_decide (is_Some pe) then 3 else 2))
     else
       elts ← get_children_from_predicate zone (QPred (fun n => match_label n (StrLabel "Elements_t"))) no_kw;
       dims ← elt_dims elts;
       match dims with
       | [] => Raise ValueError
       | [d] => Ret d
       | _ => ds ← mapM (of_option TypeError) dims; Some <$> py_max ds
       end).

(** ** Connectivities *)
Definition gc_labels : list string := ["GridConnectivity_t"; "GridConnectivity1to1_t"].

Definition GridConnectivity_Type (gc : node) : py read_value :=
  check_in_labels gc_labels gc
    (if bool_decide (get_label gc = "GridConnectivity1to1_t") then Ret (Text (Str "Abutting1to1"))
     else
       n ← get_child_from_name gc "GridConnectivityType" no_kw;
       match n with Some n => get_value n false | None => Ret (Text (Str "Overset")) end).
Definition GridConnectivity_is1to1 (gc : node) : py bool :=
  check_in_labels gc_labels gc (t ← GridConnectivity_Type gc; Ret (is_text t "Abutting1to1")).
Definition GridConnectivity_isperiodic (gc : node) : py bool :=
  check_in_labels gc_labels gc
    (n ← get_node_from_label gc (StrLabel "Periodic_t") (with_depth (DSeq [Some 2; Some 2]) no_kw);
     Ret (bool_decide (is_Some n))).

(** [Transform]: the vector, by default [1,2,3], and the matrix. *)
Definition GridConnectivity_Transform (gc : node) : py (list Z) :=
  check_in_labels gc_labels gc
    (n ← get_child_from_name gc "Transform" no_kw;
     match n with Some n => a ← array_of (get_raw n); Ret (a_data a) | None => Ret [1; 2; 3] end).
Definition transform_matrix (transform : list Z) : list (list Z) :=
  map (fun k => map (fun t => Z.sgn t * (if Z.abs t =? Z.abs (k + 1) then 1 else 0)) transform)
    (arange 0 (zlen transform)).

(** [opp if '/' in opp else cur_base_name + '/' + opp] *)
Definition donor_path (cur_base_name opp : string) : string :=
  if has_slash opp then opp else cur_base_name +:+ "/" +:+ opp.
Definition GridConnectivity_ZoneDonorPath (gc : node) (cur_base_name : string) : py string :=
  check_in_labels gc_labels gc
    (opp ← get_value gc false;
     match opp with Text (Str s) => Ret (donor_path cur_base_name s) | _ => Raise TypeError end).

(** ** Subsets *)
Definition PointRange_SizePerIndex (pr : node) : py (list Z) :=
  check_is_label "IndexRange_t" pr
    (c0 ← column_of (get_raw pr) 0; c1 ← column_of (get_raw pr) 1;
     Ret (zip_with (fun a b => Z.abs (b - a) + 1) c0 c1)).
Definition PointRange_n_elem (pr : node) : py Z :=
  check_is_label "IndexRange_t" pr (l ← PointRange_SizePerIndex pr; Ret (foldl Z.mul 1 l)).
Definition PointList_n_elem (pl : node) : py Z :=
  check_is_label "IndexArray_t" pl
    (v ← get_value pl false;
     match v with Raw (Some a) => py_get (a_shape a) 1 | _ => Raise AttributeError end).

Definition subset_labels : list string :=
  ["FlowSolution_t"; "DiscreteData_t"; "ZoneSubRegion_t"; "BC_t"; "BCDataSet_t"; "GridConnectivity_t";
   "GridConnectivity1to1_t"].

Definition Subset_getPatch (subset : node) : py node :=
  check_in_labels subset_labels subset
    (pl ← get_child_from_name subset "PointList" no_kw;
     pr ← get_child_from_name subset "PointRange" no_kw;
     match pl, pr with
     | Some pl, None => Ret pl
     | None, Some pr => Ret pr
     | _, _ => Raise AssertionError
     end).
Definition Subset_n_elem (subset : node) : py Z :=
  check_in_labels subset_labels subset
    (patch ← Subset_getPatch subset;
     if bool_decide (get_label patch = "IndexArray_t") then PointList_n_elem patch else PointRange_n_elem patch).
Definition Subset_GridLocation (subset : node) : py read_value :=
  check_in_labels subset_labels subset
    (n ← get_child_from_label subset (StrLabel "GridLocation_t") no_kw;
     match n with Some n => get_value n false | None => Ret (Text (Str "Vertex")) end).
(** [np.nonzero(cst_axis)[0][0]] when one axis is constant. *)
Definition constant_axis (pr : value) : py Z :=
  c0 ← column_of pr 0; c1 ← column_of pr 1;
  match filter (fun '(i, (a, b)) => a = b) (imap pair (zip c0 c1)) with
  | [(i, _)] => Ret (Z.of_nat i)
  | _ => Raise ValueError
  end.
Definition Subset_normal_axis (subset : node) : py Z :=
  check_in_labels subset_labels subset
    (loc ← Subset_GridLocation subset;
     if is_text loc "IFaceCenter" then Ret 0 else
     if is_text loc "JFaceCenter" then Ret 1 else
     if is_text loc "KFaceCenter" then Ret 2 else
     pr ← get_child_from_name subset "PointRange" no_kw;
     match pr with Some pr => constant_axis (get_raw pr) | None => Raise ValueError end).

(** The names [N.get_value(region_name)] designates; a name never equals a value that is not text. *)
Definition named_by (v : read_value) (n : node) : bool := is_text v (get_name n).
Definition Subset_ZSRExtent (zsr zone : node) : py string :=
  check_in_labels subset_labels zsr
    (bc ← get_child_from_name zsr "BCRegionName" no_kw;
     gc ← get_child_from_name zsr "GridConnectivityRegionName" no_kw;
     paths ← match bc, gc with
             | Some bc, _ =>
                 v ← get_value bc false;
                 predicates_to_paths zone (QsList [EQuery (QStr "ZoneBC_t");
                   EQuery (QPred (fun n => bool_decide (get_label n = "BC_t") && named_by v n))])
             | None, Some gc =>
                 v ← get_value gc false;
                 predicates_to_paths zone (QsList [EQuery (QStr "ZoneGridConnectivity_t");
                   EQuery (QPred (fun n => bool_decide (get_label n ∈ gc_labels) && named_by v n))])
             | None, None => Ret [get_name zsr]
             end;
     match paths with [p] => Ret p | _ => Raise ValueError end).

(** ** Index transformations *)
Definition dot (row v : list Z) : Z := zsum (zip_with Z.mul row v).
Definition matmul (m : list (list Z)) (v : list Z) : list Z := map (fun row => dot row v) m.
Definition _gc_transform_point (index_1 start_1 start_2 : list Z) (tr : list (list Z)) : list Z :=
  zip_with Z.add (matmul tr (zip_with Z.sub index_1 start_1)) start_2.
Definition _gc_transform_window (window_1 : list Z * list Z) (start_1 start_2 : list Z) (tr : list (list Z))
    : list Z * list Z :=
  (_gc_transform_point window_1.1 start_1 start_2 tr, _gc_transform_point window_1.2 start_1 start_2 tr).
(** The first points of the window and of the donor window, and the matrix. *)
Definition gc_frame (gc : node) : py (list Z * list Z * list (list Z)) :=
  pr ← get_child_from_name gc "PointRange" no_kw; pr ← raw_of pr; start_1 ← column_of pr 0;
  prd ← get_child_from_name gc "PointRangeDonor" no_kw; prd ← raw_of prd; start_2 ← column_of prd 0;
  t ← GridConnectivity_Transform gc;
  Ret (start_1, start_2, transform_matrix t).
Definition gc_transform_point (gc : node) (idx : list Z) : py (list Z) :=
  f ← gc_frame gc; let '(start_1, start_2, tr) := f in Ret (_gc_transform_point idx start_1 start_2 tr).
Definition gc_transform_window (gc : node) (window : list Z * list Z) : py (list Z * list Z) :=
  f ← gc_frame gc; let '(start_1, start_2, tr) := f in Ret (_gc_transform_window window start_1 start_2 tr).

(** ** Connected zones *)
Definition matching_gcs (n : node) : py bool :=
  b ← (if bool_decide (get_label n = "GridConnectivity_t") then
         m ← GridConnectivity_is1to1 n;
         Ret (m || bool_decide (get_label n = "GridConnectivity1to1_t"))
       else Ret (bool_decide (get_label n = "GridConnectivity1to1_t")));
  if (b : bool) then
    p ← get_child_from_label n (StrLabel "GridConnectivityProperty_t") no_kw; Ret (negb (bool_decide (is_Some p)))
  else Ret false.
(** The connectivities of a zone: two searches of depth [1,1], the second with a predicate that may raise. *)
Definition zone_gcs (zone : node) : py (list node) :=
  zgcs ← iter_children_from_label zone (StrLabel "ZoneGridConnectivity_t") no_kw;
  gcs ← mapM (fun zgc => children_where matching_gcs (get_children zgc)) zgcs;
  Ret (concat gcs).
Definition zone_group (tree : node) (zone_path : string) : py (list string) :=
  zone ← of_option TypeError (get_node_from_path tree zone_path);
  gcs ← zone_gcs zone;
  opps ← mapM (fun gc => GridConnectivity_ZoneDonorPath gc (path_head zone_path (-1))) gcs;
  Ret (foldl PyUtils.append_unique [zone_path] opps).

(** The groups that hold a zone are popped, from the last one, and their union is appended. *)
Definition merge_on (groups : list (list string)) (zone_path : string) : list (list string) :=
  match filter (fun g => zone_path ∈ g) groups with
  | [] => groups
  | to_merge =>
      filter (fun g => zone_path ∉ g) groups ++ [foldl (foldl PyUtils.append_unique) [] (reverse to_merge)]
  end.
Definition merge_groups (zone_paths : list string) (groups : list (list string)) : list (list string) :=
  foldl merge_on groups zone_paths.

Definition Tree_find_connected_zones (tree : node) : py (list (list string)) :=
  check_is_label "CGNSTree_t" tree
    (zone_paths ← predicates_to_paths tree (QsPath "CGNSBase_t/Zone_t");
     groups ← mapM (zone_group tree) zone_paths;
     Ret (map (sort_by String.leb) (merge_groups zone_paths groups))).

End inspect.

(** ** Groups of connected zones *)

(** Two zones are connected when they are in a same initial group, or through a zone of the tree. *)
Inductive Conn (groups : list (list string)) (zones : list string) : string -> string -> Prop :=
| conn_link g a b : g ∈ groups -> a ∈ g -> b ∈ g -> Conn groups zones a b
| conn_through a z b : z ∈ zones -> Conn groups zones a z -> Conn groups zones z b -> Conn groups zones a b.

Section components.

Lemma elem_of_append_unique (L : list string) x y : y ∈ PyUtils.append_unique L x <-> y ∈ L \/ y = x.
Proof.
  unfold PyUtils.append_unique. case_bool_decide as Hin; [naive_solver|].
  rewrite elem_of_app, list_elem_of_singleton. done.
Qed.

Lemma elem_of_extend_unique (l L : list string) y : y ∈ foldl PyUtils.append_unique L l <-> y ∈ L \/ y ∈ l.
Proof.
  revert L. induction l as [|x l IH]; intros L; cbn [foldl]; [set_solver|].
  rewrite IH, elem_of_append_unique. set_solver.
Qed.

Lemma elem_of_union (gs : list (list string)) acc y :
  y ∈ foldl (foldl PyUtils.append_unique) acc gs <-> y ∈ acc \/ exists g, g ∈ gs /\ y ∈ g.
Proof.
  revert acc. induction gs as [|g gs IH]; intros acc; cbn [foldl]; [set_solver|].
  rewrite IH, elem_of_extend_unique. set_solver.
Qed.

(** The number of groups that hold a zone. *)
Definition holding (z : string) (groups : list (list string)) : nat := length (filter (fun g => z ∈ g) groups).

Lemma holding_app z gs hs : holding z (gs ++ hs) = (holding z gs + holding z hs)%nat.
Proof. unfold holding. by rewrite filter_app, length_app. Qed.

Lemma holding_0 z groups : holding z groups = 0%nat <-> forall g, g ∈ groups -> z ∉ g.
Proof.
  unfold holding. rewrite length_zero_iff_nil. split.
  - intros E g Hg Hz. assert (g ∈ filter (fun g => z ∈ g) groups) as Hin by (by apply list_elem_of_filter).
    rewrite E in Hin. by apply not_elem_of_nil in Hin.
  - intros H. destruct (filter _ groups) as [|g l] eqn:E; [done|]. exfalso.
    assert (Hg : g ∈ filter (fun g => z ∈ g) groups) by (rewrite E; left). apply list_elem_of_filter in Hg as [Hz Hg].
    by apply (H g).
Qed.

Lemma holding_split z (P : list string -> Prop) `{!forall g, Decision (P g)} groups :
  holding z groups = (holding z (filter P groups) + holding z (filter (fun g => ~ P g) groups))%nat.
Proof.
  unfold holding. induction groups as [|g groups IH]; [done|]. rewrite !filter_cons.
  destruct (decide (P g)), (decide (¬ P g)); try tauto; rewrite ?filter_cons; destruct (decide (z ∈ g)); cbn; lia.
Qed.

Lemma holding_unique z groups g h : holding z groups = 1%nat -> g ∈ groups -> h ∈ groups -> z ∈ g -> z ∈ h -> g = h.
Proof.
  unfold holding. intros H1 Hg Hh Hzg Hzh. destruct (filter _ groups) as [|x [|]] eqn:E; try done.
  assert (Hg' : g ∈ filter (fun g => z ∈ g) groups) by (by apply list_elem_of_filter).
  assert (Hh' : h ∈ filter (fun g => z ∈ g) groups) by (by apply list_elem_of_filter).
  rewrite E in Hg', Hh'. apply list_elem_of_singleton in Hg', Hh'. congruence.
Qed.

(** The merge on a zone, for a zone that some group holds. *)
Lemma merge_on_spec groups z :
  holding z groups <> 0%nat ->
  exists u, merge_on groups z = filter (fun g => z ∉ g) groups ++ [u] /\
    forall y, y ∈ u <-> exists g, g ∈ groups /\ z ∈ g /\ y ∈ g.
Proof.
  intros Hz. unfold merge_on. destruct (filter (fun g => z ∈ g) groups) as [|g0 l] eqn:E.
  { unfold holding in Hz. by rewrite E in Hz. }
  eexists. split; [done|]. intros y. rewrite elem_of_union. setoid_rewrite elem_of_reverse. rewrite <- E.
  setoid_rewrite list_elem_of_filter. set_solver.
Qed.

Lemma merge_on_none groups z : holding z groups = 0%nat -> merge_on groups z = groups.
Proof. intros H. unfold merge_on. unfold holding in H. by apply length_zero_iff_nil in H as ->. Qed.

Lemma merge_on_holding groups z y :
  holding y groups = 1%nat \/ y = z /\ holding y groups <> 0%nat -> holding y (merge_on groups z) = 1%nat.
Proof.
  intros Hy. destruct (decide (holding z groups = 0%nat)) as [Hz|Hz].
  { rewrite merge_on_none by done. destruct Hy as [|[-> ?]]; done. }
  destruct (merge_on_spec groups z Hz) as (u & -> & Hu). rewrite holding_app.
  pose proof (holding_split y (fun g => z ∈ g) groups) as Hsplit. cbn beta in Hsplit.
  destruct (decide (y ∈ u)) as [Hyu|Hyu].
  - assert (holding y [u] = 1%nat) as -> by (unfold holding; by rewrite filter_cons_True).
    assert (holding y (filter (fun g => z ∉ g) groups) = 0%nat); [|lia].
    destruct Hy as [Hy|[-> _]].
    + apply Hu in Hyu as (g & Hg & Hzg & Hyg).
      assert (holding y (filter (fun g => z ∈ g) groups) <> 0%nat); [|lia].
      rewrite holding_0. intros Hn. apply (Hn g); [by apply list_elem_of_filter|done].
    + apply holding_0. intros g Hg. by apply list_elem_of_filter in Hg as [? _].
  - assert (holding y [u] = 0%nat) as -> by (unfold holding; by rewrite filter_cons_False).
    assert (holding y (filter (fun g => z ∈ g) groups) = 0%nat) as H0.
    { apply holding_0. intros g Hg Hyg. apply list_elem_of_filter in Hg as [Hzg Hg]. apply Hyu, Hu. eauto. }
    destruct Hy as [Hy|[-> Hy]]; [lia|]. exfalso. apply Hyu, Hu.
    unfold holding in Hy. destruct (filter (fun g => z ∈ g) groups) as [|g l] eqn:E; [done|].
    assert (Hg : g ∈ filter (fun g => z ∈ g) groups) by (rewrite E; left). apply list_elem_of_filter in Hg as [? ?]. eauto.
Qed.

Context (init : list (list string)) (zones : list string).

(** The invariant of the merges: nothing is lost, and groups only hold connected zones. *)
Definition groups_ok (groups : list (list string)) : Prop :=
  (forall g, g ∈ init -> exists h, h ∈ groups /\ forall y, y ∈ g -> y ∈ h) /\
  (forall h a b, h ∈ groups -> a ∈ h -> b ∈ h -> Conn init zones a b).

Lemma merge_on_ok groups z : z ∈ zones -> groups_ok groups -> groups_ok (merge_on groups z).
Proof using Type.
  intros Hz [Hcov Hconn]. destruct (decide (holding z groups = 0%nat)) as [H0|H0]; [by rewrite merge_on_none|].
  destruct (merge_on_spec groups z H0) as (u & -> & Hu). split.
  - intros g Hg. destruct (Hcov g Hg) as (h & Hh & Hsub). destruct (decide (z ∈ h)) as [Hzh|Hzh].
    + exists u. split; [apply elem_of_app; right; by apply list_elem_of_singleton|]. intros y Hy. apply Hu. eauto.
    + exists h. split; [|done]. apply elem_of_app. left. by apply list_elem_of_filter.
  - intros h a b Hh Ha Hb. apply elem_of_app in Hh as [Hh|Hh%list_elem_of_singleton].
    + apply list_elem_of_filter in Hh as [_ Hh]. by eapply Hconn.
    + subst h. apply Hu in Ha as (g1 & Hg1 & Hz1 & Ha). apply Hu in Hb as (g2 & Hg2 & Hz2 & Hb).
      apply (conn_through _ _ _ z); [done|by apply (Hconn g1)|by apply (Hconn g2)].
Qed.

Lemma merge_all todo (dn : list string) groups :
  groups_ok groups -> (forall z, z ∈ todo -> z ∈ zones) ->
  (forall z, z ∈ zones -> exists g, g ∈ init /\ z ∈ g) ->
  (forall z, z ∈ dn -> holding z groups = 1%nat) ->
  groups_ok (foldl merge_on groups todo) /\
  forall z, z ∈ dn \/ z ∈ todo -> holding z (foldl merge_on groups todo) = 1%nat.
Proof using Type.
  revert dn groups. induction todo as [|z todo IH]; intros dn groups Hok Htodo Hin Hdone; cbn [foldl].
  { split; [done|]. intros y [Hy|Hy]; [by apply Hdone|by apply not_elem_of_nil in Hy]. }
  destruct (IH (z :: dn) (merge_on groups z)) as [H1 H2].
  - apply merge_on_ok; [apply Htodo; left|done].
  - intros y Hy. apply Htodo. by right.
  - done.
  - intros y Hy. apply merge_on_holding. apply elem_of_cons in Hy as [->|Hy]; [right|left; by apply Hdone].
    split; [done|]. destruct (Hin z) as (g & Hg & Hzg); [apply Htodo; left|].
    destruct (proj1 Hok g Hg) as (h & Hh & Hsub). rewrite holding_0. intros Hn. by apply (Hn h); [|apply Hsub].
  - split; [done|]. intros y Hy. apply H2. set_solver.
Qed.

Lemma same_group_conn groups a b :
  groups_ok groups -> (forall z, z ∈ zones -> holding z groups = 1%nat) ->
  Conn init zones a b <-> exists g, g ∈ groups /\ a ∈ g /\ b ∈ g.
Proof using Type.
  intros [Hcov Hconn] Huniq. split; [|intros (g & Hg & Ha & Hb); by eapply Hconn].
  induction 1 as [g a b Hg Ha Hb|a z b Hz _ (g & Hg & Ha & Hzg) _ (h & Hh & Hzh & Hb)].
  - destruct (Hcov g Hg) as (h & Hh & Hsub). exists h. split_and!; auto.
  - exists g. split_and!; [done|done|]. by rewrite (holding_unique z groups g h (Huniq z Hz) Hg Hh Hzg Hzh).
Qed.

End components.

Lemma zone_group_self `{ArrayEqual} tree z g : zone_group tree z = Ret g -> z ∈ g.
Proof. unfold zone_group. intros E. inv_py. apply elem_of_extend_unique. left. by apply list_elem_of_singleton. Qed.

(** C8: [find_connected_zones] computes connected components: when the groups read from the tree are
    [groups], one for each zone with the zones its matching connectivities name, the result holds every
    zone of the tree in exactly one group, and two zones are in a same group exactly when a chain of
    zones of the tree links them; the groups are sorted. *)
Theorem find_connected_zones_spec `{ArrayEqual} tree zones groups :
  get_label tree = "CGNSTree_t" ->
  predicates_to_paths tree (QsPath "CGNSBase_t/Zone_t") = Ret zones ->
  mapM (zone_group tree) zones = Ret groups ->
  exists result, Tree_find_connected_zones tree = Ret result /\
    (forall z, z ∈ zones -> holding z result = 1%nat) /\
    (forall a b, (exists g, g ∈ result /\ a ∈ g /\ b ∈ g) <-> Conn groups zones a b) /\
    (forall g, g ∈ result -> StronglySorted (fun a b => String.leb a b = true) g).
Proof.
  intros Hl Hz Hg. unfold Tree_find_connected_zones, check_is_label. rewrite bool_decide_eq_true_2 by done.
  rewrite Hz. cbn [mbind py_bind]. rewrite Hg. cbn [mbind py_bind].
  assert (Hself : forall z, z ∈ zones -> exists g, g ∈ groups /\ z ∈ g).
  { intros z (i & Hi)%list_elem_of_lookup. apply py_mapM_Ret in Hg. destruct (Forall2_lookup_l _ _ _ _ _ Hg Hi) as (g & Hgi & E).
    exists g. split; [by eapply list_elem_of_lookup_2|by eapply zone_group_self]. }
  destruct (merge_all groups zones zones [] groups) as [Hok Hone]; [split|done|done|by intros ? []%not_elem_of_nil|].
  { intros g Hin. by exists g. }
  { intros h a b Hh Ha Hb. by eapply conn_link. }
  set (merged := merge_groups zones groups) in *. exists (map (sort_by String.leb) merged).
  assert (Hsort : forall (g : list string) y, y ∈ sort_by String.leb g <-> y ∈ g) by (intros; by rewrite (sort_by_perm String.leb)).
  split; [done|]. split_and!.
  - intros z Hz'. rewrite <- (Hone z (or_intror Hz')). unfold holding, merged. clear. 
    change (foldl merge_on groups zones) with (merge_groups zones groups).
    induction (merge_groups zones groups) as [|g gs IH]; [done|]. cbn [map]. rewrite !filter_cons.
    destruct (decide (z ∈ sort_by String.leb g)) as [Hin|Hin], (decide (z ∈ g)) as [Hin'|Hin']; cbn; rewrite ?IH; try done;
      rewrite (sort_by_perm String.leb) in Hin; contradiction.
  - intros a b. rewrite (same_group_conn groups zones merged) by (done || (intros z Hz'; apply Hone; by right)).
    split; intros (g & Hin & Ha & Hb).
    + apply list_elem_of_fmap in Hin as (h & -> & Hh). exists h. by rewrite !Hsort in *.
    + exists (sort_by String.leb g). rewrite !Hsort. split_and!; [|done|done]. apply list_elem_of_fmap. eauto.
  - intros g (h & -> & _)%list_elem_of_fmap. apply sort_strings_sorted.
Qed.

(** Three zones, of which the first two are joined. *)
Definition text_value (s : string) : value := Some (NpArray T_C1 [Z.of_nat (String.length s)] true (codes s)).
Definition example_zone (name donor : string) : node :=
  Node name None [Node "ZGC" None [Node "match" (text_value donor) [] "GridConnectivity1to1_t"]
                    "ZoneGridConnectivity_t"] "Zone_t".
Definition example_tree : node :=
  Node "CGNSTree" None
    [Node "Base" None [example_zone "A" "Base/C"; Node "B" None [] "Zone_t"; example_zone "C" "A"] "CGNSBase_t"]
    "CGNSTree_t".

Lemma find_connected_zones_spec_witness :
  let ae : ArrayEqual := fun _ _ => true in
  exists result, Tree_find_connected_zones example_tree = Ret result /\
    result = [["Base/B"]; ["Base/A"; "Base/C"]] /\ holding "Base/A" result = 1%nat.
Proof.
  cbn zeta. set (ae := (fun _ _ => true) : ArrayEqual).
  destruct (@find_connected_zones_spec ae example_tree ["Base/A"; "Base/B"; "Base/C"]
    [["Base/A"; "Base/C"]; ["Base/B"]; ["Base/C"; "Base/A"]]) as (result & E & H1 & _); [reflexivity..|].
  exists result. split; [done|]. split; [|apply H1; left]. vm_compute in E. by injection E as <-.
Defined.

(** ** The table of elements *)

(** The names of the table of elements are distinct: the identifier of the name of an element is
    the element, and a number outside the table has no name. *)
Theorem element_table_roundtrip n :
  0 <= n ->
  if n <? 57 then exists name, element_name n = Ret name /\ cgns_name_to_id name = Ret n
  else element_name n = Raise AssertionError.
Proof.
  intros Hn. unfold element_name. change (zlen elements_properties) with 57.
  destruct (Z.ltb_spec n 57) as [Hlt|]; [|done]. cbn [py_assert mbind py_bind].
  assert (Hall : forallb (fun i => match py_get elements_properties i with
                                   | Ret ep => match cgns_name_to_id (ep_name ep) with Ret j => j =? i | Raise _ => false end
                                   | Raise _ => false
                                   end) (arange 0 57) = true) by (vm_compute; reflexivity).
  rewrite forallb_forall in Hall. specialize (Hall n). rewrite <- list_elem_of_In, elem_of_arange in Hall.
  specialize (Hall (conj Hn Hlt)). destruct (py_get elements_properties n) as [ep|]; [|done].
  destruct (cgns_name_to_id (ep_name ep)) as [j|] eqn:E; [|done]. apply Z.eqb_eq in Hall as ->. cbn. eauto.
Qed.

Lemma element_table_roundtrip_witness : exists name, element_name 17 = Ret name /\ cgns_name_to_id name = Ret 17.
Proof. apply (element_table_roundtrip 17). lia. Defined.

(** ** Transformations are reversible *)

(** The transformation of the opposite connectivity. *)
Definition opposite_transform (t : list Z) : list Z :=
  map (fun k => zsum (imap (fun j x => if Z.abs x =? k then Z.sgn x * (Z.of_nat j + 1) else 0) t)) (arange 1 (zlen t + 1)).

Lemma signed_values t x : map Z.abs t ≡ₚ arange 1 (zlen t + 1) -> x ∈ t -> 1 <= Z.abs x <= zlen t.
Proof.
  intros Ht Hx. assert (Hin : Z.abs x ∈ map Z.abs t) by (apply list_elem_of_fmap; eauto).
  rewrite Ht in Hin. apply elem_of_arange in Hin. lia.
Qed.

Ltac eval_transform :=
  repeat match goal with |- context [transform_matrix ?t] =>
    let m := eval vm_compute in (transform_matrix t) in change (transform_matrix t) with m end;
  unfold _gc_transform_point, matmul, dot, zsum; cbn [map zip_with foldr].
Ltac list_lia := first [reflexivity | apply (f_equal2 cons); [lia | list_lia]].

(** A signed permutation of the axes. *)
Definition signed_perm (t : list Z) : Prop := map Z.abs t ≡ₚ arange 1 (zlen t + 1) /\ (length t <= 3)%nat.

(** There are finitely many of them. *)
Fixpoint signed_lists (n : Z) (k : nat) : list (list Z) :=
  match k with
  | 0%nat => [[]]
  | S k => flat_map (fun l => flat_map (fun x => if bool_decide (x <> 0 /\ Z.abs x ∉ map Z.abs l) then [x :: l] else []) (arange (- n) (n + 1))) (signed_lists n k)
  end.
Definition signed_perms : list (list Z) := [[]] ++ signed_lists 1 1 ++ signed_lists 2 2 ++ signed_lists 3 3.

Lemma elem_of_signed_lists n l :
  0 <= n -> Forall (fun x => 1 <= Z.abs x <= n) l -> NoDup (map Z.abs l) -> l ∈ signed_lists n (length l).
Proof.
  intros Hn. induction l as [|x l IH]; intros Hf Hd; [by left|]. apply Forall_cons in Hf as [Hx Hf]. apply NoDup_cons in Hd as [Hx' Hd].
  cbn [length signed_lists]. rewrite list_elem_of_In. apply in_flat_map. exists l. split; [by apply list_elem_of_In, IH|].
  apply in_flat_map. exists x. split; [apply list_elem_of_In, elem_of_arange; lia|]. rewrite bool_decide_eq_true_2; [by left|]. split; [lia|done].
Qed.

Lemma elem_of_signed_perms t : signed_perm t -> t ∈ signed_perms.
Proof.
  intros [Hp Hl]. assert (Hd : NoDup (map Z.abs t)) by (rewrite Hp; apply NoDup_seqZ).
  assert (H : t ∈ signed_lists (zlen t) (length t)).
  { apply elem_of_signed_lists; [unfold zlen; lia| |done]. apply Forall_forall. intros x. by apply signed_values. }
  unfold signed_perms. rewrite !elem_of_app, list_elem_of_singleton.
  destruct t as [|a [|b [|c [|]]]]; [tauto|change (zlen [a]) with 1 in H|change (zlen [a; b]) with 2 in H|change (zlen [a; b; c]) with 3 in H|cbn in Hl; lia]; tauto.
Qed.

(** What is true of all of them by computation. *)
Lemma signed_perm_check (P : list Z -> bool) : forallb P signed_perms = true -> forall t, signed_perm t -> P t = true.
Proof. intros H t Ht%elem_of_signed_perms%list_elem_of_In. by apply (proj1 (forallb_forall _ _) H). Qed.

Lemma opposite_transform_spec t :
  signed_perm t -> opposite_transform (opposite_transform t) = t /\ signed_perm (opposite_transform t) /\ length (opposite_transform t) = length t.
Proof.
  assert (H : forall t, signed_perm t -> bool_decide (opposite_transform (opposite_transform t) = t /\ map Z.abs (opposite_transform t) ≡ₚ arange 1 (zlen (opposite_transform t) + 1) /\
    length (opposite_transform t) = length t) = true) by (apply signed_perm_check; vm_compute; reflexivity).
  intros Ht. pose proof (H t Ht) as (H1 & H2 & H3)%bool_decide_eq_true. split_and!; [done| |done]. split; [done|]. destruct Ht as [_ Ht]. lia.
Qed.

Lemma transform_point_inverse t idx start_1 start_2 :
  signed_perm t -> length idx = length t -> length start_1 = length t -> length start_2 = length t ->
  _gc_transform_point (_gc_transform_point idx start_1 start_2 (transform_matrix t))
    start_2 start_1 (transform_matrix (opposite_transform t)) = idx.
Proof.
  intros Ht. pose proof (elem_of_signed_perms t Ht) as Hin. 
  let l := eval vm_compute in signed_perms in change signed_perms with l in Hin.
  intros Hi H1 H2. repeat (apply elem_of_cons in Hin as [->|Hin]); [..|by apply not_elem_of_nil in Hin].
  all: destruct idx as [|x [|x' [|x'' [|]]]], start_1 as [|p [|p' [|p'' [|]]]], start_2 as [|q [|q' [|q'' [|]]]]; try discriminate; eval_transform; list_lia.
Qed.

(** For a transformation that is a signed permutation of at most three axes, a window sent to the
    opposite zone and sent back by the opposite connectivity is the same window. *)
Theorem gc_transform_roundtrip t w start_1 start_2 :
  signed_perm t -> length w.1 = length t -> length w.2 = length t -> length start_1 = length t -> length start_2 = length t ->
  _gc_transform_window (_gc_transform_window w start_1 start_2 (transform_matrix t))
    start_2 start_1 (transform_matrix (opposite_transform t)) = w.
Proof. intros Ht H1 H2 H3 H4. unfold _gc_transform_window. cbn. rewrite !transform_point_inverse by done. by destruct w. Qed.

Lemma gc_transform_roundtrip_witness :
  _gc_transform_window (_gc_transform_window ([4; 2; 9], [4; 5; 9]) [1; 2; 9] [7; 1; 1] (transform_matrix [-2; 1; 3]))
    [7; 1; 1] [1; 2; 9] (transform_matrix (opposite_transform [-2; 1; 3])) = ([4; 2; 9], [4; 5; 9]) /\
  _gc_transform_window ([4; 2; 9], [4; 5; 9]) [1; 2; 9] [7; 1; 1] (transform_matrix [-2; 1; 3]) = ([7; -2; 1], [10; -2; 1]).
Proof.
  split; [|reflexivity]. apply (gc_transform_roundtrip [-2; 1; 3]); try reflexivity. split; [|cbn; lia].
  change (arange 1 (zlen [-2; 1; 3] + 1)) with [1; 2; 3]. cbn. apply Permutation_swap.
Defined.

(** ** Sizes of structured zones *)

Lemma nface_direction d vs cs v c1 c2 :
  py_get vs (d mod 3) = Ret v -> py_get cs ((d + 1) mod 3) = Ret c1 -> py_get cs ((d + 2) mod 3) = Ret c2 ->
  compute_nface_per_direction d 3 vs cs = Ret (v * c1 * c2).
Proof. intros Hv H1 H2. unfold compute_nface_per_direction. rewrite Hv. cbn. by rewrite H1, H2. Qed.

(** A structured zone of three dimensions has one vertex more than cells along each index, and its
    numbers of vertices, of cells and of faces are those of the structured numbering. *)
Theorem structured_zone_sizes `{ArrayEqual} zone c0 c1 c2 :
  get_label zone = "Zone_t" -> Zone_Type zone = Ret (Text (Str "Structured")) ->
  value_column zone 0 = Ret [c0 + 1; c1 + 1; c2 + 1] -> value_column zone 1 = Ret [c0; c1; c2] ->
  Zone_n_vtx zone = Ret ((c0 + 1) * (c1 + 1) * (c2 + 1)) /\ Zone_n_cell zone = Ret (c0 * c1 * c2) /\
  Zone_n_face zone = Ret (Numbering.n_face_glob (c0, c1, c2)) /\ Zone_CellDimension zone = Ret (Some 3).
Proof.
  intros Hl Ht H0 H1.
  assert (Hchk : forall A (m : py A), check_is_label "Zone_t" zone m = m).
  { intros A m. unfold check_is_label. by rewrite bool_decide_eq_true_2. }
  assert (Hsize : forall j l, value_column zone j = Ret l -> zone_size zone j = Ret (PerIndex l)).
  { intros j l Hj. unfold zone_size. rewrite Hchk, Hj. cbn [mbind py_bind]. by rewrite Ht. }
  apply Hsize in H0 as V, H1 as C. unfold Zone_n_vtx, Zone_n_cell, Zone_n_face, Zone_CellDimension, Zone_FaceSize, Zone_IndexDimension.
  rewrite !Hchk. unfold Zone_VertexSize, Zone_CellSize. rewrite V, C, Ht, H0. cbn [mbind py_bind fmap py_fmap].
  split_and!; [f_equal; cbn [np_prod foldl]; lia|f_equal; cbn [np_prod foldl]; lia| |done].
  cbn [is_text]. change (zlen [c0 + 1; c1 + 1; c2 + 1]) with 3. rewrite bool_decide_eq_true_2 by done.
  change (arange 0 3) with [0; 1; 2]. cbn [mapM].
  rewrite (nface_direction 0 _ _ (c0 + 1) c1 c2), (nface_direction 1 _ _ (c1 + 1) c2 c0), (nface_direction 2 _ _ (c2 + 1) c0 c1) by done.
  cbn. f_equal. lia.
Qed.

Lemma structured_zone_sizes_witness :
  let ae : ArrayEqual := fun _ _ => true in
  let zone := Node "Zone" (Some (NpArray T_I4 [3; 3] true [3; 4; 5; 2; 3; 4; 0; 0; 0]))
                [Node "ZoneType" (text_value "Structured") [] "ZoneType_t"] "Zone_t" in
  Zone_n_vtx zone = Ret 60 /\ Zone_n_cell zone = Ret 24 /\ Zone_n_face zone = Ret 98.
Proof.
  cbn zeta. set (ae := (fun _ _ => true) : ArrayEqual).
  destruct (@structured_zone_sizes ae (Node "Zone" (Some (NpArray T_I4 [3; 3] true [3; 4; 5; 2; 3; 4; 0; 0; 0]))
    [Node "ZoneType" (text_value "Structured") [] "ZoneType_t"] "Zone_t") 2 3 4) as (H1 & H2 & H3 & _); [reflexivity..|].
  split; [exact H1|]. split; [exact H2|exact H3].
Defined.

End Sids.
