(* ===== verification/Refs.v ===== *)
(** * References to the nodes of a tree

    Python code keeps references to nodes found in a tree and edits them later.  A reference is the list of the
    positions that lead from the root to the node; it stays valid as long as the children of its ancestors are
    not changed. *)
From S2P Require Import Prelude Values Tree Walkers Search Sids.

Module Refs.
Import Tree Walkers Search Sids.

Abbreviation ref := (list nat).

Fixpoint node_at (n : node) (r : ref) : option node :=
  match r with [] => Some n | i :: r' => match get_children n !! i with Some c => node_at c r' | None => None end end.
Fixpoint edit_at {A} (r : ref) (f : st A) : st A :=
  match r with
  | [] => f
  | i :: r' => fun n =>
      match get_children n !! i with
      | None => (n, Raise TypeError)
      | Some c => let '(c', res) := edit_at r' f c in let '(Node name v cs label) := n in (Node name v (<[i := c']> cs) label, res)
      end
  end.
(** The names of the nodes from the first one under the root. *)
Fixpoint names_at (n : node) (r : ref) : list string :=
  match r with [] => [] | i :: r' => match get_children n !! i with Some c => get_name c :: names_at c r' | None => [] end end.

(** The children that satisfy a predicate that may raise. *)
Fixpoint positions_where (p : node -> py bool) (i : nat) (l : list node) : py (list nat) :=
  match l with
  | [] => Ret []
  | c :: l' => b ← p c; rest ← positions_where p (S i) l'; Ret (if (b : bool) then i :: rest else rest)
  end.
(** The chains of nodes that satisfy the predicates one by one: [iter_children_from_predicates]. *)
Fixpoint refs_where (ps : list (node -> py bool)) (n : node) : py (list ref) :=
  match ps with
  | [] => Ret [[]]
  | p :: ps' =>
      idx ← positions_where p 0 (get_children n);
      rs ← mapM (fun i => match get_children n !! i with
                          | Some c => rs ← refs_where ps' c; Ret (map (cons i) rs)
                          | None => Ret []
                          end) idx;
      Ret (concat rs)
  end.
Definition label_is (label : string) (n : node) : py bool := Ret (match_label n (StrLabel label)).

(** [get_node_from_path] *)
Fixpoint ref_of_names (n : node) (names : list string) : option ref :=
  match names with
  | [] => Some []
  | name :: names' =>
      match find_child (fun c => bool_decide (get_name c = name)) (get_children n) with
      | None => None
      | Some i => match get_children n !! i with Some c => cons i <$> ref_of_names c names' | None => None end
      end
  end.
Definition ref_of_path (n : node) (path : string) : option ref :=
  if bool_decide (path = "") then Some [] else ref_of_names n (py_split slash path).

(** The edits of several nodes, one after the other. *)
Fixpoint edit_all {A} (f : A -> st ()) (l : list (ref * A)) : st () :=
  match l with [] => mret () | (r, a) :: l' => _ ← edit_at r (f a); edit_all f l' end.

(** A computation that reads the node. *)
Definition reading {A} (m : node -> py A) : st A := fun n => (n, m n).

(** ** The path of a reference leads to its node *)

Lemma child_named_find n name :
  child_named n name = find_child (fun c => bool_decide (get_name c = name)) (get_children n) ≫= (get_children n !!.).
Proof.
  unfold child_named. rewrite <- find_child_head. f_equal. apply list_filter_iff. intros c. by rewrite bool_decide_eq_true.
Qed.
Lemma ref_of_names_node n names : from_option (node_at n) None (ref_of_names n names) = descend n names.
Proof.
  revert n. induction names as [|name names IH]; intros n; [done|]. cbn [ref_of_names descend]. rewrite child_named_find.
  destruct (find_child _ _) as [i|] eqn:Ei; [|done]. cbn [mbind option_bind]. destruct (get_children n !! i) as [c|] eqn:Ec; [|done].
  rewrite <- IH. destruct (ref_of_names c names) as [r|]; [|done]. cbn [fmap option_fmap option_map from_option node_at]. by rewrite Ec.
Qed.
Lemma ref_of_path_node n path : from_option (node_at n) None (ref_of_path n path) = get_node_from_path n path.
Proof. unfold ref_of_path, get_node_from_path. case_bool_decide; [done|]. apply ref_of_names_node. Qed.

(** On a well-formed tree, the names along a reference lead back to it. *)
Lemma ref_of_names_at n r : wf n -> is_Some (node_at n r) -> ref_of_names n (names_at n r) = Some r.
Proof.
  revert n. induction r as [|i r IH]; intros n Hn Hr; [done|]. cbn [node_at names_at] in *. destruct (get_children n !! i) as [c|] eqn:Ec; [|by destruct Hr].
  cbn [ref_of_names]. assert (Hi : find_child (fun d => bool_decide (get_name d = get_name c)) (get_children n) = Some i).
  { destruct Hn as [nm v cs l _ _ Hnd _]. cbn [get_children] in *. clear IH Hr. revert i Ec. induction cs as [|d cs IHc]; intros i Ec; [done|].
    cbn [find_child]. cbn in Hnd. apply NoDup_cons in Hnd as [Hd Hnd]. destruct i as [|i].
    - cbn in Ec. injection Ec as ->. by rewrite bool_decide_eq_true_2.
    - cbn in Ec. rewrite bool_decide_eq_false_2; [by rewrite (IHc Hnd i Ec)|]. intros E. apply Hd. rewrite E. apply list_elem_of_fmap_2. by eapply list_elem_of_lookup_2. }
  rewrite Hi, Ec. rewrite IH; [done| |done]. eapply wf_child; [done|]. by eapply list_elem_of_lookup_2.
Qed.

(** ** Edits at a given depth *)

(** The trees have the same names, values and labels above the depth [d], where their nodes are related. *)
Fixpoint same_above (d : nat) (R : node -> node -> Prop) (n n' : node) : Prop :=
  match d with
  | O => R n n'
  | S d' => get_name n = get_name n' /\ get_raw n = get_raw n' /\ get_label n = get_label n' /\
            Forall2 (same_above d' R) (get_children n) (get_children n')
  end.

Lemma same_above_refl d R n : (forall c, R c c) -> same_above d R n n.
Proof.
  intros HR. revert n. induction d as [|d IH]; intros n; [apply HR|]. cbn. repeat split; [].
  apply Forall2_same_length_lookup_2; [done|]. intros i x y Hx Hy. assert (x = y) as -> by congruence. apply IH.
Qed.
Lemma same_above_trans d R n1 n2 n3 : (forall a b c, R a b -> R b c -> R a c) -> same_above d R n1 n2 -> same_above d R n2 n3 -> same_above d R n1 n3.
Proof.
  intros HR. revert n1 n2 n3. induction d as [|d IH]; intros n1 n2 n3; cbn; [apply HR|].
  intros (H1 & H2 & H3 & H4) (K1 & K2 & K3 & K4). repeat split; [congruence..|]. clear -IH H4 K4. revert K4. generalize (get_children n3).
  induction H4; intros l3 K4; inversion K4; subst; constructor; eauto.
Qed.
Lemma edit_at_same R r (f : st ()) n : (forall c, R c c) -> (forall c, R c (f c).1) -> same_above (length r) R n (edit_at r f n).1.
Proof.
  intros Hr HR. revert n. induction r as [|i r IH]; intros n; [apply HR|]. cbn [edit_at length]. destruct (get_children n !! i) as [c|] eqn:Ec.
  - specialize (IH c). destruct (edit_at r f c) as [c' res]. destruct n as [nm v cs l]. cbn [fst same_above get_name get_raw get_label get_children] in *.
    repeat split; []. apply Forall2_same_length_lookup_2; [by rewrite length_insert|]. intros j x y Hx Hy. destruct (decide (i = j)) as [<-|Hn].
    + rewrite list_lookup_insert_eq in Hy by by eapply lookup_lt_Some. congruence.
    + rewrite list_lookup_insert_ne in Hy by done. assert (x = y) as -> by congruence. by apply same_above_refl.
  - by apply (same_above_refl (S (length r))).
Qed.
Lemma edit_at_node r (f : st ()) n c : node_at n r = Some c -> node_at (edit_at r f n).1 r = Some (f c).1 /\ (edit_at r f n).2 = (f c).2.
Proof.
  revert n. induction r as [|i r IH]; intros n Hc; [cbn in *; by injection Hc as ->|]. cbn [edit_at node_at] in *. destruct (get_children n !! i) as [d|] eqn:Ed; [|done].
  specialize (IH d Hc). destruct (edit_at r f d) as [d' res]. destruct n as [nm v cs l]. cbn [fst snd get_children] in *.
  by rewrite list_lookup_insert_eq by by eapply lookup_lt_Some.
Qed.
Lemma edit_at_other r r' (f : st ()) n : length r = length r' -> r <> r' -> node_at (edit_at r f n).1 r' = node_at n r'.
Proof.
  revert r' n. induction r as [|i r IH]; intros [|j r'] n Hl Hn; try done. cbn [edit_at node_at]. destruct (get_children n !! i) as [d|] eqn:Ed; [|done].
  destruct (decide (i = j)) as [->|Hij].
  - specialize (IH r' d). destruct (edit_at r f d) as [d' res]. destruct n as [nm v cs l]. cbn [fst get_children] in *.
    rewrite list_lookup_insert_eq by by eapply lookup_lt_Some. rewrite Ed. apply IH; [by injection Hl|congruence].
  - destruct (edit_at r f d) as [d' res]. destruct n as [nm v cs l]. cbn [fst get_children] in *. by rewrite list_lookup_insert_ne.
Qed.

(** Edits of different nodes at the same depth. *)
Lemma edit_all_spec {A} (R : node -> node -> Prop) d (f : A -> st ()) l : forall n n',
  (forall c, R c c) -> (forall a b c, R a b -> R b c -> R a c) -> (forall a c, R c (f a c).1) ->
  Forall (fun x => length x.1 = d) l -> NoDup (map fst l) -> edit_all f l n = (n', Ret ()) ->
  same_above d R n n' /\
  (forall r a c, (r, a) ∈ l -> node_at n r = Some c -> node_at n' r = Some (f a c).1 /\ (f a c).2 = Ret ()) /\
  (forall r, length r = d -> r ∉ map fst l -> node_at n' r = node_at n r).
Proof.
  induction l as [|[r a] l IH]; intros n n' Hr Ht HR Hd Hn He.
  { injection He as ->. split; [by apply same_above_refl|]. split; [by intros r a c H%not_elem_of_nil|done]. }
  apply Forall_cons in Hd as [Hd1 Hd]. cbn in Hn. apply NoDup_cons in Hn as [Hr1 Hn]. cbn [edit_all] in He. unfold mbind, st_bind in He.
  pose proof (edit_at_same R r (f a) n Hr (HR a)) as Hs1. destruct (edit_at r (f a) n) as [n1 [[]|e]] eqn:E1; [|done]. cbn [fst] in *.
  destruct (IH n1 n' Hr Ht HR Hd Hn He) as (IH1 & IH2 & IH3). rewrite Hd1 in Hs1. split; [by eapply same_above_trans|].
  assert (Hother : forall r', length r' = d -> r' <> r -> node_at n1 r' = node_at n r').
  { intros r' Hl Hne. assert (H := edit_at_other r r' (f a) n). rewrite E1 in H. apply H; [congruence|done]. }
  split.
  - intros r' a' c Hin Hc. apply elem_of_cons in Hin as [Hin|Hin].
    + injection Hin as -> ->. rewrite IH3 by done. pose proof (edit_at_node r (f a) n c Hc) as [H1 H2]. by rewrite E1 in H1, H2.
    + assert (Hr' : r' ∈ map fst l) by (apply list_elem_of_fmap; by exists (r', a')). apply IH2; [done|].
      rewrite Hother; [done| |by intros ->]. rewrite Forall_forall in Hd. by apply (Hd _ Hin).
  - intros r' Hl Hnot. rewrite IH3; [|done|set_solver]. apply Hother; [done|]. set_solver.
Qed.

(** ** What is preserved *)

(** The nodes above the depth, and the name of the nodes at the depth. *)
Lemma same_names d R n n' r : (forall a b, R a b -> get_name a = get_name b) -> same_above d R n n' -> (length r <= d)%nat -> names_at n r = names_at n' r.
Proof.
  intros HR. revert n n' r. induction d as [|d IH]; intros n n' r Hs Hl; [by destruct r; [|cbn in Hl; lia]|]. destruct r as [|i r]; [done|]. cbn [names_at].
  destruct Hs as (_ & _ & _ & Hc). rewrite Forall2_lookup in Hc. specialize (Hc i). destruct (get_children n !! i) as [c|], (get_children n' !! i) as [c'|]; inversion Hc as [? ? Hcc|]; subst; [|done].
  f_equal; [|apply IH; [done|cbn in Hl; lia]]. destruct d; [by apply HR|apply Hcc].
Qed.
Lemma same_node_at d R n n' r : same_above d R n n' -> (length r <= d)%nat ->
  match node_at n r, node_at n' r with Some c, Some c' => same_above (d - length r) R c c' | None, None => True | _, _ => False end.
Proof.
  revert n n' r. induction d as [|d IH]; intros n n' r Hs Hl; [by destruct r; [|cbn in Hl; lia]|]. destruct r as [|i r]; [done|]. cbn [node_at length].
  destruct Hs as (_ & _ & _ & Hc). rewrite Forall2_lookup in Hc. specialize (Hc i). destruct (get_children n !! i) as [c|], (get_children n' !! i) as [c'|]; inversion Hc; subst; [|done].
  apply IH; [done|cbn in Hl; lia].
Qed.
Lemma same_positions (p q : node -> py bool) R i l l' : (forall a b, R a b -> p a = q b) -> Forall2 R l l' -> positions_where p i l = positions_where q i l'.
Proof.
  intros HR Hl. revert i. induction Hl as [|a b l l' Hab _ IH]; intros i; [done|]. cbn [positions_where]. by rewrite (HR a b Hab), IH.
Qed.

(** ** The references that are found *)

Lemma positions_where_spec p k l idx : positions_where p k l = Ret idx ->
  NoDup idx /\ forall i, i ∈ idx <-> (k <= i)%nat /\ exists c, l !! (i - k)%nat = Some c /\ p c = Ret true.
Proof.
  revert k idx. induction l as [|c l IH]; intros k idx; cbn [positions_where].
  { intros [= <-]. split; [constructor|]. intros i. split; [by intros ?%not_elem_of_nil|]. by intros (_ & c & H & _). }
  destruct (p c) as [b|] eqn:Ep; [|done]. cbn [mbind py_bind]. destruct (positions_where p (S k) l) as [rest|] eqn:Er; [|done]. cbn [mbind py_bind]. intros [= <-].
  destruct (IH (S k) rest Er) as [IH1 IH2].
  assert (Hk : k ∉ rest) by (intros H%IH2; lia).
  assert (Hs : forall i, (S k <= i)%nat -> (c :: l) !! (i - k)%nat = l !! (i - S k)%nat) by (intros i Hi; by replace (i - k)%nat with (S (i - S k)) by lia).
  assert (Hi : forall i, (k <= i)%nat /\ (exists d, (c :: l) !! (i - k)%nat = Some d /\ p d = Ret true) <-> (i = k /\ b = true) \/ i ∈ rest).
  { intros i. rewrite IH2. split.
    - intros [Hki (d & Hd & Hpd)]. destruct (decide (i = k)) as [->|Hn]; [left; rewrite Nat.sub_diag in Hd; cbn in Hd; split; congruence|right].
      rewrite Hs in Hd by lia. split; [lia|eauto].
    - intros [[-> ->]|[Hki (d & Hd & Hpd)]]; [split; [lia|]; rewrite Nat.sub_diag; by exists c|]. split; [lia|]. rewrite Hs by lia. eauto. }
  destruct b; split; [by constructor| |done|]; intros i; rewrite Hi; set_solver.
Qed.

Lemma py_mapM_ext_in {A B} (f g : A -> py B) l : (forall x, x ∈ l -> f x = g x) -> mapM f l = mapM g l.
Proof. intros Hfg. induction l as [|x l IH]; [done|]. cbn. rewrite (Hfg x) by left. rewrite IH; [done|]. intros y Hy. apply Hfg. by right. Qed.
Lemma same_positions_at (p q : node -> py bool) i l l' :
  length l = length l' -> (forall j a b, l !! j = Some a -> l' !! j = Some b -> p a = q b) -> positions_where p i l = positions_where q i l'.
Proof.
  revert i l'. induction l as [|a l IH]; intros i [|b l'] Hl Hpq; try done. cbn [positions_where]. rewrite (Hpq 0%nat a b eq_refl eq_refl). rewrite (IH (S i) l'); [done|by injection Hl|].
  intros j. apply (Hpq (S j)).
Qed.
(** The chains are the same when the last predicates agree on the nodes that the labels lead to. *)
Lemma same_refs labels p q R n n' : same_above (S (length labels)) R n n' ->
  (forall r c c', length r = S (length labels) -> node_at n r = Some c -> node_at n' r = Some c' ->
    (forall k label, labels !! k = Some label -> exists d, node_at n (take (S k) r) = Some d /\ label_is label d = Ret true) -> p c = q c') ->
  refs_where (map label_is labels ++ [p]) n = refs_where (map label_is labels ++ [q]) n'.
Proof.
  revert n n'. induction labels as [|label labels IH]; intros n n' (_ & _ & _ & Hc) Hpq; cbn [map app refs_where].
  - rewrite (same_positions_at p q 0 _ (get_children n')); [|by apply Forall2_length in Hc|].
    + destruct (positions_where q 0 (get_children n')) as [idx|]; [|done]. cbn [mbind py_bind].
      erewrite py_mapM_ext; [reflexivity|]. intros i. rewrite Forall2_lookup in Hc. specialize (Hc i). destruct (get_children n !! i), (get_children n' !! i); by inversion Hc.
    + intros j a b Ha Hb. apply (Hpq [j]); [done|cbn; by rewrite Ha|cbn; by rewrite Hb|done].
  - rewrite (same_positions (label_is label) (label_is label) (same_above (S (length labels)) R) 0 _ (get_children n')); [| |exact Hc].
    + destruct (positions_where (label_is label) 0 (get_children n')) as [idx|] eqn:Ei; [|done]. cbn [mbind py_bind]. apply positions_where_spec in Ei as [_ Ei].
      erewrite (py_mapM_ext_in _ _ idx); [reflexivity|]. intros i Hin. apply Ei in Hin as (_ & c' & Hc' & Hlab). rewrite Nat.sub_0_r in Hc'.
      rewrite Hc'. rewrite Forall2_lookup in Hc. specialize (Hc i). rewrite Hc' in Hc.
      destruct (get_children n !! i) as [c|] eqn:Ec; [|by inversion Hc]. inversion Hc as [? ? Hcc|]; subst. rewrite (IH c c' Hcc); [done|].
      intros r d d' Hl Hd Hd' Hk. apply (Hpq (i :: r)); [cbn; by rewrite Hl|cbn; by rewrite Ec|cbn; by rewrite Hc'|].
      intros [|k] label' Hk'; [injection Hk' as <-; exists c; cbn [take node_at]; rewrite Ec; split; [done|]|].
      * unfold label_is, match_label, match_str_label in *. by destruct Hcc as (_ & _ & -> & _).
      * destruct (Hk k label' Hk') as (x & Hx & Hxl). exists x. cbn [take node_at]. by rewrite Ec.
    + intros a b Hab. unfold label_is, match_label, match_str_label. by destruct Hab as (_ & _ & -> & _).
Qed.

Lemma refs_where_spec ps n rs : refs_where ps n = Ret rs ->
  NoDup rs /\ forall r, r ∈ rs -> length r = length ps /\
    forall k p, ps !! k = Some p -> exists c, node_at n (take (S k) r) = Some c /\ p c = Ret true.
Proof.
  revert n rs. induction ps as [|p ps IH]; intros n rs; cbn [refs_where].
  { intros [= <-]. split; [apply NoDup_singleton|]. intros r ->%list_elem_of_singleton. done. }
  destruct (positions_where p 0 (get_children n)) as [idx|] eqn:Ei; [|done]. cbn [mbind py_bind]. destruct (mapM _ idx) as [l|] eqn:El; [|done]. cbn [mbind py_bind]. intros [= <-].
  apply positions_where_spec in Ei as [Hn Hi]. apply py_mapM_Ret in El.
  assert (Hpart : forall i rs, (match get_children n !! i with Some c => rs ← refs_where ps c; Ret (map (cons i) rs) | None => Ret [] end = Ret rs) -> i ∈ idx ->
    NoDup rs /\ forall r, r ∈ rs -> exists r' c, r = i :: r' /\ get_children n !! i = Some c /\ length r' = length ps /\
      forall k p, ps !! k = Some p -> exists d, node_at c (take (S k) r') = Some d /\ p d = Ret true).
  { intros i rs Hrs Hin. destruct (get_children n !! i) as [c|] eqn:Ec; [|injection Hrs as <-; split; [constructor|by intros r ?%not_elem_of_nil]].
    destruct (refs_where ps c) as [rs'|] eqn:Er; [|done]. injection Hrs as <-. destruct (IH c rs' Er) as [IH1 IH2]. split.
    - apply NoDup_fmap_2; [|done]. by intros x y [= ->].
    - intros r (r' & -> & Hr')%list_elem_of_fmap. destruct (IH2 r' Hr') as [H1 H2]. exists r', c. done. }
  split.
  - apply (NoDup_concat_keyed head idx); [|done]. eapply Forall2_impl_in_l; [exact El|]. intros i rs Hin Hrs. destruct (Hpart i rs Hrs Hin) as [H1 H2]. split; [done|].
    intros r Hr. by destruct (H2 r Hr) as (r' & c & -> & _).
  - intros r Hr. apply (elem_concat_keyed _ _ _ _ El) in Hr as (i & rs & Hin & Hrs & Hr). destruct (Hpart i rs Hrs Hin) as [_ H2].
    destruct (H2 r Hr) as (r' & c & -> & Hc & Hl & Hk). split; [cbn; by rewrite Hl|]. intros [|k] q Hq.
    + injection Hq as <-. apply Hi in Hin as (_ & d & Hd & Hpd). rewrite Nat.sub_0_r in Hd. exists c. cbn [take node_at]. rewrite Hc. split; [done|congruence].
    + destruct (Hk k q Hq) as (d & Hd & Hqd). exists d. cbn [take node_at]. by rewrite Hc.
Qed.

Lemma refs_where_complete ps n rs r : refs_where ps n = Ret rs -> length r = length ps ->
  (forall k p, ps !! k = Some p -> exists c, node_at n (take (S k) r) = Some c /\ p c = Ret true) -> r ∈ rs.
Proof.
  revert n rs r. induction ps as [|p ps IH]; intros n rs [|i r] Hrs Hl Hk; try done; cbn [refs_where] in Hrs.
  { injection Hrs as <-. by left. }
  destruct (positions_where p 0 (get_children n)) as [idx|] eqn:Ei; [|done]. cbn [mbind py_bind] in Hrs. destruct (mapM _ idx) as [l|] eqn:El; [|done]. cbn [mbind py_bind] in Hrs. injection Hrs as <-.
  apply positions_where_spec in Ei as [_ Ei]. apply py_mapM_Ret in El. destruct (Hk 0%nat p eq_refl) as (c & Hc & Hpc). cbn [take node_at] in Hc. destruct (get_children n !! i) as [c'|] eqn:Ec; [|done]. injection Hc as ->.
  assert (Hi : i ∈ idx) by (apply Ei; split; [lia|]; rewrite Nat.sub_0_r; by exists c).
  apply list_elem_of_lookup in Hi as (j & Hj). rewrite Forall2_lookup in El. specialize (El j). rewrite Hj in El. destruct (l !! j) as [rsi|] eqn:Elj; [|by inversion El]. inversion El as [? ? Hrsi|]; subst. rewrite Ec in Hrsi.
  destruct (refs_where ps c) as [rs'|] eqn:Er; [|done]. injection Hrsi as <-. apply list_elem_of_In, in_concat. exists (map (cons i) rs'). split; [apply list_elem_of_In; by eapply list_elem_of_lookup_2|].
  apply in_map, list_elem_of_In. apply (IH c rs'); [done|by injection Hl|]. intros k q Hq. destruct (Hk (S k) q Hq) as (d & Hd & Hqd). exists d. split; [|done]. cbn [take node_at] in Hd. by rewrite Ec in Hd.
Qed.

(** Edits of nodes that stay well-formed with their name keep the tree well-formed. *)
Lemma edit_at_wf r (f : st ()) n : (forall c, wf c -> wf (f c).1 /\ get_name (f c).1 = get_name c) -> wf n -> wf (edit_at r f n).1 /\ get_name (edit_at r f n).1 = get_name n.
Proof.
  intros Hf. revert n. induction r as [|i r IH]; intros n Hn; [by apply Hf|]. cbn [edit_at]. destruct (get_children n !! i) as [c|] eqn:Ec; [|done].
  assert (Hc : wf c) by (eapply wf_child; [done|by eapply list_elem_of_lookup_2]). destruct (IH c Hc) as [H1 H2]. destruct (edit_at r f c) as [c' res]. cbn [fst] in *.
  destruct Hn as [nm v cs l Hn Hl Hnd Hcs]. cbn [fst get_name get_children] in *. split; [|done]. constructor; [done..| |].
  - unfold get_names in *. rewrite list_fmap_insert, list_insert_id; [done|]. rewrite list_lookup_fmap, Ec. cbn. by rewrite H2.
  - apply Forall_insert; [done|]. done.
Qed.
Lemma edit_all_wf {A} (f : A -> st ()) l n :
  (forall a c, wf c -> wf (f a c).1 /\ get_name (f a c).1 = get_name c) -> wf n -> wf (edit_all f l n).1.
Proof.
  intros Hf. revert n. induction l as [|[r a] l IH]; intros n Hn; [done|]. cbn [edit_all]. unfold mbind, st_bind. destruct (edit_at_wf r (f a) n (Hf a) Hn) as [H1 _].
  destruct (edit_at r (f a) n) as [n' [[]|e]]; [by apply IH|done].
Qed.
Lemma names_at_wf n r : wf n -> Forall (fun s => (slash ∉ String.list_ascii_of_string s) /\ s <> "") (names_at n r).
Proof.
  revert n. induction r as [|i r IH]; intros n Hn; [constructor|]. cbn [names_at]. destruct (get_children n !! i) as [c|] eqn:Ec; [|constructor].
  assert (Hc : wf c) by (eapply wf_child; [done|by eapply list_elem_of_lookup_2]). constructor; [|by apply IH]. destruct (wf_name c Hc) as [H1 H2]. split; [|done].
  unfold has_slash in H2. by apply bool_decide_eq_false in H2.
Qed.
Lemma names_at_length n r : is_Some (node_at n r) -> length (names_at n r) = length r.
Proof.
  revert n. induction r as [|i r IH]; intros n Hr; [done|]. cbn [names_at node_at] in *. destruct (get_children n !! i) as [c|]; [|by destruct Hr]. cbn. by rewrite IH.
Qed.
(** The node of the path of a reference. *)
Lemma path_node n r : wf n -> r <> [] -> is_Some (node_at n r) -> get_node_from_path n (py_join slash (names_at n r)) = node_at n r.
Proof.
  intros Hn Hr Hs. pose proof (names_at_wf n r Hn) as Hw. pose proof (names_at_length n r Hs) as Hl.
  rewrite <- ref_of_path_node. unfold ref_of_path. destruct (names_at n r) as [|s l] eqn:E; [by destruct r|]. apply Forall_cons in Hw as [[Hs1 Hs2] Hw].
  rewrite bool_decide_eq_false_2 by by apply py_join_nonempty. rewrite py_split_join; [|done|constructor; [done|]; eapply Forall_impl; [exact Hw|]; by intros x []].
  rewrite <- E. by rewrite ref_of_names_at.
Qed.
Lemma names_at_take n r k : names_at n (take k r) = take k (names_at n r).
Proof.
  revert n r. induction k as [|k IH]; intros n r; [done|]. destruct r as [|i r]; [done|]. cbn [take names_at]. destruct (get_children n !! i) as [c|]; [|done]. cbn [take]. by rewrite IH.
Qed.
Lemma NoDup_names_filter (P : node -> Prop) `{!forall c, Decision (P c)} cs : NoDup (get_names cs) -> NoDup (get_names (filter P cs)).
Proof.
  unfold get_names. induction cs as [|c cs IH]; [done|]. rewrite fmap_cons, NoDup_cons, filter_cons. intros [Hc Hn]. case_decide; [|by apply IH].
  rewrite fmap_cons. constructor; [|by apply IH]. intros (d & Hd & Hin)%list_elem_of_fmap. apply list_elem_of_filter in Hin as [_ Hin]. apply Hc. rewrite Hd. by apply list_elem_of_fmap_2.
Qed.
(** Well-formedness of a given tree, by computation of the conditions on the names. *)
Ltac solve_wf := repeat first [reflexivity | apply wf_Node | apply Forall_cons_2 | apply Forall_nil_2 | apply (bool_decide_unpack _); vm_compute; exact I].
End Refs.
