(* ===== verification/Presets.v ===== *)
(** * Preset nodes: [maia/pytree/node/presets.py]

    A preset creates a node, attaches it to its parent if there is one, then fills it.  The parent and the
    attached node are shared objects, so a preset maps the parent before the call to the parent after the
    call, whose last child is the node as it was filled, also when an exception interrupts the filling.
    The warnings of [_check_parent_label] are not represented; the labels it allows are a table. *)
From S2P Require Import Prelude Values Tree Walkers Sids.

Local Open Scope Z_scope.

Module Presets.
Import Values Tree.

(** [_check_parent_label]: the labels under which a node with a given label does not raise a warning. *)
Definition data_array_parents : list string :=
  ["BCData_t"; "BaseIterativeData_t"; "ChemicalKineticsModel_t"; "ConvergenceHistory_t"; "DiscreteData_t"; "Elements_t";
   "EMConductivityModel_t"; "EMElectricFieldModel_t"; "EMMagneticFieldModel_t"; "FlowSolution_t"; "GasModel_t";
   "GridCoordinates_t"; "Periodic_t"; "ReferenceState_t"; "RigidGridMotion_t"; "ThermalConductivityModel_t";
   "ThermalRelaxationModel_t"; "TurbulenceClosure_t"; "TurbulenceModel_t"; "UserDefinedData_t"; "ViscosityModel_t";
   "ZoneIterativeData_t"; "ZoneSubRegion_t"].
Definition allowed_parents : list (string * list string) :=
  [("CGNSBase_t", ["CGNSTree_t"]);
   ("Family_t", ["CGNSBase_t"]);
   ("FamilyName_t", ["Family_t"; "UserDefinedData_t"; "ZoneSubRegion_t"; "BC_t"; "Zone_t"]);
   ("AdditionalFamilyName_t", ["Family_t"; "UserDefinedData_t"; "ZoneSubRegion_t"; "BC_t"; "Zone_t"]);
   ("Zone_t", ["CGNSBase_t"]);
   ("Elements_t", ["Zone_t"]);
   ("ZoneBC_t", ["Zone_t"]);
   ("BC_t", ["ZoneBC_t"]);
   ("ZoneGridConnectivity_t", ["Zone_t"]);
   ("GridConnectivity_t", ["ZoneGridConnectivity_t"]);
   ("GridConnectivityProperty_t", ["GridConnectivity_t"; "GridConnectivity1to1_t"]);
   ("GridConnectivity1to1_t", ["ZoneGridConnectivity_t"]);
   ("IndexArray_t", ["BC_t"; "BCDataSet_t"; "DiscreteData_t"; "FlowSolution_t"; "GridConnectivity_t"; "OversetHoles_t";
                     "UserDefinedData_t"; "ZoneSubRegion_t"]);
   ("GridLocation_t", ["ArbitraryGridMotion_t"; "BCDataSet_t"; "BC_t"; "DiscreteData_t"; "FlowSolution_t";
                       "GridConnectivity_t"; "OversetHoles_t"; "UserDefinedData_t"; "ZoneSubRegion_t"]);
   ("BaseIterativeData_t", ["CGNSBase_t"]);
   ("DataArray_t", data_array_parents);
   ("GridCoordinates_t", ["Zone_t"]);
   ("FlowSolution_t", ["Zone_t"]);
   ("ZoneSubRegion_t", ["Zone_t"])].
(** A node with a label that the presets do not check is allowed everywhere. *)
Definition _check_parent_label (label parent_label : string) : bool :=
  match List.find (fun e => bool_decide (e.1 = label)) allowed_parents with
  | Some (_, allowed_list) => bool_decide (parent_label ∈ allowed_list)
  | None => true
  end.

Definition allowed_bc : list string :=
  ["Null"; "UserDefined"; "BCAxisymmetricWedge"; "BCDegenerateLine"; "BCDegeneratePoint"; "BCDirichlet"; "BCExtrapolate";
   "BCFarfield"; "BCGeneral"; "BCInflow"; "BCInflowSubsonic"; "BCInflowSupersonic"; "BCNeumann"; "BCOutflow";
   "BCOutflowSubsonic"; "BCOutflowSupersonic"; "BCSymmetryPlane"; "BCSymmetryPolar"; "BCTunnelInflow"; "BCTunnelOutflow";
   "BCWall"; "BCWallInviscid"; "BCWallViscous"; "BCWallViscousHeatFlux"; "BCWallViscousIsothermal"; "FamilySpecified"].

(** ** Filling a new node *)

(** A preset, as a function of its parent. *)
Definition preset : Type := option node -> option node * py node.

(** The last child of the parent, which is the new node, after it has been filled. *)
Definition set_last (n : node) (parent : node) : node :=
  let '(Node pn pv cs pl) := parent in Node pn pv (take (length cs - 1) cs ++ [n]) pl.

Section presets.
(** Numpy's rounding to single precision, [astype] on one element, the code of 0.0. *)
Context (to_float32 : Z -> Z) (astype : cgns_type -> cgns_type -> Z -> Z) (zero : Z).

(** [node = new_node(name, label, value, [], parent)], then [body] on the node. *)
Definition build (name label : string) (v : pyval) (body : st ()) : preset := fun parent =>
  match new_node to_float32 name label v [] parent with
  | (parent, Raise e) => (parent, Raise e)
  | (parent, Ret n) =>
      let '(n, r) := body n in
      (set_last n <$> parent, match r with Ret () => Ret n | Raise e => Raise e end)
  end.
Definition leaf (name label : string) (v : pyval) : preset := build name label v (mret ()).

(** What the caller does next to the node that a preset returns. *)
Definition then_fill (p : preset) (body : st ()) : preset := fun parent =>
  match p parent with
  | (parent, Raise e) => (parent, Raise e)
  | (parent, Ret n) =>
      let '(n, r) := body n in
      (set_last n <$> parent, match r with Ret () => Ret n | Raise e => Raise e end)
  end.

(** A preset called with the node as its parent. *)
Definition under (p : preset) : st () := fun n =>
  match p (Some n) with
  | (n', Ret _) => (default n n', Ret ())
  | (n', Raise e) => (default n n', Raise e)
  end.
Definition opt {A} (o : option A) (f : A -> preset) : st () := when o (fun a => under (f a)).
Definition check (b : bool) : st () := st_lift (py_assert b).
(** [assert] of the function itself, before the node is created. *)
Definition asserting (b : bool) (p : preset) : preset := fun parent =>
  if b then p parent else (parent, Raise AssertionError).
(** A value computed before the node is created. *)
Definition with_value {A} (m : py A) (p : A -> preset) : preset := fun parent =>
  match m with Ret a => p a parent | Raise e => (parent, Raise e) end.
Definition is_none {A} (o : option A) : bool := match o with None => true | Some _ => false end.
(** [for name, value in fields.items()] *)
Fixpoint each {A} (f : A -> preset) (l : list A) : st () :=
  match l with [] => mret () | a :: l' => _ ← under (f a); each f l' end.
Definition of_value (v : value) : pyval := match v with None => PNone | Some a => PArray a end.

(** A value that was read, given back as an argument. *)
Fixpoint texts (l : list pystr) : option (list string) :=
  match l with
  | [] => Some []
  | Str s :: l' => cons s <$> texts l'
  | StrList _ :: _ => None
  end.
Definition arg_of (v : read_value) : py pyval :=
  match v with
  | Raw v => Ret (of_value v)
  | Text (Str s) => Ret (PStr s)
  | Text (StrList l) =>
      match texts l with
      | Some ss => Ret (PStrs ss)
      | None => PStrss <$> mapM (fun x => match x with StrList l => of_option TypeError (texts l) | Str _ => Raise TypeError end) l
      end
  end.

(** ** The presets *)

(** [cgns_to_dtype[dtype]] *)
Definition all_types : list cgns_type := [T_B1; T_C1; T_I4; T_U4; T_I8; T_U8; T_R4; T_R8; T_X4; T_X8].
Definition cgns_to_dtype (s : string) : py cgns_type :=
  of_option KeyError (List.find (fun t => bool_decide (dtype_to_cgns t = s)) all_types).

Definition cast_value (v : pyval) (dtype : option string) : py value :=
  val ← _convert_value to_float32 v;
  match dtype with
  | None => Ret val
  | Some d => t ← cgns_to_dtype d;
              a ← of_option AttributeError val;
              Ret (Some (NpArray t (a_shape a) (a_fcontiguous a) (astype (a_type a) t <$> a_data a)))
  end.
Definition new_DataArray (name : string) (v : pyval) (dtype : option string) : preset :=
  with_value (cast_value v dtype) (fun val => leaf name "DataArray_t" (of_value val)).

(** [reshape((-1,2))] of a vector, then elements in Fortran order. *)
Fixpoint evens {A} (l : list A) : list A := match l with a :: _ :: l' => a :: evens l' | [a] => [a] | [] => [] end.
Fixpoint odds {A} (l : list A) : list A := match l with _ :: b :: l' => b :: odds l' | _ => [] end.
Definition as_pairs (a : nparray) : py nparray :=
  if Nat.even (length (a_data a))
  then Ret (NpArray (a_type a) [zlen (a_data a) / 2; 2] false (evens (a_data a) ++ odds (a_data a)))
  else Raise ValueError.
Definition range_value (v : pyval) : py value :=
  val ← _convert_value to_float32 v;
  match val with
  | Some a => if bool_decide (length (a_shape a) = 1%nat) then Some <$> as_pairs a else Ret val
  | None => Ret None
  end.
Definition new_IndexRange (name : string) (v : pyval) : preset :=
  with_value (range_value v) (fun val => leaf name "IndexRange_t" (of_value val)).
Definition new_IndexArray (name : string) (v : pyval) : preset := leaf name "IndexArray_t" v.
Definition new_PointList (name : string) (v : pyval) : preset := new_IndexArray name v.
Definition new_PointRange (name : string) (v : pyval) : preset := new_IndexRange name v.

Definition grid_locations : list string :=
  ["Null"; "UserDefined"; "Vertex"; "EdgeCenter"; "CellCenter"; "IFaceCenter"; "JFaceCenter"; "KFaceCenter"; "FaceCenter"].
Definition new_GridLocation (loc : string) : preset :=
  asserting (bool_decide (loc ∈ grid_locations)) (leaf "GridLocation" "GridLocation_t" (PStr loc)).

Definition new_FamilyBC (family_bc : string) : preset :=
  asserting (bool_decide (family_bc ∈ allowed_bc)) (leaf "FamilyBC" "FamilyBC_t" (PStr family_bc)).
Definition new_FamilyName (family_name as_additional : string) : preset :=
  if bool_decide (as_additional <> "") then leaf as_additional "AdditionalFamilyName_t" (PStr family_name)
  else leaf "FamilyName" "FamilyName_t" (PStr family_name).
Definition new_Family (name : string) (family_bc : option string) : preset :=
  build name "Family_t" PNone (opt family_bc new_FamilyBC).

(** The version is a child created first. *)
Definition new_CGNSTree (version : Z) : py node :=
  v ← (new_node to_float32 "CGNSLibraryVersion" "CGNSLibraryVersion_t" (PFloat version) [] None).2;
  (new_node to_float32 "CGNSTree" "CGNSTree_t" PNone [Some v] None).2.
Definition new_CGNSBase (name : string) (cell_dim phy_dim : Z) : preset :=
  leaf name "CGNSBase_t" (PInts [Leaf cell_dim; Leaf phy_dim]).

Definition zone_types : list string := ["Null"; "UserDefined"; "Structured"; "Unstructured"].
Definition new_Zone (name type : string) (size : pyval) (family : option string) : preset :=
  asserting (bool_decide (type ∈ zone_types))
    (build name "Zone_t" size
      (_ ← under (leaf "ZoneType" "ZoneType_t" (PStr type));
       match family with
       | Some f => if bool_decide (f <> "") then under (new_FamilyName f "") else mret ()
       | None => mret ()
       end)).

(** The type of an element section: a name, a number, or a value left to the conversion. *)
Inductive elt_type : Type := EltName (s : string) | EltId (n : Z) | EltValue (v : pyval).
Definition elt_value (t : elt_type) : py pyval :=
  match t with
  | EltName s => n ← Sids.cgns_name_to_id s; Ret (PInts [Leaf n; Leaf 0])
  | EltId n => Ret (PInts [Leaf n; Leaf 0])
  | EltValue v => Ret v
  end.
Definition elements (name : string) (type : elt_type) (erange econn : option pyval) (more : st ()) : preset :=
  with_value (elt_value type) (fun v =>
    build name "Elements_t" v
      (_ ← opt erange (leaf "ElementRange" "IndexRange_t");
       _ ← opt econn (fun c => new_DataArray "ElementConnectivity" c None);
       more)).
Definition new_Elements (name : string) (type : elt_type) (erange econn : option pyval) : preset :=
  elements name type erange econn (mret ()).
Definition new_NGonElements (name : string) (erange eso ec pe pepos : option pyval) : preset :=
  elements name (EltId 22) erange None
    (_ ← opt eso (fun v => new_DataArray "ElementStartOffset" v None);
     _ ← opt ec (fun v => new_DataArray "ElementConnectivity" v None);
     _ ← opt pe (fun v => new_DataArray "ParentElements" v None);
     opt pepos (fun v => new_DataArray "ParentElementsPosition" v None)).
Definition new_NFaceElements (name : string) (erange eso ec : option pyval) : preset :=
  elements name (EltId 23) erange None
    (_ ← opt eso (fun v => new_DataArray "ElementStartOffset" v None);
     opt ec (fun v => new_DataArray "ElementConnectivity" v None)).

Definition new_ZoneBC : preset := leaf "ZoneBC" "ZoneBC_t" PNone.

(** One of two ways to give a patch. *)
Definition range_or_list (suffix : string) (point_range point_list : option pyval) : st () :=
  _ ← when point_range (fun v =>
        _ ← check (is_none point_list); under (new_IndexRange ("PointRange" +:+ suffix) v));
  when point_list (fun v =>
    _ ← check (is_none point_range); under (new_IndexArray ("PointList" +:+ suffix) v)).
Definition new_BC (name type : string) (point_range point_list : option pyval) (loc family : option string) : preset :=
  asserting (bool_decide (type ∈ allowed_bc))
    (build name "BC_t" (PStr type)
      (_ ← opt loc new_GridLocation;
       _ ← opt family (fun f => new_FamilyName f "");
       range_or_list "" point_range point_list)).

Definition new_ZoneGridConnectivity (name : string) : preset := leaf name "ZoneGridConnectivity_t" PNone.
Definition allowed_gc : list string := ["Null"; "UserDefined"; "Overset"; "Abutting"; "Abutting1to1"].
Definition new_GridConnectivityType (type : string) : preset :=
  asserting (bool_decide (type ∈ allowed_gc)) (leaf "GridConnectivityType" "GridConnectivityType_t" (PStr type)).
Definition donor_value (donor_name : option string) : pyval :=
  match donor_name with Some s => PStr s | None => PNone end.
Definition new_GridConnectivity (name : string) (donor_name : option string) (type : string) (loc : option string)
    (point_range point_range_donor point_list point_list_donor : option pyval) : preset :=
  build name "GridConnectivity_t" (donor_value donor_name)
    (_ ← under (new_GridConnectivityType type);
     _ ← opt loc new_GridLocation;
     _ ← range_or_list "" point_range point_list;
     range_or_list "Donor" point_range_donor point_list_donor).

Definition default_vector : pyval := PFloats [Leaf zero; Leaf zero; Leaf zero].
Definition new_Periodic (rotation_angle rotation_center translation : pyval) : preset := fun parent =>
  match (a ← (new_DataArray "RotationAngle" rotation_angle None None).2;
         c ← (new_DataArray "RotationCenter" rotation_center None None).2;
         t ← (new_DataArray "Translation" translation None None).2;
         Ret [Some a; Some c; Some t]) with
  | Raise e => (parent, Raise e)
  | Ret childs => new_node to_float32 "Periodic" "Periodic_t" PNone childs parent
  end.
Definition periodic_keys : list string := ["rotation_angle"; "rotation_center"; "translation"].
Definition periodic_arg (periodic : list (string * pyval)) (key : string) : pyval :=
  match List.find (fun e => bool_decide (e.1 = key)) periodic with Some (_, v) => v | None => default_vector end.
(** The keys are passed as keyword arguments: one that is not a parameter is a TypeError. *)
Definition periodic_call (periodic : list (string * pyval)) : preset := fun parent =>
  if forallb (fun e => bool_decide (e.1 ∈ periodic_keys)) periodic
  then new_Periodic (periodic_arg periodic "rotation_angle") (periodic_arg periodic "rotation_center")
         (periodic_arg periodic "translation") parent
  else (parent, Raise TypeError).
Definition new_GridConnectivityProperty (periodic : list (string * pyval)) : preset :=
  build "GridConnectivityProperty" "GridConnectivityProperty_t" PNone
    (match periodic with [] => mret () | _ => under (periodic_call periodic) end).

Definition new_GridConnectivity1to1 (name : string) (donor_name : option string)
    (point_range point_range_donor transform : option pyval) : preset :=
  build name "GridConnectivity1to1_t" (donor_value donor_name)
    (_ ← opt transform (leaf "Transform" (dq +:+ "int[IndexDimension]" +:+ dq));
     _ ← opt point_range (new_IndexRange "PointRange");
     opt point_range_donor (new_IndexRange "PointRangeDonor")).

(** The number of values of the last array that is given. *)
Definition size_of_value (v : pyval) : Z :=
  match _convert_value to_float32 v with Ret (Some a) => zlen (a_data a) | _ => 0 end.
Definition n_steps (time_values iter_values : option pyval) : Z :=
  match iter_values, time_values with Some v, _ => size_of_value v | None, Some v => size_of_value v | None, None => 0 end.
Definition new_BaseIterativeData (name : string) (time_values iter_values : option pyval) : preset :=
  build name "BaseIterativeData_t" PNone
    (_ ← opt time_values (fun v => new_DataArray "TimeValues" v None);
     _ ← opt iter_values (fun v => new_DataArray "IterationValues" v None);
     set_value to_float32 (PInt (n_steps time_values iter_values))).

Definition fields_of (fields : list (string * pyval)) : st () := each (fun f => new_DataArray f.1 f.2 None) fields.
Definition new_GridCoordinates (name : string) (fields : list (string * pyval)) : preset :=
  build name "GridCoordinates_t" PNone (fields_of fields).
Definition new_FlowSolution (name : string) (loc : option string) (fields : list (string * pyval)) : preset :=
  build name "FlowSolution_t" PNone (_ ← opt loc new_GridLocation; fields_of fields).

Definition new_ZoneSubRegion (name : string) (loc : option string) (point_range point_list : option pyval)
    (bc_name gc_name family : option string) (fields : list (string * pyval)) : preset :=
  build name "ZoneSubRegion_t" PNone
    (_ ← opt loc new_GridLocation;
     _ ← opt family (fun f => new_FamilyName f "");
     _ ← when point_range (fun v => _ ← check (is_none point_list && is_none bc_name && is_none gc_name);
                                    under (new_IndexRange "PointRange" v));
     _ ← when point_list (fun v => _ ← check (is_none point_range && is_none bc_name && is_none gc_name);
                                   under (new_IndexArray "PointList" v));
     _ ← when bc_name (fun s => _ ← check (is_none point_list && is_none point_range && is_none gc_name);
                                under (leaf "BCRegionName" "Descriptor_t" (PStr s)));
     _ ← when gc_name (fun s => _ ← check (is_none point_list && is_none point_range && is_none bc_name);
                                under (leaf "GridConnectivityRegionName" "Descriptor_t" (PStr s)));
     fields_of fields).
End presets.

(** ** Well-typed nodes *)

(** Every child is allowed under its parent by the checks of the presets. *)
Fixpoint compliant (n : node) : bool :=
  match n with
  | Node _ _ children label => forallb (fun c => _check_parent_label (get_label c) label && compliant c) children
  end.
Definition good (n : node) : Prop := wf n /\ compliant n = true.
Definition append_child (n q : node) : node := let '(Node pn pv cs pl) := q in Node pn pv (cs ++ [n]) pl.

(** A body that fills a node of label [L] keeps it well-typed, with its name and its label, whether it
    raises or not. *)
Definition fills (L : string) (m : st ()) : Prop :=
  forall n, good n -> get_label n = L -> good (m n).1 /\ get_label (m n).1 = L /\ get_name (m n).1 = get_name n.

(** A preset returns a well-typed node of label [L], which is the new last child of its parent; when it
    raises, the parent has at most one more child, well-typed as well. *)
Definition makes (L : string) (p : preset) : Prop :=
  forall parent,
    match p parent with
    | (parent', Ret n) =>
        good n /\ get_label n = L /\
        match parent with
        | None => parent' = None
        | Some q => parent' = Some (append_child n q) /\ get_name n ∉ get_names (get_children q)
        end
    | (parent', Raise e) =>
        match parent with
        | None => parent' = None
        | Some q => parent' = Some q \/
            exists n, good n /\ get_label n = L /\ (get_name n ∉ get_names (get_children q)) /\ parent' = Some (append_child n q)
        end
    end.

Lemma good_leaf name v label :
  is_valid_name name false = true -> is_valid_label label false = true -> good (Node name v [] label).
Proof. intros. split; [|done]. constructor; [done|done|constructor|constructor]. Qed.

Lemma good_append n q :
  good n -> good q -> get_name n ∉ get_names (get_children q) -> _check_parent_label (get_label n) (get_label q) = true ->
  good (append_child n q).
Proof.
  destruct q as [pn pv cs pl]. cbn [get_children get_label append_child]. intros [Wn Cn] [Wq Cq] Hn Hl. inversion Wq as [? ? ? ? H1 H2 H3 H4]; subst. split.
  - constructor; [done|done| |apply Forall_app; split; [done|by constructor]]. rewrite get_names_app. apply NoDup_app. split; [done|].
    split; [|repeat constructor; by apply not_elem_of_nil]. intros x Hx ->%list_elem_of_singleton. done.
  - cbn [compliant] in *. rewrite forallb_app, Cq. cbn [forallb]. by rewrite Hl, Cn.
Qed.

Lemma append_label n q : get_label (append_child n q) = get_label q /\ get_name (append_child n q) = get_name q.
Proof. by destruct q. Qed.

Section fills.
Context (L : string).

Lemma fills_ret : fills L (mret ()).
Proof using Type. intros n Hn Hl. done. Qed.
Lemma fills_bind m (f : () -> st ()) : fills L m -> (forall a, fills L (f a)) -> fills L (mbind f m).
Proof using Type.
  intros Hm Hf n Hn Hl. destruct (Hm n Hn Hl) as (G & HL & HN). unfold mbind, st_bind.
  destruct (m n) as [n' [a|e]]; [|done]. destruct (Hf a n' G HL) as (G' & HL' & HN'). cbn in *. by rewrite HN', HN.
Qed.
Lemma fills_when {A} (o : option A) f : (forall a, fills L (f a)) -> fills L (when o f).
Proof using Type. intros H. destruct o; [apply H|apply fills_ret]. Qed.
Lemma fills_check b : fills L (check b).
Proof using Type. intros n Hn Hl. done. Qed.
Lemma fills_set_value to_float32 v : fills L (set_value to_float32 v).
Proof using Type.
  intros [nm nv cs l] [W C] Hl. unfold set_value, mbind, st_bind, st_lift. destruct (_convert_value to_float32 v); [|done].
  cbn in *. split; [|done]. split; [|done]. by inversion W; constructor.
Qed.
Lemma fills_under lab p : makes lab p -> _check_parent_label lab L = true -> fills L (under p).
Proof using Type.
  intros Hp Hc n Hn Hl. specialize (Hp (Some n)). unfold under.
  assert (Ha : forall m, good m -> get_label m = lab -> get_name m ∉ get_names (get_children n) ->
    good (append_child m n) /\ get_label (append_child m n) = L /\ get_name (append_child m n) = get_name n).
  { intros m Hm Em Hf. split; [apply good_append; [done|done|done|by rewrite Em, Hl]|].
    destruct (append_label m n) as [-> ->]. done. }
  destruct (p (Some n)) as [n' [m|e]].
  - destruct Hp as (G & El & -> & Hf). by apply Ha.
  - destruct Hp as [->|(m & G & El & Hf & ->)]; [done|by apply Ha].
Qed.
Lemma fills_opt {A} (o : option A) (f : A -> preset) lab :
  (forall a, makes lab (f a)) -> _check_parent_label lab L = true -> fills L (opt o f).
Proof using Type. intros Hf Hc. apply fills_when. intros a. by apply (fills_under lab). Qed.
Lemma fills_each {A} (f : A -> preset) l lab :
  (forall a, makes lab (f a)) -> _check_parent_label lab L = true -> fills L (each f l).
Proof using Type.
  intros Hf Hc. induction l as [|a l IH]; [apply fills_ret|]. apply fills_bind; [by apply (fills_under lab)|done].
Qed.
End fills.

Lemma set_last_append n n' q : set_last n' (append_child n q) = append_child n' q.
Proof.
  destruct q as [pn pv cs pl]. cbn. rewrite length_app. cbn. by rewrite Nat.add_sub, take_app_length.
Qed.

Section makes.
Context (to_float32 : Z -> Z).

Lemma makes_build name L v body : fills L body -> makes L (build to_float32 name L v body).
Proof using Type.
  intros Hb parent. unfold build. rewrite new_node_spec.
  destruct (is_valid_name name false) eqn:En; cbn [negb]; [|destruct parent; [by left|done]].
  destruct (is_valid_label L false) eqn:El; cbn [negb]; [|destruct parent; [by left|done]].
  destruct (_convert_value to_float32 v) as [val|e]; [|destruct parent; [by left|done]].
  change (some_nodes []) with (@nil node). rewrite bool_decide_eq_true_2 by constructor. cbv zeta.
  destruct (Hb (Node name val [] L)) as (G & HL & HN); [by apply good_leaf|done|].
  destruct parent as [[pn pv pc pl]|].
  - case_bool_decide as Hin; [by left|]. destruct (body (Node name val [] L)) as [n [[]|e]]; cbn in G, HL, HN |- *.
    + split; [done|]. split; [done|]. change (Node pn pv (pc ++ [Node name val [] L]) pl) with (append_child (Node name val [] L) (Node pn pv pc pl)).
      rewrite length_app. cbn. rewrite Nat.add_sub, take_app_length. by rewrite HN.
    + right. exists n. rewrite length_app. cbn. rewrite Nat.add_sub, take_app_length. by rewrite HN.
  - destruct (body (Node name val [] L)) as [n [[]|e]]; done.
Qed.

Lemma makes_leaf name L v : makes L (leaf to_float32 name L v).
Proof using Type. apply makes_build, fills_ret. Qed.

Lemma makes_asserting L b p : makes L p -> makes L (asserting b p).
Proof using Type. intros Hp parent. unfold asserting. destruct b; [apply Hp|]. destruct parent; [by left|done]. Qed.
Lemma makes_with_value {A} L (m : py A) p : (forall a, makes L (p a)) -> makes L (with_value m p).
Proof using Type. intros Hp parent. unfold with_value. destruct m; [apply Hp|]. destruct parent; [by left|done]. Qed.
End makes.

(** ** The calls of the presets *)

Inductive call : Type :=
| C_CGNSBase (name : string) (cell_dim phy_dim : Z)
| C_Family (name : string) (family_bc : option string)
| C_FamilyName (family_name as_additional : string)
| C_FamilyBC (family_bc : string)
| C_Zone (name type : string) (size : pyval) (family : option string)
| C_Elements (name : string) (type : elt_type) (erange econn : option pyval)
| C_NGonElements (name : string) (erange eso ec pe pepos : option pyval)
| C_NFaceElements (name : string) (erange eso ec : option pyval)
| C_ZoneBC
| C_BC (name type : string) (point_range point_list : option pyval) (loc family : option string)
| C_ZoneGridConnectivity (name : string)
| C_GridConnectivity (name : string) (donor_name : option string) (type : string) (loc : option string)
    (point_range point_range_donor point_list point_list_donor : option pyval)
| C_GridConnectivityType (type : string)
| C_Periodic (rotation_angle rotation_center translation : pyval)
| C_GridConnectivityProperty (periodic : list (string * pyval))
| C_GridConnectivity1to1 (name : string) (donor_name : option string) (point_range point_range_donor transform : option pyval)
| C_IndexArray (name : string) (v : pyval)
| C_IndexRange (name : string) (v : pyval)
| C_GridLocation (loc : string)
| C_BaseIterativeData (name : string) (time_values iter_values : option pyval)
| C_DataArray (name : string) (v : pyval) (dtype : option string)
| C_GridCoordinates (name : string) (fields : list (string * pyval))
| C_FlowSolution (name : string) (loc : option string) (fields : list (string * pyval))
| C_ZoneSubRegion (name : string) (loc : option string) (point_range point_list : option pyval)
    (bc_name gc_name family : option string) (fields : list (string * pyval)).

Definition label_of_call (c : call) : string :=
  match c with
  | C_CGNSBase _ _ _ => "CGNSBase_t"
  | C_Family _ _ => "Family_t"
  | C_FamilyName _ as_additional => if bool_decide (as_additional <> "") then "AdditionalFamilyName_t" else "FamilyName_t"
  | C_FamilyBC _ => "FamilyBC_t"
  | C_Zone _ _ _ _ => "Zone_t"
  | C_Elements _ _ _ _ | C_NGonElements _ _ _ _ _ _ | C_NFaceElements _ _ _ _ => "Elements_t"
  | C_ZoneBC => "ZoneBC_t"
  | C_BC _ _ _ _ _ _ => "BC_t"
  | C_ZoneGridConnectivity _ => "ZoneGridConnectivity_t"
  | C_GridConnectivity _ _ _ _ _ _ _ _ => "GridConnectivity_t"
  | C_GridConnectivityType _ => "GridConnectivityType_t"
  | C_Periodic _ _ _ => "Periodic_t"
  | C_GridConnectivityProperty _ => "GridConnectivityProperty_t"
  | C_GridConnectivity1to1 _ _ _ _ _ => "GridConnectivity1to1_t"
  | C_IndexArray _ _ => "IndexArray_t"
  | C_IndexRange _ _ => "IndexRange_t"
  | C_GridLocation _ => "GridLocation_t"
  | C_BaseIterativeData _ _ _ => "BaseIterativeData_t"
  | C_DataArray _ _ _ => "DataArray_t"
  | C_GridCoordinates _ _ => "GridCoordinates_t"
  | C_FlowSolution _ _ _ => "FlowSolution_t"
  | C_ZoneSubRegion _ _ _ _ _ _ _ _ => "ZoneSubRegion_t"
  end.

Section run.
Context (to_float32 : Z -> Z) (astype : cgns_type -> cgns_type -> Z -> Z) (zero : Z).

Definition run_call (c : call) : preset :=
  match c with
  | C_CGNSBase name cd pd => new_CGNSBase to_float32 name cd pd
  | C_Family name bc => new_Family to_float32 name bc
  | C_FamilyName f a => new_FamilyName to_float32 f a
  | C_FamilyBC bc => new_FamilyBC to_float32 bc
  | C_Zone name type size family => new_Zone to_float32 name type size family
  | C_Elements name type er ec => new_Elements to_float32 astype name type er ec
  | C_NGonElements name er eso ec pe pepos => new_NGonElements to_float32 astype name er eso ec pe pepos
  | C_NFaceElements name er eso ec => new_NFaceElements to_float32 astype name er eso ec
  | C_ZoneBC => new_ZoneBC to_float32
  | C_BC name type pr pl loc family => new_BC to_float32 name type pr pl loc family
  | C_ZoneGridConnectivity name => new_ZoneGridConnectivity to_float32 name
  | C_GridConnectivity name d type loc pr prd pl pld => new_GridConnectivity to_float32 name d type loc pr prd pl pld
  | C_GridConnectivityType type => new_GridConnectivityType to_float32 type
  | C_Periodic a c t => new_Periodic to_float32 astype a c t
  | C_GridConnectivityProperty periodic => new_GridConnectivityProperty to_float32 astype zero periodic
  | C_GridConnectivity1to1 name d pr prd t => new_GridConnectivity1to1 to_float32 name d pr prd t
  | C_IndexArray name v => new_IndexArray to_float32 name v
  | C_IndexRange name v => new_IndexRange to_float32 name v
  | C_GridLocation loc => new_GridLocation to_float32 loc
  | C_BaseIterativeData name tv iv => new_BaseIterativeData to_float32 astype name tv iv
  | C_DataArray name v d => new_DataArray to_float32 astype name v d
  | C_GridCoordinates name fields => new_GridCoordinates to_float32 astype name fields
  | C_FlowSolution name loc fields => new_FlowSolution to_float32 astype name loc fields
  | C_ZoneSubRegion name loc pr pl bc gc family fields => new_ZoneSubRegion to_float32 astype name loc pr pl bc gc family fields
  end.

Lemma makes_DataArray name v d : makes "DataArray_t" (new_DataArray to_float32 astype name v d).
Proof using Type. apply makes_with_value. intros. apply makes_leaf. Qed.
Lemma makes_IndexRange name v : makes "IndexRange_t" (new_IndexRange to_float32 name v).
Proof using Type. apply makes_with_value. intros. apply makes_leaf. Qed.
Lemma makes_IndexArray name v : makes "IndexArray_t" (new_IndexArray to_float32 name v).
Proof using Type. apply makes_leaf. Qed.
Lemma makes_GridLocation loc : makes "GridLocation_t" (new_GridLocation to_float32 loc).
Proof using Type. apply makes_asserting, makes_leaf. Qed.
Lemma makes_FamilyName f : makes "FamilyName_t" (new_FamilyName to_float32 f "").
Proof using Type. apply makes_leaf. Qed.

Lemma fills_fields L fields : _check_parent_label "DataArray_t" L = true -> fills L (fields_of to_float32 astype fields).
Proof using Type. intros H. apply (fills_each L _ _ "DataArray_t"); [|done]. intros. apply makes_DataArray. Qed.

Lemma fills_patch L suffix pr pl :
  _check_parent_label "IndexRange_t" L = true -> _check_parent_label "IndexArray_t" L = true ->
  fills L (range_or_list to_float32 suffix pr pl).
Proof using Type.
  intros H1 H2. unfold range_or_list. apply fills_bind; [|intros ?]; apply fills_when; intros v; (apply fills_bind; [apply fills_check|intros ?]).
  - eapply fills_under; [apply makes_IndexRange|done].
  - eapply fills_under; [apply makes_IndexArray|done].
Qed.

(** A filling step: a check, or a preset whose label is allowed. *)
Ltac make :=
  cbv beta;
  lazymatch goal with
  | |- makes _ (new_DataArray _ _ _ _ _) => apply makes_DataArray
  | |- makes _ (new_IndexRange _ _ _) => apply makes_IndexRange
  | |- makes _ (new_IndexArray _ _ _) => apply makes_IndexArray
  | |- makes _ (new_GridLocation _ _) => apply makes_GridLocation
  | |- makes _ (new_FamilyName _ _ _) => apply makes_FamilyName
  | |- makes _ (new_FamilyBC _ _) => apply makes_asserting, makes_leaf
  | |- makes _ (new_GridConnectivityType _ _) => apply makes_asserting, makes_leaf
  | |- makes _ (leaf _ _ _ _) => apply makes_leaf
  end.
Ltac fill :=
  repeat lazymatch goal with
  | |- fills _ (mret _) => apply fills_ret
  | |- fills _ (mbind _ _) => apply fills_bind; [|intros ?]
  | |- fills _ (check _) => apply fills_check
  | |- fills _ (set_value _ _) => apply fills_set_value
  | |- fills _ (opt _ _) => eapply fills_opt; [intros ?; make|by vm_compute]
  | |- fills _ (when _ _) => apply fills_when; intros ?
  | |- fills _ (fields_of _ _ _) => apply fills_fields; by vm_compute
  | |- fills _ (range_or_list _ _ _ _) => apply fills_patch; by vm_compute
  | |- fills _ (under _) => eapply fills_under; [make|by vm_compute]
  end.

Lemma makes_elements name type er ec more : fills "Elements_t" more -> makes "Elements_t" (elements to_float32 astype name type er ec more).
Proof using Type. intros H. apply makes_with_value. intros v. apply makes_build. do 2 (apply fills_bind; [fill|intros ?]). done. Qed.

Lemma new_good name v (cs : list node) label :
  is_valid_name name false = true -> is_valid_label label false = true -> NoDup (get_names cs) -> Forall good cs ->
  forallb (fun c => _check_parent_label (get_label c) label) cs = true -> good (Node name v cs label).
Proof using Type.
  intros Hn Hl Hnd Hg Hc. split.
  - constructor; [done..|]. eapply Forall_impl; [exact Hg|]. by intros c [? _].
  - cbn. rewrite forallb_forall in Hc |- *. intros c Hin. rewrite (Hc c Hin). rewrite Forall_forall in Hg.
    apply list_elem_of_In in Hin. by destruct (Hg c Hin) as [_ ->].
Qed.

Lemma DataArray_name name v n :
  (new_DataArray to_float32 astype name v None None).2 = Ret n -> good n /\ get_label n = "DataArray_t" /\ get_name n = name.
Proof using Type.
  intros E. pose proof (makes_DataArray name v None None) as H.
  assert (Hn : get_name n = name).
  { revert E. unfold new_DataArray, with_value, leaf, build. destruct (cast_value _ _ v None); [|done]. rewrite new_node_spec.
    destruct (negb _); [done|]. destruct (negb _); [done|]. destruct (_convert_value _ _); [|done].
    change (some_nodes []) with (@nil node). case_bool_decide; [|done]. by intros [= <-]. }
  destruct (new_DataArray to_float32 astype name v None None) as [p r]. cbn in E. subst r. by destruct H as (G & L & _).
Qed.

Lemma makes_Periodic a c t : makes "Periodic_t" (new_Periodic to_float32 astype a c t).
Proof using Type.
  clear zero. intros parent. unfold new_Periodic.
  destruct ((new_DataArray to_float32 astype "RotationAngle" a None None).2) as [na|] eqn:Ea; [|destruct parent; [by left|done]].
  destruct ((new_DataArray to_float32 astype "RotationCenter" c None None).2) as [nc|] eqn:Ec; [|destruct parent; [by left|done]].
  destruct ((new_DataArray to_float32 astype "Translation" t None None).2) as [nt|] eqn:Et; [|destruct parent; [by left|done]].
  cbn [mbind py_bind]. apply DataArray_name in Ea as (Ga & La & Na), Ec as (Gc & Lc & Nc), Et as (Gt & Lt & Nt).
  rewrite new_node_spec. change (some_nodes [Some na; Some nc; Some nt]) with [na; nc; nt].
  assert (Hnd : NoDup (get_names [na; nc; nt])) by (cbn; rewrite Na, Nc, Nt; repeat constructor; set_solver).
  rewrite bool_decide_eq_true_2 by done. cbn [negb is_valid_name is_valid_label].
  assert (G : good (Node "Periodic" None [na; nc; nt] "Periodic_t")).
  { apply new_good; [done|done|done|by rewrite !Forall_cons, Forall_nil|]. cbn [forallb]. by rewrite La, Lc, Lt. }
  cbn -[good get_names append_child]. destruct parent as [[pn pv pc pl]|]; [|done].
  case_bool_decide; [by left|]. by split.
Qed.

Lemma run_call_makes c : makes (label_of_call c) (run_call c).
Proof using Type.
  destruct c; cbn [label_of_call run_call];
    try make; try (by apply makes_leaf).
  - apply makes_build. fill.
  - unfold new_FamilyName. case_bool_decide; apply makes_leaf.
  - apply makes_asserting, makes_build. fill. destruct family as [f|]; [case_bool_decide|]; fill.
  - apply makes_elements. fill.
  - apply makes_elements. fill.
  - apply makes_elements. fill.
  - apply makes_asserting, makes_build. fill.
  - apply makes_build. fill.
  - apply makes_Periodic.
  - apply makes_build. destruct periodic as [|e periodic]; [fill|]. eapply (fills_under _ "Periodic_t"); [|by vm_compute].
    intros parent. unfold periodic_call. destruct (forallb _ _); [apply makes_Periodic|]. destruct parent; [by left|done].
  - apply makes_build. fill.
  - apply makes_build. fill.
  - apply makes_build. fill.
  - apply makes_build. fill.
  - apply makes_build. fill.
Qed.
End run.


(** A boundary condition whose patch is given twice: the range is already attached when it is refused. *)
Example bc_given_twice to_float32 astype zero :
  run_call to_float32 astype zero (C_BC "BC" "BCWall" (Some (PInts [Leaf 1; Leaf 4])) (Some (PInts [Nest [Leaf 1]])) None None)
    (Some (Node "ZoneBC" None [] "ZoneBC_t")) =
  (Some (Node "ZoneBC" None [Node "BC" (Some (NpArray T_C1 [6] true (codes "BCWall"))) [] "BC_t"] "ZoneBC_t"), Raise AssertionError).
Proof. reflexivity. Qed.

End Presets.
