(* ===== verification/PartZone.v ===== *)
(** * Partitioning of a structured zone: [maia/factory/partitioning/split_S/part_zone.py]

    A point range is the list of its rows [(first, last)], one for each index of the zone, in cells or in
    vertices, numbered from 1 in the zone or in the partition.  A partition is given by its cell bounds
    in the zone, as the cut tree returns them.  The functions that create nodes are modelled here by the
    ranges, names and numberings they compute; the joins between partitions are records that
    [intra_gc_node] turns into nodes.  PartTree holds the other nodes. *)
From S2P Require Import Prelude NpUtils Numbering Values Conventions Tree Walkers Sids Presets PointRange PyFloat CutTree.

Local Open Scope Z_scope.

Module PartZone.
Import Values Tree Walkers Sids.

Abbreviation prange := (list (Z * Z)).

(** [zone_cell_range] *)
Definition cell_range (n_cell : list Z) : prange := map (fun n => (1, n)) n_cell.
Definition zone_cell_range `{ArrayEqual} (zone : node) : py prange :=
  n_cell ← Zone_CellSize zone;
  match n_cell with PerIndex l => Ret (cell_range l) | Total _ => Raise IndexError end.

(** ** Point ranges *)

(** The first index of the intersection of two rows. *)
Definition intersect_start (a b : Z * Z) : option Z :=
  if (b.1 <=? a.1) && (a.1 <=? b.2) then Some a.1
  else if (a.1 <=? b.1) && (b.1 <=? a.2) then Some b.1 else None.
Fixpoint intersect_rows (prA prB : prange) : option prange :=
  match prA, prB with
  | a :: prA', b :: prB' =>
      match intersect_start a b with
      | Some s => match intersect_rows prA' prB' with Some r => Some ((s, Z.min a.2 b.2) :: r) | None => None end
      | None => None
      end
  | _, _ => Some []
  end.
Definition intersect_pr (prA prB : prange) : py (option prange) :=
  _ ← py_assert (bool_decide (length prA = length prB));
  Ret (intersect_rows prA prB).

Definition sign_of (reverse : bool) : Z := if reverse then -1 else 1.
(** In place: the normal row is shifted off the vertices or faces of a last boundary, the last vertex of
    the other rows is dropped. *)
Definition pr_to_cell_location (pr : prange) (normal_idx : nat) (original_loc : string) (bnd_is_max : Z) (reverse : bool)
    : prange :=
  imap (fun d r =>
    if bool_decide (d = normal_idx)
    then (if bool_decide (original_loc = "CellCenter") then r
          else (r.1 - sign_of reverse * bnd_is_max, r.2 - sign_of reverse * bnd_is_max))
    else (if bool_decide (original_loc = "Vertex") then (r.1, r.2 - sign_of reverse * 1) else r)) pr.

Definition pr_to_global_num (pr : prange) (zone_offset : list Z) (reverse : bool) : prange :=
  zip_with (fun r o => (r.1 + sign_of reverse * (o - 1), r.2 + sign_of reverse * (o - 1))) pr zone_offset.

(** [pr[dirs,:]], where [dirs] are the indices other than [normal_idx], and the way back. *)
Definition tangent_rows (normal_idx : nat) (pr : prange) : prange := delete normal_idx pr.
Definition insert_row (normal_idx : nat) (row : Z * Z) (rows : prange) : prange :=
  take normal_idx rows ++ row :: drop normal_idx rows.

(** The rows whose bounds are decreasing, and the exchange of the bounds of some rows. *)
Definition dir_to_swap (pr : prange) : list bool := map (fun r => r.2 <? r.1) pr.
Definition swap_rows (dirs : list bool) (pr : prange) : prange :=
  zip_with (fun (b : bool) r => if b then (r.2, r.1) else r) dirs pr.

(** ** Boundaries of a partition *)

(** The six geometric boundaries: the normal index, and 0 for min or 1 for max. *)
Definition geo_bnds : list (nat * Z) := [(0%nat, 0); (1%nat, 0); (2%nat, 0); (0%nat, 1); (1%nat, 1); (2%nat, 1)].

Definition row_extr (extr : Z) (r : Z * Z) : Z := if extr =? 0 then r.1 else r.2.

(** The boundary of a partition, in the cell numbering of the zone. *)
Definition part_boundary (p_range : prange) (p_offset : list Z) (normal_idx : nat) (extr : Z) : prange :=
  pr_to_global_num (alter (fun r => (row_extr extr r, row_extr extr r)) normal_idx p_range) p_offset false.

(** The boundary of the partition is on the boundary of the zone. *)
Definition is_old_bc (d_range bnd : prange) (normal_idx : nat) (extr : Z) : bool :=
  bool_decide (row_extr extr <$> bnd !! normal_idx = row_extr extr <$> d_range !! normal_idx).

(** [create_bcs], for one boundary condition of the zone: the range of the condition in the partition. *)
Definition part_bc_range (d_range p_range : prange) (p_offset : list Z) (normal_idx : nat) (extr : Z)
    (dist_pr : prange) (grid_loc : string) : py (option prange) :=
  let bnd := part_boundary p_range p_offset normal_idx extr in
  if is_old_bc d_range bnd normal_idx extr then
    let swap := dir_to_swap dist_pr in
    let range_dist_bc := pr_to_cell_location (swap_rows swap dist_pr) normal_idx grid_loc extr false in
    inter ← intersect_pr (tangent_rows normal_idx bnd) (tangent_rows normal_idx range_dist_bc);
    match inter with
    | None => Ret None
    | Some inter =>
        row ← of_option IndexError (bnd !! normal_idx);
        let sub_pr := insert_row normal_idx row inter in
        let sub_pr := pr_to_global_num sub_pr p_offset true in
        let sub_pr := pr_to_cell_location sub_pr normal_idx grid_loc extr true in
        Ret (Some (swap_rows swap sub_pr))
    end
  else Ret None.

(** ** Joins between the partitions *)

(** A boundary that is not on the boundary of the zone; its name gives the normal index and the side. *)
Record join := Join { jn_normal : nat; jn_extr : Z; jn_pr : prange }.
(** The cells of a partition and its offset in the zone. *)
Record part := Part { pt_range : prange; pt_offset : list Z }.

Definition part_join (d_range : prange) (p : part) (b : nat * Z) : option join :=
  if Nat.ltb b.1 (length d_range) then
    let bnd := part_boundary (pt_range p) (pt_offset p) b.1 b.2 in
    if is_old_bc d_range bnd b.1 b.2 then None else Some (Join b.1 b.2 bnd)
  else None.
Definition part_joins (d_range : prange) (p : part) : list join := omap (part_join d_range p) geo_bnds.

(** The ranges of the join and of its donor, when the two boundaries face each other. *)
Definition is_admissible (my opp : join) : bool :=
  let shift := 1 - 2 * jn_extr my in
  bool_decide (jn_normal opp = jn_normal my) && bool_decide (jn_extr opp <> jn_extr my) &&
  bool_decide ((fun r => r.1 - shift) <$> jn_pr my !! jn_normal my = fst <$> jn_pr opp !! jn_normal my).

Definition facing_ranges (my : join) (my_offset : list Z) (opp : join) (opp_offset : list Z) : py (option (prange * prange)) :=
  if is_admissible my opp then
    let normal_idx := jn_normal my in
    let shift := 1 - 2 * jn_extr my in
    inter ← intersect_pr (tangent_rows normal_idx (jn_pr my)) (tangent_rows normal_idx (jn_pr opp));
    match inter with
    | None => Ret None
    | Some inter =>
        row ← of_option IndexError (jn_pr my !! normal_idx);
        let sub_pr := insert_row normal_idx row inter in
        let sub_pr_d := alter (fun r => (r.1 - shift, r.2 - shift)) normal_idx sub_pr in
        let sub_pr := pr_to_global_num sub_pr my_offset true in
        let sub_pr_d := pr_to_global_num sub_pr_d opp_offset true in
        Ret (Some (pr_to_cell_location sub_pr normal_idx "Vertex" (jn_extr my) true,
                   pr_to_cell_location sub_pr_d normal_idx "Vertex" (1 - jn_extr my) true))
    end
  else Ret None.

Record intra_gc := IntraGc { g_name : string; g_opp : string; g_pr : prange; g_prd : prange }.

(** The partitions of all the ranks, with the global number of each rank. *)
Abbreviation ranks := (list (Z * list part)).

Section internal_gcs.
Context (d_name : string) (d_range : prange) (comm : ranks).

(** The joins of partition [i_part] of rank [i_rank] with an opposite boundary. *)
Definition gc_with (grank : Z) (i_part : nat) (p : part) (my : join) (grank' : Z) (j_part : nat) (q : part) (opp : join)
    : py (list intra_gc) :=
  r ← facing_ranges my (pt_offset p) opp (pt_offset q);
  Ret (match r with
       | Some (sub_pr, sub_pr_d) =>
           [IntraGc (Conventions.name_intra_gc grank (Z.of_nat i_part) grank' (Z.of_nat j_part))
              (Conventions.add_part_suffix d_name grank' (Z.of_nat j_part)) sub_pr sub_pr_d]
       | None => []
       end).

(** A loop that concatenates what its turns return. *)
Definition collect {A B} (f : A -> py (list B)) (l : list A) : py (list B) := r ← mapM f l; Ret (concat r).
Definition enumerate {A} (l : list A) : list (nat * A) := imap pair l.

Definition part_gcs (grank : Z) (i_part : nat) (p : part) : py (list intra_gc) :=
  collect (fun my =>
    collect (fun '(grank', opp_parts) =>
      collect (fun '(j_part, q) =>
        collect (fun opp => gc_with grank i_part p my grank' j_part q opp) (part_joins d_range q))
        (enumerate opp_parts))
      comm)
    (part_joins d_range p).

(** What one rank computes for its partitions, in order. *)
Definition create_internal_gcs (grank : Z) (my_parts : list part) : py (list (list intra_gc)) :=
  mapM (fun '(i_part, p) => part_gcs grank i_part p) (enumerate my_parts).
End internal_gcs.

(** The node of a join: columns are the starts and the ends; the transformation is the identity. *)
Definition range_array (pr : prange) : pyval :=
  PArray (NpArray T_I4 [zlen pr; 2] true (map fst pr ++ map snd pr)).
Definition identity_transform (idx_dim : nat) : pyval :=
  PArray (NpArray T_I4 [Z.of_nat idx_dim] true (arange 1 (Z.of_nat idx_dim + 1))).
Definition intra_gc_node (to_float32 : Z -> Z) (g : intra_gc) : Presets.preset :=
  Presets.then_fill
    (Presets.new_GridConnectivity1to1 to_float32 (g_name g) (Some (g_opp g)) None None
       (Some (identity_transform (length (g_pr g)))))
    (_ ← Presets.under (Presets.new_IndexRange to_float32 "PointRange" (range_array (g_pr g)));
     Presets.under (Presets.new_IndexRange to_float32 "PointRangeDonor" (range_array (g_prd g)))).

(** ** Joins between the original zones *)

(** [split_original_joins_S]: the part of a join that faces an opposite one.  [pr] is the join of the
    partition in the vertices of its zone, [dist_pr] and [dist_prd] the first points of the original join
    and of its donor, [pr_opp] the opposite join in the vertices of the opposite zone. *)
Definition window_of (pr : prange) : list Z * list Z := (map fst pr, map snd pr).
Definition of_window (w : list Z * list Z) : prange := zip w.1 w.2.
Definition normal_row (pr : prange) : py nat :=
  match filter (fun '(i, (a, b)) => a = b) (enumerate pr) with [(i, _)] => Ret i | _ => Raise ValueError end.

Definition transpose (m : list (list Z)) : list (list Z) :=
  map (fun j => map (fun row => default 0 (row !! j)) m) (seq 0 (length m)).

Definition facing_original (pr : prange) (p_offset : list Z) (start start_d : list Z) (T : list (list Z))
    (pr_opp : prange) (opp_offset : list Z) : py (option (prange * prange)) :=
  let pr_in_opp_abs := of_window (_gc_transform_window (window_of pr) start start_d T) in
  normal_idx ← normal_row pr_in_opp_abs;
  first ← of_option IndexError (fst <$> pr_in_opp_abs !! normal_idx);
  let bnd_is_max := if bool_decide (first <> 1) then 1 else 0 in
  let swap := dir_to_swap pr_in_opp_abs in
  let mine := pr_to_cell_location (swap_rows swap pr_in_opp_abs) normal_idx "Vertex" bnd_is_max false in
  let opp := pr_to_cell_location (swap_rows swap pr_opp) normal_idx "Vertex" bnd_is_max false in
  inter ← intersect_pr (tangent_rows normal_idx mine) (tangent_rows normal_idx opp);
  match inter with
  | None => Ret None
  | Some inter =>
      row ← of_option IndexError (mine !! normal_idx);
      let sub_prd := insert_row normal_idx row inter in
      let sub_prd := pr_to_cell_location sub_prd normal_idx "Vertex" bnd_is_max true in
      let sub_prd := swap_rows swap sub_prd in
      let sub_pr := of_window (_gc_transform_window (window_of sub_prd) start_d start (transpose T)) in
      Ret (Some (pr_to_global_num sub_pr p_offset true, pr_to_global_num sub_prd opp_offset true))
  end.

(** ** Global numberings of a partition *)

Definition triplet_of (l : list Z) : Numbering.triplet :=
  match l with [a] => (a, 1, 1) | [a; b] => (a, b, 1) | a :: b :: c :: _ => (a, b, c) | [] => (1, 1, 1) end.
(** The broadcast of the index arrays over [k], [j] and [i], flattened: [i] is the fastest. *)
Definition window_points (w : prange) : list (Z * Z * Z) :=
  match w with
  | [i] => map (fun i => (i, 1, 1)) (arange i.1 i.2)
  | [i; j] => PointRange.loop_F (arange i.1 i.2) (arange j.1 j.2) [1]
  | i :: j :: k :: _ => PointRange.loop_F (arange i.1 i.2) (arange j.1 j.2) (arange k.1 k.2)
  | [] => []
  end.
(** With one index, the numbers are the indices themselves. *)
Definition window_gnum (w : prange) (size : list Z) : list Z :=
  map (fun '(i, j, k) => Numbering.ijk_to_index i j k (triplet_of size)) (window_points w).
Definition grow (w : prange) : prange := map (fun r => (r.1, r.2 + 1)) w.
(** The bounds of the faces in one direction. *)
Definition grow_at (d : nat) (w : prange) : prange := alter (fun r => (r.1, r.2 + 1)) d w.

Definition compute_face_gnum (dist_zone_cell_size : list Z) (cell_window : prange) : list Z :=
  let n_cell := triplet_of dist_zone_cell_size in
  let n_vtx := triplet_of (map (Z.add 1) dist_zone_cell_size) in
  map (fun '(i, j, k) => Numbering.ijk_to_faceiIndex i j k n_cell n_vtx) (window_points (grow_at 0 cell_window)) ++
  map (fun '(i, j, k) => Numbering.ijk_to_facejIndex i j k n_cell n_vtx) (window_points (grow_at 1 cell_window)) ++
  map (fun '(i, j, k) => Numbering.ijk_to_facekIndex i j k n_cell n_vtx) (window_points (grow_at 2 cell_window)).

Definition create_zone_gnums (cell_window : prange) (dist_zone_cell_size : list Z) : list Z * option (list Z) * list Z :=
  (window_gnum (grow cell_window) (map (Z.add 1) dist_zone_cell_size),
   if bool_decide (length dist_zone_cell_size = 3%nat) then Some (compute_face_gnum dist_zone_cell_size cell_window) else None,
   window_gnum cell_window dist_zone_cell_size).

(** ** [part_s_zone]: the partitions of one rank *)

(** Bounds start at 1, and the last cell is included in the range of a partition. *)
Definition cell_bounds (b : CutTree.part_bounds) : prange := map (fun r => (r.1 + 1, r.2 + 1)) b.
Definition part_of_bounds (b : CutTree.part_bounds) : part :=
  Part (cell_range (map (fun r => r.2 - r.1) b)) (map fst (cell_bounds b)).
(** What is created for a partition: its name, its dimensions by rows, its numberings. *)
Record part_zone := PartZoneData {
  pz_name : string;
  pz_dims : list (Z * Z * Z);
  pz_gnums : list Z * option (list Z) * list Z
}.
Definition new_part_zone (d_name : string) (cell_size : list Z) (g_rank : Z) (i_part : nat) (b : CutTree.part_bounds) : part_zone :=
  PartZoneData (Conventions.add_part_suffix d_name g_rank (Z.of_nat i_part))
    (map (fun r => (r.2 - r.1 + 1, r.2 - r.1, 0)) b)
    (create_zone_gnums (cell_bounds b) cell_size).

(** [n_parts] and [all_weights] are gathered from the ranks; [max_it] bounds the search of [split_S_block]. *)
Definition split_zone (cell_size : list Z) (all_weights : list PyFloat.float) (max_it : nat) : py (list CutTree.part_bounds) :=
  match cell_size with
  | [n] => CutTree.split_S_line n all_weights
  | _ => CutTree.split_S_block cell_size (length all_weights) (Some all_weights) max_it
  end.
(** The slice of the parts of a rank. *)
Definition my_parts {A B} (weights : list (list A)) (all_parts : list B) (i_rank : nat) : list B :=
  take (length (default [] (weights !! i_rank))) (drop (length (concat (take i_rank weights))) all_parts).
Definition part_s_zone (d_name : string) (cell_size : list Z) (weights : list (list PyFloat.float)) (max_it : nat)
    (i_rank : nat) (g_rank : Z) : py (list part_zone) :=
  all_parts ← split_zone cell_size (concat weights) max_it;
  Ret (imap (new_part_zone d_name cell_size g_rank) (my_parts weights all_parts i_rank)).

(** ** Lemmas: ranges as sets of points *)

Definition in_row (x : Z) (r : Z * Z) : Prop := r.1 <= x <= r.2.
Definition in_rows (x : list Z) (pr : prange) : Prop := Forall2 in_row x pr.
Definition valid_rows (pr : prange) : Prop := Forall (fun r => r.1 <= r.2) pr.

Lemma intersect_start_spec a b :
  a.1 <= a.2 -> b.1 <= b.2 ->
  match intersect_start a b with
  | Some s => s <= Z.min a.2 b.2 /\ forall x, in_row x (s, Z.min a.2 b.2) <-> in_row x a /\ in_row x b
  | None => forall x, ~ (in_row x a /\ in_row x b)
  end.
Proof.
  intros Ha Hb. unfold intersect_start, in_row.
  destruct (Z.leb_spec b.1 a.1), (Z.leb_spec a.1 b.2), (Z.leb_spec a.1 b.1), (Z.leb_spec b.1 a.2); cbn; try lia;
    (split; [lia|intros x; lia]).
Qed.

Lemma intersect_rows_spec A B :
  length A = length B -> valid_rows A -> valid_rows B ->
  match intersect_rows A B with
  | Some r => valid_rows r /\ forall x, in_rows x r <-> in_rows x A /\ in_rows x B
  | None => forall x, ~ (in_rows x A /\ in_rows x B)
  end.
Proof.
  revert B. induction A as [|a A IH]; intros [|b B] Hl HA HB; try done.
  { cbn. split; [constructor|]. intros x. unfold in_rows. tauto. }
  apply Forall_cons in HA as [Ha HA], HB as [Hb HB]. cbn [intersect_rows].
  pose proof (intersect_start_spec a b Ha Hb) as Hs. specialize (IH B ltac:(cbn in Hl; lia) HA HB).
  destruct (intersect_start a b) as [s|].
  - destruct Hs as [Hv Hs]. destruct (intersect_rows A B) as [r|].
    + destruct IH as [Hr IH]. split; [by constructor|]. intros [|x xs]; unfold in_rows in *.
      * split; [by inversion 1|]. intros [H _]. by inversion H.
      * rewrite !Forall2_cons, Hs, IH. tauto.
    + intros [|x xs] [H1 H2]; [by inversion H1|]. apply Forall2_cons in H1 as [_ H1], H2 as [_ H2]. by apply (IH xs).
  - intros [|x xs] [H1 H2]; [by inversion H1|]. apply Forall2_cons in H1 as [H1 _], H2 as [H2 _]. by apply (Hs x).
Qed.

Lemma intersect_rows_length A B r : length A = length B -> intersect_rows A B = Some r -> length r = length A.
Proof.
  revert B r. induction A as [|a A IH]; intros [|b B] r Hl H; try done; cbn in *; [by simplify_eq|].
  destruct (intersect_start a b); [|done]. destruct (intersect_rows A B) eqn:E; [|done]. simplify_eq. cbn. f_equal. apply (IH B); [lia|done].
Qed.

(** ** Lemmas: changes of numbering and of location *)

Lemma lookup_to_cell pr n loc m reverse d :
  pr_to_cell_location pr n loc m reverse !! d =
  (fun r => if bool_decide (d = n)
    then (if bool_decide (loc = "CellCenter") then r else (r.1 - sign_of reverse * m, r.2 - sign_of reverse * m))
    else (if bool_decide (loc = "Vertex") then (r.1, r.2 - sign_of reverse * 1) else r)) <$> pr !! d.
Proof. unfold pr_to_cell_location. apply list_lookup_imap. Qed.

Lemma to_cell_inv pr n loc m b :
  pr_to_cell_location (pr_to_cell_location pr n loc m b) n loc m (negb b) = pr.
Proof.
  apply list_eq. intros d. rewrite !lookup_to_cell. destruct (pr !! d) as [[x y]|]; [|done]. cbn. f_equal.
  destruct b; repeat case_bool_decide; cbn; f_equal; lia.
Qed.

Lemma to_global_inv pr o b :
  length pr = length o -> pr_to_global_num (pr_to_global_num pr o b) o (negb b) = pr.
Proof.
  unfold pr_to_global_num. revert o. induction pr as [|[x y] pr IH]; intros [|o os] Hl; try done.
  cbn [zip_with]. rewrite IH by (cbn in Hl; lia). f_equal. destruct b; cbn; f_equal; lia.
Qed.

Lemma global_of_local pr o : length pr = length o -> pr_to_global_num (pr_to_global_num pr o true) o false = pr.
Proof. apply (to_global_inv pr o true). Qed.

Lemma swap_rows_inv dirs pr : length dirs = length pr -> swap_rows dirs (swap_rows dirs pr) = pr.
Proof.
  unfold swap_rows. revert pr. induction dirs as [|b dirs IH]; intros [|[x y] pr] Hl; try done.
  cbn [zip_with]. rewrite IH by (cbn in Hl; lia). by destruct b.
Qed.

Lemma length_to_global pr o b : length (pr_to_global_num pr o b) = Nat.min (length pr) (length o).
Proof. apply length_zip_with. Qed.
Lemma length_to_cell pr n loc m b : length (pr_to_cell_location pr n loc m b) = length pr.
Proof. apply length_imap. Qed.
Lemma length_swap dirs pr : length (swap_rows dirs pr) = Nat.min (length dirs) (length pr).
Proof. apply length_zip_with. Qed.
Lemma length_dir_to_swap pr : length (dir_to_swap pr) = length pr.
Proof. apply length_map. Qed.

Lemma swap_valid pr : valid_rows (swap_rows (dir_to_swap pr) pr).
Proof.
  unfold swap_rows, dir_to_swap. induction pr as [|[x y] pr IH]; [constructor|]. cbn [map zip_with]. constructor; [|done].
  cbn. destruct (Z.ltb_spec y x); cbn; lia.
Qed.

Lemma insert_tangent n row pr : pr !! n = Some row -> insert_row n row (tangent_rows n pr) = pr.
Proof.
  intros H. unfold insert_row, tangent_rows. pose proof (lookup_lt_Some _ _ _ H) as Hl.
  rewrite delete_take_drop, take_app_length', drop_app_length' by (rewrite length_take; lia).
  by apply take_drop_middle.
Qed.

Lemma lookup_insert_row_eq n row rows : (n <= length rows)%nat -> insert_row n row rows !! n = Some row.
Proof. intros H. unfold insert_row. apply list_lookup_middle. rewrite length_take. lia. Qed.
Lemma lookup_insert_row_ne n row rows i :
  i <> n -> (n <= length rows)%nat -> insert_row n row rows !! i = rows !! (if Nat.ltb i n then i else (i - 1)%nat).
Proof.
  intros Hi Hn. unfold insert_row. destruct (Nat.ltb_spec i n).
  - rewrite lookup_app_l by (rewrite length_take; lia). by rewrite lookup_take_lt.
  - rewrite lookup_app_r by (rewrite length_take; lia). rewrite length_take, Nat.min_l by done.
    destruct (i - n)%nat as [|k] eqn:E; [lia|]. change (drop n rows !! k = rows !! (i - 1)%nat). rewrite lookup_drop. f_equal. lia.
Qed.
Lemma alter_insert_row n row rows f : (n <= length rows)%nat -> alter f n (insert_row n row rows) = insert_row n (f row) rows.
Proof.
  intros Hn. unfold insert_row. replace n with (length (take n rows) + 0)%nat at 1 by (rewrite length_take; lia).
  by rewrite alter_app_r.
Qed.
Lemma tangent_insert n row rows : (n <= length rows)%nat -> tangent_rows n (insert_row n row rows) = rows.
Proof.
  intros H. unfold tangent_rows, insert_row. replace n with (length (take n rows)) at 1 by (rewrite length_take; lia).
  by rewrite delete_middle, take_drop.
Qed.
Lemma length_insert_row n row rows : (n <= length rows)%nat -> length (insert_row n row rows) = S (length rows).
Proof. intros H. unfold insert_row. rewrite length_app. cbn. rewrite length_take, length_drop. lia. Qed.
Lemma length_tangent n (pr : prange) : (n < length pr)%nat -> length (tangent_rows n pr) = (length pr - 1)%nat.
Proof. intros H. unfold tangent_rows. by rewrite length_delete by (by apply lookup_lt_is_Some_2). Qed.

(** A relation between two lists, at an index and elsewhere. *)
Lemma Forall2_split_at {A B} (P : A -> B -> Prop) n l k :
  (n < length k)%nat -> length l = length k ->
  Forall2 P l k <-> (exists a b, l !! n = Some a /\ k !! n = Some b /\ P a b) /\ Forall2 P (delete n l) (delete n k).
Proof.
  revert n k. induction l as [|a l IH]; intros [|n] [|b k] Hn Hl; try (cbn in *; lia).
  - cbn. rewrite Forall2_cons. naive_solver.
  - cbn [delete list_delete]. rewrite !Forall2_cons. cbn in Hn, Hl. rewrite (IH n k) by lia. cbn. tauto.
Qed.
(** A point is in a range when its normal index and its tangent indices are. *)
Lemma in_rows_split n x pr :
  (n < length pr)%nat -> length x = length pr ->
  in_rows x pr <-> (exists xn row, x !! n = Some xn /\ pr !! n = Some row /\ in_row xn row) /\ in_rows (delete n x) (tangent_rows n pr).
Proof. apply Forall2_split_at. Qed.

(** ** Lemmas: the boundaries of a partition *)

(** The cells of a partition, in the numbering of the zone. *)
Definition window (p : part) : prange := pr_to_global_num (pt_range p) (pt_offset p) false.

Lemma lookup_to_global pr o b d r k :
  pr !! d = Some r -> o !! d = Some k ->
  pr_to_global_num pr o b !! d = Some (r.1 + sign_of b * (k - 1), r.2 + sign_of b * (k - 1)).
Proof. intros Hr Hk. unfold pr_to_global_num. by rewrite lookup_zip_with, Hr, Hk. Qed.

Lemma part_boundary_window p d e :
  part_boundary (pt_range p) (pt_offset p) d e = alter (fun r => (row_extr e r, row_extr e r)) d (window p).
Proof.
  unfold part_boundary, window. apply list_eq. intros i. unfold pr_to_global_num. destruct (decide (i = d)) as [->|Hi].
  - rewrite list_lookup_alter_eq, !lookup_zip_with, list_lookup_alter_eq.
    destruct (pt_range p !! d) as [[a b]|]; [|done]. cbn. destruct (pt_offset p !! d); [|done]. cbn. unfold row_extr.
    by destruct (e =? 0).
  - by rewrite list_lookup_alter_ne, !lookup_zip_with, list_lookup_alter_ne.
Qed.

Lemma delete_alter {A} d f (l : list A) : delete d (alter f d l) = delete d l.
Proof. revert d. induction l as [|r l IH]; intros [|d]; try done. cbn. f_equal. apply IH. Qed.
Lemma tangent_alter d f (pr : prange) : tangent_rows d (alter f d pr) = tangent_rows d pr.
Proof. apply delete_alter. Qed.

Lemma valid_tangent d pr : valid_rows pr -> valid_rows (tangent_rows d pr).
Proof. intros H. unfold valid_rows, tangent_rows. rewrite delete_take_drop. by apply Forall_app; split; [apply Forall_take|apply Forall_drop]. Qed.

(** The changes of numbering and of location commute. *)
Lemma to_cell_to_global pr o n loc m b b' :
  length pr = length o ->
  pr_to_cell_location (pr_to_global_num pr o b) n loc m b' = pr_to_global_num (pr_to_cell_location pr n loc m b') o b.
Proof.
  intros Hl. apply list_eq. intros d. unfold pr_to_global_num. rewrite lookup_to_cell, !lookup_zip_with, lookup_to_cell.
  destruct (pr !! d) as [[x y]|] eqn:E; [|done]. cbn.
  destruct (lookup_lt_is_Some_2 o d) as [k Hk]; [apply lookup_lt_Some in E; lia|]. rewrite Hk. cbn. f_equal.
  repeat case_bool_decide; cbn; f_equal; lia.
Qed.

Lemma to_global_back pr o n loc m :
  length pr = length o ->
  pr_to_global_num (pr_to_cell_location (pr_to_global_num pr o true) n loc m true) o false = pr_to_cell_location pr n loc m true.
Proof.
  intros Hl. rewrite to_cell_to_global by done. apply (to_global_inv _ o true). by rewrite length_to_cell.
Qed.

(** ** Lemmas: boundary conditions *)

Lemma cell_of_part_bc pr o n loc m swap :
  length pr = length o -> length swap = length pr ->
  pr_to_global_num (pr_to_cell_location
    (swap_rows swap (swap_rows swap (pr_to_cell_location (pr_to_global_num pr o true) n loc m true))) n loc m false) o false = pr.
Proof.
  intros Hl Hs. rewrite swap_rows_inv by (rewrite length_to_cell, length_to_global; lia).
  rewrite (to_cell_inv _ n loc m true). by apply (to_global_inv pr o true).
Qed.

(** The faces of a boundary condition in a partition: the range, brought back to cells and to the numbering of
    the zone. *)
Definition bc_cells (p : part) (n : nat) (loc : string) (extr : Z) (swap : list bool) (sub_pr : prange) : prange :=
  pr_to_global_num (pr_to_cell_location (swap_rows swap sub_pr) n loc extr false) (pt_offset p) false.

Lemma boundary_row p d e w : window p !! d = Some w -> part_boundary (pt_range p) (pt_offset p) d e !! d = Some (row_extr e w, row_extr e w).
Proof. intros Hw. by rewrite part_boundary_window, list_lookup_alter_eq, Hw. Qed.
Lemma length_boundary p d e : length (part_boundary (pt_range p) (pt_offset p) d e) = length (window p).
Proof. by rewrite part_boundary_window, length_alter. Qed.
Lemma tangent_boundary p d e : tangent_rows d (part_boundary (pt_range p) (pt_offset p) d e) = tangent_rows d (window p).
Proof. by rewrite part_boundary_window, tangent_alter. Qed.
Lemma row_extr_same e c : row_extr e (c, c) = c.
Proof. unfold row_extr. by destruct (e =? 0). Qed.

(** A point of a range whose normal row is one value. *)
Lemma in_flat_rows n c x pr :
  pr !! n = Some (c, c) -> in_rows x pr <-> length x = length pr /\ x !! n = Some c /\ in_rows (delete n x) (tangent_rows n pr).
Proof.
  intros Hc. pose proof (lookup_lt_Some _ _ _ Hc) as Hn. split.
  - intros H. pose proof (Forall2_length _ _ _ H) as Hl. apply (in_rows_split n) in H as [(xn & row & Hx & Hrow & Hin) H]; [|lia..].
    rewrite Hc in Hrow. simplify_eq. unfold in_row in Hin. cbn in Hin. rewrite Hx. split_and!; [done|f_equal; lia|done].
  - intros (Hl & Hx & H). apply (in_rows_split n); [lia..|]. split; [|done]. exists c, (c, c). unfold in_row. cbn. split_and!; try done; lia.
Qed.

(** The intersection of a range whose normal row is one value with another, by their tangent rows. *)
Lemma intersect_tangent n c A B :
  length A = length B -> A !! n = Some (c, c) -> valid_rows (tangent_rows n A) -> valid_rows (tangent_rows n B) ->
  exists o, intersect_pr (tangent_rows n A) (tangent_rows n B) = Ret o /\
  match o with
  | Some inter => length inter = (length A - 1)%nat /\
      forall x, in_rows x (insert_row n (c, c) inter) <-> in_rows x A /\ in_rows (delete n x) (tangent_rows n B)
  | None => forall x, ~ (in_rows x A /\ in_rows (delete n x) (tangent_rows n B))
  end.
Proof.
  intros Hl HA VA VB. pose proof (lookup_lt_Some _ _ _ HA) as Hn.
  assert (Ht : length (tangent_rows n A) = length (tangent_rows n B)) by (rewrite !length_tangent; lia).
  unfold intersect_pr. rewrite bool_decide_eq_true_2 by done. cbn [py_assert mbind py_bind]. eexists. split; [done|].
  pose proof (intersect_rows_spec _ _ Ht VA VB) as Hi. destruct (intersect_rows _ _) as [inter|] eqn:E.
  - assert (Li : length inter = (length A - 1)%nat) by (rewrite (intersect_rows_length _ _ _ Ht E); by apply length_tangent).
    destruct Hi as [Hv Hi]. split; [done|]. intros x.
    rewrite (in_flat_rows n c) by (apply lookup_insert_row_eq; lia).
    rewrite (in_flat_rows n c x A), tangent_insert, length_insert_row, Hi by (done || lia). intuition lia.
  - intros x [H1 H2]. apply (in_flat_rows n c) in H1 as (_ & _ & H1); [|done]. by apply (Hi (delete n x)).
Qed.

Lemma intersect_flat n c A B :
  length A = length B -> A !! n = Some (c, c) -> B !! n = Some (c, c) -> valid_rows (tangent_rows n A) -> valid_rows (tangent_rows n B) ->
  exists o, intersect_pr (tangent_rows n A) (tangent_rows n B) = Ret o /\
  match o with
  | Some inter => length inter = (length A - 1)%nat /\ forall x, in_rows x (insert_row n (c, c) inter) <-> in_rows x A /\ in_rows x B
  | None => forall x, ~ (in_rows x A /\ in_rows x B)
  end.
Proof.
  intros Hl HA HB VA VB. destruct (intersect_tangent n c A B Hl HA VA VB) as (o & E & H). exists o. split; [done|].
  assert (Heq : forall x, in_rows x A /\ in_rows x B <-> in_rows x A /\ in_rows (delete n x) (tangent_rows n B)).
  { intros x. rewrite !(in_flat_rows n c x) by done. intuition lia. }
  destruct o as [inter|]; [|intros x; rewrite Heq; apply H]. split; [apply H|]. intros x. rewrite Heq. apply H.
Qed.

(** The range computed for a boundary condition of a structured zone, in a partition, designates exactly the
    boundary cells of the condition that belong to the partition; there is no range when there is no such
    cell.  Decreasing ranges and the three kinds of locations are included. *)
Theorem part_bc_range_spec d_range p n extr dist_pr loc :
  let bnd := part_boundary (pt_range p) (pt_offset p) n extr in
  let swap := dir_to_swap dist_pr in
  let dist_cells := pr_to_cell_location (swap_rows swap dist_pr) n loc extr false in
  (n < length d_range)%nat -> length (pt_range p) = length d_range -> length (pt_offset p) = length d_range ->
  length dist_pr = length d_range -> valid_rows (window p) -> valid_rows (tangent_rows n dist_cells) ->
  (exists c, row_extr extr <$> d_range !! n = Some c /\ dist_cells !! n = Some (c, c)) ->
  exists o, part_bc_range d_range (pt_range p) (pt_offset p) n extr dist_pr loc = Ret o /\
    match o with
    | Some sub_pr => forall x, in_rows x (bc_cells p n loc extr swap sub_pr) <-> in_rows x bnd /\ in_rows x dist_cells
    | None => forall x, ~ (in_rows x bnd /\ in_rows x dist_cells)
    end.
Proof.
  intros bnd swap dist_cells Hn Hr Ho Hd Hv Ht (c & Hc & Hcell). unfold part_bc_range. fold bnd swap dist_cells.
  assert (Lw : length (window p) = length d_range) by (unfold window; rewrite length_to_global; lia).
  assert (Lb : length bnd = length d_range) by (unfold bnd; by rewrite length_boundary).
  assert (Lc : length dist_cells = length d_range).
  { unfold dist_cells. rewrite length_to_cell, length_swap. unfold swap. rewrite length_dir_to_swap. lia. }
  destruct (lookup_lt_is_Some_2 (window p) n) as [w Hw]; [lia|].
  assert (Hb : bnd !! n = Some (row_extr extr w, row_extr extr w)) by by apply boundary_row.
  unfold is_old_bc. rewrite Hb, Hc. cbn [fmap option_fmap option_map]. rewrite row_extr_same.
  case_bool_decide as Hold; cycle 1.
  { exists None. split; [done|]. intros x [(_ & H1 & _)%(in_flat_rows n (row_extr extr w)) (_ & H2 & _)%(in_flat_rows n c)]; [|done..].
    apply Hold. congruence. }
  injection Hold as Hold. rewrite Hold in Hb.
  destruct (intersect_flat n c bnd dist_cells) as ([inter|] & -> & Hi); try done; [lia|unfold bnd; rewrite tangent_boundary; by apply valid_tangent| |].
  2:{ exists None. done. }
  destruct Hi as (Li & Hi). cbn [of_option mbind py_bind]. rewrite Hold. eexists. split; [done|]. intros x. unfold bc_cells.
  rewrite cell_of_part_bc; [apply Hi|rewrite length_insert_row; lia|]. unfold swap. rewrite length_dir_to_swap, length_insert_row; lia.
Qed.

Lemma part_bc_range_spec_witness :
  let p := Part [(1, 5); (1, 20)] [6; 1] in let dist_pr := [(11, 11); (15, 5)] in
  part_bc_range [(1, 10); (1, 20)] (pt_range p) (pt_offset p) 0 1 dist_pr "Vertex" = Ret (Some [(6, 6); (15, 5)]) /\
  forall x, in_rows x (bc_cells p 0 "Vertex" 1 (dir_to_swap dist_pr) [(6, 6); (15, 5)]) <->
    in_rows x (part_boundary (pt_range p) (pt_offset p) 0 1) /\ in_rows x [(10, 10); (5, 14)].
Proof.
  cbn zeta. destruct (part_bc_range_spec [(1, 10); (1, 20)] (Part [(1, 5); (1, 20)] [6; 1]) 0 1 [(11, 11); (15, 5)] "Vertex") as (o & E & H).
  1-4: by cbn; lia.
  1-2: unfold valid_rows; apply (bool_decide_unpack _); by vm_compute.
  - by exists 10.
  - vm_compute in E. injection E as <-. split; [reflexivity|]. exact H.
Defined.

(** ** Lemmas: the joins between two partitions *)

(** A partition of a zone: as many rows and offsets as indices, at least one cell, inside the zone. *)
Definition included (a b : prange) : Prop := Forall2 (fun r s => s.1 <= r.1 /\ r.2 <= s.2) a b.
Record part_ok (d_range : prange) (p : part) : Prop := PartOk {
  ok_range : length (pt_range p) = length d_range;
  ok_offset : length (pt_offset p) = length d_range;
  ok_valid : valid_rows (window p);
  ok_inside : included (window p) d_range
}.

(** The vertices shared by two partitions through side [e] of the first in direction [d]. *)
Definition shared (p q : part) (d : nat) (e : Z) : option prange :=
  match window p !! d, window q !! d, intersect_rows (tangent_rows d (window p)) (tangent_rows d (window q)) with
  | Some w, Some w', Some inter =>
      if row_extr e w - (1 - 2 * e) =? row_extr (1 - e) w'
      then Some (insert_row d (row_extr e w + e, row_extr e w + e) (grow inter)) else None
  | _, _, _ => None
  end.

Definition is_side (e : Z) : Prop := e = 0 \/ e = 1.

Lemma intersect_rows_sym A B : intersect_rows A B = intersect_rows B A.
Proof.
  revert B. induction A as [|a A IH]; intros [|b B]; try done. cbn [intersect_rows]. rewrite (IH B).
  replace (intersect_start a b) with (intersect_start b a); [by rewrite (Z.min_comm a.2)|]. unfold intersect_start.
  destruct (Z.leb_spec b.1 a.1), (Z.leb_spec a.1 b.2), (Z.leb_spec a.1 b.1), (Z.leb_spec b.1 a.2); cbn; f_equal; lia.
Qed.

Lemma shared_sym p q d e : is_side e -> shared p q d e = shared q p d (1 - e).
Proof.
  intros He. unfold shared. rewrite (intersect_rows_sym (tangent_rows d (window q))).
  destruct (window p !! d) as [w|], (window q !! d) as [w'|]; try done. destruct (intersect_rows _ _) as [inter|]; [|done].
  replace (1 - (1 - e)) with e by lia.
  destruct (Z.eqb_spec (row_extr e w - (1 - 2 * e)) (row_extr (1 - e) w')), (Z.eqb_spec (row_extr (1 - e) w' - (1 - 2 * (1 - e))) (row_extr e w));
    try lia; [|done]. do 2 f_equal. f_equal; lia.
Qed.

Lemma length_window d_range p : part_ok d_range p -> length (window p) = length d_range.
Proof. intros [H1 H2 _ _]. unfold window. rewrite length_to_global. lia. Qed.

(** Back to the vertices, the cells next to a side give its vertices. *)
Lemma side_vertices d c e I :
  (d <= length I)%nat -> pr_to_cell_location (insert_row d (c, c) I) d "Vertex" e true = insert_row d (c + e, c + e) (grow I).
Proof.
  intros Hd. apply list_eq. intros i. rewrite lookup_to_cell. destruct (decide (i = d)) as [->|Hi].
  - rewrite !lookup_insert_row_eq by (unfold grow; rewrite ?length_map; done). cbn. rewrite bool_decide_eq_true_2 by done. cbn. do 2 f_equal; lia.
  - rewrite !lookup_insert_row_ne by (unfold grow; rewrite ?length_map; done). unfold grow. rewrite list_lookup_fmap.
    destruct (I !! _) as [[a b]|]; [|done]. cbn. rewrite bool_decide_eq_false_2 by done. cbn. do 2 f_equal; lia.
Qed.

Definition side_join (p : part) (d : nat) (e : Z) : join := Join d e (part_boundary (pt_range p) (pt_offset p) d e).

Section joins.
Context (d_range : prange).

Lemma facing_shared p q d e :
  part_ok d_range p -> part_ok d_range q -> (d < length d_range)%nat -> is_side e ->
  facing_ranges (side_join p d e) (pt_offset p) (side_join q d (1 - e)) (pt_offset q) =
  Ret ((fun v => (pr_to_global_num v (pt_offset p) true, pr_to_global_num v (pt_offset q) true)) <$> shared p q d e).
Proof.
  intros Hp Hq Hd He. pose proof (length_window _ _ Hp) as Lp. pose proof (length_window _ _ Hq) as Lq. unfold facing_ranges, is_admissible, shared.
  destruct (lookup_lt_is_Some_2 (window p) d) as [w Hw]; [lia|]. destruct (lookup_lt_is_Some_2 (window q) d) as [w' Hw']; [lia|].
  cbn [side_join jn_normal jn_extr jn_pr]. rewrite (boundary_row p d e w Hw), (boundary_row q d (1 - e) w' Hw'), Hw, Hw'.
  rewrite bool_decide_eq_true_2 by done. rewrite (bool_decide_eq_true_2 (1 - e <> e)) by (destruct He; lia). cbn [andb fmap option_fmap option_map fst].
  rewrite !tangent_boundary. unfold intersect_pr. rewrite (bool_decide_eq_true_2 (length _ = length _)) by (rewrite !length_tangent; lia).
  cbn [py_assert mbind py_bind]. destruct (Z.eqb_spec (row_extr e w - (1 - 2 * e)) (row_extr (1 - e) w')) as [E|E].
  2:{ rewrite bool_decide_eq_false_2 by congruence. by destruct (intersect_rows _ _). }
  rewrite bool_decide_eq_true_2 by congruence. destruct (intersect_rows _ _) as [inter|] eqn:Ei; [|done].
  assert (Li : length inter = (length d_range - 1)%nat).
  { apply intersect_rows_length in Ei; rewrite !length_tangent in * by lia; lia. }
  cbn [of_option mbind py_bind]. rewrite alter_insert_row by lia. cbn [fst snd].
  destruct Hp as [_ Op _ _], Hq as [_ Oq _ _].
  rewrite !to_cell_to_global by (rewrite length_insert_row; lia). rewrite !side_vertices by lia.
  replace (row_extr e w - (1 - 2 * e) + (1 - e)) with (row_extr e w + e) by lia. done.
Qed.

(** The vertices of the face of cell [x] on side [e] of direction [d], and the cell beyond this face. *)
Definition face_vertices (x : list Z) (d : nat) (e : Z) : prange :=
  imap (fun i c => if bool_decide (i = d) then (c + e, c + e) else (c, c + 1)) x.
Definition neighbour (x : list Z) (d : nat) (e : Z) : list Z := alter (fun c => c - (1 - 2 * e)) d x.

Lemma delete_face x d e : delete d (face_vertices x d e) = map (fun c => (c, c + 1)) (delete d x).
Proof.
  unfold face_vertices. change (map (fun c => (c, c + 1)) (delete d x)) with ((fun c => (c, c + 1)) <$> delete d x).
  rewrite list_fmap_delete. apply list_eq. intros i. destruct (decide (i < d)%nat).
  - rewrite !list_lookup_delete_lt, list_lookup_imap, list_lookup_fmap by done. destruct (x !! i); [|done]. cbn.
    by rewrite bool_decide_eq_false_2 by lia.
  - rewrite !list_lookup_delete_ge, list_lookup_imap, list_lookup_fmap by lia. destruct (x !! S i); [|done]. cbn.
    by rewrite bool_decide_eq_false_2 by lia.
Qed.

Lemma included_grow xs I : included (map (fun c => (c, c + 1)) xs) (grow I) <-> in_rows xs I.
Proof.
  unfold included, in_rows, grow. rewrite Forall2_fmap. split; intros H; (eapply Forall2_impl; [exact H|]); intros c r; unfold in_row; cbn; lia.
Qed.

(** A face in the vertices between two sides. *)
Lemma included_face_split x d e d' e' xd c I :
  is_side e -> is_side e' -> x !! d = Some xd -> length x = S (length I) ->
  included (face_vertices x d' e') (insert_row d (c, c) (grow I)) <-> d' = d /\ xd + e' = c /\ in_rows (delete d x) I.
Proof.
  intros He He' Hx Hl. pose proof (lookup_lt_Some _ _ _ Hx) as Hd. unfold included.
  assert (Lg : length (grow I) = length I) by apply length_map.
  assert (Lf : length (face_vertices x d' e') = length x) by apply length_imap.
  rewrite (Forall2_split_at _ d) by (rewrite ?length_insert_row; lia).
  fold (tangent_rows d (insert_row d (c, c) (grow I))). rewrite lookup_insert_row_eq, tangent_insert by lia.
  unfold face_vertices at 1. rewrite list_lookup_imap, Hx. cbn [fmap option_fmap option_map].
  destruct (decide (d' = d)) as [->|Hne].
  - rewrite bool_decide_eq_true_2, delete_face by done. fold (included (map (fun c => (c, c + 1)) (delete d x)) (grow I)).
    rewrite included_grow. split.
    + intros [(a & b & Ha & Hb & Hab) H]. simplify_eq. cbn in Hab. split_and!; [done|lia|done].
    + intros (_ & <- & H). split; [|done]. eexists _, _. split_and!; [done..|cbn; lia].
  - rewrite bool_decide_eq_false_2 by done. split; [|naive_solver]. intros [(a & b & Ha & Hb & Hab) _]. simplify_eq. cbn in Hab. lia.
Qed.

(** A face lies in what two partitions share when its cell is next to the side of the first, and the cell
    beyond next to the side of the second. *)
Lemma shared_face p q d e x d' e' w w' :
  part_ok d_range p -> part_ok d_range q -> is_side e -> is_side e' -> in_rows x (window p) -> 
  window p !! d = Some w -> window q !! d = Some w' ->
  (exists v, shared p q d e = Some v /\ included (face_vertices x d' e') v) <->
  d' = d /\ e' = e /\ x !! d = Some (row_extr e w) /\ in_rows (neighbour x d e) (window q) /\
  row_extr e w - (1 - 2 * e) = row_extr (1 - e) w'.
Proof.
  intros Hp Hq He He' Hx Hw Hw'. pose proof (length_window _ _ Hp) as Lp. pose proof (length_window _ _ Hq) as Lq.
  pose proof (Forall2_length _ _ _ Hx) as Lx. pose proof (lookup_lt_Some _ _ _ Hw) as Hd.
  apply (in_rows_split d) in Hx as [(xd & w1 & Hxd & Hw1 & Hin) Ht]; [|lia..]. rewrite Hw in Hw1. injection Hw1 as <-.
  rewrite (in_rows_split d (neighbour x d e)) by (unfold neighbour; rewrite ?length_alter; lia).
  unfold neighbour. rewrite delete_alter, list_lookup_alter_eq, Hxd, Hw'. unfold shared. rewrite Hw, Hw'.
  assert (Vp := valid_tangent d _ (ok_valid _ _ Hp)). assert (Vq := valid_tangent d _ (ok_valid _ _ Hq)).
  pose proof (intersect_rows_spec (tangent_rows d (window p)) (tangent_rows d (window q)) ltac:(rewrite !length_tangent; lia) Vp Vq) as Hi.
  destruct (intersect_rows _ _) as [I|] eqn:Ei.
  2:{ split; [by intros (? & ? & _)|]. intros (_ & _ & _ & [_ H2] & _). by destruct (Hi (delete d x)). }
  assert (Li : length I = (length d_range - 1)%nat).
  { apply intersect_rows_length in Ei; rewrite !length_tangent in * by lia; lia. }
  destruct Hi as [_ Hi]. unfold in_row in Hin. set (shift := 1 - 2 * e).
  assert (Hs : row_extr e w = if decide (e = 0) then w.1 else w.2).
  { unfold row_extr. by destruct (Z.eqb_spec e 0), (decide (e = 0)). }
  pose proof (proj1 (Forall_lookup _ _) (ok_valid _ _ Hq) _ _ Hw') as Hv'. cbn in Hv'.
  assert (Hs' : in_row (row_extr (1 - e) w') w') by (unfold row_extr, in_row; destruct (1 - e =? 0); lia).
  split.
  - intros (v & Hv & Hf). destruct (Z.eqb_spec (row_extr e w - shift) (row_extr (1 - e) w')) as [E|]; [|done]. simplify_eq.
    apply (included_face_split x d e d' e' xd) in Hf as (-> & Hxe & HI); [|done..|lia]. apply Hi in HI as [_ HI].
    assert (e' = e /\ xd = row_extr e w) as [-> ->] by (rewrite Hs in *; destruct He as [-> | ->], He' as [-> | ->]; cbn in *; lia).
    split_and!; try done. eexists _, _. split_and!; [done..|]. by rewrite E.
  - intros (-> & -> & [= ->] & [_ Hq'] & E). rewrite (proj2 (Z.eqb_eq _ _) E). eexists. split; [done|].
    apply (included_face_split x d e d e (row_extr e w)); [done..|lia|]. split_and!; [done..|]. apply Hi. done.
Qed.

Lemma in_rows_included x a b : in_rows x a -> included a b -> in_rows x b.
Proof.
  unfold in_rows, included. intros Hx. revert b. induction Hx as [|c r x a Hc _ IH]; intros b Hb; inversion Hb; subst; constructor; [|auto].
  unfold in_row in *. lia.
Qed.

(** ** Lemmas: the joins of a partition *)

(** A computation that returns a list with the elements that satisfy [Q]. *)
Definition yields {A} (m : py (list A)) (Q : A -> Prop) : Prop := exists r, m = Ret r /\ forall y, y ∈ r <-> Q y.

Lemma yields_iff {A} (m : py (list A)) P Q : yields m P -> (forall y, P y <-> Q y) -> yields m Q.
Proof. intros (r & -> & H) HPQ. exists r. split; [done|]. intros y. by rewrite H. Qed.

Lemma collect_yields {A B} (f : A -> py (list B)) l (Q : A -> B -> Prop) :
  (forall x, x ∈ l -> yields (f x) (Q x)) -> yields (collect f l) (fun y => exists x, x ∈ l /\ Q x y).
Proof.
  unfold collect. induction l as [|a l IH]; intros H; cbn [mapM mbind py_bind].
  - exists []. split; [done|]. intros y. split; [by intros ?%not_elem_of_nil|]. by intros (x & ?%not_elem_of_nil & _).
  - destruct (H a) as (r & -> & Hr); [left|]. destruct IH as (rs & E & Hrs); [intros x Hx; apply H; by right|].
    cbn [mbind py_bind]. destruct (mapM f l) as [l'|]; [|done]. cbn [mbind py_bind] in *. injection E as E.
    eexists. split; [done|]. intros y. cbn [concat]. rewrite elem_of_app, E, Hr, Hrs. setoid_rewrite elem_of_cons. naive_solver.
Qed.

Lemma elem_of_enumerate {A} (l : list A) j q : (j, q) ∈ enumerate l <-> l !! j = Some q.
Proof.
  unfold enumerate. rewrite elem_of_lookup_imap. split; [naive_solver|]. intros H. by exists j, q.
Qed.

Lemma elem_of_geo_bnds d e : (d, e) ∈ geo_bnds <-> (d < 3)%nat /\ is_side e.
Proof.
  unfold geo_bnds, is_side. rewrite !elem_of_cons, elem_of_nil. split.
  { intros H. repeat (destruct H as [H|H]; [simplify_eq; split; [lia|tauto]|]). done. }
  intros [Hd [-> | ->]].
  - destruct d as [|[|[|d]]]; [naive_solver..|lia].
  - destruct d as [|[|[|d]]]; [naive_solver..|lia].
Qed.

Lemma elem_of_part_joins p my :
  (length d_range <= 3)%nat ->
  my ∈ part_joins d_range p <->
  exists d e, (d < length d_range)%nat /\ is_side e /\ my = side_join p d e /\ is_old_bc d_range (jn_pr (side_join p d e)) d e = false.
Proof.
  intros H3. unfold part_joins. rewrite list_elem_of_omap. split.
  - intros ([d e] & [Hd He]%elem_of_geo_bnds & H). unfold part_join in H. cbn [fst snd] in H.
    destruct (Nat.ltb_spec d (length d_range)); [|done]. destruct (is_old_bc _ _ _ _) eqn:E; [done|]. simplify_eq. by exists d, e.
  - intros (d & e & Hd & He & -> & H). exists (d, e). split; [apply elem_of_geo_bnds; split; [lia|done]|].
    unfold part_join. cbn [fst snd]. destruct (Nat.ltb_spec d (length d_range)); [|lia]. cbn in H. by rewrite H.
Qed.

(** A side that is shared is not on the boundary of the zone. *)
Lemma shared_not_old p q d e v :
  part_ok d_range p -> part_ok d_range q -> is_side e -> shared p q d e = Some v ->
  is_old_bc d_range (jn_pr (side_join p d e)) d e = false.
Proof.
  intros Hp Hq He Hv. unfold shared in Hv. destruct (window p !! d) as [w|] eqn:Hw; [|done]. destruct (window q !! d) as [w'|] eqn:Hw'; [|done].
  destruct (intersect_rows _ _); [|done]. destruct (Z.eqb_spec (row_extr e w - (1 - 2 * e)) (row_extr (1 - e) w')) as [E|]; [|done].
  unfold is_old_bc. cbn [side_join jn_pr]. rewrite (boundary_row p d e w Hw). cbn [fmap option_fmap option_map]. rewrite row_extr_same.
  apply bool_decide_eq_false_2. destruct (Forall2_lookup_l _ _ _ _ _ (ok_inside _ _ Hq) Hw') as (r & Hr & H1 & H2). rewrite Hr. cbn.
  pose proof (proj1 (Forall_lookup _ _) (ok_valid _ _ Hq) _ _ Hw') as Hv'. cbn in Hv'.
  intros [= Heq]. unfold row_extr in *. destruct He as [-> | ->]; [change (1 - 0) with 1 in *|change (1 - 1) with 0 in *]; cbn in *; lia.
Qed.

Context (d_name : string) (comm : ranks).

(** Partition [j] of the rank whose global number is [r]. *)
Definition part_at (r : Z) (j : nat) (q : part) : Prop := exists parts, (r, parts) ∈ comm /\ parts !! j = Some q.
Definition comm_ok : Prop := (length d_range <= 3)%nat /\ forall r j q, part_at r j q -> part_ok d_range q.

(** The join of a partition with another through the vertices [v]. *)
Definition gc_of (r : Z) (i : nat) (p : part) (r' : Z) (j : nat) (q : part) (v : prange) : intra_gc :=
  IntraGc (Conventions.name_intra_gc r (Z.of_nat i) r' (Z.of_nat j)) (Conventions.add_part_suffix d_name r' (Z.of_nat j))
    (pr_to_global_num v (pt_offset p) true) (pr_to_global_num v (pt_offset q) true).

Lemma gc_with_yields r i p d e r' j q d' e' :
  part_ok d_range p -> part_ok d_range q -> (d < length d_range)%nat -> is_side e -> is_side e' ->
  yields (gc_with d_name r i p (side_join p d e) r' j q (side_join q d' e'))
    (fun g => d' = d /\ e' = 1 - e /\ exists v, shared p q d e = Some v /\ g = gc_of r i p r' j q v).
Proof.
  intros Hp Hq Hd He He'. unfold gc_with. destruct (decide (d' = d /\ e' = 1 - e)) as [[-> ->]|Hne].
  - rewrite facing_shared by done. cbn [mbind py_bind]. eexists. split; [done|]. intros g.
    destruct (shared p q d e) as [v|]; cbn [fmap option_fmap option_map].
    + rewrite list_elem_of_singleton. split; [intros ->; split_and!; [done..|by exists v]|]. intros (_ & _ & v' & [= <-] & ->). done.
    + rewrite elem_of_nil. naive_solver.
  - unfold facing_ranges, is_admissible. cbn [side_join jn_normal jn_extr].
    destruct (decide (d' = d)) as [->|Hdd]; [rewrite (bool_decide_eq_false_2 (e' <> e)), andb_false_r|rewrite (bool_decide_eq_false_2 (d' = d)) by done].
    all: try (cbn [andb mbind py_bind]; exists []; split; [done|]; intros y; rewrite elem_of_nil; naive_solver).
    intros Hn. apply Hne. split; [done|]. destruct He, He'; lia.
Qed.

(** The joins of a partition: one for each side and each partition that shares vertices with this side. *)
Lemma part_gcs_yields r i p :
  comm_ok -> part_ok d_range p ->
  yields (part_gcs d_name d_range comm r i p)
    (fun g => exists d e r' j q v, (d < length d_range)%nat /\ is_side e /\ part_at r' j q /\ shared p q d e = Some v /\ g = gc_of r i p r' j q v).
Proof.
  intros [H3 Hc] Hp. eapply yields_iff.
  - unfold part_gcs. apply (collect_yields _ _ (fun my g => exists r' j q v, part_at r' j q /\ my = side_join p (jn_normal my) (jn_extr my) /\
      shared p q (jn_normal my) (jn_extr my) = Some v /\ g = gc_of r i p r' j q v)).
    intros my (d & e & Hd & He & -> & _)%elem_of_part_joins; [|done]. cbn [side_join jn_normal jn_extr].
    eapply yields_iff; [apply (collect_yields _ _ (fun '(r', parts) g => exists j q v, parts !! j = Some q /\ shared p q d e = Some v /\ g = gc_of r i p r' j q v))|].
    + intros [r' parts] Hr. eapply yields_iff; [apply (collect_yields _ _ (fun '(j, q) g => exists v, shared p q d e = Some v /\ g = gc_of r i p r' j q v))|].
      * intros [j q] Hj%elem_of_enumerate. assert (Hq : part_ok d_range q) by (apply (Hc r' j); by exists parts).
        eapply yields_iff; [apply (collect_yields _ _ (fun opp g => jn_normal opp = d /\ jn_extr opp = 1 - e /\ exists v, shared p q d e = Some v /\ g = gc_of r i p r' j q v))|].
        -- intros opp (d' & e' & Hd' & He' & -> & _)%elem_of_part_joins; [|done]. by apply gc_with_yields.
        -- intros g. split; [naive_solver|]. intros (v & Hv & ->). exists (side_join q d (1 - e)). split; [|cbn; split_and!; eauto].
           apply elem_of_part_joins; [done|]. assert (He1 : is_side (1 - e)) by (destruct He; unfold is_side; lia).
           exists d, (1 - e). split_and!; try done. apply (shared_not_old q p d (1 - e) v); try done. by rewrite <- shared_sym.
      * intros g. split; [intros ([j q] & Hj%elem_of_enumerate & H); naive_solver|].
        intros (j & q & v & Hj & H). exists (j, q). split; [by apply elem_of_enumerate|]. by exists v.
    + intros g. unfold part_at. split; [intros ([r' parts] & H); naive_solver|].
      intros (r' & j & q & v & (parts & H1 & H2) & _ & H). exists (r', parts). naive_solver.
  - intros g. setoid_rewrite elem_of_part_joins; [|done]. split.
    + intros (my & (d & e & Hd & He & -> & _) & r' & j & q & v & Hq & _ & H). exists d, e. naive_solver.
    + intros (d & e & r' & j & q & v & Hd & He & Hq & Hv & ->). exists (side_join p d e). split.
      * exists d, e. split_and!; try done. by eapply shared_not_old; [| |done|done]; [|by eapply Hc].
      * by exists r', j, q, v.
Qed.

(** The vertices of a join, in the numbering of the zone. *)
Definition gc_vertices (p : part) (g : intra_gc) : prange := pr_to_global_num (g_pr g) (pt_offset p) false.

Lemma length_shared p q d e v : part_ok d_range p -> part_ok d_range q -> shared p q d e = Some v -> length v = length d_range.
Proof.
  intros Hp Hq. pose proof (length_window _ _ Hp) as Lp. pose proof (length_window _ _ Hq) as Lq. unfold shared.
  destruct (window p !! d) as [w|] eqn:Hw; [|done]. destruct (window q !! d); [|done]. apply lookup_lt_Some in Hw.
  destruct (intersect_rows _ _) as [I|] eqn:Ei; [|done]. destruct (_ =? _); [|done]. intros [= <-].
  apply intersect_rows_length in Ei; rewrite !length_tangent in * by lia; [|lia].
  unfold grow. rewrite length_insert_row, length_map; rewrite ?length_map; lia.
Qed.

Lemma gc_vertices_of r i p r' j q v : part_ok d_range p -> length v = length d_range -> gc_vertices p (gc_of r i p r' j q v) = v.
Proof. intros Hp Hl. unfold gc_vertices, gc_of. cbn. apply global_of_local. rewrite (ok_offset _ _ Hp). done. Qed.

Lemma part_at_unique r j q q' : NoDup (map fst comm) -> part_at r j q -> part_at r j q' -> q = q'.
Proof.
  intros Hn (l & Hl & Hj) (l' & Hl' & Hj'). assert (l = l') as <-; [|by simplify_eq].
  apply list_elem_of_lookup in Hl as [a Ha], Hl' as [b Hb].
  assert (a = b) as <-; [|by simplify_eq]. by apply (NoDup_lookup (map fst comm) a b r Hn); rewrite list_lookup_fmap; [rewrite Ha|rewrite Hb].
Qed.

(** Two cells on each side of a face, in two partitions with no common cell, are next to the sides of these. *)
Lemma next_to_sides p q x d e w w' :
  part_ok d_range p -> part_ok d_range q -> is_side e -> window p !! d = Some w -> window q !! d = Some w' ->
  (forall c, ~ (in_rows c (window p) /\ in_rows c (window q))) ->
  in_rows x (window p) -> in_rows (neighbour x d e) (window q) ->
  x !! d = Some (row_extr e w) /\ row_extr e w - (1 - 2 * e) = row_extr (1 - e) w'.
Proof.
  intros Hp Hq He Hw Hw' Hdisj Hx Hy. pose proof (length_window _ _ Hp) as Lp. pose proof (length_window _ _ Hq) as Lq.
  pose proof (Forall2_length _ _ _ Hx) as Lx. pose proof (lookup_lt_Some _ _ _ Hw) as Hd.
  pose proof (Hdisj x) as D1. pose proof (Hdisj (neighbour x d e)) as D2.
  assert (Ly : length (neighbour x d e) = length x) by apply length_alter.
  rewrite !(in_rows_split d x), !(in_rows_split d (neighbour x d e)) in * by lia.
  unfold neighbour in *. rewrite delete_alter, list_lookup_alter_eq in *. rewrite Hw, Hw' in *.
  destruct Hx as [(xd & w1 & Hxd & Hw1 & Hin) Hx], Hy as [(yd & w2 & Hyd & Hw2 & Hin') Hy]. rewrite Hxd in *. cbn in Hyd. simplify_eq.
  assert (N1 : ~ in_row xd w2) by (intros H; apply D1; naive_solver). assert (N2 : ~ in_row (xd - (1 - 2 * e)) w1) by (intros H; apply D2; naive_solver).
  unfold in_row, row_extr in *. destruct He as [-> | ->]; [change (1 - 0) with 1|change (1 - 1) with 0]; cbn in *; split; try f_equal; lia.
Qed.
End joins.

(** The joins between the partitions of a zone go by pairs: each join of a partition has, in the opposite
    partition, the join with the ranges exchanged; the two ranges are the same vertices of the zone. *)
Theorem internal_gcs_match d_range d_name comm r i p :
  comm_ok d_range comm -> part_at comm r i p ->
  exists gs, part_gcs d_name d_range comm r i p = Ret gs /\
  forall g, g ∈ gs -> exists r' j q gs' g',
    part_at comm r' j q /\ g_opp g = Conventions.add_part_suffix d_name r' (Z.of_nat j) /\
    part_gcs d_name d_range comm r' j q = Ret gs' /\ g' ∈ gs' /\
    g_opp g' = Conventions.add_part_suffix d_name r (Z.of_nat i) /\ g_pr g' = g_prd g /\ g_prd g' = g_pr g /\
    pr_to_global_num (g_pr g) (pt_offset p) false = pr_to_global_num (g_prd g) (pt_offset q) false.
Proof.
  intros Hc Hp. pose proof (proj2 Hc _ _ _ Hp) as Op. destruct (part_gcs_yields d_range d_name comm r i p Hc Op) as (gs & E & Hgs).
  exists gs. split; [done|]. intros g (d & e & r' & j & q & v & Hd & He & Hq & Hv & ->)%Hgs. pose proof (proj2 Hc _ _ _ Hq) as Oq.
  destruct (part_gcs_yields d_range d_name comm r' j q Hc Oq) as (gs' & E' & Hgs').
  exists r', j, q, gs', (gc_of d_name r' j q r i p v). split_and!; try done.
  - apply Hgs'. exists d, (1 - e), r, i, p, v. split_and!; try done; [destruct He; unfold is_side; lia|by rewrite <- shared_sym].
  - pose proof (length_shared _ _ _ _ _ _ Op Oq Hv) as Lv. cbn [gc_of g_pr g_prd]. rewrite !global_of_local; [done|..].
    + by rewrite (ok_offset _ _ Oq).
    + by rewrite (ok_offset _ _ Op).
Qed.

Lemma internal_gcs_match_witness :
  let p := Part [(1, 5); (1, 20)] [6; 1] in let q := Part [(1, 5); (1, 10)] [1; 1] in let d_range := [(1, 10); (1, 20)] in
  let comm := [(4, [p; q]); (2, [Part [(1, 5); (1, 10)] [1; 11]])] in
  exists gs, part_gcs "Zone" d_range comm 4 0 p = Ret gs /\ length gs = 2%nat /\
  forall g, g ∈ gs -> exists r' j q' gs' g', part_at comm r' j q' /\ part_gcs "Zone" d_range comm r' j q' = Ret gs' /\ g' ∈ gs' /\
    g_pr g' = g_prd g /\ g_prd g' = g_pr g.
Proof.
  cbn zeta. set (p := Part _ [6; 1]). set (q := Part _ [1; 1]). set (q' := Part _ [1; 11]).
  destruct (internal_gcs_match [(1, 10); (1, 20)] "Zone" [(4, [p; q]); (2, [q'])] 4 0 p) as (gs & E & H).
  - split; [cbn; lia|]. intros r j z (l & Hl & Hj). apply elem_of_cons in Hl as [[= -> ->]|[[= -> ->]|[]%not_elem_of_nil]%elem_of_cons].
    + destruct j as [|[|j]]; [..|done]; cbn in Hj; simplify_eq; split; cbn; repeat constructor; cbn; lia.
    + destruct j as [|j]; [|done]. cbn in Hj. simplify_eq. split; cbn; repeat constructor; cbn; lia.
  - eexists. split; [left|done].
  - exists gs. split; [done|]. split; [vm_compute in E; by injection E as <-|]. intros g Hg.
    destruct (H g Hg) as (r' & j & z & gs' & g' & Hz & _ & E' & Hg' & _ & H1 & H2 & _). by exists r', j, z, gs', g'.
Defined.

(** A face of a cell of a partition is in a join with another partition exactly when the cell on the other side
    of the face is in this other partition. *)
Lemma internal_gcs_cover d_range d_name comm r i p r' j q x d e :
  comm_ok d_range comm -> NoDup (map fst comm) -> part_at comm r i p -> part_at comm r' j q ->
  (forall c, ~ (in_rows c (window p) /\ in_rows c (window q))) ->
  in_rows x (window p) -> (d < length d_range)%nat -> is_side e ->
  exists gs, part_gcs d_name d_range comm r i p = Ret gs /\
  ((exists g, g ∈ gs /\ g_opp g = Conventions.add_part_suffix d_name r' (Z.of_nat j) /\ included (face_vertices x d e) (gc_vertices p g)) <->
   in_rows (neighbour x d e) (window q)).
Proof.
  intros Hc Hn Hp Hq Hdisj Hx Hd He. pose proof (proj2 Hc _ _ _ Hp) as Op. pose proof (proj2 Hc _ _ _ Hq) as Oq.
  destruct (part_gcs_yields d_range d_name comm r i p Hc Op) as (gs & E & Hgs). exists gs. split; [done|].
  destruct (lookup_lt_is_Some_2 (window p) d) as [w Hw]; [by rewrite (length_window _ _ Op)|].
  destruct (lookup_lt_is_Some_2 (window q) d) as [w' Hw']; [by rewrite (length_window _ _ Oq)|].
  pose proof (shared_face d_range p q d e x d e w w' Op Oq He He Hx Hw Hw') as Hface. split.
  - intros (g & (d1 & e1 & r1 & j1 & q1 & v & Hd1 & He1 & Hq1 & Hv & ->)%Hgs & Hname & Hin).
    rewrite (gc_vertices_of d_range) in Hin; [|done|exact (length_shared _ _ _ _ _ _ Op (proj2 Hc _ _ _ Hq1) Hv)].
    apply Conventions.add_part_suffix_inj in Hname as [-> ->%Nat2Z.inj]. rewrite (part_at_unique comm r' j q1 q Hn Hq1 Hq) in *.
    destruct (lookup_lt_is_Some_2 (window p) d1) as [w1 Hw1]; [by rewrite (length_window _ _ Op)|].
    destruct (lookup_lt_is_Some_2 (window q) d1) as [w1' Hw1']; [by rewrite (length_window _ _ Oq)|].
    destruct (proj1 (shared_face d_range p q d1 e1 x d e w1 w1' Op Oq He1 He Hx Hw1 Hw1')) as (-> & -> & _ & H & _); [by exists v|done].
  - intros Hy. destruct (proj2 Hface) as (v & Hv & Hin).
    { by destruct (next_to_sides d_range p q x d e w w') as [H1 H2]. }
    exists (gc_of d_name r i p r' j q v). split; [apply Hgs; by exists d, e, r', j, q, v|]. split; [done|].
    rewrite (gc_vertices_of d_range); [done..|]. by eapply length_shared; [| |done].
Qed.

(** The cell beyond a face that is in a join is in another partition. *)
Lemma gc_face_beyond d_range d_name comm r i p x d e gs g :
  comm_ok d_range comm -> part_at comm r i p -> in_rows x (window p) -> is_side e ->
  part_gcs d_name d_range comm r i p = Ret gs -> g ∈ gs -> included (face_vertices x d e) (gc_vertices p g) ->
  in_rows (neighbour x d e) d_range /\ ~ in_rows (neighbour x d e) (window p).
Proof.
  intros Hc Hp Hx He E Hg Hin. pose proof (proj2 Hc _ _ _ Hp) as Op. destruct (part_gcs_yields d_range d_name comm r i p Hc Op) as (gs' & E' & Hgs).
  rewrite E in E'. injection E' as <-. apply Hgs in Hg as (d1 & e1 & r1 & j1 & q & v & Hd1 & He1 & Hq & Hv & ->). pose proof (proj2 Hc _ _ _ Hq) as Oq.
  rewrite (gc_vertices_of d_range) in Hin; [|done|exact (length_shared _ _ _ _ _ _ Op Oq Hv)].
  destruct (lookup_lt_is_Some_2 (window p) d1) as [w Hw]; [by rewrite (length_window _ _ Op)|].
  destruct (lookup_lt_is_Some_2 (window q) d1) as [w' Hw']; [by rewrite (length_window _ _ Oq)|].
  destruct (proj1 (shared_face d_range p q d1 e1 x d e w w' Op Oq He1 He Hx Hw Hw')) as (-> & -> & Hxd & Hy & _); [by exists v|]. split.
  - apply (in_rows_included _ (window q)); [done|apply Oq].
  - intros Hy'. destruct (Forall2_lookup_r _ _ _ _ _ Hy' Hw) as (yd & Hyd & Hr). unfold neighbour in Hyd.
    rewrite list_lookup_alter_eq, Hxd in Hyd. cbn in Hyd. simplify_eq. unfold in_row, row_extr in Hr. destruct He1 as [-> | ->]; cbn in Hr; lia.
Qed.

(** ** Joins between the original zones *)

Lemma transpose_matrix t : signed_perm t -> transpose (transform_matrix t) = transform_matrix (opposite_transform t).
Proof.
  intros Ht. assert (H : forall t, signed_perm t -> bool_decide (transpose (transform_matrix t) = transform_matrix (opposite_transform t)) = true)
    by (apply signed_perm_check; vm_compute; reflexivity).
  by apply H, bool_decide_eq_true in Ht.
Qed.

Lemma length_transform t : length (transform_matrix t) = length t.
Proof. unfold transform_matrix. rewrite length_map, length_arange. unfold zlen. lia. Qed.
Lemma length_transform_point idx s1 s2 m : length (_gc_transform_point idx s1 s2 m) = Nat.min (length m) (length s2).
Proof. unfold _gc_transform_point, matmul. by rewrite length_zip_with, length_map. Qed.

Lemma of_window_of (pr : prange) : of_window (window_of pr) = pr.
Proof. unfold of_window, window_of. cbn [fst snd]. induction pr as [|[a b] pr IH]; [done|]. cbn. by rewrite IH. Qed.
Lemma window_of_of (w : list Z * list Z) : length w.1 = length w.2 -> window_of (of_window w) = w.
Proof.
  destruct w as [a b]. unfold of_window, window_of. cbn [fst snd]. intros H.
  change (map fst (zip a b), map snd (zip a b)) with (fst <$> zip a b, snd <$> zip a b). rewrite fst_zip, snd_zip by lia. done.
Qed.

(** Sent back by the transposed matrix, a window has its image by the matrix. *)
Lemma transform_back t w s1 s2 :
  signed_perm t -> length w.1 = length t -> length w.2 = length t -> length s1 = length t -> length s2 = length t ->
  _gc_transform_window (_gc_transform_window w s2 s1 (transpose (transform_matrix t))) s1 s2 (transform_matrix t) = w.
Proof.
  intros Ht H1 H2 H3 H4. rewrite transpose_matrix by done. destruct (opposite_transform_spec t Ht) as (E & Ht' & Hl).
  pose proof (transform_point_inverse (opposite_transform t)) as Hinv. rewrite E, Hl in Hinv.
  unfold _gc_transform_window. cbn [fst snd]. rewrite !Hinv by done. by destruct w.
Qed.

(** The cells behind a range of vertices that may be decreasing. *)
Definition vertex_cells (swap : list bool) (n : nat) (m : Z) (pr : prange) : prange :=
  pr_to_cell_location (swap_rows swap pr) n "Vertex" m false.

Lemma normal_row_spec pr n : normal_row pr = Ret n -> exists c, pr !! n = Some (c, c).
Proof.
  unfold normal_row. destruct (filter _ _) as [|[i [a b]] [|]] eqn:E; try done. intros [= ->].
  assert (H : (n, (a, b)) ∈ filter (fun '(i, (a, b)) => a = b) (enumerate pr)) by (rewrite E; left).
  apply list_elem_of_filter in H as [-> H%elem_of_enumerate]. eauto.
Qed.

(** The join of a partition with an opposite one, computed from an original join: the transformation of the join
    maps its range to its donor range, and the cells behind the donor range are those that are behind both the
    image of the join of the partition and the opposite join; there is no join when there is no such cell. *)
Theorem facing_original_spec t pr off start start_d pr_opp off_opp n c :
  let tr := transform_matrix t in
  let abs := of_window (_gc_transform_window (window_of pr) start start_d tr) in
  let cells := vertex_cells (dir_to_swap abs) n (if bool_decide (c <> 1) then 1 else 0) in
  signed_perm t -> Forall (fun l => length l = length t) [off; start; start_d; off_opp] ->
  length pr = length t -> length pr_opp = length t -> normal_row abs = Ret n -> fst <$> abs !! n = Some c ->
  valid_rows (tangent_rows n (cells abs)) -> valid_rows (tangent_rows n (cells pr_opp)) ->
  exists o, facing_original pr off start start_d tr pr_opp off_opp = Ret o /\
  match o with
  | Some (sub_pr, sub_prd) =>
      let donor := pr_to_global_num sub_prd off_opp false in
      of_window (_gc_transform_window (window_of (pr_to_global_num sub_pr off false)) start start_d tr) = donor /\
      forall y, in_rows y (cells donor) <-> in_rows y (cells abs) /\ in_rows (delete n y) (tangent_rows n (cells pr_opp))
  | None => forall y, ~ (in_rows y (cells abs) /\ in_rows (delete n y) (tangent_rows n (cells pr_opp)))
  end.
Proof.
  intros tr abs cells Ht Hls Hpr Hopp En Ec Va Vo. apply Forall_cons in Hls as [Ho Hls]. rewrite !Forall_cons in Hls. destruct Hls as (Hs & Hsd & Hoo & _).
  assert (La : length abs = length t).
  { unfold abs, of_window, tr, _gc_transform_window. cbn [fst snd]. rewrite length_zip_with, !length_transform_point, length_transform. lia. }
  destruct (normal_row_spec _ _ En) as [c' Hc]. rewrite Hc in Ec. injection Ec as ->. pose proof (lookup_lt_Some _ _ _ Hc) as Hn.
  set (swap := dir_to_swap abs) in *. assert (Ls : length swap = length t) by (unfold swap; by rewrite length_dir_to_swap).
  assert (Lc : forall p : prange, length p = length t -> length (cells p) = length t).
  { intros p Hp. unfold cells, vertex_cells. rewrite length_to_cell, length_swap. lia. }
  assert (Hrow : exists c1, cells abs !! n = Some (c1, c1)).
  { unfold cells, vertex_cells. rewrite lookup_to_cell. unfold swap_rows. rewrite lookup_zip_with, Hc. 
    destruct (lookup_lt_is_Some_2 swap n) as [b ->]; [lia|]. cbn. rewrite bool_decide_eq_true_2 by done. by destruct b; eexists. }
  destruct Hrow as [c1 Hrow]. unfold facing_original. fold tr abs. rewrite En. cbn [mbind py_bind]. rewrite Hc. cbn [fmap option_fmap option_map of_option mbind py_bind fst].
  fold swap. fold (vertex_cells swap n (if bool_decide (c <> 1) then 1 else 0) abs) (vertex_cells swap n (if bool_decide (c <> 1) then 1 else 0) pr_opp). fold cells.
  destruct (intersect_tangent n c1 (cells abs) (cells pr_opp)) as ([inter|] & -> & Hi); [by rewrite !Lc|done..| |]; cbn [mbind py_bind]; [|by exists None].
  rewrite Hrow. cbn [of_option mbind py_bind]. eexists. split; [done|]. destruct Hi as [Li Hi]. rewrite Lc in Li by done.
  set (sub := insert_row n (c1, c1) inter) in *. assert (Lsub : length sub = length t) by (unfold sub; rewrite length_insert_row; lia).
  set (prd := swap_rows swap _). assert (Lprd : length prd = length t) by (unfold prd; rewrite length_swap, length_to_cell; lia).
  cbv zeta. rewrite !global_of_local; [|lia|]. 2:{ unfold of_window, _gc_transform_window. cbn [fst snd]. rewrite length_zip_with, !length_transform_point.
    unfold transpose. rewrite length_map, length_seq. unfold tr. rewrite length_transform. lia. }
  split.
  - rewrite window_of_of by (unfold _gc_transform_window; cbn [fst snd]; by rewrite !length_transform_point).
    unfold tr. rewrite transform_back; [by apply of_window_of|done| | |done..]; unfold window_of; cbn [fst snd]; by rewrite length_map.
  - intros y. rewrite <- Hi. unfold cells, vertex_cells, prd. rewrite swap_rows_inv by (rewrite length_to_cell; lia).
    rewrite (to_cell_inv sub n "Vertex" _ true). done.
Qed.

Lemma facing_original_spec_witness :
  let pr := [(6, 6); (3, 9); (1, 4)] in let pr_opp := [(9, 5); (1, 3); (1, 1)] in
  facing_original pr [2; 3; 1] [6; 1; 1] [10; 1; 1] (transform_matrix [3; -1; 2]) pr_opp [5; 1; 1] =
    Ret (Some ([(5, 5); (1, 4); (1, 3)], [(4, 1); (1, 3); (1, 1)])) /\
  of_window (_gc_transform_window (window_of [(6, 6); (3, 6); (1, 3)]) [6; 1; 1] [10; 1; 1] (transform_matrix [3; -1; 2])) = [(8, 5); (1, 3); (1, 1)].
Proof.
  cbn zeta. destruct (facing_original_spec [3; -1; 2] [(6, 6); (3, 9); (1, 4)] [2; 3; 1] [6; 1; 1] [10; 1; 1] [(9, 5); (1, 3); (1, 1)] [5; 1; 1] 2 1) as (o & E & H).
  - split; [apply (bool_decide_unpack _); by vm_compute|cbn; lia].
  - repeat constructor.
  - done.
  - done.
  - vm_compute. reflexivity.
  - vm_compute. reflexivity.
  - unfold valid_rows. apply (bool_decide_unpack _). by vm_compute.
  - unfold valid_rows. apply (bool_decide_unpack _). by vm_compute.
  - vm_compute in E. injection E as <-. cbv zeta in H. destruct H as [H _]. split; [vm_compute; reflexivity|]. exact H.
Defined.

End PartZone.
