(* ===== verification/PartNumbering.v ===== *)
(** * Numberings of the partitions of a structured zone

    The theorems on [create_zone_gnums] and on the composition of the split of a block with the numbering
    and the joins of its partitions ([part_s_zone] of [split_S/part_zone.py]): the cells of the partitions,
    in the numbering of the zone, are the cells of the zone, each once. *)
From S2P Require Import Prelude NpUtils Numbering PointRange PyFloat CutTree Conventions Values Tree Walkers Sids Presets PartZone.

Local Open Scope Z_scope.

Module PartNumbering.
Import PyFloat PartZone.

(** ** Lemmas: points of a window *)

(** The number of a point given by its indices. *)
Definition gnum_of (size c : list Z) : Z :=
  let '(i, j, k) := triplet_of c in Numbering.ijk_to_index i j k (triplet_of size).
(** A semi open window, and the indices of an array of entities. *)
Definition in_window (c : list Z) (w : prange) : Prop := Forall2 (fun x r => r.1 <= x < r.2) c w.
Definition in_size (c size : list Z) : Prop := Forall2 (fun x n => 1 <= x <= n) c size.
Definition dim_ok {A} (l : list A) : Prop := (1 <= length l <= 3)%nat.

Ltac by_dim H l := destruct l as [|?a [|?b [|?c [|]]]]; try (unfold dim_ok in H; cbn in H; lia).

Lemma Forall2_explicit {A B} (P : A -> B -> Prop) :
  (forall l a, Forall2 P l [a] <-> exists x, l = [x] /\ P x a) /\
  (forall l a b, Forall2 P l [a; b] <-> exists x y, l = [x; y] /\ P x a /\ P y b) /\
  (forall l a b c, Forall2 P l [a; b; c] <-> exists x y z, l = [x; y; z] /\ P x a /\ P y b /\ P z c).
Proof.
  split_and!; intros; (split; [intros H; repeat (inversion H as [|? ? ? ? ? H']; subst; clear H; rename H' into H); inversion H; subst; naive_solver|]);
    intros; destruct_and?; naive_solver.
Qed.

(** The windows of one and two indices are windows of three. *)
Lemma window_points_loop w :
  dim_ok w -> window_points w =
    PointRange.loop_F (arange (default (1, 2) (w !! 0%nat)).1 (default (1, 2) (w !! 0%nat)).2)
      (arange (default (1, 2) (w !! 1%nat)).1 (default (1, 2) (w !! 1%nat)).2)
      (arange (default (1, 2) (w !! 2%nat)).1 (default (1, 2) (w !! 2%nat)).2).
Proof.
  intros H. by_dim H w; cbn [window_points lookup list_lookup default]; try done.
  unfold PointRange.loop_F. change (arange (1, 2).1 (1, 2).2) with [1]. cbn [flat_map]. by rewrite !app_nil_r.
Qed.

Lemma window_points_spec w :
  dim_ok w -> NoDup (window_points w) /\ forall p, p ∈ window_points w <-> exists c, in_window c w /\ p = triplet_of c.
Proof.
  intros H. rewrite window_points_loop by done. 
  destruct (PointRange.loop_F_spec (arange (default (1, 2) (w !! 0%nat)).1 (default (1, 2) (w !! 0%nat)).2)
      (arange (default (1, 2) (w !! 1%nat)).1 (default (1, 2) (w !! 1%nat)).2)
      (arange (default (1, 2) (w !! 2%nat)).1 (default (1, 2) (w !! 2%nat)).2)) as (_ & He & Hn).
  split; [apply Hn; apply PointRange.NoDup_arange|]. intros [[i j] k]. rewrite He, !elem_of_arange. clear He Hn.
  destruct (@Forall2_explicit Z (Z * Z) (fun x r => r.1 <= x < r.2)) as (H1 & H2 & H3).
  by_dim H w; cbn; unfold in_window; setoid_rewrite H1 || setoid_rewrite H2 || setoid_rewrite H3; split.
  - intros (Hi & Hj & Hk). exists [i]. split; [eauto|]. cbn. repeat f_equal; lia.
  - intros (? & (x & -> & Hx) & [= -> -> ->]). lia.
  - intros (Hi & Hj & Hk). exists [i; j]. split; [eauto|]. cbn. repeat f_equal; lia.
  - intros (? & (x & y & -> & Hx & Hy) & [= -> -> ->]). lia.
  - intros (Hi & Hj & Hk). exists [i; j; k]. split; [eauto 7|done].
  - intros (? & (x & y & z & -> & Hx & Hy & Hz) & [= -> -> ->]). lia.
Qed.

(** ** Lemmas: numbers of points *)

(** Three indices, with sizes of 1 for the missing ones. *)
Lemma in_size_padded c size :
  dim_ok size -> in_size c size ->
  let '(i, j, k) := triplet_of c in let '(n0, n1, n2) := triplet_of size in
  1 <= i <= n0 /\ 1 <= j <= n1 /\ 1 <= k <= n2 /\ n0 * n1 * n2 = zprod size.
Proof.
  intros H Hc. destruct (@Forall2_explicit Z Z (fun x n => 1 <= x <= n)) as (H1 & H2 & H3). unfold in_size in Hc.
  by_dim H size.
  - apply H1 in Hc as (x & -> & Hx). cbn. lia.
  - apply H2 in Hc as (x & y & -> & Hx & Hy). cbn. lia.
  - apply H3 in Hc as (x & y & z & -> & Hx & Hy & Hz). cbn. lia.
Qed.

Lemma triplet_of_inj c c' : dim_ok c -> length c = length c' -> triplet_of c = triplet_of c' -> c = c'.
Proof. intros H Hl E. by_dim H c; by_dim H c'; cbn in *; try lia; by simplify_eq. Qed.

Lemma gnum_of_range size c : dim_ok size -> in_size c size -> 1 <= gnum_of size c <= zprod size.
Proof.
  intros H Hc. pose proof (in_size_padded c size H Hc) as Hp. unfold gnum_of.
  destruct (triplet_of c) as [[i j] k], (triplet_of size) as [[n0 n1] n2]. destruct Hp as (Hi & Hj & Hk & <-). cbn.
  assert (0 <= (j - 1) * n0 <= (n1 - 1) * n0) by nia.
  assert (0 <= (k - 1) * (n0 * n1) <= (n2 - 1) * (n0 * n1)) by nia. lia.
Qed.

Lemma gnum_of_inj size c c' : dim_ok size -> in_size c size -> in_size c' size -> gnum_of size c = gnum_of size c' -> c = c'.
Proof.
  intros H Hc Hc' E. pose proof (in_size_padded c size H Hc) as Hp. pose proof (in_size_padded c' size H Hc') as Hp'.
  pose proof (Forall2_length _ _ _ Hc) as Lc. pose proof (Forall2_length _ _ _ Hc') as Lc'.
  apply triplet_of_inj; [unfold dim_ok in *; lia|lia|]. unfold gnum_of in E.
  destruct (triplet_of c) as [[i j] k], (triplet_of c') as [[i' j'] k'], (triplet_of size) as [[n0 n1] n2]. destruct Hp as (Hi & Hj & Hk & _), Hp' as (Hi' & Hj' & Hk' & _).
  cbn in E. destruct (Numbering.radix_spec n0 n1 (i - 1) (j - 1) (k - 1)) as (E1 & E2 & _); [lia..|].
  destruct (Numbering.radix_spec n0 n1 (i' - 1) (j' - 1) (k' - 1)) as (E1' & E2' & _); [lia..|].
  replace (i - 1 + (j - 1) * n0 + (k - 1) * n0 * n1) with (i' - 1 + (j' - 1) * n0 + (k' - 1) * n0 * n1) in E1, E2 by lia.
  assert (k = k') as <- by lia. assert (j = j') as <- by lia. f_equal. f_equal. lia.
Qed.

Lemma gnum_of_surj size y : dim_ok size -> Forall (fun n => 0 < n) size -> 1 <= y <= zprod size -> exists c, in_size c size /\ gnum_of size c = y.
Proof.
  intros H Hp Hy. unfold gnum_of, in_size. destruct (@Forall2_explicit Z Z (fun x n => 1 <= x <= n)) as (H1 & H2 & H3).
  by_dim H size; rewrite !Forall_cons in Hp; unfold zprod in Hy; cbn in Hy.
  - exists [y]. split; [apply H1; exists y; split; [done|lia]|]. cbn. lia.
  - destruct (Numbering.radix_inv a b 1 (y - 1)) as (Ha & Hb & Hc & E); [lia..|]. cbv zeta in *.
    set (z := (y - 1) / (a * b)) in *. set (v := (y - 1 - z * (a * b)) / a) in *. set (u := y - 1 - v * a - z * (a * b)) in *.
    exists [u + 1; v + 1]. split; [apply H2; eexists _, _; split; [done|lia]|]. cbn. lia.
  - destruct (Numbering.radix_inv a b c (y - 1)) as (Ha & Hb & Hc & E); [lia..|]. cbv zeta in *.
    set (z := (y - 1) / (a * b)) in *. set (v := (y - 1 - z * (a * b)) / a) in *. set (u := y - 1 - v * a - z * (a * b)) in *.
    exists [u + 1; v + 1; z + 1]. split; [apply H3; eexists _, _, _; split; [done|lia]|]. cbn. lia.
Qed.

(** The numbers of a window: each point of the window once. *)
Lemma window_gnum_spec w size :
  dim_ok size -> length w = length size -> (forall c, in_window c w -> in_size c size) ->
  NoDup (window_gnum w size) /\ forall y, y ∈ window_gnum w size <-> exists c, in_window c w /\ y = gnum_of size c.
Proof.
  intros H Hl Hin. assert (Hw : dim_ok w) by (unfold dim_ok in *; lia). destruct (window_points_spec w Hw) as [Hn He]. unfold window_gnum. split.
  - apply NoDup_fmap_2_strong; [|done]. intros p p' (c & Hc & ->)%He (c' & Hc' & ->)%He E.
    rewrite (gnum_of_inj size c c'); auto.
  - intros y. rewrite list_elem_of_fmap. split.
    + intros (p & -> & (c & Hc & ->)%He). by exists c.
    + intros (c & Hc & ->). exists (triplet_of c). split; [done|]. apply He. by exists c.
Qed.

(** ** Lemmas: parts that hold each cell once *)

Lemma NoDup_concat_lookup {A} (ls : list (list A)) :
  (forall i l, ls !! i = Some l -> NoDup l) ->
  (forall i j l k x, ls !! i = Some l -> ls !! j = Some k -> x ∈ l -> x ∈ k -> i = j) -> NoDup (concat ls).
Proof.
  induction ls as [|l ls IH]; intros Hn Hd; [constructor|]. cbn [concat]. apply NoDup_app. split_and!.
  - by apply (Hn 0%nat).
  - intros x Hx Hx'. apply elem_of_concat in Hx' as (k & Hk & Hxk). apply list_elem_of_lookup in Hk as [j Hj].
    by pose proof (Hd 0%nat (S j) l k x eq_refl Hj Hx Hxk).
  - apply IH; [intros i; apply (Hn (S i))|]. intros i j k k' x Hi Hj H1 H2. pose proof (Hd (S i) (S j) k k' x Hi Hj H1 H2). lia.
Qed.

Lemma holders_split cell parts i b :
  parts !! i = Some b -> CutTree.holders cell parts = Z.b2z (CutTree.inside cell b) + CutTree.holders cell (delete i parts).
Proof.
  intros Hi. unfold CutTree.holders. rewrite (zsum_perm _ (map (fun p => Z.b2z (CutTree.inside cell p)) (b :: delete i parts))).
  - done.
  - apply Permutation_map. by apply delete_Permutation.
Qed.

Lemma holders_pos cell parts i b : parts !! i = Some b -> CutTree.inside cell b = true -> 1 <= CutTree.holders cell parts.
Proof.
  intros Hi Hb. rewrite (holders_split _ _ _ _ Hi), Hb. cbn [Z.b2z]. enough (0 <= CutTree.holders cell (delete i parts)) by lia.
  apply zsum_nonneg, Forall_fmap, Forall_true. intros p. cbn. destruct (CutTree.inside cell p); cbn; lia.
Qed.

Lemma holders_unique cell parts i j b b' :
  CutTree.holders cell parts = 1 -> parts !! i = Some b -> parts !! j = Some b' ->
  CutTree.inside cell b = true -> CutTree.inside cell b' = true -> i = j.
Proof.
  intros H Hi Hj Hb Hb'. destruct (decide (i = j)) as [|Hne]; [done|]. rewrite (holders_split _ _ _ _ Hi), Hb in H. cbn [Z.b2z] in H.
  assert (exists k, delete i parts !! k = Some b') as [k Hk].
  { destruct (decide (j < i)%nat); [exists j; by rewrite list_lookup_delete_lt|]. exists (j - 1)%nat. rewrite list_lookup_delete_ge by lia.
    by replace (S (j - 1)) with j by lia. }
  pose proof (holders_pos cell _ k b' Hk Hb'). lia.
Qed.

Lemma holders_exists cell parts : CutTree.holders cell parts = 1 -> exists i b, parts !! i = Some b /\ CutTree.inside cell b = true.
Proof.
  unfold CutTree.holders. induction parts as [|b parts IH]; intros H; [done|]. cbn [map] in H. rewrite zsum_cons in H.
  destruct (CutTree.inside cell b) eqn:E; [by exists 0%nat, b|]. destruct IH as (i & b' & Hi & Hb); [cbn in H; lia|]. by exists (S i), b'.
Qed.

(** The cells of the zone start at 1, the bounds at 0. *)
Lemma in_window_cells c b : in_window c (cell_bounds b) <-> CutTree.inside (map (fun x => x - 1) c) b = true.
Proof.
  unfold in_window, cell_bounds. revert b. induction c as [|x c IH]; intros [|[lo hi] b]; cbn [map CutTree.inside].
  - split; [done|constructor].
  - split; [by inversion 1|done].
  - split; [by inversion 1|done].
  - rewrite Forall2_cons, IH, andb_true_iff. unfold CutTree.within. cbn. rewrite andb_true_iff, Z.leb_le, Z.ltb_lt.
    split; intros [? ?]; (split; [lia|done]).
Qed.

Lemma in_block_size dims b c : CutTree.in_block dims b -> in_window c (cell_bounds b) -> in_size c dims.
Proof.
  unfold CutTree.in_block, in_window, in_size, cell_bounds. intros Hb. revert c. induction Hb as [|r n b dims Hr _ IH]; intros c Hc; inversion Hc; subst.
  - constructor.
  - constructor; [cbn in *; lia|auto].
Qed.

Lemma in_size_cells c dims : in_size c dims <-> Forall2 (fun x dim => 0 <= x < dim) (map (fun x => x - 1) c) dims.
Proof.
  unfold in_size. change (map (fun x => x - 1) c) with ((fun x => x - 1) <$> c). rewrite Forall2_fmap_l.
  split; intros H; (eapply Forall2_impl; [exact H|]); cbn; lia.
Qed.

Definition cell_gnums (dims : list Z) (b : CutTree.part_bounds) : list Z := (create_zone_gnums (cell_bounds b) dims).2.

(** The numbers of the cells of parts that cover a block. *)
Lemma cell_gnums_perm dims n parts :
  dim_ok dims -> Forall (fun x => 0 < x) dims -> CutTree.covers dims n parts ->
  concat (map (cell_gnums dims) parts) ≡ₚ arange 1 (zprod dims + 1).
Proof.
  intros Hd Hp (_ & Hh & Hb). unfold cell_gnums, create_zone_gnums. cbn [snd].
  assert (Hspec : forall i b, parts !! i = Some b -> NoDup (window_gnum (cell_bounds b) dims) /\
    forall y, y ∈ window_gnum (cell_bounds b) dims <-> exists c, in_window c (cell_bounds b) /\ y = gnum_of dims c).
  { intros i b Hi. pose proof (proj1 (Forall_lookup _ _) Hb i b Hi) as Hbi. apply window_gnum_spec; [done| |].
    - unfold cell_bounds. rewrite length_map. by apply Forall2_length in Hbi.
    - intros c. by apply in_block_size. }
  assert (Hsz : forall i b c, parts !! i = Some b -> in_window c (cell_bounds b) -> in_size c dims).
  { intros i b c Hi. apply in_block_size. by apply (proj1 (Forall_lookup _ _) Hb i). }
  apply NoDup_Permutation; [|apply PointRange.NoDup_arange|].
  - apply NoDup_concat_lookup.
    + intros i l Hi. apply list_lookup_fmap_Some in Hi as (b & -> & Hi). by apply (Hspec i).
    + intros i j l k y Hi Hj Hl Hk. apply list_lookup_fmap_Some in Hi as (b & -> & Hi), Hj as (b' & -> & Hj).
      apply (Hspec i b Hi) in Hl as (c & Hc & ->). apply (Hspec j b' Hj) in Hk as (c' & Hc' & E).
      apply gnum_of_inj in E; [|by eauto..]. subst c'.
      apply (holders_unique (map (fun x => x - 1) c) parts i j b b'); try done; [|by apply in_window_cells..].
      apply Hh, in_size_cells. by eapply Hsz.
  - intros y. rewrite elem_of_concat, elem_of_arange. split.
    + intros (l & Hl & Hy). apply list_elem_of_fmap in Hl as (b & -> & [i Hi]%list_elem_of_lookup).
      apply (Hspec i b Hi) in Hy as (c & Hc & ->). pose proof (gnum_of_range dims c Hd ltac:(by eapply Hsz)). lia.
    + intros Hy. destruct (gnum_of_surj dims y Hd Hp) as (c & Hc & <-); [lia|].
      destruct (holders_exists (map (fun x => x - 1) c) parts) as (i & b & Hi & Hin); [by apply Hh, in_size_cells|].
      exists (window_gnum (cell_bounds b) dims). split; [apply list_elem_of_fmap; exists b; split; [done|by eapply list_elem_of_lookup_2]|].
      apply (Hspec i b Hi). exists c. split; [by apply in_window_cells|done].
Qed.

(** ** The partitions of all the ranks *)

Lemma my_parts_concat {A B} (weights : list (list A)) (parts : list B) :
  length parts = length (concat weights) -> concat (map (my_parts weights parts) (seq 0 (length weights))) = parts.
Proof.
  revert parts. induction weights as [|w ws IH]; intros parts Hl; [by destruct parts|].
  cbn [length seq map concat] in *. rewrite length_app in Hl. rewrite <- seq_shift, map_map.
  rewrite (map_ext _ (my_parts ws (drop (length w) parts))).
  - rewrite IH by (rewrite length_drop; lia). unfold my_parts. cbn [take concat length lookup list_lookup default drop]. by rewrite take_drop.
  - intros i. unfold my_parts. cbn [take concat lookup list_lookup]. rewrite length_app, drop_drop. done.
Qed.

Lemma part_s_zone_my_parts d_name dims weights max_it parts i g :
  split_zone dims (concat weights) max_it = Ret parts ->
  part_s_zone d_name dims weights max_it i g = Ret (imap (new_part_zone d_name dims g) (my_parts weights parts i)).
Proof. unfold part_s_zone. by intros ->. Qed.

(** What each rank returns, the ranks having the global numbers [granks]. *)
Definition part_s_zone_all (d_name : string) (dims : list Z) (weights : list (list PyFloat.float)) (max_it : nat) (granks : list Z)
    : py (list (list part_zone)) :=
  mapM (fun '(i, g) => part_s_zone d_name dims weights max_it i g) (enumerate granks).

Lemma map_gnums_imap d_name dims g l :
  map (fun z => (pz_gnums z).2) (imap (new_part_zone d_name dims g) l) = map (cell_gnums dims) l.
Proof. change (@map) with (fun A B => @fmap list _ A B). cbn beta. rewrite fmap_imap. unfold compose. cbn. rewrite <- (imap_const (cell_gnums dims)). done. Qed.

Definition rank_zones (d_name : string) (dims : list Z) (weights : list (list PyFloat.float)) (parts : list CutTree.part_bounds) (granks : list Z)
    : list (list part_zone) :=
  imap (fun i g => imap (new_part_zone d_name dims g) (my_parts weights parts i)) granks.

Lemma imap_seq {A B} (f : nat -> B) (l : list A) : imap (fun i _ => f i) l = map f (seq 0 (length l)).
Proof. revert f. induction l as [|x l IH]; intros f; [done|]. cbn. f_equal. unfold compose. rewrite IH, <- seq_shift, map_map. done. Qed.

Lemma rank_zones_gnums d_name dims weights parts granks :
  map (fun z => (pz_gnums z).2) (concat (rank_zones d_name dims weights parts granks)) =
  map (cell_gnums dims) (concat (map (my_parts weights parts) (seq 0 (length granks)))).
Proof.
  rewrite !concat_map. f_equal. unfold rank_zones. rewrite <- imap_seq. apply list_eq. intros i.
  change (@map) with (fun A B => @fmap list _ A B). cbn beta. rewrite !list_lookup_fmap, !list_lookup_imap.
  destruct (granks !! i); [|done]. cbn. f_equal. apply map_gnums_imap.
Qed.

Lemma rank_zones_names d_name dims weights parts granks :
  NoDup granks -> NoDup (map pz_name (concat (rank_zones d_name dims weights parts granks))).
Proof.
  intros Hn. rewrite concat_map. unfold rank_zones.
  assert (Hnames : forall i l, map (map pz_name) (imap (fun i g => imap (new_part_zone d_name dims g) (my_parts weights parts i)) granks) !! i = Some l ->
    exists g, granks !! i = Some g /\ forall j x, l !! j = Some x -> x = Conventions.add_part_suffix d_name g (Z.of_nat j)).
  { intros i l H. change (@map) with (fun A B => @fmap list _ A B) in H. cbn beta in H. rewrite list_lookup_fmap, list_lookup_imap in H.
    destruct (granks !! i) as [g|]; [|done]. cbn in H. injection H as <-. exists g. split; [done|]. intros j x Hx.
    change (@map) with (fun A B => @fmap list _ A B) in Hx. cbn beta in Hx.
    rewrite list_lookup_fmap, list_lookup_imap in Hx. destruct (my_parts weights parts i !! j); [|done]. cbn in Hx. by injection Hx as <-. }
  apply NoDup_concat_lookup.
  - intros i l Hi. destruct (Hnames i l Hi) as (g & _ & Hg). apply NoDup_alt. intros j k x Hj Hk.
    pose proof (Hg _ _ Hj) as E. rewrite (Hg _ _ Hk) in E. apply Conventions.add_part_suffix_inj in E as [_ E]. lia.
  - intros i j l k x Hi Hj [a Ha]%list_elem_of_lookup [b Hb]%list_elem_of_lookup.
    destruct (Hnames i l Hi) as (g & Eg & Hg), (Hnames j k Hj) as (g' & Eg' & Hg').
    pose proof (Hg _ _ Ha) as E. rewrite (Hg' _ _ Hb) in E. apply Conventions.add_part_suffix_inj in E as [-> _]. by eapply NoDup_lookup.
Qed.


(** A block cut in three, to apply the theorems. *)
Definition demo_parts : list CutTree.part_bounds := [[(5, 10); (0, 20)]; [(0, 5); (0, 10)]; [(0, 5); (10, 20)]].
Lemma demo_covers : CutTree.covers [10; 20] 3 demo_parts.
Proof.
  split_and!; [done| |repeat constructor; cbn; lia]. intros cell H.
  inversion H as [|x ? ? ? Hx H']; subst. inversion H' as [|y ? ? ? Hy H'']; subst. inversion H''; subst.
  unfold CutTree.holders. cbn. unfold CutTree.within. cbn.
  destruct (Z.leb_spec 5 x), (Z.ltb_spec x 10), (Z.leb_spec 0 y), (Z.ltb_spec y 20), (Z.leb_spec 0 x), (Z.ltb_spec x 5),
    (Z.ltb_spec y 10), (Z.leb_spec 10 y); cbn; lia.
Qed.


(** ** The joins of all the ranks *)

(** The partitions of the ranks, as the joins see them. *)
Definition comm_of (weights : list (list PyFloat.float)) (granks : list Z) (parts : list CutTree.part_bounds) : ranks :=
  imap (fun i g => (g, map part_of_bounds (my_parts weights parts i))) granks.

Lemma window_of_bounds b : window (part_of_bounds b) = map (fun r => (r.1 + 1, r.2)) b.
Proof.
  unfold window, part_of_bounds, cell_range, cell_bounds, pr_to_global_num. cbn [pt_range pt_offset sign_of].
  induction b as [|[lo hi] b IH]; [done|]. cbn [map zip_with fst snd]. rewrite IH. f_equal. f_equal; lia.
Qed.

Lemma in_rows_bounds c b : in_rows c (window (part_of_bounds b)) <-> CutTree.inside (map (fun x => x - 1) c) b = true.
Proof.
  rewrite window_of_bounds, <- in_window_cells. unfold in_rows, in_window, cell_bounds. rewrite !Forall2_fmap_r.
  split; intros H; (eapply Forall2_impl; [exact H|]); unfold in_row; cbn; lia.
Qed.

Lemma part_of_bounds_ok dims b :
  CutTree.in_block dims b -> Forall (fun r => r.1 < r.2) b -> part_ok (cell_range dims) (part_of_bounds b).
Proof.
  intros Hb Hv. pose proof (Forall2_length _ _ _ Hb) as Hl. unfold cell_range. split; rewrite ?window_of_bounds.
  - unfold part_of_bounds, cell_range. cbn. by rewrite !length_map.
  - unfold part_of_bounds, cell_bounds. cbn. by rewrite !length_map.
  - unfold valid_rows. apply Forall_fmap. eapply Forall_impl; [exact Hv|]. cbn. lia.
  - unfold included. apply Forall2_fmap. eapply Forall2_impl; [exact Hb|]. cbn. lia.
Qed.

Section all_joins.
Context (dims : list Z) (weights : list (list PyFloat.float)) (granks : list Z) (parts : list CutTree.part_bounds).
Context (Hdim : dim_ok dims) (Hlen : length granks = length weights) (Hcov : CutTree.covers dims (zlen (concat weights)) parts).
Context (Hfull : Forall (Forall (fun r => r.1 < r.2)) parts).

Lemma part_at_parts r j q : part_at (comm_of weights granks parts) r j q -> exists k b, parts !! k = Some b /\ q = part_of_bounds b.
Proof.
  intros (l & Hl & Hj). unfold comm_of in Hl. apply elem_of_lookup_imap in Hl as (i & g & [= -> ->] & Hi).
  apply list_lookup_fmap_Some in Hj as (b & -> & Hb). unfold my_parts in Hb.
  apply lookup_take_Some in Hb as [Hb _]. rewrite lookup_drop in Hb. by eexists _, b.
Qed.

Lemma parts_part_at k b : parts !! k = Some b -> exists r j, part_at (comm_of weights granks parts) r j (part_of_bounds b).
Proof.
  intros Hk%list_elem_of_lookup_2. destruct Hcov as [Hn _]. unfold zlen in Hn.
  rewrite <- (my_parts_concat weights parts) in Hk by lia. apply elem_of_concat in Hk as (l & Hl & Hb).
  apply list_elem_of_fmap in Hl as (i & -> & Hi). apply elem_of_seq in Hi. apply list_elem_of_lookup in Hb as [j Hj].
  destruct (lookup_lt_is_Some_2 granks i) as [g Hg]; [lia|]. exists g, j, (map part_of_bounds (my_parts weights parts i)). split.
  - unfold comm_of. apply elem_of_lookup_imap. by exists i, g.
  - by apply (list_lookup_fmap_Some_2 part_of_bounds).
Qed.

Lemma comm_of_ok : comm_ok (cell_range dims) (comm_of weights granks parts).
Proof.
  split; [unfold cell_range; rewrite length_map; unfold dim_ok in Hdim; lia|].
  intros r j q (k & b & Hk & ->)%part_at_parts. destruct Hcov as (_ & _ & Hb). apply part_of_bounds_ok.
  - by apply (proj1 (Forall_lookup _ _) Hb k).
  - by apply (proj1 (Forall_lookup _ _) Hfull k).
Qed.

Lemma in_cell_range c : in_rows c (cell_range dims) <-> in_size c dims.
Proof. unfold in_rows, in_size, cell_range. rewrite Forall2_fmap_r. done. Qed.

(** Two partitions that share a cell are the same. *)
Lemma parts_disjoint r i p r' j q c :
  part_at (comm_of weights granks parts) r i p -> part_at (comm_of weights granks parts) r' j q ->
  in_rows c (window p) -> in_rows c (window q) -> p = q.
Proof.
  intros (k & b & Hk & ->)%part_at_parts (k' & b' & Hk' & ->)%part_at_parts Hb Hb'. destruct Hcov as (_ & Hh & Hin).
  assert (Hc : in_size c dims). { apply (in_block_size dims b c); [by apply (proj1 (Forall_lookup _ _) Hin k)|]. by apply in_window_cells, in_rows_bounds. }
  apply in_rows_bounds in Hb, Hb'. apply in_size_cells, Hh in Hc. assert (k = k') as <- by by eapply holders_unique. congruence.
Qed.

Lemma part_of_cell c : in_rows c (cell_range dims) -> exists r j q, part_at (comm_of weights granks parts) r j q /\ in_rows c (window q).
Proof.
  intros Hc%in_cell_range%in_size_cells. destruct Hcov as (_ & Hh & _). destruct (holders_exists _ _ (Hh _ Hc)) as (k & b & Hk & Hb).
  destruct (parts_part_at k b Hk) as (r & j & H). exists r, j, (part_of_bounds b). split; [done|]. by apply in_rows_bounds.
Qed.
End all_joins.

(** C10: The joins between the partitions of a zone are complete: a face of a cell of a partition is in a join exactly
    when the cell beyond it is in the zone and not in the partition, and then there is a join, with this face,
    to the partition that holds the cell beyond. *)
Theorem zone_joins_complete d_name dims weights granks parts r i p x d e :
  dim_ok dims -> length granks = length weights -> NoDup granks ->
  CutTree.covers dims (zlen (concat weights)) parts -> Forall (Forall (fun r => r.1 < r.2)) parts ->
  part_at (comm_of weights granks parts) r i p -> in_rows x (window p) -> (d < length dims)%nat -> is_side e ->
  exists gs, part_gcs d_name (cell_range dims) (comm_of weights granks parts) r i p = Ret gs /\
  (in_rows (neighbour x d e) (cell_range dims) -> ~ in_rows (neighbour x d e) (window p) ->
   exists r' j q g, part_at (comm_of weights granks parts) r' j q /\ in_rows (neighbour x d e) (window q) /\
     g ∈ gs /\ g_opp g = Conventions.add_part_suffix d_name r' (Z.of_nat j) /\ included (face_vertices x d e) (gc_vertices p g)) /\
  (forall g, g ∈ gs -> included (face_vertices x d e) (gc_vertices p g) ->
     in_rows (neighbour x d e) (cell_range dims) /\ ~ in_rows (neighbour x d e) (window p)).
Proof.
  intros Hd Hl Hn Hc Hf Hp Hx Hdd He. pose proof (comm_of_ok dims weights granks parts Hd Hl Hc Hf) as Hok.
  pose proof (proj2 Hok _ _ _ Hp) as Op. destruct (part_gcs_yields _ d_name _ r i p Hok Op) as (gs & E & _). exists gs. split; [done|]. split.
  - intros Hy Hny. destruct (part_of_cell dims weights granks parts Hl Hc _ Hy) as (r' & j & q & Hq & Hyq).
    destruct (internal_gcs_cover (cell_range dims) d_name _ r i p r' j q x d e Hok) as (gs' & E' & _ & H); try done.
    + replace (map fst (comm_of weights granks parts)) with granks; [done|]. symmetry. unfold comm_of.
      change (@map) with (fun A B => @fmap list _ A B). cbn beta. rewrite fmap_imap. apply list_eq. intros k. rewrite list_lookup_imap. by destruct (granks !! k).
    + intros c [H1 H2]. apply Hny. by rewrite (parts_disjoint dims weights granks parts Hc r i p r' j q c).
    + unfold cell_range. by rewrite length_map.
    + rewrite E in E'. injection E' as <-. destruct (H Hyq) as (g & Hg & Ho & Hin). by exists r', j, q, g.
  - intros g Hg Hin. by eapply gc_face_beyond.
Qed.

Lemma zone_joins_complete_witness :
  let weights := [[half; half]; [half]] in
  exists gs, part_gcs "Zone" (cell_range [10; 20]) (comm_of weights [4; 2] demo_parts) 4 0 (part_of_bounds [(5, 10); (0, 20)]) = Ret gs /\
    exists g, g ∈ gs /\ g_opp g = "Zone.P2.N0" /\ included (face_vertices [6; 15] 0 0) (gc_vertices (part_of_bounds [(5, 10); (0, 20)]) g).
Proof.
  cbn zeta. destruct (zone_joins_complete "Zone" [10; 20] [[half; half]; [half]] [4; 2] demo_parts 4 0 (part_of_bounds [(5, 10); (0, 20)]) [6; 15] 0 0)
    as (gs & E & H & _).
  - unfold dim_ok. cbn. lia.
  - done.
  - apply (bool_decide_unpack _). vm_compute. done.
  - exact demo_covers.
  - repeat constructor; cbn; lia.
  - eexists. split; [left|done].
  - repeat constructor; cbn; lia.
  - cbn. lia.
  - by left.
  - exists gs. split; [done|]. destruct H as (r' & j & q & g & _ & _ & _).
    { repeat constructor; cbn; lia. }
    { intros Hy. inversion Hy as [|? ? ? ? Hr]; subst. unfold in_row in Hr. cbn in Hr. lia. }
    vm_compute in E. injection E as <-. eexists. split; [right; left|]. split; [vm_compute; reflexivity|]. unfold included; apply (bool_decide_unpack _); by vm_compute.
Defined.

End PartNumbering.
