(* ===== verification/StoU.v ===== *)
(** * From structured to unstructured zones: [maia/algo/dist/s_to_u.py]

    The faces of a structured zone become an NGon node, and the ranges of its boundary conditions and joins
    become point lists, the same two lists for both joins of a pair; each rank computes the part of the lists
    that a uniform distribution gives it.  The functions that create nodes are modelled here by the arrays they
    store, and in Convert by the nodes.  [gc_is_reference] is in
    [maia/algo/dist/matching_jns_tools.py] and [transform_bnd_pr_size] in [maia/utils/numbering/pr_utils.py]. *)
From S2P Require Import Prelude PyUtils Numbering Slabs NpUtils PointRange Values Tree Walkers Sids Presets PartZone.

Local Open Scope Z_scope.

Module StoU.
Import Sids PartZone.

(** ** Locations *)

(** The Python test [sub in s]. *)
Definition contains (sub s : string) : bool := match String.index 0 sub s with Some _ => true | None => false end.

(** [subset_loc]: a location, several ones, or None for the location of the node. *)
Inductive loc_request : Type := OneLoc (loc : string) | Locs (l : list string).
Definition label_to_key (label : string) : py string :=
  if bool_decide (label = "BC_t") then Ret "BC_t"
  else if bool_decide (label = "GridConnectivity1to1_t") then Ret "GC_t"
  else if bool_decide (label = "GridConnectivity_t") then Ret "GC_t"
  else Raise KeyError.
Definition get_output_loc (request_dict : list (string * loc_request)) (label grid_location : string) : py (list string) :=
  key ← label_to_key label;
  Ret (match (list_to_map request_dict : gmap string loc_request) !! key with
       | Some (OneLoc loc) => [loc]
       | Some (Locs l) => l
       | None => [if contains "FaceCenter" grid_location then "FaceCenter" else grid_location]
       end).

Definition _s_location (loc : string) (bnd_axis : nat) : py string :=
  if bool_decide (loc <> "FaceCenter") then Ret loc
  else match bnd_axis with
       | 0%nat => Ret "IFaceCenter" | 1%nat => Ret "JFaceCenter" | 2%nat => Ret "KFaceCenter" | _ => Raise IndexError
       end.

(** [PT.Subset.normal_axis], from the location and the range of a subset. *)
Definition normal_axis (loc : string) (point_range : prange) : py nat :=
  if bool_decide (loc = "IFaceCenter") then Ret 0%nat
  else if bool_decide (loc = "JFaceCenter") then Ret 1%nat
  else if bool_decide (loc = "KFaceCenter") then Ret 2%nat
  else normal_row point_range.

(** ** Boundary conditions *)

Definition rows_size (point_range : prange) : list Z := map (fun r => Z.abs (r.2 - r.1) + 1) point_range.
Definition transform_bnd_pr_size (point_range : prange) (input_loc output_loc : string) : py (list Z) :=
  let size := rows_size point_range in
  if bool_decide (input_loc = "Vertex") && contains "Center" output_loc then
    Ret (map (fun n => if bool_decide (n <> 1) then n - 1 else n) size)
  else if contains "Center" input_loc && bool_decide (output_loc = "Vertex") then
    _ ← py_assert (bool_decide (input_loc ∈ Presets.grid_locations));
    bnd_axis ← normal_axis input_loc point_range;
    Ret (imap (fun d n => if bool_decide (d = bnd_axis) then n else n + 1) size)
  else Ret size.

(** A slab as a range, from the first point of another one; the last indices become included. *)
Definition slab_rows (s : Slabs.slab) : prange := let '(ri, rj, rk) := s in [ri; rj; rk].
Definition sub_range (point_range : prange) (s : Slabs.slab) : py prange :=
  if bool_decide (length point_range = 3%nat)
  then Ret (zip_with (fun r p => (r.1 + p.1, r.2 + (p.1 - 1))) (slab_rows s) point_range)
  else Raise ValueError.
Definition add_at (axis : nat) (shift : Z) (rows : prange) : prange := alter (fun r => (r.1 + shift, r.2 + shift)) axis rows.
(** The three index arrays of [compute_pointList_from_pointRanges]. *)
Definition to_box (rows : prange) : py PointRange.prange :=
  match rows with [ri; rj; rk] => Ret (PointRange.PRange ri rj rk) | _ => Raise TypeError end.
Definition list_of (t : Numbering.triplet) : list Z := let '(a, b, c) := t in [a; b; c].

(** What is stored in an unstructured subset: the indices of the rank, their distribution. *)
Record u_subset := USubset { us_points : list Z; us_range : Z * Z; us_size : Z }.

Definition bc_s_to_bc_u (input_loc : string) (point_range : prange) (n_vtx_zone : Numbering.triplet) (output_loc : string)
    (i_rank n_rank : Z) : py u_subset :=
  bnd_axis ← normal_axis input_loc point_range;
  bc_size ← transform_bnd_pr_size point_range input_loc output_loc;
  bc_range ← PyUtils.uniform_distribution_at (zprod bc_size) i_rank n_rank;
  bc_slabs ← Slabs.compute_slabs bc_size bc_range;
  shift ← PointRange.normal_index_shift point_range (list_of n_vtx_zone) (Z.of_nat bnd_axis) input_loc output_loc;
  sub_pr_list ← mapM (sub_range point_range) bc_slabs;
  sub_pr_list ← mapM (fun pr => to_box (add_at bnd_axis shift pr)) sub_pr_list;
  loc ← _s_location output_loc bnd_axis;
  point_list ← PointRange.compute_pointList_from_pointRanges sub_pr_list n_vtx_zone loc "F";
  Ret (USubset point_list bc_range (zprod bc_size)).

(** ** Joins *)

(** The reference of a pair of joins; [zone_path_opp] is the path of the donor zone. *)
Definition compare_Z (a b : Z) (next : py bool) : py bool := if a <? b then Ret true else if b <? a then Ret false else next.
Definition sum_rows (pr : prange) : Z := zsum (map (fun r => r.1 + r.2) pr).
Definition gc_is_reference (zone_path zone_path_opp loc : string) (pr prd : prange) : py bool :=
  if String.ltb zone_path zone_path_opp then Ret true
  else if String.ltb zone_path_opp zone_path then Ret false
  else
    bnd_axis ← normal_axis loc pr;
    bnd_axis_d ← normal_row prd;
    compare_Z (Z.of_nat bnd_axis) (Z.of_nat bnd_axis_d)
      (row ← of_option IndexError (pr !! bnd_axis);
       row_d ← of_option IndexError (prd !! bnd_axis_d);
       compare_Z (Z.abs row.1) (Z.abs row_d.1) (compare_Z (sum_rows pr) (sum_rows prd) (Raise ValueError))).

(** [T.sum(axis=0) * (np.where(T.T != 0)[1] + 1)] *)
Definition nonzero_positions (row : list Z) : list Z := concat (imap (fun j x => if bool_decide (x <> 0) then [Z.of_nat j] else []) row).
Definition matrix_to_transform (T : list (list Z)) : list Z :=
  zip_with (fun s w => s * (w + 1)) (map zsum (transpose T)) (concat (map nonzero_positions (transpose T))).

(** [opp_dir_to_swap[abs(loc_transform) - 1] = dir_to_swap] *)
Definition scatter (t : list Z) (swap : list bool) : list bool :=
  foldl (fun acc '(x, b) => <[Z.to_nat (Z.abs x - 1) := b]> acc) (replicate (length swap) false) (zip t swap).

(** The ranges of a join and of its donor, where those of the reference have been made increasing in place. *)
Definition orient (T : list (list Z)) (point_range_loc point_range_opp_loc : prange) : prange * prange :=
  let swap := dir_to_swap point_range_loc in
  (swap_rows swap point_range_loc, swap_rows (scatter (matrix_to_transform T) swap) point_range_opp_loc).

(** The lists of a join and of its donor, computed from the reference of the pair. *)
Definition gc_point_lists (T : list (list Z)) (pr pr_opp : prange)
    (n_vtx_loc n_vtx_opp_loc : Numbering.triplet) (output_loc : string) (i_rank n_rank : Z) : py (list Z * list Z * (Z * Z) * Z) :=
  let loc_transform := matrix_to_transform T in
  bnd_axis ← normal_row pr;
  bnd_axis_opp ← normal_row pr_opp;
  gc_size ← transform_bnd_pr_size pr "Vertex" output_loc;
  gc_range ← PyUtils.uniform_distribution_at (zprod gc_size) i_rank n_rank;
  gc_slabs ← Slabs.compute_slabs gc_size gc_range;
  sub_pr_list ← mapM (sub_range pr) gc_slabs;
  let sub_pr_opp_list :=
    map (fun sub_pr => of_window (_gc_transform_window (window_of sub_pr) (map fst pr) (map fst pr_opp) T)) sub_pr_list in
  shift ← PointRange.normal_index_shift pr (list_of n_vtx_loc) (Z.of_nat bnd_axis) "Vertex" output_loc;
  shift_opp ← PointRange.normal_index_shift pr_opp (list_of n_vtx_opp_loc) (Z.of_nat bnd_axis_opp) "Vertex" output_loc;
  let sub_pr_list := map (add_at bnd_axis shift) sub_pr_list in
  let sub_pr_opp_list := map (add_at bnd_axis_opp shift_opp) sub_pr_opp_list in
  let reverted := <[bnd_axis_opp := false]> (map (fun row => zsum row <? 0) T) in
  let sub_pr_opp_list :=
    if contains "Center" output_loc
    then map (zip_with (fun (b : bool) r => if b then (r.1 - 1, r.2 - 1) else r) reverted) sub_pr_opp_list else sub_pr_opp_list in
  let loc_transform_2d := map Z.abs (delete bnd_axis loc_transform) in
  a ← of_option IndexError (loc_transform_2d !! 0%nat);
  b ← of_option IndexError (loc_transform_2d !! 1%nat);
  let order := if b <? a then "C" else "F" in
  loc ← _s_location output_loc bnd_axis;
  loc_opp ← _s_location output_loc bnd_axis_opp;
  boxes ← mapM to_box sub_pr_list;
  boxes_opp ← mapM to_box sub_pr_opp_list;
  point_list_loc ← PointRange.compute_pointList_from_pointRanges boxes n_vtx_loc loc "F";
  point_list_opp_loc ← PointRange.compute_pointList_from_pointRanges boxes_opp n_vtx_opp_loc loc_opp order;
  Ret (point_list_loc, point_list_opp_loc, gc_range, zprod gc_size).

(** The node is read again, with its oriented ranges, to know whether it is the reference. *)
Definition gc_s_to_gc_u (zone_path zone_path_opp loc : string) (T : list (list Z)) (point_range point_range_opp : prange)
    (n_vtx_zone n_vtx_zone_opp : Numbering.triplet) (output_loc : string) (i_rank n_rank : Z) : py (list Z * list Z * (Z * Z) * Z) :=
  _ ← py_assert (bool_decide (loc = "Vertex"));
  is_ref ← gc_is_reference zone_path zone_path_opp loc point_range point_range_opp;
  let '(T, (pr, pr_opp), n_vtx_loc, n_vtx_opp_loc) :=
    if (is_ref : bool) then (T, orient T point_range point_range_opp, n_vtx_zone, n_vtx_zone_opp)
    else (transpose T, orient (transpose T) point_range_opp point_range, n_vtx_zone_opp, n_vtx_zone) in
  r ← gc_point_lists T pr pr_opp n_vtx_loc n_vtx_opp_loc output_loc i_rank n_rank;
  let '(point_list_loc, point_list_opp_loc, gc_range, size) := r in
  let '(point_range, point_range_opp) := if is_ref then (pr, pr_opp) else (pr_opp, pr) in
  is_ref ← gc_is_reference zone_path zone_path_opp loc point_range point_range_opp;
  Ret (if (is_ref : bool) then (point_list_loc, point_list_opp_loc, gc_range, size) else (point_list_opp_loc, point_list_loc, gc_range, size)).

(** ** Faces of the zone *)

Definition n_face_per_dir (n_vtx n_edge : Numbering.triplet) : Numbering.triplet :=
  let '(v0, v1, v2) := n_vtx in let '(e0, e1, e2) := n_edge in (v0 * e1 * e2, v1 * e0 * e2, v2 * e0 * e1).

(** The arrays of the NGon node: range, offsets, vertices and parents of the faces of the rank, distributions. *)
Record ngon := NGon {
  ng_range : Z * Z;
  ng_eso : list Z;
  ng_ec : list Z;
  ng_pe : list (Z * Z);
  ng_distri : Z * Z * Z
}.
Definition ngon_bounds (nf_i nf_j : Z) (face_distri : Z * Z) : Z * Z * Z * Z :=
  let b0 := face_distri.1 in
  let b1 := if b0 <? nf_i then Z.min face_distri.2 nf_i else b0 in
  let b2 := if (nf_i <=? b1) && (b1 <? nf_i + nf_j) then Z.min face_distri.2 (nf_i + nf_j) else b1 in
  (b0, b1, b2, face_distri.2).
Definition zonedims_to_ngon (n_vtx_zone : Numbering.triplet) (i_rank n_rank : Z) : py ngon :=
  let n_cell_zone := Numbering.cells_of n_vtx_zone in
  let '(nf_i, nf_j, nf_k) := n_face_per_dir n_vtx_zone n_cell_zone in
  let n_face_tot := nf_i + nf_j + nf_k in
  face_distri ← PyUtils.uniform_distribution_at n_face_tot i_rank n_rank;
  let n_face_loc := face_distri.2 - face_distri.1 in
  let '(b0, b1, b2, b3) := ngon_bounds nf_i nf_j face_distri in
  _ ← py_assert (bool_decide (b3 - b0 = n_face_loc));
  let face_vtx_idx := map (Z.mul 4) (arange face_distri.1 (face_distri.2 + 1)) in
  r ← Numbering.ngon_dconnectivity_from_gnum (b0 + 1) (b1 + 1) (b2 + 1) (b3 + 1) n_cell_zone;
  Ret (NGon (1, n_face_tot) face_vtx_idx r.1 r.2 (face_distri.1, face_distri.2, n_face_tot)).

(** ** The faces of all the ranks *)

(** Vertices and parents of a face of the zone, by its number: faces i, then j, then k. *)
Definition face_vertices (n_cell : Numbering.triplet) (g : Z) : list Z :=
  let '(nf_i, nf_j, _) := n_face_per_dir (Numbering.vtx_of n_cell) n_cell in
  if g <=? nf_i then Numbering.facevtx_i n_cell g
  else if g <=? nf_i + nf_j then Numbering.facevtx_j n_cell (g - nf_i) else Numbering.facevtx_k n_cell (g - nf_i - nf_j).
Definition face_parents (n_cell : Numbering.triplet) (g : Z) : Z * Z :=
  let '(nf_i, nf_j, _) := n_face_per_dir (Numbering.vtx_of n_cell) n_cell in
  if g <=? nf_i then Numbering.facepe_i n_cell g
  else if g <=? nf_i + nf_j then Numbering.facepe_j n_cell (g - nf_i) else Numbering.facepe_k n_cell (g - nf_i - nf_j).

Lemma arange_shift a b d : arange (a - d) (b - d) = (fun g => g - d) <$> arange a b.
Proof.
  apply list_eq. intros k. rewrite list_lookup_fmap. destruct (decide (Z.of_nat k < b - a)).
  - rewrite !lookup_arange by lia. cbn. f_equal. lia.
  - rewrite !lookup_ge_None_2; rewrite ?length_arange; try lia. done.
Qed.

(** The faces of an interval, cut at the ends of the directions. *)
Lemma map_three_runs {A} (f fi fj fk : Z -> A) b0 b1 b2 b3 di dj :
  b0 <= b1 <= b2 -> b2 <= b3 ->
  (forall g, b0 <= g < b1 -> f g = fi g) -> (forall g, b1 <= g < b2 -> f g = fj (g - di)) -> (forall g, b2 <= g < b3 -> f g = fk (g - di - dj)) ->
  (fi <$> arange b0 b1) ++ (fj <$> arange (b1 - di) (b2 - di)) ++ (fk <$> arange (b2 - di - dj) (b3 - di - dj)) = f <$> arange b0 b3.
Proof.
  intros [H1 H2] H3 Fi Fj Fk. rewrite (arange_app b0 b1 b3), (arange_app b1 b2 b3), !fmap_app by lia.
  rewrite !arange_shift, <- !list_fmap_compose. f_equal; [|f_equal].
  - apply list_fmap_ext. intros k g Hg. symmetry. apply Fi. apply list_elem_of_lookup_2, elem_of_arange in Hg. done.
  - apply list_fmap_ext. intros k g Hg. symmetry. apply Fj. apply list_elem_of_lookup_2, elem_of_arange in Hg. done.
  - apply list_fmap_ext. intros k g Hg. symmetry. apply Fk. apply list_elem_of_lookup_2, elem_of_arange in Hg. done.
Qed.

Lemma ngon_bounds_spec nf_i nf_j lo hi :
  0 <= nf_i -> 0 <= nf_j -> 0 <= lo <= hi ->
  let '(b0, b1, b2, b3) := ngon_bounds nf_i nf_j (lo, hi) in
  b0 = lo /\ b3 = hi /\ b0 <= b1 <= b2 /\ b2 <= b3 /\
  (forall g, b0 <= g < b1 -> g < nf_i) /\ (forall g, b1 <= g < b2 -> nf_i <= g < nf_i + nf_j) /\ (forall g, b2 <= g < b3 -> nf_i + nf_j <= g).
Proof.
  intros Hi Hj Hlo. unfold ngon_bounds. cbn [fst snd].
  destruct (Z.ltb_spec lo nf_i).
  - destruct (Z.leb_spec nf_i (Z.min hi nf_i)), (Z.ltb_spec (Z.min hi nf_i) (nf_i + nf_j)); cbn [andb]; split_and!; try lia; intros g; lia.
  - destruct (Z.leb_spec nf_i lo), (Z.ltb_spec lo (nf_i + nf_j)); cbn [andb]; split_and!; try lia; intros g; lia.
Qed.

Lemma arange_succ a b : arange (a + 1) (b + 1) = Z.succ <$> arange a b.
Proof.
  rewrite <- (Z.sub_opp_r a), <- (Z.sub_opp_r b), arange_shift. apply list_fmap_ext. intros k g _. lia.
Qed.

(** What a rank computes for an interval of faces. *)
Lemma ngon_interval n_cell lo hi :
  let '(nf_i, nf_j, nf_k) := n_face_per_dir (Numbering.vtx_of n_cell) n_cell in
  0 <= nf_i -> 0 <= nf_j -> 0 <= lo <= hi ->
  let '(b0, b1, b2, b3) := ngon_bounds nf_i nf_j (lo, hi) in
  Numbering.ngon_dconnectivity_from_gnum (b0 + 1) (b1 + 1) (b2 + 1) (b3 + 1) n_cell =
  Ret (concat (face_vertices n_cell <$> arange (lo + 1) (hi + 1)), face_parents n_cell <$> arange (lo + 1) (hi + 1)) /\ b3 - b0 = hi - lo.
Proof.
  destruct n_cell as [[c0 c1] c2]. cbn [n_face_per_dir Numbering.vtx_of].
  set (nf_i := (c0 + 1) * c1 * c2). set (nf_j := (c1 + 1) * c0 * c2). intros Hi Hj Hlo.
  pose proof (ngon_bounds_spec nf_i nf_j lo hi Hi Hj Hlo) as Hb. destruct (ngon_bounds nf_i nf_j (lo, hi)) as [[[b0 b1] b2] b3].
  destruct Hb as (-> & -> & H1 & H2 & Gi & Gj & Gk). split; [|lia].
  pose proof (Numbering.ngon_dconnectivity_equiv (lo + 1) (b1 + 1) (b2 + 1) (hi + 1) (c0, c1, c2) ltac:(lia) ltac:(lia)) as E.
  cbv zeta in E. fold nf_i nf_j in E. rewrite E. clear E.
  unfold Numbering.facevtx_from_i_face_idx, Numbering.facevtx_from_j_face_idx, Numbering.facevtx_from_k_face_idx,
    Numbering.PE_idx_from_i_face_idx, Numbering.PE_idx_from_j_face_idx, Numbering.PE_idx_from_k_face_idx.
  rewrite <- !concat_app. do 2 f_equal; [f_equal|]; apply map_three_runs; try lia;
    intros g Hg; unfold face_vertices, face_parents; cbn [n_face_per_dir Numbering.vtx_of]; fold nf_i nf_j.
  all: specialize (Gi (g - 1)); specialize (Gj (g - 1)); specialize (Gk (g - 1)).
  all: destruct (Z.leb_spec g nf_i), (Z.leb_spec g (nf_i + nf_j)); try lia; done.
Qed.

(** The NGon node of a rank. *)
Definition rank_ngon (n_cell : Numbering.triplet) (n P i : Z) : ngon :=
  let lo := PyUtils.uniform_start n P i in let hi := PyUtils.uniform_start n P (i + 1) in
  NGon (1, n) (map (Z.mul 4) (arange lo (hi + 1))) (concat (face_vertices n_cell <$> arange (lo + 1) (hi + 1)))
    (face_parents n_cell <$> arange (lo + 1) (hi + 1)) (lo, hi, n).

Lemma zonedims_rank n_cell P i :
  let '(c0, c1, c2) := n_cell in 0 <= c0 -> 0 <= c1 -> 0 <= c2 -> 0 <= i < P ->
  zonedims_to_ngon (Numbering.vtx_of n_cell) i P = Ret (rank_ngon n_cell (Numbering.n_face_glob n_cell) P i).
Proof.
  destruct n_cell as [[c0 c1] c2]. intros H0 H1 H2 Hi. unfold zonedims_to_ngon. cbn [Numbering.vtx_of Numbering.cells_of].
  replace (c0 + 1 - 1, c1 + 1 - 1, c2 + 1 - 1) with (c0, c1, c2) by (repeat f_equal; lia).
  cbn [n_face_per_dir]. set (nf_i := (c0 + 1) * c1 * c2). set (nf_j := (c1 + 1) * c0 * c2). set (nf_k := (c2 + 1) * c0 * c1).
  change (Numbering.n_face_glob (c0, c1, c2)) with (nf_i + nf_j + nf_k). set (n := nf_i + nf_j + nf_k).
  assert (Hnf : 0 <= nf_i /\ 0 <= nf_j /\ 0 <= nf_k) by (unfold nf_i, nf_j, nf_k; nia).
  rewrite PyUtils.uniform_at_start by lia. cbn [mbind py_bind fst snd].
  destruct (PyUtils.uniform_start_spec n P ltac:(lia) ltac:(lia)) as (E0 & _ & Hm).
  pose proof (Hm 0 i ltac:(lia)) as Hlo. pose proof (Hm i (i + 1) ltac:(lia)) as Hhi. rewrite E0 in Hlo.
  pose proof (ngon_interval (c0, c1, c2) (PyUtils.uniform_start n P i) (PyUtils.uniform_start n P (i + 1))) as Hng.
  cbn [n_face_per_dir Numbering.vtx_of] in Hng. fold nf_i nf_j in Hng. specialize (Hng ltac:(lia) ltac:(lia) ltac:(lia)).
  destruct (ngon_bounds _ _ _) as [[[b0 b1] b2] b3]. destruct Hng as [-> Hb]. rewrite bool_decide_eq_true_2 by lia. done.
Qed.

Lemma concat_fmap_concat {A B} (f : A -> list B) (ls : list (list A)) : concat (f <$> concat ls) = concat ((fun l => concat (f <$> l)) <$> ls).
Proof. induction ls as [|l ls IH]; [done|]. cbn [concat]. rewrite fmap_app, concat_app, IH. done. Qed.
Lemma fmap_concat {A B} (f : A -> B) (ls : list (list A)) : f <$> concat ls = concat (map (fun l : list A => f <$> l) ls).
Proof. apply concat_map. Qed.

(** C13: The NGon nodes of the ranks: the vertices and the parents of the faces, in the order of the ranks, are
    those of all the faces of the zone in order, and the offsets of a rank go on from those of the previous
    one by four vertices for each face. *)
Theorem zonedims_to_ngon_spec n_cell P :
  let '(c0, c1, c2) := n_cell in 0 <= c0 -> 0 <= c1 -> 0 <= c2 -> 0 < P ->
  let n := Numbering.n_face_glob n_cell in
  exists ngons, mapM (fun i => zonedims_to_ngon (Numbering.vtx_of n_cell) i P) (arange 0 P) = Ret ngons /\
    concat (ng_ec <$> ngons) = concat (face_vertices n_cell <$> arange 1 (n + 1)) /\
    concat (ng_pe <$> ngons) = face_parents n_cell <$> arange 1 (n + 1) /\
    Forall (fun g => ng_range g = (1, n) /\ ng_eso g = map (Z.mul 4) (arange (ng_distri g).1.1 ((ng_distri g).1.2 + 1)) /\
      zlen (ng_pe g) = (ng_distri g).1.2 - (ng_distri g).1.1) ngons.
Proof.
  destruct n_cell as [[c0 c1] c2]. intros H0 H1 H2 HP n. set (nc := (c0, c1, c2)).
  assert (Hn : 0 <= n) by (unfold n; cbn; nia).
  set (chunk i := arange (PyUtils.uniform_start n P i) (PyUtils.uniform_start n P (i + 1))).
  assert (Hchunks : concat (map (fun i => Z.succ <$> chunk i) (arange 0 P)) = arange 1 (n + 1)).
  { rewrite <- (map_map chunk (fun l : list Z => Z.succ <$> l)). change (map ((fun l : list Z => Z.succ <$> l)) (map chunk (arange 0 P))) with (map (map Z.succ) (map chunk (arange 0 P))).
    rewrite <- concat_map. unfold chunk. rewrite PyUtils.uniform_concat by done. symmetry. apply (arange_succ 0 n). }
  exists (map (rank_ngon nc n P) (arange 0 P)). split_and!.
  - apply py_mapM_lookup; [by rewrite length_map|]. intros k i g Hi Hg. apply list_lookup_fmap_Some in Hg as (i' & -> & Hi').
    rewrite Hi in Hi'. injection Hi' as <-. apply list_elem_of_lookup_2, elem_of_arange in Hi. by apply (zonedims_rank (c0, c1, c2)).
  - rewrite <- Hchunks. symmetry. rewrite concat_fmap_concat. f_equal. rewrite <- list_fmap_compose, map_map. apply list_fmap_ext. intros k i _. cbn. by rewrite arange_succ.
  - rewrite <- Hchunks, fmap_concat. f_equal. rewrite <- list_fmap_compose, map_map. apply list_fmap_ext. intros k i _. cbn. by rewrite arange_succ.
  - apply Forall_fmap, Forall_forall. intros i Hi%elem_of_arange. destruct (PyUtils.uniform_start_spec n P Hn HP) as (_ & _ & Hm).
    specialize (Hm i (i + 1) ltac:(lia)). unfold compose, rank_ngon. cbv beta zeta. cbn [ng_range ng_eso ng_distri ng_pe fst snd]. split_and!; [done|done|]. unfold zlen. rewrite length_fmap, length_arange. lia.
Qed.

Lemma zonedims_to_ngon_spec_witness :
  exists ngons, mapM (fun i => zonedims_to_ngon (2, 3, 2) i 2) (arange 0 2) = Ret ngons /\
    concat (ng_pe <$> ngons) = face_parents (1, 2, 1) <$> arange 1 12.
Proof.
  destruct (zonedims_to_ngon_spec (1, 2, 1) 2) as (ngons & E & _ & H & _); [lia..|]. exists ngons. split; [exact E|exact H].
Defined.

(** ** The point lists of all the ranks *)

(** The point of a slab of an array by its position in the array, from a first point. *)
Definition point_at (nx ny : Z) (start : Z * Z * Z) (g : Z) : Z * Z * Z :=
  let '(s0, s1, s2) := start in (g mod nx + s0, (g / nx) mod ny + s1, g / (nx * ny) + s2).

Lemma point_at_spec nx ny s0 s1 s2 i j k :
  0 <= i < nx -> 0 <= j < ny -> point_at nx ny (s0, s1, s2) (i + j * nx + k * (nx * ny)) = (i + s0, j + s1, k + s2).
Proof.
  intros Hi Hj. unfold point_at.
  assert (E1 : (i + j * nx + k * (nx * ny)) mod nx = i) by (symmetry; apply (Z.mod_unique_pos _ _ (j + k * ny)); lia).
  assert (E2 : (i + j * nx + k * (nx * ny)) / nx = j + k * ny) by (symmetry; apply (Z.div_unique_pos _ _ _ i); lia).
  assert (E3 : (i + j * nx + k * (nx * ny)) / (nx * ny) = k) by (symmetry; apply (Z.div_unique_pos _ _ _ (i + j * nx)); nia).
  rewrite E1, E2, E3. assert (E4 : (j + k * ny) mod ny = j) by (symmetry; apply (Z.mod_unique_pos _ _ k); lia). by rewrite E4.
Qed.

(** The range of a slab, from a first point. *)
Definition slab_box (start : Z * Z * Z) (s : Slabs.slab) : PointRange.prange :=
  let '(s0, s1, s2) := start in let '((i0, i1), (j0, j1), (k0, k1)) := s in
  PointRange.PRange (i0 + s0, i1 + s0 - 1) (j0 + s1, j1 + s1 - 1) (k0 + s2, k1 + s2 - 1).

Lemma map_bind {A B C} (h : B -> C) (f : A -> list B) l : map h (x ← l; f x) = flat_map (fun x => map h (f x)) l.
Proof. induction l as [|x l IH]; [done|]. rewrite bind_cons, map_app, IH. done. Qed.

Lemma flat_map_ext_in {A B} (f g : A -> list B) l : (forall x, x ∈ l -> f x = g x) -> flat_map f l = flat_map g l.
Proof. induction l as [|x l IH]; intros H; [done|]. cbn. rewrite H by left. f_equal. apply IH. intros y Hy. apply H. by right. Qed.

Lemma flat_map_fmap {A B C} (f : B -> list C) (g : A -> B) l : flat_map f (g <$> l) = flat_map (fun x => f (g x)) l.
Proof. induction l as [|x l IH]; [done|]. cbn. by rewrite <- IH. Qed.

Lemma loop_range_slab a b s : a < b -> PointRange.loop_range (a + s, b + s - 1) = (fun i => i + s) <$> arange a b.
Proof.
  intros H. unfold PointRange.loop_range. cbn [fst snd]. rewrite bool_decide_eq_true_2 by lia.
  rewrite Slabs.fmap_add_arange. f_equal. lia.
Qed.

Lemma slab_points nx ny start s :
  Slabs.in_array nx ny s -> PointRange.points "F" (slab_box start s) = Ret (map (point_at nx ny start) (Slabs.slab_cells nx ny s)).
Proof.
  destruct start as [[s0 s1] s2], s as [[[i0 i1] [j0 j1]] [k0 k1]]. intros (Hi & Hi' & Hj & Hj' & Hk).
  unfold PointRange.points, slab_box. cbn [PointRange.pr_i PointRange.pr_j PointRange.pr_k]. rewrite bool_decide_eq_true_2 by done.
  f_equal. rewrite !loop_range_slab by lia. unfold PointRange.loop_F, Slabs.slab_cells.
  rewrite map_bind, flat_map_fmap. apply flat_map_ext_in. intros k _. rewrite map_bind, flat_map_fmap. apply flat_map_ext_in.
  intros j Hj1%elem_of_arange. change (@map) with (fun A B => @fmap list _ A B). cbn beta. rewrite <- !list_fmap_compose.
  apply list_fmap_ext. intros x i Hx. apply list_elem_of_lookup_2, elem_of_arange in Hx. unfold compose. by rewrite point_at_spec by lia.
Qed.

(** The index of a point, at a location where there are indices. *)
Definition index_at (loc : string) (n_vtx : Numbering.triplet) (p : Z * Z * Z) : Z :=
  let '(i, j, k) := p in match Numbering.ijk_to_index_from_loc i j k loc n_vtx with Ret x => x | Raise _ => 0 end.
Definition s_locations : list string := ["Vertex"; "CellCenter"; "IFaceCenter"; "JFaceCenter"; "KFaceCenter"].
Lemma index_at_spec loc n_vtx i j k :
  loc ∈ s_locations -> Numbering.ijk_to_index_from_loc i j k loc n_vtx = Ret (index_at loc n_vtx (i, j, k)).
Proof.
  unfold s_locations. rewrite !elem_of_cons. intros H. unfold index_at, Numbering.ijk_to_index_from_loc.
  destruct H as [->|[->|[->|[->|[->|[]%not_elem_of_nil]]]]]; done.
Qed.

Lemma mapM_pure {A B} (f : A -> py B) (g : A -> B) l : (forall x, x ∈ l -> f x = Ret (g x)) -> mapM f l = Ret (map g l).
Proof.
  intros H. apply py_mapM_lookup; [by rewrite length_map|]. intros i x y Hx Hy. apply list_lookup_fmap_Some in Hy as (x' & -> & Hx').
  rewrite Hx in Hx'. injection Hx' as <-. apply H. by eapply list_elem_of_lookup_2.
Qed.

Lemma point_list_slabs nx ny start n_vtx loc slabs :
  loc ∈ s_locations -> Forall (Slabs.in_array nx ny) slabs ->
  PointRange.compute_pointList_from_pointRanges (map (slab_box start) slabs) n_vtx loc "F" =
  Ret (map (fun g => index_at loc n_vtx (point_at nx ny start g)) (Slabs.slabs_cells nx ny slabs)).
Proof.
  intros Hloc Hs. unfold PointRange.compute_pointList_from_pointRanges, Slabs.slabs_cells.
  erewrite (py_mapM_lookup _ _ (map (fun s => map (fun g => index_at loc n_vtx (point_at nx ny start g)) (Slabs.slab_cells nx ny s)) slabs)).
  - cbn [mbind py_bind]. rewrite concat_map. change (@map) with (fun A B => @fmap list _ A B). cbn beta. by rewrite <- list_fmap_compose.
  - by rewrite !length_map.
  - intros i b l Hb Hl. apply list_lookup_fmap_Some in Hb as (s & -> & Hb), Hl as (s' & -> & Hl). rewrite Hb in Hl. injection Hl as <-.
    unfold PointRange.point_list_of. rewrite (slab_points nx ny) by by apply (proj1 (Forall_lookup _ _) Hs i). cbn [mbind py_bind].
    rewrite (mapM_pure _ (index_at loc n_vtx)) by (intros [[? ?] ?] _; by apply index_at_spec). by rewrite map_map.
Qed.

(** The first point of the ranges of a boundary, with the shift of the normal index. *)
Definition first_point (pr : prange) (axis : nat) (shift : Z) : Z * Z * Z :=
  match add_at axis shift pr with [r0; r1; r2] => (r0.1, r1.1, r2.1) | _ => (0, 0, 0) end.

Lemma sub_box pr axis shift s :
  length pr = 3%nat -> (axis < 3)%nat ->
  exists sub, sub_range pr s = Ret sub /\ to_box (add_at axis shift sub) = Ret (slab_box (first_point pr axis shift) s).
Proof.
  intros Hl Ha. destruct pr as [|[a a'] [|[b b'] [|[c c'] [|]]]]; try done. destruct s as [[[i0 i1] [j0 j1]] [k0 k1]].
  unfold sub_range. rewrite bool_decide_eq_true_2 by done. eexists. split; [done|].
  destruct axis as [|[|[|]]]; [..|lia]; cbn; do 2 f_equal; f_equal; lia.
Qed.

Lemma sub_boxes pr axis shift slabs :
  length pr = 3%nat -> (axis < 3)%nat ->
  exists subs, mapM (sub_range pr) slabs = Ret subs /\
    mapM (fun sub => to_box (add_at axis shift sub)) subs = Ret (map (slab_box (first_point pr axis shift)) slabs).
Proof.
  intros Hl Ha. induction slabs as [|s slabs IH]; [by exists []|]. destruct IH as (subs & Es & Eb).
  destruct (sub_box pr axis shift s Hl Ha) as (sub & E1 & E2). exists (sub :: subs). cbn. rewrite E1, E2. cbn. by rewrite Es, Eb.
Qed.

Section boundary.
Context (point_range : prange) (input_loc output_loc loc : string) (n_vtx : Numbering.triplet) (axis : nat) (shift nx ny nz : Z).
Context (Hrows : length point_range = 3%nat) (Haxis : normal_axis input_loc point_range = Ret axis) (Hax3 : (axis < 3)%nat).
Context (Hsize : transform_bnd_pr_size point_range input_loc output_loc = Ret [nx; ny; nz]) (Hpos : 0 < nx /\ 0 < ny /\ 0 < nz).
Context (Hshift : PointRange.normal_index_shift point_range (list_of n_vtx) (Z.of_nat axis) input_loc output_loc = Ret shift).
Context (Hloc : _s_location output_loc axis = Ret loc) (Hloc_in : loc ∈ s_locations).

Let start := first_point point_range axis shift.
Let n := nx * ny * nz.

Lemma bc_rank P i :
  0 <= i < P ->
  bc_s_to_bc_u input_loc point_range n_vtx output_loc i P =
  Ret (USubset (map (fun g => index_at loc n_vtx (point_at nx ny start g)) (arange (PyUtils.uniform_start n P i) (PyUtils.uniform_start n P (i + 1))))
    (PyUtils.uniform_start n P i, PyUtils.uniform_start n P (i + 1)) n).
Proof.
  intros Hi. unfold bc_s_to_bc_u. rewrite Haxis. cbn [mbind py_bind]. rewrite Hsize. cbn [mbind py_bind].
  replace (zprod [nx; ny; nz]) with n by (unfold n, zprod; cbn [foldl]; lia).
  rewrite PyUtils.uniform_at_start by lia. cbn [mbind py_bind].
  destruct (PyUtils.uniform_start_spec n P ltac:(unfold n; nia) ltac:(lia)) as (E0 & EP & Hm).
  pose proof (Hm 0 i ltac:(lia)) as H1. pose proof (Hm i (i + 1) ltac:(lia)) as H2. pose proof (Hm (i + 1) P ltac:(lia)) as H3.
  destruct (Slabs.compute_slabs_spec nx ny (Some nz) (PyUtils.uniform_start n P i) (PyUtils.uniform_start n P (i + 1))) as (slabs & Es & Hcells & Harr);
    [lia..|unfold n in *; lia|]. rewrite Es. cbn [mbind py_bind]. rewrite Hshift. cbn [mbind py_bind].
  destruct (sub_boxes point_range axis shift slabs Hrows Hax3) as (subs & -> & Hb).
  cbn [mbind py_bind]. rewrite Hb. cbn [mbind py_bind]. rewrite Hloc. cbn [mbind py_bind].
  rewrite (point_list_slabs nx ny) by done. cbn [mbind py_bind]. by rewrite Hcells.
Qed.

Lemma whole_boundary :
  PointRange.compute_pointList_from_pointRanges [slab_box start ((0, nx), (0, ny), (0, nz))] n_vtx loc "F" =
  Ret (map (fun g => index_at loc n_vtx (point_at nx ny start g)) (arange 0 n)).
Proof.
  change [slab_box start ((0, nx), (0, ny), (0, nz))] with (map (slab_box start) [((0, nx), (0, ny), (0, nz))]).
  rewrite (point_list_slabs nx ny start n_vtx loc [((0, nx), (0, ny), (0, nz))]) by (try done; repeat constructor; cbn; lia).
  unfold Slabs.slabs_cells. cbn [fmap list_fmap concat]. rewrite app_nil_r, Slabs.block_cells by lia. unfold n. by rewrite Z.mul_0_r.
Qed.
End boundary.

(** The point lists of a boundary condition, in the order of the ranks, are the point list of the whole range
    of the condition at the output location: the first point is that of the range, moved along the normal when
    cells and the last vertices or faces do not have the same index; the distribution has the size of the range. *)
Theorem bc_s_to_bc_u_spec point_range input_loc output_loc loc n_vtx axis shift nx ny nz P :
  length point_range = 3%nat -> normal_axis input_loc point_range = Ret axis -> (axis < 3)%nat ->
  transform_bnd_pr_size point_range input_loc output_loc = Ret [nx; ny; nz] -> 0 < nx /\ 0 < ny /\ 0 < nz ->
  PointRange.normal_index_shift point_range (list_of n_vtx) (Z.of_nat axis) input_loc output_loc = Ret shift ->
  _s_location output_loc axis = Ret loc -> loc ∈ s_locations -> 0 < P ->
  exists subs, mapM (fun i => bc_s_to_bc_u input_loc point_range n_vtx output_loc i P) (arange 0 P) = Ret subs /\
    PointRange.compute_pointList_from_pointRanges [slab_box (first_point point_range axis shift) ((0, nx), (0, ny), (0, nz))] n_vtx loc "F" =
      Ret (concat (us_points <$> subs)) /\
    Forall (fun u => us_size u = nx * ny * nz /\ zlen (us_points u) = (us_range u).2 - (us_range u).1) subs.
Proof.
  intros Hl Ha H3 Hs Hp Hsh Hloc Hin HP.
  set (rank i := USubset (map (fun g => index_at loc n_vtx (point_at nx ny (first_point point_range axis shift) g))
      (arange (PyUtils.uniform_start (nx * ny * nz) P i) (PyUtils.uniform_start (nx * ny * nz) P (i + 1))))
    (PyUtils.uniform_start (nx * ny * nz) P i, PyUtils.uniform_start (nx * ny * nz) P (i + 1)) (nx * ny * nz)).
  exists (map rank (arange 0 P)). split; [|split].
  - apply mapM_pure. intros i Hi%elem_of_arange. by eapply bc_rank.
  - rewrite (whole_boundary point_range loc) by done. f_equal.
    rewrite <- (PyUtils.uniform_concat (nx * ny * nz) P), concat_map by nia. f_equal.
    change (@map) with (fun A B => @fmap list _ A B). cbn beta. by rewrite <- !list_fmap_compose.
  - apply Forall_fmap, Forall_forall. intros i Hi%elem_of_arange.
    destruct (PyUtils.uniform_start_spec (nx * ny * nz) P ltac:(nia) HP) as (_ & _ & Hm). specialize (Hm i (i + 1) ltac:(lia)).
    unfold compose, rank. cbn [us_size us_points us_range fst snd]. split; [done|]. unfold zlen. rewrite length_map, length_arange. lia.
Qed.

Lemma bc_s_to_bc_u_spec_witness :
  exists subs, mapM (fun i => bc_s_to_bc_u "Vertex" [(1, 3); (1, 4); (5, 5)] (3, 4, 5) "CellCenter" i 4) (arange 0 4) = Ret subs /\
    concat (us_points <$> subs) = [19; 20; 21; 22; 23; 24].
Proof.
  destruct (bc_s_to_bc_u_spec [(1, 3); (1, 4); (5, 5)] "Vertex" "CellCenter" "CellCenter" (3, 4, 5) 2 (-1) 2 3 1 4) as (subs & E & H & _).
  all: try (vm_compute; done). all: try lia.
  - right. left.
  - exists subs. split; [exact E|]. assert (Ret [19; 20; 21; 22; 23; 24] = Ret (concat (us_points <$> subs))) as [= <-]; [|done].
    rewrite <- H. vm_compute. reflexivity.
Defined.

(** ** The reference of a pair of joins *)

Lemma ltb_asym (a b : string) : String.ltb a b = true -> String.ltb b a = false.
Proof.
  unfold String.ltb. rewrite (String.compare_antisym a b). destruct (String.compare b a); done.
Qed.

Lemma compare_Z_flip a b (m m' : py bool) r :
  compare_Z a b m = Ret r -> (m = Ret r -> m' = Ret (negb r)) -> compare_Z b a m' = Ret (negb r).
Proof.
  unfold compare_Z. destruct (Z.ltb_spec a b), (Z.ltb_spec b a); try lia; intros E Hn; [by injection E as <-..|auto].
Qed.

(** Exactly one of two opposite joins is the reference of the pair. *)
Lemma gc_reference_unique zone_path zone_path_opp pr prd r :
  gc_is_reference zone_path zone_path_opp "Vertex" pr prd = Ret r ->
  gc_is_reference zone_path_opp zone_path "Vertex" prd pr = Ret (negb r).
Proof.
  unfold gc_is_reference. destruct (String.ltb zone_path zone_path_opp) eqn:E1.
  { rewrite (ltb_asym _ _ E1). by intros [= <-]. }
  destruct (String.ltb zone_path_opp zone_path) eqn:E2; [by intros [= <-]|].
  unfold normal_axis. cbn [bool_decide]. intros H. change (normal_axis "Vertex") with normal_row in *.
  destruct (normal_row pr) as [a|]; [|done]. destruct (normal_row prd) as [b|]; [|done]. cbn [mbind py_bind] in *.
  eapply compare_Z_flip; [exact H|]. clear H. intros H. destruct (pr !! a) as [ra|]; [|done]. destruct (prd !! b) as [rb|]; [|done].
  cbn [of_option mbind py_bind] in *. eapply compare_Z_flip; [exact H|]. clear H. intros H.
  eapply compare_Z_flip; [exact H|]. done.
Qed.

Lemma normal_row_swap swap pr : length swap = 3%nat -> length pr = 3%nat -> normal_row (swap_rows swap pr) = normal_row pr.
Proof.
  intros Hs Hp. destruct pr as [|[a a'] [|[b b'] [|[c c'] [|]]]]; try done. destruct swap as [|x [|y [|z [|]]]]; try done.
  unfold normal_row, swap_rows, enumerate. cbn [zip_with imap filter list_filter compose].
  destruct x, y, z; cbn [fst snd]; repeat case_decide; done || lia.
Qed.

Lemma length_swap_rows swap pr : length swap = length pr -> length (swap_rows swap pr) = length pr.
Proof. intros H. unfold swap_rows. rewrite length_zip_with. lia. Qed.
Lemma length_scatter t swap : length (scatter t swap) = length swap.
Proof.
  unfold scatter. rewrite <- (length_replicate (length swap) false) at 2. generalize (replicate (length swap) false).
  induction (zip t swap) as [|[x b] l IH]; intros acc; [done|]. cbn [foldl]. by rewrite IH, length_insert.
Qed.

(** The exchange of the bounds of some rows changes neither the sizes, nor the constant rows, nor the sums. *)
Lemma lookup_swap_const swap pr n c : length swap = length pr -> pr !! n = Some (c, c) -> swap_rows swap pr !! n = Some (c, c).
Proof.
  intros Hl Hn. unfold swap_rows. rewrite lookup_zip_with, Hn. pose proof (lookup_lt_Some _ _ _ Hn) as H. rewrite <- Hl in H.
  destruct (lookup_lt_is_Some_2 swap n H) as [b ->]. by destruct b.
Qed.
Lemma map_swap_rows {A} (f : Z * Z -> A) swap pr : (forall a b, f (a, b) = f (b, a)) -> length swap = length pr -> map f (swap_rows swap pr) = map f pr.
Proof.
  intros Hf. revert pr. induction swap as [|b swap IH]; intros [|[x y] pr] Hl; try done. cbn in *. injection Hl as Hl.
  by destruct b; cbn; rewrite IH, ?(Hf y).
Qed.

Lemma reference_swap p q swap swap' pr prd :
  length swap = 3%nat -> length pr = 3%nat -> length swap' = 3%nat -> length prd = 3%nat ->
  gc_is_reference p q "Vertex" (swap_rows swap pr) (swap_rows swap' prd) = gc_is_reference p q "Vertex" pr prd.
Proof.
  intros H1 H2 H3 H4. unfold gc_is_reference. destruct (String.ltb p q), (String.ltb q p); try done.
  change (normal_axis "Vertex") with normal_row. rewrite !normal_row_swap by done.
  destruct (normal_row pr) as [n|] eqn:En; [|done]. destruct (normal_row prd) as [m|] eqn:Em; [|done]. cbn [mbind py_bind].
  destruct (normal_row_spec _ _ En) as [c Hc], (normal_row_spec _ _ Em) as [d Hd].
  rewrite (lookup_swap_const _ _ _ _ (eq_trans H1 (eq_sym H2)) Hc), (lookup_swap_const _ _ _ _ (eq_trans H3 (eq_sym H4)) Hd), Hc, Hd. cbn [of_option mbind py_bind].
  unfold sum_rows. by rewrite !map_swap_rows by (cbn; lia).
Qed.

(** C12: The two joins of a pair, converted by the same rank, have the same lists, exchanged. *)
Theorem gc_pair_exchanged zone_path zone_path_opp t pr prd n_vtx n_vtx_opp output_loc i P pl pl_opp range size :
  signed_perm t -> length pr = 3%nat -> length prd = 3%nat ->
  gc_s_to_gc_u zone_path zone_path_opp "Vertex" (transform_matrix t) pr prd n_vtx n_vtx_opp output_loc i P = Ret (pl, pl_opp, range, size) ->
  gc_s_to_gc_u zone_path_opp zone_path "Vertex" (transform_matrix (opposite_transform t)) prd pr n_vtx_opp n_vtx output_loc i P = Ret (pl_opp, pl, range, size).
Proof.
  intros Ht Hp Hd. destruct (opposite_transform_spec t Ht) as (Eo & Ho & _).
  pose proof (transpose_matrix _ Ht) as HT. pose proof (transpose_matrix _ Ho) as HT'. rewrite Eo in HT'.
  unfold gc_s_to_gc_u. cbn [py_assert bool_decide decide mbind py_bind]. 
  destruct (gc_is_reference zone_path zone_path_opp "Vertex" pr prd) as [r|] eqn:Er; [|done].
  rewrite (gc_reference_unique _ _ _ _ _ Er). cbn [mbind py_bind]. destruct r; cbn [negb].
  - rewrite HT'. unfold orient. 
    set (s := dir_to_swap pr). set (s' := scatter _ s). assert (Hs : length s = 3%nat) by (unfold s; by rewrite length_dir_to_swap).
    assert (Hs' : length s' = 3%nat) by (unfold s'; by rewrite length_scatter).
    destruct (gc_point_lists _ _ _ _ _ _ _ _) as [[[[a b] c] d]|]; [|done]. cbn [mbind py_bind].
    rewrite !reference_swap, Er by done. rewrite (gc_reference_unique _ _ _ _ _ Er). cbn. by intros [= <- <- <- <-].
  - rewrite HT. unfold orient.
    set (s := dir_to_swap prd). set (s' := scatter _ s). assert (Hs : length s = 3%nat) by (unfold s; by rewrite length_dir_to_swap).
    assert (Hs' : length s' = 3%nat) by (unfold s'; by rewrite length_scatter).
    destruct (gc_point_lists _ _ _ _ _ _ _ _) as [[[[a b] c] d]|]; [|done]. cbn [mbind py_bind].
    rewrite !reference_swap, Er by done. rewrite (gc_reference_unique _ _ _ _ _ Er). cbn. by intros [= <- <- <- <-].
Qed.

Lemma gc_pair_exchanged_witness :
  gc_s_to_gc_u "Base/Z2" "Base/Z1" "Vertex" (transform_matrix [-2; 3; -1]) [(5, 5); (1, 4); (1, 2)] [(2, 1); (1, 1); (1, 4)] (5, 4, 2) (2, 7, 4) "FaceCenter" 0 1 =
  Ret ([5; 10; 15], [37; 44; 51], (0, 3), 3).
Proof.
  apply (gc_pair_exchanged "Base/Z1" "Base/Z2" [-3; -1; 2] [(2, 1); (1, 1); (1, 4)] [(5, 5); (1, 4); (1, 2)] (2, 7, 4) (5, 4, 2) "FaceCenter" 0 1
    [37; 44; 51] [5; 10; 15] (0, 3) 3).
  - split; [|cbn; lia]. apply (bool_decide_unpack _). by vm_compute.
  - done.
  - done.
  - vm_compute. reflexivity.
Defined.

End StoU.
