(* ===== verification/StoUJoins.v ===== *)
(** * The point lists of the two sides of a structured join

    Proofs about [gc_s_to_gc_u] of StoU: the transformation of a join sends each point of the list of the
    join to the point at the same place of the list of the donor. *)
From S2P Require Import Prelude PyUtils Numbering Slabs NpUtils PointRange Values Tree Walkers Sids Presets PartZone StoU.

Local Open Scope Z_scope.

Module StoUJoins.
Import Sids PartZone StoU.

(** ** The points of a join and of its donor *)

Lemma lookup_loop_range a b k :
  PointRange.loop_range (a, b) !! k =
  if decide (Z.of_nat k <= Z.abs (b - a)) then Some (if decide (a <= b) then a + Z.of_nat k else a - Z.of_nat k) else None.
Proof.
  unfold PointRange.loop_range. cbn [fst snd]. case_bool_decide.
  - rewrite (decide_True _ _ (P := a <= b)) by done. case_decide.
    + by rewrite lookup_arange by lia.
    + apply lookup_ge_None_2. rewrite length_arange. lia.
  - rewrite (decide_False _ _ (P := a <= b)) by done. rewrite list_lookup_fmap. case_decide.
    + rewrite lookup_arange by lia. cbn. done.
    + rewrite lookup_ge_None_2; [done|]. rewrite length_arange. lia.
Qed.

(** A decreasing or increasing loop and its image by a translation or a reflection. *)
Lemma loop_range_affine (f : Z -> Z) c e a b :
  (forall u, f u = c + e * u) -> e = 1 \/ e = -1 -> PointRange.loop_range (f a, f b) = f <$> PointRange.loop_range (a, b).
Proof.
  intros Hf He. apply list_eq. intros k. rewrite list_lookup_fmap, !lookup_loop_range, !Hf.
  destruct He as [-> | ->]; repeat case_decide; cbn; rewrite ?Hf; try lia; try done; f_equal; lia.
Qed.
Lemma loop_range_one v : PointRange.loop_range (v, v) = [v].
Proof. unfold PointRange.loop_range. cbn [fst snd]. rewrite bool_decide_eq_true_2 by lia. rewrite arange_cons, arange_nil by lia. done. Qed.

(** The image of a point. *)
Definition image (start start_d : list Z) (T : list (list Z)) (p : Z * Z * Z) : Z * Z * Z :=
  let '(i, j, k) := p in match _gc_transform_point [i; j; k] start start_d T with [a; b; c] => (a, b, c) | _ => (0, 0, 0) end.
Definition add3 (off : list Z) (p : Z * Z * Z) : Z * Z * Z :=
  let '(i, j, k) := p in match off with [a; b; c] => (i + a, j + b, k + c) | _ => p end.
Definition move_rows (off : list Z) (rows : prange) : prange := zip_with (fun r o => (r.1 + o, r.2 + o)) rows off.

(** The order of the loop on the donor, from the axes to which the axes are sent. *)
Definition donor_order (axes : list Z) (axis : nat) : string :=
  match delete axis axes with a :: b :: _ => if b <? a then "C" else "F" | _ => "F" end.

(** Two nested loops. *)
Definition loops2 {A B C} (g : A -> B -> C) (aa : list A) (bb : list B) : list C := flat_map (fun b => map (fun a => g a b) aa) bb.

Lemma loops2_ext {A B C} (g g' : A -> B -> C) aa bb : (forall a b, g a b = g' a b) -> loops2 g aa bb = loops2 g' aa bb.
Proof. intros H. unfold loops2. apply flat_map_ext_in. intros b _. apply map_ext. intros a. apply H. Qed.
Lemma map_loops2 {A B C D} (h : C -> D) (g : A -> B -> C) aa bb : map h (loops2 g aa bb) = loops2 (fun a b => h (g a b)) aa bb.
Proof. unfold loops2. induction bb as [|b bb IH]; [done|]. cbn [flat_map]. by rewrite map_app, map_map, IH. Qed.
Lemma loops2_fmap {A A' B B' C} (g : A -> B -> C) (f : A' -> A) (f' : B' -> B) aa bb :
  loops2 g (f <$> aa) (f' <$> bb) = loops2 (fun a b => g (f a) (f' b)) aa bb.
Proof. unfold loops2. rewrite flat_map_fmap. apply flat_map_ext_in. intros b _. change (f <$> aa) with (map f aa). by rewrite map_map. Qed.

Lemma flat_map_single {A B} (f : A -> B) l : flat_map (fun x => [f x]) l = map f l.
Proof. induction l as [|x l IH]; [done|]. cbn. by rewrite IH. Qed.
(** A loop on three indices, one of which has one value. *)
Lemma loop_F_2 v (aa bb : list Z) :
  PointRange.loop_F [v] aa bb = loops2 (fun a b => (v, a, b)) aa bb /\
  PointRange.loop_F aa [v] bb = loops2 (fun a b => (a, v, b)) aa bb /\
  PointRange.loop_F aa bb [v] = loops2 (fun a b => (a, b, v)) aa bb.
Proof.
  unfold PointRange.loop_F, loops2. split_and!.
  - apply flat_map_ext_in. intros b _. apply (flat_map_single (fun a => (v, a, b))).
  - apply flat_map_ext_in. intros b _. cbn. apply app_nil_r.
  - cbn. apply app_nil_r.
Qed.
Lemma loop_C_2 v (aa bb : list Z) :
  PointRange.loop_C [v] bb aa = loops2 (fun a b => (v, b, a)) aa bb /\
  PointRange.loop_C bb [v] aa = loops2 (fun a b => (b, v, a)) aa bb /\
  PointRange.loop_C bb aa [v] = loops2 (fun a b => (b, a, v)) aa bb.
Proof.
  unfold PointRange.loop_C, loops2. split_and!.
  - cbn. apply app_nil_r.
  - apply flat_map_ext_in. intros b _. cbn. apply app_nil_r.
  - apply flat_map_ext_in. intros b _. apply (flat_map_single (fun a => (b, a, v))).
Qed.

(** Functions of one index, and the six ways to send three indices to three axes. *)
Definition affine (f : Z -> Z) : Prop := exists c e, (forall u, f u = c + e * u) /\ (e = 1 \/ e = -1).
Definition sends (h : Z * Z * Z -> Z * Z * Z) (f0 f1 f2 : Z -> Z) (axes : list Z) : Prop :=
  forall i j k, h (i, j, k) =
    match axes with
    | [1; 2; 3] => (f0 i, f1 j, f2 k) | [1; 3; 2] => (f0 i, f2 k, f1 j) | [2; 1; 3] => (f1 j, f0 i, f2 k)
    | [2; 3; 1] => (f2 k, f0 i, f1 j) | [3; 1; 2] => (f1 j, f2 k, f0 i) | _ => (f2 k, f1 j, f0 i)
    end.

Ltac donor_function d0 d1 d2 s x :=
  let e := eval vm_compute in (Z.sgn x) in
  match eval vm_compute in (Z.abs x) with
  | 1 => constr:(fun u : Z => d0 + e * (u - s)) | 2 => constr:(fun u : Z => d1 + e * (u - s)) | _ => constr:(fun u : Z => d2 + e * (u - s))
  end.

Lemma affine_shift c e s : e = 1 \/ e = -1 -> affine (fun u => c + e * (u - s)).
Proof. intros He. exists (c - e * s), e. split; [intros u; lia|done]. Qed.

Lemma donor_shape t s0 s1 s2 d0 d1 d2 o0 o1 o2 :
  signed_perm t -> length t = 3%nat ->
  exists f0 f1 f2, affine f0 /\ affine f1 /\ affine f2 /\
    sends (fun p => add3 [o0; o1; o2] (image [s0; s1; s2] [d0; d1; d2] (transform_matrix t) p)) f0 f1 f2 (map Z.abs t).
Proof.
  intros Ht Hl. pose proof (elem_of_signed_perms t Ht) as Hin.
  let l := eval vm_compute in signed_perms in change signed_perms with l in Hin.
  repeat (apply elem_of_cons in Hin as [->|Hin]; [try discriminate Hl|]); [..|by apply not_elem_of_nil in Hin].
  all: match goal with |- context [transform_matrix [?x; ?y; ?z]] =>
    let f0 := donor_function (d0 + o0) (d1 + o1) (d2 + o2) s0 x in let f1 := donor_function (d0 + o0) (d1 + o1) (d2 + o2) s1 y in
    let f2 := donor_function (d0 + o0) (d1 + o1) (d2 + o2) s2 z in exists f0, f1, f2;
    let l := eval vm_compute in (map Z.abs [x; y; z]) in change (map Z.abs [x; y; z]) with l end.
  all: split_and!; [apply affine_shift; lia..|]; intros i j k; unfold image; eval_transform; cbn [add3]; (apply (f_equal2 pair); [apply (f_equal2 pair)|]); lia.
Qed.

Lemma affine_range f a b : affine f -> PointRange.loop_range (f a, f b) = f <$> PointRange.loop_range (a, b).
Proof. intros (c & e & Hf & He). by eapply loop_range_affine. Qed.

Definition corners_box (x y : Z * Z * Z) : PointRange.prange :=
  PointRange.PRange (x.1.1, y.1.1) (x.1.2, y.1.2) (x.2, y.2).
Definition axes_orders : list (list Z) := [[1; 2; 3]; [1; 3; 2]; [2; 1; 3]; [2; 3; 1]; [3; 1; 2]; [3; 2; 1]].

(** Sent to the donor with the order of the axes, the points of a boundary range are in the same order. *)
Lemma donor_loops h f0 f1 f2 axes axis r0 r1 r2 v :
  sends h f0 f1 f2 axes -> affine f0 -> affine f1 -> affine f2 -> axes ∈ axes_orders -> [r0; r1; r2] !! axis = Some (v, v) ->
  PointRange.points (donor_order axes axis) (corners_box (h (r0.1, r1.1, r2.1)) (h (r0.2, r1.2, r2.2))) =
  Ret (map h (PointRange.loop_F (PointRange.loop_range r0) (PointRange.loop_range r1) (PointRange.loop_range r2))).
Proof.
  intros Hs A0 A1 A2 Hin Hv. rewrite !Hs. destruct r0 as [a a'], r1 as [b b'], r2 as [c c'].
  unfold axes_orders in Hin. rewrite !elem_of_cons in Hin.
  destruct Hin as [->|[->|[->|[->|[->|[->|[]%not_elem_of_nil]]]]]].
  all: destruct axis as [|[|[|]]]; [| | |done]; cbn in Hv; simplify_eq.
  all: unfold PointRange.points, corners_box; cbn [PointRange.pr_i PointRange.pr_j PointRange.pr_k fst snd donor_order delete list_delete].
  all: repeat match goal with |- context [?x <? ?y] => let b := eval vm_compute in (x <? y) in change (x <? y) with b end; cbn iota.
  all: repeat match goal with |- context [bool_decide (?x = ?y)] => let b := eval vm_compute in (bool_decide (x = y)) in change (bool_decide (x = y)) with b end; cbn iota.
  all: rewrite !affine_range by done.
  all: rewrite !loop_range_one; f_equal; cbn [fmap list_fmap].
  all: rewrite ?(proj1 (loop_F_2 _ _ _)), ?(proj1 (proj2 (loop_F_2 _ _ _))), ?(proj2 (proj2 (loop_F_2 _ _ _))),
    ?(proj1 (loop_C_2 _ _ _)), ?(proj1 (proj2 (loop_C_2 _ _ _))), ?(proj2 (proj2 (loop_C_2 _ _ _))).
  all: rewrite map_loops2, loops2_fmap; apply loops2_ext; intros; by rewrite Hs.
Qed.

(** ** Consistent joins *)

(** The donor range is the image of the range. *)
Definition maps_onto (T : list (list Z)) (pr pr_opp : prange) : Prop :=
  of_window (_gc_transform_window (window_of pr) (map fst pr) (map fst pr_opp) T) = pr_opp.

(** The 48 transformations of three axes. *)
Ltac each_transform Ht Hl :=
  let Hin := fresh in pose proof (elem_of_signed_perms _ Ht) as Hin;
  let l := eval vm_compute in signed_perms in change signed_perms with l in Hin;
  repeat (apply elem_of_cons in Hin as [->|Hin]; [try discriminate Hl|]); [..|by apply not_elem_of_nil in Hin]; clear Ht Hl.

Lemma matrix_to_transform_matrix t : signed_perm t -> matrix_to_transform (transform_matrix t) = t.
Proof.
  intros Ht. assert (H : forall t, signed_perm t -> bool_decide (matrix_to_transform (transform_matrix t) = t) = true)
    by (apply signed_perm_check; vm_compute; reflexivity).
  by apply H, bool_decide_eq_true in Ht.
Qed.

Lemma transform_axes t : signed_perm t -> length t = 3%nat -> map Z.abs t ∈ axes_orders.
Proof. intros Ht Hl. each_transform Ht Hl. all: apply (bool_decide_unpack _); by vm_compute. Qed.

(** The first points are still related after the exchange of the bounds of the rows. *)
Lemma swapped_start t swap pr pr_opp :
  signed_perm t -> length t = 3%nat -> length pr = 3%nat -> length pr_opp = 3%nat -> length swap = 3%nat -> maps_onto (transform_matrix t) pr pr_opp ->
  map fst (swap_rows (scatter t swap) pr_opp) = _gc_transform_point (map fst (swap_rows swap pr)) (map fst pr) (map fst pr_opp) (transform_matrix t).
Proof.
  intros Ht Hl Hp Hp' Hs <-. destruct pr as [|[a a'] [|[b b'] [|[c c'] [|]]]]; try done. destruct pr_opp as [|[d d'] [|[e e'] [|[f f'] [|]]]]; try done.
  destruct swap as [|x [|y [|z [|]]]]; try done. each_transform Ht Hl.
  all: match goal with |- context [scatter ?t ?l] => let s := eval vm_compute in (scatter t l) in change (scatter t l) with s end.
  all: unfold of_window, window_of, _gc_transform_window; eval_transform; cbn; destruct x, y, z; cbn; list_lia.
Qed.

Lemma transform_from t x s s' d :
  signed_perm t -> length t = 3%nat -> length x = 3%nat -> length s = 3%nat -> length s' = 3%nat -> length d = 3%nat ->
  _gc_transform_point x s' (_gc_transform_point s' s d (transform_matrix t)) (transform_matrix t) = _gc_transform_point x s d (transform_matrix t).
Proof.
  intros Ht Hl Hx Hs Hs' Hd. destruct x as [|x0 [|x1 [|x2 [|]]]], s as [|s0 [|s1 [|s2 [|]]]], s' as [|u0 [|u1 [|u2 [|]]]], d as [|d0 [|d1 [|d2 [|]]]]; try done.
  each_transform Ht Hl. all: eval_transform; list_lia.
Qed.

(** The normal axis is sent to the normal axis. *)
Lemma normal_axes t pr pr_opp axis axis_opp :
  signed_perm t -> length t = 3%nat -> length pr = 3%nat -> length pr_opp = 3%nat -> maps_onto (transform_matrix t) pr pr_opp ->
  normal_row pr = Ret axis -> normal_row pr_opp = Ret axis_opp -> Z.abs <$> t !! axis = Some (Z.of_nat axis_opp + 1).
Proof.
  intros Ht Hl Hp Hp' Hm. destruct pr as [|[a a'] [|[b b'] [|[c c'] [|]]]]; try done. destruct pr_opp as [|[d d'] [|[e e'] [|[f f'] [|]]]]; try done.
  unfold maps_onto, of_window, window_of, _gc_transform_window in Hm. each_transform Ht Hl.
  all: match type of Hm with context [transform_matrix ?t] => let m := eval vm_compute in (transform_matrix t) in change (transform_matrix t) with m in Hm end.
  all: unfold _gc_transform_point, matmul, dot, zsum in Hm; cbn [map zip_with foldr fst snd zip] in Hm; injection Hm as H1 H2 H3 H4 H5 H6.
  all: unfold normal_row, enumerate; cbn [imap filter list_filter compose]; repeat case_decide; try done; try lia; intros [= <-] [= <-]; done.
Qed.

(** The point of the donor: the image of a vertex; for a face or a cell, the least corner of the image of the face. *)
Definition tangent (axis : nat) (p : Z * Z * Z) : Z * Z * Z := add3 (<[axis := 0]> [1; 1; 1]) p.
Definition min3 (p q : Z * Z * Z) : Z * Z * Z := (Z.min p.1.1 q.1.1, Z.min p.1.2 q.1.2, Z.min p.2 q.2).
Definition donor_point (h : Z * Z * Z -> Z * Z * Z) (center : bool) (axis : nat) (p : Z * Z * Z) : Z * Z * Z :=
  if center then min3 (h p) (h (tangent axis p)) else h p.
Definition donor_offset (T : list (list Z)) (center : bool) (axis_opp : nat) (shift : Z) : list Z :=
  imap (fun m row => if bool_decide (m = axis_opp) then shift else if center && (zsum row <? 0) then -1 else 0) T.

Lemma donor_offset_spec t center axis axis_opp shift s d p :
  signed_perm t -> length t = 3%nat -> length s = 3%nat -> length d = 3%nat -> Z.abs <$> t !! axis = Some (Z.of_nat axis_opp + 1) ->
  add3 (donor_offset (transform_matrix t) center axis_opp shift) (image s d (transform_matrix t) p) =
  add3 (<[axis_opp := shift]> [0; 0; 0]) (donor_point (image s d (transform_matrix t)) center axis p).
Proof.
  intros Ht Hl Hs Hd Ha. destruct s as [|s0 [|s1 [|s2 [|]]]], d as [|d0 [|d1 [|d2 [|]]]]; try done. destruct p as [[i j] k].
  assert (Ha3 : (axis < 3)%nat) by (rewrite <- Hl; apply lookup_lt_is_Some; destruct (t !! axis); done).
  each_transform Ht Hl. all: destruct axis as [|[|[|]]]; [| | |lia]; cbn in Ha; injection Ha as Ha.
  all: destruct axis_opp as [|[|[|]]]; try lia; clear Ha; destruct center.
  all: match goal with |- context [donor_offset ?T ?c ?a ?x] => let o := eval vm_compute in (donor_offset T c a x) in change (donor_offset T c a x) with o end.
  all: unfold donor_point, tangent, image, min3; eval_transform; cbn; (apply (f_equal2 pair); [apply (f_equal2 pair)|]); lia.
Qed.

(** ** The slabs of a join *)

(** The range of a slab has one value on an axis of size one. *)
Lemma slab_normal nx ny nz start s axis :
  (Slabs.in_array nx ny s /\ let '(_, (k0, k1)) := s in 0 <= k0 /\ k1 <= nz) -> [nx; ny; nz] !! axis = Some 1 ->
  exists v, [PointRange.pr_i (slab_box start s); PointRange.pr_j (slab_box start s); PointRange.pr_k (slab_box start s)] !! axis = Some (v, v).
Proof.
  destruct s as [[[i0 i1] [j0 j1]] [k0 k1]], start as [[s0 s1] s2]. intros [(Hi & Hi' & Hj & Hj' & Hk) Hk'] Ha.
  destruct axis as [|[|[|]]]; [..|done]; cbn in *; injection Ha as ->; eexists; do 2 f_equal; lia.
Qed.

(** The range of the donor, as the code corrects it. *)
Definition donor_rows (T : list (list Z)) (output_loc : string) (axis_opp : nat) (shift_opp : Z) (rows : prange) : prange :=
  let rows := add_at axis_opp shift_opp rows in
  if contains "Center" output_loc
  then zip_with (fun (b : bool) r => if b then (r.1 - 1, r.2 - 1) else r) (<[axis_opp := false]> (map (fun row => zsum row <? 0) T)) rows
  else rows.

Lemma donor_rows_box T output_loc axis_opp shift_opp a a' b b' c c' :
  length T = 3%nat -> (axis_opp < 3)%nat ->
  let off := donor_offset T (contains "Center" output_loc) axis_opp shift_opp in
  to_box (donor_rows T output_loc axis_opp shift_opp [(a, a'); (b, b'); (c, c')]) = Ret (corners_box (add3 off (a, b, c)) (add3 off (a', b', c'))).
Proof.
  intros HT Ha. destruct T as [|t0 [|t1 [|t2 [|]]]]; try done. unfold donor_rows, add_at, donor_offset.
  destruct (contains "Center" output_loc), axis_opp as [|[|[|]]]; try lia; cbn [map zip_with fst snd alter list_alter imap insert list_insert compose].
  all: cbn [andb]; repeat case_bool_decide; try lia.
  all: repeat match goal with |- context [zsum ?t <? 0] => destruct (zsum t <? 0) end; cbn [add3 to_box fst snd]; unfold corners_box; cbn [fst snd].
  all: do 2 f_equal; f_equal; lia.
Qed.

Lemma donor_box T output_loc axis_opp shift_opp s d r0 r1 r2 :
  length T = 3%nat -> length d = 3%nat -> (axis_opp < 3)%nat ->
  let h p := add3 (donor_offset T (contains "Center" output_loc) axis_opp shift_opp) (image s d T p) in
  to_box (donor_rows T output_loc axis_opp shift_opp (of_window (_gc_transform_window (window_of [r0; r1; r2]) s d T))) =
  Ret (corners_box (h (r0.1, r1.1, r2.1)) (h (r0.2, r1.2, r2.2))).
Proof.
  intros HT Hd Ha h. unfold h, image, of_window, window_of, _gc_transform_window. cbn [map fst snd].
  pose proof (length_transform_point [r0.1; r1.1; r2.1] s d T) as Hx. pose proof (length_transform_point [r0.2; r1.2; r2.2] s d T) as Hy.
  rewrite HT, Hd in Hx, Hy.
  destruct (_gc_transform_point [r0.1; r1.1; r2.1] s d T) as [|x0 [|x1 [|x2 [|]]]]; try done.
  destruct (_gc_transform_point [r0.2; r1.2; r2.2] s d T) as [|y0 [|y1 [|y2 [|]]]]; try done. by apply donor_rows_box.
Qed.

(** ** The point lists *)

Lemma orient_matrix t pr pr_opp :
  signed_perm t -> orient (transform_matrix t) pr pr_opp = (swap_rows (dir_to_swap pr) pr, swap_rows (scatter t (dir_to_swap pr)) pr_opp).
Proof. intros Ht. unfold orient. by rewrite matrix_to_transform_matrix. Qed.

Section join.
Context (t : list Z) (pr pr_opp : prange) (n_vtx n_vtx_opp : Numbering.triplet) (output_loc loc loc_opp : string).
Context (axis axis_opp : nat) (shift shift_opp nx ny nz : Z).
Context (Ht : signed_perm t) (Hl : length t = 3%nat) (Hpr : length pr = 3%nat) (Hpr_opp : length pr_opp = 3%nat).
Context (Haxis : normal_row pr = Ret axis) (Haxis_opp : normal_row pr_opp = Ret axis_opp).
Context (Haxes : Z.abs <$> t !! axis = Some (Z.of_nat axis_opp + 1)).
Context (Hsize : transform_bnd_pr_size pr "Vertex" output_loc = Ret [nx; ny; nz]) (Hpos : 0 < nx /\ 0 < ny /\ 0 < nz).
Context (Hone : [nx; ny; nz] !! axis = Some 1).
Context (Hshift : PointRange.normal_index_shift pr (list_of n_vtx) (Z.of_nat axis) "Vertex" output_loc = Ret shift).
Context (Hshift_opp : PointRange.normal_index_shift pr_opp (list_of n_vtx_opp) (Z.of_nat axis_opp) "Vertex" output_loc = Ret shift_opp).
Context (Hloc : _s_location output_loc axis = Ret loc) (Hloc_in : loc ∈ s_locations).
Context (Hloc_opp : _s_location output_loc axis_opp = Ret loc_opp) (Hloc_opp_in : loc_opp ∈ s_locations).

Let T := transform_matrix t.
Let center := contains "Center" output_loc.
Let start := first_point pr 0 0.
Let h p := add3 (donor_offset T center axis_opp shift_opp) (image (map fst pr) (map fst pr_opp) T p).

Lemma axis_opp_bound : (axis_opp < 3)%nat.
Proof. destruct (normal_row_spec _ _ Haxis_opp) as [c Hc]. apply lookup_lt_Some in Hc. lia. Qed.
Lemma axis_bound : (axis < 3)%nat.
Proof. destruct (normal_row_spec _ _ Haxis) as [c Hc]. apply lookup_lt_Some in Hc. lia. Qed.

(** The points of the donor of a slab. *)
Lemma donor_slab s sub :
  (Slabs.in_array nx ny s /\ let '(_, (k0, k1)) := s in 0 <= k0 /\ k1 <= nz) -> sub_range pr s = Ret sub ->
  exists box, to_box (donor_rows T output_loc axis_opp shift_opp
      (of_window (_gc_transform_window (window_of sub) (map fst pr) (map fst pr_opp) T))) = Ret box /\
    PointRange.points (donor_order (map Z.abs t) axis) box = Ret (map (fun g => h (point_at nx ny start g)) (Slabs.slab_cells nx ny s)).
Proof.
  intros Hs Hsub. pose proof (slab_normal nx ny nz start s axis Hs Hone) as [v Hv].
  pose proof (slab_points nx ny start s (proj1 Hs)) as Hpts.
  assert (Hb : exists r0 r1 r2, sub = [r0; r1; r2] /\ slab_box start s = PointRange.PRange r0 r1 r2) .
  { destruct (sub_box pr 0 0 s Hpr ltac:(lia)) as (sub' & E & Eb). rewrite E in Hsub. injection Hsub as ->. fold start in Eb.
    destruct sub as [|r0 [|r1 [|r2 [|]]]]; cbn in Eb; try done. exists r0, r1, r2. split; [done|].
    injection Eb as <-. destruct r0 as [x y]. cbn. by rewrite !Z.add_0_r. }
  destruct Hb as (r0 & r1 & r2 & -> & Eb). rewrite Eb in Hpts, Hv. cbn [PointRange.pr_i PointRange.pr_j PointRange.pr_k] in Hv.
  eexists. split; [apply donor_box; [by unfold T; rewrite length_transform|by rewrite length_map|apply axis_opp_bound]|].
  assert (exists s0 s1 s2, map fst pr = [s0; s1; s2]) as (s0 & s1 & s2 & Es) by (destruct pr as [|? [|? [|? [|]]]]; try done; by eexists _, _, _).
  assert (exists d0 d1 d2, map fst pr_opp = [d0; d1; d2]) as (d0 & d1 & d2 & Ed) by (destruct pr_opp as [|? [|? [|? [|]]]]; try done; by eexists _, _, _).
  assert (exists o0 o1 o2, donor_offset T center axis_opp shift_opp = [o0; o1; o2]) as (o0 & o1 & o2 & Eo).
  { unfold donor_offset. assert (HlT : length T = 3%nat) by (unfold T; by rewrite length_transform). destruct T as [|? [|? [|? [|]]]]; try done. by eexists _, _, _. }
  unfold h. fold center. rewrite Es, Ed, Eo. destruct (donor_shape t s0 s1 s2 d0 d1 d2 o0 o1 o2 Ht Hl) as (f0 & f1 & f2 & A0 & A1 & A2 & Hsends).
  etrans; [exact (donor_loops _ f0 f1 f2 _ axis r0 r1 r2 v Hsends A0 A1 A2 (transform_axes t Ht Hl) Hv)|].
  unfold PointRange.points in Hpts. cbn [PointRange.pr_i PointRange.pr_j PointRange.pr_k] in Hpts. rewrite bool_decide_eq_true_2 in Hpts by done.
  injection Hpts as ->. by rewrite map_map.
Qed.

Lemma mapM_map {A B C} (f : B -> py C) (g : A -> B) l : mapM f (map g l) = mapM (fun x => f (g x)) l.
Proof. induction l as [|x l IH]; [done|]. cbn. destruct (f (g x)); [|done]. cbn. by rewrite IH. Qed.
Lemma map_if {A B C} (b : bool) (f : B -> C) (g : A -> B) (k : A -> C) l :
  (if b then map f (map g l) else map k l) = map (fun x => if b then f (g x) else k x) l.
Proof. destruct b; [apply map_map|done]. Qed.

Lemma donor_order_code :
  exists a b, map Z.abs (delete axis t) !! 0%nat = Some a /\ map Z.abs (delete axis t) !! 1%nat = Some b /\
    (if b <? a then "C" else "F") = donor_order (map Z.abs t) axis.
Proof.
  pose proof axis_bound as Ha. destruct t as [|x [|y [|z [|]]]]; try done.
  destruct axis as [|[|[|]]]; [..|lia]; eexists _, _; (split; [done|split; [done|]]); done.
Qed.

(** The points of the donor of all the slabs. *)
Lemma donor_slabs slabs subs :
  (forall i s, slabs !! i = Some s -> Slabs.in_array nx ny s /\ let '(_, (k0, k1)) := s in 0 <= k0 /\ k1 <= nz) -> mapM (sub_range pr) slabs = Ret subs ->
  exists boxes, mapM (fun sub => to_box (donor_rows T output_loc axis_opp shift_opp
      (of_window (_gc_transform_window (window_of sub) (map fst pr) (map fst pr_opp) T)))) subs = Ret boxes /\
    PointRange.compute_pointList_from_pointRanges boxes n_vtx_opp loc_opp (donor_order (map Z.abs t) axis) =
    Ret (map (fun g => index_at loc_opp n_vtx_opp (h (point_at nx ny start g))) (Slabs.slabs_cells nx ny slabs)).
Proof.
  unfold PointRange.compute_pointList_from_pointRanges, Slabs.slabs_cells.
  revert subs. induction slabs as [|s slabs IH]; intros subs Hin Hsubs.
  { injection Hsubs as <-. by exists []. }
  cbn in Hsubs. destruct (sub_range pr s) as [sub|] eqn:Esub; [|done]. cbn in Hsubs.
  destruct (mapM (sub_range pr) slabs) as [subs'|] eqn:Esubs; [|done]. injection Hsubs as <-.
  destruct (IH subs') as (boxes & Eb & El); [intros i s' Hs'; apply (Hin (S i)); done|done|].
  destruct (donor_slab s sub (Hin 0%nat s eq_refl) Esub) as (box & E1 & E2).
  exists (box :: boxes). cbn [mapM]. rewrite E1. cbn [mbind py_bind]. rewrite Eb. split; [done|].
  cbn [mapM].
  assert (E3 : PointRange.point_list_of n_vtx_opp loc_opp (donor_order (map Z.abs t) axis) box =
    Ret (map (fun g => index_at loc_opp n_vtx_opp (h (point_at nx ny start g))) (Slabs.slab_cells nx ny s))).
  { unfold PointRange.point_list_of. rewrite E2. cbn [mbind py_bind].
    rewrite (mapM_pure _ (index_at loc_opp n_vtx_opp)) by (intros [[? ?] ?] _; by apply index_at_spec). by rewrite map_map. }
  rewrite E3. cbn [mbind py_bind].
  destruct (mapM _ boxes) as [ls|]; [|done]. cbn in El |- *. injection El as ->. by rewrite map_app.
Qed.

(** What a rank computes. *)
Lemma gc_rank P i :
  0 <= i < P ->
  let n := nx * ny * nz in let lo := PyUtils.uniform_start n P i in let hi := PyUtils.uniform_start n P (i + 1) in
  gc_point_lists T pr pr_opp n_vtx n_vtx_opp output_loc i P =
  Ret (map (fun g => index_at loc n_vtx (point_at nx ny (first_point pr axis shift) g)) (arange lo hi),
    map (fun g => index_at loc_opp n_vtx_opp (h (point_at nx ny start g))) (arange lo hi), (lo, hi), n).
Proof.
  intros Hi n lo hi. unfold gc_point_lists. rewrite Haxis, Haxis_opp. cbn [mbind py_bind]. rewrite Hsize. cbn [mbind py_bind].
  replace (zprod [nx; ny; nz]) with n by (unfold n, zprod; cbn [foldl]; lia).
  rewrite PyUtils.uniform_at_start by lia. fold lo hi. cbn [mbind py_bind].
  destruct (PyUtils.uniform_start_spec n P ltac:(unfold n; nia) ltac:(lia)) as (E0 & EP & Hm).
  pose proof (Hm 0 i ltac:(lia)) as H1. pose proof (Hm i (i + 1) ltac:(lia)) as H2. pose proof (Hm (i + 1) P ltac:(lia)) as H3. fold lo hi in H1, H2, H3.
  destruct (Slabs.compute_slabs_spec nx ny (Some nz) lo hi) as (slabs & Es & Hcells & Harr); [lia..|unfold n in *; lia|].
  rewrite Es. cbn [mbind py_bind].
  destruct (sub_boxes pr axis shift slabs Hpr axis_bound) as (subs & Esubs & Eb). rewrite Esubs. cbn [mbind py_bind].
  rewrite Hshift, Hshift_opp. cbn [mbind py_bind]. unfold T. rewrite matrix_to_transform_matrix by done.
  destruct donor_order_code as (a & b & -> & -> & Eo). cbn [of_option mbind py_bind]. rewrite Eo.
  rewrite Hloc, Hloc_opp. cbn [mbind py_bind]. rewrite !mapM_map, Eb. cbn [mbind py_bind].
  destruct (donor_slabs slabs subs) as (boxes & Ebo & Epl).
  { intros k s Hs. eapply Slabs.slab_in_array; [..|exact Hs]; eauto; unfold n in *; lia. }
  { done. }
  rewrite map_if, mapM_map. unfold donor_rows in Ebo. fold T. rewrite mapM_map. rewrite Ebo. cbn [mbind py_bind].
  rewrite (point_list_slabs nx ny) by done. cbn [mbind py_bind]. rewrite Epl. cbn [mbind py_bind]. by rewrite Hcells.
Qed.
End join.

(** ** The points of both sides *)

Lemma size_swap swap pr output_loc :
  length swap = length pr -> transform_bnd_pr_size (swap_rows swap pr) "Vertex" output_loc = transform_bnd_pr_size pr "Vertex" output_loc.
Proof.
  intros Hl. unfold transform_bnd_pr_size, rows_size. rewrite map_swap_rows; [|cbn; lia|done].
  change (contains "Center" "Vertex") with false. done.
Qed.
Lemma shift_swap swap pr n_vtx axis output_loc c :
  length swap = length pr -> pr !! axis = Some (c, c) ->
  PointRange.normal_index_shift (swap_rows swap pr) n_vtx (Z.of_nat axis) "Vertex" output_loc = PointRange.normal_index_shift pr n_vtx (Z.of_nat axis) "Vertex" output_loc.
Proof.
  intros Hl Hc. unfold PointRange.normal_index_shift.
  by rewrite (py_get_lookup _ _ _ Hc), (py_get_lookup _ _ _ (lookup_swap_const _ _ _ _ Hl Hc)).
Qed.

(** The sizes are positive, and the size along the normal is one. *)
Lemma size_spec pr output_loc axis c nx ny nz :
  transform_bnd_pr_size pr "Vertex" output_loc = Ret [nx; ny; nz] -> pr !! axis = Some (c, c) ->
  (0 < nx /\ 0 < ny /\ 0 < nz) /\ [nx; ny; nz] !! axis = Some 1.
Proof.
  unfold transform_bnd_pr_size, rows_size. change (contains "Center" "Vertex") with false. cbn [andb].
  intros Hs Hc. destruct (_ && _); injection Hs as Hs; rewrite <- Hs.
  all: destruct pr as [|[a a'] [|[b b'] [|[d d'] [|]]]]; cbn in Hs; try discriminate; injection Hs as <- <- <-.
  all: split; [repeat case_bool_decide; lia|].
  all: destruct axis as [|[|[|]]]; [..|done]; cbn in *; simplify_eq; rewrite Z.sub_diag; done.
Qed.

Lemma point_at_first nx ny pr axis shift g :
  length pr = 3%nat -> (axis < 3)%nat ->
  point_at nx ny (first_point pr axis shift) g = add3 (<[axis := shift]> [0; 0; 0]) (point_at nx ny (first_point pr 0 0) g).
Proof.
  intros Hl Ha. destruct pr as [|[a a'] [|[b b'] [|[c c'] [|]]]]; try done.
  destruct axis as [|[|[|]]]; [..|lia]; unfold first_point, add_at, point_at; cbn; (apply (f_equal2 pair); [apply (f_equal2 pair)|]); lia.
Qed.

(** C11: The lists of the ranks together, for a transformation that sends the range of the join to that of its
    donor: the points of the join are those of its range, in order, at the output location, and each point of
    the list of the donor is the image of the point of the join, the least corner of the image of the face for
    faces and cells; both are moved along the normal when cells and last vertices do not have the same index. *)
Theorem gc_join_points t pr pr_opp n_vtx n_vtx_opp output_loc loc loc_opp axis axis_opp shift shift_opp nx ny nz P :
  let T := transform_matrix t in
  signed_perm t -> length t = 3%nat -> length pr = 3%nat -> length pr_opp = 3%nat -> maps_onto T pr pr_opp ->
  normal_row pr = Ret axis -> normal_row pr_opp = Ret axis_opp ->
  transform_bnd_pr_size pr "Vertex" output_loc = Ret [nx; ny; nz] ->
  PointRange.normal_index_shift pr (list_of n_vtx) (Z.of_nat axis) "Vertex" output_loc = Ret shift ->
  PointRange.normal_index_shift pr_opp (list_of n_vtx_opp) (Z.of_nat axis_opp) "Vertex" output_loc = Ret shift_opp ->
  _s_location output_loc axis = Ret loc -> loc ∈ s_locations -> _s_location output_loc axis_opp = Ret loc_opp -> loc_opp ∈ s_locations -> 0 < P ->
  let '(inc, inc_opp) := orient T pr pr_opp in
  let faces := point_at nx ny (first_point inc 0 0) <$> arange 0 (nx * ny * nz) in
  let donor := donor_point (image (map fst pr) (map fst pr_opp) T) (contains "Center" output_loc) axis in
  exists lists, mapM (fun i => gc_point_lists T inc inc_opp n_vtx n_vtx_opp output_loc i P) (arange 0 P) = Ret lists /\
    concat ((fun r => r.1.1.1) <$> lists) = (fun p => index_at loc n_vtx (add3 (<[axis := shift]> [0; 0; 0]) p)) <$> faces /\
    concat ((fun r => r.1.1.2) <$> lists) = (fun p => index_at loc_opp n_vtx_opp (add3 (<[axis_opp := shift_opp]> [0; 0; 0]) (donor p))) <$> faces.
Proof.
  intros T Ht Hl Hp Hp' Hm Ha Ha' Hs Hsh Hsh' Hloc Hin Hloc' Hin' HP. unfold T. rewrite orient_matrix by done.
  set (s := dir_to_swap pr). set (s' := scatter t s).
  assert (Ls : length s = length pr) by apply length_dir_to_swap.
  assert (Ls' : length s' = length pr_opp) by (unfold s'; rewrite length_scatter; lia).
  destruct (normal_row_spec _ _ Ha) as [c Hc], (normal_row_spec _ _ Ha') as [c' Hc'].
  pose proof (normal_axes _ _ _ _ _ Ht Hl Hp Hp' Hm Ha Ha') as Hax. destruct (size_spec _ _ _ _ _ _ _ Hs Hc) as [Hpos Hone].
  pose proof (swapped_start t s pr pr_opp Ht Hl Hp Hp' (eq_trans Ls Hp) Hm) as Hstart. fold s' in Hstart.
  set (inc := swap_rows s pr) in *. set (inc_opp := swap_rows s' pr_opp) in *.
  assert (Li : length inc = 3%nat) by (unfold inc; rewrite length_swap_rows; lia).
  assert (Li' : length inc_opp = 3%nat) by (unfold inc_opp; rewrite length_swap_rows; lia).
  assert (Hrank : forall i, 0 <= i < P -> gc_point_lists (transform_matrix t) inc inc_opp n_vtx n_vtx_opp output_loc i P = _)
    by (intros i Hi; apply (gc_rank t inc inc_opp n_vtx n_vtx_opp output_loc loc loc_opp axis axis_opp shift shift_opp nx ny nz); try done;
      unfold inc, inc_opp; [by rewrite normal_row_swap by lia|by rewrite normal_row_swap by lia|by rewrite size_swap|by erewrite shift_swap|by erewrite shift_swap]).
  eexists. split; [apply mapM_pure; intros i Hi%elem_of_arange; by apply Hrank|]. clear Hrank.
  rewrite <- (PyUtils.uniform_concat (nx * ny * nz) P) by nia. rewrite !fmap_concat.
  change (@map) with (fun A B => @fmap list _ A B). cbn beta. rewrite <- !list_fmap_compose. split; f_equal; apply list_fmap_ext; intros k i _.
  all: unfold compose; cbn [fst snd]; rewrite <- list_fmap_compose; apply list_fmap_ext; intros j g _; unfold compose; f_equal.
  - apply point_at_first; [done|]. apply lookup_lt_Some in Hc. lia.
  - change (@fmap list _ (Z * Z) Z) with (@map (Z * Z) Z). destruct (point_at nx ny (first_point inc 0 0) g) as [[x y] z].
    rewrite <- donor_offset_spec; [|done|done|by rewrite length_map..|done]. f_equal. unfold image.
    rewrite Hstart, transform_from; rewrite ?length_map; done.
Qed.

Lemma gc_join_points_witness :
  exists lists, mapM (fun i => gc_point_lists (transform_matrix [-3; -1; 2]) [(1, 2); (1, 1); (1, 4)] [(5, 5); (1, 4); (2, 1)] (2, 7, 4) (5, 4, 2) "FaceCenter" i 2) (arange 0 2) = Ret lists /\
    concat ((fun r => r.1.1.1) <$> lists) = [37; 44; 51] /\ concat ((fun r => r.1.1.2) <$> lists) = [5; 10; 15].
Proof.
  refine (gc_join_points [-3; -1; 2] [(2, 1); (1, 1); (1, 4)] [(5, 5); (1, 4); (1, 2)] (2, 7, 4) (5, 4, 2) "FaceCenter" "JFaceCenter" "IFaceCenter" 1 0 0 0 1 1 3 2
    _ _ _ _ _ _ _ _ _ _ _ _ _ _ _); try (vm_compute; reflexivity).
  - split; [|cbn; lia]. apply (bool_decide_unpack _). by vm_compute.
  - apply (bool_decide_unpack _). by vm_compute.
  - apply (bool_decide_unpack _). by vm_compute.
Defined.

End StoUJoins.
