(* ===== verification/NGonTools.v ===== *)
(** * Face to cell and cell to face connectivities: [maia/algo/part/ngon_tools]

    [pe_to_nface] and [nface_to_pe] of [_ngon_tools.py] on a partitioned zone, the two kernels of
    [ngon_tools.pybind.hpp] they call and [get_ngon_pe_local] of [maia/algo/indexing.py].  A ParentElements
    array is the list of its rows; the kernels read its columns one after the other.  The values of the cells of
    an array that is not initialised are [None]. *)
From S2P Require Import Prelude Values Tree NpUtils.

Local Open Scope Z_scope.

Module NGonTools.

(** ** Arrays of the kernels *)

Definition c_get {A} (a : list A) (i : Z) : py A :=
  if bool_decide (0 <= i) then of_option UndefinedBehavior (a !! Z.to_nat i) else Raise UndefinedBehavior.
Definition c_set {A} (a : list A) (i : Z) (x : A) : py (list A) :=
  if bool_decide (0 <= i < zlen a) then Ret (<[Z.to_nat i := x]> a) else Raise UndefinedBehavior.
Definition c_incr (counts : list Z) (i : Z) : py (list Z) := x ← c_get counts i; c_set counts i (x + 1).

(** ** The kernels *)

Definition columns (pe : list (Z * Z)) : list Z := map fst pe ++ map snd pe.

(** The faces of the first column, then those of the second one with the opposite sign. *)
Definition first_faces (pe : list (Z * Z)) : list (Z * Z) := zip (map fst pe) (arange 1 (zlen pe + 1)).
Definition second_faces (pe : list (Z * Z)) : list (Z * Z) := zip (map snd pe) (map Z.opp (arange 1 (zlen pe + 1))).
Definition put_face (eso : list Z) (s : list Z * list (option Z)) (item : Z * Z) : py (list Z * list (option Z)) :=
  let '(counts, ec) := s in let '(icell, face) := item in
  if bool_decide (0 < icell) then
    start ← c_get eso (icell - 1);
    count ← c_get counts icell;
    ec ← c_set ec (start + count) (Some face);
    counts ← c_set counts icell (count + 1);
    Ret (counts, ec)
  else Ret (counts, ec).

Definition local_pe_to_local_cellface (pe : list (Z * Z)) : py (list Z * list Z) :=
  let n_cell := foldl Z.max 0 (columns pe) in
  counts ← foldM c_incr (replicate (Z.to_nat (n_cell + 1)) 0) (columns pe);
  let eso := scan 0 (tail counts) in
  n_ec ← c_get eso n_cell;
  let ec := replicate (Z.to_nat n_ec) None in
  let counts := replicate (length counts) 0 in
  s ← foldM (put_face eso) (counts, ec) (first_faces pe);
  s ← foldM (put_face eso) s (second_faces pe);
  ec ← mapM (of_option UndefinedBehavior) s.2;
  Ret (eso, ec).

Definition put_parent (n_face icell : Z) (pe : list Z) (iface : Z) : py (list Z) :=
  if bool_decide (0 < iface) then c_set pe (Z.abs iface - 1) (icell + 1) else c_set pe (Z.abs iface - 1 + n_face) (icell + 1).
Definition put_cell (idx cellface : list Z) (n_face : Z) (pe : list Z) (icell : Z) : py (list Z) :=
  lo ← c_get idx icell;
  hi ← c_get idx (icell + 1);
  foldM (fun pe j => iface ← c_get cellface j; put_parent n_face icell pe iface) pe (arange lo hi).
Definition local_cellface_to_local_pe (cellface_idx cellface : list Z) : py (list (Z * Z)) :=
  let n_cell := zlen cellface_idx - 1 in
  let n_face := foldl (fun m x => Z.max m (Z.abs x)) 0 cellface in
  pe ← foldM (put_cell cellface_idx cellface n_face) (replicate (Z.to_nat (2 * n_face)) 0) (arange 0 n_cell);
  Ret (zip (take (Z.to_nat n_face) pe) (drop (Z.to_nat n_face) pe)).

(** ** ParentElements and NFace arrays *)

(** [get_ngon_pe_local], from the range of the NGon node and its ParentElements: whether the cells are numbered
    after the faces is read from the second row. *)
Definition pe_is_shifted (last_face : Z) (pe_val : list (Z * Z)) : py bool :=
  if bool_decide (zlen pe_val = 0) then Ret false
  else row ← of_option IndexError (pe_val !! 1%nat); Ret (bool_decide (last_face < Z.max row.1 row.2)).
Definition unshift (last_face x : Z) : Z := x - last_face * (if bool_decide (0 < x) then 1 else 0).
Definition get_ngon_pe_local (range : Z * Z) (pe_val : list (Z * Z)) : py (list (Z * Z)) :=
  b ← pe_is_shifted range.2 pe_val;
  Ret (if (b : bool) then map (fun r => (unshift range.2 r.1, unshift range.2 r.2)) pe_val else pe_val).

(** Range, offsets and faces of the NFace node.  The faces in the numbering of the NGon node are computed
    when it does not start at 1, and not kept. *)
Definition pe_to_nface (ngon_range : Z * Z) (pe : list (Z * Z)) : py ((Z * Z) * list Z * list Z) :=
  max_cell ← py_max (columns pe);
  min_cell ← py_min (filter (fun x => x <> 0) (columns pe));
  local_pe ← get_ngon_pe_local ngon_range pe;
  r ← local_pe_to_local_cellface local_pe;
  let '(nface_eso, nface_ec) := r in
  let first_ngon := ngon_range.1 in
  let _ := if bool_decide (first_ngon <> 1) then map (fun f => Z.sgn f * (Z.abs f + first_ngon - 1)) nface_ec else nface_ec in
  Ret ((min_cell, max_cell), nface_eso, nface_ec).

Definition nface_to_pe (ngon_range nface_range : Z * Z) (cell_face_idx cell_face : list Z) : py (list (Z * Z)) :=
  let _cell_face :=
    if bool_decide (ngon_range.1 = 1) then cell_face
    else map (fun f => (Z.abs f - (nface_range.2 - nface_range.1 + 1)) * Z.sgn f) cell_face in
  local_pe ← local_cellface_to_local_pe cell_face_idx _cell_face;
  let shift := nface_range.1 - 1 in
  Ret (zip (NpUtils.shift_nonzeros (map fst local_pe) shift) (NpUtils.shift_nonzeros (map snd local_pe) shift)).

(** ** The faces of a cell *)

Definition faces_of (items : list (Z * Z)) (c : Z) : list Z := map snd (filter (fun it => it.1 = c) items).
Definition n_cells (pe : list (Z * Z)) : Z := foldl Z.max 0 (columns pe).
Definition cell_faces (pe : list (Z * Z)) : list (list Z) :=
  map (faces_of (first_faces pe ++ second_faces pe)) (arange 1 (n_cells pe + 1)).


Lemma c_get_lookup {A} (a : list A) i x : 0 <= i -> a !! Z.to_nat i = Some x -> c_get a i = Ret x.
Proof. intros Hi Hx. unfold c_get. rewrite bool_decide_eq_true_2 by done. by rewrite Hx. Qed.
Lemma c_set_in {A} (a : list A) i x : 0 <= i < zlen a -> c_set a i x = Ret (<[Z.to_nat i := x]> a).
Proof. intros Hi. unfold c_set. by rewrite bool_decide_eq_true_2 by done. Qed.

(** The counters. *)
Definition occurrences (l : list Z) (c : Z) : Z := zlen (filter (fun x => x = c) l).
Lemma counts_tab f n l :
  Forall (fun x => 0 <= x < n) l -> foldM c_incr (map f (arange 0 n)) l = Ret (map (fun c => f c + occurrences l c) (arange 0 n)).
Proof.
  revert f. induction l as [|x l IH]; intros f Hl.
  { cbn. f_equal. apply map_tab_ext. intros i _. unfold occurrences. rewrite filter_nil. change (zlen (@nil Z)) with 0. lia. }
  apply Forall_cons in Hl as [Hx Hl]. cbn [foldM]. unfold c_incr.
  rewrite (c_get_lookup _ _ (f x)); [|lia|rewrite <- (Z.sub_0_r x) at 1; apply lookup_tab; lia]. cbn [mbind py_bind].
  rewrite c_set_in by (unfold zlen; rewrite length_map, length_arange; lia). cbn [mbind py_bind].
  rewrite <- (Z.sub_0_r x) at 1. rewrite insert_tab by lia. rewrite IH by done. f_equal. apply map_tab_ext. intros i _.
  unfold occurrences. rewrite filter_cons. case_bool_decide; case_decide; subst; try done; unfold zlen; cbn [length]; lia.
Qed.

(** ** The cells of all the faces *)

(** A write in the array of all the groups is a write in one group. *)
Lemma insert_concat {A} (ls : list (list A)) k l j x :
  ls !! k = Some l -> (j < length l)%nat ->
  <[(Z.to_nat (zsum (zlen <$> take k ls)) + j)%nat := x]> (concat ls) = concat (<[k := <[j := x]> l]> ls).
Proof.
  revert k. induction ls as [|l' ls IH]; intros [|k] Hk Hj; try done.
  - injection Hk as ->. cbn. by rewrite insert_app_l.
  - cbn [take fmap list_fmap concat]. rewrite zsum_cons. change (insert (S k) ?y (l' :: ls)) with (l' :: <[k := y]> ls). cbn [concat].
    rewrite <- (IH k Hk Hj), <- insert_app_r. f_equal. pose proof (zlen_nonneg l').
    pose proof (zsum_nonneg (zlen <$> take k ls)). rewrite Z2Nat.inj_add; [unfold zlen; lia|lia|].
    apply H0. apply Forall_fmap, Forall_forall. intros y _. apply zlen_nonneg.
Qed.

Lemma concat_bound {A} (ls : list (list A)) k l : ls !! k = Some l -> zsum (zlen <$> take k ls) + zlen l <= zlen (concat ls).
Proof.
  intros Hk. rewrite <- (take_drop_middle ls k l Hk) at 2. rewrite concat_app, zlen_app. cbn [concat]. rewrite zlen_app, NpUtils.zlen_concat.
  pose proof (zlen_nonneg (concat (drop (S k) ls))). lia.
Qed.

Lemma faces_of_app its its' c : faces_of (its ++ its') c = faces_of its c ++ faces_of its' c.
Proof. unfold faces_of. by rewrite filter_app, map_app. Qed.
Lemma faces_of_one c f c' : faces_of [(c, f)] c' = if bool_decide (c' = c) then [f] else [].
Proof. unfold faces_of. rewrite filter_cons, filter_nil. cbn. case_bool_decide; case_decide; try done; congruence. Qed.

(** The state of the loop once some items have been seen: the group of a cell is filled up to its number of
    faces seen. *)
Definition counts_of (n : Z) (dn : list (Z * Z)) : list Z :=
  map (fun c => if bool_decide (0 < c) then zlen (faces_of dn c) else 0) (arange 0 (n + 1)).
Definition group (all dn : list (Z * Z)) (c : Z) : list (option Z) :=
  map Some (faces_of dn c) ++ replicate (length (faces_of all c) - length (faces_of dn c)) None.
Definition groups (n : Z) (all dn : list (Z * Z)) : list (list (option Z)) := map (group all dn) (arange 1 (n + 1)).
Definition starts (n : Z) (all : list (Z * Z)) : list Z := scan 0 (zlen <$> map (faces_of all) (arange 1 (n + 1))).

Lemma zlen_group all dn c : (length (faces_of dn c) <= length (faces_of all c))%nat -> zlen (group all dn c) = zlen (faces_of all c).
Proof. intros H. unfold group, zlen. rewrite length_app, length_map, length_replicate. lia. Qed.

Lemma put_face_step n all dn c f rest :
  all = dn ++ (c, f) :: rest -> 0 <= c <= n ->
  put_face (starts n all) (counts_of n dn, concat (groups n all dn)) (c, f) =
  Ret (counts_of n (dn ++ [(c, f)]), concat (groups n all (dn ++ [(c, f)]))).
Proof.
  intros Hall Hc. unfold put_face. case_bool_decide as Hpos.
  2:{ assert (c = 0) as -> by lia. f_equal. f_equal.
    - apply map_tab_ext. intros i Hi. case_bool_decide; [|done]. rewrite faces_of_app, faces_of_one, bool_decide_eq_false_2, app_nil_r by lia. done.
    - f_equal. apply map_tab_ext. intros i Hi. unfold group. rewrite faces_of_app, faces_of_one, bool_decide_eq_false_2, app_nil_r by lia. done. }
  assert (Hle : forall i, (length (faces_of dn i) <= length (faces_of all i))%nat) by (intros i; rewrite Hall, faces_of_app, length_app; lia).
  assert (Hlt : (length (faces_of dn c) < length (faces_of all c))%nat).
  { rewrite Hall, faces_of_app, length_app. change ((c, f) :: rest) with ([(c, f)] ++ rest). rewrite faces_of_app, faces_of_one, bool_decide_eq_true_2 by done. cbn. lia. }
  set (k := Z.to_nat (c - 1)).
  assert (Hk : groups n all dn !! k = Some (group all dn c)) by (unfold groups, k; apply lookup_tab; lia).
  assert (Hstart : starts n all !! k = Some (zsum (zlen <$> take k (groups n all dn)))).
  { unfold starts. rewrite scan_lookup by (rewrite length_fmap, length_map, length_arange; unfold k; lia). f_equal. rewrite Z.add_0_l, fmap_take. f_equal.
    f_equal. unfold groups. change (@map) with (fun A B => @fmap list _ A B). cbn beta. rewrite <- !list_fmap_compose. apply list_fmap_ext.
    intros j i _. unfold compose. by rewrite zlen_group. }
  rewrite (c_get_lookup (starts n all) (c - 1) _ ltac:(lia) Hstart). cbn [mbind py_bind].
  rewrite (c_get_lookup _ c (zlen (faces_of dn c))); [|lia|].
  2:{ unfold counts_of. rewrite <- (Z.sub_0_r c) at 1. rewrite lookup_tab by lia. by rewrite bool_decide_eq_true_2. }
  cbn [mbind py_bind].
  assert (Hsum : 0 <= zsum (zlen <$> take k (groups n all dn))) by (apply zsum_nonneg, Forall_fmap, Forall_forall; intros y _; apply zlen_nonneg).
  assert (Hins : forall x, <[Z.to_nat (zsum (zlen <$> take k (groups n all dn)) + zlen (faces_of dn c)) := x]> (concat (groups n all dn)) =
      concat (<[k := <[length (faces_of dn c) := x]> (group all dn c)]> (groups n all dn))).
  { intros x. rewrite <- (insert_concat _ _ _ _ _ Hk) by (pose proof (zlen_group all dn c (Hle c)); unfold zlen in *; lia). f_equal. unfold zlen at 2. lia. }
  rewrite (c_set_in (concat (groups n all dn))).
  2:{ pose proof (zlen_nonneg (faces_of dn c)). split; [lia|]. pose proof (concat_bound (groups n all dn) k (group all dn c) Hk) as Hb.
      rewrite zlen_group in Hb by done.
      assert (zlen (faces_of dn c) < zlen (faces_of all c)) by (unfold zlen; lia). lia. }
  cbn [mbind py_bind]. rewrite c_set_in by (unfold zlen, counts_of; rewrite length_map, length_arange; lia). cbn [mbind py_bind]. f_equal. f_equal.
  - unfold counts_of. replace (Z.to_nat c) with (Z.to_nat (c - 0)) by (f_equal; lia). rewrite insert_tab by lia. apply map_tab_ext. intros i Hi.
    rewrite faces_of_app, faces_of_one, zlen_app. case_bool_decide; [subst; rewrite bool_decide_eq_true_2 by done; unfold zlen; cbn; done|].
    case_bool_decide; [|done]. unfold zlen. cbn. lia.
  - rewrite Hins. f_equal. unfold groups, k. rewrite insert_tab by lia. apply map_tab_ext. intros i Hi. unfold group.
    rewrite faces_of_app, faces_of_one. case_bool_decide as Hi'; [subst i|by rewrite app_nil_r].
    rewrite map_app, length_app. cbn [map length]. rewrite <- (length_map Some (faces_of dn c)) at 1. rewrite <- (Nat.add_0_r (length (map Some (faces_of dn c)))), insert_app_r.
    rewrite <- app_assoc. f_equal. destruct (length (faces_of all c) - length (faces_of dn c))%nat as [|m] eqn:Em; [lia|]. cbn. f_equal. f_equal. lia.
Qed.

Lemma fill_faces n all rest : forall dn,
  all = dn ++ rest -> Forall (fun it => 0 <= it.1 <= n) rest ->
  foldM (put_face (starts n all)) (counts_of n dn, concat (groups n all dn)) rest = Ret (counts_of n all, concat (groups n all all)).
Proof.
  induction rest as [|[c f] rest IH]; intros dn Hall Hr; [by rewrite Hall, app_nil_r|].
  apply Forall_cons in Hr as [Hc Hr]. cbn [foldM]. rewrite (put_face_step n all dn c f rest) by done. cbn [mbind py_bind].
  apply IH; [|done]. by rewrite Hall, <- app_assoc.
Qed.

Lemma concat_replicate_None {A} (l : list Z) (f : Z -> nat) :
  concat (map (fun c => replicate (f c) (@None A)) l) = replicate (length (concat (map (fun c => replicate (f c) tt) l))) None.
Proof.
  induction l as [|c l IH]; [done|]. cbn [map concat]. rewrite IH, length_app, !length_replicate. by rewrite replicate_add.
Qed.

Lemma groups_start n all : concat (groups n all []) = replicate (length (concat (map (faces_of all) (arange 1 (n + 1))))) None.
Proof.
  unfold groups. rewrite (map_tab_ext _ (fun c => replicate (length (faces_of all c)) None)).
  - rewrite concat_replicate_None. f_equal. induction (arange 1 (n + 1)) as [|c l IH]; [done|]. cbn [map concat]. by rewrite !length_app, length_replicate, IH.
  - intros i _. unfold group. cbn. by rewrite Nat.sub_0_r.
Qed.
Lemma groups_end n all : concat (groups n all all) = map Some (concat (map (faces_of all) (arange 1 (n + 1)))).
Proof.
  unfold groups. rewrite concat_map, map_map. f_equal. apply map_tab_ext. intros i _. unfold group. by rewrite Nat.sub_diag, app_nil_r.
Qed.

(** The cells of the columns and of the items. *)
Lemma columns_items pe : map fst (first_faces pe ++ second_faces pe) = columns pe.
Proof.
  unfold first_faces, second_faces, columns. rewrite map_app. change (@map) with (fun A B => @fmap list _ A B). cbn beta.
  rewrite !fst_zip; [done|..]; rewrite ?length_fmap, length_arange; unfold zlen; lia.
Qed.
Lemma occurrences_faces its c : occurrences (map fst its) c = zlen (faces_of its c).
Proof.
  unfold occurrences, faces_of, zlen. rewrite length_map. f_equal. induction its as [|[a b] its IH]; [done|].
  cbn [map]. rewrite !filter_cons. cbn [fst]. case_decide; cbn [length]; by rewrite IH.
Qed.
Lemma columns_bound pe : Forall (fun r => 0 <= r.1 /\ 0 <= r.2) pe -> Forall (fun x => 0 <= x <= n_cells pe) (columns pe) /\ 0 <= n_cells pe.
Proof.
  intros Hpe. unfold n_cells. split; [|apply foldl_max_le]. apply Forall_forall. intros x Hx. split.
  - unfold columns in Hx. rewrite Forall_forall in Hpe. apply elem_of_app in Hx as [Hx|Hx]; apply list_elem_of_fmap in Hx as (r & -> & Hr); by apply Hpe.
  - by apply foldl_max_ge.
Qed.

(** The kernel computes the faces of each cell: those of which it is the left parent, in order, then those of
    which it is the right parent, with a minus sign; it writes each value of its array. *)
Lemma local_pe_to_local_cellface_spec pe :
  Forall (fun r => 0 <= r.1 /\ 0 <= r.2) pe ->
  local_pe_to_local_cellface pe = Ret (NpUtils.offsets (cell_faces pe), concat (cell_faces pe)).
Proof.
  intros Hpe. destruct (columns_bound pe Hpe) as [Hcol Hn]. unfold local_pe_to_local_cellface. fold (n_cells pe). set (n := n_cells pe) in *.
  set (all := first_faces pe ++ second_faces pe).
  replace (n + 1) with (n + 1 - 0) at 1 by lia. rewrite replicate_tab, counts_tab by (eapply Forall_impl; [exact Hcol|cbn; lia]). cbn [mbind py_bind].
  assert (Htail : tail (map (fun c => 0 + occurrences (columns pe) c) (arange 0 (n + 1))) = zlen <$> cell_faces pe).
  { rewrite arange_cons by lia. cbn [map tail]. unfold cell_faces. fold n all. rewrite <- columns_items. fold all.
    change (@map) with (fun A B => @fmap list _ A B). cbn beta. rewrite <- list_fmap_compose. apply list_fmap_ext. intros k c _.
    unfold compose. by rewrite occurrences_faces, Z.add_0_l. }
  rewrite Htail. change (scan 0 (zlen <$> cell_faces pe)) with (NpUtils.offsets (cell_faces pe)).
  assert (Hlen : length (cell_faces pe) = Z.to_nat n) by (unfold cell_faces; rewrite length_map, length_arange; fold n; lia).
  assert (Htot : NpUtils.offsets (cell_faces pe) !! Z.to_nat n = Some (zlen (concat (cell_faces pe)))).
  { unfold NpUtils.offsets. rewrite scan_lookup by (rewrite length_fmap; lia). rewrite firstn_all2 by (rewrite length_fmap; lia). by rewrite NpUtils.zlen_concat. }
  rewrite (c_get_lookup (NpUtils.offsets (cell_faces pe)) n _ Hn Htot). cbn [mbind py_bind].
  replace (replicate (length (map _ (arange 0 (n + 1)))) 0) with (counts_of n []).
  2:{ unfold counts_of. rewrite length_map, length_arange, replicate_tab. apply map_tab_ext. intros i _. by case_bool_decide. }
  replace (replicate (Z.to_nat (zlen (concat (cell_faces pe)))) None) with (concat (groups n all []))
    by (rewrite groups_start; unfold zlen; by rewrite Nat2Z.id).
  change (NpUtils.offsets (cell_faces pe)) with (starts n all).
  assert (Hfill : foldM (put_face (starts n all)) (counts_of n [], concat (groups n all [])) all = Ret (counts_of n all, concat (groups n all all))).
  { apply fill_faces; [done|]. apply Forall_forall. intros it Hit. apply (proj1 (Forall_forall _ _) Hcol). rewrite <- columns_items. apply list_elem_of_fmap. eauto. }
  unfold all in Hfill at 3. rewrite foldM_app in Hfill.
  destruct (foldM _ _ (first_faces pe)) as [s|]; [|done]. cbn [mbind py_bind] in Hfill |- *. rewrite Hfill. cbn [mbind py_bind snd].
  rewrite groups_end. change (map (faces_of all) (arange 1 (n + 1))) with (cell_faces pe).
  rewrite (py_mapM_lookup _ _ (concat (cell_faces pe))); [done|by rewrite length_map|].
  intros i x y Hx Hy. apply list_lookup_fmap_Some in Hx as (z & -> & Hz). rewrite Hz in Hy. by injection Hy as ->.
Qed.

(** ** The parents from the faces of the cells *)

Definition position (n_face f : Z) : Z := if bool_decide (0 < f) then Z.abs f - 1 else Z.abs f - 1 + n_face.
Fixpoint writes (n_face c : Z) (ls : list (list Z)) : list (Z * Z) :=
  match ls with [] => [] | l :: ls' => map (fun f => (position n_face f, c)) l ++ writes n_face (c + 1) ls' end.
Definition write (a : list Z) (w : Z * Z) : py (list Z) := c_set a w.1 w.2.

Lemma foldM_reads {S} (g : S -> Z -> py S) (l post : list Z) : forall pre s,
  foldM (fun s j => x ← c_get (pre ++ l ++ post) j; g s x) s (arange (zlen pre) (zlen pre + zlen l)) = foldM g s l.
Proof.
  induction l as [|x l IH]; intros pre s; [by rewrite arange_nil by (unfold zlen; cbn; lia)|].
  rewrite arange_cons by (unfold zlen; cbn; lia). cbn [foldM].
  rewrite (c_get_lookup _ (zlen pre) x); [|apply zlen_nonneg|]. 2:{ unfold zlen. rewrite Nat2Z.id. by rewrite lookup_app_r, Nat.sub_diag by lia. }
  cbn [mbind py_bind]. destruct (g s x) as [s'|]; [|done]. cbn [mbind py_bind]. rewrite <- (IH (pre ++ [x])).
  rewrite <- app_assoc. cbn [app]. f_equal. unfold zlen. rewrite length_app. cbn [length]. f_equal; lia.
Qed.

Lemma foldM_put_parent n_face icell l a : foldM (put_parent n_face icell) a l = foldM write a (map (fun f => (position n_face f, icell + 1)) l).
Proof.
  revert a. induction l as [|f l IH]; intros a; [done|]. cbn [map foldM].
  replace (put_parent n_face icell a f) with (write a (position n_face f, icell + 1)) by (unfold put_parent, write, position; by case_bool_decide).
  destruct (write _ _); [apply IH|done].
Qed.

Lemma put_cell_at n_face ls1 l ls2 a : let ls := ls1 ++ l :: ls2 in
  put_cell (NpUtils.offsets ls) (concat ls) n_face a (zlen ls1) = foldM write a (map (fun f => (position n_face f, zlen ls1 + 1)) l).
Proof.
  intros ls. unfold put_cell.
  assert (Hl : ls !! length ls1 = Some l) by (unfold ls; by rewrite lookup_app_r, Nat.sub_diag by lia).
  assert (Hlt : (length ls1 < length ls)%nat) by (unfold ls; rewrite length_app; cbn; lia).
  assert (Htk : take (length ls1) ls = ls1) by (unfold ls; by rewrite take_app_length).
  assert (Htk' : take (S (length ls1)) ls = ls1 ++ [l]) by (by rewrite (take_S_r _ _ _ Hl), Htk).
  rewrite (c_get_lookup _ (zlen ls1) (zlen (concat ls1))); [|apply zlen_nonneg|].
  2:{ unfold zlen at 1. rewrite Nat2Z.id. unfold NpUtils.offsets. rewrite scan_lookup by (rewrite length_fmap; lia). f_equal. rewrite <- fmap_take, Htk, Z.add_0_l. by rewrite <- NpUtils.zlen_concat. }
  cbn [mbind py_bind]. rewrite (c_get_lookup _ (zlen ls1 + 1) (zlen (concat ls1) + zlen l)); [|pose proof (zlen_nonneg ls1); lia|].
  2:{ replace (Z.to_nat (zlen ls1 + 1)) with (S (length ls1)) by (unfold zlen; lia). unfold NpUtils.offsets. rewrite scan_lookup by (rewrite length_fmap; lia). f_equal.
      rewrite <- fmap_take, Htk', Z.add_0_l, <- NpUtils.zlen_concat, concat_app, zlen_app. cbn [concat]. by rewrite app_nil_r. }
  cbn [mbind py_bind]. assert (Hc : concat ls = concat ls1 ++ l ++ concat ls2) by (unfold ls; rewrite concat_app; done).
  rewrite Hc, foldM_reads. apply foldM_put_parent.
Qed.

Lemma foldM_cells n_face ls ls2 : forall ls1 a, ls = ls1 ++ ls2 ->
  foldM (put_cell (NpUtils.offsets ls) (concat ls) n_face) a (arange (zlen ls1) (zlen ls)) = foldM write a (writes n_face (zlen ls1 + 1) ls2).
Proof.
  induction ls2 as [|l ls2 IH]; intros ls1 a Hls.
  { rewrite arange_nil; [done|]. rewrite Hls, app_nil_r. lia. }
  rewrite arange_cons by (rewrite Hls, zlen_app; unfold zlen; cbn; lia). cbn [foldM writes]. rewrite foldM_app.
  rewrite Hls at 1 2. rewrite put_cell_at. destruct (foldM write a _) as [a'|]; [|done]. cbn [mbind py_bind].
  replace (zlen ls1 + 1) with (zlen (ls1 ++ [l])) by (rewrite zlen_app; done). apply IH. by rewrite Hls, <- app_assoc.
Qed.

(** Writes that agree with an array and give all its values. *)
Lemma writes_give (flat : list Z) W : forall a,
  length a = length flat -> (forall p v, (p, v) ∈ W -> 0 <= p /\ flat !! Z.to_nat p = Some v) ->
  (forall i x, flat !! i = Some x -> a !! i = Some x \/ exists v, (Z.of_nat i, v) ∈ W) -> foldM write a W = Ret flat.
Proof.
  induction W as [|[p v] W IH]; intros a Hl HW Ha.
  - cbn. f_equal. apply list_eq. intros i. destruct (flat !! i) as [x|] eqn:Hx.
    + destruct (Ha i x Hx) as [?|[? []%not_elem_of_nil]]. done.
    + apply lookup_ge_None_1 in Hx. apply lookup_ge_None_2. lia.
  - cbn [foldM]. change (write a (p, v)) with (c_set a p v). destruct (HW p v) as [Hp Hv]; [left|].
    rewrite c_set_in by (unfold zlen; apply lookup_lt_Some in Hv; lia). cbn [mbind py_bind].
    apply IH; [by rewrite length_insert|intros p' v' H'; apply HW; by right|].
    intros i x Hx. destruct (decide (i = Z.to_nat p)) as [->|Hi].
    + left. rewrite list_lookup_insert_eq by (apply lookup_lt_Some in Hv; lia). congruence.
    + destruct (Ha i x Hx) as [?|[v' [?|?]%elem_of_cons]]; [left; by rewrite list_lookup_insert_ne|simplify_eq; lia|right; eauto].
Qed.

Lemma elem_of_writes n_face ls : forall c p v,
  (p, v) ∈ writes n_face c ls <-> exists k l f, ls !! k = Some l /\ f ∈ l /\ p = position n_face f /\ v = c + Z.of_nat k.
Proof.
  induction ls as [|l ls IH]; intros c p v; cbn [writes].
  { split; [intros []%not_elem_of_nil|]. by intros (k & l & f & Hk & _). }
  rewrite elem_of_app, IH. split.
  - intros [H|(k & l' & f & Hk & Hf & Hp & Hv)].
    + apply list_elem_of_fmap in H as (f & [= -> ->] & Hf). exists 0%nat, l, f. split_and!; [done|done|done|lia].
    + exists (S k), l', f. split_and!; [done|done|done|lia].
  - intros ([|k] & l' & f & Hk & Hf & Hp & Hv).
    + injection Hk as ->. left. apply list_elem_of_fmap. exists f. split; [f_equal; lia|done].
    + right. exists k, l', f. split_and!; [done|done|done|lia].
Qed.

(** ** Round trip *)

Lemma elem_of_items pe c f :
  (c, f) ∈ first_faces pe ++ second_faces pe <->
  exists i r, pe !! i = Some r /\ ((c = r.1 /\ f = Z.of_nat i + 1) \/ (c = r.2 /\ f = - (Z.of_nat i + 1))).
Proof.
  assert (Ha : forall i, (i < length pe)%nat -> arange 1 (zlen pe + 1) !! i = Some (Z.of_nat i + 1)).
  { intros i Hi. rewrite lookup_arange by (unfold zlen; lia). f_equal. lia. }
  rewrite elem_of_app. unfold first_faces, second_faces. change (@map) with (fun A B => @fmap list _ A B). cbn beta. split.
  - intros [H|H]; apply list_elem_of_lookup_1 in H as [i Hi]; apply lookup_zip_with_Some in Hi as (a & b & [= -> ->] & H1 & H2);
      rewrite list_lookup_fmap in H1; destruct (pe !! i) as [r|] eqn:Hr; try done; injection H1 as <-; pose proof (lookup_lt_Some _ _ _ Hr) as Hlt; exists i, r; (split; [done|]).
    + left. rewrite (Ha _ Hlt) in H2. by injection H2 as <-.
    + right. rewrite list_lookup_fmap, (Ha _ Hlt) in H2. by injection H2 as <-.
  - intros (i & r & Hr & H). pose proof (lookup_lt_Some _ _ _ Hr) as Hlt. destruct H as [[-> ->]|[-> ->]]; [left|right]; apply (list_elem_of_lookup_2 _ i), lookup_zip_with_Some.
    + exists r.1, (Z.of_nat i + 1). rewrite list_lookup_fmap, Hr. split_and!; [done|done|by apply Ha].
    + exists r.2, (- (Z.of_nat i + 1)). rewrite !list_lookup_fmap, Hr, (Ha _ Hlt). done.
Qed.

Lemma elem_of_faces_of its c f : f ∈ faces_of its c <-> (c, f) ∈ its.
Proof.
  unfold faces_of. change (@map) with (fun A B => @fmap list _ A B). cbn beta. rewrite list_elem_of_fmap. split.
  - intros ([c' f'] & -> & H%list_elem_of_filter). cbn in H. destruct H as [-> H]. done.
  - intros H. exists (c, f). split; [done|]. by apply list_elem_of_filter.
Qed.

Lemma lookup_columns pe i r : pe !! i = Some r -> columns pe !! i = Some r.1 /\ columns pe !! (length pe + i)%nat = Some r.2.
Proof.
  intros Hr. unfold columns. change (@map) with (fun A B => @fmap list _ A B). cbn beta. pose proof (lookup_lt_Some _ _ _ Hr). split.
  - rewrite lookup_app_l by (rewrite length_fmap; lia). by rewrite list_lookup_fmap, Hr.
  - rewrite lookup_app_r by (rewrite length_fmap; lia). rewrite length_fmap, list_lookup_fmap. by replace (length pe + i - length pe)%nat with i by lia; rewrite Hr.
Qed.

Lemma columns_lookup pe j x : columns pe !! j = Some x ->
  exists i r, pe !! i = Some r /\ ((j = i /\ x = r.1) \/ (j = (length pe + i)%nat /\ x = r.2)).
Proof.
  intros H. unfold columns in H. change (@map) with (fun A B => @fmap list _ A B) in H. cbn beta in H.
  apply lookup_app_Some in H as [H|[Hj H]]; rewrite list_lookup_fmap in H.
  - destruct (pe !! j) as [r|] eqn:Hr; [|done]. injection H as <-. exists j, r. split; [done|]. by left.
  - rewrite length_fmap in H, Hj. destruct (pe !! (j - length pe)%nat) as [r|] eqn:Hr; [|done]. injection H as <-. exists (j - length pe)%nat, r. split; [done|].
    right. split; [lia|done].
Qed.

Lemma zip_columns (pe : list (Z * Z)) : zip (map fst pe) (map snd pe) = pe.
Proof. induction pe as [|[a b] pe IH]; [done|]. cbn. by rewrite IH. Qed.

Lemma max_abs l m : foldl (fun m x => Z.max m (Z.abs x)) m l = foldl Z.max m (map Z.abs l).
Proof. revert m. induction l as [|x l IH]; intros m; [done|]. cbn. apply IH. Qed.

(** The greatest face is the last one, when it has a parent. *)
Lemma n_face_spec pe r :
  Forall (fun r => 0 <= r.1 /\ 0 <= r.2) pe -> last pe = Some r -> 0 < r.1 \/ 0 < r.2 ->
  foldl (fun m x => Z.max m (Z.abs x)) 0 (concat (cell_faces pe)) = zlen pe.
Proof.
  intros Hpe Hlast Hr. rewrite max_abs. apply Z.le_antisymm.
  - apply Z.lt_succ_r, foldl_max_lt_iff. split; [pose proof (zlen_nonneg pe); lia|]. apply Forall_fmap, Forall_forall. intros f Hf. cbn.
    apply elem_of_concat in Hf as (l & Hl & Hf). unfold cell_faces in Hl. apply list_elem_of_fmap in Hl as (c & -> & _).
    apply elem_of_faces_of, elem_of_items in Hf as (i & r' & Hi & H). apply lookup_lt_Some in Hi. unfold zlen. lia.
  - rewrite last_lookup in Hlast. pose proof (lookup_lt_Some _ _ _ Hlast) as Hlt.
    assert (Hf : exists c f, 0 < c /\ (c, f) ∈ first_faces pe ++ second_faces pe /\ Z.abs f = zlen pe).
    { destruct Hr as [Hr|Hr]; [exists r.1, (zlen pe)|exists r.2, (- zlen pe)]; (split; [done|]);
        (split; [apply elem_of_items; exists (Nat.pred (length pe)), r; (split; [done|])|unfold zlen; lia]); [left|right]; (split; [done|unfold zlen; lia]). }
    destruct Hf as (c & f & Hc & Hf & <-). apply foldl_max_ge, list_elem_of_fmap. exists f. split; [done|].
    apply elem_of_concat. exists (faces_of (first_faces pe ++ second_faces pe) c). split; [|by apply elem_of_faces_of].
    apply list_elem_of_fmap. exists c. split; [done|]. apply elem_of_arange. destruct (columns_bound pe Hpe) as [Hb _].
    rewrite Forall_forall in Hb. specialize (Hb c). rewrite <- columns_items in Hb. destruct Hb as [_ Hb]; [|lia]. apply list_elem_of_fmap. by exists (c, f).
Qed.

Lemma local_roundtrip pe r :
  Forall (fun r => 0 <= r.1 /\ 0 <= r.2) pe -> last pe = Some r -> 0 < r.1 \/ 0 < r.2 ->
  local_cellface_to_local_pe (NpUtils.offsets (cell_faces pe)) (concat (cell_faces pe)) = Ret pe.
Proof.
  intros Hpe Hlast Hr. unfold local_cellface_to_local_pe. rewrite (n_face_spec pe r) by done.
  replace (zlen (NpUtils.offsets (cell_faces pe)) - 1) with (zlen (cell_faces pe)) by (unfold zlen, NpUtils.offsets; rewrite length_scan, length_fmap; lia).
  pose proof (foldM_cells (zlen pe) (cell_faces pe) (cell_faces pe) [] (replicate (Z.to_nat (2 * zlen pe)) 0) eq_refl) as E.
  change (zlen (@nil (list Z))) with 0 in E. rewrite E. clear E. rewrite (writes_give (columns pe)).
  - cbn [mbind py_bind]. f_equal. unfold columns, zlen. rewrite Nat2Z.id, <- (length_map fst pe), take_app_length, drop_app_length.
    apply zip_columns.
  - rewrite length_replicate. unfold columns, zlen. rewrite length_app, !length_map. lia.
  - intros p v H. apply elem_of_writes in H as (k & l & f & Hk & Hf & -> & ->). unfold cell_faces in Hk.
    apply list_lookup_fmap_Some in Hk as (c & -> & Hc). apply lookup_seqZ in Hc as [-> _].
    apply elem_of_faces_of, elem_of_items in Hf as (i & r' & Hi & H). destruct (lookup_columns _ _ _ Hi) as [H1 H2]. unfold position.
    destruct H as [[Hv ->]|[Hv ->]].
    + rewrite bool_decide_eq_true_2 by lia. split; [lia|]. replace (Z.to_nat (Z.abs (Z.of_nat i + 1) - 1)) with i by lia. rewrite H1. f_equal. lia.
    + rewrite bool_decide_eq_false_2 by lia. split; [unfold zlen; lia|].
      replace (Z.to_nat (Z.abs (- (Z.of_nat i + 1)) - 1 + zlen pe)) with (length pe + i)%nat by (unfold zlen; lia). rewrite H2. f_equal. lia.
  - intros j x Hx. destruct (decide (x = 0)) as [->|Hne].
    { left. apply lookup_replicate_2. apply lookup_lt_Some in Hx. unfold columns in Hx. rewrite length_app, !length_map in Hx. unfold zlen. lia. }
    right. exists x. apply elem_of_writes. destruct (columns_bound pe Hpe) as [Hb _].
    pose proof (proj1 (Forall_lookup _ _) Hb j x Hx) as Hx'. cbn in Hx'.
    exists (Z.to_nat (x - 1)), (faces_of (first_faces pe ++ second_faces pe) x).
    assert (Hk : cell_faces pe !! Z.to_nat (x - 1) = Some (faces_of (first_faces pe ++ second_faces pe) x)) by (unfold cell_faces; apply lookup_tab; lia).
    destruct (columns_lookup _ _ _ Hx) as (i & r' & Hi & [[-> ->]|[-> ->]]).
    + exists (Z.of_nat i + 1). split; [done|]. split; [apply elem_of_faces_of, elem_of_items; exists i, r'; split; [done|by left]|].
      unfold position. rewrite bool_decide_eq_true_2 by lia. split; lia.
    + exists (- (Z.of_nat i + 1)). split; [done|]. split; [apply elem_of_faces_of, elem_of_items; exists i, r'; split; [done|by right]|].
      unfold position. rewrite bool_decide_eq_false_2 by lia. unfold zlen. split; lia.
Qed.

(** ** Global numbers of the cells *)

(** The faces are numbered from 1 to [zlen pe] and the cells from [lo]: after the faces, or from 1 when there
    are no more cells than faces. *)
Record numbered (pe : list (Z * Z)) (lo : Z) : Prop := Numbered {
  num_cells : Forall (fun r => (r.1 = 0 \/ lo <= r.1) /\ (r.2 = 0 \/ lo <= r.2)) pe;
  num_first : lo ∈ columns pe;
  num_lo : lo = zlen pe + 1 \/ lo = 1 /\ Forall (fun x => x <= zlen pe) (columns pe);
  num_second : exists r, pe !! 1%nat = Some r /\ (r.1 <> 0 \/ r.2 <> 0);
  num_last : exists r, last pe = Some r /\ (r.1 <> 0 \/ r.2 <> 0)
}.

Lemma py_min_spec m l : m ∈ l -> Forall (fun x => m <= x) l -> py_min l = Ret m.
Proof.
  intros Hm Hl. destruct l as [|x l]; [by apply not_elem_of_nil in Hm|]. cbn. f_equal. revert x Hm Hl.
  induction l as [|y l IH]; intros x Hm Hl; cbn.
  - apply list_elem_of_singleton in Hm. done.
  - apply Forall_cons in Hl as [Hx [Hy Hl]%Forall_cons]. apply IH; [|constructor; [lia|done]].
    apply elem_of_cons in Hm as [->|Hm]; [rewrite Z.min_l by lia; left|]. apply elem_of_cons in Hm as [->|Hm]; [|by right]. rewrite Z.min_r by lia. left.
Qed.

Definition to_local (lo x : Z) : Z := if bool_decide (0 < x) then x - (lo - 1) else x.
Lemma pe_local_spec pe lo :
  numbered pe lo -> get_ngon_pe_local (1, zlen pe) pe = Ret (map (fun r => (to_local lo r.1, to_local lo r.2)) pe).
Proof.
  intros [Hc _ Hlo (r & Hr & Hr0) _]. unfold get_ngon_pe_local, pe_is_shifted, unshift.
  rewrite bool_decide_eq_false_2 by (apply lookup_lt_Some in Hr; unfold zlen; lia). rewrite Hr. cbn [of_option mbind py_bind snd].
  pose proof (proj1 (Forall_lookup _ _) Hc 1%nat r Hr) as Hrow. cbn in Hrow. pose proof (lookup_lt_Some _ _ _ Hr) as Hlt.
  destruct Hlo as [-> | [-> Hle]].
  - rewrite bool_decide_eq_true_2 by (unfold zlen in *; lia). f_equal. apply map_ext. intros [a b]. cbn [fst snd]. unfold to_local.
    by f_equal; case_bool_decide; lia.
  - destruct (lookup_columns _ _ _ Hr) as [H1 H2]. pose proof (proj1 (Forall_lookup _ _) Hle _ _ H1). pose proof (proj1 (Forall_lookup _ _) Hle _ _ H2). cbn in *.
    rewrite bool_decide_eq_false_2 by lia. f_equal. rewrite <- (map_id pe) at 1. apply map_ext. intros [a b]. cbn [fst snd]. unfold to_local.
    by f_equal; case_bool_decide; lia.
Qed.

Lemma columns_map (f : Z -> Z) pe : columns (map (fun r => (f r.1, f r.2)) pe) = map f (columns pe).
Proof. unfold columns. by rewrite map_app, !map_map. Qed.

Lemma numbered_rows pe lo : numbered pe lo -> 1 <= lo /\ forall r, r ∈ pe -> (r.1 = 0 \/ lo <= r.1) /\ (r.2 = 0 \/ lo <= r.2).
Proof.
  intros [Hc _ Hlo _ _]. split; [pose proof (zlen_nonneg pe); lia|]. intros r' H. by apply (proj1 (Forall_forall _ _) Hc).
Qed.
Definition local_rows (lo : Z) (pe : list (Z * Z)) : list (Z * Z) := map (fun r => (to_local lo r.1, to_local lo r.2)) pe.
Lemma local_rows_nonneg pe lo : numbered pe lo -> Forall (fun r => 0 <= r.1 /\ 0 <= r.2) (local_rows lo pe).
Proof.
  intros Hn. destruct (numbered_rows _ _ Hn) as [H1 Hrows]. apply Forall_fmap, Forall_forall. intros r' H%Hrows. cbn. unfold to_local. repeat case_bool_decide; lia.
Qed.
(** The NFace node of numbered cells. *)
Lemma pe_to_nface_spec pe lo hi : numbered pe lo -> py_max (columns pe) = Ret hi ->
  pe_to_nface (1, zlen pe) pe = Ret ((lo, hi), NpUtils.offsets (cell_faces (local_rows lo pe)), concat (cell_faces (local_rows lo pe))).
Proof.
  intros Hn Ehi. destruct (numbered_rows _ _ Hn) as [H1 Hrows]. unfold pe_to_nface. rewrite Ehi. cbn [mbind py_bind]. rewrite (py_min_spec lo).
  - cbn [mbind py_bind]. rewrite (pe_local_spec pe lo Hn). cbn [mbind py_bind]. fold (local_rows lo pe). by rewrite local_pe_to_local_cellface_spec by by apply local_rows_nonneg.
  - apply list_elem_of_filter. split; [lia|by apply num_first].
  - apply Forall_forall. intros x [Hx H]%list_elem_of_filter. apply list_elem_of_lookup_1 in H as [j Hj].
    apply columns_lookup in Hj as (i & r' & Hi & H). apply list_elem_of_lookup_2, Hrows in Hi. lia.
Qed.

(** C15: [pe_to_nface] and [nface_to_pe] are inverse of each other on a zone whose NGon node is first: the NFace
    node has the range of the cells and, for each cell, the faces of which it is the left parent and those of
    which it is the right parent, with a minus sign; the ParentElements that are rebuilt from it are the same. *)
Theorem pe_nface_roundtrip pe lo :
  numbered pe lo ->
  exists hi local_pe, local_pe = map (fun r => (to_local lo r.1, to_local lo r.2)) pe /\
    pe_to_nface (1, zlen pe) pe = Ret ((lo, hi), NpUtils.offsets (cell_faces local_pe), concat (cell_faces local_pe)) /\
    nface_to_pe (1, zlen pe) (lo, hi) (NpUtils.offsets (cell_faces local_pe)) (concat (cell_faces local_pe)) = Ret pe.
Proof.
  intros Hn. pose proof Hn as [_ Hfirst _ _ (r & Hr & Hr0)]. destruct (numbered_rows _ _ Hn) as [H1 Hrows].
  destruct (py_max (columns pe)) as [hi|] eqn:Ehi; [|by destruct (columns pe); [apply not_elem_of_nil in Hfirst|]].
  exists hi. eexists. split; [done|]. fold (local_rows lo pe). split; [by apply pe_to_nface_spec|].
  assert (Hlast : last (local_rows lo pe) = Some (to_local lo r.1, to_local lo r.2)) by (unfold local_rows; change (@map) with (fun A B => @fmap list _ A B); cbn beta; by rewrite fmap_last, Hr).
  assert (Hpar : 0 < to_local lo r.1 \/ 0 < to_local lo r.2).
  { assert (H : r ∈ pe) by (rewrite last_lookup in Hr; by eapply list_elem_of_lookup_2). apply Hrows in H. unfold to_local. repeat case_bool_decide; lia. }
  unfold nface_to_pe. cbn [fst snd]. rewrite bool_decide_eq_true_2 by done. rewrite (local_roundtrip _ _ (local_rows_nonneg _ _ Hn) Hlast Hpar). cbn [mbind py_bind]. f_equal.
  transitivity (zip (map fst pe) (map snd pe)); [|apply zip_columns]. unfold local_rows, NpUtils.shift_nonzeros. rewrite !map_map. change (@map) with (fun A B => @fmap list _ A B). cbn beta.
  f_equal; apply list_fmap_ext; intros i r' Hi; apply list_elem_of_lookup_2, Hrows in Hi; unfold to_local; cbn [fst snd]; repeat case_bool_decide; lia.
Qed.

Lemma pe_nface_roundtrip_witness :
  exists hi, pe_to_nface (1, 4) [(5, 0); (5, 6); (6, 0); (0, 6)] = Ret ((5, hi), [0; 2; 5], [1; 2; 3; -2; -4]) /\
    nface_to_pe (1, 4) (5, hi) [0; 2; 5] [1; 2; 3; -2; -4] = Ret [(5, 0); (5, 6); (6, 0); (0, 6)].
Proof.
  destruct (pe_nface_roundtrip [(5, 0); (5, 6); (6, 0); (0, 6)] 5) as (hi & loc & -> & H1 & H2); [|exists hi; split; [exact H1|exact H2]].
  split.
  - repeat constructor; cbn; lia.
  - left.
  - by left.
  - exists (5, 6). split; [done|]. left. discriminate.
  - exists (0, 6). split; [done|]. right. discriminate.
Defined.

(** The faces of the NFace node are not in the numbering of the NGon node when it does not start at 1, and
    [nface_to_pe] does not read them back: here the two cells are numbered before the faces, which are 3 to 6. *)
Theorem pe_to_nface_unshifted :
  let pe := [(1, 0); (1, 2); (2, 0); (0, 2)] in
  pe_to_nface (3, 6) pe = Ret ((1, 2), [0; 2; 5], [1; 2; 3; -2; -4]) /\
  nface_to_pe (3, 6) (1, 2) [0; 2; 5] [3; 4; 5; -4; -6] = Ret pe /\
  nface_to_pe (3, 6) (1, 2) [0; 2; 5] [1; 2; 3; -2; -4] <> Ret pe.
Proof. cbv zeta. split; [vm_compute; reflexivity|]. split; [vm_compute; reflexivity|]. vm_compute. discriminate. Qed.

(** [get_ngon_pe_local] reads the second row: it raises IndexError for a single face. *)
Lemma single_face_index_error range row : get_ngon_pe_local range [row] = Raise IndexError.
Proof. done. Qed.
End NGonTools.
