(* ===== verification/MaiaNodes.v ===== *)
(** * Distribution nodes: [maia/pytree/maia/maia_nodes.py] and [maia/io/distribution_tree.py]

    The nodes that describe how arrays are shared between the ranks, how they are added to a tree and removed
    from it.  As in Tree, a function that mutates a node is a state transformer; a loop on nodes found in a tree
    applies its body to them in place, in the order of the search, which the body does not change since it only
    edits the nodes that are found. *)
From S2P Require Import Prelude PyUtils NpUtils Values Conventions Fnmatch Tree Parsers Walkers Search Distribution Sids Refs Presets.

Local Open Scope Z_scope.

Module MaiaNodes.
Import Values Conventions Tree Walkers Search Distribution Sids Refs Presets.

(** ** Loops *)

Fixpoint on_list (p : node -> bool) (f : st ()) (l : list node) : list node * py () :=
  match l with
  | [] => ([], Ret ())
  | c :: l' =>
      match (if p c then f c else (c, Ret ())) with
      | (c', Ret ()) => let '(l'', r) := on_list p f l' in (c' :: l'', r)
      | (c', Raise e) => (c' :: l', Raise e)
      end
  end.
Definition in_children (f : list node -> list node * py ()) : st () := fun n =>
  let '(Node name v cs label) := n in let '(cs', r) := f cs in (Node name v cs' label, r).
(** [for node in iter_children_from_predicate(n, p)] *)
Definition on_children (p : node -> bool) (f : st ()) : st () := in_children (on_list p f).
(** The same loop under each child that satisfies the first predicates of a list. *)
Fixpoint on_chain (ps : list (node -> bool)) (f : st ()) : st () :=
  match ps with [] => f | p :: ps' => on_children p (on_chain ps' f) end.
(** [for node in iter_nodes_from_predicate(n, p)], which does not look under the nodes that are found. *)
Fixpoint on_nodes (p : node -> bool) (f : st ()) (n : node) : node * py () :=
  let '(Node name v cs label) := n in
  let '(cs', r) :=
    (fix go (l : list node) : list node * py () :=
       match l with
       | [] => ([], Ret ())
       | c :: l' =>
           match (if p c then f c else on_nodes p f c) with
           | (c', Ret ()) => let '(l'', r) := go l' in (c' :: l'', r)
           | (c', Raise e) => (c' :: l', Raise e)
           end
       end) cs in
  (Node name v cs' label, r).
(** The same loop under each node that satisfies the first predicates of a list. *)
Fixpoint on_nodes_chain (ps : list (node -> bool)) (f : st ()) : st () :=
  match ps with [] => f | p :: ps' => on_nodes p (on_nodes_chain ps' f) end.
(** On the first child that satisfies a predicate, when there is one. *)
Definition on_first {A} (p : node -> bool) (f : st A) : st A := fun n =>
  match find_child p (get_children n) with
  | None => (n, Raise TypeError)
  | Some i =>
      match get_children n !! i with
      | None => (n, Raise TypeError)
      | Some c => let '(c', r) := f c in let '(Node name v cs label) := n in (Node name v (<[i := c']> cs) label, r)
      end
  end.

Definition with_label (label : string) (n : node) : bool := match_label n (StrLabel label).
Definition label_in (labels : list string) (n : node) : bool := bool_decide (get_label n ∈ labels).

(** [for zone in iter_all_Zone_t(tree)] *)
Definition on_zones (f : st ()) : st () := fun tree =>
  if bool_decide (get_label tree = "CGNSBase_t") then on_children (with_label "Zone_t") f tree
  else if bool_decide (get_label tree = "CGNSTree_t") then on_chain [with_label "CGNSBase_t"; with_label "Zone_t"] f tree
  else (tree, Ret ()).

Section nodes.
Context `{ArrayEqual} (to_float32 : Z -> Z) (astype : cgns_type -> cgns_type -> Z -> Z).

(** ** Distribution and numbering nodes *)

Definition distri_name : string := ":CGNS#Distribution".
Definition numbering_name : string := ":CGNS#GlobalNumbering".

(** [N.update_child] with a label and a value *)
Definition update (name label : string) (v : option pyval) : st () := fun n =>
  match update_child to_float32 n name (Some label) v None with
  | (n', Ret _) => (n', Ret ())
  | (n', Raise e) => (n', Raise e)
  end.
Fixpoint update_all (l : list (string * pyval)) : st () :=
  match l with [] => mret () | (name, v) :: l' => _ ← update name "DataArray_t" (Some v); update_all l' end.

(** [newDistribution] and [newGlobalNumbering] with a parent: the node is updated, then filled in its place. *)
Definition new_container (container : string) (arrays : list (string * pyval)) : st () :=
  _ ← update container "UserDefinedData_t" None;
  on_first (fun c => match_name c container) (update_all arrays).
Definition newDistribution (distributions : list (string * pyval)) : st () := new_container distri_name distributions.
Definition newGlobalNumbering (glob_numberings : list (string * pyval)) : st () := new_container numbering_name glob_numberings.
(** Without a parent. *)
Definition container_alone (container : string) (arrays : list (string * pyval)) : py node :=
  n ← (new_node to_float32 container "UserDefinedData_t" PNone [] None).2;
  let '(n', r) := update_all arrays n in _ ← r; Ret n'.

Definition get_container (container : string) (n : node) (name : option string) : py (option node) :=
  match name with
  | Some name =>
      if bool_decide (name <> "") then Ret (get_node_from_path n (py_join slash [container; name]))
      else get_child_from_name n container no_kw
  | None => get_child_from_name n container no_kw
  end.
Definition getDistribution : node -> option string -> py (option node) := get_container distri_name.
Definition getGlobalNumbering : node -> option string -> py (option node) := get_container numbering_name.

(** ** Policies *)

(** The distribution of a number of elements for the rank, as an array. *)
Context (d : dtype) (rank size : Z).
Definition gnum_type : cgns_type := match d with Prelude.I4 => T_I4 | Prelude.I8 => T_I8 end.
Definition gnum_array (l : list Z) : pyval := PArray (NpArray gnum_type [zlen l] true l).
Definition partial_array (p : partial) : pyval := gnum_array [p_start p; p_end p; p_total p].

Definition interpret_policy (policy : string) : py (Z -> py partial) :=
  let policy := if bool_decide (policy = "gather") then "gather.0" else policy in
  let policy_split := py_split Conventions.dot policy in
  _ ← py_assert (bool_decide (zlen policy_split ∈ [1; 2]));
  policy_type ← py_get policy_split 0;
  if bool_decide (policy_type = "uniform") then Ret (fun n_elt => uniform_distribution d n_elt rank size)
  else if bool_decide (policy_type = "gather") then
    _ ← py_assert (bool_decide (zlen policy_split = 2));
    s ← py_get policy_split 1;
    i_rank ← int_str s;
    _ ← py_assert (bool_decide (i_rank < size));
    Ret (fun n_elt => Ret (gathering_distribution d i_rank n_elt rank))
  else Raise ValueError.

Section add.
Context (distri_func : Z -> py partial).

Definition distribute (name : string) (n_elt : Z) : st () :=
  p ← st_lift (distri_func n_elt); newDistribution [(name, partial_array p)].
Definition flag (b : bool) : st () := st_lift (py_assert b).

Definition compute_subset_distribution : st () :=
  pr_n ← reading (fun n => get_child_from_name n "PointRange" no_kw);
  pl_n ← reading (fun n => get_child_from_name n "PointList" no_kw);
  _ ← match pr_n with
      | Some pr => _ ← flag (is_none pl_n); pr_lenght ← st_lift (PointRange_n_elem pr); distribute "Index" pr_lenght
      | None => mret ()
      end;
  match pl_n with
  | Some _ =>
      _ ← flag (is_none pr_n);
      pls_n ← reading (fun n => get_child_from_name n "PointList#Size" no_kw);
      v ← st_lift (raw_of pls_n);
      pl_size ← st_lift (elem v 1);
      distribute "Index" pl_size
  | None => mret ()
  end.

Definition compute_connectivity_distribution : st () :=
  eso_n ← reading (fun n => get_child_from_name n "ElementStartOffset" no_kw);
  eso ← match eso_n with Some eso_n => mret (get_raw eso_n) | None => st_raise RuntimeError end;
  size_n ← reading (fun n => get_child_from_name n "ElementConnectivity#Size" no_kw);
  first ← st_lift (elem eso 0);
  last ← st_lift (elem eso (-1));
  total ← st_lift (v ← raw_of size_n; elem v 0);
  distri_n ← reading (fun n => getDistribution n None);
  t ← st_lift (n ← of_option TypeError distri_n;
               c ← get_child_from_name n "Element" no_kw; v ← raw_of c; a ← of_option AttributeError v; Ret (a_type a));
  on_first (fun c => match_name c distri_name)
    (under (new_DataArray to_float32 astype "ElementConnectivity" (PArray (NpArray t [3] true [first; last; total])) None)).

Definition compute_elements_distribution : st () :=
  on_children (with_label "Elements_t")
    (n_elt ← reading Element_Size;
     _ ← distribute "Element" n_elt;
     eso_n ← reading (fun n => get_child_from_name n "ElementStartOffset" no_kw);
     match eso_n with
     | Some eso_n => if is_none (get_raw eso_n) then mret () else compute_connectivity_distribution
     | None => mret ()
     end).

Definition bc_chain : list (node -> bool) := [with_label "ZoneBC_t"; with_label "BC_t"].
Definition gc_chain : list (node -> bool) := [with_label "ZoneGridConnectivity_t"; label_in ["GridConnectivity_t"; "GridConnectivity1to1_t"]].
Definition compute_zone_distribution : st () :=
  n_vtx ← reading Zone_n_vtx; vtx ← st_lift (distri_func n_vtx);
  n_cell ← reading Zone_n_cell; cell ← st_lift (distri_func n_cell);
  t ← reading Zone_Type;
  face ← (if is_text t "Structured" then
            cells ← reading Zone_CellSize;
            if bool_decide (match cells with PerIndex l => length l | Total _ => 1%nat end = 3%nat) then
              n_face ← reading Zone_n_face; p ← st_lift (distri_func n_face); mret [("Face", partial_array p)]
            else mret []
          else mret []);
  _ ← newDistribution ([("Vertex", partial_array vtx); ("Cell", partial_array cell)] ++ face);
  _ ← compute_elements_distribution;
  _ ← on_chain [label_in ["ZoneSubRegion_t"; "FlowSolution_t"; "DiscreteData_t"]] compute_subset_distribution;
  _ ← on_chain bc_chain compute_subset_distribution;
  _ ← on_chain (bc_chain ++ [with_label "BCDataSet_t"]) compute_subset_distribution;
  on_chain gc_chain compute_subset_distribution.
End add.

Definition add_distribution_info (distribution_policy : string) : st () :=
  distri_func ← st_lift (interpret_policy distribution_policy);
  on_zones (compute_zone_distribution distri_func).
End nodes.

(** ** Removal *)

Definition named_distri (n : node) : bool := match_name n distri_name.
Definition rm_distri : st () := fun n => (rm_children_from_predicate named_distri n, Ret ()).
Definition rm_distri_depth2 : st () := fun n =>
  match rm_nodes_from_predicate named_distri n (DInt 2) with Ret n' => (n', Ret ()) | Raise e => (n, Raise e) end.
Definition clean_distribution_info : st () :=
  on_zones
    (_ ← rm_distri;
     _ ← on_nodes (label_in ["Elements_t"; "ZoneSubRegion_t"; "FlowSolution_t"]) rm_distri;
     _ ← on_nodes_chain bc_chain rm_distri_depth2;
     on_nodes_chain gc_chain rm_distri).

(** ** Edits of a child *)

Definition vec (t : cgns_type) (l : list Z) : nparray := NpArray t [zlen l] true l.
Definition raw_at (n : node) (name : string) : option value := get_raw <$> child_named n name.

(** The data of a child, empty when there is none. *)
Definition data_at (n : node) (name : string) : list Z := match raw_at n name with Some (Some a) => a_data a | _ => [] end.
Lemma mapM_parts {A B} (f : A -> py B) (Q : A -> B -> Prop) l : (forall x, x ∈ l -> exists y, f x = Ret y /\ Q x y) -> exists ys, mapM f l = Ret ys /\ Forall2 Q l ys.
Proof.
  induction l as [|x l IH]; intros Hl; [by exists []|]. destruct (Hl x) as (y & Hy & HQ); [by left|]. destruct IH as (ys & Hys & Hf); [intros z Hz; apply Hl; by right|].
  exists (y :: ys). split; [|by constructor]. cbn. rewrite Hy. cbn. by rewrite Hys.
Qed.
Lemma concat_parts {A B C} (f : A -> list C) (g : B -> list C) l ys : Forall2 (fun x y => g y = f x) l ys -> concat (map g ys) = concat (map f l).
Proof. induction 1 as [|x y l ys Hxy _ IH]; [done|]. cbn. by rewrite Hxy, IH. Qed.
Lemma child_named_name n name c : child_named n name = Some c -> get_name c = name.
Proof.
  unfold child_named. intros Hc. destruct (filter (fun c => get_name c = name) (get_children n)) as [|x r] eqn:Ef; [done|]. injection Hc as ->.
  assert (Hin : c ∈ filter (fun c => get_name c = name) (get_children n)) by (rewrite Ef; by left). by apply list_elem_of_filter in Hin as [Hin _].
Qed.
(** One step of a sequence of edits. *)
Lemma st_step {A B} (m : st A) (f : A -> st B) n n' a : m n = (n', Ret a) -> (m ≫= f) n = f a n'.
Proof. intros E. unfold mbind, st_bind. by rewrite E. Qed.
Lemma st_read {A B} (m : node -> py A) (f : A -> st B) n a : m n = Ret a -> (reading m ≫= f) n = f a n.
Proof. intros E. unfold mbind, st_bind, reading. by rewrite E. Qed.
Lemma st_lifted {A B} (m : py A) (f : A -> st B) n a : m = Ret a -> (st_lift m ≫= f) n = f a n.
Proof. intros E. unfold mbind, st_bind, st_lift. by rewrite E. Qed.

Section child.
Context `{ArrayEqual}.
Lemma name_search n name : Fnmatch.plain name = true -> get_child_from_name n name no_kw = Ret (child_named n name).
Proof. intros Hp. apply (proj1 (child_search_spec n name (fun _ => true) Hp)). Qed.

(** An edit of the child of a name. *)
Lemma on_first_child {A} gc name c (f : st A) c' a : Fnmatch.plain name = true -> child_named gc name = Some c -> f c = (c', Ret a) -> get_name c' = name ->
  exists gc', on_first (fun c => match_name c name) f gc = (gc', Ret a) /\ child_named gc' name = Some c' /\
    (forall other, other <> name -> child_named gc' other = child_named gc other) /\
    get_name gc' = get_name gc /\ get_raw gc' = get_raw gc /\ get_label gc' = get_label gc.
Proof.
  intros Hp Hc Hf Hn. assert (Hfind : find_child (fun c => match_name c name) (get_children gc) = find_child (has_name name) (get_children gc)).
  { apply find_child_ext. intros d. unfold match_name, has_name. by rewrite Fnmatch.fnmatch_plain. }
  rewrite child_named_head, find_child_head in Hc. unfold on_first. rewrite Hfind. destruct (find_child (has_name name) (get_children gc)) as [i|] eqn:Ei; [|done]. cbn in Hc.
  rewrite Hc, Hf. destruct gc as [nm v cs l]. cbn [get_children] in *. eexists. split; [reflexivity|]. split; [|split; [|done]].
  - rewrite child_named_head. apply head_filter_insert; [done|]. by apply bool_decide_eq_true.
  - intros other Ho. rewrite !child_named_head. cbn [get_children]. f_equal. destruct (find_child_Some _ _ _ Ei) as (d & Hd & Hdn). assert (d = c) as -> by congruence. apply bool_decide_eq_true in Hdn.
    apply (filter_insert_other _ cs i c); [done|apply bool_decide_eq_false; congruence..].
Qed.
Lemma search_raw n name v : Fnmatch.plain name = true -> raw_at n name = Some v -> (c ← get_child_from_name n name no_kw; raw_of c) = Ret v.
Proof.
  intros Hp Hr. rewrite name_search by done. unfold raw_at in Hr. cbn [mbind py_bind]. destruct (child_named n name) as [c|]; [|done]. by injection Hr as <-.
Qed.
(** An edit of the value of a child. *)
Lemma edit_child_raw n name (f : st ()) v v' : Fnmatch.plain name = true -> raw_at n name = Some v ->
  (forall c, get_raw c = v -> f c = (Node (get_name c) v' (get_children c) (get_label c), Ret ())) ->
  exists n', on_first (fun c => match_name c name) f n = (n', Ret ()) /\ raw_at n' name = Some v' /\ (forall other, other <> name -> raw_at n' other = raw_at n other) /\
    get_name n' = get_name n /\ get_raw n' = get_raw n /\ get_label n' = get_label n.
Proof.
  intros Hp Hr Hf. unfold raw_at in Hr. destruct (child_named n name) as [c|] eqn:Hc; [|done]. injection Hr as Hr.
  destruct (on_first_child n name c f (Node (get_name c) v' (get_children c) (get_label c)) ()) as (n' & E & H1 & H2 & H3); [done|done|by apply Hf|exact (child_named_name n name c Hc)|].
  exists n'. split; [done|]. unfold raw_at. rewrite H1. split; [done|]. split; [|done]. intros other Ho. by rewrite H2.
Qed.
(** A vector added as a new child. *)
Lemma new_vector_spec to_float32 astype name t l m : is_valid_name name false = true -> name ∉ get_names (get_children m) ->
  under (new_DataArray to_float32 astype name (PArray (vec t l)) None) m =
  (Node (get_name m) (get_raw m) (get_children m ++ [Node name (Some (vec t l)) [] "DataArray_t"]) (get_label m), Ret ()).
Proof.
  intros Hv Hn. unfold under, new_DataArray, with_value, cast_value, vec. cbn [_convert_value mbind py_bind a_type a_shape a_data of_value]. unfold leaf, build. rewrite new_node_spec, Hv. change (negb true) with false.
  change (negb (is_valid_label "DataArray_t" false)) with false. cbn iota. cbn [_convert_value a_type a_shape a_data]. rewrite bool_decide_eq_true_2 by constructor. destruct m as [nm pv cs lb]. cbn [get_children get_name get_raw get_label] in *.
  cbn zeta. rewrite bool_decide_eq_false_2 by done. cbn [mret st_ret]. unfold set_last. cbn [fmap option_fmap option_map default]. by rewrite length_app, take_app_length' by (cbn; lia).
Qed.
End child.

(** ** Edits that only concern distribution nodes *)

(** A tree without its distribution nodes. *)
Definition strip (n : node) : node := prune named_distri n.
(** The node keeps its name, and what it is without its distribution nodes. *)
Definition silent {A} (f : st A) : Prop := forall n, get_name (f n).1 = get_name n /\ strip (f n).1 = strip n.

Lemma silent_ret {A} (a : A) : silent (mret a).
Proof. done. Qed.
Lemma silent_lift {A} (m : py A) : silent (st_lift m).
Proof. done. Qed.
Lemma silent_reading {A} (m : node -> py A) : silent (reading m).
Proof. done. Qed.
Lemma silent_raise {A} (e : exn) : silent (@st_raise A e).
Proof. done. Qed.
Lemma silent_bind {A B} (m : st A) (f : A -> st B) : silent m -> (forall a, silent (f a)) -> silent (m ≫= f).
Proof.
  intros Hm Hf n. unfold mbind, st_bind. destruct (Hm n) as [H1 H2]. destruct (m n) as [n' [a|e]]; cbn [fst] in *; [|done].
  destruct (Hf a n') as [H3 H4]. split; [by rewrite H3|by rewrite H4].
Qed.

(** The children that remain. *)
Definition strip_list (l : list node) : list node := flat_map (fun c => if named_distri c then [] else [strip c]) l.
Lemma strip_node nm v cs l : strip (Node nm v cs l) = Node nm v (strip_list cs) l.
Proof. done. Qed.
Lemma named_name c c' : get_name c' = get_name c -> named_distri c' = named_distri c.
Proof. intros H. unfold named_distri, match_name. by rewrite H. Qed.
Lemma strip_list_cons c c' l : get_name c' = get_name c -> strip c' = strip c -> strip_list (c' :: l) = strip_list (c :: l).
Proof. intros H1 H2. unfold strip_list. cbn [flat_map]. by rewrite (named_name _ _ H1), H2. Qed.
Lemma strip_list_app l k : strip_list (l ++ k) = strip_list l ++ strip_list k.
Proof. apply flat_map_app. Qed.

Lemma silent_in_children f : (forall l, strip_list (f l).1 = strip_list l) -> silent (in_children f).
Proof.
  intros Hf [nm v cs l]. unfold in_children. pose proof (Hf cs) as H. destruct (f cs) as [cs' r]. cbn [fst get_name get_children] in *. split; [done|]. by rewrite !strip_node, H.
Qed.
Lemma silent_on_list p f l : silent f -> strip_list (on_list p f l).1 = strip_list l.
Proof.
  intros Hf. induction l as [|c l IH]; [done|]. cbn [on_list].
  assert (Hc : get_name (if p c then f c else (c, Ret ())).1 = get_name c /\ strip (if p c then f c else (c, Ret ())).1 = strip c) by (destruct (p c); [apply Hf|done]).
  destruct (if p c then f c else (c, Ret ())) as [c' [[]|e]]; cbn [fst] in Hc; destruct Hc as [H1 H2].
  - destruct (on_list p f l) as [l'' r]. cbn [fst] in *. rewrite (strip_list_cons c c') by done. unfold strip_list in *. cbn [flat_map]. by rewrite IH.
  - by apply strip_list_cons.
Qed.
Lemma silent_on_children p f : silent f -> silent (on_children p f).
Proof. intros Hf. apply silent_in_children. intros l. by apply silent_on_list. Qed.
Lemma silent_on_chain ps f : silent f -> silent (on_chain ps f).
Proof. intros Hf. induction ps as [|p ps IH]; [done|]. by apply silent_on_children. Qed.
Lemma silent_on_zones f : silent f -> silent (on_zones f).
Proof.
  intros Hf n. unfold on_zones. case_bool_decide; [by apply silent_on_children|]. case_bool_decide; [by apply silent_on_chain|done].
Qed.
Lemma silent_on_nodes p f : silent f -> silent (on_nodes p f).
Proof.
  intros Hf n. induction n as [nm v cs l IH] using node_ind'. cbn [on_nodes].
  set (go := fix go (l : list node) : list node * py () := match l with [] => ([], Ret ()) | c :: l' => _ end).
  assert (Hgo : strip_list (go cs).1 = strip_list cs).
  { induction IH as [|c cs Hc _ IHcs]; [done|]. cbn [go].
    assert (Hc' : get_name (if p c then f c else on_nodes p f c).1 = get_name c /\ strip (if p c then f c else on_nodes p f c).1 = strip c) by (destruct (p c); [apply Hf|done]).
    destruct (if p c then f c else on_nodes p f c) as [c' [[]|e]]; cbn [fst] in Hc'; destruct Hc' as [H1 H2].
    - destruct (go cs) as [l'' r]. cbn [fst] in *. rewrite (strip_list_cons c c') by done. unfold strip_list in *. cbn [flat_map]. by rewrite IHcs.
    - by apply strip_list_cons. }
  destruct (go cs) as [cs' r]. cbn [fst get_name get_children] in *. split; [done|]. by rewrite !strip_node, Hgo.
Qed.

Lemma silent_on_nodes_chain ps f : silent f -> silent (on_nodes_chain ps f).
Proof. intros Hf. induction ps as [|p ps IH]; [done|]. by apply silent_on_nodes. Qed.

(** A distribution child that is edited, or added, is not seen. *)
Lemma strip_insert i c c' cs : cs !! i = Some c -> named_distri c = true -> get_name c' = get_name c -> strip_list (<[i := c']> cs) = strip_list cs.
Proof.
  intros Hi Hc Hn. rewrite <- (take_drop_middle cs i c Hi) at 2. rewrite insert_take_drop by by eapply lookup_lt_Some.
  rewrite !strip_list_app. f_equal. unfold strip_list. cbn [flat_map]. by rewrite (named_name _ _ Hn), Hc.
Qed.
Lemma silent_on_first (f : st ()) : keeps_name f -> silent (on_first named_distri f).
Proof.
  intros Hf n. unfold on_first. destruct (find_child _ _) as [i|] eqn:Ei; [|done]. destruct (find_child_Some _ _ _ Ei) as (c & Hc & Hn). rewrite Hc.
  pose proof (Hf c) as Hk. destruct (f c) as [c' r]. destruct n as [nm v cs l]. cbn [fst get_name get_children] in *. split; [done|]. rewrite !strip_node. f_equal. by eapply strip_insert.
Qed.

Section silent.
Context `{ArrayEqual} (to_float32 : Z -> Z) (astype : cgns_type -> cgns_type -> Z -> Z).

(** What [update_child] does to its parent: nothing, an edit of the child that is found, or a new child. *)
Lemma update_child_cases nm pv cs pl name label v children :
  let parent := Node nm pv cs pl in let '(parent', r) := update_child to_float32 parent name label v children in
  parent' = parent \/
  (exists i c c', cs !! i = Some c /\ match_name c name = true /\ get_name c' = get_name c /\ parent' = Node nm pv (<[i := c']> cs) pl) \/
  (exists c', get_name c' = name /\ parent' = Node nm pv (cs ++ [c']) pl).
Proof.
  cbn zeta. unfold update_child. cbn [get_children]. destruct (find_child _ cs) as [i|] eqn:Ei.
  - destruct (find_child_Some _ _ _ Ei) as (c & Hc & Hm). unfold update_at. rewrite Hc.
    pose proof (update_node_name to_float32 label v children c) as Hn.
    destruct (update_node to_float32 None label v children c) as [c' [[]|e]]; right; left; by exists i, c, c'.
  - rewrite new_node_spec. destruct (negb _); [by left|]. destruct (negb _); [by left|]. cbn [_convert_value].
    rewrite bool_decide_eq_true_2 by constructor. case_bool_decide; [by left|]. unfold update_at. rewrite lookup_app_r, Nat.sub_diag by done. cbn [lookup list_lookup].
    pose proof (update_node_name to_float32 label v children (Node name None (some_nodes []) "UserDefined_t")) as Hn.
    destruct (update_node _ _ _ _ _ _) as [c' [[]|e]]; rewrite insert_app_r_alt, Nat.sub_diag by done; right; right; by exists c'.
Qed.

Lemma update_keeps name label v : keeps_name (update to_float32 name label v).
Proof.
  intros [nm pv cs pl]. unfold update. pose proof (update_child_cases nm pv cs pl name (Some label) v None) as Hc. cbn zeta in Hc.
  destruct (update_child _ _ _ _ _ _) as [p' [x|e]]; cbn [fst]; by destruct Hc as [->|[(i & c & c' & _ & _ & _ & ->)|(c' & _ & ->)]].
Qed.
Lemma silent_update label v : silent (update to_float32 distri_name label v).
Proof.
  intros [nm pv cs pl]. unfold update. pose proof (update_child_cases nm pv cs pl distri_name (Some label) v None) as Hc. cbn zeta in Hc.
  assert (Hs : get_name (update_child to_float32 (Node nm pv cs pl) distri_name (Some label) v None).1 = nm /\
    strip (update_child to_float32 (Node nm pv cs pl) distri_name (Some label) v None).1 = strip (Node nm pv cs pl)).
  { destruct (update_child _ _ _ _ _ _) as [p' r]. cbn [fst].
    destruct Hc as [->|[(i & c & c' & Hi & Hm & Hn & ->)|(c' & Hn & ->)]]; [done| |]; (split; [done|]); rewrite !strip_node; f_equal.
    - by eapply strip_insert.
    - rewrite strip_list_app. transitivity (strip_list cs ++ []); [|apply app_nil_r]. f_equal. unfold strip_list. cbn [flat_map].
      assert (E : named_distri c' = true) by (unfold named_distri, match_name; rewrite Hn; vm_compute; reflexivity). by rewrite E. }
  by destruct (update_child _ _ _ _ _ _) as [p' [x|e]].
Qed.
Lemma update_all_keeps l : keeps_name (update_all to_float32 l).
Proof.
  induction l as [|[name v] l IH]; [by intros n|]. apply keeps_name_bind; [apply update_keeps|by intros _].
Qed.
Lemma silent_newDistribution l : silent (newDistribution to_float32 l).
Proof. apply silent_bind; [apply silent_update|]. intros _. apply silent_on_first, update_all_keeps. Qed.

Lemma under_DataArray_keeps name v : keeps_name (under (new_DataArray to_float32 astype name v None)).
Proof.
  intros n. unfold under, new_DataArray, with_value, leaf, build. destruct (cast_value _ _ v None) as [val|e]; [|done].
  rewrite new_node_spec. destruct n as [nm pv cs pl]. destruct (negb _); [done|]. destruct (negb _); [done|].
  destruct (_convert_value _ _); [|done]. rewrite bool_decide_eq_true_2 by constructor. case_bool_decide; done.
Qed.

Context (d : dtype) (rank size : Z) (distri_func : Z -> py partial).
Lemma silent_distribute name n : silent (distribute to_float32 d distri_func name n).
Proof. apply silent_bind; [apply silent_lift|intros p; apply silent_newDistribution]. Qed.

(** Composition of silent edits. *)
Ltac silence :=
  repeat first
    [ apply silent_distribute | apply silent_newDistribution | apply silent_lift | apply silent_reading | apply silent_ret | apply silent_raise
    | apply silent_on_children | apply silent_on_chain | apply silent_on_zones | apply silent_on_first, under_DataArray_keeps
    | match goal with |- silent (match ?x with _ => _ end) => destruct x end
    | apply silent_bind; [|intros ?] ].

Lemma silent_zone : silent (compute_zone_distribution to_float32 astype d distri_func).
Proof.
  unfold compute_zone_distribution, compute_elements_distribution, compute_subset_distribution, compute_connectivity_distribution, flag. silence.
Qed.
End silent.

Lemma flat_map_filtered cs : strip_list (filter (fun c => named_distri c = false) cs) = strip_list cs.
Proof.
  unfold strip_list. induction cs as [|c cs IH]; [done|]. rewrite filter_cons. cbn [flat_map]. destruct (named_distri c) eqn:E.
  - by rewrite decide_False by congruence.
  - rewrite decide_True by done. cbn [flat_map]. rewrite E. by f_equal.
Qed.
Lemma silent_rm : silent rm_distri.
Proof.
  intros [nm v cs l]. unfold rm_distri. cbn [fst rm_children_from_predicate get_name]. split; [done|]. rewrite !strip_node. f_equal.
  rewrite <- (map_id cs) at 2. rewrite del_positions_filter. rewrite map_id. unfold strip_list.
  apply flat_map_filtered.
Qed.

Lemma strip_level k n : strip (prune_level named_distri k n) = strip n.
Proof.
  revert n. induction k as [|k IH]; intros [nm v cs l]; [done|]. cbn [prune_level]. rewrite !strip_node. f_equal.
  rewrite <- (flat_map_filtered cs). unfold strip_list. induction (filter _ cs) as [|c l' IHl]; [done|]. cbn [map flat_map]. rewrite IHl.
  assert (E : get_name (prune_level named_distri k c) = get_name c) by (destruct k, c; done). by rewrite (named_name _ _ E), IH.
Qed.
Lemma silent_rm_depth2 : silent rm_distri_depth2.
Proof.
  intros n. unfold rm_distri_depth2, rm_nodes_from_predicate. cbn [negb Z.eqb andb Z.leb Z.compare]. rewrite rm_level_prune by lia.
  cbn [fst]. split; [|apply strip_level]. by destruct n.
Qed.

(** ** Properties *)

(** C34: [add_distribution_info] and [clean_distribution_info], whether they raise or not, change nothing in a tree but
    its distribution nodes, whatever the policy and the numbers of elements. *)
Theorem distribution_info_silent `{ArrayEqual} to_float32 astype d rank size policy tree :
  strip (add_distribution_info to_float32 astype d rank size policy tree).1 = strip tree /\
  strip (clean_distribution_info tree).1 = strip tree.
Proof.
  split.
  - apply (silent_bind (st_lift (interpret_policy d rank size policy))); [apply silent_lift|]. intros distri_func. apply silent_on_zones, silent_zone.
  - apply silent_on_zones. repeat (apply silent_bind; [|intros _]).
    + apply silent_rm.
    + apply silent_on_nodes, silent_rm.
    + apply silent_on_nodes_chain, silent_rm_depth2.
    + apply silent_on_nodes_chain, silent_rm.
Qed.

(** ** The distributions that are not removed *)

(** An unstructured zone of 8 vertices and 4 cells, with a flow solution and discrete data on two elements each. *)
Section example.
Local Instance any_equal : ArrayEqual := fun _ _ => true.
Definition ex_array (l : list Z) : option nparray := Some (NpArray T_I4 [zlen l] true l).
Definition ex_text (s : string) : option nparray := Some (NpArray T_C1 [Z.of_nat (String.length s)] true (codes s)).
Definition ex_subset (name label : string) : node :=
  Node name None [Node "PointList" None [] "IndexArray_t"; Node "PointList#Size" (ex_array [1; 2]) [] "DataArray_t"] label.
Definition ex_zone (subsets : list node) : node :=
  Node "Zone" (Some (NpArray T_I4 [1; 3] true [8; 4; 0])) (Node "ZoneType" (ex_text "Unstructured") [] "ZoneType_t" :: subsets) "Zone_t".
Definition ex_tree (subsets : list node) : node :=
  Node "CGNSTree" None [Node "Base" None [ex_zone subsets] "CGNSBase_t"] "CGNSTree_t".
Definition ex_add : st () := add_distribution_info (fun x => x) (fun _ _ x => x) Prelude.I8 0 1 "uniform".

(** [clean_distribution_info] leaves the distributions of discrete data, which [add_distribution_info] has added:
    the tree is not the one it was, although it would be with a flow solution in their place. *)
Theorem discrete_data_not_cleaned :
  let flow := ex_tree [ex_subset "Data" "FlowSolution_t"] in
  let discrete := ex_tree [ex_subset "Data" "DiscreteData_t"] in
  (_ ← ex_add; clean_distribution_info) flow = (flow, Ret ()) /\
  exists tree, (_ ← ex_add; clean_distribution_info) discrete = (tree, Ret ()) /\ tree <> discrete /\
    get_node_from_path tree "Base/Zone/Data/:CGNS#Distribution/Index" =
    Some (Node "Index" (Some (NpArray T_I8 [3] true [0; 2; 2])) [] "DataArray_t").
Proof.
  cbn zeta. split; [vm_compute; reflexivity|]. eexists. split; [vm_compute; reflexivity|]. split; [|vm_compute; reflexivity].
  vm_compute. intros E. inversion E.
Qed.
End example.
End MaiaNodes.
