(* ===== verification/Joins.v ===== *)
(** * Pairs of joins: [maia/algo/dist/matching_jns_tools.py]

    The joins of a distributed tree are found by the arrays they share with the opposite join, named, paired and
    numbered.  A collective function takes the trees of the ranks 0, 1, ...; joins are designated by references. *)
From S2P Require Import Prelude PyUtils Values Conventions Fnmatch Tree Parsers Walkers Search Sids Refs Presets MaiaNodes.

Local Open Scope Z_scope.

Module Joins.
Import Values Tree Walkers Search Sids Refs Presets MaiaNodes.

Section joins.
Context `{ArrayEqual} (to_float32 : Z -> Z).

(** The node after an edit that returns. *)
Definition applied (f : st ()) (n : node) : py node := match f n with (n', Ret ()) => Ret n' | (_, Raise e) => Raise e end.

(** ** The joins of a tree *)

Definition is_join (n : node) : py bool :=
  if bool_decide (get_label n ∈ gc_labels) then GridConnectivity_is1to1 n else Ret false.
Definition join_refs (p : node -> py bool) (tree : node) : py (list ref) :=
  refs_where [label_is "CGNSBase_t"; label_is "Zone_t"; label_is "ZoneGridConnectivity_t"; p] tree.
Definition path_of (tree : node) (r : ref) : string := py_join slash (names_at tree r).

(** ** Comparison of two joins *)

Definition raw_child (n : node) (name : string) : py value := c ← get_child_from_name n name no_kw; raw_of c.
(** [np.sort(a)] of an array of two columns: each row is sorted. *)
Definition sorted_rows (v : value) : py (list (Z * Z)) :=
  c0 ← column_of v 0; c1 ← column_of v 1; Ret (zip_with (fun a b => (Z.min a b, Z.max a b)) c0 c1).
Definition shape_of (v : value) : py (list Z) := a ← of_option AttributeError v; Ret (a_shape a).
(** The ranges are arrays of two columns. *)
Definition _compare_pointrange (gc1 gc2 : node) : py bool :=
  gc1_pr ← raw_child gc1 "PointRange"; gc1_prd ← raw_child gc1 "PointRangeDonor";
  gc2_pr ← raw_child gc2 "PointRange"; gc2_prd ← raw_child gc2 "PointRangeDonor";
  s1 ← shape_of gc1_pr; s1d ← shape_of gc1_prd; s2 ← shape_of gc2_pr; s2d ← shape_of gc2_prd;
  if bool_decide (s1 <> s2d) || bool_decide (s2 <> s1d) then Ret false else
  r1 ← sorted_rows gc1_pr; r1d ← sorted_rows gc1_prd; r2 ← sorted_rows gc2_pr; r2d ← sorted_rows gc2_prd;
  Ret (bool_decide (r1 = r2d) && bool_decide (r2 = r1d)).

(** [np.asarray(None)] has an empty shape and is equal to itself. *)
Definition asarray (v : value) : list Z * list Z := match v with Some a => (a_shape a, a_data a) | None => ([], []) end.
Definition _compare_pointlist (gc1 gc2 : node) : py bool :=
  gc1_pl ← raw_child gc1 "PointList"; gc1_pld ← raw_child gc1 "PointListDonor";
  gc2_pl ← raw_child gc2 "PointList"; gc2_pld ← raw_child gc2 "PointListDonor";
  Ret (bool_decide (asarray gc1_pl = asarray gc2_pld) && bool_decide (asarray gc2_pl = asarray gc1_pld)).

(** [path.split('/')[0]] *)
Definition base_of (path : string) : py string := py_get (py_split slash path) 0.
Definition has_pl (gc : node) : py bool := n ← get_child_from_name gc "PointList" no_kw; Ret (bool_decide (is_Some n)).
Definition is_candidate (current_path opp_path : string) (gc : node) (path : string) : py bool :=
  if bool_decide (path = opp_path) then
    base ← base_of path; d ← GridConnectivity_ZoneDonorPath gc base; Ret (bool_decide (d = current_path))
  else Ret false.
(** A row of the table: the candidates, then their comparison. *)
Definition compare_joins (gc : node) (gc_has_pl : bool) (cand : node) : py bool :=
  cand_has_pl ← has_pl cand;
  if gc_has_pl && cand_has_pl then _compare_pointlist gc cand
  else if negb gc_has_pl && negb cand_has_pl then _compare_pointrange gc cand
  else Ret false.
Definition table_row (gcs : list (node * string)) (g : node * string) : py (list bool) :=
  let '(gc, current_path) := g in
  current_base ← base_of current_path;
  opp_path ← GridConnectivity_ZoneDonorPath gc current_base;
  candidates ← mapM (fun c => is_candidate current_path opp_path c.1 c.2) gcs;
  gc_has_pl ← has_pl gc;
  mapM (fun '(is_cand, c) => if (is_cand : bool) then compare_joins gc gc_has_pl c.1 else Ret false) (zip candidates gcs).
Definition _create_local_match_table (gc_list : list node) (gc_paths : list string) : py (list (list bool)) :=
  let gcs := zip gc_list gc_paths in mapM (table_row gcs) gcs.

(** ** Names of the opposite joins *)

Definition donor_name : string := "GridConnectivityDonorName".
Definition rm_donor_name : st () := fun n => (rm_children_from_predicate (fun c => match_name c donor_name) n, Ret ()).
(** [force]: the names that are already there are removed. *)
Definition forget_donors (force : bool) (tree : node) : py node :=
  if force then
    rs ← join_refs is_join tree;
    applied (edit_all (fun _ : () => rm_donor_name) (map (fun r => (r, ())) rs)) tree
  else Ret tree.
(** The joins that have no donor name, with the path of their zone. *)
Definition without_donor (n : node) : py bool :=
  b ← is_join n; if (b : bool) then c ← get_child_from_name n donor_name no_kw; Ret (is_none c) else Ret false.
#[local] Abbreviation join_record := (ref * node * string)%type.
Definition record_at (tree : node) (r : ref) : option join_record :=
  match node_at tree r with Some n => Some (r, n, py_join slash (take 2 (names_at tree r))) | None => None end.
Definition collect (tree : node) : py (list join_record) :=
  rs ← join_refs without_donor tree; Ret (omap (record_at tree) (rs : list ref)).
Definition local_table (gcs : list join_record) : py (list (list bool)) :=
  _create_local_match_table (map (fun g => g.1.2) gcs) (map snd gcs).

(** [Allreduce] with the logical and, the assertion and the columns of the true elements. *)
Definition land_tables (t1 t2 : list (list bool)) : list (list bool) := zip_with (zip_with andb) t1 t2.
Definition reduce_tables (ts : list (list (list bool))) : list (list bool) :=
  match ts with [] => [] | t :: ts' => foldl land_tables t ts' end.
Definition column_sum (t : list (list bool)) (j : nat) : nat := length (filter (fun row => row !! j = Some true) t).
Definition one_per_column (t : list (list bool)) : bool :=
  forallb (fun j => bool_decide (column_sum t j = 1%nat)) (seq 0 (length t)).
Definition true_columns (row : list bool) : list nat := concat (imap (fun j b => if (b : bool) then [j] else []) row).
Definition where_columns (t : list (list bool)) : list nat := concat (map true_columns t).

Definition add_donor_name (name : string) : st () := under (new_node to_float32 donor_name "Descriptor_t" (PStr name) []).
Definition named_opposite (gcs : list join_record) (p : join_record * nat) : option (ref * string) :=
  match gcs !! p.2 with Some opp => Some (p.1.1.1, get_name opp.1.2) | None => None end.
Definition name_joins (gcs : list join_record) (opp_join_id : list nat) : st () :=
  edit_all add_donor_name (omap (named_opposite gcs) (zip gcs opp_join_id)).

(** On all the ranks, whose trees have the same joins. *)
Definition add_joins_donor_name (force : bool) (trees : list node) : py (list node) :=
  trees ← mapM (forget_donors force) trees;
  gcs ← mapM collect trees;
  if forallb (fun l => bool_decide (l = [])) gcs then Ret trees else
  tables ← mapM local_table gcs;
  let table := reduce_tables tables in
  _ ← py_assert (one_per_column table);
  mapM (fun '(tree, l) => applied (name_joins l (where_columns table)) tree) (zip trees gcs).

(** ** Pairs *)

Definition get_jn_donor_path (dist_tree : node) (jn_path : string) : py string :=
  let cur_jn := get_node_from_path dist_tree jn_path in
  base_name ← match py_split slash jn_path with [base_name; _; _; _] => Ret base_name | _ => Raise ValueError end;
  cur_jn ← of_option TypeError cur_jn;
  opp_zone_path ← GridConnectivity_ZoneDonorPath cur_jn base_name;
  gc_donor_name ← get_child_from_name cur_jn donor_name no_kw;
  match gc_donor_name with
  | None => Raise RuntimeError
  | Some n =>
      opp_gc_name ← get_value n false;
      opp_gc_name ← match opp_gc_name with Text (Str s) => Ret s | _ => Raise TypeError end;
      opp_zone ← of_option TypeError (get_node_from_path dist_tree opp_zone_path);
      opp_zgc ← get_child_from_label opp_zone (StrLabel "ZoneGridConnectivity_t") no_kw;
      opp_zgc ← of_option TypeError opp_zgc;
      Ret (opp_zone_path +:+ "/" +:+ get_name opp_zgc +:+ "/" +:+ opp_gc_name)
  end.

Definition join_paths (select_func : node -> py bool) (dist_tree : node) : py (list string) :=
  rs ← join_refs (fun n => b ← is_join n; if (b : bool) then select_func n else Ret false) dist_tree;
  Ret (map (path_of dist_tree) rs).
(** [tuple(sorted([a, b]))] *)
Definition sorted_pair (a b : string) : string * string := if String.ltb b a then (b, a) else (a, b).
Fixpoint pair_loop (dist_tree : node) (paths : list string) (jn_pairs : list (string * string)) : py (list (string * string)) :=
  match paths with
  | [] => Ret jn_pairs
  | jn_path :: paths' =>
      opp_jn_path ← get_jn_donor_path dist_tree jn_path;
      let pair := sorted_pair jn_path opp_jn_path in
      pair_loop dist_tree paths' (if bool_decide (pair ∈ jn_pairs) then jn_pairs else jn_pairs ++ [pair])
  end.
Definition get_matching_jns (select_func : node -> py bool) (dist_tree : node) : py (list (string * string)) :=
  paths ← join_paths select_func dist_tree;
  pair_loop dist_tree paths [].

(** ** Edits of the joins *)

(** The edit of the node of a path. *)
Definition at_path {A} (path : string) (f : st A) : st A := fun n =>
  match ref_of_path n path with Some r => edit_at r f n | None => (n, Raise TypeError) end.
Definition reading_path {A} (path : string) (m : node -> py A) : st A :=
  reading (fun tree => n ← of_option TypeError (get_node_from_path tree path); m n).

(** The references are taken before the join is renamed. *)
Definition update_jn_name (jn_path new_name : string) : st () := fun tree =>
  match (cur ← of_option TypeError (ref_of_path tree jn_path);
         opp_path ← get_jn_donor_path tree jn_path;
         opp ← of_option TypeError (ref_of_path tree opp_path);
         Ret (cur, opp)) with
  | Raise e => (tree, Raise e)
  | Ret (cur, opp) =>
      (_ ← edit_at cur (set_name new_name);
       edit_at opp (on_first (fun c => match_name c donor_name) (set_value to_float32 (PStr new_name)))) tree
  end.

Fixpoint for_each {A} (f : A -> st ()) (l : list A) : st () :=
  match l with [] => mret () | a :: l' => _ ← f a; for_each f l' end.

Definition copy_donor (jn_path : string) : st () :=
  opp_jn_path ← reading (fun tree => get_jn_donor_path tree jn_path);
  opp_patch ← reading_path opp_jn_path (fun opp_jn => patch ← Subset_getPatch opp_jn; deep_copy to_float32 patch);
  opp_patch ← st_lift (applied (set_name (get_name opp_patch +:+ "Donor")) opp_patch);
  at_path jn_path
    (_ ← (fun n => (rm_children_from_predicate (fun c => match_name c (get_name opp_patch)) n, Ret ()) : node * py ());
     add_child (Some opp_patch)).
Definition copy_donor_subset : st () :=
  paths ← reading (join_paths (fun _ => Ret true)); for_each copy_donor paths.

Definition new_int (name : string) (z : Z) : st () := under (new_node to_float32 name "DataArray_t" (PInt z) []).
Definition store_pair (p : nat * (string * string)) : st () :=
  let '(i, (jn1, jn2)) := p in
  for_each (fun '(j, jn_path) =>
      at_path jn_path (_ ← new_int "DistInterfaceId" (Z.of_nat i + 1); new_int "DistInterfaceOrd" (Z.of_nat j)))
    [(0%nat, jn1); (1%nat, jn2)].
Definition store_interfaces_ids : st () :=
  matching_pairs ← reading (get_matching_jns (fun _ => Ret true));
  for_each store_pair (imap pair matching_pairs).
Definition clear_interface_ids : st () :=
  on_chain [with_label "CGNSBase_t"; with_label "Zone_t"; with_label "ZoneGridConnectivity_t"; label_in gc_labels]
    (fun n => let n := rm_children_from_predicate (fun c => match_name c "DistInterfaceId") n in
              (rm_children_from_predicate (fun c => match_name c "DistInterfaceOrd") n, Ret ())).

(** ** The table is symmetric *)

Lemma compare_pointlist_sym gc1 gc2 b : _compare_pointlist gc1 gc2 = Ret b -> _compare_pointlist gc2 gc1 = Ret b.
Proof using Type.
  unfold _compare_pointlist. destruct (raw_child gc1 "PointList"), (raw_child gc1 "PointListDonor"), (raw_child gc2 "PointList"), (raw_child gc2 "PointListDonor"); try done.
  cbn. intros [= <-]. by rewrite andb_comm.
Qed.
Lemma compare_pointrange_sym gc1 gc2 b : _compare_pointrange gc1 gc2 = Ret b -> _compare_pointrange gc2 gc1 = Ret b.
Proof using Type.
  unfold _compare_pointrange.
  destruct (raw_child gc1 "PointRange") as [a|], (raw_child gc1 "PointRangeDonor") as [ad|], (raw_child gc2 "PointRange") as [b2|], (raw_child gc2 "PointRangeDonor") as [bd|]; try done.
  cbn [mbind py_bind]. destruct (shape_of a), (shape_of ad), (shape_of b2), (shape_of bd); try done. cbn [mbind py_bind]. rewrite orb_comm.
  destruct (_ || _); [done|]. destruct (sorted_rows a), (sorted_rows ad), (sorted_rows b2), (sorted_rows bd); try done. cbn. intros [= <-]. by rewrite andb_comm.
Qed.

(** What an element of the table says. *)
Definition donor_of (g : node * string) : py string := b ← base_of g.2; GridConnectivity_ZoneDonorPath g.1 b.
Definition compared (g1 g2 : node * string) : py bool := h ← has_pl g1.1; compare_joins g1.1 h g2.1.
Lemma compared_sym g1 g2 b : compared g1 g2 = Ret b -> compared g2 g1 = Ret b.
Proof using Type.
  unfold compared, compare_joins. destruct (has_pl g1.1) as [h1|], (has_pl g2.1) as [h2|]; try done. cbn [mbind py_bind].
  destruct h1, h2; cbn [negb andb]; [apply compare_pointlist_sym|done..|apply compare_pointrange_sym].
Qed.
Definition opposite (g1 g2 : node * string) : Prop := donor_of g1 = Ret g2.2 /\ donor_of g2 = Ret g1.2.

Lemma table_row_entry gcs g row j g' b :
  table_row gcs g = Ret row -> gcs !! j = Some g' -> row !! j = Some b ->
  (b = true -> opposite g g' /\ compared g g' = Ret true) /\
  (opposite g g' -> compared g g' = Ret b).
Proof using Type.
  unfold table_row. destruct g as [gc path]. intros Hr Hg Hb. unfold opposite, donor_of, compared. cbn [fst snd].
  destruct (base_of path) as [base|]; [|done]. cbn [mbind py_bind] in *. destruct (GridConnectivity_ZoneDonorPath gc base) as [opp|]; [|done]. cbn [mbind py_bind] in *.
  destruct (mapM _ gcs) as [cands|] eqn:Ec; [|done]. cbn [mbind py_bind] in *. destruct (has_pl gc) as [h|]; [|done]. cbn [mbind py_bind] in *.
  rewrite py_mapM_Ret, Forall2_lookup in Ec. rewrite py_mapM_Ret, Forall2_lookup in Hr. specialize (Ec j). specialize (Hr j). rewrite Hg in Ec. rewrite Hb in Hr.
  destruct (cands !! j) as [c|] eqn:Ecj; [|by inversion Ec]. inversion Ec as [? ? Hc|]; subst. assert (Hz : zip cands gcs !! j = Some (c, g')) by (apply lookup_zip_with_Some; by exists c, g'). rewrite Hz in Hr.
  inversion Hr as [? ? Hm|]; subst. cbn [fst snd] in *. unfold is_candidate in Hc. case_bool_decide as Ep.
  - rewrite <- Ep. destruct (base_of g'.2) as [base'|]; [|done]. cbn [mbind py_bind] in *. destruct (GridConnectivity_ZoneDonorPath g'.1 base') as [d|]; [|done].
    cbn [mbind py_bind] in *. injection Hc as <-. case_bool_decide as Ed.
    + split; [intros ->; split; [split; congruence|done]|done].
    + injection Hm as <-. split; [done|]. intros [_ E]. congruence.
  - injection Hc as <-. injection Hm as <-. split; [done|]. intros [E _]. congruence.
Qed.

Definition entry (t : list (list bool)) (i j : nat) : option bool := match t !! i with Some row => row !! j | None => None end.
Definition square (n : nat) (t : list (list bool)) : Prop := length t = n /\ Forall (fun row => length row = n) t.
Definition symmetric_table (t : list (list bool)) : Prop := forall i j, entry t i j = entry t j i.
Definition zone_join (g : join_record) : node * string := (g.1.2, g.2).

Lemma square_entry n t i j : square n t -> (i < n)%nat -> (j < n)%nat -> is_Some (entry t i j).
Proof using Type.
  intros [Hl Hr] Hi Hj. unfold entry. destruct (lookup_lt_is_Some_2 t i) as [row Hrow]; [lia|]. rewrite Hrow. rewrite Forall_lookup in Hr.
  apply lookup_lt_is_Some_2. by rewrite (Hr i row Hrow).
Qed.
Lemma entry_square n t i j b : square n t -> entry t i j = Some b -> (i < n)%nat /\ (j < n)%nat.
Proof using Type.
  intros [Hl Hr]. unfold entry. destruct (t !! i) as [row|] eqn:Hrow; [|done]. intros Hj. rewrite Forall_lookup in Hr. rewrite <- (Hr i row Hrow) at 2.
  apply lookup_lt_Some in Hrow, Hj. lia.
Qed.
Lemma square_symmetric n t : square n t -> (forall i j b b', entry t i j = Some b -> entry t j i = Some b' -> b = b') -> symmetric_table t.
Proof using Type.
  intros Hq Hs i j. destruct (entry t i j) as [b|] eqn:E.
  - destruct (entry_square n t i j b Hq E) as [Hi Hj]. destruct (square_entry n t j i Hq Hj Hi) as [b' E']. rewrite E'. f_equal. by eapply Hs.
  - destruct (entry t j i) as [b'|] eqn:E'; [|done]. destruct (entry_square n t j i b' Hq E') as [Hj Hi]. by destruct (square_entry n t i j Hq Hi Hj) as [b E''%eq_sym]; rewrite E in E''.
Qed.

Lemma zip_zone_join gcs : zip (map (fun g : join_record => g.1.2) gcs) (map snd gcs) = map zone_join gcs.
Proof using Type. induction gcs as [|g gcs IH]; [done|]. cbn. by rewrite IH. Qed.

Lemma local_table_spec gcs t :
  local_table gcs = Ret t ->
  square (length gcs) t /\ symmetric_table t /\
  forall i j g g', entry t i j = Some true -> gcs !! i = Some g -> gcs !! j = Some g' -> opposite (zone_join g) (zone_join g').
Proof using Type.
  unfold local_table, _create_local_match_table. rewrite zip_zone_join. intros Ht. apply py_mapM_Ret in Ht.
  assert (Hq : square (length gcs) t).
  { split; [by rewrite <- (Forall2_length _ _ _ Ht), length_map|]. apply Forall_lookup. intros i row Hrow. rewrite Forall2_lookup in Ht. specialize (Ht i). rewrite Hrow in Ht.
    inversion Ht as [g ? Hg Ei|]; subst. clear -Hg. unfold table_row in Hg. destruct g as [gc path]. destruct (base_of path); [|done]. cbn [mbind py_bind] in Hg.
    destruct (GridConnectivity_ZoneDonorPath gc _); [|done]. cbn [mbind py_bind] in Hg. destruct (mapM _ (map zone_join gcs)) as [cands|] eqn:Ec; [|done]. cbn [mbind py_bind] in Hg.
    destruct (has_pl gc); [|done]. cbn [mbind py_bind] in Hg. apply py_mapM_Ret, Forall2_length in Ec. apply py_mapM_Ret, Forall2_length in Hg.
    rewrite length_zip_with, <- Ec, length_map in Hg. lia. }
  assert (He : forall i j b g g', entry t i j = Some b -> gcs !! i = Some g -> gcs !! j = Some g' ->
    (b = true -> opposite (zone_join g) (zone_join g') /\ compared (zone_join g) (zone_join g') = Ret true) /\ (opposite (zone_join g) (zone_join g') -> compared (zone_join g) (zone_join g') = Ret b)).
  { intros i j b g g' Eb Hg Hg'. unfold entry in Eb. destruct (t !! i) as [row|] eqn:Hrow; [|done]. rewrite Forall2_lookup in Ht. specialize (Ht i).
    rewrite list_lookup_fmap, Hg, Hrow in Ht. inversion Ht; subst. eapply table_row_entry; [done| |done]. rewrite list_lookup_fmap, Hg'. done. }
  split; [done|]. split; [|intros i j g g' Ei Hg Hg'; by destruct (He i j true g g' Ei Hg Hg') as [H1 _]; apply H1].
  apply (square_symmetric (length gcs)); [done|]. intros i j b b' E E'. destruct (entry_square _ _ _ _ _ Hq E) as [Hi Hj].
  destruct (lookup_lt_is_Some_2 gcs i Hi) as [g Hg]. destruct (lookup_lt_is_Some_2 gcs j Hj) as [g' Hg'].
  destruct (He i j b g g' E Hg Hg') as [H1 H2]. destruct (He j i b' g' g E' Hg' Hg) as [H3 H4].
  assert (Hsym : forall x y, opposite x y -> opposite y x) by (intros x y []; by split).
  destruct b, b'; [done| | |done].
  - destruct (H1 eq_refl) as [Ho Hc]. pose proof (H4 (Hsym _ _ Ho)) as Hc'. apply compared_sym in Hc'. congruence.
  - destruct (H3 eq_refl) as [Ho Hc]. pose proof (H2 (Hsym _ _ Ho)) as Hc'. apply compared_sym in Hc'. congruence.
Qed.

(** ** The opposite joins *)

Lemma land_entry t1 t2 i j : entry (land_tables t1 t2) i j = match entry t1 i j, entry t2 i j with Some a, Some b => Some (a && b) | _, _ => None end.
Proof using Type.
  unfold entry, land_tables. rewrite lookup_zip_with. destruct (t1 !! i) as [r1|]; [|done]. cbn [mbind option_bind]. destruct (t2 !! i) as [r2|]; [|by destruct (r1 !! j)].
  cbn [mbind option_bind]. rewrite lookup_zip_with. destruct (r1 !! j), (r2 !! j); done.
Qed.
Lemma land_square n t1 t2 : square n t1 -> square n t2 -> square n (land_tables t1 t2).
Proof using Type.
  intros [H1 H2] [H3 H4]. unfold land_tables. split; [rewrite length_zip_with; lia|]. apply Forall_lookup. intros i row Hr. apply lookup_zip_with_Some in Hr as (r1 & r2 & -> & Hr1 & Hr2).
  rewrite Forall_lookup in H2, H4. rewrite length_zip_with, (H2 i r1 Hr1), (H4 i r2 Hr2). lia.
Qed.
Lemma reduce_tables_spec n t ts :
  Forall (fun t => square n t /\ symmetric_table t) (t :: ts) ->
  let T := reduce_tables (t :: ts) in
  square n T /\ symmetric_table T /\ forall i j, entry T i j = Some true -> Forall (fun t => entry t i j = Some true) (t :: ts).
Proof using Type.
  cbn zeta. cbn [reduce_tables]. revert t. induction ts as [|t' ts IH]; intros t Hf.
  { apply Forall_singleton in Hf as [H1 H2]. cbn. repeat split; [apply H1..|done|]. intros i j E. by apply Forall_singleton. }
  apply Forall_cons in Hf as [[Hq Hs] Hf]. apply Forall_cons in Hf as [[Hq' Hs'] Hf]. cbn [foldl].
  destruct (IH (land_tables t t')) as (H1 & H2 & H3).
  { constructor; [|done]. split; [by apply land_square|]. intros i j. by rewrite !land_entry, Hs, Hs'. }
  split; [done|]. split; [done|]. intros i j E. specialize (H3 i j E). apply Forall_cons in H3 as [H3 H4]. rewrite land_entry in H3.
  destruct (entry t i j) as [a|] eqn:Ea; [|done]. destruct (entry t' i j) as [b|] eqn:Eb; [|done]. injection H3 as H3. apply andb_prop in H3 as [-> ->]. by repeat constructor.
Qed.

Lemma true_columns_filter row : true_columns row = filter (fun j => row !! j = Some true) (seq 0 (length row)).
Proof using Type.
  unfold true_columns. enough (forall k, concat (imap (fun j (b : bool) => if b then [(k + j)%nat] else []) row) = filter (fun j => row !! (j - k)%nat = Some true) (seq k (length row))) as Hk.
  { specialize (Hk 0%nat). cbn [Nat.add] in Hk. rewrite Hk. apply list_filter_iff. intros j. by rewrite Nat.sub_0_r. }
  induction row as [|b row IH]; intros k; [done|]. cbn [imap concat length seq]. rewrite filter_cons, Nat.sub_diag. cbn [lookup list_lookup].
  specialize (IH (S k)). assert (E : concat (imap ((fun (j : nat) (b0 : bool) => if b0 then [(k + j)%nat] else []) ∘ S) row) = filter (fun j => (b :: row) !! (j - k)%nat = Some true) (seq (S k) (length row))).
  { etransitivity; [etransitivity; [|exact IH]|].
    - f_equal. apply imap_ext. intros j b0 _. unfold compose. destruct b0; [f_equal; lia|done].
    - apply filter_ext_in. intros j Hj. apply elem_of_seq in Hj. replace (j - k)%nat with (S (j - S k)) by lia. done. }
  rewrite E, Nat.add_0_r. destruct b; [by rewrite decide_True|by rewrite decide_False].
Qed.

Lemma singleton_filter {A} (l : list A) : length l = 1%nat -> exists x, l = [x].
Proof using Type. destruct l as [|x [|]]; try done. eauto. Qed.

(** Each row of a symmetric table with one true element in each column has one true element as well: the column of
    the opposite join. *)
Lemma where_spec n T : square n T -> symmetric_table T -> one_per_column T = true ->
  exists opp, where_columns T = opp /\ length opp = n /\
    forall i j, opp !! i = Some j <-> entry T i j = Some true.
Proof using Type.
  intros Hq Hs Ho. pose proof Hq as [Hl Hr].
  assert (Hrow : forall i row, T !! i = Some row -> exists j, true_columns row = [j] /\ forall j', row !! j' = Some true <-> j' = j).
  { intros i row Hi. assert (Hlen : length row = n) by (rewrite Forall_lookup in Hr; by eapply Hr).
    assert (Hc : column_sum T i = length (true_columns row)).
    { unfold column_sum. rewrite true_columns_filter, Hlen.
      transitivity (length (filter (fun k => entry T k i = Some true) (seq 0 n))).
      - rewrite <- Hl. clear. enough (forall m, length (filter (fun row => row !! i = Some true) T) = length (filter (fun k => match T !! (k - m)%nat with Some r => r !! i | None => None end = Some true) (seq m (length T)))) as H.
        { rewrite (H 0%nat). f_equal. apply list_filter_iff. intros k. unfold entry. by rewrite Nat.sub_0_r. }
        induction T as [|r T IH]; intros m; [done|]. cbn [length seq]. rewrite !filter_cons, Nat.sub_diag. cbn [lookup list_lookup].
        assert (E : filter (fun k => match (r :: T) !! (k - m)%nat with Some r => r !! i | None => None end = Some true) (seq (S m) (length T)) =
          filter (fun k => match T !! (k - S m)%nat with Some r => r !! i | None => None end = Some true) (seq (S m) (length T))).
        { apply filter_ext_in. intros k Hk. apply elem_of_seq in Hk. replace (k - m)%nat with (S (k - S m)) by lia. done. }
        rewrite E. case_decide; cbn [length]; by rewrite (IH (S m)).
      - f_equal. apply list_filter_iff. intros k. rewrite Hs. unfold entry. by rewrite Hi. }
    unfold one_per_column in Ho. rewrite forallb_forall in Ho. assert (Hin : In i (seq 0 (length T))) by (apply in_seq; apply lookup_lt_Some in Hi; lia).
    specialize (Ho i Hin). apply bool_decide_eq_true in Ho. rewrite Ho in Hc. symmetry in Hc. destruct (singleton_filter _ Hc) as [j Hj]. exists j. split; [done|].
    intros j'. rewrite true_columns_filter in Hj. assert (Hin' : j' ∈ filter (fun j => row !! j = Some true) (seq 0 (length row)) <-> j' ∈ [j]) by by rewrite Hj.
    rewrite list_elem_of_filter, list_elem_of_singleton, elem_of_seq in Hin'. rewrite <- Hin'. split; [|by intros []]. intros H'. split; [done|]. apply lookup_lt_Some in H'. lia. }
  exists (where_columns T). split; [done|]. unfold where_columns, entry. rewrite <- Hl. clear -Hrow. induction T as [|row T IH].
  - split; [done|]. intros i j. by destruct i.
  - destruct (Hrow 0%nat row eq_refl) as (j0 & Hj0 & Hj0'). destruct IH as [IH1 IH2]; [intros i r Hi; by apply (Hrow (S i))|].
    cbn [map concat]. rewrite Hj0. cbn [app length]. split; [by rewrite IH1|]. intros [|i] j; cbn [lookup list_lookup]; [|apply IH2]. rewrite Hj0'. split; congruence.
Qed.
End joins.
End Joins.
