(* ===== verification/JoinsSpec.v ===== *)
(** * The opposite joins are found: theorems on [maia/algo/dist/matching_jns_tools.py]

    The composition of the naming of the joins, their pairs and their numbers, on well-formed trees whose zones have
    one node of joins. *)
From S2P Require Import Prelude PyUtils Values Conventions Fnmatch Tree Parsers Walkers Search Sids Refs Presets MaiaNodes Joins.

Local Open Scope Z_scope.

Module JoinsSpec.
Import Values Tree Walkers Search Sids Refs Presets MaiaNodes Joins.

#[local] Abbreviation join_record := (ref * node * string)%type.

Section spec.
Context `{ArrayEqual} (to_float32 : Z -> Z).

(** ** Joins up to the name of their donor *)

Definition other_children (c : node) : list node := filter (fun d => get_name d <> donor_name) (get_children c).
Definition same_join (c c' : node) : Prop :=
  get_name c = get_name c' /\ get_raw c = get_raw c' /\ get_label c = get_label c' /\ other_children c = other_children c'.

Lemma same_join_refl c : same_join c c.
Proof using Type. done. Qed.
Lemma same_join_trans a b c : same_join a b -> same_join b c -> same_join a c.
Proof using Type. intros (H1 & H2 & H3 & H4) (K1 & K2 & K3 & K4). repeat split; congruence. Qed.

Lemma match_donor c : match_name c donor_name = bool_decide (get_name c = donor_name).
Proof using Type. unfold match_name. by rewrite Fnmatch.fnmatch_plain. Qed.
Lemma rm_donor_children c : get_children (rm_donor_name c).1 = other_children c.
Proof using Type.
  unfold rm_donor_name, rm_children_from_predicate, other_children. cbn [fst]. destruct c as [nm v cs l]. cbn [get_children].
  rewrite <- (map_id cs) at 2. rewrite del_positions_filter, map_id. apply list_filter_iff. intros d. rewrite match_donor. by rewrite bool_decide_eq_false.
Qed.
Lemma rm_donor_same c : same_join c (rm_donor_name c).1.
Proof using Type.
  repeat split; [by destruct c..|]. unfold other_children at 2. rewrite rm_donor_children. unfold other_children. rewrite list_filter_filter. apply list_filter_iff. tauto.
Qed.
(** The name that is added. *)
Definition donor_node (name : string) (v : value) : node := Node donor_name v [] "Descriptor_t".
Lemma add_donor_cases name c :
  ((add_donor_name to_float32 name c).1 = c /\ exists e, (add_donor_name to_float32 name c).2 = Raise e) \/
  exists v, _convert_value to_float32 (PStr name) = Ret v /\ (donor_name ∉ get_names (get_children c)) /\
    add_donor_name to_float32 name c = (Node (get_name c) (get_raw c) (get_children c ++ [donor_node name v]) (get_label c), Ret ()).
Proof using Type.
  unfold add_donor_name, under. rewrite new_node_spec. change (negb (is_valid_name donor_name false)) with false. change (negb (is_valid_label "Descriptor_t" false)) with false.
  cbn iota. destruct (_convert_value to_float32 (PStr name)) as [v|e]; [|left; split; [done|by exists e]]. rewrite bool_decide_eq_true_2 by constructor. destruct c as [nm pv cs l].
  cbn zeta. case_bool_decide as E; [left; split; [done|by eexists]|]. right. by exists v.
Qed.
Lemma add_donor_same name c : same_join c (add_donor_name to_float32 name c).1.
Proof using Type.
  destruct (add_donor_cases name c) as [[-> _]|(v & _ & _ & ->)]; [done|]. repeat split. unfold other_children. cbn [fst get_children]. rewrite filter_app, filter_cons.
  rewrite decide_False by (intros E; by apply E). by rewrite app_nil_r.
Qed.

Lemma child_named_same c c' name : same_join c c' -> name <> donor_name -> child_named c name = child_named c' name.
Proof using Type.
  intros (_ & _ & _ & Hs) Hn. unfold child_named.
  assert (E : forall cs : list node, filter (fun d => get_name d = name) cs = filter (fun d => get_name d = name) (filter (fun d => get_name d <> donor_name) cs)).
  { intros cs. rewrite list_filter_filter. apply list_filter_iff. intros d. split; [intros Hd; split; congruence|tauto]. }
  rewrite (E (get_children c)), (E (get_children c')). unfold other_children in Hs. by rewrite Hs.
Qed.
Lemma is_join_same c c' : same_join c c' -> is_join c = is_join c'.
Proof using Type.
  intros Hs. unfold is_join, GridConnectivity_is1to1, GridConnectivity_Type, check_in_labels. pose proof Hs as (_ & _ & Hl & _). rewrite Hl.
  rewrite !(proj1 (child_search_spec _ "GridConnectivityType" (fun _ => true) eq_refl)). by rewrite (child_named_same c c' "GridConnectivityType" Hs).
Qed.
Lemma without_donor_rm c c' : same_join c c' -> is_join c = is_join c' /\ (donor_name ∉ get_names (get_children c') -> is_join c = without_donor c').
Proof using Type.
  intros Hs. split; [by apply is_join_same|]. intros Hn. rewrite (is_join_same c c' Hs). unfold without_donor. destruct (is_join c') as [[|]|]; [|done..]. cbn [mbind py_bind].
  rewrite (proj1 (child_search_spec _ donor_name (fun _ => true) eq_refl)). unfold child_named.
  assert (E : filter (fun d => get_name d = donor_name) (get_children c') = []) by (apply filter_none_nil; intros d Hd Ed; apply Hn; rewrite <- Ed; by apply list_elem_of_fmap_2). by rewrite E.
Qed.

(** ** The tree without donor names *)

Definition join_labels : list string := ["CGNSBase_t"; "Zone_t"; "ZoneGridConnectivity_t"].
Lemma join_refs_labels p tree : join_refs p tree = refs_where (map label_is join_labels ++ [p]) tree.
Proof using Type. done. Qed.
Lemma join_refs_node p tree rs r : join_refs p tree = Ret rs -> r ∈ rs -> length r = 4%nat /\ exists c, node_at tree r = Some c /\ p c = Ret true.
Proof using Type.
  intros Hrs Hr. destruct (refs_where_spec _ _ _ Hrs) as [_ H']. destruct (H' r Hr) as [Hl Hk]. split; [done|]. destruct (Hk 3%nat p eq_refl) as (c & Hc & Hp).
  exists c. split; [|done]. rewrite take_ge in Hc; [done|]. rewrite Hl. done.
Qed.

Lemma wf_same_children c cs : wf c -> NoDup (get_names cs) -> Forall wf cs -> wf (Node (get_name c) (get_raw c) cs (get_label c)).
Proof using Type. destruct 1 as [nm v cs' l H1 H2 _ _]. intros H3 H4. by constructor. Qed.
Lemma rm_donor_wf c : wf c -> wf (rm_donor_name c).1 /\ get_name (rm_donor_name c).1 = get_name c.
Proof using Type.
  intros Hc. destruct (rm_donor_same c) as (H1 & H2 & H3 & _). split; [|done]. pose proof (rm_donor_children c) as Hch.
  destruct ((rm_donor_name c).1) as [nm v cs l]. cbn [get_name get_raw get_label get_children] in *. subst. apply wf_same_children; [done| |].
  - destruct Hc as [nm v cs l _ _ Hn _]. unfold other_children. cbn [get_children]. by apply NoDup_names_filter.
  - destruct Hc as [nm v cs l _ _ _ Hw]. unfold other_children. cbn [get_children]. rewrite Forall_forall in Hw |- *. intros d Hd. apply Hw. by apply list_elem_of_filter in Hd as [_ Hd].
Qed.

Lemma forget_spec tree t1 : wf tree -> forget_donors true tree = Ret t1 ->
  exists rs, join_refs is_join tree = Ret rs /\ wf t1 /\ same_above 4 same_join tree t1 /\ join_refs without_donor t1 = Ret rs.
Proof using Type.
  intros Hw. unfold forget_donors. destruct (join_refs is_join tree) as [rs|] eqn:Ers; [|done]. cbn [mbind py_bind]. unfold applied.
  destruct (edit_all _ _ tree) as [t' [[]|]] eqn:Ee; [|done]. intros [= ->]. exists rs. split; [done|].
  destruct (refs_where_spec _ _ _ Ers) as [Hn Hrs].
  set (l := map (fun r : ref => (r, ())) rs) in *. assert (Hfst : map fst l = rs) by (unfold l; rewrite map_map; apply map_id).
  destruct (edit_all_spec same_join 4 (fun _ : () => rm_donor_name) l tree t1) as (Hs & Hin & Hout);
    [apply same_join_refl|apply same_join_trans|intros; apply rm_donor_same| |by rewrite Hfst|done|].
  { apply Forall_fmap, Forall_forall. intros r Hr. cbn. by destruct (join_refs_node _ _ _ _ Ers Hr). }
  rewrite Hfst in Hout. split; [|split; [done|]].
  - change t1 with (t1, Ret ()).1 at 1. rewrite <- Ee. apply edit_all_wf; [|done]. intros _ c. apply rm_donor_wf.
  - rewrite <- Ers, !join_refs_labels. symmetry. eapply same_refs; [exact Hs|]. intros r c c' Hl Hc Hc' Hlab. destruct (decide (r ∈ rs)) as [Hr|Hr].
    + destruct (Hin r () c) as [Hnode _]; [apply list_elem_of_fmap; by exists r|done|]. assert (c' = (rm_donor_name c).1) as -> by congruence.
      apply (without_donor_rm c); [apply rm_donor_same|]. rewrite rm_donor_children. intros (d & Hd & Hin')%list_elem_of_fmap. apply list_elem_of_filter in Hin' as [Hd' _]. done.
    + assert (c' = c) as -> by (rewrite (Hout r Hl Hr) in Hc'; congruence). unfold without_donor. destruct (is_join c) as [[|]|] eqn:Ej; [|done..]. exfalso. apply Hr.
      apply (refs_where_complete _ _ _ _ Ers); [done|]. intros k p Hp. destruct k as [|[|[|[|k]]]]; [| | | |done]; injection Hp as <-.
      1,2,3: by apply Hlab. exists c. split; [|done]. rewrite take_ge by (rewrite Hl; done). done.
Qed.

(** ** The collected joins *)

Lemma collect_spec t1 rs : join_refs without_donor t1 = Ret rs ->
  exists gcs, collect t1 = Ret gcs /\ length gcs = length rs /\
    forall i r, rs !! i = Some r -> exists c, node_at t1 r = Some c /\ gcs !! i = Some (r, c, py_join slash (take 2 (names_at t1 r))).
Proof using Type.
  intros Hrs. unfold collect. rewrite Hrs. cbn [mbind py_bind]. eexists. split; [reflexivity|].
  assert (Hn : Forall (fun r => is_Some (node_at t1 r)) rs).
  { apply Forall_forall. intros r Hr. destruct (join_refs_node _ _ _ _ Hrs Hr) as (_ & c & Hc & _). by exists c. }
  clear Hrs. induction Hn as [|r rs [c Hc] _ [IH1 IH2]]; [split; [done|]; intros i r Hi; by rewrite lookup_nil in Hi|]. 
  assert (E : record_at t1 r = Some (r, c, py_join slash (take 2 (names_at t1 r)))) by (unfold record_at; by rewrite Hc). cbn [omap list_omap]. rewrite E. cbn [length].
  split; [by rewrite IH1|]. intros [|i] r' Hr'; [injection Hr' as <-; by exists c|]. by apply IH2.
Qed.

(** The joins are named one by one. *)
Lemma named_list gcs opp :
  (forall i j, opp !! i = Some j -> (j < length gcs)%nat) -> length opp = length gcs ->
  let l := omap (named_opposite gcs) (zip gcs opp) in
  map fst l = map (fun g : join_record => g.1.1) gcs /\
  forall i j g g', opp !! i = Some j -> gcs !! i = Some g -> gcs !! j = Some g' -> (g.1.1, get_name g'.1.2) ∈ l.
Proof using Type.
  intros Hj Hl. cbn zeta.
  enough (forall gs opp, length opp = length gs -> (forall i j, opp !! i = Some j -> (j < length gcs)%nat) ->
    map fst (omap (named_opposite gcs) (zip gs opp)) = map (fun g : join_record => g.1.1) gs /\
    forall i j g g', opp !! i = Some j -> gs !! i = Some g -> gcs !! j = Some g' -> (g.1.1, get_name g'.1.2) ∈ omap (named_opposite gcs) (zip gs opp)) as Hg by by apply Hg.
  clear. intros gs. induction gs as [|g gs IH]; intros [|j opp] Hl Hj; try done. 
  destruct (lookup_lt_is_Some_2 gcs j (Hj 0%nat j eq_refl)) as [g' Hg'].
  assert (E : named_opposite gcs (g, j) = Some (g.1.1, get_name g'.1.2)) by (unfold named_opposite; cbn; by rewrite Hg').
  cbn [zip zip_with omap list_omap]. rewrite E. destruct (IH opp) as [IH1 IH2]; [by injection Hl|intros i k; apply (Hj (S i))|].
  cbn [map fst]. split; [by f_equal|]. intros [|i] k x y Hk Hx Hy.
  - injection Hk as <-. injection Hx as <-. assert (y = g') as -> by congruence. by left.
  - right. by eapply IH2.
Qed.

(** ** The path of the donor *)

Lemma join_four b z g n : py_join slash [b; z] +:+ "/" +:+ g +:+ "/" +:+ n = py_join slash [b; z; g; n].
Proof using Type.
  rewrite <- (chars_of_string (py_join slash [b; z] +:+ "/" +:+ g +:+ "/" +:+ n)). rewrite !Conventions.chars_app. unfold py_join at 1 2. f_equal.
  rewrite String.list_ascii_of_string_of_list_ascii. cbn. rewrite <- app_assoc. done.
Qed.
Lemma child_from_label root label : Fnmatch.plain label = true -> get_child_from_label root (StrLabel label) no_kw = Ret (head (filter (fun c => get_label c = label) (get_children root))).
Proof using Type.
  intros Hp. unfold get_child_from_label, get_node_from_label, _overload_depth1, _overload_predicate, get_node_from_predicate. cbn [auto_predicate mbind py_bind kw_depth no_kw].
  rewrite (children_first (fun n => match_label n (StrLabel label))). do 2 f_equal. apply list_filter_iff. intros c. unfold match_label, match_str_label. rewrite Fnmatch.fnmatch_plain by done. by rewrite bool_decide_eq_true.
Qed.
Lemma zone_donor_same c c' base : same_join c c' -> GridConnectivity_ZoneDonorPath c base = GridConnectivity_ZoneDonorPath c' base.
Proof using Type. intros (_ & H1 & H2 & _). unfold GridConnectivity_ZoneDonorPath, check_in_labels, get_value. by rewrite H1, H2. Qed.

(** Names that are read as they are written. *)
Definition plain_name (s : string) : Prop := is_ascii s = true /\ Values.strip s = s.
Lemma plain_value s v : plain_name s -> _convert_value to_float32 (PStr s) = Ret v -> get_value_of v false = Ret (Text (Str s)).
Proof using Type.
  intros [Ha Hs]. cbn [_convert_value]. rewrite Ha. cbn. intros [= <-]. cbn. unfold string1. by rewrite of_codes_codes, Hs.
Qed.
(** A zone has one node of joins. *)
Definition one_zgc (tree : node) : Prop :=
  forall r zone, length r = 2%nat -> node_at tree r = Some zone -> (length (filter (fun c => get_label c = "ZoneGridConnectivity_t") (get_children zone)) <= 1)%nat.

Lemma add_donor_wf name c : wf c -> wf (add_donor_name to_float32 name c).1 /\ get_name (add_donor_name to_float32 name c).1 = get_name c.
Proof using Type.
  intros Hc. destruct (add_donor_cases name c) as [[-> _]|(v & _ & Hn & ->)]; [done|]. cbn [fst]. split; [|done].
  apply wf_same_children; [done| |]; destruct Hc as [nm pv cs l _ _ Hnd Hcs]; cbn [get_children] in *.
  - unfold get_names. rewrite fmap_app. apply NoDup_app. split; [done|]. split; [|apply NoDup_singleton]. intros x Hx ->%list_elem_of_singleton. done.
  - apply Forall_app. split; [done|]. apply Forall_singleton. by constructor; [..|constructor|constructor].
Qed.

(** The names on the way to a node. *)
Lemma names_at_lookup n r k : (k < length r)%nat -> names_at n r !! k = get_name <$> node_at n (take (S k) r).
Proof using Type.
  revert n k. induction r as [|i r IH]; intros n k Hk; [cbn in Hk; lia|]. cbn [names_at take node_at]. destruct (get_children n !! i) as [c|]; [|done].
  destruct k as [|k]; [done|]. cbn [lookup list_lookup]. rewrite IH by (cbn in Hk; lia). done.
Qed.
Lemma node_at_snoc n r i c d : node_at n r = Some c -> node_at n (r ++ [i]) = Some d -> get_children c !! i = Some d.
Proof using Type.
  revert n. induction r as [|j r IH]; intros n; cbn [node_at app].
  - intros [= ->]. destruct (get_children c !! i) as [e|]; [|done]. by intros [= ->].
  - destruct (get_children n !! j) as [e|]; [|done]. apply IH.
Qed.
Lemma head_label_same label l l' : Forall2 (fun a b => get_name a = get_name b /\ get_label a = get_label b) l l' ->
  get_name <$> head (filter (fun c => get_label c = label) l) = get_name <$> head (filter (fun c => get_label c = label) l').
Proof using Type.
  induction 1 as [|a b l l' [Hn Hl] _ IH]; [done|]. rewrite !filter_cons. destruct (decide (get_label a = label)) as [E|E].
  - rewrite decide_True by congruence. cbn. by rewrite Hn.
  - by rewrite decide_False by congruence.
Qed.
Lemma head_only (P : node -> Prop) `{!forall c, Decision (P c)} l c : (length (filter P l) <= 1)%nat -> c ∈ l -> P c -> head (filter P l) = Some c.
Proof using Type.
  intros Hl Hc HP. assert (Hin : c ∈ filter P l) by by apply list_elem_of_filter. destruct (filter P l) as [|x [|y l']]; [by apply not_elem_of_nil in Hin| |cbn in Hl; lia].
  apply list_elem_of_singleton in Hin. by subst.
Qed.
(** The zone of a join, and the name of its node of joins, after the edits. *)
Lemma zone_of_join t1 t2 rs r :
  wf t2 -> one_zgc t1 -> join_refs without_donor t1 = Ret rs -> r ∈ rs -> same_above 4 same_join t1 t2 ->
  exists zone zgc, get_node_from_path t2 (py_join slash (take 2 (names_at t2 r))) = Some zone /\
    head (filter (fun c => get_label c = "ZoneGridConnectivity_t") (get_children zone)) = Some zgc /\ names_at t1 r !! 2%nat = Some (get_name zgc).
Proof using Type.
  intros Hw Hz Hrs Hr Hs. destruct (refs_where_spec _ _ _ Hrs) as [_ Hall]. destruct (Hall r Hr) as [Hl Hk]. cbn in Hl.
  destruct (Hk 1%nat _ eq_refl) as (zone & Hzone & _). destruct (Hk 2%nat _ eq_refl) as (zgc & Hzgc & Hlab).
  assert (Hname : names_at t1 r !! 2%nat = Some (get_name zgc)) by (rewrite names_at_lookup by lia; by rewrite Hzgc).
  assert (Hchild : zgc ∈ get_children zone).
  { destruct r as [|i [|j [|k r]]]; try done. eapply list_elem_of_lookup_2, (node_at_snoc t1 [i; j] k); done. }
  assert (Hl2 : length (take 2 r) = 2%nat) by (rewrite length_take; lia).
  assert (Hlabel : get_label zgc = "ZoneGridConnectivity_t").
  { unfold label_is, match_label, match_str_label in Hlab. rewrite Fnmatch.fnmatch_plain in Hlab by done. injection Hlab as Hlab. by apply bool_decide_eq_true in Hlab. }
  pose proof (head_only _ _ _ (Hz _ _ Hl2 Hzone) Hchild Hlabel) as Hhead.
  pose proof (same_node_at 4 same_join t1 t2 (take 2 r) Hs ltac:(lia)) as Hs2. rewrite Hzone in Hs2. destruct (node_at t2 (take 2 r)) as [zone2|] eqn:Hz2; [|done].
  rewrite Hl2 in Hs2. destruct Hs2 as (_ & _ & _ & Hcs).
  pose proof (head_label_same "ZoneGridConnectivity_t" (get_children zone) (get_children zone2)) as Hh. rewrite Hhead in Hh.
  destruct (head (filter _ (get_children zone2))) as [zgc2|] eqn:Eh; [|discriminate Hh; eapply Forall2_impl; [exact Hcs|]; intros a b (? & _ & ? & _); done].
  exists zone2, zgc2. split; [|split; [done|]].
  - rewrite <- names_at_take, path_node; [done|done|by destruct r|by exists zone2].
  - rewrite Hname. symmetry. assert (E : Some (get_name zgc) = Some (get_name zgc2)); [|congruence].
    apply Hh. eapply Forall2_impl; [exact Hcs|]. intros a b (? & _ & ? & _). done.
Qed.

(** The state of a rank once its joins are named. *)
Lemma donor_path_spec t1 t2 rs gcs opp i j ri rj :
  wf t1 -> one_zgc t1 -> join_refs without_donor t1 = Ret rs -> collect t1 = Ret gcs ->
  length opp = length gcs -> (forall i j, opp !! i = Some j -> (j < length gcs)%nat) ->
  name_joins to_float32 gcs opp t1 = (t2, Ret ()) ->
  Forall (fun r => Forall plain_name (names_at t1 r)) rs ->
  rs !! i = Some ri -> rs !! j = Some rj -> opp !! i = Some j ->
  (forall g g', gcs !! i = Some g -> gcs !! j = Some g' -> donor_of (zone_join g) = Ret g'.2) ->
  same_above 4 same_join t1 t2 /\ get_jn_donor_path t2 (path_of t2 ri) = Ret (path_of t2 rj).
Proof using Type.
  intros Hw Hz Hrs Hcol Hlo Hop Hname Hplain Hi Hj Hij Hdon.
  destruct (collect_spec t1 rs Hrs) as (gcs' & Hcol' & Hlen & Hgcs). assert (gcs' = gcs) as -> by congruence. clear Hcol'.
  destruct (refs_where_spec _ _ _ Hrs) as [Hnd Hall].
  destruct (named_list gcs opp Hop Hlo) as [Hfst Hin].
  assert (Hrefs : map (fun g : join_record => g.1.1) gcs = rs).
  { apply list_eq. intros k. rewrite list_lookup_fmap. destruct (rs !! k) as [r|] eqn:Er.
    - destruct (Hgcs k r Er) as (c & _ & ->). done.
    - apply lookup_ge_None in Er. by rewrite lookup_ge_None_2 by lia. }
  unfold name_joins in Hname.
  destruct (edit_all_spec same_join 4 (add_donor_name to_float32) (omap (named_opposite gcs) (zip gcs opp)) t1 t2) as (Hs & Hnode & _);
    [apply same_join_refl|apply same_join_trans|intros; apply add_donor_same| |by rewrite Hfst, Hrefs|done|].
  { apply Forall_forall. intros [r a] Hra. cbn. assert (Hr : r ∈ rs) by (rewrite <- Hrefs, <- Hfst; apply list_elem_of_fmap; by exists (r, a)). by destruct (join_refs_node _ _ _ _ Hrs Hr). }
  split; [done|].
  assert (Hw2 : wf t2).
  { change t2 with (t2, Ret ()).1. rewrite <- Hname. apply edit_all_wf; [|done]. intros name c Hc. by apply add_donor_wf. }
  assert (Hnm : forall r, length r = 4%nat -> names_at t2 r = names_at t1 r).
  { intros r Hr. symmetry. eapply same_names; [|exact Hs|lia]. by intros a b (-> & _). }
  destruct (Hgcs i ri Hi) as (ci & Hci & Hgi). destruct (Hgcs j rj Hj) as (cj & Hcj & Hgj).
  assert (Hrj : rj ∈ rs) by by eapply list_elem_of_lookup_2. assert (Hri : ri ∈ rs) by by eapply list_elem_of_lookup_2.
  destruct (Hall ri Hri) as [Hli _]. destruct (Hall rj Hrj) as [Hlj Hkj]. cbn in Hli, Hlj.
  specialize (Hin i j _ _ Hij Hgi Hgj). cbn [fst snd] in Hin. destruct (Hnode _ _ _ Hin Hci) as [Hni Hres].
  destruct (add_donor_cases (get_name cj) ci) as [[_ [e He]]|(v & Hv & Hfree & Hadd)]; [congruence|]. rewrite Hadd in Hni. cbn [fst] in Hni.
  set (ci' := Node _ _ _ _) in Hni.
  assert (Hni4 : length (names_at t1 ri) = 4%nat) by (rewrite names_at_length; [done|by exists ci]).
  assert (Hnj4 : length (names_at t1 rj) = 4%nat) by (rewrite names_at_length; [done|by exists cj]).
  assert (Hlast : names_at t1 rj !! 3%nat = Some (get_name cj)).
  { rewrite names_at_lookup by lia. rewrite take_ge by lia. by rewrite Hcj. }
  assert (Hpl : plain_name (get_name cj)).
  { rewrite Forall_forall in Hplain. specialize (Hplain rj Hrj). rewrite Forall_forall in Hplain. apply Hplain. by eapply list_elem_of_lookup_2. }
  specialize (Hdon _ _ Hgi Hgj). unfold donor_of, zone_join, base_of in Hdon. cbn [fst snd] in Hdon.
  pose proof (names_at_wf t1 ri Hw) as Hwi. pose proof (names_at_wf t1 rj Hw) as Hwj.
  assert (Hpath : get_node_from_path t2 (path_of t2 ri) = Some ci') by (unfold path_of; rewrite path_node; [done|done|by destruct ri|by exists ci']).
  destruct (zone_of_join t1 t2 rs rj Hw2 Hz Hrs Hrj Hs) as (zone & zgc & Hzp & Hzgc & Hzn). rewrite (Hnm rj Hlj) in Hzp.
  unfold get_jn_donor_path. rewrite Hpath. unfold path_of. rewrite !Hnm by done.
  destruct (names_at t1 ri) as [|bi [|zi [|gi [|ni [|]]]]] eqn:Ei; try done. destruct (names_at t1 rj) as [|bj [|zj [|gj [|nj [|]]]]] eqn:Ej; try done.
  cbn [take] in *. rewrite !Forall_cons in Hwi. destruct Hwi as ([Hb1 _] & [Hb2 _] & [Hb3 _] & [Hb4 _] & _).
  rewrite py_split_join in Hdon; [|done|by repeat constructor]. rewrite py_split_join; [|done|by repeat constructor].
  cbn [mbind py_bind of_option]. change (py_get [bi; zi] 0) with (Ret bi) in Hdon. cbn [mbind py_bind] in Hdon.
  assert (Hsame : same_join ci ci') by (pose proof (add_donor_same (get_name cj) ci) as Hx; by rewrite Hadd in Hx).
  rewrite <- (zone_donor_same ci ci' bi Hsame), Hdon. cbn [mbind py_bind].
  rewrite (proj1 (child_search_spec ci' donor_name (fun _ => true) eq_refl)). cbn [mbind py_bind].
  assert (Hd : child_named ci' donor_name = Some (donor_node (get_name cj) v)).
  { unfold child_named, ci'. cbn [get_children]. rewrite filter_app, filter_cons, decide_True by done. rewrite (filter_none_nil _ (get_children ci)); [done|].
    intros d Hd Hdn. apply Hfree. rewrite <- Hdn. by apply list_elem_of_fmap_2. }
  rewrite Hd. unfold get_value at 1. cbn [donor_node get_raw].
  cbn in Hlast. injection Hlast as Hnj.
  rewrite (plain_value (get_name cj) v); [|done|done]. cbn [mbind py_bind]. rewrite Hzp. cbn [mbind py_bind of_option].
  rewrite child_from_label by done. rewrite Hzgc. cbn [mbind py_bind of_option]. cbn in Hzn. injection Hzn as <-. rewrite <- Hnj. by rewrite join_four.
Qed.

(** ** All the ranks *)

Definition plain_joins (tree : node) (rs : list ref) : Prop := Forall (fun r => Forall plain_name (names_at tree r)) rs.
(** The tree of a rank: it is well-formed, with the joins of the other ranks. *)
Definition rank_tree (rs : list ref) (tree : node) : Prop :=
  wf tree /\ one_zgc tree /\ join_refs is_join tree = Ret rs /\ plain_joins tree rs.

Lemma same_joins_refs t t' : same_above 4 same_join t t' -> join_refs is_join t' = join_refs is_join t.
Proof using Type.
  intros Hs. rewrite !join_refs_labels. symmetry. eapply same_refs; [exact Hs|]. intros r c c' Hl Hc Hc' _. apply is_join_same.
  pose proof (same_node_at 4 same_join t t' r Hs ltac:(cbn in Hl; lia)) as Hn. rewrite Hc, Hc' in Hn. cbn in Hl. by rewrite Hl in Hn.
Qed.
Lemma one_zgc_same t t' : same_above 4 same_join t t' -> one_zgc t -> one_zgc t'.
Proof using Type.
  intros Hs Hz r zone Hl Hr. pose proof (same_node_at 4 same_join t t' r Hs ltac:(lia)) as Hn. rewrite Hr, Hl in Hn. destruct (node_at t r) as [zone0|] eqn:E0; [|done].
  specialize (Hz r zone0 Hl E0). destruct Hn as (_ & _ & _ & Hc). etransitivity; [|exact Hz]. clear -Hc. induction Hc as [|a b l l' Hab _ IH]; [done|]. rewrite !filter_cons.
  destruct Hab as (_ & _ & Hl & _). destruct (decide (get_label a = "ZoneGridConnectivity_t")); [rewrite decide_True by congruence; cbn; lia|]. by rewrite decide_False by congruence.
Qed.
Lemma rank_forget rs tree t1 : rank_tree rs tree -> forget_donors true tree = Ret t1 ->
  rank_tree rs t1 /\ join_refs without_donor t1 = Ret rs.
Proof using Type.
  intros (Hw & Hz & Hrs & Hp) Hf. destruct (forget_spec tree t1 Hw Hf) as (rs' & Hrs' & Hw1 & Hs & Hrs1). assert (rs' = rs) as -> by congruence. split; [|done].
  repeat split; [done|by eapply one_zgc_same|by rewrite (same_joins_refs _ _ Hs)|]. unfold plain_joins in *. rewrite Forall_forall in Hp |- *. intros r Hr.
  rewrite <- (same_names 4 same_join tree t1); [by apply Hp| |done|]; [by intros a b (-> & _)|]. destruct (join_refs_node _ _ _ _ Hrs Hr) as [-> _]. done.
Qed.

(** The opposite of each join, from the tables of the ranks. *)
Lemma tables_opposite n gcs tables :
  Forall (fun l : list join_record => length l = n) gcs -> mapM local_table gcs = Ret tables -> gcs <> [] -> one_per_column (reduce_tables tables) = true ->
  let opp := where_columns (reduce_tables tables) in
  length opp = n /\ (forall i j, opp !! i = Some j -> opp !! j = Some i /\ (j < n)%nat) /\
  Forall (fun l => forall i j g g', opp !! i = Some j -> l !! i = Some g -> l !! j = Some g' -> donor_of (zone_join g) = Ret g'.2) gcs.
Proof using Type.
  intros Hn Ht Hne Ho. apply py_mapM_Ret in Ht. cbn zeta.
  assert (Hf : Forall2 (fun l t => square n t /\ symmetric_table t /\
    forall i j g g', entry t i j = Some true -> l !! i = Some g -> l !! j = Some g' -> opposite (zone_join g) (zone_join g')) gcs tables).
  { eapply Forall2_impl_in_l; [exact Ht|]. intros l t Hl Hlt. rewrite Forall_forall in Hn. rewrite <- (Hn l Hl). by apply local_table_spec. }
  destruct tables as [|t ts]; [by inversion Hf; subst|].
  destruct (reduce_tables_spec n t ts) as (Hq & Hs & He).
  { eapply Forall2_Forall_r; [exact Hf|]. apply Forall_forall. intros l _ y (H1 & H2 & _). done. }
  destruct (where_spec n _ Hq Hs Ho) as (opp & <- & Hlen & Hopp). split; [done|]. split.
  - intros i j Hij. apply Hopp in Hij. split; [apply Hopp; by rewrite Hs|]. by destruct (entry_square _ _ _ _ _ Hq Hij).
  - apply Forall_lookup. intros k l Hl i j g g' Hij Hg Hg'. apply Hopp, He in Hij. rewrite Forall2_lookup in Hf. specialize (Hf k). rewrite Hl in Hf.
    destruct ((t :: ts) !! k) as [tk|] eqn:Ek; [|by inversion Hf]. inversion Hf as [? ? (_ & _ & Hk)|]; subst. rewrite Forall_lookup in Hij.
    by destruct (Hk i j g g' (Hij k tk Ek) Hg Hg').
Qed.

(** What the names promise on a rank: the path of the donor of a join is the path of its opposite, whose donor it is. *)
Definition joins_matched (rs : list ref) (opp : list nat) (tree : node) : Prop :=
  join_refs is_join tree = Ret rs /\
  forall i j ri rj, opp !! i = Some j -> rs !! i = Some ri -> rs !! j = Some rj -> get_jn_donor_path tree (path_of tree ri) = Ret (path_of tree rj).

Lemma rank_named rs opp t1 gcs t2 :
  rank_tree rs t1 -> join_refs without_donor t1 = Ret rs -> collect t1 = Ret gcs -> length opp = length rs -> (forall i j, opp !! i = Some j -> (j < length rs)%nat) ->
  (forall i j g g', opp !! i = Some j -> gcs !! i = Some g -> gcs !! j = Some g' -> donor_of (zone_join g) = Ret g'.2) ->
  applied (name_joins to_float32 gcs opp) t1 = Ret t2 -> joins_matched rs opp t2.
Proof using Type.
  intros (Hw & Hz & Hrs & Hp) Hrs1 Hcol Hlo Hop Hdon Hap. unfold applied in Hap. destruct (name_joins to_float32 gcs opp t1) as [t' [[]|]] eqn:En; [|done]. injection Hap as ->.
  destruct (collect_spec t1 rs Hrs1) as (gcs' & Hcol' & Hlen & _). assert (gcs' = gcs) as -> by congruence.
  assert (Hmain : forall i j ri rj, opp !! i = Some j -> rs !! i = Some ri -> rs !! j = Some rj ->
    same_above 4 same_join t1 t2 /\ get_jn_donor_path t2 (path_of t2 ri) = Ret (path_of t2 rj)).
  { intros i j ri rj Hij Hi Hj. apply (donor_path_spec t1 t2 rs gcs opp i j); try done; [by rewrite Hlen|by rewrite Hlen|]. intros g g'. by apply Hdon. }
  split; [|intros i j ri rj Hij Hi Hj; by destruct (Hmain i j ri rj Hij Hi Hj)].
  destruct opp as [|j opp]; [destruct rs; [|done]; destruct gcs; [|done]; injection En as <-; done|].
  destruct (lookup_lt_is_Some_2 rs 0%nat) as [ri Hi]; [cbn in Hlo; lia|]. destruct (lookup_lt_is_Some_2 rs j (Hop 0%nat j eq_refl)) as [rj Hj].
  destruct (Hmain 0%nat j ri rj eq_refl Hi Hj) as [Hs _]. by rewrite (same_joins_refs _ _ Hs).
Qed.

(** ** Pairs of joins *)

Lemma sorted_pair_sym a b : sorted_pair a b = sorted_pair b a.
Proof using Type.
  unfold sorted_pair, String.ltb. rewrite (String.compare_antisym a b). destruct (String.compare b a) eqn:E; cbn; [|done..].
  apply String.compare_eq_iff in E. by subst.
Qed.
Lemma sorted_pair_cases a b : sorted_pair a b = (a, b) \/ sorted_pair a b = (b, a).
Proof using Type. unfold sorted_pair. case_match; tauto. Qed.

(** Every path of the loop is in a pair with the path of its donor, and each pair is there once. *)
Lemma pair_loop_spec tree paths acc :
  (forall p, p ∈ paths -> exists q, get_jn_donor_path tree p = Ret q) -> NoDup acc ->
  exists pairs, pair_loop tree paths acc = Ret pairs /\ NoDup pairs /\
    forall pr, pr ∈ pairs <-> pr ∈ acc \/ exists p q, p ∈ paths /\ get_jn_donor_path tree p = Ret q /\ pr = sorted_pair p q.
Proof using Type.
  revert acc. induction paths as [|p paths IH]; intros acc Hp Hn.
  { exists acc. split; [done|]. split; [done|]. intros pr. split; [by left|]. intros [?|(p & q & Hin & _)]; [done|]. by apply not_elem_of_nil in Hin. }
  destruct (Hp p) as [q Hq]; [by left|]. cbn [pair_loop]. rewrite Hq. cbn [mbind py_bind]. set (pr0 := sorted_pair p q). set (acc' := if bool_decide _ then _ else _).
  assert (Hacc : NoDup acc' /\ forall pr, pr ∈ acc' <-> pr ∈ acc \/ pr = pr0).
  { unfold acc'. case_bool_decide as E; [split; [done|]; set_solver|]. split; [|set_solver]. apply NoDup_app. split; [done|]. split; [set_solver|apply NoDup_singleton]. }
  destruct Hacc as [Hacc1 Hacc2]. destruct (IH acc') as (pairs & E & Hnp & Hpairs); [intros x Hx; apply Hp; by right|done|]. exists pairs. split; [done|]. split; [done|].
  intros pr. rewrite Hpairs, Hacc2. split.
  - intros [[Hx0| ->]|(x & y & Hx & Hy & ->)]; [by left|right; exists p, q; split; [by left|done]|right; exists x, y; split; [by right|done]].
  - intros [?|(x & y & Hx & Hy & ->)]; [tauto|]. apply elem_of_cons in Hx as [->|Hx]; [left; right; unfold pr0; congruence|right; by exists x, y].
Qed.

Lemma join_paths_all tree rs : join_refs is_join tree = Ret rs -> join_paths (fun _ => Ret true) tree = Ret (map (path_of tree) rs).
Proof using Type.
  intros Hrs. unfold join_paths. assert (E : join_refs (fun n => b ← is_join n; if (b : bool) then Ret true else Ret false) tree = Ret rs); [|by rewrite E].
  rewrite <- Hrs, !join_refs_labels. apply (same_refs join_labels _ _ eq); [by apply same_above_refl|]. intros r c c' _ Hc Hc' _. assert (c' = c) as -> by congruence. by destruct (is_join c) as [[|]|].
Qed.

(** C19: On a tree whose donor paths follow a pairing, each join is in one pair, with its opposite. *)
Theorem matching_pairs_spec rs opp tree :
  joins_matched rs opp tree -> length opp = length rs -> (forall i j, opp !! i = Some j -> opp !! j = Some i /\ (j < length rs)%nat) ->
  exists pairs, get_matching_jns (fun _ => Ret true) tree = Ret pairs /\ NoDup pairs /\
    (forall i j ri rj, opp !! i = Some j -> rs !! i = Some ri -> rs !! j = Some rj ->
       forall pr, pr ∈ pairs /\ (pr.1 = path_of tree ri \/ pr.2 = path_of tree ri) <-> pr = sorted_pair (path_of tree ri) (path_of tree rj)) /\
    forall pr, pr ∈ pairs -> pr.1 ∈ map (path_of tree) rs /\ pr.2 ∈ map (path_of tree) rs.
Proof using Type.
  intros [Hrs Hm] Hl Ho. unfold get_matching_jns. rewrite (join_paths_all tree rs Hrs). cbn [mbind py_bind].
  assert (Hex : forall p, p ∈ map (path_of tree) rs -> exists q, get_jn_donor_path tree p = Ret q /\ q ∈ map (path_of tree) rs /\ get_jn_donor_path tree q = Ret p).
  { intros p (ri & -> & Hri)%list_elem_of_fmap. apply list_elem_of_lookup in Hri as [i Hi]. pose proof (lookup_lt_Some _ _ _ Hi) as Hil.
    destruct (lookup_lt_is_Some_2 opp i) as [j Hij]; [lia|]. destruct (Ho i j Hij) as [Hji Hj]. destruct (lookup_lt_is_Some_2 rs j Hj) as [rj Hrj].
    exists (path_of tree rj). split; [by eapply (Hm i j ri rj)|]. split; [apply list_elem_of_fmap_2; by eapply list_elem_of_lookup_2|by eapply (Hm j i rj ri)]. }
  destruct (pair_loop_spec tree (map (path_of tree) rs) []) as (pairs & E & Hn & Hpairs); [intros p Hp; destruct (Hex p Hp) as (q & ? & _); by exists q|constructor|].
  exists pairs. split; [done|]. split; [done|]. split.
  - intros i j ri rj Hij Hi Hj pr. rewrite Hpairs. pose proof (Hm i j ri rj Hij Hi Hj) as Hd. split.
    + intros [[Hx%not_elem_of_nil|(p & q & Hp & Hq & ->)] Hor]; [done|]. destruct (Hex p Hp) as (q' & Hq' & _ & Hback). assert (q' = q) as -> by congruence.
      assert (Hc : p = path_of tree ri \/ q = path_of tree ri) by (destruct (sorted_pair_cases p q) as [Es|Es]; rewrite Es in Hor; cbn in Hor; tauto).
      destruct Hc as [->| ->]; [congruence|]. rewrite sorted_pair_sym. congruence.
    + intros ->. split; [right; exists (path_of tree ri), (path_of tree rj); split; [apply list_elem_of_fmap_2; by eapply list_elem_of_lookup_2|done]|].
      destruct (sorted_pair_cases (path_of tree ri) (path_of tree rj)) as [-> | ->]; cbn; tauto.
  - intros pr [Hx%not_elem_of_nil|(p & q & Hp & Hq & ->)]%Hpairs; [done|]. destruct (Hex p Hp) as (q' & Hq' & Hin & _). assert (q' = q) as -> by congruence.
    destruct (sorted_pair_cases p q) as [-> | ->]; done.
Qed.

(** C18: Naming the joins with [force], on ranks that have the same joins: when it returns, the donor paths of all the
    ranks follow one pairing of the joins. *)
Theorem donor_names_opposite trees trees' rs :
  Forall (rank_tree rs) trees -> add_joins_donor_name to_float32 true trees = Ret trees' -> trees <> [] -> rs <> [] ->
  exists opp, length opp = length rs /\ (forall i j, opp !! i = Some j -> opp !! j = Some i /\ (j < length rs)%nat) /\
    length trees' = length trees /\ Forall (joins_matched rs opp) trees'.
Proof using Type.
  intros Hr Ha Hne Hrs. unfold add_joins_donor_name in Ha. destruct (mapM (forget_donors true) trees) as [ts|] eqn:Ef; [|done]. cbn [mbind py_bind] in Ha. apply py_mapM_Ret in Ef.
  assert (Hts : Forall (fun t => rank_tree rs t /\ join_refs without_donor t = Ret rs) ts).
  { eapply Forall2_Forall_r; [exact Ef|]. eapply Forall_impl; [exact Hr|]. intros t Ht t1. by apply rank_forget. }
  assert (Hl : length ts = length trees) by by rewrite (Forall2_length _ _ _ Ef).
  destruct (mapM collect ts) as [gcs|] eqn:Ec; [|done]. cbn [mbind py_bind] in Ha. apply py_mapM_Ret in Ec.
  assert (Hlen : Forall (fun l : list join_record => length l = length rs) gcs).
  { eapply Forall2_Forall_r; [exact Ec|]. eapply Forall_impl; [exact Hts|]. intros t [_ Ht] l Hl'. destruct (collect_spec t rs Ht) as (l' & E & ? & _). congruence. }
  assert (Hg0 : gcs <> []) by (intros ->; apply Forall2_length in Ec; destruct ts, trees; done).
  assert (Hany : forallb (fun l => bool_decide (l = [])) gcs = false).
  { destruct gcs as [|l gcs]; [done|]. apply Forall_cons in Hlen as [Hl0 _]. cbn. rewrite bool_decide_eq_false_2; [done|]. intros ->. by destruct rs. }
  rewrite Hany in Ha. destruct (mapM local_table gcs) as [tables|] eqn:Et; [|done]. cbn [mbind py_bind] in Ha.
  unfold py_assert in Ha. destruct (one_per_column (reduce_tables tables)) eqn:Eo; [|done]. cbn [mbind py_bind] in Ha. apply py_mapM_Ret in Ha.
  destruct (tables_opposite (length rs) gcs tables Hlen Et Hg0 Eo) as (H1 & H2 & H3). set (opp := where_columns _) in *. exists opp. split; [done|]. split; [done|].
  assert (Hz : length (zip ts gcs) = length trees) by (rewrite length_zip_with, (Forall2_length _ _ _ Ec); apply Forall2_length in Ec; lia).
  split; [by rewrite <- (Forall2_length _ _ _ Ha)|]. eapply Forall2_Forall_r; [exact Ha|]. apply Forall_lookup. intros k [t l] Hk t' Ht'. apply lookup_zip_with_Some in Hk as (t0 & l0 & [= <- <-] & Htk & Hlk).
  rewrite Forall_lookup in Hts. rewrite Forall_lookup in H3. destruct (Hts k t Htk) as [Ht1 Ht2]. rewrite Forall2_lookup in Ec. specialize (Ec k). rewrite Htk, Hlk in Ec. inversion Ec; subst.
  apply (rank_named rs opp t l t'); try done; [|by apply (H3 k)]. intros i j Hij. by destruct (H2 i j Hij).
Qed.

End spec.

(** ** Two zones on two ranks *)

Definition pl_value (l : list Z) : value := Some (NpArray T_I4 [1; zlen l] true l).
Definition join_node (name opp : string) (pl pld : list Z) : node :=
  Node name (text_value opp)
    [Node "GridConnectivityType" (text_value "Abutting1to1") [] "GridConnectivityType_t"; Node "PointList" (pl_value pl) [] "IndexArray_t"; Node "PointListDonor" (pl_value pld) [] "IndexArray_t"]
    "GridConnectivity_t".
Definition joined_zone (name : string) (gcs : list node) : node := Node name None [Node "ZGC" None gcs "ZoneGridConnectivity_t"] "Zone_t".
Definition joined_tree (m n : list Z) : node :=
  Node "CGNSTree" None [Node "Base" None [joined_zone "ZA" [join_node "m1" "ZB" m n; join_node "m2" "Base/ZA" [5] [6]; join_node "m3" "ZA" [6] [5]]; joined_zone "ZB" [join_node "n" "ZA" n m]] "CGNSBase_t"] "CGNSTree_t".
Definition example_refs : list ref := [[0; 0; 0; 0]; [0; 0; 0; 1]; [0; 0; 0; 2]; [0; 1; 0; 0]]%nat.


Lemma example_rank (m n : list Z) : let ae : ArrayEqual := fun _ _ => true in rank_tree example_refs (joined_tree m n).
Proof.
  cbn zeta. split; [solve_wf|]. split; [|split; [reflexivity|]].
  - intros r zone Hl Hr. destruct r as [|[|i] [|[|[|j]] [|]]]; try done; cbn in Hr; injection Hr as <-; reflexivity.
  - unfold plain_joins, example_refs. repeat apply Forall_cons_2; try apply Forall_nil_2; cbn; repeat apply Forall_cons_2; try apply Forall_nil_2; split; reflexivity.
Qed.

Lemma donor_names_opposite_witness :
  let ae : ArrayEqual := fun _ _ => true in
  exists trees', add_joins_donor_name (fun x => x) true [joined_tree [1; 2] [3; 4]; joined_tree [7] [8]] = Ret trees' /\
    exists opp, length opp = 4%nat /\ Forall (joins_matched example_refs opp) trees'.
Proof.
  cbn zeta. eexists. split; [vm_compute; reflexivity|].
  destruct (@donor_names_opposite (fun _ _ => true) (fun x => x) [joined_tree [1; 2] [3; 4]; joined_tree [7] [8]]
    (match add_joins_donor_name (H := fun _ _ => true) (fun x => x) true [joined_tree [1; 2] [3; 4]; joined_tree [7] [8]] with Ret l => l | _ => [] end) example_refs) as (opp & H1 & _ & _ & H2);
    [apply Forall_cons_2; [apply example_rank|apply Forall_cons_2; [apply example_rank|apply Forall_nil_2]]|vm_compute; reflexivity|done|done|].
  exists opp. split; [exact H1|exact H2].
Defined.

Lemma matching_pairs_spec_witness :
  let ae : ArrayEqual := fun _ _ => true in
  exists tree, add_joins_donor_name (fun x => x) true [joined_tree [1; 2] [3; 4]] = Ret [tree] /\
    get_matching_jns (fun _ => Ret true) tree = Ret [("Base/ZA/ZGC/m1", "Base/ZB/ZGC/n"); ("Base/ZA/ZGC/m2", "Base/ZA/ZGC/m3")].
Proof.
  cbn zeta. set (ae := (fun _ _ => true) : ArrayEqual).
  set (tree := match @add_joins_donor_name ae (fun x => x) true [joined_tree [1; 2] [3; 4]] with Ret [t] => t | _ => joined_tree [] [] end).
  exists tree. split; [vm_compute; reflexivity|].
  destruct (@matching_pairs_spec ae example_refs [3; 2; 1; 0]%nat tree) as (pairs & E & _); [|done| |].
  - split; [vm_compute; reflexivity|]. intros [|[|[|[|i]]]] j ri rj Hij Hi Hj; try done; injection Hij as <-; injection Hi as <-; injection Hj as <-; vm_compute; reflexivity.
  - intros [|[|[|[|i]]]] j Hij; try done; injection Hij as <-; (split; [done|cbn; lia]).
  - rewrite E. vm_compute in E. symmetry. exact E.
Defined.
End JoinsSpec.
