(* ===== verification/Filters.v ===== *)
(** * Filters of a tree: [maia/io/hdf/tree.py], [cgns_subsets.py], [cgns_elements.py] and [utils.py]

    Before a file is read or written, each rank prepares the dictionary that says, for the path of an array, which
    part of it the rank holds.  The dictionary is a finite map; the connectivities whose distribution is only known
    once their offsets are read have a deferred entry, the path of the element node. *)
From Stdlib Require Import Ascii.
From S2P Require Import Prelude PyUtils Numbering Slabs NpUtils Values Conventions Fnmatch Tree Parsers Walkers Search Distribution Dataspace Sids Refs Presets MaiaNodes.

Local Open Scope Z_scope.

Module Filters.
Import Values Tree Walkers Search Distribution Dataspace Sids Refs Presets MaiaNodes.

(** The bound method [partial(load_element_connectivity_from_eso, elmt, zone_path)] is the path of the element. *)
Inductive entry : Type :=
| Space (ds : dataspace)
| FromOffsets (elmt_path : list string).
Abbreviation hdf_filter := (gmap string entry).

Definition sub_path (path name : string) : string := path +:+ "/" +:+ name.

Section filters.
Context `{ArrayEqual} (to_float32 : Z -> Z) (astype : cgns_type -> cgns_type -> Z -> Z).

(** A distribution array is read when it is used. *)
Definition partial_of (v : read_value) : py partial :=
  match v with
  | Raw v => first ← elem v 0; last ← elem v 1; total ← elem v 2; Ret (Partial first last total)
  | Text _ => Raise TypeError
  end.
Definition distribution_of (n : node) (name : string) : py read_value := d ← getDistribution n (Some name); value_of d.
(** The sizes of an array, in a one-dimensional array. *)
Definition shape_in (v : read_value) : py (option (list Z)) :=
  match v with
  | Raw None => Ret None
  | Raw (Some a) => match a_shape a with [_] => Ret (Some (a_data a)) | _ => Raise TypeError end
  | Text _ => Raise TypeError
  end.
Definition array_filter (distrib : read_value) (data_shape : option (list Z)) : py dataspace :=
  p ← partial_of distrib; create_data_array_filter p data_shape.

Definition apply_dataspace_to_arrays (n : node) (node_path : string) (data_space : dataspace) (flt : hdf_filter) : py hdf_filter :=
  arrays ← iter_children_from_label n (StrLabel "DataArray_t") no_kw;
  Ret (foldl (fun flt data_array => <[sub_path node_path (get_name data_array) := Space data_space]> flt) flt arrays).

(** ** Subsets *)

Definition _create_pl_filter (n : node) (node_path pl_name : string) (distri_index : read_value) (flt : hdf_filter) : py hdf_filter :=
  pl_node ← get_child_from_name n pl_name no_kw;
  match pl_node with
  | None => Ret flt
  | Some pl =>
      idx_dim ← match get_raw pl with
                | Some a => py_get (a_shape a) 0
                | None => s ← get_child_from_name n (pl_name +:+ "#Size") no_kw; v ← raw_of s; elem v 0
                end;
      p ← partial_of distri_index;
      Ret (<[sub_path node_path pl_name := Space (create_pointlist_dataspace p idx_dim)]> flt)
  end.

(** [PT.get_child_from_name(distrib_n, 'Index')[1]] *)
Definition index_of (distrib_n : node) : py read_value := c ← get_child_from_name distrib_n "Index" no_kw; Raw <$> raw_of c.
Definition bcds_filter (distrib_bc : read_value) (bc_path : string) (flt : hdf_filter) (bcds : node) : py hdf_filter :=
  let bcds_path := sub_path bc_path (get_name bcds) in
  distrib_bcds_n ← getDistribution bcds None;
  r ← match distrib_bcds_n with
      | None => Ret (distrib_bc, flt)
      | Some d => distrib_data ← index_of d; flt ← _create_pl_filter bcds bcds_path "PointList" distrib_data flt; Ret (distrib_data, flt)
      end;
  let '(distrib_data, flt) := r in
  size_node ← get_child_from_name bcds "*#Size" (with_depth (DInt 2) no_kw);
  data_shape ← match size_node with Some n => v ← get_value n false; shape_in v | None => Ret None end;
  data_space_array ← array_filter distrib_data data_shape;
  bcdatas ← iter_children_from_label bcds (StrLabel "BCData_t") no_kw;
  foldM (fun flt bcdata => apply_dataspace_to_arrays bcdata (sub_path bcds_path (get_name bcdata)) data_space_array flt) flt bcdatas.
Definition bc_filter (zone_bc_path : string) (flt : hdf_filter) (bc : node) : py hdf_filter :=
  let bc_path := sub_path zone_bc_path (get_name bc) in
  distrib_bc ← distribution_of bc "Index";
  flt ← _create_pl_filter bc bc_path "PointList" distrib_bc flt;
  bcdss ← iter_children_from_label bc (StrLabel "BCDataSet_t") no_kw;
  foldM (bcds_filter distrib_bc bc_path) flt bcdss.
Definition create_zone_bc_filter (zone : node) (zone_path : string) (flt : hdf_filter) : py hdf_filter :=
  zone_bcs ← iter_children_from_label zone (StrLabel "ZoneBC_t") no_kw;
  foldM (fun flt zone_bc =>
      bcs ← iter_children_from_label zone_bc (StrLabel "BC_t") no_kw;
      foldM (bc_filter (sub_path zone_path (get_name zone_bc))) flt bcs) flt zone_bcs.

Definition gc_filter (zone_gc_path : string) (flt : hdf_filter) (gc : node) : py hdf_filter :=
  let gc_path := sub_path zone_gc_path (get_name gc) in
  distrib_ia ← distribution_of gc "Index";
  flt ← _create_pl_filter gc gc_path "PointList" distrib_ia flt;
  _create_pl_filter gc gc_path "PointListDonor" distrib_ia flt.
Definition create_zone_grid_connectivity_filter (zone : node) (zone_path : string) (flt : hdf_filter) : py hdf_filter :=
  zone_gcs ← iter_children_from_label zone (StrLabel "ZoneGridConnectivity_t") no_kw;
  foldM (fun flt zone_gc =>
      gcs ← iter_children_from_label zone_gc (StrLabel "GridConnectivity_t") no_kw;
      foldM (gc_filter (sub_path zone_path (get_name zone_gc))) flt gcs) flt zone_gcs.

Definition flow_solution_filter (zone : node) (zone_path : string) (distrib_vtx distrib_cell : read_value) (flt : hdf_filter) (flow_solution : node) : py hdf_filter :=
  let flow_solution_path := sub_path zone_path (get_name flow_solution) in
  grid_location ← Subset_GridLocation flow_solution;
  distrib_ud_n ← getDistribution flow_solution None;
  r ← match distrib_ud_n with
      | Some d =>
          distrib_data ← index_of d;
          flt ← _create_pl_filter flow_solution flow_solution_path "PointList" distrib_data flt;
          data_space ← array_filter distrib_data None; Ret (data_space, flt)
      | None =>
          if is_text grid_location "CellCenter" then s ← column_of (get_raw zone) 1; data_space ← array_filter distrib_cell (Some s); Ret (data_space, flt)
          else if is_text grid_location "Vertex" then s ← column_of (get_raw zone) 0; data_space ← array_filter distrib_vtx (Some s); Ret (data_space, flt)
          else Raise RuntimeError
      end;
  let '(data_space, flt) := r in
  apply_dataspace_to_arrays flow_solution flow_solution_path data_space flt.
Definition create_flow_solution_filter (zone : node) (zone_path : string) (flt : hdf_filter) : py hdf_filter :=
  distrib_vtx ← distribution_of zone "Vertex";
  distrib_cell ← distribution_of zone "Cell";
  flow_solutions ← iter_children_from_label zone (StrLabel "FlowSolution_t") no_kw;
  foldM (flow_solution_filter zone zone_path distrib_vtx distrib_cell) flt flow_solutions.

Definition subregion_filter (zone : node) (zone_path : string) (flt : hdf_filter) (zone_subregion : node) : py hdf_filter :=
  let zone_subregion_path := sub_path zone_path (get_name zone_subregion) in
  matching_region_path ← Subset_ZSRExtent zone_subregion zone;
  matching_region ← of_option AssertionError (get_node_from_path zone matching_region_path);
  distrib_ud_n ← getDistribution matching_region None;
  d ← of_option RuntimeError distrib_ud_n;
  distrib_data ← index_of d;
  flt ← _create_pl_filter zone_subregion zone_subregion_path "PointList" distrib_data flt;
  data_space_ar ← array_filter distrib_data None;
  apply_dataspace_to_arrays zone_subregion zone_subregion_path data_space_ar flt.
Definition create_zone_subregion_filter (zone : node) (zone_path : string) (flt : hdf_filter) : py hdf_filter :=
  subregions ← iter_children_from_label zone (StrLabel "ZoneSubRegion_t") no_kw;
  foldM (subregion_filter zone zone_path) flt subregions.

(** ** Elements *)

Definition has_child (n : node) (name : string) : py bool := c ← get_child_from_name n name no_kw; Ret (bool_decide (is_Some c)).
Definition pe_filter (elmt : node) (zone_path : string) (distrib_elmt : partial) (flt : hdf_filter) : py hdf_filter :=
  let elmt_path := sub_path zone_path (get_name elmt) in
  pe ← has_child elmt "ParentElements";
  if (pe : bool) then
    let data_space := create_pe_dataspace distrib_elmt in
    let flt := <[sub_path elmt_path "ParentElements" := Space data_space]> flt in
    pos ← has_child elmt "ParentElementsPosition";
    Ret (if (pos : bool) then <[sub_path elmt_path "ParentElementsPosition" := Space data_space]> flt else flt)
  else Ret flt.
Definition create_zone_eso_elements_filter (elmt : node) (zone_path : string) (m : mode) (flt : hdf_filter) : py hdf_filter :=
  let elmt_path := sub_path zone_path (get_name elmt) in
  distrib ← distribution_of elmt "Element";
  distrib_elmt ← partial_of distrib;
  flt ← pe_filter elmt zone_path distrib_elmt flt;
  eso ← has_child elmt "ElementStartOffset";
  let flt := if (eso : bool) then <[sub_path elmt_path "ElementStartOffset" := Space (eso_dataspace m distrib_elmt)]> flt else flt in
  ec ← has_child elmt "ElementConnectivity";
  if (ec : bool) then
    if (eso : bool) then Ret (<[sub_path elmt_path "ElementConnectivity" := FromOffsets [zone_path; get_name elmt]]> flt)
    else (_ ← Element_CGNSName elmt; Raise RuntimeError)
  else Ret flt.
Definition create_zone_std_elements_filter (elmt : node) (zone_path : string) (flt : hdf_filter) : py hdf_filter :=
  distrib ← distribution_of elmt "Element";
  distrib_elmt ← partial_of distrib;
  npe ← Element_NVtx elmt;
  elmt_npe ← of_option TypeError npe;
  let flt := <[sub_path (sub_path zone_path (get_name elmt)) "ElementConnectivity" := Space (std_elements_dataspace distrib_elmt elmt_npe)]> flt in
  pe_filter elmt zone_path distrib_elmt flt.
Definition element_filter (zone_path : string) (m : mode) (flt : hdf_filter) (elmt : node) : py hdf_filter :=
  name ← Element_CGNSName elmt;
  if bool_decide (name ∈ ["NGON_n"; "NFACE_n"; "MIXED"]) then create_zone_eso_elements_filter elmt zone_path m flt
  else create_zone_std_elements_filter elmt zone_path flt.
Definition create_zone_elements_filter (zone_tree : node) (zone_path : string) (m : mode) (flt : hdf_filter) : py hdf_filter :=
  elmts ← iter_children_from_label zone_tree (StrLabel "Elements_t") no_kw;
  foldM (element_filter zone_path m) flt elmts.

(** The deferred entry, called with the element: the distribution of the connectivity is added if it is missing. *)
Definition load_element_connectivity_from_eso (zone_path : string) (flt : hdf_filter) : st hdf_filter :=
  distrib ← reading (fun elmt => getDistribution elmt None);
  distrib ← st_lift (of_option TypeError distrib);
  ec ← st_lift (get_child_from_name distrib "ElementConnectivity" no_kw);
  _ ← (if bool_decide (ec = None) then compute_connectivity_distribution to_float32 astype else mret ());
  distrib_ec ← reading (fun elmt => d ← getDistribution elmt (Some "ElementConnectivity"); v ← raw_of d; partial_of (Raw v));
  elmt_name ← reading (fun elmt => Ret (get_name elmt));
  mret (<[sub_path (sub_path zone_path elmt_name) "ElementConnectivity" := Space (ec_dataspace distrib_ec)]> flt).

(** ** Zones and trees *)

Definition create_zone_filter (zone : node) (zone_path : string) (m : mode) (flt : hdf_filter) : py hdf_filter :=
  distrib_vtx ← distribution_of zone "Vertex";
  s ← column_of (get_raw zone) 0;
  all_vtx_dataspace ← array_filter distrib_vtx (Some s);
  grid_cs ← iter_children_from_label zone (StrLabel "GridCoordinates_t") no_kw;
  flt ← foldM (fun flt grid_c => apply_dataspace_to_arrays grid_c (sub_path zone_path (get_name grid_c)) all_vtx_dataspace flt) flt grid_cs;
  flt ← create_zone_elements_filter zone zone_path m flt;
  flt ← create_zone_bc_filter zone zone_path flt;
  flt ← create_zone_grid_connectivity_filter zone zone_path flt;
  flt ← create_flow_solution_filter zone zone_path flt;
  create_zone_subregion_filter zone zone_path flt.

Definition zone_step (m : mode) (flt : hdf_filter) (nodes : list node) : py hdf_filter :=
  match nodes with
  | [base; zone] => create_zone_filter zone (sub_path (get_name base) (get_name zone)) m flt
  | _ => Raise ValueError
  end.
Definition create_tree_hdf_filter (dist_tree : node) (m : mode) : py hdf_filter :=
  r ← iter_nodes_from_predicates dist_tree (QsPath "CGNSBase_t/Zone_t") (Kw None None None None None (Some true));
  match r with Tuples l => foldM (zone_step m) ∅ l | Nodes _ => Raise TypeError end.
End filters.

(** ** What an edit of the filter touches *)

Definition below (path key : string) : Prop := exists rest, key = sub_path path rest.
Definition framed (path : string) (flt flt' : hdf_filter) : Prop := forall key, flt' !! key = flt !! key \/ below path key.
Definition no_slash (s : string) : Prop := slash ∉ String.list_ascii_of_string s.

Lemma chars_inj a b : String.list_ascii_of_string a = String.list_ascii_of_string b -> a = b.
Proof. intros E. rewrite <- (String.string_of_list_ascii_of_string a), E. apply String.string_of_list_ascii_of_string. Qed.
Lemma chars_sub_path p s : String.list_ascii_of_string (sub_path p s) = String.list_ascii_of_string p ++ slash :: String.list_ascii_of_string s.
Proof. unfold sub_path. rewrite !Conventions.chars_app. done. Qed.
Lemma sub_path_assoc p a b : sub_path (sub_path p a) b = sub_path p (sub_path a b).
Proof. apply chars_inj. rewrite !chars_sub_path, <- app_assoc. done. Qed.
Lemma sub_path_inj p a b : sub_path p a = sub_path p b -> a = b.
Proof.
  intros E. apply (f_equal String.list_ascii_of_string) in E. rewrite !chars_sub_path in E. apply app_inv_head in E. injection E as E. by apply chars_inj.
Qed.
Lemma slash_split (a b r s : list Ascii.ascii) : slash ∉ a -> slash ∉ b -> a ++ slash :: r = b ++ slash :: s -> a = b /\ r = s.
Proof.
  revert b. induction a as [|x a IH]; intros [|y b] Ha Hb E; cbn in E.
  - by injection E as ->.
  - injection E as E _. exfalso. apply Hb. rewrite E. by left.
  - injection E as E _. exfalso. apply Ha. rewrite E. by left.
  - injection E as -> E. destruct (IH b) as [-> ->]; [set_solver..|done|]. done.
Qed.
Lemma sub_path_head a b r s : no_slash a -> no_slash b -> sub_path a r = sub_path b s -> a = b /\ r = s.
Proof.
  intros Ha Hb E. apply (f_equal String.list_ascii_of_string) in E. rewrite !chars_sub_path in E. apply slash_split in E as [E1 E2]; [|done..].
  split; by apply chars_inj.
Qed.
Lemma below_child p c key : below (sub_path p c) key -> below p key.
Proof. intros [rest ->]. exists (sub_path c rest). by rewrite sub_path_assoc. Qed.
(** Keys below two children are different. *)
Lemma below_disjoint p c d key : no_slash c -> no_slash d -> below (sub_path p c) key -> below (sub_path p d) key -> c = d.
Proof.
  intros Hc Hd [r ->] [s E]. rewrite !sub_path_assoc in E. apply sub_path_inj in E. by apply sub_path_head in E as [E _].
Qed.

Lemma framed_refl p flt : framed p flt flt.
Proof. by left. Qed.
Lemma framed_trans p f1 f2 f3 : framed p f1 f2 -> framed p f2 f3 -> framed p f1 f3.
Proof. intros H1 H2 key. destruct (H2 key) as [->|]; [apply H1|by right]. Qed.
Lemma framed_up p c f1 f2 : framed (sub_path p c) f1 f2 -> framed p f1 f2.
Proof. intros H key. destruct (H key) as [|Hb]; [by left|right; by eapply below_child]. Qed.
Lemma framed_insert p c e flt : framed p flt (<[sub_path p c := e]> flt).
Proof. intros key. destruct (decide (key = sub_path p c)) as [->|Hn]; [right; by exists c|left; by rewrite lookup_insert_ne]. Qed.
Lemma framed_foldM {A} p (f : hdf_filter -> A -> py hdf_filter) l flt flt' :
  (forall x f1 f2, x ∈ l -> f f1 x = Ret f2 -> framed p f1 f2) -> foldM f flt l = Ret flt' -> framed p flt flt'.
Proof.
  revert flt. induction l as [|x l IH]; intros flt Hf; cbn [foldM]; [intros [= ->]; apply framed_refl|]. destruct (f flt x) as [f1|] eqn:E; [|done]. cbn [mbind py_bind].
  intros E'. eapply framed_trans; [by eapply (Hf x); [left|]|]. eapply IH; [|done]. intros y f2 f3 Hy. apply Hf. by right.
Qed.
(** In a loop on children with different names, what is below a child is what its turn has left. *)
Lemma foldM_child p (f : hdf_filter -> node -> py hdf_filter) l flt flt' x :
  (forall x f1 f2, x ∈ l -> f f1 x = Ret f2 -> framed (sub_path p (get_name x)) f1 f2) ->
  Forall (fun x => no_slash (get_name x)) l -> NoDup (get_names l) -> foldM f flt l = Ret flt' -> x ∈ l ->
  exists f1 f2, f f1 x = Ret f2 /\ forall key, below (sub_path p (get_name x)) key -> flt' !! key = f2 !! key.
Proof.
  revert flt. induction l as [|y l IH]; intros flt Hf Hs Hn E Hx; [by apply not_elem_of_nil in Hx|]. cbn [foldM] in E. destruct (f flt y) as [f1|] eqn:E1; [|done]. cbn [mbind py_bind] in E.
  apply Forall_cons in Hs as [Hy Hs]. cbn in Hn. apply NoDup_cons in Hn as [Hyn Hn]. apply elem_of_cons in Hx as [->|Hx].
  - exists flt, f1. split; [done|]. intros key Hk. clear IH E1. revert f1 E. induction l as [|z l IH]; intros f1 E; cbn [foldM] in E; [by injection E as ->|].
    destruct (f f1 z) as [f2|] eqn:E2; [|done]. cbn [mbind py_bind] in E. apply Forall_cons in Hs as [Hz Hs]. cbn in Hyn, Hn. apply NoDup_cons in Hn as [_ Hn].
    assert (Hstep : f2 !! key = f1 !! key).
    { destruct (Hf z f1 f2 ltac:(set_solver) E2 key) as [|Hb]; [done|]. exfalso. apply Hyn. rewrite (below_disjoint p (get_name y) (get_name z) key Hy Hz Hk Hb). by left. }
    rewrite <- Hstep. apply IH; try done; [|set_solver]. intros w g1 g2 Hw. apply Hf. set_solver.
  - apply (IH f1); [|done..]. intros w g1 g2 Hw. apply Hf. by right.
Qed.

Lemma ret_inj {A} (a b : A) : Ret a = Ret b -> a = b.
Proof. congruence. Qed.
Lemma ret_pair {A B} (a a' : A) (b b' : B) : Ret (a, b) = Ret (a', b') -> a = a' /\ b = b'.
Proof. intros H. by injection H. Qed.
(** Inversion of a sequence of calls that returned, one call at a time. *)
Ltac bind_inv H x E :=
  match type of H with
  | mbind _ ?m = _ => destruct m as [x|] eqn:E; [cbn [mbind py_bind] in H|discriminate H]
  | match ?m with Ret _ => _ | Raise _ => _ end = _ => destruct m as [x|] eqn:E; [cbn [mbind py_bind] in H|discriminate H]
  end.

Section spec.
Context `{ArrayEqual}.

Lemma iter_label n label : Fnmatch.plain label = true ->
  iter_children_from_label n (StrLabel label) no_kw = Ret (filter (fun c => get_label c = label) (get_children n)).
Proof.
  intros Hp. unfold iter_children_from_label, iter_nodes_from_label, _overload_depth1, _overload_predicate, iter_nodes_from_predicate. cbn [auto_predicate mbind py_bind kw_depth no_kw].
  rewrite (children_all (fun n => match_label n (StrLabel label))). f_equal. apply list_filter_iff. intros c. unfold match_label, match_str_label. rewrite Fnmatch.fnmatch_plain by done. by rewrite bool_decide_eq_true.
Qed.

Lemma apply_arrays n path ds flt flt' : apply_dataspace_to_arrays n path ds flt = Ret flt' ->
  framed path flt flt' /\ forall a, a ∈ get_children n -> get_label a = "DataArray_t" -> flt' !! sub_path path (get_name a) = Some (Space ds).
Proof.
  unfold apply_dataspace_to_arrays. rewrite iter_label by done. cbn [mbind py_bind]. intros <-%ret_inj. split.
  - generalize (filter (fun c => get_label c = "DataArray_t") (get_children n)) as l. intros l. revert flt. induction l as [|a l IH]; intros flt; [apply framed_refl|].
    cbn [foldl]. eapply framed_trans; [apply framed_insert|apply IH].
  - intros a Ha Hl. assert (Hin : a ∈ filter (fun c => get_label c = "DataArray_t") (get_children n)) by by apply list_elem_of_filter.
    revert flt. induction (filter _ _) as [|b l IH] using rev_ind; intros flt; [by apply not_elem_of_nil in Hin|]. rewrite foldl_app. cbn [foldl].
    destruct (decide (sub_path path (get_name a) = sub_path path (get_name b))) as [->|Hn]; [by rewrite lookup_insert_eq|]. rewrite lookup_insert_ne by done.
    apply IH. apply elem_of_app in Hin as [|Hin]; [done|]. apply list_elem_of_singleton in Hin. by subst.
Qed.
Lemma pl_framed n path name d flt flt' : _create_pl_filter n path name d flt = Ret flt' -> framed path flt flt'.
Proof.
  unfold _create_pl_filter. intros E. bind_inv E pl E1. destruct pl as [pl|]; [|apply ret_inj in E as ->; apply framed_refl]. bind_inv E dim E2. bind_inv E p E3. apply ret_inj in E as <-. apply framed_insert.
Qed.

Lemma bcds_framed d path flt bcds flt' : bcds_filter d path flt bcds = Ret flt' -> framed (sub_path path (get_name bcds)) flt flt'.
Proof.
  unfold bcds_filter. intros E. bind_inv E dn E1. bind_inv E r E2. destruct r as [d' flt1]. bind_inv E sz E3. bind_inv E shape E4. bind_inv E ds E5. rewrite iter_label in E by done. cbn [mbind py_bind] in E.
  eapply (framed_trans _ _ flt1).
  - destruct dn as [dn|]; [|apply ret_pair in E2 as [_ ->]; apply framed_refl]. bind_inv E2 di E6. bind_inv E2 f E7. apply ret_pair in E2 as [_ ->]. by eapply pl_framed.
  - eapply framed_foldM; [|exact E]. intros b f1 f2 _ Hb. destruct (apply_arrays _ _ _ _ _ Hb) as [Hb' _]. eapply framed_up. exact Hb'.
Qed.
Lemma bc_framed path flt bc flt' : bc_filter path flt bc = Ret flt' -> framed (sub_path path (get_name bc)) flt flt'.
Proof.
  unfold bc_filter. intros E. bind_inv E d E1. bind_inv E f1 E2. rewrite iter_label in E by done. cbn [mbind py_bind] in E. eapply framed_trans; [by eapply pl_framed|].
  eapply framed_foldM; [|exact E]. intros b f2 f3 _ Hb. apply (framed_up _ _ _ _ (bcds_framed _ _ _ _ _ Hb)).
Qed.
Lemma gc_framed path flt gc flt' : gc_filter path flt gc = Ret flt' -> framed (sub_path path (get_name gc)) flt flt'.
Proof.
  unfold gc_filter. intros E. bind_inv E d E1. bind_inv E f1 E2. eapply framed_trans; by eapply pl_framed.
Qed.
Lemma solution_framed zone path dv dc flt s flt' : flow_solution_filter zone path dv dc flt s = Ret flt' -> framed (sub_path path (get_name s)) flt flt'.
Proof.
  unfold flow_solution_filter. intros E. bind_inv E loc E1. bind_inv E dn E2. bind_inv E r E3. destruct r as [ds f1]. destruct (apply_arrays _ _ _ _ _ E) as [E' _]. clear E. rename E' into E. eapply framed_trans; [|exact E].
  destruct dn as [dn|].
  - bind_inv E3 d E4. bind_inv E3 f2 E5. bind_inv E3 ds' E6. apply ret_pair in E3 as [_ <-]. by eapply pl_framed.
  - destruct (is_text loc "CellCenter"); [|destruct (is_text loc "Vertex"); [|done]]; bind_inv E3 sz E4; bind_inv E3 ds' E5; apply ret_pair in E3 as [_ <-]; apply framed_refl.
Qed.
Lemma subregion_framed zone path flt s flt' : subregion_filter zone path flt s = Ret flt' -> framed (sub_path path (get_name s)) flt flt'.
Proof.
  unfold subregion_filter. intros E. bind_inv E mp E1. bind_inv E mr E2. bind_inv E dn E3. bind_inv E d E4. bind_inv E dd E5. bind_inv E f1 E6. bind_inv E ds E7.
  destruct (apply_arrays _ _ _ _ _ E) as [E' _]. clear E. rename E' into E. eapply framed_trans; [|exact E]. by eapply pl_framed.
Qed.
Lemma pe_framed elmt path p flt flt' : pe_filter elmt path p flt = Ret flt' -> framed (sub_path path (get_name elmt)) flt flt'.
Proof.
  unfold pe_filter. intros E. bind_inv E pe E1. destruct pe; [|apply ret_inj in E as ->; apply framed_refl]. bind_inv E pos E2. destruct pos; apply ret_inj in E as <-; [eapply framed_trans; apply framed_insert|apply framed_insert].
Qed.
Lemma element_framed path m flt elmt flt' : element_filter path m flt elmt = Ret flt' -> framed (sub_path path (get_name elmt)) flt flt'.
Proof.
  unfold element_filter. intros E. bind_inv E name E1. case_bool_decide.
  - unfold create_zone_eso_elements_filter in E. bind_inv E d E2. bind_inv E p E3. bind_inv E f1 E4. bind_inv E eso E5. bind_inv E ec E6. pose proof (pe_framed _ _ _ _ _ E4) as E4'. clear E4. rename E4' into E4.
    eapply framed_trans; [exact E4|]. destruct ec; [|apply ret_inj in E as <-; destruct eso; [apply framed_insert|apply framed_refl]]. destruct eso; [|by bind_inv E x E7].
    apply ret_inj in E as <-. eapply framed_trans; apply framed_insert.
  - unfold create_zone_std_elements_filter in E. bind_inv E d E2. bind_inv E p E3. bind_inv E npe E4. bind_inv E n E5. pose proof (pe_framed _ _ _ _ _ E) as E'. clear E. rename E' into E. eapply framed_trans; [|exact E]. apply framed_insert.
Qed.

(** ** A loop on the children of a label *)

Lemma wf_names n : wf n -> NoDup (get_names (get_children n)) /\ Forall (fun c => no_slash (get_name c)) (get_children n).
Proof.
  intros Hw. split; [by destruct Hw|]. apply Forall_forall. intros c Hc. destruct (wf_name c (wf_child n c Hw Hc)) as [_ Hs]. unfold no_slash. unfold has_slash in Hs. by apply bool_decide_eq_false in Hs.
Qed.
Lemma stage_spec label f n path flt flt' :
  foldM f flt (filter (fun c => get_label c = label) (get_children n)) = Ret flt' -> wf n ->
  (forall x f1 f2, f f1 x = Ret f2 -> framed (sub_path path (get_name x)) f1 f2) ->
  framed path flt flt' /\
  (forall c, c ∈ get_children n -> get_label c = label ->
     exists f1 f2, f f1 c = Ret f2 /\ forall key, below (sub_path path (get_name c)) key -> flt' !! key = f2 !! key) /\
  (forall d key, d ∈ get_children n -> get_label d <> label -> below (sub_path path (get_name d)) key -> flt' !! key = flt !! key).
Proof.
  intros E Hw Hf. destruct (wf_names n Hw) as [Hn Hs]. rewrite Forall_forall in Hs. set (l := filter _ _) in E.
  assert (Hin : forall c, c ∈ l <-> c ∈ get_children n /\ get_label c = label) by (intros c; unfold l; rewrite list_elem_of_filter; tauto).
  split; [|split].
  - eapply framed_foldM; [|exact E]. intros x f1 f2 _ Hx. apply (framed_up _ _ _ _ (Hf x f1 f2 Hx)).
  - intros c Hc Hl. apply (foldM_child path f l flt flt' c); [by intros x f1 f2 _; apply Hf| |by apply NoDup_names_filter|done|by apply Hin].
    apply Forall_forall. intros x Hx. by apply Hs, Hin.
  - intros d key Hd Hl Hb. clear Hn. assert (Hl' : forall x, x ∈ l -> x ∈ get_children n /\ get_name x <> get_name d).
    { intros x Hx. apply Hin in Hx as [Hx Hxl]. split; [done|]. intros En. assert (x = d); [|congruence].
      apply (f_equal Some) in En. pose proof (child_named_wf n x Hw Hx) as H1. pose proof (child_named_wf n d Hw Hd) as H2. assert (get_name x = get_name d) by congruence. congruence. }
    clear Hin. clearbody l. revert flt E. induction l as [|x l IH]; intros flt E; cbn [foldM] in E; [by apply ret_inj in E as ->|]. bind_inv E f1 E1.
    rewrite (IH ltac:(intros y Hy; apply Hl'; by right) f1 E). destruct (Hf x flt f1 E1 key) as [|Hb']; [done|]. exfalso.
    destruct (Hl' x) as [Hx Hne]; [by left|]. apply Hne. by eapply below_disjoint; [apply Hs|apply Hs| |].
Qed.

(** ** The entries of a zone *)

(** The dataspace of the arrays of each kind of node. *)
Definition vertex_space (zone : node) : py dataspace := d ← distribution_of zone "Vertex"; s ← column_of (get_raw zone) 0; array_filter d (Some s).
Definition cell_space (zone : node) : py dataspace := d ← distribution_of zone "Cell"; s ← column_of (get_raw zone) 1; array_filter d (Some s).
Definition solution_space (zone s : node) : py dataspace :=
  d ← getDistribution s None;
  match d with
  | Some d => v ← index_of d; array_filter v None
  | None => loc ← Subset_GridLocation s; if is_text loc "CellCenter" then cell_space zone else vertex_space zone
  end.
Definition subregion_space (zone s : node) : py dataspace :=
  path ← Subset_ZSRExtent s zone; r ← of_option AssertionError (get_node_from_path zone path);
  d ← getDistribution r None; d ← of_option RuntimeError d; v ← index_of d; array_filter v None.
Definition bcdata_space (bc bcds : node) : py dataspace :=
  d ← getDistribution bcds None;
  v ← match d with Some d => index_of d | None => distribution_of bc "Index" end;
  size_node ← get_child_from_name bcds "*#Size" (with_depth (DInt 2) no_kw);
  data_shape ← match size_node with Some n => v ← get_value n false; shape_in v | None => Ret None end;
  array_filter v data_shape.
Definition elements_of (elmt : node) : py partial := d ← distribution_of elmt "Element"; partial_of d.

(** All the arrays of a container have the dataspace. *)
Definition arrays_in (n : node) (path : string) (ds : py dataspace) (flt : hdf_filter) : Prop :=
  forall a, a ∈ get_children n -> get_label a = "DataArray_t" -> exists s, ds = Ret s /\ flt !! sub_path path (get_name a) = Some (Space s).

Lemma arrays_below n path ds f1 f2 : (forall key, below path key -> f2 !! key = f1 !! key) -> arrays_in n path ds f1 -> arrays_in n path ds f2.
Proof. intros Hk Ha a H1 H2. destruct (Ha a H1 H2) as (s & H3 & H4). exists s. split; [done|]. rewrite Hk; [done|]. by exists (get_name a). Qed.

Lemma apply_arrays_in n path ds flt flt' : apply_dataspace_to_arrays n path ds flt = Ret flt' -> arrays_in n path (Ret ds) flt'.
Proof. intros E a Ha Hl. exists ds. split; [done|]. by apply (apply_arrays _ _ _ _ _ E). Qed.
Lemma solution_entry zone path dv dc flt s flt' :
  distribution_of zone "Vertex" = Ret dv -> distribution_of zone "Cell" = Ret dc ->
  flow_solution_filter zone path dv dc flt s = Ret flt' -> arrays_in s (sub_path path (get_name s)) (solution_space zone s) flt'.
Proof.
  intros Hv Hc E. unfold flow_solution_filter in E. bind_inv E loc E1. bind_inv E dn E2. bind_inv E r E3. destruct r as [ds f1].
  assert (Hs : solution_space zone s = Ret ds); [|rewrite Hs; by eapply apply_arrays_in].
  unfold solution_space. rewrite E2. cbn [mbind py_bind]. destruct dn as [dn|].
  - bind_inv E3 d E4. bind_inv E3 f2 E5. bind_inv E3 ds' E6. apply ret_pair in E3 as [<- _]. cbn [mbind py_bind]. exact E6.
  - rewrite E1. cbn [mbind py_bind]. unfold cell_space, vertex_space. rewrite Hv, Hc.
    destruct (is_text loc "CellCenter"); [|destruct (is_text loc "Vertex"); [|done]]; bind_inv E3 sz E4; bind_inv E3 ds' E5; apply ret_pair in E3 as [<- _]; cbn [mbind py_bind]; exact E5.
Qed.
Lemma subregion_entry zone path flt s flt' : subregion_filter zone path flt s = Ret flt' -> arrays_in s (sub_path path (get_name s)) (subregion_space zone s) flt'.
Proof.
  unfold subregion_filter. intros E. bind_inv E mp E1. bind_inv E mr E2. bind_inv E dn E3. bind_inv E d E4. bind_inv E dd E5. bind_inv E f1 E6. bind_inv E ds E7.
  assert (Hs : subregion_space zone s = Ret ds); [|rewrite Hs; by eapply apply_arrays_in].
  unfold subregion_space. rewrite E1. cbn [mbind py_bind]. rewrite E2. cbn [mbind py_bind]. rewrite E3. cbn [mbind py_bind]. rewrite E4. cbn [mbind py_bind]. by rewrite E5.
Qed.

(** The boundary conditions: the arrays of their data sets, at any depth. *)
Lemma bcds_entry bc d path flt bcds flt' : wf bcds -> distribution_of bc "Index" = Ret d -> bcds_filter d path flt bcds = Ret flt' ->
  forall bcdata, bcdata ∈ get_children bcds -> get_label bcdata = "BCData_t" ->
  arrays_in bcdata (sub_path (sub_path path (get_name bcds)) (get_name bcdata)) (bcdata_space bc bcds) flt'.
Proof.
  intros Hw Hd E bcdata Hin Hl. unfold bcds_filter in E. bind_inv E dn E1. bind_inv E r E2. destruct r as [d' flt1]. bind_inv E sz E3. bind_inv E shape E4. bind_inv E ds E5.
  rewrite iter_label in E by done. cbn [mbind py_bind] in E.
  assert (Hs : bcdata_space bc bcds = Ret ds).
  { unfold bcdata_space. rewrite E1. cbn [mbind py_bind]. replace (match dn with Some d => index_of d | None => distribution_of bc "Index" end) with (Ret d').
    - cbn [mbind py_bind]. rewrite E3. cbn [mbind py_bind]. by rewrite E4.
    - destruct dn as [dn|]; [bind_inv E2 di E6; bind_inv E2 f E7; apply ret_pair in E2 as [-> _]; done|apply ret_pair in E2 as [-> _]; done]. }
  rewrite Hs. destruct (stage_spec _ _ _ (sub_path path (get_name bcds)) _ _ E Hw) as (_ & H2 & _).
  { intros x f1 f2 Hx. by destruct (apply_arrays _ _ _ _ _ Hx). }
  destruct (H2 bcdata Hin Hl) as (f1 & f2 & Hf & Hk). eapply arrays_below; [exact Hk|]. by eapply apply_arrays_in.
Qed.
Lemma bc_entry path flt bc flt' : wf bc -> bc_filter path flt bc = Ret flt' ->
  forall bcds bcdata, bcds ∈ get_children bc -> get_label bcds = "BCDataSet_t" -> bcdata ∈ get_children bcds -> get_label bcdata = "BCData_t" ->
  arrays_in bcdata (sub_path (sub_path (sub_path path (get_name bc)) (get_name bcds)) (get_name bcdata)) (bcdata_space bc bcds) flt'.
Proof.
  intros Hw E bcds bcdata H1 H2 H3 H4. unfold bc_filter in E. bind_inv E d E1. bind_inv E f1 E2. rewrite iter_label in E by done. cbn [mbind py_bind] in E.
  destruct (stage_spec _ _ _ (sub_path path (get_name bc)) _ _ E Hw) as (_ & Hst & _).
  { intros x g1 g2 Hx. by eapply bcds_framed. }
  destruct (Hst bcds H1 H2) as (g1 & g2 & Hg & Hk). eapply arrays_below; [intros key Hb; apply Hk; by eapply below_child|].
  eapply bcds_entry; [by eapply wf_child|done|exact Hg|done|done].
Qed.

(** Elements of variable and fixed numbers of vertices. *)
Definition element_entries (m : mode) (elmt : node) (path : string) (flt : hdf_filter) : Prop :=
  exists name p, Element_CGNSName elmt = Ret name /\ elements_of elmt = Ret p /\
  if bool_decide (name ∈ ["NGON_n"; "NFACE_n"; "MIXED"]) then
    (has_child elmt "ElementStartOffset" = Ret true -> flt !! sub_path path "ElementStartOffset" = Some (Space (eso_dataspace m p))) /\
    (has_child elmt "ElementConnectivity" = Ret true -> is_Some (flt !! sub_path path "ElementConnectivity") /\ has_child elmt "ElementStartOffset" = Ret true)
  else exists npe, Element_NVtx elmt = Ret (Some npe) /\ flt !! sub_path path "ElementConnectivity" = Some (Space (std_elements_dataspace p npe)).

Lemma pe_other elmt path p flt flt' name : pe_filter elmt path p flt = Ret flt' -> name <> "ParentElements" -> name <> "ParentElementsPosition" ->
  flt' !! sub_path (sub_path path (get_name elmt)) name = flt !! sub_path (sub_path path (get_name elmt)) name.
Proof.
  unfold pe_filter. intros E H1 H2. bind_inv E pe E1. destruct pe; [|by apply ret_inj in E as ->]. bind_inv E pos E2. apply ret_inj in E as <-.
  destruct pos; rewrite ?lookup_insert_ne; try done; intros Hp; apply sub_path_inj in Hp; congruence.
Qed.
Lemma element_entry path m flt elmt flt' : element_filter path m flt elmt = Ret flt' -> element_entries m elmt (sub_path path (get_name elmt)) flt'.
Proof.
  unfold element_filter. intros E. bind_inv E name E1. exists name. unfold elements_of. case_bool_decide.
  - unfold create_zone_eso_elements_filter in E. bind_inv E d E2. bind_inv E p E3. bind_inv E f1 E4. bind_inv E eso E5. bind_inv E ec E6.
    exists p. split; [done|]. split; [exact E3|]. split.
    + intros He. assert (eso = true) as -> by congruence. destruct ec; apply ret_inj in E as <-; [|by rewrite lookup_insert_eq].
      rewrite lookup_insert_ne; [by rewrite lookup_insert_eq|]. intros Hp. by apply sub_path_inj in Hp.
    + intros He. assert (ec = true) as -> by congruence. destruct eso; [|by bind_inv E x E7]. apply ret_inj in E as <-. split; [|done]. rewrite lookup_insert_eq. by eexists.
  - unfold create_zone_std_elements_filter in E. bind_inv E d E2. bind_inv E p E3. bind_inv E npe E4. bind_inv E n E5.
    exists p. split; [done|]. split; [exact E3|]. exists n. split; [destruct npe; [|done]; cbn in E5; congruence|].
    rewrite (pe_other _ _ _ _ _ "ElementConnectivity" E) by done. by rewrite lookup_insert_eq.
Qed.
Lemma element_below m elmt path f1 f2 : (forall key, below path key -> f2 !! key = f1 !! key) -> element_entries m elmt path f1 -> element_entries m elmt path f2.
Proof.
  intros Hk (name & p & H1 & H2 & H3). exists name, p. split; [done|]. split; [done|]. rewrite !(Hk (sub_path path _)) by (by eexists). exact H3.
Qed.

(** What is promised for a zone. *)
Definition zone_entries (m : mode) (zone : node) (path : string) (flt : hdf_filter) : Prop :=
  (forall g, g ∈ get_children zone -> get_label g = "GridCoordinates_t" -> arrays_in g (sub_path path (get_name g)) (vertex_space zone) flt) /\
  (forall e, e ∈ get_children zone -> get_label e = "Elements_t" -> element_entries m e (sub_path path (get_name e)) flt) /\
  (forall s, s ∈ get_children zone -> get_label s = "FlowSolution_t" -> arrays_in s (sub_path path (get_name s)) (solution_space zone s) flt) /\
  (forall s, s ∈ get_children zone -> get_label s = "ZoneSubRegion_t" -> arrays_in s (sub_path path (get_name s)) (subregion_space zone s) flt) /\
  (forall zbc bc bcds bcdata, zbc ∈ get_children zone -> get_label zbc = "ZoneBC_t" -> bc ∈ get_children zbc -> get_label bc = "BC_t" ->
     bcds ∈ get_children bc -> get_label bcds = "BCDataSet_t" -> bcdata ∈ get_children bcds -> get_label bcdata = "BCData_t" ->
     arrays_in bcdata (sub_path (sub_path (sub_path (sub_path path (get_name zbc)) (get_name bc)) (get_name bcds)) (get_name bcdata)) (bcdata_space bc bcds) flt).

Lemma zone_filter_entries m zone path flt flt' : wf zone -> create_zone_filter zone path m flt = Ret flt' ->
  framed path flt flt' /\ zone_entries m zone path flt'.
Proof.
  intros Hw E. unfold create_zone_filter in E. bind_inv E dv Ev. bind_inv E sz Es. bind_inv E ds Eds. rewrite iter_label in E by done. cbn [mbind py_bind] in E. bind_inv E f1 E1. bind_inv E f2 E2. bind_inv E f3 E3. bind_inv E f4 E4. bind_inv E f5 E5.
  unfold create_zone_elements_filter in E2. rewrite iter_label in E2 by done. cbn [mbind py_bind] in E2.
  unfold create_zone_bc_filter in E3. rewrite iter_label in E3 by done. cbn [mbind py_bind] in E3.
  unfold create_zone_grid_connectivity_filter in E4. rewrite iter_label in E4 by done. cbn [mbind py_bind] in E4.
  unfold create_flow_solution_filter in E5. rewrite Ev in E5. cbn [mbind py_bind] in E5. bind_inv E5 dc Ec. rewrite iter_label in E5 by done. cbn [mbind py_bind] in E5.
  unfold create_zone_subregion_filter in E. rewrite iter_label in E by done. cbn [mbind py_bind] in E.
  destruct (stage_spec _ _ _ path _ _ E1 Hw) as (F1 & T1 & O1); [intros x g1 g2 Hx; by destruct (apply_arrays _ _ _ _ _ Hx)|].
  destruct (stage_spec _ _ _ path _ _ E2 Hw) as (F2 & T2 & O2); [intros x g1 g2 Hx; by eapply element_framed|].
  destruct (stage_spec _ _ _ path _ _ E3 Hw) as (F3 & T3 & O3).
  { intros x g1 g2 Hx. cbn beta in Hx. rewrite iter_label in Hx by done. cbn [mbind py_bind] in Hx. eapply framed_foldM; [|exact Hx]. intros y h1 h2 _ Hy. apply (framed_up _ _ _ _ (bc_framed _ _ _ _ Hy)). }
  destruct (stage_spec _ _ _ path _ _ E4 Hw) as (F4 & T4 & O4).
  { intros x g1 g2 Hx. cbn beta in Hx. rewrite iter_label in Hx by done. cbn [mbind py_bind] in Hx. eapply framed_foldM; [|exact Hx]. intros y h1 h2 _ Hy. apply (framed_up _ _ _ _ (gc_framed _ _ _ _ Hy)). }
  destruct (stage_spec _ _ _ path _ _ E5 Hw) as (F5 & T5 & O5); [intros x g1 g2 Hx; by eapply solution_framed|].
  destruct (stage_spec _ _ _ path _ _ E Hw) as (F6 & T6 & O6); [intros x g1 g2 Hx; by eapply subregion_framed|].
  split; [exact (framed_trans _ _ _ _ F1 (framed_trans _ _ _ _ F2 (framed_trans _ _ _ _ F3 (framed_trans _ _ _ _ F4 (framed_trans _ _ _ _ F5 F6)))))|]. split; [|split; [|split; [|split]]].
  - intros g Hg Hl. destruct (T1 g Hg Hl) as (g1 & g2 & Hf & Hk). eapply (arrays_below _ _ _ g2).
    + intros key Hb. rewrite (O6 g key), (O5 g key), (O4 g key), (O3 g key), (O2 g key) by (done || congruence). by apply Hk.
    + assert (Hs : vertex_space zone = Ret ds) by (unfold vertex_space; rewrite Ev; cbn [mbind py_bind]; rewrite Es; exact Eds). rewrite Hs. by eapply apply_arrays_in.
  - intros e He Hl. destruct (T2 e He Hl) as (g1 & g2 & Hf & Hk). eapply (element_below _ _ _ g2); [|by eapply element_entry].
    intros key Hb. rewrite (O6 e key), (O5 e key), (O4 e key), (O3 e key) by (done || congruence). by apply Hk.
  - intros s Hs Hl. destruct (T5 s Hs Hl) as (g1 & g2 & Hf & Hk). eapply (arrays_below _ _ _ g2); [|by eapply solution_entry].
    intros key Hb. rewrite (O6 s key) by (done || congruence). by apply Hk.
  - intros s Hs Hl. destruct (T6 s Hs Hl) as (g1 & g2 & Hf & Hk). eapply (arrays_below _ _ _ g2); [|by eapply subregion_entry]. done.
  - intros zbc bc bcds bcdata H1 H2 H3 H4 H5 H6 H7 H8. destruct (T3 zbc H1 H2) as (g1 & g2 & Hf & Hk). cbn beta in Hf. rewrite iter_label in Hf by done. cbn [mbind py_bind] in Hf.
    assert (Hwz : wf zbc) by by eapply wf_child.
    destruct (stage_spec _ _ _ (sub_path path (get_name zbc)) _ _ Hf Hwz) as (_ & Tb & _); [intros x h1 h2 Hx; by eapply bc_framed|].
    destruct (Tb bc H3 H4) as (h1 & h2 & Hb & Hkb). eapply (arrays_below _ _ _ h2).
    + intros key Hbel. assert (Hb1 : below (sub_path (sub_path path (get_name zbc)) (get_name bc)) key) by (do 2 eapply below_child; exact Hbel).
      assert (Hb2 : below (sub_path path (get_name zbc)) key) by by eapply below_child.
      rewrite (O6 zbc key), (O5 zbc key), (O4 zbc key) by (done || congruence). rewrite Hk by done. by apply Hkb.
    + eapply bc_entry; [by eapply wf_child|exact Hb|done..].
Qed.

Lemma zone_entries_below m zone path f1 f2 : (forall key, below path key -> f2 !! key = f1 !! key) -> zone_entries m zone path f1 -> zone_entries m zone path f2.
Proof.
  intros Hk (H1 & H2 & H3 & H4 & H5). split; [|split; [|split; [|split]]].
  - intros g Hg Hl. eapply arrays_below; [|by apply H1]. intros key Hb. by eapply Hk, below_child.
  - intros e He Hl. eapply element_below; [|by apply H2]. intros key Hb. by eapply Hk, below_child.
  - intros x Hx Hl. eapply arrays_below; [|by apply H3]. intros key Hb. by eapply Hk, below_child.
  - intros x Hx Hl. eapply arrays_below; [|by apply H4]. intros key Hb. by eapply Hk, below_child.
  - intros zbc bc bcds bcdata K1 K2 K3 K4 K5 K6 K7 K8. eapply arrays_below; [|by apply H5]. intros key Hb. apply Hk. do 4 eapply below_child. exact Hb.
Qed.
Lemma zone_path_disjoint b z b' z' key : no_slash b -> no_slash z -> no_slash b' -> no_slash z' ->
  below (sub_path b z) key -> below (sub_path b' z') key -> (b, z) = (b', z').
Proof.
  intros Hb Hz Hb' Hz' [r ->] [r' E]. rewrite !sub_path_assoc in E. apply sub_path_head in E as [-> E]; [|done..]. by apply sub_path_head in E as [-> _].
Qed.
Lemma zones_filter m (zones : list (node * node)) flt0 flt :
  Forall (fun bz => no_slash (get_name bz.1) /\ no_slash (get_name bz.2) /\ wf bz.2) zones ->
  NoDup (map (fun bz => (get_name bz.1, get_name bz.2)) zones) ->
  foldM (zone_step m) flt0 (map (fun bz => [bz.1; bz.2]) zones) = Ret flt ->
  (forall base zone, (base, zone) ∈ zones -> zone_entries m zone (sub_path (get_name base) (get_name zone)) flt) /\
  (forall key, flt !! key = flt0 !! key \/ exists base zone, (base, zone) ∈ zones /\ below (sub_path (get_name base) (get_name zone)) key).
Proof.
  revert flt0. induction zones as [|[b z] zones IH]; intros flt0 Hs Hn E; cbn [map foldM] in E.
  { apply ret_inj in E as ->. split; [by intros b z Hin%not_elem_of_nil|]. by left. }
  apply Forall_cons in Hs as [(Hb & Hz & Hw) Hs]. cbn [map] in Hn. apply NoDup_cons in Hn as [Hbz Hn]. cbn [fst snd] in *. bind_inv E f1 E1.
  unfold zone_step in E1. destruct (zone_filter_entries m z _ flt0 f1 Hw E1) as [Hfr He]. destruct (IH f1 Hs Hn E) as [IH1 IH2]. split.
  - intros b' z' [Hin|Hin]%elem_of_cons; [|by apply IH1]. injection Hin as -> ->. eapply zone_entries_below; [|exact He]. intros key Hk. destruct (IH2 key) as [|(b2 & z2 & Hin & Hk2)]; [done|].
    exfalso. apply Hbz. rewrite Forall_forall in Hs. destruct (Hs _ Hin) as (Hb2 & Hz2 & _). rewrite (zone_path_disjoint _ _ _ _ key Hb Hz Hb2 Hz2 Hk Hk2).
    apply (list_elem_of_fmap_2 (fun bz : node * node => (get_name bz.1, get_name bz.2)) zones (b2, z2) Hin).
  - intros key. destruct (IH2 key) as [->|(b2 & z2 & Hin & Hk2)]; [|right; exists b2, z2; split; [by right|done]].
    destruct (Hfr key) as [|Hk]; [by left|right; exists b, z; split; [by left|done]].
Qed.

End spec.

(** ** One zone on one of two ranks *)

Definition arr (l : list Z) : value := Some (NpArray T_I8 [zlen l] true l).
Definition distri (l : list (string * list Z)) : node := Node ":CGNS#Distribution" None (map (fun x => Node x.1 (arr x.2) [] "DataArray_t") l) "UserDefinedData_t".
Definition sample_zone : node :=
  Node "Zone" (Some (NpArray T_I8 [1; 3] true [8; 4; 0]))
    [Node "ZoneType" (text_value "Unstructured") [] "ZoneType_t";
     Node "GridCoordinates" None [Node "X" None [] "DataArray_t"] "GridCoordinates_t";
     Node "NGon" (Some (NpArray T_I4 [2] true [22; 0])) [Node "ElementStartOffset" None [] "DataArray_t"; Node "ElementConnectivity" None [] "DataArray_t"; distri [("Element", [0; 3; 6])]] "Elements_t";
     Node "Sol" None [Node "GridLocation" (text_value "CellCenter") [] "GridLocation_t"; Node "P" None [] "DataArray_t"] "FlowSolution_t";
     distri [("Vertex", [0; 4; 8]); ("Cell", [0; 2; 4])]] "Zone_t".
Definition sample_base : node := Node "Base" None [sample_zone] "CGNSBase_t".
Definition sample_tree : node := Node "CGNSTree" None [sample_base] "CGNSTree_t".

End Filters.
