(* ===== verification/FixTree.v ===== *)
(** * Corrections of trees that are read: [maia/io/fix_tree.py]

    The corrections that are made on the nodes of a file before its arrays are loaded.  They change the tree in
    place: they are state transformers, as in Tree; warnings are left out. *)
From S2P Require Import Prelude PyUtils Numbering Slabs NpUtils PointRange Values Conventions Fnmatch Tree Parsers Walkers Search Sids Refs Presets PartZone StoU StoUJoins MaiaNodes Joins.

Local Open Scope Z_scope.

Module FixTree.
Import NpUtils Values Tree Walkers Search Sids Refs Presets PartZone StoU MaiaNodes Joins.

Section fixes.
Context `{ArrayEqual} (to_float32 : Z -> Z).

(** ** Types *)

(** [size_data] gives the type of the data of a path of the file. *)
Definition fix_zone_datatype (size_data : string -> option string) : st () :=
  zone_paths ← reading (fun tree => predicates_to_paths tree (QsPath "CGNSBase_t/Zone_t"));
  for_each (fun zone_path =>
      t ← st_lift (of_option KeyError (size_data ("/" +:+ zone_path)));
      if bool_decide (t = "I8") then
        at_path zone_path (fun zone =>
          match get_raw zone with
          | Some a => put_raw (Some (NpArray T_I8 (a_shape a) (a_fcontiguous a) (a_data a))) zone
          | None => (zone, Raise AttributeError)
          end)
      else mret ()) zone_paths.

(** [as_pdm_gnum]: the cast of an array to the type of the global numbers. *)
Definition np_type (t : cgns_type) : np_dtype :=
  match t with T_I4 => Int32 | T_I8 => Int64 | t => OtherType (dtype_to_cgns t) end.
Definition gnum_cast (d : dtype) : st () := fun n =>
  match get_raw n with
  | None => (n, Raise AttributeError)
  | Some a =>
      match safe_int_cast (NdArray (np_type (a_type a)) (a_data a)) (match d with Prelude.I4 => Int32 | Prelude.I8 => Int64 end) with
      | Ret r => put_raw (Some (NpArray (gnum_type d) (a_shape a) (a_fcontiguous a) (nd_data r))) n
      | Raise e => (n, Raise e)
      end
  end.
Definition on_named (name : string) (f : st ()) : st () := fun n =>
  if bool_decide (find_child (fun c => match_name c name) (get_children n) = None) then (n, Ret ()) else on_first (fun c => match_name c name) f n.
Definition _enforce_pdm_dtype (d : dtype) : st () :=
  on_zones
    (_ ← gnum_cast d;
     _ ← on_children (with_label "Elements_t")
           (for_each (fun name => on_named name (gnum_cast d)) ["ElementRange"; "ElementConnectivity"; "ElementStartOffset"; "ParentElements"]);
     on_nodes (with_label "IndexArray_t") (gnum_cast d)).

(** ** Ranges of structured joins *)

Definition range_of (v : value) : py prange := c0 ← column_of v 0; c1 ← column_of v 1; Ret (zip c0 c1).
Definition range_at (name : string) (gc : node) : py prange :=
  c ← get_child_from_name gc name no_kw;
  v ← value_of c;
  match v with Raw v => range_of v | Text _ => Raise TypeError end.
(** The array is changed in place: first column, then second one. *)
Definition put_range (pr : prange) : st () := fun n =>
  match get_raw n with
  | Some a => put_raw (Some (NpArray (a_type a) (a_shape a) (a_fcontiguous a) (map fst pr ++ map snd pr))) n
  | None => (n, Raise TypeError)
  end.

(** [gc_is_reference], on the node. *)
Definition is_reference (gc : node) (zone_path : string) : py bool :=
  zone_path_opp ← GridConnectivity_ZoneDonorPath gc (path_head zone_path (-1));
  if bool_decide (zone_path = zone_path_opp) then
    pr ← range_at "PointRange" gc; prd ← range_at "PointRangeDonor" gc;
    loc ← Subset_GridLocation gc;
    loc ← match loc with Text (Str s) => Ret s | _ => Raise TypeError end;
    gc_is_reference zone_path zone_path_opp loc pr prd
  else gc_is_reference zone_path zone_path_opp "" [] [].

(** [nb_points != nb_points_d] *)
Definition extent (r : Z * Z) : Z := r.2 - r.1.
Definition wrong_dirs (transform : list Z) (pr prd : prange) : py (list bool) :=
  donor_rows ← mapM (fun t => py_get prd (Z.abs t - 1)) transform;
  if bool_decide (length pr = length transform) then
    Ret (zip_with (fun r '(t, rd) => negb (extent r =? Z.sgn t * extent rd)) pr (zip transform donor_rows))
  else Raise ValueError.
Definition fixed_ranges (transform : list Z) (is_ref : bool) (swap : list bool) (pr prd : prange) : prange * prange :=
  if is_ref then (pr, swap_rows (scatter transform swap) prd) else (swap_rows swap pr, prd).
Definition fix_join (gc_path : string) : st () :=
  range_n ← reading (fun gc => get_child_from_label gc (StrLabel "IndexRange_t") no_kw);
  if is_none range_n then mret () else
  transform ← reading GridConnectivity_Transform;
  point_range ← reading (range_at "PointRange");
  point_range_d ← reading (range_at "PointRangeDonor");
  dir_to_swap ← st_lift (wrong_dirs transform point_range point_range_d);
  _ ← (if existsb id dir_to_swap then
         is_ref ← reading (fun gc => is_reference gc gc_path);
         let '(pr, prd) := fixed_ranges transform is_ref dir_to_swap point_range point_range_d in
         if (is_ref : bool) then on_first (fun c => match_name c "PointRangeDonor") (put_range prd)
         else on_first (fun c => match_name c "PointRange") (put_range pr)
       else mret ());
  reading (fun gc =>
    pr ← range_at "PointRange" gc; prd ← range_at "PointRangeDonor" gc;
    image ← gc_transform_point gc (map snd pr);
    py_assert (bool_decide (map snd prd = image))).
Definition fix_point_ranges : st () :=
  on_children (with_label "CGNSBase_t") (fun base =>
    on_children (with_label "Zone_t") (fun zone =>
      on_chain [with_label "ZoneGridConnectivity_t"; with_label "GridConnectivity1to1_t"]
        (fix_join (get_name base +:+ "/" +:+ get_name zone)) zone) base).

(** The pairs of joins are found on a copy that only has joins between structured zones. *)
Definition child_value (n : node) (name : string) : py read_value := c ← get_child_from_name n name no_kw; value_of c.
Definition same_array (a b : read_value) : bool :=
  match a, b with
  | Raw (Some x), Raw (Some y) => bool_decide (a_shape x = a_shape y /\ a_data x = a_data y)
  | Raw None, Raw None => true
  | Text (Str x), Text (Str y) => bool_decide (x = y)
  | _, _ => false
  end.
Definition set_child_value (name : string) (v : pyval) : st () := on_first (fun c => match_name c name) (set_value to_float32 v).
Definition symmetrize (p : string * string) : st () :=
  let '(jn_path, jn_path_opp) := p in
  jn ← reading (fun tree => of_option TypeError (get_node_from_path tree jn_path));
  jn_opp ← reading (fun tree => of_option TypeError (get_node_from_path tree jn_path_opp));
  if bool_decide (get_label jn = get_label jn_opp /\ get_label jn_opp = "GridConnectivity1to1_t") then
    gc1_pr ← st_lift (child_value jn "PointRange"); gc2_prd ← st_lift (child_value jn_opp "PointRangeDonor");
    gc2_pr ← st_lift (if same_array gc1_pr gc2_prd then Some <$> child_value jn_opp "PointRange" else Ret None);
    gc1_prd ← st_lift (child_value jn "PointRangeDonor");
    let same := match gc2_pr with Some gc2_pr => same_array gc2_pr gc1_prd | None => false end in
    if (same : bool) then mret () else
    v1 ← st_lift (arg_of gc1_prd);
    _ ← at_path jn_path_opp (set_child_value "PointRange" v1);
    v2 ← reading_path jn_path (fun jn => v ← child_value jn "PointRange"; arg_of v);
    at_path jn_path_opp (set_child_value "PointRangeDonor" v2)
  else mret ().
Definition ensure_symmetric_gc1to1 : st () :=
  matching_jns ← reading (fun tree =>
    _tree ← rm_nodes_from_predicate (with_label "GridConnectivity_t") (shallow_copy tree) DNone;
    trees ← add_joins_donor_name to_float32 false [_tree];
    match trees with [_tree] => get_matching_jns (fun _ => Ret true) _tree | _ => Raise RuntimeError end);
  for_each symmetrize matching_jns.

(** ** Boundary conditions *)

Definition endswith (suffix s : string) : bool :=
  bool_decide (drop (String.length s - String.length suffix) (String.list_ascii_of_string s) = String.list_ascii_of_string suffix).
Definition dataset_range (bc_point_range : prange) (face_dir : Z) : py prange :=
  let pr := map (fun r => (r.1, r.2 - 1)) bc_point_range in
  row ← py_get pr face_dir;
  Ret (<[Z.to_nat face_dir := (row.1, row.1)]> pr).
Definition add_dataset_range (bc : node) (bc_loc : read_value) (bc_range : read_value) : st () :=
  pr_n ← reading (fun bcds => get_child_from_name bcds "PointRange" no_kw);
  if negb (is_none pr_n) then mret () else
  loc ← reading Subset_GridLocation;
  ends ← st_lift (match loc with Text (Str s) => Ret (endswith "FaceCenter" s) | _ => Raise AttributeError end);
  if negb ((ends : bool) && is_text bc_loc "Vertex") then mret () else
  face_dir ← st_lift (Subset_normal_axis bc);
  a ← st_lift (match bc_range with Raw (Some a) => Ret a | _ => Raise AttributeError end);
  pr ← st_lift (range_of (Some a));
  pr ← st_lift (dataset_range pr face_dir);
  under (new_IndexRange to_float32 "PointRange" (PArray (NpArray (a_type a) (a_shape a) true (map fst pr ++ map snd pr)))).
Definition add_missing_pr_in_bcdataset : st () :=
  on_chain [with_label "CGNSBase_t"; with_label "Zone_t"] (fun zone =>
    on_chain [with_label "ZoneBC_t"; with_label "BC_t"]
      (zt ← st_lift (n ← get_child_from_label zone (StrLabel "ZoneType_t") no_kw; value_of n);
       if is_text zt "Unstructured" then mret () else
       ds ← reading (fun bc => get_child_from_label bc (StrLabel "BCDataSet_t") no_kw);
       if is_none ds then mret () else
       bc_loc ← reading Subset_GridLocation;
       bc_range ← reading (fun bc => child_value bc "PointRange");
       bc ← reading Ret;
       on_children (with_label "BCDataSet_t") (add_dataset_range bc bc_loc bc_range)) zone).

(** ** Elements *)

(** Loops that add up numbers. *)
Fixpoint sum_list (p : node -> bool) (f : st Z) (l : list node) : list node * py Z :=
  match l with
  | [] => ([], Ret 0)
  | c :: l' =>
      match (if p c then f c else (c, Ret 0)) with
      | (c', Ret k) => let '(l'', r) := sum_list p f l' in (c' :: l'', Z.add k <$> r)
      | (c', Raise e) => (c' :: l', Raise e)
      end
  end.
Definition sum_children (p : node -> bool) (f : st Z) : st Z := fun n =>
  let '(Node name v cs label) := n in let '(cs', r) := sum_list p f cs in (Node name v cs' label, r).
Definition sum_zones (f : st Z) : st Z := fun tree =>
  if bool_decide (get_label tree = "CGNSBase_t") then sum_children (with_label "Zone_t") f tree
  else if bool_decide (get_label tree = "CGNSTree_t") then sum_children (with_label "CGNSBase_t") (sum_children (with_label "Zone_t") f) tree
  else (tree, Ret 0).

(** [ngon_pe[0].max()] of an array of two dimensions *)
Definition first_row_max (a : nparray) (n k : Z) : py Z := py_max (map (fun j => nth (Z.to_nat (j * n)) (a_data a) 0) (arange 0 k)).
(** The parents of the faces are shifted when they are numbered as faces are; the result counts the shift. *)
Definition shift_parents (range_start n_faces : Z) : st Z := fun pe =>
  if negb (bool_decide (range_start = 1)) then (pe, Ret 0) else
  match get_raw pe with
  | None => (pe, Raise AttributeError)
  | Some a =>
      match a_shape a with
      | [n; k] =>
          if bool_decide (0 < n) then
            match first_row_max a n k with
            | Ret m =>
                if m <=? n_faces
                then ((put_raw (Some (NpArray (a_type a) (a_shape a) (a_fcontiguous a) (shift_nonzeros (a_data a) n_faces))) pe).1, Ret 1)
                else (pe, Ret 0)
            | Raise e => (pe, Raise e)
            end
          else (pe, Ret 0)
      | _ => (pe, Raise IndexError)
      end
  end.
(** The check of the elements of a zone: its NGon node, when its parents have to be looked at. *)
Definition lone_ngon (zone : node) : py (option node) :=
  elts ← iter_children_from_label zone (StrLabel "Elements_t") no_kw;
  names ← mapM Element_CGNSName elts;
  let ngon_nodes := map fst (filter (fun x => x.2 = "NGON_n") (zip elts names)) in
  let oth_nodes := filter (fun x => x.2 <> "NGON_n") (zip elts names) in
  match ngon_nodes with
  | [] => Ret None
  | [ngon] =>
      pe ← get_child_from_name ngon "ParentElements" no_kw;
      if is_none pe then Ret None else
      match oth_nodes with
      | [] => Ret (Some ngon)
      | [(_, name)] => if bool_decide (name <> "NFACE_n") then Raise RuntimeError else Ret (Some ngon)
      | _ => Raise RuntimeError
      end
  | _ => Raise RuntimeError
  end.
Definition is_ngon (n : node) : bool := match is_element "NGON_n" n with Ret b => b | Raise _ => false end.
Definition fix_zone_PE : st Z :=
  ngon ← reading lone_ngon;
  match ngon with
  | None => mret 0
  | Some ngon_n =>
      n_faces ← st_lift (Element_Size ngon_n);
      range_start ← st_lift (er ← Element_Range ngon_n; elem er 0);
      on_first is_ngon (on_first (fun c => match_name c "ParentElements") (shift_parents range_start n_faces))
  end.
Definition ensure_PE_global_indexing : st Z := sum_zones fix_zone_PE.

(** ** Legacy nodes *)

Definition has_no_size (size_arrays : list string) (n : node) : bool :=
  negb (endswith "#Size" (get_name n)) && negb (bool_decide (get_name n +:+ "#Size" ∈ size_arrays)).
Definition rm_where (p : node -> bool) : st () := fun n => (rm_children_from_predicate p n, Ret ()).
Definition rm_path (path : string) : st () := fun tree => match rm_node_from_path tree path with Ret tree' => (tree', Ret ()) | Raise e => (tree, Raise e) end.
Definition rm_unsized : st () :=
  all_arrays ← reading (fun fs => l ← iter_children_from_label fs (StrLabel "DataArray_t") no_kw; Ret (get_names l));
  let size_arrays := filter (fun name => endswith "#Size" name = true) all_arrays in
  rm_where (fun n => bool_decide (get_label n = "DataArray_t") && has_no_size size_arrays n).
Definition rm_legacy_nodes : st () :=
  eh_paths ← reading (fun tree => predicates_to_paths tree (QsPath "CGNSBase_t/Zone_t/:elsA#Hybrid"));
  _ ← for_each rm_path eh_paths;
  on_zones (on_nodes (with_label "FlowSolution_t") rm_unsized).

Definition corr_index_range_names : st () :=
  on_zones (on_nodes (with_label "BC_t")
    (on_children (fun n => match_name_label n "ElementRange" (StrLabel "IndexRange_t")) (set_name "PointRange"))).
End fixes.

(** ** Signed permutations, axis by axis *)

Lemma axis_of t k : signed_perm t -> (k < length t)%nat -> exists i x, t !! i = Some x /\ k = Z.to_nat (Z.abs x - 1) /\ x <> 0.
Proof.
  intros [Hp _] Hk. assert (Hin : Z.of_nat k + 1 ∈ map Z.abs t) by (rewrite Hp; apply elem_of_arange; unfold zlen; lia).
  apply list_elem_of_fmap in Hin as (x & Hx & Hin). apply list_elem_of_lookup in Hin as [i Hi]. exists i, x. split; [done|]. split; lia.
Qed.
Lemma normal_axis_bound t i x : signed_perm t -> t !! i = Some x -> (Z.to_nat (Z.abs x - 1) < length t)%nat /\ 1 <= Z.abs x.
Proof. intros [Hp _] Hi. apply list_elem_of_lookup_2 in Hi. pose proof (signed_values t x Hp Hi) as Hb. unfold zlen in Hb. lia. Qed.

Ltac all_signed_perms Ht :=
  let Hin := fresh in pose proof (elem_of_signed_perms _ Ht) as Hin;
  let l := eval vm_compute in signed_perms in change signed_perms with l in Hin;
  repeat (apply elem_of_cons in Hin as [->|Hin]); [..|by apply not_elem_of_nil in Hin]; clear Ht.

Lemma matmul_axis t v i x y : signed_perm t -> length v = length t -> t !! i = Some x -> v !! i = Some y ->
  matmul (transform_matrix t) v !! Z.to_nat (Z.abs x - 1) = Some (Z.sgn x * y).
Proof.
  intros Ht Hl Hx Hy. all_signed_perms Ht.
  all: destruct v as [|a [|b [|c [|]]]]; try discriminate Hl; eval_transform.
  all: destruct i as [|[|[|i]]]; cbn in Hx, Hy; simplify_eq.
  all: match goal with |- _ !! Z.to_nat (Z.abs ?x - 1) = _ => let k := eval vm_compute in (Z.to_nat (Z.abs x - 1)) in change (Z.to_nat (Z.abs x - 1)) with k end.
  all: cbn [lookup list_lookup Z.sgn]; f_equal; lia.
Qed.
Lemma scatter_axis t swap i x : signed_perm t -> length swap = length t -> t !! i = Some x -> scatter t swap !! Z.to_nat (Z.abs x - 1) = swap !! i.
Proof.
  intros Ht Hl Hx. all_signed_perms Ht.
  all: destruct swap as [|a [|b [|c [|]]]]; try discriminate Hl.
  all: destruct i as [|[|[|i]]]; cbn in Hx; simplify_eq; reflexivity.
Qed.

(** The donor range is the image of the range when the extents agree along each axis. *)
Lemma maps_onto_axes t pr prd : signed_perm t -> length pr = length t -> length prd = length t ->
  (forall i x r rd, t !! i = Some x -> pr !! i = Some r -> prd !! Z.to_nat (Z.abs x - 1) = Some rd -> extent rd = Z.sgn x * extent r) ->
  StoUJoins.maps_onto (transform_matrix t) pr prd.
Proof.
  intros Ht Hp Hd Hax. unfold StoUJoins.maps_onto, of_window, window_of, _gc_transform_window, _gc_transform_point. cbn [fst snd].
  assert (Hm : forall v, length (matmul (transform_matrix t) v) = length t) by (intros v; unfold matmul, transform_matrix; rewrite !length_map, length_arange; unfold zlen; lia).
  apply list_eq. intros k. destruct (decide (k < length t)%nat) as [Hk|Hk].
  - destruct (axis_of t k Ht Hk) as (i & x & Hi & -> & Hx0). pose proof (lookup_lt_Some _ _ _ Hi) as Hil.
    destruct (lookup_lt_is_Some_2 pr i) as [r Hr]; [lia|]. destruct (lookup_lt_is_Some_2 prd (Z.to_nat (Z.abs x - 1))) as [rd Hrd]; [lia|].
    specialize (Hax i x r rd Hi Hr Hrd). rewrite Hrd, lookup_zip_with, !lookup_zip_with, !list_lookup_fmap, Hrd.
    rewrite (matmul_axis t (zip_with Z.sub (map fst pr) (map fst pr)) i x 0), (matmul_axis t (zip_with Z.sub (map snd pr) (map fst pr)) i x (extent r)); try done.
    + cbn. f_equal. destruct rd as [a b]. unfold extent in *. cbn [fst snd] in *. f_equal; lia.
    + rewrite length_zip_with, !length_map. lia.
    + rewrite lookup_zip_with, !list_lookup_fmap, Hr. done.
    + rewrite length_zip_with, !length_map. lia.
    + rewrite lookup_zip_with, !list_lookup_fmap, Hr. cbn. f_equal. lia.
  - rewrite (lookup_ge_None_2 prd) by lia. apply lookup_ge_None_2. rewrite !length_zip_with, !Hm, !length_map. lia.
Qed.
Lemma swap_lookup dirs pr i : swap_rows dirs pr !! i = (b ← dirs !! i; r ← pr !! i; Some (if (b : bool) then (r.2, r.1) else r)).
Proof. unfold swap_rows. rewrite lookup_zip_with. done. Qed.

(** The extents agree up to their sign. *)
Definition matched_extents (t : list Z) (pr prd : prange) : Prop :=
  forall i x r rd, t !! i = Some x -> pr !! i = Some r -> prd !! Z.to_nat (Z.abs x - 1) = Some rd -> Z.abs (extent r) = Z.abs (extent rd).

Lemma wrong_dirs_spec t pr prd : signed_perm t -> length pr = length t -> length prd = length t ->
  exists swap, wrong_dirs t pr prd = Ret swap /\ length swap = length t /\
    forall i x r rd, t !! i = Some x -> pr !! i = Some r -> prd !! Z.to_nat (Z.abs x - 1) = Some rd -> swap !! i = Some (negb (extent r =? Z.sgn x * extent rd)).
Proof.
  intros Ht Hp Hd. unfold wrong_dirs.
  assert (Hm : exists rows, mapM (fun x => py_get prd (Z.abs x - 1)) t = Ret rows /\ length rows = length t /\ forall i x, t !! i = Some x -> rows !! i = prd !! Z.to_nat (Z.abs x - 1)).
  { assert (Hall : Forall (fun x => (Z.to_nat (Z.abs x - 1) < length prd)%nat /\ 1 <= Z.abs x) t).
    { apply Forall_lookup. intros i x Hi. rewrite Hd. by eapply normal_axis_bound. }
    clear Ht Hp Hd. induction Hall as [|x t [Hx Hx1] _ (rows & IH1 & IH2 & IH3)]; [by exists []|]. destruct (lookup_lt_is_Some_2 prd _ Hx) as [rd Hrd].
    exists (rd :: rows). split; [|split; [cbn; by rewrite IH2|intros [|i] y Hy; [cbn in Hy |- *; simplify_eq; by rewrite Hrd|by apply IH3]]].
    cbn. rewrite <- (Z2Nat.id (Z.abs x - 1)) at 1 by lia. rewrite (py_get_lookup prd _ rd Hrd). cbn. by rewrite IH1. }
  destruct Hm as (rows & -> & Hrl & Hrows). cbn [mbind py_bind]. rewrite bool_decide_eq_true_2 by done. eexists. split; [reflexivity|]. split.
  - rewrite length_zip_with. rewrite length_zip_with. lia.
  - intros i x r rd Hi Hr Hrd. rewrite lookup_zip_with, Hr. cbn. rewrite lookup_zip_with, Hi. cbn. rewrite (Hrows i x Hi), Hrd. done.
Qed.

Lemma fixed_maps_onto t is_ref swap pr prd : signed_perm t -> length pr = length t -> length prd = length t -> matched_extents t pr prd ->
  wrong_dirs t pr prd = Ret swap ->
  StoUJoins.maps_onto (transform_matrix t) (fixed_ranges t is_ref swap pr prd).1 (fixed_ranges t is_ref swap pr prd).2.
Proof.
  intros Ht Hp Hd Hm Hw. destruct (wrong_dirs_spec t pr prd Ht Hp Hd) as (swap' & Hw' & Hl & Hs). assert (swap' = swap) as -> by congruence.
  assert (Hlen : length (swap_rows (scatter t swap) prd) = length t /\ length (swap_rows swap pr) = length t).
  { unfold swap_rows. rewrite !length_zip_with, length_scatter. lia. }
  unfold fixed_ranges. destruct is_ref; cbn [fst snd]; apply maps_onto_axes; try done; try apply Hlen; intros i x r rd Hi Hr Hrd.
  - rewrite swap_lookup, (scatter_axis t swap i x Ht Hl Hi) in Hrd. destruct (prd !! Z.to_nat (Z.abs x - 1)) as [rd0|] eqn:E0; [|by destruct (swap !! i)].
    rewrite (Hs i x r rd0 Hi Hr E0) in Hrd. cbn in Hrd. injection Hrd as <-. pose proof (Hm i x r rd0 Hi Hr E0) as Ha. pose proof (normal_axis_bound t i x Ht Hi) as [_ Hx]. unfold extent in *.
    assert (Hsg : Z.sgn x = 1 \/ Z.sgn x = -1) by lia.
    destruct (Z.eqb_spec (r.2 - r.1) (Z.sgn x * (rd0.2 - rd0.1))); cbn; destruct Hsg as [Hsg|Hsg]; rewrite Hsg in *; lia.
  - rewrite swap_lookup in Hr. destruct (pr !! i) as [r0|] eqn:E0; [|by destruct (swap !! i)]. rewrite (Hs i x r0 rd Hi E0 Hrd) in Hr. cbn in Hr. injection Hr as <-.
    pose proof (Hm i x r0 rd Hi E0 Hrd) as Ha. pose proof (normal_axis_bound t i x Ht Hi) as [_ Hx]. unfold extent in *. assert (Hsg : Z.sgn x = 1 \/ Z.sgn x = -1) by lia.
    destruct (Z.eqb_spec (r0.2 - r0.1) (Z.sgn x * (rd.2 - rd.1))); cbn; destruct Hsg as [Hsg|Hsg]; rewrite Hsg in *; lia.
Qed.

(** ** The corrections on the nodes *)
Section nodes.
Context `{ArrayEqual}.

(** A range is stored in a child, as an array of two columns. *)
Definition stores_range (name : string) (pr : prange) (gc : node) : Prop :=
  exists c a, child_named gc name = Some c /\ get_name c = name /\ get_raw c = Some a /\ a_type a <> T_C1 /\ a_shape a = [zlen pr; 2] /\ a_data a = map fst pr ++ map snd pr.

Lemma columns_range (pr : prange) t fc : range_of (Some (NpArray t [zlen pr; 2] fc (map fst pr ++ map snd pr))) = Ret pr.
Proof.
  unfold range_of, column_of. cbn [array_of of_option mbind py_bind a_shape a_data]. change (Z.of_nat 0 <? 2) with true. change (Z.of_nat 1 <? 2) with true. cbn iota. unfold zlen. rewrite Nat2Z.id. cbn [mbind py_bind].
  rewrite Nat.mul_0_l, drop_0, Nat.mul_1_l, take_app_length', drop_app_length' by by rewrite length_map. rewrite take_ge by (rewrite length_map; lia). f_equal.
  induction pr as [|[x y] pr IH]; [done|]. cbn. by rewrite IH.
Qed.
Lemma stores_range_at name pr gc : Fnmatch.plain name = true -> stores_range name pr gc -> range_at name gc = Ret pr.
Proof.
  intros Hp (c & a & Hc & _ & Ha & Ht & Hs & Hd). unfold range_at. rewrite name_search by done. cbn [mbind py_bind]. rewrite Hc. cbn [value_of]. unfold get_value. rewrite Ha.
  unfold get_value_of. rewrite bool_decide_eq_false_2 by done. rewrite andb_false_r. cbn [mbind py_bind]. destruct a as [t sh fc d]. cbn in Hs, Hd. subst. apply columns_range.
Qed.
Lemma put_range_stores name pr pr' gc : Fnmatch.plain name = true -> stores_range name pr gc -> length pr' = length pr ->
  exists gc', on_first (fun c => match_name c name) (put_range pr') gc = (gc', Ret ()) /\ stores_range name pr' gc' /\
    (forall other, other <> name -> child_named gc' other = child_named gc other) /\ get_name gc' = get_name gc /\ get_raw gc' = get_raw gc /\ get_label gc' = get_label gc.
Proof.
  intros Hp (c & a & Hc & Hn & Ha & Ht & Hs & Hd) Hl. set (a' := NpArray (a_type a) (a_shape a) (a_fcontiguous a) (map fst pr' ++ map snd pr')).
  destruct (on_first_child gc name c (put_range pr') (Node (get_name c) (Some a') (get_children c) (get_label c)) ()) as (gc' & E & Hc' & Ho & H1 & H2 & H3); [done|done| |done|].
  { unfold put_range. rewrite Ha. by destruct c. }
  exists gc'. split; [done|]. split; [|done]. eexists _, a'. split; [exact Hc'|]. split; [done|]. split; [done|]. split; [done|]. split; [|done]. cbn. rewrite Hs. unfold zlen. by rewrite Hl.
Qed.

(** A join whose ranges have extents that agree with the transformation up to their sign. *)
Definition fixable (gc : node) (t : list Z) (pr prd : prange) : Prop :=
  GridConnectivity_Transform gc = Ret t /\ signed_perm t /\ stores_range "PointRange" pr gc /\ stores_range "PointRangeDonor" prd gc /\
  length pr = length t /\ length prd = length t /\ matched_extents t pr prd.

(** Rows are kept or have their bounds exchanged. *)
Definition same_boxes (pr pr' : prange) : Prop := Forall2 (fun r r' => r' = r \/ r' = (r.2, r.1)) pr pr'.
Lemma same_boxes_refl pr : same_boxes pr pr.
Proof. unfold same_boxes. induction pr; constructor; auto. Qed.
Lemma swap_same_boxes dirs pr : length dirs = length pr -> same_boxes pr (swap_rows dirs pr).
Proof.
  unfold swap_rows. revert pr. induction dirs as [|b dirs IH]; intros [|r pr] Hl; try done; [constructor|]. cbn [zip_with]. constructor; [destruct b; tauto|]. apply IH. by injection Hl.
Qed.

Lemma same_boxes_length pr pr' : same_boxes pr pr' -> length pr' = length pr.
Proof. intros Hs. symmetry. by eapply Forall2_length. Qed.
Lemma existsb_swap swap pr : existsb id swap = false -> length swap = length pr -> swap_rows swap pr = pr.
Proof.
  unfold swap_rows. revert pr. induction swap as [|b swap IH]; intros [|r pr] He Hl; try done. cbn in He. apply orb_false_elim in He as [-> He]. cbn [zip_with]. f_equal. apply IH; [done|by injection Hl].
Qed.
Lemma scatter_none t swap : existsb id swap = false -> existsb id (scatter t swap) = false.
Proof.
  intros He. unfold scatter. assert (Hz : Forall (fun x : Z * bool => x.2 = false) (zip t swap)).
  { apply Forall_lookup. intros i x Hx. apply lookup_zip_with_Some in Hx as (a & b & -> & _ & Hb). cbn. destruct b; [|done].
    apply list_elem_of_lookup_2, list_elem_of_In in Hb. assert (existsb id swap = true) by (apply existsb_exists; by exists true). congruence. }
  assert (Hr : existsb id (replicate (length swap) false) = false) by (induction (length swap); done). revert Hr. generalize (replicate (length swap) false) as acc.
  induction Hz as [|[x b] l Hb _ IH]; intros acc Hacc; [done|]. cbn in Hb. subst b. cbn [foldl]. apply IH. generalize (Z.to_nat (Z.abs x - 1)) as k. clear IH.
  induction acc as [|c acc IHa]; intros k; [by destruct k|]. cbn in Hacc. apply orb_false_elim in Hacc as [Hc Hacc]. destruct k; cbn; rewrite ?Hc; cbn; [done|by apply IHa].
Qed.

(** What the assertion of the code checks. *)
Lemma maps_onto_ends t pr prd : StoUJoins.maps_onto (transform_matrix t) pr prd -> length pr = length t -> length prd = length t ->
  map snd prd = _gc_transform_point (map snd pr) (map fst pr) (map fst prd) (transform_matrix t).
Proof.
  unfold StoUJoins.maps_onto, of_window, window_of, _gc_transform_window. cbn [fst snd]. intros Hm Hp Hd. rewrite <- Hm at 1. rewrite snd_zip; [done|].
  unfold _gc_transform_point, matmul, transform_matrix. rewrite !length_zip_with, !length_map, length_arange. unfold zlen. lia.
Qed.

Lemma stores_start name pr gc : Fnmatch.plain name = true -> stores_range name pr gc -> exists v, raw_of (child_named gc name) = Ret v /\ column_of v 0 = Ret (map fst pr).
Proof.
  intros Hp (c & a & Hc & _ & Ha & _ & Hs & Hd). exists (Some a). rewrite Hc. cbn [raw_of]. rewrite Ha. split; [done|]. unfold column_of. cbn [array_of of_option mbind py_bind]. rewrite Hs, Hd.
  change (Z.of_nat 0 <? 2) with true. cbn iota. unfold zlen. rewrite Nat2Z.id, Nat.mul_0_l, drop_0, take_app_length' by by rewrite length_map. done.
Qed.
Lemma fix_join_returns gc gc_path t pr prd ref n :
  fixable gc t pr prd -> get_child_from_label gc (StrLabel "IndexRange_t") no_kw = Ret (Some n) -> is_reference gc gc_path = Ret ref ->
  exists gc' swap, wrong_dirs t pr prd = Ret swap /\ fix_join gc_path gc = (gc', Ret ()) /\
    stores_range "PointRange" (fixed_ranges t ref swap pr prd).1 gc' /\ stores_range "PointRangeDonor" (fixed_ranges t ref swap pr prd).2 gc' /\
    same_boxes pr (fixed_ranges t ref swap pr prd).1 /\ same_boxes prd (fixed_ranges t ref swap pr prd).2.
Proof.
  intros (Ht & Hperm & Hpr & Hprd & Hl & Hld & Hm) Hn Href. destruct (wrong_dirs_spec t pr prd Hperm Hl Hld) as (swap & Hw & Hsl & _).
  pose proof (fixed_maps_onto t ref swap pr prd Hperm Hl Hld Hm Hw) as Honto.
  assert (Hb1 : same_boxes pr (fixed_ranges t ref swap pr prd).1) by (unfold fixed_ranges; destruct ref; [apply same_boxes_refl|apply swap_same_boxes; lia]).
  assert (Hb2 : same_boxes prd (fixed_ranges t ref swap pr prd).2) by (unfold fixed_ranges; destruct ref; [apply swap_same_boxes; rewrite length_scatter; lia|apply same_boxes_refl]).
  assert (Hedit : exists gc', (if existsb id swap then
         is_ref ← reading (fun gc => is_reference gc gc_path);
         let '(pr, prd) := fixed_ranges t is_ref swap pr prd in
         if (is_ref : bool) then on_first (fun c => match_name c "PointRangeDonor") (put_range prd) else on_first (fun c => match_name c "PointRange") (put_range pr)
       else mret ()) gc = (gc', Ret ()) /\
    stores_range "PointRange" (fixed_ranges t ref swap pr prd).1 gc' /\ stores_range "PointRangeDonor" (fixed_ranges t ref swap pr prd).2 gc' /\ GridConnectivity_Transform gc' = Ret t).
  { destruct (existsb id swap) eqn:Es.
    - unfold reading, mbind, st_bind. rewrite Href. unfold fixed_ranges in *. destruct ref.
      + destruct (put_range_stores "PointRangeDonor" prd (swap_rows (scatter t swap) prd) gc) as (gc' & E & Hst & Ho & _ & Hr & Hlab); [done|done|by apply same_boxes_length|].
        exists gc'. split; [done|]. split; [|split; [done|]].
        * destruct Hpr as (c & a & Hc & Hrest). exists c, a. by rewrite Ho.
        * unfold GridConnectivity_Transform, check_in_labels in *. rewrite Hlab, name_search in * by done. by rewrite Ho.
      + destruct (put_range_stores "PointRange" pr (swap_rows swap pr) gc) as (gc' & E & Hst & Ho & _ & Hr & Hlab); [done|done|by apply same_boxes_length|].
        exists gc'. split; [done|]. split; [done|]. split.
        * destruct Hprd as (c & a & Hc & Hrest). exists c, a. by rewrite Ho.
        * unfold GridConnectivity_Transform, check_in_labels in *. rewrite Hlab, name_search in * by done. by rewrite Ho.
    - exists gc. split; [done|]. unfold fixed_ranges. destruct ref; cbn [fst snd]; rewrite existsb_swap; try done; [by apply scatter_none|rewrite length_scatter; lia|lia]. }
  destruct Hedit as (gc' & Hedit & Hst1 & Hst2 & Ht'). exists gc', swap. split; [done|]. split; [|done].
  unfold fix_join. unfold mbind at 1, st_bind at 1. unfold reading at 1. rewrite Hn. cbn [is_none]. cbn iota.
  unfold mbind at 1, st_bind at 1. unfold reading at 1. rewrite Ht.
  unfold mbind at 1, st_bind at 1. unfold reading at 1. rewrite (stores_range_at "PointRange" pr gc) by done.
  unfold mbind at 1, st_bind at 1. unfold reading at 1. rewrite (stores_range_at "PointRangeDonor" prd gc) by done.
  unfold mbind at 1, st_bind at 1. unfold st_lift at 1. rewrite Hw.
  unfold mbind at 1, st_bind at 1. rewrite Hedit. unfold reading.
  set (pr' := (fixed_ranges t ref swap pr prd).1) in *. set (prd' := (fixed_ranges t ref swap pr prd).2) in *.
  rewrite (stores_range_at "PointRange" pr' gc') by done. cbn [mbind py_bind]. rewrite (stores_range_at "PointRangeDonor" prd' gc') by done. cbn [mbind py_bind].
  assert (Hpoint : gc_transform_point gc' (map snd pr') = Ret (_gc_transform_point (map snd pr') (map fst pr') (map fst prd') (transform_matrix t))).
  { unfold gc_transform_point, gc_frame. destruct (stores_start "PointRange" pr' gc') as (v1 & Hv1 & Hc1); [done..|]. destruct (stores_start "PointRangeDonor" prd' gc') as (v2 & Hv2 & Hc2); [done..|].
    rewrite !name_search by done. cbn [mbind py_bind]. rewrite Hv1. cbn [mbind py_bind]. rewrite Hc1. cbn [mbind py_bind]. rewrite Hv2. cbn [mbind py_bind]. rewrite Hc2. cbn [mbind py_bind]. by rewrite Ht'. }
  rewrite Hpoint. cbn [mbind py_bind]. rewrite bool_decide_eq_true_2; [done|]. apply maps_onto_ends; [done|by rewrite (same_boxes_length _ _ Hb1)|by rewrite (same_boxes_length _ _ Hb2)].
Qed.

(** ** Both joins of a pair *)

Lemma opposite_axis t i x : signed_perm t -> t !! i = Some x -> opposite_transform t !! Z.to_nat (Z.abs x - 1) = Some (Z.sgn x * (Z.of_nat i + 1)).
Proof.
  intros Ht Hx. all_signed_perms Ht. all: destruct i as [|[|[|i]]]; cbn in Hx; simplify_eq; vm_compute; reflexivity.
Qed.
Lemma wrong_dirs_opposite t pr prd swap swap_o : signed_perm t -> length pr = length t -> length prd = length t ->
  wrong_dirs t pr prd = Ret swap -> wrong_dirs (opposite_transform t) prd pr = Ret swap_o -> swap_o = scatter t swap.
Proof.
  intros Ht Hp Hd Hw Hwo. destruct (opposite_transform_spec t Ht) as (_ & Hto & Hlo).
  destruct (wrong_dirs_spec t pr prd Ht Hp Hd) as (s & Hs & Hsl & Hsx). assert (s = swap) as -> by congruence.
  destruct (wrong_dirs_spec (opposite_transform t) prd pr Hto) as (s & Hso & Hsol & Hsox); [lia..|]. assert (s = swap_o) as -> by congruence.
  apply list_eq. intros k. destruct (decide (k < length t)%nat) as [Hk|Hk]; [|rewrite !lookup_ge_None_2; [done|rewrite length_scatter; lia|lia]].
  destruct (axis_of t k Ht Hk) as (i & x & Hi & -> & Hx0). rewrite (scatter_axis t swap i x Ht Hsl Hi). pose proof (lookup_lt_Some _ _ _ Hi) as Hil.
  destruct (lookup_lt_is_Some_2 pr i) as [r Hr]; [lia|]. destruct (lookup_lt_is_Some_2 prd (Z.to_nat (Z.abs x - 1))) as [rd Hrd]; [lia|].
  rewrite (Hsx i x r rd Hi Hr Hrd). pose proof (opposite_axis t i x Ht Hi) as Hox.
  assert (Hback : Z.to_nat (Z.abs (Z.sgn x * (Z.of_nat i + 1)) - 1) = i) by lia.
  rewrite (Hsox _ _ rd r Hox Hrd ltac:(by rewrite Hback)). do 2 f_equal.
  assert (Hsg : Z.sgn x = 1 \/ Z.sgn x = -1) by lia. destruct Hsg as [Hsg|Hsg]; rewrite Hsg; [replace (Z.sgn (1 * (Z.of_nat i + 1))) with 1 by lia|replace (Z.sgn (-1 * (Z.of_nat i + 1))) with (-1) by lia].
  all: destruct (Z.eqb_spec (extent rd) (1 * extent r)), (Z.eqb_spec (extent r) (1 * extent rd)), (Z.eqb_spec (extent rd) (-1 * extent r)), (Z.eqb_spec (extent r) (-1 * extent rd)); try done; lia.
Qed.

(** C33: The two joins of a pair whose ranges are symmetric, with extents that agree with the transformation up to their
    sign: the correction of both returns, the ranges are still symmetric and designate the same boxes, the range of the
    reference is not changed, and each donor range is the image of the range. *)
Theorem fix_pair_spec gc_a gc_b path_a path_b t pr prd n_a n_b :
  fixable gc_a t pr prd -> fixable gc_b (opposite_transform t) prd pr ->
  get_child_from_label gc_a (StrLabel "IndexRange_t") no_kw = Ret (Some n_a) -> get_child_from_label gc_b (StrLabel "IndexRange_t") no_kw = Ret (Some n_b) ->
  is_reference gc_a path_a = Ret true -> is_reference gc_b path_b = Ret false ->
  exists a' b' prd', fix_join path_a gc_a = (a', Ret ()) /\ fix_join path_b gc_b = (b', Ret ()) /\
    stores_range "PointRange" pr a' /\ stores_range "PointRangeDonor" prd' a' /\
    stores_range "PointRange" prd' b' /\ stores_range "PointRangeDonor" pr b' /\ same_boxes prd prd' /\
    StoUJoins.maps_onto (transform_matrix t) pr prd' /\ StoUJoins.maps_onto (transform_matrix (opposite_transform t)) prd' pr.
Proof.
  intros Ha Hb Hna Hnb Hra Hrb. destruct (fix_join_returns gc_a path_a t pr prd true n_a Ha Hna Hra) as (a' & swap & Hw & Ea & Sa1 & Sa2 & _ & Hbox).
  destruct (fix_join_returns gc_b path_b _ prd pr false n_b Hb Hnb Hrb) as (b' & swap_o & Hwo & Eb & Sb1 & Sb2 & _ & _).
  destruct Ha as (_ & Ht & _ & _ & Hl & Hld & Hm). destruct Hb as (_ & Hto & _ & _ & Hlo & Hldo & Hmo).
  pose proof (wrong_dirs_opposite t pr prd swap swap_o Ht Hl Hld Hw Hwo) as ->. 
  pose proof (fixed_maps_onto t true swap pr prd Ht Hl Hld Hm Hw) as H1. pose proof (fixed_maps_onto _ false _ prd pr Hto Hlo Hldo Hmo Hwo) as H2.
  unfold fixed_ranges in *. cbn [fst snd] in *. exists a', b', (swap_rows (scatter t swap) prd). done.
Qed.
End nodes.

(** ** A pair of joins *)

Definition range_node (name : string) (pr : prange) : node := Node name (Some (NpArray T_I4 [zlen pr; 2] true (map fst pr ++ map snd pr))) [] "IndexRange_t".
Definition example_join (opp : string) (t : list Z) (pr prd : prange) : node :=
  Node "match" (text_value opp)
    [range_node "PointRange" pr; range_node "PointRangeDonor" prd; Node "Transform" (Some (NpArray T_I4 [zlen t] true t)) [] "int[IndexDimension]"] "GridConnectivity1to1_t".

Lemma example_fixable opp t pr prd : let ae : ArrayEqual := fun _ _ => true in
  signed_perm t -> length pr = length t -> length prd = length t -> matched_extents t pr prd -> fixable (example_join opp t pr prd) t pr prd.
Proof.
  intros ae Ht Hp Hd Hm. split; [reflexivity|]. split; [done|]. split; [|split; [|done]].
  - eexists _, _. split; [reflexivity|]. repeat split. done.
  - eexists _, _. split; [reflexivity|]. repeat split. done.
Qed.

Lemma fix_pair_spec_witness :
  let ae : ArrayEqual := fun _ _ => true in
  let pr := [(1, 3); (4, 4); (1, 5)] in
  exists a' b', fix_join "Base/A" (example_join "B" [2; 1; 3] pr [(7, 7); (3, 1); (1, 5)]) = (a', Ret ()) /\
    fix_join "Base/B" (example_join "A" [2; 1; 3] [(7, 7); (3, 1); (1, 5)] pr) = (b', Ret ()) /\
    stores_range "PointRange" pr a' /\ stores_range "PointRangeDonor" pr b'.
Proof.
  intros ae pr.
  assert (Ht : signed_perm [2; 1; 3]) by (split; [apply (bool_decide_unpack _); vm_compute; exact I|cbn; lia]).
  assert (Hm : forall p q : prange, (p = pr /\ q = [(7, 7); (3, 1); (1, 5)]) \/ (q = pr /\ p = [(7, 7); (3, 1); (1, 5)]) -> matched_extents [2; 1; 3] p q).
  { intros p q Hpq [|[|[|i]]] x r rd Hx Hr Hrd; [..|done]; injection Hx as <-; destruct Hpq as [[-> ->]|[-> ->]]; injection Hr as <-; injection Hrd as <-; reflexivity. }
  destruct (@fix_pair_spec ae (example_join "B" [2; 1; 3] pr [(7, 7); (3, 1); (1, 5)]) (example_join "A" [2; 1; 3] [(7, 7); (3, 1); (1, 5)] pr) "Base/A" "Base/B" [2; 1; 3] pr [(7, 7); (3, 1); (1, 5)]
    (range_node "PointRange" pr) (range_node "PointRange" [(7, 7); (3, 1); (1, 5)])) as (a' & b' & prd' & H1 & H2 & H3 & _ & _ & H4 & _).
  - apply example_fixable; [done|reflexivity|reflexivity|apply Hm; by left].
  - change (opposite_transform [2; 1; 3]) with [2; 1; 3]. apply example_fixable; [done|reflexivity|reflexivity|apply Hm; by right].
  - vm_compute. reflexivity.
  - vm_compute. reflexivity.
  - vm_compute. reflexivity.
  - vm_compute. reflexivity.
  - exists a', b'. done.
Defined.

(** ** Parents of faces *)

(** Parents are absent, or numbers of an interval of cells. *)
Definition parents_in (lo hi : Z) (l : list Z) : Prop := Forall (fun x => x = 0 \/ lo <= x <= hi) l.
Definition pe_node (n : Z) (l : list Z) : node := Node "ParentElements" (Some (NpArray T_I4 [n; 2] true l)) [] "DataArray_t".

Lemma first_row_two t fc n l x y : 0 < n -> l !! 0%nat = Some x -> l !! Z.to_nat n = Some y -> first_row_max (NpArray t [n; 2] fc l) n 2 = Ret (Z.max x y).
Proof.
  intros Hn Hx Hy. unfold first_row_max. change (arange 0 2) with [0; 1]. cbn [map a_data]. rewrite Z.mul_0_l, Z.mul_1_l. change (Z.to_nat 0) with 0%nat.
  rewrite (nth_lookup_Some l 0 0 x Hx), (nth_lookup_Some l (Z.to_nat n) 0 y Hy). reflexivity.
Qed.

(** The parents numbered from 1 are shifted after the faces, once: a second correction changes nothing, as a first
    one does when they are numbered after the faces. *)
Theorem parents_shifted_once n n_faces n_cell l x y :
  0 < n -> l !! 0%nat = Some x -> l !! Z.to_nat n = Some y -> (x <> 0 \/ y <> 0) -> 0 <= n_cell <= n_faces ->
  (parents_in 1 n_cell l ->
     shift_parents 1 n_faces (pe_node n l) = (pe_node n (shift_nonzeros l n_faces), Ret 1) /\
     parents_in (n_faces + 1) (n_faces + n_cell) (shift_nonzeros l n_faces) /\
     shift_parents 1 n_faces (pe_node n (shift_nonzeros l n_faces)) = (pe_node n (shift_nonzeros l n_faces), Ret 0)) /\
  (parents_in (n_faces + 1) (n_faces + n_cell) l -> shift_parents 1 n_faces (pe_node n l) = (pe_node n l, Ret 0)).
Proof.
  intros Hn Hx Hy Hxy Hc.
  assert (Hdone : forall l x y, l !! 0%nat = Some x -> l !! Z.to_nat n = Some y -> (x <> 0 \/ y <> 0) -> parents_in (n_faces + 1) (n_faces + n_cell) l -> shift_parents 1 n_faces (pe_node n l) = (pe_node n l, Ret 0)).
  { clear. intros l x y Hx Hy Hxy Hp. unfold shift_parents. rewrite bool_decide_eq_true_2 by done. cbn [negb pe_node get_raw a_shape]. case_bool_decide as Hn; [|done].
    rewrite (first_row_two _ _ n l x y Hn Hx Hy). unfold parents_in in Hp. rewrite Forall_lookup in Hp. pose proof (Hp _ _ Hx). pose proof (Hp _ _ Hy).
    rewrite (proj2 (Z.leb_gt _ _)) by lia. done. }
  split; [|by apply (Hdone l x y)]. intros Hp.
  assert (Hp' : parents_in (n_faces + 1) (n_faces + n_cell) (shift_nonzeros l n_faces)).
  { unfold parents_in, shift_nonzeros in *. apply Forall_fmap. eapply Forall_impl; [exact Hp|]. intros z Hz. unfold compose. cbn beta in *. case_bool_decide; lia. }
  pose proof Hp as Hp0. unfold parents_in in Hp0. rewrite Forall_lookup in Hp0. pose proof (Hp0 _ _ Hx) as Hx1. pose proof (Hp0 _ _ Hy) as Hy1.
  split; [|split; [done|]].
  - unfold shift_parents. rewrite bool_decide_eq_true_2 by done. cbn [negb pe_node get_raw a_shape]. rewrite bool_decide_eq_true_2 by done. rewrite (first_row_two _ _ n l x y Hn Hx Hy).
    rewrite (proj2 (Z.leb_le _ _)) by lia. done.
  - apply (Hdone _ (x + n_faces * (if bool_decide (x <> 0) then 1 else 0)) (y + n_faces * (if bool_decide (y <> 0) then 1 else 0))); [unfold shift_nonzeros; by rewrite list_lookup_fmap, ?Hx, ?Hy..| |done].
    repeat case_bool_decide; lia.
Qed.

Lemma parents_shifted_once_witness :
  shift_parents 1 6 (pe_node 3 [1; 1; 2; 0; 2; 0]) = (pe_node 3 [7; 7; 8; 0; 8; 0], Ret 1).
Proof.
  apply (parents_shifted_once 3 6 2 [1; 1; 2; 0; 2; 0] 1 0); [lia|reflexivity|reflexivity|by left|lia|]. apply (bool_decide_unpack _). vm_compute. exact I.
Defined.

(** ** Structured joins described by lists *)

Definition list_node (name : string) (l : list Z) : node := Node name (Some (NpArray T_I4 [3; zlen l / 3] true l)) [] "IndexArray_t".
Definition hybrid_join (name opp : string) (pl pld : list Z) : node := Node name (text_value opp) [list_node "PointList" pl; list_node "PointListDonor" pld] "GridConnectivity1to1_t".
Definition hybrid_zone (name : string) (gc : node) : node := Node name None [Node "ZoneGridConnectivity" None [gc] "ZoneGridConnectivity_t"] "Zone_t".
Definition hybrid_tree : node :=
  Node "CGNSTree" None [Node "Base" None [hybrid_zone "A" (hybrid_join "m" "B" [1; 1; 1] [2; 1; 1]); hybrid_zone "B" (hybrid_join "n" "A" [2; 1; 1] [1; 1; 1])] "CGNSBase_t"] "CGNSTree_t".

(** A pair of joins with point lists, which the correction of the ranges skips, makes the enforcement of the symmetry
    of the ranges raise. *)
Theorem hybrid_joins_raise :
  let ae : ArrayEqual := fun _ _ => true in
  fix_point_ranges hybrid_tree = (hybrid_tree, Ret ()) /\
  ensure_symmetric_gc1to1 (fun x => x) hybrid_tree = (hybrid_tree, Raise TypeError).
Proof. vm_compute. split; reflexivity. Qed.
End FixTree.
