(* ===== verification/FullToDist.v ===== *)
(** * Distribution of full trees: [maia/factory/full_to_dist.py]

    A tree that all the ranks know is distributed: each rank keeps its part of the arrays, that of the uniform
    distribution, and the distribution nodes are added.  The functions are those of one rank; the theorems put the
    results of all the ranks together.  Arrays have their first index as the fastest one. *)
From S2P Require Import Prelude PyUtils NpUtils Values Conventions Fnmatch Tree Parsers Walkers Search Distribution Sids Refs Presets MaiaNodes Joins.

Local Open Scope Z_scope.

Module FullToDist.
Import NpUtils Values Tree Walkers Search Distribution Sids Refs Presets MaiaNodes.

(** ** Parts of arrays *)

(** [a[lo:hi]]: the same part of each run of the first index. *)
Definition slice_rows (lo hi : Z) (a : nparray) : py nparray :=
  match a_shape a with
  | [] => Raise IndexError
  | [n] => let l := py_slice (a_data a) lo hi in Ret (NpArray (a_type a) [zlen l] true l)
  | n :: rest =>
      let k := Z.to_nat (zprod rest) in
      let runs := map (fun run => py_slice run lo hi) (blocks (Z.to_nat n) k (a_data a)) in
      Ret (NpArray (a_type a) (zlen (py_slice (arange 0 n) lo hi) :: rest) false (concat runs))
  end.
(** [a[:, lo:hi]] of an array of two dimensions. *)
Definition slice_columns (lo hi : Z) (a : nparray) : py nparray :=
  match a_shape a with
  | [k; n] =>
      let columns := py_slice (blocks (Z.to_nat k) (Z.to_nat n) (a_data a)) lo hi in
      Ret (NpArray (a_type a) [k; zlen columns] (a_fcontiguous a) (concat columns))
  | _ => Raise IndexError
  end.
(** [array_n[1] = f(array_n[1])] *)
Definition on_array (f : nparray -> py nparray) : st () := fun n =>
  match get_raw n with
  | None => (n, Raise TypeError)
  | Some a => match f a with Ret a' => put_raw (Some a') n | Raise e => (n, Raise e) end
  end.

Section dist.
Context `{ArrayEqual} (to_float32 : Z -> Z) (astype : cgns_type -> cgns_type -> Z -> Z) (d : dtype) (rank size : Z).

Definition uniform (n : Z) : py partial := uniform_distribution d n rank size.
Definition add_distribution (name : string) (p : partial) : st () := newDistribution to_float32 [(name, partial_array d p)].

(** ** Nodes *)

Definition has_subset (n : node) : py bool :=
  pl ← get_child_from_name n "PointList" no_kw; pr ← get_child_from_name n "PointRange" no_kw;
  Ret (negb (is_none pl) || negb (is_none pr)).
(** The searches by name of the predicates of the code do not raise. *)
Definition holds_subset (n : node) : bool := match has_subset n with Ret b => b | Raise _ => false end.
Definition bcds_without_pl (n : node) : bool := bool_decide (get_label n = "BCDataSet_t") && negb (holds_subset n).
Definition has_own_pl (n : node) : bool := negb (bool_decide (get_name n ∈ ["PointList"; "PointRange"])) && holds_subset n.

Fixpoint distribute_pl_node (fuel : nat) (n : node) : py node :=
  match fuel with
  | 0%nat => Raise OutOfFuel
  | S fuel =>
      dist_node ← deep_copy to_float32 n;
      n_elem ← Subset_n_elem dist_node;
      distri ← uniform n_elem;
      Joins.applied
        (_ ← on_children (with_label "IndexArray_t") (on_array (slice_columns (p_start distri) (p_end distri)));
         let data := on_array (slice_rows (p_start distri) (p_end distri)) in
         _ ← on_children (with_label "DataArray_t") data;
         _ ← on_chain [with_label "BCData_t"; with_label "DataArray_t"] data;
         _ ← on_chain [bcds_without_pl; with_label "BCData_t"; with_label "DataArray_t"] data;
         _ ← on_children has_own_pl (fun child =>
               match distribute_pl_node fuel child with
               | Ret dist_child => put_children (get_children dist_child) child
               | Raise e => (child, Raise e)
               end);
         add_distribution "Index" distri) dist_node
  end.

Definition is_data_array (n : node) : bool := bool_decide (get_label n = "DataArray_t").
Definition vector (t : cgns_type) (l : list Z) : pyval := PArray (NpArray t [zlen l] true l).
Definition data_part (array : node) : st () :=
  a ← st_lift (of_option AttributeError (get_raw array));
  distri ← st_lift (uniform (zlen (a_data a)));
  under (new_DataArray to_float32 astype (get_name array) (vector (a_type a) (py_slice (a_data a) (p_start distri) (p_end distri))) None).
Definition copy_child (child : node) : st () := c ← st_lift (deep_copy to_float32 child); add_child (Some c).
Definition distribute_data_node (n : node) : py node :=
  pl ← get_node_from_name n "PointList" no_kw;
  _ ← py_assert (is_none pl);
  v ← get_value n false;
  v ← arg_of v;
  dist_node ← (new_node to_float32 (get_name n) (get_label n) v [] None).2;
  Joins.applied
    (_ ← Joins.for_each data_part (filter (fun c => is_data_array c = true) (get_children n));
     Joins.for_each copy_child (filter (fun c => is_data_array c = false) (get_children n))) dist_node.

(** [ec[1] = ec[1][lo:hi]] for the child of a name. *)
Definition slice_child (name : string) (lo hi : Z) : st () := on_first (fun c => match_name c name) (on_array (slice_rows lo hi)).
Definition scaled (k : Z) (p : partial) : partial := Partial (k * p_start p) (k * p_end p) (k * p_total p).
Definition cast_partial (t : cgns_type) (l : list Z) : py partial :=
  r ← safe_int_cast (NdArray (match t with T_I4 => Int32 | T_I8 => Int64 | t => OtherType (dtype_to_cgns t) end) l) (match d with Prelude.I4 => Int32 | Prelude.I8 => Int64 end);
  match nd_data r with [a; b; c] => Ret (Partial a b c) | _ => Raise IndexError end.
Definition distribute_element_node (n : node) : py node :=
  _ ← py_assert (bool_decide (get_label n = "Elements_t"));
  dist_node ← deep_copy to_float32 n;
  n_elem ← Element_Size n;
  distri ← uniform n_elem;
  Joins.applied
    (_ ← add_distribution "Element" distri;
     name ← st_lift (Element_CGNSName n);
     _ ← (if bool_decide (name ∈ ["NGON_n"; "NFACE_n"; "MIXED"]) then
            eso_n ← reading (fun m => get_child_from_name m "ElementStartOffset" no_kw);
            eso ← st_lift (v ← raw_of eso_n; array_of v);
            distri_ec ← st_lift (mapM (py_get (a_data eso)) [p_start distri; p_end distri; -1]);
            first ← st_lift (py_get distri_ec 0); last ← st_lift (py_get distri_ec 1);
            _ ← slice_child "ElementConnectivity" first last;
            _ ← slice_child "ElementStartOffset" (p_start distri) (p_end distri + 1);
            p ← st_lift (cast_partial (a_type eso) distri_ec);
            add_distribution "ElementConnectivity" p
          else
            n_vtx ← st_lift (v ← Element_NVtx n; of_option TypeError v);
            _ ← slice_child "ElementConnectivity" (n_vtx * p_start distri) (n_vtx * p_end distri);
            add_distribution "ElementConnectivity" (scaled n_vtx distri));
     pe ← reading (fun m => get_child_from_name m "ParentElements" no_kw);
     match pe with
     | None => mret ()
     | Some _ =>
         on_first (fun c => match_name c "ParentElements")
           (on_array (fun a => a ← slice_rows (p_start distri) (p_end distri) a; Ret (NpArray (a_type a) (a_shape a) true (a_data a))))
     end) dist_node.

(** ** Zones *)

(** The removal of a child, which has the same name in the zone, and the addition of what replaces it. *)
Definition replace_child (f : node -> py node) (child : node) : st () :=
  _ ← rm_child (Some (fun c => bool_decide (get_name c = get_name child)));
  c ← st_lift (f child);
  add_child (Some c).
Definition replace_children (labels : list string) (f : node -> py node) : st () :=
  l ← reading (fun zone => l ← mapM (fun label => iter_children_from_label zone (StrLabel label) no_kw) labels; Ret (concat l));
  Joins.for_each (replace_child f) l.
(** A node that is created anew, with the distributed children of some labels. *)
Definition distribute_group (label : string) (labels : list string) (group : node) : py node :=
  g ← (new_node to_float32 (get_name group) label PNone [] None).2;
  l ← mapM (fun label => iter_children_from_label group (StrLabel label) no_kw) labels;
  Joins.applied (Joins.for_each (fun c => c ← st_lift (distribute_pl_node (Parsers.size c) c); add_child (Some c)) (concat l)) g.
Definition distribute_solution (sol : node) : py node :=
  pl ← get_child_from_name sol "PointList" no_kw;
  if is_none pl then distribute_data_node sol else distribute_pl_node (Parsers.size sol) sol.
Definition rm_named (name : string) : st () := fun n => (rm_children_from_predicate (fun c => match_name c name) n, Ret ()).
(** The list of the matching region is read in the zone, where the regions are already distributed. *)
Definition distribute_subregion (zone zone_subregion : node) : py node :=
  matching_region_path ← Subset_ZSRExtent zone_subregion zone;
  let related := negb (bool_decide (matching_region_path = get_name zone_subregion)) in
  zsr ← Joins.applied
    (if related then
       _ ← add_child (get_node_from_path zone (matching_region_path +:+ "/PointList"));
       add_child (get_node_from_path zone (matching_region_path +:+ "/PointRange"))
     else mret ()) zone_subregion;
  dist_zone_subregion ← distribute_pl_node (Parsers.size zsr) zsr;
  Joins.applied
    (if related then
       _ ← rm_named "PointList"; _ ← rm_named "PointRange";
       distri ← reading (fun n => getDistribution n None);
       rm_child ((fun x c => bool_decide (get_name c = get_name x)) <$> distri)
     else mret ()) dist_zone_subregion.
Definition replace_subregion (zone_subregion : node) : st () :=
  dist_zone_subregion ← reading (fun zone => distribute_subregion zone zone_subregion);
  _ ← rm_child (Some (fun c => bool_decide (get_name c = get_name zone_subregion)));
  add_child (Some dist_zone_subregion).
Definition distribute_zone : st () :=
  n_vtx ← reading Zone_n_vtx; n_cell ← reading Zone_n_cell;
  vtx ← st_lift (uniform n_vtx); cell ← st_lift (uniform n_cell);
  t ← reading Zone_Type;
  face ← (if is_text t "Structured" then n_face ← reading Zone_n_face; p ← st_lift (uniform n_face); mret [("Face", partial_array d p)] else mret []);
  _ ← newDistribution to_float32 ([("Vertex", partial_array d vtx); ("Cell", partial_array d cell)] ++ face);
  _ ← replace_children ["GridCoordinates_t"] distribute_data_node;
  _ ← replace_children ["Elements_t"] distribute_element_node;
  _ ← replace_children ["FlowSolution_t"; "DiscreteData_t"] distribute_solution;
  _ ← replace_children ["ZoneBC_t"] (distribute_group "ZoneBC_t" ["BC_t"]);
  _ ← replace_children ["ZoneGridConnectivity_t"] (distribute_group "ZoneGridConnectivity_t" ["GridConnectivity_t"; "GridConnectivity1to1_t"]);
  zone_subregions ← reading (fun zone => iter_children_from_label zone (StrLabel "ZoneSubRegion_t") no_kw);
  Joins.for_each replace_subregion zone_subregions.
Definition _distribute_tree (tree : node) : py node :=
  dist_tree ← deep_copy to_float32 tree; Joins.applied (on_zones distribute_zone) dist_tree.
End dist.
End FullToDist.
