(* ===== verification/FullToDistSpec.v ===== *)
(** * Full trees are distributed without loss: theorems on [maia/factory/full_to_dist.py]

    The parts that the ranks keep of the arrays of a node, put one after the other, are the arrays of the node. *)
From S2P Require Import Prelude PyUtils NpUtils Values Conventions Fnmatch Tree Parsers Walkers Search Distribution Sids Refs Presets MaiaNodes Joins FullToDist.

Local Open Scope Z_scope.

Module FullToDistSpec.
Import NpUtils Values Tree Walkers Search Distribution Sids Refs Presets MaiaNodes FullToDist.

(** ** Parts of a list *)

Lemma slice_part {A} (l : list A) a b : 0 <= a <= b -> b <= zlen l -> py_slice l a b = take (Z.to_nat (b - a)) (drop (Z.to_nat a) l).
Proof. intros Ha Hb. rewrite py_slice_nonneg by lia. f_equal. lia. Qed.
(** Consecutive parts are glued together. *)
Lemma slices_glued {A} (l : list A) (f : Z -> Z) P :
  0 <= P -> f 0 = 0 -> (forall i j, 0 <= i <= j -> j <= P -> f i <= f j) -> f P <= zlen l ->
  concat (map (fun r => py_slice l (f r) (f (r + 1))) (arange 0 P)) = take (Z.to_nat (f P)) l.
Proof.
  intros HP H0 Hm Hl. revert Hm Hl. pattern P. apply natlike_ind; [|clear P HP|done].
  - intros _ _. rewrite arange_nil by lia. by rewrite H0.
  - intros P HP IH Hm Hl. rewrite <- Z.add_1_r in *. rewrite (arange_app 0 P (P + 1)) by lia. rewrite map_app, concat_app. rewrite IH; [|intros i j Hi Hj; apply Hm; lia|specialize (Hm P (P + 1)); lia].
    rewrite (arange_cons P), (arange_nil (P + 1)) by lia. cbn [map concat]. rewrite app_nil_r. pose proof (Hm 0 P ltac:(lia) ltac:(lia)). pose proof (Hm P (P + 1) ltac:(lia) ltac:(lia)).
    rewrite slice_part by lia. rewrite take_take_drop. f_equal. lia.
Qed.

(** ** Arrays of the children *)

Section spec.
Context `{ArrayEqual} (to_float32 : Z -> Z) (astype : cgns_type -> cgns_type -> Z -> Z) (d : dtype).

Lemma strip_named cs name : name <> distri_name -> filter (fun c => get_name c = name) (strip_list cs) = map strip (filter (fun c => get_name c = name) cs).
Proof using Type.
  intros Hn. induction cs as [|c cs IH]; [done|]. unfold strip_list in *. cbn [flat_map]. rewrite filter_app, IH, filter_cons.
  assert (Hs : get_name (strip c) = get_name c) by by destruct c. unfold named_distri, match_name. rewrite Fnmatch.fnmatch_plain by done. case_bool_decide as E.
  - rewrite decide_False by congruence. done.
  - rewrite filter_cons, Hs. destruct (decide (get_name c = name)); done.
Qed.
(** What does not concern the distribution nodes leaves the arrays of the other children. *)
Lemma silent_raw {A} (f : st A) n name : silent f -> name <> distri_name -> raw_at (f n).1 name = raw_at n name.
Proof using Type.
  intros Hf Hn. destruct (Hf n) as [_ Hs]. destruct ((f n).1) as [nm' v' cs' l'], n as [nm v cs l]. rewrite !strip_node in Hs. injection Hs as _ _ Hcs _.
  unfold raw_at, child_named. cbn [get_children]. apply (f_equal (filter (fun c => get_name c = name))) in Hcs. rewrite !strip_named in Hcs by done.
  assert (Hr : forall c, get_raw (strip c) = get_raw c) by by intros [].
  destruct (filter _ cs') as [|c' r'], (filter _ cs) as [|c r]; try done. cbn in Hcs |- *. injection Hcs as Hc _. f_equal. by rewrite <- (Hr c'), Hc, Hr.
Qed.

(** An update of a child returns. *)
Lemma update_returns parent name label v val :
  Fnmatch.plain name = true -> is_valid_name name false = true -> is_valid_label label false = true -> match v with Some v => _convert_value to_float32 v = Ret val | None => True end ->
  exists parent' c, update to_float32 name label v parent = (parent', Ret ()) /\ child_named parent' name = Some c /\ get_label c = label /\
    match v with Some _ => get_raw c = val | None => True end.
Proof using Type.
  intros Hp Hn Hl Hv.
  assert (Hup : forall c, get_name c = name -> exists c', update_node to_float32 None (Some label) v None c = (c', Ret ()) /\ get_name c' = name /\ get_label c' = label /\
    match v with Some _ => get_raw c' = val | None => True end).
  { intros [nm pv cs pl] Hc. unfold update_node, when, mbind, st_bind. unfold mret at 1, st_ret at 1. rewrite set_label_ok, Hl. destruct v as [v|].
    - unfold set_value, mbind, st_bind, st_lift. rewrite Hv. by eexists.
    - by eexists. }
  assert (Hfind : find_child (fun c => match_name c name) (get_children parent) = find_child (has_name name) (get_children parent)).
  { apply find_child_ext. intros c. unfold match_name, has_name. by rewrite Fnmatch.fnmatch_plain. }
  unfold update, update_child. rewrite Hfind. destruct parent as [pn pv cs pl]. cbn [get_children]. destruct (find_child (has_name name) cs) as [i|] eqn:Ei.
  - destruct (find_child_Some _ _ _ Ei) as (c & Hc & Hcn). apply bool_decide_eq_true in Hcn. destruct (Hup c Hcn) as (c' & E & H1 & H2 & H3).
    unfold update_at. rewrite Hc, E. eexists _, c'. split; [reflexivity|]. split; [|done]. rewrite child_named_head. apply head_filter_insert; [done|by apply bool_decide_eq_true].
  - rewrite new_node_spec, Hn. change (negb true) with false. change (negb (is_valid_label "UserDefined_t" false)) with false. cbn iota. cbn [_convert_value]. rewrite bool_decide_eq_true_2 by constructor.
    assert (Hno : name ∉ get_names cs).
    { intros (c & Hc & Hin)%list_elem_of_fmap. clear -Ei Hc Hin. induction cs as [|x cs IH]; [by apply not_elem_of_nil in Hin|]. cbn in Ei. unfold has_name in Ei at 1. case_bool_decide as E; [done|].
      apply elem_of_cons in Hin as [->|Hin]; [done|]. destruct (find_child (has_name name) cs); [done|]. by apply IH. }
    rewrite bool_decide_eq_false_2 by done. unfold update_at. rewrite lookup_app_r, Nat.sub_diag by done. cbn [lookup list_lookup].
    destruct (Hup (Node name None (some_nodes []) "UserDefined_t") eq_refl) as (c' & E & H1 & H2 & H3). rewrite E. rewrite insert_app_r_alt, Nat.sub_diag by done.
    eexists _, c'. split; [reflexivity|]. split; [|done]. unfold child_named. cbn [get_children]. rewrite filter_app, (filter_none_nil _ cs).
    + cbn. rewrite decide_True by done. done.
    + intros c Hc Hcn. apply Hno. rewrite <- Hcn. by apply list_elem_of_fmap_2.
Qed.
Lemma newDistribution_returns l n : Forall (fun x : string * pyval => Fnmatch.plain x.1 = true /\ is_valid_name x.1 false = true /\ exists val, _convert_value to_float32 x.2 = Ret val) l ->
  exists n', newDistribution to_float32 l n = (n', Ret ()).
Proof using Type.
  intros Hl. unfold newDistribution, new_container. unfold mbind at 1, st_bind at 1.
  destruct (update_returns n distri_name "UserDefinedData_t" None None) as (n1 & c & E & Hc & _); [done..|]. rewrite E.
  assert (Hall : forall c, exists c', update_all to_float32 l c = (c', Ret ())).
  { clear -Hl. induction Hl as [|[name v] l (Hp & Hv & val & Hval) _ IH]; intros c; [by exists c|]. cbn [update_all fst snd] in *. unfold mbind at 1, st_bind at 1.
    destruct (update_returns c name "DataArray_t" (Some v) val) as (c1 & x & E & _); [done..|]. rewrite E. apply IH. }
  destruct (Hall c) as [c' Hc']. destruct (on_first_child n1 distri_name c (update_all to_float32 l) c' ()) as (n' & E' & _); [done|done|done| |by exists n'].
  pose proof (update_all_keeps to_float32 l c) as Hk. rewrite Hc' in Hk. cbn in Hk. rewrite Hk. unfold child_named in Hc.
  destruct (filter _ (get_children n1)) as [|x r] eqn:Ef; [done|]. injection Hc as ->. assert (Hin : c ∈ filter (fun c => get_name c = distri_name) (get_children n1)) by (rewrite Ef; by left). by apply list_elem_of_filter in Hin as [Hin _].
Qed.

(** ** Edits of one array *)

Lemma edit_raw n name f a a' : Fnmatch.plain name = true -> raw_at n name = Some (Some a) -> f a = Ret a' ->
  exists n', on_first (fun c => match_name c name) (on_array f) n = (n', Ret ()) /\ raw_at n' name = Some (Some a') /\ (forall other, other <> name -> raw_at n' other = raw_at n other).
Proof using Type.
  intros Hp Hr Hf. destruct (edit_child_raw n name (on_array f) (Some a) (Some a')) as (n' & E & H1 & H2 & _); [done|done| |by exists n'].
  intros [nm v cs l] Hv. cbn in Hv. subst v. unfold on_array. cbn. by rewrite Hf.
Qed.
Lemma distribution_step name p n : Fnmatch.plain name = true -> is_valid_name name false = true ->
  exists n', add_distribution to_float32 d name p n = (n', Ret ()) /\ forall other, other <> distri_name -> raw_at n' other = raw_at n other.
Proof using Type.
  intros Hp Hv. destruct (newDistribution_returns [(name, partial_array d p)] n) as [n' E]; [apply Forall_singleton; split; [done|]; split; [done|]; by eexists|].
  exists n'. split; [done|]. intros other Ho. pose proof (silent_raw (newDistribution to_float32 [(name, partial_array d p)]) n other (silent_newDistribution _ _) Ho) as Hr. by rewrite E in Hr.
Qed.

(** ** The parts of the ranks *)

Lemma uniform_exact n r P : 0 <= n <= iinfo_max d -> 0 <= r < P ->
  let s := PyUtils.uniform_start n P r in let e := PyUtils.uniform_start n P (r + 1) in
  uniform d r P n = Ret (Partial s e n) /\ 0 <= s <= e /\ e <= n.
Proof using Type.
  intros Hn Hr. cbn zeta. unfold uniform, uniform_distribution. rewrite PyUtils.uniform_at_start by lia. cbn [mbind py_bind fst snd].
  destruct (PyUtils.uniform_start_spec n P) as (H0 & H1 & Hm); [lia..|]. pose proof (Hm 0 r). pose proof (Hm r (r + 1)). pose proof (Hm (r + 1) P).
  rewrite !wrap_id by (unfold in_dtype, iinfo_min, iinfo_max in *; destruct d; cbn in *; lia). split; [done|]. lia.
Qed.

Lemma slice_vec t l lo hi fc : slice_rows lo hi (NpArray t [zlen l] fc l) = Ret (vec t (py_slice l lo hi)).
Proof using Type. done. Qed.

(** An element node with offsets: the arrays are there, the offsets fit in their type and in the one of the global numbers. *)
Definition poly_element (n : node) (n_elem : Z) (es ec : list Z) : Prop :=
  named n /\ get_label n = "Elements_t" /\ Element_Size n = Ret n_elem /\ 0 <= n_elem <= iinfo_max d /\
  (exists name, Element_CGNSName n = Ret name /\ name ∈ ["NGON_n"; "NFACE_n"; "MIXED"]) /\
  (exists t dt fc, raw_at n "ElementStartOffset" = Some (Some (NpArray t [zlen es] fc es)) /\ (t, dt) ∈ [(T_I4, Prelude.I4); (T_I8, Prelude.I8)] /\
     Forall (fun x => 0 <= x <= iinfo_max d /\ x <= iinfo_max dt) es) /\
  (exists t fc, raw_at n "ElementConnectivity" = Some (Some (NpArray t [zlen ec] fc ec))) /\
  zlen es = n_elem + 1 /\ (raw_at n "ParentElements" = None \/ exists t fc pe, raw_at n "ParentElements" = Some (Some (NpArray t [n_elem; 2] fc pe)) /\ zlen pe = 2 * n_elem).

Lemma cast_partial_exact t dt a b c : (t, dt) ∈ [(T_I4, Prelude.I4); (T_I8, Prelude.I8)] -> Forall (fun x => 0 <= x <= iinfo_max d /\ x <= iinfo_max dt) [a; b; c] ->
  cast_partial d t [a; b; c] = Ret (Partial a b c).
Proof using Type.
  intros Ht Hr. unfold cast_partial.
  assert (Hin : Forall (in_dtype dt) [a; b; c] /\ (iinfo_min Prelude.I8 ∉ [a; b; c])).
  { clear -Hr. split; [eapply Forall_impl; [exact Hr|]; intros x [Hx Hx']; destruct dt; unfold in_dtype, iinfo_min, iinfo_max in *; cbn in *; lia|].
    intros Hx. rewrite Forall_forall in Hr. specialize (Hr _ Hx). unfold iinfo_min in Hr. cbn in Hr. lia. }
  assert (Hd : (match d with Prelude.I4 => Int32 | Prelude.I8 => Int64 end) ∈ [Int32; Int64]) by (clear; destruct d; set_solver).
  assert (Hb : (match d with Prelude.I4 => Int32 | Prelude.I8 => Int64 end) = Int64 \/ Forall (fun x => Z.abs x <= iinfo_max Prelude.I4) [a; b; c]).
  { clear -Hr. destruct d; [right|by left]. eapply Forall_impl; [exact Hr|]. intros x Hx. cbn beta in Hx. lia. }
  destruct Hin as (H4 & Hm). rewrite !elem_of_cons in Ht. destruct Ht as [[= -> ->]|[[= -> ->]|Ht%not_elem_of_nil]]; [| |done].
  - rewrite (safe_int_cast_spec _ Int32 _ Prelude.I4); [|by left|done|done|done]. rewrite bool_decide_eq_true_2 by by left. done.
  - rewrite (safe_int_cast_spec _ Int64 _ Prelude.I8); [|by right; left|done|done|done]. rewrite bool_decide_eq_true_2 by by right. done.
Qed.

(** What a rank keeps of an element node. *)
Definition part_rows (lo hi : Z) (v : option value) : option value :=
  match v with Some (Some a) => match slice_rows lo hi a with Ret a' => Some (Some (NpArray (a_type a') (a_shape a') true (a_data a'))) | Raise _ => None end | v => v end.
Lemma element_part n n_elem es ec r P : poly_element n n_elem es ec -> 0 <= r < P ->
  let s := PyUtils.uniform_start n_elem P r in let e := PyUtils.uniform_start n_elem P (r + 1) in
  exists part first last t t', distribute_element_node to_float32 d r P n = Ret part /\
    py_get es s = Ret first /\ py_get es e = Ret last /\
    raw_at part "ElementConnectivity" = Some (Some (vec t (py_slice ec first last))) /\
    raw_at part "ElementStartOffset" = Some (Some (vec t' (py_slice es s (e + 1)))) /\
    raw_at part "ParentElements" = part_rows s e (raw_at n "ParentElements").
Proof using Type.
  intros (Hn & Hl & Hs & Hb & (name & Hname & Hpoly) & (t' & dt & fc & Heso & Ht & Hes) & (t & fc' & Hec) & Hlen & Hpe) Hr s e.
  destruct (uniform_exact n_elem r P Hb Hr) as (Hu & Hse & Hen). fold s in Hu, Hse. fold e in Hu, Hse, Hen.
  assert (Hget : forall k, 0 <= k <= n_elem -> exists x, py_get es k = Ret x /\ 0 <= x <= iinfo_max d /\ x <= iinfo_max dt).
  { intros k Hk. destruct (lookup_lt_is_Some_2 es (Z.to_nat k)) as [x Hx]; [unfold zlen in Hlen; lia|]. exists x. split; [rewrite <- (Z2Nat.id k) by lia; by apply py_get_lookup|]. rewrite Forall_lookup in Hes. by apply (Hes _ _ Hx). }
  destruct (Hget s) as (first & Hfirst & Hf1); [lia|]. destruct (Hget e) as (last & Hlast & Hl1); [lia|].
  assert (Hfin : exists x, py_get es (-1) = Ret x /\ 0 <= x <= iinfo_max d /\ x <= iinfo_max dt).
  { destruct (py_get_final es) as [x Hx]; [intros ->; unfold zlen in Hlen; cbn in Hlen; lia|]. exists x. split; [done|]. apply py_get_Ret in Hx as (k & _ & Hk). rewrite Forall_lookup in Hes. by apply (Hes _ _ Hk). }
  destruct Hfin as (total & Htotal & Ht1).
  unfold distribute_element_node. rewrite bool_decide_eq_true_2 by done. cbn [py_assert mbind py_bind]. rewrite (proj1 (deep_copy_spec to_float32 n) Hn). cbn [mbind py_bind]. rewrite Hs. cbn [mbind py_bind]. rewrite Hu. cbn [mbind py_bind].
  destruct (distribution_step "Element" (Partial s e n_elem) n) as (n1 & E1 & R1); [done..|].
  destruct (edit_raw n1 "ElementConnectivity" (slice_rows first last) (NpArray t [zlen ec] fc' ec) (vec t (py_slice ec first last))) as (n2 & E2 & R2 & R2'); [done|by rewrite R1|done|].
  destruct (edit_raw n2 "ElementStartOffset" (slice_rows s (e + 1)) (NpArray t' [zlen es] fc es) (vec t' (py_slice es s (e + 1)))) as (n3 & E3 & R3 & R3'); [done|by rewrite R2', R1|done|].
  destruct (distribution_step "ElementConnectivity" (Partial first last total) n3) as (n4 & E4 & R4); [done..|].
  assert (Hpoly' : (eso_n ← reading (fun m => get_child_from_name m "ElementStartOffset" no_kw);
            eso ← st_lift (v ← raw_of eso_n; array_of v);
            distri_ec ← st_lift (mapM (py_get (a_data eso)) [s; e; -1]);
            first ← st_lift (py_get distri_ec 0); last ← st_lift (py_get distri_ec 1);
            _ ← slice_child "ElementConnectivity" first last;
            _ ← slice_child "ElementStartOffset" s (e + 1);
            p ← st_lift (cast_partial d (a_type eso) distri_ec);
            add_distribution to_float32 d "ElementConnectivity" p) n1 = (n4, Ret ())).
  { assert (Hr1 : raw_at n1 "ElementStartOffset" = Some (Some (NpArray t' [zlen es] fc es))) by by rewrite R1. unfold raw_at in Hr1. destruct (child_named n1 "ElementStartOffset") as [c|] eqn:Hc; [|done]. injection Hr1 as Hr1.
    rewrite (st_read _ _ n1 (Some c)) by (rewrite name_search by done; by rewrite Hc). rewrite (st_lifted _ _ n1 (NpArray t' [zlen es] fc es)) by (cbn [raw_of mbind py_bind]; by rewrite Hr1).
    rewrite (st_lifted _ _ n1 [first; last; total]) by (cbn [a_data mapM]; rewrite Hfirst; cbn [mbind py_bind]; rewrite Hlast; cbn [mbind py_bind]; by rewrite Htotal).
    rewrite (st_lifted _ _ n1 first) by done. rewrite (st_lifted _ _ n1 last) by done. rewrite (st_step _ _ n1 n2 () E2). rewrite (st_step _ _ n2 n3 () E3).
    rewrite (st_lifted _ _ n3 (Partial first last total)); [done|]. cbn [a_type]. apply (cast_partial_exact t' dt); [done|]. repeat (apply Forall_cons_2; [done|]). apply Forall_nil_2. }
  assert (Hfinal : exists n5, (pe ← reading (fun m => get_child_from_name m "ParentElements" no_kw);
     match pe with
     | None => mret ()
     | Some _ => on_first (fun c => match_name c "ParentElements") (on_array (fun a => a ← slice_rows s e a; Ret (NpArray (a_type a) (a_shape a) true (a_data a))))
     end) n4 = (n5, Ret ()) /\ raw_at n5 "ParentElements" = part_rows s e (raw_at n "ParentElements") /\ forall other, other <> "ParentElements" -> raw_at n5 other = raw_at n4 other).
  { assert (Hsame : raw_at n4 "ParentElements" = raw_at n "ParentElements") by by rewrite R4, R3', R2', R1. rewrite <- Hsame in Hpe |- *. destruct Hpe as [Hnone|(tp & fp & pe & Hpe & Hlp)].
    - exists n4. unfold raw_at in Hnone. destruct (child_named n4 "ParentElements") as [|] eqn:Hc; [done|]. rewrite (st_read _ _ n4 None) by (rewrite name_search by done; by rewrite Hc). split; [done|]. split; [|done]. unfold raw_at. by rewrite Hc.
    - pose proof Hpe as Hpe'. unfold raw_at in Hpe'. destruct (child_named n4 "ParentElements") as [c|] eqn:Hc; [|done]. rewrite (st_read _ _ n4 (Some c)) by (rewrite name_search by done; by rewrite Hc).
      rewrite Hpe. cbn [part_rows]. destruct (slice_rows s e (NpArray tp [n_elem; 2] fp pe)) as [a'|] eqn:Ea; [|done].
      destruct (edit_raw n4 "ParentElements" (fun a => a ← slice_rows s e a; Ret (NpArray (a_type a) (a_shape a) true (a_data a))) (NpArray tp [n_elem; 2] fp pe) (NpArray (a_type a') (a_shape a') true (a_data a'))) as (n5 & E5 & R5 & R5'); [done|done|by rewrite Ea|].
      exists n5. split; [exact E5|]. split; [done|done]. }
  destruct Hfinal as (n5 & E5 & R5 & R5'). exists n5, first, last, t, t'. split.
  - unfold Joins.applied. rewrite (st_step _ _ n n1 () E1). rewrite (st_lifted _ _ n1 name Hname). rewrite bool_decide_eq_true_2 by done.
    cbn [p_start p_end]. rewrite (st_step _ _ n1 n4 () Hpoly'). by rewrite E5.
  - split; [done|]. split; [done|]. split; [by rewrite R5', R4, R3'|]. split; [by rewrite R5', R4|done].
Qed.

(** The offsets start at zero, do not decrease, and end at the size of the connectivity. *)
Definition offsets (es ec : list Z) : Prop :=
  es !! 0%nat = Some 0 /\ last es = Some (zlen ec) /\ forall i j x y, (i <= j)%nat -> es !! i = Some x -> es !! j = Some y -> x <= y.

(** C23: The parts of a node of polyhedral elements that the ranks keep: put one after the other, their connectivities are
    the connectivity of the node, and their offsets without the last one are the offsets of the node; the offsets of a
    part are those of its elements in the whole connectivity. *)
Theorem distribute_element_lossless n n_elem es ec P :
  poly_element n n_elem es ec -> offsets es ec -> 0 < P ->
  exists parts, mapM (fun r => distribute_element_node to_float32 d r P n) (arange 0 P) = Ret parts /\
    concat (map (fun p => data_at p "ElementConnectivity") parts) = ec /\
    concat (map (fun p => removelast (data_at p "ElementStartOffset")) parts) ++ [zlen ec] = es /\
    Forall (fun p => zlen (data_at p "ElementConnectivity") = default 0 (last (data_at p "ElementStartOffset")) - default 0 (head (data_at p "ElementStartOffset"))) parts.
Proof using Type.
  intros Hn (Ho1 & Ho2 & Ho3) HP. set (st := PyUtils.uniform_start n_elem P). set (at' := fun k => nth (Z.to_nat k) es 0).
  pose proof Hn as (_ & _ & _ & Hb & _ & _ & _ & Hlen & _). destruct (PyUtils.uniform_start_spec n_elem P) as (H0 & H1 & Hm); [lia..|]. fold st in H0, H1, Hm.
  assert (Hat : forall k x, py_get es k = Ret x -> 0 <= k -> x = at' k /\ es !! Z.to_nat k = Some x).
  { intros k x Hx Hk. rewrite <- (Z2Nat.id k) in Hx by lia. apply py_get_nat in Hx. split; [|done]. unfold at'. symmetry. by apply nth_lookup_Some. }
  assert (Hes : forall k, 0 <= k <= n_elem -> es !! Z.to_nat k = Some (at' k)).
  { intros k Hk. destruct (lookup_lt_is_Some_2 es (Z.to_nat k)) as [x Hx]; [unfold zlen in Hlen; lia|]. rewrite Hx. unfold at'. by rewrite (nth_lookup_Some _ _ _ _ Hx). }
  assert (Hend : at' n_elem = zlen ec).
  { assert (E : Some (at' n_elem) = Some (zlen ec)); [|congruence]. rewrite <- Hes by lia. rewrite <- Ho2. rewrite last_lookup. f_equal. unfold zlen in Hlen. lia. }
  assert (Hstart : at' 0 = 0) by (assert (E : Some (at' 0) = Some 0); [rewrite <- Hes by lia; exact Ho1|congruence]).
  destruct (mapM_parts (fun r => distribute_element_node to_float32 d r P n) (fun r part => data_at part "ElementConnectivity" = py_slice ec (at' (st r)) (at' (st (r + 1))) /\ data_at part "ElementStartOffset" = py_slice es (st r) (st (r + 1) + 1))
    (arange 0 P)) as (parts & Hparts & Hf).
  { intros r Hr. apply elem_of_arange in Hr. destruct (element_part n n_elem es ec r P Hn ltac:(lia)) as (part & first & last & t & t' & E & Hfi & Hla & R1 & R2 & _). exists part. split; [done|]. fold st in Hfi, Hla, R2.
    pose proof (Hm 0 r ltac:(lia)). pose proof (Hm 0 (r + 1) ltac:(lia)). apply Hat in Hfi as [-> _]; [|lia]. apply Hat in Hla as [-> _]; [|lia]. unfold data_at. rewrite R1, R2. done. }
  exists parts. split; [done|].
  assert (Hmono : forall i j, 0 <= i <= j -> j <= P -> at' (st i) <= at' (st j)).
  { intros i j Hi Hj. pose proof (Hm i j Hi). pose proof (Hm 0 i ltac:(lia)). pose proof (Hm j P ltac:(lia)). apply (Ho3 (Z.to_nat (st i)) (Z.to_nat (st j))); [lia|apply Hes; lia|apply Hes; lia]. }
  split; [|split].
  - rewrite (concat_parts (fun r => py_slice ec (at' (st r)) (at' (st (r + 1)))) _ (arange 0 P)); [|eapply Forall2_impl; [exact Hf|]; by intros r p []].
    rewrite (slices_glued ec (fun r => at' (st r)) P); [|lia|by rewrite H0|done|rewrite H1, Hend; lia]. rewrite H1, Hend. apply take_ge. unfold zlen. lia.
  - rewrite (concat_parts (fun r => py_slice es (st r) (st (r + 1))) _ (arange 0 P)).
    + rewrite (slices_glued es st P) by (done || lia || (intros i j Hi _; by apply Hm)). rewrite H1.
      rewrite <- (take_drop (Z.to_nat n_elem) es) at 2. f_equal. assert (Hd : drop (Z.to_nat n_elem) es = [at' n_elem]); [|by rewrite Hd, Hend].
      rewrite (drop_S es (at' n_elem) (Z.to_nat n_elem)) by (apply Hes; lia). by rewrite drop_ge by (unfold zlen in Hlen; lia).
    + eapply Forall2_impl_in_l; [exact Hf|]. intros r p Hr [_ ->]. apply elem_of_arange in Hr. pose proof (Hm r (r + 1) ltac:(lia)). pose proof (Hm 0 r ltac:(lia)). pose proof (Hm (r + 1) P ltac:(lia)).
      rewrite !slice_part by lia. replace (Z.to_nat (st (r + 1) + 1 - st r)) with (S (Z.to_nat (st (r + 1) - st r))) by lia.
      rewrite (take_S_r _ _ (at' (st (r + 1)))); [by rewrite removelast_last|]. rewrite lookup_drop. rewrite <- (Hes (st (r + 1))) by lia. f_equal. lia.
  - eapply Forall2_Forall_r; [exact Hf|]. apply Forall_forall. intros r Hr p [-> ->]. apply elem_of_arange in Hr. pose proof (Hm r (r + 1) ltac:(lia)). pose proof (Hm 0 r ltac:(lia)). pose proof (Hm (r + 1) P ltac:(lia)).
    pose proof (Hmono r (r + 1) ltac:(lia) ltac:(lia)). pose proof (Hmono 0 r ltac:(lia) ltac:(lia)). pose proof (Hmono (r + 1) P ltac:(lia) ltac:(lia)). rewrite H0, Hstart in *. rewrite H1, Hend in *.
    rewrite !slice_part by lia. replace (Z.to_nat (st (r + 1) + 1 - st r)) with (S (Z.to_nat (st (r + 1) - st r))) by lia.
    assert (Hlast : last (take (S (Z.to_nat (st (r + 1) - st r))) (drop (Z.to_nat (st r)) es)) = Some (at' (st (r + 1)))).
    { rewrite (take_S_r _ _ (at' (st (r + 1)))); [apply last_snoc|]. rewrite lookup_drop. rewrite <- (Hes (st (r + 1))) by lia. f_equal. lia. }
    rewrite Hlast. rewrite (drop_S es (at' (st r))) by (apply Hes; lia). cbn [take head default]. unfold zlen. rewrite length_take, length_drop. unfold zlen in *. cbn. lia.
Qed.

(** ** Nodes with arrays on all the cells or vertices *)

Definition data_of (c : node) : list Z := match get_raw c with Some a => a_data a | None => [] end.
Definition type_of (c : node) : cgns_type := match get_raw c with Some a => a_type a | None => T_C1 end.
(** The part of an array that a rank keeps. *)
Definition array_part (r P : Z) (c : node) : node :=
  let n := zlen (data_of c) in
  Node (get_name c) (Some (vec (type_of c) (py_slice (data_of c) (PyUtils.uniform_start n P r) (PyUtils.uniform_start n P (r + 1))))) [] "DataArray_t".

Lemma data_part_spec r P c m : 0 <= r < P -> is_valid_name (get_name c) false = true -> is_Some (get_raw c) -> zlen (data_of c) <= iinfo_max d -> get_name c ∉ get_names (get_children m) ->
  data_part to_float32 astype d r P c m = (Node (get_name m) (get_raw m) (get_children m ++ [array_part r P c]) (get_label m), Ret ()).
Proof using Type.
  intros Hr Hv [a Ha] Hl Hn. unfold data_part, data_of in *. rewrite Ha in *. rewrite (st_lifted _ _ m a) by done.
  destruct (uniform_exact (zlen (a_data a)) r P) as (Hu & _); [unfold zlen in *; lia|done|]. rewrite (st_lifted _ _ m _ Hu). cbn [p_start p_end].
  unfold vector. fold (vec (a_type a) (py_slice (a_data a) (PyUtils.uniform_start (zlen (a_data a)) P r) (PyUtils.uniform_start (zlen (a_data a)) P (r + 1)))).
  rewrite new_vector_spec by done. unfold array_part, type_of, data_of. by rewrite Ha.
Qed.
Lemma data_parts r P l : forall m, 0 <= r < P -> Forall (fun c => is_valid_name (get_name c) false = true /\ is_Some (get_raw c) /\ zlen (data_of c) <= iinfo_max d) l ->
  NoDup (get_names (get_children m) ++ get_names l) ->
  Joins.for_each (data_part to_float32 astype d r P) l m = (Node (get_name m) (get_raw m) (get_children m ++ map (array_part r P) l) (get_label m), Ret ()).
Proof using Type.
  induction l as [|c l IH]; intros m Hr Hf Hn; [cbn; rewrite app_nil_r; by destruct m|]. apply Forall_cons in Hf as [(Hv & Ha & Hl) Hf]. cbn [Joins.for_each].
  assert (Hc : get_name c ∉ get_names (get_children m)) by (apply NoDup_app in Hn as (_ & Hn & _); intros Hin; apply (Hn _ Hin); by left).
  rewrite (st_step _ _ m _ () (data_part_spec r P c m Hr Hv Ha Hl Hc)). rewrite IH; [|done|done|].
  - cbn [get_name get_raw get_children get_label map]. by rewrite <- app_assoc.
  - cbn [get_children]. unfold get_names in *. rewrite fmap_app, <- app_assoc. done.
Qed.
Lemma copy_parts l : forall m, Forall named l -> NoDup (get_names (get_children m) ++ get_names l) ->
  Joins.for_each (copy_child to_float32) l m = (Node (get_name m) (get_raw m) (get_children m ++ l) (get_label m), Ret ()).
Proof using Type.
  induction l as [|c l IH]; intros m Hf Hn; [cbn; rewrite app_nil_r; by destruct m|]. apply Forall_cons in Hf as [Hc Hf]. cbn [Joins.for_each].
  assert (Hin : get_name c ∉ get_names (get_children m)) by (apply NoDup_app in Hn as (_ & Hn & _); intros Hin; apply (Hn _ Hin); by left).
  rewrite (st_step _ _ m (Node (get_name m) (get_raw m) (get_children m ++ [c]) (get_label m)) ()).
  - rewrite IH; [|done|]; [cbn [get_name get_raw get_children get_label]; by rewrite <- app_assoc|]. cbn [get_children]. unfold get_names in *. rewrite fmap_app, <- app_assoc. done.
  - unfold copy_child. rewrite (st_lifted _ _ m c) by by apply deep_copy_spec. unfold add_child. rewrite bool_decide_eq_false_2 by done. by destruct m.
Qed.

Lemma filter_names_split (p : node -> bool) cs :
  NoDup (get_names cs) -> NoDup (get_names (filter (fun c => p c = true) cs) ++ get_names (filter (fun c => p c = false) cs)).
Proof using Type.
  intros Hn. apply NoDup_app. split; [by apply NoDup_names_filter|]. split; [|by apply NoDup_names_filter].
  intros x (c & -> & [Hc Hin]%list_elem_of_filter)%list_elem_of_fmap (c' & Hcc & [Hc' Hin']%list_elem_of_filter)%list_elem_of_fmap.
  apply list_elem_of_lookup in Hin as [i Hi]. apply list_elem_of_lookup in Hin' as [j Hj].
  assert (i = j); [|congruence]. eapply NoDup_lookup; [exact Hn|unfold get_names; rewrite list_lookup_fmap, Hi; reflexivity|unfold get_names; rewrite list_lookup_fmap, Hj; cbn; by rewrite Hcc].
Qed.
Lemma array_parts_glue c P : 0 < P -> concat (map (fun r => data_of (array_part r P c)) (arange 0 P)) = data_of c.
Proof using Type.
  intros HP. set (n := zlen (data_of c)). destruct (PyUtils.uniform_start_spec n P) as (H0 & H1 & Hm); [unfold n, zlen; lia..|].
  transitivity (concat (map (fun r => py_slice (data_of c) (PyUtils.uniform_start n P r) (PyUtils.uniform_start n P (r + 1))) (arange 0 P))); [done|].
  rewrite (slices_glued (data_of c) (PyUtils.uniform_start n P) P); [|lia|done|intros i j Hi _; by apply Hm|rewrite H1; unfold n; lia]. rewrite H1. apply take_ge. unfold n, zlen. lia.
Qed.

Lemma wf_named t : wf t -> named t.
Proof using Type.
  induction t as [name val children label IH] using node_ind'. inversion 1 as [? ? ? ? H1 H2 _ Hc]; subst. constructor; [done..|].
  rewrite Forall_forall in IH, Hc |- *. intros c Hin. by apply IH, Hc.
Qed.

(** A node whose arrays are on all the vertices or cells: each rank returns a node whose arrays are the parts of the
    arrays, followed by the other children; the parts of the ranks, one after the other, are the arrays. *)
Theorem distribute_data_lossless n P :
  wf n -> get_raw n = None -> get_node_from_name n "PointList" no_kw = Ret None ->
  Forall (fun c => is_data_array c = true -> is_Some (get_raw c) /\ zlen (data_of c) <= iinfo_max d) (get_children n) -> 0 < P ->
  exists parts, mapM (fun r => distribute_data_node to_float32 astype d r P n) (arange 0 P) = Ret parts /\
    Forall2 (fun r p => get_name p = get_name n /\ get_label p = get_label n /\
      get_children p = map (array_part r P) (filter (fun c => is_data_array c = true) (get_children n)) ++ filter (fun c => is_data_array c = false) (get_children n)) (arange 0 P) parts /\
    Forall (fun c => concat (map (fun r => data_of (array_part r P c)) (arange 0 P)) = data_of c) (get_children n).
Proof using Type.
  intros Hw Hraw Hpl Ha HP. destruct Hw as [nm v cs l Hnm Hlab Hnd Hcs]. cbn [get_raw get_children get_name get_label] in *. subst v.
  destruct (mapM_parts (fun r => distribute_data_node to_float32 astype d r P (Node nm None cs l)) (fun r p => get_name p = nm /\ get_label p = l /\
      get_children p = map (array_part r P) (filter (fun c => is_data_array c = true) cs) ++ filter (fun c => is_data_array c = false) cs) (arange 0 P)) as (parts & E & Hf).
  - intros r Hr. apply elem_of_arange in Hr. unfold distribute_data_node. rewrite Hpl. cbn [mbind py_bind py_assert is_none get_name get_label get_children].
    change (get_value (Node nm None cs l) false) with (Ret (Raw None) : py read_value). cbn [mbind py_bind arg_of of_value]. rewrite new_node_spec, Hnm, Hlab. cbn [negb _convert_value snd]. rewrite bool_decide_eq_true_2 by constructor. cbn [snd mbind py_bind].
    change (some_nodes []) with (@nil node). unfold Joins.applied.
    pose proof (filter_names_split is_data_array cs Hnd) as Hsplit.
    rewrite (st_step _ _ _ (Node nm None (map (array_part r P) (filter (fun c => is_data_array c = true) cs)) l) ()).
    + rewrite copy_parts; [cbn [get_name get_raw get_children get_label]; eexists; split; [reflexivity|]; done| |].
      * apply Forall_forall. intros c [_ Hc]%list_elem_of_filter. rewrite Forall_forall in Hcs. by apply wf_named, Hcs.
      * cbn [get_children]. replace (get_names (map (array_part r P) (filter (fun c => is_data_array c = true) cs))) with (get_names (filter (fun c => is_data_array c = true) cs)); [done|].
        unfold get_names. rewrite <- (list_fmap_compose (array_part r P) get_name). done.
    + rewrite data_parts; [done|lia| |].
      * apply Forall_forall. intros c [Hd Hc]%list_elem_of_filter. rewrite Forall_forall in Ha, Hcs. destruct (Ha c Hc Hd) as [H1 H2]. split; [|done]. specialize (Hcs c Hc). by destruct Hcs.
      * cbn [get_children get_names fmap list_fmap app]. by apply NoDup_names_filter.
  - exists parts. split; [done|]. split; [done|]. apply Forall_forall. intros c _. by apply array_parts_glue.
Qed.
End spec.

(** ** Examples *)

Definition ints (l : list Z) : value := Some (vec T_I4 l).
Definition array (name : string) (l : list Z) : node := Node name (ints l) [] "DataArray_t".
Definition point_list (l : list Z) : node := Node "PointList" (Some (NpArray T_I4 [1; zlen l] true l)) [] "IndexArray_t".
Definition descriptor (name text label : string) : node := Node name (text_value text) [] label.
(** Four polygons of the test of the module. *)
Definition polygons : node :=
  Node "Element" (ints [22; 0]) [Node "ElementRange" (ints [1; 4]) [] "IndexRange_t"; array "ElementStartOffset" [0; 4; 8; 11; 16];
    array "ElementConnectivity" [4; 1; 3; 8; 8; 2; 3; 1; 9; 7; 4; 11; 4; 2; 10; 1];
    Node "ParentElements" (Some (NpArray T_I4 [4; 2] true [1; 2; 2; 3; 0; 3; 0; 0])) [] "DataArray_t"] "Elements_t".
Definition solution : node := Node "SolNoPl" None [descriptor "GridLocation" "CellCenter" "GridLocation_t"; array "Array" [22; 33; 11; 0]] "FlowSolution_t".

Local Instance any_equal : ArrayEqual := fun _ _ => true.

Lemma distribute_element_lossless_witness :
  exists parts, mapM (fun r => distribute_element_node (fun x => x) Prelude.I8 r 3 polygons) (arange 0 3) = Ret parts /\
    concat (map (fun p => data_at p "ElementConnectivity") parts) = [4; 1; 3; 8; 8; 2; 3; 1; 9; 7; 4; 11; 4; 2; 10; 1].
Proof.
  destruct (distribute_element_lossless (fun x => x) Prelude.I8 polygons 4 [0; 4; 8; 11; 16] [4; 1; 3; 8; 8; 2; 3; 1; 9; 7; 4; 11; 4; 2; 10; 1] 3) as (parts & E & Hc & _);
    [| |lia|by exists parts].
  - split; [repeat constructor|]. split; [done|]. split; [reflexivity|]. split; [vm_compute; split; discriminate|].
    split; [exists "NGON_n"; split; [reflexivity|by left]|]. split; [exists T_I4, Prelude.I4, true; split; [reflexivity|]; split; [by left|repeat constructor; by vm_compute]|].
    split; [by exists T_I4, true|]. split; [reflexivity|]. right. by exists T_I4, true, [1; 2; 2; 3; 0; 3; 0; 0].
  - split; [done|]. split; [done|]. intros i j x y Hij Hi Hj. destruct i as [|[|[|[|[|i]]]]]; [..|done]; destruct j as [|[|[|[|[|j]]]]]; try lia; try done; injection Hi as <-; injection Hj as <-; lia.
Defined.

Lemma distribute_data_lossless_witness :
  exists parts, mapM (fun r => distribute_data_node (fun x => x) (fun _ _ x => x) Prelude.I8 r 3 solution) (arange 0 3) = Ret parts.
Proof.
  destruct (distribute_data_lossless (fun x => x) (fun _ _ x => x) Prelude.I8 solution 3) as (parts & E & _);
    [solve_wf|done|reflexivity| |lia|by exists parts].
  repeat constructor; try done; intros _; vm_compute; discriminate.
Defined.

(** ** The data of a region related to a boundary condition *)

Definition related_zone : node :=
  Node "Zone" (Some (NpArray T_I4 [1; 3] true [18; 4; 0])) [descriptor "ZoneType" "Unstructured" "ZoneType_t";
    Node "ZoneBC" None [Node "bc" None [point_list [10; 14; 12; 16]; descriptor "GridLocation" "CellCenter" "GridLocation_t"] "BC_t"] "ZoneBC_t";
    Node "RelatedZSR" None [array "Array" [21; 12; 20; 12]; descriptor "BCRegionName" "bc" "Descriptor_t"] "ZoneSubRegion_t"] "Zone_t".
Definition related_tree : node := Node "CGNSTree" None [Node "Base" None [related_zone] "CGNSBase_t"] "CGNSTree_t".
(** The array of a node of the tree that a rank keeps. *)
Definition kept `{ArrayEqual} (size : Z) (path : string) (rank : Z) : py (list Z) :=
  t ← _distribute_tree (fun x => x) (fun _ _ x => x) Prelude.I8 rank size related_tree;
  Ret (match Search.get_node_from_path t path with Some n => data_of n | None => [] end).

End FullToDistSpec.
