(* ===== verification/Compatibility.v ===== *)
(** * Old and new conventions of polyhedral elements: [maia/algo/seq/compatibility.py]

    In the trees of CGNS 3 the connectivity of polyhedral elements is interlaced with the sizes of the elements,
    and some tools number the cells and the faces from 1 and have no sign in the faces of the cells; in CGNS 4 the
    connectivity is indexed by offsets.  The two conversions of a tree, with [pe_to_nface] and [nface_to_pe] of
    [maia/algo/part/ngon_tools/_ngon_tools.py] on the nodes of a zone and the dispatch of [maia/algo/indexing.py].
    The arrays are changed in place: the functions are state transformers on the zone. *)
From S2P Require Import Prelude PyUtils NpUtils Values Conventions Fnmatch Tree Parsers Walkers Search Sids Refs Presets NGonTools MaiaNodes Joins FixTree.

Local Open Scope Z_scope.

Module Compatibility.
Import NpUtils Values Tree Walkers Search Sids Refs Presets MaiaNodes Joins FixTree.

(** ** Arrays of the nodes *)

(** The kernels are compiled for the two types of integers, and for arguments of the same type. *)
Definition kernel_type (t u : cgns_type) : py cgns_type :=
  if bool_decide (t = u /\ t ∈ [T_I4; T_I8]) then Ret t else Raise TypeError.
(** The type of an operation on two arrays of integers. *)
Definition promote (t u : cgns_type) : cgns_type := match t, u with T_I4, T_I8 => T_I8 | _, _ => t end.

Definition put_array (name : string) (a : nparray) : st () := on_first (fun c => match_name c name) (put_raw (Some a)).
(** An operation in place on the elements of an array. *)
Definition map_raw (f : Z -> Z) : st () := fun n =>
  match get_raw n with
  | Some a => put_raw (Some (NpArray (a_type a) (a_shape a) (a_fcontiguous a) (map f (a_data a)))) n
  | None => (n, Raise TypeError)
  end.
Definition map_array (name : string) (f : Z -> Z) : st () := on_first (fun c => match_name c name) (map_raw f).
Definition rm_all (name : string) : st () := fun n => (rm_children_from_predicate (fun c => match_name c name) n, Ret ()).

Section compatibility.
(** The numbers 3.1 and 4.2 are given by their codes. *)
Context `{ArrayEqual} (to_float32 : Z -> Z) (astype : cgns_type -> cgns_type -> Z -> Z) (version_3 version_4 : Z).

(** The node that [NGonNode] or [NFaceNode] returns, in the zone. *)
Definition element_named (name : string) (n : node) : bool := match is_element name n with Ret b => b | Raise _ => false end.
Definition on_element {A} (name : string) (f : st A) : st A := on_first (element_named name) f.

(** ** Connectivity of an element node *)

Definition ints_at (name : string) : st nparray := v ← reading (fun n => raw_child n name); st_lift (array_of v).
Definition indexed_to_interleaved_connectivity : st () :=
  offset ← ints_at "ElementStartOffset";
  connec ← ints_at "ElementConnectivity";
  t ← st_lift (kernel_type (a_type offset) (a_type connec));
  l ← st_lift (indexed_to_interlaced (a_data offset) (a_data connec));
  _ ← put_array "ElementConnectivity" (vec t l);
  rm_child (Some (fun c => match_name c "ElementStartOffset")).

Definition new_array (name : string) (t : cgns_type) (l : list Z) : st () := under (new_DataArray to_float32 astype name (PArray (vec t l)) None).
Definition interlaced_to_indexed_connectivity : st () :=
  n_elem ← reading Element_Size;
  connec ← ints_at "ElementConnectivity";
  t ← st_lift (kernel_type (a_type connec) (a_type connec));
  r ← st_lift (interlaced_to_indexed n_elem (a_data connec));
  _ ← new_array "ElementStartOffset" t r.1;
  put_array "ElementConnectivity" (vec t r.2).

(** The kernel of [layouts.pybind.cpp]: the number of vertices of each type of element, then the loop, which reads
    the type of an element at its offset. *)
Definition n_vtx_per_type : list Z :=
  [-1; -1; 1; 2; 3; 3; 6; 4; 8; 9; 4; 10; 5; 14; 6; 15; 18; 8; 20; 27; -1; 13; -1; -1; 4; 9; 10; 12; 16; 16; 20; 21; 29; 30; 24; 38; 40; 32; 56; 64;
   5; 12; 15; 16; 25; 22; 34; 35; 29; 50; 55; 33; 66; 75; 44; 98; 125].
Fixpoint mixed_eso (n_cell : nat) (connec : list Z) (pos : Z) : py (list Z) :=
  match n_cell with
  | O => Ret []
  | S n_cell' =>
      kind ← NGonTools.c_get connec pos;
      nv ← NGonTools.c_get n_vtx_per_type kind;
      rest ← mixed_eso n_cell' connec (pos + nv + 1);
      Ret (pos + nv + 1 :: rest)
  end.
Definition create_mixed_elts_eso : st () :=
  ec_n ← reading (fun n => get_node_from_name n "ElementConnectivity" no_kw);
  ec ← st_lift (v ← raw_of ec_n; of_option AttributeError v);
  n_elem ← reading Element_Size;
  _ ← st_lift (if bool_decide (n_elem + 1 < 0) then Raise ValueError else Ret ());
  t ← st_lift (kernel_type (a_type ec) (a_type ec));
  _ ← st_lift (if bool_decide (n_elem + 1 = 0) then Raise UndefinedBehavior else Ret ());
  eso ← st_lift (mixed_eso (Z.to_nat n_elem) (a_data ec) 0);
  new_array "ElementStartOffset" t (0 :: eso).

(** ** ParentElements and NFace *)

(** [get_ngon_pe_local] on a node: the array itself when the cells are numbered from 1. *)
Definition get_ngon_pe_local (ngon_node : node) : py nparray :=
  name ← Element_CGNSName ngon_node;
  _ ← py_assert (bool_decide (name = "NGON_n"));
  pe_n ← get_child_from_name ngon_node "ParentElements" no_kw;
  pe_n ← of_option RuntimeError pe_n;
  pe_val ← of_option AttributeError (get_raw pe_n);
  if bool_decide (a_data pe_val = []) then Ret pe_val else
  rows ← range_of (Some pe_val);
  er ← Element_Range ngon_node;
  last_face ← elem er 1;
  b ← NGonTools.pe_is_shifted last_face rows;
  if (b : bool) then
    er ← array_of er;
    Ret (NpArray (promote (a_type pe_val) (a_type er)) (a_shape pe_val) (a_fcontiguous pe_val) (map (NGonTools.unshift last_face) (a_data pe_val)))
  else Ret pe_val.

Definition bounds_of (range : value) : py (Z * Z) := first ← elem range 0; last ← elem range 1; Ret (first, last).
(** [pe_to_nface] of a partitioned zone *)
Definition pe_to_nface (remove_PE : bool) : st () :=
  ngon_node ← reading Zone_NGonNode;
  er ← st_lift (raw_child ngon_node "ElementRange");
  pe ← st_lift (v ← raw_child ngon_node "ParentElements"; array_of v);
  ngon_range ← st_lift (bounds_of er);
  rows ← st_lift (range_of (Some pe));
  r ← st_lift (NGonTools.pe_to_nface ngon_range rows);
  local_pe ← st_lift (get_ngon_pe_local ngon_node);
  t ← st_lift (kernel_type (a_type local_pe) (a_type local_pe));
  let '((min_cell, max_cell), nface_eso, nface_ec) := r in
  cell_gnum ← reading (fun zone => getGlobalNumbering zone (Some "Cell"));
  _ ← under (then_fill
        (new_NFaceElements to_float32 astype "NFaceElements" (Some (PArray (vec T_I4 [min_cell; max_cell])))
           (Some (PArray (vec t nface_eso))) (Some (PArray (vec t nface_ec))))
        (match cell_gnum with
         | None => mret ()
         | Some g => v ← st_lift (v ← get_value g false; arg_of v); newGlobalNumbering to_float32 [("Element", v)]
         end));
  if remove_PE then on_element "NGON_n" (rm_all "ParentElements") else mret ().

(** [nface_to_pe] of a partitioned zone *)
Definition nface_to_pe (remove_NFace : bool) : st () :=
  ngon_node ← reading Zone_NGonNode;
  nface_node ← reading Zone_NFaceNode;
  cell_face_idx ← st_lift (v ← raw_child nface_node "ElementStartOffset"; array_of v);
  cell_face ← st_lift (v ← raw_child nface_node "ElementConnectivity"; array_of v);
  ngon_range ← st_lift (v ← Element_Range ngon_node; bounds_of v);
  nface_range ← st_lift (v ← Element_Range nface_node; bounds_of v);
  t ← st_lift (kernel_type (a_type cell_face_idx) (a_type cell_face));
  local_pe ← st_lift (NGonTools.nface_to_pe ngon_range nface_range (a_data cell_face_idx) (a_data cell_face));
  _ ← on_element "NGON_n" (under (new_DataArray to_float32 astype "ParentElements"
        (PArray (NpArray t [zlen local_pe; 2] true (NGonTools.columns local_pe))) None));
  if remove_NFace then rm_child (Some (element_named "NFACE_n")) else mret ().

(** [maia.algo.pe_to_nface] without a communicator, on a zone *)
Definition pe_to_nface_of_zone : st () :=
  d ← reading (fun zone => getDistribution zone None);
  match d with Some _ => st_raise AssertionError | None => pe_to_nface false end.

(** ** Loops on zones *)

Definition zones_iterator (f : st ()) : st () := fun t =>
  if bool_decide (get_label t = "Zone_t") then f t
  else if bool_decide (get_label t = "CGNSBase_t") then on_children (with_label "Zone_t") f t
  else if bool_decide (get_label t = "CGNSTree_t") then on_chain [with_label "CGNSBase_t"; with_label "Zone_t"] f t
  else (t, Raise ValueError).

Definition enforce_ngon_pe_local : st () :=
  zones_iterator (fun zone =>
    match Zone_NGonNode zone with
    | Raise RuntimeError => (zone, Ret ())
    | Raise e => (zone, Raise e)
    | Ret ngon_node =>
        (pe_n ← st_lift (get_child_from_name ngon_node "ParentElements" no_kw);
         pe ← st_lift (get_ngon_pe_local ngon_node);
         on_element "NGON_n" (put_array "ParentElements" pe)) zone
    end).

(** ** From the new conventions to the old ones *)

Definition zone_new_to_old (full_onera_compatibility : bool) : st () :=
  t ← reading Zone_Type;
  if negb (is_text t "Unstructured") then mret () else
  has_ngon ← reading Zone_has_ngon_elements;
  if (has_ngon : bool) then
    has_nface ← reading Zone_has_nface_elements;
    ngon ← reading Zone_NGonNode;
    ngon_range ← st_lift (raw_child ngon "ElementRange");
    _ ← (if (has_nface : bool) then
           nface ← reading Zone_NFaceNode;
           _ ← st_lift (raw_child nface "ElementRange"); _ ← st_lift (raw_child nface "ElementConnectivity"); mret ()
         else mret ());
    _ ← (if full_onera_compatibility then
           pe_node ← st_lift (get_child_from_name ngon "ParentElements" no_kw);
           _ ← match pe_node with
               | None => mret ()
               | Some _ => pe ← st_lift (get_ngon_pe_local ngon); on_element "NGON_n" (put_array "ParentElements" pe)
               end;
           if (has_nface : bool) then
             _ ← on_element "NFACE_n" (map_array "ElementConnectivity" Z.abs);
             first ← st_lift (elem ngon_range 0);
             on_element "NFACE_n" (map_array "ElementConnectivity" (fun x => x + (- first + 1)))
           else mret ()
         else mret ());
    _ ← on_element "NGON_n" indexed_to_interleaved_connectivity;
    if (has_nface : bool) then on_element "NFACE_n" indexed_to_interleaved_connectivity else mret ()
  else on_children (element_named "MIXED") (rm_all "ElementStartOffset").

Definition set_version (code : Z) : st () := on_first (with_label "CGNSLibraryVersion_t") (set_value to_float32 (PFloat code)).
Definition poly_new_to_old (full_onera_compatibility : bool) : st () :=
  _ ← set_version version_3; on_zones (zone_new_to_old full_onera_compatibility).

(** ** From the old conventions to the new ones *)

(** The range of the cells: that of the NFace node, or the one that follows the faces. *)
Definition cell_range (zone : node) (ngon_range : value) (nface_range : option value) : py (Z * Z) :=
  match nface_range with
  | Some r => bounds_of r
  | None => last ← elem ngon_range 1; n_cell ← Zone_n_cell zone; Ret (last + 1, last + n_cell)
  end.
(** The numbers of an array are those of a range, or they start at 1 and are shifted. *)
Definition fix_parents (range : Z * Z) (pe : nparray) : st () :=
  let pe_no_0 := filter (fun x => 0 < x) (a_data pe) in
  min_pe ← st_lift (py_min pe_no_0);
  max_pe ← st_lift (py_max pe_no_0);
  if bool_decide (min_pe = range.1 /\ max_pe = range.2) then mret ()
  else if bool_decide (min_pe <> 1) then st_raise RuntimeError
  else on_element "NGON_n" (map_array "ParentElements" (fun x => x + (range.1 - 1) * (if bool_decide (0 < x) then 1 else 0))).
Definition fix_faces (ngon_range : Z * Z) (nface_connec : nparray) : st () :=
  let abs_nf := map Z.abs (a_data nface_connec) in
  min_nf ← st_lift (py_min abs_nf);
  max_nf ← st_lift (py_max abs_nf);
  if bool_decide (min_nf = ngon_range.1 /\ max_nf = ngon_range.2) then mret ()
  else if bool_decide (min_nf <> 1) then st_raise RuntimeError
  else on_element "NFACE_n" (map_array "ElementConnectivity" (fun x => (Z.abs x + (ngon_range.1 - 1)) * Z.sgn x)).

Definition zone_old_to_new : st () :=
  t ← reading Zone_Type;
  if negb (is_text t "Unstructured") then mret () else
  has_ngon ← reading Zone_has_ngon_elements;
  if (has_ngon : bool) then
    has_nface ← reading Zone_has_nface_elements;
    ngon ← reading Zone_NGonNode;
    ngon_range ← st_lift (raw_child ngon "ElementRange");
    nface_range ← (if (has_nface : bool) then nface ← reading Zone_NFaceNode; r ← st_lift (raw_child nface "ElementRange"); mret (Some r)
                   else mret None);
    _ ← on_element "NGON_n" interlaced_to_indexed_connectivity;
    pe_node ← st_lift (get_child_from_name ngon "ParentElements" no_kw);
    _ ← match pe_node with
        | None => mret ()
        | Some pe_node =>
            range ← reading (fun zone => cell_range zone ngon_range nface_range);
            pe ← st_lift (array_of (get_raw pe_node));
            fix_parents range pe
        end;
    if (has_nface : bool) then
      nface_connec ← on_element "NFACE_n" (ints_at "ElementConnectivity");
      range ← reading (fun zone => cell_range zone ngon_range nface_range);
      let n_cell := range.2 - range.1 in
      lowest ← st_lift (py_min (a_data nface_connec));
      if bool_decide (lowest < 0 \/ n_cell = 1) then
        _ ← on_element "NFACE_n" interlaced_to_indexed_connectivity;
        nface_connec ← on_element "NFACE_n" (ints_at "ElementConnectivity");
        faces ← st_lift (bounds_of ngon_range);
        fix_faces faces nface_connec
      else
        _ ← rm_child (Some (element_named "NFACE_n"));
        if is_none pe_node then st_raise RuntimeError else
        first ← st_lift (elem ngon_range 0);
        if bool_decide (first <> 1) then st_raise NotImplementedError else
        pe_to_nface_of_zone
    else mret ()
  else on_children (element_named "MIXED") create_mixed_elts_eso.
Definition poly_old_to_new : st () :=
  _ ← set_version version_4; on_zones zone_old_to_new.
End compatibility.
End Compatibility.
