(* ===== verification/CompatibilitySpec.v ===== *)
(** * The conversions between the conventions of polyhedral elements are inverse of each other

    Theorems on Compatibility: the arrays of a zone after the conversion to the old conventions and back. *)
From S2P Require Import Prelude PyUtils NpUtils Values Conventions Fnmatch Tree Parsers Walkers Search Sids Refs Presets NGonTools MaiaNodes Joins JoinsSpec FixTree Compatibility.

Local Open Scope Z_scope.

Module CompatibilitySpec.
Import NpUtils Values Tree Walkers Search Sids Refs Presets MaiaNodes Joins FixTree Compatibility.

(** ** One child among others *)

(** The predicate holds for the child of a position only. *)
Definition only (p : node -> py bool) (cs : list node) (i : nat) : Prop := forall k c, cs !! k = Some c -> p c = Ret (bool_decide (k = i)).
Definition holds (p : node -> py bool) (c : node) : bool := match p c with Ret b => b | Raise _ => false end.

Lemma only_tail p c cs i : only p (c :: cs) (S i) -> only p cs i.
Proof. intros Ho k d Hk. rewrite (Ho (S k) d Hk). f_equal. apply bool_decide_ext. lia. Qed.
Lemma none_tail p c cs : only p (c :: cs) 0 -> forall k d, cs !! k = Some d -> p d = Ret false.
Proof. intros Ho k d Hk. by rewrite (Ho (S k) d Hk). Qed.
Lemma children_where_none p cs : (forall k d, cs !! k = Some d -> p d = Ret false) -> children_where p cs = Ret [].
Proof.
  induction cs as [|c cs IH]; intros Hn; [done|]. cbn. rewrite (Hn 0%nat c eq_refl). cbn. by rewrite IH by (intros k d; apply (Hn (S k))).
Qed.
Lemma only_spec p cs i e : only p cs i -> cs !! i = Some e ->
  children_where p cs = Ret [e] /\ child_where p cs = Ret (Some e) /\ find_child (holds p) cs = Some i.
Proof.
  revert i. induction cs as [|c cs IH]; intros i Ho Hi; [done|]. cbn. unfold holds at 1. rewrite (Ho 0%nat c eq_refl). destruct i as [|i]; cbn.
  - injection Hi as ->. by rewrite (children_where_none p cs (none_tail _ _ _ Ho)).
  - destruct (IH i (only_tail _ _ _ _ Ho) Hi) as (-> & -> & ->). done.
Qed.
Lemma only_of_sole p cs e : children_where p cs = Ret [e] -> exists i, only p cs i /\ cs !! i = Some e.
Proof.
  induction cs as [|c cs IH]; [done|]. cbn. destruct (p c) as [b|] eqn:Eb; [|done]. cbn. destruct (children_where p cs) as [r|] eqn:Er; [|done]. cbn. destruct b.
  - intros [= -> ->]. exists 0%nat. split; [|done]. intros [|k] d Hd; [by injection Hd as <-|]. cbn in Hd. clear -Er Hd. rewrite bool_decide_eq_false_2 by done. revert k Er Hd.
    induction cs as [|c cs IH]; intros k Er Hd; [done|]. cbn in Er. destruct (p c) as [b|] eqn:Eb; [|done]. cbn in Er. destruct (children_where p cs) as [r|]; [|done]. cbn in Er. destruct b; [done|]. injection Er as ->.
    destruct k as [|k]; [by injection Hd as <-|]. by apply (IH k).
  - intros [= ->]. destruct IH as (i & Ho & Hi); [done|]. exists (S i). split; [|done]. intros [|k] d Hd; [by injection Hd as <-|]. rewrite (Ho k d Hd). f_equal. apply bool_decide_ext. lia.
Qed.
Lemma only_insert p cs i k c c' : only p cs i -> cs !! k = Some c -> p c' = p c -> only p (<[k:=c']> cs) i.
Proof.
  intros Ho Hk Hp m d Hd. destruct (decide (m = k)) as [->|Hn].
  - rewrite list_lookup_insert_eq in Hd by by eapply lookup_lt_Some. injection Hd as <-. rewrite Hp. by apply Ho.
  - rewrite list_lookup_insert_ne in Hd by done. by apply Ho.
Qed.

Section spec.
Context `{ArrayEqual} (to_float32 : Z -> Z) (astype : cgns_type -> cgns_type -> Z -> Z).

(** Whether a node is an element of a kind depends on its label and value. *)
Lemma is_element_same name c c' : get_label c' = get_label c -> get_raw c' = get_raw c -> is_element name c' = is_element name c.
Proof using Type. intros Hl Hr. unfold is_element, Element_CGNSName, Element_Type, check_is_label. by rewrite Hl, Hr. Qed.
Lemma is_element_label name c : is_element name c = Ret true -> get_label c = "Elements_t".
Proof using Type. unfold is_element. case_bool_decide; done. Qed.

(** ** The elements of a zone *)

Definition header_of (n : node) : string * value * string := (get_name n, get_raw n, get_label n).
Definition with_children (n : node) (cs : list node) : node := Node (get_name n) (get_raw n) cs (get_label n).

Lemma on_element_at {A} name (f : st A) z i e : only (is_element name) (get_children z) i -> get_children z !! i = Some e ->
  on_element name f z = (with_children z (<[i:=(f e).1]> (get_children z)), (f e).2).
Proof using Type.
  intros Ho Hi. unfold on_element, on_first. destruct (only_spec _ _ _ _ Ho Hi) as (_ & _ & Hf).
  replace (find_child (element_named name) (get_children z)) with (Some i) by (rewrite <- Hf; by apply find_child_ext). rewrite Hi. destruct (f e) as [e' r]. by destruct z.
Qed.

(** A zone with an NGon node and an NFace node: the nodes and their places. *)
Record poly_zone (z : node) (i j : nat) (ng nf : node) : Prop := PolyZone {
  pz_label : get_label z = "Zone_t";
  pz_type : exists t, Zone_Type z = Ret t /\ is_text t "Unstructured" = true;
  pz_ngon : only (is_element "NGON_n") (get_children z) i;
  pz_nface : only (is_element "NFACE_n") (get_children z) j;
  pz_at_i : get_children z !! i = Some ng;
  pz_at_j : get_children z !! j = Some nf
}.

Lemma pz_different z i j ng nf : poly_zone z i j ng nf -> i <> j.
Proof using Type.
  intros [_ _ Hi Hj Hai Haj] <-. pose proof (Hi _ _ Hai) as H1. pose proof (Hj _ _ Haj) as H2. assert (ng = nf) as <- by congruence. rewrite bool_decide_eq_true_2 in H1, H2 by done.
  unfold is_element in H1, H2. destruct (bool_decide (get_label ng = "Elements_t")); [|done]. destruct (Element_CGNSName ng) as [s|]; [|done]. cbn in H1, H2. injection H1 as H1. injection H2 as H2. apply bool_decide_eq_true in H1, H2. congruence.
Qed.
Lemma pz_put z i j ng nf k e e' : poly_zone z i j ng nf -> get_children z !! k = Some e -> get_label e = "Elements_t" -> header_of e' = header_of e ->
  poly_zone (with_children z (<[k:=e']> (get_children z))) i j (if bool_decide (k = i) then e' else ng) (if bool_decide (k = j) then e' else nf).
Proof using Type.
  intros [Hl Ht Hi Hj Hai Haj] Hk Hle [= Hn Hr Hlab]. assert (Hlen : (k < length (get_children z))%nat) by by eapply lookup_lt_Some.
  split.
  - done.
  - destruct Ht as (t & Ht & Htx). exists t. split; [|done]. rewrite <- Ht. unfold Zone_Type, check_is_label. cbn [get_label with_children]. case_bool_decide; [|done]. rewrite !JoinsSpec.child_from_label by done. cbn [mbind py_bind get_children with_children].
    assert (E : forall l : list node, filter (fun c => get_label c = "ZoneType_t") l = filter (fun c => bool_decide (get_label c = "ZoneType_t") = true) l) by (intros l; apply list_filter_iff; intros c; by rewrite bool_decide_eq_true).
    rewrite !E. rewrite (filter_insert_other _ _ _ e) by (done || (apply bool_decide_eq_false; congruence)). done.
  - eapply only_insert; [done|done|]. by apply is_element_same.
  - eapply only_insert; [done|done|]. by apply is_element_same.
  - cbn [get_children with_children]. case_bool_decide as E; [subst k; by rewrite list_lookup_insert_eq|by rewrite list_lookup_insert_ne].
  - cbn [get_children with_children]. case_bool_decide as E; [subst k; by rewrite list_lookup_insert_eq|by rewrite list_lookup_insert_ne].
Qed.
(** What is read from such a zone. *)
Lemma pz_reads z i j ng nf : poly_zone z i j ng nf ->
  Zone_has_ngon_elements z = Ret true /\ Zone_has_nface_elements z = Ret true /\ Zone_NGonNode z = Ret ng /\ Zone_NFaceNode z = Ret nf /\
  get_label ng = "Elements_t" /\ get_label nf = "Elements_t".
Proof using Type.
  intros [Hl _ Hi Hj Hai Haj]. unfold Zone_has_ngon_elements, Zone_has_nface_elements, Zone_NGonNode, Zone_NFaceNode, check_is_label. rewrite bool_decide_eq_true_2 by done.
  destruct (only_spec _ _ _ _ Hi Hai) as (-> & -> & _). destruct (only_spec _ _ _ _ Hj Haj) as (-> & -> & _). do 4 (split; [done|]).
  split; [apply (is_element_label "NGON_n"); rewrite (Hi _ _ Hai); by rewrite bool_decide_eq_true_2|apply (is_element_label "NFACE_n"); rewrite (Hj _ _ Haj); by rewrite bool_decide_eq_true_2].
Qed.
Lemma pz_ngon_name z i j ng nf : poly_zone z i j ng nf -> Element_CGNSName ng = Ret "NGON_n".
Proof using Type.
  intros Hz. pose proof (pz_ngon _ _ _ _ _ Hz _ _ (pz_at_i _ _ _ _ _ Hz)) as Hk. destruct (pz_reads _ _ _ _ _ Hz) as (_ & _ & _ & _ & L1 & _). rewrite bool_decide_eq_true_2 in Hk by done.
  unfold is_element in Hk. rewrite bool_decide_eq_true_2 in Hk by done. destruct (Element_CGNSName ng) as [s|]; [|done]. cbn in Hk. injection Hk as Hk. apply bool_decide_eq_true in Hk. by subst s.
Qed.
(** An edit of one of the two nodes. *)
Lemma pz_on_ngon {A} z i j ng nf (f : st A) ng' r : poly_zone z i j ng nf -> f ng = (ng', r) -> header_of ng' = header_of ng ->
  on_element "NGON_n" f z = (with_children z (<[i:=ng']> (get_children z)), r) /\ poly_zone (with_children z (<[i:=ng']> (get_children z))) i j ng' nf.
Proof using Type.
  intros Hz Hf Hh. pose proof Hz as [_ _ Hi _ Hai _]. rewrite (on_element_at _ _ _ _ _ Hi Hai), Hf. split; [done|].
  pose proof (pz_put z i j ng nf i ng ng' Hz Hai (proj1 (proj2 (proj2 (proj2 (proj2 (pz_reads _ _ _ _ _ Hz)))))) Hh) as Hp. rewrite bool_decide_eq_true_2 in Hp by done.
  rewrite bool_decide_eq_false_2 in Hp by exact (pz_different _ _ _ _ _ Hz). done.
Qed.
Lemma pz_on_nface {A} z i j ng nf (f : st A) nf' r : poly_zone z i j ng nf -> f nf = (nf', r) -> header_of nf' = header_of nf ->
  on_element "NFACE_n" f z = (with_children z (<[j:=nf']> (get_children z)), r) /\ poly_zone (with_children z (<[j:=nf']> (get_children z))) i j ng nf'.
Proof using Type.
  intros Hz Hf Hh. pose proof Hz as [_ _ _ Hj _ Haj]. rewrite (on_element_at _ _ _ _ _ Hj Haj), Hf. split; [done|].
  pose proof (pz_put z i j ng nf j nf nf' Hz Haj (proj2 (proj2 (proj2 (proj2 (proj2 (pz_reads _ _ _ _ _ Hz)))))) Hh) as Hp. rewrite (bool_decide_eq_true_2 (j = j)) in Hp by done.
  rewrite bool_decide_eq_false_2 in Hp by (intros E; exact (pz_different _ _ _ _ _ Hz (eq_sym E))). done.
Qed.

(** ** Arrays of an element node *)

Lemma on_first_names (p : node -> bool) (f : st ()) n : (forall c, get_name (f c).1 = get_name c) -> get_names (get_children (on_first p f n).1) = get_names (get_children n).
Proof using Type.
  intros Hf. unfold on_first. destruct (find_child p (get_children n)) as [i|]; [|done]. destruct (get_children n !! i) as [c|] eqn:Hc; [|done]. specialize (Hf c). destruct (f c) as [c' r]. destruct n as [nm v cs l].
  cbn in *. unfold get_names. rewrite list_fmap_insert, Hf. apply list_insert_id. by rewrite list_lookup_fmap, Hc.
Qed.
Lemma raw_at_None n name : raw_at n name = None <-> name ∉ get_names (get_children n).
Proof using Type.
  unfold raw_at, child_named, get_names. split.
  - intros Hn (c & -> & Hin)%list_elem_of_fmap. destruct (filter (fun c0 => get_name c0 = get_name c) (get_children n)) as [|x r] eqn:Ef; [|done].
    assert (Hc : c ∈ filter (fun c0 => get_name c0 = get_name c) (get_children n)) by by apply list_elem_of_filter. rewrite Ef in Hc. by apply not_elem_of_nil in Hc.
  - intros Hn. rewrite filter_none_nil; [done|]. intros c Hc <-. apply Hn. by apply list_elem_of_fmap_2.
Qed.
(** The first child of a name is removed. *)
Lemma rm_first_raw n name v : NoDup (get_names (get_children n)) -> Fnmatch.plain name = true -> raw_at n name = Some v ->
  exists n', rm_child (Some (fun c => match_name c name)) n = (n', Ret ()) /\ raw_at n' name = None /\ (forall other, other <> name -> raw_at n' other = raw_at n other) /\
    header_of n' = header_of n /\ NoDup (get_names (get_children n')).
Proof using Type.
  intros Hnd Hp Hr. unfold rm_child. rewrite (find_child_ext _ (has_name name)) by (intros c; unfold match_name, has_name; by rewrite Fnmatch.fnmatch_plain).
  destruct (find_child (has_name name) (get_children n)) as [i|] eqn:Ei.
  2: { exfalso. unfold raw_at in Hr. by rewrite child_named_head, find_child_head, Ei in Hr. }
  destruct (find_child_Some _ _ _ Ei) as (c & Hc & Hcn). apply bool_decide_eq_true in Hcn. destruct n as [nm w cs l]. cbn [put_children get_children] in *. eexists. split; [reflexivity|].
  assert (Hcs : cs = take i cs ++ c :: drop (S i) cs) by by rewrite take_drop_middle. assert (Hdel : delete i cs = take i cs ++ drop (S i) cs) by apply delete_take_drop.
  rewrite Hcs in Hnd. unfold get_names in *. rewrite fmap_app, fmap_cons in Hnd. apply NoDup_app in Hnd as (N1 & N2 & [N3 N4]%NoDup_cons). split; [|split; [|split]].
  - apply raw_at_None. cbn [get_children]. rewrite Hdel. unfold get_names. rewrite fmap_app, elem_of_app. rewrite <- Hcn. intros [Hin|Hin]; [|done]. apply (N2 _ Hin). by left.
  - intros other Ho. unfold raw_at, child_named. cbn [get_children]. rewrite Hdel. symmetry. rewrite Hcs at 1. rewrite !filter_app, filter_cons, decide_False by congruence. done.
  - done.
  - cbn [get_children]. rewrite Hdel, fmap_app. apply NoDup_app. split; [done|]. split; [|done]. intros x Hx Hx'. apply (N2 x Hx). by right.
Qed.
Lemma edit_array_spec n name (f : st ()) a a' : Fnmatch.plain name = true -> raw_at n name = Some a ->
  (forall c, get_raw c = a -> f c = (Node (get_name c) a' (get_children c) (get_label c), Ret ())) -> (forall c, get_name (f c).1 = get_name c) ->
  exists n', on_first (fun c => match_name c name) f n = (n', Ret ()) /\ raw_at n' name = Some a' /\ (forall other, other <> name -> raw_at n' other = raw_at n other) /\
    header_of n' = header_of n /\ get_names (get_children n') = get_names (get_children n).
Proof using Type.
  intros Hp Hr Hf Hn. destruct (edit_child_raw n name f a a') as (n' & E & H1 & H2 & H3 & H4 & H5); [done..|].
  exists n'. split; [done|]. split; [done|]. split; [done|]. split; [unfold header_of; congruence|].
  pose proof (on_first_names (fun c => match_name c name) f n Hn) as Hnn. by rewrite E in Hnn.
Qed.
Lemma put_array_spec n name a a' : Fnmatch.plain name = true -> raw_at n name = Some a ->
  exists n', put_array name a' n = (n', Ret ()) /\ raw_at n' name = Some (Some a') /\ (forall other, other <> name -> raw_at n' other = raw_at n other) /\
    header_of n' = header_of n /\ get_names (get_children n') = get_names (get_children n).
Proof using Type.
  intros Hp Hr. apply (edit_array_spec n name _ a); [done|done|by intros [] _|by intros []].
Qed.
Lemma map_array_spec n name f a : Fnmatch.plain name = true -> raw_at n name = Some (Some a) ->
  exists n', map_array name f n = (n', Ret ()) /\ raw_at n' name = Some (Some (NpArray (a_type a) (a_shape a) (a_fcontiguous a) (map f (a_data a)))) /\
    (forall other, other <> name -> raw_at n' other = raw_at n other) /\ header_of n' = header_of n /\ get_names (get_children n') = get_names (get_children n).
Proof using Type.
  intros Hp Hr. apply (edit_array_spec n name _ (Some a)); [done|done|intros [nm v cs l] Hv; cbn in Hv; subst v; done|intros [nm [v|] cs l]; done].
Qed.
Lemma ints_at_spec n name a : Fnmatch.plain name = true -> raw_at n name = Some (Some a) -> ints_at name n = (n, Ret a).
Proof using Type. intros Hp Hr. unfold ints_at. by rewrite (st_read _ _ n (Some a)) by (unfold raw_child; by apply search_raw). Qed.

(** The connectivity of a list of elements. *)
Definition indexed (e : node) (t : cgns_type) (ls : list (list Z)) : Prop :=
  raw_at e "ElementStartOffset" = Some (Some (vec t (NpUtils.offsets ls))) /\ raw_at e "ElementConnectivity" = Some (Some (vec t (concat ls))).
Definition interleaved (e : node) (t : cgns_type) (ls : list (list Z)) : Prop :=
  raw_at e "ElementStartOffset" = None /\ raw_at e "ElementConnectivity" = Some (Some (vec t (interlaced ls))).
(** The other arrays are kept. *)
Definition others_kept (e e' : node) : Prop :=
  header_of e' = header_of e /\ NoDup (get_names (get_children e')) /\ forall name, name ∉ ["ElementStartOffset"; "ElementConnectivity"] -> raw_at e' name = raw_at e name.

Lemma interleave_spec e t ls : t ∈ [T_I4; T_I8] -> NoDup (get_names (get_children e)) -> indexed e t ls ->
  exists e', indexed_to_interleaved_connectivity e = (e', Ret ()) /\ interleaved e' t ls /\ others_kept e e'.
Proof using Type.
  intros Ht Hnd [Heso Hec]. unfold indexed_to_interleaved_connectivity. rewrite (st_step _ _ e e _ (ints_at_spec e "ElementStartOffset" _ eq_refl Heso)).
  rewrite (st_step _ _ e e _ (ints_at_spec e "ElementConnectivity" _ eq_refl Hec)). cbn [a_type a_data vec]. rewrite (st_lifted _ _ e t) by (unfold kernel_type; by rewrite bool_decide_eq_true_2).
  destruct (interlaced_roundtrip ls) as [Hi _]. rewrite (st_lifted _ _ e (interlaced ls) Hi).
  destruct (put_array_spec e "ElementConnectivity" _ (vec t (interlaced ls)) eq_refl Hec) as (e1 & E1 & R1 & K1 & H1 & N1). rewrite (st_step _ _ e e1 () E1).
  destruct (rm_first_raw e1 "ElementStartOffset" (Some (vec t (NpUtils.offsets ls)))) as (e2 & E2 & R2 & K2 & H2 & N2); [by rewrite N1|done|by rewrite K1|].
  exists e2. split; [done|]. split; [split; [done|by rewrite K2]|]. split; [congruence|]. split; [done|]. intros name Hname. rewrite K2, K1; [done|clear -Hname; set_solver..].
Qed.
Lemma deinterleave_spec e t ls : t ∈ [T_I4; T_I8] -> NoDup (get_names (get_children e)) -> interleaved e t ls -> Element_Size e = Ret (zlen ls) ->
  exists e', interlaced_to_indexed_connectivity to_float32 astype e = (e', Ret ()) /\ indexed e' t ls /\ others_kept e e'.
Proof using Type.
  intros Ht Hnd [Heso Hec] Hs. unfold interlaced_to_indexed_connectivity. rewrite (st_read _ _ e _ Hs). rewrite (st_step _ _ e e _ (ints_at_spec e "ElementConnectivity" _ eq_refl Hec)). cbn [a_type a_data vec].
  rewrite (st_lifted _ _ e t) by (unfold kernel_type; by rewrite bool_decide_eq_true_2). destruct (interlaced_roundtrip ls) as [_ Hi]. rewrite (st_lifted _ _ e _ Hi). cbn [fst snd].
  set (e1 := Node (get_name e) (get_raw e) (get_children e ++ [Node "ElementStartOffset" (Some (vec t (NpUtils.offsets ls))) [] "DataArray_t"]) (get_label e)).
  assert (Hno : "ElementStartOffset" ∉ get_names (get_children e)) by by apply raw_at_None.
  rewrite (st_step _ _ e e1 ()) by (unfold new_array; by apply new_vector_spec).
  assert (K1 : forall other, other <> "ElementStartOffset" -> raw_at e1 other = raw_at e other).
  { intros other Ho. unfold raw_at, child_named, e1. cbn [get_children]. rewrite filter_app, filter_cons, decide_False by (cbn; congruence). by rewrite app_nil_r. }
  destruct (put_array_spec e1 "ElementConnectivity" (Some (vec t (interlaced ls))) (vec t (concat ls)) eq_refl) as (e2 & E2 & R2 & K2 & H2 & N2); [by rewrite K1|].
  exists e2. split; [done|]. split; [split; [|done]|].
  - rewrite K2 by done. unfold raw_at, child_named, e1. cbn [get_children]. rewrite filter_app, (filter_none_nil _ (get_children e)); [done|]. intros c Hc Hcn. apply Hno. rewrite <- Hcn. by apply list_elem_of_fmap_2.
  - split; [by rewrite H2|]. split; [rewrite N2; unfold e1, get_names in *; cbn [get_children]; rewrite fmap_app; apply NoDup_app; split; [done|]; split; [|apply NoDup_singleton]; intros x Hx ->%list_elem_of_singleton; done|].
    intros name Hname. rewrite K2, K1; [done|clear -Hname; set_solver..].
Qed.
Lemma element_size e t first last : get_label e = "Elements_t" -> raw_at e "ElementRange" = Some (Some (vec t [first; last])) -> Element_Size e = Ret (last - first + 1).
Proof using Type.
  intros Hl Hr. unfold Element_Size, Element_Range, check_is_label. rewrite bool_decide_eq_true_2 by done. by rewrite (search_raw e "ElementRange" _ eq_refl Hr).
Qed.

(** ** There and back without the numbers from 1 *)

Definition same_arrays (n n' : node) : Prop := header_of n' = header_of n /\ forall name, raw_at n' name = raw_at n name.
Lemma kept_same e e' e'' t ls : others_kept e e' -> others_kept e' e'' -> indexed e t ls -> indexed e'' t ls -> same_arrays e e''.
Proof using Type.
  intros (H1 & _ & K1) (H2 & _ & K2) [I1 I2] [J1 J2]. split; [congruence|]. intros name. destruct (decide (name = "ElementStartOffset")) as [->|Hn1]; [congruence|].
  destruct (decide (name = "ElementConnectivity")) as [->|Hn2]; [congruence|]. rewrite K2, K1; [done|clear -Hn1 Hn2; set_solver..].
Qed.
Lemma py_max_exact m l : m ∈ l -> Forall (fun x => x <= m) l -> py_max l = Ret m.
Proof using Type.
  intros Hm Hl. destruct (py_max l) as [m'|] eqn:E; [|by destruct l; [apply not_elem_of_nil in Hm|]]. f_equal. pose proof (py_max_spec l m' E m Hm). assert (Hin : m' ∈ l).
  { clear -E. destruct l as [|x l]; [done|]. cbn in E. injection E as <-. revert x. induction l as [|y l IH]; intros x; [by left|]. cbn. specialize (IH (Z.max x y)). apply elem_of_cons in IH as [E|E].
    - rewrite E. destruct (Z.max_spec x y) as [[_ ->]|[_ ->]]; [by right; left|by left].
    - by right; right. }
  rewrite Forall_forall in Hl. specialize (Hl _ Hin). cbn in Hl. lia.
Qed.
Lemma py_min_le l m : py_min l = Ret m -> forall x, x ∈ l -> m <= x.
Proof using Type.
  destruct l as [|y l]; [done|]. cbn. intros [= <-] x Hx. revert y Hx. induction l as [|z l IH]; intros y Hx; cbn; [apply list_elem_of_singleton in Hx; lia|].
  assert (Hle : forall k y, foldl Z.min y k <= y) by (clear; intros k; induction k as [|w k IHk]; intros y; cbn; [lia|]; specialize (IHk (Z.min y w)); lia).
  apply elem_of_cons in Hx as [->|[->|Hx]%elem_of_cons]; [pose proof (Hle l (Z.min y z)); lia..|apply IH; by right].
Qed.
Lemma py_min_elem l m : py_min l = Ret m -> m ∈ l.
Proof using Type.
  destruct l as [|x l]; [done|]. cbn. intros [= <-]. revert x. induction l as [|y l IH]; intros x; [by left|]. cbn. specialize (IH (Z.min x y)). apply elem_of_cons in IH as [E|E]; [|by right; right].
  rewrite E. destruct (Z.min_spec x y) as [[_ ->]|[_ ->]]; [by left|by right; left].
Qed.
Lemma interlaced_elements ls x : x ∈ concat ls -> x ∈ interlaced ls.
Proof using Type.
  unfold interlaced. rewrite !elem_of_concat. intros (l & Hl & Hx). exists (zlen l :: l). split; [|by right]. by apply (list_elem_of_fmap_2 (fun l => zlen l :: l)).
Qed.

(** The arrays of a zone in the conventions of CGNS 4: faces are numbered from [f0] and cells from [c0]. *)
Record sids_zone (z : node) (i j : nat) (ng nf : node) (t : cgns_type) (f0 c0 : Z) (faces cells : list (list Z)) : Prop := SidsZone {
  sz_zone : poly_zone z i j ng nf;
  sz_int : t ∈ [T_I4; T_I8];
  sz_ngon_names : NoDup (get_names (get_children ng));
  sz_nface_names : NoDup (get_names (get_children nf));
  sz_ngon : indexed ng t faces;
  sz_nface : indexed nf t cells;
  sz_ngon_range : raw_at ng "ElementRange" = Some (Some (vec t [f0; f0 + zlen faces - 1]));
  sz_nface_range : raw_at nf "ElementRange" = Some (Some (vec t [c0; c0 + zlen cells - 1]))
}.
(** The numbers of an array are those of a range, the two ends among them. *)
Definition spans (lo hi : Z) (l : list Z) : Prop := lo ∈ l /\ hi ∈ l /\ Forall (fun x => lo <= x <= hi) l.

Lemma spans_bounds lo hi l : spans lo hi l -> py_min l = Ret lo /\ py_max l = Ret hi.
Proof using Type.
  intros (H1 & H2 & H3). split; [apply NGonTools.py_min_spec; [done|]|apply py_max_exact; [done|]]; eapply Forall_impl; try exact H3; cbn; lia.
Qed.
Lemma raw_child_at n name v : Fnmatch.plain name = true -> raw_at n name = Some v -> raw_child n name = Ret v.
Proof using Type. apply search_raw. Qed.
(** The search of a child that may be missing. *)
Lemma child_search n name : Fnmatch.plain name = true -> get_child_from_name n name no_kw = Ret (child_named n name).
Proof using Type. apply name_search. Qed.

Lemma new_to_old_plain z i j ng nf t f0 c0 faces cells : sids_zone z i j ng nf t f0 c0 faces cells ->
  exists z1 ng1 nf1, zone_new_to_old false z = (z1, Ret ()) /\ poly_zone z1 i j ng1 nf1 /\ interleaved ng1 t faces /\ interleaved nf1 t cells /\
    others_kept ng ng1 /\ others_kept nf nf1 /\ z1 = with_children z (<[j:=nf1]> (<[i:=ng1]> (get_children z))).
Proof using Type.
  intros [Hz Ht Nng Nnf Ing Inf Rng Rnf]. pose proof Hz as [_ (ty & Hty & Htx) _ _ _ _]. destruct (pz_reads _ _ _ _ _ Hz) as (R1 & R2 & R3 & R4 & _).
  destruct (interleave_spec ng t faces Ht Nng Ing) as (ng1 & E1 & I1 & K1). destruct (interleave_spec nf t cells Ht Nnf Inf) as (nf1 & E2 & I2 & K2).
  unfold zone_new_to_old. rewrite (st_read _ _ z _ Hty), Htx. cbn [negb]. rewrite (st_read _ _ z _ R1). cbn iota. rewrite (st_read _ _ z _ R2), (st_read _ _ z _ R3). rewrite (st_lifted _ _ z _ (raw_child_at ng "ElementRange" _ eq_refl Rng)). cbn iota.
  rewrite (st_step _ _ z z ()).
  2: { rewrite (st_read _ _ z _ R4). rewrite (st_lifted _ _ z _ (raw_child_at nf "ElementRange" _ eq_refl Rnf)). by rewrite (st_lifted _ _ z _ (raw_child_at nf "ElementConnectivity" _ eq_refl (proj2 Inf))). }
  rewrite (st_step _ _ z z ()) by done. destruct (pz_on_ngon z i j ng nf _ ng1 (Ret ()) Hz E1) as [S1 Z1]; [apply K1|]. rewrite (st_step _ _ _ _ () S1).
  destruct (pz_on_nface _ i j ng1 nf _ nf1 (Ret ()) Z1 E2) as [S2 Z2]; [apply K2|]. rewrite S2. eexists _, ng1, nf1. split; [reflexivity|]. done.
Qed.

(** C24: A zone that follows the conventions of CGNS 4, with cells on both sides of some face, is given back when its
    connectivities are interlaced and indexed again: the two element nodes are at the same places with the same
    arrays, and the other nodes are not changed. *)
Theorem poly_roundtrip z i j ng nf t f0 c0 faces cells :
  sids_zone z i j ng nf t f0 c0 faces cells -> 0 < c0 ->
  spans f0 (f0 + zlen faces - 1) (map Z.abs (concat cells)) -> Exists (fun x => x < 0) (concat cells) ->
  (raw_at ng "ParentElements" = None \/ exists pe, raw_at ng "ParentElements" = Some (Some pe) /\ spans c0 (c0 + zlen cells - 1) (filter (fun x => 0 < x) (a_data pe))) ->
  exists z1 z2 ng' nf', zone_new_to_old false z = (z1, Ret ()) /\ zone_old_to_new to_float32 astype z1 = (z2, Ret ()) /\
    z2 = with_children z (<[j:=nf']> (<[i:=ng']> (get_children z))) /\ same_arrays ng ng' /\ same_arrays nf nf'.
Proof using Type.
  intros Hs Hc0 Hfaces (x & Hx & Hneg)%Exists_exists Hpe. destruct (new_to_old_plain _ _ _ _ _ _ _ _ _ _ Hs) as (z1 & ng1 & nf1 & E & Z1 & I1 & I2 & K1 & K2 & Ez1).
  destruct Hs as [Hz Ht Nng Nnf Ing Inf Rng Rnf]. destruct (pz_reads _ _ _ _ _ Z1) as (R1 & R2 & R3 & R4 & L1 & L2). pose proof Z1 as [_ (ty & Hty & Htx) _ _ _ _].
  assert (Rng1 : raw_at ng1 "ElementRange" = Some (Some (vec t [f0; f0 + zlen faces - 1]))) by (rewrite <- Rng; apply K1; clear; set_solver).
  assert (Rnf1 : raw_at nf1 "ElementRange" = Some (Some (vec t [c0; c0 + zlen cells - 1]))) by (rewrite <- Rnf; apply K2; clear; set_solver).
  destruct (deinterleave_spec ng1 t faces Ht) as (ng2 & E2 & J2 & K3); [apply K1|done|rewrite (element_size _ _ _ _ L1 Rng1); f_equal; lia|].
  destruct (deinterleave_spec nf1 t cells Ht) as (nf2 & E3 & J3 & K4); [apply K2|done|rewrite (element_size _ _ _ _ L2 Rnf1); f_equal; lia|].
  destruct (pz_on_ngon z1 i j ng1 nf1 _ ng2 (Ret ()) Z1 E2) as [S2 Z2]; [apply K3|]. set (z2 := with_children z1 _) in S2, Z2.
  destruct (pz_on_nface z2 i j ng2 nf1 _ nf2 (Ret ()) Z2 E3) as [S3 Z3]; [apply K4|]. set (z3 := with_children z2 _) in S3, Z3.
  exists z1, z3, ng2, nf2. split; [done|]. split.
  - unfold zone_old_to_new. rewrite (st_read _ _ z1 _ Hty), Htx. cbn [negb]. rewrite (st_read _ _ z1 _ R1). cbn iota. rewrite (st_read _ _ z1 _ R2), (st_read _ _ z1 _ R3). rewrite (st_lifted _ _ z1 _ (raw_child_at ng1 "ElementRange" _ eq_refl Rng1)). cbn iota.
    rewrite (st_step _ _ z1 z1 (Some (Some (vec t [c0; c0 + zlen cells - 1])))) by (rewrite (st_read _ _ z1 _ R4); by rewrite (st_lifted _ _ z1 _ (raw_child_at nf1 "ElementRange" _ eq_refl Rnf1))).
    rewrite (st_step _ _ z1 z2 () S2). rewrite (st_lifted _ _ z2 _ (child_search ng1 "ParentElements" eq_refl)).
    assert (Hpe1 : raw_at ng1 "ParentElements" = raw_at ng "ParentElements") by (apply K1; clear; set_solver).
    rewrite (st_step _ _ z2 z2 ()).
    2: { rewrite <- Hpe1 in Hpe. unfold raw_at in Hpe. destruct (child_named ng1 "ParentElements") as [pe_n|]; [|done]. destruct Hpe as [Hpe|(pe & [= Hpe] & Hsp)]; [done|].
         rewrite (st_read _ _ z2 (c0, c0 + zlen cells - 1)) by done. rewrite (st_lifted _ _ z2 pe) by by rewrite Hpe. unfold fix_parents. destruct (spans_bounds _ _ _ Hsp) as [B1 B2].
         rewrite (st_lifted _ _ z2 _ B1), (st_lifted _ _ z2 _ B2). by rewrite bool_decide_eq_true_2. }
    assert (S4 : on_element "NFACE_n" (ints_at "ElementConnectivity") z2 = (z2, Ret (vec t (interlaced cells)))).
    { destruct (pz_on_nface z2 i j ng2 nf1 _ nf1 _ Z2 (ints_at_spec nf1 "ElementConnectivity" _ eq_refl (proj2 I2)) eq_refl) as [-> _]. f_equal. rewrite list_insert_id by apply Z2. by destruct z2. }
    rewrite (st_step _ _ z2 z2 _ S4). rewrite (st_read _ _ z2 (c0, c0 + zlen cells - 1)) by done. cbn [fst snd a_data vec].
    destruct (py_min (interlaced cells)) as [lowest|] eqn:Elow; [|by apply interlaced_elements in Hx; destruct (interlaced cells); [apply not_elem_of_nil in Hx|]].
    rewrite (st_lifted _ _ z2 lowest) by done. assert (Hlow : lowest < 0) by (apply interlaced_elements in Hx; pose proof (py_min_le _ _ Elow x Hx); lia).
    rewrite bool_decide_eq_true_2 by by left. rewrite (st_step _ _ z2 z3 () S3).
    assert (S5 : on_element "NFACE_n" (ints_at "ElementConnectivity") z3 = (z3, Ret (vec t (concat cells)))).
    { destruct (pz_on_nface z3 i j ng2 nf2 _ nf2 _ Z3 (ints_at_spec nf2 "ElementConnectivity" _ eq_refl (proj2 J3)) eq_refl) as [-> _]. f_equal. rewrite list_insert_id by apply Z3. by destruct z3. }
    rewrite (st_step _ _ z3 z3 _ S5). rewrite (st_lifted _ _ z3 (f0, f0 + zlen faces - 1)) by done. unfold fix_faces. cbn [a_data vec]. destruct (spans_bounds _ _ _ Hfaces) as [B1 B2].
    rewrite (st_lifted _ _ z3 _ B1), (st_lifted _ _ z3 _ B2). by rewrite bool_decide_eq_true_2.
  - split; [|split; eapply kept_same; done]. unfold z3, z2. rewrite Ez1. unfold with_children. cbn [get_name get_raw get_label get_children]. f_equal.
    pose proof (pz_different _ _ _ _ _ Hz) as Hij. rewrite (list_insert_insert_ne _ i j) by done. by rewrite !list_insert_insert_eq.
Qed.

(** ** There and back with the numbers from 1 *)

(** The node that [pe_to_nface] adds. *)
Definition nface_node (t : cgns_type) (lo hi : Z) (cells : list (list Z)) : node :=
  Node "NFaceElements" (Some (vec T_I4 [23; 0]))
    [Node "ElementRange" (Some (vec T_I4 [lo; hi])) [] "IndexRange_t";
     Node "ElementStartOffset" (Some (vec t (NpUtils.offsets cells))) [] "DataArray_t";
     Node "ElementConnectivity" (Some (vec t (concat cells))) [] "DataArray_t"] "Elements_t".

Lemma under_leaf name label v val m : is_valid_name name false = true -> is_valid_label label false = true -> _convert_value to_float32 v = Ret val -> name ∉ get_names (get_children m) ->
  under (leaf to_float32 name label v) m = (with_children m (get_children m ++ [Node name val [] label]), Ret ()).
Proof using Type.
  intros Hn Hl Hv Hm. unfold under, leaf, build. rewrite new_node_spec, Hn, Hl, Hv. cbn [negb]. rewrite bool_decide_eq_true_2 by constructor. destruct m as [nm pv cs lb]. cbn [get_children get_name get_raw get_label] in *.
  cbn zeta. rewrite bool_decide_eq_false_2 by done. cbn [mret st_ret]. unfold set_last. cbn [fmap option_fmap option_map default]. by rewrite length_app, take_app_length' by (cbn; lia).
Qed.
Lemma new_nface_spec t lo hi cells m : "NFaceElements" ∉ get_names (get_children m) ->
  under (then_fill (new_NFaceElements to_float32 astype "NFaceElements" (Some (PArray (vec T_I4 [lo; hi]))) (Some (PArray (vec t (NpUtils.offsets cells)))) (Some (PArray (vec t (concat cells))))) (mret ())) m =
  (with_children m (get_children m ++ [nface_node t lo hi cells]), Ret ()).
Proof using Type.
  intros Hm. unfold under, then_fill, new_NFaceElements, elements, with_value. cbn [elt_value]. unfold build. rewrite new_node_spec. change (negb (is_valid_name "NFaceElements" false)) with false. change (negb (is_valid_label "Elements_t" false)) with false. cbn iota.
  change (_convert_value to_float32 (PInts [Leaf 23; Leaf 0])) with (Ret (Some (vec T_I4 [23; 0])) : py value). rewrite bool_decide_eq_true_2 by constructor. destruct m as [nm pv cs lb]. cbn [get_children get_name get_raw get_label] in *. cbn iota zeta. rewrite bool_decide_eq_false_2 by done.
  set (e0 := Node "NFaceElements" _ (some_nodes []) "Elements_t"). unfold opt, when.
  rewrite (st_step _ _ e0 _ () (under_leaf "ElementRange" "IndexRange_t" (PArray (vec T_I4 [lo; hi])) (Some (vec T_I4 [lo; hi])) e0 eq_refl eq_refl eq_refl ltac:(apply not_elem_of_nil))).
  set (e1 := with_children e0 _). rewrite (st_step _ _ e1 e1 ()) by done.
  rewrite (st_step _ _ e1 _ () (new_vector_spec to_float32 astype "ElementStartOffset" t (NpUtils.offsets cells) e1 eq_refl ltac:(apply (bool_decide_unpack _); vm_compute; exact I))).
  rewrite (new_vector_spec to_float32 astype "ElementConnectivity" t (concat cells)) by (done || (apply (bool_decide_unpack _); vm_compute; exact I)).
  cbn [fmap option_fmap option_map default mret st_ret]. unfold set_last, with_children. cbn [get_children get_name get_raw get_label]. by rewrite !length_app, !take_app_length' by (cbn; lia).
Qed.
Lemma children_where_delete p cs j c : cs !! j = Some c -> p c = Ret false -> children_where p (delete j cs) = children_where p cs.
Proof using Type.
  revert j. induction cs as [|d cs IH]; intros [|j] Hj Hp; [done..| |].
  - injection Hj as ->. cbn. rewrite Hp. cbn. by destruct (children_where p cs).
  - change (delete (S j) (d :: cs)) with (d :: delete j cs). cbn [children_where]. by rewrite (IH j).
Qed.
Lemma range_of_rows t fc rows : range_of (Some (NpArray t [zlen rows; 2] fc (NGonTools.columns rows))) = Ret rows.
Proof using Type.
  unfold range_of, column_of. cbn [array_of of_option mbind py_bind a_shape a_data]. change (Z.of_nat 0 <? 2) with true. change (Z.of_nat 1 <? 2) with true. cbn iota. cbn [mbind py_bind]. f_equal. unfold NGonTools.columns, zlen. rewrite Nat2Z.id, Nat.mul_0_l, Nat.mul_1_l, drop_0.
  rewrite take_app_length' by by rewrite length_map. rewrite drop_app_length' by by rewrite length_map. rewrite take_ge by by rewrite length_map. apply NGonTools.zip_columns.
Qed.

(** The parents of the faces in the numbers of the elements, and from 1. *)
Definition parents (t : cgns_type) (fc : bool) (rows : list (Z * Z)) : nparray := NpArray t [zlen rows; 2] fc (NGonTools.columns rows).
Definition parents_from_1 (t : cgns_type) (fc : bool) (rows : list (Z * Z)) : nparray := NpArray t [zlen rows; 2] fc (map (NGonTools.unshift (zlen rows)) (NGonTools.columns rows)).

Lemma columns_numbered rows lo x : NGonTools.numbered rows lo -> x ∈ NGonTools.columns rows -> x = 0 \/ lo <= x.
Proof using Type.
  intros Hn [k Hk]%list_elem_of_lookup_1. destruct (NGonTools.numbered_rows _ _ Hn) as [_ Hr]. apply NGonTools.columns_lookup in Hk as (i & r & Hi & Hx). apply list_elem_of_lookup_2, Hr in Hi. lia.
Qed.
Lemma pe_local_node ng t fc rows : Element_CGNSName ng = Ret "NGON_n" -> get_label ng = "Elements_t" -> raw_at ng "ElementRange" = Some (Some (vec t [1; zlen rows])) ->
  raw_at ng "ParentElements" = Some (Some (parents t fc rows)) -> NGonTools.numbered rows (zlen rows + 1) ->
  get_ngon_pe_local ng = Ret (parents_from_1 t fc rows).
Proof using Type.
  intros Hname Hl Her Hpe Hn. unfold get_ngon_pe_local. rewrite Hname. cbn [mbind py_bind]. rewrite bool_decide_eq_true_2 by done. cbn [py_assert mbind py_bind]. rewrite child_search by done. unfold raw_at in Hpe. destruct (child_named ng "ParentElements") as [c|]; [|done]. injection Hpe as Hpe.
  cbn [mbind py_bind of_option]. rewrite Hpe. cbn [of_option mbind py_bind]. pose proof Hn as [_ Hfirst _ (r & Hr & Hr0) _]. rewrite bool_decide_eq_false_2 by (intros E; cbn in E; rewrite E in Hfirst; by apply not_elem_of_nil in Hfirst).
  unfold parents. rewrite range_of_rows. cbn [mbind py_bind]. unfold Element_Range, check_is_label. rewrite bool_decide_eq_true_2 by done. rewrite (search_raw ng "ElementRange" _ eq_refl Her). cbn [mbind py_bind]. unfold elem. cbn [array_of of_option mbind py_bind a_data vec].
  change (py_get [1; zlen rows] 1) with (Ret (zlen rows)). cbn [mbind py_bind]. unfold NGonTools.pe_is_shifted. rewrite bool_decide_eq_false_2 by (apply lookup_lt_Some in Hr; unfold zlen; lia). rewrite Hr. cbn [of_option mbind py_bind].
  destruct (NGonTools.numbered_rows _ _ Hn) as [_ Hrows]. apply list_elem_of_lookup_2, Hrows in Hr. rewrite bool_decide_eq_true_2 by lia. cbn [a_type a_shape a_fcontiguous a_data]. unfold parents_from_1. do 2 f_equal. by destruct t.
Qed.
Lemma parents_back rows lo : NGonTools.numbered rows lo -> lo = zlen rows + 1 ->
  map (fun x => x + (lo - 1) * (if bool_decide (0 < x) then 1 else 0)) (map (NGonTools.unshift (zlen rows)) (NGonTools.columns rows)) = NGonTools.columns rows.
Proof using Type.
  intros Hn Hlo. rewrite map_map. rewrite <- (map_id (NGonTools.columns rows)) at 2. apply map_ext_in. intros x Hx%list_elem_of_In. apply (columns_numbered _ _ _ Hn) in Hx. unfold NGonTools.unshift. pose proof (zlen_nonneg rows). repeat case_bool_decide; lia.
Qed.
Lemma parents_low rows lo : NGonTools.numbered rows lo -> lo = zlen rows + 1 ->
  py_min (filter (fun x => 0 < x) (map (NGonTools.unshift (zlen rows)) (NGonTools.columns rows))) = Ret 1 /\ exists m, py_max (filter (fun x => 0 < x) (map (NGonTools.unshift (zlen rows)) (NGonTools.columns rows))) = Ret m.
Proof using Type.
  intros Hn Hlo. pose proof (zlen_nonneg rows). set (l := filter _ _).
  assert (H1 : 1 ∈ l).
  { apply list_elem_of_filter. split; [lia|]. apply list_elem_of_fmap. exists lo. split; [|by apply NGonTools.num_first]. unfold NGonTools.unshift. rewrite bool_decide_eq_true_2 by lia. lia. }
  split; [|destruct l as [|x l]; [by apply not_elem_of_nil in H1|by eexists]]. apply NGonTools.py_min_spec; [done|]. apply Forall_forall. intros x [Hx _]%list_elem_of_filter. lia.
Qed.

(** The absolute faces of the cells. *)
Definition abs_cells (cells : list (list Z)) : list (list Z) := map (map Z.abs) cells.
Lemma concat_abs cells : map Z.abs (concat cells) = concat (abs_cells cells).
Proof using Type. apply concat_map. Qed.
Lemma abs_cells_low cells : zlen cells > 0 -> exists m, py_min (interlaced (abs_cells cells)) = Ret m /\ 0 <= m.
Proof using Type.
  intros Hpos. destruct (py_min (interlaced (abs_cells cells))) as [m|] eqn:Em; [|destruct cells; [unfold zlen in Hpos; cbn in Hpos; lia|done]]. exists m. split; [done|].
  apply py_min_elem in Em. unfold interlaced in Em. rewrite elem_of_concat in Em. destruct Em as (l' & Hl' & Hm). apply list_elem_of_fmap in Hl' as (l0 & -> & Hl0). unfold abs_cells in Hl0. apply list_elem_of_fmap in Hl0 as (l1 & -> & _).
  apply elem_of_cons in Hm as [->|Hm]; [apply zlen_nonneg|]. apply list_elem_of_fmap in Hm as (y & -> & _). lia.
Qed.
Lemma offsets_abs cells : NpUtils.offsets (abs_cells cells) = NpUtils.offsets cells.
Proof using Type. unfold NpUtils.offsets, abs_cells. f_equal. change (@map) with (fun A B => @fmap list _ A B). cbn beta. rewrite <- list_fmap_compose. apply list_fmap_ext. intros i l _. unfold zlen, compose. by rewrite length_fmap. Qed.

Lemma new_to_old_full z i j ng nf t c0 faces cells fc rows : sids_zone z i j ng nf t 1 c0 faces cells ->
  raw_at ng "ParentElements" = Some (Some (parents t fc rows)) -> zlen rows = zlen faces -> NGonTools.numbered rows (zlen rows + 1) ->
  exists z1 ng1 nf1, zone_new_to_old true z = (z1, Ret ()) /\ poly_zone z1 i j ng1 nf1 /\ interleaved ng1 t faces /\ interleaved nf1 t (abs_cells cells) /\
    raw_at ng1 "ParentElements" = Some (Some (parents_from_1 t fc rows)) /\
    (header_of ng1 = header_of ng /\ NoDup (get_names (get_children ng1)) /\ forall name, name ∉ ["ElementStartOffset"; "ElementConnectivity"; "ParentElements"] -> raw_at ng1 name = raw_at ng name) /\
    others_kept nf nf1 /\ z1 = with_children z (<[j:=nf1]> (<[i:=ng1]> (get_children z))).
Proof using Type.
  intros [Hz Ht Nng Nnf Ing Inf Rng Rnf] Hpe Hrows Hn. pose proof Hz as [_ (ty & Hty & Htx) Hoi _ Hai _]. destruct (pz_reads _ _ _ _ _ Hz) as (R1 & R2 & R3 & R4 & L1 & L2).
  pose proof (pz_ngon_name _ _ _ _ _ Hz) as Hname.
  assert (Hloc : get_ngon_pe_local ng = Ret (parents_from_1 t fc rows)) by (apply pe_local_node; [done|done| |done|done]; by replace (zlen rows) with (1 + zlen faces - 1) by lia).
  destruct (put_array_spec ng "ParentElements" _ (parents_from_1 t fc rows) eq_refl Hpe) as (ng0 & E0 & P0 & K0 & H0 & N0).
  destruct (interleave_spec ng0 t faces Ht) as (ng1 & E1 & I1 & K1); [by rewrite N0|split; rewrite K0 by done; apply Ing|].
  destruct (map_array_spec nf "ElementConnectivity" Z.abs _ eq_refl (proj2 Inf)) as (nfa & Ea & Pa & Ka & Ha & Na). cbn [a_type a_shape a_fcontiguous a_data vec] in Pa.
  destruct (map_array_spec nfa "ElementConnectivity" (fun x => x + (- 1 + 1)) _ eq_refl Pa) as (nfb & Eb & Pb & Kb & Hb & Nb). cbn [a_type a_shape a_fcontiguous a_data] in Pb.
  assert (Ib : indexed nfb t (abs_cells cells)).
  { split; [rewrite Kb, Ka, offsets_abs by done; apply Inf|]. rewrite Pb. do 2 f_equal. rewrite concat_abs. unfold vec. f_equal; [|rewrite <- (map_id (concat (abs_cells cells))) at 2; apply map_ext; intros; lia].
    f_equal. rewrite <- concat_abs. unfold zlen. by rewrite length_map. }
  destruct (interleave_spec nfb t (abs_cells cells) Ht) as (nf1 & E2 & I2 & K2); [by rewrite Nb, Na|done|].
  unfold zone_new_to_old. rewrite (st_read _ _ z _ Hty), Htx. cbn [negb]. rewrite (st_read _ _ z _ R1). cbn iota. rewrite (st_read _ _ z _ R2), (st_read _ _ z _ R3). rewrite (st_lifted _ _ z _ (raw_child_at ng "ElementRange" _ eq_refl Rng)). cbn iota.
  rewrite (st_step _ _ z z ()).
  2: { rewrite (st_read _ _ z _ R4). rewrite (st_lifted _ _ z _ (raw_child_at nf "ElementRange" _ eq_refl Rnf)). by rewrite (st_lifted _ _ z _ (raw_child_at nf "ElementConnectivity" _ eq_refl (proj2 Inf))). }
  destruct (pz_on_ngon z i j ng nf _ ng0 (Ret ()) Hz E0 H0) as [S0 Z0]. set (z0 := with_children z _) in S0, Z0.
  destruct (pz_on_nface z0 i j ng0 nf _ nfa (Ret ()) Z0 Ea Ha) as [Sa Za]. set (za := with_children z0 _) in Sa, Za.
  destruct (pz_on_nface za i j ng0 nfa _ nfb (Ret ()) Za Eb Hb) as [Sb Zb]. set (zb := with_children za _) in Sb, Zb.
  rewrite (st_step _ _ z zb ()).
  2: { rewrite (st_lifted _ _ z _ (child_search ng "ParentElements" eq_refl)). unfold raw_at in Hpe. destruct (child_named ng "ParentElements") as [pe_n|]; [|done].
       rewrite (st_step _ _ z z0 ()) by (rewrite (st_lifted _ _ z _ Hloc); exact S0). rewrite (st_step _ _ z0 za () Sa). rewrite (st_lifted _ _ za 1) by done. exact Sb. }
  destruct (pz_on_ngon zb i j ng0 nfb _ ng1 (Ret ()) Zb E1) as [S1 Z1]; [apply K1|]. rewrite (st_step _ _ _ _ () S1).
  destruct (pz_on_nface _ i j ng1 nfb _ nf1 (Ret ()) Z1 E2) as [S2 Z2]; [apply K2|]. rewrite S2. eexists _, ng1, nf1. split; [reflexivity|]. split; [done|]. split; [done|]. split; [done|].
  destruct K1 as (K1a & K1b & K1c). destruct K2 as (K2a & K2b & K2c). split; [rewrite <- P0; apply K1c; clear; set_solver|]. split; [|split].
  - split; [congruence|]. split; [done|]. intros name Hnm. rewrite K1c, K0; [done|clear -Hnm; set_solver..].
  - split; [congruence|]. split; [done|]. intros name Hnm. rewrite K2c, Kb, Ka; [done|clear -Hnm; set_solver..].
  - unfold zb, za, z0, with_children. cbn [get_name get_raw get_label get_children]. f_equal. pose proof (pz_different _ _ _ _ _ Hz) as Hij. rewrite (list_insert_insert_eq _ j). rewrite (list_insert_insert_ne _ i j) by done. by rewrite !list_insert_insert_eq.
Qed.

Lemma delete_insert_same {A} (l : list A) j x : delete j (<[j:=x]> l) = delete j l.
Proof using Type. revert j. induction l as [|y l IH]; intros [|j]; [done..|]. cbn. f_equal. apply IH. Qed.
Lemma names_delete cs j name : name ∈ get_names (delete j cs) -> name ∈ get_names cs.
Proof using Type. unfold get_names. intros (c & -> & Hc)%list_elem_of_fmap. apply list_elem_of_fmap_2. by eapply list_elem_of_delete_inv. Qed.
Lemma names_insert cs k c c' : cs !! k = Some c -> get_name c' = get_name c -> get_names (<[k:=c']> cs) = get_names cs.
Proof using Type. intros Hk Hn. unfold get_names. rewrite list_fmap_insert, Hn. apply list_insert_id. by rewrite list_lookup_fmap, Hk. Qed.
(** The NFace node of the zone is computed again from the parents of the faces. *)
Lemma nface_recomputed z k ng t fc rows hi : get_label z = "Zone_t" -> children_where (is_element "NGON_n") (get_children z) = Ret [ng] -> Element_CGNSName ng = Ret "NGON_n" -> get_label ng = "Elements_t" ->
  t ∈ [T_I4; T_I8] -> raw_at ng "ElementRange" = Some (Some (vec t [1; zlen rows])) -> raw_at ng "ParentElements" = Some (Some (parents t fc rows)) ->
  NGonTools.numbered rows (zlen rows + 1) -> py_max (NGonTools.columns rows) = Ret hi -> k = NGonTools.cell_faces (NGonTools.local_rows (zlen rows + 1) rows) ->
  "NFaceElements" ∉ get_names (get_children z) -> distri_name ∉ get_names (get_children z) -> numbering_name ∉ get_names (get_children z) ->
  pe_to_nface_of_zone to_float32 astype z = (with_children z (get_children z ++ [nface_node t (zlen rows + 1) hi k]), Ret ()).
Proof using Type.
  intros Hl Hng Hname Hle Ht Her Hpe Hn Hhi -> Hnf Hd Hg. unfold pe_to_nface_of_zone. rewrite (st_read _ _ z None).
  2: { unfold getDistribution, get_container. rewrite child_search by done. f_equal. apply raw_at_None in Hd. unfold raw_at in Hd. by destruct (child_named z distri_name). }
  unfold pe_to_nface. rewrite (st_read _ _ z ng) by (unfold Zone_NGonNode, check_is_label; rewrite bool_decide_eq_true_2 by done; by rewrite Hng).
  rewrite (st_lifted _ _ z _ (raw_child_at ng "ElementRange" _ eq_refl Her)). rewrite (st_lifted _ _ z (parents t fc rows)) by (rewrite (raw_child_at ng "ParentElements" _ eq_refl Hpe); done).
  rewrite (st_lifted _ _ z (1, zlen rows)) by done. rewrite (st_lifted _ _ z rows) by apply range_of_rows. rewrite (st_lifted _ _ z _ (NGonTools.pe_to_nface_spec rows _ hi Hn Hhi)).
  rewrite (st_lifted _ _ z _ (pe_local_node ng t fc rows Hname Hle Her Hpe Hn)). cbn [a_type parents_from_1]. rewrite (st_lifted _ _ z t) by (unfold kernel_type; by rewrite bool_decide_eq_true_2).
  rewrite (st_read _ _ z None).
  2: { unfold getGlobalNumbering, get_container. rewrite bool_decide_eq_true_2 by done. f_equal. change (get_node_from_path z (py_join slash [numbering_name; "Cell"])) with (descend z [numbering_name; "Cell"]). cbn [descend].
       apply raw_at_None in Hg. unfold raw_at in Hg. by destruct (child_named z numbering_name). }
  by rewrite (st_step _ _ z _ () (new_nface_spec t (zlen rows + 1) hi _ z Hnf)).
Qed.

(** C25: A zone that follows the conventions of CGNS 4, whose faces come first, is converted to the conventions where
    faces and cells are numbered from 1 without signs, and back: the NGon node has the same arrays at the same
    place, the NFace node is replaced by the one that the parents of the faces give, with the same range, and the
    other nodes are not changed.  It does not hold for two cells. *)
Theorem poly_onera_roundtrip z i j ng nf t faces cells fc rows :
  let c0 := zlen faces + 1 in let hi := c0 + zlen cells - 1 in
  sids_zone z i j ng nf t 1 c0 faces cells ->
  raw_at ng "ParentElements" = Some (Some (parents t fc rows)) -> zlen rows = zlen faces -> NGonTools.numbered rows c0 -> py_max (NGonTools.columns rows) = Ret hi -> zlen cells <> 2 ->
  "NFaceElements" ∉ get_names (delete j (get_children z)) -> distri_name ∉ get_names (get_children z) -> numbering_name ∉ get_names (get_children z) ->
  exists z1 z2 ng', zone_new_to_old true z = (z1, Ret ()) /\ zone_old_to_new to_float32 astype z1 = (z2, Ret ()) /\ same_arrays ng ng' /\
    z2 = with_children z (delete j (<[i:=ng']> (get_children z)) ++ [nface_node t c0 hi (NGonTools.cell_faces (NGonTools.local_rows c0 rows))]).
Proof using Type.
  intros c0 hi Hs Hpe Hrows Hn Hhi Hnc Hnf Hd Hg. unfold c0 in Hn. rewrite <- Hrows in Hn. destruct (new_to_old_full _ _ _ _ _ _ _ _ _ _ _ Hs Hpe Hrows Hn) as (z1 & ng1 & nf1 & E & Z1 & I1 & I2 & P1 & (K1a & K1b & K1c) & (K2a & K2b & K2c) & Ez1).
  destruct Hs as [Hz Ht Nng Nnf Ing Inf Rng Rnf]. destruct (pz_reads _ _ _ _ _ Z1) as (R1 & R2 & R3 & R4 & L1 & L2). pose proof Z1 as [Hlz (ty & Hty & Htx) Hoi Hoj Hai Haj]. pose proof (pz_different _ _ _ _ _ Hz) as Hij.
  assert (Rng1 : raw_at ng1 "ElementRange" = Some (Some (vec t [1; zlen rows]))) by (rewrite K1c by (clear; set_solver); by replace (zlen rows) with (1 + zlen faces - 1) by lia).
  assert (Rnf1 : raw_at nf1 "ElementRange" = Some (Some (vec t [c0; hi]))) by (rewrite K2c by (clear; set_solver); done).
  destruct (deinterleave_spec ng1 t faces Ht) as (ng2 & E2 & J2 & (K3a & K3b & K3c)); [done|done|rewrite (element_size _ _ _ _ L1 Rng1); f_equal; lia|].
  assert (P2 : raw_at ng2 "ParentElements" = Some (Some (parents_from_1 t fc rows))) by (rewrite K3c by (clear; set_solver); done).
  destruct (map_array_spec ng2 "ParentElements" (fun x => x + (c0 - 1) * (if bool_decide (0 < x) then 1 else 0)) _ eq_refl P2) as (ng3 & E3 & P3 & K4 & H4 & N4).
  assert (Hc0 : c0 = zlen rows + 1) by lia. cbn [a_type a_shape a_fcontiguous a_data parents_from_1] in P3. rewrite (parents_back rows c0) in P3 by (done || (rewrite Hc0; done)). fold (parents t fc rows) in P3.
  destruct (pz_on_ngon z1 i j ng1 nf1 _ ng2 (Ret ()) Z1 E2 K3a) as [S2 Z2]. set (z2 := with_children z1 _) in S2, Z2.
  destruct (pz_on_ngon z2 i j ng2 nf1 _ ng3 (Ret ()) Z2 E3 H4) as [S3 Z3]. set (z3 := with_children z2 _) in S3, Z3.
  assert (Ez3 : z3 = with_children z (<[j:=nf1]> (<[i:=ng3]> (get_children z)))).
  { unfold z3, z2. rewrite Ez1. unfold with_children. cbn [get_name get_raw get_label get_children]. f_equal. rewrite list_insert_insert_eq, (list_insert_insert_ne _ i j) by done. by rewrite list_insert_insert_eq. }
  assert (Hsame : same_arrays ng ng3).
  { split; [congruence|]. intros name. destruct (decide (name = "ParentElements")) as [->|Hnm]; [by rewrite P3, Hpe|]. rewrite K4 by done. destruct (decide (name ∈ ["ElementStartOffset"; "ElementConnectivity"])) as [Hin|Hin].
    - destruct Ing as [I3 I4], J2 as [J3 J4]. rewrite !elem_of_cons in Hin. destruct Hin as [->|[->|Hin%not_elem_of_nil]]; [congruence..|done].
    - rewrite K3c, K1c; [done|clear -Hin Hnm; set_solver..]. }
  assert (Haj3 : get_children z3 !! j = Some nf1) by apply Z3.
  set (z4 := with_children z3 (delete j (get_children z3))).
  assert (Ez4 : get_children z4 = delete j (<[i:=ng3]> (get_children z))) by (unfold z4; rewrite Ez3; cbn [get_children with_children]; apply delete_insert_same).
  assert (Hnames : get_names (<[i:=ng3]> (get_children z)) = get_names (get_children z)) by (eapply names_insert; [apply Hz|]; destruct Hsame as [[= Hsm _ _] _]; done).
  assert (Hnode : pe_to_nface_of_zone to_float32 astype z4 = (with_children z4 (get_children z4 ++ [nface_node t (zlen rows + 1) hi (NGonTools.cell_faces (NGonTools.local_rows (zlen rows + 1) rows))]), Ret ())).
  { destruct (pz_reads _ _ _ _ _ Z3) as (_ & _ & _ & _ & L3 & _). destruct Hsame as [Hh Hraw]. assert (Hle : get_label ng3 = "Elements_t") by done.
    pose proof (pz_ngon_name _ _ _ _ _ Z3) as Hname.
    eapply (nface_recomputed z4 _ ng3 t fc rows hi); [apply Z3| |done|done|done| |by rewrite Hraw|done|done|done|..].
    - unfold z4. cbn [get_children with_children]. rewrite (children_where_delete _ _ j nf1 Haj3); [by destruct (only_spec _ _ _ _ (pz_ngon _ _ _ _ _ Z3) (pz_at_i _ _ _ _ _ Z3)) as (-> & _)|]. rewrite (pz_ngon _ _ _ _ _ Z3 _ _ Haj3). by rewrite bool_decide_eq_false_2.
    - rewrite Hraw, Rng. by replace (zlen rows) with (1 + zlen faces - 1) by lia.
    - rewrite Ez4. intros Hin. apply Hnf. unfold get_names in *. rewrite !list_fmap_delete in *. by rewrite <- Hnames.
    - rewrite Ez4. intros Hin%names_delete. apply Hd. by rewrite <- Hnames.
    - rewrite Ez4. intros Hin%names_delete. apply Hg. by rewrite <- Hnames. }
  exists z1, (with_children z4 (get_children z4 ++ [nface_node t (zlen rows + 1) hi (NGonTools.cell_faces (NGonTools.local_rows (zlen rows + 1) rows))])), ng3. split; [done|]. split; [|split; [done|]].
  - unfold zone_old_to_new. rewrite (st_read _ _ z1 _ Hty), Htx. cbn [negb]. rewrite (st_read _ _ z1 _ R1). cbn iota. rewrite (st_read _ _ z1 _ R2), (st_read _ _ z1 _ R3). rewrite (st_lifted _ _ z1 _ (raw_child_at ng1 "ElementRange" _ eq_refl Rng1)). cbn iota.
    rewrite (st_step _ _ z1 z1 (Some (Some (vec t [c0; hi])))) by (rewrite (st_read _ _ z1 _ R4); by rewrite (st_lifted _ _ z1 _ (raw_child_at nf1 "ElementRange" _ eq_refl Rnf1))).
    rewrite (st_step _ _ z1 z2 () S2). rewrite (st_lifted _ _ z2 _ (child_search ng1 "ParentElements" eq_refl)). pose proof P1 as P1'. unfold raw_at in P1'. destruct (child_named ng1 "ParentElements") as [pe_n|]; [|done]. injection P1' as P1'.
    rewrite (st_step _ _ z2 z3 ()).
    2: { rewrite (st_read _ _ z2 (c0, hi)) by done. rewrite (st_lifted _ _ z2 (parents_from_1 t fc rows)) by by rewrite P1'. unfold fix_parents. cbn [a_data parents_from_1 fst snd].
         destruct (parents_low rows (zlen rows + 1) Hn eq_refl) as (B1 & m & B2). rewrite (st_lifted _ _ z2 _ B1), (st_lifted _ _ z2 _ B2). rewrite bool_decide_eq_false_2; [rewrite bool_decide_eq_false_2 by lia; exact S3|].
         pose proof Hn as [_ _ _ (r & Hr & _) _]. apply lookup_lt_Some in Hr. unfold zlen in *. lia. }
    assert (S4 : on_element "NFACE_n" (ints_at "ElementConnectivity") z3 = (z3, Ret (vec t (interlaced (abs_cells cells))))).
    { destruct (pz_on_nface z3 i j ng3 nf1 _ nf1 _ Z3 (ints_at_spec nf1 "ElementConnectivity" _ eq_refl (proj2 I2)) eq_refl) as [-> _]. f_equal. rewrite list_insert_id by apply Z3. by destruct z3. }
    rewrite (st_step _ _ z3 z3 _ S4). rewrite (st_read _ _ z3 (c0, hi)) by done. cbn [fst snd a_data vec].
    assert (Hpos : zlen cells > 0) by (pose proof (py_max_spec _ _ Hhi _ (NGonTools.num_first _ _ Hn)); unfold hi in *; lia).
    destruct (abs_cells_low cells Hpos) as (m & Hm & Hm0). rewrite (st_lifted _ _ z3 m Hm). rewrite bool_decide_eq_false_2 by (unfold hi; lia).
    rewrite (st_step _ _ z3 z4 ()).
    2: { unfold rm_child. rewrite (find_child_ext _ (holds (is_element "NFACE_n"))) by done. destruct (only_spec _ _ _ _ (pz_nface _ _ _ _ _ Z3) Haj3) as (_ & _ & ->). unfold z4. by destruct z3. }
    cbn [is_none]. rewrite (st_lifted _ _ z4 1) by done. rewrite bool_decide_eq_false_2 by (clear; intros Hne; by apply Hne). exact Hnode.
  - rewrite Ez4, <- Hc0. unfold with_children. f_equal; unfold z4; rewrite Ez3; done.
Qed.
End spec.

(** ** Examples *)

Local Instance any_equal : ArrayEqual := fun _ _ => true.

Definition elements_node (name : string) (kind lo hi : Z) (l : list (list Z)) (more : list node) : node :=
  Node name (Some (vec T_I4 [kind; 0]))
    ([Node "ElementRange" (Some (vec T_I4 [lo; hi])) [] "IndexRange_t"; Node "ElementStartOffset" (Some (vec T_I4 (NpUtils.offsets l))) [] "DataArray_t";
      Node "ElementConnectivity" (Some (vec T_I4 (concat l))) [] "DataArray_t"] ++ more) "Elements_t".
(** Cells in a row: each one is between two faces. *)
Definition row_faces : list (list Z) := [[1; 2; 3]; [4; 5; 6]; [7; 8; 9]; [10; 11; 12]].
Definition row_cells : list (list Z) := [[1; 2]; [-2; 3]; [-3; 4]].
Definition row_parents : list (Z * Z) := [(5, 0); (5, 6); (6, 7); (7, 0)].
Definition row_ngon : node := elements_node "NGon" 22 1 4 row_faces [Node "ParentElements" (Some (parents T_I4 true row_parents)) [] "DataArray_t"].
Definition row_nface : node := elements_node "NFace" 23 5 7 row_cells [].
Definition mesh_zone (elements : list node) : node :=
  Node "Zone" (Some (NpArray T_I4 [1; 3] true [12; 3; 0])) (Node "ZoneType" (text_value "Unstructured") [] "ZoneType_t" :: elements) "Zone_t".
Definition row_zone : node := mesh_zone [row_ngon; row_nface].

Lemma row_poly : poly_zone row_zone 1 2 row_ngon row_nface.
Proof.
  split; [done|by exists (Text (Str "Unstructured"))|intros [|[|[|k]]] c Hc; [by injection Hc as <-..|done]|intros [|[|[|k]]] c Hc; [by injection Hc as <-..|done]|done|done].
Qed.
Lemma row_sids : sids_zone row_zone 1 2 row_ngon row_nface T_I4 1 5 row_faces row_cells.
Proof.
  split; [exact row_poly|by left|apply (bool_decide_unpack _); vm_compute; exact I|apply (bool_decide_unpack _); vm_compute; exact I|by split|by split|done|done].
Qed.
Lemma row_numbered : NGonTools.numbered row_parents 5.
Proof.
  split; [repeat constructor; cbn; lia|by left|by left|exists (5, 6); split; [done|]; left; discriminate|exists (7, 0); split; [done|]; left; discriminate].
Qed.

Lemma poly_roundtrip_witness :
  exists z1 z2 ng' nf', zone_new_to_old false row_zone = (z1, Ret ()) /\ zone_old_to_new (fun x => x) (fun _ _ x => x) z1 = (z2, Ret ()) /\
    z2 = with_children row_zone (<[2%nat:=nf']> (<[1%nat:=ng']> (get_children row_zone))) /\ same_arrays row_ngon ng' /\ same_arrays row_nface nf'.
Proof.
  apply (poly_roundtrip (fun x => x) (fun _ _ x => x) row_zone 1 2 row_ngon row_nface T_I4 1 5 row_faces row_cells); [exact row_sids|lia| | |].
  - split; [by left|]. split; [apply (bool_decide_unpack _); vm_compute; exact I|]. apply (bool_decide_unpack _); vm_compute; exact I.
  - apply Exists_exists. exists (-2). split; [vm_compute; right; right; by left|lia].
  - right. eexists. split; [reflexivity|]. split; [|split]; apply (bool_decide_unpack _); vm_compute; exact I.
Defined.
Lemma poly_onera_roundtrip_witness :
  exists z1 z2 ng', zone_new_to_old true row_zone = (z1, Ret ()) /\ zone_old_to_new (fun x => x) (fun _ _ x => x) z1 = (z2, Ret ()) /\ same_arrays row_ngon ng' /\
    z2 = with_children row_zone (delete 2%nat (<[1%nat:=ng']> (get_children row_zone)) ++ [nface_node T_I4 5 7 (NGonTools.cell_faces (NGonTools.local_rows 5 row_parents))]).
Proof.
  apply (poly_onera_roundtrip (fun x => x) (fun _ _ x => x) row_zone 1 2 row_ngon row_nface T_I4 row_faces row_cells true row_parents);
    [exact row_sids|done|done|exact row_numbered|done|done|apply (bool_decide_unpack _); vm_compute; exact I..].
Defined.

(** ** Two cells *)

Definition two_faces : list (list Z) := [[1; 2; 3]; [4; 5; 6]; [7; 8; 9]].
Definition two_ngon : node := elements_node "NGon" 22 1 3 two_faces [Node "ParentElements" (Some (parents T_I4 true [(4, 0); (4, 5); (5, 0)])) [] "DataArray_t"].
Definition one_ngon : node := elements_node "NGon" 22 1 2 [[1; 2; 3]; [4; 5; 6]] [].
(** The faces of the cells after the conversion to the old conventions and back. *)
Definition faces_back `{ArrayEqual} (z : node) : py (list Z) :=
  let '(z1, r) := zone_new_to_old true z in _ ← r;
  let '(z2, r) := zone_old_to_new (fun x => x) (fun _ _ x => x) z1 in _ ← r;
  nface ← Zone_NFaceNode z2; Ret (data_at nface "ElementConnectivity").

(** The number of cells is computed as one less than it is: the faces of two cells, whose signs have been removed,
    are taken as signed and the face between them keeps the same sign in both; those of a single cell are taken as
    unsigned, and cannot be converted without parents. *)
Theorem two_cells_lose_signs `{ArrayEqual} :
  faces_back row_zone = Ret [1; 2; 3; -2; 4; -3] /\
  faces_back (mesh_zone [two_ngon; elements_node "NFace" 23 4 5 [[1; 2]; [-2; 3]] []]) = Ret [1; 2; 2; 3] /\
  faces_back (mesh_zone [one_ngon; elements_node "NFace" 23 3 3 [[1; 2]] []]) = Raise RuntimeError.
Proof. vm_compute. auto. Qed.
End CompatibilitySpec.
