(* ===== verification/PostSplit.v ===== *)
(** * Partitioned trees after the split: [maia/factory/partitioning/post_split.py]

    What is done on the partitioned zones once they are created: the nodes of the distributed tree that have no
    array are copied, the point lists of joins of structured zones change from triplets to indices and back, the
    joins of the distributed tree are split by opposite partition, the names of the opposite joins are updated.  The
    exchanges of point lists are those of the transfers and are not in this file.  A collective function takes the
    trees of the ranks 0, 1, ...; the nodes that the code shares between trees are not changed afterwards, they are
    values here. *)
From S2P Require Import Prelude PyUtils Numbering NpUtils Values Conventions Fnmatch Tree Parsers Walkers Search Sids Refs Presets MaiaNodes Joins.

Local Open Scope Z_scope.

Module PostSplit.
Import NpUtils Values Conventions Tree Walkers Search Sids Refs Presets MaiaNodes Joins.

(** ** Loops *)

(** The first node of a name in depth-first order, the root included. *)
Fixpoint on_found (p : node -> bool) (f : st ()) (n : node) : option (node * py ()) :=
  if p n then Some (f n) else
  let '(Node name v cs label) := n in
  match (fix go (l : list node) : option (list node * py ()) :=
           match l with
           | [] => None
           | c :: l' =>
               match on_found p f c with
               | Some (c', r) => Some (c' :: l', r)
               | None => match go l' with Some (l'', r) => Some (c :: l'', r) | None => None end
               end
           end) cs with
  | Some (cs', r) => Some (Node name v cs' label, r)
  | None => None
  end.
Definition on_node_named (name : string) (f : st ()) : st () := fun n => default (n, Ret ()) (on_found (fun c => match_name c name) f n).

(** [for node in iter_children_from_predicate(n, p)] with a predicate that may raise. *)
Fixpoint on_list_where (p : node -> py bool) (f : st ()) (l : list node) : list node * py () :=
  match l with
  | [] => ([], Ret ())
  | c :: l' =>
      match (match p c with Ret true => f c | Ret false => (c, Ret ()) | Raise e => (c, Raise e) end) with
      | (c', Ret ()) => let '(l'', r) := on_list_where p f l' in (c' :: l'', r)
      | (c', Raise e) => (c' :: l', Raise e)
      end
  end.
Definition on_children_where (p : node -> py bool) (f : st ()) : st () := in_children (on_list_where p f).
(** The names of the base and the zone are known in the body. *)
Definition on_bases_zones (f : string -> string -> st ()) : st () :=
  on_children (with_label "CGNSBase_t") (fun base => on_children (with_label "Zone_t") (fun zone => f (get_name base) (get_name zone) zone) base).
(** A loop on nodes that were found before it. *)
Definition on_refs (ps : list (node -> py bool)) (f : st ()) : st () :=
  rs ← reading (refs_where ps); for_each (fun r => edit_at r f) rs.

Section post_split.
Context `{ArrayEqual} (to_float32 : Z -> Z) (astype : cgns_type -> cgns_type -> Z -> Z).
(** [np.argsort] *)
Context (argsort : list Z -> list nat).

(** ** Point lists of structured zones *)

Definition is_zone_of (kind : string) (n : node) : py bool :=
  if bool_decide (get_label n = "Zone_t") then t ← Zone_Type n; Ret (is_text t kind) else Ret false.
Definition is_zone_s : node -> py bool := is_zone_of "Structured".
Definition is_zone_u : node -> py bool := is_zone_of "Unstructured".
Definition is_initial_match (n : node) : py bool :=
  if bool_decide (get_label n = "GridConnectivity_t") then b ← GridConnectivity_is1to1 n; Ret (b && negb (is_intra_gc (get_name n))) else Ret false.
Definition initial_matches : list (node -> py bool) := [label_is "ZoneGridConnectivity_t"; is_initial_match].

Definition location_of (v : read_value) : string := match v with Text (Str s) => s | _ => "" end.
Definition triplet_of (s : zsize) : py Numbering.triplet := match s with PerIndex [a; b; c] => Ret (a, b, c) | _ => Raise IndexError end.
(** The columns of an array of three rows. *)
Fixpoint triples (l : list Z) : list Numbering.triplet := match l with i :: j :: k :: l' => (i, j, k) :: triples l' | _ => [] end.
Definition columns3 (a : nparray) : py (list Numbering.triplet) :=
  match a_shape a with [3; _] => Ret (triples (a_data a)) | _ => Raise TypeError end.
Definition indices_of (loc : string) (n_vtx : Numbering.triplet) (l : list Numbering.triplet) : py (list Z) :=
  _ ← Numbering.ijk_to_index_from_loc 1 1 1 loc n_vtx; mapM (fun '(i, j, k) => Numbering.ijk_to_index_from_loc i j k loc n_vtx) l.
Definition ijk_of (loc : string) (n_vtx : Numbering.triplet) (l : list Z) : py (list Numbering.triplet) :=
  _ ← Numbering.index_to_ijk_from_loc 1 loc n_vtx; mapM (fun idx => Numbering.index_to_ijk_from_loc idx loc n_vtx) l.
(** The type of the array is kept, since the sizes are scalars. *)
Definition subset_as_idx (n_vtx : Numbering.triplet) : st () :=
  pl_node ← reading (fun n => get_node_from_name n "PointList" no_kw);
  match pl_node with
  | None => mret ()
  | Some pl_node =>
      loc ← reading Subset_GridLocation;
      a ← st_lift (array_of (get_raw pl_node));
      l ← st_lift (columns3 a);
      pl ← st_lift (indices_of (location_of loc) n_vtx l);
      on_node_named "PointList" (put_raw (Some (NpArray (a_type a) [1; zlen pl] true pl)))
  end.
Definition first_row (a : nparray) : py (list Z) :=
  match a_shape a with
  | [d; n] => if bool_decide (0 < d) then Ret (map (fun i => nth (Z.to_nat (i * d)) (a_data a) 0) (arange 0 n)) else Raise IndexError
  | _ => Raise IndexError
  end.
Definition three_rows (t : cgns_type) (l : list Numbering.triplet) : pyval :=
  PNumpys t [Nest (map (fun '(i, _, _) => Leaf i) l); Nest (map (fun '(_, j, _) => Leaf j) l); Nest (map (fun '(_, _, k) => Leaf k) l)].
Definition set_ijk (loc : string) (n_vtx : Numbering.triplet) : st () := fun pl_node =>
  (a ← st_lift (array_of (get_raw pl_node));
   row ← st_lift (first_row a);
   pl_ijk ← st_lift (ijk_of loc n_vtx row);
   set_value to_float32 (three_rows (a_type a) pl_ijk)) pl_node.
Definition subset_as_ijk (n_vtx : Numbering.triplet) : st () :=
  pl_node ← reading (fun n => get_node_from_name n "PointList" no_kw);
  match pl_node with
  | None => mret ()
  | Some _ => loc ← reading Subset_GridLocation; on_node_named "PointList" (set_ijk (location_of loc) n_vtx)
  end.
Definition on_structured (subset_predicate : list (node -> py bool)) (f : Numbering.triplet -> st ()) : st () :=
  t ← reading Zone_Type;
  _ ← check (is_text t "Structured");
  rs ← reading (refs_where subset_predicate);
  for_each (fun r => s ← reading Zone_VertexSize; n_vtx ← st_lift (triplet_of s); edit_at r (f n_vtx)) rs.
Definition pl_as_idx (subset_predicate : list (node -> py bool)) : st () := on_structured subset_predicate subset_as_idx.
Definition pl_as_ijk (subset_predicate : list (node -> py bool)) : st () := on_structured subset_predicate subset_as_ijk.

(** The zones are at depth two at most. *)
Definition hybrid_jns_as_idx : st () :=
  in_children (on_list_where (fun _ => Ret true) (fun c =>
    match is_zone_s c with
    | Raise e => (c, Raise e)
    | Ret true => pl_as_idx initial_matches c
    | Ret false => on_children_where is_zone_s (pl_as_idx initial_matches) c
    end)).

(** ** Zone pointers *)

Definition parts_of (base : node) (zname : string) : py (list string) :=
  zones ← children_where (fun n => if bool_decide (get_label n = "Zone_t") then p ← get_part_prefix (get_name n); Ret (bool_decide (p = zname)) else Ret false) (get_children base);
  Ret (get_names zones).
Definition instant_parts (base : node) (instant : list string) : py (list string) := names ← mapM (parts_of base) instant; Ret (concat names).
(** The names of the zones at each instant: the array has three dimensions. *)
Definition instants (v : read_value) : py (list (list string)) :=
  match v with
  | Text (StrList l) => mapM (fun x => match x with StrList l => of_option TypeError (texts l) | Str _ => Raise TypeError end) l
  | _ => Raise TypeError
  end.
Definition update_pointers (base base_it_data : node) : py node :=
  zone_pointers_n ← get_child_from_name base_it_data "ZonePointers" no_kw;
  match zone_pointers_n with
  | None => Ret base_it_data
  | Some zone_pointers_n =>
      v ← get_value zone_pointers_n false;
      all ← instants v;
      parts ← mapM (instant_parts base) all;
      let number_of_zones := map zlen parts in
      m ← py_max number_of_zones;
      let v := if bool_decide (m = 0) then PArray (NpArray T_C1 [32; 0; zlen number_of_zones] true []) else PStrss parts in
      applied (_ ← on_first (fun c => match_name c "ZonePointers") (set_value to_float32 v);
               update to_float32 "NumberOfZones" "DataArray_t" (Some (PInts (map Leaf number_of_zones)))) base_it_data
  end.
Definition update_zone_pointers : st () :=
  on_children (with_label "CGNSBase_t") (fun base =>
    on_children (with_label "BaseIterativeData_t") (fun d => match update_pointers base d with Ret d' => (d', Ret ()) | Raise e => (d, Raise e) end) base).

(** ** Nodes without arrays *)

Definition add_nodes (l : list node) : st () := for_each (fun n => add_child (Some n)) l.
Definition decorative (names types : list string) (n : node) : list node :=
  filter (fun c => bool_decide (get_name c ∈ names) || bool_decide (get_label c ∈ types) = true) (get_children n).
(** Under the nodes of two labels, what the node of the same path has in the distributed zone. *)
Definition copy_under (dist_zone : node) (label1 label2 : string) (names types : list string) : st () :=
  on_nodes (with_label label1) (fun p1 =>
    on_nodes (with_label label2) (fun p2 =>
      match get_node_from_path dist_zone (get_name p1 +:+ "/" +:+ get_name p2) with
      | Some d => add_nodes (decorative names types d) p2
      | None => (p2, Ret ())
      end) p1).
Definition copy_additional_nodes (dist_zone : node) : st () :=
  _ ← add_nodes (decorative [".Solver#Param"] ["FamilyName_t"; "AdditionalFamilyName_t"; "ZoneIterativeData_t"] dist_zone);
  _ ← copy_under dist_zone "ZoneBC_t" "BC_t" [".Solver#BC"; "BoundaryMarker"] ["FamilyName_t"; "AdditionalFamilyName_t"; "ReferenceState_t"];
  copy_under dist_zone "ZoneGridConnectivity_t" "GridConnectivity_t" [".Solver#Property"; "GridConnectivityDonorName"; "DistInterfaceId"; "DistInterfaceOrd"]
    ["FamilyName_t"; "GridConnectivityProperty_t"; "GridConnectivityType_t"].

(** ** Related sub-regions *)

Definition is_inter_gc (n : node) : bool := startswith (get_label n) "GridConnectivity" && negb (is_intra_gc (get_name n)).
Definition is_related_gc (gc_name : string) (n : node) : py bool :=
  if is_inter_gc n then p ← get_split_prefix (get_name n); Ret (bool_decide (p = gc_name)) else Ret false.
Definition text_of (v : read_value) : py string := match v with Text (Str s) => Ret s | _ => Raise TypeError end.
Definition nodes_of (r : walk_result) : list node := match r with Nodes l => l | Tuples _ => [] end.
Definition new_zsr (name : string) (bc_name gc_name : option string) : st () :=
  under (new_ZoneSubRegion to_float32 astype name None None None bc_name gc_name None []).
Definition related_zsr (d_zsr : node) : st () :=
  bc_descriptor ← st_lift (get_child_from_name d_zsr "BCRegionName" no_kw);
  gc_descriptor ← st_lift (get_child_from_name d_zsr "GridConnectivityRegionName" no_kw);
  _ ← check (is_none bc_descriptor || is_none gc_descriptor);
  match bc_descriptor, gc_descriptor with
  | Some bc, _ =>
      bc_name ← st_lift (v ← get_value bc false; text_of v);
      bc_n ← reading (fun part_zone => get_node_from_predicates part_zone (QsPath ("ZoneBC_t/" +:+ bc_name)) (with_depth (DSeq [Some 1; Some 1]) no_kw));
      if is_none bc_n then mret () else new_zsr (get_name d_zsr) (Some bc_name) None
  | None, Some gc =>
      gc_name ← st_lift (v ← get_value gc false; text_of v);
      rs ← reading (refs_where [label_is "ZoneGridConnectivity_t"; is_related_gc gc_name]);
      gcs ← reading (fun part_zone => Ret (omap (node_at part_zone) rs));
      for_each (fun gc_n =>
          suffix ← st_lift (get_split_suffix (get_name gc_n));
          new_zsr (get_name d_zsr +:+ "." +:+ suffix) None (Some (get_name gc_n))) gcs
  | None, None => mret ()
  end.
Definition generate_related_zsr (dist_zone : node) : st () :=
  zsrs ← st_lift (r ← iter_nodes_from_predicates dist_zone (QsPath "ZoneSubRegion_t") no_kw; Ret (nodes_of r));
  for_each related_zsr zsrs.

(** ** Joins split by opposite partition *)

(** The columns of an array of two dimensions, and the same with another first row. *)
Fixpoint chunks (n : nat) (d : nat) (l : list Z) : list (list Z) := match n with O => [] | S n' => take d l :: chunks n' d (drop d l) end.
Definition columns_of_array (a : nparray) : py (list (list Z)) :=
  match a_shape a with [d; n] => Ret (chunks (Z.to_nat n) (Z.to_nat d) (a_data a)) | _ => Raise IndexError end.
Definition row0 (cols : list (list Z)) : py (list Z) := mapM (fun c => of_option IndexError (head c)) cols.
Definition put_row0 (row : list Z) (cols : list (list Z)) : list (list Z) := zip_with (fun x c => x :: tail c) row cols.
Definition permute {A} (l : list A) (idx : list nat) : py (list A) := mapM (fun k => of_option IndexError (l !! k)) idx.
(** [np.unique(donor, axis=0)] *)
Definition pair_le (p q : Z * Z) : bool := bool_decide (p.1 < q.1 \/ p.1 = q.1 /\ p.2 <= q.2).
Definition unique_rows (l : list (Z * Z)) : list (Z * Z) := sort_by pair_le (remove_dups l).
(** Indexing by a mask. *)
Definition masked {A} (mask : list bool) (l : list A) : py (list A) :=
  if bool_decide (length mask = length l) then Ret (omap (fun p : bool * A => if p.1 then Some p.2 else None) (zip mask l)) else Raise IndexError.

(** The faces of a join whose opposite is in a partition, sorted by the point list of the join whose path is the
    smaller one; only the first rows are sorted. *)
Definition sub_join (pl pl_d : list (list Z)) (lngn : list Z) (donor : list (Z * Z)) (cur_is_ref : bool) (opp_part : Z * Z) : py (list (list Z) * list (list Z) * list Z) :=
  let matching_faces_idx := map (fun p => bool_decide (p = opp_part)) donor in
  sub_pl ← masked matching_faces_idx pl;
  sub_pl_d ← masked matching_faces_idx pl_d;
  sub_lngn ← masked matching_faces_idx lngn;
  pl0 ← row0 sub_pl; pld0 ← row0 sub_pl_d;
  let sort_idx := argsort (if cur_is_ref then pl0 else pld0) in
  pl0 ← permute pl0 sort_idx; pld0 ← permute pld0 sort_idx; sub_lngn ← permute sub_lngn sort_idx;
  Ret (put_row0 pl0 sub_pl, put_row0 pld0 sub_pl_d, sub_lngn).

Definition array_from (t : cgns_type) (shape0 : Z) (cols : list (list Z)) : pyval := PArray (NpArray t [shape0; zlen cols] true (concat cols)).
Definition skip_nodes : list string := ["PointList"; "PointListDonor"; ":CGNS#GlobalNumbering"; "Donor"; "GridConnectivityType"].
Definition height (a : nparray) : Z := match a_shape a with d :: _ => d | [] => 0 end.
Definition split_gc (base_name d_zone_name : string) (gc : node) : py (list node) :=
  pl_a ← (v ← raw_child gc "PointList"; array_of v); pld_a ← (v ← raw_child gc "PointListDonor"; array_of v);
  lngn_n ← getGlobalNumbering gc (Some "Index");
  lngn_v ← value_of lngn_n;
  lngn_a ← match lngn_v with Raw (Some a) => Ret a | _ => Raise TypeError end;
  donor_v ← raw_child gc "Donor";
  ranks ← column_of donor_v 0; parts ← column_of donor_v 1;
  let donor := zip ranks parts in
  pl ← columns_of_array pl_a; pl_d ← columns_of_array pld_a;
  mapM (fun '(i_sub_jn, opp_part) =>
      donor_zone ← (v ← get_value gc false; text_of v);
      join_n ← (new_GridConnectivity to_float32 (add_split_suffix (get_name gc) (Z.of_nat i_sub_jn)) (Some (add_part_suffix donor_zone opp_part.1 opp_part.2))
                  "Abutting1to1" None None None None None None).2;
      opp_zone ← GridConnectivity_ZoneDonorPath gc base_name;
      opp_name ← (n ← get_child_from_name gc "GridConnectivityDonorName" no_kw; v ← value_of n; text_of v);
      let cur_path := base_name +:+ "/" +:+ d_zone_name +:+ "/" +:+ get_name gc in
      let opp_path := opp_zone +:+ "/" +:+ opp_name in
      subs ← sub_join pl pl_d (a_data lngn_a) donor (String.ltb cur_path opp_path) opp_part;
      let '(sub_pl, sub_pl_d, sub_lngn) := subs in
      applied
        (_ ← under (new_IndexArray to_float32 "PointList" (array_from (a_type pl_a) (height pl_a) sub_pl));
         _ ← under (new_IndexArray to_float32 "PointListDonor" (array_from (a_type pld_a) (height pld_a) sub_pl_d));
         _ ← newGlobalNumbering to_float32 [("Index", PArray (vec (a_type lngn_a) sub_lngn))];
         add_nodes (filter (fun c => get_name c ∉ skip_nodes) (get_children gc))) join_n)
    (imap pair (unique_rows donor)).
(** Every join to split is replaced, once all are split. *)
Definition split_zone_gc (base_name d_zone_name : string) : st () := fun zone_gc =>
  match foldM (fun s gc =>
           b ← GridConnectivity_is1to1 gc;
           if b && negb (is_intra_gc (get_name gc)) then subs ← split_gc base_name d_zone_name gc; Ret (s.1 ++ [get_name gc], s.2 ++ subs) else Ret s)
         ([], []) (filter (fun c => with_label "GridConnectivity_t" c = true) (get_children zone_gc)) with
  | Raise e => (zone_gc, Raise e)
  | Ret (to_remove, to_append) =>
      (_ ← for_each (fun name => (fun n => (rm_children_from_predicate (fun c => match_name c name) n, Ret ())) : st ()) to_remove;
       add_nodes to_append) zone_gc
  end.
Definition split_original_joins : st () :=
  on_bases_zones (fun base_name zone_name =>
    d_zone_name ← st_lift (get_part_prefix zone_name);
    on_children (with_label "ZoneGridConnectivity_t") (split_zone_gc base_name d_zone_name)).

(** ** Names of the opposite joins *)

Abbreviation message := (string * string * string)%type.
Definition is_initial_gc (n : node) : py bool := b ← is_join n; Ret (b && negb (is_intra_gc (get_name n))).
Definition zone_path (base zone : string) : string := base +:+ "/" +:+ zone.
(** What a rank sends: the rank of the opposite partition, the name of the join and the paths of the two zones. *)
Definition zone_messages (tree_refs : ref) (tree : node) : py (list (Z * message)) :=
  match names_at tree tree_refs, node_at tree tree_refs with
  | [base_name; zone_name], Some p_zone =>
      rs ← refs_where [label_is "ZoneGridConnectivity_t"; is_initial_gc] p_zone;
      mapM (fun gc =>
          opp_zone_path ← GridConnectivity_ZoneDonorPath gc base_name;
          suffix ← get_part_suffix opp_zone_path;
          Ret (suffix.1, (get_name gc, zone_path base_name zone_name, opp_zone_path)))
        (omap (node_at p_zone) rs)
  | _, _ => Ret []
  end.
Definition sent (size : nat) (tree : node) : py (list (list message)) :=
  rs ← refs_where [label_is "CGNSBase_t"; label_is "Zone_t"] tree;
  ms ← mapM (fun r => zone_messages r tree) rs;
  dests ← mapM (fun m => k ← of_option IndexError (norm_index size m.1); Ret (k, m.2)) (concat ms);
  Ret (map (fun k => map snd (filter (fun d : nat * message => d.1 = k) dests)) (seq 0 size)).
Definition set_donor (name : string) : st () := under (new_node to_float32 donor_name "Descriptor_t" (PStr name) []).
Definition update_gc (recv_l : list (list message)) (base_name zone_name : string) : st () :=
  let cur_zone_path := zone_path base_name zone_name in
  opp_zone_path ← reading (fun gc => GridConnectivity_ZoneDonorPath gc base_name);
  name ← reading (fun gc => Ret (get_name gc));
  opp ← st_lift (get_part_suffix opp_zone_path);
  if is_intra_gc name then
    cur ← st_lift (get_part_suffix cur_zone_path);
    set_donor (name_intra_gc opp.1 opp.2 cur.1 cur.2)
  else
    from_opp ← st_lift (py_get recv_l opp.1);
    let candidate_jns := map (fun m : message => m.1.1) (filter (fun m : message => m.1.2 = opp_zone_path /\ m.2 = cur_zone_path) from_opp) in
    dist_donor_name ← reading (fun gc => n ← get_child_from_name gc donor_name no_kw; v ← value_of n; text_of v);
    prefixes ← st_lift (mapM (fun jn => p ← get_split_prefix jn; Ret (jn, p)) candidate_jns);
    let candidate_jns := map fst (filter (fun p : string * string => p.2 = dist_donor_name) prefixes) in
    match candidate_jns with
    | [jn] => _ ← rm_donor_name; set_donor jn
    | _ => st_raise AssertionError
    end.
Definition update_gc_donor_name (trees : list node) : py (list node) :=
  sends ← mapM (sent (length trees)) trees;
  mapM (fun '(me, tree) =>
      let recv_l := map (fun s => default [] (s !! me)) sends in
      applied (on_bases_zones (fun base_name zone_name =>
                 on_children (with_label "ZoneGridConnectivity_t") (on_children_where is_join (update_gc recv_l base_name zone_name)))) tree)
    (imap pair trees).

(** ** Point lists as triplets again *)

Definition join_locations (zone : node) : py (gmap string string) :=
  rs ← refs_where initial_matches zone;
  foldM (fun m gc => loc ← Subset_GridLocation gc; Ret (<[get_name gc := location_of loc]> m)) ∅ (omap (node_at zone) rs).
(** The structured zones of a rank, by path: size in cells and locations of the joins. *)
Abbreviation zone_data := (gmap string (zsize * gmap string string)).
Definition is_base : node -> py bool := label_is "CGNSBase_t".
Definition structured_as_ijk (tree : node) : py (node * zone_data) :=
  rs ← refs_where [is_base; is_zone_s] tree;
  foldM (fun '(tree, m) r =>
      tree ← applied (edit_at r (pl_as_ijk initial_matches)) tree;
      zone ← of_option TypeError (node_at tree r);
      jns ← join_locations zone;
      size ← Zone_CellSize zone;
      Ret (tree, <[path_of tree r := (size, jns)]> m)) (tree, ∅) rs.
Definition plus_one (s : zsize) : zsize := match s with Total n => Total (n + 1) | PerIndex l => PerIndex (map (Z.add 1) l) end.
Definition donor_as_ijk (zone_s_data_all : list zone_data) (basename : string) : st () :=
  opp_zone_path ← reading (fun gc => GridConnectivity_ZoneDonorPath gc basename);
  opp ← st_lift (get_part_suffix opp_zone_path);
  opp_jn_name ← reading (fun gc => n ← get_child_from_name gc donor_name no_kw; v ← value_of n; text_of v);
  data ← st_lift (py_get zone_s_data_all opp.1);
  match data !! opp_zone_path with
  | None => mret ()
  | Some (opp_zone_size, opp_zone_jns) =>
      match opp_zone_jns !! opp_jn_name with
      | None => mret ()
      | Some opp_loc => n_vtx ← st_lift (triplet_of (plus_one opp_zone_size)); on_first (fun c => match_name c "PointListDonor") (set_ijk opp_loc n_vtx)
      end
  end.
Definition unstructured_as_ijk (zone_s_data_all : list zone_data) : st () :=
  rs ← reading (refs_where [is_base; is_zone_u]);
  for_each (fun r =>
      basename ← reading (fun tree => of_option TypeError (head (names_at tree r)));
      edit_at r (on_refs initial_matches (donor_as_ijk zone_s_data_all basename))) rs.
Definition hybrid_jns_as_ijk (trees : list node) : py (list node) :=
  done ← mapM structured_as_ijk trees;
  mapM (fun tree => applied (unstructured_as_ijk (map snd done)) tree) (map fst done).
End post_split.
End PostSplit.
