(* ===== verification/RecoverJn.v ===== *)
(** * Opposite faces of partitioned joins: [maia/transfer/dist_to_part/recover_jn.py]

    The faces of a join of the distributed tree are spread over partitions.  Each face has a global number in the
    join, the same on the two sides: every rank sends its faces with their global number, shifted by join, and gets
    back for each of them all the faces of the same number, among which those of the opposite side.  The exchange is
    the one of ParaDiGM, a class with its law; the fields that the code exchanges one by one are the fields of a
    record here.  What is read from the distributed tree is the same on all the ranks. *)
From S2P Require Import Prelude PyUtils NpUtils Values Conventions Fnmatch Tree Parsers Walkers Search Distribution Sids Refs Presets MaiaNodes Joins PostSplit.

Local Open Scope Z_scope.

Module RecoverJn.
Import NpUtils Values Conventions Tree Walkers Search Sids Refs Presets MaiaNodes Joins PostSplit.

(** ** The exchange *)

(** A face that is sent: its number, its partition and the side of the join. *)
Record candidate := Candidate { c_pl : Z; c_rank : Z; c_part : Z; c_join : Z }.
#[export] Instance candidate_eq_dec : EqDecision candidate.
Proof. solve_decision. Defined.

(** [PartToBlock] with [keep_multiple], then [block_to_part_strided]: for each number of each array of each rank, what
    was sent with this number, in some order. *)
Class gnum_exchange : Type := gather_same : list (list (list (Z * candidate))) -> list (list (list (list candidate))).
Definition same_gnum (sent : list (list (list (Z * candidate)))) (g : Z) : list candidate :=
  map snd (filter (fun x : Z * candidate => x.1 = g) (concat (concat sent))).
Class gnum_exchange_law (E : gnum_exchange) : Prop :=
  law_same sent : Forall2 (Forall2 (Forall2 (fun x l => l ≡ₚ same_gnum sent x.1))) sent (gather_same sent).

(** ** The joins of a partitioned tree *)

(** A join in a partition: the partition, the side of the join, the shift of its global numbers, its faces and their
    global numbers. *)
Record part_join := PartJoin { pj_rank : Z; pj_part : Z; pj_id : Z; pj_shift : Z; pj_pl : list Z; pj_lngn : list Z }.
Definition sends (j : part_join) : list (Z * candidate) :=
  zip_with (fun g p => (g + pj_shift j, Candidate p (pj_rank j) (pj_part j) (pj_id j))) (pj_lngn j) (pj_pl j).

(** The faces of the opposite side; the face itself has to be among what is received. *)
Definition opposite_faces (j : part_join) (p : Z) (cands : list candidate) : py (list candidate) :=
  let opp := filter (fun c => c_join c <> pj_id j) cands in
  _ ← py_assert (bool_decide (1 <= zlen opp));
  _ ← py_assert (bool_decide (Candidate p (pj_rank j) (pj_part j) (pj_id j) ∈ cands));
  Ret opp.
(** The first opposite face of each face is at its place, the other ones are added at the end with the face and its
    global number repeated. *)
Definition with_opposite (j : part_join) (cands : list (list candidate)) : py (list Z * list Z * list candidate) :=
  opps ← mapM (fun '(p, cs) => opposite_faces j p cs) (zip (pj_pl j) cands);
  firsts ← mapM (fun opp => of_option IndexError (head opp)) opps;
  let others := concat (map (fun '(p, g, opp) => map (fun c => (p, g, c)) (tail opp)) (zip (zip (pj_pl j) (pj_lngn j)) opps)) in
  Ret (pj_pl j ++ map (fun x => x.1.1) others, pj_lngn j ++ map (fun x => x.1.2) others, firsts ++ map snd others).

Section recover.
Context `{ArrayEqual} `{gnum_exchange} (to_float32 : Z -> Z).

(** ** The joins of the distributed tree *)

Definition join_pairs (dist_tree : node) : py (list (string * string)) :=
  pairs ← get_matching_jns (fun _ => Ret true) dist_tree;
  Ret (filter (fun p => is_Some (get_node_from_path dist_tree (p.1 +:+ "/PointList"))) pairs).
(** [join_to_ref] *)
Definition join_refs_of (pairs : list (string * string)) : gmap string Z :=
  foldl (fun m '(i, p) => <[p.2 := Z.of_nat i]> (<[p.1 := Z.of_nat i]> m)) ∅ (imap pair pairs).
Definition n_faces (dist_tree : node) (path : string) : py Z :=
  gc ← of_option TypeError (get_node_from_path dist_tree path);
  n ← getDistribution gc (Some "Index");
  v ← value_of n;
  match v with Raw v => elem v 2 | Text _ => Raise TypeError end.

Definition initial_joins : list (node -> py bool) := [label_is "CGNSBase_t"; label_is "Zone_t"; label_is "ZoneGridConnectivity_t"; is_initial_match].
Definition dist_names (names : list string) : py (list string) :=
  match names with
  | base :: zone :: rest => z ← get_part_prefix zone; Ret (base :: z :: rest)
  | _ => Raise IndexError
  end.
(** The join of a reference, as it is read from the trees. *)
Definition part_join_at (dist_tree : node) (join_to_ref : gmap string Z) (offset : list Z) (tree : node) (r : ref) : py part_join :=
  let names := names_at tree r in
  d_names ← dist_names names;
  let d_gc_path := py_join slash d_names in
  p_zone_name ← py_get names 1;
  suffix ← get_part_suffix p_zone_name;
  itrf_id ← of_option KeyError (join_to_ref !! d_gc_path);
  opp_path ← get_jn_donor_path dist_tree d_gc_path;
  gc ← of_option TypeError (node_at tree r);
  lngn_n ← getGlobalNumbering gc (Some "Index");
  lngn ← (v ← raw_of lngn_n; array_of v);
  shift ← py_get offset itrf_id;
  pl ← (v ← raw_child gc "PointList"; a ← array_of v; first_row a);
  Ret (PartJoin suffix.1 suffix.2 (2 * itrf_id + (if String.ltb d_gc_path opp_path then 1 else 0)) shift pl (a_data lngn)).

(** ** The arrays that are stored *)

Definition raw_type (name : string) (gc : node) : py cgns_type := v ← raw_child gc name; a ← array_of v; Ret (a_type a).
Definition one_row_of (t : cgns_type) (l : list Z) : pyval := PArray (NpArray t [1; zlen l] true l).
Definition set_index (v : pyval) : st () :=
  on_first (fun c => match_name c numbering_name) (on_first (fun c => match_name c "Index") (set_value to_float32 v)).
Definition store_opposite (j : part_join) (cands : list (list candidate)) : st () :=
  t ← reading (raw_type "PointList");
  tg ← reading (fun gc => n ← getGlobalNumbering gc (Some "Index"); v ← raw_of n; a ← array_of v; Ret (a_type a));
  r ← st_lift (with_opposite j cands);
  let '(pl, lngn, opp) := r in
  _ ← under (new_node to_float32 "PointListDonor" "DataArray_t" (one_row_of t (map c_pl opp)) []);
  _ ← under (new_node to_float32 "Donor" "DataArray_t" (PArray (NpArray T_I4 [zlen opp; 2] true (map c_rank opp ++ map c_part opp))) []);
  _ ← on_first (fun c => match_name c "PointList") (set_value to_float32 (one_row_of t pl));
  set_index (PArray (vec tg lngn)).

Definition get_pl_donor (dist_tree : node) (trees : list node) : py (list node) :=
  pairs ← join_pairs dist_tree;
  if bool_decide (pairs = []) then Ret trees else
  sizes ← mapM (fun p => n_faces dist_tree p.1) pairs;
  let offset := sizes_to_indices I4 sizes in
  let join_to_ref := join_refs_of pairs in
  refs ← mapM (refs_where initial_joins) trees;
  joins ← mapM (fun '(tree, rs) => mapM (part_join_at dist_tree join_to_ref offset tree) rs) (zip trees refs);
  let cands := gather_same (map (map sends) joins) in
  mapM (fun '(tree, (rs, (js, cs))) =>
      applied (for_each (fun '(r, (j, c)) => edit_at r (store_opposite j c)) (zip rs (zip js cs))) tree)
    (zip trees (zip refs (zip joins cands))).
End recover.
End RecoverJn.
