(* ===== verification/PostSplitSpec.v ===== *)
(** * Split joins correspond: theorems on PostSplit

    The faces of a join of the distributed tree are dealt to the sub-joins by opposite partition, and the sub-joins
    of the two sides have exchanged point lists. *)
From S2P Require Import Prelude PyUtils Numbering NpUtils Values Conventions Fnmatch Tree Parsers Walkers Search Sids Refs Presets MaiaNodes Joins PostSplit RecoverJn.

Local Open Scope Z_scope.

Module PostSplitSpec.
Import NpUtils Values Conventions Tree Walkers Search Sids Refs Presets MaiaNodes Joins PostSplit RecoverJn.

(** ** Lists *)

Definition picked {A} (l : list A) (idx : list nat) : list A := omap (fun i => l !! i) idx.

Lemma permute_Ret {A} (l : list A) idx : Forall (fun k => (k < length l)%nat) idx -> permute l idx = Ret (picked l idx).
Proof.
  unfold permute. induction 1 as [|k idx Hk _ IH]; [done|]. cbn. destruct (lookup_lt_is_Some_2 l k Hk) as [x Hx]. rewrite Hx. cbn. by rewrite IH.
Qed.
Lemma omap_seq {A} (l : list A) : picked l (seq 0 (length l)) = l.
Proof.
  assert (Hg : forall pre l : list A, picked (pre ++ l) (seq (length pre) (length l)) = l); [|exact (Hg [] l)].
  clear l. intros pre l. revert pre. induction l as [|x l IH]; intros pre; [done|]. cbn. rewrite lookup_app_r, Nat.sub_diag by lia. cbn. f_equal.
  specialize (IH (pre ++ [x])). rewrite length_app, <- app_assoc in IH. cbn in IH. rewrite Nat.add_1_r in IH. exact IH.
Qed.
Lemma omap_perm {A} (l : list A) idx : idx ≡ₚ seq 0 (length l) -> picked l idx ≡ₚ l.
Proof. intros Hp. transitivity (picked l (seq 0 (length l))); [|by rewrite omap_seq]. unfold picked. by rewrite Hp. Qed.
Lemma omap_fmap {A B} (f : A -> B) (l : list A) idx : picked (f <$> l) idx = f <$> picked l idx.
Proof. unfold picked. induction idx as [|k idx IH]; [done|]. cbn. rewrite list_lookup_fmap. destruct (l !! k); cbn; [f_equal|]; exact IH. Qed.
Lemma masked_spec {A B} (f : B -> bool) (ds : list B) (l : list A) : length ds = length l ->
  masked (map f ds) l = Ret (snd <$> filter (fun p => f p.1 = true) (zip ds l)).
Proof.
  intros Hl. unfold masked. rewrite length_map, bool_decide_eq_true_2 by done. f_equal. revert l Hl. induction ds as [|d ds IH]; intros [|x l] Hl; [done..|]. cbn [length] in Hl. specialize (IH l ltac:(lia)). cbn [map zip_with]. rewrite filter_cons. cbn [omap list_omap fst snd].
  destruct (f d); cbn [fst snd]; [rewrite decide_True by done; rewrite fmap_cons; cbn [snd]; f_equal|rewrite decide_False by done]; exact IH.
Qed.
(** Lists with distinct keys in increasing order are equal when they have the same elements. *)
Lemma sorted_keys_unique {A} (key : A -> Z) (l k : list A) : l ≡ₚ k -> NoDup (key <$> l) ->
  StronglySorted Z.le (key <$> l) -> StronglySorted Z.le (key <$> k) -> l = k.
Proof.
  revert k. induction l as [|x l IH]; intros k Hp Hn Hl Hk; [by apply Permutation_nil_l in Hp as ->|].
  destruct k as [|y k]; [by apply Permutation_nil_r in Hp|]. rewrite fmap_cons in *. apply NoDup_cons in Hn as [Hx Hn]. apply StronglySorted_inv in Hl as [Hl Hxl]. apply StronglySorted_inv in Hk as [Hk Hyk].
  assert (x = y) as <-.
  { assert (Hxin : x ∈ y :: k) by (rewrite <- Hp; by left). assert (Hyin : y ∈ x :: l) by (rewrite Hp; by left). apply elem_of_cons in Hyin as [->|Hyin]; [done|]. apply elem_of_cons in Hxin as [->|Hxin]; [done|].
    exfalso. rewrite Forall_forall in Hxl, Hyk. pose proof (Hxl (key y) (list_elem_of_fmap_2 _ _ _ Hyin)). pose proof (Hyk (key x) (list_elem_of_fmap_2 _ _ _ Hxin)). apply Hx. replace (key x) with (key y) by lia. by apply list_elem_of_fmap_2. }
  f_equal. apply IH; [by eapply Permutation_cons_inv|done..].
Qed.

(** ** The faces of a sub-join *)

(** A face of a join: its number, the one of the opposite face, its global number in the join, and the opposite partition. *)
Record face := Face { f_pl : Z; f_pld : Z; f_gnum : Z; f_donor : Z * Z }.
#[export] Instance face_eq_dec : EqDecision face.
Proof. solve_decision. Defined.
Definition flipped (me : Z * Z) (f : face) : face := Face (f_pld f) (f_pl f) (f_gnum f) me.
Definition one_row (l : list Z) : list (list Z) := map (fun x => [x]) l.
Definition towards (part : Z * Z) (fs : list face) : list face := filter (fun f => f_donor f = part) fs.

Section spec.
Context (argsort : list Z -> list nat) (Hargsort : argsort_ok argsort).

Lemma row0_one l : row0 (one_row l) = Ret l.
Proof using Type. unfold row0, one_row. induction l as [|x l IH]; [done|]. cbn. by rewrite IH. Qed.
Lemma put_row0_one row l : length row = length l -> put_row0 row (one_row l) = one_row row.
Proof using Type. unfold put_row0, one_row. revert l. induction row as [|x row IH]; intros [|y l] Hl; [done..|]. cbn in *. f_equal. apply IH. lia. Qed.
Lemma masked_faces {A} (g : face -> A) part fs : masked (map (fun p => bool_decide (p = part)) (map f_donor fs)) (map g fs) = Ret (map g (towards part fs)).
Proof using Type.
  rewrite masked_spec by by rewrite !length_map. f_equal. unfold towards. induction fs as [|f fs IH]; [done|]. cbn [map zip_with]. rewrite !filter_cons. cbn [fst snd]. destruct (decide (f_donor f = part)) as [E|E].
  - rewrite decide_True by by apply bool_decide_eq_true. rewrite fmap_cons. cbn [map snd]. f_equal. exact IH.
  - rewrite decide_False by (rewrite bool_decide_eq_true; done). exact IH.
Qed.

(** The arrays of a sub-join are those of the faces towards its partition, in the order of the reference. *)
Lemma sub_join_spec fs (cur_is_ref : bool) part :
  exists l, l ≡ₚ towards part fs /\ StronglySorted Z.le ((if cur_is_ref then f_pl else f_pld) <$> l) /\
    sub_join argsort (one_row (map f_pl fs)) (one_row (map f_pld fs)) (map f_gnum fs) (map f_donor fs) cur_is_ref part =
    Ret (one_row (map f_pl l), one_row (map f_pld l), map f_gnum l).
Proof using Hargsort.
  set (F := towards part fs). set (key := if cur_is_ref then f_pl else f_pld). set (idx := argsort (map key F)).
  destruct (Hargsort (map key F)) as [Hp Hs]. rewrite length_map in Hp. fold idx in Hp, Hs. exists (picked F idx). split; [by apply omap_perm|]. split.
  - rewrite <- omap_fmap. exact Hs.
  - unfold sub_join. unfold one_row at 1 2. rewrite (map_map f_pl (fun x => [x])), (map_map f_pld (fun x => [x])). rewrite !(masked_faces _ part fs). cbn [mbind py_bind]. fold F. rewrite <- (map_map f_pl (fun x => [x])), <- (map_map f_pld (fun x => [x])). fold (one_row (map f_pl F)). fold (one_row (map f_pld F)). rewrite !row0_one. cbn [mbind py_bind].
    replace (argsort (if cur_is_ref then map f_pl F else map f_pld F)) with idx by (unfold idx, key; by destruct cur_is_ref).
    assert (Hk : Forall (fun k => (k < length F)%nat) idx) by (apply Forall_forall; intros k Hk; rewrite Hp in Hk; apply elem_of_seq in Hk; lia).
    assert (Hperm : forall g : face -> Z, permute (map g F) idx = Ret (map g (picked F idx))).
    { intros g. rewrite permute_Ret by by rewrite length_map. f_equal. apply omap_fmap. }
    rewrite !Hperm. cbn [mbind py_bind]. assert (Hlen : length (picked F idx) = length F) by (apply Permutation_length; by apply omap_perm). rewrite !put_row0_one by (rewrite !length_map; exact Hlen). done.
Qed.

(** Two joins whose faces towards each other correspond give sub-joins with exchanged point lists, when the faces of
    the reference are different. *)
Lemma sub_joins_exchanged fa fb pa pb (a_is_ref : bool) :
  towards pb fa ≡ₚ map (flipped pb) (towards pa fb) -> NoDup ((if a_is_ref then f_pl else f_pld) <$> towards pb fa) ->
  exists pl pld g, sub_join argsort (one_row (map f_pl fa)) (one_row (map f_pld fa)) (map f_gnum fa) (map f_donor fa) a_is_ref pb = Ret (pl, pld, g) /\
    sub_join argsort (one_row (map f_pl fb)) (one_row (map f_pld fb)) (map f_gnum fb) (map f_donor fb) (negb a_is_ref) pa = Ret (pld, pl, g) /\
    g ≡ₚ f_gnum <$> towards pb fa.
Proof using Hargsort.
  intros Hp Hn. destruct (sub_join_spec fa a_is_ref pb) as (la & Pa & Sa & Ea). destruct (sub_join_spec fb (negb a_is_ref) pa) as (lb & Pb & Sb & Eb).
  assert (Hl : la = map (flipped pb) lb).
  { apply (sorted_keys_unique (if a_is_ref then f_pl else f_pld)); [|by rewrite Pa|done|].
    - rewrite Pa, Hp. change (@map) with (fun A B => @fmap list _ A B). cbn beta. by rewrite Pb.
    - change (@map) with (fun A B => @fmap list _ A B). cbn beta. rewrite <- list_fmap_compose. by destruct a_is_ref. }
  setoid_rewrite <- Pa. rewrite Ea, Eb, Hl, !map_map. eexists _, _, _. split; [reflexivity|]. split; [done|]. by rewrite <- (map_map (flipped pb) f_gnum).
Qed.
End spec.

(** ** The faces that are recovered *)

Definition part_of (j : part_join) : Z * Z := (pj_rank j, pj_part j).
Definition matched (p g : Z) (c : candidate) : face := Face p (c_pl c) g (c_rank c, c_part c).
Definition faces_of_arrays (r : list Z * list Z * list candidate) : list face :=
  let '(pl, lngn, opp) := r in zip_with (fun '(p, g) c => matched p g c) (zip pl lngn) opp.

(** The faces are those of the join, each with all the opposite faces it has received. *)
Lemma with_opposite_faces j cands r : length (pj_pl j) = length (pj_lngn j) -> length cands = length (pj_pl j) -> with_opposite j cands = Ret r ->
  faces_of_arrays r ≡ₚ concat (zip_with (fun '(p, g) cs => map (matched p g) (filter (fun c => c_join c <> pj_id j) cs)) (zip (pj_pl j) (pj_lngn j)) cands) /\
  length r.1.1 = length r.2 /\ length r.1.2 = length r.2.
Proof.
  intros Hl Hc. unfold with_opposite. destruct (mapM _ (zip (pj_pl j) cands)) as [opps|] eqn:Eo; [|done]. cbn [mbind py_bind]. destruct (mapM _ opps) as [firsts|] eqn:Ef; [|done]. cbn [mbind py_bind]. intros [= <-].
  apply py_mapM_Ret in Eo. apply py_mapM_Ret in Ef. set (lngn := pj_lngn j) in *. set (pl := pj_pl j) in *.
  assert (Hopp : opps = map (filter (fun c => c_join c <> pj_id j)) cands).
  { clear -Eo Hc. clearbody pl. revert opps pl Hc Eo. induction cands as [|cs cands IH]; intros opps [|p pl] Hc Eo; [by inversion Eo|done|done|]. cbn in Eo. inversion Eo as [|x opp l opps' H1 H2]; subst. cbn. f_equal; [|apply (IH _ pl); [by injection Hc|done]].
    unfold opposite_faces, py_assert in H1. repeat case_bool_decide; cbn in H1; [by injection H1 as <-|done..]. }
  assert (Hheads : Forall2 (fun opp c => exists rest, opp = c :: rest) opps firsts) by (eapply Forall2_impl; [exact Ef|]; intros [|c0 rest] c Hh; [done|]; cbn in Hh; injection Hh as <-; by eexists).
  assert (Hlo : length opps = length pl) by (rewrite Hopp, length_map; done). pose proof (Forall2_length _ _ _ Ef) as Hlf.
  set (others := concat _). cbn [faces_of_arrays fst snd].
  assert (Hzip : zip_with (fun '(p, g) c => matched p g c) (zip (pl ++ map (fun x : Z * Z * candidate => x.1.1) others) (lngn ++ map (fun x => x.1.2) others)) (firsts ++ map snd others) =
    zip_with (fun '(p, g) c => matched p g c) (zip pl lngn) firsts ++ map (fun x => matched x.1.1 x.1.2 x.2) others).
  { rewrite zip_with_app by done. rewrite zip_with_app by (rewrite length_zip_with; lia). f_equal. clear. induction others as [|[[p g] c] others IH]; [done|]. cbn. f_equal. exact IH. }
  split; [|split; rewrite !length_app, !length_map; lia]. rewrite Hzip. unfold others. clear Hzip others Eo Ef.
  assert (Hgoal : forall pl lngn opps firsts, length pl = length lngn -> length opps = length pl -> Forall2 (fun (opp : list candidate) c => exists rest, opp = c :: rest) opps firsts ->
    zip_with (fun '(p, g) c => matched p g c) (zip pl lngn) firsts ++ map (fun x : Z * Z * candidate => matched x.1.1 x.1.2 x.2) (concat (map (fun '(p, g, opp) => map (fun c => (p, g, c)) (tail opp)) (zip (zip pl lngn) opps))) ≡ₚ
    concat (zip_with (fun '(p, g) opp => map (matched p g) opp) (zip pl lngn) opps)).
  { clear. induction pl as [|p pl IH]; intros [|g lngn] [|opp opps] firsts Hl Ho Hh; try done. inversion Hh as [|? c ? firsts' [rest ->] Hh']; subst. cbn. f_equiv. cbn in Hl, Ho. rewrite map_app, map_map. cbn.
    rewrite <- (IH lngn opps firsts') by (done || lia). rewrite !app_assoc. f_equiv. apply Permutation_app_comm. }
  rewrite (Hgoal pl lngn opps firsts) by (done || lia). rewrite Hopp. clear. generalize (zip pl lngn) as l. intros l. revert cands. induction l as [|[p g] l IH]; intros [|cs cands]; [done..|]. cbn. f_equiv. apply IH.
Qed.

(** ** Both sides of an interface *)

Lemma bind_swap {A B C} (h : A -> B -> list C) la lb : (la ≫= fun x => lb ≫= fun y => h x y) ≡ₚ (lb ≫= fun y => la ≫= fun x => h x y).
Proof.
  induction la as [|x la IH]; cbn; [by induction lb|]. rewrite IH. clear IH. induction lb as [|y lb IH]; [done|]. cbn. rewrite <- IH, <- !app_assoc. f_equiv. rewrite !app_assoc. f_equiv. apply Permutation_app_comm.
Qed.
Lemma filter_bind {A B} (P : B -> Prop) `{!forall x, Decision (P x)} (f : A -> list B) l : filter P (l ≫= f) = (l ≫= fun x => filter P (f x)).
Proof. induction l as [|x l IH]; [done|]. cbn. by rewrite filter_app, IH. Qed.
Lemma bind_perm {A B} (f g : A -> list B) l : (forall x, x ∈ l -> f x ≡ₚ g x) -> (l ≫= f) ≡ₚ (l ≫= g).
Proof. induction l as [|x l IH]; intros Hfg; [done|]. cbn. rewrite (Hfg x) by by left. f_equiv. apply IH. intros y Hy. apply Hfg. by right. Qed.
Lemma map_of_bind {A B C} (g : B -> C) (f : A -> list B) l : map g (l ≫= f) = (l ≫= fun x => map g (f x)).
Proof. induction l as [|x l IH]; [done|]. cbn. by rewrite map_app, IH. Qed.
Lemma bind_nil {A B} (f : A -> list B) l : (forall x, x ∈ l -> f x = []) -> l ≫= f = [].
Proof. induction l as [|x l IH]; intros Hf; [done|]. cbn. rewrite (Hf x) by by left. apply IH. intros y Hy. apply Hf. by right. Qed.
Lemma NoDup_fmap_inj {A B} (f : A -> B) l x y : NoDup (f <$> l) -> x ∈ l -> y ∈ l -> f x = f y -> x = y.
Proof.
  intros Hn Hx Hy E. apply list_elem_of_lookup in Hx as [i Hi]. apply list_elem_of_lookup in Hy as [k Hk]. assert (i = k) as <-; [|congruence].
  eapply NoDup_lookup; [exact Hn|rewrite list_lookup_fmap, Hi; done|]. rewrite list_lookup_fmap, Hk. cbn. by rewrite E.
Qed.
(** What only one element gives. *)
Lemma bind_only {A B} (f : A -> list B) l x : NoDup l -> x ∈ l -> (forall y, y ∈ l -> y <> x -> f y = []) -> l ≫= f = f x.
Proof.
  intros Hn Hx Hf. induction l as [|y l IH]; [set_solver|]. apply NoDup_cons in Hn as [Hy Hn]. cbn.
  apply elem_of_cons in Hx as [->|Hx]; [rewrite (bind_nil f l); [apply app_nil_r|]; intros z Hz; apply Hf; [by right|by intros ->]|]. rewrite (Hf y) by (by left || by intros ->). apply IH; [done|done|]. intros z Hz. apply Hf. by right.
Qed.

(** The joins of the two sides: [cross a b] are the pairs of faces of same global number. *)
Definition faces_in (j : part_join) : list (Z * Z) := zip (pj_pl j) (pj_lngn j).
Definition cross (a b : part_join) : list face :=
  faces_in a ≫= fun x => faces_in b ≫= fun y => if decide (x.2 = y.2) then [Face x.1 y.1 x.2 (part_of b)] else [].
Lemma cross_flipped a b : cross a b ≡ₚ map (flipped (part_of b)) (cross b a).
Proof.
  unfold cross. rewrite bind_swap, map_of_bind. apply bind_perm. intros y _. rewrite map_of_bind. apply bind_perm. intros x _. cbn. unfold flipped.
  destruct (decide (x.2 = y.2)) as [E|E]; [rewrite decide_True by done; cbn; by rewrite E|by rewrite decide_False].
Qed.

(** Joins of a partitioned tree: one join per side and partition, global numbers that are shared only by the joins of
    an interface, and all the faces on both sides. *)
Record joins_ok (js : list part_join) : Prop := {
  jo_nodup : NoDup (map (fun j => (part_of j, pj_id j)) js);
  jo_numbers : forall j k x y, j ∈ js -> k ∈ js -> x ∈ pj_lngn j -> y ∈ pj_lngn k -> x + pj_shift j = y + pj_shift k -> pj_id j / 2 = pj_id k / 2;
  jo_shift : forall j k, j ∈ js -> k ∈ js -> pj_id j / 2 = pj_id k / 2 -> pj_shift j = pj_shift k;
  jo_length : forall j, j ∈ js -> length (pj_pl j) = length (pj_lngn j);
  jo_pl : forall j, j ∈ js -> NoDup (pj_pl j);
  jo_lngn : forall j, j ∈ js -> NoDup (pj_lngn j);
  jo_opposite : forall j g, j ∈ js -> g ∈ pj_lngn j -> exists k, k ∈ js /\ pj_id k / 2 = pj_id j / 2 /\ pj_id k <> pj_id j /\ g ∈ pj_lngn k }.

Section joins.
Context (joins : list (list part_join)) (Hjoins : joins_ok (concat joins)).
Definition cand_of (j : part_join) (p : Z) : candidate := Candidate p (pj_rank j) (pj_part j) (pj_id j).

Lemma same_gnum_joins n : same_gnum (map (map sends) joins) n = concat joins ≫= fun j => faces_in j ≫= fun x => if decide (x.2 + pj_shift j = n) then [cand_of j x.1] else [].
Proof using Type.
  unfold same_gnum. rewrite <- concat_map. generalize (concat joins). intros js. induction js as [|j js IH]; [done|]. cbn. rewrite filter_app, map_app, IH. f_equal. clear IH. unfold sends, faces_in. generalize (pj_pl j), (pj_lngn j).
  intros pl. induction pl as [|p pl IH]; intros [|g lngn]; [done..|]. cbn [zip_with]. rewrite filter_cons. cbn [fst mbind list_bind snd]. destruct (decide (g + pj_shift j = n)); cbn; [f_equal|]; apply IH.
Qed.

Lemma lngn_in j x : x ∈ faces_in j -> x.1 ∈ pj_pl j /\ x.2 ∈ pj_lngn j.
Proof using Type. unfold faces_in. destruct x as [p g]. intros Hx. split; [by eapply elem_of_zip_l|by eapply elem_of_zip_r]. Qed.

(** Towards a partition, a face has received the faces of the opposite join with the same global number. *)
Lemma towards_received ja jb x : ja ∈ concat joins -> jb ∈ concat joins -> pj_id ja / 2 = pj_id jb / 2 -> pj_id ja <> pj_id jb -> x ∈ faces_in ja ->
  filter (fun c => (c_rank c, c_part c) = part_of jb) (filter (fun c => c_join c <> pj_id ja) (same_gnum (map (map sends) joins) (x.2 + pj_shift ja))) =
  faces_in jb ≫= fun y => if decide (x.2 = y.2) then [cand_of jb y.1] else [].
Proof using Hjoins.
  intros Ha Hb Hi Hne Hx. rewrite same_gnum_joins, !filter_bind. rewrite (bind_only _ _ jb); [|eapply NoDup_fmap_1; exact (jo_nodup _ Hjoins)|done|].
  - rewrite !filter_bind. pose proof (jo_shift _ Hjoins _ _ Ha Hb Hi) as Hs. induction (faces_in jb) as [|y l IH]; [done|]. cbn. rewrite IH. f_equal.
    destruct (decide (x.2 = y.2)) as [E|E]; [rewrite decide_True by lia|by rewrite decide_False by lia]. rewrite filter_cons. cbn [cand_of c_join]. rewrite decide_True by congruence. rewrite filter_nil, filter_cons. by rewrite decide_True.
  - intros j Hj Hjb. rewrite !filter_bind. apply lngn_in in Hx as [_ Hx].
    assert (Hnil : forall y, y ∈ faces_in j -> filter (fun c => (c_rank c, c_part c) = part_of jb) (filter (fun c => c_join c <> pj_id ja) (if decide (y.2 + pj_shift j = x.2 + pj_shift ja) then [cand_of j y.1] else [])) = []).
    { intros y Hy. apply lngn_in in Hy as [_ Hy]. destruct (decide _) as [E|E]; [|done]. pose proof (jo_numbers _ Hjoins j ja y.2 x.2 Hj Ha Hy Hx E) as Hij. rewrite filter_cons. cbn [cand_of c_join]. destruct (decide (pj_id j <> pj_id ja)) as [Hid|Hid]; [|done]. rewrite filter_nil, filter_cons. cbn [cand_of c_rank c_part].
      destruct (decide _) as [Hp|Hp]; [|done]. exfalso. apply Hjb. assert (pj_id j = pj_id jb) by (Z.div_mod_to_equations; lia).
      eapply (NoDup_fmap_inj _ _ _ _ (jo_nodup _ Hjoins)); [done|done|]. cbn. f_equal; [exact Hp|done]. }
    apply bind_nil. exact Hnil.
Qed.

Lemma sends_faces j : length (pj_pl j) = length (pj_lngn j) -> sends j = map (fun x => (x.2 + pj_shift j, cand_of j x.1)) (faces_in j).
Proof using Type. unfold sends, faces_in. generalize (pj_pl j), (pj_lngn j). intros pl. induction pl as [|p pl IH]; intros [|g lngn] Hl; [done..|]. cbn in *. f_equal. apply IH. lia. Qed.
Definition received (j : part_join) (cs : list (list candidate)) : Prop :=
  Forall2 (fun x l => l ≡ₚ same_gnum (map (map sends) joins) x.1) (sends j) cs.
Lemma received_faces j cs : j ∈ concat joins -> received j cs ->
  Forall2 (fun x l => l ≡ₚ same_gnum (map (map sends) joins) (x.2 + pj_shift j)) (faces_in j) cs.
Proof using Hjoins. intros Hj Hr. unfold received in Hr. rewrite sends_faces in Hr by by apply (jo_length _ Hjoins). by apply Forall2_fmap_l in Hr. Qed.

Lemma own_face j x : j ∈ concat joins -> x ∈ faces_in j -> cand_of j x.1 ∈ same_gnum (map (map sends) joins) (x.2 + pj_shift j).
Proof using Type. intros Hj Hx. rewrite same_gnum_joins. apply list_elem_of_bind. exists j. split; [|done]. apply list_elem_of_bind. exists x. split; [|done]. rewrite decide_True by done. by left. Qed.

(** The recovery succeeds: the face is among what it receives, with a face of the opposite side. *)
Lemma with_opposite_total j cs : j ∈ concat joins -> received j cs -> exists r, with_opposite j cs = Ret r.
Proof using Hjoins.
  intros Hj Hr. apply received_faces in Hr; [|done]. pose proof (jo_length _ Hjoins j Hj) as Hl. pose proof (Forall2_length _ _ _ Hr) as Hlc. unfold faces_in in Hlc. rewrite length_zip_with in Hlc.
  assert (Ho : Forall2 (fun x opp => (let '(p, c) := x in opposite_faces j p c) = Ret opp /\ opp <> []) (zip (pj_pl j) cs) (map (filter (fun c => c_join c <> pj_id j)) cs)).
  { assert (Hin : Forall (fun x => x ∈ faces_in j) (faces_in j)) by by apply Forall_forall. revert Hr Hin Hl Hlc. unfold faces_in at 1 3. generalize (pj_pl j) as pl, (pj_lngn j) as lngn. intros pl. revert cs. induction pl as [|p pl IH]; intros cs [|g lngn] Hr Hin Hl Hlc; try done.
    - by destruct cs.
    - destruct cs as [|c cs]; [done|]. cbn [zip_with map] in *. inversion Hr as [|? ? ? ? Hc Hr']; subst. apply Forall_cons in Hin as [Hx Hin]. constructor; [|eapply IH; [exact Hr'|exact Hin|by injection Hl|by injection Hlc]].
      cbn [fst snd] in *. destruct (jo_opposite _ Hjoins j g Hj (proj2 (lngn_in _ _ Hx))) as (k & Hk & Hik & Hidk & Hg).
      assert (Hopp : exists p', cand_of k p' ∈ filter (fun c => c_join c <> pj_id j) c).
      { apply list_elem_of_lookup in Hg as [i Hi]. destruct (lookup_lt_is_Some_2 (pj_pl k) i) as [p' Hp']; [rewrite (jo_length _ Hjoins k Hk); by eapply lookup_lt_Some|]. exists p'. apply list_elem_of_filter. split; [exact Hidk|]. rewrite Hc, <- (jo_shift _ Hjoins k j Hk Hj Hik).
        apply (own_face k (p', g)); [done|]. apply list_elem_of_lookup. exists i. unfold faces_in. apply lookup_zip_with_Some. by exists p', g. }
      destruct Hopp as [p' Hp']. assert (Hself : cand_of j p ∈ c) by (rewrite Hc; by apply (own_face j (p, g))). split; [|by intros E; rewrite E in Hp'; apply elem_of_nil in Hp'].
      unfold opposite_faces. unfold cand_of in Hself. rewrite (bool_decide_eq_true_2 (_ ∈ _)), (bool_decide_eq_true_2 (1 <= _)); [done| |done]. destruct (filter _ c); [by apply elem_of_nil in Hp'|unfold zlen; cbn [length]; lia]. }
  unfold with_opposite. rewrite (proj2 (py_mapM_Ret _ _ _) (Forall2_impl _ _ _ _ Ho (fun _ _ H => proj1 H))). cbn [mbind py_bind].
  assert (Hh : exists firsts, mapM (fun opp => of_option IndexError (head opp)) (map (filter (fun c => c_join c <> pj_id j)) cs) = Ret firsts).
  { clear -Ho. induction Ho as [|x opp l opps [_ Hne] Ho [firsts IH]]; [by exists []|]. destruct opp as [|c opp]; [done|]. exists (c :: firsts). cbn. by rewrite IH. }
  destruct Hh as [firsts ->]. cbn. eexists. reflexivity.
Qed.

Lemma concat_received {B} (F : Z * Z -> list candidate -> list B) (S : Z * Z -> list candidate) l cs :
  (forall x, Proper ((≡ₚ) ==> (≡ₚ)) (F x)) -> Forall2 (fun x c => c ≡ₚ S x) l cs -> concat (zip_with F l cs) ≡ₚ l ≫= fun x => F x (S x).
Proof using Type. intros HF. induction 1 as [|x c l cs Hc _ IH]; [done|]. cbn. by rewrite Hc, IH. Qed.

(** The faces recovered towards a partition are the pairs of faces of the two joins. *)
Lemma recovered_towards ja jb cs r : ja ∈ concat joins -> jb ∈ concat joins -> pj_id ja / 2 = pj_id jb / 2 -> pj_id ja <> pj_id jb ->
  received ja cs -> with_opposite ja cs = Ret r -> towards (part_of jb) (faces_of_arrays r) ≡ₚ cross ja jb.
Proof using Hjoins.
  intros Ha Hb Hi Hne Hr Hw. apply received_faces in Hr; [|done]. pose proof (jo_length _ Hjoins ja Ha) as Hl. pose proof (Forall2_length _ _ _ Hr) as Hlc. unfold faces_in in Hlc. rewrite length_zip_with in Hlc.
  destruct (with_opposite_faces ja cs r Hl ltac:(lia) Hw) as [Hf _]. unfold towards. rewrite Hf. fold (faces_in ja).
  rewrite (concat_received (fun '(p, g) c => map (matched p g) (filter (fun c => c_join c <> pj_id ja) c)) (fun x => same_gnum (map (map sends) joins) (x.2 + pj_shift ja))); [|intros [p g] c c' Hc; by rewrite Hc|done].
  rewrite filter_bind. unfold cross. apply bind_perm. intros [p g] Hx. cbn [fst snd]. rewrite <- (towards_received ja jb (p, g)) || idtac.
  pose proof (towards_received ja jb (p, g) Ha Hb Hi Hne Hx) as Ht. cbn [fst snd] in Ht.
  assert (Hmap : forall l, filter (fun f => f_donor f = part_of jb) (map (matched p g) l) = map (matched p g) (filter (fun c => (c_rank c, c_part c) = part_of jb) l)).
  { clear. induction l as [|c l IH]; [done|]. cbn [map]. rewrite !filter_cons. cbn [matched f_donor]. destruct (decide _); cbn; by rewrite IH. }
  rewrite Hmap, Ht, map_of_bind. apply bind_perm. intros y _. by destruct (decide _).
Qed.
End joins.

(** A face has at most one opposite face in a partition. *)
Lemma cross_faces b x : length (pj_pl b) = length (pj_lngn b) -> NoDup (pj_lngn b) ->
  exists q, (faces_in b ≫= fun y => if decide (x.2 = y.2) then [Face x.1 y.1 x.2 (part_of b)] else []) =
    if decide (x.2 ∈ pj_lngn b) then [Face x.1 q x.2 (part_of b)] else [].
Proof.
  unfold faces_in. generalize (part_of b) (pj_pl b) (pj_lngn b). clear b. intros part pl. induction pl as [|p pl IH]; intros [|g lngn] Hl Hn; try done.
  - exists 0. rewrite decide_False by by apply not_elem_of_nil. done.
  - apply NoDup_cons in Hn as [Hg Hn]. destruct (IH lngn ltac:(by injection Hl) Hn) as [q Hq]. cbn [zip_with mbind list_bind fst snd]. rewrite Hq. destruct (decide (x.2 = g)) as [E|E].
    + exists p. rewrite decide_False by by rewrite E. rewrite decide_True by (rewrite E; by left). done.
    + exists q. cbn. destruct (decide (x.2 ∈ lngn)) as [E'|E']; [by rewrite decide_True by by right|]. rewrite decide_False; [done|]. by rewrite not_elem_of_cons.
Qed.
Lemma cross_nodup a b : length (pj_pl b) = length (pj_lngn b) -> NoDup (pj_pl a) -> NoDup (pj_lngn b) -> NoDup (f_pl <$> cross a b).
Proof.
  intros Hl Ha Hb. assert (Hn : NoDup ((faces_in a).*1)).
  { eapply sublist_NoDup; [exact Ha|]. unfold faces_in. generalize (pj_lngn a). induction (pj_pl a) as [|p pl IH]; intros [|g l]; cbn; [constructor|constructor|apply sublist_nil_l|]. apply sublist_skip, IH. by apply NoDup_cons in Ha as [_ Ha]. }
  unfold cross. induction (faces_in a) as [|x l IH]; [constructor|]. rewrite fmap_cons in Hn. apply NoDup_cons in Hn as [Hx Hn]. cbn [mbind list_bind]. destruct (cross_faces b x Hl Hb) as [q ->]. destruct (decide _); [|by apply IH].
  rewrite fmap_app. apply NoDup_cons. split; [|by apply IH]. intros Hin. apply Hx. apply list_elem_of_fmap in Hin as (f & Ef & Hf). apply list_elem_of_bind in Hf as (y & Hf & Hy). destruct (cross_faces b y Hl Hb) as [q' Eq]. rewrite Eq in Hf. destruct (decide _); [|by apply elem_of_nil in Hf].
  apply list_elem_of_singleton in Hf as ->. cbn in Ef. rewrite Ef. by apply list_elem_of_fmap_2.
Qed.
Lemma cross_gnum a b : length (pj_pl a) = length (pj_lngn a) -> length (pj_pl b) = length (pj_lngn b) -> NoDup (pj_lngn b) ->
  f_gnum <$> cross a b = filter (fun g => g ∈ pj_lngn b) (pj_lngn a).
Proof.
  intros Ha Hb Hn. unfold cross. assert (E : (faces_in a).*2 = pj_lngn a) by (apply snd_zip; lia). rewrite <- E. clear E Ha. induction (faces_in a) as [|x l IH]; [done|]. rewrite fmap_cons, filter_cons. cbn [mbind list_bind]. destruct (cross_faces b x Hb Hn) as [q ->].
  rewrite fmap_app, IH. by destruct (decide _).
Qed.

(** The arrays of [get_pl_donor] for a join, as [split_original_joins] reads them. *)
Definition sub_join_of (argsort : list Z -> list nat) (r : list Z * list Z * list candidate) (is_ref : bool) (part : Z * Z) :=
  sub_join argsort (one_row r.1.1) (one_row (map c_pl r.2)) r.1.2 (map (fun c => (c_rank c, c_part c)) r.2) is_ref part.
Lemma sub_join_faces argsort r is_ref part : length r.1.1 = length r.2 -> length r.1.2 = length r.2 ->
  sub_join_of argsort r is_ref part =
  let fs := faces_of_arrays r in sub_join argsort (one_row (map f_pl fs)) (one_row (map f_pld fs)) (map f_gnum fs) (map f_donor fs) is_ref part.
Proof.
  destruct r as [[pl lngn] opp]. cbn [fst snd]. intros H1 H2. unfold sub_join_of. cbn [fst snd faces_of_arrays].
  assert (Hf : forall fs, fs = zip_with (fun '(p, g) c => matched p g c) (zip pl lngn) opp -> map f_pl fs = pl /\ map f_pld fs = map c_pl opp /\ map f_gnum fs = lngn /\ map f_donor fs = map (fun c => (c_rank c, c_part c)) opp).
  { revert lngn opp H1 H2. induction pl as [|p pl IH]; intros [|g lngn] [|c opp] H1 H2 fs ->; try done. cbn. destruct (IH lngn opp ltac:(by injection H1) ltac:(by injection H2) _ eq_refl) as (-> & -> & -> & ->). done. }
  destruct (Hf _ eq_refl) as (-> & -> & -> & ->). done.
Qed.

Definition at_rank {A} (l : list (list A)) (rank k : nat) : option A := l !! rank ≫= fun row => row !! k.
Lemma at_rank_in {A} (l : list (list A)) rank k x : at_rank l rank k = Some x -> x ∈ concat l.
Proof. unfold at_rank. intros E. destruct (l !! rank) as [row|] eqn:Er; [|done]. apply list_elem_of_lookup_2 in Er, E. apply list_elem_of_In, in_concat. exists row. by rewrite <- !list_elem_of_In. Qed.

Lemma received_length joins j cs : joins_ok (concat joins) -> j ∈ concat joins -> received joins j cs -> length cs = length (pj_pl j).
Proof.
  intros Hok Hj Hr. apply Forall2_length in Hr. rewrite <- Hr. unfold sends. rewrite length_zip_with, (jo_length _ Hok j Hj). lia.
Qed.

(** One process that has all the faces at hand. *)
Definition seq_exchange : gnum_exchange := fun sent => map (map (map (fun x => same_gnum sent x.1))) sent.
Lemma seq_exchange_law : gnum_exchange_law seq_exchange.
Proof.
  assert (Hr : forall {A B} (R : A -> B -> Prop) f, (forall x, R x (f x)) -> forall l, Forall2 R l (map f l)) by (intros A B R f Hf l; induction l; by constructor).
  intros sent. unfold gather_same, seq_exchange. do 3 (apply Hr; intros ?). done.
Qed.
(** An interface between a zone on the rank 0 and the two partitions of a zone on the rank 1. *)
Definition two_sides : list (list part_join) :=
  [[PartJoin 0 0 0 10 [7; 8; 9] [1; 2; 3]]; [PartJoin 1 0 1 10 [4] [2]; PartJoin 1 1 1 10 [5; 6] [3; 1]]].
Lemma two_sides_ok : joins_ok (concat two_sides).
Proof.
  assert (Hall : forall P : part_join -> Prop, Forall P (concat two_sides) -> forall j, j ∈ concat two_sides -> P j) by (intros P HP; by apply Forall_forall).
  assert (Hid : forall j, j ∈ concat two_sides -> pj_id j / 2 = 0) by (apply (Hall (fun j => pj_id j / 2 = 0)); by repeat constructor).
  assert (Hs : forall j, j ∈ concat two_sides -> pj_shift j = 10) by (apply (Hall (fun j => pj_shift j = 10)); by repeat constructor).
  split.
  - apply (bool_decide_unpack _); vm_compute; exact I.
  - intros j k x y Hj Hk _ _ _. by rewrite (Hid j Hj), (Hid k Hk).
  - intros j k Hj Hk _. by rewrite (Hs j Hj), (Hs k Hk).
  - apply Hall. by repeat constructor.
  - apply (Hall (fun j => NoDup (pj_pl j))). apply (bool_decide_unpack _); vm_compute; exact I.
  - apply (Hall (fun j => NoDup (pj_lngn j))). apply (bool_decide_unpack _); vm_compute; exact I.
  - intros j g Hj Hg. assert (Hx : Exists (fun k => pj_id k / 2 = pj_id j / 2 /\ pj_id k <> pj_id j /\ g ∈ pj_lngn k) (concat two_sides)); [|apply Exists_exists in Hx as (k & Hk & Hx); by exists k].
    assert (Hopp : Forall (fun j => Forall (fun g => Exists (fun k => pj_id k / 2 = pj_id j / 2 /\ pj_id k <> pj_id j /\ g ∈ pj_lngn k) (concat two_sides)) (pj_lngn j)) (concat two_sides)) by (apply (bool_decide_unpack _); vm_compute; exact I).
    rewrite Forall_forall in Hopp. pose proof (Hopp j Hj) as Hj'. rewrite Forall_forall in Hj'. by apply Hj'.
Qed.

(** C26: the joins of a partitioned tree are recovered on the two sides, and the sub-joins of two opposite partitions
    have exchanged point lists and the same global numbers, the ones that the two partitions share. *)
Theorem split_joins_exchanged (argsort : list Z -> list nat) (E : gnum_exchange) (joins : list (list part_join)) ra ka rb kb ja jb (a_is_ref : bool) :
  argsort_ok argsort -> gnum_exchange_law E -> joins_ok (concat joins) ->
  at_rank joins ra ka = Some ja -> at_rank joins rb kb = Some jb -> pj_id ja / 2 = pj_id jb / 2 -> pj_id ja <> pj_id jb ->
  exists ca cb fa fb pl pld g,
    at_rank (gather_same (map (map sends) joins)) ra ka = Some ca /\ at_rank (gather_same (map (map sends) joins)) rb kb = Some cb /\
    with_opposite ja ca = Ret fa /\ with_opposite jb cb = Ret fb /\
    sub_join_of argsort fa a_is_ref (part_of jb) = Ret (pl, pld, g) /\
    sub_join_of argsort fb (negb a_is_ref) (part_of ja) = Ret (pld, pl, g) /\
    g ≡ₚ filter (fun x => x ∈ pj_lngn jb) (pj_lngn ja).
Proof.
  intros Ha HE Hok Eja Ejb Hi Hne. pose proof (at_rank_in _ _ _ _ Eja) as Hja. pose proof (at_rank_in _ _ _ _ Ejb) as Hjb.
  assert (Hrec : forall r k j, at_rank joins r k = Some j -> exists c, at_rank (gather_same (map (map sends) joins)) r k = Some c /\ received joins j c).
  { intros r k j Ej. unfold at_rank in *. destruct (joins !! r) as [js|] eqn:Er; [|done]. cbn in Ej. pose proof (HE (map (map sends) joins)) as HL.
    assert (Er' : map (map sends) joins !! r = Some (map sends js)) by (change (@map) with (fun A B => @fmap list _ A B); cbn beta; rewrite list_lookup_fmap, Er; done).
    destruct (Forall2_lookup_l _ _ _ _ _ HL Er') as (cs & -> & Hcs). assert (Ej' : map sends js !! k = Some (sends j)) by (change (@map) with (fun A B => @fmap list _ A B); cbn beta; rewrite list_lookup_fmap, Ej; done).
    destruct (Forall2_lookup_l _ _ _ _ _ Hcs Ej') as (c & Ec & Hc). by exists c. }
  destruct (Hrec _ _ _ Eja) as (ca & Eca & Hca). destruct (Hrec _ _ _ Ejb) as (cb & Ecb & Hcb).
  destruct (with_opposite_total joins Hok ja ca Hja Hca) as [fa Efa]. destruct (with_opposite_total joins Hok jb cb Hjb Hcb) as [fb Efb].
  pose proof (recovered_towards joins Hok ja jb ca fa Hja Hjb Hi Hne Hca Efa) as Ta. pose proof (recovered_towards joins Hok jb ja cb fb Hjb Hja (eq_sym Hi) (not_eq_sym Hne) Hcb Efb) as Tb.
  destruct (with_opposite_faces ja ca fa) as (_ & A1 & A2); [by apply (jo_length _ Hok)|by eapply received_length|done|]. destruct (with_opposite_faces jb cb fb) as (_ & B1 & B2); [by apply (jo_length _ Hok)|by eapply received_length|done|].
  destruct (sub_joins_exchanged argsort Ha (faces_of_arrays fa) (faces_of_arrays fb) (part_of ja) (part_of jb) a_is_ref) as (pl & pld & g & Sa & Sb & Hg).
  - rewrite Ta, cross_flipped. change (@map) with (fun A B => @fmap list _ A B). cbn beta. by rewrite Tb.
  - destruct a_is_ref; rewrite Ta.
    + apply cross_nodup; [by apply (jo_length _ Hok)|by apply (jo_pl _ Hok)|by apply (jo_lngn _ Hok)].
    + rewrite cross_flipped. change (@map) with (fun A B => @fmap list _ A B). cbn beta. rewrite <- list_fmap_compose. apply cross_nodup; [by apply (jo_length _ Hok)|by apply (jo_pl _ Hok)|by apply (jo_lngn _ Hok)].
  - exists ca, cb, fa, fb, pl, pld, g. rewrite !sub_join_faces by done. repeat (split; [done|]). by rewrite Hg, Ta, cross_gnum by (apply (jo_length _ Hok) || apply (jo_lngn _ Hok); done).
Qed.
Lemma split_joins_exchanged_witness : exists ca cb fa fb pl pld g,
    at_rank (gather_same (gnum_exchange := seq_exchange) (map (map sends) two_sides)) 0 0 = Some ca /\ at_rank (gather_same (gnum_exchange := seq_exchange) (map (map sends) two_sides)) 1 1 = Some cb /\
    with_opposite (PartJoin 0 0 0 10 [7; 8; 9] [1; 2; 3]) ca = Ret fa /\ with_opposite (PartJoin 1 1 1 10 [5; 6] [3; 1]) cb = Ret fb /\
    sub_join_of argsort_stable fa true (1, 1) = Ret (pl, pld, g) /\ sub_join_of argsort_stable fb false (0, 0) = Ret (pld, pl, g) /\
    g ≡ₚ filter (fun x => x ∈ [3; 1]) [1; 2; 3].
Proof. exact (split_joins_exchanged argsort_stable seq_exchange two_sides 0 0 1 1 _ _ true argsort_stable_ok seq_exchange_law two_sides_ok eq_refl eq_refl eq_refl ltac:(done)). Defined.
End PostSplitSpec.
