(* ===== verification/BlockToBlock.v ===== *)
(** * Redistribution of arrays: [maia/transfer/_protocols/block_to_block.py] and the calls of [protocols.py]

    An array cut in blocks by a distribution is cut again by another one: each rank sends to each other one the part
    of its block that the other one gets.  A communicator is seen from above, as in Distribution: an exchange takes
    the buffers of all the ranks.  [Alltoallv] is written from its definition in MPI: counts that do not agree between
    a sender and a receiver, or that exceed the buffer, are an error. *)
From S2P Require Import Prelude NpUtils Distribution Protocols.

Local Open Scope Z_scope.

Module BlockToBlock.
Import Distribution Protocols.

(** ** Alltoallv *)

(** The consecutive parts of a buffer of the given sizes. *)
Fixpoint split_counts {A} (counts : list Z) (l : list A) : py (list (list A)) :=
  match counts with
  | [] => Ret []
  | c :: counts' =>
      if bool_decide (0 <= c <= zlen l) then rest ← split_counts counts' (drop (Z.to_nat c) l); Ret (take (Z.to_nat c) l :: rest)
      else Raise RuntimeError
  end.
(** What the rank [i] receives: a part from each rank, of the size it expects. *)
Definition received_by {A} (parts : list (list (list A))) (i : nat) (recv_counts : list Z) : py (list A) :=
  column ← mapM (fun row : list (list A) => of_option RuntimeError (row !! i)) parts;
  if bool_decide (map zlen column = recv_counts) then Ret (concat column) else Raise RuntimeError.
Definition Alltoallv {A} (data_in : list (list A)) (send_counts recv_counts : list (list Z)) : py (list (list A)) :=
  parts ← mapM (fun p : list A * list Z => split_counts p.2 p.1) (zip data_in send_counts);
  mapM (fun p : nat * list Z => received_by parts p.1 p.2) (imap pair recv_counts).

(** ** BlockToBlock *)

Definition _overlap_size (start1 end1 start2 end2 : Z) : Z := Z.max (Z.min end1 end2 - Z.max start1 start2) 0.

(** The object of a rank. *)
Record block_to_block_obj := BTB { dn_in : Z; dn_out : Z; send_counts : list Z; recv_counts : list Z }.

(** The overlaps of an interval with those of a distribution. *)
Definition overlaps (start stop : Z) (distri : list Z) : list Z :=
  zip_with (fun lo hi => _overlap_size start stop lo hi) distri (tail distri).
Definition BlockToBlock_init (distri_in distri_out : list Z) (rank size : Z) : py block_to_block_obj :=
  _ ← py_assert (bool_decide (zlen distri_in = zlen distri_out /\ zlen distri_out = size + 1));
  in0 ← py_get distri_in rank; in1 ← py_get distri_in (rank + 1);
  out0 ← py_get distri_out rank; out1 ← py_get distri_out (rank + 1);
  let self := BTB (in1 - in0) (out1 - out0) (overlaps in0 in1 distri_out) (overlaps out0 out1 distri_in) in
  _ ← py_assert (bool_decide (zsum (send_counts self) = dn_in self));
  _ ← py_assert (bool_decide (zsum (recv_counts self) = dn_out self));
  Ret self.

Section exchange.
Context {A : Type}.
(** Constant stride. *)
Definition exchange (selfs : list block_to_block_obj) (data_in : list (list A)) (stride_in : Z) : py (list (list A)) :=
  Alltoallv data_in (map (fun s => map (Z.mul stride_in) (send_counts s)) selfs) (map (fun s => map (Z.mul stride_in) (recv_counts s)) selfs).

(** The sums of the consecutive slices of an array of strides. *)
Fixpoint slice_sums (counts stride : list Z) : list Z :=
  match counts with [] => [] | c :: counts' => zsum (take (Z.to_nat c) stride) :: slice_sums counts' (drop (Z.to_nat c) stride) end.
(** Variable stride. *)
Definition exchange_strided (selfs : list block_to_block_obj) (data_in : list (list A)) (stride_in : list (list Z)) : py (list (list Z) * list (list A)) :=
  _ ← mapM (fun p : block_to_block_obj * list Z => py_assert (bool_decide (zlen p.2 = dn_in p.1))) (zip selfs stride_in);
  stride_out ← Alltoallv stride_in (map send_counts selfs) (map recv_counts selfs);
  data_out ← Alltoallv data_in (zip_with (fun s => slice_sums (send_counts s)) selfs stride_in) (zip_with (fun s => slice_sums (recv_counts s)) selfs stride_out);
  Ret (stride_out, data_out).
End exchange.

(** ** Calls *)

(** When the distributions are the same the data are copied.  [BlockToBlock(distri_in, distri_out, comm)] of the ranks:
    [None] is the copy; ranks that do not agree would wait for each other. *)
Definition BlockToBlock (d : dtype) (distri_in distri_out : list (list Z)) : py (option (list block_to_block_obj)) :=
  full_distri_in ← auto_expand_distri d distri_in;
  full_distri_out ← auto_expand_distri d distri_out;
  let pairs := zip full_distri_in full_distri_out in
  if forallb (fun p : list Z * list Z => bool_decide (p.1 = p.2)) pairs then Ret None
  else if forallb (fun p : list Z * list Z => bool_decide (p.1 <> p.2)) pairs then
    Some <$> mapM (fun p : nat * (list Z * list Z) => BlockToBlock_init p.2.1 p.2.2 (Z.of_nat p.1) (zlen distri_in)) (imap pair pairs)
  else Raise RuntimeError.
(** The field of each rank. *)
Definition block_to_block {A} (d : dtype) (data_in : list (list A)) (distri_in distri_out : list (list Z)) : py (list (list A)) :=
  btb ← BlockToBlock d distri_in distri_out;
  match btb with None => Ret data_in | Some selfs => exchange selfs data_in 1 end.

(** ** What is exchanged *)

(** Buffers that are the concatenation of what each rank gets. *)
Lemma split_counts_concat {A} (parts : list (list A)) : split_counts (map zlen parts) (concat parts) = Ret parts.
Proof.
  induction parts as [|p parts IH]; [done|]. cbn. rewrite bool_decide_eq_true_2 by (rewrite zlen_app; pose proof (zlen_nonneg p); pose proof (zlen_nonneg (concat parts)); lia).
  replace (Z.to_nat (zlen p)) with (length p) by (unfold zlen; lia). rewrite drop_app_length, IH. cbn. by rewrite take_app_length.
Qed.
(** [M r i]: what the rank [r] sends to the rank [i]. *)
Definition matrix {A} (n : nat) (M : nat -> nat -> list A) : list (list (list A)) := map (fun r => map (M r) (seq 0 n)) (seq 0 n).
Definition sent_to {A} (n : nat) (M : nat -> nat -> list A) (i : nat) : list A := concat (map (fun r => M r i) (seq 0 n)).
Lemma Alltoallv_spec {A} (n : nat) (M : nat -> nat -> list A) data_in sends recvs :
  data_in = map (@concat A) (matrix n M) -> sends = map (map zlen) (matrix n M) -> recvs = map (fun i => map (fun r => zlen (M r i)) (seq 0 n)) (seq 0 n) ->
  Alltoallv data_in sends recvs = Ret (map (sent_to n M) (seq 0 n)).
Proof.
  intros -> -> ->. unfold Alltoallv. assert (Hp : mapM (fun p : list A * list Z => split_counts p.2 p.1) (zip (map (@concat A) (matrix n M)) (map (map zlen) (matrix n M))) = Ret (matrix n M)).
  { induction (matrix n M) as [|row rows IH]; [done|]. cbn. rewrite split_counts_concat. cbn. by rewrite IH. }
  rewrite Hp. cbn [mbind py_bind]. apply py_mapM_lookup; [by rewrite length_imap, !length_map|].
  intros i [k counts] out Hi Ho. rewrite list_lookup_imap in Hi. change (@map) with (fun A B => @fmap list _ A B) in *. cbn beta in *. rewrite !list_lookup_fmap in *. destruct (seq 0 n !! i) as [i'|] eqn:Ei; [|done]. cbn in Hi, Ho.
  apply lookup_seq in Ei as [-> Hlt]. injection Hi as <- <-. injection Ho as <-. cbn [fst snd]. unfold received_by.
  assert (Hcol : mapM (fun row : list (list A) => of_option RuntimeError (row !! i)) (matrix n M) = Ret (map (fun r => M r i) (seq 0 n))).
  { unfold matrix. generalize (seq 0 n) at 2 3. intros l. induction l as [|r l IH]; [done|]. cbn [map]. assert (Hl : map (M r) (seq 0 n) !! i = Some (M r i)) by (change (@map) with (fun A B => @fmap list _ A B); cbn beta; by rewrite list_lookup_fmap, lookup_seq_lt).
    cbn [mapM]. rewrite Hl. cbn. by rewrite IH. }
  rewrite Hcol. cbn [mbind py_bind]. rewrite bool_decide_eq_true_2 by (cbn; by rewrite <- list_fmap_compose). done.
Qed.

(** ** Parts of an array *)

Definition part {A} (lo hi : Z) (l : list A) : list A := take (Z.to_nat hi - Z.to_nat lo) (drop (Z.to_nat lo) l).
Lemma part_nil {A} lo hi (l : list A) : hi <= lo -> part lo hi l = [].
Proof. intros H. unfold part. by replace (Z.to_nat hi - Z.to_nat lo)%nat with 0%nat by lia. Qed.
Lemma part_app {A} lo mid hi (l : list A) : lo <= mid <= hi -> part lo mid l ++ part mid hi l = part lo hi l.
Proof.
  intros H. unfold part. replace (Z.to_nat hi - Z.to_nat lo)%nat with ((Z.to_nat mid - Z.to_nat lo) + (Z.to_nat hi - Z.to_nat mid))%nat by lia.
  rewrite <- take_take_drop, drop_drop. do 3 f_equal. lia.
Qed.
Lemma zlen_part {A} lo hi (l : list A) : 0 <= lo <= hi -> hi <= zlen l -> zlen (part lo hi l) = hi - lo.
Proof. unfold zlen, part. intros. rewrite length_take, length_drop. lia. Qed.
Lemma part_map {A B} (f : A -> B) lo hi l : map f (part lo hi l) = part lo hi (map f l).
Proof. unfold part. change (@map) with (fun A B => @fmap list _ A B). cbn beta. by rewrite fmap_take, fmap_drop. Qed.
Lemma part_full {A} (l : list A) : part 0 (zlen l) l = l.
Proof. unfold part, zlen. cbn. rewrite drop_0, Nat2Z.id. apply firstn_all2. lia. Qed.
(** Parts from bound to bound. *)
Lemma concat_part {A} (f : nat -> Z) (l : list A) n : forall i, (forall k, f k <= f (S k)) -> concat (map (fun k => part (f k) (f (S k)) l) (seq i n)) = part (f i) (f (i + n)%nat) l.
Proof.
  induction n as [|n IH]; intros i Hf; cbn [seq map concat]; [rewrite Nat.add_0_r, part_nil; [done|lia]|]. rewrite IH by done. replace (S i + n)%nat with (i + S n)%nat by lia. apply part_app. split; [done|].
  assert (Hm : forall k, f (S i) <= f (S i + k)%nat) by (intros k; induction k as [|k IHk]; [rewrite Nat.add_0_r; lia|]; rewrite Nat.add_succ_r; specialize (Hf (S i + k)%nat); lia). specialize (Hm n). by replace (i + S n)%nat with (S i + n)%nat by lia.
Qed.

(** ** The exchange of the blocks *)

Definition bound (dns : list Z) (k : nat) : Z := zsum (take k dns).
Definition block {A} (dns : list Z) (D : list A) (r : nat) : list A := part (bound dns r) (bound dns (S r)) D.
Definition blocks_of {A} (dns : list Z) (D : list A) : list (list A) := map (block dns D) (seq 0 (length dns)).
Definition clamp (a b x : Z) : Z := Z.max a (Z.min b x).

Lemma bound_mono dns k : Forall (fun n => 0 <= n) dns -> bound dns k <= bound dns (S k).
Proof. intros Hd. apply zsum_take_le; [done|lia]. Qed.
Lemma bound_range dns k : Forall (fun n => 0 <= n) dns -> 0 <= bound dns k <= zsum dns.
Proof.
  intros Hd. unfold bound. split; [apply zsum_nonneg, Forall_take, Hd|]. rewrite <- (take_drop k dns) at 2. rewrite zsum_app. pose proof (zsum_nonneg _ (Forall_drop _ k _ Hd)). lia.
Qed.
Lemma bound_end dns k : (length dns <= k)%nat -> bound dns k = zsum dns.
Proof. intros Hk. unfold bound. by rewrite firstn_all2. Qed.

Section spec.
Context (dns_in dns_out : list Z) (Hin : Forall (fun n => 0 <= n) dns_in) (Hout : Forall (fun n => 0 <= n) dns_out) (Hlen : length dns_in = length dns_out) (Hsum : zsum dns_in = zsum dns_out).

(** What the rank [r] sends to the rank [i]. *)
Definition cell {A} (D : list A) (r i : nat) : list A :=
  part (clamp (bound dns_in r) (bound dns_in (S r)) (bound dns_out i)) (clamp (bound dns_in r) (bound dns_in (S r)) (bound dns_out (S i))) D.
Lemma cell_row {A} (D : list A) r : concat (map (cell D r) (seq 0 (length dns_in))) = block dns_in D r.
Proof using All.
  unfold cell. rewrite (concat_part (fun k => clamp (bound dns_in r) (bound dns_in (S r)) (bound dns_out k))) by (intros k; pose proof (bound_mono dns_out k Hout); unfold clamp; lia).
  unfold block. cbn [Nat.add]. rewrite (bound_end dns_out (length dns_in)) by lia. pose proof (bound_mono dns_in r Hin). pose proof (bound_range dns_in r Hin). pose proof (bound_range dns_in (S r) Hin). change (bound dns_out 0) with 0. f_equal; unfold clamp; lia.
Qed.
Lemma cell_column {A} (D : list A) i : sent_to (length dns_in) (cell D) i = block dns_out D i.
Proof using All.
  unfold sent_to. transitivity (concat (map (fun r => part (clamp (bound dns_out i) (bound dns_out (S i)) (bound dns_in r)) (clamp (bound dns_out i) (bound dns_out (S i)) (bound dns_in (S r))) D) (seq 0 (length dns_in)))).
  - f_equal. apply map_ext. intros r. unfold cell. pose proof (bound_mono dns_in r Hin). pose proof (bound_mono dns_out i Hout).
    destruct (Z.le_gt_cases (Z.max (bound dns_in r) (bound dns_out i)) (Z.min (bound dns_in (S r)) (bound dns_out (S i)))); [f_equal; unfold clamp; lia|]. rewrite !part_nil by (unfold clamp; lia). done.
  - rewrite (concat_part (fun k => clamp (bound dns_out i) (bound dns_out (S i)) (bound dns_in k))) by (intros k; pose proof (bound_mono dns_in k Hin); unfold clamp; lia).
    unfold block. cbn [Nat.add]. rewrite (bound_end dns_in (length dns_in)) by lia. pose proof (bound_mono dns_out i Hout). pose proof (bound_range dns_out i Hout). pose proof (bound_range dns_out (S i) Hout). change (bound dns_in 0) with 0. f_equal; unfold clamp; lia.
Qed.
Lemma zlen_cell {A} (D : list A) r i : zlen D = zsum dns_in -> zlen (cell D r i) = _overlap_size (bound dns_in r) (bound dns_in (S r)) (bound dns_out i) (bound dns_out (S i)).
Proof using All.
  intros HD. pose proof (bound_mono dns_in r Hin). pose proof (bound_mono dns_out i Hout). pose proof (bound_range dns_in r Hin). pose proof (bound_range dns_in (S r) Hin). unfold cell. rewrite zlen_part by (unfold clamp; lia). unfold clamp, _overlap_size. lia.
Qed.

(** ** The objects of the ranks *)

Lemma overlaps_scan start stop dns : overlaps start stop (scan 0 dns) = map (fun i => _overlap_size start stop (bound dns i) (bound dns (S i))) (seq 0 (length dns)).
Proof using Type.
  clear. apply list_eq. intros i. unfold overlaps. change (@map) with (fun A B => @fmap list _ A B). cbn beta. rewrite list_lookup_fmap, lookup_zip_with. destruct (decide (i < length dns)%nat) as [Hi|Hi].
  - rewrite scan_lookup, lookup_seq_lt by lia. rewrite lookup_tail, scan_lookup by lia. done.
  - rewrite (lookup_ge_None_2 (seq _ _)) by (rewrite length_seq; lia). rewrite (lookup_ge_None_2 (tail (scan 0 dns))) by (pose proof (length_scan 0 dns); destruct (scan 0 dns); cbn in *; lia). by destruct (scan 0 dns !! i).
Qed.
Definition object (r : nat) : block_to_block_obj :=
  BTB (bound dns_in (S r) - bound dns_in r) (bound dns_out (S r) - bound dns_out r)
    (map (fun i => _overlap_size (bound dns_in r) (bound dns_in (S r)) (bound dns_out i) (bound dns_out (S i))) (seq 0 (length dns_in)))
    (map (fun i => _overlap_size (bound dns_out r) (bound dns_out (S r)) (bound dns_in i) (bound dns_in (S i))) (seq 0 (length dns_in))).
(** The sum of the overlaps of a block is its size. *)
Lemma zsum_clamp f a b m : forall i, (forall k : nat, f k <= f (S k)) -> a <= b ->
  zsum (map (fun k => _overlap_size a b (f k) (f (S k))) (seq i m)) = clamp a b (f (i + m)%nat) - clamp a b (f i).
Proof using Type.
  clear. induction m as [|m IH]; intros i Hf Hab; cbn [seq map]; [rewrite Nat.add_0_r, zsum_nil; lia|]. rewrite zsum_cons, IH by done. replace (S i + m)%nat with (i + S m)%nat by lia. specialize (Hf i). unfold clamp, _overlap_size. lia.
Qed.
Lemma init_spec r : (r < length dns_in)%nat -> BlockToBlock_init (scan 0 dns_in) (scan 0 dns_out) (Z.of_nat r) (zlen dns_in) = Ret (object r).
Proof using All.
  intros Hr. unfold BlockToBlock_init. rewrite bool_decide_eq_true_2 by (unfold zlen; rewrite !length_scan; lia). cbn [py_assert mbind py_bind].
  assert (Hget : forall dns k, (k <= length dns)%nat -> py_get (scan 0 dns) (Z.of_nat k) = Ret (bound dns k)) by (intros dns k Hk; apply py_get_lookup; by rewrite scan_lookup).
  replace (Z.of_nat r + 1) with (Z.of_nat (S r)) by lia. rewrite !Hget by lia. cbn [mbind py_bind]. rewrite !overlaps_scan, <- Hlen. cbn [send_counts recv_counts BlockToBlock.dn_in BlockToBlock.dn_out].
  pose proof (bound_mono dns_in r Hin). pose proof (bound_mono dns_out r Hout). pose proof (bound_range dns_in r Hin). pose proof (bound_range dns_in (S r) Hin). pose proof (bound_range dns_out r Hout). pose proof (bound_range dns_out (S r) Hout).
  rewrite (zsum_clamp (bound dns_out)) by (done || intros k; by apply bound_mono). rewrite (zsum_clamp (bound dns_in)) by (done || intros k; by apply bound_mono). rewrite Nat.add_0_l, !(bound_end _ (length dns_in)) by lia. change (bound dns_out 0) with 0. change (bound dns_in 0) with 0.
  rewrite !bool_decide_eq_true_2 by (unfold clamp; lia). done.
Qed.

(** ** The two exchanges *)

(** [g] gives the data of a list of items. *)
Lemma exchange_items {A B} (g : list A -> list B) (D : list A) sends recvs :
  (forall l, g (concat l) = concat (map g l)) ->
  sends = map (fun r => map (fun i => zlen (g (cell D r i))) (seq 0 (length dns_in))) (seq 0 (length dns_in)) ->
  recvs = map (fun i => map (fun r => zlen (g (cell D r i))) (seq 0 (length dns_in))) (seq 0 (length dns_in)) ->
  Alltoallv (map g (blocks_of dns_in D)) sends recvs = Ret (map g (blocks_of dns_out D)).
Proof using All.
  intros Hg Hs Hr. rewrite (Alltoallv_spec (length dns_in) (fun r i => g (cell D r i))); [| | |exact Hr].
  - f_equal. unfold blocks_of. rewrite map_map, <- Hlen. apply map_ext. intros i. rewrite <- cell_column. unfold sent_to. by rewrite Hg, map_map.
  - unfold blocks_of, matrix. rewrite !map_map. apply map_ext. intros r. by rewrite <- cell_row, Hg, map_map.
  - rewrite Hs. unfold matrix. rewrite map_map. apply map_ext. intros r. by rewrite map_map.
Qed.
Lemma concat_concat {A} (l : list (list (list A))) : concat (concat l) = concat (map (@concat A) l).
Proof using Type. clear. induction l as [|x l IH]; [done|]. cbn. by rewrite concat_app, IH. Qed.
Lemma overlap_sym a b c e : _overlap_size a b c e = _overlap_size c e a b.
Proof using Type. clear. unfold _overlap_size. lia. Qed.

Lemma exchange_const {A} (D : list (list A)) stride : zlen D = zsum dns_in -> Forall (fun x => zlen x = stride) D ->
  exchange (map object (seq 0 (length dns_in))) (map (@concat A) (blocks_of dns_in D)) stride = Ret (map (@concat A) (blocks_of dns_out D)).
Proof using All.
  intros HD Hs. unfold exchange. assert (Hz : forall r i, zlen (concat (cell D r i)) = stride * zlen (cell D r i)).
  { intros r i. assert (Hc : Forall (fun x => zlen x = stride) (cell D r i)) by (unfold cell, part; by apply Forall_take, Forall_drop). clear -Hc. induction Hc as [|x l Hx _ IH]; [unfold zlen; cbn; lia|]. cbn [concat]. rewrite zlen_app, IH, Hx. unfold zlen. cbn [length]. lia. }
  apply exchange_items; [intros l; apply concat_concat| |].
  - rewrite map_map. apply map_ext. intros r. cbn [object send_counts]. rewrite map_map. apply map_ext. intros i. by rewrite Hz, zlen_cell.
  - rewrite map_map. apply map_ext. intros i. cbn [object recv_counts]. rewrite map_map. apply map_ext. intros r. by rewrite Hz, zlen_cell, overlap_sym.
Qed.

Lemma slice_sums_concat parts : slice_sums (map zlen parts) (concat parts) = map zsum parts.
Proof using Type.
  clear. induction parts as [|p parts IH]; [done|]. cbn. replace (Z.to_nat (zlen p)) with (length p) by (unfold zlen; lia). by rewrite take_app_length, drop_app_length, IH.
Qed.
Lemma zsum_zlen {A} (l : list (list A)) : zsum (map zlen l) = zlen (concat l).
Proof using Type. clear. symmetry. apply NpUtils.zlen_concat. Qed.
Lemma zip_same {A B C E} (f : B -> C -> E) (g : A -> B) (h : A -> C) l : zip_with f (map g l) (map h l) = map (fun x => f (g x) (h x)) l.
Proof using Type. clear. induction l as [|x l IH]; [done|]. cbn. by rewrite IH. Qed.
(** The number of data of the parts of a block that are given by their strides. *)
Lemma sums_of {A} (counts : list Z) (cells : list (list (list A))) : counts = map zlen cells -> slice_sums counts (map zlen (concat cells)) = map (fun c => zlen (concat c)) cells.
Proof using Type.
  clear. intros ->. rewrite concat_map. replace (map zlen cells) with (map zlen (map (map zlen) cells)) by (rewrite map_map; apply map_ext; intros c; unfold zlen; by rewrite length_map).
  rewrite slice_sums_concat, map_map. apply map_ext. intros c. apply zsum_zlen.
Qed.
Lemma exchange_var {A} (D : list (list A)) : zlen D = zsum dns_in ->
  exchange_strided (map object (seq 0 (length dns_in))) (map (@concat A) (blocks_of dns_in D)) (map (map zlen) (blocks_of dns_in D)) =
  Ret (map (map zlen) (blocks_of dns_out D), map (@concat A) (blocks_of dns_out D)).
Proof using All.
  intros HD. unfold exchange_strided. assert (Hlenb : forall r, zlen (map zlen (block dns_in D r)) = dn_in (object r)).
  { intros r. unfold block. rewrite part_map. pose proof (bound_mono dns_in r Hin). pose proof (bound_range dns_in r Hin). pose proof (bound_range dns_in (S r) Hin). rewrite zlen_part; [done|lia|]. unfold zlen in *. rewrite length_map. lia. }
  assert (Ha : exists l, mapM (fun p : block_to_block_obj * list Z => py_assert (bool_decide (zlen p.2 = dn_in p.1))) (zip (map object (seq 0 (length dns_in))) (map (map zlen) (blocks_of dns_in D))) = Ret l).
  { unfold blocks_of. generalize (seq 0 (length dns_in)). intros l. induction l as [|r l [u IH]]; [by exists []|]. cbn [map zip_with mapM]. cbn [fst snd]. rewrite bool_decide_eq_true_2 by apply Hlenb. cbn [py_assert mbind py_bind]. rewrite IH. by eexists. }
  destruct Ha as [u ->]. cbn [mbind py_bind]. rewrite !map_map. cbn [object send_counts recv_counts].
  rewrite (exchange_items (map zlen) D); [|intros l; apply concat_map| |].
  2: { apply map_ext. intros r. apply map_ext. intros i. unfold zlen at 1. rewrite length_map. fold (zlen (cell D r i)). by rewrite zlen_cell. }
  2: { apply map_ext. intros i. apply map_ext. intros r. unfold zlen at 1. rewrite length_map. fold (zlen (cell D r i)). by rewrite zlen_cell, overlap_sym. }
  cbn [mbind py_bind]. rewrite (exchange_items (@concat A) D); [done|intros l; apply concat_concat| |].
  - unfold blocks_of. rewrite map_map, zip_same. apply map_ext. intros r. cbn [object send_counts]. rewrite <- cell_row, sums_of; rewrite map_map; [done|]. apply map_ext. intros i. by rewrite zlen_cell.
  - unfold blocks_of. rewrite <- Hlen, map_map, zip_same. apply map_ext. intros i. cbn [object recv_counts]. rewrite <- cell_column. unfold sent_to. rewrite sums_of; rewrite map_map; [done|]. apply map_ext. intros r. by rewrite zlen_cell, overlap_sym.
Qed.
End spec.

(** ** Properties *)

Lemma scan_inj a dns1 dns2 : scan a dns1 = scan a dns2 -> dns1 = dns2.
Proof.
  revert a dns2. induction dns1 as [|x l IH]; intros a [|y k] E; cbn in E; [done|rewrite (scan_head (a + y)) in E; done|rewrite (scan_head (a + x)) in E; done|].
  injection E as E. assert (x = y) as -> by (pose proof E as E'; rewrite (scan_head (a + x)), (scan_head (a + y) k) in E'; injection E'; lia). f_equal. by eapply IH.
Qed.
Lemma singletons {A} (l : list A) : concat (map (fun x => [x]) l) = l.
Proof. induction l as [|x l IH]; [done|]. cbn. by rewrite IH. Qed.
Lemma concat_blocks {A} dns (D : list A) : Forall (fun n => 0 <= n) dns -> zlen D = zsum dns -> concat (blocks_of dns D) = D.
Proof.
  intros Hd HD. unfold blocks_of, block. rewrite (concat_part (bound dns)) by (intros k; by apply bound_mono). cbn [Nat.add]. rewrite (bound_end dns (length dns)) by lia. change (bound dns 0) with 0. rewrite <- HD. apply part_full.
Qed.
Lemma block_sizes {A} dns (D : list A) : Forall (fun n => 0 <= n) dns -> zlen D = zsum dns -> map zlen (blocks_of dns D) = dns.
Proof.
  intros Hd HD. unfold blocks_of. rewrite map_map. apply list_eq. intros i. change (@map) with (fun A B => @fmap list _ A B). cbn beta. rewrite list_lookup_fmap. destruct (decide (i < length dns)%nat) as [Hi|Hi].
  - rewrite lookup_seq_lt by done. cbn [fmap option_fmap option_map Nat.add]. pose proof (bound_mono dns i Hd). pose proof (bound_range dns i Hd). pose proof (bound_range dns (S i) Hd). unfold block. rewrite zlen_part by lia. destruct (lookup_lt_is_Some_2 dns i Hi) as [x Hx]. rewrite Hx. unfold bound. rewrite (take_S_r _ _ _ Hx), zsum_app. f_equal. unfold zsum at 2. cbn. lia.
  - rewrite !lookup_ge_None_2 by (rewrite ?length_seq; lia). done.
Qed.
Lemma blocks_singletons {A} dns (D : list A) : map (@concat A) (blocks_of dns (map (fun x => [x]) D)) = blocks_of dns D.
Proof. unfold blocks_of. rewrite map_map. apply map_ext. intros r. unfold block. by rewrite <- part_map, singletons. Qed.
(** Blocks are determined by their sizes. *)
Lemma blocks_unique {A} (ls : list (list A)) : blocks_of (map zlen ls) (concat ls) = ls.
Proof.
  assert (Hg : forall pre ls : list (list A), map (fun r => part (zlen (concat pre) + bound (map zlen ls) r) (zlen (concat pre) + bound (map zlen ls) (S r)) (concat pre ++ concat ls)) (seq 0 (length ls)) = ls).
  { clear. intros pre ls. revert pre. induction ls as [|l ls IH]; intros pre; [done|]. cbn [length seq map]. f_equal.
    - assert (Hb : bound (zlen l :: map zlen ls) 1 = zlen l) by (unfold bound; cbn [map take]; rewrite take_0, zsum_cons, zsum_nil; lia). rewrite Hb. change (bound (zlen l :: map zlen ls) 0) with 0. unfold part. rewrite Z.add_0_r. replace (Z.to_nat (zlen (concat pre))) with (length (concat pre)) by (unfold zlen; lia). rewrite drop_app_length. cbn [concat].
      replace (Z.to_nat (zlen (concat pre) + zlen l) - length (concat pre))%nat with (length l) by (unfold zlen; lia). apply take_app_length.
    - specialize (IH (pre ++ [l])). rewrite concat_app in IH. cbn [concat] in IH. rewrite app_nil_r, <- app_assoc in IH. rewrite <- seq_shift, map_map. etransitivity; [|exact IH]. apply map_ext. intros r. unfold bound. cbn [take]. rewrite !zsum_cons, zlen_app. f_equal; lia. }
  specialize (Hg [] ls). cbn in Hg. unfold blocks_of, block. rewrite length_map. etransitivity; [|exact Hg]. apply map_ext. intros r. f_equal; unfold zlen; cbn; lia.
Qed.

Lemma block_to_block_exact {A} (d : dtype) (dns_in dns_out : list Z) (D : list A) :
  Forall (fun n => 0 <= n) dns_in -> Forall (fun n => 0 <= n) dns_out -> length dns_in = length dns_out -> zlen D = zsum dns_in -> zlen D = zsum dns_out -> zlen D <= iinfo_max d ->
  block_to_block d (blocks_of dns_in D) (map array_of_partial (partials_of dns_in)) (map array_of_partial (partials_of dns_out)) = Ret (blocks_of dns_out D).
Proof.
  intros Hin Hout Hlen H1 H2 Hmax. assert (Hsum : zsum dns_in = zsum dns_out) by congruence. pose proof (init_spec dns_in dns_out Hin Hout Hlen Hsum) as Hinit.
  unfold block_to_block, BlockToBlock. rewrite (proj1 (auto_expand_spec d dns_in Hin ltac:(lia))), (proj1 (auto_expand_spec d dns_out Hout ltac:(lia))). cbn [mbind py_bind]. rewrite <- Hlen.
  assert (Hz : zip (replicate (length dns_in) (scan 0 dns_in)) (replicate (length dns_in) (scan 0 dns_out)) = replicate (length dns_in) (scan 0 dns_in, scan 0 dns_out)) by apply zip_with_replicate.
  rewrite Hz. destruct (decide (scan 0 dns_in = scan 0 dns_out)) as [E|E].
  + rewrite (proj2 (forallb_forall _ _)) by (intros p Hp; apply list_elem_of_In, elem_of_replicate in Hp as [-> _]; by apply bool_decide_eq_true). cbn. do 2 f_equal.
    by rewrite (scan_inj 0 dns_in dns_out E).
  + destruct (length dns_in) as [|n] eqn:En; [by destruct dns_in, dns_out|]. rewrite <- En in *. assert (Hall : forallb (fun p : list Z * list Z => bool_decide (p.1 = p.2)) (replicate (length dns_in) (scan 0 dns_in, scan 0 dns_out)) = false) by (rewrite En; cbn; by rewrite bool_decide_eq_false_2).
    rewrite Hall. rewrite (proj2 (forallb_forall _ _)) by (intros p Hp; apply list_elem_of_In, elem_of_replicate in Hp as [-> _]; by apply bool_decide_eq_true).
    unfold zlen at 1. rewrite length_map, length_partials. fold (zlen dns_in).
    rewrite (proj2 (py_mapM_Ret _ _ (map (object dns_in dns_out) (seq 0 (length dns_in))))).
    * cbn [fmap py_fmap mbind py_bind]. pose proof (exchange_const dns_in dns_out Hin Hout Hlen Hsum (map (fun x => [x]) D) 1) as Hex.
      rewrite !blocks_singletons in Hex. apply Hex; [unfold zlen in *; rewrite length_map; lia|]. apply Forall_forall. intros x Hx. apply list_elem_of_fmap in Hx as (y & -> & _). done.
    * apply Forall2_same_length_lookup. split; [by rewrite length_imap, length_replicate, length_map, length_seq|]. intros i [k p] o Hi Ho. rewrite list_lookup_imap in Hi. change (@map) with (fun A B => @fmap list _ A B) in Ho. cbn beta in Ho. rewrite list_lookup_fmap in Ho.
      destruct (replicate (length dns_in) (scan 0 dns_in, scan 0 dns_out) !! i) as [q|] eqn:Eq; [|done]. apply lookup_replicate in Eq as [-> Hi']. injection Hi as <- <-. rewrite lookup_seq_lt in Ho by done. injection Ho as <-. by apply Hinit.
Qed.

(** C27: an array that is cut by a distribution is cut again by another one: each rank obtains its block of the array by
    the new distribution, also when the elements have different numbers of data; nothing is lost. *)
Theorem block_to_block_spec {A} (d : dtype) (dns_in dns_out : list Z) (D : list A) (G : list (list A)) :
  Forall (fun n => 0 <= n) dns_in -> Forall (fun n => 0 <= n) dns_out -> length dns_in = length dns_out -> zlen D = zsum dns_in -> zlen D = zsum dns_out -> zlen D = zlen G -> zlen D <= iinfo_max d ->
  block_to_block d (blocks_of dns_in D) (map array_of_partial (partials_of dns_in)) (map array_of_partial (partials_of dns_out)) = Ret (blocks_of dns_out D) /\
  (exists selfs, mapM (fun r => BlockToBlock_init (scan 0 dns_in) (scan 0 dns_out) (Z.of_nat r) (zlen dns_in)) (seq 0 (length dns_in)) = Ret selfs /\
    exchange_strided selfs (map (@concat A) (blocks_of dns_in G)) (map (map zlen) (blocks_of dns_in G)) = Ret (map (map zlen) (blocks_of dns_out G), map (@concat A) (blocks_of dns_out G))) /\
  map zlen (blocks_of dns_out D) = dns_out /\ concat (blocks_of dns_out D) = D.
Proof.
  intros Hin Hout Hlen H1 H2 HG Hmax. assert (Hsum : zsum dns_in = zsum dns_out) by congruence. pose proof (init_spec dns_in dns_out Hin Hout Hlen Hsum) as Hinit.
  split; [|split; [exists (map (object dns_in dns_out) (seq 0 (length dns_in))); split|split; [by apply block_sizes|by apply concat_blocks]]].
  - by apply block_to_block_exact.
  - apply py_mapM_lookup; [by rewrite length_map|]. intros i r o Hi Ho. change (@map) with (fun A B => @fmap list _ A B) in Ho. cbn beta in Ho. rewrite list_lookup_fmap, Hi in Ho. injection Ho as <-. apply lookup_seq in Hi as [-> Hi]. by apply Hinit.
  - apply exchange_var; try done. lia.
Qed.
Lemma block_to_block_spec_witness :
  block_to_block I4 [[10; 11]; []; [12; 13; 14]] (map array_of_partial (partials_of [2; 0; 3])) (map array_of_partial (partials_of [1; 3; 1])) = Ret [[10]; [11; 12; 13]; [14]].
Proof.
  exact (proj1 (block_to_block_spec I4 [2; 0; 3] [1; 3; 1] [10; 11; 12; 13; 14] [[1]; []; [2; 3]; [4]; [5]] ltac:(repeat constructor; lia) ltac:(repeat constructor; lia) eq_refl eq_refl eq_refl eq_refl ltac:(vm_compute; discriminate))).
Defined.
End BlockToBlock.
