(* ===== verification/Redistribute.v ===== *)
(** * Redistribution of trees: [maia/algo/dist/redistribute.py]

    The arrays of a distributed tree are exchanged to follow another distribution.  A function takes the nodes of all
    the ranks, the same node of the tree of each rank, and returns them edited: the ranks go through their trees in
    step, since every edit is an exchange.  Trees whose structure is not the same on all the ranks would leave ranks
    waiting for each other: this is an error here. *)
From S2P Require Import Prelude PyUtils NpUtils Values Conventions Fnmatch Tree Parsers Walkers Search Distribution Protocols Sids Refs Presets MaiaNodes Joins FullToDist BlockToBlock.

Local Open Scope Z_scope.

Module Redistribute.
Import NpUtils Values Tree Walkers Search Distribution Protocols Sids Refs Presets MaiaNodes Joins FullToDist BlockToBlock.

(** ** Nodes of the ranks *)

(** The nodes of the ranks, edited together. *)
Definition par : Type := list node -> py (list node).
Definition on_ranks (f : st ()) : par := mapM (applied f).
(** An edit for each rank. *)
Definition with_rank {A} (f : A -> st ()) (l : list A) : par := fun nodes =>
  if bool_decide (length l = length nodes) then mapM (fun p : A * node => applied (f p.1) p.2) (zip l nodes) else Raise RuntimeError.
Fixpoint positions (p : node -> bool) (i : nat) (l : list node) : list nat :=
  match l with [] => [] | c :: l' => if p c then i :: positions p (S i) l' else positions p (S i) l' end.
(** The first, second, ... positions of the ranks, which have as many of them. *)
Definition aligned (poss : list (list nat)) : py (list (list nat)) :=
  match poss with
  | [] => Ret []
  | first :: _ =>
      if forallb (fun l => bool_decide (length l = length first)) poss
      then mapM (fun k => mapM (fun l : list nat => of_option RuntimeError (l !! k)) poss) (seq 0 (length first))
      else Raise RuntimeError
  end.
Definition put_child (i : nat) (c : node) (n : node) : node := let '(Node name v cs label) := n in Node name v (<[i := c]> cs) label.
Definition at_children (col : list nat) (f : par) : par := fun nodes =>
  kids ← mapM (fun p : node * nat => of_option RuntimeError (get_children p.1 !! p.2)) (zip nodes col);
  kids' ← f kids;
  Ret (zip_with (fun n (p : nat * node) => put_child p.1 p.2 n) nodes (zip col kids')).
(** The loop on the children that satisfy a predicate, and along a list of predicates. *)
Definition par_children (p : node -> bool) (f : par) : par := fun nodes =>
  cols ← aligned (map (fun n => positions p 0 (get_children n)) nodes);
  foldM (fun ns col => at_children col f ns) nodes cols.
Fixpoint par_chain (ps : list (node -> bool)) (f : par) : par :=
  match ps with [] => f | p :: ps' => par_children p (par_chain ps' f) end.
Definition sequence (fs : list par) : par := fun nodes => foldM (fun ns f => f ns) nodes fs.
(** A choice that all the ranks make. *)
Definition agreed (bs : list bool) : py bool :=
  if forallb id bs then Ret true else if forallb negb bs then Ret false else Raise RuntimeError.

(** ** Arrays *)

Section redistribute.
Context `{ArrayEqual} (to_float32 : Z -> Z) (d : dtype).
(** The distribution function of each rank. *)
Context (distribution : list (Z -> py partial)).
Definition distributions (sizes : list Z) : py (list partial) := mapM (fun p : (Z -> py partial) * Z => p.1 p.2) (zip distribution sizes).

(** The array of a distribution that a node has, [MT.getDistribution(node, name)[1]]. *)
Definition distri_raw (name : string) (n : node) : py nparray := c ← getDistribution n (Some name); v ← raw_of c; array_of v.
Definition distri_data (name : string) (n : node) : py (list Z) := a_data <$> distri_raw name n.
Definition totals (distris : list (list Z)) : py (list Z) := mapM (fun distri => py_get distri 2) distris.
Definition arrays_of_partials : list partial -> list (list Z) := map array_of_partial.

(** [block_to_block] of the arrays of the ranks; the copy keeps their shapes. *)
Definition exchange_arrays (distri new_distri : list (list Z)) (arrays : list nparray) : py (list nparray) :=
  btb ← BlockToBlock d distri new_distri;
  match btb with
  | None => Ret arrays
  | Some selfs => out ← exchange selfs (map a_data arrays) 1; Ret (zip_with (fun a l => vec (a_type a) l) arrays out)
  end.
(** [array_n[1] = block_to_block(array_n[1], distri, new_distri, comm)] *)
Definition redistribute_array (distri new_distri : list (list Z)) : par := fun nodes =>
  arrays ← mapM (fun n => of_option AttributeError (get_raw n)) nodes;
  arrays' ← exchange_arrays distri new_distri arrays;
  with_rank (fun a => put_raw (Some a)) arrays' nodes.

(** The rows of an array of [k] rows, and the array of given rows. *)
Definition rows_of (a : nparray) : py (list (list Z)) :=
  match a_shape a with
  | [k; n] => mapM (fun ip => mapM (fun col : list Z => of_option IndexError (col !! ip)) (blocks (Z.to_nat k) (Z.to_nat n) (a_data a))) (seq 0 (Z.to_nat k))
  | _ => Raise IndexError
  end.
Definition from_rows (t : cgns_type) (new_size : Z) (rows : list (list Z)) : py nparray :=
  if forallb (fun r : list Z => bool_decide (zlen r = new_size)) rows then
    cols ← mapM (fun j => mapM (fun r : list Z => of_option IndexError (r !! j)) rows) (seq 0 (Z.to_nat new_size));
    Ret (NpArray t [zlen rows; new_size] true (concat cols))
  else Raise ValueError.
(** A row of each rank at a time. *)
Definition exchange_rows (distri new_distri : list (list Z)) (rows : list (list (list Z))) : py (list (list (list Z))) :=
  let count := default 0%nat (length <$> head rows) in
  if forallb (fun r : list (list Z) => bool_decide (length r = count)) rows then
    news ← mapM (fun ip => row ← mapM (fun r : list (list Z) => of_option RuntimeError (r !! ip)) rows; block_to_block d row distri new_distri) (seq 0 count);
    mapM (fun r => mapM (fun new : list (list Z) => of_option RuntimeError (new !! r)) news) (seq 0 (length rows))
  else Raise RuntimeError.
Definition redistribute_pl (distri new_distri : list (list Z)) (new_sizes : list Z) : par := fun nodes =>
  arrays ← mapM (fun n => array_of (get_raw n)) nodes;
  rows ← mapM rows_of arrays;
  rows' ← exchange_rows distri new_distri rows;
  news ← mapM (fun '(a, (new_size, r)) => from_rows (a_type a) new_size r) (zip arrays (zip new_sizes rows'));
  with_rank (fun a => put_raw (Some a)) news nodes.

(** ** Nodes with a point list, nodes on all the elements *)

Fixpoint redistribute_pl_node (fuel : nat) (nodes : list node) : py (list node) :=
  match fuel with
  | 0%nat => Raise OutOfFuel
  | S fuel =>
      node_distrib ← mapM (distri_data "Index") nodes;
      sizes ← totals node_distrib;
      new_distrib ← distributions sizes;
      let new_arrays := arrays_of_partials new_distrib in
      let new_sizes := map (fun p => p_end p - p_start p) new_distrib in
      let data := redistribute_array node_distrib new_arrays in
      sequence
        [with_rank (fun p => newDistribution to_float32 [("Index", partial_array d p)]) new_distrib;
         par_children (with_label "IndexArray_t") (redistribute_pl node_distrib new_arrays new_sizes);
         par_children (with_label "DataArray_t") data;
         par_chain [with_label "BCData_t"; with_label "DataArray_t"] data;
         par_chain [bcds_without_pl; with_label "BCData_t"; with_label "DataArray_t"] data;
         par_children has_own_pl (redistribute_pl_node fuel)] nodes
  end.
Definition pl_node : par := fun nodes => redistribute_pl_node (default 0%nat (Parsers.size <$> head nodes)) nodes.

Definition redistribute_data_node (distri new_distri : list (list Z)) : par := fun nodes =>
  _ ← mapM (fun n => pl ← get_node_from_name n "PointList" no_kw; py_assert (is_none pl)) nodes;
  par_children (with_label "DataArray_t") (redistribute_array distri new_distri) nodes.

(** ** Elements *)

(** [while (all_bound_elt[j] == -1): j += 1] from the rank after the current one. *)
Fixpoint next_bound (all_bound_elt : list Z) : py Z :=
  match all_bound_elt with [] => Raise IndexError | b :: rest => if bool_decide (b = -1) then next_bound rest else Ret b end.
Definition cast_bound (t : cgns_type) (x : Z) : Z := match t with T_I4 => wrap Prelude.I4 x | T_I8 => wrap Prelude.I8 x | _ => x end.
(** The offsets of each rank with the first one of the next rank that has elements; [totals]: [ec_distrib[2]]. *)
Definition eso_gathers (types : list cgns_type) (wo_last : list (list Z)) (totals : list Z) : py (list (list Z)) :=
  let bounds := zip_with (fun t l => cast_bound t (default (-1) (head l))) types wo_last in
  mapM (fun '(i, (t, (l, total))) => b ← next_bound (drop (S i) (bounds ++ [cast_bound t total])); Ret (l ++ [b]))
    (imap pair (zip types (zip wo_last totals))).

Definition child_value (name : string) (n : node) : py nparray :=
  c ← get_child_from_name n name no_kw; v ← value_of c; match v with Raw v => array_of v | Text _ => Raise TypeError end.
Definition set_child (name : string) (v : pyval) : st () := on_first (fun c => match_name c name) (set_value to_float32 v).
Definition ends_of (eso : list Z) : py (Z * Z) := a ← py_get eso 0; b ← py_get eso (-1); Ret (a, b).
(** The distribution of the connectivity, with new bounds in its type. *)
Definition with_bounds (a : nparray) (first last : Z) : nparray := vec (a_type a) ([cast_bound (a_type a) first; cast_bound (a_type a) last] ++ drop 2 (a_data a)).

Definition redistribute_eso (elt_distrib new_elt_distrib : list (list Z)) (nodes : list node) : py (list node * list nparray * list nparray) :=
  ec_distrib ← mapM (distri_raw "ElementConnectivity") nodes;
  esos ← mapM (child_value "ElementStartOffset") nodes;
  wo_last ← block_to_block d (map (fun a => take (length (a_data a) - 1) (a_data a)) esos) elt_distrib new_elt_distrib;
  tot ← totals (map a_data ec_distrib);
  gathers ← eso_gathers (map a_type esos) wo_last tot;
  nodes ← with_rank (fun p : nparray * list Z => set_child "ElementStartOffset" (PArray (vec (a_type p.1) p.2))) (zip esos gathers) nodes;
  ends ← mapM ends_of gathers;
  Ret (nodes, ec_distrib, zip_with (fun a e => with_bounds a e.1 e.2) ec_distrib ends).

Definition scaled_array (k : Z) (t : cgns_type) (l : list Z) : list Z := map (fun x => cast_bound t (k * x)) l.
Definition redistribute_pe (elt_distrib new_elt_distrib : list (list Z)) (new_sizes : list Z) : par := fun nodes =>
  pes ← mapM (child_value "ParentElements") nodes;
  columns ← mapM (fun a => match a_shape a with [n; k] => Ret (blocks (Z.to_nat n) (Z.to_nat k) (a_data a)) | _ => Raise IndexError end) pes;
  columns' ← exchange_rows elt_distrib new_elt_distrib columns;
  _ ← mapM (fun '(n, cs) => mapM (fun c : list Z => if bool_decide (zlen c = n) then Ret () else Raise ValueError) cs) (zip new_sizes columns');
  with_rank (fun '(a, (n, cs)) => set_child "ParentElements" (PArray (NpArray (a_type a) [n; zlen cs] true (concat cs)))) (zip pes (zip new_sizes columns')) nodes.

Definition redistribute_elements_node (nodes : list node) : py (list node) :=
  _ ← mapM (fun n => py_assert (bool_decide (get_label n = "Elements_t"))) nodes;
  names ← mapM Element_CGNSName nodes;
  has_eso ← agreed (map (fun name => bool_decide (name ∈ ["NGON_n"; "NFACE_n"; "MIXED"])) names);
  elt_arrays ← mapM (distri_raw "Element") nodes;
  let elt_distrib := map a_data elt_arrays in
  n_elt ← totals elt_distrib;
  new_partials ← distributions n_elt;
  let new_elt_distrib := arrays_of_partials new_partials in
  let new_sizes := map (fun p => p_end p - p_start p) new_partials in
  r ← (if (has_eso : bool) then
         r ← redistribute_eso elt_distrib new_elt_distrib nodes;
         let '(nodes, ec_distrib, new_ec_distrib) := r in
         nodes ← with_rank (fun '(p, a) => newDistribution to_float32 [("Element", partial_array d p); ("ElementConnectivity", PArray a)]) (zip new_partials new_ec_distrib) nodes;
         Ret (nodes, map a_data ec_distrib, map a_data new_ec_distrib)
       else
         n_vtx ← mapM (fun n => v ← Element_NVtx n; of_option TypeError v) nodes;
         nodes ← with_rank (fun p => newDistribution to_float32 [("Element", partial_array d p)]) new_partials nodes;
         Ret (nodes, zip_with (fun k a => scaled_array k (a_type a) (a_data a)) n_vtx elt_arrays, zip_with (fun k l => scaled_array k (gnum_type d) l) n_vtx new_elt_distrib));
  let '(nodes, ec_distrib, new_ec_distrib) := r in
  ecs ← mapM (child_value "ElementConnectivity") nodes;
  new_ecs ← exchange_arrays ec_distrib new_ec_distrib ecs;
  nodes ← with_rank (fun a => set_child "ElementConnectivity" (PArray a)) new_ecs nodes;
  pe_ns ← mapM (fun n => get_child_from_name n "ParentElements" no_kw) nodes;
  has_pe ← agreed (map (fun o => negb (is_none o)) pe_ns);
  if (has_pe : bool) then redistribute_pe elt_distrib new_elt_distrib new_sizes nodes else Ret nodes.

(** ** Zones and trees *)

(** [s.replace('Center', '')] *)
Fixpoint remove_from (skip : nat) (s : string) : string :=
  match s with
  | EmptyString => EmptyString
  | String c s' =>
      match skip with
      | S skip => remove_from skip s'
      | 0%nat => if String.prefix "Center" s then remove_from 5 s' else String c (remove_from 0 s')
      end
  end.
Definition remove_center : string -> string := remove_from 0.

(** The old and new distributions of the entities of the zone, by name. *)
Definition zone_distris : Type := list (string * (list (list Z) * list (list Z))).
Definition lookup_distri (distris : zone_distris) (name : string) : py (list (list Z) * list (list Z)) :=
  of_option KeyError (snd <$> List.find (fun p => bool_decide (p.1 = name)) distris).

Definition redistribute_solution (distris : zone_distris) : par := fun sols =>
  pls ← mapM (fun n => get_child_from_name n "PointList" no_kw) sols;
  whole ← agreed (map is_none pls);
  if (whole : bool) then
    locs ← mapM (fun sol => loc ← Subset_GridLocation sol; match loc with Text (Str s) => Ret (remove_center s) | _ => Raise AttributeError end) sols;
    loc ← of_option RuntimeError (head locs);
    same ← agreed (map (fun l => bool_decide (l = loc)) locs);
    distri ← lookup_distri distris loc;
    redistribute_data_node distri.1 distri.2 sols
  else pl_node sols.

(** A sub-region that is related to another node borrows its distribution; [zone] is the zone of the rank. *)
Definition borrow (path : string) (zone : node) : st () :=
  distri ← st_lift (n ← of_option TypeError (get_node_from_path zone (path +:+ "/:CGNS#Distribution")); deep_copy to_float32 n);
  add_child (Some distri).
Definition give_back : st () :=
  distri ← reading (fun n => getDistribution n None);
  rm_child ((fun x c => bool_decide (get_name c = get_name x)) <$> distri).
Definition redistribute_subregion (zones : list node) : par := fun zsrs =>
  paths ← mapM (fun '(zsr, zone) => Subset_ZSRExtent zsr zone) (zip zsrs zones);
  let related := zip_with (fun path zsr => negb (bool_decide (path = get_name zsr))) paths zsrs in
  zsrs ← with_rank (fun '(b, (path, zone)) => if (b : bool) then borrow path zone else mret ()) (zip related (zip paths zones)) zsrs;
  zsrs ← pl_node zsrs;
  with_rank (fun b : bool => if b then give_back else mret ()) related zsrs.

Definition redistribute_zone (zones : list node) : py (list node) :=
  vtx ← mapM (distri_data "Vertex") zones;
  cell ← mapM (distri_data "Cell") zones;
  types ← mapM Zone_Type zones;
  structured ← agreed (map (fun t => is_text t "Structured") types);
  face ← (if (structured : bool) then mapM (distri_data "Face") zones else Ret []);
  n_vtx ← mapM Zone_n_vtx zones; new_vtx ← distributions n_vtx;
  n_cell ← mapM Zone_n_cell zones; new_cell ← distributions n_cell;
  new_face ← (if (structured : bool) then n_face ← mapM Zone_n_face zones; distributions n_face else Ret []);
  let pair_of (name : string) (p : partial) : string * pyval := (name, partial_array d p) in
  let news := zip_with (fun v c => [pair_of "Vertex" v; pair_of "Cell" c]) new_vtx new_cell in
  zones ← with_rank (newDistribution to_float32) (if (structured : bool) then zip_with (fun l f => l ++ [pair_of "Face" f]) news new_face else news) zones;
  let distris := [("Vertex", (vtx, arrays_of_partials new_vtx)); ("Cell", (cell, arrays_of_partials new_cell))] ++
                 (if (structured : bool) then [("Face", (face, arrays_of_partials new_face))] else []) in
  zones ← sequence
    [par_children (with_label "GridCoordinates_t") (redistribute_data_node vtx (arrays_of_partials new_vtx));
     par_children (with_label "Elements_t") redistribute_elements_node;
     par_children (with_label "FlowSolution_t") (redistribute_solution distris);
     par_children (with_label "DiscreteData_t") (redistribute_solution distris)] zones;
  zones ← par_children (with_label "ZoneSubRegion_t") (redistribute_subregion zones) zones;
  sequence [par_chain bc_chain pl_node; par_chain gc_chain pl_node] zones.
End redistribute.

(** [for zone in iter_all_Zone_t(dist_tree)] *)
Definition par_zones (f : par) : par := fun trees =>
  bases ← agreed (map (fun t => bool_decide (get_label t = "CGNSBase_t")) trees);
  if (bases : bool) then par_children (with_label "Zone_t") f trees else
  whole ← agreed (map (fun t => bool_decide (get_label t = "CGNSTree_t")) trees);
  if (whole : bool) then par_chain [with_label "CGNSBase_t"; with_label "Zone_t"] f trees else Ret trees.
Definition redistribute_tree `{ArrayEqual} (to_float32 : Z -> Z) (d : dtype) (policy : string) (trees : list node) : py (list node) :=
  distribution ← mapM (fun rank => interpret_policy d (Z.of_nat rank) (zlen trees) policy) (seq 0 (length trees));
  par_zones (redistribute_zone to_float32 d distribution) trees.

(** ** A tree that one rank holds: [factory/full_to_dist.py] *)

(** The references of the nodes under a node that satisfy a predicate, under each other as well, depth first. *)
Fixpoint deep_refs (p : node -> bool) (n : node) : list ref :=
  let '(Node _ _ cs _) := n in
  (fix go (i : nat) (l : list node) : list ref :=
     match l with
     | [] => []
     | c :: l' => (if p c then [[i]] else []) ++ map (cons i) (deep_refs p c) ++ go (S i) l'
     end) 0%nat cs.
Definition da_container : list string :=
  ["GridCoordinates_t"; "Elements_t"; "FlowSolution_t"; "DiscreteData_t"; "ZoneSubRegion_t"; "BC_t"; "BCDataSet_t"; "BCData_t"; "GridConnectivity_t"; "GridConnectivity1to1_t"].
Definition is_da_container (n : node) : bool := bool_decide (get_label n ∈ da_container).
Definition is_sized_array (n : node) : bool := bool_decide (get_label n = "DataArray_t") && negb (endswith (get_name n) "#Size").
Definition on_containers (f : st ()) : st () := on_zones (fun zone => for_each (fun r => edit_at r f) (deep_refs is_da_container zone) zone).

Section broadcast.
Context `{ArrayEqual} (to_float32 : Z -> Z) (astype : cgns_type -> cgns_type -> Z -> Z) (d : dtype).

(** The children of a label, one after the other: [f] edits the child, [g] the container. *)
Definition each_array (p : node -> bool) (f : st ()) (g : node -> st ()) : st () := fun container =>
  for_each (fun i => _ ← edit_at [i] f; c ← reading (fun n => of_option RuntimeError (get_children n !! i)); g c) (positions p 0 (get_children container)) container.
Definition flatten_data : st () := fun n =>
  if bool_decide (get_name n = "ParentElements") then (n, Ret ())
  else match get_raw n with
       | None => (n, Raise AttributeError)
       | Some a => put_raw (Some (NpArray (a_type a) [zlen (a_data a)] true (a_data a))) n
       end.
Definition add_size (c : node) : st () :=
  a ← st_lift (of_option AttributeError (get_raw c));
  under (new_node to_float32 (get_name c +:+ "#Size") "DataArray_t" (PInts (map Leaf (a_shape a))) []).
Definition add_sizes : st () :=
  _ ← each_array (with_label "DataArray_t") flatten_data add_size;
  each_array (with_label "IndexArray_t") (mret ()) add_size.
(** Arrays of the same types without elements. *)
Definition empty_data : st () := fun n =>
  match get_raw n with
  | None => (n, Raise TypeError)
  | Some a => set_value to_float32 (PArray (NpArray (a_type a) (if bool_decide (get_name n = "ParentElements") then [0; 2] else [0]) true [])) n
  end.
Definition empty_index (container : node) : st () := fun n =>
  match (c ← get_child_from_name container (get_name n +:+ "#Size") no_kw; v ← raw_of c; elem v 0), get_raw n with
  | Raise e, _ => (n, Raise e)
  | Ret _, None => (n, Raise TypeError)
  | Ret index_dimension, Some a => set_value to_float32 (PArray (NpArray (a_type a) [index_dimension; 0] true [])) n
  end.
Definition empty_arrays : st () :=
  _ ← on_children is_sized_array empty_data;
  (fun container => on_children (with_label "IndexArray_t") (empty_index container) container) : st ().
(** [(comm.Get_rank() > owner) * np.array(ec_size, dtype=eso_n[1].dtype)] *)
Definition fix_eso (after : bool) : st () :=
  eso_n ← reading (fun n => get_child_from_name n "ElementStartOffset" no_kw);
  match eso_n with
  | None => mret ()
  | Some eso_n =>
      ec_size ← reading (fun n => c ← get_child_from_name n "ElementConnectivity#Size" no_kw; v ← raw_of c; array_of v);
      t ← st_lift (a ← of_option AttributeError (get_raw eso_n); Ret (a_type a));
      on_first (fun c => match_name c "ElementStartOffset")
        (put_raw (Some (NpArray t (a_shape ec_size) true (map (fun x => if after then cast_bound t x else 0) (a_data ec_size)))))
  end.
Definition rm_sizes (n : node) : py node := rm_nodes_from_predicate (fun c => match_name c "*#Size") n Walkers.DNone.

(** [tree] is the one of the rank [owner]; the trees of the ranks. *)
Definition _broadcast_full_to_dist (tree : node) (owner size : nat) : py (list node) :=
  dist_tree ← (t ← deep_copy to_float32 tree; applied (on_containers add_sizes) t);
  send_size_tree ← applied (on_containers empty_arrays) (shallow_copy dist_tree);
  mapM (fun rank =>
      t ← (if bool_decide (rank = owner) then Ret dist_tree
           else applied (on_zones (on_children (with_label "Elements_t") (fix_eso (bool_decide (owner < rank)%nat)))) send_size_tree);
      t ← applied (add_distribution_info to_float32 astype d (Z.of_nat rank) (Z.of_nat size) ("gather." +:+ Conventions.str_int (Z.of_nat owner))) t;
      rm_sizes t) (seq 0 size).
Definition full_to_dist_tree (tree : node) (owner : option nat) (size : nat) : py (list node) :=
  match owner with
  | Some owner =>
      dist_trees ← _broadcast_full_to_dist tree owner size;
      redistribute_tree to_float32 d "uniform" dist_trees
  | None => mapM (fun rank => _distribute_tree to_float32 astype d (Z.of_nat rank) (Z.of_nat size) tree) (seq 0 size)
  end.
End broadcast.
End Redistribute.
