(* ===== verification/RedistributeSpec.v ===== *)
(** * Redistributed elements: theorems on Redistribute

    The elements of a zone, cut by a distribution of the elements, are cut by the new one after the redistribution:
    offsets, connectivities and distribution nodes are those that the full elements give. *)
From S2P Require Import Prelude PyUtils NpUtils Values Conventions Fnmatch Tree Parsers Walkers Search Distribution Protocols Sids Refs Presets MaiaNodes Joins FullToDist FullToDistSpec BlockToBlock Redistribute.

Local Open Scope Z_scope.

Module RedistributeSpec.
Import NpUtils Values Conventions Tree Walkers Search Distribution Protocols Sids Refs Presets MaiaNodes Joins FullToDist FullToDistSpec BlockToBlock Redistribute.

Section spec.
Context `{ArrayEqual} (to_float32 : Z -> Z) (d : dtype).

(** ** Distribution nodes *)

Definition distri_at (n : node) (name : string) : option value := get_raw <$> (c ← child_named n distri_name; child_named c name).
Definition known : list string := ["Element"; "ElementConnectivity"].
Lemma distri_path n name : name ∈ known -> getDistribution n (Some name) = Ret (c ← child_named n distri_name; child_named c name).
Proof using Type.
  intros Hn. unfold getDistribution, get_container. rewrite bool_decide_eq_true_2 by (intros ->; set_solver). f_equal. unfold get_node_from_path.
  assert (Hs : py_split slash (py_join slash [distri_name; name]) = [distri_name; name] /\ py_join slash [distri_name; name] <> "").
  { apply elem_of_cons in Hn as [->|[->|[]%elem_of_nil]%elem_of_cons]; by vm_compute. }
  destruct Hs as [-> Hs]. rewrite bool_decide_eq_false_2 by done. cbn [descend mbind option_bind]. destruct (child_named n distri_name) as [c|]; [|done]. cbn. by destruct (child_named c name).
Qed.
Lemma distri_raw_at name a n : name ∈ known -> distri_at n name = Some (Some a) -> distri_raw name n = Ret a.
Proof using Type.
  intros Hn Hd. unfold distri_raw. rewrite distri_path by done. cbn [mbind py_bind]. unfold distri_at in Hd. destruct (c ← child_named n distri_name; child_named c name) as [c|]; [|done]. injection Hd as Hd. cbn [raw_of mbind py_bind]. by rewrite Hd.
Qed.

(** An update of a child keeps the other ones. *)
Lemma update_others parent name label v other : Fnmatch.plain name = true -> other <> name -> child_named (update to_float32 name label v parent).1 other = child_named parent other.
Proof using Type.
  intros Hp Ho. destruct parent as [nm pv cs pl]. pose proof (update_child_cases to_float32 nm pv cs pl name (Some label) v None) as Hc. cbn zeta in Hc. unfold update.
  assert (Hs : child_named (update_child to_float32 (Node nm pv cs pl) name (Some label) v None).1 other = child_named (Node nm pv cs pl) other).
  { destruct (update_child _ _ _ _ _ _) as [p' r]. cbn [fst]. destruct Hc as [->|[(i & c & c' & Hi & Hm & Hn & ->)|(c' & Hn & ->)]]; [done| |].
    - unfold match_name in Hm. rewrite Fnmatch.fnmatch_plain in Hm by done. apply bool_decide_eq_true in Hm. rewrite !child_named_head. cbn [get_children]. f_equal. apply (filter_insert_other _ cs i c); [done|apply bool_decide_eq_false; congruence..].
    - unfold child_named. cbn [get_children]. rewrite filter_app, filter_cons, decide_False, filter_nil, app_nil_r by congruence. done. }
  by destruct (update_child _ _ _ _ _ _) as [p' [x|e]].
Qed.
Lemma update_all_spec l : forall c, NoDup (map fst l) -> Forall (fun x : string * pyval => Fnmatch.plain x.1 = true /\ is_valid_name x.1 false = true /\ exists val, _convert_value to_float32 x.2 = Ret val) l ->
  exists c', update_all to_float32 l c = (c', Ret ()) /\ (forall name v, (name, v) ∈ l -> exists x, child_named c' name = Some x /\ Ret (get_raw x) = _convert_value to_float32 v) /\
    forall other, other ∉ map fst l -> child_named c' other = child_named c other.
Proof using Type.
  induction l as [|[name v] l IH]; intros c Hn Hl; [by exists c; split; [|split; [intros ? ? []%elem_of_nil|]]|]. cbn [map fst] in Hn. apply NoDup_cons in Hn as [Hname Hn]. apply Forall_cons in Hl as [(Hp & Hv & val & Hval) Hl]. cbn [fst snd] in *.
  destruct (update_returns to_float32 c name "DataArray_t" (Some v) val) as (c1 & x & E & Hx & _ & Hr); [done..|]. destruct (IH c1 Hn Hl) as (c' & E' & H1 & H2). exists c'. cbn [update_all]. rewrite (st_step _ _ _ _ _ E). split; [done|]. split.
  - intros name' v' [[= -> ->]|Hin]%elem_of_cons; [|by apply H1]. rewrite H2 by done. exists x. split; [done|]. by rewrite Hval, Hr.
  - intros other Ho. cbn [map fst] in Ho. apply not_elem_of_cons in Ho as [Ho Hol]. rewrite H2 by done. pose proof (update_others c name "DataArray_t" (Some v) other Hp Ho) as Hu. by rewrite E in Hu.
Qed.
Lemma newDistribution_spec l n : NoDup (map fst l) -> Forall (fun x : string * pyval => Fnmatch.plain x.1 = true /\ is_valid_name x.1 false = true /\ exists val, _convert_value to_float32 x.2 = Ret val) l ->
  exists n', newDistribution to_float32 l n = (n', Ret ()) /\ (forall name v, (name, v) ∈ l -> exists x, distri_at n' name = Some x /\ Ret x = _convert_value to_float32 v) /\
    (forall other, other <> distri_name -> raw_at n' other = raw_at n other) /\ get_name n' = get_name n /\ get_raw n' = get_raw n /\ get_label n' = get_label n.
Proof using Type.
  intros Hn Hl. destruct (update_returns to_float32 n distri_name "UserDefinedData_t" None None) as (n1 & c & E & Hc & _); [done..|]. destruct (update_all_spec l c Hn Hl) as (c' & Ec & H1 & _).
  destruct (on_first_child n1 distri_name c (update_all to_float32 l) c' ()) as (n' & E' & Hc' & _); [done|done|done|pose proof (update_all_keeps to_float32 l c) as Hk; rewrite Ec in Hk; cbn in Hk; rewrite Hk; by apply (child_named_name n1)|].
  assert (Es : newDistribution to_float32 l n = (n', Ret ())) by (unfold newDistribution, new_container; by rewrite (st_step _ _ _ _ _ E)). exists n'. split; [done|].
  destruct (silent_newDistribution to_float32 l n) as [Hsn Hss]. rewrite Es in Hsn, Hss. cbn [fst] in Hsn, Hss. split; [|split; [|split; [done|]]].
  - intros name v Hin. destruct (H1 name v Hin) as (x & Hx & Hr). exists (get_raw x). split; [|done]. unfold distri_at. rewrite Hc'. cbn. by rewrite Hx.
  - intros other Ho. pose proof (silent_raw (newDistribution to_float32 l) n other (silent_newDistribution _ _) Ho) as Hr. by rewrite Es in Hr.
  - destruct n, n'. by injection Hss.
Qed.

(** ** Offsets *)

Definition fits (t : cgns_type) (n : Z) : Prop := t = T_I4 /\ n <= iinfo_max Prelude.I4 \/ t = T_I8 /\ n <= iinfo_max Prelude.I8.
Lemma cast_bound_id t n x : fits t n -> -1 <= x <= n -> cast_bound t x = x.
Proof using Type. intros [[-> Hn]|[-> Hn]] Hx; cbn; apply wrap_id; unfold in_dtype, iinfo_min, iinfo_max in *; cbn in *; lia. Qed.

(** [G]: the connectivity of each element. *)
Definition offsets_of (G : list (list Z)) (lo hi : Z) : list Z := map (fun k => bound (map zlen G) (Z.to_nat k)) (arange lo hi).
(** The offsets of the elements of a rank, with the next one. *)
Definition eso_of (dns : list Z) (G : list (list Z)) (r : nat) : list Z := offsets_of G (bound dns r) (bound dns (S r) + 1).
Lemma offsets_part G lo hi : 0 <= lo <= hi -> hi <= zlen G -> part lo hi (offsets_of G 0 (zlen G)) = offsets_of G lo hi.
Proof using Type.
  clear. intros Hl Hh. unfold offsets_of. rewrite <- part_map. f_equal. rewrite (arange_app 0 lo (zlen G)), (arange_app lo hi (zlen G)) by lia. unfold part.
  replace (Z.to_nat lo) with (length (arange 0 lo)) at 2 by (rewrite length_arange; lia). rewrite drop_app_length. replace (Z.to_nat hi - Z.to_nat lo)%nat with (length (arange lo hi)) by (rewrite length_arange; lia). apply take_app_length.
Qed.
Lemma eso_wo_last G lo hi : lo <= hi -> take (length (offsets_of G lo (hi + 1)) - 1) (offsets_of G lo (hi + 1)) = offsets_of G lo hi.
Proof using Type.
  clear. intros Hl. unfold offsets_of. rewrite (arange_app lo hi (hi + 1)) by lia. rewrite map_app. rewrite length_app. replace (length (map _ (arange hi (hi + 1)))) with 1%nat by (rewrite length_map, length_arange; lia).
  rewrite Nat.add_sub. apply take_app_length.
Qed.
(** The bound of the next rank that has elements is the end of the elements of the rank. *)
Lemma next_bound_spec G total dns : forall start, Forall (fun n => 0 <= n) dns -> 0 <= start -> start + zsum dns = zlen G -> total = bound (map zlen G) (Z.to_nat (zlen G)) ->
  next_bound (zip_with (fun a n => default (-1) (head (offsets_of G a (a + n)))) (scan start dns) dns ++ [total]) = Ret (bound (map zlen G) (Z.to_nat start)).
Proof using Type.
  clear. induction dns as [|n dns IH]; intros start Hd Hs Ht Htot.
  - rewrite zsum_nil in Ht. assert (Hz : 0 <= total) by (subst total; apply bound_range, Forall_fmap, Forall_forall; intros; apply zlen_nonneg). cbn. rewrite bool_decide_eq_false_2 by lia. subst total. do 3 f_equal. lia.
  - apply Forall_cons in Hd as [Hn Hd]. rewrite zsum_cons in Ht. cbn [scan zip_with app next_bound]. destruct (decide (n = 0)) as [->|Hn0].
    + assert (Hh : offsets_of G start (start + 0) = []) by (unfold offsets_of; by rewrite arange_nil by lia). rewrite Hh. cbn. rewrite Z.add_0_r in *. apply IH; (done || lia).
    + assert (Hh : head (offsets_of G start (start + n)) = Some (bound (map zlen G) (Z.to_nat start))) by (unfold offsets_of; rewrite arange_cons by lia; done). rewrite Hh. cbn.
      assert (Hz : 0 <= bound (map zlen G) (Z.to_nat start)) by (apply bound_range, Forall_fmap, Forall_forall; intros; apply zlen_nonneg). by rewrite bool_decide_eq_false_2 by lia.
Qed.

Lemma drop_scan k dns acc : (k <= length dns)%nat -> drop k (scan acc dns) = scan (acc + bound dns k) (drop k dns).
Proof using Type.
  clear. revert acc dns. induction k as [|k IH]; intros acc dns Hk; [unfold bound; cbn; by rewrite Z.add_0_r, !drop_0|]. destruct dns as [|x dns]; [cbn in Hk; lia|]. cbn [scan drop]. cbn [length] in Hk. rewrite IH by lia. unfold bound. cbn [take]. rewrite zsum_cons. f_equal. lia.
Qed.
Lemma bounds_scan {A} (f : Z -> Z -> A) dns : zip_with (fun a n => f a (a + n)) (scan 0 dns) dns = map (fun r => f (bound dns r) (bound dns (S r))) (seq 0 (length dns)).
Proof using Type.
  clear. apply list_eq. intros i. change (@map) with (fun A B => @fmap list _ A B). cbn beta. rewrite list_lookup_fmap, lookup_zip_with. destruct (dns !! i) as [x|] eqn:Ex.
  - pose proof (lookup_lt_Some _ _ _ Ex). rewrite scan_lookup, lookup_seq_lt by lia. cbn. unfold bound. rewrite (take_S_r _ _ _ Ex), zsum_app, zsum_cons, zsum_nil. do 2 f_equal; lia.
  - rewrite (lookup_ge_None_2 (seq _ _)) by (rewrite length_seq; by apply lookup_ge_None in Ex). by destruct (scan 0 dns !! i).
Qed.
Lemma map_seq_lookup {A} (f : nat -> A) n i : (i < n)%nat -> map f (seq 0 n) !! i = Some (f i).
Proof using Type. clear. intros Hi. change (@map) with (fun A B => @fmap list _ A B). cbn beta. by rewrite list_lookup_fmap, lookup_seq_lt. Qed.
Lemma map_lookup {A B} (f : A -> B) l i x : l !! i = Some x -> map f l !! i = Some (f x).
Proof using Type. clear. intros Hx. change (@map) with (fun A B => @fmap list _ A B). cbn beta. by rewrite list_lookup_fmap, Hx. Qed.
Lemma zip_seq {A B C} (f : A -> B -> C) (g : nat -> A) (h : nat -> B) n : zip_with f (map g (seq 0 n)) (map h (seq 0 n)) = map (fun r => f (g r) (h r)) (seq 0 n).
Proof using Type. clear. apply zip_same. Qed.

Lemma eso_gathers_spec t dns G : let total := bound (map zlen G) (Z.to_nat (zlen G)) in
  Forall (fun n => 0 <= n) dns -> zsum dns = zlen G -> fits t total ->
  eso_gathers (map (fun _ => t) (seq 0 (length dns))) (map (fun r => offsets_of G (bound dns r) (bound dns (S r))) (seq 0 (length dns))) (map (fun _ => total) (seq 0 (length dns))) =
  Ret (map (eso_of dns G) (seq 0 (length dns))).
Proof using Type.
  clear. intros total Hd Hs Hf. assert (HG : Forall (fun n => 0 <= n) (map zlen G)) by (apply Forall_fmap, Forall_forall; intros; apply zlen_nonneg).
  assert (Hoff : forall k, 0 <= bound (map zlen G) k <= total).
  { intros k. split; [by apply bound_range|]. unfold total. rewrite (bound_end (map zlen G) (Z.to_nat (zlen G))) by (rewrite length_map; unfold zlen; lia). by apply bound_range. }
  unfold eso_gathers. rewrite !zip_seq. apply py_mapM_lookup; [by rewrite length_imap, !length_map|]. intros i [k [t' [l tot]]] out Hi Ho. rewrite list_lookup_imap in Hi.
  destruct (decide (i < length dns)%nat) as [Hlt|Hge]; [|rewrite lookup_ge_None_2 in Ho by (rewrite length_map, length_seq; lia); done]. rewrite map_seq_lookup in Hi by done. rewrite map_seq_lookup in Ho by done. cbn in Hi. injection Hi as <- <- <- <-. injection Ho as <-.
  assert (Hb : map (fun r => cast_bound t (default (-1) (head (offsets_of G (bound dns r) (bound dns (S r)))))) (seq 0 (length dns)) = zip_with (fun a n => default (-1) (head (offsets_of G a (a + n)))) (scan 0 dns) dns).
  { rewrite (bounds_scan (fun a b => default (-1) (head (offsets_of G a b)))). apply map_ext. intros r. apply (cast_bound_id t total); [done|]. unfold offsets_of. destruct (arange _ _) as [|x l]; cbn; [specialize (Hoff 0%nat); lia|]. specialize (Hoff (Z.to_nat x)). lia. }
  rewrite Hb. rewrite (cast_bound_id t total) by (done || specialize (Hoff 0%nat); lia). rewrite drop_app_le by (rewrite length_zip_with, length_scan; lia).
  rewrite zip_with_drop, drop_scan by lia. rewrite (next_bound_spec G total (drop (S i) dns)); [|by apply Forall_drop|pose proof (bound_range dns (S i) Hd); lia| |done].
  - cbn [mbind py_bind]. f_equal. unfold eso_of, offsets_of. pose proof (bound_mono dns i Hd). rewrite (arange_app (bound dns i) (bound dns (S i)) (bound dns (S i) + 1)) by lia. rewrite (arange_cons (bound dns (S i)) (bound dns (S i) + 1)), (arange_nil (bound dns (S i) + 1) (bound dns (S i) + 1)), map_app by lia. by rewrite Z.add_0_l.
  - unfold bound. rewrite Z.add_0_l, <- zsum_app, take_drop. done.
Qed.

(** ** Exchanges *)

Definition distri_arrays (dns : list Z) : list (list Z) := map array_of_partial (partials_of dns).
Lemma distri_arrays_seq dns : distri_arrays dns = map (fun r => [bound dns r; bound dns (S r); zsum dns]) (seq 0 (length dns)).
Proof using Type. clear. unfold distri_arrays, partials_of. rewrite (bounds_scan (fun a b => Partial a b (zsum dns))), map_map. done. Qed.

Section two.
Context (dns_in dns_out : list Z) (Hin : Forall (fun n => 0 <= n) dns_in) (Hout : Forall (fun n => 0 <= n) dns_out) (Hlen : length dns_in = length dns_out) (Hsum : zsum dns_in = zsum dns_out) (Hmax : zsum dns_in <= iinfo_max d).

Lemma exchange_arrays_exact t (D : list Z) : zlen D = zsum dns_in ->
  exchange_arrays d (distri_arrays dns_in) (distri_arrays dns_out) (map (vec t) (blocks_of dns_in D)) = Ret (map (vec t) (blocks_of dns_out D)).
Proof using Hin Hout Hlen Hsum Hmax.
  intros HD. pose proof (block_to_block_exact d dns_in dns_out D Hin Hout Hlen HD ltac:(congruence) ltac:(lia)) as Hb. unfold block_to_block in Hb. unfold exchange_arrays, distri_arrays. destruct (BlockToBlock d _ _) as [[selfs|]|]; [| |done].
  - cbn [mbind py_bind] in *. assert (Hd : map a_data (map (vec t) (blocks_of dns_in D)) = blocks_of dns_in D) by (rewrite map_map; apply map_id). rewrite Hd, Hb. cbn [mbind py_bind]. f_equal.
    unfold blocks_of. rewrite !map_map, <- Hlen. by rewrite zip_seq.
  - cbn [mbind py_bind] in *. injection Hb as ->. done.
Qed.
Lemma exchange_rows_exact (cols : list (list Z)) : Forall (fun c => zlen c = zsum dns_in) cols ->
  exchange_rows d (distri_arrays dns_in) (distri_arrays dns_out) (map (fun r => map (fun c => block dns_in c r) cols) (seq 0 (length dns_in))) =
  Ret (map (fun r => map (fun c => block dns_out c r) cols) (seq 0 (length dns_in))).
Proof using Hin Hout Hlen Hsum Hmax.
  intros Hc. unfold exchange_rows. destruct dns_in as [|n0 rest] eqn:Edns.
  { cbn. by destruct dns_out. }
  rewrite <- Edns in *. assert (Hcount : default 0%nat (length <$> head (map (fun r => map (fun c => block dns_in c r) cols) (seq 0 (length dns_in)))) = length cols) by (rewrite Edns; cbn; by rewrite length_map). rewrite Hcount.
  rewrite (proj2 (forallb_forall _ _)) by (intros x Hx; apply list_elem_of_In, list_elem_of_fmap in Hx as (r & -> & _); apply bool_decide_eq_true; by rewrite length_map).
  assert (Hnews : mapM (fun ip => row ← mapM (fun r : list (list Z) => of_option RuntimeError (r !! ip)) (map (fun r => map (fun c => block dns_in c r) cols) (seq 0 (length dns_in))); block_to_block d row (distri_arrays dns_in) (distri_arrays dns_out)) (seq 0 (length cols)) = Ret (map (blocks_of dns_out) cols)).
  { apply py_mapM_lookup; [by rewrite length_seq, length_map|]. intros i ip out Hi Ho. apply lookup_seq in Hi as [-> Hi]. change (@map (list Z)) with (@fmap list _ (list Z)) in Ho. rewrite list_lookup_fmap in Ho. destruct (cols !! i) as [c|] eqn:Ec; [|done]. injection Ho as <-.
    assert (Hrow : mapM (fun r : list (list Z) => of_option RuntimeError (r !! i)) (map (fun r => map (fun c => block dns_in c r) cols) (seq 0 (length dns_in))) = Ret (blocks_of dns_in c)).
    { unfold blocks_of. generalize (seq 0 (length dns_in)). intros l. induction l as [|r l IH]; [done|]. cbn [map mapM]. rewrite (map_lookup _ cols i c Ec). cbn. by rewrite IH. }
    rewrite Nat.add_0_l, Hrow. cbn [mbind py_bind]. apply block_to_block_exact; try done; pose proof (proj1 (Forall_lookup _ _) Hc i c Ec); cbn in *; lia. }
  rewrite Hnews. cbn [mbind py_bind]. rewrite length_map, length_seq. apply py_mapM_lookup; [by rewrite length_seq, length_map, length_seq|].
  intros i r out Hi Ho. apply lookup_seq in Hi as [-> Hi]. rewrite map_seq_lookup in Ho by done. injection Ho as <-. rewrite Nat.add_0_l. clear -Hi Hlen. induction cols as [|c cols IH]; [done|]. cbn [map mapM]. assert (E : blocks_of dns_out c !! i = Some (block dns_out c i)) by (apply map_seq_lookup; lia). rewrite E. cbn. by rewrite IH.
Qed.
End two.

(** ** Nodes of the ranks *)

(** [P r n] for the node [n] of each rank [r]. *)
Definition ranks (n : nat) (P : nat -> node -> Prop) (nodes : list node) : Prop := length nodes = n /\ forall r m, nodes !! r = Some m -> P r m.
Lemma mapM_ranks {A} n P nodes (f : node -> py A) (g : nat -> A) : ranks n P nodes -> (forall r m, P r m -> f m = Ret (g r)) -> mapM f nodes = Ret (map g (seq 0 n)).
Proof using Type.
  clear. intros [Hl HP] Hf. apply py_mapM_lookup; [by rewrite length_map, length_seq|]. intros i m y Hm Hy. rewrite map_seq_lookup in Hy by (rewrite <- Hl; by eapply lookup_lt_Some). injection Hy as <-. apply Hf. by apply HP.
Qed.
Lemma with_rank_spec {A} n P Q nodes (f : A -> st ()) (g : nat -> A) : ranks n P nodes -> (forall r m, P r m -> exists m', f (g r) m = (m', Ret ()) /\ Q r m') ->
  exists nodes', with_rank f (map g (seq 0 n)) nodes = Ret nodes' /\ ranks n Q nodes'.
Proof using Type.
  clear. intros [Hl HP] Hf. unfold with_rank. rewrite bool_decide_eq_true_2 by by rewrite length_map, length_seq.
  destruct (mapM_parts (fun p : A * node => applied (f p.1) p.2) (fun p m' => exists r, nodes !! r = Some p.2 /\ p.1 = g r /\ f p.1 p.2 = (m', Ret ())) (zip (map g (seq 0 n)) nodes)) as (nodes' & E & HF).
  { intros [a m] Hin. apply list_elem_of_lookup in Hin as [r Hr]. apply lookup_zip_with_Some in Hr as (a' & m0 & [= -> ->] & Ha & Hm). rewrite map_seq_lookup in Ha by (rewrite <- Hl; by eapply lookup_lt_Some). injection Ha as <-. destruct (Hf r m0 (HP r m0 Hm)) as (m' & Em & _). exists m'. cbn [fst snd]. unfold applied. rewrite Em. split; [done|]. by exists r. }
  exists nodes'. split; [done|]. split; [rewrite <- (Forall2_length _ _ _ HF), length_zip_with, length_map, length_seq; lia|].
  intros r m' Hm'. destruct (Forall2_lookup_r _ _ _ _ _ HF Hm') as ([a m] & Hz & r' & Hr' & Ha & E2). cbn [fst snd] in *. apply lookup_zip_with_Some in Hz as (a0 & m0 & [= -> ->] & Ha0 & Hm0). rewrite map_seq_lookup in Ha0 by (rewrite <- Hl; by eapply lookup_lt_Some). injection Ha0 as <-.
  destruct (Hf r m0 (HP r m0 Hm0)) as (m1 & E1 & HQ). rewrite E1 in E2. by injection E2 as <-.
Qed.
Lemma agreed_all (b : bool) n : (0 < n)%nat -> agreed (map (fun _ => b) (seq 0 n)) = Ret b.
Proof using Type.
  clear. intros Hn. unfold agreed. destruct b.
  - rewrite (proj2 (forallb_forall _ _)); [done|]. intros x Hx. apply in_map_iff in Hx as (y & <- & _). done.
  - rewrite (proj2 (forallb_forall negb _)) by (intros x Hx; apply in_map_iff in Hx as (y & <- & _); done). by destruct n; [lia|].
Qed.

(** ** Elements with offsets *)

Lemma child_value_at n name a : Fnmatch.plain name = true -> raw_at n name = Some (Some a) -> a_type a <> T_C1 -> child_value name n = Ret a.
Proof using Type.
  intros Hp Hr Ht. unfold child_value. rewrite name_search by done. unfold raw_at in Hr. cbn [mbind py_bind]. destruct (child_named n name) as [c|]; [|done]. injection Hr as Hr. cbn [value_of]. unfold get_value. rewrite Hr. cbn [get_value_of negb andb]. rewrite bool_decide_eq_false_2 by done. done.
Qed.
Lemma set_child_spec name a v n : Fnmatch.plain name = true -> a_fcontiguous a = true -> raw_at n name = Some v ->
  exists n', set_child to_float32 name (PArray a) n = (n', Ret ()) /\ raw_at n' name = Some (Some a) /\ (forall other, other <> name -> raw_at n' other = raw_at n other) /\
    (name <> distri_name -> forall x, distri_at n' x = distri_at n x) /\ get_label n' = get_label n /\ Element_CGNSName n' = Element_CGNSName n.
Proof using Type.
  intros Hp Ha Hr. unfold raw_at in Hr. destruct (child_named n name) as [c|] eqn:Hc; [|done]. assert (Ea : NpArray (a_type a) (a_shape a) true (a_data a) = a) by (destruct a; cbn in *; by rewrite Ha).
  destruct (on_first_child n name c (set_value to_float32 (PArray a)) (Node (get_name c) (Some a) (get_children c) (get_label c)) ()) as (n' & E & H1 & H2 & Hn & Hv & Hl); [done|done| |exact (child_named_name n name c Hc)|].
  - unfold set_value, mbind, st_bind, st_lift. cbn [_convert_value]. rewrite Ea. by destruct c.
  - exists n'. split; [done|]. unfold raw_at, distri_at. rewrite H1. split; [done|]. split; [intros other Ho; by rewrite H2|]. split; [intros Hd x; by rewrite H2|]. split; [done|].
    unfold Element_CGNSName, Element_Type, check_is_label. rewrite Hl. destruct n, n'. cbn in Hv. subst. done.
Qed.

Section elements.
Context (nm : string) (t te tc tp : cgns_type) (G : list (list Z)) (PE : option (list (list Z))).
Definition offset (k : Z) : Z := bound (map zlen G) (Z.to_nat k).
Definition total : Z := offset (zlen G).
(** The arrays of the rank [r] when the elements are cut by [dns]. *)
Definition elt_v (dns : list Z) (r : nat) : value := Some (vec (gnum_type d) [bound dns r; bound dns (S r); zsum dns]).
Definition ecd_v (dns : list Z) (r : nat) : value := Some (vec te [offset (bound dns r); offset (bound dns (S r)); total]).
Definition eso_v (dns : list Z) (r : nat) : value := Some (vec t (eso_of dns G r)).
Definition ec_v (dns : list Z) (r : nat) : value := Some (vec tc (concat (block dns G r))).
Definition pe_v (dns : list Z) (r : nat) : option value :=
  cols ← PE; Some (Some (NpArray tp [bound dns (S r) - bound dns r; zlen cols] true (concat (map (fun c => block dns c r) cols)))).
Record content (elt ecd eso ec : value) (pe : option value) (n : node) : Prop := {
  c_label : get_label n = "Elements_t";
  c_type : Element_CGNSName n = Ret nm;
  c_elt : distri_at n "Element" = Some elt;
  c_ecd : distri_at n "ElementConnectivity" = Some ecd;
  c_eso : raw_at n "ElementStartOffset" = Some eso;
  c_ec : raw_at n "ElementConnectivity" = Some ec;
  c_pe : raw_at n "ParentElements" = pe }.
Definition element_block (dns : list Z) (r : nat) : node -> Prop := content (elt_v dns r) (ecd_v dns r) (eso_v dns r) (ec_v dns r) (pe_v dns r).

Context (dns_in dns_out : list Z) (Hin : Forall (fun n => 0 <= n) dns_in) (Hout : Forall (fun n => 0 <= n) dns_out) (Hlen : length dns_in = length dns_out).
Context (Hsin : zsum dns_in = zlen G) (Hsout : zsum dns_out = zlen G) (Hmax : zlen G <= iinfo_max d) (Htot : total <= iinfo_max d).
Context (Ht : fits t total) (Hte : fits te total) (Htc : tc <> T_C1) (Htp : tp <> T_C1) (HPE : forall cols, PE = Some cols -> Forall (fun c => zlen c = zlen G) cols).

Lemma offset_range k : 0 <= offset k <= total.
Proof using Type.
  clear. unfold total, offset. assert (HG : Forall (fun n => 0 <= n) (map zlen G)) by (apply Forall_fmap, Forall_forall; intros; apply zlen_nonneg). split; [by apply bound_range|]. rewrite (bound_end (map zlen G) (Z.to_nat (zlen G))) by (rewrite length_map; unfold zlen; lia). by apply bound_range.
Qed.
Lemma totals_seq (a b : nat -> Z) x l : totals (map (fun r => [a r; b r; x]) l) = Ret (map (fun _ => x) l).
Proof using Type. clear. unfold totals. induction l as [|r l IH]; [done|]. cbn [map mapM]. change (py_get [a r; b r; x] 2) with (Ret x). cbn [mbind py_bind]. by rewrite IH. Qed.
Lemma eso_ends dns r : Forall (fun n => 0 <= n) dns -> ends_of (eso_of dns G r) = Ret (offset (bound dns r), offset (bound dns (S r))).
Proof using Type.
  clear. intros Hd. unfold ends_of, eso_of, offsets_of. pose proof (bound_mono dns r Hd). pose proof (bound_range dns r Hd). 
  rewrite (arange_app (bound dns r) (bound dns (S r)) (bound dns (S r) + 1)), map_app by lia. rewrite (arange_cons (bound dns (S r)) (bound dns (S r) + 1)), (arange_nil (bound dns (S r) + 1) (bound dns (S r) + 1)) by lia. cbn [map]. rewrite py_get_snoc.
  destruct (decide (bound dns r = bound dns (S r))) as [E|E]; [rewrite E, arange_nil by lia; done|]. rewrite arange_cons by lia. done.
Qed.
Lemma eso_stage nodes : ranks (length dns_in) (element_block dns_in) nodes ->
  exists nodes', redistribute_eso to_float32 d (distri_arrays dns_in) (distri_arrays dns_out) nodes =
      Ret (nodes', map (fun r => vec te [offset (bound dns_in r); offset (bound dns_in (S r)); total]) (seq 0 (length dns_in)), map (fun r => vec te [offset (bound dns_out r); offset (bound dns_out (S r)); total]) (seq 0 (length dns_in))) /\
    ranks (length dns_in) (fun r => content (elt_v dns_in r) (ecd_v dns_in r) (eso_v dns_out r) (ec_v dns_in r) (pe_v dns_in r)) nodes'.
Proof using All.
  intros Hn. unfold redistribute_eso.
  rewrite (mapM_ranks _ _ nodes (distri_raw "ElementConnectivity") (fun r => vec te [offset (bound dns_in r); offset (bound dns_in (S r)); total]) Hn) by (intros r m Hm; apply distri_raw_at; [set_solver|apply Hm]). cbn [mbind py_bind].
  assert (Htc1 : t <> T_C1) by (destruct Ht as [[-> _]|[-> _]]; done).
  rewrite (mapM_ranks _ _ nodes (child_value "ElementStartOffset") (fun r => vec t (eso_of dns_in G r)) Hn) by (intros r m Hm; apply child_value_at; [done|apply Hm|done]). cbn [mbind py_bind]. rewrite !map_map. cbn [a_data a_type vec].
  set (D := offsets_of G 0 (zlen G)). assert (HD : zlen D = zlen G) by (unfold D, offsets_of, zlen; rewrite length_map, length_arange; lia).
  assert (Hblk : forall dns r, Forall (fun n => 0 <= n) dns -> zsum dns = zlen G -> block dns D r = offsets_of G (bound dns r) (bound dns (S r))).
  { intros dns r Hd Hs. pose proof (bound_mono dns r Hd). pose proof (bound_range dns r Hd). pose proof (bound_range dns (S r) Hd). apply offsets_part; lia. }
  assert (Hwo : map (fun r => take (length (eso_of dns_in G r) - 1) (eso_of dns_in G r)) (seq 0 (length dns_in)) = blocks_of dns_in D).
  { apply map_ext. intros r. unfold eso_of. rewrite eso_wo_last by by apply bound_mono. symmetry. by apply Hblk. }
  assert (Hb : block_to_block d (blocks_of dns_in D) (distri_arrays dns_in) (distri_arrays dns_out) = Ret (blocks_of dns_out D)) by (apply block_to_block_exact; done || lia).
  rewrite Hwo, Hb. cbn [mbind py_bind].
  assert (Htots : totals (map (fun r => [offset (bound dns_in r); offset (bound dns_in (S r)); total]) (seq 0 (length dns_in))) = Ret (map (fun _ => total) (seq 0 (length dns_in)))) by apply (totals_seq (fun r => offset (bound dns_in r)) (fun r => offset (bound dns_in (S r)))).
  rewrite Htots. cbn [mbind py_bind]. assert (Hout' : blocks_of dns_out D = map (fun r => offsets_of G (bound dns_out r) (bound dns_out (S r))) (seq 0 (length dns_out))) by (apply map_ext; intros r; by apply Hblk).
  pose proof (eso_gathers_spec t dns_out G Hout Hsout Ht) as Hg. cbn zeta in Hg. fold (offset (zlen G)) in Hg. fold total in Hg. rewrite Hout', Hlen, Hg. cbn [mbind py_bind]. rewrite zip_seq.
  destruct (with_rank_spec (length dns_in) (element_block dns_in) (fun r => content (elt_v dns_in r) (ecd_v dns_in r) (eso_v dns_out r) (ec_v dns_in r) (pe_v dns_in r)) nodes
    (fun p : nparray * list Z => set_child to_float32 "ElementStartOffset" (PArray (vec (a_type p.1) p.2))) (fun r => (vec t (eso_of dns_in G r), eso_of dns_out G r)) Hn) as (nodes' & E & Hn').
  { intros r m Hm. destruct (set_child_spec "ElementStartOffset" (vec t (eso_of dns_out G r)) (eso_v dns_in r) m) as (m' & Em & H1 & H2 & H3 & H4 & H5); [done|done|apply Hm|]. exists m'. split; [done|].
    split; [rewrite H4; apply Hm|rewrite H5; apply Hm|rewrite H3 by done; apply Hm|rewrite H3 by done; apply Hm|done|rewrite H2 by done; apply Hm|rewrite H2 by done; apply Hm]. }
  rewrite <- Hlen, E. cbn [mbind py_bind]. exists nodes'. split; [|done].
  assert (Hends : mapM ends_of (map (eso_of dns_out G) (seq 0 (length dns_in))) = Ret (map (fun r => (offset (bound dns_out r), offset (bound dns_out (S r)))) (seq 0 (length dns_in)))).
  { clear -Hout. generalize (seq 0 (length dns_in)). intros l. induction l as [|r l IH]; [done|]. cbn [map mapM]. rewrite eso_ends by done. cbn [mbind py_bind]. by rewrite IH. }
  rewrite Hends. cbn [mbind py_bind]. rewrite zip_seq. do 2 f_equal. apply map_ext. intros r. unfold with_bounds. cbn [a_type vec a_data fst snd drop app]. pose proof (offset_range (bound dns_out r)). pose proof (offset_range (bound dns_out (S r))). by rewrite !(cast_bound_id te total) by (done || lia).
Qed.

(** The sizes of the connectivities of the ranks. *)
Definition ec_sizes (dns : list Z) : list Z := map (fun r => zlen (concat (block dns G r))) (seq 0 (length dns)).
Lemma ec_bound dns r : Forall (fun n => 0 <= n) dns -> zsum dns = zlen G -> (r <= length dns)%nat -> bound (ec_sizes dns) r = offset (bound dns r).
Proof using Type.
  clear. intros Hd Hs Hr. assert (HG : forall k, offset k = zlen (concat (take (Z.to_nat k) G))) by (intros k; unfold offset, bound; rewrite zlen_concat; f_equal; symmetry; apply fmap_take).
  rewrite HG. unfold bound at 1, ec_sizes. rewrite firstn_map, take_seq, Nat.min_l by lia. rewrite <- (map_map (block dns G) (fun l => zlen (concat l))), <- (map_map (@concat Z) zlen). rewrite zsum_zlen, <- concat_concat. do 2 f_equal.
  unfold block. rewrite (concat_part (bound dns)) by (intros k; by apply bound_mono). change (bound dns 0) with 0. unfold part. cbn. by rewrite drop_0, Nat.sub_0_r.
Qed.
Lemma ec_sizes_ok dns : Forall (fun n => 0 <= n) dns -> zsum dns = zlen G -> Forall (fun n => 0 <= n) (ec_sizes dns) /\ zsum (ec_sizes dns) = zlen (concat G) /\ length (ec_sizes dns) = length dns /\ total = zlen (concat G) /\
  blocks_of (ec_sizes dns) (concat G) = map (@concat Z) (blocks_of dns G) /\ distri_arrays (ec_sizes dns) = map (fun r => [offset (bound dns r); offset (bound dns (S r)); total]) (seq 0 (length dns)).
Proof using Type.
  clear. intros Hd Hs. assert (Hl : length (ec_sizes dns) = length dns) by (unfold ec_sizes; by rewrite length_map, length_seq).
  assert (Hblk : ec_sizes dns = map zlen (map (@concat Z) (blocks_of dns G))) by (unfold ec_sizes, blocks_of; by rewrite !map_map). assert (Hcat : concat (map (@concat Z) (blocks_of dns G)) = concat G) by (rewrite <- concat_concat; f_equal; by apply concat_blocks).
  assert (Hsum : zsum (ec_sizes dns) = zlen (concat G)) by (rewrite Hblk, zsum_zlen; by rewrite Hcat).
  assert (Htot : total = zlen (concat G)) by (rewrite <- Hsum; unfold total; rewrite <- Hs, <- (bound_end dns (length dns)) by lia; rewrite <- ec_bound by (done || lia); apply bound_end; lia).
  split; [|split; [done|split; [done|split; [done|split]]]].
  - unfold ec_sizes. apply Forall_fmap, Forall_forall. intros r _. apply zlen_nonneg.
  - rewrite <- Hcat, Hblk. apply blocks_unique.
  - rewrite distri_arrays_seq, Hl. apply list_eq. intros i. destruct (decide (i < length dns)%nat) as [Hi|Hi]; [|rewrite !lookup_ge_None_2 by (rewrite length_map, length_seq; lia); done]. rewrite !map_seq_lookup by done. rewrite !ec_bound by (done || lia). by rewrite Hsum, Htot.
Qed.

Lemma ec_exchange : exchange_arrays d (map (fun r => [offset (bound dns_in r); offset (bound dns_in (S r)); total]) (seq 0 (length dns_in))) (map (fun r => [offset (bound dns_out r); offset (bound dns_out (S r)); total]) (seq 0 (length dns_in)))
    (map (fun r => vec tc (concat (block dns_in G r))) (seq 0 (length dns_in))) = Ret (map (fun r => vec tc (concat (block dns_out G r))) (seq 0 (length dns_in))).
Proof using Hin Hout Hlen Hsin Hsout Htot.
  destruct (ec_sizes_ok dns_in Hin Hsin) as (H1 & H2 & H3 & H4 & H5 & H6). destruct (ec_sizes_ok dns_out Hout Hsout) as (K1 & K2 & K3 & K4 & K5 & K6).
  pose proof (exchange_arrays_exact (ec_sizes dns_in) (ec_sizes dns_out) H1 K1 ltac:(lia) ltac:(lia) ltac:(lia) tc (concat G) ltac:(lia)) as He. rewrite H5, K5, H6, K6 in He. unfold blocks_of in He. rewrite !map_map, <- Hlen in He. exact He.
Qed.

Lemma distri_stage nodes : ranks (length dns_in) (fun r => content (elt_v dns_in r) (ecd_v dns_in r) (eso_v dns_out r) (ec_v dns_in r) (pe_v dns_in r)) nodes ->
  exists nodes', with_rank (fun '(p, a) => newDistribution to_float32 [("Element", partial_array d p); ("ElementConnectivity", PArray a)])
      (map (fun r => (Partial (bound dns_out r) (bound dns_out (S r)) (zsum dns_out), vec te [offset (bound dns_out r); offset (bound dns_out (S r)); total])) (seq 0 (length dns_in))) nodes = Ret nodes' /\
    ranks (length dns_in) (fun r => content (elt_v dns_out r) (ecd_v dns_out r) (eso_v dns_out r) (ec_v dns_in r) (pe_v dns_in r)) nodes'.
Proof using Type.
  intros Hn. eapply with_rank_spec; [exact Hn|]. intros r m Hm. cbn beta iota.
  destruct (newDistribution_spec [("Element", partial_array d (Partial (bound dns_out r) (bound dns_out (S r)) (zsum dns_out))); ("ElementConnectivity", PArray (vec te [offset (bound dns_out r); offset (bound dns_out (S r)); total]))] m) as (m' & E & H1 & H2 & H3 & H4 & H5).
  - apply (bool_decide_unpack _). vm_compute. exact I.
  - repeat constructor; by eexists.
  - exists m'. split; [done|]. split; [rewrite H5; apply Hm| | | |rewrite H2 by done; apply Hm|rewrite H2 by done; apply Hm|rewrite H2 by done; apply Hm].
    + rewrite <- (c_type _ _ _ _ _ _ Hm). unfold Element_CGNSName, Element_Type, check_is_label. by rewrite H5, H4.
    + destruct (H1 "Element" _ (list_elem_of_here _ _)) as (x & Hx & Hr). rewrite Hx. cbn in Hr. by injection Hr as ->.
    + destruct (H1 "ElementConnectivity" _ (list_elem_of_further _ _ _ (list_elem_of_here _ _))) as (x & Hx & Hr). rewrite Hx. cbn in Hr. by injection Hr as ->.
Qed.

Lemma zlen_block {A} dns (D : list A) r : Forall (fun n => 0 <= n) dns -> zlen D = zsum dns -> zlen (block dns D r) = bound dns (S r) - bound dns r.
Proof using Type. clear. intros Hd HD. pose proof (bound_mono dns r Hd). pose proof (bound_range dns r Hd). pose proof (bound_range dns (S r) Hd). apply zlen_part; lia. Qed.
Lemma pe_stage cols nodes : PE = Some cols -> ranks (length dns_in) (fun r => content (elt_v dns_out r) (ecd_v dns_out r) (eso_v dns_out r) (ec_v dns_out r) (pe_v dns_in r)) nodes ->
  exists nodes', redistribute_pe to_float32 d (distri_arrays dns_in) (distri_arrays dns_out) (map (fun r => bound dns_out (S r) - bound dns_out r) (seq 0 (length dns_in))) nodes = Ret nodes' /\ ranks (length dns_in) (element_block dns_out) nodes'.
Proof using All.
  intros Hcols Hn. pose proof (HPE cols Hcols) as Hc. unfold redistribute_pe.
  set (raw dns r := NpArray tp [bound dns (S r) - bound dns r; zlen cols] true (concat (map (fun c => block dns c r) cols))).
  rewrite (mapM_ranks _ _ nodes (child_value "ParentElements") (raw dns_in) Hn) by (intros r m Hm; apply child_value_at; [done|rewrite (c_pe _ _ _ _ _ _ Hm); unfold pe_v; by rewrite Hcols|done]). cbn [mbind py_bind].
  assert (Hcolumns : mapM (fun a => match a_shape a with [n; k] => Ret (blocks (Z.to_nat n) (Z.to_nat k) (a_data a)) | _ => Raise IndexError end) (map (raw dns_in) (seq 0 (length dns_in))) = Ret (map (fun r => map (fun c => block dns_in c r) cols) (seq 0 (length dns_in)))).
  { apply py_mapM_lookup; [by rewrite !length_map|]. intros r a out Ha Ho. destruct (decide (r < length dns_in)%nat) as [Hr|Hr]; [|rewrite lookup_ge_None_2 in Ho by (rewrite length_map, length_seq; lia); done]. rewrite map_seq_lookup in Ha by done. rewrite map_seq_lookup in Ho by done. injection Ha as <-. injection Ho as <-. unfold raw. cbn [a_shape a_data]. f_equal.
    replace (Z.to_nat (zlen cols)) with (length (map (fun c => block dns_in c r) cols)) by (rewrite length_map; unfold zlen; lia). rewrite <- (app_nil_r (concat _)). apply blocks_concat. apply Forall_fmap, (Forall_impl _ _ _ Hc). intros c Hcc. cbn. pose proof (zlen_block dns_in c r Hin ltac:(lia)). unfold zlen in *. lia. }
  rewrite Hcolumns. cbn [mbind py_bind]. rewrite exchange_rows_exact; [|done..|lia|lia|rewrite Hsin; done]. cbn [mbind py_bind]. rewrite !zip_seq.
  assert (Hchk : exists u, mapM (fun '(n, cs) => mapM (fun c : list Z => if bool_decide (zlen c = n) then Ret () else Raise ValueError) cs) (map (fun r => (bound dns_out (S r) - bound dns_out r, map (fun c => block dns_out c r) cols)) (seq 0 (length dns_in))) = Ret u).
  { generalize (seq 0 (length dns_in)). intros l. induction l as [|r l [u IH]]; [by exists []|]. cbn [map mapM].
    assert (Hm : exists v, mapM (fun c : list Z => if bool_decide (zlen c = bound dns_out (S r) - bound dns_out r) then Ret () else Raise ValueError) (map (fun c => block dns_out c r) cols) = Ret v).
    { clear -Hc Hout Hsout. induction Hc as [|c l Hcc _ [v IH]]; [by exists []|]. cbn [map mapM]. rewrite bool_decide_eq_true_2 by (apply zlen_block; [done|lia]). cbn [mbind py_bind]. rewrite IH. by eexists. }
    destruct Hm as [v ->]. cbn [mbind py_bind]. rewrite IH. by eexists. }
  destruct Hchk as [u ->]. cbn [mbind py_bind].
  eapply with_rank_spec; [exact Hn|]. intros r m Hm. cbn beta iota. assert (Epe : pe_v dns_out r = Some (Some (raw dns_out r))) by (unfold pe_v; by rewrite Hcols).
  assert (Hz : zlen (map (fun c => block dns_out c r) cols) = zlen cols) by (unfold zlen; by rewrite length_map). rewrite Hz.
  destruct (set_child_spec "ParentElements" (raw dns_out r) (Some (raw dns_in r)) m) as (m' & Em & H1 & H2 & H3 & H4 & H5); [done|done|rewrite (c_pe _ _ _ _ _ _ Hm); unfold pe_v; by rewrite Hcols|]. exists m'. split; [done|].
  split; [rewrite H4; apply Hm|rewrite H5; apply Hm|rewrite H3 by done; apply Hm|rewrite H3 by done; apply Hm|rewrite H2 by done; apply Hm|rewrite H2 by done; apply Hm|by rewrite H1, Epe].
Qed.

Lemma ec_stage nodes : ranks (length dns_in) (fun r => content (elt_v dns_out r) (ecd_v dns_out r) (eso_v dns_out r) (ec_v dns_in r) (pe_v dns_in r)) nodes ->
  exists nodes', with_rank (fun a => set_child to_float32 "ElementConnectivity" (PArray a)) (map (fun r => vec tc (concat (block dns_out G r))) (seq 0 (length dns_in))) nodes = Ret nodes' /\
    ranks (length dns_in) (fun r => content (elt_v dns_out r) (ecd_v dns_out r) (eso_v dns_out r) (ec_v dns_out r) (pe_v dns_in r)) nodes'.
Proof using Type.
  intros Hn. eapply with_rank_spec; [exact Hn|]. intros r m Hm. destruct (set_child_spec "ElementConnectivity" (vec tc (concat (block dns_out G r))) (ec_v dns_in r) m) as (m' & Em & H1 & H2 & H3 & H4 & H5); [done|done|apply Hm|]. exists m'. split; [done|].
  split; [rewrite H4; apply Hm|rewrite H5; apply Hm|rewrite H3 by done; apply Hm|rewrite H3 by done; apply Hm|rewrite H2 by done; apply Hm|done|rewrite H2 by done; apply Hm].
Qed.

Lemma elements_redistributed distribution nodes : nm ∈ ["NGON_n"; "NFACE_n"; "MIXED"] -> (0 < length dns_in)%nat ->
  distributions distribution (map (fun _ => zlen G) (seq 0 (length dns_in))) = Ret (partials_of dns_out) -> ranks (length dns_in) (element_block dns_in) nodes ->
  exists nodes', redistribute_elements_node to_float32 d distribution nodes = Ret nodes' /\ ranks (length dns_in) (element_block dns_out) nodes'.
Proof using All.
  intros Hnm Hpos Hdis Hn. unfold redistribute_elements_node.
  rewrite (mapM_ranks _ _ nodes _ (fun _ => ()) Hn) by (intros r m Hm; by rewrite bool_decide_eq_true_2 by apply Hm). cbn [mbind py_bind].
  rewrite (mapM_ranks _ _ nodes Element_CGNSName (fun _ => nm) Hn) by (intros r m Hm; apply Hm). cbn [mbind py_bind]. rewrite map_map, agreed_all by done. cbn [mbind py_bind].
  rewrite (mapM_ranks _ _ nodes (distri_raw "Element") (fun r => vec (gnum_type d) [bound dns_in r; bound dns_in (S r); zsum dns_in]) Hn) by (intros r m Hm; apply distri_raw_at; [set_solver|apply Hm]). cbn [mbind py_bind]. rewrite map_map. cbn [a_data vec].
  rewrite totals_seq, Hsin. cbn [mbind py_bind]. rewrite Hdis. cbn [mbind py_bind]. rewrite bool_decide_eq_true_2 by done. cbn iota.
  assert (Hparts : partials_of dns_out = map (fun r => Partial (bound dns_out r) (bound dns_out (S r)) (zsum dns_out)) (seq 0 (length dns_in))) by (unfold partials_of; rewrite (bounds_scan (fun a b => Partial a b (zsum dns_out))), Hlen; done).
  pose proof (distri_arrays_seq dns_in) as Hdi. rewrite Hsin in Hdi. rewrite <- Hdi. change (arrays_of_partials (partials_of dns_out)) with (distri_arrays dns_out).
  destruct (eso_stage nodes Hn) as (n1 & E1 & Hn1). rewrite E1. cbn [mbind py_bind]. rewrite Hparts, zip_seq. destruct (distri_stage n1 Hn1) as (n2 & E2 & Hn2). rewrite E2. cbn [mbind py_bind]. rewrite !map_map. cbn [a_data vec p_end p_start].
  rewrite (mapM_ranks _ _ n2 (child_value "ElementConnectivity") (fun r => vec tc (concat (block dns_in G r))) Hn2) by (intros r m Hm; apply child_value_at; [done|apply Hm|done]). cbn [mbind py_bind]. rewrite ec_exchange. cbn [mbind py_bind].
  destruct (ec_stage n2 Hn2) as (n3 & E3 & Hn3). rewrite E3. cbn [mbind py_bind].
  assert (Hpe : forall r m, content (elt_v dns_out r) (ecd_v dns_out r) (eso_v dns_out r) (ec_v dns_out r) (pe_v dns_in r) m -> (o ← get_child_from_name m "ParentElements" no_kw; Ret (negb (is_none o))) = Ret (negb (is_none PE))).
  { intros r m Hm. rewrite name_search by done. cbn [mbind py_bind]. f_equal. pose proof (c_pe _ _ _ _ _ _ Hm) as Hc. unfold raw_at, pe_v in Hc. destruct (child_named m "ParentElements"), PE; done. }
  assert (Hns : exists os, mapM (fun n => get_child_from_name n "ParentElements" no_kw) n3 = Ret os /\ map (fun o : option node => negb (is_none o)) os = map (fun _ => negb (is_none PE)) (seq 0 (length dns_in))).
  { pose proof (mapM_ranks _ _ n3 _ (fun _ => negb (is_none PE)) Hn3 Hpe) as Hm. revert Hm. generalize (map (fun _ => negb (is_none PE)) (seq 0 (length dns_in))). clear. induction n3 as [|m n3 IH]; intros bs Hm; [injection Hm as <-; by exists []|].
    cbn [mapM] in *. destruct (get_child_from_name m "ParentElements" no_kw) as [o|]; [|done]. cbn [mbind py_bind] in *. destruct (mapM (fun x => _ ≫= _) n3) as [bs'|] eqn:Eb in Hm; [|done]. cbn [mbind py_bind] in Hm. injection Hm as <-. destruct (IH bs' Eb) as (os & -> & <-). cbn [mbind py_bind]. by eexists. }
  destruct Hns as (os & -> & Hos). cbn [mbind py_bind]. rewrite Hos, agreed_all by done. cbn [mbind py_bind]. 
  assert (Hcase : PE = None \/ exists cols, PE = Some cols) by (destruct PE; eauto). destruct Hcase as [EPE|[cols EPE]].
  - rewrite EPE. cbn [is_none negb]. exists n3. split; [done|]. destruct Hn3 as [Hl3 Hn3]. split; [done|]. intros r m Hm. specialize (Hn3 r m Hm). unfold element_block. replace (pe_v dns_out r) with (pe_v dns_in r) by (unfold pe_v; by rewrite EPE). done.
  - replace (is_none PE) with false by by rewrite EPE. cbn [negb]. apply (pe_stage cols n3 EPE Hn3).
Qed.
End elements.
End spec.

(** ** Properties *)

(** Sizes that cut an array of [n] elements in the blocks of the ranks. *)
Definition cuts (n : Z) (dns : list Z) : Prop := Forall (fun k => 0 <= k) dns /\ zsum dns = n.

(** C28: the redistribution of polyhedral elements ends and gives each rank the offsets, connectivity, parents and distributions of
    its block of the elements for the new distribution, also next to ranks without elements; redistributed back, the
    arrays are the initial ones. *)
Theorem redistribute_elements_spec `{ArrayEqual} (to_float32 : Z -> Z) (d : dtype) (nm : string) (t te tc tp : cgns_type) (G : list (list Z)) (PE : option (list (list Z)))
    (dns_in dns_out : list Z) (there back : list (Z -> py partial)) (nodes : list node) :
  nm ∈ ["NGON_n"; "NFACE_n"; "MIXED"] -> (0 < length dns_in)%nat -> length dns_in = length dns_out -> cuts (zlen G) dns_in -> cuts (zlen G) dns_out ->
  zlen G <= iinfo_max d -> total G <= iinfo_max d -> fits t (total G) -> fits te (total G) -> tc <> T_C1 -> tp <> T_C1 -> (forall cols, PE = Some cols -> Forall (fun c => zlen c = zlen G) cols) ->
  distributions there (map (fun _ => zlen G) (seq 0 (length dns_in))) = Ret (partials_of dns_out) -> distributions back (map (fun _ => zlen G) (seq 0 (length dns_in))) = Ret (partials_of dns_in) ->
  ranks (length dns_in) (element_block d nm t te tc tp G PE dns_in) nodes ->
  exists nodes' nodes'', redistribute_elements_node to_float32 d there nodes = Ret nodes' /\ ranks (length dns_in) (element_block d nm t te tc tp G PE dns_out) nodes' /\
    redistribute_elements_node to_float32 d back nodes' = Ret nodes'' /\ ranks (length dns_in) (element_block d nm t te tc tp G PE dns_in) nodes''.
Proof.
  intros Hnm Hpos Hlen [Hin Hsin] [Hout Hsout] Hmax Htot Ht Hte Htc Htp HPE Hth Hbk Hn.
  destruct (elements_redistributed to_float32 d nm t te tc tp G PE dns_in dns_out Hin Hout Hlen Hsin Hsout Hmax Htot Ht Hte Htc Htp HPE there nodes Hnm Hpos Hth Hn) as (n' & E & Hn').
  destruct (elements_redistributed to_float32 d nm t te tc tp G PE dns_out dns_in Hout Hin (eq_sym Hlen) Hsout Hsin Hmax Htot Ht Hte Htc Htp HPE back n' Hnm ltac:(lia)) as (n'' & E' & Hn''); [by rewrite <- Hlen|by rewrite <- Hlen|].
  exists n', n''. rewrite <- Hlen in Hn''. done.
Qed.

Section example.
Local Instance any_equal : ArrayEqual := fun _ _ => true.
Definition array_node (name : string) (a : nparray) : node := Node name (Some a) [] "DataArray_t".
(** Three faces of 3, 4 and 3 vertices, two on the rank 0, none on the rank 1, and one on the rank 2. *)
Definition faces : list (list Z) := [[1; 2; 3]; [4; 5; 6; 7]; [8; 9; 10]].
Definition face_node (elt ecd eso ec pe : list Z) : node :=
  Node "NGon" (Some (vec T_I4 [22; 0]))
    [array_node "ElementStartOffset" (vec T_I4 eso); array_node "ElementConnectivity" (vec T_I4 ec); array_node "ParentElements" (NpArray T_I4 [zlen pe / 2; 2] true pe);
     Node ":CGNS#Distribution" None [array_node "Element" (vec T_I8 elt); array_node "ElementConnectivity" (vec T_I8 ecd)] "UserDefinedData_t"] "Elements_t".
Definition face_nodes : list node :=
  [face_node [0; 2; 3] [0; 7; 10] [0; 3; 7] [1; 2; 3; 4; 5; 6; 7] [1; 2; 0; 1]; face_node [2; 2; 3] [7; 7; 10] [7] [] []; face_node [2; 3; 3] [7; 10; 10] [7; 10] [8; 9; 10] [2; 2]].
Definition to_rank (k : Z) : list (Z -> py partial) := map (fun r n => Ret (gathering_distribution Prelude.I8 k n (Z.of_nat r))) (seq 0 3).
Definition as_given : list (Z -> py partial) := map (fun p _ => Ret p) (partials_of [2; 0; 1]).

Lemma redistribute_elements_spec_witness : exists nodes' nodes'',
  redistribute_elements_node (fun x => x) Prelude.I8 (to_rank 1) face_nodes = Ret nodes' /\ ranks 3 (element_block Prelude.I8 "NGON_n" T_I4 T_I8 T_I4 T_I4 faces (Some [[1; 2; 2]; [0; 1; 2]]) [0; 3; 0]) nodes' /\
  redistribute_elements_node (fun x => x) Prelude.I8 as_given nodes' = Ret nodes'' /\ ranks 3 (element_block Prelude.I8 "NGON_n" T_I4 T_I8 T_I4 T_I4 faces (Some [[1; 2; 2]; [0; 1; 2]]) [2; 0; 1]) nodes''.
Proof.
  apply (redistribute_elements_spec (fun x => x) Prelude.I8 "NGON_n" T_I4 T_I8 T_I4 T_I4 faces (Some [[1; 2; 2]; [0; 1; 2]]) [2; 0; 1] [0; 3; 0] (to_rank 1) as_given face_nodes).
  all: try (by vm_compute). all: try (cbn; lia).
  - set_solver.
  - split; [repeat constructor; lia|done].
  - split; [repeat constructor; lia|done].
  - left. by vm_compute.
  - right. by vm_compute.
  - intros cols [= <-]. by repeat constructor.
  - split; [done|]. intros r m Hm. destruct r as [|[|[|r]]]; cbn in Hm; [injection Hm as <-..|done]; by split.
Defined.

(** The connectivity of standard elements that a full tree gives is distributed with a node [ElementConnectivity], which the redistribution leaves as it is. *)
Definition triangles : node :=
  Node "Tri" (Some (vec T_I4 [5; 0])) [Node "ElementRange" (Some (vec T_I4 [1; 2])) [] "IndexRange_t"; array_node "ElementConnectivity" (vec T_I4 [1; 2; 3; 4; 5; 6])] "Elements_t".
Definition gathered : py (list node) :=
  parts ← mapM (fun r => distribute_element_node (fun x => x) Prelude.I8 r 2 triangles) [0; 1];
  redistribute_elements_node (fun x => x) Prelude.I8 (map (fun r n => Ret (gathering_distribution Prelude.I8 0 n (Z.of_nat r))) (seq 0 2)) parts.
(** Gathering standard elements on a rank moves their connectivity but not the distribution of it that [full_to_dist] has stored. *)
Theorem stale_connectivity_distribution :
  (l ← gathered; Ret (map (fun n => (data_at n "ElementConnectivity", distri_at n "Element", distri_at n "ElementConnectivity")) l)) =
  Ret [([1; 2; 3; 4; 5; 6], Some (Some (vec T_I8 [0; 2; 2])), Some (Some (vec T_I8 [0; 3; 6]))); ([], Some (Some (vec T_I8 [2; 2; 2])), Some (Some (vec T_I8 [3; 6; 6])))].
Proof. vm_compute. reflexivity. Qed.
End example.
End RedistributeSpec.
