(* ===== verification/Transfer.v ===== *)
(** * Transfers between distributed and partitioned trees: [maia/transfer/utils.py] and the partitions of [protocols.py]

    A zone of the distributed tree is cut by intervals of global numbers; its partitions, of which a rank may have
    several, know the global numbers of their entities.  The exchanges are those of ParaDiGM: a class of operations on
    the arrays of all the partitions of all the ranks, with its laws. *)
From S2P Require Import Prelude PyUtils NpUtils Values Conventions Fnmatch Tree Parsers Walkers Search Distribution Protocols Sids Refs Presets MaiaNodes Joins.

Local Open Scope Z_scope.

Module Transfer.
Import NpUtils Values Conventions Tree Walkers Search Distribution Protocols Sids Refs Presets MaiaNodes Joins.

(** ** Exchanges *)

(** What each partition of each rank has. *)
Abbreviation parts A := (list (list A)).
(** [btp]: BlockToPart.exchange_field; [ptb_distri]: the distribution that PartToBlock computes; [ptb_numbers]:
    getBlockGnumCopy; [ptb_first] and [ptb_all]: exchange_field, which keeps one value of each number or all of them.
    The first argument is the full distribution. *)
Class parts_exchange : Type := {
  btp : forall {A : Type}, list Z -> list (list A) -> parts (list Z) -> parts (list A);
  ptb_distri : parts (list Z) -> list Z;
  ptb_numbers : list Z -> parts (list Z) -> list (list Z);
  ptb_first : forall {A : Type}, list Z -> parts (list Z) -> parts (list A) -> list (list A);
  ptb_all : forall {A : Type}, list Z -> parts (list Z) -> parts (list A) -> list (list (list A))
}.

(** All the numbers of the partitions, with the values given with them. *)
Definition all_numbers (lngn : parts (list Z)) : list Z := concat (concat lngn).
Definition given {A} (lngn : parts (list Z)) (fields : parts (list A)) : list (Z * A) := zip (all_numbers lngn) (concat (concat fields)).
Definition sized {A} (lngn : parts (list Z)) (fields : parts (list A)) : Prop := Forall2 (Forall2 (fun l f => length l = length f)) lngn fields.
Definition in_range (total : Z) (lngn : parts (list Z)) : Prop := Forall (Forall (Forall (fun g => 1 <= g <= total))) lngn.

Class parts_exchange_laws (E : parts_exchange) : Prop := {
  law_btp A dns (data : list (list A)) lngn :
    Forall2 (fun n l => zlen l = n) dns data -> length lngn = length dns -> in_range (zsum dns) lngn ->
    Forall2 (Forall2 (Forall2 (fun g x => concat data !! Z.to_nat (g - 1) = Some x))) lngn (btp (scan 0 dns) data lngn);
  law_distri lngn : Forall (Forall (Forall (fun g => 1 <= g))) lngn ->
    exists dns, ptb_distri lngn = scan 0 dns /\ length dns = length lngn /\ Forall (fun n => 0 <= n) dns /\ zsum dns = foldr Z.max 0 (all_numbers lngn);
  law_numbers dns lngn :
    Forall (fun n => 0 <= n) dns -> length lngn = length dns -> in_range (zsum dns) lngn ->
    length (ptb_numbers (scan 0 dns) lngn) = length dns /\
    forall r p l, partials_of dns !! r = Some p -> ptb_numbers (scan 0 dns) lngn !! r = Some l ->
      StronglySorted Z.lt l /\ forall g, g ∈ l <-> g ∈ all_numbers lngn /\ p_start p < g <= p_end p;
  law_first A dns lngn (fields : parts (list A)) :
    Forall (fun n => 0 <= n) dns -> length lngn = length dns -> in_range (zsum dns) lngn -> sized lngn fields ->
    Forall2 (Forall2 (fun g x => (g, x) ∈ given lngn fields)) (ptb_numbers (scan 0 dns) lngn) (ptb_first (scan 0 dns) lngn fields);
  law_all A dns lngn (fields : parts (list A)) :
    Forall (fun n => 0 <= n) dns -> length lngn = length dns -> in_range (zsum dns) lngn -> sized lngn fields ->
    Forall2 (Forall2 (fun g l => l ≡ₚ map snd (filter (fun p => p.1 = g) (given lngn fields)))) (ptb_numbers (scan 0 dns) lngn) (ptb_all (scan 0 dns) lngn fields)
}.

(** [PDM.MultiBlockToPart]: the blocks of several domains, numbered one after the other. *)
Class multi_exchange : Type := { mbtp : forall {A : Type}, list (list Z) -> list (list (list A)) -> parts (list Z) -> parts (list A) }.
Class multi_exchange_laws (E : multi_exchange) : Prop := {
  law_mbtp A dnss (data : list (list (list A))) lngn :
    Forall2 (Forall2 (fun n l => zlen l = n)) dnss data -> Forall (fun dns => length lngn = length dns) dnss -> in_range (zsum (map zsum dnss)) lngn ->
    Forall2 (Forall2 (Forall2 (fun g x => concat (concat data) !! Z.to_nat (g - 1) = Some x))) lngn (mbtp (map (scan 0) dnss) data lngn)
}.

(** ** Dictionaries *)

(** A Python dictionary with strings as keys, in the order of the insertions. *)
Abbreviation dict A := (list (string * A)).
Fixpoint dict_set {A} (k : string) (v : A) (m : dict A) : dict A :=
  match m with [] => [(k, v)] | (k', v') :: m' => if bool_decide (k' = k) then (k, v) :: m' else (k', v') :: dict_set k v m' end.
Definition dict_get {A} (k : string) (m : dict A) : py A := of_option KeyError (snd <$> List.find (fun p => bool_decide (p.1 = k)) m).
Definition dict_of {A} (l : dict A) : dict A := foldl (fun m p => dict_set p.1 p.2 m) [] l.

(** What all the ranks have to agree on for the exchanges to meet. *)
Definition common {A} `{EqDecision A} (l : list A) : py A :=
  match l with [] => Raise RuntimeError | x :: l' => if forallb (fun y => bool_decide (y = x)) l' then Ret x else Raise RuntimeError end.

Section exchanges.
Context `{parts_exchange} (d : dtype).

(** The distribution of an exchange object: each rank expands its own. *)
Definition full_of (distris : list (list Z)) : py (list Z) := fulls ← auto_expand_distri d distris; common fulls.

(** [block_to_part(dist_data, distri, ln_to_gn_list, comm)] for one array of each rank. *)
Definition block_to_part (data : list nparray) (distris : list (list Z)) (lngn : parts (list Z)) : py (parts nparray) :=
  full ← full_of distris;
  t ← common (map a_type data);
  Ret (map (map (vec t)) (btp full (map a_data data) lngn)).
(** The strides count the data of each number. *)
Fixpoint split_strides {A} (stride : list Z) (l : list A) : list (list A) :=
  match stride with [] => [] | n :: stride' => take (Z.to_nat n) l :: split_strides stride' (drop (Z.to_nat n) l) end.
Definition block_to_part_strided {A} (stride : list (list Z)) (data : list (list A)) (distris : list (list Z)) (lngn : parts (list Z)) : py (parts (list Z) * parts (list A)) :=
  full ← full_of distris;
  let chunks := btp full (zip_with split_strides stride data) lngn in
  Ret (map (map (map zlen)) chunks, map (map (@concat A)) chunks).
(** [part_to_block(part_data, distri, ln_to_gn_list, comm, reduce_func)] for one array of each partition: [reduce_func]
    takes the values of all the numbers of a rank, one after the other, and how many there are for each number. *)
Definition part_to_block (data : parts nparray) (distris : list (list Z)) (lngn : parts (list Z)) (reduce_func : option (list Z -> list Z -> py (list Z))) : py (list nparray) :=
  full ← full_of distris;
  t ← common (map a_type (concat data));
  out ← match reduce_func with
        | Some f => mapM (fun groups => f (concat groups) (map zlen groups)) (ptb_all full lngn (map (map a_data) data))
        | None => Ret (ptb_first full lngn (map (map a_data) data))
        end;
  Ret (map (vec t) out).
End exchanges.

(** ** Utilities *)

Section utils.
Context `{ArrayEqual} (d : dtype).

(** [for zone in part_zones], the zones of a rank. *)
Fixpoint filterM {A} (p : A -> py bool) (l : list A) : py (list A) :=
  match l with [] => Ret [] | x :: l' => b ← p x; rest ← filterM p l'; Ret (if (b : bool) then x :: rest else rest) end.
Definition get_partitioned_zones (part_tree : node) (dist_zone_path : string) : py (list node) :=
  let base_name := path_head dist_zone_path (-1) in let zone_name := path_tail dist_zone_path (-1) in
  match get_node_from_path part_tree base_name with
  | Some part_base => zones ← iter_all_Zone_t part_base; filterM (fun part => prefix ← get_part_prefix (get_name part); Ret (bool_decide (prefix = zone_name))) zones
  | None => Ret []
  end.

(** The places of these zones in the tree. *)
Definition partitioned_refs (part_tree : node) (dist_zone_path : string) : py (list ref) :=
  let base_name := path_head dist_zone_path (-1) in let zone_name := path_tail dist_zone_path (-1) in
  match ref_of_path part_tree base_name with
  | None => Ret []
  | Some r =>
      part_base ← of_option IndexError (node_at part_tree r);
      ids ← positions_where (fun part => if match_label part (StrLabel "Zone_t") then prefix ← get_part_prefix (get_name part); Ret (bool_decide (prefix = zone_name)) else Ret false) 0 (get_children part_base);
      Ret (map (fun i => r ++ [i]) ids)
  end.

(** [PT.get_value(n)], an array, of a node that may be None. *)
Definition array_value (n : option node) : py nparray :=
  v ← value_of n; match v with Raw v => array_of v | Text _ => Raise TypeError end.
Definition get_cgns_distribution (dist_node : node) (name : string) : py (list Z) := n ← getDistribution dist_node (Some name); a_data <$> array_value n.
Definition get_subset_distribution (zone n : node) : py (list Z) :=
  location ← Subset_GridLocation n;
  pl ← get_node_from_name n "PointList" no_kw;
  distri_n ← (if negb (is_none pl) then getDistribution n (Some "Index")
              else if is_text location "Vertex" then getDistribution zone (Some "Vertex")
              else if is_text location "CellCenter" then getDistribution zone (Some "Cell")
              else Ret None);
  match distri_n with None => Raise RuntimeError | Some _ => a_data <$> array_value distri_n end.

(** The sizes have the type of the ranges of elements. *)
Definition range_type (elt : node) : py dtype := er ← Element_Range elt; a ← array_of er; Ret (match a_type a with T_I8 => Prelude.I8 | _ => Prelude.I4 end).
Definition widest (l : list dtype) : dtype := if existsb (fun t => match t with Prelude.I8 => true | Prelude.I4 => false end) l then Prelude.I8 else Prelude.I4.
Definition create_all_elt_distribution (dist_elts : list node) (rank size : Z) : py partial :=
  elt_sections_dn ← mapM Element_Size dist_elts;
  types ← mapM range_type dist_elts;
  total ← py_get (sizes_to_indices (widest types) elt_sections_dn) (-1);
  uniform_distribution d total rank size.

(** The numbering of each zone of a rank. *)
Definition g_numbering (name prefix : string) (part_node : node) : py (list Z) :=
  match get_node_from_path part_node prefix with
  | None => Ret []
  | Some n => g ← getGlobalNumbering n (Some name); a ← array_value g; Ret (map (wrap d) (a_data a))
  end.
Definition collect_cgns_g_numbering (part_nodes : list node) (name prefix : string) : py (list (list Z)) := mapM (g_numbering name prefix) part_nodes.

Definition element_numbers (elt : option node) : py (list Z) :=
  match elt with None => Ret [] | Some elt => n ← getGlobalNumbering elt (Some "Element"); v ← raw_of n; a_data <$> array_of v end.
Definition create_all_elt_g_numbering (argsort : list Z -> list nat) (p_zone : node) (dist_elts : list node) : py (list Z) :=
  starts ← mapM (fun elt => er ← Element_Range elt; elem er 0) dist_elts;
  sorted_dist_elts ← mapM (fun k => of_option IndexError (dist_elts !! k)) (argsort starts);
  elt_sections_dn ← mapM Element_Size sorted_dist_elts;
  let elt_sections_idx := sizes_to_indices Prelude.I4 elt_sections_dn in
  p_elts ← mapM (fun elt => get_node_from_name p_zone (get_name elt) no_kw) sorted_dist_elts;
  numbers ← mapM element_numbers p_elts;
  Ret (concat (zip_with (fun l idx => map (fun g => wrap d (g + idx)) l) numbers elt_sections_idx)).

Definition get_entities_numbering (part_zone : node) : py (option read_value * option read_value * option read_value * option read_value) :=
  check_is_label "Zone_t" part_zone
    (vtx_n ← getGlobalNumbering part_zone (Some "Vertex"); vtx_ln_to_gn ← value_of vtx_n;
     cell_n ← getGlobalNumbering part_zone (Some "Cell"); cell_ln_to_gn ← value_of cell_n;
     edge_n ← getGlobalNumbering part_zone (Some "Edge");
     edge_ln_to_gn ← match edge_n with None => Ret None | Some _ => Some <$> value_of edge_n end;
     face_n ← getGlobalNumbering part_zone (Some "Face");
     face_ln_to_gn ←
       match face_n with
       | Some _ => Some <$> value_of face_n
       | None =>
           b ← Zone_has_ngon_elements part_zone;
           if (b : bool) then ngon ← Zone_NGonNode part_zone; n ← getGlobalNumbering ngon (Some "Element"); Some <$> value_of n
           else Ret None
       end;
     Ret (Some vtx_ln_to_gn, edge_ln_to_gn, face_ln_to_gn, Some cell_ln_to_gn)).

Definition label_query (labels : list string) : queries := QsList (map (fun l => EQuery (QStr l)) labels).
Definition create_mask_tree (root : node) (labels incl excl : list string) : py ptree :=
  if bool_decide (zlen incl * zlen excl <> 0) then Raise ValueError else
  to_include ← (if bool_decide (0 < zlen incl) then concretize_paths root incl labels
                else if bool_decide (0 < zlen excl) then
                  all_paths ← predicates_to_paths root (label_query labels);
                  to_exclude ← concretize_paths root excl labels;
                  Ret (filter (fun p => p ∉ to_exclude) all_paths)
                else predicates_to_paths root (label_query labels));
  paths_to_tree to_include (get_name root).
End utils.
End Transfer.
