(* ===== verification/IndexExchange.v ===== *)
(** * Point lists, point ranges and elements of the distributed zones: [maia/transfer/part_to_dist/index_exchange.py]

    The subsets and the elements of the partitions of a zone are numbered and gathered on the distributed zone.  The
    arguments are the distributed zones of the ranks and the partitions that each rank has. *)
From S2P Require Import Prelude PyUtils NpUtils Values Conventions Numbering Fnmatch Tree Parsers Walkers Search Distribution Protocols Sids Refs Presets MaiaNodes Joins PostSplit Transfer.

Local Open Scope Z_scope.

Module IndexExchange.
Import NpUtils Values Conventions Tree Walkers Search Distribution Protocols Sids Refs Presets MaiaNodes Joins Transfer.

Definition LOC_TO_GN (loc : string) : py string :=
  if bool_decide (loc = "Vertex") then Ret "Vertex" else
  if bool_decide (loc = "CellCenter") then Ret "Cell" else
  if bool_decide (loc ∈ ["FaceCenter"; "IFaceCenter"; "JFaceCenter"; "KFaceCenter"]) then Ret "Face" else Raise KeyError.

(** [PDM.GlobalNumbering] with parents: a compact numbering of some global numbers. *)
Class sub_numbering : Type := { create_sub_numbering : parts (list Z) -> parts (list Z) }.
(** The position of a number among the distinct ones. *)
Definition rank_among (l : list Z) (g : Z) : Z := zlen (filter (fun x => x <= g) (remove_dups l)).
Class sub_numbering_laws (E : sub_numbering) : Prop := {
  law_sub lngn : Forall (Forall (Forall (fun g => 1 <= g))) lngn -> create_sub_numbering lngn = map (map (map (rank_among (all_numbers lngn)))) lngn
}.

Section index.
Context `{ArrayEqual} `{parts_exchange} `{sub_numbering} (to_float32 : Z -> Z) (astype : cgns_type -> cgns_type -> Z -> Z) (d : dtype) (argsort : list Z -> list nat).

(** ** Global numbering of a subset *)

(** [MT.newGlobalNumbering(parent=node)], then the array [Index]. *)
Definition put_index (numbers : list Z) : st () :=
  _ ← newGlobalNumbering to_float32 [];
  on_first (fun c => match_name c numbering_name) (under (new_DataArray to_float32 astype "Index" (gnum_array d numbers) None)).
(** Each partition that has the node receives the next array. *)
Fixpoint give_numbers (put : list Z -> st ()) (node_path : string) (zones : list node) (numbers : list (list Z)) : py (list node) :=
  match zones with
  | [] => Ret []
  | p_zone :: zones' =>
      match get_node_from_path p_zone node_path with
      | None => rest ← give_numbers put node_path zones' numbers; Ret (p_zone :: rest)
      | Some _ =>
          match numbers with
          | [] => Raise IndexError
          | l :: numbers' =>
              z ← applied (at_path node_path (put l)) p_zone;
              rest ← give_numbers put node_path zones' numbers'; Ret (z :: rest)
          end
      end
  end.
Definition give_all (put : list Z -> st ()) (node_path : string) (part_zones : parts node) (numbers : parts (list Z)) : py (parts node) :=
  mapM (fun p => give_numbers put node_path p.1 p.2) (zip part_zones numbers).

Definition pl_size (node_path : string) (p_zone : node) : py Z :=
  match get_node_from_path p_zone node_path with
  | None => Ret 0
  | Some n => v ← raw_child n "PointList"; a ← array_of v; py_get (a_shape a) 1
  end.
Definition unique_numbers (node_path : string) (part_zones : parts node) : py (parts (list Z)) :=
  n_elems ← mapM (mapM (pl_size node_path)) part_zones;
  let shifted_part := gather_and_shift Prelude.I4 (map zlen part_zones) in
  let size_per_part := map (wrap Prelude.I4) (concat n_elems) in
  mapM (fun '(r, zones) => numbers ← mapM (fun '(i_zone, p_zone) =>
      match get_node_from_path p_zone node_path with
      | None => Ret []
      | Some _ =>
          shift ← py_get shifted_part (Z.of_nat r);
          let offset := shift + Z.of_nat i_zone in
          size ← py_get size_per_part offset;
          let start := zsum (slice_to size_per_part offset) + 1 in
          Ret [map (wrap d) (arange start (start + size))]
      end) (imap pair zones); Ret (concat numbers)) (imap pair part_zones).
Definition create_part_pl_gnum_unique (part_zones : parts node) (node_path : string) : py (parts node) :=
  numbers ← unique_numbers node_path part_zones; give_all put_index node_path part_zones numbers.

(** The numbers of the entities of a partition that a point list refers to. *)
Definition entity_numbers (dist_zone p_zone n : node) : py (list Z) :=
  loc ← Subset_GridLocation n;
  if is_text loc "Vertex" then g ← getGlobalNumbering p_zone (Some "Vertex"); a_data <$> array_value g
  else elts ← iter_children_from_label dist_zone (StrLabel "Elements_t") no_kw; create_all_elt_g_numbering d argsort p_zone elts.
Definition pl_numbers (dist_zone : node) (node_path : string) (p_zone : node) : py (list (list Z)) :=
  match get_node_from_path p_zone node_path with
  | None => Ret []
  | Some n =>
      ln_to_gn ← entity_numbers dist_zone p_zone n;
      v ← raw_child n "PointList"; a ← array_of v; part_pl ← PostSplit.first_row a;
      l ← take_at ln_to_gn (map (fun i => i - 1) part_pl); Ret [l]
  end.
(** [blk_stride[blk_gnum - start - 1] = 1] *)
Definition known_strides (blk_distri : list Z) (r : nat) (blk_gnum : list Z) : py (list Z) :=
  lo ← py_get blk_distri (Z.of_nat r); hi ← py_get blk_distri (Z.of_nat r + 1);
  unknown ← set_false (replicate (Z.to_nat (hi - lo)) true) (map (fun g => g - lo - 1) blk_gnum);
  Ret (map (fun b : bool => if b then 0 else 1) unknown).
Definition group_numbers (ln_to_gn_list : parts (list Z)) : py (parts (list Z)) :=
  let blk_distri := ptb_distri ln_to_gn_list in
  let blk_gnum := ptb_numbers blk_distri ln_to_gn_list in
  let blk_offset := gather_and_shift Prelude.I4 (map zlen blk_gnum) in
  group_gnum ← mapM (fun '(r, l) => o ← py_get blk_offset (Z.of_nat r); Ret (map (fun k => wrap d (k + o + 1)) (arange 0 (zlen l)))) (imap pair blk_gnum);
  blk_stride ← mapM (fun '(r, l) => known_strides blk_distri r l) (imap pair blk_gnum);
  out ← block_to_part_strided d blk_stride group_gnum (map (fun _ => blk_distri) ln_to_gn_list) ln_to_gn_list;
  Ret out.2.
Definition create_part_pl_gnum (dist_zones : list node) (part_zones : parts node) (node_path : string) : py (parts node) :=
  ln_to_gn_list ← mapM (fun p : node * list node => numbers ← mapM (pl_numbers p.1 node_path) p.2; Ret (concat numbers)) (zip dist_zones part_zones);
  part_lngn ← group_numbers ln_to_gn_list;
  give_all put_index node_path part_zones part_lngn.

(** The sizes along the axes; the conversions of the faces along j and k read the third one. *)
Definition sizes3 (loc : string) (s : zsize) : py Numbering.triplet :=
  match s with
  | PerIndex [a; b; c] => Ret (a, b, c)
  | PerIndex [a; b] => if bool_decide (loc ∈ ["JFaceCenter"; "KFaceCenter"]) then Raise IndexError else Ret (a, b, 0)
  | _ => Raise IndexError
  end.
Definition pr_columns (n : node) : py (list (Z * Z)) :=
  v ← raw_child n "PointRange"; c0 ← column_of v 0; c1 ← column_of v 1; Ret (zip c0 c1).
(** The entities of a range, the first index being the fastest. *)
Definition range_indices (loc : string) (vtx_size : zsize) (idx_dim : Z) (pr : list (Z * Z)) : py (list Z) :=
  let range (k : nat) : py (list Z) := ab ← of_option IndexError (pr !! k); Ret (arange ab.1 (ab.2 + 1)) in
  i_ar ← range 0%nat;
  if bool_decide (idx_dim = 1) then Ret i_ar else
  j_ar ← range 1%nat;
  k_ar ← (if bool_decide (idx_dim = 3) then range 2%nat else Ret [1]);
  n_vtx ← sizes3 loc vtx_size;
  PostSplit.indices_of loc n_vtx (concat (map (fun k => concat (map (fun j => map (fun i => (i, j, k)) i_ar) j_ar)) k_ar)).
Definition pr_numbers (idx_dim : Z) (node_path : string) (part_zone : node) : py (list (list Z)) :=
  match get_node_from_path part_zone node_path with
  | None => Ret []
  | Some n =>
      loc ← Subset_GridLocation n;
      let loc := PostSplit.location_of loc in
      if bool_decide (loc = "FaceCenter") then Raise RuntimeError else
      gn ← LOC_TO_GN loc;
      g ← getGlobalNumbering part_zone (Some gn); v ← raw_of g; ln_to_gn_all ← array_of v;
      part_pr ← pr_columns n;
      vtx_size ← Zone_VertexSize part_zone;
      local_num ← range_indices loc vtx_size idx_dim part_pr;
      l ← take_at (a_data ln_to_gn_all) (map (fun i => i - 1) local_num); Ret [l]
  end.
Definition create_part_pr_gnum (dist_zones : list node) (part_zones : parts node) (node_path : string) : py (parts node) :=
  ln_to_gn_list ← mapM (fun p : node * list node => idx_dim ← Zone_IndexDimension p.1; numbers ← mapM (pr_numbers idx_dim node_path) p.2; Ret (concat numbers)) (zip dist_zones part_zones);
  give_all (fun l => newGlobalNumbering to_float32 [("Index", gnum_array d l)]) node_path part_zones (create_sub_numbering ln_to_gn_list).

(** ** Local and global triplets *)

(** [ptriplet]: the rows of an array of triplets, or a triplet with a column for itself. *)
Definition _part_triplet_to_dist_triplet (ptriplet : list (list Z)) (loc : string) (ln_to_gn : list Z) (pvtx_size dvtx_size : zsize) : py (list (list Z)) :=
  let idx_dim := zsum (map zlen ptriplet) in
  let ptriplet := if bool_decide (idx_dim = 2) then ptriplet ++ [[1]] else ptriplet in
  if bool_decide (loc ∈ ["Vertex"; "CellCenter"; "IFaceCenter"; "JFaceCenter"; "KFaceCenter"]) then
    match ptriplet with
    | [i; j; k] =>
        p_vtx ← sizes3 loc pvtx_size;
        idx ← PostSplit.indices_of loc p_vtx (zip_with (fun ij k => (ij.1, ij.2, k)) (zip i j) k);
        gnum ← take_at ln_to_gn (map (fun x => x - 1) idx);
        d_vtx ← sizes3 loc dvtx_size;
        ijk ← PostSplit.ijk_of loc d_vtx gnum;
        Ret (take (Z.to_nat idx_dim) [map (fun '(i, _, _) => i) ijk; map (fun '(_, j, _) => j) ijk; map (fun '(_, _, k) => k) ijk])
    | _ => Raise TypeError
    end
  else Raise NameError.

(** ** Point lists *)

Definition name_predicate (allow_mult : bool) (leaf : string) (n : node) : py bool :=
  if allow_mult then prefix ← get_split_prefix (get_name n); Ret (bool_decide (prefix = leaf)) else Ret (bool_decide (get_name n = leaf)).
(** The children of the ancestor that the predicate selects. *)
Definition part_nodes (allow_mult : bool) (node_path : string) (part_zone : node) : py (list node) :=
  match get_node_from_path part_zone (path_head node_path (-1)) with
  | None => Ret []
  | Some ancestor_n => children_where (name_predicate allow_mult (path_tail node_path (-1))) (get_children ancestor_n)
  end.
Definition index_numbers (allow_mult : bool) (node_path : string) (part_zone : node) : py (list (list Z)) :=
  if allow_mult then nodes ← part_nodes true node_path part_zone; mapM (fun n => g ← getGlobalNumbering n (Some "Index"); a_data <$> array_value g) nodes
  else match get_node_from_path part_zone (node_path +:+ "/:CGNS#GlobalNumbering/Index") with
       | None => Ret []
       | Some g => a ← array_of (get_raw g); Ret [a_data a]
       end.
Definition rows_of (a : nparray) : py (list (list Z)) :=
  match a_shape a with
  | [h; n] => Ret (map (fun i => map (fun j => nth (Z.to_nat (i + j * h)) (a_data a) 0) (arange 0 n)) (arange 0 h))
  | _ => Raise IndexError
  end.
(** The point list of a node in the numbering of the distributed zone, a row for each key. *)
Definition global_pl (dist_zone part_zone : node) (idx_dim : nat) (n : node) : py (list (list Z)) :=
  v ← raw_child n "PointList"; part_pl ← array_of v;
  loc ← Subset_GridLocation n;
  t ← Zone_Type part_zone;
  if is_text t "Unstructured" then
    ln_to_gn ← entity_numbers dist_zone part_zone n;
    row ← PostSplit.first_row part_pl;
    l ← take_at ln_to_gn (map (fun i => i - 1) row); Ret [l]
  else
    gn ← LOC_TO_GN (PostSplit.location_of loc);
    g ← getGlobalNumbering part_zone (Some gn); v ← raw_of g; ln_to_gn ← array_of v;
    pvtx_size ← Zone_VertexSize part_zone; dvtx_size ← Zone_VertexSize dist_zone;
    rows ← rows_of part_pl;
    ijk_glob ← _part_triplet_to_dist_triplet rows (PostSplit.location_of loc) (a_data ln_to_gn) pvtx_size dvtx_size;
    mapM (fun i => of_option IndexError (ijk_glob !! i)) (seq 0 idx_dim).
Definition pl_dim (dist_zone : node) : py nat :=
  t ← Zone_Type dist_zone;
  if is_text t "Unstructured" then Ret 1%nat else a ← array_of (get_raw dist_zone); n ← py_get (a_shape a) 0; Ret (Z.to_nat (Z.min n 3)).
Definition pl_value (rows : list (list Z)) : pyval := PNumpys (gnum_type d) (map (fun row => Nest (map Leaf row)) rows).
Definition put_point_list (rows : list (list Z)) (p : partial) : st () :=
  _ ← under (new_IndexArray to_float32 "PointList" (pl_value rows));
  _ ← newDistribution to_float32 [];
  on_first (fun c => match_name c distri_name) (under (new_DataArray to_float32 astype "Index" (partial_array d p) None)).
Definition part_pl_to_dist_pl (dist_zones : list node) (part_zones : parts node) (node_path : string) (allow_mult : bool) : py (list node) :=
  ln_to_gn_list ← mapM (fun zones => l ← mapM (index_numbers allow_mult node_path) zones; Ret (concat l)) part_zones;
  let full_distri := ptb_distri ln_to_gn_list in
  dims ← mapM pl_dim dist_zones; idx_dim ← common dims;
  part_pl_list ← mapM (fun p : node * list node =>
      l ← mapM (fun part_zone => nodes ← part_nodes allow_mult node_path part_zone; mapM (global_pl p.1 part_zone idx_dim) nodes) p.2; Ret (concat l)) (zip dist_zones part_zones);
  dist_pl ← mapM (fun key =>
      rows ← mapM (mapM (fun pl : list (list Z) => of_option KeyError (pl !! key))) part_pl_list;
      Ret (ptb_first full_distri ln_to_gn_list rows)) (seq 0 idx_dim);
  mapM (fun '(r, dist_zone) =>
      rows ← mapM (fun l : list (list Z) => of_option IndexError (l !! r)) dist_pl;
      p ← full_to_partial_distribution full_distri (Z.of_nat r) (zlen dist_zones);
      applied (at_path node_path (put_point_list rows p)) dist_zone) (imap pair dist_zones).
(** ** Point ranges *)

(** The smallest and the greatest list in the lexicographic order, the first one among equal ones. *)
Fixpoint lex_leb (l l' : list Z) : bool :=
  match l, l' with [], _ => true | _ :: _, [] => false | x :: k, y :: k' => bool_decide (x < y) || (bool_decide (x = y) && lex_leb k k') end.
Definition lex_min (l : list (list Z)) : py (list Z) := match l with [] => Raise ValueError | x :: l' => Ret (foldl (fun a b => if lex_leb a b then a else b) x l') end.
Definition lex_max (l : list (list Z)) : py (list Z) := match l with [] => Raise ValueError | x :: l' => Ret (foldl (fun a b => if lex_leb b a then a else b) x l') end.
(** [pr[permuted, 0], pr[permuted, 1] = pr[permuted, 1], pr[permuted, 0]] *)
Definition swap_where (permuted : list bool) (pr : list (Z * Z)) : list (Z * Z) := zip_with (fun (b : bool) p => if b then (p.2, p.1) else p) permuted pr.
Definition decreasing (pr : list (Z * Z)) : list bool := map (fun p => bool_decide (p.2 < p.1)) pr.
(** The global corners of the range of a node, and the directions in which it decreases. *)
Definition global_corners (dist_vtx_size : zsize) (part_zone part_node : node) : py (list Z * list Z * list bool) :=
  part_vtx_size ← Zone_VertexSize part_zone;
  pr_n ← get_node_from_name part_node "PointRange" no_kw; v ← raw_of pr_n;
  c0 ← column_of v 0; c1 ← column_of v 1;
  loc ← Subset_GridLocation part_node;
  let loc := PostSplit.location_of loc in
  let permuted := decreasing (zip c0 c1) in
  let pr := swap_where permuted (zip c0 c1) in
  gn ← LOC_TO_GN loc;
  g ← getGlobalNumbering part_zone (Some gn); v ← raw_of g; ln_to_gn ← array_of v;
  bottom ← _part_triplet_to_dist_triplet (map (fun p => [p.1]) pr) loc (a_data ln_to_gn) part_vtx_size dist_vtx_size;
  top ← _part_triplet_to_dist_triplet (map (fun p => [p.2]) pr) loc (a_data ln_to_gn) part_vtx_size dist_vtx_size;
  Ret (concat bottom, concat top, permuted).
Definition any_permuted (idx_dim : nat) (l : list (list bool)) : list bool := foldl (zip_with orb) (repeat false idx_dim) l.
Definition dist_range (idx_dim : nat) (corners : list (list Z * list Z * list bool)) : py (list (Z * Z)) :=
  bottom ← lex_min (map (fun c => c.1.1) corners);
  top ← lex_max (map (fun c => c.1.2) corners);
  if bool_decide (length bottom = idx_dim /\ length top = idx_dim) then
    Ret (swap_where (any_permuted idx_dim (map snd corners)) (zip bottom top))
  else Raise ValueError.
Definition range_size (pr : list (Z * Z)) : Z := foldl Z.mul 1 (map (fun p => Z.abs (p.2 - p.1) + 1) pr).
Definition zone_dtype (dist_zone : node) : py cgns_type := a ← array_of (get_raw dist_zone); Ret (a_type a).
Definition put_point_range (t : cgns_type) (pr : list (Z * Z)) (p : partial) : st () :=
  _ ← under (new_IndexRange to_float32 "PointRange" (PArray (NpArray t [zlen pr; 2] true (map fst pr ++ map snd pr))));
  newDistribution to_float32 [("Index", partial_array d p)].
Definition part_pr_to_dist_pr (dist_zones : list node) (part_zones : parts node) (node_path : string) (allow_mult : bool) : py (list node) :=
  corners ← mapM (fun p : node * list node =>
      dist_vtx_size ← Zone_VertexSize p.1;
      l ← mapM (fun part_zone => nodes ← part_nodes allow_mult node_path part_zone; mapM (global_corners dist_vtx_size part_zone) nodes) p.2;
      Ret (concat l)) (zip dist_zones part_zones);
  mapM (fun '(r, dist_zone) =>
      idx_dim ← Zone_IndexDimension dist_zone;
      dist_pr ← dist_range (Z.to_nat idx_dim) (concat corners);
      distri ← uniform_distribution d (range_size dist_pr) (Z.of_nat r) (zlen dist_zones);
      t ← zone_dtype dist_zone;
      applied (at_path node_path (put_point_range t dist_pr distri)) dist_zone) (imap pair dist_zones).

(** ** Elements *)

(** What each rank adds to its zone. *)
Definition add_on_ranks {A} (f : Z -> A -> st ()) (data : list A) (dist_zones : list node) : py (list node) :=
  mapM (fun '(r, (a, z)) => applied (f (Z.of_nat r) a) z) (imap pair (zip data dist_zones)).
Definition raw_in (n : node) (name : string) : py nparray := v ← raw_child n name; array_of v.
Definition to_global (lngn : list Z) (ids : list Z) : py (list Z) := take_at lngn (map (fun i => i - 1) ids).

(** The section of a partition: its type, number of vertices, first and last numbers, connectivity. *)
Record section := Section_ { s_type : Z; s_nvtx : Z; s_min : Z; s_max : Z; s_ec : list Z }.
Definition py_min (l : list Z) : py Z := match l with [] => Raise ValueError | x :: l' => Ret (foldl Z.min x l') end.
Definition elt_section (elem_name : string) (vtx_gnum : list Z) (part_zone : node) : py (option section) :=
  elt_n ← get_child_from_name part_zone elem_name no_kw;
  match elt_n with
  | None => Ret None
  | Some elt_n =>
      elt_id ← Element_Type elt_n; nvtx ← Element_NVtx elt_n; cst_stride ← of_option TypeError nvtx;
      g ← getGlobalNumbering elt_n (Some "Sections"); v ← raw_of g; section_gnum ← array_of v;
      lo ← py_min (a_data section_gnum); hi ← py_max (a_data section_gnum);
      EC ← raw_in elt_n "ElementConnectivity"; ec ← to_global vtx_gnum (a_data EC);
      Ret (Some (Section_ elt_id cst_stride lo hi ec))
  end.
(** The variables of the loop keep the last section of a rank, then the maximum of the ranks is taken. *)
Definition last_of (f : section -> Z) (l : list (option section)) : Z := foldl (fun acc o => default acc (f <$> o)) 0 l.
Definition sections_max (f : section -> Z) (l : parts (option section)) : Z := foldl Z.max 0 (map (last_of f) l).
Definition bounds_of (l : parts (option section)) : Z * Z :=
  let all := omap id (concat l) in (foldl Z.min (iinfo_max d) (map s_min all), foldl Z.max 0 (map s_max all)).
Definition part_elt_to_dist_elt (dist_zones : list node) (part_zones : parts node) (elem_name : string) : py (list node) :=
  vtx_gnum_l ← mapM (fun zones => collect_cgns_g_numbering d zones "Vertex" "") part_zones;
  elt_gnum_l ← mapM (fun zones => collect_cgns_g_numbering d zones "Element" elem_name) part_zones;
  sections ← mapM (fun p : list (list Z) * list node => mapM (fun q : list Z * node => elt_section elem_name q.1 q.2) (zip p.1 p.2)) (zip vtx_gnum_l part_zones);
  let cst_stride := sections_max s_nvtx sections in let elt_id := sections_max s_type sections in
  let bounds := bounds_of sections in
  let distri := ptb_distri elt_gnum_l in
  let part_ec := zip_with (zip_with (fun lngn s => PostSplit.chunks (length lngn) (Z.to_nat cst_stride) (default [] (s_ec <$> s)))) elt_gnum_l sections in
  let dist_ec := map (@concat Z) (ptb_first distri elt_gnum_l part_ec) in
  add_on_ranks (fun r ec =>
      p ← st_lift (full_to_partial_distribution distri r (zlen dist_zones));
      under (then_fill (new_Elements to_float32 astype elem_name (EltId elt_id) (Some (PNumpys (gnum_type d) [Leaf bounds.1; Leaf bounds.2])) (Some (gnum_array d ec)))
        (newDistribution to_float32 [("Element", partial_array d p)]))) dist_ec dist_zones.

(** *** Faces *)

(** The sizes of the connectivities, the connectivities and the cells of the faces of a partition. *)
Definition diff (l : list Z) : list Z := zip_with Z.sub (drop 1 l) l.
(** [PE.ravel()] reads the rows of the array one after the other; it is a copy, since the columns are contiguous. *)
Definition ravel_pe (a : nparray) : list Z := let n := (length (a_data a) / 2)%nat in concat (zip_with (fun l r => [l; r]) (take n (a_data a)) (drop n (a_data a))).
Definition global_pe (elem_n : node) (ER cell_gnum pe : list Z) : py (list Z) :=
  first ← py_get ER 0; size ← (if bool_decide (first = 1) then Element_Size elem_n else Ret 0);
  mapM (fun c => if bool_decide (c = 0) then Ret 0 else py_get cell_gnum (c - size - 1)) pe.
Definition ngon_data (elem_name : string) (vtx_gnum cell_gnum : list Z) (part_zone : node) : py (list (list Z) * option (list (list Z))) :=
  elem_n ← get_child_from_name part_zone elem_name no_kw; elem_n ← of_option AttributeError elem_n;
  ER ← raw_in elem_n "ElementRange"; EC ← raw_in elem_n "ElementConnectivity"; ECIdx ← raw_in elem_n "ElementStartOffset";
  pe_n ← get_child_from_name elem_n "ParentElements" no_kw;
  ec ← to_global vtx_gnum (a_data EC);
  pe ← match pe_n with
       | None => Ret None
       | Some pe_n => a ← array_of (get_raw pe_n); pe ← global_pe elem_n (a_data ER) cell_gnum (ravel_pe a); Ret (Some (PostSplit.chunks (length pe / 2) 2 pe))
       end;
  Ret (split_strides (diff (a_data ECIdx)) ec, pe).
(** The cells of a face from the pairs that its partitions give: the left cells of both, as they are oriented. *)
Definition merge_pe (d_data_pe : list Z) : py (Z * Z) :=
  match d_data_pe with
  | [a; b] => Ret (a, b)
  | [a; b; c; e] => if bool_decide (a = 0) then Ret (c, b) else if bool_decide (e <> 0) then Ret (a, e) else Ret (a, c)
  | _ => Raise RuntimeError
  end.
(** The connectivities without those received a second time: [keep] are the faces with a single pair of cells. *)
Definition duplicated_mask (n : Z) (ids : list Z) : py (list bool) := set_false (replicate (Z.to_nat n) true) ids.
Definition filter_ec (d_elt_n : list Z) (d_data_ec : list Z) (d_strid_pe : list Z) : py (list Z * list Z) :=
  let duplicated_idx := map Z.of_nat (concat (imap (fun i n => if bool_decide (n <> 2) then [i] else []) d_strid_pe)) in
  let unfiltered_eso := sizes_to_indices Prelude.I4 d_elt_n in
  starts ← mapM (fun i => a ← py_get unfiltered_eso i; n ← py_get d_elt_n i; Ret (a + n / 2)) duplicated_idx;
  stops ← mapM (fun i => py_get unfiltered_eso (i + 1)) duplicated_idx;
  n ← py_get unfiltered_eso (zlen d_strid_pe);
  wrong_idx ← multi_arange starts stops;
  kept ← duplicated_mask n wrong_idx;
  dist_ec ← PostSplit.masked kept d_data_ec;
  Ret (map (fun '(n, s) => if bool_decide (s <> 2) then n / 2 else n) (zip d_elt_n d_strid_pe), dist_ec).

(** The groups of arrays that a rank receives for each of its faces, as the strides and the data of the exchange. *)
Definition received (groups : list (list (list Z))) : list Z * list Z := (map (fun g => zlen (concat g)) groups, concat (map (@concat Z) groups)).
(** The sizes and the connectivities of the faces of a rank, and their cells. *)
Definition dist_faces (ec : list (list (list Z))) (pe : option (list (list (list Z)))) : py (list Z * list Z * option (list (Z * Z))) :=
  let d_ec := received ec in
  match pe with
  | None => Ret (d_ec.1, d_ec.2, None)
  | Some pe =>
      dist_pe ← mapM (fun g => merge_pe (concat g)) pe;
      f ← filter_ec d_ec.1 d_ec.2 (received pe).1;
      Ret (f.1, f.2, Some dist_pe)
  end.
(** The offsets of the elements of each rank, shifted in the type of the sizes. *)
Definition shifted_offsets (sizes : list (list Z)) : py (list (list Z)) :=
  let esos := map (sizes_to_indices Prelude.I4) sizes in
  lasts ← mapM (fun eso => py_get eso (-1)) esos;
  let shift_eso := gather_and_shift Prelude.I4 lasts in
  mapM (fun '(r, eso) => s ← py_get shift_eso (Z.of_nat r); Ret (map (fun x => wrap Prelude.I4 (x + s)) eso)) (imap pair esos).
Definition at_rank (full : list Z) (r size : Z) : py (list Z) := take_at full [r; r + 1; size].
Definition put_distri (name : string) (l : list Z) : st () := on_first (fun c => match_name c distri_name) (under (new_DataArray to_float32 astype name (gnum_array d l) None)).
Definition put_distris (elements connectivity : list Z) : st () :=
  _ ← newDistribution to_float32 []; _ ← put_distri "Element" elements; put_distri "ElementConnectivity" connectivity.
Definition part_ngon_to_dist_ngon (dist_zones : list node) (part_zones : parts node) (elem_name : string) : py (list node) :=
  vtx_gnum_l ← mapM (fun zones => collect_cgns_g_numbering d zones "Vertex" "") part_zones;
  cell_gnum_l ← mapM (fun zones => collect_cgns_g_numbering d zones "Cell" "") part_zones;
  elt_gnum_l ← mapM (fun zones => collect_cgns_g_numbering d zones "Element" elem_name) part_zones;
  data ← mapM (fun p : list (list Z) * (list (list Z) * list node) =>
      mapM (fun q : list Z * (list Z * node) => ngon_data elem_name q.1 q.2.1 q.2.2) (zip p.1 (zip p.2.1 p.2.2))) (zip vtx_gnum_l (zip cell_gnum_l part_zones));
  let n_rank := zlen dist_zones in
  let distri := ptb_distri elt_gnum_l in
  n_faceTot ← py_get distri n_rank;
  let has_pe := forallb (fun p => negb (is_none p.2)) (concat data) in
  let d_ec := ptb_all distri elt_gnum_l (map (map fst) data) in
  let d_pe := if has_pe then map Some (ptb_all distri elt_gnum_l (map (map (fun p => default [] p.2)) data)) else map (fun _ => None) d_ec in
  faces ← mapM (fun p : list (list (list Z)) * option (list (list (list Z))) => dist_faces p.1 p.2) (zip d_ec d_pe);
  esos ← shifted_offsets (map (fun f => f.1.1) faces);
  let DistriFaceVtx := gather_and_shift d (map (fun f => zlen f.1.2) faces) in
  add_on_ranks (fun r '(eso, (_, dist_ec, dist_pe)) =>
      elt_distri ← st_lift (at_rank distri r n_rank);
      ec_distri ← st_lift (at_rank DistriFaceVtx r n_rank);
      under (then_fill (new_NGonElements to_float32 astype elem_name (Some (PInts [Leaf 1; Leaf n_faceTot])) (Some (PArray (vec T_I4 eso))) (Some (gnum_array d dist_ec)) None None)
        (_ ← when dist_pe (fun pe => under (new_DataArray to_float32 astype "ParentElements"
               (PArray (NpArray T_I4 [zlen pe; 2] true (map (wrap Prelude.I4) (shift_nonzeros (map fst pe ++ map snd pe) n_faceTot)))) None));
         put_distris elt_distri ec_distri))) (zip esos faces) dist_zones.

(** *** Cells *)

Definition nface_data (elem_name : string) (ngon_gnum : list Z) (part_zone : node) : py (list (list Z)) :=
  nface_n ← get_child_from_name part_zone elem_name no_kw; nface_n ← of_option AttributeError nface_n;
  EC ← raw_in nface_n "ElementConnectivity"; ECIdx ← raw_in nface_n "ElementStartOffset";
  ec ← mapM (fun f => g ← py_get ngon_gnum (Z.abs f - 1); Ret (Z.sgn f * g)) (a_data EC);
  Ret (split_strides (diff (a_data ECIdx)) ec).
Definition part_nface_to_dist_nface (dist_zones : list node) (part_zones : parts node) (elem_name ngon_name : string) : py (list node) :=
  cell_gnum_l ← mapM (fun zones => collect_cgns_g_numbering d zones "Element" elem_name) part_zones;
  ngon_gnum_l ← mapM (fun zones => collect_cgns_g_numbering d zones "Element" ngon_name) part_zones;
  part_ec ← mapM (fun p : list (list Z) * list node => mapM (fun q : list Z * node => nface_data elem_name q.1 q.2) (zip p.1 p.2)) (zip ngon_gnum_l part_zones);
  let n_rank := zlen dist_zones in
  let distri := ptb_distri cell_gnum_l in
  let groups := ptb_first distri cell_gnum_l part_ec in
  esos ← shifted_offsets (map (map zlen) groups);
  n_cellTot ← py_get distri n_rank;
  let dist_ec := map (@concat Z) groups in
  let distri_cell_face := gather_and_shift d (map zlen dist_ec) in
  add_on_ranks (fun r '(eso, ec) =>
      elt_distri ← st_lift (at_rank distri r n_rank);
      ec_distri ← st_lift (at_rank distri_cell_face r n_rank);
      under (then_fill (new_NFaceElements to_float32 astype elem_name (Some (PInts [Leaf 1; Leaf n_cellTot])) (Some (PArray (vec T_I4 eso))) (Some (gnum_array d ec)))
        (put_distris elt_distri ec_distri))) (zip esos dist_ec) dist_zones.
End index.
End IndexExchange.
