(* ===== verification/TransferSpec.v ===== *)
(** * Exchanges by global numbers: theorems on Transfer and IndexExchange

    A sequential instance of the exchanges with its laws; fields sent to partitions come back to the same blocks; the
    numbering of a subset of the partitions is compact. *)
From S2P Require Import Prelude PyUtils Numbering Slabs NpUtils Values Conventions Fnmatch Tree Parsers Walkers Search Distribution Protocols MergeIds PointRange Sids Refs Presets MaiaNodes Joins BlockToBlock FullToDist FullToDistSpec Redistribute RedistributeSpec PostSplit Transfer IndexExchange.

Local Open Scope Z_scope.

Module TransferSpec.
Import NpUtils Values Conventions Tree Walkers Search Distribution Protocols Sids Refs Presets MaiaNodes Joins BlockToBlock RedistributeSpec Transfer IndexExchange.

(** ** A sequential instance *)

(** The same number of elements on each rank, and the remainder on the last one. *)
Definition even_blocks (n : nat) (total : Z) : list Z :=
  match n with O => [] | S n' => let q := total / Z.of_nat n in repeat q n' ++ [total - q * Z.of_nat n'] end.
Definition seq_numbers (full : list Z) (lngn : parts (list Z)) : list (list Z) := seq_gnum full (concat lngn).
#[export] Instance seq_parts : parts_exchange := {|
  btp A full data lngn := map (map (omap (fun g => concat data !! Z.to_nat (g - 1)))) lngn;
  ptb_distri lngn := scan 0 (even_blocks (length lngn) (foldr Z.max 0 (all_numbers lngn)));
  ptb_numbers := seq_numbers;
  ptb_first A full lngn fields := map (omap (fun g => snd <$> List.find (fun p => bool_decide (p.1 = g)) (given lngn fields))) (seq_numbers full lngn);
  ptb_all A full lngn fields := map (map (fun g => map snd (filter (fun p => p.1 = g) (given lngn fields)))) (seq_numbers full lngn)
|}.
#[export] Instance seq_multi : multi_exchange := {| mbtp A distris data lngn := map (map (omap (fun g => concat (concat data) !! Z.to_nat (g - 1)))) lngn |}.
#[export] Instance seq_sub : sub_numbering := {| create_sub_numbering lngn := map (map (map (rank_among (all_numbers lngn)))) lngn |}.

Lemma even_blocks_spec n total : (0 < n)%nat -> 0 <= total -> length (even_blocks n total) = n /\ Forall (fun x => 0 <= x) (even_blocks n total) /\ zsum (even_blocks n total) = total.
Proof.
  intros Hn Ht. destruct n as [|n]; [lia|]. unfold even_blocks. set (q := total / Z.of_nat (S n)). assert (Hq : 0 <= q) by (apply Z.div_pos; lia). assert (Hq' : q * Z.of_nat (S n) <= total) by (pose proof (Z.mul_div_le total (Z.of_nat (S n))); unfold q; lia).
  split; [rewrite length_app, repeat_length; cbn; lia|]. split.
  - apply Forall_app; split; [apply Forall_forall; intros x Hx; apply list_elem_of_In, repeat_spec in Hx; lia|]. constructor; [nia|constructor].
  - rewrite zsum_app, zsum_cons, zsum_nil. assert (Hr : zsum (repeat q n) = q * Z.of_nat n) by (clear; generalize q; intros k; induction n as [|n IH]; [cbn; lia|cbn [repeat]; rewrite zsum_cons, IH; lia]). lia.
Qed.
Lemma foldr_max_nonneg l : 0 <= foldr Z.max 0 l.
Proof. induction l; cbn; lia. Qed.
Lemma foldr_max_zero (l : list Z) : l = [] -> foldr Z.max 0 l = 0.
Proof. by intros ->. Qed.
Lemma sized_length {A} (lngn : parts (list Z)) (fields : parts (list A)) : sized lngn fields -> length (all_numbers lngn) = length (concat (concat fields)).
Proof.
  intros Hs. unfold all_numbers. assert (Hc : Forall2 (fun l f => length l = length f) (concat lngn) (concat fields)) by (induction Hs; [constructor|cbn; by apply Forall2_app]).
  clear Hs. induction Hc as [|?? ?? E ? IH]; [done|]. cbn. rewrite !length_app. lia.
Qed.
Lemma concat_total {A} dns (data : list (list A)) : Forall2 (fun n l => zlen l = n) dns data -> zlen (concat data) = zsum dns.
Proof. induction 1 as [|?? ?? E ? IH]; [done|]. cbn [concat]. rewrite zlen_app, zsum_cons. lia. Qed.
(** What the numbers in range select. *)
Lemma select_spec {A} (all : list A) lngn : in_range (zlen all) lngn ->
  Forall2 (Forall2 (Forall2 (fun g x => all !! Z.to_nat (g - 1) = Some x))) lngn (map (map (omap (fun g => all !! Z.to_nat (g - 1)))) lngn).
Proof.
  intros Hr. apply Forall2_fmap_r, Forall_Forall2_diag. eapply Forall_impl; [exact Hr|]. intros zones Hz. apply Forall2_fmap_r, Forall_Forall2_diag. eapply Forall_impl; [exact Hz|]. intros l Hl.
  apply omap_Forall2. intros g Hg. rewrite Forall_forall in Hl. specialize (Hl g Hg). destruct (lookup_lt_is_Some_2 all (Z.to_nat (g - 1))) as [x Hx]; [unfold zlen in Hl; lia|eauto].
Qed.
#[export] Instance seq_parts_laws : parts_exchange_laws seq_parts.
Proof.
  split.
  - intros A dns data lngn Hd Hl Hr. cbn. rewrite <- (concat_total _ _ Hd) in Hr. by apply select_spec.
  - intros lngn Hp. cbn. destruct lngn as [|z lngn]; [by exists []|]. destruct (even_blocks_spec (length (z :: lngn)) (foldr Z.max 0 (all_numbers (z :: lngn)))) as (H1 & H2 & H3); [cbn; lia|apply foldr_max_nonneg|]. eexists. split; [reflexivity|]. by split; [|split].
  - intros dns lngn Hd Hl Hr. apply (seq_gnum_spec dns (concat lngn)).
  - intros A dns lngn fields Hd Hl Hr Hs. cbn. apply Forall2_fmap_r, Forall_Forall2_diag, Forall_forall. intros l Hin. apply omap_Forall2. intros g Hg.
    apply find_given; [by apply sized_length|]. by apply (seq_gnum_elem (scan 0 dns) (concat lngn) l).
  - intros A dns lngn fields Hd Hl Hr Hs. cbn. apply Forall2_fmap_r, Forall_Forall2_diag, Forall_forall. intros l _. apply Forall2_fmap_r, Forall_Forall2_diag, Forall_forall. intros g _. unfold compose. reflexivity.
Qed.
#[export] Instance seq_multi_laws : multi_exchange_laws seq_multi.
Proof.
  split. intros A dnss data lngn Hd Hl Hr. cbn. apply select_spec. replace (zlen (concat (concat data))) with (zsum (map zsum dnss)); [done|].
  clear -Hd. induction Hd as [|dns l dnss data E Hd IH]; [done|]. cbn [map concat]. rewrite zsum_cons, concat_app, zlen_app, IH. by rewrite (concat_total _ _ E).
Qed.
#[export] Instance seq_sub_laws : sub_numbering_laws seq_sub.
Proof. by split. Qed.

(** ** Compact numberings *)

Lemma arange_sorted a b : StronglySorted Z.lt (arange a b).
Proof.
  remember (Z.to_nat (b - a)) as n eqn:E. revert a E. induction n as [|n IH]; intros a E; [rewrite (arange_nil a b) by lia; constructor|]. rewrite (arange_cons a b) by lia. constructor; [apply IH; lia|]. apply Forall_forall. intros x Hx%elem_of_arange. lia.
Qed.
Lemma sorted_filter (P : Z -> Prop) `{!forall x, Decision (P x)} l : StronglySorted Z.lt l -> StronglySorted Z.lt (filter P l).
Proof.
  induction 1 as [|x l Hs IH Hx]; [constructor|]. rewrite filter_cons. destruct (decide (P x)); [|done]. constructor; [done|]. rewrite Forall_forall in Hx |- *. intros y [_ Hy]%list_elem_of_filter. by apply Hx.
Qed.
Lemma sorted_same l k : StronglySorted Z.lt l -> StronglySorted Z.lt k -> (forall x, x ∈ l <-> x ∈ k) -> l = k.
Proof.
  assert (Hw : forall l, StronglySorted Z.lt l -> StronglySorted Z.le l /\ NoDup l).
  { clear. induction 1 as [|x l Hs [IH1 IH2] Hx]; [split; constructor|]. split; [constructor; [done|]; eapply Forall_impl; [exact Hx|]; intros; cbn in *; lia|]. apply NoDup_cons. split; [|done]. intros Hin. rewrite Forall_forall in Hx. specialize (Hx x Hin). lia. }
  intros Hl Hk He. apply Hw in Hl as [Hl1 Hl2]. apply Hw in Hk as [Hk1 Hk2]. by apply sorted_nodup_unique.
Qed.
Lemma filter_kept (P : Z -> Prop) `{!forall x, Decision (P x)} (l : list Z) : (forall x, x ∈ l -> P x) -> filter P l = l.
Proof. induction l as [|x l IH]; intros Hk; [done|]. rewrite filter_cons, decide_True by (apply Hk; left). f_equal. apply IH. intros. apply Hk. by right. Qed.
Lemma split_strides_filter {A} (P : Z -> Prop) `{!forall x, Decision (P x)} (f : Z -> A) l :
  split_strides (map (fun g => if decide (P g) then 1 else 0) l) (map f (filter P l)) = map (fun g => if decide (P g) then [f g] else []) l.
Proof.
  induction l as [|x l IH]; [done|]. rewrite filter_cons. cbn [map]. destruct (decide (P x)) as [HP|HP]; cbn [split_strides map].
  - change (Z.to_nat 1) with 1%nat. cbn [take drop]. by rewrite take_0, drop_0, IH.
  - change (Z.to_nat 0) with 0%nat. by rewrite take_0, drop_0, IH.
Qed.
Lemma zlen_cons {A} (x : A) l : zlen (x :: l) = 1 + zlen l.
Proof. unfold zlen. cbn [length]. lia. Qed.
(** The positions of the elements that are kept. *)
Lemma filter_positions (P : Z -> Prop) `{!forall x, Decision (P x)} a b :
  map (fun g => zlen (filter P (arange a (g + 1)))) (filter P (arange a b)) = arange 1 (zlen (filter P (arange a b)) + 1).
Proof.
  remember (Z.to_nat (b - a)) as n eqn:E. revert a E. induction n as [|n IH]; intros a E; [by rewrite (arange_nil a b) by lia|]. rewrite (arange_cons a b) by lia. rewrite filter_cons.
  assert (Hs : forall g, g ∈ filter P (arange (a + 1) b) -> zlen (filter P (arange a (g + 1))) = (if decide (P a) then 1 else 0) + zlen (filter P (arange (a + 1) (g + 1)))).
  { intros g [_ Hg%elem_of_arange]%list_elem_of_filter. rewrite (arange_cons a (g + 1)), filter_cons by lia. destruct (decide (P a)); [rewrite zlen_cons|]; lia. }
  destruct (decide (P a)) as [Ha|Ha].
  - cbn [map]. rewrite zlen_cons. pose proof (zlen_nonneg (filter P (arange (a + 1) b))). rewrite (arange_cons 1 (1 + zlen (filter P (arange (a + 1) b)) + 1)) by lia. f_equal.
    + rewrite (arange_cons a (a + 1)), (arange_nil (a + 1) (a + 1)), filter_cons, decide_True, filter_nil by (done || lia). done.
    + rewrite (map_ext_in _ (fun g => 1 + zlen (filter P (arange (a + 1) (g + 1))))) by (intros g Hg; apply Hs; by apply list_elem_of_In). rewrite <- (map_map (fun g => zlen (filter P (arange (a + 1) (g + 1)))) (Z.add 1)), IH by lia.
      replace (arange (1 + 1) (1 + zlen (filter P (arange (a + 1) b)) + 1)) with (arange (1 + 1) (zlen (filter P (arange (a + 1) b)) + 1 + 1)) by (f_equal; lia). rewrite <- Slabs.fmap_add_arange. apply map_ext. intros. lia.
  - rewrite (map_ext_in _ (fun g => zlen (filter P (arange (a + 1) (g + 1))))) by (intros g Hg; rewrite Hs by (by apply list_elem_of_In); lia). apply IH. lia.
Qed.

Lemma Forall2_map_eq {A B} (R : A -> B -> Prop) (f : A -> B) l k : Forall2 R l k -> (forall x y, x ∈ l -> R x y -> y = f x) -> k = map f l.
Proof. induction 1 as [|x y l k Hxy Hlk IH]; intros Hf; [done|]. cbn [map]. f_equal; [apply Hf; [left|done]|]. apply IH. intros. apply Hf; [by right|done]. Qed.
(** What is received for each number, when it depends on the number only. *)
Lemma nested_map_eq {A} (R : Z -> A -> Prop) (f : Z -> A) lngn out : Forall2 (Forall2 (Forall2 R)) lngn out -> (forall g x, g ∈ all_numbers lngn -> R g x -> x = f g) -> out = map (map (map f)) lngn.
Proof.
  intros Hf Hg. eapply Forall2_map_eq; [exact Hf|]. intros zones outs Hz Ho. eapply Forall2_map_eq; [exact Ho|]. intros l k Hl Hk. eapply Forall2_map_eq; [exact Hk|]. intros g x Hgl Hx. apply Hg; [|done].
  unfold all_numbers. apply elem_of_concat. exists l. split; [|done]. apply elem_of_concat. eauto.
Qed.

Lemma common_replicate {A} `{EqDecision A} n (x : A) : (0 < n)%nat -> common (replicate n x) = Ret x.
Proof.
  destruct n as [|n]; [lia|]. intros _. cbn [replicate common]. replace (forallb (fun y => bool_decide (y = x)) (replicate n x)) with true; [done|]. symmetry. apply forallb_forall. intros y Hy%list_elem_of_In. apply elem_of_replicate in Hy as [-> _]. by apply bool_decide_eq_true.
Qed.
(** The numbers that a rank has in its interval. *)
Lemma numbers_exact `{EX : parts_exchange} `{!parts_exchange_laws EX} dns lngn : Forall (fun n => 0 <= n) dns -> length dns = length lngn -> in_range (zsum dns) lngn ->
  ptb_numbers (scan 0 dns) lngn = map (fun r => filter (fun g => g ∈ all_numbers lngn) (arange (bound dns r + 1) (bound dns (S r) + 1))) (seq 0 (length dns)).
Proof.
  intros Hdns Hlen Hr. destruct (law_numbers dns lngn) as [Hl Hn]; [done..|]. apply list_eq_same_length with (length dns); [by rewrite length_map, length_seq|done|].
  intros r l k Hlt El Ek. rewrite map_seq_lookup in Ek by done. injection Ek as <-. destruct (lookup_lt_is_Some_2 dns r Hlt) as [n En].
  destruct (Hn r _ l (partials_lookup _ _ _ En) El) as [Hs Hin]. apply sorted_same; [done|apply sorted_filter, arange_sorted|]. intros g. rewrite Hin. rewrite list_elem_of_filter, elem_of_arange. cbn [p_start p_end].
  unfold bound. rewrite (take_S_r _ _ _ En), zsum_app, zsum_cons, zsum_nil. split; intros [??]; (split; [done|lia]).
Qed.

(** The places are in the order of the numbers and fill the first integers. *)
Lemma rank_increasing l g h : g ∈ l -> h ∈ l -> g < h -> rank_among l g < rank_among l h.
Proof.
  intros Hg Hh Hlt. unfold rank_among, zlen. apply inj_lt. apply (Nat.lt_le_trans _ (length (h :: filter (fun x => x <= g) (remove_dups l)))); [cbn; lia|]. apply submseteq_length, NoDup_submseteq.
  - apply NoDup_cons. split; [intros [Hx _]%list_elem_of_filter; lia|]. apply NoDup_filter, NoDup_remove_dups.
  - intros x [->|[Hx Hin]%list_elem_of_filter]%elem_of_cons; apply list_elem_of_filter; (split; [lia|]); [by apply elem_of_remove_dups|done].
Qed.
Lemma rank_onto l k : 1 <= k <= zlen (remove_dups l) <-> exists g, g ∈ l /\ rank_among l g = k.
Proof.
  assert (Hr : forall g, g ∈ l -> 1 <= rank_among l g <= zlen (remove_dups l)).
  { intros g Hg. unfold rank_among, zlen. split; [|pose proof (length_filter (fun x => x <= g) (remove_dups l)); lia]. assert (Hin : g ∈ filter (fun x => x <= g) (remove_dups l)) by (apply list_elem_of_filter; split; [lia|by apply elem_of_remove_dups]).
    destruct (filter _ _) as [|y k'] eqn:Ey; [by apply elem_of_nil in Hin|cbn; lia]. }
  split; [|intros (g & Hg & <-); by apply Hr]. intros Hk.
  assert (Hp : map (rank_among l) (remove_dups l) ≡ₚ arange 1 (zlen (remove_dups l) + 1)).
  { apply (submseteq_length_Permutation). 2: { rewrite length_map, length_arange. unfold zlen. by rewrite Z.add_simpl_r, Nat2Z.id. } apply NoDup_submseteq.
    - apply NoDup_fmap_2_strong; [|apply NoDup_remove_dups]. intros x y Hx Hy E. rewrite elem_of_remove_dups in Hx, Hy. destruct (Z.lt_trichotomy x y) as [Hl|[->|Hl]]; [|done|]; exfalso; [pose proof (rank_increasing l x y Hx Hy Hl)|pose proof (rank_increasing l y x Hy Hx Hl)]; lia.
    - intros x Hx. apply list_elem_of_fmap in Hx as (g & -> & Hg). rewrite elem_of_remove_dups in Hg. apply elem_of_arange. specialize (Hr g Hg). lia. }
  assert (Hin : k ∈ map (rank_among l) (remove_dups l)) by (rewrite Hp; apply elem_of_arange; lia). apply list_elem_of_fmap in Hin as (g & -> & Hg). rewrite elem_of_remove_dups in Hg. eauto.
Qed.

Section compact.
Context `{EX : parts_exchange} `{!parts_exchange_laws EX} (d : dtype) (lngn : parts (list Z)).
Context (Hpos : Forall (Forall (Forall (fun g => 1 <= g))) lngn) (Hmax : foldr Z.max 0 (all_numbers lngn) <= iinfo_max d) (Hcount : zlen (remove_dups (all_numbers lngn)) <= iinfo_max Prelude.I4) (Hne : lngn <> []).
Context (dns : list Z) (Hd : ptb_distri lngn = scan 0 dns) (Hlen : length dns = length lngn) (Hdns : Forall (fun n => 0 <= n) dns) (Hsum : zsum dns = foldr Z.max 0 (all_numbers lngn)).

Definition given_in (r : nat) : list Z := filter (fun g => g ∈ all_numbers lngn) (arange (bound dns r + 1) (bound dns (S r) + 1)).
Definition number (g : Z) : Z := zlen (filter (fun x => x ∈ all_numbers lngn) (arange 1 (g + 1))).

Lemma numbers_bounded g : g ∈ all_numbers lngn -> 1 <= g <= zsum dns.
Proof using All.
  intros Hg. split.
  - unfold all_numbers in Hg. apply elem_of_concat in Hg as (l & Hl & Hg). apply elem_of_concat in Hl as (z & Hz & Hl).
    rewrite Forall_forall in Hpos. specialize (Hpos z Hz). rewrite Forall_forall in Hpos. specialize (Hpos l Hl). rewrite Forall_forall in Hpos. by apply Hpos.
  - rewrite Hsum. clear -Hg. induction Hg as [|g x l Hg IH]; cbn; lia.
Qed.
Lemma numbers_in_range : in_range (zsum dns) lngn.
Proof using All.
  unfold in_range. rewrite !Forall_forall. intros z Hz. rewrite Forall_forall. intros l Hl. rewrite Forall_forall. intros g Hg. apply numbers_bounded. unfold all_numbers. apply elem_of_concat. exists l. split; [|done]. apply elem_of_concat. eauto.
Qed.
Lemma rank_number g : g <= zsum dns -> rank_among (all_numbers lngn) g = number g.
Proof using All.
  intros Hg. unfold rank_among, number. unfold zlen. f_equal. apply Permutation_length, NoDup_Permutation; [apply NoDup_filter, NoDup_remove_dups|apply NoDup_filter, PointRange.NoDup_arange|].
  intros x. rewrite !list_elem_of_filter, elem_of_remove_dups, elem_of_arange. split; [intros [Hx Hin]; pose proof (numbers_bounded x Hin); split; [done|lia]|intros [Hin Hx]; split; [lia|done]].
Qed.
Lemma block_numbers : ptb_numbers (scan 0 dns) lngn = map given_in (seq 0 (length dns)).
Proof using All. apply numbers_exact; [done..|apply numbers_in_range]. Qed.
Lemma filter_intervals r : (r <= length dns)%nat -> concat (map given_in (seq 0 r)) = filter (fun g => g ∈ all_numbers lngn) (arange 1 (bound dns r + 1)).
Proof using All.
  induction r as [|r IH]; intros Hr; [by rewrite (arange_nil 1 _) by (unfold bound; rewrite take_0; cbn; lia)|]. rewrite seq_S, map_app, concat_app, IH by lia. cbn [map concat Nat.add]. rewrite app_nil_r. unfold given_in. rewrite <- filter_app. f_equal. pose proof (bound_range dns r Hdns). pose proof (bound_mono dns r Hdns). rewrite <- arange_app by lia. done.
Qed.
Lemma offsets_number r : (r <= length dns)%nat -> bound (map zlen (map given_in (seq 0 (length dns)))) r = number (bound dns r).
Proof using All.
  intros Hr. unfold number. rewrite <- filter_intervals by done. unfold bound at 1. rewrite !firstn_map. rewrite (take_seq 0 (length dns) r). replace (r `min` length dns)%nat with r by lia.
  generalize (seq 0 r). clear. intros l. induction l as [|x l IH]; [done|]. cbn [map concat]. by rewrite zsum_cons, zlen_app, IH.
Qed.
(** A computation of each rank with its number. *)
Lemma mapM_numbered {A B} (f : nat -> A) (g : nat * A -> py B) (h : nat -> B) n : (forall r, (r < n)%nat -> g (r, f r) = Ret (h r)) -> mapM g (imap pair (map f (seq 0 n))) = Ret (map h (seq 0 n)).
Proof using Type.
  clear. intros Hg. apply py_mapM_lookup; [by rewrite length_imap, !length_map|]. intros i x y Hx Hy. destruct (decide (i < n)%nat) as [Hi|Hi]; [|rewrite lookup_ge_None_2 in Hy by (rewrite length_map, length_seq; lia); done].
  rewrite list_lookup_imap, map_seq_lookup in Hx by done. rewrite map_seq_lookup in Hy by done. injection Hx as <-. injection Hy as <-. by apply Hg.
Qed.
Lemma scan_get r : (r <= length dns)%nat -> py_get (scan 0 dns) (Z.of_nat r) = Ret (bound dns r).
Proof using Type. clear. intros Hr. apply py_get_lookup. by rewrite scan_lookup. Qed.
Lemma scan_get_next r : (r < length dns)%nat -> py_get (scan 0 dns) (Z.of_nat r + 1) = Ret (bound dns (S r)).
Proof using Type. clear. intros Hr. replace (Z.of_nat r + 1) with (Z.of_nat (S r)) by lia. by apply scan_get. Qed.

Definition interval (r : nat) : list Z := arange (bound dns r + 1) (bound dns (S r) + 1).
Lemma strides_exact r : (r < length dns)%nat -> known_strides (scan 0 dns) r (given_in r) = Ret (map (fun g => if decide (g ∈ all_numbers lngn) then 1 else 0) (interval r)).
Proof using All.
  intros Hr. unfold known_strides. rewrite scan_get, scan_get_next by lia. cbn [mbind py_bind].
  replace (Z.to_nat (bound dns (S r) - bound dns r)) with (Z.to_nat (bound dns (S r) + 1 - (bound dns r + 1))) by lia. rewrite replicate_tab. rewrite (map_ext (fun g => g - bound dns r - 1) (fun g => g - (bound dns r + 1))) by (intros; lia).
  rewrite (MergeIds.set_false_tab (fun _ => true)) by (intros x [_ Hx%elem_of_arange]%list_elem_of_filter; done). cbn [mbind py_bind]. f_equal. rewrite map_map. apply map_tab_ext. intros g Hg. cbn [andb].
  destruct (decide (g ∈ all_numbers lngn)) as [Hin|Hin]; [rewrite bool_decide_eq_false_2; [done|]|rewrite bool_decide_eq_true_2; [done|]]; unfold given_in; rewrite list_elem_of_filter, elem_of_arange; [intros Hn; apply Hn; split; [done|lia]|by intros [? _]].
Qed.
Lemma number_range g : 0 <= number g <= zlen (remove_dups (all_numbers lngn)).
Proof using All.
  split; [apply zlen_nonneg|]. unfold number, zlen. apply inj_le. apply (submseteq_length). apply NoDup_submseteq; [apply NoDup_filter, PointRange.NoDup_arange|]. intros x [Hx _]%list_elem_of_filter. by apply elem_of_remove_dups.
Qed.
Lemma number_fits g : 0 <= g <= zsum dns -> in_dtype d (number g).
Proof using All.
  intros Hg. pose proof (number_range g) as [H0 _]. assert (Hn : number g <= g).
  { unfold number, zlen. pose proof (length_filter (fun x => x ∈ all_numbers lngn) (arange 1 (g + 1))) as Hf. rewrite length_arange in Hf. lia. }
  pose proof iinfo_max. unfold in_dtype. unfold iinfo_min, iinfo_max in *. destruct d; cbn in *; lia.
Qed.
Lemma group_exact r : (r < length dns)%nat ->
  map (fun k => wrap d (k + number (bound dns r) + 1)) (arange 0 (zlen (given_in r))) = map number (given_in r).
Proof using All.
  intros Hr. pose proof (bound_range dns r Hdns). pose proof (bound_range dns (S r) Hdns).
  assert (Hn : forall g, g ∈ given_in r -> number g = number (bound dns r) + zlen (filter (fun x => x ∈ all_numbers lngn) (arange (bound dns r + 1) (g + 1)))).
  { intros g [_ Hg%elem_of_arange]%list_elem_of_filter. unfold number. rewrite (arange_app 1 (bound dns r + 1) (g + 1)), filter_app, zlen_app by lia. done. }
  assert (Hw : forall g, g ∈ given_in r -> in_dtype d (number g)) by (intros g [_ Hg%elem_of_arange]%list_elem_of_filter; apply number_fits; lia).
  rewrite (map_ext_in number (fun g => wrap d (number (bound dns r) + zlen (filter (fun x => x ∈ all_numbers lngn) (arange (bound dns r + 1) (g + 1))))))
    by (intros g Hg%list_elem_of_In; rewrite <- Hn by done; symmetry; by apply wrap_id, Hw).
  rewrite <- (map_map (fun g => zlen (filter (fun x => x ∈ all_numbers lngn) (arange (bound dns r + 1) (g + 1)))) (fun k => wrap d (number (bound dns r) + k))).
  unfold given_in at 2. rewrite filter_positions. fold (given_in r). replace (arange 1 (zlen (given_in r) + 1)) with (arange (0 + 1) (zlen (given_in r) + 1)) by done. rewrite <- Slabs.fmap_add_arange. change (@fmap list _ Z Z) with (@map Z Z). rewrite map_map. apply map_ext. intros k. f_equal. lia.
Qed.
(** What each number of an interval is sent: its place, when it is one of the numbers. *)
Definition chunk (g : Z) : list Z := if decide (g ∈ all_numbers lngn) then [number g] else [].
Lemma btp_chunks : btp (scan 0 dns) (map (fun r => map chunk (interval r)) (seq 0 (length dns))) lngn = map (map (map (fun g => [rank_among (all_numbers lngn) g]))) lngn.
Proof using All.
  pose proof (law_btp (list Z) dns (map (fun r => map chunk (interval r)) (seq 0 (length dns))) lngn) as Hb.
  assert (Hc : concat (map (fun r => map chunk (interval r)) (seq 0 (length dns))) = map chunk (arange 1 (zsum dns + 1))).
  { pose proof (concat_partials chunk (zsum dns) dns 0 Hdns) as Hp. rewrite !Z.add_0_l in Hp. rewrite <- Hp. f_equal. rewrite (bounds_scan (fun a b => Partial a b (zsum dns))), map_map. done. }
  assert (Hsz : Forall2 (fun n l => zlen l = n) dns (map (fun r => map chunk (interval r)) (seq 0 (length dns)))).
  { apply Forall2_same_length_lookup_2; [by rewrite length_map, length_seq|]. intros r n l Hn Hl. pose proof (lookup_lt_Some _ _ _ Hn). rewrite map_seq_lookup in Hl by done. injection Hl as <-. unfold zlen, interval. rewrite length_map, length_arange. unfold bound. rewrite (take_S_r _ _ _ Hn), zsum_app, zsum_cons, zsum_nil. rewrite Forall_lookup in Hdns. specialize (Hdns r n Hn). cbn in Hdns. lia. }
  specialize (Hb Hsz (eq_sym Hlen) numbers_in_range). rewrite Hc in Hb. apply (nested_map_eq _ _ _ _ Hb). intros g x Hg Hx. pose proof (numbers_bounded g Hg). replace (Z.to_nat (g - 1)) with (Z.to_nat (g - 1)) in Hx by done.
  rewrite (lookup_tab chunk 1 (zsum dns + 1) g) in Hx by lia. injection Hx as <-. unfold chunk. rewrite decide_True by done. by rewrite rank_number by lia.
Qed.
Lemma full_of_exact {A} (l : list A) : length l = length dns -> l <> [] -> full_of d (map (fun _ => scan 0 dns) l) = Ret (scan 0 dns).
Proof using All.
  intros Hl Hn. unfold full_of. destruct (auto_expand_spec d dns Hdns) as [_ He]; [lia|]. replace (map (fun _ => scan 0 dns) l) with (replicate (length dns) (scan 0 dns)).
  - rewrite He. cbn [mbind py_bind]. apply common_replicate. destruct l; [done|cbn in Hl; lia].
  - rewrite <- Hl. clear. induction l as [|x l IH]; [done|]. cbn. by rewrite IH.
Qed.
Lemma group_numbers_exact : group_numbers d lngn = Ret (map (map (map (rank_among (all_numbers lngn)))) lngn).
Proof using All.
  unfold group_numbers. rewrite Hd, block_numbers.
  assert (Hg : gather_and_shift Prelude.I4 (map zlen (map given_in (seq 0 (length dns)))) = scan 0 (map zlen (map given_in (seq 0 (length dns))))).
  { apply gather_exact; [apply Forall_fmap, Forall_forall; intros; apply zlen_nonneg|]. pose proof (offsets_number (length dns) (le_n _)) as Ho. rewrite bound_end in Ho by (rewrite !length_map, length_seq; lia). rewrite Ho. pose proof (number_range (bound dns (length dns))). lia. }
  rewrite Hg. set (known := mapM (fun '(r, l) => known_strides (scan 0 dns) r l) _). rewrite (mapM_numbered given_in _ (fun r => map number (given_in r))).
  2: { intros r Hr. cbn beta iota. rewrite (py_get_lookup _ r (number (bound dns r))); [cbn [mbind py_bind]; by rewrite group_exact|]. rewrite scan_lookup by (rewrite !length_map, length_seq; lia). f_equal. rewrite Z.add_0_l. apply offsets_number. lia. }
  cbn [mbind py_bind]. assert (Hk : known = Ret (map (fun r => map (fun g => if decide (g ∈ all_numbers lngn) then 1 else 0) (interval r)) (seq 0 (length dns)))) by (apply mapM_numbered; intros r Hr; by apply strides_exact). rewrite Hk.
  cbn [mbind py_bind]. unfold block_to_part_strided. rewrite full_of_exact by done. cbn [mbind py_bind]. rewrite zip_seq.
  rewrite (map_ext (fun r => split_strides _ _) (fun r => map chunk (interval r))) by (intros r; apply split_strides_filter). rewrite btp_chunks. f_equal. cbn [snd]. rewrite map_map. apply map_ext. intros zones. rewrite map_map. apply map_ext. intros l. clear. induction l as [|x l IH]; [done|]. cbn. by rewrite IH.
Qed.
End compact.

(** A numbering of subsets: positive numbers on at least one rank, whose number of distinct values fits in the type of the
    offsets, and that fit themselves in the type of the global numbers. *)
Definition numberable (d : dtype) (lngn : parts (list Z)) : Prop :=
  lngn <> [] /\ Forall (Forall (Forall (fun g => 1 <= g))) lngn /\ foldr Z.max 0 (all_numbers lngn) <= iinfo_max d /\ zlen (remove_dups (all_numbers lngn)) <= iinfo_max Prelude.I4.
#[export] Instance numberable_dec d lngn : Decision (numberable d lngn).
Proof. apply _. Defined.
(** C30: The numbering that [create_part_pl_gnum] gives to the entities of a subset returns on every partition the place of
    the number of each entity among the distinct numbers: it is compact, starts at 1, keeps the order, and an entity
    that several partitions have receives the same number on all of them. *)
Theorem group_numbers_spec `{EX : parts_exchange} `{!parts_exchange_laws EX} (d : dtype) (lngn : parts (list Z)) (Hn : numberable d lngn) :
  group_numbers d lngn = Ret (map (map (map (rank_among (all_numbers lngn)))) lngn) /\
  (forall g h, g ∈ all_numbers lngn -> h ∈ all_numbers lngn -> g < h -> rank_among (all_numbers lngn) g < rank_among (all_numbers lngn) h) /\
  forall k, 1 <= k <= zlen (remove_dups (all_numbers lngn)) <-> exists g, g ∈ all_numbers lngn /\ rank_among (all_numbers lngn) g = k.
Proof.
  destruct Hn as (Hne & Hpos & Hmax & Hcount). split; [|split; [by apply rank_increasing|by apply rank_onto]].
  destruct (law_distri lngn Hpos) as (dns & Hd & Hlen & Hdns & Hsum). by apply (group_numbers_exact d lngn Hpos Hmax Hcount Hne dns).
Qed.
Lemma group_numbers_spec_witness : numberable Prelude.I4 [[[3; 9]; []]; [[9; 7]]] /\
  group_numbers Prelude.I4 [[[3; 9]; []]; [[9; 7]]] = Ret [[[1; 3]; []]; [[3; 2]]].
Proof.
  split; [|apply (group_numbers_spec Prelude.I4 [[[3; 9]; []]; [[9; 7]]])]; apply (bool_decide_unpack _); vm_compute; exact I.
Defined.

(** ** Fields sent to the partitions and back *)

Section roundtrip.
Context `{EX : parts_exchange} `{!parts_exchange_laws EX} (d : dtype) (t : cgns_type) (dns : list Z) (D : list Z) (lngn : parts (list Z)).
Context (Hdns : Forall (fun n => 0 <= n) dns) (HD : zlen D = zsum dns) (Hmax : zsum dns <= iinfo_max d) (Hlen : length lngn = length dns) (Hr : in_range (zsum dns) lngn).
Context (Hcover : forall g, 1 <= g <= zsum dns -> g ∈ all_numbers lngn) (Hne : concat lngn <> []).

Definition value_at (g : Z) : Z := nth (Z.to_nat (g - 1)) D 0.
Definition sent : parts nparray := map (map (fun l => vec t (map value_at l))) lngn.

Lemma ranks_nonempty : (0 < length dns)%nat.
Proof using Hlen Hne. clear -Hlen Hne. rewrite <- Hlen. destruct (decide (length lngn = 0%nat)) as [E|]; [|lia]. apply length_zero_iff_nil in E. rewrite E in Hne. done. Qed.
Lemma expand_exact : full_of d (distri_arrays dns) = Ret (scan 0 dns).
Proof using All. unfold full_of, distri_arrays. rewrite (proj1 (auto_expand_spec d dns Hdns ltac:(lia))). cbn [mbind py_bind]. apply common_replicate, ranks_nonempty. Qed.
Lemma number_lookup g : 1 <= g <= zsum dns -> D !! Z.to_nat (g - 1) = Some (value_at g).
Proof using HD. clear -HD. intros Hg. unfold value_at. destruct (lookup_lt_is_Some_2 D (Z.to_nat (g - 1))) as [x Hx]; [unfold zlen in HD; lia|]. rewrite Hx. by rewrite (nth_lookup_Some _ _ _ _ Hx). Qed.
Lemma in_range_elem g : g ∈ all_numbers lngn -> 1 <= g <= zsum dns.
Proof using Hr.
  clear -Hr. intros Hg. unfold all_numbers in Hg. apply elem_of_concat in Hg as (l & Hl & Hg). apply elem_of_concat in Hl as (z & Hz & Hl).
  unfold in_range in Hr. rewrite Forall_forall in Hr. specialize (Hr z Hz). rewrite Forall_forall in Hr. specialize (Hr l Hl). rewrite Forall_forall in Hr. by apply Hr.
Qed.
Lemma common_const {A B} `{EqDecision B} (f : A -> B) (x : B) l : l <> [] -> (forall a, a ∈ l -> f a = x) -> common (map f l) = Ret x.
Proof using Type.
  clear. intros Hl Hf. replace (map f l) with (replicate (length l) x); [apply common_replicate; destruct l; [done|cbn; lia]|]. induction l as [|a l IH]; [done|]. cbn. rewrite (Hf a) by left. f_equal. destruct l; [done|]. apply IH; [done|]. intros. apply Hf. by right.
Qed.
Lemma send_exact : block_to_part d (map (vec t) (blocks_of dns D)) (distri_arrays dns) lngn = Ret sent.
Proof using All.
  unfold block_to_part. rewrite expand_exact. cbn [mbind py_bind].
  rewrite (common_const a_type t); [|unfold blocks_of; pose proof ranks_nonempty as Hn; destruct (length dns); [lia|done]|by intros a (l & -> & _)%list_elem_of_fmap]. cbn [mbind py_bind]. f_equal.
  assert (Hb : map a_data (map (vec t) (blocks_of dns D)) = blocks_of dns D) by (rewrite map_map; apply map_id). rewrite Hb.
  assert (Hsz : Forall2 (fun n l => zlen l = n) dns (blocks_of dns D)) by (rewrite <- (block_sizes dns D) at 1 by done; apply Forall2_fmap_l, Forall_Forall2_diag, Forall_forall; done).
  pose proof (law_btp Z dns (blocks_of dns D) lngn Hsz Hlen Hr) as Hl. rewrite concat_blocks in Hl by done. rewrite (nested_map_eq _ value_at _ _ Hl).
  - unfold sent. rewrite map_map. apply map_ext. intros z. by rewrite map_map.
  - intros g x Hg Hx. rewrite number_lookup in Hx by (by apply in_range_elem). by injection Hx.
Qed.
Lemma interval_values r : (r < length dns)%nat -> map value_at (arange (bound dns r + 1) (bound dns (S r) + 1)) = block dns D r.
Proof using HD Hdns.
  clear -HD Hdns. intros Hr. pose proof (bound_range dns r Hdns). pose proof (bound_range dns (S r) Hdns). pose proof (bound_mono dns r Hdns). unfold block, part. apply list_eq. intros i. change (@map) with (fun A B => @fmap list _ A B). cbn beta. rewrite list_lookup_fmap.
  destruct (decide (Z.of_nat i < bound dns (S r) - bound dns r)) as [Hi|Hi].
  - rewrite lookup_arange by lia. cbn. rewrite lookup_take_lt, lookup_drop by lia. unfold value_at. destruct (lookup_lt_is_Some_2 D (Z.to_nat (bound dns r) + i)) as [x Hx]; [unfold zlen in HD; lia|]. rewrite Hx. f_equal. apply nth_lookup_Some. rewrite <- Hx. f_equal. lia.
  - rewrite (lookup_ge_None_2 (arange _ _)) by (rewrite length_arange; lia). cbn. symmetry. apply lookup_ge_None_2. rewrite length_take. lia.
Qed.
Lemma given_sent g x : (g, x) ∈ given lngn (map (map a_data) sent) -> x = value_at g.
Proof using Type.
  clear. unfold given, all_numbers, sent. intros Hin. assert (Hc : concat (concat (map (map a_data) (map (map (fun l => vec t (map value_at l))) lngn))) = map value_at (concat (concat lngn))).
  { rewrite map_map. rewrite (map_ext _ (map (map value_at))) by (intros z; by rewrite map_map). rewrite concat_map, concat_map. done. }
  rewrite Hc in Hin. clear Hc. induction (concat (concat lngn)) as [|y l IH]; [by apply elem_of_nil in Hin|]. cbn in Hin. apply elem_of_cons in Hin as [[= -> ->]|Hin]; [done|]. by apply IH.
Qed.
Lemma back_exact : part_to_block d sent (distri_arrays dns) lngn None = Ret (map (vec t) (blocks_of dns D)).
Proof using All.
  unfold part_to_block. rewrite expand_exact. cbn [mbind py_bind].
  rewrite (common_const a_type t). 2: { unfold sent. rewrite <- concat_map. intros E%map_eq_nil. done. } 2: { intros a (z & Hz & Ha)%elem_of_concat. unfold sent in Hz. apply list_elem_of_fmap in Hz as (k & -> & _). apply list_elem_of_fmap in Ha as (l & -> & _). done. }
  cbn [mbind py_bind]. do 2 f_equal.
  assert (Hs : sized lngn (map (map a_data) sent)).
  { unfold sized, sent. rewrite map_map. apply Forall2_fmap_r, Forall_Forall2_diag, Forall_forall. intros z _. unfold compose. rewrite map_map. apply Forall2_fmap_r, Forall_Forall2_diag, Forall_forall. intros l _. unfold compose. cbn. by rewrite length_map. }
  pose proof (law_first Z dns lngn _ Hdns Hlen Hr Hs) as Hf. rewrite numbers_exact in Hf by done.
  assert (Hi : map (fun r => filter (fun g => g ∈ all_numbers lngn) (arange (bound dns r + 1) (bound dns (S r) + 1))) (seq 0 (length dns)) = map (fun r => arange (bound dns r + 1) (bound dns (S r) + 1)) (seq 0 (length dns))).
  { apply map_ext. intros r. apply filter_kept. intros g Hg%elem_of_arange. apply Hcover. pose proof (bound_range dns r Hdns). pose proof (bound_range dns (S r) Hdns). lia. }
  rewrite Hi in Hf. rewrite (Forall2_map_eq _ (map value_at) _ _ Hf).
  - rewrite map_map. unfold blocks_of. apply map_ext_in. intros r Hin%in_seq. apply interval_values. lia.
  - intros l k _ Hlk. apply (Forall2_map_eq _ value_at _ _ Hlk). intros g x _ Hgx. by apply given_sent.
Qed.
End roundtrip.

(** ** Ranges gathered from partitions *)

Lemma lex_le_all l k : Forall2 Z.le l k -> lex_leb l k = true.
Proof.
  induction 1 as [|x y l k Hxy Hlk IH]; [done|]. cbn. destruct (decide (x < y)) as [Hlt|Hlt]; [by rewrite bool_decide_eq_true_2|]. rewrite (bool_decide_eq_true_2 (x = y)), IH by lia. apply orb_true_r.
Qed.
Lemma lex_antisym l : forall k, length l = length k -> lex_leb l k = true -> lex_leb k l = true -> l = k.
Proof.
  induction l as [|x l IH]; intros [|y k] Hl H1 H2; try done. cbn in *. apply orb_true_iff in H1 as [H1%bool_decide_eq_true|[H1%bool_decide_eq_true H1']%andb_true_iff]; apply orb_true_iff in H2 as [H2%bool_decide_eq_true|[H2%bool_decide_eq_true H2']%andb_true_iff]; try lia. subst y. f_equal. apply IH; [lia|done..].
Qed.
(** The bound that one of the lists reaches is the extremum. *)
Lemma fold_extremum (le : list Z -> list Z -> bool) (B : list Z) l : forall x, (forall y, y ∈ x :: l -> le B y = true /\ (le y B = true -> y = B)) -> B ∈ x :: l ->
  foldl (fun a b => if le a b then a else b) x l = B.
Proof.
  induction l as [|y l IH]; intros x Hle Hin; [by apply list_elem_of_singleton in Hin|]. cbn [foldl]. destruct (le x y) eqn:E.
  - apply IH; [intros z Hz; apply Hle; apply elem_of_cons in Hz as [->|Hz]; [left|by right; right]|]. apply elem_of_cons in Hin as [->|Hin]; [left|]. apply elem_of_cons in Hin as [->|Hin]; [|by right].
    rewrite (proj2 (Hle x ltac:(left)) E). left.
  - apply IH; [intros z Hz; apply Hle; by right|]. apply elem_of_cons in Hin as [->|Hin]; [|done]. destruct (Hle y ltac:(right; left)) as [Hy _]. congruence.
Qed.
(** The ranges of the partitions are parts of a range, and reach its two corners. *)
Definition covers_range (B T : list Z) (corners : list (list Z * list Z * list bool)) : Prop :=
  length B = length T /\ Forall (fun c => Forall2 Z.le B c.1.1 /\ Forall2 Z.le c.1.2 T) corners /\ B ∈ map (fun c => c.1.1) corners /\ T ∈ map (fun c => c.1.2) corners.
#[export] Instance covers_range_dec B T corners : Decision (covers_range B T corners).
Proof. apply _. Defined.
(** The corners of a distributed range that [part_pr_to_dist_pr] takes by the lexicographic order of the corners of
    the partitions are the corners of the range that the partitions cover, in the directions in which it decreases. *)
Theorem dist_range_spec (B T : list Z) (corners : list (list Z * list Z * list bool)) (Hc : covers_range B T corners) :
  dist_range (length B) corners = Ret (swap_where (any_permuted (length B) (map snd corners)) (zip B T)).
Proof.
  destruct Hc as (Hlen & Hall & HB & HT). rewrite Forall_forall in Hall. unfold dist_range.
  assert (Hb : forall y, y ∈ map (fun c => c.1.1) corners -> lex_leb B y = true /\ (lex_leb y B = true -> y = B)).
  { intros y (c & -> & Hin)%list_elem_of_fmap. destruct (Hall c Hin) as [Hf _]. pose proof (lex_le_all _ _ Hf) as Hl. split; [done|]. intros Hy. apply lex_antisym; [by rewrite (Forall2_length _ _ _ Hf)|done..]. }
  assert (Ht : forall y, y ∈ map (fun c => c.1.2) corners -> lex_leb y T = true /\ (lex_leb T y = true -> y = T)).
  { intros y (c & -> & Hin)%list_elem_of_fmap. destruct (Hall c Hin) as [_ Hf]. pose proof (lex_le_all _ _ Hf) as Hl. split; [done|]. intros Hy. apply lex_antisym; [by rewrite (Forall2_length _ _ _ Hf)|done..]. }
  unfold lex_min, lex_max. destruct (map (fun c => c.1.1) corners) as [|x l]; [by apply elem_of_nil in HB|]. destruct (map (fun c => c.1.2) corners) as [|x' l']; [by apply elem_of_nil in HT|]. cbn [mbind py_bind].
  rewrite (fold_extremum lex_leb B l x Hb HB), (fold_extremum (fun a b => lex_leb b a) T l' x' Ht HT). by rewrite bool_decide_eq_true_2.
Qed.
Lemma dist_range_spec_witness :
  covers_range [1; 1; 3] [5; 4; 3] [([1; 1; 3], [5; 2; 3], [false; true; false]); ([1; 2; 3], [5; 4; 3], [false; true; false])] /\
  dist_range 3 [([1; 1; 3], [5; 2; 3], [false; true; false]); ([1; 2; 3], [5; 4; 3], [false; true; false])] = Ret [(1, 5); (4, 1); (3, 3)].
Proof.
  split; [apply (bool_decide_unpack _); vm_compute; exact I|].
  apply (dist_range_spec [1; 1; 3] [5; 4; 3] [([1; 1; 3], [5; 2; 3], [false; true; false]); ([1; 2; 3], [5; 4; 3], [false; true; false])]). apply (bool_decide_unpack _). vm_compute. exact I.
Defined.

(** The point list of a zone of two dimensions is taken for three coordinates as soon as it does not have exactly one
    point: the conversion raises an error. *)
Theorem planar_lists_rejected (i j : list Z) (loc : string) (ln_to_gn : list Z) (pvtx_size dvtx_size : zsize) :
  loc ∈ ["Vertex"; "CellCenter"; "IFaceCenter"; "JFaceCenter"; "KFaceCenter"] -> length i = length j -> length i <> 1%nat ->
  _part_triplet_to_dist_triplet [i; j] loc ln_to_gn pvtx_size dvtx_size = Raise TypeError.
Proof.
  intros Hloc Hl Hn. unfold _part_triplet_to_dist_triplet. cbn [map]. rewrite !zsum_cons, zsum_nil. rewrite (bool_decide_eq_true_2 (loc ∈ _)) by done. rewrite (bool_decide_eq_false_2 (zlen i + (zlen j + 0) = 2)) by (unfold zlen; lia). done.
Qed.
End TransferSpec.
