(* ===== verification/FacesSpec.v ===== *)
(** * Faces gathered from the partitions: theorems on IndexExchange

    A face at the boundary between two partitions is received twice: its vertices are kept once and its two cells are
    put together, when the partitions have the parent elements; without them its vertices are kept twice. *)
From S2P Require Import Prelude PyUtils Numbering NpUtils Values Conventions Fnmatch Tree Parsers Walkers Search Distribution Protocols MergeIds Sids Refs Presets MaiaNodes Joins FullToDist FullToDistSpec BlockToBlock Redistribute RedistributeSpec PostSplit Transfer IndexExchange TransferSpec.

Local Open Scope Z_scope.

Module FacesSpec.
Import NpUtils Distribution BlockToBlock RedistributeSpec Transfer IndexExchange TransferSpec.

(** What the partitions give for a face: its vertices and its cells, once or twice. *)
Inductive face : Type := One (v : list Z) (a b : Z) | Two (v v' : list Z) (a b a' b' : Z).
Definition ec_of (f : face) : list (list Z) := match f with One v _ _ => [v] | Two v v' _ _ _ _ => [v; v'] end.
Definition pe_of (f : face) : list (list Z) := match f with One _ a b => [[a; b]] | Two _ _ a b a' b' => [[a; b]; [a'; b']] end.
Definition kept (f : face) : list Z := match f with One v _ _ | Two v _ _ _ _ _ => v end.
(** Each partition has one of the two cells of a shared face, and they are not both on the right. *)
Definition good_face (f : face) : Prop :=
  match f with
  | One _ _ _ => True
  | Two v v' a b a' b' => length v = length v' /\ (a = 0 /\ b <> 0 \/ a <> 0 /\ b = 0) /\ (a' = 0 /\ b' <> 0 \/ a' <> 0 /\ b' = 0) /\ ~ (a = 0 /\ a' = 0)
  end.
Definition cells (f : face) : Z * Z :=
  match f with One _ a b => (a, b) | Two _ _ a b a' b' => if decide (a = 0) then (a', b) else (a, a' + b') end.

Definition size (f : face) : Z := zlen (concat (ec_of f)).
Definition stride (f : face) : Z := zlen (concat (pe_of f)).
Definition shared (f : face) : bool := match f with One _ _ _ => false | Two _ _ _ _ _ _ => true end.
Lemma stride_shared f : bool_decide (stride f <> 2) = shared f.
Proof. by destruct f. Qed.
Lemma size_kept f : good_face f -> (if shared f then size f / 2 else size f) = zlen (kept f).
Proof. destruct f as [v a b|v v' a b a' b']; [by unfold size; cbn; rewrite app_nil_r|]. intros (Hl & _). unfold size, zlen. cbn. rewrite app_nil_r, length_app, <- Hl. replace (Z.of_nat (length v + length v)) with (Z.of_nat (length v) * 2) by lia. rewrite Z.div_mul; lia. Qed.
Lemma merge_exact f : good_face f -> merge_pe (concat (pe_of f)) = Ret (cells f).
Proof.
  destruct f as [v a b|v v' a b a' b']; [done|]. intros (_ & Hab & Hab' & Hn). cbn. destruct (decide (a = 0)) as [->|Ha]; [by rewrite bool_decide_eq_true_2|]. rewrite bool_decide_eq_false_2 by done.
  destruct Hab' as [[-> Hb]|[Ha' ->]]; [by rewrite bool_decide_eq_true_2|]. rewrite bool_decide_eq_false_2 by lia. do 2 f_equal. lia.
Qed.

(** ** The positions that are removed *)

(** From the position [acc], the second halves of the shared faces. *)
Fixpoint starts (acc : Z) (fs : list face) : list Z := match fs with [] => [] | f :: fs' => (if shared f then [acc + size f / 2] else []) ++ starts (acc + size f) fs' end.
Fixpoint stops (acc : Z) (fs : list face) : list Z := match fs with [] => [] | f :: fs' => (if shared f then [acc + size f] else []) ++ stops (acc + size f) fs' end.
Definition wrong (acc : Z) (fs : list face) : list Z := concat (zip_with arange (starts acc fs) (stops acc fs)).
Definition mask (f : face) : list bool := replicate (length (kept f)) true ++ replicate (Z.to_nat (size f) - length (kept f)) false.
Lemma size_nonneg f : 0 <= size f.
Proof. apply zlen_nonneg. Qed.
Lemma wrong_cons acc f fs : wrong acc (f :: fs) = (if shared f then arange (acc + size f / 2) (acc + size f) else []) ++ wrong (acc + size f) fs.
Proof. unfold wrong. cbn [starts stops]. by destruct (shared f). Qed.
Lemma wrong_after fs : forall acc k, k ∈ wrong acc fs -> acc <= k.
Proof.
  induction fs as [|f fs IH]; intros acc k Hk; [by apply elem_of_nil in Hk|]. rewrite wrong_cons in Hk. pose proof (size_nonneg f). apply elem_of_app in Hk as [Hk|Hk]; [|apply IH in Hk; lia]. destruct (shared f); [|by apply elem_of_nil in Hk]. apply elem_of_arange in Hk. assert (0 <= size f / 2) by (apply Z.div_pos; lia). lia.
Qed.
Lemma mask_one acc f : good_face f -> map (fun k => bool_decide (k ∉ (if shared f then arange (acc + size f / 2) (acc + size f) else []))) (arange acc (acc + size f)) = mask f.
Proof.
  intros Hg. pose proof (size_kept f Hg) as Hk. unfold mask. destruct (shared f) eqn:Es.
  - assert (Hh : 0 <= size f / 2 <= size f) by (pose proof (size_nonneg f); split; [apply Z.div_pos; lia|apply Z.div_le_upper_bound; lia]). rewrite (arange_app acc (acc + size f / 2) (acc + size f)) by lia. rewrite map_app. f_equal.
    + replace (length (kept f)) with (Z.to_nat (acc + size f / 2 - acc)) by (unfold zlen in Hk; lia). rewrite replicate_tab. apply map_tab_ext. intros k Hr. apply bool_decide_eq_true_2. rewrite elem_of_arange. lia.
    + replace (Z.to_nat (size f) - length (kept f))%nat with (Z.to_nat (acc + size f - (acc + size f / 2))) by (unfold zlen in Hk; lia). rewrite replicate_tab. apply map_tab_ext. intros k Hr. apply bool_decide_eq_false_2. intros Hn. apply Hn, elem_of_arange. lia.
  - replace (Z.to_nat (size f) - length (kept f))%nat with 0%nat by (unfold zlen in Hk; lia). cbn [replicate]. rewrite app_nil_r. replace (length (kept f)) with (Z.to_nat (acc + size f - acc)) by (unfold zlen in Hk; lia). rewrite replicate_tab. apply map_tab_ext. intros k Hr. apply bool_decide_eq_true_2, not_elem_of_nil.
Qed.
Lemma mask_exact fs : Forall good_face fs -> forall acc, map (fun k => bool_decide (k ∉ wrong acc fs)) (arange acc (acc + zsum (map size fs))) = concat (map mask fs).
Proof.
  induction 1 as [|f fs Hg Hf IH]; intros acc; [by rewrite (arange_nil acc _) by (cbn; lia)|]. cbn [map concat]. rewrite zsum_cons. pose proof (size_nonneg f). assert (Hs : 0 <= zsum (map size fs)) by (apply zsum_nonneg, Forall_fmap, Forall_forall; intros; apply size_nonneg).
  rewrite (arange_app acc (acc + size f) (acc + (size f + zsum (map size fs)))), map_app by lia. f_equal.
  - rewrite <- (mask_one acc f Hg). apply map_tab_ext. intros k Hk. apply bool_decide_ext. rewrite wrong_cons, not_elem_of_app. split; [by intros [? _]|]. intros Hn. split; [done|]. intros Hw%wrong_after. lia.
  - rewrite <- (IH (acc + size f)). replace (acc + (size f + zsum (map size fs))) with (acc + size f + zsum (map size fs)) by lia. apply map_tab_ext. intros k Hk. apply bool_decide_ext. rewrite wrong_cons, not_elem_of_app. split; [by intros [_ ?]|]. intros Hn. split; [|done]. destruct (shared f); [rewrite elem_of_arange; lia|apply not_elem_of_nil].
Qed.
(** The data that the mask keeps. *)
Lemma masked_app {A} (m1 m2 : list bool) (l1 l2 k1 k2 : list A) : PostSplit.masked m1 l1 = Ret k1 -> PostSplit.masked m2 l2 = Ret k2 -> PostSplit.masked (m1 ++ m2) (l1 ++ l2) = Ret (k1 ++ k2).
Proof.
  unfold PostSplit.masked. do 2 case_bool_decide; try done. intros [= <-] [= <-]. rewrite bool_decide_eq_true_2 by (rewrite !length_app; lia). rewrite zip_with_app by done. by rewrite omap_app.
Qed.
Lemma masked_face f : good_face f -> PostSplit.masked (mask f) (concat (ec_of f)) = Ret (kept f).
Proof.
  intros Hg. assert (Ht : forall v : list Z, PostSplit.masked (replicate (length v) true) v = Ret v) by (intros v; unfold PostSplit.masked; rewrite bool_decide_eq_true_2 by (by rewrite length_replicate); f_equal; induction v as [|x v IH]; [done|]; cbn; by rewrite IH).
  assert (Hf : forall v : list Z, PostSplit.masked (replicate (length v) false) v = Ret []) by (intros v; unfold PostSplit.masked; rewrite bool_decide_eq_true_2 by (by rewrite length_replicate); f_equal; induction v as [|x v IH]; [done|]; cbn; by rewrite IH).
  destruct f as [v a b|v v' a b a' b']; unfold mask, size; cbn [ec_of kept concat]; rewrite app_nil_r.
  - replace (Z.to_nat (zlen v) - length v)%nat with 0%nat by (unfold zlen; lia). cbn [replicate]. rewrite app_nil_r. apply Ht.
  - destruct Hg as (Hl & _). replace (Z.to_nat (zlen (v ++ v')) - length v)%nat with (length v') by (unfold zlen; rewrite length_app; lia). pose proof (masked_app _ _ v v' v [] (Ht v) (Hf v')) as Hm. by rewrite app_nil_r in Hm.
Qed.
Lemma masked_exact fs : Forall good_face fs -> PostSplit.masked (concat (map mask fs)) (concat (map (fun f => concat (ec_of f)) fs)) = Ret (concat (map kept fs)).
Proof. induction 1 as [|f fs Hg Hf IH]; [done|]. cbn [map concat]. apply masked_app; [by apply masked_face|done]. Qed.

(** ** The indices of the shared faces *)

Section indices.
Context (fs : list face) (Hgood : Forall good_face fs) (Hmax : zsum (map size fs) <= iinfo_max Prelude.I4).

Definition shared_from (k : nat) (l : list face) : list Z := map Z.of_nat (concat (imap (fun i f => if shared f then [(k + i)%nat] else []) l)).
Lemma shared_from_cons k f l : shared_from k (f :: l) = (if shared f then [Z.of_nat k] else []) ++ shared_from (S k) l.
Proof using Type.
  unfold shared_from. cbn [imap concat]. rewrite map_app. f_equal; [destruct (shared f); cbn; [by rewrite Nat.add_0_r|done]|]. do 2 f_equal. apply imap_ext. intros i x _. cbn. by rewrite Nat.add_succ_r.
Qed.
Lemma offsets_scan : sizes_to_indices Prelude.I4 (map size fs) = scan 0 (map size fs).
Proof using Hmax. apply sizes_to_indices_exact; [apply Forall_fmap, Forall_forall; intros; apply size_nonneg|done]. Qed.
Lemma size_at k : (k <= length fs)%nat -> py_get (scan 0 (map size fs)) (Z.of_nat k) = Ret (bound (map size fs) k).
Proof using Type. intros Hk. apply py_get_lookup. rewrite scan_lookup by (rewrite length_map; lia). done. Qed.
Lemma bound_next k f : fs !! k = Some f -> bound (map size fs) (S k) = bound (map size fs) k + size f.
Proof using Type. clear. intros Hk. unfold bound. rewrite (take_S_r _ _ (size f)) by (by apply map_lookup). by rewrite zsum_app, zsum_cons, zsum_nil, Z.add_0_r. Qed.
Lemma starts_exact : forall l k, drop k fs = l -> mapM (fun i => a ← py_get (scan 0 (map size fs)) i; n ← py_get (map size fs) i; Ret (a + n / 2)) (shared_from k l) = Ret (starts (bound (map size fs) k) l).
Proof using Type.
  clear. induction l as [|f l IH]; intros k Hd; [done|]. assert (Hk : fs !! k = Some f) by (rewrite <- (Nat.add_0_r k), <- lookup_drop, Hd; done). rewrite shared_from_cons. cbn [starts]. rewrite <- (bound_next k f Hk). apply py_mapM_app.
  - destruct (shared f); [|done]. cbn [mapM]. rewrite size_at by (apply lookup_lt_Some in Hk; lia). cbn [mbind py_bind]. rewrite (py_get_lookup _ k (size f)) by (by apply map_lookup). done.
  - apply IH. rewrite <- Nat.add_1_r, <- drop_drop, Hd. done.
Qed.
Lemma stops_exact : forall l k, drop k fs = l -> mapM (fun i => py_get (scan 0 (map size fs)) (i + 1)) (shared_from k l) = Ret (stops (bound (map size fs) k) l).
Proof using Type.
  clear. induction l as [|f l IH]; intros k Hd; [done|]. assert (Hk : fs !! k = Some f) by (rewrite <- (Nat.add_0_r k), <- lookup_drop, Hd; done). rewrite shared_from_cons. cbn [stops]. rewrite <- (bound_next k f Hk). apply py_mapM_app.
  - destruct (shared f); [|done]. cbn [mapM]. replace (Z.of_nat k + 1) with (Z.of_nat (S k)) by lia. rewrite size_at by (apply lookup_lt_Some in Hk; lia). done.
  - apply IH. rewrite <- Nat.add_1_r, <- drop_drop, Hd. done.
Qed.
Lemma starts_stops : forall l acc, Forall2 Z.le (starts acc l) (stops acc l).
Proof using Type. clear. induction l as [|f l IH]; intros acc; [constructor|]. cbn [starts stops]. apply Forall2_app; [|apply IH]. destruct (shared f); [|constructor]. constructor; [|constructor]. pose proof (size_nonneg f). assert (size f / 2 <= size f) by (apply Z.div_le_upper_bound; lia). lia. Qed.
Lemma wrong_range : forall l acc k, k ∈ wrong acc l -> k < acc + zsum (map size l).
Proof using Type.
  clear. induction l as [|f l IH]; intros acc k Hk; [by apply elem_of_nil in Hk|]. rewrite wrong_cons in Hk. cbn [map]. rewrite zsum_cons. apply elem_of_app in Hk as [Hk|Hk]; [|apply IH in Hk; lia]. assert (Hs : 0 <= zsum (map size l)) by (apply zsum_nonneg, Forall_fmap, Forall_forall; intros; apply size_nonneg). destruct (shared f); [apply elem_of_arange in Hk; lia|by apply elem_of_nil in Hk].
Qed.
Lemma filter_exact : filter_ec (map size fs) (concat (map (fun f => concat (ec_of f)) fs)) (map stride fs) = Ret (map (fun f => zlen (kept f)) fs, concat (map kept fs)).
Proof using All.
  unfold filter_ec. rewrite offsets_scan.
  assert (Hi : map Z.of_nat (concat (imap (fun i n => if bool_decide (n <> 2) then [i] else []) (map stride fs))) = shared_from 0 fs).
  { unfold shared_from. do 2 f_equal. change (map stride fs) with (stride <$> fs). rewrite imap_fmap. apply imap_ext. intros i f _. cbn. by rewrite stride_shared. }
  rewrite Hi, (starts_exact fs 0 eq_refl). cbn [mbind py_bind]. rewrite (stops_exact fs 0 eq_refl). cbn [mbind py_bind]. assert (Hn : py_get (scan 0 (map size fs)) (zlen (map stride fs)) = Ret (zsum (map size fs))).
  { unfold zlen. rewrite length_map, size_at by lia. f_equal. apply bound_end. by rewrite length_map. }
  rewrite Hn. cbn [mbind py_bind]. change (bound (map size fs) 0) with 0. rewrite multi_arange_ok by apply starts_stops. cbn [mbind py_bind]. fold (wrong 0 fs).
  assert (Hm : duplicated_mask (zsum (map size fs)) (wrong 0 fs) = Ret (concat (map mask fs))).
  { unfold duplicated_mask. rewrite <- (mask_exact fs Hgood 0). rewrite Z.add_0_l. replace (Z.to_nat (zsum (map size fs))) with (Z.to_nat (zsum (map size fs) - 0)) by lia. rewrite replicate_tab. pose proof (MergeIds.set_false_tab (fun _ => true) 0 (zsum (map size fs)) (wrong 0 fs)) as Ht. rewrite (map_ext _ id), map_id in Ht by (intros; unfold id; lia). rewrite Ht; [done|]. intros x Hx. pose proof (wrong_after fs 0 x Hx). pose proof (wrong_range fs 0 x Hx). lia. }
  rewrite Hm. cbn [mbind py_bind]. rewrite masked_exact by done. cbn [mbind py_bind]. do 2 f_equal.
  assert (Hz : zip (map size fs) (map stride fs) = map (fun f => (size f, stride f)) fs) by (clear; induction fs as [|f l IH]; [done|]; cbn; by rewrite IH). rewrite Hz, map_map. apply map_ext_in. intros f Hf%list_elem_of_In. rewrite stride_shared. apply size_kept. rewrite Forall_forall in Hgood. by apply Hgood.
Qed.
End indices.

(** C32: The faces that a rank receives with their parent elements: the vertices of a face that two partitions share are
    kept once, those of the first partition, and its cells are the cells of the two partitions, on the sides on which
    they are. *)
Theorem dist_faces_spec (fs : list face) (Hgood : Forall good_face fs) (Hmax : zsum (map size fs) <= iinfo_max Prelude.I4) :
  dist_faces (map ec_of fs) (Some (map pe_of fs)) = Ret (map (fun f => zlen (kept f)) fs, concat (map kept fs), Some (map cells fs)) /\
  Forall (fun f => match f with One _ a b => cells f = (a, b) | Two _ _ a b a' b' => [(cells f).1; (cells f).2] ≡ₚ [a + b; a' + b'] /\ (cells f).1 <> 0 /\ (cells f).2 <> 0 end) fs.
Proof.
  split.
  - unfold dist_faces. assert (Hp : mapM (fun g => merge_pe (concat g)) (map pe_of fs) = Ret (map cells fs)) by (apply py_mapM_Ret, Forall2_fmap_2, Forall_Forall2_diag; eapply Forall_impl; [exact Hgood|]; intros f Hf; by apply merge_exact). rewrite Hp. cbn [mbind py_bind]. unfold received. cbn [fst snd]. rewrite !map_map. by rewrite filter_exact.
  - eapply Forall_impl; [exact Hgood|]. intros [v a b|v v' a b a' b']; [done|]. intros (_ & Hab & Hab' & Hn). cbn [cells]. destruct (decide (a = 0)) as [->|Ha]; cbn [fst snd].
    + assert (b <> 0) by lia. assert (b' = 0) as -> by lia. rewrite Z.add_0_l, Z.add_0_r. split; [apply Permutation_swap|]. lia.
    + assert (b = 0) as -> by lia. rewrite Z.add_0_r. split; [done|]. lia.
Qed.
Lemma dist_faces_spec_witness : dist_faces [[[1; 2; 3]]; [[4; 5; 6; 7]; [7; 6; 5; 4]]] (Some [[[1; 2]]; [[0; 8]; [9; 0]]]) = Ret ([3; 4], [1; 2; 3; 4; 5; 6; 7], Some [(1, 2); (9, 8)]).
Proof.
  apply (dist_faces_spec [One [1; 2; 3] 1 2; Two [4; 5; 6; 7] [7; 6; 5; 4] 0 8 9 0]); [|by vm_compute]. constructor; [done|]. constructor; [|constructor]. cbn. lia.
Defined.

(** Without parent elements the vertices of the faces that several partitions share are kept as many times, and the
    sizes of these faces are multiplied. *)
Theorem shared_faces_doubled (v v' : list Z) (Hl : length v = length v') : dist_faces [[v; v']] None = Ret ([2 * zlen v], v ++ v', None).
Proof. unfold dist_faces, received. cbn. rewrite !app_nil_r. unfold zlen. rewrite length_app, <- Hl. do 4 f_equal. lia. Qed.
Lemma shared_faces_doubled_witness : dist_faces [[[1; 2; 3]; [3; 2; 1]]] None = Ret ([6], [1; 2; 3; 3; 2; 1], None).
Proof. exact (shared_faces_doubled [1; 2; 3] [3; 2; 1] eq_refl). Defined.
End FacesSpec.
