(* ===== verification/DistToPart.v ===== *)
(** * From distributed to partitioned zones: [maia/transfer/dist_to_part/data_exchange.py] and [tree_api.py]

    The coordinates and the fields of a distributed zone are sent to its partitions by global numbers.  [dist_zones] are
    the zones of the distributed trees of the ranks, [part_zones] the partitions of the zone that each rank has: the
    result is the partitions with their new nodes. *)
From S2P Require Import Prelude PyUtils NpUtils Values Conventions Fnmatch Tree Parsers Walkers Search Distribution Protocols Sids Refs Presets MaiaNodes Joins BlockToBlock PostSplit Transfer IndexExchange.

Local Open Scope Z_scope.

Module DistToPart.
Import NpUtils Values Conventions Tree Walkers Search Distribution Protocols Sids Refs Presets MaiaNodes Joins BlockToBlock Transfer IndexExchange.

(** An edit of each partition of each rank, with what it receives. *)
Definition on_parts {A} (f : A -> st ()) (received : parts A) (part_zones : parts node) : py (parts node) :=
  mapM (fun p : list A * list node => mapM (fun q : A * node => applied (f q.1) q.2) (zip p.1 p.2)) (zip received part_zones).
(** The arrays that each partition receives, by name. *)
Definition per_part (part_zones : parts node) (fields : dict (parts nparray)) : py (parts (dict nparray)) :=
  mapM (fun r => mapM (fun i => mapM (fun f : string * parts nparray => a ← of_option IndexError (row ← f.2 !! r; row !! i); Ret (f.1, a)) fields) (seq 0 (length (default [] (part_zones !! r)))))
    (seq 0 (length part_zones)).

Section dist_to_part.
Context `{ArrayEqual} `{parts_exchange} `{sub_numbering} (to_float32 : Z -> Z) (astype : cgns_type -> cgns_type -> Z -> Z) (d : dtype) (argsort : list Z -> list nat).

(** ** Arrays in nodes *)

(** [data.reshape(size, order='F')] *)
Definition shape_of_size (s : zsize) : list Z := match s with Total n => [n] | PerIndex l => l end.
Definition reshape (s : zsize) (a : nparray) : py nparray :=
  if bool_decide (zlen (a_data a) = np_prod s) then Ret (NpArray (a_type a) (shape_of_size s) true (a_data a)) else Raise ValueError.
Definition put_array (f : string * nparray) : st () := under (new_DataArray to_float32 astype f.1 (PArray f.2) None).
Definition put_fields (s : zsize) (fields : dict nparray) : st () := for_each (fun f => a ← st_lift (reshape s f.2); put_array (f.1, a)) fields.

(** The arrays of the ranks for each name, exchanged one after the other. *)
Definition exchange_fields (fields : dict (list nparray)) (distris : list (list Z)) (lngn : parts (list Z)) : py (dict (parts nparray)) :=
  mapM (fun f => part_data ← block_to_part d f.2 distris lngn; Ret (f.1, part_data)) fields.
(** The arrays of some names under a node of each rank. *)
Definition array_named (name : string) (n : node) : py nparray := c ← get_child_from_name n name no_kw; v ← raw_of c; of_option TypeError v.
(** The arrays of the ranks, which have the same names. *)
Definition by_name (dicts : list (dict nparray)) : py (dict (list nparray)) :=
  names ← common (map (map fst) dicts);
  mapM (fun name => arrays ← mapM (dict_get name) dicts; Ret (name, arrays)) names.
Definition fields_of (names : list string) (nodes : list node) : py (dict (list nparray)) :=
  l ← mapM (fun name => arrays ← mapM (array_named name) nodes; Ret (name, arrays)) names; Ret (dict_of l).

(** ** Coordinates *)

(** The arrays of the node of coordinates, by name. *)
Definition coords_of (dist_zone : node) : py (dict nparray) :=
  gc ← get_child_from_label dist_zone (StrLabel "GridCoordinates_t") no_kw;
  gc ← of_option AttributeError gc;
  l ← iter_children_from_label gc (StrLabel "DataArray_t") no_kw;
  arrays ← mapM (fun c => a ← of_option TypeError (get_raw c); Ret (get_name c, a)) l;
  Ret (dict_of arrays).
Definition put_coords (fields : dict nparray) : st () :=
  s ← reading Zone_VertexSize;
  under (then_fill (new_node to_float32 "GridCoordinates" "GridCoordinates_t" PNone []) (put_fields s fields)).
Definition dist_coords_to_part_coords (dist_zones : list node) (part_zones : parts node) : py (parts node) :=
  distribution_vtx ← mapM (fun z => get_cgns_distribution z "Vertex") dist_zones;
  coords ← mapM coords_of dist_zones;
  dist_data ← by_name coords;
  vtx_lntogn_list ← mapM (fun zones => collect_cgns_g_numbering d zones "Vertex" "") part_zones;
  part_data ← exchange_fields dist_data distribution_vtx vtx_lntogn_list;
  received ← per_part part_zones part_data;
  on_parts put_coords received part_zones.

(** *** Several domains in one exchange *)

(** A domain: its distributed zones and its partitions, on each rank. *)
Abbreviation domain := (list node * parts node)%type.
Context `{multi_exchange}.
(** The arrays of all the domains on a rank, a list for each name. *)
Fixpoint append_at {A} (k : string) (v : A) (m : dict (list A)) : dict (list A) :=
  match m with [] => [(k, [v])] | (k', l) :: m' => if bool_decide (k' = k) then (k', l ++ [v]) :: m' else (k', l) :: append_at k v m' end.
Definition coords_list (zones : list node) : py (dict (list nparray)) :=
  l ← mapM (fun dist_zone =>
      gc ← get_child_from_label dist_zone (StrLabel "GridCoordinates_t") no_kw;
      gc ← of_option AttributeError gc;
      l ← iter_children_from_label gc (StrLabel "DataArray_t") no_kw;
      mapM (fun c => a ← of_option TypeError (get_raw c); Ret (get_name c, a)) l) zones;
  Ret (foldl (fun m p => append_at p.1 p.2 m) [] (concat l)).
(** The numbers of the partitions of a rank, shifted by the sizes of the domains before. *)
Definition vtx_numbers (part_zone : node) : py (list Z) := g ← getGlobalNumbering part_zone (Some "Vertex"); v ← raw_of g; a_data <$> array_of v.
Fixpoint shifted_numbers (offset : Z) (doms : list (node * list node)) : py (list (list Z)) :=
  match doms with
  | [] => Ret []
  | (dist_zone, part_zones) :: doms' =>
      lngn ← mapM vtx_numbers part_zones;
      n ← Zone_n_vtx dist_zone;
      rest ← shifted_numbers (offset + n) doms';
      Ret (map (map (fun g => wrap d (g + offset))) lngn ++ rest)
  end.
(** What a rank has of each domain. *)
Definition rank_of {A} (r : nat) (l : list (list A)) : py (list A) := mapM (fun x => of_option IndexError (x !! r)) l.
Definition vtx_full (zones : list node) : py (list Z) :=
  distris ← mapM (fun z => c ← getDistribution z (Some "Vertex"); v ← raw_of c; a_data <$> array_of v) zones;
  Ret (partial_to_full_distribution d (map partial_of_array distris)).
(** One name: the list of each rank has an array for each domain. *)
Definition exchange_domains (n_dom : nat) (distris : list (list Z)) (lngn : parts (list Z)) (arrays : list (list nparray)) : py (parts nparray) :=
  if forallb (fun l => bool_decide (length l = n_dom)) arrays then
    t ← common (map a_type (concat arrays));
    data ← mapM (fun k => mapM (fun l => a ← of_option IndexError (l !! k); Ret (a_data a)) arrays) (seq 0 n_dom);
    Ret (map (map (vec t)) (mbtp distris data lngn))
  else Raise IndexError.
Definition dist_coords_to_part_coords_m (domains : list domain) (size : nat) : py (list (parts node)) :=
  ranks ← mapM (fun r => rank_of r (map fst domains)) (seq 0 size);
  rank_parts ← mapM (fun r => rank_of r (map snd domains)) (seq 0 size);
  dist_data ← mapM coords_list ranks;
  block_distris ← mapM vtx_full (map fst domains);
  part_lngn ← mapM (fun p : list node * list (list node) => shifted_numbers 0 (zip p.1 p.2)) (zip ranks rank_parts);
  names ← common (map (map fst) dist_data);
  part_data ← mapM (fun name => arrays ← mapM (dict_get name) dist_data; l ← exchange_domains (length domains) block_distris part_lngn arrays; Ret (name, l)) names;
  received ← per_part (map (@concat node) rank_parts) part_data;
  done ← on_parts put_coords received (map (@concat node) rank_parts);
  Ret (map (fun k => zip_with (fun zones doms => part (zsum (take k (map zlen doms))) (zsum (take (S k) (map zlen doms))) zones) done rank_parts) (seq 0 (length domains))).

(** ** Solutions *)

(** A container of the distributed zone: its name, label, location, and whether it has a point list. *)
Record container := Container { k_name : string; k_label : string; k_loc : string; k_pl : bool }.
#[export] Instance container_eq_dec : EqDecision container.
Proof using Type. clear. solve_decision. Defined.
Definition text_loc (v : read_value) : string := match v with Text (Str s) => s | _ => "" end.
Definition container_of (dist_zone : node) (name : string) : py (container * node) :=
  d_sol ← get_child_from_name dist_zone name no_kw;
  d_sol ← of_option AttributeError d_sol;
  location ← Subset_GridLocation d_sol;
  pl ← get_child_from_name d_sol "PointList" no_kw;
  Ret (Container (get_name d_sol) (get_label d_sol) (text_loc location) (negb (is_none pl)), d_sol).
(** The distribution of the ranks and the numbers of the partitions. *)
Definition numbering_of (k : container) (dist_zones d_sols : list node) (part_zones : parts node) : py (list (list Z) * parts (list Z)) :=
  if k_pl k then
    distribution ← mapM (fun n => get_cgns_distribution n "Index") d_sols;
    lntogn_list ← mapM (fun zones => collect_cgns_g_numbering d zones "Index" (k_name k)) part_zones;
    Ret (distribution, lntogn_list)
  else
    _ ← py_assert (bool_decide (k_loc k ∈ ["Vertex"; "CellCenter"]));
    let name := if bool_decide (k_loc k = "Vertex") then "Vertex" else "Cell" in
    distribution ← mapM (fun z => get_cgns_distribution z name) dist_zones;
    lntogn_list ← mapM (fun zones => collect_cgns_g_numbering d zones name "") part_zones;
    Ret (distribution, lntogn_list).
Definition put_sol (k : container) (fields : dict nparray) : st () :=
  if k_pl k then
    on_first (fun c => match_name c (k_name k))
      (s ← reading (fun n => v ← raw_child n "PointList"; a ← of_option AttributeError v; of_option IndexError (a_shape a !! 1%nat)); put_fields (Total s) fields)
  else
    s ← reading (if bool_decide (k_loc k = "Vertex") then Zone_VertexSize else Zone_CellSize);
    under (then_fill (new_node to_float32 (k_name k) (k_label k) PNone [])
      (_ ← under (new_GridLocation to_float32 (k_loc k)); put_fields s fields)).
(** Partitions without elements are skipped. *)
Definition sol_to_parts (dist_zones : list node) (name : string) (fields : list string) (part_zones : parts node) : py (parts node) :=
  ks ← mapM (fun z => container_of z name) dist_zones;
  k ← common (map fst ks);
  num ← numbering_of k dist_zones (map snd ks) part_zones;
  dist_data ← fields_of fields (map snd ks);
  part_data ← exchange_fields dist_data num.1 num.2;
  received ← per_part part_zones part_data;
  on_parts (fun p => if bool_decide (0 < zlen p.1) then put_sol k p.2 else mret ()) (zip_with (zip_with pair) num.2 received) part_zones.
(** The containers of the masks and their fields: the same on all the ranks. *)
Definition pt_children (t : ptree) : list ptree := let '(PTree _ _ cs) := t in cs.
Definition mask_names (t : ptree) : list (string * list string) := map (fun sol => (pt_name sol, map pt_name (pt_children sol))) (pt_children t).
Definition _dist_to_part_sollike (dist_zones : list node) (part_zones : parts node) (masks : list ptree) : py (parts node) :=
  sols ← common (map mask_names masks);
  foldM (fun zones '(name, fields) => sol_to_parts dist_zones name fields zones) part_zones sols.
Definition masks_of (zones : list node) (labels incl excl : list string) : py (list ptree) := mapM (fun z => create_mask_tree z labels incl excl) zones.
Definition dist_sol_to_part_sol (dist_zones : list node) (part_zones : parts node) (incl excl : list string) : py (parts node) :=
  masks ← masks_of dist_zones ["FlowSolution_t"; "DataArray_t"] incl excl; _dist_to_part_sollike dist_zones part_zones masks.
Definition dist_discdata_to_part_discdata (dist_zones : list node) (part_zones : parts node) (incl excl : list string) : py (parts node) :=
  masks ← masks_of dist_zones ["DiscreteData_t"; "DataArray_t"] incl excl; _dist_to_part_sollike dist_zones part_zones masks.

(** ** Data sets of boundary conditions *)

(** [for node in PT.get_children(mask)] on ranks that have the same masks. *)
Definition common_children (masks : list ptree) : py (list (string * list ptree)) :=
  names ← common (map (fun t => map pt_name (pt_children t)) masks);
  mapM (fun '(k, name) => l ← mapM (fun t => of_option IndexError (pt_children t !! k)) masks; Ret (name, l)) (imap pair names).
Definition join_path (a b : string) : string := a +:+ "/" +:+ b.
(** [PT.predicates_to_paths(mask_dataset, ['*', '*'])] *)
Definition mask_paths (t : ptree) : list string := concat (map (fun c => map (fun f => join_path (pt_name c) (pt_name f)) (pt_children c)) (pt_children t)).
Definition at_paths (path : string) (zones : list node) : py (list node) := mapM (fun z => of_option TypeError (get_node_from_path z path)) zones.
(** The arrays at some paths under a node of each rank. *)
Definition fields_at (paths : list string) (nodes : list node) : py (dict (list nparray)) :=
  l ← mapM (fun path => arrays ← mapM (fun n => v ← raw_of (get_node_from_path n path); of_option TypeError v) nodes; Ret (path, arrays)) paths; Ret (dict_of l).
Definition index_path (path : string) : string := path +:+ "/:CGNS#GlobalNumbering/Index".
(** The ranges of a structured zone are numbered when they are not. *)
Definition index_gnum (dist_zones : list node) (part_zones : parts node) (bc_path : string) : py (parts node) :=
  if exists_anywhere part_zones (index_path bc_path) then Ret part_zones else
  ts ← mapM Zone_Type dist_zones;
  _ ← py_assert (forallb (fun t => is_text t "Structured") ts);
  create_part_pr_gnum to_float32 d dist_zones part_zones bc_path.
Definition split_path (path : string) : py (string * string) := match py_split slash path with [a; b] => Ret (a, b) | _ => Raise ValueError end.
Definition put_dataset (name label : string) (v : pyval) (fields : dict nparray) : st () :=
  _ ← update to_float32 name label (Some v);
  on_first (fun c => match_name c name) (for_each (fun f =>
    cf ← st_lift (split_path f.1);
    _ ← update to_float32 cf.1 "BCData_t" None;
    on_first (fun c => match_name c cf.1) (put_array (cf.2, f.2))) fields).
(** The name, the label and the value of a node that all the ranks have. *)
Definition header_of (n : node) : py (string * string * pyval) := v ← get_value n false; a ← arg_of v; Ret (get_name n, get_label n, a).
Definition dataset_to_parts (dist_zones : list node) (bc_path : string) (ds : string * list ptree) (part_zones : parts node) : py (parts node) :=
  let ds_path := join_path bc_path ds.1 in
  d_bcs ← at_paths bc_path dist_zones; d_datasets ← at_paths ds_path dist_zones;
  own ← mapM (fun n => getDistribution n None) d_datasets;
  own ← common (map (fun o => negb (is_none o)) own);
  distribution ← mapM (fun n => get_cgns_distribution n "Index") (if (own : bool) then d_datasets else d_bcs);
  part_zones ← (if (own : bool) then Ret part_zones else index_gnum dist_zones part_zones bc_path);
  lngn_list ← mapM (fun zones => collect_cgns_g_numbering d zones "Index" (if (own : bool) then ds_path else bc_path)) part_zones;
  paths ← common (map mask_paths ds.2);
  dist_data ← fields_at paths d_datasets;
  part_data ← exchange_fields dist_data distribution lngn_list;
  received ← per_part part_zones part_data;
  hds ← mapM header_of d_datasets;
  mapM (fun '(hd, (lngns, (recv, zones))) => mapM (fun '(lngn, (fields, zone)) =>
      if bool_decide (0 < zlen lngn) then applied (at_path bc_path (put_dataset hd.1.1 hd.1.2 hd.2 fields)) zone else Ret zone)
      (zip lngns (zip recv zones))) (zip hds (zip lngn_list (zip received part_zones))).
Definition dataset_labels : list string := ["BC_t"; "BCDataSet_t"; "BCData_t"; "DataArray_t"].
Definition zone_bcs (dist_zones : list node) : py (list (list node)) :=
  l ← mapM (fun z => iter_children_from_label z (StrLabel "ZoneBC_t") no_kw) dist_zones;
  n ← common (map length l);
  mapM (fun k => mapM (fun zbcs => of_option IndexError (zbcs !! k)) l) (seq 0 n).
Definition dist_dataset_to_part_dataset (dist_zones : list node) (part_zones : parts node) (incl excl : list string) : py (parts node) :=
  zbcs ← zone_bcs dist_zones;
  foldM (fun part_zones d_zbcs =>
    masks ← masks_of d_zbcs dataset_labels incl excl;
    zbc ← common (map get_name d_zbcs);
    bcs ← common_children masks;
    foldM (fun part_zones '(bc, mask_bcs) =>
      datasets ← common_children mask_bcs;
      foldM (fun part_zones ds => dataset_to_parts dist_zones (join_path zbc bc) ds part_zones) part_zones datasets) part_zones bcs) part_zones zbcs.

(** ** Sub-regions *)

Definition gc_region (n : node) : bool := bool_decide (get_label n ∈ ["GridConnectivity_t"; "GridConnectivity1to1_t"]).
(** The split joins of a partition that come from a join. *)
Definition split_joins (path : string) (part_zone : node) : py (list node) :=
  r ← iter_children_from_predicates part_zone (QsList [EQuery (QStr (path_head path (-1))); EQuery (QStr (path_tail path (-1) +:+ "*"))]) no_kw;
  Ret (PostSplit.nodes_of r).
Definition join_numbers (path : string) (part_zone : node) : py (list (list Z)) :=
  gcs ← split_joins path part_zone; mapM (fun n => g ← getGlobalNumbering n (Some "Index"); a_data <$> array_value g) gcs.
(** The sub-region of a partition that is related to a split join. *)
Definition good_zsr (gc_name : string) (n : node) : bool :=
  bool_decide (get_label n = "ZoneSubRegion_t") &&
  match get_child_from_name n "GridConnectivityRegionName" no_kw with
  | Ret (Some c) => match get_value c false with Ret v => is_text v gc_name | Raise _ => false end
  | _ => false
  end.
Definition put_on_zsr (gc_name : string) (fields : dict nparray) : st () := fun part_zone =>
  match PostSplit.on_found (good_zsr gc_name) (for_each put_array fields) part_zone with Some out => out | None => (part_zone, Raise TypeError) end.
Definition put_joins (path : string) (received : list (dict nparray)) : st () := fun part_zone =>
  match split_joins path part_zone with
  | Raise e => (part_zone, Raise e)
  | Ret gcs => for_each (fun p => put_on_zsr p.1 p.2) (zip (map get_name gcs) received) part_zone
  end.
(** The arrays received for the joins of each partition. *)
Fixpoint split_parts {A} (sizes : list nat) (l : list A) : list (list A) := match sizes with [] => [] | n :: sizes' => take n l :: split_parts sizes' (drop n l) end.
Definition pseudo_parts (n : nat) (part_data : dict (parts nparray)) (r : nat) : py (list (dict nparray)) :=
  mapM (fun i => mapM (fun f : string * parts nparray => a ← of_option IndexError (row ← f.2 !! r; row !! i); Ret (f.1, a)) part_data) (seq 0 n).
Definition put_region (name label : string) (v : pyval) (fields : dict nparray) : st () :=
  _ ← update to_float32 name label (Some v); on_first (fun c => match_name c name) (for_each put_array fields).
Definition subregion_to_parts (dist_zones : list node) (zsr : string * list ptree) (part_zones : parts node) : py (parts node) :=
  d_zsrs ← mapM (fun z => n ← get_child_from_name z zsr.1 no_kw; of_option AttributeError n) dist_zones;
  paths ← mapM (fun p : node * node => Subset_ZSRExtent p.1 p.2) (zip d_zsrs dist_zones); path ← common paths;
  regions ← mapM (fun z => of_option AssertionError (get_node_from_path z path)) dist_zones;
  distribution ← mapM (fun n => get_cgns_distribution n "Index") regions;
  fields ← common (map (fun t => map pt_name (pt_children t)) zsr.2);
  dist_data ← fields_of fields d_zsrs;
  is_gc ← common (map gc_region regions);
  if (is_gc : bool) then
    lngn ← mapM (mapM (join_numbers path)) part_zones;
    part_data ← exchange_fields dist_data distribution (map (@concat (list Z)) lngn);
    mapM (fun '(r, (lngns, zones)) =>
      received ← pseudo_parts (length (concat lngns)) part_data r;
      mapM (fun p : list (dict nparray) * node => applied (put_joins path p.1) p.2) (zip (split_parts (map length lngns) received) zones)) (imap pair (zip lngn part_zones))
  else
    lngn_list ← mapM (fun zones => collect_cgns_g_numbering d zones "Index" path) part_zones;
    part_data ← exchange_fields dist_data distribution lngn_list;
    received ← per_part part_zones part_data;
    hds ← mapM header_of d_zsrs;
    mapM (fun '(hd, (lngns, (recv, zones))) => mapM (fun '(lngn, (fields, zone)) =>
        if bool_decide (0 < zlen lngn) then applied (put_region hd.1.1 hd.1.2 hd.2 fields) zone else Ret zone)
        (zip lngns (zip recv zones))) (zip hds (zip lngn_list (zip received part_zones))).
Definition dist_subregion_to_part_subregion (dist_zones : list node) (part_zones : parts node) (incl excl : list string) : py (parts node) :=
  masks ← masks_of dist_zones ["ZoneSubRegion_t"; "DataArray_t"] incl excl;
  zsrs ← common_children masks;
  foldM (fun part_zones zsr => subregion_to_parts dist_zones zsr part_zones) part_zones zsrs.

(** ** Interface *)

(** [('I', paths)] and [('E', paths)]: what is included, or excluded. *)
Inductive tag : Set := Include | Exclude.
Abbreviation filters := (dict (tag * list string)).
Definition LABELS : list string := ["FlowSolution_t"; "DiscreteData_t"; "ZoneSubRegion_t"; "BCDataSet_t"].
Definition FUNCS : list (list node -> parts node -> list string -> list string -> py (parts node)) :=
  [dist_sol_to_part_sol; dist_discdata_to_part_discdata; dist_subregion_to_part_subregion; dist_dataset_to_part_dataset].
Definition _dist_zone_to_part_zones (dist_zones : list node) (part_zones : parts node) (filter_dict : filters) : py (parts node) :=
  foldM (fun part_zones '(label, func) =>
    f ← dict_get label filter_dict;
    match f with
    | (Include, []) => Ret part_zones
    | (Include, paths) => func dist_zones part_zones paths []
    | (Exclude, paths) => func dist_zones part_zones [] paths
    end) part_zones (zip LABELS FUNCS).
(** [d.get(label, [])] *)
Definition paths_in (m : dict (list string)) (label : string) : list string := match dict_get label m with Ret l => l | Raise _ => [] end.
Definition include_filters (include_dict : dict (list string)) : filters :=
  map (fun label => (label, if bool_decide (paths_in include_dict label = ["*"]) then (Exclude, []) else (Include, paths_in include_dict label))) LABELS.
Definition exclude_filters (exclude_dict : dict (list string)) : filters :=
  map (fun label => (label, if bool_decide (paths_in exclude_dict label = ["*"]) then (Include, []) else (Exclude, paths_in exclude_dict label))) LABELS.
Definition dist_zone_to_part_zones_only (dist_zones : list node) (part_zones : parts node) (include_dict : dict (list string)) : py (parts node) :=
  _dist_zone_to_part_zones dist_zones part_zones (include_filters include_dict).
Definition dist_zone_to_part_zones_all (dist_zones : list node) (part_zones : parts node) (exclude_dict : dict (list string)) : py (parts node) :=
  _dist_zone_to_part_zones dist_zones part_zones (exclude_filters exclude_dict).

(** On the trees of the ranks, one distributed zone after the other. *)
Definition on_partitions (path : string) (f : parts node -> py (parts node)) (part_trees : list node) : py (list node) :=
  refs ← mapM (fun t => partitioned_refs t path) part_trees;
  zones ← mapM (fun p : node * list ref => of_option IndexError (mapM (node_at p.1) p.2)) (zip part_trees refs);
  zones' ← f zones;
  mapM (fun '(t, (rs, zs)) => applied (edit_all (fun (z : node) (_ : node) => (z, Ret ())) (zip rs zs)) t) (zip part_trees (zip refs zones')).
Definition zone_paths (dist_tree : node) : py (list string) :=
  r ← refs_where [label_is "CGNSBase_t"; label_is "Zone_t"] dist_tree; Ret (map (path_of dist_tree) r).
Definition on_zone_paths {S} (f : string -> list node -> S -> py S) (dist_trees : list node) (s : S) : py S :=
  paths ← mapM zone_paths dist_trees; paths ← common paths;
  foldM (fun s path => zones ← at_paths path dist_trees; f path zones s) s paths.
Definition star_dict (labels : list string) : dict (list string) := dict_of (map (fun label => (label, ["*"])) labels).
Definition dist_tree_to_part_tree_only_labels (dist_trees part_trees : list node) (labels : list string) : py (list node) :=
  on_zone_paths (fun path dist_zones part_trees =>
    on_partitions path (fun part_zones => dist_zone_to_part_zones_only dist_zones part_zones (star_dict labels)) part_trees) dist_trees part_trees.
Definition dist_tree_to_part_tree_all (dist_trees part_trees : list node) : py (list node) := dist_tree_to_part_tree_only_labels dist_trees part_trees LABELS.
End dist_to_part.
End DistToPart.
