(* ===== verification/Discover.v ===== *)
(** * Nodes found on the partitions: the first functions of [maia/factory/dist_from_part.py]

    The nodes that the partitions of the ranks have under some paths are put on the distributed trees of all the ranks. *)
From S2P Require Import Prelude PyUtils NpUtils Values Conventions Fnmatch Tree Parsers Walkers Search Distribution Sids Refs Presets MaiaNodes Joins PostSplit Transfer.

Local Open Scope Z_scope.

Module Discover.
Import NpUtils Values Conventions Tree Walkers Search Distribution Sids Refs Presets MaiaNodes Joins Transfer.

Section discover.
Context `{ArrayEqual} (to_float32 : Z -> Z).

(** What a rank knows of a path: the labels and values of its nodes, and the children of the last one. *)
Record found := Found { f_labels : list string; f_values : list pyval; f_childs : list node }.
Definition with_ancestors : kwargs := Kw None None None None None (Some true).
Definition chains_of (r : walk_result) : list (list node) := match r with Tuples l => l | Nodes l => map (fun n => [n]) l end.
Definition node_arg (n : node) : py pyval := v ← get_value n false; arg_of v.
Definition found_at (child_list : list string) (get_value : string) (nodes : list node) : py found :=
  flags ← PyUtils.str_to_bools (zlen nodes) get_value;
  values ← mapM (fun p : node * bool => if p.2 then node_arg p.1 else Ret PNone) (zip nodes flags);
  leaf ← of_option IndexError (last nodes);
  childs ← mapM (fun query => r ← get_children_from_predicates leaf (QsList [EQuery (QStr query)]) no_kw; Ret (PostSplit.nodes_of r)) child_list;
  Ret (Found (map get_label nodes) values (concat childs)).
Definition collect_node (dist_node : node) (child_list : list string) (get_value : string) (merge_rule : string -> py string) (m : dict found) (nodes : list node) : py (dict found) :=
  leaf_path ← merge_rule (py_join slash (get_names nodes));
  if is_none (get_node_from_path dist_node leaf_path) && negb (bool_decide (leaf_path ∈ map fst m)) then
    f ← found_at child_list get_value nodes; Ret (m ++ [(leaf_path, f)])
  else Ret m.
Definition collect_nodes (part_nodes : list node) (qs : queries) (dist_node : node) (child_list : list string) (get_value : string) (merge_rule : string -> py string) : py (dict found) :=
  chains ← mapM (fun part_node => r ← iter_children_from_predicates part_node qs with_ancestors; Ret (chains_of r)) part_nodes;
  foldM (collect_node dist_node child_list get_value merge_rule) [] (concat chains).

(** The nodes of the path are updated or created, then the last one receives its children. *)
Fixpoint update_path (names labels : list string) (values : list pyval) (f : st ()) : st () :=
  match names, labels, values with
  | name :: names', label :: labels', v :: values' =>
      _ ← update to_float32 name label (Some v); on_first (fun c => match_name c name) (update_path names' labels' values' f)
  | _, _, _ => f
  end.
Definition add_found (p : string * found) : st () := fun dist_node =>
  match get_node_from_path dist_node p.1 with
  | Some _ => (dist_node, Ret ())
  | None => update_path (py_split slash p.1) (f_labels p.2) (f_values p.2) (PostSplit.add_nodes (f_childs p.2)) dist_node
  end.
Definition discover_nodes_from_matching (dist_nodes : list node) (part_nodes : parts node) (qs : queries) (child_list : list string) (get_value : string) (merge_rule : string -> py string) : py (list node) :=
  collected ← mapM (fun p : node * list node => collect_nodes p.2 qs p.1 child_list get_value merge_rule) (zip dist_nodes part_nodes);
  mapM (applied (for_each (for_each add_found) collected)) dist_nodes.

(** The paths of the distributed zones with the partitions that each rank has of them. *)
Definition get_parts_per_blocks (version : Z) (part_trees : list node) : py (list (dict (list node))) :=
  dist_doms ← mapM (fun _ => new_CGNSTree to_float32 version) part_trees;
  dist_doms ← discover_nodes_from_matching dist_doms (map (fun t => [t]) part_trees) (QsPath "CGNSBase_t/Zone_t") [] "ancestors" get_part_prefix;
  mapM (fun p : node * node =>
      paths ← predicates_to_paths p.1 (QsPath "CGNSBase_t/Zone_t");
      l ← mapM (fun zone_path => zones ← get_partitioned_zones p.2 zone_path; Ret (zone_path, zones)) paths;
      Ret (dict_of l)) (zip dist_doms part_trees).
End discover.
End Discover.
