(* ===== verification/PartToDist.v ===== *)
(** * From partitioned to distributed zones: [maia/transfer/part_to_dist/data_exchange.py] and [tree_api.py]

    The fields of the partitions are put back on the distributed zones by global numbers.  The functions take and
    return the distributed zones of the ranks and, when they number subsets, the partitions of the ranks. *)
From S2P Require Import Prelude PyUtils NpUtils Values Conventions Fnmatch Tree Parsers Walkers Search Distribution Protocols Sids Refs Presets MaiaNodes Joins BlockToBlock Redistribute PostSplit Transfer IndexExchange Discover DistToPart.

Local Open Scope Z_scope.

Module PartToDist.
Import NpUtils Values Conventions Tree Walkers Search Distribution Protocols Sids Refs Presets MaiaNodes Joins Transfer IndexExchange Discover DistToPart.

Section part_to_dist.
Context `{ArrayEqual} `{parts_exchange} `{sub_numbering} (to_float32 : Z -> Z) (astype : cgns_type -> cgns_type -> Z -> Z) (d : dtype) (argsort : list Z -> list nat).

Definition _lngn_to_distri (lngn_list : parts (list Z)) : py (list partial) :=
  let pdm_distri := ptb_distri lngn_list in
  mapM (fun r => full_to_partial_distribution pdm_distri (Z.of_nat r) (zlen lngn_list)) (seq 0 (length lngn_list)).

(** ** Discovery of the nodes *)

Abbreviation zones_and_parts := (list node * parts node)%type.
Definition is_gc_zsr (n : node) : bool :=
  bool_decide (get_label n = "ZoneSubRegion_t") && match get_child_from_name n "GridConnectivityRegionName" no_kw with Ret (Some _) => true | _ => false end.
Definition on_zsr (pl_path : string) : bool := bool_decide (head (py_split slash pl_path) = Some "ZoneSubRegion_t").
(** The ranges and the lists of the partitions that the distributed nodes do not have. *)
Definition missing (child node_path : string) (s : zones_and_parts) : py bool :=
  l ← mapM (fun z => n ← of_option TypeError (get_node_from_path z node_path); Ret (is_none (get_node_from_path n child))) s.1;
  b ← common l; Ret (b && exists_anywhere s.2 (node_path +:+ "/" +:+ child)).
Definition numbered (create : list node -> parts node -> string -> py (parts node)) (node_path : string) (s : zones_and_parts) : py (parts node) :=
  if exists_anywhere s.2 (index_path node_path) then Ret s.2 else create s.1 s.2 node_path.
Definition complete_subset (s : zones_and_parts) (node_path : string) : py zones_and_parts :=
  pr ← missing "PointRange" node_path s;
  s ← (if (pr : bool) then
         parts ← numbered (create_part_pr_gnum to_float32 d) node_path s;
         zones ← part_pr_to_dist_pr to_float32 d s.1 parts node_path false; Ret (zones, parts)
       else Ret s);
  pl ← missing "PointList" node_path s;
  if (pl : bool) then
    parts ← numbered (create_part_pl_gnum to_float32 astype d argsort) node_path s;
    zones ← part_pl_to_dist_pl to_float32 astype d argsort s.1 parts node_path false; Ret (zones, parts)
  else Ret s.
(** The split sub-regions are merged in the first one, which takes the original name. *)
Definition rm_children_where (p : node -> py bool) : st () := fun n =>
  match children_where (fun c => b ← p c; Ret (negb b)) (get_children n) with Ret cs => put_children cs n | Raise e => (n, Raise e) end.
Definition rename_zsr : st () :=
  name ← reading (fun zsr => get_split_prefix (get_name zsr));
  _ ← set_name name;
  v ← reading (fun zsr => c ← get_child_from_name zsr "GridConnectivityRegionName" no_kw; v ← value_of c; s ← PostSplit.text_of v; get_split_prefix s);
  on_first (fun c => match_name c "GridConnectivityRegionName") (set_value to_float32 (PStr v)).
Definition merge_zsrs (ini_names : list string) : st () :=
  _ ← for_each (fun name => rm_children_where (fun n => Ret (is_gc_zsr n && bool_decide (get_name n <> name) && startswith (get_name n) name))) ini_names;
  let is_gc_zsr_split n := is_gc_zsr n && negb (bool_decide (get_name n ∈ ini_names)) in
  _ ← rm_children_where (fun n => if is_gc_zsr_split n then s ← get_split_suffix (get_name n); i ← int_str s; Ret (bool_decide (0 < i)) else Ret false);
  on_children is_gc_zsr_split rename_zsr.
Definition subset_paths (pl_path : string) (dist_zone : node) : py (list string) :=
  r ← iter_children_from_predicates dist_zone (QsPath pl_path) with_ancestors; Ret (map (fun nodes => py_join slash (get_names nodes)) (chains_of r)).
Definition _discover_wrapper (dist_zones : list node) (part_zones : parts node) (pl_path data_path : string) : py zones_and_parts :=
  ini_names ← mapM (fun z => l ← iter_nodes_from_predicate z (QPred is_gc_zsr) no_kw; Ret (get_names l)) dist_zones;
  dist_zones ← discover_nodes_from_matching to_float32 dist_zones part_zones (QsPath pl_path) ["GridLocation_t"; "Descriptor_t"] "ancestors" Ret;
  dist_zones ← discover_nodes_from_matching to_float32 dist_zones part_zones (QsPath data_path) [] "ancestors" Ret;
  paths ← mapM (subset_paths pl_path) dist_zones; paths ← common paths;
  s ← foldM complete_subset (dist_zones, part_zones) paths;
  if on_zsr pl_path then zones ← mapM (fun p : list string * node => applied (merge_zsrs p.1) p.2) (zip ini_names s.1); Ret (zones, s.2) else Ret s.

(** ** Fields *)

(** [a.ravel(order='A')]: the memory order of the array, the first index being the slowest in C order. *)
Fixpoint every {A} (fuel : nat) (n : nat) (l : list A) : list A :=
  match fuel, l with S fuel', x :: _ => x :: every fuel' n (drop n l) | _, _ => [] end.
Fixpoint c_order (shape : list Z) (l : list Z) : list Z :=
  match shape with
  | [] => l
  | n :: shape' => concat (map (fun i => c_order shape' (every (length l) (Z.to_nat n) (drop i l))) (seq 0 (Z.to_nat n)))
  end.
Definition ravel_a (a : nparray) : nparray := vec (a_type a) (if a_fcontiguous a then a_data a else c_order (a_shape a) (a_data a)).
(** [part_data[name].append(a)] *)
Definition append_to (m : dict (list nparray)) (name : string) (a : nparray) : py (dict (list nparray)) :=
  l ← dict_get name m; Ret (dict_set name (l ++ [a]) m).
(** The fields, one after the other; all the ranks have the same names. *)
Definition blocks_of_fields (part_data : list (dict (list nparray))) (distribution : list (list Z)) (lngn : parts (list Z)) (reduce_func : option (list Z -> list Z -> py (list Z))) : py (dict (list nparray)) :=
  names ← common (map (map fst) part_data);
  mapM (fun name => arrays ← mapM (dict_get name) part_data; data ← part_to_block d arrays distribution lngn reduce_func; Ret (name, data)) names.
Definition set_named (f : string * nparray) : st () := on_first (fun c => match_name c f.1) (set_value to_float32 (PArray f.2)).
Definition of_rank (r : nat) (fields : dict (list nparray)) : py (dict nparray) := mapM (fun f : string * list nparray => a ← of_option IndexError (f.2 !! r); Ret (f.1, a)) fields.
(** The arrays are set on a node of each rank. *)
Definition set_fields (at_node : st () -> st ()) (fields : dict (list nparray)) (zones : list node) : py (list node) :=
  mapM (fun '(r, z) => l ← of_rank r fields; applied (at_node (for_each set_named l)) z) (imap pair zones).

Definition empty_fields (names : list string) : dict (list nparray) := dict_of (map (fun name => (name, [])) names).
Definition gc_arrays (dist_zone : node) (part_zones : list node) : py (dict (list nparray)) :=
  d_grid_co ← get_child_from_label dist_zone (StrLabel "GridCoordinates_t") no_kw; d_grid_co ← of_option AttributeError d_grid_co;
  coords ← iter_children_from_label d_grid_co (StrLabel "DataArray_t") no_kw;
  foldM (fun m part_zone =>
      p_grid_co ← get_child_from_name part_zone (get_name d_grid_co) no_kw; p_grid_co ← of_option AttributeError p_grid_co;
      l ← iter_children_from_label p_grid_co (StrLabel "DataArray_t") no_kw;
      foldM (fun m coord => a ← of_option AttributeError (get_raw coord); append_to m (get_name coord) (ravel_a a)) m l) (empty_fields (get_names coords)) part_zones.
Definition part_coords_to_dist_coords (dist_zones : list node) (part_zones : parts node) (reduce_func : option (list Z -> list Z -> py (list Z))) : py (list node) :=
  distribution ← mapM (fun z => get_cgns_distribution z "Vertex") dist_zones;
  lntogn_list ← mapM (fun zones => collect_cgns_g_numbering d zones "Vertex" "") part_zones;
  part_data ← mapM (fun p : node * list node => gc_arrays p.1 p.2) (zip dist_zones part_zones);
  dist_data ← blocks_of_fields part_data distribution lntogn_list reduce_func;
  set_fields (on_first (with_label "GridCoordinates_t")) dist_data dist_zones.

(** *** Solutions *)

(** A field that every partition with the container has. *)
Definition can_be_transfered (part_zones : parts node) (sol field : string) : bool :=
  par_all_true part_zones (fun zone => negb (is_none (get_node_from_path zone (sol +:+ "/" +:+ field))) || is_none (get_node_from_path zone sol)).
Definition sol_arrays (sol : string) (fields : list string) (part_zones : list node) : py (dict (list nparray)) :=
  foldM (fun m part_zone =>
      p_sol ← get_child_from_name part_zone sol no_kw;
      match p_sol with
      | None => Ret m
      | Some p_sol => foldM (fun m field => c ← get_child_from_name p_sol field no_kw; v ← raw_of c; a ← of_option AttributeError v; append_to m field (ravel_a a)) m fields
      end) (empty_fields fields) part_zones.
Definition sol_to_dist (dist_zones : list node) (part_zones : parts node) (reduce_func : option (list Z -> list Z -> py (list Z))) (name : string) (fields : list string) : py (list node) :=
  if exists_anywhere part_zones name then
    ks ← mapM (fun z => container_of z name) dist_zones;
    k ← common (map fst ks);
    num ← numbering_of d k dist_zones (map snd ks) part_zones;
    let fields := filter (fun f => can_be_transfered part_zones name f = true) fields in
    part_data ← mapM (sol_arrays name fields) part_zones;
    let _lntogn_list := map (filter (fun l : list Z => l <> [])) num.2 in
    dist_data ← blocks_of_fields part_data num.1 _lntogn_list reduce_func;
    set_fields (on_first (fun c => match_name c name)) dist_data dist_zones
  else Ret dist_zones.
Definition _part_to_dist_sollike (dist_zones : list node) (part_zones : parts node) (masks : list ptree) (reduce_func : option (list Z -> list Z -> py (list Z))) : py (list node) :=
  sols ← common (map mask_names masks);
  foldM (fun zones '(name, fields) => sol_to_dist zones part_zones reduce_func name fields) dist_zones sols.
(** The arrays that have no value were added by the discovery. *)
Definition void_array (n : node) : bool := bool_decide (get_label n = "DataArray_t") && is_none (get_raw n).
Definition rm_void : st () := fun n => (rm_children_from_predicate void_array n, Ret ()).
Definition sollike_to_dist (label : string) (dist_zones : list node) (part_zones : parts node) (incl excl : list string) (reduce_func : option (list Z -> list Z -> py (list Z))) : py zones_and_parts :=
  s ← _discover_wrapper dist_zones part_zones label (label +:+ "/DataArray_t");
  masks ← masks_of s.1 [label; "DataArray_t"] incl excl;
  zones ← _part_to_dist_sollike s.1 s.2 masks reduce_func;
  zones ← mapM (applied (on_children (with_label label) rm_void)) zones;
  Ret (zones, s.2).
Definition part_sol_to_dist_sol (dist_zones : list node) (part_zones : parts node) (incl excl : list string) (reduce_func : option (list Z -> list Z -> py (list Z))) : py zones_and_parts :=
  s ← sollike_to_dist "FlowSolution_t" dist_zones part_zones incl excl reduce_func;
  zones ← discover_nodes_from_matching to_float32 s.1 s.2 (QsPath "ZoneIterativeData_t") ["FlowSolutionPointers"] "ancestors" Ret;
  Ret (zones, s.2).
Definition part_discdata_to_dist_discdata (dist_zones : list node) (part_zones : parts node) (incl excl : list string) (reduce_func : option (list Z -> list Z -> py (list Z))) : py zones_and_parts :=
  sollike_to_dist "DiscreteData_t" dist_zones part_zones incl excl reduce_func.

(** *** Sub-regions *)

(** The arrays of a node of each partition that has it, and the numbers of these partitions. *)
Definition arrays_at (field : node -> string -> py (option node)) (fields : list string) (m : dict (list nparray)) (n : node) : py (dict (list nparray)) :=
  foldM (fun m f => c ← field n f; v ← raw_of c; a ← of_option TypeError v; append_to m f a) m fields.
Definition by_child (n : node) (name : string) : py (option node) := get_child_from_name n name no_kw.
Definition by_path (n : node) (path : string) : py (option node) := Ret (get_node_from_path n path).
Definition present_arrays (field : node -> string -> py (option node)) (path : string) (fields : list string) (part_zones : list node) : py (dict (list nparray)) :=
  foldM (fun m part_zone => match get_node_from_path part_zone path with None => Ret m | Some n => arrays_at field fields m n end) (empty_fields fields) part_zones.
(** [lngn_list.pop(ipart)] for the partitions without the node, from the last one. *)
Definition pop_absent (path : string) (part_zones : list node) (lngn_list : list (list Z)) : list (list Z) :=
  omap (fun p : node * list Z => if is_none (get_node_from_path p.1 path) then None else Some p.2) (zip part_zones lngn_list).
(** The sub-regions of the split joins of a partition. *)
Definition zsr_of (part_zone : node) (gc_name : string) : py node :=
  n ← get_node_from_predicate part_zone (QPred (good_zsr gc_name)) no_kw; of_option AttributeError n.
Definition join_arrays (path : string) (fields : list string) (part_zones : list node) : py (list (list Z) * dict (list nparray)) :=
  lngn ← mapM (join_numbers path) part_zones;
  m ← foldM (fun m part_zone =>
        gcs ← split_joins path part_zone;
        foldM (fun m gc => p_zsr ← zsr_of part_zone (get_name gc); arrays_at by_child fields m p_zsr) m gcs) (empty_fields fields) part_zones;
  Ret (concat lngn, m).
Definition subregion_to_dist (reduce_func : option (list Z -> list Z -> py (list Z))) (part_zones : parts node) (dist_zones : list node) (zsr : string * list ptree) : py (list node) :=
  d_zsrs ← mapM (fun z => n ← get_child_from_name z zsr.1 no_kw; of_option AttributeError n) dist_zones;
  paths ← mapM (fun p : node * node => Subset_ZSRExtent p.1 p.2) (zip d_zsrs dist_zones); path ← common paths;
  regions ← mapM (fun z => of_option AssertionError (get_node_from_path z path)) dist_zones;
  distribution ← mapM (fun n => get_cgns_distribution n "Index") regions;
  fields ← common (map (fun t => map pt_name (pt_children t)) zsr.2);
  is_gc ← common (map gc_region regions);
  data ← (if (is_gc : bool) then mapM (join_arrays path fields) part_zones
          else mapM (fun zones =>
                 lngn ← collect_cgns_g_numbering d zones "Index" path;
                 m ← present_arrays by_child zsr.1 fields zones;
                 Ret (pop_absent zsr.1 zones lngn, m)) part_zones);
  dist_data ← blocks_of_fields (map snd data) distribution (map fst data) reduce_func;
  set_fields (on_first (fun c => match_name c zsr.1)) dist_data dist_zones.
Definition part_subregion_to_dist_subregion (dist_zones : list node) (part_zones : parts node) (incl excl : list string) (reduce_func : option (list Z -> list Z -> py (list Z))) : py zones_and_parts :=
  s ← _discover_wrapper dist_zones part_zones "ZoneSubRegion_t" "ZoneSubRegion_t/DataArray_t";
  masks ← masks_of s.1 ["ZoneSubRegion_t"; "DataArray_t"] incl excl;
  zsrs ← common_children masks;
  zones ← foldM (subregion_to_dist reduce_func s.2) s.1 zsrs;
  zones ← mapM (applied (on_children (with_label "ZoneSubRegion_t") rm_void)) zones;
  Ret (zones, s.2).

(** *** Data sets *)

Definition set_at_path (f : string * nparray) : st () := at_path f.1 (set_value to_float32 (PArray f.2)).
Definition dataset_to_dist (reduce_func : option (list Z -> list Z -> py (list Z))) (part_zones : parts node) (bc_path : string) (dist_zones : list node) (ds : string * list ptree) : py (list node) :=
  let ds_path := join_path bc_path ds.1 in
  d_bcs ← at_paths bc_path dist_zones; d_datasets ← at_paths ds_path dist_zones;
  own ← mapM (fun n => getDistribution n None) d_datasets;
  own ← common (map (fun o => negb (is_none o)) own);
  distribution ← mapM (fun n => get_cgns_distribution n "Index") (if (own : bool) then d_datasets else d_bcs);
  lngn_list ← mapM (fun zones => collect_cgns_g_numbering d zones "Index" (if (own : bool) then ds_path else bc_path)) part_zones;
  paths ← common (map mask_paths ds.2);
  part_data ← mapM (present_arrays by_path ds_path paths) part_zones;
  dist_data ← blocks_of_fields part_data distribution (zip_with (pop_absent ds_path) part_zones lngn_list) reduce_func;
  mapM (fun '(r, z) => l ← of_rank r dist_data; applied (at_path ds_path (for_each set_at_path l)) z) (imap pair dist_zones).
Definition bc_ds_path : string := "ZoneBC_t/BC_t/BCDataSet_t".
Definition part_dataset_to_dist_dataset (dist_zones : list node) (part_zones : parts node) (incl excl : list string) (reduce_func : option (list Z -> list Z -> py (list Z))) : py zones_and_parts :=
  s ← _discover_wrapper dist_zones part_zones bc_ds_path (bc_ds_path +:+ "/BCData_t/DataArray_t");
  zbcs ← zone_bcs s.1;
  zones ← foldM (fun zones d_zbcs =>
    masks ← masks_of d_zbcs dataset_labels incl excl;
    zbc ← common (map get_name d_zbcs);
    bcs ← common_children masks;
    foldM (fun zones '(bc, mask_bcs) =>
      datasets ← common_children mask_bcs;
      foldM (dataset_to_dist reduce_func s.2 (join_path zbc bc)) zones datasets) zones bcs) s.1 zbcs;
  zones ← mapM (applied (on_nodes_chain [with_label "ZoneBC_t"; with_label "BC_t"; with_label "BCDataSet_t"; with_label "BCData_t"] rm_void)) zones;
  Ret (zones, s.2).

(** ** Interface *)

Definition dist_funcs : list (list node -> parts node -> list string -> list string -> option (list Z -> list Z -> py (list Z)) -> py zones_and_parts) :=
  [part_sol_to_dist_sol; part_discdata_to_dist_discdata; part_subregion_to_dist_subregion; part_dataset_to_dist_dataset].
Definition _part_zones_to_dist_zone (dist_zones : list node) (part_zones : parts node) (filter_dict : dict (tag * list string)) : py zones_and_parts :=
  foldM (fun s '(label, func) =>
    f ← dict_get label filter_dict;
    match f with
    | (Include, []) => Ret s
    | (Include, paths) => func s.1 s.2 paths [] None
    | (Exclude, paths) => func s.1 s.2 [] paths None
    end) (dist_zones, part_zones) (zip LABELS dist_funcs).
Definition part_zones_to_dist_zone_only (dist_zones : list node) (part_zones : parts node) (include_dict : dict (list string)) : py zones_and_parts :=
  _part_zones_to_dist_zone dist_zones part_zones (include_filters include_dict).
Definition part_zones_to_dist_zone_all (dist_zones : list node) (part_zones : parts node) (exclude_dict : dict (list string)) : py zones_and_parts :=
  _part_zones_to_dist_zone dist_zones part_zones (exclude_filters exclude_dict).

(** The zone of a path of each distributed tree and its partitions in the partitioned trees, edited in place. *)
Definition put_node (z : node) : st () := fun _ => (z, Ret ()).
Definition on_zone_and_parts (path : string) (f : zones_and_parts -> py zones_and_parts) (trees : list node * list node) : py (list node * list node) :=
  zones ← at_paths path trees.1;
  refs ← mapM (fun t => partitioned_refs t path) trees.2;
  part_zones ← mapM (fun p : node * list ref => of_option IndexError (mapM (node_at p.1) p.2)) (zip trees.2 refs);
  s ← f (zones, part_zones);
  dist_trees ← mapM (fun p : node * node => applied (at_path path (put_node p.2)) p.1) (zip trees.1 s.1);
  part_trees ← mapM (fun '(t, (rs, zs)) => applied (edit_all put_node (zip rs zs)) t) (zip trees.2 (zip refs s.2));
  Ret (dist_trees, part_trees).
Definition part_tree_to_dist_tree_only_labels (dist_trees part_trees : list node) (labels : list string) : py (list node * list node) :=
  paths ← mapM zone_paths dist_trees; paths ← common paths;
  foldM (fun trees path => on_zone_and_parts path (fun s => part_zones_to_dist_zone_only s.1 s.2 (star_dict labels)) trees) (dist_trees, part_trees) paths.
End part_to_dist.
End PartToDist.
