(* ===== verification/FieldsSpec.v ===== *)
(** * Coordinates sent to the partitions and back: theorems on DistToPart and PartToDist

    The coordinates of a distributed zone whose vertices are all in some partition are sent to the partitions, and
    gathering them gives back the distributed zones. *)
From S2P Require Import Prelude PyUtils Numbering Slabs NpUtils Values Conventions Fnmatch Tree Parsers Walkers Search Distribution Protocols MergeIds PointRange Sids Refs Presets MaiaNodes Joins JoinsSpec Filters FullToDist FullToDistSpec Compatibility CompatibilitySpec BlockToBlock Redistribute RedistributeSpec PostSplit Transfer IndexExchange TransferSpec DistToPart Discover PartToDist.

Local Open Scope Z_scope.

Module FieldsSpec.
Import NpUtils Values Conventions Tree Walkers Search Distribution Protocols Sids Refs Presets MaiaNodes Joins BlockToBlock CompatibilitySpec RedistributeSpec Transfer IndexExchange TransferSpec DistToPart Discover PartToDist.

(** ** Dictionaries *)

Section dict.
Context {A : Type}.
Lemma dict_get_mid (m1 m2 : dict A) k v : k ∉ map fst m1 -> dict_get k (m1 ++ (k, v) :: m2) = Ret v.
Proof.
  intros Hk. unfold dict_get. induction m1 as [|[k' v'] m1 IH]; cbn [app List.find fst]; [by rewrite bool_decide_eq_true_2|]. cbn [map fst] in Hk. apply not_elem_of_cons in Hk as [Hne Hk]. rewrite bool_decide_eq_false_2 by congruence. by apply IH.
Qed.
Lemma dict_set_mid (m1 m2 : dict A) k v w : k ∉ map fst m1 -> dict_set k w (m1 ++ (k, v) :: m2) = m1 ++ (k, w) :: m2.
Proof.
  intros Hk. induction m1 as [|[k' v'] m1 IH]; cbn [app dict_set]; [by rewrite bool_decide_eq_true_2|]. cbn [map fst] in Hk. apply not_elem_of_cons in Hk as [Hne Hk]. rewrite bool_decide_eq_false_2 by congruence. f_equal. by apply IH.
Qed.
Lemma dict_set_new (m : dict A) k w : k ∉ map fst m -> dict_set k w m = m ++ [(k, w)].
Proof.
  intros Hk. induction m as [|[k' v'] m IH]; [done|]. cbn [app dict_set]. cbn [map fst] in Hk. apply not_elem_of_cons in Hk as [Hne Hk]. rewrite bool_decide_eq_false_2 by congruence. f_equal. by apply IH.
Qed.
Lemma dict_of_nodup (m : dict A) : NoDup (map fst m) -> dict_of m = m.
Proof.
  intros Hn. unfold dict_of. assert (Hg : forall (m1 m2 : dict A), NoDup (map fst (m1 ++ m2)) -> foldl (fun (m : dict A) (p : string * A) => dict_set p.1 p.2 m) m1 m2 = m1 ++ m2).
  { intros m1 m2. revert m1. induction m2 as [|[k v] m2 IH]; intros m1 Hd; [by rewrite app_nil_r|]. cbn [foldl fst snd]. rewrite dict_set_new.
    - rewrite IH; [by rewrite <- app_assoc|]. by rewrite <- app_assoc.
    - rewrite map_app in Hd. apply NoDup_app in Hd as (_ & Hd & _). intros Hin. apply (Hd k Hin). cbn. left. }
  apply (Hg [] m Hn).
Qed.
End dict.
Lemma dict_get_named {A B} (key : B -> string) (f : B -> A) l x : NoDup (map key l) -> x ∈ l -> dict_get (key x) (map (fun y => (key y, f y)) l) = Ret (f x).
Proof.
  intros Hn Hx. apply list_elem_of_split in Hx as (l1 & l2 & ->). rewrite map_app. cbn [map]. apply dict_get_mid. rewrite map_map. cbn. rewrite map_app in Hn. apply NoDup_app in Hn as (_ & Hn & _). intros Hin. apply (Hn _ Hin). left.
Qed.
Lemma mapM_list_map {A B C} (f : B -> py C) (g : A -> B) (h : A -> C) l : (forall x, x ∈ l -> f (g x) = Ret (h x)) -> mapM f (map g l) = Ret (map h l).
Proof. induction l as [|x l IH]; intros Hf; [done|]. cbn [map mapM]. rewrite Hf by left. cbn [mbind py_bind]. rewrite IH; [done|]. intros. apply Hf. by right. Qed.
Lemma common_same {A} `{EqDecision A} n (x : A) : (0 < n)%nat -> common (map (fun _ => x) (seq 0 n)) = Ret x.
Proof. intros Hn. apply common_const; [destruct n; [lia|done]|done]. Qed.

(** ** The coordinates *)

(** A coordinate: its name, its type and its values for all the vertices of the zone. *)
Record coord := Coord { c_name : string; c_type : cgns_type; c_data : list Z }.

Section coords.
Context `{ArrayEqual} `{EX : parts_exchange} `{!parts_exchange_laws EX} (to_float32 : Z -> Z) (astype : cgns_type -> cgns_type -> Z -> Z) (d : dtype) (dns : list Z) (cs : list coord).

Definition coord_node (r : nat) (c : coord) : node := Node (c_name c) (Some (vec (c_type c) (block dns (c_data c) r))) [] "DataArray_t".
Definition good_coord (c : coord) : Prop := Fnmatch.plain (c_name c) = true /\ is_valid_name (c_name c) false = true /\ zlen (c_data c) = zsum dns.
(** The zone of a rank: its part of the distribution of the vertices and of the coordinates. *)
Definition dist_zone_of (r : nat) (z : node) : Prop :=
  get_cgns_distribution z "Vertex" = Ret [bound dns r; bound dns (S r); zsum dns] /\
  exists gc, head (filter (fun c => get_label c = "GridCoordinates_t") (get_children z)) = Some gc /\ get_name gc = "GridCoordinates" /\ get_children gc = map (coord_node r) cs.
(** A partition that has these vertices and no coordinates. *)
Definition partition_of (l : list Z) (z : node) : Prop :=
  g_numbering d "Vertex" "" z = Ret l /\ (exists s, Zone_VertexSize z = Ret s /\ np_prod s = zlen l) /\ "GridCoordinates" ∉ get_names (get_children z).

(** The coordinates of the vertices of a partition. *)
Definition values (l : list Z) (c : coord) : list Z := map (value_at (c_data c)) l.
Definition part_coord (s : zsize) (l : list Z) (c : coord) : node := Node (c_name c) (Some (NpArray (c_type c) (shape_of_size s) true (values l c))) [] "DataArray_t".
Definition part_gc (s : zsize) (l : list Z) : node := Node "GridCoordinates" None (map (part_coord s l) cs) "GridCoordinates_t".
Definition with_coords (l : list Z) (z z' : node) : Prop := exists s, Zone_VertexSize z = Ret s /\ np_prod s = zlen l /\ z' = with_children z (get_children z ++ [part_gc s l]).

Context (Hnames : NoDup (map c_name cs)) (Hcs : Forall good_coord cs).

(** *** What the partitions receive *)

Lemma put_array_exact name a m : is_valid_name name false = true -> name ∉ get_names (get_children m) -> a_fcontiguous a = true ->
  put_array to_float32 astype (name, a) m = (with_children m (get_children m ++ [Node name (Some a) [] "DataArray_t"]), Ret ()).
Proof using Type.
  intros Hv Hm Ha. unfold put_array, new_DataArray. cbn [fst snd]. apply (under_leaf to_float32 name "DataArray_t" (PArray a) (Some a) m); [done..| |done]. destruct a. cbn in *. by rewrite Ha.
Qed.
Lemma put_fields_exact s l : np_prod s = zlen l -> forall cs2 cs1, cs = cs1 ++ cs2 ->
  put_fields to_float32 astype s (map (fun c => (c_name c, vec (c_type c) (values l c))) cs2) (Node "GridCoordinates" None (map (part_coord s l) cs1) "GridCoordinates_t") = (part_gc s l, Ret ()).
Proof using All.
  intros Hs. induction cs2 as [|c cs2 IH]; intros cs1 E; [unfold part_gc; rewrite E, app_nil_r; done|]. unfold put_fields. cbn [map for_each].
  assert (Hc : good_coord c) by (rewrite Forall_forall in Hcs; apply Hcs; rewrite E; set_solver). destruct Hc as (_ & Hv & _).
  assert (Hr : reshape s (vec (c_type c) (values l c)) = Ret (NpArray (c_type c) (shape_of_size s) true (values l c))).
  { unfold reshape. rewrite bool_decide_eq_true_2; [done|]. cbn. unfold values. rewrite Hs. unfold zlen. by rewrite length_map. }
  rewrite (st_step _ _ _ (Node "GridCoordinates" None (map (part_coord s l) (cs1 ++ [c])) "GridCoordinates_t") ()).
  - apply IH. by rewrite <- app_assoc.
  - cbn [fst snd]. rewrite (st_lifted _ _ _ _ Hr). rewrite put_array_exact; [unfold with_children; cbn; by rewrite map_app|done| |done].
    cbn [get_children]. unfold get_names. rewrite E, map_app in Hnames. apply NoDup_app in Hnames as (_ & Hn & _). intros Hin. change (@fmap list list_fmap node string) with (@map node string) in Hin. rewrite map_map in Hin. apply (Hn _ Hin). left.
Qed.

Definition fields_for (l : list Z) : dict nparray := map (fun c => (c_name c, vec (c_type c) (values l c))) cs.
Lemma put_coords_exact l z : partition_of l z -> exists z', applied (put_coords to_float32 astype (fields_for l)) z = Ret z' /\ with_coords l z z'.
Proof using All.
  intros (_ & (s & Hs & Hl) & Hn). exists (with_children z (get_children z ++ [part_gc s l])). split; [|by exists s]. unfold applied, put_coords. rewrite (st_read _ _ _ _ Hs). unfold under, then_fill. rewrite new_node_spec.
  change (negb (is_valid_name "GridCoordinates" false)) with false. change (negb (is_valid_label "GridCoordinates_t" false)) with false. cbn [_convert_value]. rewrite bool_decide_eq_true_2 by constructor. destruct z as [nm pv ch lb]. cbn [get_children get_name get_raw get_label] in *.
  cbn zeta. cbn iota. cbn [get_name]. rewrite bool_decide_eq_false_2 by done. unfold fields_for. pose proof (put_fields_exact s l Hl cs [] eq_refl) as Hp. cbn [map] in Hp. change (some_nodes []) with (@nil node). rewrite Hp.
  unfold set_last. cbn [fmap option_fmap option_map default]. by rewrite length_app, take_app_length' by (cbn; lia).
Qed.

(** *** The arrays of the ranks *)

Context (dist_zones : list node) (part_zones : parts node) (lngn : parts (list Z)).
Context (Hdist : ranks (length dns) dist_zone_of dist_zones) (Hparts : Forall2 (Forall2 partition_of) lngn part_zones).
Context (Hdns : Forall (fun n => 0 <= n) dns) (Hmax : zsum dns <= iinfo_max d) (Hlen : length lngn = length dns) (Hr : in_range (zsum dns) lngn).
Context (Hcover : forall g, 1 <= g <= zsum dns -> g ∈ all_numbers lngn) (Hne : concat lngn <> []).

Lemma some_rank : (0 < length dns)%nat.
Proof using Hlen Hne. clear -Hlen Hne. rewrite <- Hlen. destruct (decide (length lngn = 0%nat)) as [E|]; [|lia]. apply length_zero_iff_nil in E. rewrite E in Hne. done. Qed.
Lemma distri_exact : mapM (fun z => get_cgns_distribution z "Vertex") dist_zones = Ret (distri_arrays dns).
Proof using Hdist. rewrite distri_arrays_seq. apply (mapM_ranks _ dist_zone_of); [done|]. by intros r m [E _]. Qed.
Lemma coords_exact : mapM coords_of dist_zones = Ret (map (fun r => map (fun c => (c_name c, vec (c_type c) (block dns (c_data c) r))) cs) (seq 0 (length dns))).
Proof using Hdist Hnames.
  apply (mapM_ranks _ dist_zone_of); [done|]. intros r z (_ & gc & Hgc & _ & Hch). unfold coords_of. rewrite JoinsSpec.child_from_label by done. cbn [mbind py_bind]. rewrite Hgc. cbn [of_option mbind py_bind]. rewrite Filters.iter_label by done. cbn [mbind py_bind].
  rewrite Hch. assert (Hf : filter (fun c => get_label c = "DataArray_t") (map (coord_node r) cs) = map (coord_node r) cs) by (clear; induction cs as [|c l IH]; [done|]; cbn [map]; rewrite filter_cons, decide_True by done; by rewrite IH). rewrite Hf.
  assert (Hm : mapM (fun c => a ← of_option TypeError (get_raw c); Ret (get_name c, a)) (map (coord_node r) cs) = Ret (map (fun c => (c_name c, vec (c_type c) (block dns (c_data c) r))) cs)) by (clear; induction cs as [|c l IH]; [done|]; cbn [map mapM]; cbn; by rewrite IH). rewrite Hm. cbn [mbind py_bind]. f_equal. apply dict_of_nodup. by rewrite map_map.
Qed.
Lemma by_name_exact : by_name (map (fun r => map (fun c => (c_name c, vec (c_type c) (block dns (c_data c) r))) cs) (seq 0 (length dns))) = Ret (map (fun c => (c_name c, map (vec (c_type c)) (blocks_of dns (c_data c)))) cs).
Proof using All.
  unfold by_name. rewrite map_map. rewrite (map_ext (fun r => map fst _) (fun _ => map c_name cs)) by (intros r; by rewrite map_map). rewrite common_same by apply some_rank. cbn [mbind py_bind].
  apply (mapM_list_map _ c_name). intros c Hc.
  assert (Hg : mapM (dict_get (c_name c)) (map (fun r => map (fun c => (c_name c, vec (c_type c) (block dns (c_data c) r))) cs) (seq 0 (length dns))) = Ret (map (vec (c_type c)) (blocks_of dns (c_data c)))); [|by rewrite Hg].
  unfold blocks_of. rewrite map_map. apply mapM_list_map. intros r _. by apply (dict_get_named c_name (fun c => vec (c_type c) (block dns (c_data c) r))).
Qed.
Lemma numbers_read : mapM (fun zones => collect_cgns_g_numbering d zones "Vertex" "") part_zones = Ret lngn.
Proof using Hparts.
  apply py_mapM_Ret. apply Forall2_flip. eapply Forall2_impl; [exact Hparts|]. intros ls zones Hz. unfold flip, collect_cgns_g_numbering. apply py_mapM_Ret. apply Forall2_flip. eapply Forall2_impl; [exact Hz|]. by intros l z [E _].
Qed.
Lemma exchange_exact : exchange_fields d (map (fun c => (c_name c, map (vec (c_type c)) (blocks_of dns (c_data c)))) cs) (distri_arrays dns) lngn = Ret (map (fun c => (c_name c, sent (c_type c) (c_data c) lngn)) cs).
Proof using All.
  unfold exchange_fields. apply mapM_list_map. intros c Hin. cbn [fst snd].
  assert (Hc : good_coord c) by (rewrite Forall_forall in Hcs; by apply Hcs). destruct Hc as (_ & _ & Hz). by rewrite send_exact.
Qed.

Lemma per_part_exact : per_part part_zones (map (fun c => (c_name c, sent (c_type c) (c_data c) lngn)) cs) = Ret (map (map fields_for) lngn).
Proof using Hparts.
  clear -Hparts. unfold per_part. pose proof (Forall2_length _ _ _ Hparts) as Hl. apply py_mapM_lookup; [by rewrite length_map, length_seq|]. intros i r out Hi Ho. apply lookup_seq in Hi as [-> Hi]. rewrite Nat.add_0_l.
  destruct (lookup_lt_is_Some_2 part_zones i Hi) as [zones Hz]. destruct (lookup_lt_is_Some_2 lngn i ltac:(lia)) as [ls Hls]. rewrite (map_lookup _ _ _ _ Hls) in Ho. injection Ho as <-. rewrite Hz. change (default [] (Some zones)) with zones.
  assert (Hzl : length ls = length zones) by (rewrite (Forall2_length partition_of ls zones); [done|]; by apply (Forall2_lookup_lr _ _ _ _ _ _ Hparts Hls Hz)). apply py_mapM_lookup; [by rewrite length_map, length_seq|]. intros k j fields Hk Hf. apply lookup_seq in Hk as [-> Hk]. rewrite Nat.add_0_l.
  destruct (lookup_lt_is_Some_2 ls k ltac:(lia)) as [l Hlk]. rewrite (map_lookup _ _ _ _ Hlk) in Hf. injection Hf as <-. unfold fields_for. apply mapM_list_map. intros c _. cbn [fst snd]. unfold sent. rewrite (map_lookup _ _ _ _ Hls). cbn [mbind option_bind]. by rewrite (map_lookup _ _ _ _ Hlk).
Qed.
(** The partitions after the transfer. *)
Definition sent_parts (part_zones' : parts node) : Prop := Forall2 (Forall2 (fun p z' => with_coords p.1 p.2 z')) (zip_with zip lngn part_zones) part_zones'.
Lemma on_parts_exact : exists part_zones', on_parts (put_coords to_float32 astype) (map (map fields_for) lngn) part_zones = Ret part_zones' /\ sent_parts part_zones'.
Proof using All.
  unfold sent_parts, on_parts. clear Hr Hlen Hcover Hne Hdist. induction Hparts as [|ls zones lngn0 parts0 Hz Hp IH]; [by exists []|]. destruct (IH Hp) as (ps & E & Hs). cbn [map zip_with mapM fst snd].
  assert (Hi : exists zs, mapM (fun q : dict nparray * node => applied (put_coords to_float32 astype q.1) q.2) (zip (map fields_for ls) zones) = Ret zs /\ Forall2 (fun p z' => with_coords p.1 p.2 z') (zip ls zones) zs).
  { clear E Hs IH Hparts Hp. induction Hz as [|l z ls zones Hlz Hz (zs & E & Hs)]; [by exists []|]. cbn [map zip_with mapM fst snd]. destruct (put_coords_exact l z Hlz) as (z' & Ez & Hw). rewrite Ez. cbn [mbind py_bind]. rewrite E. cbn [mbind py_bind]. eexists. split; [reflexivity|]. by constructor. }
  destruct Hi as (zs & Ez & Hzs). rewrite Ez. cbn [mbind py_bind]. rewrite E. cbn [mbind py_bind]. eexists. split; [reflexivity|]. by constructor.
Qed.
Lemma forward_exact : exists part_zones', dist_coords_to_part_coords to_float32 astype d dist_zones part_zones = Ret part_zones' /\ sent_parts part_zones'.
Proof using All.
  destruct on_parts_exact as (ps & E & Hs). exists ps. split; [|done]. unfold dist_coords_to_part_coords. rewrite distri_exact. cbn [mbind py_bind]. rewrite coords_exact. cbn [mbind py_bind]. rewrite by_name_exact. cbn [mbind py_bind]. rewrite numbers_read. cbn [mbind py_bind]. rewrite exchange_exact. cbn [mbind py_bind]. rewrite per_part_exact. cbn [mbind py_bind]. done.
Qed.

(** *** The way back *)

Lemma numbering_path n : getGlobalNumbering n (Some "Vertex") = Ret (c ← child_named n numbering_name; child_named c "Vertex").
Proof using Type.
  clear. unfold getGlobalNumbering, get_container. rewrite bool_decide_eq_true_2 by done. f_equal. unfold get_node_from_path.
  assert (Hs : py_split slash (py_join slash [numbering_name; "Vertex"]) = [numbering_name; "Vertex"] /\ py_join slash [numbering_name; "Vertex"] <> "") by by vm_compute.
  destruct Hs as [-> Hs]. rewrite bool_decide_eq_false_2 by done. cbn [descend mbind option_bind]. destruct (child_named n numbering_name) as [c|]; [|done]. cbn [mbind option_bind descend]. by destruct (child_named c "Vertex").
Qed.
Lemma child_appended z c name : child_named (with_children z (get_children z ++ [c])) name = match child_named z name with Some x => Some x | None => if decide (get_name c = name) then Some c else None end.
Proof using Type.
  clear. unfold child_named. cbn [with_children get_children]. rewrite filter_app, filter_cons, filter_nil. destruct (filter _ (get_children z)) as [|x l]; [|done]. cbn. by destruct (decide (get_name c = name)).
Qed.
Lemma numbers_kept l z z' : partition_of l z -> with_coords l z z' -> g_numbering d "Vertex" "" z' = Ret l.
Proof using Type.
  clear. intros (Hg & _) (s & _ & _ & ->). rewrite <- Hg. unfold g_numbering. assert (Hp : forall n, get_node_from_path n "" = Some n) by done. rewrite !Hp, !numbering_path. by rewrite child_appended, decide_False; [destruct (child_named z numbering_name)|].
Qed.
Lemma numbers_kept_all ps : sent_parts ps -> mapM (fun zones => collect_cgns_g_numbering d zones "Vertex" "") ps = Ret lngn.
Proof using Hparts.
  clear -Hparts. unfold sent_parts. revert ps. induction Hparts as [|ls zones lngn0 parts0 Hz Hp IH]; intros ps Hs; [by inversion Hs|]. cbn [zip_with] in Hs. inversion Hs as [|? zs ? ps' Hzs Hps]; subst. cbn [mapM].
  assert (E : collect_cgns_g_numbering d zs "Vertex" "" = Ret ls).
  { unfold collect_cgns_g_numbering. clear -Hz Hzs. revert zs Hzs. induction Hz as [|l z ls zones Hlz Hz IH]; intros zs Hzs; cbn [zip_with] in Hzs; inversion Hzs as [|? z' ? zs' Hw Hws]; subst; [done|]. cbn [mapM]. rewrite (numbers_kept l z z' Hlz Hw). cbn [mbind py_bind]. by rewrite IH. }
  rewrite E. cbn [mbind py_bind]. by rewrite (IH Hp).
Qed.

(** The arrays collected from the partitions of some numbers. *)
Definition collected (ls : list (list Z)) (c : coord) : string * list nparray := (c_name c, map (fun l => vec (c_type c) (values l c)) ls).
Definition add_coord (m : dict (list nparray)) (n : node) : py (dict (list nparray)) := a ← of_option AttributeError (get_raw n); append_to m (get_name n) (ravel_a a).
Lemma add_coords_exact s ls l : forall cs2 cs1, cs = cs1 ++ cs2 ->
  foldM add_coord (map (collected (ls ++ [l])) cs1 ++ map (collected ls) cs2) (map (part_coord s l) cs2) = Ret (map (collected (ls ++ [l])) cs).
Proof using Hnames.
  clear -Hnames. induction cs2 as [|c cs2 IH]; intros cs1 E; [cbn [map foldM]; by rewrite E, !app_nil_r|]. cbn [map foldM].
  assert (Hk : c_name c ∉ map fst (map (collected (ls ++ [l])) cs1)).
  { rewrite map_map. rewrite E, map_app in Hnames. apply NoDup_app in Hnames as (_ & Hn & _). intros Hin. apply (Hn (c_name c) Hin). left. }
  assert (Ea : add_coord (map (collected (ls ++ [l])) cs1 ++ collected ls c :: map (collected ls) cs2) (part_coord s l c) = Ret (map (collected (ls ++ [l])) (cs1 ++ [c]) ++ map (collected ls) cs2)).
  { unfold add_coord, append_to. cbn [get_raw part_coord of_option mbind py_bind get_name]. change (collected ls c) with (c_name c, map (fun l => vec (c_type c) (values l c)) ls). rewrite dict_get_mid by done. cbn [mbind py_bind]. rewrite dict_set_mid by done. f_equal. rewrite map_app, <- app_assoc. cbn [map app]. do 2 f_equal. unfold collected. by rewrite map_app. }
  rewrite Ea. cbn [mbind py_bind]. apply IH. by rewrite <- app_assoc.
Qed.
Lemma data_arrays_only {A} (f : A -> node) l : (forall x, get_label (f x) = "DataArray_t") -> filter (fun c => get_label c = "DataArray_t") (map f l) = map f l.
Proof using Type. clear. intros Hf. induction l as [|x l IH]; [done|]. cbn [map]. rewrite filter_cons, decide_True by done. by rewrite IH. Qed.
Lemma part_gc_found l z z' : partition_of l z -> with_coords l z z' -> exists s, get_child_from_name z' "GridCoordinates" no_kw = Ret (Some (part_gc s l)).
Proof using Type.
  clear. intros (_ & _ & Hn) (s & _ & _ & ->). exists s. rewrite name_search by done. rewrite child_appended. destruct (child_named z "GridCoordinates") as [c|] eqn:Ec; [|by rewrite decide_True].
  destruct Hn. unfold child_named in Ec. apply head_Some_elem_of, list_elem_of_filter in Ec as [E Hin]. rewrite <- E. by apply list_elem_of_fmap_2.
Qed.
Lemma gc_arrays_exact r zd ls zones zs : dist_zone_of r zd -> Forall2 partition_of ls zones -> Forall2 (fun p z' => with_coords p.1 p.2 z') (zip ls zones) zs ->
  gc_arrays zd zs = Ret (map (collected ls) cs).
Proof using Hnames.
  clear -Hnames. intros (_ & gc & Hgc & Hname & Hch) Hp Hw. unfold gc_arrays. rewrite JoinsSpec.child_from_label by done. cbn [mbind py_bind]. rewrite Hgc. cbn [of_option mbind py_bind]. rewrite Filters.iter_label by done. cbn [mbind py_bind].
  rewrite Hch, data_arrays_only by done. rewrite Hname.
  assert (He : empty_fields (get_names (map (coord_node r) cs)) = map (collected []) cs).
  { unfold empty_fields, get_names. change (@fmap list list_fmap node string) with (@map node string). rewrite !map_map. apply dict_of_nodup. by rewrite map_map. }
  rewrite He. assert (Hg : forall done_ls ls zones zs, Forall2 partition_of ls zones -> Forall2 (fun p z' => with_coords p.1 p.2 z') (zip ls zones) zs ->
    foldM (fun m part_zone => p_grid_co ← get_child_from_name part_zone "GridCoordinates" no_kw; p_grid_co ← of_option AttributeError p_grid_co; l ← iter_children_from_label p_grid_co (StrLabel "DataArray_t") no_kw; foldM add_coord m l) (map (collected done_ls) cs) zs = Ret (map (collected (done_ls ++ ls)) cs)).
  { clear -Hnames. intros done_ls ls zones zs Hp. revert done_ls zs. induction Hp as [|l z ls zones Hlz Hp IH]; intros done_ls zs Hw; cbn [zip_with] in Hw; inversion Hw as [|? z' ? zs' Hz Hzs]; subst; [cbn; by rewrite app_nil_r|]. cbn [foldM].
    destruct (part_gc_found l z z' Hlz Hz) as (s & Es). rewrite Es. cbn [mbind py_bind of_option]. rewrite Filters.iter_label by done. cbn [mbind py_bind part_gc get_children]. rewrite data_arrays_only by done. pose proof (add_coords_exact s done_ls l cs [] eq_refl) as Ha. cbn [map app] in Ha. rewrite Ha. cbn [mbind py_bind]. rewrite (IH _ _ Hzs). by rewrite <- app_assoc. }
  apply (Hg [] ls zones zs Hp Hw).
Qed.
Lemma collected_all ps : sent_parts ps -> mapM (fun p : node * list node => gc_arrays p.1 p.2) (zip dist_zones ps) = Ret (map (fun ls => map (collected ls) cs) lngn).
Proof using All.
  intros Hs. destruct Hdist as [Hdl Hd]. unfold sent_parts in Hs. pose proof (Forall2_length _ _ _ Hs) as Hpl. rewrite length_zip_with in Hpl. pose proof (Forall2_length _ _ _ Hparts) as Hzl.
  apply py_mapM_lookup; [rewrite length_map, length_zip_with; lia|]. intros i p out Hi Ho. apply lookup_zip_with_Some in Hi as (zd & zs & -> & Hzd & Hzs). cbn [fst snd].
  destruct (lookup_lt_is_Some_2 lngn i) as [ls Hls]; [apply lookup_lt_Some in Hzd; lia|]. rewrite (map_lookup _ _ _ _ Hls) in Ho. injection Ho as <-.
  destruct (lookup_lt_is_Some_2 part_zones i) as [zones Hzones]; [apply lookup_lt_Some in Hzd; lia|]. apply (gc_arrays_exact i zd ls zones zs); [by apply Hd|by apply (Forall2_lookup_lr _ _ _ _ _ _ Hparts Hls Hzones)|].
  apply (Forall2_lookup_lr _ _ _ i _ _ Hs); [|done]. by rewrite lookup_zip_with, Hls, Hzones.
Qed.
Lemma gathered_fields : blocks_of_fields d (map (fun ls => map (collected ls) cs) lngn) (distri_arrays dns) lngn None = Ret (map (fun c => (c_name c, map (vec (c_type c)) (blocks_of dns (c_data c)))) cs).
Proof using All.
  unfold blocks_of_fields. rewrite map_map. rewrite (map_ext (fun ls => map fst _) (fun _ => map c_name cs)) by (intros ls; by rewrite map_map).
  rewrite (common_const (fun _ => map c_name cs) (map c_name cs)) by (try done; intros E; by rewrite E in Hne). cbn [mbind py_bind]. apply (mapM_list_map _ c_name). intros c Hc.
  assert (Hg : mapM (dict_get (c_name c)) (map (fun ls => map (collected ls) cs) lngn) = Ret (sent (c_type c) (c_data c) lngn)) by (apply mapM_list_map; intros ls _; by apply (dict_get_named c_name (fun c => map (fun l => vec (c_type c) (values l c)) ls))).
  rewrite Hg. cbn [mbind py_bind]. assert (Hgc : good_coord c) by (rewrite Forall_forall in Hcs; by apply Hcs). destruct Hgc as (_ & _ & Hz). by rewrite back_exact.
Qed.

(** Setting the values that the arrays have. *)
Lemma on_first_same p (f : st ()) n i c : find_child p (get_children n) = Some i -> get_children n !! i = Some c -> f c = (c, Ret ()) -> on_first p f n = (n, Ret ()).
Proof using Type. clear. intros Hi Hc Hf. unfold on_first. rewrite Hi, Hc, Hf. destruct n as [nm v ch lb]. cbn in *. by rewrite list_insert_id. Qed.
Lemma set_same r gc : get_children gc = map (coord_node r) cs -> forall c, c ∈ cs -> set_named to_float32 (c_name c, vec (c_type c) (block dns (c_data c) r)) gc = (gc, Ret ()).
Proof using Hnames Hcs.
  clear -Hnames Hcs. intros Hch c Hc. pose proof (proj1 (Forall_forall _ _) Hcs c Hc) as (Hp & _). apply list_elem_of_split in Hc as (cs1 & cs2 & E). unfold set_named. cbn [fst snd]. apply (on_first_same _ _ _ (length cs1) (coord_node r c)).
  - rewrite Hch, E, map_app. cbn [map]. rewrite E, map_app in Hnames. apply NoDup_app in Hnames as (_ & Hn & _). clear -Hn Hp. induction cs1 as [|x cs1 IH]; cbn [map app find_child].
    + unfold match_name. rewrite Fnmatch.fnmatch_plain by done. by rewrite bool_decide_eq_true_2.
    + unfold match_name at 1. rewrite Fnmatch.fnmatch_plain by done. rewrite bool_decide_eq_false_2; [rewrite IH; [done|]; intros k Hk; apply Hn; by right|]. intros Ex. apply (Hn (c_name x)); [left|]. cbn in Ex. rewrite Ex. left.
  - rewrite Hch, E, map_app, lookup_app_r by (rewrite length_map; lia). by rewrite length_map, Nat.sub_diag.
  - done.
Qed.
Lemma set_all_same r z : dist_zone_of r z ->
  applied (on_first (with_label "GridCoordinates_t") (for_each (set_named to_float32) (map (fun c => (c_name c, vec (c_type c) (block dns (c_data c) r))) cs))) z = Ret z.
Proof using Hnames Hcs.
  clear -Hnames Hcs. intros (_ & gc & Hgc & _ & Hch). unfold applied.
  assert (Hf : for_each (set_named to_float32) (map (fun c => (c_name c, vec (c_type c) (block dns (c_data c) r))) cs) gc = (gc, Ret ())).
  { pose proof (set_same r gc Hch) as Hs. clear Hch Hnames Hcs Hgc. induction cs as [|c l IH]; [done|]. cbn [map for_each]. rewrite (st_step _ _ _ gc () (Hs c ltac:(left))). apply IH. intros c' Hc'. apply Hs. by right. }
  assert (Hi : exists i, find_child (with_label "GridCoordinates_t") (get_children z) = Some i /\ get_children z !! i = Some gc).
  { clear -Hgc. assert (Hw : forall c, with_label "GridCoordinates_t" c = bool_decide (get_label c = "GridCoordinates_t")) by (intros c; unfold with_label, match_label, match_str_label; by rewrite Fnmatch.fnmatch_plain by done). revert Hgc. generalize (get_children z). intros l. induction l as [|x l IH]; intros Hg; [done|]. rewrite filter_cons in Hg. cbn [find_child]. rewrite Hw.
    destruct (decide (get_label x = "GridCoordinates_t")) as [Hx|Hx]; [rewrite bool_decide_eq_true_2 by done; exists 0%nat; by injection Hg as <-|]. rewrite bool_decide_eq_false_2 by done. destruct (IH Hg) as (i & -> & Hl). by exists (S i). }
  destruct Hi as (i & Hi & Hl). by rewrite (on_first_same _ _ _ _ _ Hi Hl Hf).
Qed.
Lemma set_fields_same : set_fields to_float32 (on_first (with_label "GridCoordinates_t")) (map (fun c => (c_name c, map (vec (c_type c)) (blocks_of dns (c_data c)))) cs) dist_zones = Ret dist_zones.
Proof using All.
  destruct Hdist as [Hdl Hd]. unfold set_fields. apply py_mapM_lookup; [by rewrite length_imap|]. intros i [r z] out Hi Ho. rewrite list_lookup_imap, Ho in Hi. injection Hi as <- <-.
  assert (Er : of_rank i (map (fun c => (c_name c, map (vec (c_type c)) (blocks_of dns (c_data c)))) cs) = Ret (map (fun c => (c_name c, vec (c_type c) (block dns (c_data c) i))) cs)).
  { unfold of_rank. apply mapM_list_map. intros c _. cbn [fst snd]. unfold blocks_of. rewrite map_map, map_seq_lookup by (apply lookup_lt_Some in Ho; lia). done. }
  rewrite Er. cbn [mbind py_bind]. by apply set_all_same, Hd.
Qed.
Lemma backward_exact ps : sent_parts ps -> part_coords_to_dist_coords to_float32 d dist_zones ps None = Ret dist_zones.
Proof using All.
  intros Hs. unfold part_coords_to_dist_coords. rewrite distri_exact. cbn [mbind py_bind]. rewrite numbers_kept_all by done. cbn [mbind py_bind]. rewrite collected_all by done. cbn [mbind py_bind]. rewrite gathered_fields. cbn [mbind py_bind]. apply set_fields_same.
Qed.
End coords.

(** A zone distributed on the ranks and cut into partitions: the numbers of the partitions are those of all its vertices. *)
Definition shared_zone `{ArrayEqual} (d : dtype) (dns : list Z) (cs : list coord) (dist_zones : list node) (part_zones : parts node) (lngn : parts (list Z)) : Prop :=
  NoDup (map c_name cs) /\ Forall (good_coord dns) cs /\ ranks (length dns) (dist_zone_of dns cs) dist_zones /\ Forall2 (Forall2 (partition_of d)) lngn part_zones /\
  Forall (fun n => 0 <= n) dns /\ zsum dns <= iinfo_max d /\ length lngn = length dns /\ in_range (zsum dns) lngn /\ Forall (fun g => g ∈ all_numbers lngn) (arange 1 (zsum dns + 1)) /\ concat lngn <> [].

Definition ex_array8 (t : cgns_type) (l : list Z) : value := Some (vec t l).
Definition ex_dist_zone (distri data : list Z) : node :=
  Node "Zone" (Some (NpArray T_I4 [1; 3] true [3; 1; 0]))
    [Node ":CGNS#Distribution" None [Node "Vertex" (ex_array8 T_I8 distri) [] "DataArray_t"] "UserDefinedData_t";
     Node "GridCoordinates" None [Node "CoordinateX" (ex_array8 T_R8 data) [] "DataArray_t"] "GridCoordinates_t"] "Zone_t".
Definition ex_part_zone (name : string) (l : list Z) : node :=
  Node name (Some (NpArray T_I4 [1; 3] true [zlen l; 1; 0]))
    [Node "ZoneType" (ex_text "Unstructured") [] "ZoneType_t"; Node ":CGNS#GlobalNumbering" None [Node "Vertex" (ex_array8 T_I8 l) [] "DataArray_t"] "UserDefinedData_t"] "Zone_t".
End FieldsSpec.
