(* ===== verification/DistFromPart.v ===== *)
(** * Distributed trees recovered from partitioned ones: [maia/factory/dist_from_part.py]

    The size of a structured block from its partitions, the elements, the boundary conditions, the joins and the
    iterative data, and the whole recovery. *)
From S2P Require Import Prelude PyUtils NpUtils Values Conventions Fnmatch Tree Parsers Walkers Search Distribution Protocols Sids Refs Presets MaiaNodes Joins BlockToBlock Redistribute PostSplit Transfer IndexExchange Discover DistToPart PartToDist.

Local Open Scope Z_scope.

Module DistFromPart.
Import NpUtils Values Conventions Tree Walkers Search Distribution Protocols Sids Refs Presets MaiaNodes Joins Transfer IndexExchange Discover DistToPart PartToDist.

(** ** Size of a structured block *)

(** What is kept of a join between partitions: the donor and the range, whose location is not kept. *)
Record light_join := Light { lj_donor : string; lj_range : value }.
(** A partition: its numbers of cells and its joins. *)
Record block := Block { b_size : list Z; b_joins : list light_join }.
(** The direction of the walk: forwards, then backwards. *)
Inductive way : Set := Front | Back.
Definition goes (w : way) (first : Z) : bool := match w with Front => bool_decide (first <> 1) | Back => bool_decide (first = 1) end.

Section block_size.
Context (blocks : dict block).

(** The first join of the list that leaves along the axis. *)
Fixpoint next_join (axis : nat) (w : way) (joins : list light_join) : py (option string) :=
  match joins with
  | [] => Ret None
  | jn :: joins' =>
      normal ← constant_axis (lj_range jn);
      c0 ← column_of (lj_range jn) 0;
      if bool_decide (normal = Z.of_nat axis) then
        first ← of_option IndexError (c0 !! axis);
        if goes w first then Ret (Some (lj_donor jn)) else next_join axis w joins'
      else next_join axis w joins'
  end.
(** [while keep_going]: the cells of the partitions on the way, [None] when the fuel is used up. *)
Fixpoint walk (fuel : nat) (axis : nat) (w : way) (current : string) : py (option Z) :=
  match fuel with
  | O => Ret None
  | S fuel' =>
      b ← dict_get current blocks;
      next ← next_join axis w (b_joins b);
      match next with
      | None => Ret (Some 0)
      | Some current =>
          b ← dict_get current blocks;
          n ← of_option IndexError (b_size b !! axis);
          rest ← walk fuel' axis w current;
          Ret (option_map (Z.add n) rest)
      end
  end.
(** The number of partitions is enough, since the walk does not come back to one of them. *)
Definition walk_fuel : nat := length blocks.
Definition axis_size (start : string) (size : Z) (axis : nat) : py (option Z) :=
  front ← walk walk_fuel axis Front start;
  back ← walk walk_fuel axis Back start;
  Ret (match front, back with Some f, Some b => Some (size + f + b) | _, _ => None end).
(** The numbers of cells along the axes; a join along an axis that the zone does not have cannot be stored. *)
Definition block_cells : py (option (list Z)) :=
  match blocks with
  | [] => Raise RuntimeError
  | (first, b) :: _ =>
      sizes ← mapM (fun '(axis, n) => axis_size first n axis) (imap pair (b_size b));
      _ ← mapM (fun axis => axis_size first 0 axis) (seq (length (b_size b)) (3 - length (b_size b)));
      Ret (mapM (M:=option) id sizes)
  end.
End block_size.

(** The columns: vertices, cells, and zeros. *)
Definition zone_dims (cells : list Z) : nparray := NpArray T_I4 [zlen cells; 3] true (map (fun n => wrap Prelude.I4 (wrap Prelude.I4 n + 1)) cells ++ map (wrap Prelude.I4) cells ++ map (fun _ => 0) cells).

Section recover.
Context `{ArrayEqual} `{parts_exchange} `{sub_numbering} (to_float32 : Z -> Z) (astype : cgns_type -> cgns_type -> Z -> Z) (d : dtype) (argsort : list Z -> list nat) (version : Z).

Definition intra1to1 (n : node) : bool := bool_decide (get_label n = "GridConnectivity1to1_t") && is_intra_gc (get_name n).
Definition light_of (intra_jn : node) : py light_join :=
  v ← get_value intra_jn false; donor ← PostSplit.text_of v; patch ← Subset_getPatch intra_jn; Ret (Light donor (get_raw patch)).
Definition block_of (part_zone : node) : py (string * block) :=
  s ← Zone_CellSize part_zone;
  r ← iter_children_from_predicates part_zone (QsList [EQuery (QStr "ZoneGridConnectivity_t"); EQuery (QPred intra1to1)]) no_kw;
  joins ← mapM light_of (PostSplit.nodes_of r);
  Ret (get_name part_zone, Block (shape_of_size s) joins).
Definition _recover_dist_block_size (part_zones : parts node) : py (option nparray) :=
  l ← mapM (mapM block_of) part_zones;
  cells ← block_cells (dict_of (concat l));
  Ret (option_map zone_dims cells).

(** ** Elements *)

Definition discover := discover_nodes_from_matching to_float32.
(** [ER[1] += dim_shift], in place and in the type of the array. *)
Definition shift_range (shift : Z) : st () :=
  on_first (fun c => match_name c "ElementRange") (fun n =>
    match get_raw n with
    | None => (n, Raise TypeError)
    | Some a => put_raw (Some (NpArray (a_type a) (a_shape a) (a_fcontiguous a) (map (fun x => Redistribute.cast_bound (a_type a) (x + shift)) (a_data a)))) n
    end).
Definition index_of (name : string) (l : list string) : py nat := of_option ValueError (fst <$> list_find (fun s => s = name) l).
Definition dimension_of (elt : node) : py nat := o ← Element_Dimension elt; z ← of_option TypeError o; Ret (Z.to_nat z).
Definition add_sizes (l : list (nat * Z)) : py (list Z) :=
  foldM (fun acc p => x ← of_option IndexError (acc !! p.1); Ret (<[p.1 := x + p.2]> acc)) [0; 0; 0; 0] l.
(** The sections of each dimension are numbered after those of the lower, or of the higher dimensions. *)
Definition shift_elements (n_increase : Z) : st () := fun dist_zone =>
  match (elts ← iter_children_from_label dist_zone (StrLabel "Elements_t") no_kw;
         sizes ← mapM (fun elt => dim ← dimension_of elt; n ← Element_Size elt; Ret (dim, n)) elts;
         n_elt_per_dim ← add_sizes sizes;
         Ret (map (fun p => if bool_decide (0 < n_increase) then zsum (take p.1 n_elt_per_dim) else zsum (drop (S p.1) n_elt_per_dim)) sizes)) with
  | Raise e => (dist_zone, Raise e)
  | Ret shifts => for_each (fun p => edit_at [p.1] (shift_range p.2)) (zip (Redistribute.positions (with_label "Elements_t") 0 (get_children dist_zone)) shifts) dist_zone
  end.
Definition count_z (x : Z) (l : list Z) : Z := zlen (filter (fun y => y = x) l).
Definition shift_nface (ngon_name nface_name : string) : st () :=
  n_face_tot ← reading_path (ngon_name +:+ "/ElementRange") (fun n => elem (get_raw n) 1);
  at_path nface_name (shift_range n_face_tot).
Definition _recover_elements (dist_zones : list node) (part_zones : parts node) : py (list node) :=
  fakes ← mapM (fun _ => (new_node to_float32 "Zone" "Zone_t" PNone [] None).2) dist_zones;
  fakes ← discover fakes part_zones (QsPath "Elements_t") [] "leaf" Ret;
  names ← common (map (fun z => get_names (get_children z)) fakes);
  kinds ← mapM (fun z => mapM Element_CGNSName (get_children z)) fakes; kinds ← common kinds;
  if bool_decide ("NGON_n" ∈ kinds) then
    _ ← py_assert (forallb (fun k => bool_decide (k ∈ ["NGON_n"; "NFACE_n"])) kinds);
    i ← index_of "NGON_n" kinds; ngon_name ← of_option IndexError (names !! i);
    dist_zones ← part_ngon_to_dist_ngon to_float32 astype d dist_zones part_zones ngon_name;
    if bool_decide ("NFACE_n" ∈ kinds) then
      i ← index_of "NFACE_n" kinds; nface_name ← of_option IndexError (names !! i);
      dist_zones ← part_nface_to_dist_nface to_float32 astype d dist_zones part_zones nface_name ngon_name;
      mapM (applied (shift_nface ngon_name nface_name)) dist_zones
    else Ret dist_zones
  else
    dist_zones ← foldM (fun zones name => part_elt_to_dist_elt to_float32 astype d zones part_zones name) dist_zones names;
    orders ← mapM (mapM Zone_elt_ordering_by_dim) part_zones;
    let n_increase := count_z 1 (concat orders) in let n_decrease := count_z (-1) (concat orders) in
    _ ← py_assert (bool_decide (n_increase * n_decrease = 0));
    mapM (applied (shift_elements n_increase)) dist_zones.

(** ** Boundary conditions and joins *)

Definition same_type (dist_zones : list node) : py string := ts ← mapM (fun z => t ← Zone_Type z; Ret (PostSplit.location_of t)) dist_zones; common ts.
Definition same_paths (qs : queries) (dist_zones : list node) : py (list string) := l ← mapM (fun z => predicates_to_paths z qs) dist_zones; common l.
Definition bc_predicate : queries := QsList [EQuery (QStr "ZoneBC_t"); EQuery (QStr "BC_t")].
Definition _recover_BC (dist_zones : list node) (part_zones : parts node) : py (list node) :=
  dist_zones ← discover dist_zones part_zones bc_predicate ["FamilyName_t"; "GridLocation_t"] "all" Ret;
  paths ← same_paths bc_predicate dist_zones;
  foldM (fun zones bc_path =>
    t ← same_type zones;
    if bool_decide (t = "Unstructured") then part_pl_to_dist_pl to_float32 astype d argsort zones part_zones bc_path false
    else if bool_decide (t = "Structured") then part_pr_to_dist_pr to_float32 d zones part_zones bc_path false
    else Ret zones) dist_zones paths.

(** The joins that are not those between the partitions. *)
Definition is_gc_intra (n : node) : bool := bool_decide (get_label n ∈ gc_labels) && negb (is_intra_gc (get_name n)).
Definition gc_predicate : queries := QsList [EQuery (QStr "ZoneGridConnectivity_t"); EQuery (QPred is_gc_intra)].
(** The names of the donors without the suffixes of the partitions. *)
Definition clean_donor : st () :=
  prefix ← reading (fun jn => v ← get_value jn false; s ← PostSplit.text_of v; get_part_prefix s);
  _ ← set_value to_float32 (PStr prefix);
  one ← reading GridConnectivity_is1to1;
  if (one : bool) then
    name ← reading (fun jn => c ← get_child_from_name jn "GridConnectivityDonorName" no_kw; v ← value_of c; s ← PostSplit.text_of v; get_split_prefix s);
    on_first (fun c => match_name c "GridConnectivityDonorName") (set_value to_float32 (PStr name))
  else mret ().
Definition gc_children : list string := ["GridLocation_t"; "GridConnectivityType_t"; "GridConnectivityProperty_t"; "GridConnectivityDonorName"; "Transform"].
Definition split_gcs (gc_path : string) (part : node) : py (list node) :=
  p ← split_path gc_path;
  r ← get_nodes_from_predicates part (QsList [EQuery (QStr p.1); EQuery (QStr (p.2 +:+ "*"))]) no_kw; Ret (PostSplit.nodes_of r).
Definition recover_join (part_zones : parts node) (zones : list node) (gc_path : string) : py (list node) :=
  t ← same_type zones;
  if bool_decide (t = "Unstructured") then part_pl_to_dist_pl to_float32 astype d argsort zones part_zones gc_path true
  else if bool_decide (t = "Structured") then
    gcs ← mapM (fun parts => l ← mapM (split_gcs gc_path) parts; Ret (concat l)) part_zones;
    if exists_everywhere gcs "PointRange" then part_pr_to_dist_pr to_float32 d zones part_zones gc_path true
    else if exists_everywhere gcs "PointList" then part_pl_to_dist_pl to_float32 astype d argsort zones part_zones gc_path true
    else Ret zones
  else Ret zones.
Definition _recover_GC (dist_zones : list node) (part_zones : parts node) : py (list node) :=
  dist_zones ← discover dist_zones part_zones gc_predicate gc_children "leaf" get_split_prefix;
  dist_zones ← mapM (applied (on_chain [with_label "ZoneGridConnectivity_t"; is_gc_intra] clean_donor)) dist_zones;
  paths ← same_paths gc_predicate dist_zones;
  foldM (recover_join part_zones) dist_zones paths.

(** ** Trees of joins *)

(** The zones of a path in the trees of the ranks, edited. *)
Definition on_zones_at (path : string) (f : list node -> py (list node)) (trees : list node) : py (list node) :=
  zones ← at_paths path trees; zones ← f zones;
  mapM (fun p : node * node => applied (at_path path (put_node p.2)) p.1) (zip trees zones).
Definition is_face_intra_gc (n : node) : bool :=
  bool_decide (get_label n ∈ ["GridConnectivity_t"; "GridConnectivity1to1_t"]) &&
  match Subset_GridLocation n with Ret loc => is_text loc "FaceCenter" | Raise _ => false end && negb (is_intra_gc (get_name n)).
Definition has_face_intra_gc (zone : node) : py bool :=
  n ← get_node_from_predicates zone (QsList [EQuery (QStr "ZoneGridConnectivity_t"); EQuery (QPred is_face_intra_gc)]) no_kw; Ret (negb (is_none n)).
Definition new_zone_in (base zone : string) : st () :=
  _ ← update to_float32 base "CGNSBase_t" None;
  on_first (fun c => match_name c base)
    (_ ← update to_float32 zone "Zone_t" None;
     on_first (fun c => match_name c zone) (under (new_node to_float32 "ZoneType" "ZoneType_t" (PStr "Unstructured") []))).
(** [parts_per_dom]: for each rank, its partitions of each distributed zone. *)
Definition _get_joins_dist_tree (parts_per_dom : list (dict (list node))) : py (list node) :=
  trees ← mapM (fun _ => new_CGNSTree to_float32 version) parts_per_dom;
  paths ← common (map (map fst) parts_per_dom);
  foldM (fun trees path =>
    p ← split_path path;
    part_zones ← mapM (dict_get path) parts_per_dom;
    trees ← mapM (applied (new_zone_in p.1 p.2)) trees;
    flags ← mapM (mapM has_face_intra_gc) part_zones;
    on_zones_at path (fun zones =>
      zones ← (if existsb id (concat flags) then _recover_elements zones part_zones else Ret zones);
      _recover_GC zones part_zones) trees) trees paths.
Definition get_joins_dist_tree (part_trees : list node) : py (list node) :=
  parts_per_dom ← get_parts_per_blocks to_float32 version part_trees; _get_joins_dist_tree parts_per_dom.

(** ** Iterative data *)

(** The names of the zones at an instant, from those of the partitions of the ranks. *)
Definition sorted_set (l : list string) : list string := sort_by String.leb (remove_dups l).
Definition instant_zones (part_zp : list (list (list string))) (i : nat) : py (list string) :=
  znames ← mapM (fun zp : list (list string) => of_option IndexError (zp !! i)) part_zp;
  names ← mapM get_part_prefix (filter (fun s => s <> "") (concat znames));
  Ret (sorted_set names).
Definition dist_pointers (part_zp : list (list (list string))) : py (list (list string)) :=
  first ← of_option IndexError (head part_zp); mapM (instant_zones part_zp) (seq 0 (length first)).
Definition zone_pointers (p_it_data : node) : py (option (list (list string))) :=
  n ← get_child_from_name p_it_data "ZonePointers" no_kw;
  match n with None => Ret None | Some n => v ← get_value n false; l ← PostSplit.instants v; Ret (Some l) end.
Definition put_pointers (dist_zp : list (list string)) : st () :=
  _ ← update to_float32 "ZonePointers" "DataArray_t" (Some (PStrss dist_zp));
  update to_float32 "NumberOfZones" "DataArray_t" (Some (PInts (map (fun k => Leaf (zlen k)) dist_zp))).
(** The iterative data of the base of a name on each rank: those of the partitions, when the distributed base has none. *)
Definition base_iterative (dist_trees part_trees : list node) (base : string) : py (list node) :=
  d_bases ← mapM (fun t => n ← get_child_from_name t base no_kw; of_option TypeError n) dist_trees;
  p_bases ← mapM (fun t => n ← get_child_from_name t base no_kw; of_option TypeError n) part_trees;
  p_its ← mapM (fun b => get_child_from_label b (StrLabel "BaseIterativeData_t") no_kw) p_bases;
  d_its ← mapM (fun b => get_child_from_label b (StrLabel "BaseIterativeData_t") no_kw) d_bases;
  wanted ← common (zip_with (fun p d : option node => negb (is_none p) && is_none d) p_its d_its);
  if (wanted : bool) then
    its ← mapM (of_option TypeError) p_its;
    zps ← mapM zone_pointers its;
    has ← common (map (fun o => negb (is_none o)) zps);
    its ← (if (has : bool) then dist_zp ← dist_pointers (omap id zps); mapM (applied (put_pointers dist_zp)) its else Ret its);
    mapM (fun p : node * node => applied (on_first (fun c => match_name c base) (add_child (Some p.2))) p.1) (zip dist_trees its)
  else Ret dist_trees.
Definition _recover_base_iterative_data (dist_trees part_trees : list node) : py (list node) :=
  names ← mapM (fun t => l ← get_all_CGNSBase_t t; Ret (get_names l)) dist_trees; names ← common names;
  foldM (fun trees base => base_iterative trees part_trees base) dist_trees names.

(** ** The whole tree *)

(** [None] stands for a walk between partitions that does not end. *)
Definition zone_size_of (t : string) (vtx_distri cell_distri : list partial) (part_zones : parts node) : py (option nparray) :=
  if bool_decide (t = "Unstructured") then
    v ← of_option IndexError (head vtx_distri); c ← of_option IndexError (head cell_distri);
    Ret (Some (NpArray T_I4 [1; 3] true (map (wrap Prelude.I4) [p_total v; p_total c; 0])))
  else if bool_decide (t = "Structured") then _recover_dist_block_size part_zones
  else Raise NameError.
Definition put_zone_distri (entities : list (string * partial)) : st () := newDistribution to_float32 (map (fun e => (e.1, partial_array d e.2)) entities).
Definition on_each_rank {A} (f : A -> st ()) (l : list A) (zones : list node) : py (list node) := mapM (fun p : A * node => applied (f p.1) p.2) (zip l zones).
Definition void_coords : st () :=
  under (new_GridCoordinates to_float32 astype "GridCoordinates" [("CoordinateX", PNone); ("CoordinateY", PNone); ("CoordinateZ", PNone)]).
Definition numbers_of (name : string) (part_zones : parts node) : py (parts (list Z)) := mapM (fun zones => collect_cgns_g_numbering d zones name "") part_zones.
Definition recover_zone (part_zones : parts node) (dist_zones : list node) : py (option (list node * parts node)) :=
  zones ← discover dist_zones part_zones (QsPath "ZoneIterativeData_t/*") [] "all" Ret;
  vtx_lngn_list ← numbers_of "Vertex" part_zones; cell_lngn_list ← numbers_of "Cell" part_zones;
  vtx_distri ← _lngn_to_distri vtx_lngn_list; cell_distri ← _lngn_to_distri cell_lngn_list;
  zones ← on_each_rank (fun p : partial * partial => put_zone_distri [("Vertex", p.1); ("Cell", p.2)]) (zip vtx_distri cell_distri) zones;
  t ← same_type zones;
  dims ← zone_size_of t vtx_distri cell_distri part_zones;
  match dims with
  | None => Ret None
  | Some dims =>
      zones ← (if bool_decide (t = "Structured" /\ head (a_shape dims) = Some 3) then
                 face_lngn_list ← numbers_of "Face" part_zones; face_distri ← _lngn_to_distri face_lngn_list;
                 on_each_rank (fun p => put_zone_distri [("Face", p)]) face_distri zones
               else Ret zones);
      zones ← mapM (applied (_ ← set_value to_float32 (PArray dims); void_coords)) zones;
      zones ← part_coords_to_dist_coords to_float32 d zones part_zones None;
      zones ← _recover_elements zones part_zones;
      zones ← _recover_BC zones part_zones;
      zones ← _recover_GC zones part_zones;
      s ← part_sol_to_dist_sol to_float32 astype d argsort zones part_zones [] [] None;
      s ← part_discdata_to_dist_discdata to_float32 astype d argsort s.1 s.2 [] [] None;
      s ← part_subregion_to_dist_subregion to_float32 astype d argsort s.1 s.2 [] [] None;
      Ret (Some s)
  end.
(** The partitions keep the numberings that were created. *)
Definition recover_at (trees : option (list node * list node)) (path : string) : py (option (list node * list node)) :=
  match trees with
  | None => Ret None
  | Some (dist_trees, part_trees) =>
      zones ← at_paths path dist_trees;
      refs ← mapM (fun t => partitioned_refs t path) part_trees;
      part_zones ← mapM (fun p : node * list ref => of_option IndexError (mapM (node_at p.1) p.2)) (zip part_trees refs);
      s ← recover_zone part_zones zones;
      match s with
      | None => Ret None
      | Some s =>
          dist_trees ← mapM (fun p : node * node => applied (at_path path (put_node p.2)) p.1) (zip dist_trees s.1);
          part_trees ← mapM (fun '(t, (rs, zs)) => applied (edit_all put_node (zip rs zs)) t) (zip part_trees (zip refs s.2));
          Ret (Some (dist_trees, part_trees))
      end
  end.
Definition recover_dist_tree (part_trees : list node) : py (option (list node)) :=
  trees ← mapM (fun _ => new_CGNSTree to_float32 version) part_trees;
  let roots := map (fun t => [t]) part_trees in
  trees ← discover trees roots (QsPath "CGNSBase_t") ["Family_t"] "ancestors" Ret;
  trees ← discover trees roots (QsPath "CGNSBase_t/Zone_t") ["ZoneType_t"; "FamilyName_t"; "AdditionalFamilyName_t"] "ancestors" get_part_prefix;
  trees ← _recover_base_iterative_data trees part_trees;
  paths ← same_paths (QsPath "CGNSBase_t/Zone_t") trees;
  out ← foldM recover_at (Some (trees, part_trees)) paths;
  match out with
  | None => Ret None
  | Some (trees, _) => trees ← mapM (applied (copy_donor_subset to_float32)) trees; Ret (Some trees)
  end.

(** [part_tree_to_dist_tree_all] of [part_to_dist/tree_api.py] *)
Definition part_tree_to_dist_tree_all (dist_trees part_trees : list node) : py (list node * list node) :=
  dist_trees ← _recover_base_iterative_data dist_trees part_trees;
  part_tree_to_dist_tree_only_labels to_float32 astype d argsort dist_trees part_trees LABELS.
End recover.
End DistFromPart.
