(* ===== verification/DistFromPartSpec.v ===== *)
(** * Size of a recovered block: theorems on DistFromPart

    The walks along the joins of the partitions of a structured block end, and give the numbers of cells of the block. *)
From S2P Require Import Prelude PyUtils NpUtils Values Conventions Fnmatch Tree Parsers Walkers Search Distribution Protocols Sids Refs Presets MaiaNodes Joins JoinsSpec Filters FullToDist FullToDistSpec Compatibility CompatibilitySpec BlockToBlock Redistribute RedistributeSpec PostSplit Transfer IndexExchange TransferSpec DistToPart Discover PartToDist FieldsSpec DistFromPart.

Local Open Scope Z_scope.

Module DistFromPartSpec.
Import NpUtils Values Conventions Tree Walkers Search Distribution Sids Refs Presets MaiaNodes Joins Transfer DistToPart PartToDist FieldsSpec DistFromPart.

(** The order in which a walk meets the partitions. *)
Definition ahead (w : way) (a b : Z) : Prop := match w with Front => a < b | Back => b < a end.
#[export] Instance ahead_dec w a b : Decision (ahead w a b).
Proof. destruct w; cbn; apply _. Defined.

Section block.
(** The first and the last cells of each partition along the axes, in a block of some numbers of cells. *)
Context (blocks : dict block) (lo hi : string -> nat -> Z) (cells : list Z).

(** A join leads to the next partition along its normal axis, or to the previous one when it is on the first vertices. *)
Definition good_join (name : string) (jn : light_join) : Prop :=
  exists axis c0 x, constant_axis (lj_range jn) = Ret (Z.of_nat axis) /\ column_of (lj_range jn) 0 = Ret c0 /\ c0 !! axis = Some x /\ (axis < length cells)%nat /\
    lj_donor jn ∈ map fst blocks /\ if decide (x = 1) then hi (lj_donor jn) axis = lo name axis else lo (lj_donor jn) axis = hi name axis.
(** The join is along the axis, on the first or on the last vertices. *)
Definition leaves (axis : nat) (w : way) (jn : light_join) : Prop :=
  exists c0 x, constant_axis (lj_range jn) = Ret (Z.of_nat axis) /\ column_of (lj_range jn) 0 = Ret c0 /\ c0 !! axis = Some x /\ goes w x = true.
(** A partition: a part of the block along each axis, with a join wherever it does not reach the end of the block. *)
Definition placed (p : string * block) : Prop :=
  length (b_size p.2) = length cells /\ Forall (good_join p.1) (b_joins p.2) /\
  forall axis n, cells !! axis = Some n -> b_size p.2 !! axis = Some (hi p.1 axis - lo p.1 axis) /\ 0 <= lo p.1 axis < hi p.1 axis /\ hi p.1 axis <= n /\
    (hi p.1 axis < n -> Exists (leaves axis Front) (b_joins p.2)) /\ (0 < lo p.1 axis -> Exists (leaves axis Back) (b_joins p.2)).

Context (Hnames : NoDup (map fst blocks)) (Hplaced : Forall placed blocks).

Lemma block_found name : name ∈ map fst blocks -> exists b, dict_get name blocks = Ret b /\ (name, b) ∈ blocks.
Proof using Hnames.
  clear -Hnames. intros Hn. apply list_elem_of_fmap in Hn as ([k b] & -> & Hin). exists b. split; [|done]. cbn [fst]. pose proof (dict_get_named fst snd blocks (k, b) Hnames Hin) as Hg. cbn [fst snd] in Hg. rewrite <- Hg. f_equal. clear. induction blocks as [|[? ?] l IH]; [done|]. cbn. by rewrite <- IH.
Qed.
(** What the loop on the joins finds. *)
Lemma next_cases name axis w joins : Forall (good_join name) joins ->
  (next_join axis w joins = Ret None /\ ~ Exists (leaves axis w) joins) \/
  exists jn, next_join axis w joins = Ret (Some (lj_donor jn)) /\ jn ∈ joins /\ leaves axis w jn.
Proof using Type.
  clear. induction joins as [|jn joins IH]; intros Hj; [left; split; [done|by intros Hx; apply Exists_nil in Hx]|]. apply Forall_cons in Hj as [(a & c0 & x & Ha & Hc & Hx & _) Hj]. cbn [next_join]. rewrite Ha. cbn [mbind py_bind]. rewrite Hc. cbn [mbind py_bind].
  destruct (IH Hj) as [[E Hn]|(j & E & Hin & Hl)].
  - destruct (decide (a = axis)) as [->|Hax].
    + rewrite bool_decide_eq_true_2 by done. rewrite Hx. cbn [of_option mbind py_bind]. destruct (goes w x) eqn:Eg; [right; exists jn; split; [done|]; split; [left|]; by exists c0, x|].
      left. split; [done|]. intros Hx'. apply Exists_cons in Hx' as [(c1 & y & _ & Hc1 & Hy & Hg)|Hx']; [|done]. rewrite Hc in Hc1. injection Hc1 as <-. rewrite Hx in Hy. injection Hy as <-. congruence.
    + rewrite bool_decide_eq_false_2 by lia. left. split; [done|]. intros Hx'. apply Exists_cons in Hx' as [(c1 & y & Ha' & _)|Hx']; [|done]. rewrite Ha in Ha'. injection Ha' as Ha'. lia.
  - destruct (decide (a = axis)) as [->|Hax].
    + rewrite bool_decide_eq_true_2 by done. rewrite Hx. cbn [of_option mbind py_bind]. right. destruct (goes w x) eqn:Eg; [exists jn; split; [done|]; split; [left|]; by exists c0, x|]. exists j. split; [done|]. split; [by right|done].
    + rewrite bool_decide_eq_false_2 by lia. right. exists j. split; [done|]. split; [by right|done].
Qed.
(** Where a join that leaves along an axis leads. *)
Lemma next_place name b axis w jn : (name, b) ∈ blocks -> jn ∈ b_joins b -> leaves axis w jn ->
  lj_donor jn ∈ map fst blocks /\ (axis < length cells)%nat /\ match w with Front => lo (lj_donor jn) axis = hi name axis | Back => hi (lj_donor jn) axis = lo name axis end.
Proof using Hplaced.
  clear -Hplaced. intros Hb Hj (c0 & x & Ha & Hc & Hx & Hg). rewrite Forall_forall in Hplaced. destruct (Hplaced _ Hb) as (_ & Hgood & _). rewrite Forall_forall in Hgood. destruct (Hgood jn Hj) as (a & c1 & y & Ha' & Hc' & Hy & Hlt & Hd & Hp). rewrite Ha in Ha'. injection Ha' as Ha'. assert (a = axis) as -> by lia.
  rewrite Hc in Hc'. injection Hc' as <-. rewrite Hx in Hy. injection Hy as <-. split; [done|]. split; [done|]. cbn [fst] in Hp. destruct w; cbn [goes] in Hg; apply bool_decide_eq_true in Hg; [by rewrite decide_False in Hp|by rewrite decide_True in Hp].
Qed.

(** The partitions after, or before, along an axis. *)
Definition beyond (axis : nat) (w : way) (name : string) : list string :=
  filter (fun k => ahead w (lo name axis) (lo k axis)) (map fst blocks).
Lemma beyond_smaller axis w name name' : name' ∈ map fst blocks -> ahead w (lo name axis) (lo name' axis) -> (length (beyond axis w name') < length (beyond axis w name))%nat.
Proof using Hnames.
  clear -Hnames. intros Hn Hlt. apply (Nat.lt_le_trans _ (length (name' :: beyond axis w name'))); [cbn; lia|]. apply submseteq_length, NoDup_submseteq.
  - apply NoDup_cons. split; [|by apply NoDup_filter]. intros [Hx _]%list_elem_of_filter. destruct w; cbn in Hx; lia.
  - intros k [->|[Hk Hin]%list_elem_of_filter]%elem_of_cons; apply list_elem_of_filter; (split; [destruct w; cbn in *; lia|done]).
Qed.
Lemma beyond_fuel axis w name : name ∈ map fst blocks -> (length (beyond axis w name) < length blocks)%nat.
Proof using Hnames.
  clear -Hnames. intros Hn. rewrite <- (length_map fst blocks). apply (Nat.lt_le_trans _ (length (name :: beyond axis w name))); [cbn; lia|]. apply submseteq_length, NoDup_submseteq.
  - apply NoDup_cons. split; [|by apply NoDup_filter]. intros [Hx _]%list_elem_of_filter. destruct w; cbn in Hx; lia.
  - intros k [->|[Hk Hin]%list_elem_of_filter]%elem_of_cons; done.
Qed.
(** The walk ends, with the cells between the partition and the end of the block. *)
Definition remaining (axis : nat) (n : Z) (w : way) (name : string) : Z := match w with Front => n - hi name axis | Back => lo name axis end.
Lemma walk_spec axis n w : cells !! axis = Some n -> forall fuel name, name ∈ map fst blocks -> (length (beyond axis w name) < fuel)%nat -> walk blocks fuel axis w name = Ret (Some (remaining axis n w name)).
Proof using All.
  intros Hn. induction fuel as [|fuel IH]; intros name Hin Hf; [lia|]. cbn [walk]. destruct (block_found name Hin) as (b & Eb & Hb). rewrite Eb. cbn [mbind py_bind].
  pose proof (proj1 (Forall_forall _ _) Hplaced _ Hb) as (_ & Hj & Hp). destruct (Hp axis n Hn) as (_ & Hlo & Hhi & Hfront & Hback). cbn [fst snd] in *.
  destruct (next_cases name axis w (b_joins b) Hj) as [[E He]|(jn & E & Hjn & Hl)]; rewrite E; cbn [mbind py_bind].
  - do 2 f_equal. unfold remaining. destruct w; [destruct (decide (hi name axis < n)); [by destruct He; apply Hfront|lia]|destruct (decide (0 < lo name axis)); [by destruct He; apply Hback|lia]].
  - destruct (next_place name b axis w jn Hb Hjn Hl) as (Hd & _ & Hplace). destruct (block_found _ Hd) as (b' & Eb' & Hb'). rewrite Eb'. cbn [mbind py_bind]. pose proof (proj1 (Forall_forall _ _) Hplaced _ Hb') as (_ & _ & Hp'). destruct (Hp' axis n Hn) as (Hs' & Hlo' & _). cbn [fst snd] in *. rewrite Hs'. cbn [of_option mbind py_bind].
    assert (Hlt : ahead w (lo name axis) (lo (lj_donor jn) axis)) by (destruct w; cbn; lia).
    pose proof (beyond_smaller axis w name (lj_donor jn) Hd Hlt). rewrite IH by (done || lia). cbn. do 2 f_equal. unfold remaining. destruct w; lia.
Qed.
(** There is no join along an axis that the block does not have. *)
Lemma walk_none axis w name : (length cells <= axis)%nat -> name ∈ map fst blocks -> walk blocks (length blocks) axis w name = Ret (Some 0).
Proof using All.
  intros Ha Hin. pose proof (beyond_fuel axis w name Hin) as Hfuel. destruct (length blocks) as [|fuel]; [lia|]. cbn [walk]. destruct (block_found name Hin) as (b & Eb & Hb). rewrite Eb. cbn [mbind py_bind].
  pose proof (proj1 (Forall_forall _ _) Hplaced _ Hb) as (_ & Hj & _). cbn [fst snd] in *. destruct (next_cases name axis w (b_joins b) Hj) as [[E He]|(jn & E & Hjn & Hl)]; rewrite E; [done|]. destruct (next_place name b axis w jn Hb Hjn Hl) as (_ & Hlt & _). lia.
Qed.
End block.

(** C31: The partitions of a structured block, joined one to the next along each axis: the walks from the first partition
    end, forwards and backwards, within as many steps as there are partitions, whatever joins they follow, and the
    numbers of cells that are summed are those of the whole block. *)
Theorem block_cells_spec (blocks : dict block) (lo hi : string -> nat -> Z) (cells : list Z)
    (Hne : blocks <> []) (Hnames : NoDup (map fst blocks)) (Hplaced : Forall (placed blocks lo hi cells) blocks) (Hdim : (length cells <= 3)%nat) :
  block_cells blocks = Ret (Some cells).
Proof.
  destruct blocks as [|[first b] rest] eqn:Eb; [done|]. rewrite <- Eb in *. assert (Hin : first ∈ map fst blocks) by (rewrite Eb; left). assert (Hb : (first, b) ∈ blocks) by (rewrite Eb; left).
  pose proof (proj1 (Forall_forall _ _) Hplaced _ Hb) as (Hl & _ & Hp). cbn [fst snd] in *.
  assert (Hs : mapM (fun '(axis, n) => axis_size blocks first n axis) (imap pair (b_size b)) = Ret (map Some cells)).
  { apply py_mapM_lookup; [by rewrite length_imap, length_map|]. intros i [axis n] out Hi Ho. rewrite list_lookup_imap in Hi. destruct (cells !! i) as [c|] eqn:Ec; [|rewrite lookup_ge_None_2 in Ho by (rewrite length_map; by apply lookup_ge_None in Ec); done].
    destruct (Hp i c Ec) as (Hsz & Hlo & _). rewrite Hsz in Hi. injection Hi as <- <-. rewrite (RedistributeSpec.map_lookup _ _ _ _ Ec) in Ho. injection Ho as <-. unfold axis_size, walk_fuel.
    rewrite (walk_spec blocks lo hi cells Hnames Hplaced i c Front Ec), (walk_spec blocks lo hi cells Hnames Hplaced i c Back Ec) by (done || by apply (beyond_fuel blocks lo)). cbn [mbind py_bind remaining]. do 2 f_equal. lia. }
  assert (Hx : exists l, mapM (fun axis => axis_size blocks first 0 axis) (seq (length (b_size b)) (3 - length (b_size b))) = Ret l).
  { rewrite Hl. assert (Hg : Forall (fun axis => (length cells <= axis)%nat) (seq (length cells) (3 - length cells))) by (apply Forall_forall; intros a Ha%elem_of_seq; lia). induction Hg as [|a l Ha Hg (out & IH)]; [by exists []|]. cbn [mapM].
    assert (Ea : axis_size blocks first 0 a = Ret (Some 0)) by (unfold axis_size, walk_fuel; by rewrite !(walk_none blocks lo hi cells Hnames Hplaced) by done). rewrite Ea. cbn [mbind py_bind]. rewrite IH. cbn. eauto. }
  assert (Hc : block_cells blocks = (sizes ← mapM (fun '(axis, n) => axis_size blocks first n axis) (imap pair (b_size b)); _ ← mapM (fun axis => axis_size blocks first 0 axis) (seq (length (b_size b)) (3 - length (b_size b))); Ret (mapM (M:=option) id sizes))) by (unfold block_cells; by rewrite Eb).
  rewrite Hc, Hs. cbn [mbind py_bind]. destruct Hx as (l & Hx). rewrite Hx. cbn [mbind py_bind]. f_equal. clear. induction cells as [|c cells IH]; [done|]. cbn [map mapM]. cbn. by rewrite IH.
Qed.

(** Two partitions joined along the first axis. *)
Definition ex_range (x : Z) : value := Some (NpArray T_I4 [3; 2] true [x; 1; 1; x; 4; 2]).
Definition ex_blocks : dict block :=
  [("Zone.P0.N0", Block [2; 3; 1] [Light "Zone.P1.N0" (ex_range 3)]); ("Zone.P1.N0", Block [4; 3; 1] [Light "Zone.P0.N0" (ex_range 1)])].
Definition ex_lo (name : string) (axis : nat) : Z := match axis with 0%nat => if String.eqb name "Zone.P0.N0" then 0 else 2 | _ => 0 end.
Definition ex_hi (name : string) (axis : nat) : Z := match axis with 0%nat => if String.eqb name "Zone.P0.N0" then 2 else 6 | 1%nat => 3 | _ => 1 end.
Lemma block_cells_spec_witness : block_cells ex_blocks = Ret (Some [6; 3; 1]).
Proof.
  apply (block_cells_spec ex_blocks ex_lo ex_hi [6; 3; 1]); [done|apply (bool_decide_unpack _); vm_compute; exact I| |cbn; lia].
  constructor; [|constructor; [|constructor]]; (split; [done|]).
  - split; [constructor; [|constructor]; exists 0%nat, [3; 1; 1], 3; repeat split; [cbn; lia|apply (bool_decide_unpack _); vm_compute; exact I]|].
    intros [|[|[|axis]]] n Hn; cbn in Hn; try done; injection Hn as <-; (split; [done|]); (split; [cbn; lia|]); (split; [cbn; lia|]); (split; [|cbn; lia]); cbn; try lia. intros _. apply Exists_cons_hd. by exists [3; 1; 1], 3.
  - split; [constructor; [|constructor]; exists 0%nat, [1; 1; 1], 1; repeat split; [cbn; lia|apply (bool_decide_unpack _); vm_compute; exact I]|].
    intros [|[|[|axis]]] n Hn; cbn in Hn; try done; injection Hn as <-; (split; [done|]); (split; [cbn; lia|]); (split; [cbn; lia|]); (split; [cbn; lia|]); cbn; try lia. intros _. apply Exists_cons_hd. by exists [1; 1; 1], 1.
Defined.
End DistFromPartSpec.
