(* ===== verification/Convert.v ===== *)
(** * Conversion of structured trees: the functions on nodes of [maia/algo/dist/s_to_u.py]

    StoU holds the arrays that the conversion computes; here are the nodes that hold them, and the loop of
    [convert_s_to_u] on the tree of one rank, which exchanges nothing with the other ranks.  The nodes that the code
    shares are followed: a data set belongs to the boundary condition it is read from and to all those it is added to, and
    the ranges of a join are made increasing in place.  An exception ends the conversion; the tree that it leaves
    half converted is not described. *)
From S2P Require Import Prelude PyUtils Numbering Slabs NpUtils PointRange Values Conventions Fnmatch Tree Parsers Walkers Search Sids Refs Presets PartZone StoU MaiaNodes Joins FixTree FullToDist PostSplit Redistribute Transfer.

Local Open Scope Z_scope.

Module Convert.
Import NpUtils Values Tree Walkers Search Sids Refs Presets MaiaNodes Joins FixTree FullToDist PostSplit Redistribute Transfer.

(** ** Searches *)

(** The places of the nodes that satisfy a predicate and are under no other one, in the order of the depth-first search: the
    search of [get_nodes_from_predicates], for a root that is not selected itself. *)
Fixpoint shallow_refs (p : node -> bool) (n : node) : list ref :=
  if p n then [[]] else
  let '(Node _ _ cs _) := n in
  (fix go (i : nat) (l : list node) : list ref := match l with [] => [] | c :: l' => map (cons i) (shallow_refs p c) ++ go (S i) l' end) 0%nat cs.
Definition refs_labelled (label : string) (n : node) : list ref := shallow_refs (with_label label) n.

(** ** Locations and arrays *)

Section convert.
Context `{ArrayEqual} (to_float32 : Z -> Z) (astype : cgns_type -> cgns_type -> Z -> Z) (d : dtype).
(** The code of 4.2, the rank and the number of ranks. *)
Context (version : Z) (i_rank n_rank : Z).

Definition read_loc (n : node) : py string := v ← Subset_GridLocation n; text_of v.
(** [get_output_loc], on the node. *)
Definition output_locs (subset_loc : list (string * StoU.loc_request)) (n : node) : py (list string) :=
  key ← StoU.label_to_key (get_label n);
  loc ← match (list_to_map subset_loc : gmap string StoU.loc_request) !! key with Some _ => Ret "" | None => read_loc n end;
  StoU.get_output_loc subset_loc (get_label n) loc.
Definition loc_to_name (loc : string) : py string :=
  if bool_decide (loc = "Vertex") then Ret "#Vtx"
  else if bool_decide (loc = "FaceCenter") then Ret "#Face"
  else if bool_decide (loc = "CellCenter") then Ret "#Cell"
  else Raise KeyError.
Definition suffix (locs : list string) (loc : string) : py string := if bool_decide (1 < length locs)%nat then loc_to_name loc else Ret "".

(** A point list is stored in the type of the sizes of its zone. *)
Definition row_array (t : cgns_type) (l : list Z) : pyval := PArray (NpArray t [1; zlen l] true (map (cast_bound t) l)).
Definition gnum_cast_array (l : list Z) : pyval := gnum_array d (map (wrap d) l).
Definition index_distribution (range : Z * Z) (size : Z) : st () := newDistribution to_float32 [("Index", gnum_cast_array [range.1; range.2; size])].
(** The number of vertices of a zone, with the type of the array. *)
Definition vertex_size (zone : node) : py (zsize * cgns_type) := s ← Zone_VertexSize zone; a ← array_of (get_raw zone); Ret (s, a_type a).

(** ** Boundary conditions *)

Definition face_locations : list string := ["IFaceCenter"; "JFaceCenter"; "KFaceCenter"].
(** A data set of a boundary condition: its points, unless they are those of the boundary condition. *)
Definition convert_dataset (bc_s : node) (input_loc : string) (bnd_axis : nat) (n_vtx : Numbering.triplet) (t : cgns_type) (output_loc : string) (bcds : node) : py node :=
  own ← get_child_from_name bcds "PointRange" no_kw;
  r ← match own with
      | Some pr => distri ← distri_raw "Index" bcds; loc ← read_loc bcds; Ret (pr, distri, loc)
      | None => pr ← get_child_from_name bc_s "PointRange" no_kw; pr ← of_option TypeError pr; distri ← distri_raw "Index" bc_s; Ret (pr, distri, input_loc)
      end;
  let '(ds_point_range, ds_distri, ds_loc) := r in
  ds_size ← PointRange_SizePerIndex ds_point_range;
  start ← py_get (a_data ds_distri) 0;
  stop ← py_get (a_data ds_distri) 1;
  ds_slabs ← Slabs.compute_slabs ds_size (start, stop);
  rows ← range_of (get_raw ds_point_range);
  ds_sub_pr_list ← mapM (StoU.sub_range rows) ds_slabs;
  let ds_output_loc := if bool_decide (ds_loc ∈ face_locations) then "FaceCenter" else ds_loc in
  bcds ← (if is_none own && bool_decide (ds_output_loc = output_loc) then Ret bcds else
            loc ← StoU._s_location ds_output_loc bnd_axis;
            boxes ← mapM StoU.to_box ds_sub_pr_list;
            ds_pl ← PointRange.compute_pointList_from_pointRanges boxes n_vtx loc "F";
            applied (_ ← update to_float32 "GridLocation" "GridLocation_t" (Some (PStr ds_output_loc));
                     _ ← under (new_IndexArray to_float32 "PointList" (row_array t ds_pl));
                     newDistribution to_float32 [("Index", PArray ds_distri)]) bcds);
  applied (rm_named "PointRange") bcds.

(** The boundary condition with its data sets edited, and the converted one. *)
Definition bc_s_to_bc_u (n_vtx : Numbering.triplet) (t : cgns_type) (output_loc : string) (bc_s : node) : py (node * node) :=
  input_loc ← read_loc bc_s;
  point_range ← range_at "PointRange" bc_s;
  bnd_axis ← Subset_normal_axis bc_s;
  s ← StoU.bc_s_to_bc_u input_loc point_range n_vtx output_loc i_rank n_rank;
  v ← get_value bc_s false;
  v ← arg_of v;
  bc_u ← (new_node to_float32 (get_name bc_s) (get_label bc_s) v [] None).2;
  bc_u ← applied (_ ← under (new_GridLocation to_float32 output_loc); under (new_IndexArray to_float32 "PointList" (row_array t (StoU.us_points s)))) bc_u;
  idx ← positions_where (label_is "BCDataSet_t") 0 (get_children bc_s);
  r ← foldM (fun p i =>
        bcds ← of_option IndexError (get_children p.1 !! i);
        bcds ← convert_dataset p.1 input_loc (Z.to_nat bnd_axis) n_vtx t output_loc bcds;
        bc_u ← applied (add_child (Some bcds)) p.2;
        Ret (put_child i bcds p.1, bc_u)) (bc_s, bc_u) idx;
  bc_u ← applied (_ ← index_distribution (StoU.us_range s) (StoU.us_size s);
                  add_nodes (filter (fun c => get_label c = "FamilyName_t") (get_children r.1))) r.2;
  Ret (r.1, bc_u).

(** The data sets of the converted boundary conditions are those of the original one, after the last conversion. *)
Fixpoint refresh (ds cs : list node) : list node :=
  match cs with
  | [] => []
  | c :: cs' => if with_label "BCDataSet_t" c then match ds with x :: ds' => x :: refresh ds' cs' | [] => c :: refresh [] cs' end else c :: refresh ds cs'
  end.
Definition with_datasets (bc_s bc_u : node) : node :=
  let '(Node name v cs label) := bc_u in Node name v (refresh (filter (fun c => with_label "BCDataSet_t" c = true) (get_children bc_s)) cs) label.
(** A subset converted to each of its output locations; [more]: what is added to each result. *)
Definition convert_bc (subset_loc : list (string * StoU.loc_request)) (n_vtx : Numbering.triplet) (t : cgns_type) (more : st ()) (bc_s : node) : py (list node) :=
  out_loc_l ← output_locs subset_loc bc_s;
  r ← foldM (fun p out_loc =>
        sfx ← suffix out_loc_l out_loc;
        q ← bc_s_to_bc_u n_vtx t out_loc p.1;
        bc_u ← applied (_ ← set_name (get_name q.2 +:+ sfx); more) q.2;
        Ret (q.1, p.2 ++ [bc_u])) (bc_s, []) out_loc_l;
  Ret (map (with_datasets r.1) r.2).

(** ** Joins *)

Definition optional_text (v : read_value) : py (option string) :=
  match v with Text (Str s) => Ret (Some s) | Raw None => Ret None | _ => Raise TypeError end.
Definition kept_in_join (n : node) : bool := bool_decide (get_name n = donor_name) || bool_decide (get_label n = "GridConnectivityProperty_t").
(** The join with its ranges made increasing, and the converted one. *)
Definition gc_s_to_gc_u (zone_path : string) (n_vtx : Numbering.triplet) (t : cgns_type) (opp : zsize * cgns_type) (output_loc : string) (gc_s : node) : py (node * node) :=
  loc ← read_loc gc_s;
  _ ← py_assert (bool_decide (loc = "Vertex"));
  transform ← GridConnectivity_Transform gc_s;
  let T := transform_matrix transform in
  point_range ← range_at "PointRange" gc_s;
  point_range_opp ← range_at "PointRangeDonor" gc_s;
  is_ref ← is_reference gc_s zone_path;
  opp_path ← GridConnectivity_ZoneDonorPath gc_s (path_head zone_path (-1));
  n_vtx_opp ← triplet_of opp.1;
  r ← StoU.gc_s_to_gc_u zone_path opp_path loc T point_range point_range_opp n_vtx n_vtx_opp output_loc i_rank n_rank;
  let '(point_list, point_list_opp, gc_range, size) := r in
  let '(pr, prd) := if (is_ref : bool) then StoU.orient T point_range point_range_opp
                    else let '(b, a) := StoU.orient (PartZone.transpose T) point_range_opp point_range in (a, b) in
  gc_s ← applied (_ ← on_first (fun c => match_name c "PointRange") (put_range pr); on_first (fun c => match_name c "PointRangeDonor") (put_range prd)) gc_s;
  v ← get_value gc_s false;
  donor ← optional_text v;
  gc_u ← (new_GridConnectivity to_float32 (get_name gc_s) donor "Abutting1to1" (Some output_loc) None None None None None).2;
  gc_u ← applied (_ ← under (new_IndexArray to_float32 "PointList" (row_array t point_list));
                  _ ← under (new_IndexArray to_float32 "PointListDonor" (row_array opp.2 point_list_opp));
                  _ ← index_distribution gc_range size;
                  add_nodes (List.filter kept_in_join (get_children gc_s))) gc_u;
  Ret (gc_s, gc_u).
Definition convert_gc (subset_loc : list (string * StoU.loc_request)) (sizes : dict (zsize * cgns_type)) (base_name zone_path : string) (n_vtx : Numbering.triplet) (t : cgns_type) (gc_s : node) : py (list node) :=
  out_loc_l ← output_locs subset_loc gc_s;
  opp_zone_path ← GridConnectivity_ZoneDonorPath gc_s base_name;
  opp ← dict_get opp_zone_path sizes;
  r ← foldM (fun p out_loc =>
        sfx ← suffix out_loc_l out_loc;
        q ← gc_s_to_gc_u zone_path n_vtx t opp out_loc p.1;
        gc_u ← applied (set_name (get_name q.2 +:+ sfx)) q.2;
        Ret (q.1, p.2 ++ [gc_u])) (gc_s, []) out_loc_l;
  Ret r.2.

Definition is_gc_of (kind : string) (n : node) : py bool :=
  if bool_decide (get_label n = "GridConnectivity_t") then v ← GridConnectivity_Type n; Ret (is_text v kind) else Ret false.
Definition is_abutt : node -> py bool := is_gc_of "Abutting".
Definition is_abutt1to1 : node -> py bool := is_gc_of "Abutting1to1".
(** The loop on the children that satisfy a predicate, which is evaluated when the loop reaches them. *)
Definition collect_where (p : node -> py bool) (f : node -> py (list node)) (cs : list node) : py (list node) :=
  foldM (fun out c => b ← p c; if (b : bool) then l ← f c; Ret (out ++ l) else Ret out) [] cs.
Definition converted_joins (subset_loc : list (string * StoU.loc_request)) (sizes : dict (zsize * cgns_type)) (base_name zone_path : string) (n_vtx : Numbering.triplet) (t : cgns_type) (zonegc_s : node) : py (list node) :=
  matching ← collect_where (label_is "GridConnectivity1to1_t") (convert_gc subset_loc sizes base_name zone_path n_vtx t) (get_children zonegc_s);
  abutting ← collect_where is_abutt (convert_bc subset_loc n_vtx t (under (new_GridConnectivityType to_float32 "Abutting"))) (get_children zonegc_s);
  Ret (matching ++ abutting).

(** ** Joins between structured and unstructured zones *)

Definition same_points (v : value) (pl : nparray) : bool := bool_decide (asarray v = asarray (Some pl)).
(** The first join of the opposite zone that leads back here with the same points. *)
Fixpoint update_opposite (opp_base zone_path : string) (pl : nparray) (pl_idx : pyval) (refs : list ref) (opp_zone : node) : node * py () :=
  match refs with
  | [] => (opp_zone, Raise RuntimeError)
  | r :: refs' =>
      match (opp_jn ← of_option TypeError (node_at opp_zone r);
             path ← GridConnectivity_ZoneDonorPath opp_jn opp_base;
             if bool_decide (path = zone_path) then
               pld_n ← get_child_from_name opp_jn "PointListDonor" no_kw;
               Ret (match pld_n with Some pld_n => same_points (get_raw pld_n) pl | None => false end)
             else Ret false) with
      | Raise e => (opp_zone, Raise e)
      | Ret true => edit_at r (on_first (fun c => match_name c "PointListDonor") (update_node to_float32 None None (Some pl_idx) None)) opp_zone
      | Ret false => update_opposite opp_base zone_path pl pl_idx refs' opp_zone
      end
  end.
(** The structured side: its points become indices. *)
Definition update_points (loc : string) (pl_idx : pyval) : st () := fun gc =>
  (_ ← (if StoU.contains "FaceCenter" loc then fun gc => let '(gc', r) := update_child to_float32 gc "GridLocation" None (Some (PStr "FaceCenter")) None in (gc', _ ← r; Ret ()) else mret ());
   on_first (fun c => match_name c "PointList") (update_node to_float32 None None (Some pl_idx) None)) gc.
Definition convert_hybrid (sizes : dict (zsize * cgns_type)) (base_name zone_path : string) (r : ref) : st () :=
  gc_s ← reading (fun tree => of_option IndexError (node_at tree r));
  b ← st_lift (is_abutt1to1 gc_s);
  if (b : bool) then
    opp_zone_path ← st_lift (GridConnectivity_ZoneDonorPath gc_s base_name);
    opp ← reading (fun tree => of_option TypeError (ref_of_path tree opp_zone_path));
    kind ← reading (fun tree => opp_zone ← of_option TypeError (node_at tree opp); Zone_Type opp_zone);
    if is_text kind "Unstructured" then
      loc ← st_lift (read_loc gc_s);
      pl ← st_lift (v ← raw_child gc_s "PointList"; array_of v);
      points ← st_lift (columns3 pl);
      size ← st_lift (dict_get zone_path sizes);
      n_vtx ← st_lift (triplet_of size.1);
      idx ← st_lift (indices_of loc n_vtx points);
      let pl_idx := row_array (a_type pl) idx in
      _ ← edit_at r (update_points loc pl_idx);
      edit_at opp (fun opp_zone => update_opposite (path_head opp_zone_path 1) zone_path pl pl_idx (refs_labelled "GridConnectivity_t" opp_zone) opp_zone)
    else mret ()
  else mret ().

(** ** Zones and trees *)

Definition extend_children (l : list node) : st () := fun '(Node name v cs label) => (Node name v (cs ++ l) label, Ret ()).
Definition holds (p : node -> py bool) (n : node) : bool := match p n with Ret b => b | Raise _ => false end.

(** The node of the faces of the zone. *)
Definition ngon_node (n_vtx : Numbering.triplet) : py node :=
  g ← StoU.zonedims_to_ngon n_vtx i_rank n_rank;
  let pe := PArray (NpArray (gnum_type d) [zlen (StoU.ng_pe g); 2] true (map (wrap d) (map fst (StoU.ng_pe g) ++ map snd (StoU.ng_pe g)))) in
  n ← (new_NGonElements to_float32 astype "NGonElements" (Some (gnum_cast_array [(StoU.ng_range g).1; (StoU.ng_range g).2])) (Some (gnum_cast_array (StoU.ng_eso g)))
         (Some (gnum_cast_array (StoU.ng_ec g))) (Some pe) None None).2;
  let '(a, b, total) := StoU.ng_distri g in
  applied (newDistribution to_float32 [("Element", gnum_cast_array [a; b; total]); ("ElementConnectivity", gnum_cast_array [4 * a; 4 * b; 4 * total])]) n.
(** [np.prod(zone_dims_s, axis=0, dtype=zone_dims_s.dtype).reshape(1,-1)] *)
Definition unstructured_size (zone : node) : py pyval :=
  a ← array_of (get_raw zone);
  match a_shape a with
  | [n; k] => Ret (PArray (NpArray (a_type a) [1; k] true (map (fun col => cast_bound (a_type a) (zprod col)) (blocks (Z.to_nat n) (Z.to_nat k) (a_data a)))))
  | _ => Raise IndexError
  end.
Definition no_partial_solution (sol : node) : py () :=
  patch ← get_child_from_predicate sol (QPred (fun n => bool_decide (get_name n ∈ ["PointRange"; "PointList"]))) no_kw; py_assert (is_none patch).
Definition convert_zone_bc (subset_loc : list (string * StoU.loc_request)) (n_vtx : Numbering.triplet) (t : cgns_type) (zonebc_s : node) : py node :=
  bc_u_list ← collect_where (label_is "BC_t") (convert_bc subset_loc n_vtx t (mret ())) (get_children zonebc_s);
  applied (_ ← rm_where (with_label "BC_t"); extend_children bc_u_list) zonebc_s.
(** What is done before the joins; the number of vertices is returned. *)
Definition convert_elements (subset_loc : list (string * StoU.loc_request)) : st (Numbering.triplet * cgns_type) :=
  zone_dims_u ← reading unstructured_size;
  size ← reading vertex_size;
  _ ← update to_float32 "ZoneType" "ZoneType_t" (Some (PStr "Unstructured"));
  _ ← set_value to_float32 zone_dims_u;
  _ ← reading (fun zone => sols ← iter_children_from_label zone (StrLabel "FlowSolution_t") no_kw; mapM no_partial_solution sols);
  n_vtx ← st_lift (triplet_of size.1);
  ngon ← st_lift (ngon_node n_vtx);
  _ ← add_child (Some ngon);
  zonebc_s ← reading (fun zone => get_child_from_label zone (StrLabel "ZoneBC_t") no_kw);
  _ ← match zonebc_s with
      | Some zonebc_s => zonebc_u ← st_lift (convert_zone_bc subset_loc n_vtx size.2 zonebc_s); on_first (with_label "ZoneBC_t") (fun _ => (zonebc_u, Ret ()))
      | None => mret ()
      end;
  mret (n_vtx, size.2).

(** The joins of a node of the zone at the place [r] of the tree; the structured ones are replaced. *)
Definition convert_zone_gc (subset_loc : list (string * StoU.loc_request)) (sizes : dict (zsize * cgns_type)) (base_name zone_path : string) (n_vtx : Numbering.triplet) (t : cgns_type) (r : ref) : st () :=
  zonegc_s ← reading (fun tree => of_option IndexError (node_at tree r));
  gc_u_list ← st_lift (converted_joins subset_loc sizes base_name zone_path n_vtx t zonegc_s);
  _ ← for_each (fun i => convert_hybrid sizes base_name zone_path (r ++ [i])) (seq 0 (length (get_children zonegc_s)));
  edit_at r (_ ← rm_where (holds is_abutt); _ ← rm_where (with_label "GridConnectivity1to1_t"); extend_children gc_u_list).
Definition rm_face_distribution : st () :=
  distri ← reading (fun zone => getDistribution zone None);
  match distri with
  | Some _ => on_first (fun c => match_name c distri_name) (rm_named "Face")
  | None => st_raise TypeError
  end.
Definition convert_zone (subset_loc : list (string * StoU.loc_request)) (sizes : dict (zsize * cgns_type)) (base_name zone_name : string) (r : ref) : st () :=
  p ← edit_at r (convert_elements subset_loc);
  let zone_path := PostSplit.zone_path base_name zone_name in
  zone ← reading (fun tree => of_option IndexError (node_at tree r));
  idx ← st_lift (positions_where (label_is "ZoneGridConnectivity_t") 0 (get_children zone));
  _ ← for_each (fun i => convert_zone_gc subset_loc sizes base_name zone_path p.1 p.2 (r ++ [i])) idx;
  edit_at r rm_face_distribution.

Definition zone_refs (tree : node) : py (list ref) :=
  if bool_decide (get_label tree = "CGNSTree_t") then refs_where [label_is "CGNSBase_t"; label_is "Zone_t"] tree else Ret [].
Definition vertex_sizes (tree : node) : py (dict (zsize * cgns_type)) :=
  paths ← predicates_to_paths tree (QsPath "CGNSBase_t/Zone_t");
  l ← mapM (fun path => zone ← of_option TypeError (get_node_from_path tree path); size ← vertex_size zone; Ret (path, size)) paths;
  Ret (dict_of l).
Definition visit_zone (subset_loc : list (string * StoU.loc_request)) (sizes : dict (zsize * cgns_type)) (r : ref) : st () :=
  zone ← reading (fun tree => of_option IndexError (node_at tree r));
  base ← reading (fun tree => of_option IndexError (node_at tree (take 1 r)));
  kind ← st_lift (Zone_Type zone);
  if is_text kind "Unstructured" then mret ()
  else if is_text kind "Structured" then convert_zone subset_loc sizes (get_name base) (get_name zone) r
  else mret ().
Definition convert_s_to_u (subset_loc : list (string * StoU.loc_request)) : st () :=
  sizes ← reading vertex_sizes;
  _ ← update to_float32 "CGNSLibraryVersion" "CGNSLibraryVersion_t" (Some (PFloat version));
  rs ← reading zone_refs;
  for_each (visit_zone subset_loc sizes) rs.
Definition convert_s_to_ngon : st () := convert_s_to_u [("BC_t", StoU.OneLoc "FaceCenter"); ("GC_t", StoU.OneLoc "FaceCenter")].
End convert.
End Convert.
