(* ===== verification/ConvertSpec.v ===== *)
(** * Conversion of structured trees: what is converted, what is kept

    The conversion changes the zones one by one, and the joins of a zone with an unstructured one also change this other
    zone.  Every edit but the conversion of the zone itself is deep enough to keep the types and sizes of the zones. *)
From Stdlib Require Import Ascii.
From S2P Require Import Prelude PyUtils Numbering NpUtils Values Conventions Fnmatch Tree Parsers Walkers Search Sids Refs Presets StoU MaiaNodes Joins FixTree FullToDist PostSplit Redistribute Transfer Convert.

Local Open Scope Z_scope.

Module ConvertSpec.
Import Values Tree Walkers Search Sids Refs Presets MaiaNodes Joins FixTree FullToDist PostSplit Redistribute Transfer Convert.

(** ** Edits at some depth *)

Definition same_head (n n' : node) : Prop := get_name n = get_name n' /\ get_raw n = get_raw n' /\ get_label n = get_label n'.
(** The nodes of the [k] first levels under the root have the same name, value and label. *)
Abbreviation same_to k := (same_above k same_head).

Lemma same_head_refl n : same_head n n.
Proof. done. Qed.
Lemma same_head_trans a b c : same_head a b -> same_head b c -> same_head a c.
Proof. intros (? & ? & ?) (? & ? & ?). repeat split; congruence. Qed.
Lemma same_to_refl k n : same_to k n n.
Proof. by apply same_above_refl. Qed.
Lemma same_to_trans k a b c : same_to k a b -> same_to k b c -> same_to k a c.
Proof. apply same_above_trans, same_head_trans. Qed.
Lemma same_to_head k n n' : same_to k n n' -> same_head n n'.
Proof. destruct k; [done|]. by intros (? & ? & ? & _). Qed.
Lemma same_to_less k j n n' : (j <= k)%nat -> same_to k n n' -> same_to j n n'.
Proof.
  revert j n n'. induction k as [|k IH]; intros [|j] n n' Hj Hs; [done|lia|by apply (same_to_head (S k))|]. destruct Hs as (? & ? & ? & Hc). repeat split; try done.
  eapply Forall2_impl; [exact Hc|]. intros a b. apply IH. lia.
Qed.
Lemma same_above_add j k n n' : same_above j (same_to k) n n' -> same_to (j + k) n n'.
Proof.
  revert n n'. induction j as [|j IH]; intros n n'; [done|]. cbn. intros (? & ? & ? & Hc). repeat split; try done. eapply Forall2_impl; [exact Hc|done].
Qed.
Lemma edit_at_rel {A} R r (f : st A) n : (forall c, R c c) -> (forall c, node_at n r = Some c -> R c (f c).1) -> same_above (length r) R n (edit_at r f n).1.
Proof.
  intros Hr. revert n. induction r as [|i r IH]; intros n HR; [by apply HR|]. cbn [edit_at length node_at] in *. destruct (get_children n !! i) as [c|] eqn:Ec; [|by apply (same_above_refl (S (length r)))].
  specialize (IH c HR). destruct (edit_at r f c) as [c' res]. destruct n as [nm v cs l]. cbn [fst same_above get_name get_raw get_label get_children] in *.
  repeat split; []. apply Forall2_same_length_lookup_2; [by rewrite length_insert|]. intros j x y Hx Hy. destruct (decide (i = j)) as [<-|Hn].
  - rewrite list_lookup_insert_eq in Hy by by eapply lookup_lt_Some. congruence.
  - rewrite list_lookup_insert_ne in Hy by done. assert (x = y) as -> by congruence. by apply same_above_refl.
Qed.
Lemma edit_at_found {A} r (f : st A) n n' a : edit_at r f n = (n', Ret a) -> exists c, node_at n r = Some c /\ f c = ((f c).1, Ret a) /\ node_at n' r = Some (f c).1.
Proof.
  revert n n'. induction r as [|i r IH]; intros n n' He; [exists n; cbn in *; by rewrite He|]. cbn [edit_at node_at] in *. destruct (get_children n !! i) as [d|] eqn:Ed; [|done].
  destruct (edit_at r f d) as [d' res] eqn:Er. destruct n as [nm v cs l]. injection He as <- ->. destruct (IH d d' Er) as (c & Hc & Hf & Hd). exists c. cbn [get_children] in *.
  by rewrite list_lookup_insert_eq by by eapply lookup_lt_Some.
Qed.
Lemma edit_at_apart {A} r r' (f : st A) n : length r = length r' -> r <> r' -> node_at (edit_at r f n).1 r' = node_at n r'.
Proof.
  revert r' n. induction r as [|i r IH]; intros [|j r'] n Hl Hn; try done. cbn [edit_at node_at]. destruct (get_children n !! i) as [c|] eqn:Ed; [|done].
  destruct (decide (i = j)) as [->|Hij].
  - specialize (IH r' c). destruct (edit_at r f c) as [d' res]. destruct n as [nm v cs l]. cbn [fst get_children] in *.
    rewrite list_lookup_insert_eq by by eapply lookup_lt_Some. rewrite Ed. apply IH; [by injection Hl|congruence].
  - destruct (edit_at r f c) as [d' res]. destruct n as [nm v cs l]. cbn [fst get_children] in *. by rewrite list_lookup_insert_ne.
Qed.

(** A transformer that changes nothing on the [k] first levels, whether it raises or not. *)
Definition keeps {A} (k : nat) (m : st A) : Prop := forall n, same_to k n (m n).1.
Lemma keeps_ret {A} k (a : A) : keeps k (mret a).
Proof. intros n. apply same_to_refl. Qed.
Lemma keeps_lift {A} k (m : py A) : keeps k (st_lift m).
Proof. intros n. apply same_to_refl. Qed.
Lemma keeps_reading {A} k (m : node -> py A) : keeps k (reading m).
Proof. intros n. apply same_to_refl. Qed.
Lemma keeps_raise {A} k (e : exn) : keeps k (@st_raise A e).
Proof. intros n. apply same_to_refl. Qed.
Lemma keeps_bind {A B} k (m : st A) (f : A -> st B) : keeps k m -> (forall a, keeps k (f a)) -> keeps k (m ≫= f).
Proof.
  intros Hm Hf n. unfold mbind, st_bind. specialize (Hm n). destruct (m n) as [n' [a|e]]; [|done]. eapply same_to_trans; [exact Hm|apply Hf].
Qed.
Lemma keeps_for_each {A} k (f : A -> st ()) l : (forall a, keeps k (f a)) -> keeps k (for_each f l).
Proof. intros Hf. induction l as [|a l IH]; [apply keeps_ret|]. cbn [for_each]. by apply keeps_bind. Qed.
Lemma keeps_edit_at {A} j k r (f : st A) : (k <= length r + j)%nat -> keeps j f -> keeps k (edit_at r f).
Proof.
  intros Hk Hf n. eapply same_to_less; [exact Hk|]. apply same_above_add, edit_at_rel; [apply same_to_refl|]. intros c _. apply Hf.
Qed.
Lemma first_child_same {A} k p (f : st A) n :
  (forall i c, find_child p (get_children n) = Some i -> get_children n !! i = Some c -> same_to k c (f c).1) -> same_to (S k) n (on_first p f n).1.
Proof.
  intros Hf. unfold on_first. destruct (find_child p (get_children n)) as [i|] eqn:Ei; [|apply (same_to_refl (S k))]. destruct (get_children n !! i) as [c|] eqn:Ec; [|apply (same_to_refl (S k))].
  specialize (Hf i c eq_refl Ec). destruct (f c) as [c' r]. destruct n as [nm v cs l]. cbn [fst get_children same_above get_name get_raw get_label] in *. repeat split.
  apply Forall2_same_length_lookup_2; [by rewrite length_insert|]. intros j x y Hx Hy. destruct (decide (i = j)) as [<-|Hn].
  - rewrite list_lookup_insert_eq in Hy by by eapply lookup_lt_Some. congruence.
  - rewrite list_lookup_insert_ne in Hy by done. assert (x = y) as -> by congruence. by apply same_above_refl.
Qed.
Lemma keeps_on_first {A} k p (f : st A) : keeps k f -> keeps (S k) (on_first p f).
Proof. intros Hf n. apply first_child_same. intros. apply Hf. Qed.
Lemma keeps_head_of {A} (m : st A) : (forall nm v cs l, exists cs', (m (Node nm v cs l)).1 = Node nm v cs' l) -> keeps 0 m.
Proof. intros Hm [nm v cs l]. destruct (Hm nm v cs l) as [cs' ->]. done. Qed.
Lemma keeps_head_on_first {A} p (f : st A) : keeps 0 (on_first p f).
Proof.
  apply keeps_head_of. intros nm v cs l. unfold on_first. cbn [get_children]. destruct (find_child p cs) as [i|]; [|by exists cs]. destruct (cs !! i) as [c|]; [|by exists cs].
  destruct (f c) as [c' r]. by exists (<[i:=c']> cs).
Qed.
Create HintDb keeps.
#[local] Hint Resolve keeps_ret keeps_lift keeps_reading keeps_raise keeps_head_on_first : keeps.
Ltac keeping := repeat match goal with
  | |- keeps _ (mbind _ _) => apply keeps_bind; [|intros]
  | |- keeps _ (for_each _ _) => apply keeps_for_each; intros
  | |- keeps _ (match ?x with _ => _ end) => destruct x
  | |- keeps _ _ => solve [auto with keeps]
  end.

(** ** Joins *)

Lemma split_two l acc : "/"%char ∈ l -> (2 <= length (split_chars "/"%char acc l))%nat.
Proof.
  revert acc. induction l as [|c l IH]; intros acc Hin; [by apply elem_of_nil in Hin|]. cbn [split_chars]. case_bool_decide as Hc.
  - cbn [length]. assert (forall a m, (1 <= length (split_chars "/"%char a m))%nat); [|specialize (H [] l); lia]. clear. intros a m. revert a. induction m as [|c m IH]; intros a; [done|]. cbn. case_bool_decide; [cbn; lia|apply IH].
  - apply IH. apply elem_of_cons in Hin as [E|Hin]; [by subst|done].
Qed.
Lemma donor_path_deep base s tree r : ref_of_path tree (donor_path base s) = Some r -> (2 <= length r)%nat.
Proof.
  intros Hr. assert (Hs : "/"%char ∈ String.list_ascii_of_string (donor_path base s)).
  { unfold donor_path. destruct (has_slash s) eqn:E; [by apply bool_decide_eq_true in E|]. rewrite !Conventions.chars_app. cbn. set_solver. }
  unfold ref_of_path in Hr. case_bool_decide as Hp; [by rewrite Hp in Hs; apply elem_of_nil in Hs|].
  assert (Hn : forall names n r', ref_of_names n names = Some r' -> length r' = length names).
  { clear. induction names as [|nm names IH]; intros n r' E; [by injection E as <-|]. cbn [ref_of_names] in E. destruct (find_child _ _) as [i|]; [|done]. destruct (get_children n !! i) as [c|]; [|done].
    destruct (ref_of_names c names) as [r0|] eqn:Er; [|done]. injection E as <-. cbn. f_equal. by eapply IH. }
  rewrite (Hn _ _ _ Hr). unfold py_split. rewrite length_fmap. by apply split_two.
Qed.

Section keep.
Context `{ArrayEqual} (to_float32 : Z -> Z) (astype : cgns_type -> cgns_type -> Z -> Z) (d : dtype) (version i_rank n_rank : Z).

Lemma keeps_update_head name label v children : keeps 0 (fun n => let '(n', r) := update_child to_float32 n name label v children in (n', _ ← r; Ret ())).
Proof using Type.
  intros [nm pv cs pl]. pose proof (update_child_cases to_float32 nm pv cs pl name label v children) as Hc. cbn zeta in Hc.
  destruct (update_child _ _ _ _ _ _) as [p' r]. cbn [fst]. by destruct Hc as [->|[(i & c & c' & _ & _ & _ & ->)|(c' & _ & ->)]].
Qed.
Lemma keeps_update_points loc pl_idx : keeps 0 (update_points to_float32 loc pl_idx).
Proof using Type.
  unfold update_points. intros gc. apply (keeps_bind 0 (if StoU.contains "FaceCenter" loc then _ else mret ())); [|intros; apply keeps_head_on_first]. case_match; [apply keeps_update_head|apply keeps_ret].
Qed.
Lemma keeps_update_opposite k base path pl pl_idx refs n : Forall (fun r : ref => (k <= length r)%nat) refs -> same_to k n (update_opposite to_float32 base path pl pl_idx refs n).1.
Proof using Type.
  intros Hr. induction Hr as [|r refs Hr _ IH]; [apply same_to_refl|]. cbn [update_opposite]. destruct (_ ← of_option _ _; _) as [[]|e]; [|done|apply same_to_refl].
  apply (keeps_edit_at 0); [lia|apply keeps_head_on_first].
Qed.
Lemma refs_below label n : with_label label n = false -> Forall (fun r : ref => (1 <= length r)%nat) (refs_labelled label n).
Proof using Type.
  intros Hl. enough (G : forall k, k = 1%nat -> Forall (fun r : ref => (k <= length r)%nat) (refs_labelled label n)) by (by apply G). intros k Hk. unfold refs_labelled. destruct n as [nm v cs l]. cbn [shallow_refs]. rewrite Hl.
  generalize 0%nat. clear -Hk. induction cs as [|c cs IH]; intros i; [constructor|]. apply Forall_app. split; [|apply IH]. apply Forall_forall. intros r (r' & -> & _)%list_elem_of_fmap. cbn. lia.
Qed.
(** The search of the code finds the nodes at these places. *)
Lemma shallow_search p fuel n : (Parsers.size n <= fuel)%nat -> p n = false -> Parsers.ShallowNodesIterator__dfs (fun l => l) p fuel n = Ret (omap (node_at n) (shallow_refs p n)).
Proof using Type.
  revert n. induction fuel as [|fuel IH]; intros n Hf Hp; [pose proof (Parsers.size_pos n); lia|]. destruct n as [nm v cs l]. cbn [Parsers.ShallowNodesIterator__dfs shallow_refs get_children]. rewrite Hp.
  assert (Hs : (sum_list_with Parsers.size cs <= fuel)%nat) by (cbn in Hf; lia). clear Hf Hp.
  assert (G : forall i (pre : list node), length pre = i -> (fix loop (children : list node) : py (list node) := match children with [] => Ret [] | child :: rest => sub ← (if p child then Ret [child] else Parsers.ShallowNodesIterator__dfs (fun l => l) p fuel child); others ← loop rest; Ret (sub ++ others) end) cs =
    Ret (omap (node_at (Node nm v (pre ++ cs) l)) ((fix go (i : nat) (l : list node) : list ref := match l with [] => [] | c :: l' => map (cons i) (shallow_refs p c) ++ go (S i) l' end) i cs))); [|by apply (G 0%nat [])].
  induction cs as [|c cs IHc]; intros i pre Hi; [done|]. cbn [sum_list_with] in Hs.
  assert (Hc : (if p c then Ret [c] else Parsers.ShallowNodesIterator__dfs (fun l => l) p fuel c) = Ret (omap (node_at c) (shallow_refs p c))).
  { destruct (p c) eqn:Ec; [destruct c as [cn cv cc cl]; cbn [shallow_refs]; by rewrite Ec|]. apply IH; [lia|done]. }
  rewrite Hc. cbn [mbind py_bind]. rewrite (IHc ltac:(lia) (S i) (pre ++ [c])) by (rewrite length_app; cbn; lia). cbn [mbind py_bind]. rewrite <- app_assoc. cbn [app]. rewrite omap_app. do 2 f_equal.
  clear -Hi. induction (shallow_refs p c) as [|r rs IH]; [done|]. cbn [map omap list_omap node_at get_children]. rewrite lookup_app_r, Hi, Nat.sub_diag by lia. cbn [lookup list_lookup]. by rewrite IH.
Qed.
Lemma opposite_search n : with_label "GridConnectivity_t" n = false -> get_nodes_from_predicates n (QsPath "GridConnectivity_t") no_kw = Ret (Nodes (omap (node_at n) (refs_labelled "GridConnectivity_t" n))).
Proof using Type.
  intros Hl. assert (Hs : Parsers.ShallowNodesIterator_dfs (fun l => l) (with_label "GridConnectivity_t") n = Ret (omap (node_at n) (refs_labelled "GridConnectivity_t" n))).
  { unfold Parsers.ShallowNodesIterator_dfs. rewrite (shallow_search _ _ n) by done. cbn [mbind py_bind]. by rewrite Hl. }
  unfold get_nodes_from_predicates. assert (Ha : auto_predicates (QsPath "GridConnectivity_t") = Ret [APred (with_label "GridConnectivity_t")]) by done. rewrite Ha. cbn [mbind py_bind].
  change ((match Nodes <$> Parsers.ShallowNodesIterator_dfs (fun l => l) (with_label "GridConnectivity_t") n with
           | Ret r => (MkNodesWalkers n [APred (with_label "GridConnectivity_t")] (with_caching true no_kw) false r, Ret r)
           | Raise e => (NodesWalkers_init n [APred (with_label "GridConnectivity_t")] (with_caching true no_kw), Raise e) end).2 = Ret (Nodes (omap (node_at n) (refs_labelled "GridConnectivity_t" n)))).
  by rewrite Hs.
Qed.
Lemma keeps_hybrid sizes base path r : (3 <= length r)%nat -> keeps 3 (convert_hybrid to_float32 sizes base path r).
Proof using Type.
  intros Hr. unfold convert_hybrid. apply keeps_bind; [auto with keeps|]. intros gc. apply keeps_bind; [auto with keeps|]. intros [|]; [|auto with keeps].
  intros n. unfold mbind, st_bind, reading, st_lift. destruct (GridConnectivity_ZoneDonorPath gc base) as [p|] eqn:Ep; [|apply same_to_refl].
  destruct (ref_of_path n p) as [opp|] eqn:Eo; [|apply same_to_refl]. cbn [of_option].
  destruct (node_at n opp) as [oz|] eqn:Ez; [|apply same_to_refl]. cbn [of_option mbind py_bind]. destruct (Zone_Type oz) as [kind|] eqn:Ek; [|apply same_to_refl].
  destruct (is_text kind "Unstructured"); [|apply same_to_refl]. repeat (match goal with |- context [match ?x with Ret _ => _ | Raise _ => _ end] => destruct x; [|apply same_to_refl] end).
  pose proof (keeps_edit_at 0 3 r _ ltac:(lia) (keeps_update_points a (row_array (a_type a0) a4)) n) as Hu.
  destruct (edit_at r _ n) as [n1 [[]|e]]; [|done]. cbn [fst] in Hu. eapply same_to_trans; [exact Hu|].
  assert (H2 : (2 <= length opp)%nat).
  { unfold GridConnectivity_ZoneDonorPath, check_in_labels in Ep. case_bool_decide; [|done]. destruct (get_value gc false) as [[|[s|]]|]; try done. injection Ep as <-. by eapply donor_path_deep. }
  destruct (decide (length opp = 2%nat)) as [E2|N2].
  - assert (E3 : 3%nat = (length opp + 1)%nat) by lia. rewrite E3. apply same_above_add, edit_at_rel; [apply same_to_refl|]. intros c Hc. apply keeps_update_opposite, refs_below.
    pose proof (same_node_at 3 _ _ _ opp Hu ltac:(lia)) as Hl. rewrite Ez, Hc in Hl. apply same_to_head in Hl as (_ & _ & Hl). unfold with_label, match_label, match_str_label. rewrite <- Hl.
    unfold Zone_Type, check_is_label in Ek. case_bool_decide as Hz; [|done]. by rewrite Hz.
  - apply (keeps_edit_at 0); [lia|]. intros c. apply keeps_update_opposite, Forall_forall. intros; lia.
Qed.
Lemma keeps_rm p : keeps 0 (rm_where p).
Proof using Type. apply keeps_head_of. intros. by eexists. Qed.
Lemma keeps_extend l : keeps 0 (extend_children l).
Proof using Type. apply keeps_head_of. intros. by eexists. Qed.
Lemma keeps_zone_gc subset_loc sizes base path n_vtx t r : length r = 3%nat -> keeps 3 (convert_zone_gc to_float32 d i_rank n_rank subset_loc sizes base path n_vtx t r).
Proof using Type.
  intros Hr. unfold convert_zone_gc. keeping.
  - apply keeps_hybrid. rewrite length_app. lia.
  - apply (keeps_edit_at 0); [lia|]. apply keeps_bind; [apply keeps_rm|intros]. apply keeps_bind; [apply keeps_rm|intros]. apply keeps_extend.
Qed.
Lemma keeps_face_distribution : keeps 1 rm_face_distribution.
Proof using Type. unfold rm_face_distribution. keeping. apply keeps_on_first, keeps_head_of. intros. by eexists. Qed.

(** ** The type of a zone *)

Definition type_place (z : node) : option nat := find_child (with_label "ZoneType_t") (get_children z).
(** The node of the type has the name that the standard gives it. *)
Definition typed (z : node) : Prop := find_child (fun c => match_name c "ZoneType") (get_children z) = type_place z.

Lemma find_child_same p l l' : (forall a b, same_head a b -> p a = p b) -> Forall2 same_head l l' -> find_child p l = find_child p l'.
Proof using Type. intros Hp Hl. induction Hl as [|a b l l' Hab _ IH]; [done|]. cbn. by rewrite (Hp a b Hab), IH. Qed.
Lemma zone_type_read z : Zone_Type z = check_is_label "Zone_t" z (value_of (i ← type_place z; get_children z !! i)).
Proof using Type.
  unfold Zone_Type. assert (Hs : get_child_from_label z (StrLabel "ZoneType_t") no_kw = node_walk z (with_label "ZoneType_t") kw1) by done.
  rewrite Hs, children_first, find_child_head. done.
Qed.
Lemma zone_same z z' : same_to 1 z z' -> Zone_Type z' = Zone_Type z /\ (typed z -> typed z') /\ unstructured_size z' = unstructured_size z /\ get_raw z' = get_raw z /\ get_name z' = get_name z /\ get_label z' = get_label z.
Proof using Type.
  intros (Hn & Hr & Hl & Hc). assert (Hp : type_place z' = type_place z) by (symmetry; apply find_child_same; [|done]; intros a b (_ & _ & E); unfold with_label, match_label, match_str_label; by rewrite E).
  assert (Hq : find_child (fun c => match_name c "ZoneType") (get_children z') = find_child (fun c => match_name c "ZoneType") (get_children z)).
  { symmetry. apply find_child_same; [|done]. intros a b (E & _). unfold match_name. by rewrite E. }
  repeat split; try done.
  - rewrite !zone_type_read, Hp. unfold check_is_label. rewrite Hl. case_bool_decide; [|done]. destruct (type_place z) as [i|]; [|done]. cbn [mbind option_bind]. rewrite Forall2_lookup in Hc. specialize (Hc i).
    destruct (get_children z !! i), (get_children z' !! i); inversion Hc as [? ? (_ & E & _)|]; subst; [|done]. cbn. unfold get_value. by rewrite E.
  - intros Ht. unfold typed in *. by rewrite Hq, Hp.
  - unfold unstructured_size. by rewrite Hr.
Qed.

Lemma st_inv {A B} (m : st A) (f : A -> st B) n n' b : (m ≫= f) n = (n', Ret b) -> exists n1 a, m n = (n1, Ret a) /\ f a n1 = (n', Ret b).
Proof using Type. unfold mbind, st_bind. destruct (m n) as [n1 [a|e]]; [|done]. eauto. Qed.

(** The type is known to be unstructured. *)
Definition unstructured_text : value := Some (NpArray T_C1 [12] true (codes "Unstructured")).
Definition is_u (z : node) : Prop := exists i c, type_place z = Some i /\ get_children z !! i = Some c /\ get_raw c = unstructured_text.
Lemma is_u_type z : get_label z = "Zone_t" -> is_u z -> Zone_Type z = Ret (Text (Str "Unstructured")).
Proof using Type.
  intros Hl (i & c & Hi & Hc & Hr). rewrite zone_type_read, Hi. unfold check_is_label. rewrite bool_decide_eq_true_2 by done. cbn [mbind option_bind]. rewrite Hc. cbn [value_of]. unfold get_value. by rewrite Hr.
Qed.
Lemma is_u_same z z' : same_to 1 z z' -> is_u z -> is_u z'.
Proof using Type.
  intros (_ & _ & _ & Hc) (i & c & Hi & Hic & Hr). assert (Hp : type_place z' = type_place z) by (symmetry; apply find_child_same; [|done]; intros a b (_ & _ & E); unfold with_label, match_label, match_str_label; by rewrite E).
  rewrite Forall2_lookup in Hc. specialize (Hc i). rewrite Hic in Hc. inversion Hc as [? c' (_ & E & _) Hx Hc'|]; subst. exists i, c'. by rewrite Hp, <- E.
Qed.
Lemma is_u_add nm v cs l c : is_u (Node nm v cs l) -> is_u (Node nm v (cs ++ [c]) l).
Proof using Type.
  intros (i & x & Hi & Hx & Hr). exists i, x. cbn [get_children] in *. repeat split; [|by apply lookup_app_l_Some|done]. unfold type_place in *. cbn [get_children] in *. clear -Hi. revert i Hi. induction cs as [|a cs IH]; intros i Hi; [done|]. cbn [find_child app] in *.
  destruct (with_label "ZoneType_t" a); [done|]. destruct (find_child _ cs) as [k|]; [|done]. by rewrite (IH k eq_refl).
Qed.
Lemma update_type z z' : typed z -> is_Some (type_place z) -> update to_float32 "ZoneType" "ZoneType_t" (Some (PStr "Unstructured")) z = (z', Ret ()) ->
  is_u z' /\ get_name z' = get_name z /\ get_label z' = get_label z /\ get_raw z' = get_raw z.
Proof using Type.
  intros Ht [i Hi]. unfold typed in Ht. rewrite Hi in Ht. destruct z as [nm v cs l]. unfold type_place in Hi. cbn [get_children] in *. destruct (find_child_Some _ _ _ Hi) as (c & Hc & _).
  unfold update, update_child. cbn [get_children]. rewrite Ht. unfold update_at. rewrite Hc. destruct c as [cn cv ccs cl].
  assert (Hu : update_node to_float32 None (Some "ZoneType_t") (Some (PStr "Unstructured")) None (Node cn cv ccs cl) = (Node cn unstructured_text ccs "ZoneType_t", Ret ())) by done.
  rewrite Hu. intros [= <-]. split; [|done]. exists i, (Node cn unstructured_text ccs "ZoneType_t"). cbn [get_children get_raw]. split; [|split; [apply list_lookup_insert_eq; by eapply lookup_lt_Some|done]].
  unfold type_place. cbn [get_children]. clear -Hi. revert i Hi. induction cs as [|a cs IH]; intros i Hi; [done|]. cbn [find_child] in Hi. destruct (with_label "ZoneType_t" a) eqn:Ea; [injection Hi as <-; done|].
  destruct (find_child _ cs) as [k|] eqn:Ek; [|done]. injection Hi as <-. change (<[S k:=Node cn unstructured_text ccs "ZoneType_t"]> (a :: cs)) with (a :: <[k:=Node cn unstructured_text ccs "ZoneType_t"]> cs). cbn [find_child]. by rewrite Ea, (IH k eq_refl).
Qed.

(** ** The conversion of a zone *)

(** The array of the sizes of the zone, multiplied in its type. *)
Definition multiplied (v v' : value) : Prop :=
  exists t n k fc data, v = Some (NpArray t [n; k] fc data) /\
    v' = Some (NpArray t [1; k] true (map (fun col => cast_bound t (zprod col)) (blocks (Z.to_nat n) (Z.to_nat k) data))).
Lemma convert_zone_bc_head subset_loc n_vtx t b b' : convert_zone_bc to_float32 d i_rank n_rank subset_loc n_vtx t b = Ret b' -> same_head b b'.
Proof using Type.
  unfold convert_zone_bc. destruct (collect_where _ _ _) as [l|]; [|done]. cbn [mbind py_bind]. unfold applied. destruct b as [nm v cs lb]. cbn. by intros [= <-].
Qed.
Lemma convert_elements_spec subset_loc z z' p : get_label z = "Zone_t" -> typed z -> is_Some (type_place z) -> convert_elements to_float32 astype d i_rank n_rank subset_loc z = (z', Ret p) ->
  is_u z' /\ get_name z' = get_name z /\ get_label z' = get_label z /\ multiplied (get_raw z) (get_raw z').
Proof using Type.
  intros Hl Ht Hi He. unfold convert_elements in He. apply st_inv in He as (z1 & dims & [= <- Hdims] & He). apply st_inv in He as (z1 & size & [= <- Hsize] & He).
  apply st_inv in He as (z1 & [] & Hu & He). destruct (update_type z z1 Ht Hi Hu) as (U1 & N1 & L1 & R1). clear Hu.
  apply st_inv in He as (z2 & [] & Hv & He). assert (H2 : is_u z2 /\ get_name z2 = get_name z /\ get_label z2 = get_label z /\ multiplied (get_raw z) (get_raw z2)).
  { unfold unstructured_size, array_of in Hdims. destruct (get_raw z) as [a|] eqn:Ea; [|done]. cbn [of_option mbind py_bind] in Hdims. destruct a as [t shape fc data]. cbn [a_shape a_type a_data] in Hdims. destruct shape as [|n [|k [|]]]; try done. injection Hdims as <-.
    destruct z1 as [nm v cs l]. cbn in Hv. injection Hv as <-. cbn in N1, L1. repeat split; [|done..|]; [exact U1|]. by exists t, n, k, fc, data. }
  clear Hv U1 N1 L1 R1 Hdims. destruct H2 as (U2 & N2 & L2 & M2).
  apply st_inv in He as (z3 & ? & [= <- _] & He). apply st_inv in He as (z3 & n_vtx & [= <- _] & He). apply st_inv in He as (z3 & ngon & [= <- _] & He).
  apply st_inv in He as (z3 & [] & Ha & He). assert (H3 : is_u z3 /\ get_name z3 = get_name z /\ get_label z3 = get_label z /\ get_raw z3 = get_raw z2).
  { destruct z2 as [nm v cs l]. unfold add_child in Ha. case_bool_decide; [done|]. cbn in Ha. injection Ha as <-. repeat split; try done. by apply is_u_add. }
  destruct H3 as (U3 & N3 & L3 & R3). apply st_inv in He as (z4 & zbc & [= <- Hzbc] & He). apply st_inv in He as (z4 & [] & Hb & He). injection He as <- _.
  assert (H4 : same_to 1 z3 z4).
  { destruct zbc as [zbc|]; [|injection Hb as <-; apply (same_to_refl 1)]. apply st_inv in Hb as (z5 & u & [= <- Hc] & Hb). apply convert_zone_bc_head in Hc.
    assert (Hs : get_child_from_label z3 (StrLabel "ZoneBC_t") no_kw = node_walk z3 (with_label "ZoneBC_t") kw1) by done. rewrite Hs, children_first, find_child_head in Hzbc. injection Hzbc as Hzbc.
    pose proof (first_child_same 0 (with_label "ZoneBC_t") (fun _ => (u, Ret ())) z3) as Hf. rewrite Hb in Hf. apply Hf. intros i c Hfi Hci. rewrite Hfi in Hzbc. cbn in Hzbc. rewrite Hci in Hzbc. injection Hzbc as ->. done. }
  pose proof (is_u_same _ _ H4 U3) as U4. destruct H4 as (E1 & E2 & E3 & _). split; [done|]. rewrite <- E1, <- E2, <- E3, R3. done.
Qed.

Definition zone_kind (kind : string) (z : node) : Prop := Zone_Type z = Ret (Text (Str kind)).
Definition converted (z z' : node) : Prop :=
  get_name z' = get_name z /\ get_label z' = get_label z /\ zone_kind "Unstructured" z' /\
  (zone_kind "Structured" z -> multiplied (get_raw z) (get_raw z')) /\ (zone_kind "Unstructured" z -> get_raw z' = get_raw z).
Definition convertible (z : node) : Prop := get_label z = "Zone_t" /\ typed z /\ (zone_kind "Structured" z \/ zone_kind "Unstructured" z).

Lemma converted_before z1 z2 z' : same_to 1 z1 z2 -> converted z2 z' -> converted z1 z'.
Proof using Type.
  intros Hs (Hn & Hl & Hk & Hm & Hr). apply zone_same in Hs as (Ek & _ & _ & Er & En & El). unfold converted, zone_kind in *. rewrite <- Ek, <- Er, <- En, <- El. done.
Qed.
Lemma converted_after z z1 z2 : same_to 1 z1 z2 -> converted z z1 -> converted z z2.
Proof using Type.
  intros Hs (Hn & Hl & Hk & Hm & Hr). apply zone_same in Hs as (Ek & _ & _ & Er & En & El). unfold converted, zone_kind in *. rewrite Ek, Er, En, El. done.
Qed.
Lemma convertible_same z z' : same_to 1 z z' -> convertible z -> convertible z'.
Proof using Type. intros Hs (Hl & Ht & Hk). apply zone_same in Hs as (Ek & Et & _ & _ & _ & El). unfold convertible, zone_kind. rewrite Ek, El. auto. Qed.

(** The names and labels of the zones and of all that is above. *)
Definition same_title (n n' : node) : Prop := get_name n = get_name n' /\ get_label n = get_label n'.
Lemma same_title_trans a b c : same_title a b -> same_title b c -> same_title a c.
Proof using Type. intros [? ?] [? ?]. split; congruence. Qed.
Lemma titles_of_same n n' : same_to 3 n n' -> same_above 2 same_title n n'.
Proof using Type.
  intros (? & ? & ? & Hc). repeat split; try done. eapply Forall2_impl; [exact Hc|]. intros a b (? & ? & ? & Hd). repeat split; try done. eapply Forall2_impl; [exact Hd|]. by intros x y (? & ? & ? & _).
Qed.
Lemma node_kept t t' r z : same_to 3 t t' -> length r = 2%nat -> node_at t r = Some z -> exists z', node_at t' r = Some z' /\ same_to 1 z z'.
Proof using Type. intros Hs Hr Hz. pose proof (same_node_at 3 _ _ _ r Hs ltac:(lia)) as Hn. rewrite Hz in Hn. destruct (node_at t' r) as [z'|]; [|done]. exists z'. by rewrite Hr in Hn. Qed.

Lemma visit_spec subset_loc sizes r t t' z : visit_zone to_float32 astype d i_rank n_rank subset_loc sizes r t = (t', Ret ()) -> length r = 2%nat -> node_at t r = Some z -> convertible z ->
  same_above 2 same_title t t' /\ (exists z', node_at t' r = Some z' /\ converted z z') /\
  forall r' y, length r' = 2%nat -> r' <> r -> node_at t r' = Some y -> exists y', node_at t' r' = Some y' /\ same_to 1 y y'.
Proof using Type.
  intros Hv Hr Hz (Hl & Ht & Hk). unfold visit_zone in Hv. apply st_inv in Hv as (t1 & z1 & [= <- Hz1] & Hv). rewrite Hz in Hz1. injection Hz1 as <-.
  apply st_inv in Hv as (t1 & base & [= <- _] & Hv). apply st_inv in Hv as (t1 & kind & [= <- Hkind] & Hv). destruct Hk as [Hk|Hk]; unfold zone_kind in Hk; rewrite Hk in Hkind; injection Hkind as <-; cbn in Hv.
  - unfold convert_zone in Hv. apply st_inv in Hv as (t1 & p & He & Hv). destruct (edit_at_found _ _ _ _ _ He) as (c & Hc & Hf & Hc'). rewrite Hz in Hc. injection Hc as <-.
    assert (Hi : is_Some (type_place z)) by (rewrite zone_type_read in Hk; unfold check_is_label in Hk; case_bool_decide; [|done]; destruct (type_place z); [done|by cbn in Hk]).
    destruct (convert_elements_spec _ _ _ _ Hl Ht Hi Hf) as (U & N & L & M).
    assert (H3 : same_to 3 t1 t').
    { revert Hv. set (m := mbind _ _). intros Hv. assert (Hm : keeps 3 m) by (unfold m; keeping; [apply keeps_zone_gc; rewrite length_app, Hr; done|apply (keeps_edit_at 1); [lia|apply keeps_face_distribution]]).
      specialize (Hm t1). rewrite Hv in Hm. exact Hm. }
    split; [|split].
    + eapply (same_above_trans _ _ _ t1); [apply same_title_trans| |by apply titles_of_same]. pose proof (edit_at_rel same_title r (convert_elements to_float32 astype d i_rank n_rank subset_loc) t) as Hs. rewrite He, Hr in Hs. apply Hs; [done|].
      intros c Hc. rewrite Hz in Hc. injection Hc as <-. by rewrite Hf in *.
    + destruct (node_kept _ _ _ _ H3 Hr Hc') as (z' & Hz' & Hs). exists z'. split; [done|]. eapply converted_after; [exact Hs|]. repeat split; [done|done|by apply is_u_type; [congruence|]|done|]. unfold zone_kind. rewrite Hk. done.
    + intros r' y Hr' Hne Hy. apply (node_kept _ _ _ _ H3 Hr'). pose proof (edit_at_apart r r' (convert_elements to_float32 astype d i_rank n_rank subset_loc) t ltac:(congruence) ltac:(congruence)) as Ha. rewrite He in Ha. cbn in Ha. congruence.
  - injection Hv as <-. split; [by apply (same_above_refl 2)|]. split; [|intros r' y _ _ Hy; exists y; split; [done|apply (same_to_refl 1)]]. exists z. split; [done|]. repeat split; [done|]. unfold zone_kind. rewrite Hk. done.
Qed.
Lemma visits_spec subset_loc sizes rs : forall t t', for_each (visit_zone to_float32 astype d i_rank n_rank subset_loc sizes) rs t = (t', Ret ()) -> NoDup rs ->
  Forall (fun r : ref => length r = 2%nat /\ exists z, node_at t r = Some z /\ convertible z) rs ->
  same_above 2 same_title t t' /\ (forall r z, r ∈ rs -> node_at t r = Some z -> exists z', node_at t' r = Some z' /\ converted z z') /\
  forall r y, length r = 2%nat -> r ∉ rs -> node_at t r = Some y -> exists y', node_at t' r = Some y' /\ same_to 1 y y'.
Proof using Type.
  induction rs as [|r rs IH]; intros t t' Hv Hn Hrs.
  { injection Hv as <-. split; [by apply (same_above_refl 2)|]. split; [by intros r z ?%elem_of_nil|]. intros r y _ _ Hy. exists y. split; [done|apply (same_to_refl 1)]. }
  apply NoDup_cons in Hn as [Hnr Hn]. apply Forall_cons in Hrs as [(Hr & z & Hz & Hc) Hrs]. cbn [for_each] in Hv. apply st_inv in Hv as (t1 & [] & H1 & Hv).
  destruct (visit_spec _ _ _ _ _ _ H1 Hr Hz Hc) as (T1 & (z1 & Hz1 & C1) & O1).
  destruct (IH t1 t' Hv Hn) as (T2 & C2 & O2).
  { rewrite Forall_forall in Hrs |- *. intros r' Hin. destruct (Hrs r' Hin) as (Hr' & y & Hy & Hcy). split; [done|]. destruct (O1 r' y Hr' ltac:(by intros ->) Hy) as (y' & Hy' & Hs). exists y'. split; [done|]. by eapply convertible_same. }
  rewrite Forall_forall in Hrs. split; [eapply same_above_trans; [apply same_title_trans|exact T1|exact T2]|]. split.
  - intros r' y [->|Hin]%elem_of_cons Hy.
    + rewrite Hz in Hy. injection Hy as <-. destruct (O2 r z1 Hr Hnr Hz1) as (z2 & Hz2 & Hs). exists z2. split; [done|]. by eapply converted_after.
    + destruct (Hrs r' Hin) as (Hr' & _). destruct (O1 r' y Hr' ltac:(by intros ->) Hy) as (y1 & Hy1 & Hs). destruct (C2 r' y1 Hin Hy1) as (y2 & Hy2 & Hc2). exists y2. split; [done|]. by eapply converted_before.
  - intros r' y Hr' [Hne Hnin]%not_elem_of_cons Hy. destruct (O1 r' y Hr' Hne Hy) as (y1 & Hy1 & Hs1). destruct (O2 r' y1 Hr' Hnin Hy1) as (y2 & Hy2 & Hs2). exists y2. split; [done|]. by eapply (same_to_trans 1).
Qed.

(** ** The zones of a tree *)

(** The zone at the place [r]: under a base. *)
Definition zone_at (tree : node) (r : ref) (z : node) : Prop :=
  exists i j b, r = [i; j] /\ get_children tree !! i = Some b /\ get_label b = "CGNSBase_t" /\ get_children b !! j = Some z /\ get_label z = "Zone_t".
Lemma label_is_iff label n : Fnmatch.plain label = true -> label_is label n = Ret true <-> get_label n = label.
Proof using Type. intros Hp. unfold label_is, match_label, match_str_label. rewrite Fnmatch.fnmatch_plain by done. case_bool_decide; split; congruence. Qed.
Lemma zone_at_node tree r z : zone_at tree r z -> node_at tree r = Some z.
Proof using Type. intros (i & j & b & -> & Hb & _ & Hz & _). cbn. by rewrite Hb, Hz. Qed.
Lemma zone_refs_spec tree rs : get_label tree = "CGNSTree_t" -> zone_refs tree = Ret rs -> NoDup rs /\ forall r, r ∈ rs <-> exists z, zone_at tree r z.
Proof using Type.
  intros Hl. unfold zone_refs. rewrite bool_decide_eq_true_2 by done. intros Hr. destruct (refs_where_spec _ _ _ Hr) as [Hn Hs]. split; [done|]. intros r. split.
  - intros Hin. destruct (Hs r Hin) as [Hlen Hk]. destruct r as [|i [|j [|]]]; try done. destruct (Hk 0%nat _ eq_refl) as (b & Hb & Lb). destruct (Hk 1%nat _ eq_refl) as (z & Hz & Lz). cbn in Hb, Hz.
    destruct (get_children tree !! i) as [b'|] eqn:Eb; [|done]. injection Hb as ->. destruct (get_children b !! j) as [z'|] eqn:Ez; [|done]. injection Hz as ->. exists z, i, j, b. apply label_is_iff in Lb, Lz; done.
  - intros (z & i & j & b & -> & Hb & Lb & Hz & Lz). apply (refs_where_complete _ _ _ _ Hr); [done|]. intros [|[|k]] q Hq; [..|done]; injection Hq as <-; cbn; rewrite Hb; [exists b|rewrite Hz; exists z]; (split; [done|]); by apply label_is_iff.
Qed.
Lemma zone_at_titles t t' r z : same_above 2 same_title t t' -> zone_at t r z -> exists z', zone_at t' r z'.
Proof using Type.
  intros (_ & _ & _ & Hc) (i & j & b & -> & Hb & Lb & Hz & Lz). rewrite Forall2_lookup in Hc. specialize (Hc i). rewrite Hb in Hc. inversion Hc as [? b' (_ & _ & Lb' & Hd) Hx Hb'|]; subst.
  rewrite Forall2_lookup in Hd. specialize (Hd j). rewrite Hz in Hd. inversion Hd as [? z' (_ & Lz') Hy Hz'|]; subst. exists z', i, j, b'. repeat split; congruence.
Qed.
Lemma titles_sym t t' : same_above 2 same_title t t' -> same_above 2 same_title t' t.
Proof using Type.
  intros (? & ? & ? & Hc). repeat split; try done. apply Forall2_flip. eapply Forall2_impl; [exact Hc|]. intros a b (? & ? & ? & Hd). repeat split; try done. apply Forall2_flip. eapply Forall2_impl; [exact Hd|]. intros x y [? ?]. done.
Qed.

(** No base has the name of the version. *)
Definition version_name : string := "CGNSLibraryVersion".
Definition version_free (tree : node) : Prop := Forall (fun c => match_name c version_name = true -> get_label c <> "CGNSBase_t") (get_children tree).
Lemma update_version tree t1 : version_free tree -> update to_float32 version_name "CGNSLibraryVersion_t" (Some (PFloat version)) tree = (t1, Ret ()) ->
  get_label t1 = get_label tree /\ forall r z, zone_at t1 r z <-> zone_at tree r z.
Proof using Type.
  intros Hf. destruct tree as [nm v cs l]. unfold version_free in Hf. cbn [get_children] in Hf. rewrite Forall_forall in Hf.
  assert (Hu : forall cn cv ccs cl, update_node to_float32 None (Some "CGNSLibraryVersion_t") (Some (PFloat version)) None (Node cn cv ccs cl) = (Node cn (Some (NpArray T_R4 [1] true [to_float32 version])) ccs "CGNSLibraryVersion_t", Ret ())) by done.
  unfold update, update_child. cbn [get_children]. destruct (find_child _ cs) as [i|] eqn:Ei.
  - destruct (find_child_Some _ _ _ Ei) as (c & Hc & Hm). unfold update_at. rewrite Hc. destruct c as [cn cv ccs cl]. rewrite Hu. intros [= <-]. split; [done|].
    assert (Hcl : cl <> "CGNSBase_t") by (apply (Hf (Node cn cv ccs cl)); [by eapply list_elem_of_lookup_2|done]).
    intros r z. split; intros (k & j & b & -> & Hb & Lb & Hz); exists k, j, b; (split; [done|]); cbn [get_children] in *; (split; [|done]); destruct (decide (i = k)) as [<-|Hik].
    + rewrite list_lookup_insert_eq in Hb by by eapply lookup_lt_Some. injection Hb as <-. done.
    + by rewrite list_lookup_insert_ne in Hb.
    + rewrite Hc in Hb. injection Hb as <-. done.
    + by rewrite list_lookup_insert_ne.
  - rewrite new_node_spec. change (negb (is_valid_name version_name false)) with false. change (negb (is_valid_label "UserDefined_t" false)) with false. cbn [_convert_value]. rewrite bool_decide_eq_true_2 by constructor.
    case_bool_decide; [done|]. unfold update_at. rewrite lookup_app_r, Nat.sub_diag by done. cbn [lookup list_lookup].
    rewrite Hu, insert_app_r_alt, Nat.sub_diag by done. intros [= <-]. split; [done|].
    intros r z. split; intros (k & j & b & -> & Hb & Lb & Hz); exists k, j, b; (split; [done|]); cbn [get_children] in *; (split; [|done]).
    + apply lookup_app_Some in Hb as [Hb|[_ Hb]]; [done|]. destruct (k - length cs)%nat; [|done]. cbn in Hb. injection Hb as <-. done.
    + by apply lookup_app_l_Some.
Qed.
End keep.

(** C14: When [convert_s_to_u] returns, whatever the boundary conditions and joins of the tree, hybrid joins included, each
    zone is still at its place with its name and is unstructured; the sizes of a zone that was structured have been
    multiplied, in the type of the array, those of the other zones are unchanged; and no zone has been created. *)
Theorem convert_s_to_u_zones `{ArrayEqual} (to_float32 : Z -> Z) (astype : cgns_type -> cgns_type -> Z -> Z) (d : dtype) (version i_rank n_rank : Z)
    (subset_loc : list (string * StoU.loc_request)) (tree tree' : node)
    (Hl : get_label tree = "CGNSTree_t") (Hv : version_free tree) (Hz : forall r z, zone_at tree r z -> convertible z)
    (Hc : convert_s_to_u to_float32 astype d version i_rank n_rank subset_loc tree = (tree', Ret ())) :
  (forall r z, zone_at tree r z -> exists z', zone_at tree' r z' /\ converted z z') /\ (forall r z', zone_at tree' r z' -> exists z, zone_at tree r z).
Proof.
  unfold convert_s_to_u in Hc. apply st_inv in Hc as (t0 & sizes & [= <- _] & Hc). apply st_inv in Hc as (t1 & [] & Hu & Hc). destruct (update_version _ _ _ _ Hv Hu) as [L1 Z1].
  apply st_inv in Hc as (t2 & rs & [= <- Hrs] & Hc). destruct (zone_refs_spec t1 rs ltac:(congruence) Hrs) as [Hn Hin].
  destruct (visits_spec _ _ _ _ _ _ _ _ _ _ Hc Hn) as (T & C & _).
  { apply Forall_forall. intros r Hr. apply Hin in Hr as (z & Hzr). pose proof (zone_at_node _ _ _ Hzr) as Ha. apply Z1 in Hzr. split; [by destruct Hzr as (i & j & b & -> & _)|]. exists z. split; [done|]. by eapply Hz. }
  split.
  - intros r z Hr. apply Z1 in Hr. destruct (C r z ltac:(apply Hin; eauto) (zone_at_node _ _ _ Hr)) as (z' & Hz' & Hcv). exists z'. split; [|done]. destruct (zone_at_titles _ _ _ _ T Hr) as (z'' & Hz''). pose proof (zone_at_node _ _ _ Hz'') as E. rewrite Hz' in E. injection E as ->. done.
  - intros r z' Hr. destruct (zone_at_titles _ _ _ _ (titles_sym _ _ T) Hr) as (z & Hzr). exists z. by apply Z1.
Qed.

(** Two zones of eight cells with a join, a boundary condition on the first one. *)
Definition ex_text (s : string) : value := Some (NpArray T_C1 [Z.of_nat (String.length s)] true (codes s)).
Definition ex_range (name : string) (lo hi : list Z) : node := Node name (Some (NpArray T_I4 [3; 2] true (lo ++ hi))) [] "IndexRange_t".
Definition ex_distri (name : string) (l : list Z) : node := Node ":CGNS#Distribution" None [Node name (Some (NpArray T_I4 [3] true l)) [] "DataArray_t"] "UserDefinedData_t".
Definition ex_bc (datasets : list node) : node :=
  Node "bc" (ex_text "BCWall") ([ex_range "PointRange" [1; 1; 1] [3; 3; 1]; Node "FamilyName" (ex_text "Wall") [] "FamilyName_t"; ex_distri "Index" [0; 9; 9]] ++ datasets) "BC_t".
Definition ex_dataset : node :=
  Node "DataSet" (ex_text "Null") [Node "GridLocation" (ex_text "KFaceCenter") [] "GridLocation_t"; ex_range "PointRange" [1; 1; 1] [2; 2; 1]; ex_distri "Index" [0; 4; 4]] "BCDataSet_t".
Definition ex_join (opp : string) (k k_opp : Z) : node :=
  Node "match" (ex_text opp) [ex_range "PointRange" [1; 1; k] [3; 3; k]; ex_range "PointRangeDonor" [1; 1; k_opp] [3; 3; k_opp]] "GridConnectivity1to1_t".
Definition ex_zone (name opp : string) (k k_opp : Z) (bcs : list node) : node :=
  Node name (Some (NpArray T_I4 [3; 3] true [3; 3; 3; 2; 2; 2; 0; 0; 0]))
    [Node "ZoneType" (ex_text "Structured") [] "ZoneType_t"; Node "ZoneBC" None bcs "ZoneBC_t"; Node "ZoneGridConnectivity" None [ex_join opp k k_opp] "ZoneGridConnectivity_t"; ex_distri "Face" [0; 36; 36]] "Zone_t".
Definition ex_tree (datasets : list node) : node :=
  Node "CGNSTree" None [Node "Base" None [ex_zone "Low" "High" 3 1 [ex_bc datasets]; ex_zone "High" "Low" 1 3 []] "CGNSBase_t"] "CGNSTree_t".
Definition ex_convert (subset_loc : list (string * StoU.loc_request)) : st () :=
  @convert_s_to_u (fun a b => bool_decide (a = b)) (fun x => x) (fun _ _ x => x) Prelude.I4 42 0 1 subset_loc.
Definition ex_faces : list (string * StoU.loc_request) := [("BC_t", StoU.OneLoc "FaceCenter"); ("GC_t", StoU.OneLoc "FaceCenter")].

Lemma ex_zone_convertible name opp k k_opp bcs : @convertible (fun a b => bool_decide (a = b)) (ex_zone name opp k k_opp bcs).
Proof. split; [done|]. split; [done|]. left. done. Qed.
Lemma convert_s_to_u_zones_witness : exists tree', ex_convert ex_faces (ex_tree [ex_dataset]) = (tree', Ret ()) /\
  (forall r z, zone_at (ex_tree [ex_dataset]) r z -> exists z', zone_at tree' r z' /\ @converted (fun a b => bool_decide (a = b)) z z') /\ (forall r z', zone_at tree' r z' -> exists z, zone_at (ex_tree [ex_dataset]) r z).
Proof.
  eexists. split; [vm_compute; reflexivity|].
  eapply (@convert_s_to_u_zones (fun a b => bool_decide (a = b)) (fun x => x) (fun _ _ x => x) Prelude.I4 42 0 1 ex_faces (ex_tree [ex_dataset])); [done| | |vm_compute; reflexivity].
  - repeat constructor; by intros.
  - intros r z (i & j & b & -> & Hb & _ & Hz & _). destruct i as [|i]; [|by destruct i]. injection Hb as <-. destruct j as [|[|j]]; [| |by destruct j]; injection Hz as <-; apply ex_zone_convertible.
Defined.

(** The boundary condition can be converted to two locations, but not with a data set: the data set is shared by the two
    results and has lost its range after the first one. *)
Theorem shared_dataset_rejected :
  let both := [("BC_t", StoU.Locs ["Vertex"; "FaceCenter"])] in
  (ex_convert both (ex_tree [])).2 = Ret () /\ (ex_convert both (ex_tree [ex_dataset])).2 = Raise RuntimeError /\
  (ex_convert ex_faces (ex_tree [ex_dataset])).2 = Ret ().
Proof. split; [|split]; vm_compute; reflexivity. Qed.
End ConvertSpec.
