(* ===== verification/PartTree.v ===== *)
(** * Partitioned structured zones: the functions on nodes of [maia/factory/partitioning/split_S/part_zone.py]

    PartZone holds the ranges and numberings of the partitions; here are the nodes that hold them: the traversal of the
    boundaries of the distributed zone, the boundary conditions and joins of a partition, the split of the original joins.
    The distributed zone is edited on the way, each function returns it.  The nodes that it shares with the
    partitions are not edited afterwards, they are values. *)
From S2P Require Import Prelude PyUtils Numbering NpUtils PointRange PyFloat CutTree Values Conventions Fnmatch Tree Parsers Walkers Search Sids Refs Presets PartZone PartNumbering StoU MaiaNodes Joins FixTree FullToDist PostSplit Transfer.

Local Open Scope Z_scope.

Module PartTree.
Import Values Conventions Tree Walkers Search Sids Refs Presets PartZone MaiaNodes Joins FixTree FullToDist PostSplit Transfer.

Section part_tree.
Context `{ArrayEqual} (to_float32 : Z -> Z) (astype : cgns_type -> cgns_type -> Z -> Z) (d : dtype).

(** ** The boundaries of the distributed zone *)

Definition dspath : string := "__maia::dspath".
Definition bnd_queries : list (list (node -> py bool)) :=
  [[label_is "ZoneBC_t"; label_is "BC_t"];
   [label_is "ZoneGridConnectivity_t"; fun n => Ret (bool_decide (get_label n ∈ ["GridConnectivity1to1_t"; "GridConnectivity_t"]))];
   [label_is "ZoneBC_t"; label_is "BC_t"; label_is "BCDataSet_t"]].
(** The side of a boundary, and the place of its node; the path of its parent is written in a data set. *)
Definition boundary_side (r : ref) (bounds : list ((nat * Z) * ref)) (zone : node) : node * py (list ((nat * Z) * ref)) :=
  (bnd ← reading (fun zone => of_option IndexError (node_at zone r));
   point_range_n ← st_lift (get_node_from_name bnd "PointRange" no_kw);
   match point_range_n with
   | None => mret bounds
   | Some point_range_n =>
       bnd_normal_index ← st_lift (Subset_normal_axis bnd);
       _ ← (if bool_decide (get_label bnd = "BCDataSet_t") then
              bcds_path ← reading (fun zone => Ret (py_join slash (names_at zone (take (length r - 1) r))));
              edit_at r (update to_float32 dspath "Descriptor_t" (Some (PStr bcds_path)))
            else mret ());
       pr_val ← st_lift (c0 ← column_of (get_raw point_range_n) 0; py_get c0 bnd_normal_index);
       mret (bounds ++ [((Z.to_nat bnd_normal_index, if pr_val =? 1 then 0 else 1), r)])
   end) zone.
Fixpoint boundary_sides (rs : list ref) (bounds : list ((nat * Z) * ref)) : st (list ((nat * Z) * ref)) :=
  match rs with [] => mret bounds | r :: rs' => bounds ← boundary_side r bounds; boundary_sides rs' bounds end.
Fixpoint query_boundaries (qs : list (list (node -> py bool))) (bounds : list ((nat * Z) * ref)) : st (list ((nat * Z) * ref)) :=
  match qs with
  | [] => mret bounds
  | q :: qs' => rs ← reading (refs_where q); bounds ← boundary_sides rs bounds; query_boundaries qs' bounds
  end.
(** The boundaries of each side that has some, in the order of the sides. *)
Definition collect_S_bnd_per_dir : st (list ((nat * Z) * list ref)) :=
  bounds ← query_boundaries bnd_queries [];
  mret (List.filter (fun p : (nat * Z) * list ref => negb (bool_decide (p.2 = [])))
          (map (fun side => (side, map snd (List.filter (fun b : (nat * Z) * ref => bool_decide (b.1 = side)) bounds))) geo_bnds)).

(** ** Boundary conditions of a partition *)

(** The numbers of the points of a data set in its range of the distributed zone. *)
Definition dataset_gnums (normal_idx : nat) (range_part_bc_g range_dist_bc sub_pr : prange) (size : list Z) : list Z :=
  let shifted := zip_with (fun r p => (r.1 + (p.1.1 - p.2.1), r.2 + (p.1.1 - p.2.1))) sub_pr (zip range_part_bc_g range_dist_bc) in
  window_gnum (grow (alter (fun _ => (1, 1)) normal_idx shifted)) size.
(** What is copied from the distributed boundary. *)
Definition raw_named (n : node) (name : string) : py pyval := c ← get_child_from_name n name no_kw; v ← raw_of c; Ret (of_value v).
Definition copy_bnd (dist_bc : node) (grid_loc : string) (p_zone_offset : list Z) : st () :=
  v ← st_lift (v ← get_value dist_bc false; arg_of v);
  _ ← set_value to_float32 v;
  _ ← under (new_GridLocation to_float32 grid_loc);
  transform ← st_lift (get_child_from_name dist_bc "Transform" no_kw);
  _ ← add_child transform;
  type ← st_lift (get_child_from_label dist_bc (StrLabel "GridConnectivityType_t") no_kw);
  _ ← add_child type;
  property ← st_lift (get_child_from_label dist_bc (StrLabel "GridConnectivityProperty_t") no_kw);
  _ ← add_child property;
  donor ← st_lift (get_child_from_name dist_bc donor_name no_kw);
  if is_none donor then mret () else
  _ ← add_child donor;
  pr ← st_lift (raw_named dist_bc "PointRange");
  _ ← under (leaf to_float32 "distPR" "IndexRange_t" pr);
  prd ← st_lift (raw_named dist_bc "PointRangeDonor");
  _ ← under (leaf to_float32 "distPRDonor" "IndexRange_t" prd);
  under (leaf to_float32 "zone_offset" "DataArray_t" (PArray (vec T_I4 p_zone_offset))).
(** The data set: its range, its numbering, then the copies. *)
Definition fill_dataset (sub_pr : prange) (gnums : list Z) (copies : st ()) : st () :=
  _ ← under (new_IndexRange to_float32 "PointRange" (range_array sub_pr));
  n ← reading Subset_n_elem;
  _ ← check (zlen gnums =? n);
  _ ← newGlobalNumbering to_float32 [("Index", gnum_array d gnums)];
  copies.
(** A node created under the node of a path, or without parent when the path leads nowhere. *)
Definition under_path (path : string) (p : preset) : st () := fun p_zone =>
  match ref_of_path p_zone path with
  | Some r => edit_at r (under p) p_zone
  | None => (p_zone, n ← (p None).2; Ret ())
  end.
Definition create_bnd (side : nat * Z) (p_zone_offset : list Z) (r : ref) (zones : node * node) : py (node * node) :=
  let '(d_zone, p_zone) := zones in
  let '(normal_idx, extr) := side in
  p_range ← zone_cell_range p_zone;
  d_range ← zone_cell_range d_zone;
  dist_bc ← of_option IndexError (node_at d_zone r);
  pr_n ← get_child_from_name dist_bc "PointRange" no_kw;
  pr_n ← of_option TypeError pr_n;
  range ← range_of (get_raw pr_n);
  loc ← Subset_GridLocation dist_bc;
  grid_loc ← text_of loc;
  sub ← part_bc_range d_range p_range p_zone_offset normal_idx extr range grid_loc;
  match sub with
  | None => Ret zones
  | Some sub_pr =>
      if bool_decide (get_label dist_bc = "BCDataSet_t") then
        path_n ← get_child_from_name dist_bc dspath no_kw;
        v ← value_of path_n;
        parent_path ← text_of v;
        d_zone ← applied (edit_at r (rm_child (Some (fun c => match_name c dspath)))) d_zone;
        size ← PointRange_SizePerIndex pr_n;
        let range_part_bc_g := part_boundary p_range p_zone_offset normal_idx extr in
        let range_dist_bc := pr_to_cell_location (swap_rows (dir_to_swap range) range) normal_idx grid_loc extr false in
        let gnums := dataset_gnums normal_idx range_part_bc_g range_dist_bc sub_pr size in
        p_zone ← applied (under_path parent_path (build to_float32 (get_name dist_bc) "BCDataSet_t" PNone (fill_dataset sub_pr gnums (copy_bnd dist_bc grid_loc p_zone_offset)))) p_zone;
        Ret (d_zone, p_zone)
      else
        p_zone ← applied (on_first (fun c => bool_decide (get_name c = "ZoneBC"))
                            (under (then_fill (new_BC to_float32 (get_name dist_bc) "Null" (Some (range_array sub_pr)) None None None) (copy_bnd dist_bc grid_loc p_zone_offset)))) p_zone;
        Ret (d_zone, p_zone)
  end.
(** The distributed zone after the call, and the partition. *)
Definition create_bcs (d_zone p_zone : node) (p_zone_offset : list Z) : py (node * node) :=
  p_zone ← applied (under (new_ZoneBC to_float32)) p_zone;
  let '(d_zone, r) := collect_S_bnd_per_dir d_zone in
  sides ← r;
  zones ← foldM (fun zones '(side, refs) =>
            p_range ← zone_cell_range zones.2;
            d_range ← zone_cell_range zones.1;
            if is_old_bc d_range (part_boundary p_range p_zone_offset side.1 side.2) side.1 side.2
            then foldM (fun zones r => create_bnd side p_zone_offset r zones) zones refs else Ret zones) (d_zone, p_zone) sides;
  let '(d_zone, p_zone) := zones in
  zbc ← of_option IndexError (child_named p_zone "ZoneBC");
  p_zone ← (if bool_decide (get_children zbc = []) then applied (rm_child (Some (fun c => bool_decide (get_name c = "ZoneBC")))) p_zone else Ret p_zone);
  Ret (d_zone, p_zone).

(** ** Partitions of the ranks *)

Definition gnums_by_entity (g : list Z * option (list Z) * list Z) : list (string * pyval) :=
  let '(vtx, face, cell) := g in
  [("Vertex", gnum_array d vtx)] ++ match face with Some face => [("Face", gnum_array d face)] | None => [] end ++ [("Cell", gnum_array d cell)].
Definition zone_dims (dims : list (Z * Z * Z)) : pyval :=
  PArray (NpArray T_I4 [zlen dims; 3] true (map (fun '(a, _, _) => a) dims ++ map (fun '(_, b, _) => b) dims ++ map (fun '(_, _, c) => c) dims)).
Definition cell_sizes (zone : node) : py (list Z) := s ← Zone_CellSize zone; match s with PerIndex l => Ret l | Total _ => Raise AttributeError end.
(** A partition with its boundary conditions; the bounds of its cells are stored with the last cell included. *)
Definition part_zone_node (g_rank : Z) (i_part : nat) (b : CutTree.part_bounds) (d_zone : node) : py (node * node) :=
  cell_size ← cell_sizes d_zone;
  t ← (a ← array_of (get_raw d_zone); Ret (a_type a));
  let pz := new_part_zone (get_name d_zone) cell_size g_rank i_part b in
  p_zone ← (new_Zone to_float32 (pz_name pz) "Structured" (zone_dims (pz_dims pz)) None None).2;
  p_zone ← applied (_ ← newGlobalNumbering to_float32 (gnums_by_entity (pz_gnums pz));
                    on_first (fun c => match_name c numbering_name)
                      (_ ← under (leaf to_float32 "CellRange" "IndexRange_t" (range_array (map (fun r => (r.1, r.2 - 1)) (cell_bounds b))));
                       under (new_DataArray to_float32 astype "CellSize" (PArray (vec t cell_size)) None))) p_zone;
  create_bcs d_zone p_zone (map fst (cell_bounds b)).
(** The joins between partitions. *)
Definition add_gcs (gcs : list intra_gc) : st () :=
  under (build to_float32 "ZoneGridConnectivity" "ZoneGridConnectivity_t" PNone (for_each (fun g => under (intra_gc_node to_float32 g)) gcs)).
Definition part_s_zone_rank (weights : list (list PyFloat.float)) (max_it : nat) (granks : list Z) (i_rank : nat) (g_rank : Z) (d_zone : node) : py (node * list node) :=
  cell_size ← cell_sizes d_zone;
  all_parts ← split_zone cell_size (concat weights) max_it;
  let mine := my_parts weights all_parts i_rank in
  r ← foldM (fun acc '(i_part, b) => z ← part_zone_node g_rank i_part b acc.1; Ret (z.1, acc.2 ++ [z.2])) (d_zone, []) (enumerate mine);
  let '(d_zone, p_zones) := r in
  _ ← (if bool_decide (mine = []) then Raise NameError else Ret ());
  gcs ← PartZone.create_internal_gcs (get_name d_zone) (cell_range cell_size) (PartNumbering.comm_of weights granks all_parts) g_rank (map part_of_bounds mine);
  p_zones ← mapM (fun p : node * list intra_gc => applied (add_gcs p.2) p.1) (zip p_zones gcs);
  Ret (d_zone, p_zones).
Definition part_s_zone_nodes (d_zones : list node) (weights : list (list PyFloat.float)) (max_it : nat) (granks : list Z) : py (list (node * list node)) :=
  mapM (fun '(i_rank, (g_rank, d_zone)) => part_s_zone_rank weights max_it granks i_rank g_rank d_zone) (enumerate (zip granks d_zones)).

(** ** The original joins *)

(** The joins found under the boundary conditions of the partitions of a rank: their ranges in the zone, the offsets. *)
Definition original_joins (part : node) : py (list (string * (string * prange)) * list (string * list Z)) :=
  dzone_name ← get_part_prefix (get_name part);
  rs ← refs_where [label_is "ZoneBC_t"; label_is "BC_t"] part;
  l ← mapM (fun r =>
        jn ← of_option IndexError (node_at part r);
        donor ← get_child_from_name jn donor_name no_kw;
        if is_none donor then Ret None else
        offset ← (v ← raw_child jn "zone_offset"; a ← array_of v; Ret (a_data a));
        pr ← (v ← raw_child jn "PointRange"; range_of v);
        Ret (Some ((dzone_name +:+ "/" +:+ get_name jn, (get_name part, pr_to_global_num pr offset false)), (get_name part, offset)))) rs;
  Ret (map fst (omap id l), map snd (omap id l)).
(** [ori_jn_to_pr[key].append(pr_n)] *)
Definition append_range (m : dict (list (string * prange))) (x : string * (string * prange)) : dict (list (string * prange)) :=
  match dict_get x.1 m with Ret l => dict_set x.1 (l ++ [x.2]) m | Raise _ => dict_set x.1 [x.2] m end.
Definition extend_ranges (m : dict (list (string * prange))) (x : string * list (string * prange)) : dict (list (string * prange)) :=
  match dict_get x.1 m with Ret l => dict_set x.1 (l ++ x.2) m | Raise _ => dict_set x.1 x.2 m end.
Definition gather_joins (ranks_parts : list (list node)) : py (dict (list (string * prange)) * dict (list Z)) :=
  ranks ← mapM (fun parts => l ← mapM original_joins parts; Ret (foldl append_range [] (concat (map fst l)), dict_of (concat (map snd l)))) ranks_parts;
  Ret (foldl (fun m r => foldl extend_ranges m r.1) [] ranks, foldl (fun m r => foldl (fun m p => dict_set p.1 p.2 m) m r.2) [] ranks).

Section split_joins.
Context (ori_jn_to_pr_glob : dict (list (string * prange))) (all_offset_zones : dict (list Z)).

Definition donor_zone (jn : node) : py string := v ← get_value jn false; text_of v.
(** The joins of the partition that replace an original one: one for each partition on the other side that it meets. *)
Definition split_join (jn : node) : py (list node) :=
  dist_pr ← (v ← raw_child jn "distPR"; range_of v);
  dist_prd ← (v ← raw_child jn "distPRDonor"; range_of v);
  let jn1to1 := let '(Node name v cs _) := jn in Node name v cs "GridConnectivity1to1_t" in
  transform ← GridConnectivity_Transform jn1to1;
  transform_n ← get_child_from_name jn "Transform" no_kw;
  t ← match transform_n with Some n => a ← array_of (get_raw n); Ret (a_type a) | None => Ret T_I4 end;
  let T_matrix := transform_matrix transform in
  loc ← Subset_GridLocation jn1to1;
  _ ← py_assert (is_text loc "Vertex");
  p_zone_offset ← (v ← raw_child jn "zone_offset"; a ← array_of v; Ret (a_data a));
  pr ← (v ← raw_child jn "PointRange"; range_of v);
  let pr := pr_to_global_num pr p_zone_offset false in
  _ ← normal_row (of_window (_gc_transform_window (window_of pr) (map fst dist_pr) (map fst dist_prd) T_matrix));
  opp_path ← donor_zone jn;
  donor ← (c ← get_child_from_name jn donor_name no_kw; v ← value_of c; text_of v);
  opp_last ← py_get (py_split slash opp_path) (-1);
  opposed_joins ← dict_get (opp_last +:+ "/" +:+ donor) ori_jn_to_pr_glob;
  property ← get_child_from_label jn (StrLabel "GridConnectivityProperty_t") no_kw;
  donor_n ← get_child_from_name jn donor_name no_kw;
  opp_first ← py_get (py_split slash opp_path) 0;
  let opp_base := if has_slash opp_path then opp_first +:+ "/" else "" in
  foldM (fun gcs '(opp_zone, pr_opp) =>
    opp_offset ← dict_get opp_zone all_offset_zones;
    r ← facing_original pr p_zone_offset (map fst dist_pr) (map fst dist_prd) T_matrix pr_opp opp_offset;
    match r with
    | None => Ret gcs
    | Some (sub_pr, sub_prd) =>
        gc ← (new_GridConnectivity1to1 to_float32 (get_name jn +:+ "." +:+ str_int (zlen gcs)) (Some (opp_base +:+ opp_zone)) None None
                (Some (PArray (vec t transform))) None).2;
        gc ← applied (_ ← under (new_IndexRange to_float32 "PointRange" (range_array sub_pr));
                      _ ← under (new_IndexRange to_float32 "PointRangeDonor" (range_array sub_prd));
                      _ ← add_child property;
                      add_child donor_n) gc;
        Ret (gcs ++ [gc])
    end) [] opposed_joins.
(** What a boundary condition of the partition becomes among the joins, and whether it is removed. *)
Definition moved_join (jn : node) : py (option (list node)) :=
  donor ← get_child_from_name jn donor_name no_kw;
  if is_none donor then
    type ← get_child_from_label jn (StrLabel "GridConnectivityType_t") no_kw;
    if is_none type then Ret None else
    jn ← applied (_ ← set_label "GridConnectivity_t"; rm_where (with_label "GridConnectivityType_t")) jn;
    Ret (Some [jn])
  else Some <$> split_join jn.
Definition in_zone_gc (f : st ()) : st () := on_first (fun c => match_name c "ZoneGridConnectivity") f.
(** [PT.rm_child(zbc, node)], the nodes being children of the first ZoneBC. *)
Definition rm_places (js : list nat) : st () := fun '(Node name v cs label) => (Node name v (del_positions js cs) label, Ret ()).
Definition split_part : st () :=
  _ ← update to_float32 "ZoneGridConnectivity" "ZoneGridConnectivity_t" None;
  rs ← reading (refs_where [label_is "ZoneBC_t"; label_is "BC_t"]);
  moved ← (fix go (rs : list ref) : st (list ref) :=
             match rs with
             | [] => mret []
             | r :: rs' =>
                 jn ← reading (fun part => of_option IndexError (node_at part r));
                 m ← st_lift (moved_join jn);
                 match m with
                 | None => go rs'
                 | Some gcs => _ ← in_zone_gc (for_each (fun gc => add_child (Some gc)) gcs); rest ← go rs'; mret (r :: rest)
                 end
             end) rs;
  zbc ← reading (fun part => Ret (find_child (with_label "ZoneBC_t") (get_children part)));
  if forallb (fun r : ref => bool_decide (head r = zbc)) moved then
    if bool_decide (moved = []) then mret () else on_first (with_label "ZoneBC_t") (rm_places (omap last moved))
  else st_raise RuntimeError.
End split_joins.
Definition split_original_joins_S (ranks_parts : list (list node)) : py (list (list node)) :=
  g ← gather_joins ranks_parts;
  mapM (mapM (applied (split_part g.1 g.2))) ranks_parts.
End part_tree.

(** ** The path of a data set *)

(** A zone of sixteen cells with a boundary condition whose data set is on the first cells. *)
Definition ex_text (s : string) : value := Some (NpArray T_C1 [Z.of_nat (String.length s)] true (codes s)).
Definition ex_range (lo hi : list Z) : node := Node "PointRange" (Some (NpArray T_I4 [3; 2] true (lo ++ hi))) [] "IndexRange_t".
Definition ex_zone : node :=
  Node "Zone" (Some (NpArray T_I4 [3; 3] true [5; 3; 3; 4; 2; 2; 0; 0; 0]))
    [Node "ZoneType" (ex_text "Structured") [] "ZoneType_t";
     Node "ZoneBC" None
       [Node "bc" (ex_text "BCWall")
          [ex_range [1; 1; 1] [5; 3; 1];
           Node "DataSet" (ex_text "Null") [Node "GridLocation" (ex_text "KFaceCenter") [] "GridLocation_t"; ex_range [1; 1; 1] [1; 2; 1]] "BCDataSet_t"] "BC_t"] "ZoneBC_t"] "Zone_t".
Definition has_dspath (zone : node) : bool := match get_node_from_path zone "ZoneBC/bc/DataSet/__maia::dspath" with Some _ => true | None => false end.
(** The numbers of the points of the data set on a partition. *)
Definition dataset_numbers (part : node) : option (list Z) := n ← get_node_from_path part "ZoneBC/bc/DataSet/:CGNS#GlobalNumbering/Index"; a_data <$> get_raw n.

(** The path that the traversal of the boundaries writes in a data set is removed from the distributed zone by the partitions
    that have a part of the data set, and left by the others: it stays when the last partition has none. *)
Theorem dataset_path_left :
  exists d_zone parts, @part_s_zone_nodes (fun a b => bool_decide (a = b)) (fun x => x) (fun _ _ x => x) Prelude.I4 [ex_zone] [[PyFloat.fdiv (PyFloat.of_int 1) (PyFloat.of_int 2); PyFloat.fdiv (PyFloat.of_int 1) (PyFloat.of_int 2)]] 100 [0] = Ret [(d_zone, parts)] /\
    map dataset_numbers parts = [Some [1; 2]; None] /\ has_dspath ex_zone = false /\ has_dspath d_zone = true.
Proof. do 2 eexists. split; [vm_compute; reflexivity|]. by vm_compute. Qed.
End PartTree.
