(* ===== verification/Balancing.v ===== *)
(** * Load balancing: [maia/factory/partitioning/load_balancing]

    [homogeneous_repart] of [single_zone_balancing.py], [karmarkar_karp] and
    [balance_with_uniform_weights] of [multi_zone_balancing.py], the requests of parts of
    [setup_partition_weights.py].  Numbers of elements are numpy integers: a floor division by zero
    gives zero. *)
From Stdlib Require Import SpecFloat.
From S2P Require Import Prelude PyFloat Values Fnmatch Tree Parsers Walkers Search Sids.
Open Scope Z_scope.

Module Balancing.
Import PyFloat.

(** ** [single_zone_balancing.py] *)
Definition homogeneous_repart (n_elem_zone : Z) (n_part : nat) : list Z :=
  let step := n_elem_zone / Z.of_nat n_part in
  let remainder := n_elem_zone mod Z.of_nat n_part in
  let zone_repart := replicate n_part step in
  map (Z.add 1) (slice_to zone_repart remainder) ++ slice_from zone_repart remainder.

(** ** [karmarkar_karp] *)

(** [numbers[s].sum()] *)
Definition subset_weight (numbers : list Z) (s : list nat) : Z := zsum (map (fun i => default 0 (numbers !! i)) s).

(** Comparison of Python lists. *)
Fixpoint lex {A} (cmp : A -> A -> comparison) (l k : list A) : comparison :=
  match l, k with
  | [], [] => Eq
  | [], _ => Lt
  | _, [] => Gt
  | x :: l', y :: k' => match cmp x y with Eq => lex cmp l' k' | c => c end
  end.

(** An entry of the heap: the opposite of the difference between the loads, and the bins.  The heap is
    the sorted list of its entries: [heappop] takes the least one. *)
Abbreviation entry := (Z * list (list nat))%type.
Definition entry_le (a b : entry) : bool :=
  match a.1 ?= b.1 with
  | Lt => true
  | Gt => false
  | Eq => match lex (lex Nat.compare) a.2 b.2 with Gt => false | _ => true end
  end.
Definition heappush (heap : list entry) (e : entry) : list entry := insert_by entry_le e heap.

Definition ini_subset (n_bin i : nat) : list (list nat) := replicate (n_bin - 1) [] ++ [[i]].

(** The combination of two sets of bins sorted by load, the most loaded with the least loaded. *)
Definition combine (numbers : list Z) (n_bin : nat) (first second : list (list nat)) : py entry :=
  combined ← mapM (fun i =>
    a ← py_get first (Z.of_nat i);
    b ← py_get second (Z.of_nat n_bin - Z.of_nat i - 1);
    Ret (a ++ b)) (seq 0 n_bin);
  let combined := sort_by (fun s s' => subset_weight numbers s <=? subset_weight numbers s') combined in
  max_subset ← py_get combined (-1);
  min_subset ← py_get combined 0;
  Ret (- (subset_weight numbers max_subset - subset_weight numbers min_subset), combined).

(** The [while] loop: a turn replaces two entries by one. *)
Fixpoint combine_all (fuel : nat) (numbers : list Z) (n_bin : nat) (heap : list entry) : py (list (list nat)) :=
  match heap with
  | [] => Raise IndexError
  | [(_, final_subsets)] => Ret final_subsets
  | (_, first) :: (_, second) :: heap' =>
      match fuel with
      | O => Raise OutOfFuel
      | S fuel' => e ← combine numbers n_bin first second; combine_all fuel' numbers n_bin (heappush heap' e)
      end
  end.

Definition karmarkar_karp (numbers : list Z) (n_bin : nat) : py (list (list nat)) :=
  let all_subsets := foldl heappush [] (imap (fun i number => (- number, ini_subset n_bin i)) numbers) in
  combine_all (length numbers) numbers n_bin all_subsets.

(** ** [balance_with_uniform_weights] *)

(** A zone of the dictionaries [n_elem_zone_abs] and [dproc_to_zone], in their common order. *)
Record zone := Zone { z_name : string; z_elem : Z; z_procs : list nat }.
Definition add_procs (l : list nat) (z : zone) : zone := Zone (z_name z) (z_elem z) (z_procs z ++ l).
Definition no_proc (z : zone) : bool := bool_decide (z_procs z = []).

(** The loop on [j_zone]: small zones without rank share the ranks of the current zone. *)
Fixpoint share_rest (cur_rank n_rank_zone ii_rank : nat) (r_elem : Z) (zs : list zone) : list zone :=
  match zs with
  | [] => []
  | z :: zs' =>
      if negb (no_proc z) || (n_rank_zone =? 0)%nat then z :: share_rest cur_rank n_rank_zone ii_rank r_elem zs'
      else if z_elem z <=? r_elem then
        let ii_rank := if (n_rank_zone <? ii_rank)%nat then 0%nat else ii_rank in
        add_procs [(ii_rank + cur_rank)%nat] z ::
          share_rest cur_rank n_rank_zone (S ii_rank) (r_elem - z_elem z) zs'
      else z :: share_rest cur_rank n_rank_zone ii_rank r_elem zs'
  end.

(** The loop on [i_zone], for the positions [todo]. *)
Fixpoint affect_ranks (mean_per_rank : Z) (todo : list nat) (zs : list zone) (cur_rank : nat) : list zone * nat :=
  match todo with
  | [] => (zs, cur_rank)
  | i :: todo' =>
      match zs !! i with
      | None => (zs, cur_rank)
      | Some z =>
          let n_rank_zone := Z.to_nat (z_elem z / mean_per_rank) in
          let zs := <[i := add_procs (seq cur_rank n_rank_zone) z]> zs in
          let r_elem := z_elem z - Z.of_nat n_rank_zone * mean_per_rank in
          affect_ranks mean_per_rank todo' (share_rest cur_rank n_rank_zone 0 r_elem zs) (cur_rank + n_rank_zone)
      end
  end.

(** The zones without rank put on one rank. *)
Fixpoint fill_rank (cur_rank : nat) (mean_per_rank n_elem_remain : Z) (zs : list zone) : list zone :=
  match zs with
  | [] => []
  | z :: zs' =>
      if no_proc z && (n_elem_remain + z_elem z <=? mean_per_rank) then
        add_procs [cur_rank] z :: fill_rank cur_rank mean_per_rank (n_elem_remain + z_elem z) zs'
      else z :: fill_rank cur_rank mean_per_rank n_elem_remain zs'
  end.
(** The first [while d_remain_zones]. *)
Fixpoint fill_ranks (fuel : nat) (n_rank : nat) (mean_per_rank : Z) (zs : list zone) (cur_rank : nat)
    : py (list zone * nat) :=
  if existsb no_proc zs then
    match fuel with
    | O => Raise OutOfFuel
    | S fuel' =>
        let zs := fill_rank cur_rank mean_per_rank 0 zs in
        let cur_rank := S cur_rank in
        if (n_rank =? cur_rank)%nat then Ret (zs, cur_rank) else fill_ranks fuel' n_rank mean_per_rank zs cur_rank
    end
  else Ret (zs, cur_rank).

(** [n_elem_mpi_tmp[lprocs] += n_elem/len(lprocs)] *)
Definition add_load (load : list float) (z : zone) : py (list float) :=
  if forallb (fun r => (r <? length load)%nat) (z_procs z) then
    Ret (imap (fun r x => if bool_decide (r ∈ z_procs z) then fadd x (np_div (z_elem z) (zlen (z_procs z))) else x) load)
  else Raise IndexError.
Fixpoint loads (load : list float) (zs : list zone) : py (list float) :=
  match zs with [] => Ret load | z :: zs' => load ← add_load load z; loads load zs' end.

(** [np.argmin]: the first of the least values. *)
Fixpoint argmin_loop (i best : nat) (m : float) (l : list float) : nat :=
  match l with
  | [] => best
  | x :: l' => if SFltb x m then argmin_loop (S i) i x l' else argmin_loop (S i) best m l'
  end.
Definition argmin (l : list float) : py nat :=
  match l with [] => Raise ValueError | x :: l' => Ret (argmin_loop 1 0 x l') end.

(** The second [while d_remain_zones]: each zone without rank, in order, goes to the least loaded rank. *)
Fixpoint place_remaining (load : list float) (zs : list zone) : py (list zone) :=
  match zs with
  | [] => Ret []
  | z :: zs' =>
      if no_proc z then
        min_loaded_proc ← argmin load;
        rest ← place_remaining (alter (fun x => fadd x (of_int (z_elem z))) min_loaded_proc load) zs';
        Ret (add_procs [min_loaded_proc] z :: rest)
      else rest ← place_remaining load zs'; Ret (z :: rest)
  end.

(** [max] on the number of elements by rank: the position of the first of the greatest. *)
Fixpoint max_zone_loop (i best : nat) (m : float) (zs : list zone) : nat :=
  match zs with
  | [] => best
  | z :: zs' =>
      let x := np_div (z_elem z) (zlen (z_procs z)) in
      if SFltb m x then max_zone_loop (S i) i x zs' else max_zone_loop (S i) best m zs'
  end.
Definition max_zone (zs : list zone) : py nat :=
  match zs with
  | [] => Raise ValueError
  | z :: zs' => Ret (max_zone_loop 1 0 (np_div (z_elem z) (zlen (z_procs z))) zs')
  end.
(** The [while(cur_rank != n_rank)]: it does not end when [cur_rank] is greater. *)
Fixpoint use_ranks (fuel n_rank : nat) (zs : list zone) (cur_rank : nat) : py (list zone) :=
  if (cur_rank =? n_rank)%nat then Ret zs else
  match fuel with
  | O => Raise OutOfFuel
  | S fuel' => i ← max_zone zs; use_ranks fuel' n_rank (alter (add_procs [cur_rank]) i zs) (S cur_rank)
  end.

(** [[next(it) if i in procs else 0 for i in range(n_rank)]] *)
Fixpoint unpack (procs : list nat) (it : list Z) (ranks : list nat) : py (list Z) :=
  match ranks with
  | [] => Ret []
  | i :: ranks' =>
      if bool_decide (i ∈ procs) then
        match it with [] => Raise StopIteration | x :: it' => r ← unpack procs it' ranks'; Ret (x :: r) end
      else r ← unpack procs it ranks'; Ret (0 :: r)
  end.
Definition zone_repart (n_rank : nat) (z : zone) : py (string * list Z) :=
  let procs := remove_dups (z_procs z) in
  r ← unpack procs (homogeneous_repart (z_elem z) (length procs)) (seq 0 n_rank);
  Ret (z_name z, r).

Definition balance_with_uniform_weights (n_elem_per_zone : list (string * Z)) (n_rank : nat)
    : py (list (string * list Z)) :=
  let sorted_zone := sort_by (fun a b => b.2 <=? a.2) n_elem_per_zone in
  let n_elem_tot := zsum (map snd sorted_zone) in
  _ ← py_min (map snd sorted_zone);
  let mean_per_rank := n_elem_tot / Z.of_nat n_rank in
  let zs := map (fun '(name, n) => Zone name n []) sorted_zone in
  let '(zs, cur_rank) := affect_ranks mean_per_rank (seq 0 (length zs)) zs 0 in
  r ← fill_ranks (length zs + n_rank) n_rank mean_per_rank zs cur_rank;
  let '(zs, cur_rank) := r in
  load ← loads (replicate n_rank (of_int 0)) zs;
  zs ← place_remaining load zs;
  zs ← use_ranks n_rank n_rank zs cur_rank;
  mapM (zone_repart n_rank) zs.

(** ** [setup_partition_weights.py] *)
Section requests.
Context `{Walkers.ArrayEqual}.
Import Walkers Search Sids.

(** The zones of a tree and their numbers of cells, or of vertices for point clouds. *)
Definition zone_at (tree : Tree.node) (zone_path : string) : py Tree.node :=
  of_option TypeError (get_node_from_path tree zone_path).
Definition nb_elmts (tree : Tree.node) (zone_paths : list string) : py (list Z) :=
  n_cells ← mapM (fun p => z ← zone_at tree p; Zone_n_cell z) zone_paths;
  m ← py_min n_cells;
  if m =? 0 then mapM (fun p => z ← zone_at tree p; Zone_n_vtx z) zone_paths else Ret n_cells.

(** The matrix [repart_per_zone] of [compute_nosplit_weights]: a line by block, a column by rank. *)
Definition nosplit_repart (nb_elts : list Z) (n_rank : nat) : py (list (list Z)) :=
  if (n_rank =? 1)%nat then Ret (map (fun n => [n]) nb_elts)
  else if (length nb_elts <=? n_rank)%nat then
    Ret (imap (fun i n => map (fun r => if (r =? i)%nat then n else 0) (seq 0 n_rank)) nb_elts)
  else
    subset_indices ← karmarkar_karp nb_elts n_rank;
    Ret (imap (fun i n => map (fun rank_idx => if bool_decide (i ∈ rank_idx) then n else 0) subset_indices) nb_elts).

(** The zones a rank requests, each as a single part. *)
Definition requested (zone_paths : list string) (repart : list (list Z)) (i_rank : nat) : list (string * list float) :=
  omap (fun '(p, row) => if 0 <? default 0 (row !! i_rank) then Some (p, [of_int 1]) else None) (zip zone_paths repart).
Definition compute_nosplit_weights (tree : Tree.node) (i_rank n_rank : nat) : py (list (string * list float)) :=
  zone_paths ← predicates_to_paths tree (QsPath "CGNSBase_t/Zone_t");
  nb_elts ← nb_elmts tree zone_paths;
  repart ← nosplit_repart nb_elts n_rank;
  Ret (requested zone_paths repart i_rank).

(** [npart_per_zone]: [n_parts] gives the number of parts each rank requests. *)
Definition rank_repart (n_parts : list nat) (i_rank : nat) (n_cell : Z) : list Z :=
  let n_part_distri := scan 0 (map Z.of_nat n_parts) in
  let start_idx := default 0 (n_part_distri !! i_rank) in
  let end_idx := default 0 (n_part_distri !! S i_rank) in
  py_slice (homogeneous_repart n_cell (sum_list n_parts)) start_idx end_idx.
Definition npart_per_zone (tree : Tree.node) (i_rank : nat) (n_parts : list nat) : py (list (string * list float)) :=
  zone_paths ← predicates_to_paths tree (QsPath "CGNSBase_t/Zone_t");
  nb ← nb_elmts tree zone_paths;
  Ret (zip_with (fun p n => (p, map (fun k => np_div k n) (rank_repart n_parts i_rank n))) zone_paths nb).

(** [balance_multizone_tree] with [only_uniform]. *)
Definition size_of (sizes : list (string * Z)) (p : string) : Z :=
  match filter (fun q : string * Z => q.1 = p) sizes with q :: _ => q.2 | [] => 0 end.
Definition rank_request (sizes : list (string * Z)) (i_rank : nat) (r : string * list Z) : option (string * list float) :=
  let k := default 0 (r.2 !! i_rank) in
  if 0 <? k then Some (r.1, [np_div k (size_of sizes r.1)]) else None.
Definition requests_of (sizes : list (string * Z)) (i_rank : nat) (l : list (string * list Z)) : list (string * list float) :=
  omap (rank_request sizes i_rank) l.
Definition balance_multizone_tree_uniform (tree : Tree.node) (i_rank n_rank : nat) : py (list (string * list float)) :=
  zone_paths ← predicates_to_paths tree (QsPath "CGNSBase_t/Zone_t");
  nb ← nb_elmts tree zone_paths;
  let sizes := zip zone_paths nb in
  repart_per_zone ← balance_with_uniform_weights sizes n_rank;
  Ret (requests_of sizes i_rank repart_per_zone).
End requests.

(** ** Homogeneous parts *)

Lemma homogeneous_spec n p :
  0 <= n -> (0 < p)%nat ->
  length (homogeneous_repart n p) = p /\ zsum (homogeneous_repart n p) = n /\
  forall x, x ∈ homogeneous_repart n p -> n / Z.of_nat p <= x <= n / Z.of_nat p + 1.
Proof.
  intros Hn Hp. unfold homogeneous_repart, slice_to, slice_from.
  set (q := n / Z.of_nat p). set (r := n mod Z.of_nat p).
  assert (Hr : 0 <= r < Z.of_nat p) by (apply Z.mod_pos_bound; lia).
  assert (Hdiv : n = Z.of_nat p * q + r) by (apply Z.div_mod; lia).
  rewrite clamp_nonneg by lia. rewrite length_replicate, take_replicate, drop_replicate.
  rewrite !(Nat.min_l (Z.to_nat r) p) by lia.
  replace (map (Z.add 1) (replicate (Z.to_nat r) q)) with (replicate (Z.to_nat r) (1 + q)) by (symmetry; apply fmap_replicate).
  split_and!.
  - rewrite length_app, !length_replicate. lia.
  - rewrite zsum_app, !zsum_replicate. nia.
  - intros x Hx. apply elem_of_app in Hx as [Hx|Hx]; apply elem_of_replicate in Hx as [-> _]; lia.
Qed.

(** ** Differencing *)

Section differencing.
Context (numbers : list Z).
#[local] Abbreviation W := (subset_weight numbers).

Lemma weight_app s s' : W (s ++ s') = W s + W s'.
Proof using Type. unfold subset_weight. by rewrite map_app, zsum_app. Qed.

Context (n_bin : nat) (M : Z).
Hypothesis n_bin_pos : (0 < n_bin)%nat.

(** Bins sorted by load whose loads differ at most by [M]. *)
Definition balanced (bins : list (list nat)) : Prop :=
  length bins = n_bin /\ StronglySorted (fun a b => (W a <=? W b) = true) bins /\
  forall a b, a ∈ bins -> b ∈ bins -> W a - W b <= M.

Lemma combine_spec first second :
  balanced first -> balanced second ->
  exists k bins, combine numbers n_bin first second = Ret (k, bins) /\ balanced bins /\
    concat bins ≡ₚ concat first ++ concat second.
Proof using n_bin_pos.
  intros (L1 & S1 & B1) (L2 & S2 & B2).
  set (combined := zip_with app first (reverse second)).
  assert (Lc : length combined = n_bin) by (unfold combined; rewrite length_zip_with, length_reverse; lia).
  assert (Ec : mapM (fun i => a ← py_get first (Z.of_nat i); b ← py_get second (Z.of_nat n_bin - Z.of_nat i - 1); Ret (a ++ b))
    (seq 0 n_bin) = Ret combined).
  { apply py_mapM_lookup; [by rewrite length_seq|]. intros i j x Hj Hx. apply lookup_seq in Hj as [-> Hi]. cbn [Nat.add].
    apply lookup_zip_with_Some in Hx as (a & b & -> & Ha & Hb). rewrite reverse_lookup in Hb by lia. rewrite L2 in Hb.
    rewrite (py_get_lookup _ _ _ Ha). cbn [mbind py_bind].
    replace (Z.of_nat n_bin - Z.of_nat i - 1) with (Z.of_nat (n_bin - S i)) by lia. by rewrite (py_get_lookup _ _ _ Hb). }
  set (le := fun s s' => W s <=? W s'). set (bins := sort_by le combined).
  assert (Hperm : bins ≡ₚ combined) by apply sort_by_perm.
  assert (Lb : length bins = n_bin) by (by rewrite Hperm).
  destruct (py_get_first bins) as [mn Emn]; [by intros E; rewrite E in Lb; cbn in Lb; lia|].
  destruct (py_get_final bins) as [mx Emx]; [by intros E; rewrite E in Lb; cbn in Lb; lia|].
  exists (- (W mx - W mn)), bins. split_and!.
  - unfold combine. rewrite Ec. cbn [mbind py_bind]. fold le. fold bins. rewrite Emx. cbn [mbind py_bind]. by rewrite Emn.
  - split_and!; [done|apply sort_by_sorted; subst le; cbn; intros; lia|].
    intros x y Hx Hy. rewrite Hperm in Hx, Hy.
    apply list_elem_of_lookup in Hx as (i & Hx), Hy as (j & Hy).
    apply lookup_zip_with_Some in Hx as (a & b & -> & Ha & Hb), Hy as (a' & b' & -> & Ha' & Hb').
    pose proof (lookup_lt_Some _ _ _ Ha) as Hi. pose proof (lookup_lt_Some _ _ _ Ha') as Hj.
    rewrite reverse_lookup in Hb, Hb' by lia. rewrite !weight_app.
    pose proof (B1 a a' (list_elem_of_lookup_2 _ _ _ Ha) (list_elem_of_lookup_2 _ _ _ Ha')).
    pose proof (B2 b b' (list_elem_of_lookup_2 _ _ _ Hb) (list_elem_of_lookup_2 _ _ _ Hb')).
    destruct (lt_eq_lt_dec i j) as [[Hlt| ->]|Hlt].
    + pose proof (sorted_lookup _ _ _ _ _ _ S1 Hlt Ha Ha') as Hle%Z.leb_le. lia.
    + simplify_eq. lia.
    + assert (Hlt' : (length second - S i < length second - S j)%nat) by lia.
      pose proof (sorted_lookup _ _ _ _ _ _ S2 Hlt' Hb Hb') as Hle%Z.leb_le. lia.
  - rewrite Hperm. subst combined. rewrite (concat_zip_app first (reverse second)) by (rewrite length_reverse; lia).
    by rewrite reverse_Permutation.
Qed.

Definition heap_ok (heap : list entry) : Prop := Forall (fun e => balanced e.2) heap.
Definition held (heap : list entry) : list nat := concat (map (fun e => concat e.2) heap).

Lemma combine_all_spec fuel heap :
  heap_ok heap -> heap <> [] -> (length heap <= S fuel)%nat ->
  exists bins, combine_all fuel numbers n_bin heap = Ret bins /\ balanced bins /\ concat bins ≡ₚ held heap.
Proof using n_bin_pos.
  revert heap. induction fuel as [|fuel IH]; intros heap Hok Hne Hl; destruct heap as [|[k1 f] [|[k2 s] heap]]; try done;
    try (cbn in Hl; lia).
  1,2: exists f; apply Forall_cons in Hok as [Hf _]; split_and!; [done|done|]; unfold held; cbn; by rewrite app_nil_r.
  apply Forall_cons in Hok as [Hf Hok]. apply Forall_cons in Hok as [Hs Hok]. cbn [snd] in *.
  destruct (combine_spec f s Hf Hs) as (k & bins & E & Hb & Hp). cbn [combine_all]. rewrite E. cbn [mbind py_bind].
  assert (Hpush : heappush heap (k, bins) ≡ₚ (k, bins) :: heap) by apply insert_by_perm.
  destruct (IH (heappush heap (k, bins))) as (final & Ef & Hbf & Hpf).
  - unfold heap_ok. rewrite Hpush. by constructor.
  - intros En. rewrite En in Hpush. by apply Permutation_nil_cons in Hpush.
  - rewrite Hpush. cbn in *. lia.
  - exists final. split_and!; [done|done|]. rewrite Hpf. unfold held. rewrite Hpush. cbn. rewrite Hp. by rewrite app_assoc.
Qed.
End differencing.

Lemma ini_balanced numbers n_bin M i x :
  (0 < n_bin)%nat -> numbers !! i = Some x -> 0 <= x <= M -> balanced numbers n_bin M (ini_subset n_bin i).
Proof.
  intros Hn Hi Hx. unfold ini_subset.
  assert (Hw : subset_weight numbers [i] = x) by (unfold subset_weight; cbn; rewrite Hi; cbn; lia).
  assert (He : subset_weight numbers [] = 0) by done. split_and!.
  - rewrite length_app, length_replicate. cbn. lia.
  - apply StronglySorted_app. split_and!; [|clear|repeat constructor].
    + intros a b Ha Hb. apply elem_of_replicate in Ha as [-> _]. apply list_elem_of_singleton in Hb as ->.
      rewrite Hw, He. lia.
    + induction (n_bin - 1)%nat as [|k IH]; constructor; [done|]. apply Forall_replicate. apply Z.leb_refl.
  - intros a b Ha Hb. apply elem_of_app in Ha as [Ha|Ha], Hb as [Hb|Hb];
      rewrite ?elem_of_replicate, ?list_elem_of_singleton in *; destruct_and?; subst; lia.
Qed.

Lemma karmarkar_bins numbers n_bin M :
  numbers <> [] -> (0 < n_bin)%nat -> Forall (fun x => 0 <= x <= M) numbers ->
  exists bins, karmarkar_karp numbers n_bin = Ret bins /\ length bins = n_bin /\
    concat bins ≡ₚ seq 0 (length numbers) /\
    StronglySorted (fun a b => (subset_weight numbers a <=? subset_weight numbers b) = true) bins /\
    forall a b, a ∈ bins -> b ∈ bins -> subset_weight numbers a - subset_weight numbers b <= M.
Proof.
  intros Hne Hn Hx. unfold karmarkar_karp. set (entries := imap (fun i number => (- number, ini_subset n_bin i)) numbers).
  assert (Hheap : forall es heap, foldl heappush heap es ≡ₚ es ++ heap).
  { induction es as [|e es IH]; intros heap; cbn [foldl app]; [done|]. rewrite IH. unfold heappush.
    rewrite insert_by_perm. symmetry. apply Permutation_middle. }
  specialize (Hheap entries []). rewrite app_nil_r in Hheap.
  assert (Hl : length entries = length numbers) by apply length_imap.
  destruct (combine_all_spec numbers n_bin M Hn (length numbers) (foldl heappush [] entries)) as (bins & E & (L & S & B) & Hp).
  - unfold heap_ok. rewrite Hheap. apply Forall_lookup_2. intros i e He. unfold entries in He. rewrite list_lookup_imap in He.
    destruct (numbers !! i) as [x|] eqn:Ei; cbn in He; [|done]. simplify_eq.
    apply (ini_balanced _ _ _ _ x); [done|done|]. by apply (Forall_lookup_1 _ _ _ _ Hx) in Ei.
  - intros En. rewrite En in Hheap. apply Permutation_nil in Hheap. rewrite Hheap in Hl. by destruct numbers.
  - rewrite Hheap. lia.
  - exists bins. split_and!; [done|done| |done|done]. rewrite Hp. unfold held. rewrite Hheap.
    replace (map (fun e => concat e.2) entries) with (map (fun i => [i]) (seq 0 (length numbers))).
    { induction (seq 0 (length numbers)) as [|i l IH]; [done|]. cbn. by rewrite IH. }
    apply list_eq. intros i. unfold entries. rewrite !lookup_map, list_lookup_imap. destruct (numbers !! i) as [x|] eqn:Ei; cbn.
    + apply lookup_lt_Some in Ei. rewrite (proj2 (lookup_seq 0 (length numbers) i i)) by lia. cbn.
      f_equal. unfold ini_subset. induction (n_bin - 1)%nat as [|k IH]; [done|]. cbn. exact IH.
    + apply lookup_ge_None in Ei. rewrite lookup_seq_ge by lia. done.
Qed.

(** C38: [karmarkar_karp] ends and deals the numbers into [n_bin] bins: each index is in exactly one bin,
    the bins are sorted by load, and two loads differ at most by the greatest number. *)
Theorem karmarkar_karp_spec numbers n_bin M :
  numbers <> [] -> (0 < n_bin)%nat -> Forall (fun x => 0 <= x <= M) numbers ->
  exists bins, karmarkar_karp numbers n_bin = Ret bins /\ length bins = n_bin /\
    concat bins ≡ₚ seq 0 (length numbers) /\
    StronglySorted (fun a b => (subset_weight numbers a <=? subset_weight numbers b) = true) bins /\
    forall a b, a ∈ bins -> b ∈ bins -> subset_weight numbers a - subset_weight numbers b <= M.
Proof. apply karmarkar_bins. Qed.

Lemma karmarkar_karp_spec_witness :
  exists bins, karmarkar_karp [9; 4; 7; 6; 8; 5] 3 = Ret bins /\ bins = [[1; 0]; [5; 4]; [3; 2]]%nat /\
    concat bins ≡ₚ seq 0 6.
Proof.
  destruct (karmarkar_karp_spec [9; 4; 7; 6; 8; 5] 3 9) as (bins & E & _ & Hp & _); [done|lia|repeat constructor; lia|].
  exists bins. split; [done|]. split; [vm_compute in E; by injection E as <-|done].
Defined.

(** ** Uniform balancing *)

(** A zone keeps its name and its elements, and only gains ranks. *)
Definition grows (z z' : zone) : Prop :=
  z_name z' = z_name z /\ z_elem z' = z_elem z /\ exists l, z_procs z' = z_procs z ++ l.
#[export] Instance grows_preorder : PreOrder grows.
Proof.
  split; [intros z; split_and!; [done..|exists []; by rewrite app_nil_r]|].
  intros x y z (N1 & E1 & l1 & P1) (N2 & E2 & l2 & P2). split_and!; [congruence..|].
  exists (l1 ++ l2). by rewrite P2, P1, app_assoc.
Qed.

Definition grow (zs zs' : list zone) : Prop := Forall2 grows zs zs'.
#[export] Instance grow_preorder : PreOrder grow.
Proof.
  split; [intros zs; apply Forall_Forall2_diag, Forall_true; intros; reflexivity|].
  intros x y z H1 H2. unfold grow in *. etransitivity; eassumption.
Qed.

Lemma grows_add l z : grows z (add_procs l z).
Proof. split_and!; [done..|]. by exists l. Qed.

Lemma grow_insert zs i z z' : zs !! i = Some z -> grows z z' -> grow zs (<[i := z']> zs).
Proof.
  intros Hi Hz. apply Forall2_same_length_lookup. rewrite length_insert. split; [done|]. intros j a b Ha Hb.
  destruct (decide (j = i)) as [->|Hne].
  - rewrite list_lookup_insert_eq in Hb by (by eapply lookup_lt_Some). by simplify_eq.
  - rewrite list_lookup_insert_ne in Hb by done. simplify_eq. reflexivity.
Qed.

Lemma grow_share cur n ii r zs : grow zs (share_rest cur n ii r zs).
Proof.
  revert ii r. induction zs as [|z zs IH]; intros ii r; cbn [share_rest]; [constructor|].
  destruct (_ || _); [constructor; [reflexivity|apply IH]|].
  destruct (z_elem z <=? r); constructor; [apply grows_add|apply IH|reflexivity|apply IH].
Qed.

Lemma grow_fill cur mean n zs : grow zs (fill_rank cur mean n zs).
Proof.
  revert n. induction zs as [|z zs IH]; intros n; cbn [fill_rank]; [constructor|].
  destruct (_ && _); constructor; [apply grows_add|apply IH|reflexivity|apply IH].
Qed.

(** A rank is affected to some zone. *)
Definition used (r : nat) (zs : list zone) : Prop := exists z, z ∈ zs /\ r ∈ z_procs z.

Lemma used_grow r zs zs' : grow zs zs' -> used r zs -> used r zs'.
Proof.
  intros Hg (z & Hz & Hr). apply list_elem_of_lookup in Hz as (i & Hi).
  destruct (Forall2_lookup_l _ _ _ _ _ Hg Hi) as (z' & Hi' & _ & _ & l & Hl). exists z'.
  split; [by eapply list_elem_of_lookup_2|]. rewrite Hl. apply elem_of_app. by left.
Qed.

(** The ranks below [cur] that matter: none, or the last one is used. *)
Definition last_used (cur : nat) (zs : list zone) : Prop := cur = 0%nat \/ used (cur - 1) zs.

Lemma affect_ranks_spec mean todo zs cur zs' cur' :
  affect_ranks mean todo zs cur = (zs', cur') -> Forall (fun i => i < length zs)%nat todo -> last_used cur zs ->
  grow zs zs' /\ last_used cur' zs' /\
  (forall i z', i ∈ todo -> zs' !! i = Some z' -> z_procs z' = [] -> Z.to_nat (z_elem z' / mean) = 0%nat) /\
  (mean = 0 -> cur' = cur).
Proof.
  revert zs cur. induction todo as [|i todo IH]; intros zs cur E Htodo Hlast; cbn [affect_ranks] in E.
  { simplify_eq. split_and!; [reflexivity|done|set_solver|done]. }
  apply Forall_cons in Htodo as [Hi Htodo]. destruct (lookup_lt_is_Some_2 zs i Hi) as [z Hz]. rewrite Hz in E.
  set (n := Z.to_nat (z_elem z / mean)) in *. set (zs1 := <[i := add_procs (seq cur n) z]> zs) in *.
  set (r_elem := z_elem z - Z.of_nat n * mean) in *.
  assert (G1 : grow zs zs1) by (by eapply grow_insert; [|apply grows_add]).
  pose proof (grow_share cur n 0 r_elem zs1) as G2. set (zs2 := share_rest cur n 0 r_elem zs1) in *.
  assert (Hz1 : zs1 !! i = Some (add_procs (seq cur n) z)) by (by apply list_lookup_insert_eq).
  apply IH in E as (G3 & Hl & Hempty & Hmean).
  - split_and!; [etransitivity; [exact G1|etransitivity; [exact G2|exact G3]]|done| |].
    + intros j z' Hj Hz' Hp. apply elem_of_cons in Hj as [->|Hj]; [|by eapply Hempty].
      assert (G13 : grow zs1 zs') by (etransitivity; [exact G2|exact G3]).
      destruct (Forall2_lookup_l _ _ _ _ _ G13 Hz1) as (z2 & Hz2 & _ & Ee & l & Hl2). simplify_eq. rewrite Ee.
      change (n = 0%nat). rewrite Hp in Hl2. cbn in Hl2. destruct n; [done|]. destruct (z_procs z); done.
    + intros Hm. rewrite (Hmean Hm). subst n. rewrite Hm, Z.div_0_r. cbn. lia.
  - rewrite (Forall2_length _ _ _ (transitivity G1 G2)) in Htodo. done.
  - destruct (decide (n = 0%nat)) as [Hn|Hn].
    + rewrite Hn, Nat.add_0_r. destruct Hlast as [|Hu]; [by left|right]. by apply (used_grow _ _ _ (transitivity G1 G2)).
    + right. apply (used_grow _ _ _ G2). exists (add_procs (seq cur n) z). split; [by eapply list_elem_of_lookup_2|].
      cbn. apply elem_of_app. right. apply elem_of_seq. lia.
Qed.

(** The number of zones without rank. *)
Definition remaining (zs : list zone) : nat := length (List.filter no_proc zs).

Lemma no_proc_add r z : no_proc (add_procs [r] z) = false.
Proof. unfold no_proc. apply bool_decide_eq_false. cbn. by destruct (z_procs z). Qed.

Lemma remaining_fill cur mean n zs : (remaining (fill_rank cur mean n zs) <= remaining zs)%nat.
Proof.
  unfold remaining. revert n. induction zs as [|z zs IH]; intros n; cbn [fill_rank]; [done|].
  destruct (no_proc z) eqn:Ez; cbn [andb List.filter]; rewrite ?Ez; [|apply IH].
  destruct (_ <=? mean); cbn [List.filter]; rewrite ?no_proc_add, ?Ez; cbn [length].
  - specialize (IH (n + z_elem z)). lia.
  - specialize (IH n). lia.
Qed.

(** The first zone without rank gets one. *)
Lemma fill_rank_used cur mean n zs :
  existsb no_proc zs = true -> (forall z, z ∈ zs -> no_proc z = true -> n + z_elem z <= mean) ->
  used cur (fill_rank cur mean n zs) /\ (remaining (fill_rank cur mean n zs) < remaining zs)%nat.
Proof.
  revert n. induction zs as [|z zs IH]; intros n He Hs; [done|]. cbn [existsb] in He. cbn [fill_rank].
  destruct (no_proc z) eqn:Ez; cbn [andb orb] in *.
  - assert (Hn : n + z_elem z <= mean) by (apply Hs; [left|done]). destruct (Z.leb_spec (n + z_elem z) mean); [|lia]. split.
    + exists (add_procs [cur] z). split; [left|]. cbn. apply elem_of_app. right. by apply list_elem_of_singleton.
    + pose proof (remaining_fill cur mean (n + z_elem z) zs). unfold remaining in *. cbn [List.filter].
      rewrite no_proc_add, Ez. cbn [length]. lia.
  - destruct (IH n He) as [(z' & Hz' & Hr) Hlt]; [intros; apply Hs; [by right|done]|]. split.
    + exists z'. split; [by right|done].
    + unfold remaining in *. cbn [List.filter]. by rewrite Ez.
Qed.

(** The first loop on the remaining zones ends, and the last rank it takes is in range or used. *)
Lemma fill_ranks_spec fuel n_rank mean zs cur :
  (cur <= n_rank)%nat \/ used (cur - 1) zs ->
  (cur < n_rank)%nat /\ (n_rank - cur <= fuel)%nat \/
  (forall z, z ∈ zs -> no_proc z = true -> z_elem z <= mean) /\ (remaining zs <= fuel)%nat ->
  exists zs' cur', fill_ranks fuel n_rank mean zs cur = Ret (zs', cur') /\ grow zs zs' /\
    ((cur' <= n_rank)%nat \/ used (cur' - 1) zs').
Proof.
  revert zs cur. induction fuel as [|fuel IH]; intros zs cur Hlast Hcase; cbn [fill_ranks];
    (destruct (existsb no_proc zs) eqn:E; [|exists zs, cur; by split_and!]).
  { exfalso. destruct Hcase as [[? ?]|[_ Hl]]; [lia|]. apply existsb_exists in E as (z & Hz & Hp).
    unfold remaining in Hl. assert (Hin : In z (List.filter no_proc zs)) by (by apply List.filter_In).
    destruct (List.filter no_proc zs); [done|cbn in Hl; lia]. }
  pose proof (grow_fill cur mean 0 zs) as G. set (zs1 := fill_rank cur mean 0 zs) in *.
  destruct (Nat.eqb_spec n_rank (S cur)) as [Hn|Hn]; [exists zs1, (S cur); split_and!; [done|done|left; lia]|].
  destruct (IH zs1 (S cur)) as (zs' & cur' & E' & G' & Hc); [| |exists zs', cur'; split_and!; [done|by etransitivity|done]].
  - destruct Hcase as [[Hc Hf]|[Hs Hf]]; [left; lia|right]. rewrite Nat.sub_succ, Nat.sub_0_r.
    by apply fill_rank_used.
  - destruct Hcase as [[Hc Hf]|[Hs Hf]]; [left; lia|right].
    destruct (fill_rank_used cur mean 0 zs E) as [_ Hlt]; [intros; by apply Hs|]. fold zs1 in Hlt. split; [|lia].
    intros z' Hz' Hp. apply list_elem_of_lookup in Hz' as (i & Hi).
    destruct (Forall2_lookup_r _ _ _ _ _ G Hi) as (z & Hz & _ & Ee & l & Hl). rewrite Ee.
    apply Hs; [by eapply list_elem_of_lookup_2|]. unfold no_proc in *. apply bool_decide_eq_true in Hp.
    apply bool_decide_eq_true. rewrite Hp in Hl. by destruct (z_procs z).
Qed.

(** All the ranks of the zones are below [n]. *)
Definition in_range (n : nat) (zs : list zone) : Prop := forall z r, z ∈ zs -> r ∈ z_procs z -> (r < n)%nat.

Lemma loads_spec load zs :
  loads load zs = Raise IndexError \/
  exists load', loads load zs = Ret load' /\ length load' = length load /\ in_range (length load) zs.
Proof.
  revert load. induction zs as [|z zs IH]; intros load; cbn [loads].
  { right. exists load. split_and!; [done|done|]. intros z r Hz. by apply not_elem_of_nil in Hz. }
  unfold add_load. destruct (forallb _ (z_procs z)) eqn:E; [|by left]. cbn [mbind py_bind].
  set (load1 := imap _ load). assert (L1 : length load1 = length load) by apply length_imap.
  destruct (IH load1) as [|(load' & E' & L' & Hr)]; [by left|right]. exists load'. rewrite L1 in *.
  split_and!; [done|done|]. intros z' r Hz Hin. apply elem_of_cons in Hz as [->|Hz]; [|by eapply Hr].
  rewrite forallb_forall in E. apply Nat.ltb_lt, E. by apply list_elem_of_In.
Qed.

Lemma argmin_loop_lt i best m l : (best < i)%nat -> (argmin_loop i best m l < i + length l)%nat.
Proof.
  revert i best m. induction l as [|x l IH]; intros i best m Hb; cbn [argmin_loop length]; [lia|].
  rewrite Nat.add_succ_r. destruct (SFltb x m); apply IH; lia.
Qed.

(** Zones that have at least a rank, all in range. *)
Definition served (n : nat) (zs : list zone) : Prop := in_range n zs /\ forall z, z ∈ zs -> z_procs z <> [].

Lemma place_remaining_spec n load zs :
  length load = n -> (0 < n)%nat -> in_range n zs ->
  exists zs', place_remaining load zs = Ret zs' /\ grow zs zs' /\ served n zs'.
Proof.
  intros Hl Hn. revert load Hl. induction zs as [|z zs IH]; intros load Hl Hr; cbn [place_remaining].
  { exists []. split_and!; [done|constructor|]. split; [done|]. intros z Hz. by apply not_elem_of_nil in Hz. }
  assert (Hr' : in_range n zs) by (intros z' r Hz; apply Hr; by right).
  assert (Hcons : forall z' zs', served n zs' -> z_procs z' <> [] -> (forall r, r ∈ z_procs z' -> (r < n)%nat) -> served n (z' :: zs')).
  { intros z' zs' [H1 H2] Hne Hin. split.
    - intros y r Hy. apply elem_of_cons in Hy as [->|Hy]; [apply Hin|by apply H1].
    - intros y Hy. apply elem_of_cons in Hy as [->|Hy]; [done|by apply H2]. }
  destruct (no_proc z) eqn:Ez.
  - destruct load as [|x load]; [cbn in Hl; lia|]. cbn [argmin mbind py_bind].
    set (k := argmin_loop 1 0 x load). assert (Hk : (k < n)%nat).
    { pose proof (argmin_loop_lt 1 0 x load). cbn in Hl. unfold k. lia. }
    destruct (IH (alter (fun y => fadd y (of_int (z_elem z))) k (x :: load))) as (zs' & E & G & Hs); [by rewrite length_alter|done|].
    rewrite E. exists (add_procs [k] z :: zs'). split_and!; [done|constructor; [apply grows_add|done]|].
    apply Hcons; [done|cbn; by destruct (z_procs z)|]. cbn. intros r [Hin|Hin%list_elem_of_singleton]%elem_of_app; [|lia].
    apply (Hr z r); [left|done].
  - destruct (IH load Hl Hr') as (zs' & E & G & Hs). rewrite E. exists (z :: zs').
    split_and!; [done|constructor; [reflexivity|done]|]. apply Hcons; [done| |].
    + unfold no_proc in Ez. by apply bool_decide_eq_false in Ez.
    + intros r. apply Hr. left.
Qed.

Lemma max_zone_loop_lt i best m zs : (best < i)%nat -> (max_zone_loop i best m zs < i + length zs)%nat.
Proof.
  revert i best m. induction zs as [|z zs IH]; intros i best m Hb; cbn [max_zone_loop length]; [lia|].
  rewrite Nat.add_succ_r. destruct (SFltb m _); apply IH; lia.
Qed.

Lemma use_ranks_spec fuel n zs cur :
  (cur <= n)%nat -> (n - cur <= fuel)%nat -> zs <> [] -> served n zs ->
  exists zs', use_ranks fuel n zs cur = Ret zs' /\ grow zs zs' /\ served n zs'.
Proof.
  revert zs cur. induction fuel as [|fuel IH]; intros zs cur Hc Hf Hne Hs; cbn [use_ranks];
    (destruct (Nat.eqb_spec cur n) as [->|Hcn]; [exists zs; split_and!; [done|reflexivity|done..]|]); [lia|].
  assert (Hi : exists i z, max_zone zs = Ret i /\ zs !! i = Some z).
  { destruct zs as [|z0 zs]; [done|]. eexists. cbn [max_zone].
    destruct (lookup_lt_is_Some_2 (z0 :: zs) (max_zone_loop 1 0 (np_div (z_elem z0) (zlen (z_procs z0))) zs)) as [z Hz].
    { apply (max_zone_loop_lt 1 0). lia. } by exists z. }
  destruct Hi as (i & z & Ei & Hz). rewrite Ei. cbn [mbind py_bind].
  rewrite (alter_insert _ _ _ _ Hz). set (zs1 := <[i := add_procs [cur] z]> zs).
  assert (G : grow zs zs1) by (by eapply grow_insert; [|apply grows_add]).
  assert (Hs1 : served n zs1).
  { destruct Hs as [H1 H2]. assert (Hzin : z ∈ zs) by (by eapply list_elem_of_lookup_2). split.
    - intros y r Hy Hin. apply elem_of_inserted in Hy as [->|Hy]; [|by eapply H1].
      cbn in Hin. apply elem_of_app in Hin as [Hin|Hin%list_elem_of_singleton]; [by eapply H1|lia].
    - intros y Hy. apply elem_of_inserted in Hy as [->|Hy]; [|by apply H2]. cbn. by destruct (z_procs z). }
  destruct (IH zs1 (S cur)) as (zs' & E & G' & Hs'); [lia|lia| |done|].
  - intros E. apply Forall2_length in G. rewrite E in G. by destruct zs.
  - exists zs'. split_and!; [done|by etransitivity|done..].
Qed.

(** The iterator is consumed by the ranks of the zone. *)
Lemma unpack_spec procs it ranks :
  length (List.filter (fun i => bool_decide (i ∈ procs)) ranks) = length it ->
  exists row, unpack procs it ranks = Ret row /\ length row = length ranks /\ zsum row = zsum it /\
    forall i x, row !! i = Some x -> x = 0 \/ x ∈ it.
Proof.
  revert it. induction ranks as [|i ranks IH]; intros it Hl; cbn [unpack List.filter] in *.
  { destruct it; [|done]. exists []. by split_and!. }
  case_bool_decide as Hi.
  - destruct it as [|x it]; [done|]. destruct (IH it) as (row & E & L & S & Hx); [cbn in Hl; lia|].
    rewrite E. exists (x :: row). split_and!; [done|cbn; lia|by rewrite !zsum_cons, S|].
    intros [|j] y Hy; simplify_eq/=; [right; left|]. destruct (Hx _ _ Hy); [by left|right; by right].
  - destruct (IH it Hl) as (row & E & L & S & Hx). rewrite E. exists (0 :: row).
    split_and!; [done|cbn; lia|rewrite zsum_cons; lia|]. intros [|j] y Hy; simplify_eq/=; [by left|by eapply Hx].
Qed.

Lemma ranks_of procs n :
  NoDup procs -> (forall r, r ∈ procs -> (r < n)%nat) ->
  length (List.filter (fun i => bool_decide (i ∈ procs)) (seq 0 n)) = length procs.
Proof.
  intros Hnd Hr. apply Permutation_length, NoDup_Permutation; [|done|].
  - apply NoDup_ListNoDup, List.NoDup_filter, NoDup_ListNoDup, NoDup_seq.
  - intros i. rewrite list_elem_of_In, List.filter_In, <- list_elem_of_In, elem_of_seq, bool_decide_eq_true.
    split; [tauto|]. intros Hi. pose proof (Hr i Hi). split; [lia|done].
Qed.

(** What is returned for a zone: its elements are dealt in nearly equal numbers. *)
Definition dealt (n_rank : nat) (n : Z) (row : list Z) : Prop :=
  length row = n_rank /\ zsum row = n /\
  exists q, forall i x, row !! i = Some x -> x = 0 \/ q <= x <= q + 1.

Lemma zone_repart_spec n_rank z :
  0 <= z_elem z -> z_procs z <> [] -> (forall r, r ∈ z_procs z -> (r < n_rank)%nat) ->
  exists row, zone_repart n_rank z = Ret (z_name z, row) /\ dealt n_rank (z_elem z) row.
Proof.
  intros He Hne Hr. unfold zone_repart. set (procs := remove_dups (z_procs z)).
  assert (Hp : (0 < length procs)%nat).
  { subst procs. destruct (z_procs z) as [|r l] eqn:E; [done|].
    assert (Hin : r ∈ remove_dups (r :: l)) by (apply elem_of_remove_dups; left).
    destruct (remove_dups (r :: l)); [by apply not_elem_of_nil in Hin|cbn; lia]. }
  destruct (homogeneous_spec (z_elem z) (length procs) He Hp) as (Hl & Hs & Hx).
  destruct (unpack_spec procs (homogeneous_repart (z_elem z) (length procs)) (seq 0 n_rank)) as (row & E & L & S & H).
  { rewrite Hl. apply ranks_of; [apply NoDup_remove_dups|]. intros r Hin. apply Hr. by apply (elem_of_remove_dups (z_procs z) r). }
  rewrite E. exists row. split; [done|]. split_and!; [by rewrite L, length_seq|by rewrite S, Hs|].
  exists (z_elem z / Z.of_nat (length procs)). intros i x Hi. destruct (H i x Hi); [by left|right; by apply Hx].
Qed.

(** The zones of the code, without ranks at first. *)
Definition zones_of (l : list (string * Z)) : list zone := map (fun '(name, n) => Zone name n []) l.

Lemma grow_zones l zs i z : grow (zones_of l) zs -> zs !! i = Some z -> l !! i = Some (z_name z, z_elem z).
Proof.
  intros G Hi. destruct (Forall2_lookup_r _ _ _ _ _ G Hi) as (z0 & Hz0 & Hn & He & _).
  apply list_lookup_fmap_Some in Hz0 as ([name n] & -> & Hl). cbn in *. by rewrite Hn, He.
Qed.

(** The last loop: when each zone has ranks of the communicator, each zone gets its line. *)
Lemma zone_reparts_spec n_rank l zs :
  grow (zones_of l) zs -> Forall (fun z => 0 <= z.2) l ->
  (forall z, z ∈ zs -> z_procs z <> []) -> (forall z r, z ∈ zs -> r ∈ z_procs z -> (r < n_rank)%nat) ->
  exists repart, mapM (zone_repart n_rank) zs = Ret repart /\
    Forall2 (fun z r => r.1 = z.1 /\ dealt n_rank z.2 r.2) l repart.
Proof.
  intros G Hpos Hp Hr.
  destruct (list_choice (fun i z r => zone_repart n_rank z = Ret r /\ r.1 = z_name z /\ dealt n_rank (z_elem z) r.2) zs) as (repart & Lr & Hr').
  { intros i z Hi. pose proof (list_elem_of_lookup_2 _ _ _ Hi) as Hz. destruct (zone_repart_spec n_rank z) as (row & E & Hd).
    - apply (grow_zones _ _ _ _ G), list_elem_of_lookup_2 in Hi. rewrite Forall_forall in Hpos. by apply Hpos in Hi.
    - by apply Hp.
    - intros r. by apply Hr.
    - by exists (z_name z, row). }
  exists repart. split.
  - apply py_mapM_lookup; [done|]. intros i z r Hz Hr0. by apply (Hr' i z r).
  - apply Forall2_same_length_lookup. pose proof (Forall2_length _ _ _ G) as Lg. unfold zones_of in Lg. rewrite length_map in Lg.
    split; [lia|]. intros i z r Hz Hr0. destruct (lookup_lt_is_Some_2 zs i) as [z4 Hz4]; [apply lookup_lt_Some in Hr0; lia|].
    destruct (Hr' i z4 r Hz4 Hr0) as (_ & Hn4 & Hd).
    assert (Hg : l !! i = Some (z_name z4, z_elem z4)) by by eapply grow_zones.
    simplify_eq. done.
Qed.



(** A single zone cannot be balanced when the remainder of its elements on the ranks is at least
    their quotient: it is given more ranks than there are, and IndexError is raised. *)
Theorem single_zone_index_error name n n_rank :
  (0 < n_rank)%nat -> 0 < n / Z.of_nat n_rank <= n mod Z.of_nat n_rank ->
  balance_with_uniform_weights [(name, n)] n_rank = Raise IndexError.
Proof.
  intros Hn Hm. unfold balance_with_uniform_weights. cbn [sort_by insert_by foldr map snd].
  change (zsum [n]) with (n + 0). rewrite Z.add_0_r. set (mean := n / Z.of_nat n_rank) in *.
  cbn [py_min mbind py_bind length seq affect_ranks lookup list_lookup z_elem].
  assert (Hk : Z.of_nat n_rank + 1 <= n / mean).
  { apply Z.div_le_lower_bound; [lia|]. pose proof (Z.div_mod n (Z.of_nat n_rank)). subst mean. nia. }
  set (k := Z.to_nat (n / mean)). assert (Hkn : (n_rank < k)%nat) by lia.
  set (z := add_procs (seq 0 k) (Zone name n [])).
  assert (Hz : no_proc z = false) by (apply bool_decide_eq_false; cbn; destruct k; [lia|done]).
  change (<[0%nat := z]> [Zone name n []]) with [z]. cbn [share_rest]. rewrite Hz. cbn [negb orb length Nat.add fill_ranks existsb].
  rewrite Hz. cbn [orb mbind py_bind loads]. unfold add_load. rewrite length_replicate.
  assert (Hf : forallb (fun r => r <? n_rank)%nat (z_procs z) = false); [|by rewrite Hf].
  apply not_true_iff_false. rewrite forallb_forall. intros H. specialize (H n_rank).
  rewrite Nat.ltb_irrefl in H. discriminate H. apply list_elem_of_In. cbn. apply elem_of_seq. lia.
Qed.

Lemma single_zone_index_error_witness : balance_with_uniform_weights [("Zone", 11)] 4 = Raise IndexError.
Proof. apply single_zone_index_error; [lia|]. split; [reflexivity|discriminate]. Defined.

(** ** Requests of parts *)

(** An index is in a single bin. *)
Lemma single_bin (bins : list (list nat)) i :
  NoDup (concat bins) -> i ∈ concat bins ->
  exists r, (r < length bins)%nat /\ forall k b, bins !! k = Some b -> i ∈ b <-> k = r.
Proof.
  induction bins as [|b bins IH]; intros Hnd Hi; cbn in *; [by apply not_elem_of_nil in Hi|].
  apply NoDup_app in Hnd as (_ & Hdis & Hnd). apply elem_of_app in Hi as [Hi|Hi].
  - exists 0%nat. split; [lia|]. intros [|k] b' Hb; simplify_eq/=; [done|]. split; [|done]. intros Hb'. exfalso.
    apply (Hdis i Hi). apply elem_of_concat. exists b'. split; [by eapply list_elem_of_lookup_2|done].
  - destruct (IH Hnd Hi) as (r & Hr & H). exists (S r). split; [lia|]. intros [|k] b' Hb; simplify_eq/=.
    + split; [|done]. intros Hb'. by destruct (Hdis i Hb').
    + rewrite (H k b' Hb). lia.
Qed.

(** Without splitting, every block is given as a whole to exactly one rank. *)
Theorem nosplit_repart_spec nb_elts n_rank :
  (0 < n_rank)%nat -> Forall (fun n => 0 <= n) nb_elts ->
  exists repart, nosplit_repart nb_elts n_rank = Ret repart /\ length repart = length nb_elts /\
    forall i n row, nb_elts !! i = Some n -> repart !! i = Some row ->
      exists r, (r < n_rank)%nat /\ row = map (fun k => if (k =? r)%nat then n else 0) (seq 0 n_rank).
Proof.
  intros Hn Hpos. unfold nosplit_repart. destruct (Nat.eqb_spec n_rank 1) as [->|Hn1].
  { eexists. split; [done|]. split; [apply length_map|]. intros i n row Hi Hrow.
    apply list_lookup_fmap_Some in Hrow as (n' & -> & Hn'). simplify_eq. exists 0%nat. split; [lia|done]. }
  destruct (Nat.leb_spec (length nb_elts) n_rank) as [Hle|Hgt].
  { eexists. split; [done|]. split; [apply length_imap|]. intros i n row Hi Hrow. rewrite list_lookup_imap, Hi in Hrow.
    cbn in Hrow. simplify_eq. exists i. split; [apply lookup_lt_Some in Hi; lia|done]. }
  assert (HM : exists M, Forall (fun n => 0 <= n <= M) nb_elts).
  { exists (foldl Z.max 0 nb_elts). apply Forall_forall. intros x Hx. rewrite Forall_forall in Hpos.
    split; [by apply Hpos|by apply foldl_max_ge]. }
  destruct HM as [M HM]. destruct (karmarkar_bins nb_elts n_rank M) as (bins & E & Hl & Hp & _); [by destruct nb_elts; cbn in Hgt; [lia|]|done|done|].
  rewrite E. eexists. split; [done|]. split; [apply length_imap|]. intros i n row Hi Hrow.
  rewrite list_lookup_imap, Hi in Hrow. cbn in Hrow. simplify_eq.
  destruct (single_bin bins i) as (r & Hr & H).
  { rewrite Hp. apply NoDup_seq. } { rewrite Hp. apply elem_of_seq. apply lookup_lt_Some in Hi. lia. }
  exists r. split; [lia|]. apply list_eq. intros k.
  rewrite !lookup_map.
  destruct (bins !! k) as [b|] eqn:Eb; cbn.
  - rewrite lookup_seq_lt by (apply lookup_lt_Some in Eb; lia). cbn. f_equal.
    destruct (Nat.eqb_spec k r) as [->|Hk]; [rewrite bool_decide_eq_true_2|rewrite bool_decide_eq_false_2]; [done|by apply (H r b)|done|].
    intros Hin. by apply (H k b Eb) in Hin.
  - apply lookup_ge_None in Eb. rewrite lookup_seq_ge by lia. done.
Qed.

Lemma nosplit_repart_spec_witness :
  exists repart, nosplit_repart [9; 4; 7; 6] 2 = Ret repart /\ repart = [[9; 0]; [4; 0]; [0; 7]; [0; 6]] /\ length repart = 4%nat.
Proof.
  destruct (nosplit_repart_spec [9; 4; 7; 6] 2) as (repart & E & Hl & _); [lia|repeat constructor; lia|].
  exists repart. split; [exact E|]. split; [|exact Hl]. vm_compute in E. by injection E as <-.
Defined.

(** Consecutive slices. *)
Lemma concat_slices {A} (l : list A) parts :
  concat (map (fun i => take (default 0%nat (parts !! i)) (drop (sum_list (take i parts)) l)) (seq 0 (length parts))) =
  take (sum_list parts) l.
Proof.
  induction parts as [|p parts IH] using rev_ind; [done|]. rewrite length_app. cbn [length]. rewrite Nat.add_1_r, seq_S.
  rewrite map_app, concat_app. cbn [map concat Nat.add]. rewrite app_nil_r.
  rewrite (map_ext_in _ (fun i => take (default 0%nat (parts !! i)) (drop (sum_list (take i parts)) l))).
  - rewrite IH. rewrite lookup_app_r, Nat.sub_diag by lia. cbn. rewrite take_app_length, sum_list_with_app. cbn.
    rewrite Nat.add_0_r. by rewrite take_take_drop.
  - intros i Hi%in_seq. rewrite lookup_app_l, take_app_le by lia. done.
Qed.

Lemma rank_repart_slice n_parts i n :
  (i < length n_parts)%nat ->
  rank_repart n_parts i n =
  take (default 0%nat (n_parts !! i)) (drop (sum_list (take i n_parts)) (homogeneous_repart n (sum_list n_parts))).
Proof.
  intros Hi. unfold rank_repart. destruct (lookup_lt_is_Some_2 n_parts i Hi) as [p Hp].
  assert (Hsum : forall k, (k <= length n_parts)%nat -> scan 0 (map Z.of_nat n_parts) !! k = Some (Z.of_nat (sum_list (take k n_parts)))).
  { intros k Hk. rewrite scan_lookup by (rewrite length_map; lia). f_equal. rewrite firstn_map, Z.add_0_l.
    induction (take k n_parts) as [|x l IH]; [done|]. cbn [map]. rewrite zsum_cons, IH. cbn. lia. }
  rewrite !Hsum by lia. cbn [default from_option id]. rewrite py_slice_nonneg by lia. rewrite Hp. cbn [default from_option id].
  rewrite (take_S_r _ _ _ Hp), sum_list_with_app. cbn [sum_list_with id]. rewrite !Nat2Z.id. f_equal. lia.
Qed.

(** For any numbers of parts requested by the ranks, each rank gets as many parts as it requests,
    and the parts of the ranks put together are the homogeneous parts of the zone, which sum to its
    number of elements. *)
Theorem npart_parts_spec n_parts n :
  0 <= n -> (0 < sum_list n_parts)%nat ->
  (forall i p, n_parts !! i = Some p -> length (rank_repart n_parts i n) = p) /\
  concat (map (fun i => rank_repart n_parts i n) (seq 0 (length n_parts))) = homogeneous_repart n (sum_list n_parts) /\
  zsum (homogeneous_repart n (sum_list n_parts)) = n.
Proof.
  intros Hn Hp. destruct (homogeneous_spec n (sum_list n_parts) Hn Hp) as (Hl & Hs & _). split_and!; [| |done].
  - intros i p Hi. rewrite rank_repart_slice by (by eapply lookup_lt_Some). rewrite Hi. cbn [default from_option id].
    rewrite length_take, length_drop, Hl. apply Nat.min_l.
    pose proof (take_drop_middle n_parts i p Hi) as E. rewrite <- E at 1. rewrite sum_list_with_app. cbn. lia.
  - rewrite <- (firstn_all2 (homogeneous_repart n (sum_list n_parts)) (n := sum_list n_parts)) by lia.
    rewrite <- concat_slices. f_equal. apply map_ext_in. intros i Hi%in_seq. apply rank_repart_slice. lia.
Qed.

Lemma npart_parts_spec_witness :
  rank_repart [2; 0; 1]%nat 0 11 = [4; 4] /\ length (rank_repart [2; 0; 1]%nat 2 11) = 1%nat.
Proof.
  split; [reflexivity|]. apply (proj1 (npart_parts_spec [2; 0; 1]%nat 11 ltac:(lia) ltac:(cbn; lia)) 2%nat). reflexivity.
Defined.

End Balancing.
